(* ===== verification/_CoqProject ===== *)
-Q . S2P
Prelude.v
JsNumber.v
Apportion.v
Totals.v
OrderState.v
Json.v
JsonText.v
Pricing.v
Coupon.v
LineQuantity.v
OrderEdit.v
Tender.v
Loyalty.v
LoyaltyLedger.v
AccountCredit.v
EditFunding.v
FundingFacts.v
FundingReplay.v
FundingOrder.v
CreditRestore.v
RestoreFacts.v
PromotionStack.v
Effects.v
Settlement.v
SettlementFacts.v
Settle.v
SettleFacts.v
Reservation.v
ReservationFacts.v
Locks.v
LockFacts.v
Refunds.v
RefundRequest.v
RefundFacts.v
RefundSafety.v
OrderNumber.v
OrderNumberFacts.v
OrderSequence.v
OrderCounter.v
Stock.v
StockFacts.v
StockHolds.v
JsDate.v
LicensePolicy.v
SignFacts.v
Licenses.v
LicenseFacts.v
SeatCaps.v
LicenseIssue.v
NetAddress.v
OutboundUrl.v
NetFacts.v
OutboundFacts.v
RateLimit.v
RateFacts.v
ClientAddress.v
ClientFacts.v
RateBudgets.v
Leases.v
LeaseFacts.v
Outbox.v
OutboxFacts.v
WebhookOutbox.v
EmailOutbox.v
EmailFacts.v
PushOutbox.v
Admission.v
