(* ===== verification/Prelude.v ===== *)
(** Verification of the commerce core of sellright.

    * The program

    [src/packages/api] is a multi-store commerce server on Postgres. Its core is
    under [src/packages/api/src]: [money/] prices an order, [orders/] edits it and
    derives its statuses, [payments/] takes and gives back money, [loyalty/] and
    [account-credit/] keep the two balances a customer owns, and [db/locks.ts] and
    [payments/settlement/] make all of it safe under concurrency. The routes, the
    storefronts and the admin call into it.

    A checkout prices the cart ([calculateOrderTotals], or the captured profile of
    [promotion-stack.ts]), then places an order in state PendingPayment with its
    reservations and credit holds. A provider's answer or a webhook reaches
    [applyPaymentResult] ([settle.ts]), which builds settlement operations and
    gives them to [recordSettlementOperation] ([settlement/record.ts]), the only
    writer of payments and order states. That writes the operation, its mutations
    and one pending effect per fulfilment consequence (licences, loyalty, mail) in
    one transaction; the effects engine ([settlement/effects.ts]) runs them later,
    at least once, each committed at most once. Refunds ([payments/refunds.ts]) are
    requested in one transaction, sent to the provider, and finalized in another.
    Every one of these transactions first takes its rows through [db/locks.ts].
    A paid order's licences are issued by the effects engine ([licensing/]), and
    devices then activate, lease and renew seats on them. Requests are bounded by
    [auth/rate-limit.ts] and everything the server itself dials goes through
    [security/outbound-url.ts]. Mail, webhooks and pushes are queued in the transaction that
    causes them and delivered by background passes, which [jobs/admission.ts] admits and
    whose single leader [jobs/leader-lock.ts] elects; [db/client.ts] refuses the commits of
    a pass that lost its lease.

    * How it is modelled

    Functions become functions. A store's tables are lists of rows, oldest first,
    one list per table (row-level security scopes every query to one store); a
    statement of SQL is the list function it computes. A transaction is a function
    from state to [result error state] ([Ok]/[Err], with [let!] and [guard!] of this
    file): a throw is [Err] and has no state, since the caller rolls back.
    Savepoints keep the state at their start. Concurrency is a step relation whose
    steps are transactions; where a worker keeps data across transactions
    ([Effects.Job]) it is part of the state. Uuids come from a parameter
    [gen_random_uuid] and a counter in the store. The clock is an argument [now],
    in milliseconds. Cents, points and quantities are [Z]; everything the code
    computes with a division or a fraction goes through [JsNumber.fl], the
    binary64 rounding of ECMAScript numbers, and integers are checked against
    2^53 - 1 where the code does. JSON columns are [Json.json].

    Code outside the repository and modules that are not modelled are parameters or
    type classes, whose laws are what their callers rely on: [SettlementDeps] with
    [ChokepointDeps], [EditActivation] with [EditActivationLaws], [RefundDeps] with
    [RefundDepsLaws], the policy projections of reservations, the handlers of
    effects, [hashtextextended], sha256, signatures, DNS and the transport, and
    localeCompare. JSON.parse and JSON.stringify are functions in [JsonText]; older
    files take JSON.parse as a parameter. Every theorem that has such a hypothesis is
    applied to a concrete instance by its witness.

    * Files, in dependency order (paths under src/packages/api/src)

    Shared: [Prelude] (results, lists, strings, sorting, tactics), [JsNumber]
    (binary64), [Json], [Apportion] (largest remainder).

    - [Totals]: money/totals.ts; [Pricing]: money/{pricing,tax,currency,gift-card}.ts
      and shipping/calculator.ts; [Coupon]: money/{coupon,coupon-context,auto-discount}.ts;
      [PromotionStack]: money/promotion-stack.ts. Pure functions, by the source's names.
    - [OrderState]: money/fsm.ts, orders/status.ts; [LineQuantity]: orders/line-quantity.ts;
      [OrderEdit]: orders/order-edit.ts ([applyEditOps], [priceWorkingOrder], [diffLines], ...).
    - [Tender]: the balance reads of payments/{tender,settle,edit-refund,hold}.ts.
    - [Loyalty]: money/loyalty.ts; [LoyaltyLedger]: loyalty/{ledger,bonus}.ts, state
      [LedgerDb], one function per handler.
    - [AccountCredit]: account-credit/{math,service}.ts, state [CreditDb], operations
      [CreditOp] run by [run_credit_op].
    - [JsonText]: JSON.stringify, JSON.parse and [serialize]. [EditFunding]:
      account-credit/edit-funding.ts by the source's names ([readState],
      [planEditCreditFunding], [planCreditUnitReturn], [readCreditUnitReturns], ...), pure
      functions of a redemption and its history; [FundingFacts] (the closed form [proves]
      of reading a history), [FundingReplay] (posting a plan), [FundingOrder].
    - [CreditRestore], [RestoreFacts]: the restorations of account-credit/service.ts
      ([restoreRefund], [restoreManual], [postEditCreditFunding]), state [RestoreDb]; runs
      [run_restore] mix them with the other credit handlers and with foreign changes.
    - [Effects]: payments/settlement/effects.ts, state [FxDb]; several workers are [FxSys]
      with steps [fx_step].
    - [Settlement], [SettlementFacts]: payments/settlement/{ops,record}.ts, state
      [FxDb * SettleDb X], the chokepoint [recordSettlementOperation], runs [settle_run].
    - [Settle], [SettleFacts]: payments/settle.ts ([applyPaymentResult]).
    - [Reservation], [ReservationFacts]: payments/reservation.ts, the store extended by
      [ResTables], steps [res_step]; [reservation_deps] plugs it into the chokepoint.
    - [Locks], [LockFacts]: db/locks.ts; [withLockedSet] against an environment of other
      transactions, [LockTx] for the waits between several of them.
    - [Refunds] (rows, receipts, [finalizeRefund]), [RefundRequest] ([prepareRefund],
      [requestRefund]), [RefundFacts] (frames), [RefundSafety] (guarantees):
      payments/refunds.ts, the store extended by [RefundTables], steps [refund_step] (requests,
      answers, and what webhooks, imports and operators do to refunds).
    - [OrderNumber]: orders/order-number.ts and the settings handlers of order numbers, state
      [tx], which also holds the rows other writers commit while a transaction runs;
      [OrderNumberFacts] (codes and their pattern), [OrderSequence] (allocation and retry),
      [OrderCounter] (runs [order_step] of orders, imports, settings and purges).
    - [Stock]: orders/stock-reservation.ts, orders/cancel-unpaid.ts, disputes/nmi-chargeback.ts
      and the cancel and fulfilment handlers of routes/admin.ts, state [Shop] over the
      [Goods] of [Refunds]; [StockFacts] (reservations), [StockHolds] (the ledger along runs
      [shop_step]).
    - [JsDate], [LicensePolicy] (policies, grants, lifecycle plans, signed formats),
      [Licenses] (the handlers over the licence tables), [SignFacts], [LicenseFacts],
      [SeatCaps], [LicenseIssue]: licensing/*.ts; a run is a list of [LicOp].
    - [NetAddress] (address texts), [OutboundUrl], [NetFacts], [OutboundFacts]:
      security/outbound-url.ts.
    - [RateLimit] (the memory and Postgres backends, the refusal memo, the reaper; processes
      that share the table are [System] with steps [sys_step]), [RateFacts],
      [ClientAddress], [ClientFacts], [RateBudgets]: auth/rate-limit{-backend,}.ts.
    - [Leases], [LeaseFacts]: jobs/leader-lock.ts and the lease fence of db/client.ts; the
      state is [World], one database statement or step of a process is an [action], runs are
      [run_actions].
    - [Outbox], [OutboxFacts]: the rows, claims and settlements the three outboxes share, the
      class an outbox implements ([Outbox], laws [OutboxLaws]) and the machine [qstep] of its
      workers; implementations [WebhookOutbox] (webhooks/emit.ts, canary/marker.ts,
      jobs/webhook-reaper.ts), [EmailOutbox] with [EmailFacts] (email/outbox.ts),
      [PushOutbox] (push/outbox.ts).
    - [Admission]: jobs/admission.ts as steps [adm_step], and the slots of jobs/scheduler.ts.

    * What the theorems show

    - Money in: a captured provider reference settles once (every later call for it is
      answered as a replay and changes nothing), settled money is never downgraded or repriced, an order becomes Paid only by the state
      machine, from PendingPayment, when the usable tender covers it, and a contradicting
      or late capture is refused or raised to an operator ([SettlementFacts], [SettleFacts]).
    - Money out: whatever interleaves, the refund workflow never takes a payment's refunds
      beyond what it captured; what they hold beyond it was opened from outside (rows webhooks
      and imports insert, failed refunds that settle after all); a key buys one refund, a settled refund moves its order by the money on record, billed units and
      stock go back at most once ([RefundSafety]).
    - Pricing: the binary64 totals equal an exact integer specification, discounts stay
      within their lines and add up, every cent of the promotion stack is accounted for.
    - Balances: loyalty and account credit stay covered, within range and non-replaying over
      any sequence of operations; reversals converge to the proportional target. Restored
      credit conserves the redemption unit by unit, whatever the order of its rows; what a
      plan posts reads back as the state it announced, once; an order never gets back more
      than it redeemed and a refund restores once ([FundingFacts], [FundingReplay],
      [FundingOrder], [RestoreFacts]).
    - Effects: at most one commit per effect along every interleaving, ranks respected,
      every failure retried within bounds or raised for review.
    - Reservations: one live owner per thing, lawful moves only, consumed exactly by the
      settlement that pays; they refine the interface the chokepoint assumes.
    - Locks: the global order admits no cycle of waits, the body of a lock set runs only
      when the set covers what the subjects touch under the locks, and taking it ends.
    - Orders and edits: the state machine, quantities and edits keep history.
    - Order numbers: a code and its number determine each other; an allocation gives a free
      code and never runs out of attempts; the counter stays ahead of every existing code,
      so the previewed code is the next one; a conflict is retried ([OrderNumberFacts],
      [OrderSequence], [OrderCounter]).
    - Stock: a reservation is all or nothing, whatever its order; along every run
      the allocated units stay within the shelf and within what open lines hold, and for
      variants placed only reservable they are exactly what open lines hold and the shelf is
      the opening count plus its movements ([StockFacts], [StockHolds]). Two lemmas of
      [StockHolds] show how pre-order lines break the equality in the code.
    - Licences: seat and pool caps hold along every run of the handlers up to the devices
      that restoring StoreKit notifications re-activate uncounted (two lemmas of [SeatCaps]
      show that excess and the escape of rows without a pool), revoked licences are inert, spent leases dead, issuance converges, edits the gate admits revoke nothing,
      signed claims cannot be overridden ([SeatCaps], [LicenseFacts], [LicenseIssue],
      [SignFacts]).
    - Requests: an outbound request dials at most one address, and a public one; no window of
      a rate-limit key admits more than its cap, however processes interleave; the admin gate
      is exactly its three budgets ([OutboundFacts], [RateFacts], [RateBudgets]).
    - Background work: a commit under a lease is made by the pass that claimed it last, a
      lease changes hands only when free, released or expired, and a crashed leader blocks a
      job for one term at most ([LeaseFacts]). Every outbox that keeps the laws sends and
      settles each attempt at most once and ends each message at most once, whatever workers
      crash or lag; an abandoned mail leaves exactly one audit row; an e-mail pass always
      returns and counts what it did ([OutboxFacts], [EmailFacts], [WebhookOutbox],
      [PushOutbox]). Admission never exceeds its slots nor loses one, and each tick falls on
      its slot ([Admission]). Four lemmas there show where the code differs from its comments.

    * Fuel and bounds

    Recursion is structural except in a few loops. [Effects.effects_rounds] takes the
    source's own limit of rounds. [LoyaltyLedger.grant_birthdays_loop] takes fuel; one more
    than the number of customers is enough ([birthday_pass_complete]). [Locks.locked_loop]
    takes fuel; [locked_set_terminates] shows 2 * maxRestarts + 1 attempts are enough, and
    with [mustCommit] the number of rows the plan can still grow by plus maxRestarts + 1.
    [JsonText.parse_value] takes fuel, 2 * length + 2 in [JSON_parse]; [size_length] and
    [parse_print] show it is enough for every printed value. [OrderNumber.read_atoms] takes the
    length of the pattern ([read_orderCodePattern]). The retries of a rate-limit
    transaction are the source's own count.
    The exact totals hold for amounts up to the limits of [Totals.exact_range], within which
    binary64 rounding of a quotient cannot cross an integer.

    * Not modelled, and why

    Transport and rendering: HTTP routes, storefronts, admin UI, mobile app, e-mail bodies,
    deployment tools. They hold no rules of their own beyond calling the functions above.
    Network calls to providers: their answers are arguments. The staging service of order
    edits (orders/order-edit-service.ts; its stock deltas are outside the runs of
    [StockHolds]), the proof of imported credit origins and the
    current-credit pricing snapshot, dashboard reconciliation of provider events, invoices,
    StoreKit certificate verification, subscriptions, the timer registration of the scheduler
    and the rendering of messages are not modelled; the first three are
    parameters or interfaces here. SQL renderings of rules that exist
    as functions are not modelled. Overflow beyond 2^1023 and subnormal numbers are outside
    [JsNumber]; no operand of the code reaches them. *)

From Stdlib Require Import ZArith Lia Bool Ascii String OrdersEx.
From stdpp Require Import base list strings sorting sets.

#[global] Open Scope Z_scope.

(** ** The [result] type: a TypeScript function that may throw. *)

Inductive result (E A : Type) : Type :=
  | Ok (a : A)
  | Err (e : E).
Arguments Ok {E A} a.
Arguments Err {E A} e.

Definition bind_result {E A B} (m : result E A) (k : A -> result E B) : result E B :=
  match m with Ok a => k a | Err e => Err e end.

Definition is_ok {E A} (m : result E A) : bool :=
  match m with Ok _ => true | Err _ => false end.

Declare Scope js_scope.
Delimit Scope js_scope with js.
(** Conversion checks unfold the bind of a body before the functions it calls. *)
#[global] Strategy expand [bind_result].
Notation "'let!' x ':=' m 'in' k" := (bind_result m (fun x => k))
  (at level 10, x pattern, m at level 100, k at level 200) : js_scope.
(** [guard! b or e in k]: [if (!b) throw e; k]. *)
Notation "'guard!' b 'or' e 'in' k" := (if (b : bool) then k else Err e)
  (at level 10, b at level 100, e at level 100, k at level 200) : js_scope.
#[global] Open Scope js_scope.

Fixpoint map_result {E A B} (f : A -> result E B) (l : list A) : result E (list B) :=
  match l with
  | [] => Ok []
  | x :: xs => let! y := f x in let! ys := map_result f xs in Ok (y :: ys)
  end.

Fixpoint fold_result {E A S} (f : S -> A -> result E S) (s : S) (l : list A) : result E S :=
  match l with
  | [] => Ok s
  | x :: xs => let! s' := f s x in fold_result f s' xs
  end.

(** Invert every successful monadic step of a hypothesis. *)
Ltac inv_ok :=
  repeat match goal with
    | H : Ok _ = Ok _ |- _ => injection H; clear H; intros; subst
    | H : Err _ = Err _ |- _ => injection H; clear H; intros; subst
    | H : Ok _ = Err _ |- _ => discriminate H
    | H : Err _ = Ok _ |- _ => discriminate H
    | H : bind_result ?m _ = Ok _ |- _ =>
        let E := fresh "Em" in destruct m eqn:E; cbn [bind_result] in H
    | H : (if ?b then _ else Err _) = Ok _ |- _ =>
        let E := fresh "Eb" in destruct b eqn:E
    | H : (if ?b then Err _ else _) = Ok _ |- _ =>
        let E := fresh "Eb" in destruct b eqn:E
    end.

(** Turn boolean comparisons in the context into propositions. *)
Ltac bool_props :=
  repeat match goal with
    | H : (_ && _) = true |- _ => apply andb_true_iff in H; destruct H
    | H : (_ || _) = false |- _ => apply orb_false_iff in H; destruct H
    | H : negb _ = true |- _ => apply negb_true_iff in H
    | H : negb _ = false |- _ => apply negb_false_iff in H
    | H : (_ <=? _) = true |- _ => apply Z.leb_le in H
    | H : (_ <=? _) = false |- _ => apply Z.leb_gt in H
    | H : (_ <? _) = true |- _ => apply Z.ltb_lt in H
    | H : (_ <? _) = false |- _ => apply Z.ltb_ge in H
    | H : (_ =? _) = true |- _ => apply Z.eqb_eq in H
    | H : (_ =? _) = false |- _ => apply Z.eqb_neq in H
    end.

Section ResultLemmas.
Context {E A B S : Type}.

Lemma map_result_length (f : A -> result E B) l l' :
  map_result f l = Ok l' -> length l' = length l.
Proof.
  revert l'. induction l as [|x xs IH]; intros l' H; cbn in H; inv_ok; [done|].
  cbn. f_equal. by apply IH.
Qed.

Lemma map_result_Forall2 (f : A -> result E B) l l' :
  map_result f l = Ok l' <-> Forall2 (fun x y => f x = Ok y) l l'.
Proof.
  split.
  - revert l'. induction l as [|x xs IH]; intros l' H; cbn in H; inv_ok; constructor; auto.
  - induction 1 as [|x y xs ys Hxy _ IH]; cbn; [done|]. by rewrite Hxy, IH.
Qed.

Lemma fold_result_inv (P : S -> Prop) (f : S -> A -> result E S) l s s' :
  P s -> (forall t x t', x ∈ l -> P t -> f t x = Ok t' -> P t') ->
  fold_result f s l = Ok s' -> P s'.
Proof.
  revert s. induction l as [|x xs IH]; intros s Hs Hstep H; cbn in H; inv_ok; [done|].
  eapply (IH a); [|intros; eapply Hstep; eauto; by right|done].
  eapply Hstep; eauto. by left.
Qed.

Lemma fold_result_app (f : S -> A -> result E S) l1 l2 s :
  fold_result f s (l1 ++ l2) = let! s' := fold_result f s l1 in fold_result f s' l2.
Proof.
  revert s. induction l1 as [|x xs IH]; intros s; cbn; [done|].
  destruct (f s x); cbn; auto.
Qed.
End ResultLemmas.

(** ** Integer sums: [xs.reduce((a, x) => a + x, 0)] over exact integers. *)

Fixpoint sumZ (l : list Z) : Z := match l with [] => 0 | x :: xs => x + sumZ xs end.

Lemma sumZ_nil : sumZ [] = 0.
Proof. done. Qed.
Lemma sumZ_cons x l : sumZ (x :: l) = x + sumZ l.
Proof. done. Qed.
Lemma sumZ_app l1 l2 : sumZ (l1 ++ l2) = sumZ l1 + sumZ l2.
Proof. induction l1 as [|x xs IH]; cbn; [done|]. rewrite IH. lia. Qed.
Lemma sumZ_fold_left l a : fold_left Z.add l a = a + sumZ l.
Proof. revert a. induction l as [|x xs IH]; intros a; cbn; [lia|]. rewrite IH. lia. Qed.
Lemma sumZ_nonneg l : Forall (fun x => 0 <= x) l -> 0 <= sumZ l.
Proof. induction 1; cbn; lia. Qed.
Lemma sumZ_perm l1 l2 : l1 ≡ₚ l2 -> sumZ l1 = sumZ l2.
Proof. induction 1; cbn; lia. Qed.
Lemma sumZ_le_pointwise l1 l2 : Forall2 Z.le l1 l2 -> sumZ l1 <= sumZ l2.
Proof. induction 1; cbn; lia. Qed.
Lemma sumZ_zeros {A} (l : list A) : sumZ (map (fun _ => 0) l) = 0.
Proof. induction l; cbn; lia. Qed.
Lemma sumZ_repeat x n : sumZ (repeat x n) = Z.of_nat n * x.
Proof. induction n as [|n IH]; cbn -[Z.of_nat Z.mul]; [done|]. rewrite IH. lia. Qed.
Lemma sumZ_map_opp l : sumZ (map Z.opp l) = - sumZ l.
Proof. induction l; cbn; lia. Qed.
Lemma sumZ_elem_le l x : Forall (fun y => 0 <= y) l -> x ∈ l -> x <= sumZ l.
Proof.
  intros Hf Hx. induction Hx as [x l|x y l _ IH]; inversion Hf; subst; cbn.
  - pose proof (sumZ_nonneg l ltac:(done)). lia.
  - specialize (IH ltac:(done)). lia.
Qed.
Lemma sumZ_filter_le (p : Z -> bool) l :
  Forall (fun y => 0 <= y) l -> sumZ (List.filter p l) <= sumZ l.
Proof. induction 1 as [|x l Hx _ IH]; cbn; [lia|]. destruct (p x); cbn; lia. Qed.

Lemma Forall_filter_bool {A} (P : A -> Prop) (p : A -> bool) l : Forall P l -> Forall P (List.filter p l).
Proof. induction 1 as [|x l Hx _ IH]; cbn; [constructor|]. destruct (p x); [by constructor|done]. Qed.
Lemma Permutation_filter_bool {A} (p : A -> bool) l1 l2 : l1 ≡ₚ l2 -> List.filter p l1 ≡ₚ List.filter p l2.
Proof.
  induction 1 as [|x l l' _ IH|x y l|l l' l'' _ IH1 _ IH2]; cbn; [done|by destruct (p x); [constructor|]| |by etrans].
  destruct (p x), (p y); try done. apply perm_swap.
Qed.

Lemma map_insert_same {A B} (f : A -> B) l i x y : l !! i = Some x -> f y = f x -> map f (<[i := y]> l) = map f l.
Proof.
  revert i. induction l as [|z zs IH]; intros [|i] H E; try discriminate; cbn in *.
  - injection H as ->. by rewrite E.
  - by rewrite IH.
Qed.

Lemma NoDup_map_snoc {A B} (f : A -> B) l x : NoDup (map f l) -> (f x ∉ map f l) -> NoDup (map f (l ++ [x])).
Proof.
  intros Hn Hx. rewrite map_app. apply NoDup_app. split; [done|]. split; [|apply NoDup_singleton].
  intros k Hk Hk'. apply list_elem_of_singleton in Hk'. by subst k.
Qed.

Lemma NoDup_map_inj {A B} (f : A -> B) l x y : NoDup (map f l) -> x ∈ l -> y ∈ l -> f x = f y -> x = y.
Proof.
  intros H Hx Hy E. apply list_elem_of_lookup in Hx as [i Hi]. apply list_elem_of_lookup in Hy as [j Hj].
  assert (i = j) as ->; [|congruence]. eapply (NoDup_lookup (map f l)); [done| |]; rewrite list_lookup_fmap, ?Hi, ?Hj; cbn; [done|by rewrite E].
Qed.
Lemma find_elem {A} (p : A -> bool) l x : List.find p l = Some x -> x ∈ l /\ p x = true.
Proof. intros H. apply find_some in H as [H1 H2]. by rewrite list_elem_of_In. Qed.
Lemma elem_filter_bool {A} (p : A -> bool) l x : x ∈ List.filter p l <-> x ∈ l /\ p x = true.
Proof. by rewrite !list_elem_of_In, filter_In. Qed.
Lemma NoDup_map_filter {A B} (f : A -> B) p l : NoDup (map f l) -> NoDup (map f (List.filter p l)).
Proof.
  induction l as [|x xs IH]; cbn; [done|]. intros H. inversion H as [|? ? Hx Hxs]; subst. destruct (p x); cbn; [|auto].
  constructor; [|auto]. intros Hin. apply Hx. apply list_elem_of_fmap in Hin as (y & -> & Hy). apply list_elem_of_fmap_2.
  apply list_elem_of_In, filter_In in Hy as [Hy _]. by apply list_elem_of_In.
Qed.
Lemma elem_omap {A B} (f : A -> option B) (l : list A) y : y ∈ omap f l -> exists x, x ∈ l /\ f x = Some y.
Proof. intros H. apply list_elem_of_omap in H as (x & Hx & E). by exists x. Qed.
Lemma NoDup_omap_filter {A B} (f : A -> option B) p (l : list A) : NoDup (omap f l) -> NoDup (omap f (List.filter p l)).
Proof.
  induction l as [|x xs IH]; cbn; [done|]. destruct (f x) as [y|] eqn:Ey; intros H.
  - inversion H as [|? ? Hx Hxs]; subst. destruct (p x); cbn; rewrite ?Ey; [|auto]. constructor; [|auto].
    intros Hin. apply Hx. apply elem_omap in Hin as (z & Hz & E). apply list_elem_of_omap. exists z. split; [|done].
    apply list_elem_of_In, filter_In in Hz as [Hz _]. by apply list_elem_of_In.
  - destruct (p x); cbn; rewrite ?Ey; auto.
Qed.

(** ** [UPDATE ... WHERE p SET f]: every matching row is rewritten in place. *)

Definition set_where {A} (p : A -> bool) (f : A -> A) (rows : list A) : list A := map (fun r => if p r then f r else r) rows.
Lemma map_set_where {A B} (g : A -> B) p f (l : list A) : (forall x, x ∈ l -> p x = true -> g (f x) = g x) -> map g (set_where p f l) = map g l.
Proof.
  unfold set_where. rewrite map_map. intros H. apply map_ext_in. intros x Hx. destruct (p x) eqn:E; [|done].
  apply H; [by apply list_elem_of_In|done].
Qed.
Lemma omap_set_where {A B} (g : A -> option B) p f (l : list A) : (forall x, g (f x) = g x) -> omap g (set_where p f l) = omap g l.
Proof. intros H. unfold set_where. induction l as [|x xs IH]; cbn; [done|]. destruct (p x); rewrite ?H; by rewrite IH. Qed.
Lemma elem_set_where {A} (p : A -> bool) (f : A -> A) (l : list A) y : y ∈ set_where p f l -> exists x, x ∈ l /\ y = if p x then f x else x.
Proof. unfold set_where. intros H. apply list_elem_of_fmap in H as (x & -> & Hx). by exists x. Qed.
Lemma set_where_elem {A} (p : A -> bool) (f : A -> A) (l : list A) x : x ∈ l -> (if p x then f x else x) ∈ set_where p f l.
Proof. intros H. unfold set_where. apply list_elem_of_fmap. by exists x. Qed.

Create HintDb sellright.
Create Rewrite HintDb sellright.
#[export] Hint Rewrite sumZ_nil sumZ_cons sumZ_app @sumZ_zeros sumZ_repeat sumZ_map_opp : sellright.
#[export] Hint Resolve sumZ_nonneg sumZ_le_pointwise : sellright.

(** ** [Array.prototype.sort] with a comparator: a stable insertion sort.
    ECMAScript 2019 requires stability, and a stable sort by a total preorder
    has one possible result, so any stable algorithm computes it. [gt a b] is
    [cmp(a, b) > 0]. *)

Section StableSort.
Context {A : Type} (gt : A -> A -> bool).

(** [x] came before every element of [l]: it stays before its equals. *)
Fixpoint insert_stable (x : A) (l : list A) : list A :=
  match l with
  | [] => [x]
  | y :: ys => if gt x y then y :: insert_stable x ys else x :: y :: ys
  end.

Fixpoint sort_stable (l : list A) : list A :=
  match l with
  | [] => []
  | x :: xs => insert_stable x (sort_stable xs)
  end.

Lemma insert_stable_perm x l : insert_stable x l ≡ₚ x :: l.
Proof.
  induction l as [|y ys IH]; cbn; [done|].
  destruct (gt x y); [|done]. rewrite IH. apply perm_swap.
Qed.

Lemma sort_stable_perm l : sort_stable l ≡ₚ l.
Proof. induction l as [|x xs IH]; cbn; [done|]. by rewrite insert_stable_perm, IH. Qed.

Context (gt_asym : forall a b, gt a b = true -> gt b a = false).
Context (gt_cotrans : forall a b c, gt a c = true -> gt a b = true \/ gt b c = true).

Lemma insert_stable_sorted x l :
  StronglySorted (fun a b => gt a b = false) l ->
  StronglySorted (fun a b => gt a b = false) (insert_stable x l).
Proof.
  induction 1 as [|y ys Hs IH Hy]; cbn; [repeat constructor|].
  destruct (gt x y) eqn:Exy.
  - constructor; [done|]. rewrite insert_stable_perm. constructor; auto.
  - constructor; [by constructor|]. constructor; [done|].
    eapply Forall_impl; [done|]. intros z Hz. destruct (gt x z) eqn:Exz; [|done].
    destruct (gt_cotrans x y z Exz); congruence.
Qed.

Lemma sort_stable_sorted l : StronglySorted (fun a b => gt a b = false) (sort_stable l).
Proof. induction l as [|x xs IH]; cbn; [constructor|]. by apply insert_stable_sorted. Qed.
End StableSort.

(** ** ASCII strings: [trim], [toUpperCase], [toLowerCase]. *)

Definition ascii_upper (c : ascii) : ascii :=
  let n := nat_of_ascii c in
  if (97 <=? n)%nat && (n <=? 122)%nat then ascii_of_nat (n - 32) else c.
Definition ascii_lower (c : ascii) : ascii :=
  let n := nat_of_ascii c in
  if (65 <=? n)%nat && (n <=? 90)%nat then ascii_of_nat (n + 32) else c.
Definition ascii_space (c : ascii) : bool :=
  let n := nat_of_ascii c in (n =? 32)%nat || ((9 <=? n)%nat && (n <=? 13)%nat).

Fixpoint str_map (f : ascii -> ascii) (s : string) : string :=
  match s with
  | EmptyString => EmptyString
  | String c r => String (f c) (str_map f r)
  end.
Definition to_upper : string -> string := str_map ascii_upper.
Definition to_lower : string -> string := str_map ascii_lower.

Fixpoint trim_start (s : string) : string :=
  match s with
  | String c r => if ascii_space c then trim_start r else s
  | EmptyString => EmptyString
  end.
Fixpoint trim_end (s : string) : string :=
  match s with
  | EmptyString => EmptyString
  | String c r =>
      match trim_end r with
      | EmptyString => if ascii_space c then EmptyString else String c EmptyString
      | r' => String c r'
      end
  end.
Definition trim (s : string) : string := trim_end (trim_start s).

(** [s.split(sep)] for a one-character separator, and decimal digits. *)
Fixpoint split_on (sep : ascii) (s : string) : list string :=
  match s with
  | EmptyString => [EmptyString]
  | String c r =>
      if Ascii.eqb c sep then EmptyString :: split_on sep r
      else match split_on sep r with x :: xs => String c x :: xs | [] => [String c EmptyString] end
  end.
Definition is_digit (c : ascii) : bool := let n := nat_of_ascii c in (48 <=? n)%nat && (n <=? 57)%nat.
Fixpoint all_digits (s : string) : bool := match s with EmptyString => true | String c r => is_digit c && all_digits r end.
Fixpoint decimal (acc : Z) (s : string) : Z :=
  match s with EmptyString => acc | String c r => decimal (acc * 10 + (Z.of_nat (nat_of_ascii c) - 48)) r end.

(** Texts of hexadecimal digits; [is_uuid] is the test [/^[0-9a-f]{8}-[0-9a-f]{4}-...$/i]. *)
Definition is_hex (c : ascii) : bool :=
  let n := nat_of_ascii c in
  ((48 <=? n) && (n <=? 57) || (65 <=? n) && (n <=? 70) || (97 <=? n) && (n <=? 102))%nat.
Fixpoint eat_hex (k : nat) (s : string) : option string :=
  match k, s with
  | O, _ => Some s
  | S k', String c r => if is_hex c then eat_hex k' r else None
  | S _, EmptyString => None
  end.
(** [/^[0-9a-f]{n1}-[0-9a-f]{n2}-...$/i] *)
Fixpoint hex_groups (ns : list nat) (s : string) : bool :=
  match ns with
  | [] => String.eqb s EmptyString
  | [n] => match eat_hex n s with Some r => String.eqb r EmptyString | None => false end
  | n :: ns' => match eat_hex n s with
                | Some (String "-" r) => hex_groups ns' r
                | _ => false
                end
  end.
Definition is_uuid : string -> bool := hex_groups [8; 4; 4; 4; 12]%nat.

Lemma append_cons c s r : String c s +:+ r = String c (s +:+ r).
Proof. done. Qed.
Lemma append_empty r : EmptyString +:+ r = r.
Proof. done. Qed.
Lemma append_assoc a b c : (a +:+ b) +:+ c = a +:+ (b +:+ c).
Proof. induction a as [|x a IH]; [done|]. by rewrite !append_cons, IH. Qed.
Lemma append_nil_r s : s +:+ EmptyString = s.
Proof. induction s as [|x s IH]; [done|]. by rewrite append_cons, IH. Qed.
Lemma digits_append a b : all_digits (a +:+ b) = all_digits a && all_digits b.
Proof. induction a as [|c a IH]; [done|]. rewrite append_cons. cbn. by rewrite IH, andb_assoc. Qed.
Lemma decimal_append a b acc : decimal acc (a +:+ b) = decimal (decimal acc a) b.
Proof. revert acc. induction a as [|c a IH]; intros acc; [done|]. rewrite append_cons. cbn. apply IH. Qed.

Lemma ascii_lower_idem c : ascii_lower (ascii_lower c) = ascii_lower c.
Proof. destruct c as [[] [] [] [] [] [] [] []]; reflexivity. Qed.
Lemma ascii_upper_idem c : ascii_upper (ascii_upper c) = ascii_upper c.
Proof. destruct c as [[] [] [] [] [] [] [] []]; reflexivity. Qed.
Lemma to_lower_idem s : to_lower (to_lower s) = to_lower s.
Proof. unfold to_lower. induction s as [|c r IH]; cbn; [done|]. by rewrite ascii_lower_idem, IH. Qed.
Lemma to_upper_idem s : to_upper (to_upper s) = to_upper s.
Proof. unfold to_upper. induction s as [|c r IH]; cbn; [done|]. by rewrite ascii_upper_idem, IH. Qed.

(** ** Optional values: [a ?? b]. *)
Definition or_else {A} (o : option A) (d : A) : A := match o with Some a => a | None => d end.
Definition is_nil {A} (l : list A) : bool := match l with [] => true | _ => false end.
Definition is_some {A} (o : option A) : bool := match o with Some _ => true | None => false end.
(** The truthiness of an optional text. *)
Definition nonempty (s : option string) : bool := match s with Some x => negb (String.eqb x EmptyString) | None => false end.

(** ** [[...new Set(l)]]: the first occurrence of every value, in order. *)
Section Uniq.
Context {A : Type} `{EqDecision A}.
Fixpoint uniq_after (seen l : list A) : list A :=
  match l with
  | [] => []
  | x :: xs => if decide (x ∈ seen) then uniq_after seen xs else x :: uniq_after (x :: seen) xs
  end.
Definition uniq (l : list A) : list A := uniq_after [] l.

Lemma elem_uniq_after seen l x : x ∈ uniq_after seen l <-> x ∈ l /\ x ∉ seen.
Proof.
  revert seen. induction l as [|y ys IH]; intros seen; cbn; [set_solver|].
  destruct (decide (y ∈ seen)); [rewrite IH; set_solver|].
  rewrite elem_of_cons, IH. destruct (decide (x = y)) as [->|]; set_solver.
Qed.
Lemma elem_uniq l x : x ∈ uniq l <-> x ∈ l.
Proof. unfold uniq. rewrite elem_uniq_after. set_solver. Qed.
Lemma NoDup_uniq_after seen l : NoDup (uniq_after seen l).
Proof.
  revert seen. induction l as [|y ys IH]; intros seen; cbn; [constructor|].
  destruct (decide (y ∈ seen)); [done|]. constructor; [|done]. rewrite elem_uniq_after. set_solver.
Qed.
Lemma NoDup_uniq l : NoDup (uniq l).
Proof. apply NoDup_uniq_after. Qed.
End Uniq.


(** ** The byte order of strings ([uuid] and [text] keys compare by it) *)

Definition str_after (a b : string) : bool := match String.compare a b with Gt => true | _ => false end.

Lemma str_after_lt a b : str_after a b = true <-> String_as_OT.lt b a.
Proof.
  unfold str_after. pose proof (String_as_OT.compare_spec a b) as H.
  change (String_as_OT.compare a b) with (String.compare a b) in H. destruct H as [E|L|G].
  - unfold String_as_OT.eq in E. subst. split; [discriminate|]. intros L. by apply StrictOrder_Irreflexive in L.
  - split; [discriminate|]. intros L'. exfalso. apply (StrictOrder_Irreflexive a). by transitivity b.
  - done.
Qed.

Lemma str_after_irrefl a : str_after a a = false.
Proof. apply not_true_iff_false. intros H%str_after_lt. by apply StrictOrder_Irreflexive in H. Qed.
Lemma str_after_trans a b c : str_after a b = true -> str_after b c = true -> str_after a c = true.
Proof. rewrite !str_after_lt. intros H1 H2. by transitivity b. Qed.
Lemma str_after_asym a b : str_after a b = true -> str_after b a = false.
Proof.
  intros H. apply not_true_iff_false. intros H'. pose proof (str_after_trans _ _ _ H H') as C. by rewrite str_after_irrefl in C.
Qed.
Lemma str_after_total a b : str_after a b = true \/ a = b \/ str_after b a = true.
Proof.
  pose proof (String_as_OT.compare_spec a b) as H. destruct H as [E|L|G]; [by right; left| |].
  - right; right. by apply str_after_lt.
  - left. by apply str_after_lt.
Qed.
Lemma str_after_cotrans a b c : str_after a c = true -> str_after a b = true \/ str_after b c = true.
Proof.
  intros H. destruct (str_after_total a b) as [?|[->|Hb]]; [by left|by right|right]. by eapply str_after_trans.
Qed.

(** ** [[...new Set(l)].sort()]: strictly increasing in the byte order. *)

Definition sorted_set (l : list string) : list string := sort_stable str_after (uniq l).
Lemma elem_sorted_set l x : x ∈ sorted_set l <-> x ∈ l.
Proof. unfold sorted_set. by rewrite sort_stable_perm, elem_uniq. Qed.
Lemma sorted_distinct {A} (gt : A -> A -> bool) (l : list A) :
  (forall a b, gt a b = true \/ a = b \/ gt b a = true) ->
  StronglySorted (fun a b => gt a b = false) l -> NoDup l -> StronglySorted (fun a b => gt b a = true) l.
Proof.
  intros Ht. induction 1 as [|x xs Hs IH Hx]; intros Hn; constructor; inversion Hn; subst; [auto|].
  rewrite Forall_forall in *. intros y Hy. destruct (Ht x y) as [G|[->|G]]; [rewrite Hx in G; [discriminate|done]|done|done].
Qed.
Lemma sorted_set_increasing l : StronglySorted (fun a b => str_after b a = true) (sorted_set l).
Proof.
  apply sorted_distinct; [apply str_after_total| |].
  - apply sort_stable_sorted; [apply str_after_asym|]. intros a b c. apply str_after_cotrans.
  - unfold sorted_set. rewrite sort_stable_perm. apply NoDup_uniq.
Qed.
