(* ===== verification/JsNumber.v ===== *)
(** The ECMAScript Number type on the range the money code uses: a finite
    IEEE-754 binary64 value is a rational, and an arithmetic operation is the
    exact rational operation followed by round-to-nearest, ties-to-even, on a
    53-bit significand ([fl]). Overflow to Infinity (beyond 2^1023) and
    subnormal numbers (below 2^-1022) are outside the model: every operand is
    an integer of at most 53 bits or a ratio of two of them. *)

From Stdlib Require Import ZArith QArith Qround Qabs Qpower Qcanon Lia Lqa Bool.

#[global] Open Scope Z_scope.

(** ** Definitions *)

Definition two_pow (e : Z) : Q := Qpower 2 e.

(** The binary exponent of [q > 0]: [2^e <= q < 2^(e+1)]. *)
Definition ilogb (q : Q) : Z :=
  let e := Z.log2 (Qnum q) - Z.log2 (Zpos (Qden q)) in
  if Qle_bool (two_pow e) q then e else e - 1.

(** Round a rational to an integer, ties to even. *)
Definition round_half_even (q : Q) : Z :=
  let f := Qfloor q in
  match Qcompare (q - inject_Z f) (1 # 2) with
  | Lt => f
  | Gt => f + 1
  | Eq => if Z.even f then f else f + 1
  end.

Definition fl_pos (q : Q) : Q :=
  let u := two_pow (ilogb q - 52) in
  (inject_Z (round_half_even (q / u)) * u)%Q.

Definition fl_red (q : Q) : Q :=
  match Qnum q with
  | 0 => 0%Q
  | Zpos _ => fl_pos q
  | Zneg _ => (- fl_pos (- q))%Q
  end.

(** Round to the nearest binary64 value. *)
Definition fl (q : Q) : Q := Qred (fl_red (Qred q)).

Definition js_add (a b : Q) : Q := fl (a + b).
Definition js_sub (a b : Q) : Q := fl (a - b).
Definition js_mul (a b : Q) : Q := fl (a * b).
Definition js_div (a b : Q) : Q := fl (a / b).
Definition jsn (z : Z) : Q := inject_Z z.

(** [Math.floor], [Math.ceil], [Math.round] (halves towards +Infinity). *)
Definition js_floor (q : Q) : Z := Qfloor q.
Definition js_ceil (q : Q) : Z := Qceiling q.
Definition js_round (q : Q) : Z := Qfloor (q + (1 # 2)).

(** [Number.isSafeInteger] on an integer value. *)
Definition MAX_SAFE : Z := 2 ^ 53 - 1.
Definition is_safe (z : Z) : bool := (- MAX_SAFE <=? z) && (z <=? MAX_SAFE).

(** The exact counterpart of [Math.round(n / d)]. *)
Definition round_half_up (n d : Z) : Z := (2 * n + d) / (2 * d).

(** ** What clients rely on: a rounding that is faithful on integers and has
    relative error at most [2^-53]. *)

Class Rounding (r : Q -> Q) : Prop := {
  rounding_proper : forall p q, p == q -> r p = r q;
  rounding_int : forall z, Z.abs z <= 2 ^ 53 -> r (inject_Z z) == inject_Z z;
  rounding_half : forall z, Z.abs z <= 2 ^ 53 -> r (z # 2) == (z # 2);
  rounding_err : forall q, (Qabs (r q - q) <= Qabs q * (1 # 2 ^ 53))%Q;
  rounding_nonneg : forall q, (0 <= q -> 0 <= r q)%Q
}.

(** ** [fl] is such a rounding *)

Lemma two_pow_pos e : (0 < two_pow e)%Q.
Proof. apply Qpower_0_lt. reflexivity. Qed.

Lemma two_pow_plus a b : (two_pow (a + b) == two_pow a * two_pow b)%Q.
Proof. apply Qpower_plus. discriminate. Qed.

Lemma two_pow_Z e : 0 <= e -> (two_pow e == inject_Z (2 ^ e))%Q.
Proof. intros He. unfold two_pow. rewrite Zpower_Qpower by lia. reflexivity. Qed.

Lemma two_pow_le a b : a <= b -> (two_pow a <= two_pow b)%Q.
Proof. intros H. apply Qpower_le_compat_l; [assumption|discriminate]. Qed.

Lemma Q_num_den q : (q * inject_Z (Zpos (Qden q)) == inject_Z (Qnum q))%Q.
Proof. destruct q as [n d]. unfold Qeq; cbn. lia. Qed.

Lemma log2_two_pow n : 0 < n ->
  (two_pow (Z.log2 n) <= inject_Z n)%Q /\ (inject_Z n < two_pow (Z.log2 n + 1))%Q.
Proof.
  intros Hn. pose proof (Z.log2_nonneg n). pose proof (Z.log2_spec n Hn) as [H1 H2].
  rewrite !two_pow_Z by lia. rewrite <- Zle_Qle, <- Zlt_Qlt. rewrite Z.add_1_r. lia.
Qed.

Lemma ilogb_spec q : (0 < q)%Q ->
  (two_pow (ilogb q) <= q)%Q /\ (q < two_pow (ilogb q + 1))%Q.
Proof.
  intros Hq. assert (Hn : 0 < Qnum q) by (unfold Qlt in Hq; cbn in Hq; lia).
  pose proof (log2_two_pow _ Hn) as [A1 A2].
  pose proof (log2_two_pow (Zpos (Qden q)) ltac:(lia)) as [B1 B2].
  pose proof (Q_num_den q) as E.
  set (a := Z.log2 (Qnum q)) in *. set (b := Z.log2 (Zpos (Qden q))) in *.
  set (n := inject_Z (Qnum q)) in *. set (d := inject_Z (Zpos (Qden q))) in *.
  assert (Hd : (0 < d)%Q) by reflexivity.
  assert (Hup : (q < two_pow (a - b + 1))%Q).
  { apply Qmult_lt_r with (z := two_pow b); [apply two_pow_pos|].
    rewrite <- two_pow_plus. replace (a - b + 1 + b) with (a + 1) by lia.
    apply Qle_lt_trans with n; [|assumption]. rewrite <- E.
    rewrite (Qmult_comm q (two_pow b)), (Qmult_comm q d).
    apply Qmult_le_compat_r; [assumption|apply Qlt_le_weak, Hq]. }
  assert (Hlo : (two_pow (a - b - 1) <= q)%Q).
  { apply Qmult_le_r with (z := two_pow (b + 1)); [apply two_pow_pos|].
    rewrite <- two_pow_plus. replace (a - b - 1 + (b + 1)) with a by lia.
    apply Qle_trans with n; [assumption|]. rewrite <- E.
    rewrite (Qmult_comm q (two_pow _)), (Qmult_comm q d).
    apply Qmult_le_compat_r; [apply Qlt_le_weak, B2|apply Qlt_le_weak, Hq]. }
  unfold ilogb. fold a b. destruct (Qle_bool (two_pow (a - b)) q) eqn:Eb.
  - apply Qle_bool_iff in Eb. split; assumption.
  - split; [assumption|]. replace (a - b - 1 + 1) with (a - b) by lia.
    apply Qnot_le_lt. intros C. apply Qle_bool_iff in C. congruence.
Qed.

Lemma round_half_even_err s : (Qabs (inject_Z (round_half_even s) - s) <= 1 # 2)%Q.
Proof.
  pose proof (Qfloor_le s) as H1. pose proof (Qlt_floor s) as H2.
  rewrite inject_Z_plus in H2. change (inject_Z 1) with 1%Q in H2. unfold round_half_even.
  apply Qabs_Qle_condition.
  assert (E : forall z, (inject_Z (z + 1) == inject_Z z + 1)%Q)
    by (intros; rewrite inject_Z_plus; reflexivity).
  destruct (s - inject_Z (Qfloor s) ?= 1 # 2)%Q eqn:C.
  - apply Qeq_alt in C. destruct (Z.even _); rewrite ?E; lra.
  - apply Qlt_alt in C. lra.
  - apply Qgt_alt in C. rewrite E. lra.
Qed.

Lemma round_half_even_int z s : (s == inject_Z z)%Q -> round_half_even s = z.
Proof.
  intros E. unfold round_half_even.
  assert (Hf : Qfloor s = z) by (rewrite E; apply Qfloor_Z).
  rewrite Hf. assert (C : (s - inject_Z z ?= 1 # 2)%Q = Lt).
  { apply Qlt_alt. rewrite E. unfold Qminus. rewrite Qplus_opp_r. reflexivity. }
  rewrite C. reflexivity.
Qed.

Lemma fl_pos_err q : (0 < q)%Q -> (Qabs (fl_pos q - q) <= q * (1 # 2 ^ 53))%Q.
Proof.
  intros Hq. unfold fl_pos. set (u := two_pow (ilogb q - 52)).
  assert (Hu : (0 < u)%Q) by apply two_pow_pos.
  pose proof (ilogb_spec q Hq) as [H1 _].
  assert (Hqu : (u * inject_Z (2 ^ 52) <= q)%Q).
  { rewrite <- two_pow_Z by lia. unfold u. rewrite <- two_pow_plus.
    replace (ilogb q - 52 + 52) with (ilogb q) by lia. assumption. }
  pose proof (round_half_even_err (q / u)) as H.
  set (m := inject_Z (round_half_even (q / u))) in *.
  assert (E : (m * u - q == (m - q / u) * u)%Q) by (field; lra).
  rewrite E, Qabs_Qmult, (Qabs_pos u) by lra.
  apply Qle_trans with ((1 # 2) * u)%Q; [apply Qmult_le_compat_r; lra|].
  unfold inject_Z in Hqu. change (2 ^ 52)%Z with 4503599627370496 in Hqu.
  change (2 ^ 53)%positive with 9007199254740992%positive. lra.
Qed.

(** A value [m * 2^k] with a significand of at most 53 bits is a multiple of
    the unit in the last place, hence unchanged. *)
Lemma fl_pos_dyadic q m k : 0 < m <= 2 ^ 53 ->
  (q == inject_Z m * two_pow k)%Q -> (fl_pos q == q)%Q.
Proof.
  intros Hm Eq. assert (Hk : (0 < two_pow k)%Q) by apply two_pow_pos.
  assert (Hm' : (0 < inject_Z m)%Q) by (rewrite <- (Zlt_Qlt 0); lia).
  assert (Hq : (0 < q)%Q) by (rewrite Eq; apply Qmult_lt_0_compat; assumption).
  pose proof (ilogb_spec q Hq) as [H1 H2]. unfold fl_pos. set (e := ilogb q) in *.
  assert (Hu : (0 < two_pow (e - 52))%Q) by apply two_pow_pos.
  assert (Hle : e - k <= 53).
  { destruct (Z.le_gt_cases (e - k) 53) as [|C]; [assumption|exfalso].
    assert (A : (two_pow (54 + k) <= two_pow e)%Q) by (apply two_pow_le; lia).
    rewrite two_pow_plus, (two_pow_Z 54) in A by lia.
    assert (B : (inject_Z m <= inject_Z (2 ^ 53))%Q) by (rewrite <- Zle_Qle; lia).
    assert (B' : (inject_Z m * two_pow k <= inject_Z (2 ^ 53) * two_pow k)%Q)
      by (apply Qmult_le_compat_r; [assumption|lra]).
    unfold inject_Z in *. change (2 ^ 53)%Z with 9007199254740992 in *.
    change (2 ^ 54)%Z with 18014398509481984 in *. lra. }
  assert (X : exists i, (q / two_pow (e - 52) == inject_Z i)%Q).
  { assert (S : (q / two_pow (e - 52) == inject_Z m * two_pow (k - e + 52))%Q).
    { rewrite Eq. assert (P : (two_pow k == two_pow (k - e + 52) * two_pow (e - 52))%Q).
      { rewrite <- two_pow_plus. replace (k - e + 52 + (e - 52)) with k by lia. reflexivity. }
      rewrite P. field. lra. }
    destruct (Z.le_gt_cases 0 (k - e + 52)) as [C|C].
    - exists (m * 2 ^ (k - e + 52)). rewrite S, inject_Z_mult, <- two_pow_Z by lia. reflexivity.
    - assert (k - e + 52 = -1) as E1 by lia. rewrite E1 in S.
      exists (2 ^ 52). rewrite S. assert (m = 2 ^ 53) as ->; [|reflexivity].
      assert (A : (two_pow e <= inject_Z m * two_pow k)%Q) by (rewrite <- Eq; assumption).
      replace e with (53 + k) in A by lia.
      rewrite two_pow_plus, (two_pow_Z 53) in A by lia.
      apply Qmult_le_r in A; [|assumption]. rewrite <- Zle_Qle in A. lia. }
  destruct X as [i Ei]. rewrite (round_half_even_int i _ Ei), <- Ei. field. lra.
Qed.

Lemma fl_pos_nonneg q : (0 < q)%Q -> (0 <= fl_pos q)%Q.
Proof.
  intros Hq. pose proof (fl_pos_err q Hq) as H. apply Qabs_Qle_condition in H.
  change (2 ^ 53)%positive with 9007199254740992%positive in H. lra.
Qed.

Lemma fl_red_cases q :
  (q == 0 /\ fl_red q = 0)%Q \/ ((0 < q)%Q /\ fl_red q = fl_pos q) \/
  ((q < 0)%Q /\ fl_red q = (- fl_pos (- q))%Q).
Proof.
  destruct q as [[|n|n] d]; unfold fl_red; cbn [Qnum].
  - left. split; reflexivity.
  - right; left. split; reflexivity.
  - right; right. split; reflexivity.
Qed.

Lemma fl_dyadic q m k : Z.abs m <= 2 ^ 53 ->
  (q == inject_Z m * two_pow k)%Q -> (fl q == q)%Q.
Proof.
  intros Hm Eq. unfold fl. rewrite Qred_correct. rewrite <- (Qred_correct q) in Eq.
  rewrite <- (Qred_correct q) at 2. set (p := Qred q) in *.
  pose proof (two_pow_pos k) as Hk.
  destruct (fl_red_cases p) as [[E ->]|[[H ->]|[H ->]]]; [symmetry; exact E| |].
  - apply fl_pos_dyadic with m k; [|assumption]. split; [|lia].
    rewrite Eq in H. destruct m; [exfalso; revert H; rewrite Qmult_0_l; apply Qlt_irrefl|lia|exfalso].
    assert (inject_Z (Z.neg p0) * two_pow k <= 0 * two_pow k)%Q by (apply Qmult_le_compat_r; [discriminate|lra]).
    lra.
  - rewrite (fl_pos_dyadic (- p) (- m) k); [ring| |rewrite Eq, inject_Z_opp; ring].
    split; [|lia]. rewrite Eq in H.
    destruct m; [exfalso; revert H; rewrite Qmult_0_l; apply Qlt_irrefl|exfalso|lia].
    assert (0 * two_pow k <= inject_Z (Z.pos p0) * two_pow k)%Q by (apply Qmult_le_compat_r; [discriminate|lra]).
    lra.
Qed.

#[export] Instance fl_rounding : Rounding fl.
Proof.
  split.
  - intros p q E. unfold fl. f_equal. f_equal. apply Qred_complete, E.
  - intros z Hz. apply fl_dyadic with z 0; [assumption|]. change (two_pow 0) with 1%Q. ring.
  - intros z Hz. apply fl_dyadic with z (-1); [assumption|]. change (two_pow (-1)) with (1 # 2)%Q.
    unfold Qeq; cbn. lia.
  - intros q. unfold fl. rewrite Qred_correct.
    rewrite <- (Qred_correct q) at 2 3.
    destruct (fl_red_cases (Qred q)) as [[E ->]|[[H ->]|[H ->]]].
    + rewrite E. vm_compute. discriminate.
    + rewrite (Qabs_pos (Qred q)) by lra. apply fl_pos_err, H.
    + rewrite (Qabs_neg (Qred q)) by lra.
      pose proof (fl_pos_err (- Qred q) ltac:(lra)) as X.
      rewrite <- Qabs_opp in X.
      assert (S : (- (fl_pos (- Qred q) - - Qred q) == - fl_pos (- Qred q) - Qred q)%Q) by ring.
      rewrite S in X. exact X.
  - intros q Hq. unfold fl. rewrite Qred_correct. rewrite <- (Qred_correct q) in Hq.
    destruct (fl_red_cases (Qred q)) as [[E ->]|[[H ->]|[H ->]]]; [lra| |lra].
    apply fl_pos_nonneg, H.
Qed.

(** ** Integer results of rounded operations *)

Lemma Qfloor_unique x k : (inject_Z k <= x)%Q -> (x < inject_Z k + 1)%Q -> Qfloor x = k.
Proof.
  intros H1 H2. pose proof (Qfloor_le x) as F1. pose proof (Qlt_floor x) as F2.
  assert (A : (inject_Z k < inject_Z (Qfloor x + 1))%Q) by (apply Qle_lt_trans with x; assumption).
  assert (B : (inject_Z (Qfloor x) < inject_Z (k + 1))%Q).
  { rewrite inject_Z_plus. apply Qle_lt_trans with x; assumption. }
  rewrite <- Zlt_Qlt in A, B. lia.
Qed.

Lemma inject_Z_div_mod n d : 0 < d ->
  (inject_Z n / inject_Z d == inject_Z (n / d) + inject_Z (n mod d) / inject_Z d)%Q.
Proof.
  intros Hd. assert (H : (0 < inject_Z d)%Q) by (rewrite <- (Zlt_Qlt 0); assumption).
  rewrite (Z.div_mod n d) at 1 by lia. rewrite inject_Z_plus, inject_Z_mult. field. lra.
Qed.

(** A value closer to [n / d] than [1 / d] has the floor of [n / d], unless
    [n / d] is itself an integer. *)
Lemma floor_near x n d : 0 < d -> n mod d <> 0 ->
  (Qabs (x - inject_Z n / inject_Z d) < 1 / inject_Z d)%Q -> Qfloor x = n / d.
Proof.
  intros Hd Hm H. assert (Hd' : (0 < inject_Z d)%Q) by (rewrite <- (Zlt_Qlt 0); assumption).
  pose proof (Z.mod_pos_bound n d Hd) as B.
  rewrite inject_Z_div_mod in H by assumption. apply Qabs_Qlt_condition in H as [H1 H2].
  assert (R1 : (1 / inject_Z d <= inject_Z (n mod d) / inject_Z d)%Q).
  { apply Qmult_le_compat_r; [|apply Qinv_le_0_compat; lra].
    change 1%Q with (inject_Z 1). rewrite <- Zle_Qle. lia. }
  assert (R2 : (inject_Z (n mod d) / inject_Z d <= 1 - 1 / inject_Z d)%Q).
  { apply Qmult_le_r with (inject_Z d); [assumption|].
    assert (X : (inject_Z (n mod d) / inject_Z d * inject_Z d == inject_Z (n mod d))%Q) by (field; lra).
    assert (Y : ((1 - 1 / inject_Z d) * inject_Z d == inject_Z (d - 1))%Q).
    { unfold Z.sub. rewrite inject_Z_plus. change (inject_Z (- (1))) with (-1)%Q. field. lra. }
    rewrite X, Y, <- Zle_Qle. lia. }
  apply Qfloor_unique; lra.
Qed.

Section RoundedDivision.
Context (r : Q -> Q) `{Rounding r}.

Lemma rounding_div_err n d : 0 < d -> Z.abs n < 2 ^ 52 ->
  (Qabs (r (inject_Z n / inject_Z d) - inject_Z n / inject_Z d) < (1 # 2) / inject_Z d)%Q.
Proof.
  intros Hd Hn. assert (Hd' : (0 < inject_Z d)%Q) by (rewrite <- (Zlt_Qlt 0); assumption).
  assert (Hi : (0 < / inject_Z d)%Q) by (apply Qinv_lt_0_compat; assumption).
  eapply Qle_lt_trans; [apply rounding_err|].
  unfold Qdiv. rewrite Qabs_Qmult, (Qabs_pos (/ inject_Z d)) by lra.
  change (Qabs (inject_Z n)) with (inject_Z (Z.abs n)).
  assert (S : (inject_Z (Z.abs n) * / inject_Z d * (1 # 2 ^ 53) ==
               inject_Z (Z.abs n) * (1 # 2 ^ 53) * / inject_Z d)%Q) by ring.
  rewrite S. apply Qmult_lt_r; [assumption|].
  assert (A : (inject_Z (Z.abs n) < inject_Z (2 ^ 52))%Q) by (rewrite <- Zlt_Qlt; lia).
  unfold inject_Z in *. change (2 ^ 52) with 4503599627370496 in A.
  change (2 ^ 53)%positive with 9007199254740992%positive. lra.
Qed.

(** [Math.floor(n / d)] is the integer quotient. *)
Lemma floor_div_exact n d : 0 < d -> Z.abs n < 2 ^ 52 ->
  Qfloor (r (inject_Z n / inject_Z d)) = n / d.
Proof.
  intros Hd Hn. pose proof (rounding_div_err n d Hd Hn) as He.
  assert (Hd' : (0 < inject_Z d)%Q) by (rewrite <- (Zlt_Qlt 0); assumption).
  assert (Hi : (0 < / inject_Z d)%Q) by (apply Qinv_lt_0_compat; assumption).
  destruct (Z.eq_dec (n mod d) 0) as [E|N].
  - assert (X : (inject_Z n / inject_Z d == inject_Z (n / d))%Q).
    { rewrite inject_Z_div_mod, E by assumption. field. lra. }
    assert (Hq : Z.abs (n / d) <= 2 ^ 53).
    { rewrite (Z.div_mod n d) in Hn by lia. rewrite E in Hn.
      assert (Z.abs (n / d) <= Z.abs (d * (n / d) + 0)) by nia. lia. }
    rewrite (rounding_proper _ _ X), (rounding_int _ Hq). apply Qfloor_Z.
  - apply floor_near; [assumption|assumption|].
    eapply Qlt_trans; [exact He|]. unfold Qdiv. apply Qmult_lt_r; [assumption|reflexivity].
Qed.

(** [Math.round(n / d)] rounds the exact quotient, halves up. *)
Lemma round_div_exact n d : 0 < d -> Z.abs n < 2 ^ 52 ->
  js_round (r (inject_Z n / inject_Z d)) = round_half_up n d.
Proof.
  intros Hd Hn. pose proof (rounding_div_err n d Hd Hn) as He.
  assert (Hd' : (0 < inject_Z d)%Q) by (rewrite <- (Zlt_Qlt 0); assumption).
  assert (E2 : (inject_Z n / inject_Z d + (1 # 2) == inject_Z (2 * n + d) / inject_Z (2 * d))%Q).
  { rewrite inject_Z_plus, !inject_Z_mult. change (inject_Z 2) with 2%Q. field. lra. }
  unfold js_round, round_half_up.
  destruct (Z.eq_dec ((2 * n + d) mod (2 * d)) 0) as [E|N].
  - set (k := (2 * n + d) / (2 * d)).
    assert (X : (inject_Z n / inject_Z d == (2 * k - 1) # 2)%Q).
    { assert (Y : (inject_Z n / inject_Z d + (1 # 2) == inject_Z k)%Q).
      { rewrite E2, inject_Z_div_mod, E by lia. fold k. rewrite inject_Z_mult.
        change (inject_Z 2) with 2%Q. field. lra. }
      assert (Z' : ((2 * k - 1) # 2 == inject_Z k - (1 # 2))%Q) by (unfold Qeq, inject_Z, Qminus, Qplus; cbn [Qnum Qden Qopp]; lia).
      rewrite Z'. lra. }
    assert (Hq : Z.abs (2 * k - 1) <= 2 ^ 53).
    { assert (Ek : 2 * n + d = 2 * d * k).
      { pose proof (Z.div_mod (2 * n + d) (2 * d) ltac:(lia)) as D. rewrite E in D. unfold k. lia. }
      assert (Z.abs (2 * k - 1) * d = Z.abs (2 * n)) by nia. nia. }
    rewrite (rounding_proper _ _ X), (rounding_half _ Hq).
    apply Qfloor_unique; unfold inject_Z, Qle, Qlt, Qplus; cbn [Qnum Qden]; lia.
  - apply floor_near; [lia|assumption|]. rewrite <- E2.
    assert (S : (1 / inject_Z (2 * d) == (1 # 2) / inject_Z d)%Q).
    { rewrite inject_Z_mult. change (inject_Z 2) with 2%Q. field. lra. }
    rewrite S. match goal with |- (Qabs ?a < _)%Q =>
      assert (Ea : (a == r (inject_Z n / inject_Z d) - inject_Z n / inject_Z d)%Q) by ring end.
    rewrite Ea. exact He.
Qed.

(** [Math.ceil(n / d)] is the quotient rounded up. *)
Lemma ceil_div_exact n d : 0 < d -> Z.abs n < 2 ^ 52 ->
  js_ceil (r (inject_Z n / inject_Z d)) = - (- n / d).
Proof.
  intros Hd Hn. pose proof (rounding_div_err n d Hd Hn) as He.
  assert (Hd' : (0 < inject_Z d)%Q) by (rewrite <- (Zlt_Qlt 0); assumption).
  assert (Hi : (0 < / inject_Z d)%Q) by (apply Qinv_lt_0_compat; assumption).
  unfold js_ceil, Qceiling. f_equal.
  assert (Ed : (inject_Z (- n) / inject_Z d == - (inject_Z n / inject_Z d))%Q).
  { rewrite inject_Z_opp. field. lra. }
  destruct (Z.eq_dec ((- n) mod d) 0) as [E|N].
  - assert (X : (inject_Z n / inject_Z d == inject_Z (- (- n / d)))%Q).
    { rewrite inject_Z_opp. pose proof (inject_Z_div_mod (- n) d Hd) as Y. rewrite E, Ed in Y.
      assert (Z0 : (inject_Z 0 / inject_Z d == 0)%Q) by (field; lra). rewrite Z0 in Y. lra. }
    assert (Hq : Z.abs (- (- n / d)) <= 2 ^ 53).
    { pose proof (Z.div_mod (- n) d ltac:(lia)) as D. rewrite E in D.
      assert (Z.abs (- n / d) <= Z.abs (d * (- n / d) + 0)) by nia. lia. }
    rewrite (rounding_proper _ _ X), (rounding_int _ Hq), <- inject_Z_opp, Qfloor_Z. lia.
  - apply floor_near; [assumption|assumption|].
    assert (Ea : (- r (inject_Z n / inject_Z d) - inject_Z (- n) / inject_Z d ==
                  - (r (inject_Z n / inject_Z d) - inject_Z n / inject_Z d))%Q) by (rewrite Ed; ring).
    rewrite Ea, Qabs_opp. eapply Qlt_trans; [exact He|]. unfold Qdiv. apply Qmult_lt_r; [assumption|reflexivity].
Qed.
End RoundedDivision.

Lemma round_half_up_bounds n d : 0 < d -> 2 * n - d < 2 * d * round_half_up n d <= 2 * n + d.
Proof.
  intros Hd. unfold round_half_up.
  pose proof (Z.div_mod (2 * n + d) (2 * d) ltac:(lia)).
  pose proof (Z.mod_pos_bound (2 * n + d) (2 * d) ltac:(lia)). lia.
Qed.

Lemma round_half_up_mono n n' d : 0 < d -> n <= n' -> round_half_up n d <= round_half_up n' d.
Proof. intros Hd Hn. apply Z.div_le_mono; lia. Qed.

Lemma round_half_up_nonneg n d : 0 < d -> 0 <= n -> 0 <= round_half_up n d.
Proof. intros Hd Hn. apply Z.div_pos; lia. Qed.

Lemma round_half_up_mul n d : 0 < d -> round_half_up (n * d) d = n.
Proof.
  intros Hd. unfold round_half_up.
  replace (2 * (n * d) + d) with (d + n * (2 * d)) by lia.
  rewrite Z.div_add, Z.div_small by lia. lia.
Qed.

(** ** The shape the source uses: [a * b / d] over exact integers *)

Lemma js_mul_int a b : Z.abs (a * b) <= 2 ^ 53 -> (js_mul (jsn a) (jsn b) == inject_Z (a * b))%Q.
Proof.
  intros H. unfold js_mul, jsn.
  rewrite (rounding_proper (r := fl) _ (inject_Z (a * b))) by (rewrite inject_Z_mult; reflexivity).
  apply rounding_int, H.
Qed.

Lemma js_mul_div_red a b d : Z.abs (a * b) <= 2 ^ 53 ->
  js_div (js_mul (jsn a) (jsn b)) (jsn d) = fl (inject_Z (a * b) / inject_Z d)%Q.
Proof. intros H. unfold js_div. apply (rounding_proper (r := fl)). rewrite js_mul_int by exact H. reflexivity. Qed.

Section MulDiv.
Context (a b d : Z) (Hd : 0 < d) (H : Z.abs (a * b) < 2 ^ 52).
Lemma js_round_mul_div : js_round (js_div (js_mul (jsn a) (jsn b)) (jsn d)) = round_half_up (a * b) d.
Proof. rewrite js_mul_div_red by lia. apply (round_div_exact fl); assumption. Qed.
Lemma js_floor_mul_div : js_floor (js_div (js_mul (jsn a) (jsn b)) (jsn d)) = a * b / d.
Proof. rewrite js_mul_div_red by lia. apply (floor_div_exact fl); assumption. Qed.
Lemma js_ceil_mul_div : js_ceil (js_div (js_mul (jsn a) (jsn b)) (jsn d)) = - (- (a * b) / d).
Proof. rewrite js_mul_div_red by lia. apply (ceil_div_exact fl); assumption. Qed.
End MulDiv.
