(* ===== verification/Apportion.v ===== *)
(** Apportionment by largest remainder, as [money/totals.ts]
    ([distributeLargestRemainder]) and [money/promotion-stack.ts]
    ([prorateSigned]) share it: floor every proportional share, then give the
    leftover cents to the greatest fractional parts, earlier lines first. The
    lemmas hold for any list of raw shares whose sum is within one cent of the
    target, so they apply to binary64 shares. *)

From S2P Require Import Prelude JsNumber.
From Stdlib Require Import ZArith QArith Qround Qabs Lia Lqa Bool.
From stdpp Require Import base list sorting sets.
Local Open Scope Z_scope.

(** ** Definitions *)

(** [(a, b) => b.frac - a.frac || a.i - b.i], as "a sorts after b". *)
Definition frac_after (a b : nat * Q) : bool :=
  match Qcompare (snd b) (snd a) with
  | Gt => true
  | Lt => false
  | Eq => (fst b <? fst a)%nat
  end.

(** Indexes of [fracs], greatest fraction first. *)
Definition by_fraction (fracs : list Q) : list nat :=
  map fst (sort_stable frac_after (imap pair fracs)).

(** [for (k = 0; k < order.length && remainder > 0; k++) floored[order[k].i] += 1]. *)
Fixpoint assign_leftover (order : list nat) (remainder : Z) (floored : list Z) : list Z :=
  match order with
  | [] => floored
  | i :: rest =>
      if 0 <? remainder then assign_leftover rest (remainder - 1) (alter Z.succ i floored)
      else floored
  end.

Fixpoint sumQ (l : list Q) : Q := match l with [] => 0%Q | x :: xs => (x + sumQ xs)%Q end.

Lemma Qcompare_same x : (x ?= x)%Q = Eq.
Proof. apply Qeq_alt. reflexivity. Qed.

(** ** Sums of rationals *)

Lemma sumQ_le l1 l2 : Forall2 Qle l1 l2 -> (sumQ l1 <= sumQ l2)%Q.
Proof. induction 1; cbn; lra. Qed.

Lemma sumQ_app l1 l2 : (sumQ (l1 ++ l2) == sumQ l1 + sumQ l2)%Q.
Proof. induction l1 as [|x xs IH]; cbn; [lra|]. rewrite IH. lra. Qed.

Lemma sumQ_perm l1 l2 : l1 ≡ₚ l2 -> (sumQ l1 == sumQ l2)%Q.
Proof. induction 1; cbn; lra. Qed.

Lemma sumQ_map_inject l : (sumQ (map inject_Z l) == inject_Z (sumZ l))%Q.
Proof. induction l as [|x xs IH]; cbn; [reflexivity|]. rewrite IH, inject_Z_plus. reflexivity. Qed.

Lemma sumQ_scale c l : (sumQ (map (fun x => x * c) l) == sumQ l * c)%Q.
Proof. induction l as [|x xs IH]; cbn; [lra|]. rewrite IH. lra. Qed.

Lemma sumQ_bounded b l : Forall (fun x => x <= b)%Q l ->
  (sumQ l <= inject_Z (Z.of_nat (length l)) * b)%Q.
Proof.
  induction 1 as [|x xs Hx _ IH]; cbn [sumQ length]; [vm_compute; discriminate|].
  rewrite Nat2Z.inj_succ. unfold Z.succ. rewrite inject_Z_plus. change (inject_Z 1) with 1%Q. lra.
Qed.

(** Errors add up: shares within [e_i] of exact shares. *)
Lemma sumQ_abs_diff {A} (f g e : A -> Q) l :
  (forall x, x ∈ l -> Qabs (f x - g x) <= e x)%Q ->
  (Qabs (sumQ (map f l) - sumQ (map g l)) <= sumQ (map e l))%Q.
Proof.
  induction l as [|x xs IH]; intros H; cbn [map sumQ]; [vm_compute; discriminate|].
  assert (Hx := H x ltac:(left)).
  assert (Hxs : (Qabs (sumQ (map f xs) - sumQ (map g xs)) <= sumQ (map e xs))%Q).
  { apply IH. intros y Hy. apply H. by right. }
  apply Qabs_Qle_condition in Hx, Hxs. apply Qabs_Qle_condition. lra.
Qed.

(** ** The leftover is between zero and the number of lines *)

Lemma floors_sum raw :
  (inject_Z (sumZ (map Qfloor raw)) <= sumQ raw)%Q /\
  (sumQ raw <= inject_Z (sumZ (map Qfloor raw)) + inject_Z (Z.of_nat (length raw)))%Q /\
  (raw <> [] -> sumQ raw < inject_Z (sumZ (map Qfloor raw)) + inject_Z (Z.of_nat (length raw)))%Q.
Proof.
  induction raw as [|x xs (H1 & H2 & H3)]; cbn [map sumZ sumQ length].
  - repeat split; [discriminate|discriminate|congruence].
  - pose proof (Qfloor_le x) as F1. pose proof (Qlt_floor x) as F2.
    rewrite Nat2Z.inj_succ. unfold Z.succ. rewrite inject_Z_plus in F2 |- *.
    rewrite inject_Z_plus. change (inject_Z 1) with 1%Q in *.
    repeat split; intros; lra.
Qed.

Lemma leftover_bounds raw target : raw <> [] ->
  (Qabs (sumQ raw - inject_Z target) < 1)%Q ->
  0 <= target - sumZ (map Qfloor raw) <= Z.of_nat (length raw).
Proof.
  intros Hne H. apply Qabs_Qlt_condition in H as [Hl Hu].
  destruct (floors_sum raw) as (F1 & _ & F3). specialize (F3 Hne).
  set (F := sumZ (map Qfloor raw)) in *. set (n := Z.of_nat (length raw)) in *.
  split.
  - assert (A : (inject_Z F < inject_Z (target + 1))%Q)
      by (rewrite inject_Z_plus; change (inject_Z 1) with 1%Q; lra).
    rewrite <- Zlt_Qlt in A. lia.
  - assert (A : (inject_Z target < inject_Z (F + n + 1))%Q)
      by (rewrite !inject_Z_plus; change (inject_Z 1) with 1%Q; lra).
    rewrite <- Zlt_Qlt in A. lia.
Qed.

(** ** Assigning the leftover *)

Lemma sumZ_alter_succ i l : (i < length l)%nat -> sumZ (alter Z.succ i l) = sumZ l + 1.
Proof.
  revert i. induction l as [|x xs IH]; intros [|i] Hi; cbn in *; [lia|lia|lia|].
  change (list_alter Z.succ i xs) with (alter Z.succ i xs). rewrite IH by lia. lia.
Qed.

Lemma assign_leftover_length order rem l : length (assign_leftover order rem l) = length l.
Proof.
  revert rem l. induction order as [|i rest IH]; intros rem l; cbn; [done|].
  destruct (0 <? rem); [|done]. by rewrite IH, length_alter.
Qed.

Lemma assign_leftover_sum order rem l :
  Forall (fun i => (i < length l)%nat) order -> 0 <= rem <= Z.of_nat (length order) ->
  sumZ (assign_leftover order rem l) = sumZ l + rem.
Proof.
  revert rem l. induction order as [|i rest IH]; intros rem l Hf Hr; cbn [assign_leftover length] in *.
  - assert (rem = 0) by lia. lia.
  - inversion Hf; subst. destruct (0 <? rem) eqn:E; bool_props; [|lia].
    rewrite IH; [|by rewrite length_alter|lia]. rewrite sumZ_alter_succ by assumption. lia.
Qed.

Lemma assign_leftover_lookup order rem l i x :
  NoDup order -> l !! i = Some x ->
  assign_leftover order rem l !! i =
    Some (if bool_decide (i ∈ take (Z.to_nat rem) order) then x + 1 else x).
Proof.
  revert rem l x. induction order as [|j js IH]; intros rem l x Hnd Hl; cbn [assign_leftover].
  - rewrite take_nil. rewrite bool_decide_eq_false_2; [done|]. apply not_elem_of_nil.
  - inversion Hnd as [|? ? Hj Hjs]; subst. destruct (0 <? rem) eqn:E; bool_props.
    + replace (Z.to_nat rem) with (S (Z.to_nat (rem - 1))) by lia. cbn [take].
      destruct (decide (i = j)) as [->|Hij].
      * rewrite (IH (rem - 1) _ (Z.succ x) Hjs) by (rewrite list_lookup_alter_eq, Hl; done).
        rewrite bool_decide_eq_false_2, bool_decide_eq_true_2; [f_equal; lia|by left|].
        intros Hin. apply Hj. eapply elem_of_take in Hin as (k & Hk & _).
        eapply list_elem_of_lookup_2; eauto.
      * rewrite (IH (rem - 1) _ x Hjs) by (rewrite list_lookup_alter_ne; done).
        f_equal. erewrite bool_decide_ext; [reflexivity|]. rewrite elem_of_cons. tauto.
    + replace (Z.to_nat rem) with 0%nat by lia. cbn [take].
      rewrite bool_decide_eq_false_2; [done|]. apply not_elem_of_nil.
Qed.

(** ** The order visits every line once, greatest fraction first *)

Lemma imap_pair_fst {A} (l : list A) : map fst (imap pair l) = seq 0 (length l).
Proof. apply list_eq. intros i. rewrite list_lookup_fmap, list_lookup_imap.
  destruct (decide (i < length l)%nat) as [Hi|Hi].
  - rewrite lookup_seq_lt by done. destruct (lookup_lt_is_Some_2 l i Hi) as [x ->]. done.
  - rewrite lookup_ge_None_2 by lia. rewrite lookup_seq_ge by lia. done.
Qed.

Lemma imap_pair_snd {A} (l : list A) : map snd (imap pair l) = l.
Proof. apply list_eq. intros i. rewrite list_lookup_fmap, list_lookup_imap. by destruct (l !! i). Qed.

Lemma by_fraction_perm fracs : by_fraction fracs ≡ₚ seq 0 (length fracs).
Proof.
  unfold by_fraction. rewrite <- (imap_pair_fst fracs).
  apply Permutation_map, sort_stable_perm.
Qed.

Lemma by_fraction_length fracs : length (by_fraction fracs) = length fracs.
Proof. rewrite by_fraction_perm. apply length_seq. Qed.

Lemma by_fraction_NoDup fracs : NoDup (by_fraction fracs).
Proof. rewrite by_fraction_perm. apply NoDup_seq. Qed.

Lemma by_fraction_bound fracs : Forall (fun i => (i < length fracs)%nat) (by_fraction fracs).
Proof. rewrite by_fraction_perm. apply Forall_forall. intros i Hi. apply elem_of_seq in Hi. lia. Qed.

Lemma apportion_sum raw fracs target : raw <> [] -> length fracs = length raw ->
  (Qabs (sumQ raw - inject_Z target) < 1)%Q ->
  sumZ (assign_leftover (by_fraction fracs) (target - sumZ (map Qfloor raw)) (map Qfloor raw)) = target.
Proof.
  intros Hne Hlen H. pose proof (leftover_bounds raw target Hne H).
  rewrite assign_leftover_sum; [lia| |].
  - rewrite length_map, <- Hlen. apply by_fraction_bound.
  - rewrite by_fraction_length. lia.
Qed.

Lemma frac_after_asym a b : frac_after a b = true -> frac_after b a = false.
Proof.
  unfold frac_after. destruct (snd b ?= snd a)%Q eqn:E; intros H; try discriminate.
  - apply Qeq_alt in E. rewrite E, Qcompare_same.
    apply Nat.ltb_lt in H. apply Nat.ltb_ge. lia.
  - apply Qgt_alt in E. assert (X : (snd a ?= snd b)%Q = Lt) by (apply Qlt_alt; exact E).
    by rewrite X.
Qed.

Lemma frac_after_cotrans a b c :
  frac_after a c = true -> frac_after a b = true \/ frac_after b c = true.
Proof.
  unfold frac_after. intros H.
  destruct (snd c ?= snd a)%Q eqn:E1; try discriminate.
  - apply Qeq_alt in E1. apply Nat.ltb_lt in H.
    destruct (snd b ?= snd a)%Q eqn:E2.
    + apply Qeq_alt in E2. rewrite E1, E2, Qcompare_same.
      destruct (fst b <? fst a)%nat eqn:E3; [by left|right].
      apply Nat.ltb_ge in E3. apply Nat.ltb_lt. lia.
    + right. apply Qlt_alt in E2. assert (X : (snd b < snd c)%Q) by lra.
      apply Qgt_alt in X. by rewrite X.
    + by left.
  - apply Qgt_alt in E1. destruct (snd b ?= snd a)%Q eqn:E2.
    + right. apply Qeq_alt in E2. assert (X : (snd b < snd c)%Q) by lra.
      apply Qgt_alt in X. by rewrite X.
    + right. apply Qlt_alt in E2. assert (X : (snd b < snd c)%Q) by lra.
      apply Qgt_alt in X. by rewrite X.
    + by left.
Qed.

Lemma frac_after_false a b : frac_after a b = false -> (snd b <= snd a)%Q.
Proof.
  unfold frac_after. destruct (snd b ?= snd a)%Q eqn:E; intros H; try discriminate.
  - apply Qeq_alt in E. lra.
  - apply Qlt_alt in E. lra.
Qed.

Lemma StronglySorted_app_cons {A} (R : A -> A -> Prop) l1 x l2 :
  Sorted.StronglySorted R (l1 ++ x :: l2) -> Forall (R x) l2.
Proof.
  induction l1 as [|y l1 IH]; cbn; intros H; inversion H; subst; auto.
Qed.

(** If a line with fraction at most [t] gets one of the [rem] leftover cents,
    at most [rem - 1] fractions exceed [t], which bounds their sum. *)
Lemma bumped_fraction fracs i f m t rem :
  fracs !! i = Some f -> i ∈ take (Z.to_nat rem) (by_fraction fracs) ->
  (f <= t)%Q -> (0 <= t)%Q -> (0 <= m)%Q -> Forall (fun x => x <= m)%Q fracs ->
  (sumQ fracs <= inject_Z (rem - 1) * m + inject_Z (Z.of_nat (length fracs)) * t)%Q.
Proof.
  intros Hi Hin Hf Ht Hm HM.
  set (S := sort_stable frac_after (imap pair fracs)).
  assert (HS : S ≡ₚ imap pair fracs) by apply sort_stable_perm.
  apply elem_of_take in Hin as (k & Hk & Hlt). unfold by_fraction in Hk. fold S in Hk.
  rewrite list_lookup_fmap in Hk.
  destruct (S !! k) as [[i' f']|] eqn:ES; [|discriminate]. injection Hk as Hi'. cbn in Hi'.
  assert (Hmem : (i, f') ∈ imap pair fracs).
  { rewrite <- HS. subst i'. eapply list_elem_of_lookup_2; eauto. }
  apply list_elem_of_lookup in Hmem as (j & Hj). rewrite list_lookup_imap in Hj.
  destruct (fracs !! j) as [fj|] eqn:Ej; [|discriminate]. injection Hj as -> ->.
  assert (f' = f) as -> by congruence. subst i'.
  pose proof (list_elem_of_split_length S k (i, f) ES) as (S1 & S2 & E12 & Hl1).
  assert (Hsum : (sumQ fracs == sumQ (map snd S1) + (f + sumQ (map snd S2)))%Q).
  { rewrite <- (imap_pair_snd fracs) at 1. rewrite <- (sumQ_perm _ _ (Permutation_map snd HS)).
    rewrite E12, map_app, sumQ_app. reflexivity. }
  assert (Hlen : (length fracs = length S1 + (1 + length S2))%nat).
  { rewrite <- (length_imap pair fracs), <- HS, E12, length_app. done. }
  assert (B1 : (sumQ (map snd S1) <= inject_Z (Z.of_nat (length (map snd S1))) * m)%Q).
  { apply sumQ_bounded. apply Forall_forall. intros x Hx.
    apply list_elem_of_fmap in Hx as ([n y] & -> & Hy).
    rewrite Forall_forall in HM. apply HM.
    assert (Hy' : (n, y) ∈ imap pair fracs) by (rewrite <- HS, E12; set_solver).
    apply list_elem_of_lookup in Hy' as (j & Hj). rewrite list_lookup_imap in Hj.
    destruct (fracs !! j) eqn:Ej'; [|discriminate]. injection Hj as -> ->.
    eapply list_elem_of_lookup_2; eauto. }
  assert (B2 : (sumQ (map snd S2) <= inject_Z (Z.of_nat (length (map snd S2))) * t)%Q).
  { apply sumQ_bounded. apply Forall_forall. intros x Hx.
    apply list_elem_of_fmap in Hx as (y & -> & Hy).
    pose proof (sort_stable_sorted frac_after frac_after_asym frac_after_cotrans (imap pair fracs)) as Hs.
    fold S in Hs. rewrite E12 in Hs. apply StronglySorted_app_cons in Hs.
    rewrite Forall_forall in Hs. specialize (Hs y Hy). apply frac_after_false in Hs. cbn in Hs. lra. }
  rewrite length_map in B1, B2.
  assert (C1 : (inject_Z (Z.of_nat (length S1)) * m <= inject_Z (rem - 1) * m)%Q).
  { apply Qmult_le_compat_r; [|assumption]. rewrite <- Zle_Qle. lia. }
  assert (C2 : (inject_Z (1 + Z.of_nat (length S2)) * t <= inject_Z (Z.of_nat (length fracs)) * t)%Q).
  { apply Qmult_le_compat_r; [|assumption]. rewrite <- Zle_Qle. lia. }
  rewrite inject_Z_plus in C2. change (inject_Z 1) with 1%Q in C2. lra.
Qed.
