(* ===== verification/Totals.v ===== *)
(** The money core: [src/packages/api/src/money/totals.ts].

    [calculateOrderTotals] prices an order from its lines, one promotion, the
    loyalty points discount, the shipping charge, the tax rates and the signed
    order-edit adjustments. Amounts are integer cents ([integer] columns of the
    schema, [src/packages/api/src/db/schema-core.ts]); sums and products of them
    are exact integers, and every division goes through the binary64 model of
    [JsNumber]. On integer amounts [Math.floor] and [Math.trunc] are the
    identity. *)

From S2P Require Import Prelude JsNumber Apportion.
From Stdlib Require Import ZArith QArith Qround Qabs Lia Lqa Bool.
From stdpp Require Import base list.
Local Open Scope Z_scope.

(** ** Data *)

Record CartLineInput := { cl_unitPrice : Z; cl_quantity : Z }.

Inductive PromoType := percentage | fixed | free_shipping.
#[export] Instance PromoType_eq_dec : EqDecision PromoType.
Proof. solve_decision. Defined.

Record Promotion := { pr_type : PromoType; pr_value : Z; pr_freeShipping : bool }.

Record Adjustment := { adj_amount : Z; adj_taxable : bool }.

Record TotalsInput := {
  ti_lines : list CartLineInput;
  ti_shipping : Z;
  ti_taxRate : Z;
  ti_shippingTaxable : bool;
  ti_shippingTaxRate : option Z;
  ti_shippingTaxInclusive : option bool;
  ti_taxInclusive : bool;
  ti_promotion : option Promotion;
  ti_pointsDiscount : option Z;
  ti_adjustments : option (list Adjustment)
}.

Record LineTotals := {
  lt_unitPrice : Z; lt_quantity : Z;
  lt_lineSubtotal : Z; lt_lineDiscount : Z; lt_lineTotal : Z
}.

Record OrderTotals := {
  ot_lines : list LineTotals;
  ot_subtotal : Z;
  ot_discountTotal : Z;
  ot_shippingTotal : Z;
  ot_taxTotal : Z;
  ot_grandTotal : Z;
  ot_pointsDiscount : Z;
  ot_adjustmentTotal : option Z
}.

Definition roundHalfUp (q : Q) : Z := js_round q.

(** ** [distributeLargestRemainder] *)

Definition raw_share (target total w : Z) : Q := js_mul (js_div (jsn w) (jsn total)) (jsn target).
Definition frac_part (x : Q) : Q := js_sub x (jsn (Qfloor x)).

Definition distributeLargestRemainder (target : Z) (weights : list Z) : list Z :=
  if (target <=? 0) || bool_decide (weights = []) then map (fun _ => 0) weights
  else
    let total := sumZ weights in
    if total <=? 0 then map (fun _ => 0) weights
    else
      let raw := map (raw_share target total) weights in
      let floored := map Qfloor raw in
      let remainder := target - sumZ floored in
      assign_leftover (by_fraction (map frac_part raw)) remainder floored.

(** ** [calculateOrderTotals] *)

Definition clamp_pct (promo : option Promotion) : Z :=
  match promo with
  | Some p => if bool_decide (pr_type p = percentage) then Z.min 100 (Z.max 0 (pr_value p)) else 0
  | None => 0
  end.

(** [roundHalfUp((s * pct) / 100)]. *)
Definition percent_of (s pct : Z) : Z :=
  roundHalfUp (js_div (js_mul (jsn s) (jsn pct)) (jsn 100)).

Definition promo_discounts (promo : option Promotion) (lineSubtotals : list Z) : list Z :=
  let pct := clamp_pct promo in
  match promo with
  | Some p =>
      if bool_decide (pr_type p = percentage) && (0 <? pct)
      then map (fun s => percent_of s pct) lineSubtotals
      else if bool_decide (pr_type p = fixed)
      then distributeLargestRemainder (Z.min (pr_value p) (sumZ lineSubtotals)) lineSubtotals
      else map (fun _ => 0) lineSubtotals
  | None => map (fun _ => 0) lineSubtotals
  end.

(** Tax contained in, or due on, [base] at [rate] basis points. *)
Definition inclusive_tax (base rate : Z) : Z :=
  base - roundHalfUp (js_div (js_mul (jsn base) (jsn 10000)) (jsn (10000 + rate))).
Definition exclusive_tax (base rate : Z) : Z :=
  roundHalfUp (js_div (js_mul (jsn base) (jsn rate)) (jsn 10000)).

Definition waives_shipping (promo : option Promotion) : bool :=
  match promo with
  | Some p => bool_decide (pr_type p = free_shipping) || pr_freeShipping p
  | None => false
  end.

Definition line_totals (l : CartLineInput) (d : Z) : LineTotals :=
  let s := cl_unitPrice l * cl_quantity l in
  {| lt_unitPrice := cl_unitPrice l; lt_quantity := cl_quantity l;
     lt_lineSubtotal := s; lt_lineDiscount := d; lt_lineTotal := s - d |}.

Definition lineSubtotals_of (lines : list CartLineInput) : list Z :=
  map (fun l => cl_unitPrice l * cl_quantity l) lines.

Definition points_applied (points : option Z) (afterPromo : list Z) : Z :=
  Z.min (Z.max 0 (or_else points 0)) (Z.max 0 (sumZ afterPromo)).

Definition add_points_discount (pointsDiscount : Z) (afterPromo promoDiscount : list Z) : list Z :=
  if 0 <? pointsDiscount
  then zip_with Z.add promoDiscount (distributeLargestRemainder pointsDiscount afterPromo)
  else promoDiscount.

Definition calculateOrderTotals (input : TotalsInput) : OrderTotals :=
  let promo := ti_promotion input in
  let lineSubtotals := lineSubtotals_of (ti_lines input) in
  let subtotalBefore := sumZ lineSubtotals in
  let promoDiscount := promo_discounts promo lineSubtotals in
  let afterPromo := zip_with Z.sub lineSubtotals promoDiscount in
  let pointsDiscount := points_applied (ti_pointsDiscount input) afterPromo in
  let perLineDiscount := add_points_discount pointsDiscount afterPromo promoDiscount in
  let lines := zip_with line_totals (ti_lines input) perLineDiscount in
  let discountTotal := sumZ (map lt_lineDiscount lines) in
  let discountedSubtotal := subtotalBefore - discountTotal in
  let shippingTotal := if waives_shipping promo then 0 else ti_shipping input in
  let taxableShipping := if ti_shippingTaxable input then shippingTotal else 0 in
  let adjustments := or_else (ti_adjustments input) [] in
  let adjustmentTotal := sumZ (map adj_amount adjustments) in
  let taxableAdjustments :=
    sumZ (map (fun x => if adj_taxable x then adj_amount x else 0) adjustments) in
  let itemBase := discountedSubtotal + taxableAdjustments in
  let taxableBase := itemBase + taxableShipping in
  let rate := ti_taxRate input in
  let incl := ti_taxInclusive input in
  let taxTotal0 :=
    if 0 <? rate then
      if incl then inclusive_tax taxableBase rate else exclusive_tax taxableBase rate
    else 0 in
  let grandTotalRaw0 :=
    (if incl then discountedSubtotal + shippingTotal
     else discountedSubtotal + shippingTotal + taxTotal0) + adjustmentTotal in
  let '(taxTotal, grandTotalRaw) :=
    match ti_shippingTaxRate input with
    | None => (taxTotal0, grandTotalRaw0)
    | Some srate =>
        let itemTax :=
          if rate <=? 0 then 0
          else if incl then inclusive_tax itemBase rate else exclusive_tax itemBase rate in
        let shippingInclusive := or_else (ti_shippingTaxInclusive input) incl in
        let shippingTax :=
          if srate <=? 0 then 0
          else if shippingInclusive then inclusive_tax shippingTotal srate
          else exclusive_tax shippingTotal srate in
        (itemTax + shippingTax,
         discountedSubtotal + shippingTotal + adjustmentTotal
         + (if incl then 0 else itemTax) + (if shippingInclusive then 0 else shippingTax))
    end in
  {| ot_lines := lines;
     ot_subtotal := subtotalBefore;
     ot_discountTotal := discountTotal;
     ot_shippingTotal := shippingTotal;
     ot_taxTotal := taxTotal;
     ot_grandTotal := Z.max 0 grandTotalRaw;
     ot_pointsDiscount := pointsDiscount;
     ot_adjustmentTotal := match ti_adjustments input with Some _ => Some adjustmentTotal | None => None end |}.


(** ** Shares *)

Section Shares.
Context (target total : Z) (Ht : 0 < target) (Htot : 0 < total).

Definition exact_share (w : Z) : Q := (inject_Z w / inject_Z total * inject_Z target)%Q.

Lemma exact_share_nonneg w : 0 <= w -> (0 <= exact_share w)%Q.
Proof.
  intros Hw. unfold exact_share.
  assert (A : (0 <= inject_Z w)%Q) by (rewrite <- (Zle_Qle 0); lia).
  assert (B : (0 < inject_Z target)%Q) by (rewrite <- (Zlt_Qlt 0); lia).
  assert (C : (0 < / inject_Z total)%Q) by (apply Qinv_lt_0_compat; rewrite <- (Zlt_Qlt 0); lia).
  apply Qmult_le_0_compat; [apply Qmult_le_0_compat|]; lra.
Qed.

Lemma raw_share_err w : 0 <= w ->
  (Qabs (raw_share target total w - exact_share w) <= exact_share w * (1 # 2 ^ 51))%Q.
Proof.
  intros Hw. pose proof (exact_share_nonneg w Hw) as Hx.
  assert (B : (0 < inject_Z target)%Q) by (rewrite <- (Zlt_Qlt 0); lia).
  assert (C : (0 < / inject_Z total)%Q) by (apply Qinv_lt_0_compat; rewrite <- (Zlt_Qlt 0); lia).
  assert (A : (0 <= inject_Z w)%Q) by (rewrite <- (Zle_Qle 0); lia).
  unfold raw_share, js_mul, js_div, jsn, exact_share in *.
  set (p := (inject_Z w / inject_Z total)%Q) in *. set (t := inject_Z target) in *.
  assert (Hp : (0 <= p)%Q) by (apply Qmult_le_0_compat; lra).
  pose proof (rounding_err (r := fl) p) as E1. pose proof (rounding_nonneg (r := fl) p Hp) as Ha.
  set (a := fl p) in *.
  assert (Hat : (0 <= a * t)%Q) by (apply Qmult_le_0_compat; lra).
  pose proof (rounding_err (r := fl) (a * t)) as E2.
  rewrite (Qabs_pos p Hp) in E1. rewrite (Qabs_pos (a * t) Hat) in E2.
  assert (E1' : (Qabs (a * t - p * t) <= p * t * (1 # 2 ^ 53))%Q).
  { assert (S : (a * t - p * t == (a - p) * t)%Q) by ring.
    rewrite S, Qabs_Qmult, (Qabs_pos t) by lra.
    assert (S2 : (p * t * (1 # 2 ^ 53) == p * (1 # 2 ^ 53) * t)%Q) by ring.
    rewrite S2. apply Qmult_le_compat_r; lra. }
  apply Qabs_Qle_condition in E1', E2. apply Qabs_Qle_condition.
  change (2 ^ 53)%positive with 9007199254740992%positive in *.
  change (2 ^ 51)%positive with 2251799813685248%positive.
  set (y := (p * t)%Q) in *. set (z := (a * t)%Q) in *. lra.
Qed.
End Shares.

Lemma exact_shares_sum target ws : 0 < sumZ ws ->
  (sumQ (map (exact_share target (sumZ ws)) ws) == inject_Z target)%Q.
Proof.
  intros Hs. set (total := sumZ ws).
  assert (C : (0 < inject_Z total)%Q) by (rewrite <- (Zlt_Qlt 0); lia).
  assert (X : forall l, (sumQ (map (exact_share target total) l) ==
                         inject_Z (sumZ l) / inject_Z total * inject_Z target)%Q).
  { induction l as [|w l IH]; cbn [map sumQ sumZ]; [field; lra|].
    rewrite IH, inject_Z_plus. unfold exact_share. field. lra. }
  rewrite X. fold total. field. lra.
Qed.

Lemma raw_sum_err target ws : 0 < target -> Forall (fun w => 0 <= w) ws -> 0 < sumZ ws ->
  (Qabs (sumQ (map (raw_share target (sumZ ws)) ws) - inject_Z target)
     <= inject_Z target * (1 # 2 ^ 51))%Q.
Proof.
  intros Ht Hw Hs. rewrite <- (exact_shares_sum target ws Hs) at 1 2.
  rewrite <- sumQ_scale, map_map.
  assert (X : forall l, Forall (fun w => 0 <= w) l ->
    (Qabs (sumQ (map (raw_share target (sumZ ws)) l) - sumQ (map (exact_share target (sumZ ws)) l))
       <= sumQ (map (fun x => exact_share target (sumZ ws) x * (1 # 2 ^ 51)) l))%Q).
  { induction 1 as [|w l Hw0 _ IH]; cbn [map sumQ]; [vm_compute; discriminate|].
    pose proof (raw_share_err target (sumZ ws) Ht Hs w Hw0) as E.
    apply Qabs_Qle_condition in E, IH. apply Qabs_Qle_condition. lra. }
  apply X, Hw.
Qed.

Lemma raw_sum_close target ws : 0 < target < 2 ^ 50 -> Forall (fun w => 0 <= w) ws -> 0 < sumZ ws ->
  (Qabs (sumQ (map (raw_share target (sumZ ws)) ws) - inject_Z target) < 1)%Q.
Proof.
  intros Ht Hw Hs. eapply Qle_lt_trans; [apply raw_sum_err; [lia|done|done]|].
  assert (A : (inject_Z target < inject_Z (2 ^ 50))%Q) by (rewrite <- Zlt_Qlt; lia).
  unfold inject_Z in *. change (2 ^ 50) with 1125899906842624 in A.
  change (2 ^ 51)%positive with 2251799813685248%positive. lra.
Qed.

Lemma sumZ_pos_nonempty ws : 0 < sumZ ws -> ws <> [].
Proof. intros H ->. cbn in H. lia. Qed.

Lemma distribute_unfold target ws : 0 < target -> 0 < sumZ ws ->
  distributeLargestRemainder target ws =
    let raw := map (raw_share target (sumZ ws)) ws in
    assign_leftover (by_fraction (map frac_part raw)) (target - sumZ (map Qfloor raw)) (map Qfloor raw).
Proof.
  intros Ht Hs. unfold distributeLargestRemainder.
  rewrite (proj2 (Z.leb_gt _ _)) by lia.
  rewrite bool_decide_eq_false_2 by (by apply sumZ_pos_nonempty). cbn [orb].
  by rewrite (proj2 (Z.leb_gt _ _)) by lia.
Qed.

Lemma distribute_length target ws : length (distributeLargestRemainder target ws) = length ws.
Proof.
  unfold distributeLargestRemainder.
  destruct (_ || _); [by rewrite length_map|]. destruct (_ <=? _); [by rewrite length_map|].
  by rewrite assign_leftover_length, !length_map.
Qed.

Lemma distribute_sum target ws :
  Forall (fun w => 0 <= w) ws -> 0 <= target <= sumZ ws -> target < 2 ^ 50 ->
  sumZ (distributeLargestRemainder target ws) = target.
Proof.
  intros Hw Ht Hb. destruct (Z.eq_dec target 0) as [->|Hne].
  - unfold distributeLargestRemainder. cbn. apply sumZ_zeros.
  - rewrite distribute_unfold by lia. cbn zeta. apply apportion_sum.
    + intros E. apply (sumZ_pos_nonempty ws); [lia|]. by destruct ws.
    + by rewrite length_map.
    + apply raw_sum_close; [lia|done|lia].
Qed.

Lemma frac_part_bounds x : (0 <= frac_part x)%Q /\ (frac_part x <= 1 + (1 # 2 ^ 53))%Q /\
  (x - inject_Z (Qfloor x) <= frac_part x * (1 + (1 # 2 ^ 52)))%Q /\
  (frac_part x <= (x - inject_Z (Qfloor x)) * (1 + (1 # 2 ^ 53)))%Q.
Proof.
  unfold frac_part, js_sub, jsn. set (d := (x - inject_Z (Qfloor x))%Q).
  pose proof (Qfloor_le x) as F1. pose proof (Qlt_floor x) as F2.
  rewrite inject_Z_plus in F2. change (inject_Z 1) with 1%Q in F2.
  assert (Hd : (0 <= d)%Q) by (unfold d; lra). assert (Hd1 : (d < 1)%Q) by (unfold d; lra).
  pose proof (rounding_nonneg (r := fl) d Hd) as Hn.
  pose proof (rounding_err (r := fl) d) as E. rewrite (Qabs_pos d Hd) in E.
  apply Qabs_Qle_condition in E.
  change (2 ^ 53)%positive with 9007199254740992%positive in *.
  change (2 ^ 52)%positive with 4503599627370496%positive in *.
  set (f := fl d) in *. repeat split; lra.
Qed.

Lemma raw_share_nonneg target total w : 0 < target -> 0 < total -> 0 <= w ->
  (0 <= raw_share target total w)%Q.
Proof.
  intros Ht Htot Hw. pose proof (raw_share_err target total Ht Htot w Hw) as E.
  pose proof (exact_share_nonneg target total Ht Htot w Hw) as X.
  apply Qabs_Qle_condition in E. change (2 ^ 51)%positive with 2251799813685248%positive in E. lra.
Qed.

Lemma exact_share_le target total w : 0 < target <= total -> 0 <= w ->
  (exact_share target total w <= inject_Z w)%Q.
Proof.
  intros Ht Hw. unfold exact_share.
  assert (C : (0 < inject_Z total)%Q) by (rewrite <- (Zlt_Qlt 0); lia).
  assert (S : (inject_Z w / inject_Z total * inject_Z target ==
               inject_Z w * inject_Z target / inject_Z total)%Q) by (field; lra).
  rewrite S. apply Qle_shift_div_r; [assumption|]. rewrite <- !inject_Z_mult, <- Zle_Qle. nia.
Qed.

(** The sum of the computed fractions is at least the leftover, up to noise. *)
Lemma frac_sum_lower raw :
  (sumQ raw - inject_Z (sumZ (map Qfloor raw)) <= sumQ (map frac_part raw) * (1 + (1 # 2 ^ 52)))%Q.
Proof.
  induction raw as [|x xs IH]; cbn [map sumQ sumZ]; [vm_compute; discriminate|].
  destruct (frac_part_bounds x) as (_ & _ & H & _). rewrite inject_Z_plus. lra.
Qed.

Lemma Forall_frac_part raw : Forall (fun x => x <= 1 + (1 # 2 ^ 53))%Q (map frac_part raw).
Proof. apply Forall_map, Forall_forall. intros x _. apply frac_part_bounds. Qed.

(** A share whose floor already reaches the line's weight is not bumped. *)
Lemma no_bump_at_weight target ws i w :
  Forall (fun w => 0 <= w) ws -> 0 < target <= sumZ ws ->
  Z.of_nat (length ws) * sumZ ws <= 2 ^ 46 ->
  ws !! i = Some w -> Qfloor (raw_share target (sumZ ws) w) = w ->
  i ∉ take (Z.to_nat (target - sumZ (map Qfloor (map (raw_share target (sumZ ws)) ws))))
        (by_fraction (map frac_part (map (raw_share target (sumZ ws)) ws))).
Proof.
  intros Hw Ht Hb Hi Hfl Hin. set (T := sumZ ws) in *. set (n := Z.of_nat (length ws)) in *.
  assert (Hw0 : 0 <= w <= T).
  { assert (w ∈ ws) by (eapply list_elem_of_lookup_2; eauto). split.
    - rewrite Forall_forall in Hw. auto.
    - apply sumZ_elem_le; assumption. }
  assert (HT : 0 < T) by lia.
  assert (Hn : 0 < n) by (unfold n; destruct ws; [discriminate Hi|cbn [length]; lia]).
  assert (HT46 : T <= 2 ^ 46) by nia. assert (Hn46 : n <= 2 ^ 46) by nia.
  set (raw := map (raw_share target T) ws) in *.
  set (rem := target - sumZ (map Qfloor raw)) in *.
  assert (Hclose : (Qabs (sumQ raw - inject_Z target) <= inject_Z target * (1 # 2 ^ 51))%Q)
    by (apply raw_sum_err; [lia|done|lia]).
  assert (Hrem : 0 <= rem <= n).
  { unfold rem, n. replace (length ws) with (length raw) by (unfold raw; by rewrite length_map).
    apply leftover_bounds; [|apply raw_sum_close; [lia|done|lia]].
    unfold raw. destruct ws; [done|]. discriminate. }
  set (x := raw_share target T w) in *.
  assert (Hx : (x - inject_Z w <= inject_Z T * (1 # 2 ^ 51))%Q).
  { pose proof (raw_share_err target T ltac:(lia) ltac:(lia) w ltac:(lia)) as E.
    pose proof (exact_share_le target T w ltac:(lia) ltac:(lia)) as E2.
    apply Qabs_Qle_condition in E. fold x in E.
    assert (A : (inject_Z w <= inject_Z T)%Q) by (rewrite <- Zle_Qle; lia).
    change (2 ^ 51)%positive with 2251799813685248%positive in *. lra. }
  destruct (frac_part_bounds x) as (_ & _ & _ & Hf). rewrite Hfl in Hf.
  assert (Htau : (frac_part x <= inject_Z T * (1 # 2 ^ 50))%Q).
  { assert (A : (0 < inject_Z T)%Q) by (rewrite <- (Zlt_Qlt 0); lia).
    change (2 ^ 51)%positive with 2251799813685248%positive in *.
    change (2 ^ 50)%positive with 1125899906842624%positive in *.
    change (2 ^ 53)%positive with 9007199254740992%positive in *. lra. }
  assert (A : (0 < inject_Z T)%Q) by (rewrite <- (Zlt_Qlt 0); lia).
  assert (B : (0 <= inject_Z T * (1 # 2 ^ 50))%Q) by (apply Qmult_le_0_compat; [lra|discriminate]).
  assert (Hlook : map frac_part raw !! i = Some (frac_part x)).
  { unfold raw. rewrite list_lookup_fmap, list_lookup_fmap, Hi. done. }
  assert (M0 : (0 <= 1 + (1 # 2 ^ 53))%Q) by (vm_compute; discriminate).
  pose proof (bumped_fraction (map frac_part raw) i (frac_part x) (1 + (1 # 2 ^ 53))
    (inject_Z T * (1 # 2 ^ 50)) rem Hlook Hin Htau B M0 (Forall_frac_part raw)) as Hup.
  pose proof (frac_sum_lower raw) as Hlow. unfold raw in Hup at 2. rewrite !length_map in Hup. fold n in Hup.
  set (S := sumQ (map frac_part raw)) in *.
  assert (D1 : (inject_Z (sumZ (map Qfloor raw)) == inject_Z target - inject_Z rem)%Q).
  { unfold rem. unfold Z.sub. rewrite inject_Z_plus, inject_Z_opp. ring. }
  rewrite D1 in Hlow. apply Qabs_Qle_condition in Hclose as [Hc _].
  assert (D2 : (inject_Z n * (inject_Z T * (1 # 2 ^ 50)) <= inject_Z (2 ^ 46) * (1 # 2 ^ 50))%Q).
  { rewrite Qmult_assoc, <- inject_Z_mult. apply Qmult_le_compat_r; [|discriminate]. rewrite <- Zle_Qle. lia. }
  assert (D3 : (inject_Z target <= inject_Z (2 ^ 46))%Q) by (rewrite <- Zle_Qle; lia).
  assert (D4 : (inject_Z rem <= inject_Z (2 ^ 46))%Q) by (rewrite <- Zle_Qle; lia).
  assert (D5 : (0 <= inject_Z rem)%Q) by (rewrite <- (Zle_Qle 0); lia).
  unfold Z.sub in Hup. rewrite inject_Z_plus in Hup. change (inject_Z (- (1))) with (-1)%Q in Hup.
  change (inject_Z (2 ^ 46)) with 70368744177664%Q in *.
  change (2 ^ 50)%positive with 1125899906842624%positive in *.
  change (2 ^ 51)%positive with 2251799813685248%positive in *.
  change (2 ^ 52)%positive with 4503599627370496%positive in *.
  change (2 ^ 53)%positive with 9007199254740992%positive in *.
  set (NT := (inject_Z n * (inject_Z T * (1 # 1125899906842624)))%Q) in *.
  set (R := inject_Z rem) in *. set (G := inject_Z target) in *. lra.
Qed.

Lemma Forall2_lookup_pair {A B} (P : A -> B -> Prop) l k : length l = length k ->
  (forall i x y, l !! i = Some x -> k !! i = Some y -> P x y) -> Forall2 P l k.
Proof. intros Hl H. apply Forall2_same_length_lookup. split; [done|]. intros; eauto. Qed.

(** No share exceeds its line: a discount of at most the subtotal never pushes
    a line below zero. *)
Lemma distribute_between target ws :
  Forall (fun w => 0 <= w) ws -> target <= sumZ ws ->
  Z.of_nat (length ws) * sumZ ws <= 2 ^ 46 ->
  Forall2 (fun w d => 0 <= d <= w) ws (distributeLargestRemainder target ws).
Proof.
  intros Hw Ht Hb.
  assert (Hz : Forall2 (fun w d => 0 <= d <= w) ws (map (fun _ => 0) ws)).
  { clear Ht Hb. induction Hw; constructor; auto with lia. }
  destruct (Z.le_gt_cases target 0) as [Hle|Hgt].
  { unfold distributeLargestRemainder. by rewrite (proj2 (Z.leb_le _ _)) by lia. }
  rewrite distribute_unfold by lia. cbn zeta. set (T := sumZ ws) in *.
  set (raw := map (raw_share target T) ws). set (rem := target - sumZ (map Qfloor raw)).
  apply Forall2_lookup_pair; [by rewrite assign_leftover_length; unfold raw; rewrite !length_map|].
  intros i w d Hi Hd.
  assert (Hfl : map Qfloor raw !! i = Some (Qfloor (raw_share target T w))).
  { unfold raw. by rewrite !list_lookup_fmap, Hi. }
  rewrite (assign_leftover_lookup _ _ _ _ _ (by_fraction_NoDup _) Hfl) in Hd.
  injection Hd as <-.
  assert (Hw0 : 0 <= w <= T).
  { assert (w ∈ ws) by (eapply list_elem_of_lookup_2; eauto). split.
    - rewrite Forall_forall in Hw. auto.
    - apply sumZ_elem_le; assumption. }
  set (x := raw_share target T w) in *.
  assert (Hx0 : 0 <= Qfloor x).
  { change 0 with (Qfloor 0). apply Qfloor_resp_le, raw_share_nonneg; lia. }
  assert (Hn : 1 <= Z.of_nat (length ws)) by (destruct ws; [discriminate Hi|cbn [length]; lia]).
  assert (Hxw : Qfloor x <= w).
  { pose proof (raw_share_err target T ltac:(lia) ltac:(lia) w ltac:(lia)) as E.
    pose proof (exact_share_le target T w ltac:(lia) ltac:(lia)) as E2.
    pose proof (Qfloor_le x) as F. apply Qabs_Qle_condition in E. fold x in E.
    assert (A : (inject_Z w <= inject_Z (2 ^ 46))%Q) by (rewrite <- Zle_Qle; nia).
    change (inject_Z (2 ^ 46)) with 70368744177664%Q in A.
    change (2 ^ 51)%positive with 2251799813685248%positive in *.
    assert (B : (inject_Z (Qfloor x) < inject_Z (w + 1))%Q).
    { rewrite inject_Z_plus. change (inject_Z 1) with 1%Q. lra. }
    rewrite <- Zlt_Qlt in B. lia. }
  destruct (decide (Qfloor x = w)) as [E|N].
  - rewrite bool_decide_eq_false_2 by (eapply no_bump_at_weight; eauto; lia). lia.
  - destruct (bool_decide _); lia.
Qed.

(** ** Rounded percentages and taxes are the exact ones *)

Lemma round_mul_div_exact a b d : 0 < d -> Z.abs (a * b) < 2 ^ 52 ->
  roundHalfUp (js_div (js_mul (jsn a) (jsn b)) (jsn d)) = round_half_up (a * b) d.
Proof. apply js_round_mul_div. Qed.

Lemma percent_of_exact s pct : Z.abs (s * pct) < 2 ^ 52 -> percent_of s pct = round_half_up (s * pct) 100.
Proof. intros. by apply round_mul_div_exact. Qed.

Lemma exclusive_tax_exact b r : Z.abs (b * r) < 2 ^ 52 -> exclusive_tax b r = round_half_up (b * r) 10000.
Proof. intros. by apply round_mul_div_exact. Qed.

Lemma inclusive_tax_exact b r : 0 <= r -> Z.abs (b * 10000) < 2 ^ 52 ->
  inclusive_tax b r = b - round_half_up (b * 10000) (10000 + r).
Proof. intros. unfold inclusive_tax. by rewrite round_mul_div_exact by lia. Qed.

#[export] Hint Resolve distribute_between : sellright.

Lemma percent_of_between s pct : 0 <= s < 2 ^ 45 -> 0 <= pct <= 100 -> 0 <= percent_of s pct <= s.
Proof.
  intros Hs Hp. rewrite percent_of_exact by nia. split.
  - apply round_half_up_nonneg; nia.
  - rewrite <- (round_half_up_mul s 100) at 2 by lia. apply round_half_up_mono; nia.
Qed.

Lemma clamp_pct_bounds promo : 0 <= clamp_pct promo <= 100.
Proof. unfold clamp_pct. destruct promo as [p|]; [|lia]. destruct (bool_decide _); lia. Qed.

Lemma promo_discounts_between promo ss :
  Forall (fun s => 0 <= s) ss -> Z.of_nat (length ss) * sumZ ss <= 2 ^ 44 ->
  Forall2 (fun s d => 0 <= d <= s) ss (promo_discounts promo ss).
Proof.
  intros Hs Hb.
  assert (Hz : Forall2 (fun w d => 0 <= d <= w) ss (map (fun _ => 0) ss)).
  { clear Hb. induction Hs; constructor; auto with lia. }
  unfold promo_discounts. destruct promo as [p|]; [|done].
  destruct (bool_decide (pr_type p = percentage) && _).
  - apply Forall2_lookup_pair; [by rewrite length_map|]. intros i s d Hi Hd.
    rewrite list_lookup_fmap, Hi in Hd. injection Hd as <-.
    assert (Hin : s ∈ ss) by (eapply list_elem_of_lookup_2; eauto).
    pose proof (sumZ_elem_le ss s Hs Hin). rewrite Forall_forall in Hs. specialize (Hs s Hin).
    assert (1 <= Z.of_nat (length ss)) by (destruct ss; [discriminate Hi|cbn [length]; lia]).
    apply percent_of_between; [nia|apply (clamp_pct_bounds (Some p))].
  - destruct (bool_decide (pr_type p = fixed)); [|done].
    apply distribute_between; [done|lia|lia].
Qed.

(** ** Orders *)

(** Non-negative lines, and an order of moderate size: with [n] lines and
    subtotal [s], [n * s <= 2^44] (an [integer] subtotal below 2^31 cents
    leaves room for 8192 lines). *)
Definition priceable (lines : list CartLineInput) : Prop :=
  Forall (fun l => 0 <= cl_unitPrice l /\ 0 <= cl_quantity l) lines /\
  Z.of_nat (length lines) * sumZ (lineSubtotals_of lines) <= 2 ^ 44.

Lemma priceable_nonneg lines : priceable lines -> Forall (fun s => 0 <= s) (lineSubtotals_of lines).
Proof.
  intros [H _]. unfold lineSubtotals_of. apply Forall_map.
  eapply Forall_impl; [exact H|]. cbn. intros l Hl. nia.
Qed.

Section Discounts.
Context (ss promoD : list Z).
Context (Hs : Forall (fun s => 0 <= s) ss) (Hb : Z.of_nat (length ss) * sumZ ss <= 2 ^ 44).
Context (Hd : Forall2 (fun s d => 0 <= d <= s) ss promoD).

Let after : list Z := zip_with Z.sub ss promoD.
Lemma zip_sub_facts : Forall (fun s => 0 <= s) after /\ sumZ after = sumZ ss - sumZ promoD /\
  length after = length ss /\ 0 <= sumZ promoD <= sumZ ss.
Proof.
  unfold after. clear Hs Hb. induction Hd as [|s d ss' ds' H Hr IH].
  - cbn. repeat split; auto; lia.
  - cbn. destruct (IH Hr) as (I1 & I2 & I3 & I4). split; [constructor; [lia|done]|].
    repeat split; lia.
Qed.

Context (points : option Z).
Let p : Z := points_applied points after.

Lemma add_points_between : Forall2 (fun s d => 0 <= d <= s) ss (add_points_discount p after promoD).
Proof.
  destruct zip_sub_facts as (A1 & A2 & A3 & A4). unfold add_points_discount.
  destruct (0 <? p) eqn:Ep; [|done]. bool_props.
  assert (Hp : p <= sumZ after).
  { pose proof (sumZ_nonneg _ A1). unfold p, points_applied. lia. }
  assert (Hq : Forall2 (fun w d => 0 <= d <= w) after (distributeLargestRemainder p after)).
  { apply distribute_between; [done|lia|]. rewrite A3. nia. }
  clear -Hd Hq. unfold after in *. revert Hq. generalize (distributeLargestRemainder p (zip_with Z.sub ss promoD)).
  induction Hd as [|s d ss' ds' H Hr IH]; intros l Hl; cbn in *; inversion Hl; subst; cbn; constructor; [lia|].
  by apply IH.
Qed.

Lemma add_points_sum : sumZ (add_points_discount p after promoD) = sumZ promoD + p.
Proof.
  destruct zip_sub_facts as (A1 & A2 & A3 & A4). unfold add_points_discount.
  pose proof (sumZ_nonneg _ A1) as A0.
  assert (Hp : 0 <= p <= sumZ after) by (unfold p, points_applied; lia).
  destruct (0 <? p) eqn:Ep; bool_props; [|lia].
  assert (Hn : 1 <= Z.of_nat (length ss)).
  { destruct ss; [|cbn [length]; lia]. unfold after in Hp. cbn in Hp. lia. }
  rewrite <- (distribute_sum p after) at 2; [|done|lia|nia].
  assert (Hl : length promoD = length (distributeLargestRemainder p after)).
  { rewrite distribute_length, A3. symmetry. by eapply Forall2_length. }
  revert Hl. generalize (distributeLargestRemainder p after). clear.
  induction promoD as [|d ds IH]; intros [|x xs] Hl; cbn in *; try done. rewrite IH; lia.
Qed.
End Discounts.

Lemma zip_line_totals lines ds :
  Forall2 (fun s d => 0 <= d <= s) (lineSubtotals_of lines) ds ->
  Forall2 (fun l lt => lt_lineSubtotal lt = cl_unitPrice l * cl_quantity l /\
                       lt_unitPrice lt = cl_unitPrice l /\ lt_quantity lt = cl_quantity l /\
                       0 <= lt_lineDiscount lt <= lt_lineSubtotal lt /\
                       lt_lineTotal lt = lt_lineSubtotal lt - lt_lineDiscount lt)
          lines (zip_with line_totals lines ds) /\
  map lt_lineDiscount (zip_with line_totals lines ds) = ds.
Proof.
  revert ds. induction lines as [|l ls IH]; intros ds H; inversion H; subst; cbn; [done|].
  destruct (IH _ ltac:(eassumption)) as [I1 I2]. split; [|by f_equal].
  constructor; [|done]. cbn. repeat split; lia.
Qed.

(** What the promotion takes off, exactly. *)
Definition promo_amount (promo : option Promotion) (ss : list Z) : Z :=
  match promo with
  | None => 0
  | Some p =>
      match pr_type p with
      | percentage => sumZ (map (fun s => round_half_up (s * Z.min 100 (Z.max 0 (pr_value p))) 100) ss)
      | fixed => Z.max 0 (Z.min (pr_value p) (sumZ ss))
      | free_shipping => 0
      end
  end.

Lemma promo_discounts_sum promo ss :
  Forall (fun s => 0 <= s) ss -> Z.of_nat (length ss) * sumZ ss <= 2 ^ 44 ->
  sumZ (promo_discounts promo ss) = promo_amount promo ss.
Proof.
  intros Hs Hb. unfold promo_discounts, promo_amount. destruct promo as [p|]; [|apply sumZ_zeros].
  pose proof (clamp_pct_bounds (Some p)) as Hc. unfold clamp_pct in *.
  destruct (pr_type p);
    repeat match goal with
      | |- context [bool_decide (?a = ?a)] => change (bool_decide (a = a)) with true in *
      | |- context [bool_decide (?a = ?b)] => change (bool_decide (a = b)) with false in *
      end; cbn [andb].
  - set (c := Z.min 100 (Z.max 0 (pr_value p))) in *. destruct (0 <? c) eqn:Ec; bool_props.
    + f_equal. apply list_fmap_ext. intros i s Hi. apply percent_of_exact.
      assert (Hin : s ∈ ss) by (eapply list_elem_of_lookup_2; eauto).
      pose proof (sumZ_elem_le ss s Hs Hin). rewrite Forall_forall in Hs. specialize (Hs s Hin).
      assert (1 <= Z.of_nat (length ss)) by (destruct ss; [discriminate Hi|cbn [length]; lia]). nia.
    + assert (c = 0) as -> by lia. rewrite sumZ_zeros. clear. induction ss as [|s ss IH]; cbn [map sumZ]; [done|].
      rewrite <- IH. rewrite Z.mul_0_r. reflexivity.
  - pose proof (sumZ_nonneg ss Hs). destruct ss as [|s0 ss0]; [unfold distributeLargestRemainder; cbn; rewrite orb_true_r; cbn; lia|].
    set (ss := s0 :: ss0) in *. destruct (Z.le_gt_cases (Z.min (pr_value p) (sumZ ss)) 0) as [Hle|Hgt].
    + unfold distributeLargestRemainder. rewrite (proj2 (Z.leb_le _ _)) by lia. cbn [orb].
      rewrite sumZ_zeros. lia.
    + rewrite distribute_sum; [lia|done|lia|].
      assert (1 <= Z.of_nat (length ss)) by (unfold ss; cbn [length]; lia). nia.
  - apply sumZ_zeros.
Qed.

Section OrderFacts.
Context (input : TotalsInput) (Hp : priceable (ti_lines input)).

Let ss : list Z := lineSubtotals_of (ti_lines input).
Let promoD : list Z := promo_discounts (ti_promotion input) ss.
Let after : list Z := zip_with Z.sub ss promoD.
Let p : Z := points_applied (ti_pointsDiscount input) after.

Lemma order_discount_list :
  Forall2 (fun s d => 0 <= d <= s) ss (add_points_discount p after promoD) /\
  sumZ (add_points_discount p after promoD) = promo_amount (ti_promotion input) ss + p /\
  0 <= promo_amount (ti_promotion input) ss <= sumZ ss /\
  p = Z.min (Z.max 0 (or_else (ti_pointsDiscount input) 0))
            (sumZ ss - promo_amount (ti_promotion input) ss).
Proof.
  pose proof (priceable_nonneg _ Hp) as Hs. fold ss in Hs.
  assert (Hb : Z.of_nat (length ss) * sumZ ss <= 2 ^ 44).
  { unfold ss at 1. unfold lineSubtotals_of at 1. rewrite length_map. apply Hp. }
  pose proof (promo_discounts_between (ti_promotion input) ss Hs Hb) as Hd.
  destruct (zip_sub_facts ss promoD Hd) as (A1 & A2 & A3 & A4).
  assert (Esum : sumZ promoD = promo_amount (ti_promotion input) ss) by (by apply promo_discounts_sum).
  split; [by apply add_points_between|]. split; [|split; [lia|]].
  - unfold p, after. rewrite add_points_sum by done. lia.
  - unfold p, points_applied, after. rewrite A2, <- Esum. lia.
Qed.

Lemma order_lines_facts :
  let o := calculateOrderTotals input in
  Forall2 (fun l lt => lt_lineSubtotal lt = cl_unitPrice l * cl_quantity l /\
                       lt_unitPrice lt = cl_unitPrice l /\ lt_quantity lt = cl_quantity l /\
                       0 <= lt_lineDiscount lt <= lt_lineSubtotal lt /\
                       lt_lineTotal lt = lt_lineSubtotal lt - lt_lineDiscount lt)
          (ti_lines input) (ot_lines o) /\
  ot_subtotal o = sumZ ss /\
  ot_discountTotal o = sumZ (map lt_lineDiscount (ot_lines o)) /\
  ot_discountTotal o = promo_amount (ti_promotion input) ss + ot_pointsDiscount o /\
  ot_pointsDiscount o = Z.min (Z.max 0 (or_else (ti_pointsDiscount input) 0))
                          (sumZ ss - promo_amount (ti_promotion input) ss) /\
  0 <= promo_amount (ti_promotion input) ss <= sumZ ss.
Proof.
  destruct order_discount_list as (H1 & H2 & H3 & H4).
  destruct (zip_line_totals (ti_lines input) _ H1) as [L1 L2].
  cbn zeta. unfold calculateOrderTotals. fold ss. fold promoD. fold after. fold p.
  destruct (ti_shippingTaxRate input); cbn -[promo_amount]; rewrite L2; auto 10.
Qed.
End OrderFacts.

(** ** Exact-integer specification of the order *)

(** Tax on [base] at [rate] basis points, to the nearest cent, halves up. *)
Definition tax_of (incl : bool) (base rate : Z) : Z :=
  if rate <=? 0 then 0
  else if incl then base - round_half_up (base * 10000) (10000 + rate)
  else round_half_up (base * rate) 10000.

(** (tax total, tax added on top) of an order with merchandise [goods] after
    discounts. *)
Definition order_tax_spec (input : TotalsInput) (goods shipping : Z) : Z * Z :=
  let adjustments := or_else (ti_adjustments input) [] in
  let itemBase := goods + sumZ (map (fun x => if adj_taxable x then adj_amount x else 0) adjustments) in
  let incl := ti_taxInclusive input in
  match ti_shippingTaxRate input with
  | None =>
      let t := tax_of incl (itemBase + if ti_shippingTaxable input then shipping else 0) (ti_taxRate input) in
      (t, if incl then 0 else t)
  | Some srate =>
      let it := tax_of incl itemBase (ti_taxRate input) in
      let sincl := or_else (ti_shippingTaxInclusive input) incl in
      let st := tax_of sincl shipping srate in
      (it + st, (if incl then 0 else it) + (if sincl then 0 else st))
  end.

(** Amounts and rates small enough for every intermediate product to be exact:
    any [integer] column value and any rate up to 500%. *)
Definition exact_range (input : TotalsInput) : Prop :=
  let adjustments := or_else (ti_adjustments input) [] in
  let T := sumZ (map (fun x => if adj_taxable x then adj_amount x else 0) adjustments) in
  sumZ (lineSubtotals_of (ti_lines input)) < 2 ^ 34 /\ 0 <= ti_shipping input < 2 ^ 34 /\
  Z.abs T < 2 ^ 34 /\ ti_taxRate input <= 50000 /\ or_else (ti_shippingTaxRate input) 0 <= 50000.

Lemma tax_branches (incl : bool) base rate : Z.abs base < 2 ^ 35 + 2 ^ 34 -> rate <= 50000 ->
  (if 0 <? rate then if incl then inclusive_tax base rate else exclusive_tax base rate else 0) = tax_of incl base rate /\
  (if rate <=? 0 then 0 else if incl then inclusive_tax base rate else exclusive_tax base rate) = tax_of incl base rate.
Proof.
  intros Hb Hr. unfold tax_of. destruct (Z.leb_spec rate 0) as [H|H].
  - rewrite (proj2 (Z.ltb_ge _ _)) by lia. done.
  - rewrite (proj2 (Z.ltb_lt _ _)) by lia.
    destruct incl; [rewrite inclusive_tax_exact by lia|rewrite exclusive_tax_exact by (rewrite Z.abs_mul; nia)]; done.
Qed.

(** C39: For every order of [integer] amounts, the tax total and grand total that
    [calculateOrderTotals] computes in binary64 arithmetic are the ones of the
    exact-integer specification: subtotal less discounts plus shipping plus
    adjustments plus the tax charged on top (inclusive tax is extracted, never
    added), floored at zero. *)
Theorem order_totals_exact input : priceable (ti_lines input) -> exact_range input ->
  let o := calculateOrderTotals input in
  let adjustment := sumZ (map adj_amount (or_else (ti_adjustments input) [])) in
  let goods := ot_subtotal o - ot_discountTotal o in
  (ot_taxTotal o, ot_grandTotal o) =
    let '(tax, added) := order_tax_spec input goods (ot_shippingTotal o) in
    (tax, Z.max 0 (goods + ot_shippingTotal o + adjustment + added)).
Proof.
  intros Hp (R1 & R2 & R3 & R4 & R5). cbn zeta.
  pose proof (order_lines_facts input Hp) as F. cbn zeta in F. destruct F as (_ & F2 & _ & F4 & F5 & F6).
  assert (G : 0 <= ot_subtotal (calculateOrderTotals input) - ot_discountTotal (calculateOrderTotals input) < 2 ^ 34) by lia.
  revert G. clear F2 F4 F5 F6. unfold order_tax_spec, calculateOrderTotals.
  set (ss := sumZ (lineSubtotals_of (ti_lines input))) in *.
  match goal with |- context [zip_with line_totals ?a ?b] => set (dl := zip_with line_totals a b) end.
  set (disc := sumZ (map lt_lineDiscount dl)).
  set (ship := if waives_shipping (ti_promotion input) then 0 else ti_shipping input).
  assert (Hship : 0 <= ship < 2 ^ 34) by (unfold ship; destruct (waives_shipping _); lia).
  set (T := sumZ (map (fun x => if adj_taxable x then adj_amount x else 0) (or_else (ti_adjustments input) []))) in *.
  set (A := sumZ (map adj_amount (or_else (ti_adjustments input) []))).
  destruct (ti_shippingTaxRate input) as [srate|]; cbn [ot_taxTotal ot_grandTotal ot_subtotal ot_discountTotal ot_shippingTotal or_else] in *;
    intros G.
  - destruct (tax_branches (ti_taxInclusive input) (ss - disc + T) (ti_taxRate input) ltac:(lia) R4) as [_ ->].
    destruct (tax_branches (or_else (ti_shippingTaxInclusive input) (ti_taxInclusive input)) ship srate ltac:(lia) R5) as [_ ->].
    f_equal. f_equal. lia.
  - set (base := ss - disc + T + (if ti_shippingTaxable input then ship else 0)).
    assert (Hb : Z.abs base < 2 ^ 35 + 2 ^ 34) by (unfold base; destruct (ti_shippingTaxable input); lia).
    destruct (tax_branches (ti_taxInclusive input) base (ti_taxRate input) Hb R4) as [-> _].
    destruct (ti_taxInclusive input); f_equal; f_equal; lia.
Qed.

(** ** Properties *)

(** Fixed-amount and points discounts are distributed without losing or
    inventing a cent, and no line receives more than its own subtotal, although
    the shares are computed with rounded divisions. *)
Theorem distribute_conserves target ws :
  Forall (fun w => 0 <= w) ws -> 0 <= target <= sumZ ws ->
  Z.of_nat (length ws) * sumZ ws <= 2 ^ 46 ->
  let shares := distributeLargestRemainder target ws in
  sumZ shares = target /\ length shares = length ws /\ Forall2 (fun w d => 0 <= d <= w) ws shares.
Proof.
  intros Hw Ht Hb. cbn zeta. split; [|split; [apply distribute_length|apply distribute_between; [done|lia|done]]].
  destruct ws as [|w0 ws0]; [cbn in Ht; by assert (target = 0) as -> by lia|].
  apply distribute_sum; [done|lia|]. cbn [length] in Hb. nia.
Qed.

Lemma distribute_conserves_witness :
  sumZ (distributeLargestRemainder 1000 [333; 999; 1; 57]) = 1000.
Proof.
  refine (proj1 (distribute_conserves 1000 [333; 999; 1; 57] _ _ _)).
  - repeat constructor; lia.
  - cbn; lia.
  - vm_compute; discriminate.
Defined.

(** On every line of a priced order the discount lies between zero and the
    line subtotal; the order's discount is the sum of the line discounts, is
    exactly the promotion amount plus the points discount, and never exceeds the
    subtotal. *)
Theorem order_discount_sound input : priceable (ti_lines input) ->
  let o := calculateOrderTotals input in
  Forall2 (fun l lt => lt_lineSubtotal lt = cl_unitPrice l * cl_quantity l /\
                       0 <= lt_lineDiscount lt <= lt_lineSubtotal lt /\
                       lt_lineTotal lt = lt_lineSubtotal lt - lt_lineDiscount lt)
          (ti_lines input) (ot_lines o) /\
  ot_discountTotal o = sumZ (map lt_lineDiscount (ot_lines o)) /\
  ot_discountTotal o =
    promo_amount (ti_promotion input) (lineSubtotals_of (ti_lines input)) + ot_pointsDiscount o /\
  0 <= ot_pointsDiscount o /\ 0 <= ot_discountTotal o <= ot_subtotal o.
Proof.
  intros Hp. destruct (order_lines_facts input Hp) as (F1 & F2 & F3 & F4 & F5 & F6). cbn zeta.
  split; [|split; [done|split; [done|lia]]].
  eapply Forall2_impl; [exact F1|]. cbn. tauto.
Qed.

Definition sample_order : TotalsInput :=
  {| ti_lines := [{| cl_unitPrice := 1999; cl_quantity := 2 |}; {| cl_unitPrice := 350; cl_quantity := 3 |}];
     ti_shipping := 600; ti_taxRate := 875; ti_shippingTaxable := true; ti_shippingTaxRate := None;
     ti_shippingTaxInclusive := None; ti_taxInclusive := false;
     ti_promotion := Some {| pr_type := fixed; pr_value := 1000; pr_freeShipping := false |};
     ti_pointsDiscount := Some 250; ti_adjustments := Some [{| adj_amount := -100; adj_taxable := true |}] |}.

Lemma sample_order_priceable : priceable (ti_lines sample_order).
Proof. split; [repeat constructor; cbn; lia|vm_compute; discriminate]. Qed.

Lemma order_discount_sound_witness :
  ot_discountTotal (calculateOrderTotals sample_order) = 1250 /\
  0 <= ot_discountTotal (calculateOrderTotals sample_order) <= ot_subtotal (calculateOrderTotals sample_order).
Proof.
  split; [vm_compute; reflexivity|].
  exact (proj2 (proj2 (proj2 (proj2 (order_discount_sound sample_order sample_order_priceable))))).
Defined.

Lemma order_totals_exact_witness :
  (ot_taxTotal (calculateOrderTotals sample_order), ot_grandTotal (calculateOrderTotals sample_order)) = (376, 4674).
Proof.
  assert (R : exact_range sample_order) by (repeat split; vm_compute; congruence).
  transitivity (let '(tax, added) := order_tax_spec sample_order 3798 600 in
                (tax, Z.max 0 (3798 + 600 + -100 + added))).
  - exact (order_totals_exact sample_order sample_order_priceable R).
  - vm_compute. reflexivity.
Defined.

(** Extracting the tax from an inclusive price and charging the tax on the
    extracted net agree to within one cent, for rates up to 100%. *)
Theorem tax_modes_agree base rate :
  0 <= base < 2 ^ 34 -> 0 < rate <= 10000 ->
  let contained := inclusive_tax base rate in
  0 <= contained <= base /\ Z.abs (exclusive_tax (base - contained) rate - contained) <= 1.
Proof.
  intros Hb Hr. cbn zeta. rewrite inclusive_tax_exact by lia.
  set (net := round_half_up (base * 10000) (10000 + rate)).
  pose proof (round_half_up_bounds (base * 10000) (10000 + rate) ltac:(lia)) as B1. fold net in B1.
  assert (Hn : 0 <= net <= base).
  { split; [apply round_half_up_nonneg; lia|].
    rewrite <- (round_half_up_mul base (10000 + rate)) by lia. apply round_half_up_mono; nia. }
  split; [lia|]. replace (base - (base - net)) with net by lia.
  rewrite exclusive_tax_exact by (rewrite Z.abs_mul; nia).
  pose proof (round_half_up_bounds (net * rate) 10000 ltac:(lia)) as B2.
  set (t := round_half_up (net * rate) 10000) in *. nia.
Qed.

Lemma tax_modes_agree_witness :
  inclusive_tax 10999 2100 = 1909 /\ Z.abs (exclusive_tax (10999 - 1909) 2100 - 1909) <= 1.
Proof.
  split; [vm_compute; reflexivity|].
  exact (proj2 (tax_modes_agree 10999 2100 ltac:(lia) ltac:(lia))).
Defined.

(** Equal exact fractions are not always tied after rounding: shares 4/6, 1/6
    and 1/6 of 2 all have fraction 1/3, so the first line should take the
    leftover cent by the documented index tie-break, but 4/3 loses a bit when
    its integer part is subtracted and the second line takes it. *)
Lemma distribute_tie_break_by_rounding :
  distributeLargestRemainder 2 [4; 1; 1] = [1; 1; 0].
Proof. vm_compute. reflexivity. Qed.
