(* ===== verification/OrderState.v ===== *)
(** Order life cycle and its wire projections:
    [src/packages/api/src/money/fsm.ts] (the payment state machine) and
    [src/packages/api/src/orders/status.ts] (status, payment status and
    fulfilment status derived from an order row and its children). *)

From S2P Require Import Prelude.
From Stdlib Require Import ZArith Lia Bool String Relations.
From stdpp Require Import base list strings.
Local Open Scope Z_scope.

(** ** The state machine *)

Inductive OrderState := PendingPayment | Paid | PartiallyRefunded | Refunded | Cancelled.
#[export] Instance OrderState_eq_dec : EqDecision OrderState.
Proof. solve_decision. Defined.

Definition ORDER_TRANSITIONS (from : OrderState) : list OrderState :=
  match from with
  | PendingPayment => [Paid; Cancelled]
  | Paid => [PartiallyRefunded; Refunded; Cancelled]
  | PartiallyRefunded => [Refunded]
  | Refunded => []
  | Cancelled => []
  end.

Definition canTransition (from to : OrderState) : bool :=
  bool_decide (to ∈ ORDER_TRANSITIONS from).

(** One allowed move of an order, and a run of [n] moves. *)
Definition order_step (a b : OrderState) : Prop := canTransition a b = true.

Inductive order_run : nat -> OrderState -> OrderState -> Prop :=
  | run_refl s : order_run 0 s s
  | run_step n a b c : order_step a b -> order_run n b c -> order_run (S n) a c.

(** Distance to the end of the life cycle. *)
Definition order_rank (s : OrderState) : nat :=
  match s with
  | PendingPayment => 3 | Paid => 2 | PartiallyRefunded => 1 | Refunded => 0 | Cancelled => 0
  end.

Lemma order_step_rank a b : order_step a b -> (order_rank b < order_rank a)%nat.
Proof. unfold order_step. destruct a, b; vm_compute; intros H; try discriminate H; lia. Qed.

Lemma order_run_rank n a b : order_run n a b -> (n + order_rank b <= order_rank a)%nat.
Proof. induction 1 as [|n a b c H _ IH]; [lia|]. apply order_step_rank in H. lia. Qed.

(** Money was taken before it is given back: a run into a refund state from
    [PendingPayment] goes through [Paid]. *)
Definition is_refund_state (s : OrderState) : bool :=
  match s with PartiallyRefunded | Refunded => true | _ => false end.

Lemma run_from_cancelled n s : order_run n Cancelled s -> s = Cancelled.
Proof. inversion 1 as [|? ? b ? H']; subst; [done|]. destruct b; discriminate H'. Qed.

(** The order state machine terminates: every order goes through at most
    three transitions, refunded and cancelled orders have no further move, and
    an order that reaches a refund state from [PendingPayment] was [Paid] right
    after its first transition. *)
Theorem order_lifecycle n s : order_run n PendingPayment s ->
  (n <= 3)%nat /\
  (is_refund_state s = true -> exists m, n = S m /\ order_run m Paid s) /\
  (s = Refunded \/ s = Cancelled -> forall t, canTransition s t = false).
Proof.
  intros H. split; [|split].
  - apply order_run_rank in H. cbn in H. lia.
  - intros Hr. inversion H as [|m ? b ? Hs Hrest]; subst; [discriminate Hr|].
    exists m. split; [done|].
    destruct b; try discriminate Hs; [done|].
    apply run_from_cancelled in Hrest. subst. discriminate Hr.
  - intros [-> | ->] t; by destruct t.
Qed.

Lemma order_lifecycle_witness : (3 <= 3)%nat /\ exists m, 3%nat = S m /\ order_run m Paid Refunded.
Proof.
  assert (R : order_run 3 PendingPayment Refunded).
  { apply run_step with Paid; [reflexivity|]. apply run_step with PartiallyRefunded; [reflexivity|].
    apply run_step with Refunded; [reflexivity|constructor]. }
  split; [exact (proj1 (order_lifecycle 3 Refunded R))|].
  exact (proj1 (proj2 (order_lifecycle 3 Refunded R)) eq_refl).
Defined.

(** ** Wire projections *)

Inductive OrderStatus := st_open | st_completed | st_cancelled | st_archived.

Definition deriveOrderStatus (state : OrderState) (deletedAt : option Z) : OrderStatus :=
  match deletedAt with
  | Some _ => st_archived
  | None =>
      if bool_decide (state = Cancelled) then st_cancelled
      else if bool_decide (state = PendingPayment) then st_open
      else st_completed
  end.

Inductive PaymentState := pay_Pending | pay_Authorized | pay_Settled | pay_Declined | pay_Failed.
#[export] Instance PaymentState_eq_dec : EqDecision PaymentState.
Proof. solve_decision. Defined.

Inductive OrderPaymentStatus :=
  ps_pending | ps_authorized | ps_paid | ps_partially_refunded | ps_refunded | ps_voided
  | ps_failed | ps_balance_due.

Definition derivePaymentStatus (state : OrderState) (paymentsNewestFirst : list PaymentState)
    (amountDue : option Z) : OrderPaymentStatus :=
  let some p := existsb p paymentsNewestFirst in
  if (bool_decide (state = Paid) || bool_decide (state = PartiallyRefunded)) && (0 <? or_else amountDue 0)
  then ps_balance_due
  else match state with
  | Refunded => ps_refunded
  | PartiallyRefunded => ps_partially_refunded
  | Paid => ps_paid
  | Cancelled =>
      if some (fun p => bool_decide (p = pay_Settled)) then ps_paid
      else if some (fun p => bool_decide (p = pay_Authorized)) then ps_voided
      else if some (fun p => bool_decide (p = pay_Declined) || bool_decide (p = pay_Failed)) then ps_failed
      else ps_pending
  | PendingPayment =>
      match paymentsNewestFirst with
      | [] => ps_pending
      | latest :: _ =>
          if bool_decide (latest = pay_Authorized) then ps_authorized
          else if bool_decide (latest = pay_Declined) || bool_decide (latest = pay_Failed) then ps_failed
          else ps_pending
      end
  end.

Record FulfilLine := { fl_quantity : Z; fl_fulfilledQty : Z; fl_cancelledQty : Z }.
Inductive FulfillmentState := ful_Pending | ful_Shipped | ful_Delivered | ful_Cancelled.
#[export] Instance FulfillmentState_eq_dec : EqDecision FulfillmentState.
Proof. solve_decision. Defined.
Inductive OrderFulfillmentStatus :=
  fs_unfulfilled | fs_partially_fulfilled | fs_fulfilled | fs_partially_delivered | fs_delivered.

Definition deriveFulfillmentStatus (lines : list FulfilLine) (fulfillments : list FulfillmentState)
    : OrderFulfillmentStatus :=
  let total := sumZ (map (fun l => Z.max (fl_quantity l - fl_cancelledQty l) 0) lines) in
  let fulfilled := sumZ (map fl_fulfilledQty lines) in
  if total <=? 0 then fs_fulfilled
  else if fulfilled <=? 0 then fs_unfulfilled
  else if fulfilled <? total then fs_partially_fulfilled
  else
    let active := List.filter (fun f => negb (bool_decide (f = ful_Cancelled))) fulfillments in
    match active with
    | [] => fs_fulfilled
    | _ :: _ =>
        let delivered := length (List.filter (fun f => bool_decide (f = ful_Delivered)) active) in
        if (delivered =? length active)%nat then fs_delivered
        else if (0 <? delivered)%nat then fs_partially_delivered
        else fs_fulfilled
    end.

(** [PAYMENT_WIRE_STATE] and its lookup with a lower-case fallback. *)
Definition wirePaymentState (state : string) : string :=
  if String.eqb state "Pending" then "pending"
  else if String.eqb state "Authorized" then "authorized"
  else if String.eqb state "Settled" then "captured"
  else if String.eqb state "Declined" then "declined"
  else if String.eqb state "Failed" then "failed"
  else to_lower state.

Lemma filter_length_all {A} (p : A -> bool) l :
  (length (List.filter p l) =? length l)%nat = true <-> Forall (fun x => p x = true) l.
Proof.
  rewrite Nat.eqb_eq. split.
  - induction l as [|x l IH]; cbn; intros H; [constructor|].
    destruct (p x) eqn:E; cbn in H.
    + constructor; [done|]. apply IH. lia.
    + pose proof (List.filter_length_le p l). lia.
  - induction 1 as [|x l Hx _ IH]; cbn; [done|]. rewrite Hx. cbn. lia.
Qed.

(** An order reads [delivered] exactly when something had to ship, every open
    unit shipped, there is an active fulfilment and every active one arrived; it
    reads [unfulfilled] exactly when something has to ship and nothing did. *)
Theorem fulfillment_status_spec lines fulfillments :
  let total := sumZ (map (fun l => Z.max (fl_quantity l - fl_cancelledQty l) 0) lines) in
  let fulfilled := sumZ (map fl_fulfilledQty lines) in
  let active := List.filter (fun f => negb (bool_decide (f = ful_Cancelled))) fulfillments in
  (deriveFulfillmentStatus lines fulfillments = fs_delivered <->
     0 < total /\ total <= fulfilled /\ active <> [] /\ Forall (eq ful_Delivered) active) /\
  (deriveFulfillmentStatus lines fulfillments = fs_unfulfilled <-> 0 < total /\ fulfilled <= 0).
Proof.
  cbn zeta. unfold deriveFulfillmentStatus.
  set (total := sumZ (map _ lines)). set (fulfilled := sumZ (map fl_fulfilledQty lines)).
  set (active := List.filter _ fulfillments).
  assert (HF : Forall (fun f => bool_decide (f = ful_Delivered) = true) active <-> Forall (eq ful_Delivered) active).
  { split; intros H; (eapply Forall_impl; [exact H|]); intros f; cbn; rewrite bool_decide_eq_true; congruence. }
  destruct (total <=? 0) eqn:E1; bool_props; [split; split; try discriminate; lia|].
  destruct (fulfilled <=? 0) eqn:E2; bool_props; [split; split; try discriminate; try done; lia|].
  destruct (fulfilled <? total) eqn:E3; bool_props; [split; split; try discriminate; lia|].
  destruct active as [|a act] eqn:Ea; [split; split; try discriminate; try lia; by intros (_ & _ & ? & _)|].
  rewrite <- Ea in *. rewrite <- HF, <- filter_length_all.
  assert (Hne : active <> []) by (rewrite Ea; discriminate).
  destruct (length _ =? length active)%nat; [split; split; try done; lia|].
  destruct (0 <? _)%nat; split; split; try discriminate; try lia; by intros (_ & _ & _ & ?).
Qed.

(** The payment status never reports money that did not move or hides money
    that did: [paid] (without a balance) is shown only for a [Paid] order or a
    cancelled order holding a settled payment; [balance_due] only for a paid or
    partially refunded order that owes a positive amount, and then always. *)
Theorem payment_status_spec state payments due :
  (derivePaymentStatus state payments due = ps_paid <->
     (state = Paid /\ or_else due 0 <= 0) \/ (state = Cancelled /\ pay_Settled ∈ payments)) /\
  (derivePaymentStatus state payments due = ps_balance_due <->
     (state = Paid \/ state = PartiallyRefunded) /\ 0 < or_else due 0).
Proof.
  assert (Hs : existsb (fun p => bool_decide (p = pay_Settled)) payments = true <-> pay_Settled ∈ payments).
  { rewrite existsb_exists. split.
    - intros (p & Hin & Hp). apply bool_decide_eq_true in Hp as ->. by apply list_elem_of_In.
    - intros H. exists pay_Settled. split; [by apply list_elem_of_In|by apply bool_decide_eq_true]. }
  unfold derivePaymentStatus. cbv zeta beta. rewrite <- Hs. clear Hs.
  destruct (existsb (fun p => bool_decide (p = pay_Settled)) payments); set (d := or_else due 0).
  all: destruct (Z.ltb_spec 0 d) as [Ed|Ed]; destruct state; cbn [bool_decide orb andb];
    repeat match goal with
      | |- context [bool_decide (?x = ?y)] =>
          match type of x with OrderState => 
            let v := eval vm_compute in (bool_decide (x = y)) in
            change (bool_decide (x = y)) with v end
      end; cbn [orb andb].
  all: repeat match goal with |- context [if existsb ?f ?l then _ else _] => destruct (existsb f l) end.
  all: try (destruct payments as [|[] ps]; cbn).
  all: split; split; intros; first [discriminate | lia | intuition (congruence || lia)].
Qed.
