(* ===== verification/Json.v ===== *)
(** Parsed JSON values: what a [jsonb] column or an [unknown] configuration
    argument holds. [undefined] is the [None] of a field lookup. *)

From S2P Require Import Prelude JsNumber.
From Stdlib Require Import ZArith QArith String.
From stdpp Require Import base list strings.
Local Open Scope Z_scope.

Inductive json :=
  | JNull
  | JBool (b : bool)
  | JNum (q : Q)
  | JStr (s : string)
  | JArr (l : list json)
  | JObj (fields : list (string * json)).

(** The last binding of a key wins, as in [JSON.parse]. *)
Fixpoint assoc_last {A} (k : string) (l : list (string * A)) : option A :=
  match l with
  | [] => None
  | (k', v) :: rest =>
      match assoc_last k rest with
      | Some r => Some r
      | None => if String.eqb k k' then Some v else None
      end
  end.

Lemma assoc_last_app {A} k (l1 l2 : list (string * A)) :
  assoc_last k (l1 ++ l2) = match assoc_last k l2 with Some v => Some v | None => assoc_last k l1 end.
Proof. induction l1 as [|[k' v] l IH]; cbn; [by destruct (assoc_last k l2)|]. rewrite IH. by destruct (assoc_last k l2). Qed.

(** [(v as {...})?.k] for the keys the code reads (none is a built-in member of
    an array, string or number). *)
Definition field (k : string) (v : json) : option json :=
  match v with JObj fs => assoc_last k fs | _ => None end.

Definition as_string (v : option json) : option string :=
  match v with Some (JStr s) => Some s | _ => None end.
Definition as_array (v : option json) : option (list json) :=
  match v with Some (JArr l) => Some l | _ => None end.
Definition as_bool (v : option json) : option bool :=
  match v with Some (JBool b) => Some b | _ => None end.

(** [Number.isSafeInteger(v)] *)
Definition safe_integer (v : option json) : option Z :=
  match v with
  | Some (JNum q) => let r := Qred q in if (Zpos (Qden r) =? 1) && is_safe (Qnum r) then Some (Qnum r) else None
  | _ => None
  end.

(** [v == null]. *)
Definition nullish (v : option json) : bool :=
  match v with None | Some JNull => true | _ => false end.

Fixpoint all_some {A} (l : list (option A)) : option (list A) :=
  match l with
  | [] => Some []
  | Some x :: r => match all_some r with Some xs => Some (x :: xs) | None => None end
  | None :: _ => None
  end.
