(* ===== verification/JsonText.v ===== *)
(** JSON text: the language's [JSON.stringify] and [JSON.parse], and the
    canonical form [stable] that
    [src/packages/api/src/account-credit/edit-funding.ts] serialises.

    [print_json] prints integers, the only numbers the modelled code serialises;
    [JSON_parse] accepts the whole grammar. The two are inverse on the values the
    code writes ([parse_print]). Strings are bytes: a code unit outside ASCII
    stands for its UTF-8 encoding. *)

From S2P Require Import Prelude JsNumber Json.
From Stdlib Require Import Qcanon ZArith QArith Lia Bool String Ascii.
From stdpp Require Import base list strings pretty.
Local Open Scope Z_scope.

Abbreviation quote_char := "034"%char.
Abbreviation backslash := "092"%char.

(** ** [JSON.stringify] *)

Definition hex_digit (n : nat) : ascii := ascii_of_nat (if (n <? 10)%nat then 48 + n else 87 + n).
Definition print_char (c : ascii) : string :=
  let n := nat_of_ascii c in
  if (n =? 34)%nat then String backslash (String quote_char EmptyString)
  else if (n =? 92)%nat then String backslash (String backslash EmptyString)
  else if (n =? 8)%nat then String backslash "b"
  else if (n =? 9)%nat then String backslash "t"
  else if (n =? 10)%nat then String backslash "n"
  else if (n =? 12)%nat then String backslash "f"
  else if (n =? 13)%nat then String backslash "r"
  else if (n <? 32)%nat then
    String backslash ("u00" +:+ String (hex_digit (n / 16)) (String (hex_digit (n mod 16)) EmptyString))
  else String c EmptyString.
Fixpoint print_chars (s : string) : string :=
  match s with EmptyString => EmptyString | String c r => print_char c +:+ print_chars r end.
Definition print_string (s : string) : string := String quote_char (print_chars s +:+ String quote_char EmptyString).

Definition print_num (q : Q) : string := pretty (Qnum (Qred q)).

Fixpoint print_json (j : json) : string :=
  match j with
  | JNull => "null"
  | JBool true => "true"
  | JBool false => "false"
  | JNum q => print_num q
  | JStr s => print_string s
  | JArr l => "[" +:+ String.concat "," (map print_json l) +:+ "]"
  | JObj fs => "{" +:+ String.concat "," (map (fun '(k, v) => print_string k +:+ ":" +:+ print_json v) fs) +:+ "}"
  end.

(** ** [JSON.parse] *)

Definition json_space (c : ascii) : bool :=
  let n := nat_of_ascii c in (n =? 32)%nat || (n =? 9)%nat || (n =? 10)%nat || (n =? 13)%nat.
Fixpoint skip_space (s : string) : string :=
  match s with String c r => if json_space c then skip_space r else s | EmptyString => EmptyString end.

Definition hex_value (c : ascii) : option Z :=
  let n := Z.of_nat (nat_of_ascii c) in
  if (48 <=? n) && (n <=? 57) then Some (n - 48)
  else if (65 <=? n) && (n <=? 70) then Some (n - 55)
  else if (97 <=? n) && (n <=? 102) then Some (n - 87)
  else None.
Definition hex4 (a b c d : ascii) : option Z :=
  match hex_value a, hex_value b, hex_value c, hex_value d with
  | Some a, Some b, Some c, Some d => Some (((a * 16 + b) * 16 + c) * 16 + d)
  | _, _, _, _ => None
  end.

(** A parsed string is raw bytes and escaped code units. *)
Inductive piece := raw_byte (c : ascii) | code_unit (u : Z).
Definition unescape (c : ascii) : option ascii :=
  let n := nat_of_ascii c in
  if (n =? 34)%nat || (n =? 92)%nat || (n =? 47)%nat then Some c
  else if (n =? 98)%nat then Some "008"%char
  else if (n =? 116)%nat then Some "009"%char
  else if (n =? 110)%nat then Some "010"%char
  else if (n =? 102)%nat then Some "012"%char
  else if (n =? 114)%nat then Some "013"%char
  else None.
Definition push (p : piece) (r : option (list piece * string)) : option (list piece * string) :=
  match r with Some (ps, rest) => Some (p :: ps, rest) | None => None end.
Fixpoint parse_pieces (s : string) : option (list piece * string) :=
  match s with
  | EmptyString => None
  | String c r =>
      if Ascii.eqb c quote_char then Some ([], r)
      else if Ascii.eqb c backslash then
        match r with
        | String e r1 =>
            if Ascii.eqb e "u"%char then
              match r1 with
              | String h1 (String h2 (String h3 (String h4 r2))) =>
                  match hex4 h1 h2 h3 h4 with Some u => push (code_unit u) (parse_pieces r2) | None => None end
              | _ => None
              end
            else match unescape e with Some x => push (raw_byte x) (parse_pieces r1) | None => None end
        | EmptyString => None
        end
      else if (nat_of_ascii c <? 32)%nat then None
      else push (raw_byte c) (parse_pieces r)
  end.

Definition byte (z : Z) : ascii := ascii_of_nat (Z.to_nat z).
Definition utf8 (u : Z) : string :=
  if u <? 128 then String (byte u) EmptyString
  else if u <? 2048 then String (byte (192 + u / 64)) (String (byte (128 + u mod 64)) EmptyString)
  else if u <? 65536 then
    String (byte (224 + u / 4096)) (String (byte (128 + u / 64 mod 64)) (String (byte (128 + u mod 64)) EmptyString))
  else String (byte (240 + u / 262144)) (String (byte (128 + u / 4096 mod 64))
         (String (byte (128 + u / 64 mod 64)) (String (byte (128 + u mod 64)) EmptyString))).
Fixpoint join_pieces (ps : list piece) : string :=
  match ps with
  | [] => EmptyString
  | raw_byte c :: r => String c (join_pieces r)
  | code_unit u :: r =>
      match r with
      | code_unit v :: r' =>
          if (55296 <=? u) && (u <? 56320) && (56320 <=? v) && (v <? 57344)
          then utf8 (65536 + (u - 55296) * 1024 + (v - 56320)) +:+ join_pieces r'
          else utf8 u +:+ join_pieces r
      | _ => utf8 u +:+ join_pieces r
      end
  end.
(** The characters after the opening quote. *)
Definition parse_string (s : string) : option (string * string) :=
  match parse_pieces s with Some (ps, rest) => Some (join_pieces ps, rest) | None => None end.

Fixpoint take_digits (s : string) : string * string :=
  match s with
  | String c r => if is_digit c then let '(d, rest) := take_digits r in (String c d, rest) else (EmptyString, s)
  | EmptyString => (EmptyString, EmptyString)
  end.
Definition leading_zero (s : string) : bool :=
  match s with String c (String _ _) => Ascii.eqb c "0"%char | _ => false end.
Definition parse_fraction (s : string) : option (string * string) :=
  match s with
  | String c r =>
      if Ascii.eqb c "."%char then
        let '(d, rest) := take_digits r in if String.eqb d EmptyString then None else Some (d, rest)
      else Some (EmptyString, s)
  | EmptyString => Some (EmptyString, EmptyString)
  end.
Definition parse_exponent (s : string) : option (Z * string) :=
  match s with
  | String c r =>
      if Ascii.eqb c "e"%char || Ascii.eqb c "E"%char then
        let '(sign, r1) :=
          match r with
          | String x r' => if Ascii.eqb x "-"%char then (-1, r') else if Ascii.eqb x "+"%char then (1, r') else (1, r)
          | EmptyString => (1, r)
          end in
        let '(d, rest) := take_digits r1 in if String.eqb d EmptyString then None else Some (sign * decimal 0 d, rest)
      else Some (0, s)
  | EmptyString => Some (0, EmptyString)
  end.
(** The binary64 value of [digits * 10^e]; an integer in the safe range is itself. *)
Definition number_value (digits e : Z) : Q :=
  if (e =? 0) && is_safe digits then inject_Z digits
  else fl (if 0 <=? e then inject_Z (digits * 10 ^ e) else digits # Z.to_pos (10 ^ (- e))).
Definition parse_number (s : string) : option (json * string) :=
  let '(sign, s1) := match s with String c r => if Ascii.eqb c "-"%char then (-1, r) else (1, s) | EmptyString => (1, s) end in
  let '(ip, s2) := take_digits s1 in
  if String.eqb ip EmptyString || leading_zero ip then None else
  match parse_fraction s2 with
  | None => None
  | Some (fp, s3) =>
      match parse_exponent s3 with
      | None => None
      | Some (e, rest) =>
          Some (JNum (number_value (sign * decimal 0 (ip +:+ fp)) (e - Z.of_nat (String.length fp))), rest)
      end
  end.

Fixpoint strip_prefix (p s : string) : option string :=
  match p, s with
  | EmptyString, _ => Some s
  | String a p', String b s' => if Ascii.eqb a b then strip_prefix p' s' else None
  | _, _ => None
  end.
Definition literal (p : string) (v : json) (s : string) : option (json * string) :=
  match strip_prefix p s with Some r => Some (v, r) | None => None end.

Fixpoint parse_value (fuel : nat) (s : string) : option (json * string) :=
  match fuel with
  | O => None
  | S f =>
      match skip_space s with
      | EmptyString => None
      | String c r =>
          if Ascii.eqb c "{"%char then
            match skip_space r with
            | String c' r' =>
                if Ascii.eqb c' "}"%char then Some (JObj [], r')
                else match parse_members f r with Some (ms, rest) => Some (JObj ms, rest) | None => None end
            | EmptyString => None
            end
          else if Ascii.eqb c "["%char then
            match skip_space r with
            | String c' r' =>
                if Ascii.eqb c' "]"%char then Some (JArr [], r')
                else match parse_elems f r with Some (vs, rest) => Some (JArr vs, rest) | None => None end
            | EmptyString => None
            end
          else if Ascii.eqb c quote_char then
            match parse_string r with Some (v, rest) => Some (JStr v, rest) | None => None end
          else if Ascii.eqb c "t"%char then literal "true" (JBool true) (String c r)
          else if Ascii.eqb c "f"%char then literal "false" (JBool false) (String c r)
          else if Ascii.eqb c "n"%char then literal "null" JNull (String c r)
          else parse_number (String c r)
      end
  end
with parse_members (fuel : nat) (s : string) : option (list (string * json) * string) :=
  match fuel with
  | O => None
  | S f =>
      match skip_space s with
      | EmptyString => None
      | String c r =>
          if negb (Ascii.eqb c quote_char) then None else
          match parse_string r with
          | None => None
          | Some (k, r1) =>
              match skip_space r1 with
              | EmptyString => None
              | String c1 r2 =>
                  if negb (Ascii.eqb c1 ":"%char) then None else
                  match parse_value f r2 with
                  | None => None
                  | Some (v, r3) =>
                      match skip_space r3 with
                      | EmptyString => None
                      | String c2 r4 =>
                          if Ascii.eqb c2 "}"%char then Some ([(k, v)], r4)
                          else if Ascii.eqb c2 ","%char then
                            match parse_members f r4 with Some (ms, rest) => Some ((k, v) :: ms, rest) | None => None end
                          else None
                      end
                  end
              end
          end
      end
  end
with parse_elems (fuel : nat) (s : string) : option (list json * string) :=
  match fuel with
  | O => None
  | S f =>
      match parse_value f s with
      | None => None
      | Some (v, r) =>
          match skip_space r with
          | EmptyString => None
          | String c r1 =>
              if Ascii.eqb c "]"%char then Some ([v], r1)
              else if Ascii.eqb c ","%char then
                match parse_elems f r1 with Some (vs, rest) => Some (v :: vs, rest) | None => None end
              else None
          end
      end
  end.

Definition JSON_parse (s : string) : option json :=
  match parse_value (2 * String.length s + 2) s with
  | Some (j, rest) => match skip_space rest with EmptyString => Some j | _ => None end
  | None => None
  end.

(** ** The canonical form: keys sorted, the last binding of each kept *)

Definition sorted_fields {A} (d : A) (fs : list (string * A)) : list (string * A) :=
  map (fun k => (k, or_else (assoc_last k fs) d)) (sorted_set (map fst fs)).
Fixpoint stable (v : json) : json :=
  match v with
  | JArr l => JArr (map stable l)
  | JObj fs => JObj (sorted_fields JNull (map (fun '(k, x) => (k, stable x)) fs))
  | _ => v
  end.
Definition serialize (v : json) : string := print_json (stable v).

(** ** What is printed is read back *)

(** Induction through the lists of a value. *)
Lemma json_rect' (P : json -> Prop) :
  P JNull -> (forall b, P (JBool b)) -> (forall q, P (JNum q)) -> (forall s, P (JStr s)) ->
  (forall l, Forall P l -> P (JArr l)) -> (forall fs, Forall (fun f => P (snd f)) fs -> P (JObj fs)) ->
  forall j, P j.
Proof.
  intros Hn Hb Hq Hs Ha Ho. fix IH 1. intros [| | | |l|fs]; [done|done|done|done|apply Ha|apply Ho].
  - induction l as [|x l IHl]; constructor; [apply IH|exact IHl].
  - induction fs as [|[k x] fs IHl]; constructor; [apply IH|exact IHl].
Qed.

(** Integers in the safe range are the only numbers. *)
Fixpoint plain (j : json) : bool :=
  match j with
  | JNum q => (Zpos (Qden q) =? 1) && is_safe (Qnum q)
  | JArr l => forallb plain l
  | JObj fs => forallb (fun '(_, v) => plain v) fs
  | _ => true
  end.
Fixpoint json_size (j : json) : nat :=
  match j with
  | JArr l => S (list_sum (map (fun v => S (json_size v)) l))
  | JObj fs => S (list_sum (map (fun '(_, v) => S (json_size v)) fs))
  | _ => 1%nat
  end.

Lemma space_not c s : json_space c = false -> skip_space (String c s) = String c s.
Proof. intros H. cbn. by rewrite H. Qed.

Lemma hex_digit_value n : (n < 16)%nat -> hex_value (hex_digit n) = Some (Z.of_nat n).
Proof. intros H. do 16 (destruct n as [|n]; [reflexivity|]). lia. Qed.

Lemma print_char_parse c r : parse_pieces (print_char c +:+ r) =
  push (if (nat_of_ascii c <? 32)%nat && negb (existsb (Nat.eqb (nat_of_ascii c)) [8; 9; 10; 12; 13]%nat)
        then code_unit (Z.of_nat (nat_of_ascii c)) else raw_byte c) (parse_pieces r).
Proof. destruct c as [[] [] [] [] [] [] [] []]; reflexivity. Qed.

Definition piece_of (c : ascii) : piece :=
  if (nat_of_ascii c <? 32)%nat && negb (existsb (Nat.eqb (nat_of_ascii c)) [8; 9; 10; 12; 13]%nat)
  then code_unit (Z.of_nat (nat_of_ascii c)) else raw_byte c.
Lemma print_chars_pieces s r :
  parse_pieces (print_chars s +:+ String quote_char r) = Some (map piece_of (list_ascii_of_string s), r).
Proof.
  induction s as [|c s IH]; [done|]. cbn [print_chars list_ascii_of_string map].
  rewrite append_assoc, print_char_parse, IH. done.
Qed.
Lemma utf8_ascii c : (nat_of_ascii c <? 32)%nat = true -> utf8 (Z.of_nat (nat_of_ascii c)) = String c EmptyString.
Proof. destruct c as [[] [] [] [] [] [] [] []]; (done || reflexivity). Qed.
Lemma join_piece_of s : join_pieces (map piece_of (list_ascii_of_string s)) = s.
Proof.
  induction s as [|c s IH]; [done|]. cbn [list_ascii_of_string map].
  assert (E : join_pieces (piece_of c :: map piece_of (list_ascii_of_string s)) =
              String c (join_pieces (map piece_of (list_ascii_of_string s)))); [|by rewrite E, IH].
  unfold piece_of at 1. destruct (_ && _) eqn:Ec; [|done]. apply andb_true_iff in Ec as [Ec _].
  cbn [join_pieces]. pose proof (utf8_ascii c Ec) as U. apply Nat.ltb_lt in Ec.
  destruct (map piece_of (list_ascii_of_string s)) as [|[c'|v] ps]; rewrite U; try done.
  destruct (Z.leb_spec 55296 (Z.of_nat (nat_of_ascii c))); [lia|done].
Qed.
Lemma parse_print_string s r : parse_string (print_chars s +:+ String quote_char r) = Some (s, r).
Proof. unfold parse_string. by rewrite print_chars_pieces, join_piece_of. Qed.

(** *** Integers *)

Definition no_digit (s : string) : bool := match s with String c _ => negb (is_digit c) | EmptyString => true end.
Lemma take_digits_app d r : all_digits d = true -> no_digit r = true -> take_digits (d +:+ r) = (d, r).
Proof.
  induction d as [|c d IH]; intros Hd Hr.
  - rewrite append_empty. destruct r as [|c r]; [done|]. cbn in *. by destruct (is_digit c).
  - cbn in Hd. apply andb_true_iff in Hd as [Hc Hd]. rewrite append_cons. cbn. by rewrite Hc, IH.
Qed.

Lemma pretty_char_value x : (x < 10)%N -> is_digit (pretty_N_char x) = true /\
  Z.of_nat (nat_of_ascii (pretty_N_char x)) - 48 = Z.of_N x /\ (Ascii.eqb (pretty_N_char x) "0"%char = true -> x = 0%N).
Proof.
  intros H. destruct x as [|p]; [by repeat split|].
  do 4 (try destruct p as [p|p|]); try lia; by repeat split.
Qed.

Lemma pretty_go_spec (x : N) : forall s, (0 < x)%N -> exists d, pretty_N_go x s = d +:+ s /\ all_digits d = true /\
  decimal 0 d = Z.of_N x /\ (exists c t, d = String c t /\ Ascii.eqb c "0"%char = false).
Proof.
  induction (N.lt_wf_0 x) as [x _ IH]. intros s Hx. rewrite pretty_N_go_step by done.
  assert (Hm : (x mod 10 < 10)%N) by (apply N.mod_lt; lia).
  destruct (pretty_char_value _ Hm) as (D & V & Z0). pose proof (N.div_mod x 10 ltac:(lia)) as Ex.
  destruct (N.eq_dec (x / 10)%N 0%N) as [E|E].
  - rewrite E, pretty_N_go_0. exists (String (pretty_N_char (x mod 10)%N) EmptyString).
    split; [done|]. split; [cbn; by rewrite D|]. split; [cbn [decimal]; rewrite V; lia|].
    eexists _, _. split; [done|]. destruct (Ascii.eqb _ _) eqn:Ee; [|done]. specialize (Z0 eq_refl). lia.
  - destruct (IH (x / 10)%N ltac:(apply N.div_lt; lia) (String (pretty_N_char (x mod 10)%N) s) ltac:(lia))
      as (d & -> & Hd & Hv & c & t & -> & Hc).
    exists (String c t +:+ String (pretty_N_char (x mod 10)%N) EmptyString).
    split; [by rewrite append_assoc|]. rewrite digits_append, decimal_append, Hd, Hv. cbn [all_digits decimal].
    split; [by rewrite D|]. split; [rewrite V; lia|]. by eexists _, _.
Qed.

Lemma pretty_nat_spec (n : N) : all_digits (pretty n) = true /\ decimal 0 (pretty n) = Z.of_N n /\
  leading_zero (pretty n) = false /\ exists c t, pretty n = String c t.
Proof.
  unfold pretty, pretty_N. destruct (decide (n = 0%N)) as [->|Hn]; [repeat split; by eexists _, _|].
  destruct (pretty_go_spec n EmptyString ltac:(lia)) as (d & -> & Hd & Hv & c & t & -> & Hc). rewrite append_nil_r.
  split; [done|]. split; [done|]. split; [cbn; by destruct t|by eexists _, _].
Qed.

(** What may follow a number. *)
Definition delimited (s : string) : bool :=
  match s with
  | String c _ => negb (is_digit c) && negb (Ascii.eqb c "."%char) && negb (Ascii.eqb c "e"%char) && negb (Ascii.eqb c "E"%char)
  | EmptyString => true
  end.
Lemma delimited_spec s : delimited s = true ->
  no_digit s = true /\ parse_fraction s = Some (EmptyString, s) /\ parse_exponent s = Some (0, s).
Proof.
  destruct s as [|c s]; [done|]. cbn. intros H. repeat apply andb_true_iff in H as [H ?].
  repeat match goal with E : negb _ = true |- _ => apply negb_true_iff in E end.
  repeat match goal with E : _ = false |- _ => rewrite E; clear E end. done.
Qed.

Lemma parse_digits (n : N) sign z r : delimited r = true -> z = sign * Z.of_N n -> is_safe z = true ->
  (let '(ip, s2) := take_digits (pretty n +:+ r) in
   if String.eqb ip EmptyString || leading_zero ip then None else
   match parse_fraction s2 with
   | None => None
   | Some (fp, s3) =>
       match parse_exponent s3 with
       | None => None
       | Some (e, rest) =>
           Some (JNum (number_value (sign * decimal 0 (ip +:+ fp)) (e - Z.of_nat (String.length fp))), rest)
       end
   end) = Some (JNum (inject_Z z), r).
Proof.
  intros Hr -> Hs. destruct (delimited_spec _ Hr) as (R1 & R2 & R3). destruct (pretty_nat_spec n) as (D & V & L & c & t & E).
  rewrite take_digits_app by done. rewrite L, E. cbn [String.eqb orb]. rewrite R2, R3, append_nil_r, <- E, V.
  unfold number_value. cbn [String.length Z.of_nat]. rewrite Z.sub_0_r, Z.eqb_refl, Hs. done.
Qed.
Lemma parse_print_num z r : is_safe z = true -> delimited r = true ->
  parse_number (pretty z +:+ r) = Some (JNum (inject_Z z), r).
Proof.
  intros Hs Hr. unfold parse_number. destruct z as [|p|p].
  - change (pretty 0) with (pretty 0%N). by apply (parse_digits 0 1 0).
  - change (pretty (Zpos p)) with (pretty (Npos p)). destruct (pretty_nat_spec (Npos p)) as (D & _ & _ & c & t & E).
    rewrite E, append_cons. assert (Hc : Ascii.eqb c "-"%char = false).
    { rewrite E in D. cbn in D. apply andb_true_iff in D as [D _]. by destruct c as [[] [] [] [] [] [] [] []]. }
    rewrite Hc, <- append_cons, <- E. by apply (parse_digits _ 1).
  - change (pretty (Zneg p)) with ("-" +:+ pretty (Npos p)). change (("-" +:+ pretty (Npos p)) +:+ r) with (String "-" (pretty (Npos p) +:+ r)).
    cbv match beta. rewrite Ascii.eqb_refl. by apply (parse_digits _ (-1)).
Qed.
Lemma pretty_start z : exists c t, pretty (z : Z) = String c t /\ (is_digit c = true \/ c = "-"%char).
Proof.
  destruct z as [|p|p]; [by exists "0"%char, EmptyString; split; [|left]| |].
  - change (pretty (Zpos p)) with (pretty (Npos p)). destruct (pretty_nat_spec (Npos p)) as (D & _ & _ & c & t & E).
    exists c, t. split; [done|]. left. rewrite E in D. cbn in D. by apply andb_true_iff in D as [D _].
  - by exists "-"%char, (pretty (Npos p)); split; [|right].
Qed.

(** *** Values *)

Definition reads_back (j : json) : Prop := forall fuel rest,
  (json_size j <= fuel)%nat -> delimited rest = true -> plain j = true ->
  parse_value fuel (print_json j +:+ rest) = Some (j, rest).

Lemma is_digit_facts c : is_digit c = true \/ c = "-"%char ->
  json_space c = false /\ Ascii.eqb c "{"%char = false /\ Ascii.eqb c "["%char = false /\ Ascii.eqb c quote_char = false /\
  Ascii.eqb c "t"%char = false /\ Ascii.eqb c "f"%char = false /\ Ascii.eqb c "n"%char = false /\ Ascii.eqb c "]"%char = false.
Proof. intros [H| ->]; [by destruct c as [[] [] [] [] [] [] [] []]|done]. Qed.

Lemma print_first j : exists c t, print_json j = String c t /\ json_space c = false /\ Ascii.eqb c "]"%char = false.
Proof.
  destruct j as [|[]|q|s|l|fs]; cbn [print_json]; try (by eexists _, _).
  destruct (pretty_start (Qnum (Qred q))) as (c & t & E & Hc). apply is_digit_facts in Hc as (? & _ & _ & _ & _ & _ & _ & ?).
  unfold print_num. rewrite E. by exists c, t.
Qed.
Lemma skip_print j r : skip_space (print_json j +:+ r) = print_json j +:+ r.
Proof. destruct (print_first j) as (c & t & -> & H & _). rewrite append_cons. by apply space_not. Qed.

Lemma join_cons x y l r : String.concat "," (x :: y :: l) +:+ r = x +:+ String "," (String.concat "," (y :: l) +:+ r).
Proof.
  change (String.concat "," (x :: y :: l)) with (x +:+ (String "," (String.concat "," (y :: l)))).
  by rewrite append_assoc, append_cons.
Qed.

Lemma elems_read_back l : Forall reads_back l -> l <> [] -> forall fuel rest,
  (list_sum (map (fun v => S (json_size v)) l) <= fuel)%nat -> forallb plain l = true ->
  parse_elems fuel (String.concat "," (map print_json l) +:+ String "]" rest) = Some (l, rest).
Proof.
  induction l as [|x l IH]; intros HF Hne fuel rest Hf Hp; [done|]. inversion HF as [|? ? Hx Hl]; subst.
  cbn [forallb] in Hp. apply andb_true_iff in Hp as [Px Pl]. cbn [map list_sum foldr] in Hf.
  destruct fuel as [|f]; [lia|]. cbn [map]. destruct l as [|y l].
  - cbn [String.concat map]. cbn [parse_elems]. rewrite Hx by (done || lia). done.
  - cbn [map]. rewrite join_cons. cbn [parse_elems]. rewrite Hx by (done || lia).
    cbn [skip_space]. change (json_space ",") with false. cbv match beta. change (Ascii.eqb "," "]") with false. rewrite Ascii.eqb_refl.
    cbv match beta. specialize (IH Hl ltac:(discriminate) f rest). cbn [map] in IH. rewrite IH; [done| |done].
    unfold list_sum in *. cbn [map foldr] in *. lia.
Qed.

Definition print_field (f : string * json) : string := print_string (fst f) +:+ ":" +:+ print_json (snd f).
Lemma print_obj fs : print_json (JObj fs) = "{" +:+ String.concat "," (map print_field fs) +:+ "}".
Proof.
  cbn [print_json]. do 3 f_equal. induction fs as [|[k v] fs IH]; [done|]. cbn [map]. by rewrite IH.
Qed.
Lemma members_read_back fs : Forall (fun f => reads_back (snd f)) fs -> fs <> [] -> forall fuel rest,
  (list_sum (map (fun '(_, v) => S (json_size v)) fs) <= fuel)%nat -> forallb (fun '(_, v) => plain v) fs = true ->
  parse_members fuel (String.concat "," (map print_field fs) +:+ String "}" rest) = Some (fs, rest).
Proof.
  induction fs as [|[k v] fs IH]; intros HF Hne fuel rest Hf Hp; [done|]. inversion HF as [|? ? Hx Hl]; subst. cbn [snd] in Hx.
  cbn [forallb] in Hp. apply andb_true_iff in Hp as [Px Pl]. unfold list_sum in Hf. cbn [map foldr] in Hf.
  destruct fuel as [|f]; [lia|].
  assert (F : forall r, parse_members (S f) (print_field (k, v) +:+ r) =
    match parse_value f (print_json v +:+ r) with
    | None => None
    | Some (v, r3) =>
        match skip_space r3 with
        | EmptyString => None
        | String c2 r4 =>
            if Ascii.eqb c2 "}"%char then Some ([(k, v)], r4)
            else if Ascii.eqb c2 ","%char then
              match parse_members f r4 with Some (ms, rest) => Some ((k, v) :: ms, rest) | None => None end
            else None
        end
    end).
  { intros r. unfold print_field, print_string. cbn [fst snd]. rewrite !append_cons, !append_assoc, append_cons, append_empty.
    cbn [parse_members skip_space]. change (json_space quote_char) with false. cbv match beta. rewrite Ascii.eqb_refl. cbn [negb].
    rewrite parse_print_string. change (String ":" (EmptyString +:+ print_json v) +:+ r) with (String ":" (print_json v +:+ r)).
    cbn [skip_space]. change (json_space ":") with false. cbv match beta. rewrite Ascii.eqb_refl. done. }
  destruct fs as [|[k2 v2] fs].
  - cbn [map String.concat]. rewrite F, Hx by (done || lia). done.
  - cbn [map]. rewrite join_cons, F, Hx by (done || lia).
    cbn [skip_space]. change (json_space ",") with false. cbv match beta. change (Ascii.eqb "," "}") with false. rewrite Ascii.eqb_refl.
    cbv match beta. specialize (IH Hl ltac:(discriminate) f rest). cbn [map] in IH. rewrite IH; [done| |done].
    unfold list_sum in *. cbn [map foldr] in *. lia.
Qed.

Lemma all_read_back j : reads_back j.
Proof.
  induction j as [|b|q|s|l IH|fs IH] using json_rect'; intros fuel rest Hf Hr Hp; (destruct fuel as [|f]; [cbn in Hf; lia|]).
  - done.
  - by destruct b.
  - cbn [plain] in Hp. apply andb_true_iff in Hp as [D S]. destruct q as [n d]. cbn [Qnum Qden] in *.
    apply Z.eqb_eq in D. injection D as ->. change (n # 1) with (inject_Z n). cbn [print_json]. unfold print_num.
    rewrite Qcanon.Qred_identity by (cbn; apply Z.gcd_1_r). cbn [inject_Z Qnum].
    pose proof (parse_print_num n rest S Hr) as P. destruct (pretty_start n) as (c & t & E & Hc).
    rewrite E, append_cons in *. apply is_digit_facts in Hc as (H1 & H2 & H3 & H4 & H5 & H6 & H7 & _).
    cbn [parse_value]. rewrite space_not, H2, H3, H4, H5, H6, H7 by done. exact P.
  - cbn [print_json]. unfold print_string. rewrite append_cons, append_assoc, append_cons, append_empty.
    cbn [parse_value skip_space]. change (json_space quote_char) with false. cbv match beta.
    change (Ascii.eqb quote_char "{") with false. change (Ascii.eqb quote_char "[") with false. rewrite Ascii.eqb_refl. cbv match beta.
    by rewrite parse_print_string.
  - cbn [plain json_size print_json] in *. rewrite !append_assoc. change ("[" +:+ ?x) with (String "[" x). change ("]" +:+ rest) with (String "]" rest).
    cbn [parse_value skip_space]. change (json_space "[") with false. cbv match beta. change (Ascii.eqb "[" "{") with false.
    rewrite Ascii.eqb_refl. cbv match beta. destruct l as [|x l]; [done|].
    assert (E : exists c t, String.concat "," (map print_json (x :: l)) +:+ String "]" rest = String c t /\
              json_space c = false /\ Ascii.eqb c "]"%char = false).
    { destruct (print_first x) as (c & t & Ex & H). cbn [map]. destruct l as [|y l]; [cbn [map String.concat]|cbn [map]; rewrite join_cons];
        rewrite Ex, append_cons; by eexists _, _. }
    pose proof (elems_read_back (x :: l) IH ltac:(discriminate) f rest ltac:(lia) Hp) as R.
    destruct E as (c & t & E & H1 & H2). rewrite E in *. rewrite space_not, H2 by done. by rewrite R.
  - rewrite print_obj. cbn [plain json_size] in *. rewrite !append_assoc. change ("{" +:+ ?x) with (String "{" x). change ("}" +:+ rest) with (String "}" rest).
    cbn [parse_value skip_space]. change (json_space "{") with false. cbv match beta.
    rewrite Ascii.eqb_refl. cbv match beta. destruct fs as [|[k v] fs]; [done|].
    assert (E : exists t, String.concat "," (map print_field ((k, v) :: fs)) +:+ String "}" rest = String quote_char t).
    { cbn [map]. destruct fs as [|y fs]; [cbn [map String.concat]|cbn [map]; rewrite join_cons]; by eexists. }
    pose proof (members_read_back ((k, v) :: fs) IH ltac:(discriminate) f rest ltac:(lia) Hp) as R.
    destruct E as (t & E). rewrite E in *. rewrite space_not by done. change (Ascii.eqb quote_char "}") with false. cbv match beta. by rewrite R.
Qed.

Lemma string_length_append a b : String.length (a +:+ b) = (String.length a + String.length b)%nat.
Proof. induction a as [|c a IH]; [done|]. rewrite append_cons. cbn. by rewrite IH. Qed.
Lemma concat_length l : (String.length (String.concat "," l) + 1 >= list_sum (map (fun s => S (String.length s)) l))%nat.
Proof.
  induction l as [|x l IH]; [cbn; lia|]. destruct l as [|y l]; [cbn; lia|].
  change (String.concat "," (x :: y :: l)) with (x +:+ (String "," (String.concat "," (y :: l)))).
  rewrite string_length_append. unfold list_sum in *. cbn [map foldr String.length] in *. lia.
Qed.
(** The fuel of [JSON_parse] is enough for every printed value. *)
Lemma size_length j : (json_size j <= 2 * String.length (print_json j))%nat.
Proof.
  induction j as [|b|q|s|l IH|fs IH] using json_rect'.
  - cbn; lia.
  - destruct b; cbn; lia.
  - destruct (print_first (JNum q)) as (c & t & E & _). rewrite E. cbn. lia.
  - cbn. lia.
  - cbn [json_size print_json]. rewrite !string_length_append. cbn [String.length]. pose proof (concat_length (map print_json l)) as C.
    assert (list_sum (map (fun v => S (json_size v)) l) <= 2 * list_sum (map (fun s => S (String.length s)) (map print_json l)))%nat; [|lia].
    clear C. induction IH; unfold list_sum in *; cbn [map foldr]; lia.
  - rewrite print_obj. cbn [json_size]. rewrite !string_length_append. cbn [String.length]. pose proof (concat_length (map print_field fs)) as C.
    assert (list_sum (map (fun '(_, v) => S (json_size v)) fs) <= 2 * list_sum (map (fun s => S (String.length s)) (map print_field fs)))%nat; [|lia].
    clear C. induction IH as [|[k v] fs Hx _ IHl]; unfold list_sum in *; cbn [map foldr]; [lia|].
    unfold print_field at 1. cbn [fst snd] in *. rewrite !string_length_append. lia.
Qed.

(** Every value whose numbers are safe integers is read back from its text. *)
Lemma parse_print j : plain j = true -> JSON_parse (print_json j) = Some j.
Proof.
  intros H. unfold JSON_parse. pose proof (size_length j) as L.
  pose proof (all_read_back j (2 * String.length (print_json j) + 2)%nat EmptyString ltac:(lia) eq_refl H) as R.
  rewrite append_nil_r in R. by rewrite R.
Qed.

(** *** The canonical form *)

Lemma assoc_last_map {A B} (f : A -> B) k (fs : list (string * A)) :
  assoc_last k (map (fun '(k, x) => (k, f x)) fs) = f <$> assoc_last k fs.
Proof. induction fs as [|[k' x] fs IH]; [done|]. cbn. rewrite IH. destruct (assoc_last k fs); [done|]. cbn. by destruct (String.eqb k k'). Qed.
Lemma assoc_last_keys {A} k (fs : list (string * A)) : is_Some (assoc_last k fs) <-> k ∈ map fst fs.
Proof.
  induction fs as [|[k' x] fs IH]; cbn; [split; [by intros []|by intros ?%elem_of_nil]|].
  rewrite elem_of_cons, <- IH. destruct (assoc_last k fs); [split; [by right|by eexists]|].
  destruct (String.eqb_spec k k') as [->|Hk].
  - split; [by left|by eexists].
  - split; [by intros []|by intros [?|[? [=]]]].
Qed.
Lemma assoc_last_elem {A} k v (fs : list (string * A)) : assoc_last k fs = Some v -> (k, v) ∈ fs.
Proof.
  induction fs as [|[k' x] fs IH]; cbn; [done|]. destruct (assoc_last k fs); [intros [= ->]; right; by apply IH|].
  destruct (String.eqb_spec k k') as [->|]; [intros [= ->]; left|done].
Qed.
Lemma assoc_last_fields {A} (g : string -> A) k l :
  assoc_last k (map (fun k => (k, g k)) l) = if decide (k ∈ l) then Some (g k) else None.
Proof.
  induction l as [|x l IH]; [done|]. cbn. rewrite IH. destruct (decide (k ∈ l)).
  - rewrite decide_True by (by right). done.
  - destruct (String.eqb_spec k x) as [->|]; [by rewrite decide_True by left|]. rewrite decide_False; [done|].
    by rewrite elem_of_cons; intros [?|?].
Qed.
Lemma assoc_last_sorted {A} (d : A) k fs : assoc_last k (sorted_fields d fs) = assoc_last k fs.
Proof.
  unfold sorted_fields. rewrite assoc_last_fields. pose proof (assoc_last_keys k fs) as K.
  destruct (decide (k ∈ sorted_set (map fst fs))) as [H|H]; rewrite elem_sorted_set in H.
  - destruct (assoc_last k fs) as [v|]; [done|]. apply K in H as [? [=]].
  - destruct (assoc_last k fs) as [v|]; [|done]. destruct H. apply K. by eexists.
Qed.
Lemma field_stable k fs : field k (stable (JObj fs)) = stable <$> assoc_last k fs.
Proof. cbn [stable field]. by rewrite assoc_last_sorted, assoc_last_map. Qed.

Lemma plain_stable j : plain j = true -> plain (stable j) = true.
Proof.
  induction j as [|b|q|s|l IH|fs IH] using json_rect'; cbn [plain stable]; try done.
  - rewrite !forallb_forall. intros H v Hv. apply in_map_iff in Hv as (x & <- & Hx). rewrite List.Forall_forall in IH. auto.
  - rewrite !forallb_forall. intros H [k v] Hv. unfold sorted_fields in Hv. apply in_map_iff in Hv as (k' & [= <- <-] & Hk).
    apply list_elem_of_In, elem_sorted_set, assoc_last_keys in Hk as [v Hv]. rewrite Hv. cbn [or_else].
    rewrite assoc_last_map in Hv. destruct (assoc_last k' fs) as [x|] eqn:E; [|done]. injection Hv as <-.
    apply assoc_last_elem, list_elem_of_In in E. rewrite List.Forall_forall in IH. apply (IH _ E). by apply (H _ E).
Qed.
(** A serialised value is read back in canonical form. *)
Lemma parse_serialize j : plain j = true -> JSON_parse (serialize j) = Some (stable j).
Proof. intros H. by apply parse_print, plain_stable. Qed.

(** Equality of canonical texts: numbers compare by value. *)
Fixpoint json_eqb (a b : json) {struct a} : bool :=
  match a, b with
  | JNull, JNull => true
  | JBool x, JBool y => Bool.eqb x y
  | JNum x, JNum y => Qeq_bool x y
  | JStr x, JStr y => String.eqb x y
  | JArr l, JArr m =>
      (fix go l m := match l, m with [], [] => true | x :: l, y :: m => json_eqb x y && go l m | _, _ => false end) l m
  | JObj l, JObj m =>
      (fix go l m := match l, m with
                     | [], [] => true
                     | (k, x) :: l, (k', y) :: m => String.eqb k k' && json_eqb x y && go l m
                     | _, _ => false
                     end) l m
  | _, _ => false
  end.
Lemma json_eqb_refl j : json_eqb j j = true.
Proof.
  induction j as [|b|q|s|l IH|fs IH] using json_rect'; cbn [json_eqb].
  - done.
  - by destruct b.
  - apply Qeq_bool_iff. reflexivity.
  - apply String.eqb_refl.
  - induction IH as [|x l -> _ IHl]; [done|exact IHl].
  - induction IH as [|[k x] l Hx _ IHl]; [done|]. cbn [snd] in Hx. by rewrite String.eqb_refl, Hx.
Qed.
