(* ===== verification/Pricing.v ===== *)
(** Price and rate selection: [money/pricing.ts] (unit price of a variant),
    [money/tax.ts] (tax rate by destination), [money/currency.ts] (display
    conversion), [money/gift-card.ts] (gift card tender) and
    [shipping/calculator.ts] (shipping eligibility and rate), all under
    [src/packages/api/src]. Prices are integer cents; country and currency codes
    are ASCII. *)

From S2P Require Import Prelude JsNumber Json.
From Stdlib Require Import ZArith QArith Qround Lia Bool String.
From stdpp Require Import base list strings sorting.
Local Open Scope Z_scope.

(** ** Variant prices *)

Inductive VariantPriceRule := rule_preorder | rule_sale.
Definition DEFAULT_VARIANT_PRICE_RULE : VariantPriceRule := rule_preorder.

Record VariantPriceFields := {
  vp_price : Z; vp_salePrice : option Z; vp_isPreOrder : bool; vp_preOrderPrice : option Z
}.

Definition variantPriceRuleFromConfig (config : option json) : VariantPriceRule :=
  let pricing := match config with Some c => field "pricing" c | None => None end in
  match as_string (match pricing with Some p => field "variantRule" p | None => None end) with
  | Some r => if String.eqb r "sale" then rule_sale
              else if String.eqb r "preorder" then rule_preorder
              else DEFAULT_VARIANT_PRICE_RULE
  | None => DEFAULT_VARIANT_PRICE_RULE
  end.

Definition positive (n : option Z) : option Z :=
  match n with Some v => if 0 <? v then Some v else None | None => None end.

Definition selectUnitPrice (v : VariantPriceFields) (rule : VariantPriceRule) : Z :=
  match rule with
  | rule_sale => or_else (positive (vp_salePrice v)) (vp_price v)
  | rule_preorder =>
      if vp_isPreOrder v then or_else (positive (vp_preOrderPrice v)) (vp_price v)
      else or_else (positive (vp_salePrice v)) (vp_price v)
  end.

(** The effective unit price of a variant with a positive base price is
    positive under every rule: a zero or negative override is ignored. A
    preorder variant under the preorder rule never takes its sale price, and the
    two rules agree on variants that are not preorders. *)
Theorem unit_price_spec v rule : 0 < vp_price v ->
  0 < selectUnitPrice v rule /\
  (vp_isPreOrder v = true -> forall sp,
     selectUnitPrice {| vp_price := vp_price v; vp_salePrice := sp; vp_isPreOrder := true;
                        vp_preOrderPrice := vp_preOrderPrice v |} rule_preorder
     = selectUnitPrice v rule_preorder) /\
  (vp_isPreOrder v = false -> selectUnitPrice v rule_preorder = selectUnitPrice v rule_sale).
Proof.
  intros Hp. assert (P : forall o, 0 < or_else (positive o) (vp_price v)).
  { intros [z|]; cbn; [|done]. destruct (Z.ltb_spec 0 z); cbn; lia. }
  split; [|split].
  - destruct rule; cbn; [destruct (vp_isPreOrder v)|]; apply P.
  - intros E sp. unfold selectUnitPrice. cbn. by rewrite E.
  - intros E. cbn. by rewrite E.
Qed.

Lemma unit_price_spec_witness :
  0 < selectUnitPrice {| vp_price := 500; vp_salePrice := Some 0; vp_isPreOrder := false; vp_preOrderPrice := None |} rule_sale.
Proof. exact (proj1 (unit_price_spec {| vp_price := 500; vp_salePrice := Some 0; vp_isPreOrder := false; vp_preOrderPrice := None |} rule_sale ltac:(cbn; lia))). Defined.

(** ** Tax rate by destination *)

Record TaxZoneRule := { tz_countries : list string; tz_rate : Z; tz_priority : Z }.

Definition resolveTaxRate (zones : list TaxZoneRule) (country : option string) (fallbackRate : Z) : Z :=
  let c := match country with Some x => to_upper (trim x) | None => EmptyString end in
  if String.eqb c EmptyString then fallbackRate
  else
    let matching := List.filter (fun z => existsb (fun x => String.eqb (to_upper (trim x)) c) (tz_countries z)) zones in
    match sort_stable (fun a b => 0 <? tz_priority b - tz_priority a) matching with
    | m :: _ => tz_rate m
    | [] => fallbackRate
    end.

Definition zone_matches (c : string) (z : TaxZoneRule) : bool :=
  existsb (fun x => String.eqb (to_upper (trim x)) c) (tz_countries z).

Section TaxZones.
Context (zones : list TaxZoneRule) (country : string).
Let c := to_upper (trim country).

Lemma zone_sort_head m rest :
  sort_stable (fun a b => 0 <? tz_priority b - tz_priority a) (List.filter (zone_matches c) zones) = m :: rest ->
  m ∈ zones /\ zone_matches c m = true /\
  forall z, z ∈ zones -> zone_matches c z = true -> tz_priority z <= tz_priority m.
Proof.
  intros E.
  assert (Hin : forall z, z ∈ (m :: rest) <-> z ∈ zones /\ zone_matches c z = true).
  { intros z. rewrite <- E, sort_stable_perm, !list_elem_of_In, filter_In. done. }
  split; [apply Hin; by left|]. split; [apply Hin; by left|].
  intros z Hz Hm. assert (Hz' : z ∈ m :: rest) by (by apply Hin).
  pose proof (sort_stable_sorted (fun a b => 0 <? tz_priority b - tz_priority a)
    ltac:(intros a b; rewrite Z.ltb_lt, Z.ltb_ge; lia)
    ltac:(intros a b d; rewrite !Z.ltb_lt; lia) (List.filter (zone_matches c) zones)) as Hs.
  rewrite E in Hs. inversion Hs as [|? ? _ Hall]; subst.
  apply elem_of_cons in Hz' as [->|Hz']; [lia|].
  rewrite Forall_forall in Hall. specialize (Hall z Hz'). bool_props. lia.
Qed.
End TaxZones.

(** The resolved tax rate is the rate of a highest-priority zone listing the
    trimmed, upper-cased destination country, and the store's flat rate when the
    destination is blank or no zone lists it. *)
Theorem tax_rate_spec zones country fallback :
  let c := to_upper (trim country) in
  let r := resolveTaxRate zones (Some country) fallback in
  (r = fallback /\ (c = EmptyString \/ forall z, z ∈ zones -> zone_matches c z = false)) \/
  (c <> EmptyString /\ exists m, m ∈ zones /\ r = tz_rate m /\ zone_matches c m = true /\
     forall z, z ∈ zones -> zone_matches c z = true -> tz_priority z <= tz_priority m).
Proof.
  cbn zeta. unfold resolveTaxRate. fold (zone_matches (to_upper (trim country))).
  set (c := to_upper (trim country)). destruct (String.eqb_spec c EmptyString); [by left; split; [|left]|].
  destruct (sort_stable _ _) as [|m rest] eqn:E.
  - left. split; [done|right]. intros z Hz. destruct (zone_matches c z) eqn:Ez; [|done].
    assert (H : z ∈ List.filter (zone_matches c) zones) by (apply list_elem_of_In, filter_In; split; [by apply list_elem_of_In|done]).
    rewrite <- sort_stable_perm, E in H. by apply not_elem_of_nil in H.
  - right. split; [done|]. destruct (zone_sort_head _ _ _ _ E) as (H1 & H2 & H3). by exists m.
Qed.

(** ** Display currency *)

Definition RATE_SCALE : Z := 10000.
Definition convertMoney (baseCents rateScaled : Z) : Z :=
  js_round (js_div (js_mul (jsn baseCents) (jsn rateScaled)) (jsn RATE_SCALE)).

Record RateRow := { rr_currency : string; rr_rate : Z; rr_enabled : bool }.

Definition rateFor (rates : list RateRow) (baseCurrency currency : string) : Z :=
  if String.eqb (to_upper currency) (to_upper baseCurrency) then RATE_SCALE
  else match List.find (fun x => rr_enabled x && String.eqb (to_upper (rr_currency x)) (to_upper currency)) rates with
       | Some r => rr_rate r
       | None => RATE_SCALE
       end.

(** ** Gift cards *)

Record GiftCardState := { gc_balance : Z; gc_enabled : bool; gc_expiresAt : option Z }.
Inductive GiftCardReason := gc_disabled | gc_expired | gc_empty | gc_insufficient.
Record GiftCardApplication := {
  ga_applicable : bool; ga_reason : option GiftCardReason;
  ga_applied : Z; ga_remainingDue : Z; ga_newBalance : Z
}.

Definition applyGiftCard (card : GiftCardState) (amountDue now : Z) : GiftCardApplication :=
  let due := Z.max 0 amountDue in
  let none r := {| ga_applicable := false; ga_reason := Some r; ga_applied := 0;
                   ga_remainingDue := due; ga_newBalance := gc_balance card |} in
  if negb (gc_enabled card) then none gc_disabled
  else if match gc_expiresAt card with Some e => e <=? now | None => false end then none gc_expired
  else if gc_balance card <=? 0 then none gc_empty
  else if gc_balance card <? due then none gc_insufficient
  else {| ga_applicable := 0 <? due; ga_reason := None; ga_applied := due;
          ga_remainingDue := 0; ga_newBalance := gc_balance card - due |}.

(** A gift card is never split: it pays the whole amount due or nothing. The
    money is conserved between card and order, a card never goes negative, and a
    disabled, expired or insufficient card is left untouched. *)
Theorem gift_card_all_or_nothing card due now :
  let a := applyGiftCard card due now in
  ga_newBalance a = gc_balance card - ga_applied a /\
  ga_applied a + ga_remainingDue a = Z.max 0 due /\
  (ga_applied a = 0 \/ ga_remainingDue a = 0) /\
  (0 <= gc_balance card -> 0 <= ga_newBalance a) /\
  (ga_applicable a = true <->
     gc_enabled card = true /\ (forall e, gc_expiresAt card = Some e -> now < e) /\
     0 < due <= gc_balance card).
Proof.
  cbn zeta. unfold applyGiftCard.
  destruct (gc_enabled card); cbn; [|repeat split; try lia; intros; try discriminate; naive_solver].
  destruct (match gc_expiresAt card with Some e => e <=? now | None => false end) eqn:Ee; cbn.
  { destruct (gc_expiresAt card) as [e|]; [|discriminate]. bool_props.
    repeat split; try lia; intros H; try discriminate. destruct H as (_ & H & _). specialize (H e eq_refl). lia. }
  assert (Hx : forall e, gc_expiresAt card = Some e -> now < e).
  { intros e He. rewrite He in Ee. bool_props. lia. }
  destruct (Z.leb_spec (gc_balance card) 0); cbn; [repeat split; try lia; intros; try discriminate; lia|].
  destruct (Z.ltb_spec (gc_balance card) (Z.max 0 due)); cbn; [repeat split; try lia; intros; try discriminate; lia|].
  rewrite Z.ltb_lt. repeat split; (lia || done).
Qed.

(** ** Shipping methods *)

Record ShippingCalculator := {
  sc_flat : option Q; sc_min : option Z; sc_max : option Z;
  sc_countries : option (list string); sc_exclude : bool; sc_requireCountry : bool;
  sc_discountedBasis : bool; (* subtotalBasis === 'discounted_with_tax' *)
}.

Record ShippingContext := {
  sx_country : option string; sx_subtotal : Z; sx_discountedSubtotalWithTax : option Z
}.

Definition shipping_basis (calc : ShippingCalculator) (ctx : ShippingContext) : option Z :=
  if sc_discountedBasis calc then sx_discountedSubtotalWithTax ctx else Some (sx_subtotal ctx).

Definition country_blank (ctx : ShippingContext) : bool :=
  match sx_country ctx with Some c => String.eqb (trim c) EmptyString | None => true end.

Definition isMethodEligible (calc : ShippingCalculator) (ctx : ShippingContext) : bool :=
  match shipping_basis calc ctx with
  | None => false
  | Some subtotal =>
      if negb (is_safe subtotal) || (subtotal <? 0) then false
      else if sc_requireCountry calc && country_blank ctx then false
      else if match sc_min calc with Some m => subtotal <? m | None => false end then false
      else if match sc_max calc with Some m => m <? subtotal | None => false end then false
      else match sc_countries calc with
      | None => true
      | Some cs =>
          if negb (bool_decide (cs = [])) || sc_requireCountry calc then
            let country := match sx_country ctx with Some c => to_upper (trim c) | None => EmptyString end in
            let inList := negb (String.eqb country EmptyString) && existsb (fun x => String.eqb (to_upper (trim x)) country) cs in
            if sc_exclude calc then negb inList else inList
          else true
      end
  end.

Definition shippingRate (calc : ShippingCalculator) : Z :=
  Z.max 0 (js_round (or_else (sc_flat calc) 0%Q)).

Record FreeTier := { ft_threshold : Z; ft_remaining : Z }.

Definition reach_min (ctx : ShippingContext) (m : Z) : ShippingContext :=
  {| sx_country := sx_country ctx; sx_subtotal := m; sx_discountedSubtotalWithTax := Some m |}.

(** The loop body of [freeShippingThreshold]: [None] is the early [return null]
    (already free), [Some best'] continues. *)
Definition free_tier_step (ctx : ShippingContext) (best : option FreeTier) (calc : ShippingCalculator)
    : option (option FreeTier) :=
  if negb (shippingRate calc =? 0) then Some best
  else if isMethodEligible calc ctx then None
  else match sc_min calc, shipping_basis calc ctx with
  | Some m, Some basis =>
      if m <=? basis then Some best
      else if negb (isMethodEligible calc (reach_min ctx m)) then Some best
      else
        let remaining := m - basis in
        match best with
        | None => Some (Some {| ft_threshold := m; ft_remaining := remaining |})
        | Some b => if remaining <? ft_remaining b
                    then Some (Some {| ft_threshold := m; ft_remaining := remaining |})
                    else Some best
        end
  | _, _ => Some best
  end.

Fixpoint free_tier_loop (ctx : ShippingContext) (best : option FreeTier) (calcs : list ShippingCalculator)
    : option FreeTier :=
  match calcs with
  | [] => best
  | c :: rest => match free_tier_step ctx best c with
                 | None => None
                 | Some best' => free_tier_loop ctx best' rest
                 end
  end.

Definition freeShippingThreshold (calcs : list ShippingCalculator) (ctx : ShippingContext) : option FreeTier :=
  free_tier_loop ctx None calcs.

(** A free method that becomes eligible when the cart's own basis reaches its
    minimum. *)
Definition reachable_tier (ctx : ShippingContext) (calc : ShippingCalculator) (t : FreeTier) : Prop :=
  shippingRate calc = 0 /\ sc_min calc = Some (ft_threshold t) /\
  isMethodEligible calc (reach_min ctx (ft_threshold t)) = true /\
  exists basis, shipping_basis calc ctx = Some basis /\
    ft_remaining t = ft_threshold t - basis /\ 0 < ft_remaining t.

Definition tier_invariant (ctx : ShippingContext) (seen : list ShippingCalculator) (best : option FreeTier) : Prop :=
  (forall c, c ∈ seen -> shippingRate c = 0 -> isMethodEligible c ctx = false) /\
  match best with
  | None => forall c t, c ∈ seen -> ~ reachable_tier ctx c t
  | Some b => (exists c, c ∈ seen /\ reachable_tier ctx c b) /\
              (forall c t, c ∈ seen -> reachable_tier ctx c t -> ft_remaining b <= ft_remaining t)
  end.

Lemma reachable_tier_unique ctx c t t' : reachable_tier ctx c t -> reachable_tier ctx c t' -> t = t'.
Proof.
  intros (_ & M & _ & b & B & R & _) (_ & M' & _ & b' & B' & R' & _).
  destruct t, t'; cbn in *. assert (ft_threshold0 = ft_threshold1) by congruence.
  assert (b = b') by congruence. subst. f_equal.
Qed.

Lemma free_tier_step_invariant ctx seen best c best' :
  tier_invariant ctx seen best -> free_tier_step ctx best c = Some best' ->
  tier_invariant ctx (seen ++ [c]) best'.
Proof.
  intros [I1 I2] H. unfold free_tier_step in H.
  assert (Same : best' = best -> (shippingRate c = 0 -> isMethodEligible c ctx = false) ->
                 (forall t, ~ reachable_tier ctx c t) -> tier_invariant ctx (seen ++ [c]) best').
  { intros -> Hc Ht. split.
    - intros c' Hin. apply elem_of_app in Hin as [Hin| ->%list_elem_of_singleton]; auto.
    - destruct best as [b|].
      + destruct I2 as [(c0 & Hc0 & Hr) Hmin]. split; [exists c0; split; [apply elem_of_app; by left|done]|].
        intros c' t Hin. apply elem_of_app in Hin as [Hin| ->%list_elem_of_singleton]; [eauto|].
        intros Hr'. by destruct (Ht t).
      + intros c' t Hin. apply elem_of_app in Hin as [Hin| ->%list_elem_of_singleton]; eauto. }
  destruct (Z.eqb_spec (shippingRate c) 0) as [Er|Er]; cbn in H.
  2:{ injection H as <-. apply Same; [done|done|]. by intros t (? & _). }
  destruct (isMethodEligible c ctx) eqn:Ee; [discriminate|].
  destruct (sc_min c) as [m|] eqn:Em.
  2:{ injection H as <-. apply Same; [done|done|]. intros t (_ & C & _). congruence. }
  destruct (shipping_basis c ctx) as [basis|] eqn:Eb.
  2:{ injection H as <-. apply Same; [done|done|]. intros t (_ & _ & _ & b & C & _). congruence. }
  destruct (Z.leb_spec m basis).
  { injection H as <-. apply Same; [done|done|]. intros t (_ & C & _ & b & C2 & C3 & C4).
    assert (ft_threshold t = m) by congruence. assert (b = basis) by congruence. lia. }
  destruct (isMethodEligible c (reach_min ctx m)) eqn:Ek; cbn in H.
  2:{ injection H as <-. apply Same; [done|done|]. intros t (_ & C & C2 & _).
      assert (m = ft_threshold t) as -> by congruence. congruence. }
  set (t0 := {| ft_threshold := m; ft_remaining := m - basis |}) in *.
  assert (Ht0 : reachable_tier ctx c t0).
  { repeat split; cbn; try done. exists basis. repeat split; [done|lia]. }
  assert (Hel : forall c', c' ∈ seen ++ [c] -> shippingRate c' = 0 -> isMethodEligible c' ctx = false).
  { intros c' Hin. apply elem_of_app in Hin as [Hin| ->%list_elem_of_singleton]; auto. }
  assert (Hin0 : c ∈ seen ++ [c]) by (apply elem_of_app; right; by apply list_elem_of_singleton).
  destruct best as [b|].
  - destruct I2 as [(c0 & Hc0 & Hr) Hmin].
    destruct (Z.ltb_spec (m - basis) (ft_remaining b)); injection H as <-; (split; [done|]).
    + split; [by exists c|]. intros c' t Hin Hrt. cbn.
      apply elem_of_app in Hin as [Hin| ->%list_elem_of_singleton].
      * specialize (Hmin c' t Hin Hrt). lia.
      * rewrite (reachable_tier_unique _ _ _ _ Hrt Ht0). done.
    + split; [exists c0; split; [apply elem_of_app; by left|done]|]. intros c' t Hin Hrt.
      apply elem_of_app in Hin as [Hin| ->%list_elem_of_singleton]; [eauto|].
      rewrite (reachable_tier_unique _ _ _ _ Hrt Ht0). cbn. lia.
  - injection H as <-. split; [done|]. split; [by exists c|]. intros c' t Hin Hrt.
    apply elem_of_app in Hin as [Hin| ->%list_elem_of_singleton]; [by destruct (I2 c' t Hin)|].
    rewrite (reachable_tier_unique _ _ _ _ Hrt Ht0). done.
Qed.

Lemma free_tier_loop_spec ctx calcs : forall seen best, tier_invariant ctx seen best ->
  (free_tier_loop ctx best calcs = None /\ exists c, c ∈ calcs /\ shippingRate c = 0 /\ isMethodEligible c ctx = true) \/
  tier_invariant ctx (seen ++ calcs) (free_tier_loop ctx best calcs).
Proof.
  induction calcs as [|c cs IH]; intros seen best HI; cbn; [right; by rewrite app_nil_r|].
  destruct (free_tier_step ctx best c) as [best'|] eqn:E.
  - pose proof (free_tier_step_invariant _ _ _ _ _ HI E) as HI'.
    destruct (IH _ _ HI') as [(H & c' & H1 & H2)|H].
    + left. split; [done|]. exists c'. split; [by right|done].
    + right. by rewrite <- app_assoc in H.
  - left. split; [done|]. exists c. split; [by left|]. unfold free_tier_step in E.
    destruct (Z.eqb_spec (shippingRate c) 0) as [Er|Er]; cbn in E; [|discriminate].
    split; [done|]. destruct (isMethodEligible c ctx); [done|].
    repeat (case_match; try discriminate).
Qed.

(** The free-shipping hint is a reachable tier that needs the least extra
    spend: the named threshold belongs to a zero-rate method that would become
    eligible, the remaining amount is positive and no other reachable method
    needs less; it is absent exactly when shipping is already free for some
    method or no free method is reachable. *)
Theorem free_shipping_threshold_spec calcs ctx :
  match freeShippingThreshold calcs ctx with
  | Some t =>
      (exists c, c ∈ calcs /\ reachable_tier ctx c t) /\
      (forall c t', c ∈ calcs -> reachable_tier ctx c t' -> ft_remaining t <= ft_remaining t') /\
      (forall c, c ∈ calcs -> shippingRate c = 0 -> isMethodEligible c ctx = false)
  | None =>
      (exists c, c ∈ calcs /\ shippingRate c = 0 /\ isMethodEligible c ctx = true) \/
      (forall c t', c ∈ calcs -> ~ reachable_tier ctx c t')
  end.
Proof.
  unfold freeShippingThreshold.
  assert (HI : tier_invariant ctx [] None).
  { split; [intros c Hc; by apply not_elem_of_nil in Hc|]. intros c t Hc. by apply not_elem_of_nil in Hc. }
  destruct (free_tier_loop_spec ctx calcs [] None HI) as [(-> & H)|[H1 H2]]; [by left|].
  cbn [app] in *. destruct (free_tier_loop ctx None calcs); [|by right].
  destruct H2 as [H2 H3]. auto.
Qed.
