(* ===== verification/Coupon.v ===== *)
(** Coupon conditions and automatic promotions: [money/coupon.ts],
    [couponItemsFromFacts] of [money/coupon-context.ts] and
    [money/auto-discount.ts] under [src/packages/api/src]. Conditions arrive as
    untyped JSON and are checked as they are read. [JSON.parse] on the argument
    strings and [Number(...)] restricted to safe integers are parameters: the
    theorems hold for any of them. *)

From S2P Require Import Prelude JsNumber Json Totals.
From Stdlib Require Import ZArith QArith Lia Bool String.
From stdpp Require Import base list strings sorting gmap.
Local Open Scope Z_scope.
#[local] Set Warnings "-clear-no-such-hyp".

(** ** Data *)

Record CouponItem := {
  ci_quantity : Z; ci_productId : string; ci_tags : list string; ci_collectionIds : list string
}.

Record CouponContext := {
  cc_subtotal : Z; cc_netSubtotal : option Z; cc_grossSubtotal : option Z;
  cc_activeVerifications : list string;
  cc_items : option (list CouponItem)
}.

Inductive CouponReason :=
  | invalid_promotion_context | invalid_promotion_conditions | invalid_minimum_order_amount
  | minimum_order_not_met (amount : Z) | requires_verified_status | requires_eligible_products
  | unsupported_condition (code : string).

Record ConditionArg := { ca_name : string; ca_value : string }.
Record Condition := { cd_code : string; cd_args : list ConditionArg }.

(** ** Reading a condition *)

Definition read_arg (a : json) : option ConditionArg :=
  match as_string (field "name" a), as_string (field "value" a) with
  | Some n, Some v => Some {| ca_name := n; ca_value := v |}
  | _, _ => None
  end.

(** The shape test at the head of the loop body. *)
Definition read_condition (c : json) : option Condition :=
  match as_string (field "code" c) with
  | None => None
  | Some code =>
      let args := field "args" c in
      if nullish args then Some {| cd_code := code; cd_args := [] |}
      else match as_array args with
           | None => None
           | Some l => match all_some (map read_arg l) with
                       | Some xs => Some {| cd_code := code; cd_args := xs |}
                       | None => None
                       end
           end
  end.

Definition arg (c : Condition) (name : string) : option string :=
  match List.find (fun a => String.eqb (ca_name a) name) (cd_args c) with
  | Some a => Some (ca_value a)
  | None => None
  end.

Definition context_ok (ctx : CouponContext) : bool :=
  let amount_ok v := is_safe v && (0 <=? v) in
  amount_ok (cc_subtotal ctx) &&
  amount_ok (or_else (cc_netSubtotal ctx) (cc_subtotal ctx)) &&
  amount_ok (or_else (cc_grossSubtotal ctx) (cc_subtotal ctx)) &&
  match cc_items ctx with
  | None => true
  | Some items => forallb (fun i => is_safe (ci_quantity i) && (0 <=? ci_quantity i)) items
  end.

Section Conditions.
Context (JSON_parse : string -> option json) (safe_Number : string -> option Z).

Definition parseStringArray (raw : option string) : option (list string) :=
  match JSON_parse (or_else raw "[]"%string) with
  | Some (JArr l) => all_some (map (fun v => as_string (Some v)) l)
  | _ => None
  end.

Definition item_total (p : CouponItem -> bool) (items : list CouponItem) : Z :=
  sumZ (map ci_quantity (List.filter p items)).

Definition in_set (ids : list string) (x : string) : bool := existsb (String.eqb x) ids.

(** Body shared by the three [at_least_n_*] cases, which differ in the argument
    they read and in how an item matches the listed ids. *)
Definition at_least_n (c : Condition) (ctx : CouponContext) (argName : string)
    (matches : list string -> CouponItem -> bool) : option CouponReason :=
  let minimum := match arg c "minimum" with Some s => safe_Number s | None => Some 1 end in
  match parseStringArray (arg c argName), minimum, cc_items ctx with
  | Some ids, Some n, Some items =>
      if (n <? 1) || (item_total (matches ids) items <? n) then Some requires_eligible_products else None
  | _, _, _ => Some requires_eligible_products
  end.

(** [None]: the condition holds; [Some r]: the loop returns [{valid: false, reason: r}]. *)
Definition check_condition (c : Condition) (ctx : CouponContext) : option CouponReason :=
  if String.eqb (cd_code c) "minimum_order_amount" then
    let inclusive := arg c "taxInclusive" in
    match (match arg c "amount" with Some s => safe_Number s | None => Some 0 end) with
    | None => Some invalid_minimum_order_amount
    | Some amount =>
        if (amount <? 0) || match inclusive with
                            | None => false
                            | Some s => negb (String.eqb s "true") && negb (String.eqb s "false")
                            end
        then Some invalid_minimum_order_amount
        else
          let subtotal :=
            if match inclusive with Some s => String.eqb s "true" | None => false end
            then or_else (cc_grossSubtotal ctx) (cc_subtotal ctx)
            else or_else (cc_netSubtotal ctx) (cc_subtotal ctx) in
          if subtotal <? amount then Some (minimum_order_not_met amount) else None
    end
  else if String.eqb (cd_code c) "verified_customer" then
    match parseStringArray (arg c "categories") with
    | None => Some requires_verified_status
    | Some categories =>
        if existsb (in_set categories) (cc_activeVerifications ctx) then None
        else Some requires_verified_status
    end
  else if String.eqb (cd_code c) "at_least_n_in_collections" then
    at_least_n c ctx "collectionIds" (fun ids i => existsb (in_set ids) (ci_collectionIds i))
  else if String.eqb (cd_code c) "at_least_n_products" then
    at_least_n c ctx "productIds" (fun ids i => in_set ids (ci_productId i))
  else if String.eqb (cd_code c) "at_least_n_with_tags" then
    at_least_n c ctx "tags" (fun ids i => existsb (in_set ids) (ci_tags i))
  else Some (unsupported_condition (cd_code c)).

Fixpoint check_conditions (conditions : list json) (ctx : CouponContext) : option CouponReason :=
  match conditions with
  | [] => None
  | raw :: rest =>
      match read_condition raw with
      | None => Some invalid_promotion_conditions
      | Some c => match check_condition c ctx with
                  | Some r => Some r
                  | None => check_conditions rest ctx
                  end
      end
  end.

(** [None] is [{ valid: true }]. *)
Definition evaluatePromotionConditions (raw : option json) (ctx : CouponContext) : option CouponReason :=
  if negb (context_ok ctx) then Some invalid_promotion_context
  else if nullish raw then None
  else match as_array raw with
       | None => Some invalid_promotion_conditions
       | Some conditions => check_conditions conditions ctx
       end.

Record PromoRow := {
  pm_id : string; pm_type : PromoType; pm_value : Z; pm_conditions : option json;
  pm_priority : Z; pm_freeShipping : bool
}.

Definition evaluateCoupon (promo : PromoRow) (ctx : CouponContext) : result CouponReason Promotion :=
  match evaluatePromotionConditions (pm_conditions promo) ctx with
  | None => Ok {| pr_type := pm_type promo; pr_value := pm_value promo; pr_freeShipping := pm_freeShipping promo |}
  | Some r => Err r
  end.

(** ** Automatic promotions *)

Definition rankDiscount (type : PromoType) (value subtotal : Z) : Z :=
  match type with
  | percentage => js_round (js_div (js_mul (jsn subtotal) (jsn value)) (jsn 100))
  | fixed => Z.min value subtotal
  | free_shipping => 0
  end.

(** [(a, b) => b.r.priority - a.r.priority || b.disc - a.disc] *)
Definition promo_after (a b : PromoRow * Z) : bool :=
  (pm_priority (fst a) <? pm_priority (fst b)) ||
  ((pm_priority (fst a) =? pm_priority (fst b)) && (snd a <? snd b)).

Definition eligible_rows (rows : list PromoRow) (ctx : CouponContext) : list (PromoRow * Z) :=
  map (fun r => (r, rankDiscount (pm_type r) (pm_value r) (cc_subtotal ctx)))
      (List.filter (fun r => is_ok (evaluateCoupon r ctx)) rows).

Definition selectAutomaticPromotion (rows : list PromoRow) (ctx : CouponContext) : option PromoRow :=
  match sort_stable promo_after (eligible_rows rows ctx) with
  | (r, _) :: _ => Some r
  | [] => None
  end.

(** ** Specification of a condition list *)

(** An item quantity the condition counts. *)
Definition counts_at_least (c : Condition) (ctx : CouponContext) (argName : string)
    (matches : list string -> CouponItem -> bool) : Prop :=
  exists ids n items, parseStringArray (arg c argName) = Some ids /\ cc_items ctx = Some items /\
    (match arg c "minimum" with Some s => safe_Number s | None => Some 1 end) = Some n /\
    1 <= n <= item_total (matches ids) items.

Definition condition_holds (c : Condition) (ctx : CouponContext) : Prop :=
  (cd_code c = "minimum_order_amount"%string /\ exists amount,
     (match arg c "amount" with Some s => safe_Number s | None => Some 0 end) = Some amount /\ 0 <= amount /\
     ((arg c "taxInclusive" = Some "true"%string /\ amount <= or_else (cc_grossSubtotal ctx) (cc_subtotal ctx)) \/
      ((arg c "taxInclusive" = None \/ arg c "taxInclusive" = Some "false"%string) /\
       amount <= or_else (cc_netSubtotal ctx) (cc_subtotal ctx)))) \/
  (cd_code c = "verified_customer"%string /\ exists categories v,
     parseStringArray (arg c "categories") = Some categories /\
     v ∈ cc_activeVerifications ctx /\ v ∈ categories) \/
  (cd_code c = "at_least_n_in_collections"%string /\
     counts_at_least c ctx "collectionIds" (fun ids i => existsb (in_set ids) (ci_collectionIds i))) \/
  (cd_code c = "at_least_n_products"%string /\
     counts_at_least c ctx "productIds" (fun ids i => in_set ids (ci_productId i))) \/
  (cd_code c = "at_least_n_with_tags"%string /\
     counts_at_least c ctx "tags" (fun ids i => existsb (in_set ids) (ci_tags i))).

Lemma in_set_spec ids x : in_set ids x = true <-> x ∈ ids.
Proof.
  unfold in_set. rewrite existsb_exists. split.
  - intros (y & Hy & E). apply String.eqb_eq in E as ->. by apply list_elem_of_In.
  - intros H. exists x. split; [by apply list_elem_of_In|apply String.eqb_refl].
Qed.

Lemma existsb_in_set ids l : existsb (in_set ids) l = true <-> exists v, v ∈ l /\ v ∈ ids.
Proof.
  rewrite existsb_exists. split.
  - intros (y & Hy & E). exists y. split; [by apply list_elem_of_In|by apply in_set_spec].
  - intros (v & Hv & Hi). exists v. split; [by apply list_elem_of_In|by apply in_set_spec].
Qed.

Lemma at_least_n_spec c ctx argName matches :
  at_least_n c ctx argName matches = None <-> counts_at_least c ctx argName matches.
Proof.
  unfold at_least_n, counts_at_least.
  destruct (parseStringArray _) as [ids|]; [|split; [discriminate|by intros (? & ? & ? & ? & _)]].
  destruct (match arg c "minimum" with Some s => safe_Number s | None => Some 1 end) as [n|];
    [|split; [discriminate|by intros (? & ? & ? & _ & _ & ? & _)]].
  destruct (cc_items ctx) as [items|]; [|split; [discriminate|by intros (? & ? & ? & _ & ? & _)]].
  destruct (_ || _) eqn:E.
  - split; [discriminate|]. intros (ids' & n' & items' & [= <-] & [= <-] & [= <-] & Hn).
    apply orb_true_iff in E as [E|E]; bool_props; lia.
  - bool_props. split; [|done]. intros _. exists ids, n, items. repeat split; lia.
Qed.

Lemma check_condition_spec c ctx : check_condition c ctx = None <-> condition_holds c ctx.
Proof.
  unfold check_condition, condition_holds.
  destruct (String.eqb_spec (cd_code c) "minimum_order_amount") as [E|N1].
  { rewrite E. destruct (match arg c "amount" with Some s => safe_Number s | None => Some 0 end) as [amount|].
    2:{ split; [discriminate|]. intros [(_ & ? & ? & _)|H]; [discriminate|].
        destruct H as [[? _]|[[? _]|[[? _]|[? _]]]]; discriminate. }
    destruct (arg c "taxInclusive") as [s|].
    - destruct (String.eqb_spec s "true") as [->|Nt]; cbn [negb andb].
      + rewrite orb_false_r. destruct (Z.ltb_spec amount 0); [split; [discriminate|naive_solver lia]|].
        destruct (Z.ltb_spec (or_else (cc_grossSubtotal ctx) (cc_subtotal ctx)) amount);
          split; try discriminate; try done; naive_solver lia.
      + destruct (String.eqb_spec s "false") as [->|Nf]; cbn [negb]; rewrite ?orb_false_r, ?orb_true_r.
        * destruct (Z.ltb_spec amount 0); [split; [discriminate|naive_solver lia]|].
          destruct (Z.ltb_spec (or_else (cc_netSubtotal ctx) (cc_subtotal ctx)) amount);
            split; try discriminate; try done; naive_solver lia.
        * split; [discriminate|naive_solver].
    - rewrite orb_false_r. destruct (Z.ltb_spec amount 0); [split; [discriminate|naive_solver lia]|].
      destruct (Z.ltb_spec (or_else (cc_netSubtotal ctx) (cc_subtotal ctx)) amount);
        split; try discriminate; try done; naive_solver lia. }
  destruct (String.eqb_spec (cd_code c) "verified_customer") as [E|N2].
  { rewrite E. destruct (parseStringArray (arg c "categories")) as [cats|]; [|naive_solver].
    destruct (existsb (in_set cats) (cc_activeVerifications ctx)) eqn:Ex.
    - split; [|done]. intros _. right; left. split; [done|].
      apply existsb_in_set in Ex as (v & Hv & Hi). by exists cats, v.
    - split; [discriminate|]. intros [[? _]|[(_ & cats' & v & [= <-] & Hv & Hi)|[[? _]|[[? _]|[? _]]]]]; try discriminate.
      enough (existsb (in_set cats) (cc_activeVerifications ctx) = true) by congruence.
      apply existsb_in_set. by exists v. }
  destruct (String.eqb_spec (cd_code c) "at_least_n_in_collections") as [E|N3]; [rewrite at_least_n_spec, E; naive_solver|].
  destruct (String.eqb_spec (cd_code c) "at_least_n_products") as [E|N4]; [rewrite at_least_n_spec, E; naive_solver|].
  destruct (String.eqb_spec (cd_code c) "at_least_n_with_tags") as [E|N5]; [rewrite at_least_n_spec, E; naive_solver|].
  naive_solver.
Qed.

Lemma check_conditions_spec conds ctx :
  check_conditions conds ctx = None <->
  Forall (fun raw => exists c, read_condition raw = Some c /\ condition_holds c ctx) conds.
Proof.
  induction conds as [|raw rest IH]; cbn; [split; [constructor|done]|]. rewrite Forall_cons.
  destruct (read_condition raw) as [c|]; [|split; [discriminate|by intros [(? & ? & _) _]]].
  rewrite <- IH. destruct (check_condition c ctx) eqn:E.
  - split; [discriminate|]. intros [(c' & [= <-] & H) _]. apply check_condition_spec in H. congruence.
  - apply check_condition_spec in E. split; [intros H; split; [by exists c|done]|by intros [_ H]].
Qed.

(** A coupon is valid exactly when the cart facts are well formed, its
    conditions are absent or a list, and every entry of the list is a readable,
    supported condition that holds: unknown codes, malformed entries and
    malformed facts fail closed, and the order of conditions is irrelevant. *)
Theorem coupon_valid_iff promo ctx :
  is_ok (evaluateCoupon promo ctx) = true <->
  context_ok ctx = true /\
  (nullish (pm_conditions promo) = true \/
   exists conds, as_array (pm_conditions promo) = Some conds /\
     Forall (fun raw => exists c, read_condition raw = Some c /\ condition_holds c ctx) conds).
Proof.
  unfold evaluateCoupon, evaluatePromotionConditions.
  destruct (context_ok ctx); cbn [negb]; [|cbn; naive_solver].
  destruct (nullish (pm_conditions promo)); [cbn; naive_solver|].
  destruct (as_array (pm_conditions promo)) as [conds|]; [|cbn; naive_solver].
  pose proof (check_conditions_spec conds ctx) as S. split.
  - intros H. split; [done|right]. exists conds. split; [done|]. apply S.
    by destruct (check_conditions conds ctx).
  - intros (_ & [H|(c & [= <-] & H)]); [discriminate|]. apply S in H. by rewrite H.
Qed.

(** ** Automatic selection *)

Lemma promo_after_asym a b : promo_after a b = true -> promo_after b a = false.
Proof.
  unfold promo_after. rewrite orb_true_iff, orb_false_iff, andb_true_iff, andb_false_iff,
    !Z.ltb_lt, !Z.ltb_ge, Z.eqb_eq, Z.eqb_neq. lia.
Qed.

Lemma promo_after_cotrans a b c :
  promo_after a c = true -> promo_after a b = true \/ promo_after b c = true.
Proof.
  unfold promo_after. rewrite !orb_true_iff, !andb_true_iff, !Z.ltb_lt, !Z.eqb_eq. lia.
Qed.

Lemma eligible_rows_elem rows ctx x : x ∈ eligible_rows rows ctx <->
  exists r, x = (r, rankDiscount (pm_type r) (pm_value r) (cc_subtotal ctx)) /\ r ∈ rows /\
    is_ok (evaluateCoupon r ctx) = true.
Proof.
  unfold eligible_rows. rewrite list_elem_of_In, in_map_iff. split.
  - intros (r & <- & H). apply filter_In in H as [H1 H2]. exists r. by rewrite list_elem_of_In.
  - intros (r & -> & H1 & H2). exists r. rewrite filter_In. by rewrite <- list_elem_of_In.
Qed.

(** The automatic promotion is an eligible row with the highest priority and,
    among those, the largest discount on the subtotal; none is chosen exactly
    when no row is eligible. *)
Theorem automatic_promotion_best rows ctx :
  match selectAutomaticPromotion rows ctx with
  | Some r =>
      r ∈ rows /\ is_ok (evaluateCoupon r ctx) = true /\
      forall r', r' ∈ rows -> is_ok (evaluateCoupon r' ctx) = true ->
        pm_priority r' < pm_priority r \/
        (pm_priority r' = pm_priority r /\
         rankDiscount (pm_type r') (pm_value r') (cc_subtotal ctx)
           <= rankDiscount (pm_type r) (pm_value r) (cc_subtotal ctx))
  | None => forall r, r ∈ rows -> is_ok (evaluateCoupon r ctx) = false
  end.
Proof.
  unfold selectAutomaticPromotion.
  pose proof (sort_stable_perm promo_after (eligible_rows rows ctx)) as HP.
  pose proof (sort_stable_sorted promo_after promo_after_asym promo_after_cotrans (eligible_rows rows ctx)) as HS.
  destruct (sort_stable promo_after (eligible_rows rows ctx)) as [|[r d] rest] eqn:E.
  - intros r Hr. destruct (is_ok (evaluateCoupon r ctx)) eqn:Eo; [|done].
    assert (X : (r, rankDiscount (pm_type r) (pm_value r) (cc_subtotal ctx)) ∈ eligible_rows rows ctx).
    { apply eligible_rows_elem. by exists r. }
    rewrite <- HP in X. by apply not_elem_of_nil in X.
  - assert (Hd : (r, d) ∈ eligible_rows rows ctx) by (rewrite <- HP; left).
    apply eligible_rows_elem in Hd as (r0 & [= <- ->] & Hr & Hok). split; [done|split; [done|]].
    intros r' Hr' Hok'.
    assert (X : (r', rankDiscount (pm_type r') (pm_value r') (cc_subtotal ctx)) ∈ eligible_rows rows ctx).
    { apply eligible_rows_elem. by exists r'. }
    rewrite <- HP in X. apply elem_of_cons in X as [[= -> _]|X]; [right; lia|].
    inversion HS as [|? ? _ Hall]; subst. rewrite Forall_forall in Hall. specialize (Hall _ X).
    unfold promo_after in Hall. cbn [fst snd] in Hall. bool_props.
    rewrite andb_false_iff, Z.eqb_neq, Z.ltb_ge in *. lia.
Qed.
End Conditions.

(** ** Cart facts ([couponItemsFromFacts]) *)

Record CouponMatchFacts := { cf_tags : list string; cf_collectionIds : list string }.

Definition couponItemsFromFacts (lines : list (Z * option string)) (facts : gmap string CouponMatchFacts)
    : list CouponItem :=
  flat_map (fun '(quantity, productId) =>
    match productId with
    | None => []
    | Some p =>
        let f := facts !! p in
        [{| ci_quantity := quantity; ci_productId := p;
            ci_tags := or_else (cf_tags <$> f) []; ci_collectionIds := or_else (cf_collectionIds <$> f) [] |}]
    end) lines.

(** ** Coupon code identity ([canonicalCouponCodes] of [money/promotion-stack.ts]):
    the first spelling of each case-insensitive code, in order. *)

Inductive CouponCodeError := Invalid_coupon_code.

Definition code_ok (code : string) : bool :=
  negb ((String.length code =? 0)%nat || (255 <? String.length code)%nat).
#[global] Arguments code_ok : simpl never.

Fixpoint canonical_codes_from (seen : list string) (codes : list string) : result CouponCodeError (list string) :=
  match codes with
  | [] => Ok []
  | code :: rest =>
      if negb (code_ok code) then Err Invalid_coupon_code
      else
        let key := to_lower code in
        if in_set seen key then canonical_codes_from seen rest
        else let! out := canonical_codes_from (key :: seen) rest in Ok (code :: out)
  end.

Definition canonicalCouponCodes (codes : list string) : result CouponCodeError (list string) :=
  canonical_codes_from [] codes.

Lemma canonical_codes_from_spec seen codes out :
  canonical_codes_from seen codes = Ok out ->
  NoDup (map to_lower out) /\ out `sublist_of` codes /\
  (forall k, k ∈ map to_lower out <-> k ∈ map to_lower codes /\ k ∉ seen) /\
  Forall (fun c => code_ok c = true) codes.
Proof.
  revert seen out. induction codes as [|c cs IH]; intros seen out H; cbn in H; inv_ok.
  { cbn. repeat split; try constructor; set_solver. }
  assert (Hok : code_ok c = true) by (by destruct (code_ok c)).
  destruct (in_set seen (to_lower c)) eqn:Es.
  - apply in_set_spec in Es. destruct (IH _ _ H) as (I1 & I2 & I3 & I4).
    split; [done|split; [by constructor|split; [|by constructor]]].
    intros k. rewrite I3. cbn. set_solver.
  - assert (Hns : to_lower c ∉ seen) by (rewrite <- in_set_spec; congruence).
    inv_ok. destruct (IH _ _ Em) as (I1 & I2 & I3 & I4). cbn [map].
    split; [|split; [by constructor|split; [|by constructor]]].
    + constructor; [|done]. rewrite I3, not_elem_of_cons. tauto.
    + intros k. rewrite !elem_of_cons, I3, not_elem_of_cons.
      destruct (decide (k = to_lower c)) as [->|]; tauto.
Qed.

Lemma canonical_codes_from_id seen codes :
  Forall (fun c => code_ok c = true) codes -> NoDup (map to_lower codes) ->
  (forall k, k ∈ map to_lower codes -> k ∉ seen) -> canonical_codes_from seen codes = Ok codes.
Proof.
  intros Hok. revert seen. induction Hok as [|c cs Hc _ IH]; intros seen Hnd Hs; cbn; [done|].
  rewrite Hc. cbn in Hnd |- *. inversion Hnd as [|? ? Hn Hnd']; subst.
  destruct (in_set seen (to_lower c)) eqn:Es.
  - apply in_set_spec in Es. exfalso. apply (Hs (to_lower c)); [by left|done].
  - rewrite IH; [done|done|]. intros k Hk. cbn in Hs. rewrite not_elem_of_cons. split; [by intros ->|].
    apply Hs. by right.
Qed.

(** Canonicalising coupon codes keeps one spelling of every code: the result
    is a subsequence of the input with the same case-insensitive identities and
    no duplicate among them, and canonicalising again changes nothing. *)
Theorem canonical_codes_spec codes out : canonicalCouponCodes codes = Ok out ->
  out `sublist_of` codes /\ NoDup (map to_lower out) /\
  (forall k, k ∈ map to_lower out <-> k ∈ map to_lower codes) /\
  canonicalCouponCodes out = Ok out.
Proof.
  intros H. unfold canonicalCouponCodes in *.
  destruct (canonical_codes_from_spec _ _ _ H) as (H1 & H2 & H3 & H4).
  split; [done|split; [done|split]].
  - intros k. rewrite H3. pose proof (not_elem_of_nil k). tauto.
  - apply canonical_codes_from_id; [|done|intros k _; apply not_elem_of_nil].
    apply Forall_forall. intros c Hc. rewrite Forall_forall in H4. apply H4.
    by eapply elem_of_sublist.
Qed.

Lemma canonical_codes_spec_witness :
  canonicalCouponCodes ["VIP"; "summer"]%string = Ok ["VIP"; "summer"]%string.
Proof. exact (proj2 (proj2 (proj2 (canonical_codes_spec ["VIP"; "vip"; "summer"; "Vip"]%string _ eq_refl)))). Defined.
