(* ===== verification/LineQuantity.v ===== *)
(** Quantities of an order line: [src/packages/api/src/orders/line-quantity.ts].
    [quantity] is what was ordered, [cancelledQty] what will never ship,
    [editRemovedQty] the part of it that an order edit removed. The billed
    quantity is ordered less edit-removed. *)

From S2P Require Import Prelude.
From Stdlib Require Import ZArith Lia Bool.
From stdpp Require Import base list.
Local Open Scope Z_scope.

Record LineQuantityFacts := { lq_quantity : Z; lq_cancelledQty : Z; lq_editRemovedQty : option Z }.

Definition editRemovedQty (l : LineQuantityFacts) : Z := or_else (lq_editRemovedQty l) 0.
Definition billedQty (l : LineQuantityFacts) : Z := lq_quantity l - editRemovedQty l.

Definition billedLine (row : LineQuantityFacts) : LineQuantityFacts :=
  let removed := editRemovedQty row in
  if removed =? 0 then row
  else {| lq_quantity := lq_quantity row - removed; lq_cancelledQty := lq_cancelledQty row - removed;
          lq_editRemovedQty := lq_editRemovedQty row |}.
Definition billedLines (rows : list LineQuantityFacts) : list LineQuantityFacts := map billedLine rows.

Record StoredLineQuantities := { sq_quantity : Z; sq_cancelledQty : Z; sq_editRemovedQty : Z }.
Record LineQuantityChange := {
  ch_stored : StoredLineQuantities; ch_removed : Z; ch_restored : Z; ch_added : Z
}.

Definition reconcileLineQuantities (current : StoredLineQuantities) (billedAfter : Z) : LineQuantityChange :=
  let billedBefore := sq_quantity current - sq_editRemovedQty current in
  if billedAfter <? billedBefore then
    let removed := billedBefore - billedAfter in
    {| ch_stored := {| sq_quantity := sq_quantity current;
                       sq_cancelledQty := sq_cancelledQty current + removed;
                       sq_editRemovedQty := sq_editRemovedQty current + removed |};
       ch_removed := removed; ch_restored := 0; ch_added := 0 |}
  else if billedBefore <? billedAfter then
    let grow := billedAfter - billedBefore in
    let restored := Z.min grow (sq_editRemovedQty current) in
    let added := grow - restored in
    {| ch_stored := {| sq_quantity := sq_quantity current + added;
                       sq_cancelledQty := sq_cancelledQty current - restored;
                       sq_editRemovedQty := sq_editRemovedQty current - restored |};
       ch_removed := 0; ch_restored := restored; ch_added := added |}
  else {| ch_stored := current; ch_removed := 0; ch_restored := 0; ch_added := 0 |}.

(** ** Well-formed stored lines: [0 <= R <= C], and what shipped ([fulfilled])
    and what was cancelled fit in what was ordered. *)

Definition line_wf (fulfilled : Z) (s : StoredLineQuantities) : Prop :=
  0 <= fulfilled /\ 0 <= sq_editRemovedQty s <= sq_cancelledQty s /\
  fulfilled + sq_cancelledQty s <= sq_quantity s.

Definition open_units (fulfilled : Z) (s : StoredLineQuantities) : Z :=
  sq_quantity s - fulfilled - sq_cancelledQty s.

(** Storing a new billed quantity keeps a line well formed and never lowers
    the originally ordered count: the billed view becomes the requested quantity,
    refund-cancelled units stay cancelled, previously removed units come back
    before new ones are ordered, and the units still to ship change by exactly
    the billed change. *)
Theorem reconcile_line_quantities_sound fulfilled s billedAfter :
  line_wf fulfilled s ->
  fulfilled + (sq_cancelledQty s - sq_editRemovedQty s) <= billedAfter ->
  let ch := reconcileLineQuantities s billedAfter in
  let s' := ch_stored ch in
  line_wf fulfilled s' /\
  sq_quantity s' - sq_editRemovedQty s' = billedAfter /\
  sq_quantity s <= sq_quantity s' /\
  sq_cancelledQty s' - sq_editRemovedQty s' = sq_cancelledQty s - sq_editRemovedQty s /\
  (0 < ch_added ch -> sq_editRemovedQty s' = 0) /\
  open_units fulfilled s' - open_units fulfilled s =
    billedAfter - (sq_quantity s - sq_editRemovedQty s) /\
  ch_restored ch + ch_added ch - ch_removed ch = billedAfter - (sq_quantity s - sq_editRemovedQty s).
Proof.
  intros (W1 & W2 & W3) Hb. cbn zeta. unfold reconcileLineQuantities, line_wf, open_units.
  destruct (Z.ltb_spec billedAfter (sq_quantity s - sq_editRemovedQty s)); cbn; [lia|].
  destruct (Z.ltb_spec (sq_quantity s - sq_editRemovedQty s) billedAfter); cbn; lia.
Qed.

Definition sample_line : StoredLineQuantities :=
  {| sq_quantity := 5; sq_cancelledQty := 3; sq_editRemovedQty := 2 |}.

Lemma reconcile_line_quantities_sound_witness :
  line_wf 1 (ch_stored (reconcileLineQuantities sample_line 6)) /\
  ch_added (reconcileLineQuantities sample_line 6) = 1.
Proof.
  split; [|reflexivity].
  exact (proj1 (reconcile_line_quantities_sound 1 sample_line 6
    ltac:(unfold line_wf, sample_line; cbn; lia) ltac:(unfold sample_line; cbn; lia))).
Defined.

(** Un-doing an edit restores the stored row exactly: lowering the billed
    quantity and raising it back is the identity on a well-formed line. *)
Theorem reconcile_roundtrip fulfilled s lower :
  line_wf fulfilled s -> lower <= sq_quantity s - sq_editRemovedQty s ->
  ch_stored (reconcileLineQuantities (ch_stored (reconcileLineQuantities s lower))
    (sq_quantity s - sq_editRemovedQty s)) = s.
Proof.
  intros (W1 & W2 & W3) Hl. unfold reconcileLineQuantities at 2.
  destruct s as [q c r]; cbn in *.
  destruct (Z.ltb_spec lower (q - r)); cbn.
  - unfold reconcileLineQuantities; cbn.
    rewrite (proj2 (Z.ltb_ge _ _)), (proj2 (Z.ltb_lt _ _)) by lia. cbn.
    rewrite Z.min_l by lia. f_equal; lia.
  - rewrite (proj2 (Z.ltb_ge _ _)) by lia. unfold reconcileLineQuantities; cbn.
    by rewrite !(proj2 (Z.ltb_ge _ _)) by lia.
Qed.

Lemma reconcile_roundtrip_witness :
  ch_stored (reconcileLineQuantities (ch_stored (reconcileLineQuantities sample_line 2)) 3) = sample_line.
Proof.
  exact (reconcile_roundtrip 1 sample_line 2 ltac:(unfold line_wf, sample_line; cbn; lia)
    ltac:(unfold sample_line; cbn; lia)).
Defined.
