(* ===== verification/OrderEdit.v ===== *)
(** Order editing, the pure half: [src/packages/api/src/orders/order-edit.ts].

    [applyEditOps] stages operations on a copy of the working order,
    [priceWorkingOrder] reprices the result through [calculateOrderTotals],
    [diffLines] and [removedUnits] compare it with the stored lines,
    [allocateEditRefundLines] attributes a refund to the removed units, and
    [validateSettlement] decides how the balance may be settled. Lines are
    [WLine]s in their billed view; the copy made by [applyEditOps] is deep
    enough that updating a line in place is a functional update of the list. *)

From S2P Require Import Prelude JsNumber Json Totals Coupon.
From Stdlib Require Import ZArith Lia Bool String.
From stdpp Require Import base list strings gmap sorting pretty.
Local Open Scope Z_scope.

(** ** Data *)

Record LineOrigin := { wo_variantId : option string; wo_sku : string; wo_unitPrice : Z; wo_quantity : Z }.

Record WLine := {
  wl_key : string; wl_id : option string; wl_variantId : option string; wl_sku : string; wl_name : string;
  wl_unitPrice : Z; wl_quantity : Z; wl_fulfilledQty : Z; wl_refundedQty : Z; wl_cancelledQty : Z;
  wl_editRemovedQty : option Z; wl_original : option LineOrigin; wl_customPrice : bool
}.
Record WAdjustment := { wa_id : option string; wa_label : string; wa_amount : Z }.

Record Address := {
  ad_fullName : option string; ad_line1 : option string; ad_line2 : option string; ad_city : option string;
  ad_province : option string; ad_postalCode : option string; ad_country : option string; ad_phone : option string
}.

Record VariantFacts := { vf_id : string; vf_sku : string; vf_name : string; vf_enabled : bool; vf_deleted : bool }.

Inductive WShipping :=
  | ship_keep | ship_method (code : string) | ship_custom (amount : Z) | ship_none.

Record WorkingOrder := {
  w_lines : list WLine; w_adjustments : list WAdjustment; w_couponCodes : list string;
  w_shipping : WShipping; w_shippingAddress : option Address; w_billingAddress : option Address;
  w_saveToAddressBook : bool
}.

Inductive AddressKind := addr_shipping | addr_billing.

Inductive EditOp :=
  | set_quantity (lineId : string) (quantity : Z)
  | remove_line (lineId : string)
  | swap_variant (lineId sku : string) (quantity : option Z)
  | add_item (sku : string) (quantity : Z) (unitPrice : option Z)
  | apply_coupon (code : string)
  | remove_coupon (code : option string)
  | set_shipping_method (code : string)
  | set_shipping_amount (amount : Z)
  | remove_shipping
  | add_adjustment (label : string) (amount : Z)
  | remove_adjustment (adjustmentId : string)
  | set_address (kind : AddressKind) (address : Address) (saveToAddressBook : bool).

Inductive OrderEditError :=
  | LINE_NOT_FOUND | LINE_LOCKED | VARIANT_UNAVAILABLE | COUPON_NOT_FOUND | SHIPPING_METHOD_NOT_FOUND
  | ADJUSTMENT_NOT_FOUND | SETTLEMENT_REQUIRED | SETTLEMENT_INVALID | invalid_coupon_code.

Record EditLookups := {
  lk_variantsBySku : gmap string VariantFacts;
  lk_promoCodes : list string; (* keys of promosByCode *)
  lk_methodCodes : list string; (* keys of methodsByCode *)
  lk_unitPriceFor : VariantFacts -> Z
}.

(** The value ranges [EditOp]'s schema admits for the numeric fields. *)
Definition op_in_schema (op : EditOp) : bool :=
  match op with
  | set_quantity _ q => (0 <=? q) && (q <=? 100000)
  | swap_variant _ _ (Some q) => 1 <=? q
  | add_item _ q up => (1 <=? q) && (q <=? 100000) && match up with Some p => 0 <=? p | None => true end
  | set_shipping_amount a => 0 <=? a
  | add_adjustment _ a => negb (a =? 0)
  | _ => true
  end.

(** ** Helpers *)

Definition lockedQty (l : WLine) : Z := wl_fulfilledQty l + wl_cancelledQty l.
Definition openQty (l : WLine) : Z := Z.max 0 (wl_quantity l - wl_fulfilledQty l - wl_cancelledQty l).

Definition norm_text (v : option string) : option string :=
  match v with
  | Some s => if String.eqb (trim s) EmptyString then None else Some (trim s)
  | None => None
  end.

Definition normalizeAddress (a : Address) : Address :=
  {| ad_fullName := norm_text (ad_fullName a); ad_line1 := norm_text (ad_line1 a);
     ad_line2 := norm_text (ad_line2 a); ad_city := norm_text (ad_city a);
     ad_province := norm_text (ad_province a); ad_postalCode := norm_text (ad_postalCode a);
     ad_country := to_upper <$> norm_text (ad_country a); ad_phone := norm_text (ad_phone a) |}.

Definition has_id (id : string) (l : WLine) : bool := bool_decide (wl_id l = Some id).

(** [w.lines.find((x) => x.id === id)]: the index of the line the reference points to. *)
Fixpoint line_index (id : string) (ls : list WLine) : option nat :=
  match ls with
  | [] => None
  | l :: rest => if has_id id l then Some O else S <$> line_index id rest
  end.

Definition lineByKey (ls : list WLine) (id : string) : result OrderEditError (nat * WLine) :=
  match line_index id ls with
  | Some i => match ls !! i with Some l => Ok (i, l) | None => Err LINE_NOT_FOUND end
  | None => Err LINE_NOT_FOUND
  end.

Definition requireVariant (lookups : EditLookups) (sku : string) : result OrderEditError VariantFacts :=
  match lk_variantsBySku lookups !! sku with
  | Some v => if negb (vf_enabled v) || vf_deleted v then Err VARIANT_UNAVAILABLE else Ok v
  | None => Err VARIANT_UNAVAILABLE
  end.

Definition with_quantity (q : Z) (l : WLine) : WLine :=
  {| wl_key := wl_key l; wl_id := wl_id l; wl_variantId := wl_variantId l; wl_sku := wl_sku l; wl_name := wl_name l;
     wl_unitPrice := wl_unitPrice l; wl_quantity := q; wl_fulfilledQty := wl_fulfilledQty l;
     wl_refundedQty := wl_refundedQty l; wl_cancelledQty := wl_cancelledQty l;
     wl_editRemovedQty := wl_editRemovedQty l; wl_original := wl_original l; wl_customPrice := wl_customPrice l |}.

Definition repoint (v : VariantFacts) (price : Z) (l : WLine) : WLine :=
  {| wl_key := wl_key l; wl_id := wl_id l; wl_variantId := Some (vf_id v); wl_sku := vf_sku v; wl_name := vf_name v;
     wl_unitPrice := price; wl_quantity := wl_quantity l; wl_fulfilledQty := wl_fulfilledQty l;
     wl_refundedQty := wl_refundedQty l; wl_cancelledQty := wl_cancelledQty l;
     wl_editRemovedQty := wl_editRemovedQty l; wl_original := wl_original l; wl_customPrice := wl_customPrice l |}.

(** [key: `new:${++seq}`] *)
Definition new_key (seq : nat) : string := ("new:" +:+ pretty (N.of_nat seq))%string.

Definition new_line (seq : nat) (v : VariantFacts) (price quantity : Z) (custom : bool) : WLine :=
  {| wl_key := new_key seq; wl_id := None; wl_variantId := Some (vf_id v); wl_sku := vf_sku v; wl_name := vf_name v;
     wl_unitPrice := price; wl_quantity := quantity; wl_fulfilledQty := 0; wl_refundedQty := 0;
     wl_cancelledQty := 0; wl_editRemovedQty := None; wl_original := None; wl_customPrice := custom |}.

Definition set_lines (w : WorkingOrder) (ls : list WLine) : WorkingOrder :=
  {| w_lines := ls; w_adjustments := w_adjustments w; w_couponCodes := w_couponCodes w; w_shipping := w_shipping w;
     w_shippingAddress := w_shippingAddress w; w_billingAddress := w_billingAddress w;
     w_saveToAddressBook := w_saveToAddressBook w |}.
Definition set_adjustments (w : WorkingOrder) (adjs : list WAdjustment) : WorkingOrder :=
  {| w_lines := w_lines w; w_adjustments := adjs; w_couponCodes := w_couponCodes w; w_shipping := w_shipping w;
     w_shippingAddress := w_shippingAddress w; w_billingAddress := w_billingAddress w;
     w_saveToAddressBook := w_saveToAddressBook w |}.
Definition set_codes (w : WorkingOrder) (codes : list string) : WorkingOrder :=
  {| w_lines := w_lines w; w_adjustments := w_adjustments w; w_couponCodes := codes; w_shipping := w_shipping w;
     w_shippingAddress := w_shippingAddress w; w_billingAddress := w_billingAddress w;
     w_saveToAddressBook := w_saveToAddressBook w |}.
Definition set_shipping (w : WorkingOrder) (s : WShipping) : WorkingOrder :=
  {| w_lines := w_lines w; w_adjustments := w_adjustments w; w_couponCodes := w_couponCodes w; w_shipping := s;
     w_shippingAddress := w_shippingAddress w; w_billingAddress := w_billingAddress w;
     w_saveToAddressBook := w_saveToAddressBook w |}.

Definition canonical_or_error (codes : list string) : result OrderEditError (list string) :=
  match canonicalCouponCodes codes with Ok c => Ok c | Err _ => Err invalid_coupon_code end.

(** ** [applyEditOps]: one operation on [(w, seq)] *)

Definition apply_op (lookups : EditLookups) (st : WorkingOrder * nat) (op : EditOp)
    : result OrderEditError (WorkingOrder * nat) :=
  let '(w, seq) := st in
  match op with
  | set_quantity lineId quantity =>
      let! (i, l) := lineByKey (w_lines w) lineId in
      if quantity <? lockedQty l then Err LINE_LOCKED
      else Ok (set_lines w (<[i := with_quantity quantity l]> (w_lines w)), seq)
  | remove_line lineId =>
      let! (i, l) := lineByKey (w_lines w) lineId in
      Ok (set_lines w (<[i := with_quantity (lockedQty l) l]> (w_lines w)), seq)
  | swap_variant lineId sku quantity =>
      let! (i, l) := lineByKey (w_lines w) lineId in
      let! v := requireVariant lookups sku in
      let movable := wl_quantity l - lockedQty l in
      if movable <=? 0 then Err LINE_LOCKED
      else
        let moved := or_else quantity movable in
        if movable <? moved then Err LINE_LOCKED
        else if bool_decide (Some (vf_id v) = wl_variantId l) && (moved =? movable) then Ok (w, seq)
        else
          let price := lk_unitPriceFor lookups v in
          if (lockedQty l =? 0) && (or_else (wl_editRemovedQty l) 0 =? 0) && (moved =? wl_quantity l)
          then Ok (set_lines w (<[i := repoint v price l]> (w_lines w)), seq)
          else Ok (set_lines w (<[i := with_quantity (wl_quantity l - moved) l]> (w_lines w)
                                ++ [new_line (S seq) v price moved false]), S seq)
  | add_item sku quantity unitPrice =>
      let! v := requireVariant lookups sku in
      Ok (set_lines w (w_lines w ++
            [new_line (S seq) v (or_else unitPrice (lk_unitPriceFor lookups v)) quantity
               (match unitPrice with Some _ => true | None => false end)]), S seq)
  | apply_coupon code =>
      let matches := List.filter (fun c => String.eqb (to_lower c) (to_lower code)) (lk_promoCodes lookups) in
      if negb (length matches =? 1)%nat then Err COUPON_NOT_FOUND
      else let! codes := canonical_or_error (w_couponCodes w ++ [code]) in Ok (set_codes w codes, seq)
  | remove_coupon code =>
      Ok (set_codes w match code with
                      | None => []
                      | Some c => List.filter (fun x => negb (String.eqb (to_lower x) (to_lower c))) (w_couponCodes w)
                      end, seq)
  | set_shipping_method code =>
      if in_set (lk_methodCodes lookups) code then Ok (set_shipping w (ship_method code), seq)
      else Err SHIPPING_METHOD_NOT_FOUND
  | set_shipping_amount amount => Ok (set_shipping w (ship_custom amount), seq)
  | remove_shipping => Ok (set_shipping w ship_none, seq)
  | add_adjustment label amount =>
      Ok (set_adjustments w (w_adjustments w ++ [{| wa_id := None; wa_label := label; wa_amount := amount |}]), seq)
  | remove_adjustment adjustmentId =>
      match list_find (fun a => wa_id a = Some adjustmentId) (w_adjustments w) with
      | None => Err ADJUSTMENT_NOT_FOUND
      | Some (i, _) => Ok (set_adjustments w (delete i (w_adjustments w)), seq)
      end
  | set_address kind address save =>
      let a := normalizeAddress address in
      Ok ({| w_lines := w_lines w; w_adjustments := w_adjustments w; w_couponCodes := w_couponCodes w;
             w_shipping := w_shipping w;
             w_shippingAddress := match kind with addr_shipping => Some a | addr_billing => w_shippingAddress w end;
             w_billingAddress := match kind with addr_billing => Some a | addr_shipping => w_billingAddress w end;
             w_saveToAddressBook := save || w_saveToAddressBook w |}, seq)
  end.

Definition applyEditOps (initial : WorkingOrder) (ops : list EditOp) (lookups : EditLookups)
    : result OrderEditError WorkingOrder :=
  let! codes := canonical_or_error (w_couponCodes initial) in
  let! (w, _) := fold_result (apply_op lookups) (set_codes initial codes, O) ops in
  Ok w.

(** ** What an edit can never touch *)

(** The stored facts of a row that an edit reads but never writes. *)
Definition row_facts (l : WLine) : string * option string * (Z * Z * Z) * option Z * option LineOrigin :=
  (wl_key l, wl_id l, (wl_fulfilledQty l, wl_refundedQty l, wl_cancelledQty l), wl_editRemovedQty l, wl_original l).

Definition line_ok (l : WLine) : Prop := 0 <= lockedQty l <= wl_quantity l.

(** Rows appended by the edit: keys [new:1] .. [new:k], no id, nothing shipped. *)
Definition fresh_facts (k : nat) : list (string * option string * (Z * Z * Z) * option Z * option LineOrigin) :=
  map (fun n => (new_key n, None, (0, 0, 0), None, None)) (seq 1 k).

#[global] Arguments fresh_facts : simpl never.
#[global] Arguments new_key : simpl never.

Definition edit_invariant (initial : WorkingOrder) (st : WorkingOrder * nat) : Prop :=
  Forall line_ok (w_lines (fst st)) /\
  map row_facts (w_lines (fst st)) = map row_facts (w_lines initial) ++ fresh_facts (snd st).

Lemma fresh_facts_S k : fresh_facts (S k) = fresh_facts k ++ [(new_key (S k), None, (0, 0, 0), None, None)].
Proof. unfold fresh_facts. rewrite seq_S, map_app. done. Qed.

Lemma lineByKey_lookup ls id i l : lineByKey ls id = Ok (i, l) -> ls !! i = Some l /\ wl_id l = Some id.
Proof.
  unfold lineByKey. intros H. destruct (line_index id ls) as [j|] eqn:E; [|discriminate].
  destruct (ls !! j) eqn:El; [|discriminate]. injection H as -> ->. split; [done|].
  revert i E El. induction ls as [|x xs IH]; intros i E El; cbn in E; [discriminate|].
  destruct (has_id id x) eqn:Ex.
  - injection E as <-. injection El as ->. by apply bool_decide_eq_true in Ex.
  - destruct (line_index id xs) as [k|] eqn:Ek; [|discriminate]. injection E as <-. by apply (IH k).
Qed.

Lemma row_facts_quantity q l : row_facts (with_quantity q l) = row_facts l.
Proof. done. Qed.
Lemma row_facts_repoint v p l : row_facts (repoint v p l) = row_facts l.
Proof. done. Qed.
#[local] Hint Resolve row_facts_quantity row_facts_repoint Forall_insert : core.

Lemma edit_update initial w seq i l l' :
  edit_invariant initial (w, seq) -> w_lines w !! i = Some l -> row_facts l' = row_facts l -> line_ok l' ->
  edit_invariant initial (set_lines w (<[i := l']> (w_lines w)), seq).
Proof.
  intros [H1 H2] Hl Hf Hok. split; cbn in *; [by apply Forall_insert|].
  by rewrite (map_insert_same _ _ _ _ _ Hl Hf).
Qed.

Lemma edit_append initial w seq v price q c :
  edit_invariant initial (w, seq) -> 0 <= q ->
  edit_invariant initial (set_lines w (w_lines w ++ [new_line (S seq) v price q c]), S seq).
Proof.
  intros [H1 H2] Hq. split; cbn in *.
  - apply Forall_app. split; [done|]. constructor; [|constructor]. unfold line_ok, lockedQty. cbn. lia.
  - rewrite map_app, H2, <- app_assoc. f_equal. by rewrite fresh_facts_S.
Qed.

Lemma apply_op_invariant initial lookups st op st' :
  op_in_schema op = true -> edit_invariant initial st -> apply_op lookups st op = Ok st' ->
  edit_invariant initial st'.
Proof.
  intros Hs HI H. destruct st as [w seq]. pose proof HI as [HI1 _].
  assert (Hok : forall i l, w_lines w !! i = Some l -> line_ok l).
  { intros i l Hl. by eapply Forall_lookup_1 in Hl. }
  destruct op; cbn [apply_op] in H; inv_ok; try (exact HI).
  - destruct a as [i l]. apply lineByKey_lookup in Em as [Hl _]. inv_ok. bool_props.
    apply edit_update with l; try done. specialize (Hok i l Hl). unfold line_ok in *. cbn. unfold lockedQty in *. cbn. lia.
  - destruct a as [i l]. apply lineByKey_lookup in Em as [Hl _]. inv_ok.
    apply edit_update with l; try done. specialize (Hok i l Hl). unfold line_ok, lockedQty in *. cbn. lia.
  - destruct a as [i l]. apply lineByKey_lookup in Em as [Hl _]. inv_ok. bool_props.
    specialize (Hok i l Hl). destruct (_ && (_ =? _)); inv_ok; [exact HI|].
    destruct (_ && _ && _); inv_ok; [by apply edit_update with l|].
    assert (Hm : 1 <= or_else quantity (wl_quantity l - lockedQty l)).
    { destruct quantity as [q|]; cbn in *; bool_props; lia. }
    apply (edit_append initial
      (set_lines w (<[i := with_quantity (wl_quantity l - or_else quantity (wl_quantity l - lockedQty l)) l]> (w_lines w))) seq);
      [|lia].
    apply edit_update with l; try done. unfold line_ok, lockedQty in *. cbn. lia.
  - apply edit_append; [done|]. cbn in Hs. bool_props. lia.
  - destruct (list_find _ _) as [[j ?]|]; inv_ok. exact HI.
Qed.

(** Whatever operations an edit applies, it never drops, reorders or
    re-identifies a stored line and never alters what was shipped, refunded,
    cancelled or removed before: the stored rows come first with their facts
    unchanged, rows the edit adds follow with fresh keys, and every line keeps at
    least its locked (shipped or cancelled) units. *)
Theorem edit_preserves_stored_rows initial ops lookups w :
  Forall line_ok (w_lines initial) -> Forall (fun op => op_in_schema op = true) ops ->
  applyEditOps initial ops lookups = Ok w ->
  Forall line_ok (w_lines w) /\
  exists k, map row_facts (w_lines w) = map row_facts (w_lines initial) ++ fresh_facts k.
Proof.
  intros Hok Hs H. unfold applyEditOps in H. inv_ok. destruct a0 as [w' k]. inv_ok.
  assert (HI : edit_invariant initial (w, k)).
  { eapply (fold_result_inv (edit_invariant initial)); [| |exact Em0].
    - split; cbn; [done|]. by rewrite app_nil_r.
    - intros t op t' Hin HI Hstep. eapply apply_op_invariant; eauto.
      rewrite Forall_forall in Hs. by apply Hs. }
  destruct HI as [H1 H2]. split; [done|]. by exists k.
Qed.

Definition sample_line : WLine :=
  {| wl_key := "k1"; wl_id := Some "l1"; wl_variantId := Some "v1"; wl_sku := "SKU-1"; wl_name := "Mug";
     wl_unitPrice := 1250; wl_quantity := 3; wl_fulfilledQty := 1; wl_refundedQty := 0; wl_cancelledQty := 0;
     wl_editRemovedQty := None; wl_original := None; wl_customPrice := false |}%string.
Definition sample_working : WorkingOrder :=
  {| w_lines := [sample_line]; w_adjustments := []; w_couponCodes := []; w_shipping := ship_keep;
     w_shippingAddress := None; w_billingAddress := None; w_saveToAddressBook := false |}.
Definition sample_lookups : EditLookups :=
  {| lk_variantsBySku :=
       <["SKU-2" := {| vf_id := "v2"; vf_sku := "SKU-2"; vf_name := "Cup"; vf_enabled := true; vf_deleted := false |}]> ∅;
     lk_promoCodes := []; lk_methodCodes := []; lk_unitPriceFor := fun _ => 900 |}%string.
Definition sample_ops : list EditOp := [swap_variant "l1" "SKU-2" (Some 1); set_quantity "l1" 1]%string.

Lemma edit_preserves_stored_rows_witness :
  exists w, applyEditOps sample_working sample_ops sample_lookups = Ok w /\
    map wl_quantity (w_lines w) = [1; 1] /\ Forall line_ok (w_lines w).
Proof.
  destruct (applyEditOps sample_working sample_ops sample_lookups) as [w|e] eqn:E; [|vm_compute in E; discriminate E].
  exists w. split; [reflexivity|]. split.
  - revert E. vm_compute. intros [= <-]. reflexivity.
  - refine (proj1 (edit_preserves_stored_rows sample_working sample_ops sample_lookups w _ _ E)).
    + repeat constructor; vm_compute; discriminate.
    + repeat constructor.
Defined.

(** [referencedKeys]: the skus, coupon codes and shipping codes to prefetch. *)
Definition dedup (l : list string) : list string :=
  fold_left (fun acc x => if in_set acc x then acc else acc ++ [x]) l [].
Definition referencedKeys (ops : list EditOp) : list string * list string * list string :=
  (dedup (flat_map (fun op => match op with add_item s _ _ => [s] | swap_variant _ s _ => [s] | _ => [] end) ops),
   dedup (flat_map (fun op => match op with apply_coupon c => [c] | _ => [] end) ops),
   dedup (flat_map (fun op => match op with set_shipping_method c => [c] | _ => [] end) ops)).

(** ** Repricing *)

Record PricingInputs := {
  pi_taxRate : Z; pi_taxInclusive : bool; pi_shippingTaxable : bool; pi_shippingTaxRate : option Z;
  pi_shippingTaxInclusive : option bool; pi_promotion : option Promotion; pi_pointsDiscount : Z; pi_baseShipping : Z
}.

Record PerLine := { pl_key : string; pl_lineSubtotal : Z; pl_lineDiscount : Z; pl_lineTotal : Z }.
Record PricedOrder := { po_totals : OrderTotals; po_perLine : list PerLine }.

Definition is_active (l : WLine) : bool := 0 <? wl_quantity l.

(** [lines.map((l) => l.quantity <= 0 ? zero : totals.lines[i++])] *)
Fixpoint per_line (lines : list WLine) (priced : list LineTotals) : list PerLine :=
  match lines with
  | [] => []
  | l :: rest =>
      if is_active l then
        match priced with
        | t :: priced' =>
            {| pl_key := wl_key l; pl_lineSubtotal := lt_lineSubtotal t; pl_lineDiscount := lt_lineDiscount t;
               pl_lineTotal := lt_lineTotal t |} :: per_line rest priced'
        | [] => []
        end
      else {| pl_key := wl_key l; pl_lineSubtotal := 0; pl_lineDiscount := 0; pl_lineTotal := 0 |} :: per_line rest priced
  end.

Definition active_input (lines : list WLine) : list CartLineInput :=
  map (fun l => {| cl_unitPrice := wl_unitPrice l; cl_quantity := wl_quantity l |}) (List.filter is_active lines).

Definition priceWorkingOrder (lines : list WLine) (adjustments : list WAdjustment) (p : PricingInputs) : PricedOrder :=
  let totals := calculateOrderTotals
    {| ti_lines := active_input lines;
       ti_shipping := pi_baseShipping p; ti_taxRate := pi_taxRate p; ti_shippingTaxable := pi_shippingTaxable p;
       ti_shippingTaxRate := pi_shippingTaxRate p; ti_shippingTaxInclusive := pi_shippingTaxInclusive p;
       ti_taxInclusive := pi_taxInclusive p; ti_promotion := pi_promotion p;
       ti_pointsDiscount := Some (pi_pointsDiscount p);
       ti_adjustments := Some (map (fun a => {| adj_amount := wa_amount a; adj_taxable := false |}) adjustments) |} in
  {| po_totals := totals; po_perLine := per_line lines (ot_lines totals) |}.

Lemma per_line_spec lines (lts : list LineTotals) :
  Forall2 (fun l lt => lt_lineSubtotal lt = cl_unitPrice l * cl_quantity l /\
                       lt_unitPrice lt = cl_unitPrice l /\ lt_quantity lt = cl_quantity l /\
                       0 <= lt_lineDiscount lt <= lt_lineSubtotal lt /\
                       lt_lineTotal lt = lt_lineSubtotal lt - lt_lineDiscount lt) (active_input lines) lts ->
  Forall2 (fun l p => pl_key p = wl_key l /\
                      pl_lineSubtotal p = (if is_active l then wl_unitPrice l * wl_quantity l else 0) /\
                      0 <= pl_lineDiscount p <= pl_lineSubtotal p /\
                      pl_lineTotal p = pl_lineSubtotal p - pl_lineDiscount p) lines (per_line lines lts) /\
  sumZ (map pl_lineTotal (per_line lines lts)) =
    sumZ (lineSubtotals_of (active_input lines)) - sumZ (map lt_lineDiscount lts).
Proof.
  unfold active_input, lineSubtotals_of. revert lts. induction lines as [|l ls IH]; intros lts H; cbn in *.
  - inversion H; subst. cbn. done.
  - destruct (is_active l) eqn:Ea; cbn in H.
    + inversion H as [|? lt ? lts' (E1 & E2 & E3 & E4 & E5) Hr]; subst. destruct (IH _ Hr) as [I1 I2].
      cbn in *. split; [|lia]. constructor; [|done]. cbn. repeat split; try lia. by rewrite Ea.
    + destruct (IH _ H) as [I1 I2]. split; [|cbn; lia].
      constructor; [|done]. cbn. rewrite Ea. repeat split; lia.
Qed.

(** Repricing an edited order charges every line: one price row per working
    line, in order, zero for emptied lines and never negative, and the line
    totals add up to the order's discounted subtotal. *)
Theorem price_working_order_sound lines adjustments p :
  priceable (active_input lines) ->
  let po := priceWorkingOrder lines adjustments p in
  Forall2 (fun l pl => pl_key pl = wl_key l /\
                       pl_lineSubtotal pl = (if is_active l then wl_unitPrice l * wl_quantity l else 0) /\
                       0 <= pl_lineDiscount pl <= pl_lineSubtotal pl /\
                       pl_lineTotal pl = pl_lineSubtotal pl - pl_lineDiscount pl) lines (po_perLine po) /\
  sumZ (map pl_lineTotal (po_perLine po)) = ot_subtotal (po_totals po) - ot_discountTotal (po_totals po).
Proof.
  intros Hp. cbn zeta. unfold priceWorkingOrder. cbn [po_perLine po_totals].
  match goal with |- context [calculateOrderTotals ?i] => set (input := i) end.
  destruct (order_lines_facts input Hp) as (F1 & F2 & F3 & _).
  destruct (per_line_spec lines _ F1) as [P1 P2]. split; [exact P1|].
  rewrite P2, F2, F3. done.
Qed.

Definition sample_pricing : PricingInputs :=
  {| pi_taxRate := 1000; pi_taxInclusive := false; pi_shippingTaxable := false; pi_shippingTaxRate := None;
     pi_shippingTaxInclusive := None; pi_promotion := None; pi_pointsDiscount := 100; pi_baseShipping := 500 |}.

Lemma price_working_order_sound_witness :
  let po := priceWorkingOrder [sample_line; with_quantity 0 sample_line] [] sample_pricing in
  map pl_lineTotal (po_perLine po) = [3650; 0] /\
  sumZ (map pl_lineTotal (po_perLine po)) = ot_subtotal (po_totals po) - ot_discountTotal (po_totals po).
Proof.
  split; [vm_compute; reflexivity|].
  refine (proj2 (price_working_order_sound [sample_line; with_quantity 0 sample_line] [] sample_pricing _)).
  split; [repeat constructor; vm_compute; discriminate|vm_compute; discriminate].
Defined.

(** ** Removed units and the refund that pays for them *)

Record LineSnap := {
  ls_id : option string; ls_sku : string; ls_name : string; ls_unitPrice : Z; ls_quantity : Z; ls_lineTotal : Z
}.

Inductive LineChange := lc_unchanged | lc_added | lc_removed | lc_quantity | lc_swapped | lc_repriced.
Record LineDiff := {
  df_lineId : option string; df_sku : string; df_change : LineChange; df_beforeQty : Z; df_afterQty : Z;
  df_beforeTotal : Z; df_afterTotal : Z; df_fromSku : option string
}.

(** [new Map(before.map((l) => [l.id, l])).get(id)]: the last row wins. *)
Definition snap_by_id (before : list LineSnap) (id : option string) : option LineSnap :=
  match id with
  | None => None
  | Some i => List.find (fun b => bool_decide (ls_id b = Some i)) (rev before)
  end.
Definition price_of_key (priced : PricedOrder) (key : string) : option PerLine :=
  List.find (fun x => String.eqb (pl_key x) key) (po_perLine priced).

Definition change_kind (l : WLine) (b : LineSnap) (total : Z) : LineChange :=
  if match wl_original l with Some o => negb (String.eqb (wl_sku l) (wo_sku o)) | None => false end then lc_swapped
  else if (wl_quantity l =? 0) && (0 <? ls_quantity b) then lc_removed
  else if negb (wl_quantity l =? ls_quantity b) then lc_quantity
  else if negb (total =? ls_lineTotal b) then lc_repriced
  else lc_unchanged.

(** [None] stands for the TypeError of a line that was not priced. *)
Definition diff_line (before : list LineSnap) (priced : PricedOrder) (l : WLine) : option LineDiff :=
  match price_of_key priced (wl_key l) with
  | None => None
  | Some t =>
      match snap_by_id before (wl_id l) with
      | None => Some {| df_lineId := None; df_sku := wl_sku l; df_change := lc_added; df_beforeQty := 0;
                        df_afterQty := wl_quantity l; df_beforeTotal := 0; df_afterTotal := pl_lineTotal t;
                        df_fromSku := None |}
      | Some b =>
          let change := change_kind l b (pl_lineTotal t) in
          Some {| df_lineId := wl_id l; df_sku := wl_sku l; df_change := change; df_beforeQty := ls_quantity b;
                  df_afterQty := wl_quantity l; df_beforeTotal := ls_lineTotal b; df_afterTotal := pl_lineTotal t;
                  df_fromSku := match change with lc_swapped => Some (ls_sku b) | _ => None end |}
      end
  end.
Definition diffLines (before : list LineSnap) (working : list WLine) (priced : PricedOrder) : option (list LineDiff) :=
  all_some (map (diff_line before priced) working).

Record RemovedUnit := { ru_orderLineId : string; ru_sku : string; ru_quantity : Z; ru_amount : Z }.

Definition removed_unit (before : list LineSnap) (priced : PricedOrder) (l : WLine) : option (list RemovedUnit) :=
  match snap_by_id before (wl_id l), wl_id l with
  | Some b, Some id =>
      if ls_quantity b <=? wl_quantity l then Some []
      else match price_of_key priced (wl_key l) with
           | None => None
           | Some t => Some [{| ru_orderLineId := id; ru_sku := ls_sku b;
                                ru_quantity := ls_quantity b - wl_quantity l;
                                ru_amount := Z.max 0 (ls_lineTotal b - pl_lineTotal t) |}]
           end
  | _, _ => Some []
  end.
Definition removedUnits (before : list LineSnap) (working : list WLine) (priced : PricedOrder) : option (list RemovedUnit) :=
  match all_some (map (removed_unit before priced) working) with Some l => Some (concat l) | None => None end.

Record RefundLine := { rl_orderLineId : string; rl_quantity : Z; rl_amount : Z }.

Section EditRefund.
Context (localeCompare : string -> string -> Z).

(** The [.map] callback, which lowers [left] as it goes. *)
Fixpoint take_refund (left : Z) (units : list RemovedUnit) : list RefundLine :=
  match units with
  | [] => []
  | u :: rest =>
      let amount := Z.min (ru_amount u) left in
      {| rl_orderLineId := ru_orderLineId u; rl_quantity := ru_quantity u; rl_amount := amount |}
        :: take_refund (left - amount) rest
  end.

Definition refund_order (units : list RemovedUnit) : list RemovedUnit :=
  List.filter (fun u => 0 <? ru_quantity u)
    (sort_stable (fun a b => 0 <? localeCompare (ru_orderLineId a) (ru_orderLineId b)) units).

Definition allocateEditRefundLines (units : list RemovedUnit) (refundAmount : Z) : list RefundLine * Z :=
  let lines := take_refund (Z.max 0 refundAmount) (refund_order units) in
  (lines, sumZ (map rl_amount lines)).

Lemma take_refund_spec units : forall left, 0 <= left -> Forall (fun u => 0 <= ru_amount u) units ->
  Forall2 (fun u l => rl_orderLineId l = ru_orderLineId u /\ rl_quantity l = ru_quantity u /\
                      0 <= rl_amount l <= ru_amount u) units (take_refund left units) /\
  sumZ (map rl_amount (take_refund left units)) = Z.min left (sumZ (map ru_amount units)).
Proof.
  induction units as [|u us IH]; intros left Hl Ha; cbn; [split; [constructor|lia]|].
  inversion Ha as [|? ? Hu Hus]; subst.
  destruct (IH (left - Z.min (ru_amount u) left) ltac:(lia) Hus) as [I1 I2].
  pose proof (sumZ_nonneg (map ru_amount us) ltac:(by apply Forall_map)).
  split; [|lia]. constructor; [cbn; repeat split; lia|done].
Qed.

(** An edit refund is attributed to the removed units without exceeding any
    line's removed value, and attributes as much as possible: exactly the lesser
    of the refund and the total removed value, one line per removed row. *)
Theorem edit_refund_allocation units refundAmount :
  Forall (fun u => 0 <= ru_amount u) units ->
  let '(lines, itemsAmount) := allocateEditRefundLines units refundAmount in
  let removed := List.filter (fun u => 0 <? ru_quantity u) units in
  itemsAmount = Z.min (Z.max 0 refundAmount) (sumZ (map ru_amount removed)) /\
  itemsAmount = sumZ (map rl_amount lines) /\
  exists us, us ≡ₚ removed /\
    Forall2 (fun u l => rl_orderLineId l = ru_orderLineId u /\ rl_quantity l = ru_quantity u /\
                        0 <= rl_amount l <= ru_amount u) us lines.
Proof.
  intros Ha. unfold allocateEditRefundLines.
  set (removed := List.filter (fun u => 0 <? ru_quantity u) units).
  assert (HP : refund_order units ≡ₚ removed).
  { unfold refund_order, removed. apply Permutation_filter_bool, sort_stable_perm. }
  assert (Ha' : Forall (fun u => 0 <= ru_amount u) (refund_order units)).
  { rewrite HP. unfold removed. apply Forall_filter_bool, Ha. }
  destruct (take_refund_spec (refund_order units) (Z.max 0 refundAmount) ltac:(lia) Ha') as [T1 T2].
  split; [|split; [done|by exists (refund_order units)]].
  rewrite T2. f_equal. apply sumZ_perm. by apply Permutation_map.
Qed.
End EditRefund.

Definition sample_units : list RemovedUnit :=
  [{| ru_orderLineId := "b"; ru_sku := "S2"; ru_quantity := 1; ru_amount := 700 |};
   {| ru_orderLineId := "a"; ru_sku := "S1"; ru_quantity := 2; ru_amount := 500 |}]%string.
Definition sample_compare (a b : string) : Z :=
  match String.compare a b with Lt => -1 | Eq => 0 | Gt => 1 end.

Lemma edit_refund_allocation_witness :
  map rl_amount (fst (allocateEditRefundLines sample_compare sample_units 900)) = [500; 400] /\
  snd (allocateEditRefundLines sample_compare sample_units 900) = 900.
Proof.
  split; [vm_compute; reflexivity|].
  refine (eq_trans (proj1 (edit_refund_allocation sample_compare sample_units 900 _)) _).
  - repeat constructor; cbn; lia.
  - vm_compute. reflexivity.
Defined.

(** ** Settlement of the balance *)

Inductive SettlementKind := refund_now | leave_credit | send_pay_link | record_payment | leave_due.
#[export] Instance SettlementKind_eq_dec : EqDecision SettlementKind.
Proof. solve_decision. Defined.
Record SettlementT := { se_type : SettlementKind; se_amount : option Z }.

Definition allowedSettlements (balance : Z) : list SettlementKind :=
  if balance <? 0 then [refund_now; leave_credit]
  else if 0 <? balance then [send_pay_link; record_payment; leave_due]
  else [].

Definition validateSettlement (balance : Z) (settlement : option SettlementT)
    : result OrderEditError (option SettlementT) :=
  if balance =? 0 then Ok None
  else match settlement with
  | None => Err SETTLEMENT_REQUIRED
  | Some s =>
      if negb (bool_decide (se_type s ∈ allowedSettlements balance)) then Err SETTLEMENT_INVALID
      else if bool_decide (se_type s = record_payment) &&
              match se_amount s with Some a => balance <? a | None => false end
      then Err SETTLEMENT_INVALID
      else Ok (Some s)
  end.

(** A settlement is accepted exactly when it moves money the right way: a
    credit is refunded or left, an amount due is paid, recorded up to the balance
    or left, and a zero balance needs (and keeps) none. *)
Theorem settlement_direction balance settlement out :
  validateSettlement balance settlement = Ok out <->
  (balance = 0 /\ out = None) \/
  (exists s, settlement = Some s /\ out = Some s /\
     ((balance < 0 /\ (se_type s = refund_now \/ se_type s = leave_credit)) \/
      (0 < balance /\ (se_type s = send_pay_link \/ se_type s = leave_due \/
         (se_type s = record_payment /\ forall a, se_amount s = Some a -> a <= balance))))).
Proof.
  unfold validateSettlement, allowedSettlements.
  destruct (Z.eqb_spec balance 0) as [->|Hz]; [naive_solver lia|].
  destruct settlement as [[ty am]|]; [|naive_solver].
  destruct (Z.ltb_spec balance 0).
  - destruct ty; cbn; naive_solver lia.
  - rewrite (proj2 (Z.ltb_lt 0 balance)) by lia.
    destruct ty; cbn; try naive_solver lia.
    destruct am as [a|]; cbn; [|naive_solver lia].
    destruct (Z.ltb_spec balance a); cbn; [|naive_solver lia].
    split; [discriminate|]. intros [?|(s & [= <-] & _ & [[? [?|?]]|[_ [?|[?|[_ Hx]]]]])]; try discriminate; [lia|].
    specialize (Hx a eq_refl). lia.
Qed.
