(* ===== verification/Tender.v ===== *)
(** The money tables an order's balance is read from, and the reads themselves:
    [src/packages/api/src/payments/{tender,settle,edit-refund,hold}.ts],
    [orders/edit-stage.ts] and [import/source-compatibility.ts].

    A table is the list of its rows for one store (row-level security scopes
    every query to it), oldest first. [amountDueForOrder] is the one number
    gateways may charge: the grand total less usable tender plus what edits gave
    back. *)

From S2P Require Import Prelude JsNumber Json OrderState.
From Stdlib Require Import ZArith QArith Lia Bool String.
From stdpp Require Import base list strings.
Local Open Scope Z_scope.

(** ** Rows *)

Inductive RefundState := ref_Pending | ref_Settled | ref_Failed.
#[export] Instance RefundState_eq_dec : EqDecision RefundState.
Proof. solve_decision. Defined.

Record Payment := {
  py_id : string; py_orderId : string; py_amount : Z; py_gatewayAccount : option string; py_gatewayMode : option string;
  py_currency : option string; py_method : string; py_providerRef : option string; py_state : PaymentState;
  py_metadata : option json; py_errorMessage : option string
}.
Record Refund := {
  rf_id : string; rf_orderId : string; rf_paymentId : string; rf_amount : Z; rf_state : RefundState; rf_metadata : option json;
  rf_attemptId : option string; rf_reason : option string; rf_providerRef : option string;
  rf_itemsAmount : option Z; rf_shippingAmount : option Z; rf_adjustmentAmount : option Z
}.
Record OrderEditRow := { oe_id : string; oe_orderId : string; oe_settlement : option json }.
Record PaymentAttempt := { pa_id : string; pa_orderId : string; pa_operation : string; pa_status : string }.

Record MoneyTables := { mt_payments : list Payment; mt_refunds : list Refund; mt_edits : list OrderEditRow }.

(** ** Reading [jsonb] *)

Definition opt_field (k : string) (v : option json) : option json := v ≫= field k.

(** [v->>'k'] of a text value; the keys read this way only ever hold text or
    are absent, and the JSON text of any other value equals none of the
    constants it is compared with. *)
Definition text_field (k : string) (v : option json) : option string :=
  match opt_field k v with Some (JStr s) => Some s | _ => None end.

(** The texts Postgres casts to [boolean]: case, blanks around and endings do not
    matter. *)
Definition pg_boolean (s : string) : option bool :=
  let among := fun l => existsb (String.eqb (to_lower (trim s))) l in
  if among ["t"; "tr"; "tru"; "true"; "y"; "ye"; "yes"; "on"; "1"]%string then Some true
  else if among ["f"; "fa"; "fal"; "fals"; "false"; "n"; "no"; "of"; "off"; "0"]%string then Some false else None.
(** [(v->>'k')::boolean]; text that is no boolean makes the query fail and is
    not modelled (the only writer stores [true]). *)
Definition bool_field (k : string) (v : option json) : option bool :=
  match opt_field k v with
  | Some (JBool b) => Some b
  | Some (JStr s) => pg_boolean s
  | Some (JNum q) => if Qeq_bool q 1 then Some true else if Qeq_bool q 0 then Some false else None
  | _ => None
  end.

(** ** Usable tender *)

(** [usableTenderSql] *)
Definition usable_tender (p : Payment) : bool :=
  bool_decide (py_state p = pay_Settled) && negb (or_else (bool_field "duplicate" (py_metadata p)) false).

Definition EDIT_REFUND_SOURCE : string := "order_edit".
Definition isEditRefund (metadata : option json) : bool :=
  bool_decide (text_field "source" metadata = Some EDIT_REFUND_SOURCE).

(** [object(settlement) && [...].includes(String(settlement.phase))]: an array
    holding one of the names would read the same, but no writer stores one. *)
Definition pending_phases : list string := ["prepared"; "awaiting_refund"; "awaiting_tender"; "ready"; "failed"]%string.
Definition isPendingEditStage (settlement : option json) : bool :=
  match text_field "phase" settlement with Some p => existsb (String.eqb p) pending_phases | None => false end.

(** The [order_edit] row that issued the refund has not activated it yet. *)
Definition unactivated_edit_of (edits : list OrderEditRow) (r : Refund) : bool :=
  existsb (fun e => String.eqb (oe_orderId e) (rf_orderId r) &&
                    bool_decide (text_field "refundId" (oe_settlement e) = Some (rf_id r)) &&
                    match text_field "phase" (oe_settlement e) with Some p => negb (String.eqb p "activated") | None => false end) edits.

Definition counts_as_given_back (edits : list OrderEditRow) (orderId : string) (r : Refund) : bool :=
  String.eqb (rf_orderId r) orderId && negb (bool_decide (rf_state r = ref_Failed)) && isEditRefund (rf_metadata r) &&
  negb (unactivated_edit_of edits r).

Definition editRefundedTotal (t : MoneyTables) (orderId : string) : Z :=
  sumZ (map rf_amount (List.filter (counts_as_given_back (mt_edits t) orderId) (mt_refunds t))).

Definition settled_total (payments : list Payment) (orderId : string) : Z :=
  sumZ (map py_amount (List.filter (fun p => String.eqb (py_orderId p) orderId && usable_tender p) payments)).

Definition amountDueForOrder (t : MoneyTables) (orderId : string) (grandTotal : Z) : Z :=
  grandTotal - settled_total (mt_payments t) orderId + editRefundedTotal t orderId.

(** ** Fences *)

Definition importedFinancialReconciliationRequired (metadata : option json) : bool :=
  match opt_field "vendure" metadata with
  | Some (JObj fs) => match assoc_last "financialReconciliationV1" fs with Some _ => true | None => false end
  | _ => false
  end.

Inductive PendingEditError := ORDER_EDIT_PENDING.
Definition assertNoPendingOrderEdit (t : MoneyTables) (orderId : string) (allowEditId : option string)
    : result PendingEditError unit :=
  if existsb (fun e => String.eqb (oe_orderId e) orderId && negb (bool_decide (Some (oe_id e) = allowEditId)) &&
                       isPendingEditStage (oe_settlement e)) (mt_edits t)
  then Err ORDER_EDIT_PENDING else Ok tt.

Definition one_of (l : list string) (s : string) : bool := existsb (String.eqb s) l.

Definition hasUnresolvedPayment (attempts : list PaymentAttempt) (payments : list Payment) (orderId : string) : bool :=
  existsb (fun a => String.eqb (pa_orderId a) orderId && one_of ["processing"; "pending"; "unknown"]%string (pa_status a)) attempts ||
  existsb (fun p => String.eqb (py_orderId p) orderId && bool_decide (py_state p = pay_Pending \/ py_state p = pay_Authorized)) payments.

Definition hasConfirmableIntent (attempts : list PaymentAttempt) (orderId : string) : bool :=
  existsb (fun a => String.eqb (pa_orderId a) orderId && String.eqb (pa_operation a) "intent" &&
                    one_of ["open"; "failed"; "action_required"]%string (pa_status a)) attempts.

(** ** What moves the amount due *)

Definition add_payment (p : Payment) (t : MoneyTables) : MoneyTables :=
  {| mt_payments := mt_payments t ++ [p]; mt_refunds := mt_refunds t; mt_edits := mt_edits t |}.
Definition add_refund (r : Refund) (t : MoneyTables) : MoneyTables :=
  {| mt_payments := mt_payments t; mt_refunds := mt_refunds t ++ [r]; mt_edits := mt_edits t |}.

Lemma settled_total_snoc ps p o :
  settled_total (ps ++ [p]) o = settled_total ps o + (if String.eqb (py_orderId p) o && usable_tender p then py_amount p else 0).
Proof.
  unfold settled_total. rewrite List.filter_app, map_app, sumZ_app. cbn [List.filter].
  destruct (_ && _); cbn [map sumZ]; lia.
Qed.
#[export] Hint Rewrite settled_total_snoc : sellright.

(** The amount due on an order moves exactly with its money: a usable tender
    lowers it by its amount; an unsettled or duplicate capture leaves it alone;
    a refund leaves it alone unless an order edit issued it and that edit is in
    force, and then it raises it by the refunded amount unless the refund
    failed. Money of other orders never counts. *)
Theorem amount_due_moves t o total p r :
  let due t := amountDueForOrder t o total in
  due (add_payment p t) =
    due t - (if String.eqb (py_orderId p) o && bool_decide (py_state p = pay_Settled) &&
                negb (or_else (bool_field "duplicate" (py_metadata p)) false) then py_amount p else 0) /\
  due (add_refund r t) =
    due t + (if String.eqb (rf_orderId r) o && isEditRefund (rf_metadata r) && negb (bool_decide (rf_state r = ref_Failed)) &&
                negb (unactivated_edit_of (mt_edits t) r) then rf_amount r else 0).
Proof.
  cbn zeta. unfold amountDueForOrder. split.
  - cbn [add_payment mt_payments]. autorewrite with sellright. unfold usable_tender, editRefundedTotal. cbn. rewrite andb_assoc. lia.
  - unfold editRefundedTotal. cbn [add_refund mt_payments mt_refunds mt_edits].
    rewrite List.filter_app, map_app, sumZ_app. cbn [List.filter].
    unfold counts_as_given_back at 2.
    destruct (String.eqb (rf_orderId r) o), (bool_decide (rf_state r = ref_Failed)), (isEditRefund (rf_metadata r)),
      (unactivated_edit_of (mt_edits t) r); cbn [andb negb map sumZ]; lia.
Qed.
