(* ===== verification/Loyalty.v ===== *)
(** Loyalty points arithmetic: [src/packages/api/src/money/loyalty.ts].

    Program settings as the schema admits them, points earned and redeemed,
    the proportional target used by refunds, first-expiring-first lot accounting,
    and the bonus of product multipliers. Points and cents are integers; the
    divisions are the binary64 ones of [JsNumber]. *)

From S2P Require Import Prelude JsNumber Json.
From Stdlib Require Import ZArith QArith Qround Lia Bool String Ascii.
From stdpp Require Import base list strings sorting.
Local Open Scope Z_scope.

(** ** Program settings *)

Record ProductMultiplier := { pm_productId : string; pm_multiplier : Q }.

Record LoyaltySettings := {
  ls_enabled : bool; ls_earnRatePerDollar : Z; ls_pointsPerDollarOff : Z; ls_minRedeemPoints : Z;
  ls_maxRedeemPercentOfSubtotal : option Z; ls_expiryDays : option Z; ls_reviewBonusPoints : Z;
  ls_reviewBonusVerifiedOnly : bool; ls_signupBonusPoints : Z; ls_signupBonusSince : option string;
  ls_firstOrderBonusPoints : Z; ls_birthdayBonusPoints : Z; ls_productMultipliers : list ProductMultiplier
}.

Definition DEFAULT_LOYALTY_SETTINGS : LoyaltySettings :=
  {| ls_enabled := false; ls_earnRatePerDollar := 1; ls_pointsPerDollarOff := 10; ls_minRedeemPoints := 0;
     ls_maxRedeemPercentOfSubtotal := None; ls_expiryDays := None; ls_reviewBonusPoints := 25;
     ls_reviewBonusVerifiedOnly := true; ls_signupBonusPoints := 0; ls_signupBonusSince := None;
     ls_firstOrderBonusPoints := 0; ls_birthdayBonusPoints := 0; ls_productMultipliers := [] |}.

(** [z.number().int().min(lo).max(hi)] *)
Definition int_between (lo hi : Z) (v : json) : option Z :=
  match v with
  | JNum q => let r := Qred q in
      if (Zpos (Qden r) =? 1) && (lo <=? Qnum r) && (Qnum r <=? hi) then Some (Qnum r) else None
  | _ => None
  end.
(** [.nullable()] *)
Definition nullable {A} (p : json -> option A) (v : json) : option (option A) :=
  match v with JNull => Some None | _ => Some <$> p v end.
Definition zod_bool (v : json) : option bool := match v with JBool b => Some b | _ => None end.
Definition only_keys (keys : list string) (fs : list (string * json)) : bool :=
  forallb (fun '(k, _) => existsb (String.eqb k) keys) fs.

Definition ProductMultiplierSchema (v : json) : option ProductMultiplier :=
  match v with
  | JObj fs =>
      if negb (only_keys ["productId"; "multiplier"] fs) then None else
      match assoc_last "productId" fs, assoc_last "multiplier" fs with
      | Some (JStr id), Some (JNum m) =>
          if is_uuid id && Qle_bool 1 m && Qle_bool m 100 then Some {| pm_productId := id; pm_multiplier := m |} else None
      | _, _ => None
      end
  | _ => None
  end%string.

Definition settings_keys : list string :=
  ["enabled"; "earnRatePerDollar"; "pointsPerDollarOff"; "minRedeemPoints"; "maxRedeemPercentOfSubtotal"; "expiryDays";
   "reviewBonusPoints"; "reviewBonusVerifiedOnly"; "signupBonusPoints"; "signupBonusSince"; "firstOrderBonusPoints";
   "birthdayBonusPoints"; "productMultipliers"]%string.

Section Settings.
(** [z.string().datetime()] *)
Context (zod_datetime : string -> bool).

Definition datetime (v : json) : option string :=
  match v with JStr s => if zod_datetime s then Some s else None | _ => None end.

Definition multipliers_schema (v : json) : option (list ProductMultiplier) :=
  match v with
  | JArr l => if (200 <? Z.of_nat (length l)) then None else all_some (map ProductMultiplierSchema l)
  | _ => None
  end.

(** [LoyaltySettingsSchema.safeParse({ ...DEFAULT, ...raw })]: a key [raw]
    lacks takes the default's value, which is valid. *)
Definition parse_key {A} (fs : list (string * json)) (k : string) (p : json -> option A) (d : A) : option A :=
  match assoc_last k fs with Some v => p v | None => Some d end.

Definition parse_settings (fs : list (string * json)) : option LoyaltySettings :=
  let D := DEFAULT_LOYALTY_SETTINGS in
  if negb (only_keys settings_keys fs) then None else
  en ← parse_key fs "enabled" zod_bool (ls_enabled D);
  rate ← parse_key fs "earnRatePerDollar" (int_between 0 10000) (ls_earnRatePerDollar D);
  off ← parse_key fs "pointsPerDollarOff" (int_between 1 1000000) (ls_pointsPerDollarOff D);
  mn ← parse_key fs "minRedeemPoints" (int_between 0 100000000) (ls_minRedeemPoints D);
  pct ← parse_key fs "maxRedeemPercentOfSubtotal" (nullable (int_between 1 100)) (ls_maxRedeemPercentOfSubtotal D);
  days ← parse_key fs "expiryDays" (nullable (int_between 1 36500)) (ls_expiryDays D);
  review ← parse_key fs "reviewBonusPoints" (int_between 0 1000000) (ls_reviewBonusPoints D);
  verified ← parse_key fs "reviewBonusVerifiedOnly" zod_bool (ls_reviewBonusVerifiedOnly D);
  signup ← parse_key fs "signupBonusPoints" (int_between 0 1000000) (ls_signupBonusPoints D);
  since ← parse_key fs "signupBonusSince" (nullable datetime) (ls_signupBonusSince D);
  first ← parse_key fs "firstOrderBonusPoints" (int_between 0 1000000) (ls_firstOrderBonusPoints D);
  birthday ← parse_key fs "birthdayBonusPoints" (int_between 0 1000000) (ls_birthdayBonusPoints D);
  mult ← parse_key fs "productMultipliers" multipliers_schema (ls_productMultipliers D);
  Some {| ls_enabled := en; ls_earnRatePerDollar := rate; ls_pointsPerDollarOff := off; ls_minRedeemPoints := mn;
          ls_maxRedeemPercentOfSubtotal := pct; ls_expiryDays := days; ls_reviewBonusPoints := review;
          ls_reviewBonusVerifiedOnly := verified; ls_signupBonusPoints := signup; ls_signupBonusSince := since;
          ls_firstOrderBonusPoints := first; ls_birthdayBonusPoints := birthday; ls_productMultipliers := mult |}.

(** A spread array contributes only index keys, which the strict schema
    refuses (an empty one contributes nothing): both give the default. *)
Definition loyaltySettingsFromConfig (config : option json) : LoyaltySettings :=
  match config ≫= field "loyalty" with
  | Some (JObj fs) => or_else (parse_settings fs) DEFAULT_LOYALTY_SETTINGS
  | _ => DEFAULT_LOYALTY_SETTINGS
  end.

Definition opt_between (lo hi : Z) (o : option Z) : Prop := match o with Some z => lo <= z <= hi | None => True end.
Definition settings_valid (s : LoyaltySettings) : Prop :=
  0 <= ls_earnRatePerDollar s <= 10000 /\ 1 <= ls_pointsPerDollarOff s <= 1000000 /\
  0 <= ls_minRedeemPoints s <= 100000000 /\ opt_between 1 100 (ls_maxRedeemPercentOfSubtotal s) /\
  opt_between 1 36500 (ls_expiryDays s) /\ 0 <= ls_reviewBonusPoints s <= 1000000 /\
  0 <= ls_signupBonusPoints s <= 1000000 /\ 0 <= ls_firstOrderBonusPoints s <= 1000000 /\
  0 <= ls_birthdayBonusPoints s <= 1000000 /\
  Forall (fun m => (1 <= pm_multiplier m <= 100)%Q) (ls_productMultipliers s).

Lemma default_settings_valid : settings_valid DEFAULT_LOYALTY_SETTINGS.
Proof. unfold settings_valid. cbn. repeat split; try lia. constructor. Qed.

Lemma int_between_range lo hi v z : int_between lo hi v = Some z -> lo <= z <= hi.
Proof.
  destruct v; cbn; try discriminate. destruct (_ && _) eqn:E; [|discriminate]. intros [= <-].
  bool_props. lia.
Qed.

Lemma parse_key_range {A} (P : A -> Prop) fs k p d x :
  (forall v y, p v = Some y -> P y) -> P d -> parse_key fs k p d = Some x -> P x.
Proof. unfold parse_key. intros Hp Hd. destruct (assoc_last k fs); [by eauto|]. by intros [= <-]. Qed.

Lemma nullable_range lo hi v o : nullable (int_between lo hi) v = Some o -> opt_between lo hi o.
Proof.
  destruct v; cbn; try discriminate; [by intros [= <-]|].
  destruct (_ && _) eqn:E; cbn; [|discriminate]. intros [= <-]. bool_props. cbn. lia.
Qed.

Lemma multipliers_range v l :
  multipliers_schema v = Some l -> Forall (fun m => (1 <= pm_multiplier m <= 100)%Q) l.
Proof.
  destruct v as [| | | |js|]; cbn; try discriminate. destruct (200 <? _); [discriminate|].
  revert l. induction js as [|j js IH]; intros l; cbn; [by intros [= <-]|].
  destruct (ProductMultiplierSchema j) as [m|] eqn:E; [|discriminate].
  destruct (all_some _) as [ms|]; [|discriminate]. intros [= <-]. constructor; [|by apply IH].
  destruct j; cbn in E; try discriminate. destruct (negb _); [discriminate|].
  destruct (assoc_last "productId" fields) as [[]|], (assoc_last "multiplier" fields) as [[]|]; try discriminate.
  destruct (_ && _ && _) eqn:Eb; [|discriminate]. injection E as <-. cbn. bool_props.
  split; by apply Qle_bool_iff.
Qed.

Lemma parse_settings_valid fs s : parse_settings fs = Some s ->
  settings_valid s /\ only_keys settings_keys fs = true /\
  (ls_enabled s = true -> assoc_last "enabled" fs = Some (JBool true)).
Proof.
  unfold parse_settings. destruct (only_keys settings_keys fs); [|discriminate]. cbn [negb].
  repeat match goal with
    | |- ((?m ≫= _) = Some _ -> _) => let E := fresh "E" in destruct m eqn:E; cbn [mbind option_bind]; [|discriminate]
    end.
  intros [= <-].
  split; [|split; [done|]].
  - unfold settings_valid. cbn [ls_earnRatePerDollar ls_pointsPerDollarOff ls_minRedeemPoints
      ls_maxRedeemPercentOfSubtotal ls_expiryDays ls_reviewBonusPoints ls_signupBonusPoints
      ls_firstOrderBonusPoints ls_birthdayBonusPoints ls_productMultipliers].
    repeat split;
      try match goal with
        | H : parse_key _ _ (int_between _ _) _ = Some ?z |- _ <= ?z => eapply parse_key_range with (P := fun z => _ <= z) in H;
            [exact H|intros ? ? HH; apply int_between_range in HH; lia|cbn; lia]
        | H : parse_key _ _ (int_between _ _) _ = Some ?z |- ?z <= _ => eapply parse_key_range with (P := fun z => z <= _) in H;
            [exact H|intros ? ? HH; apply int_between_range in HH; lia|cbn; lia]
        | H : parse_key _ _ (nullable (int_between ?lo ?hi)) _ = Some ?z |- opt_between ?lo ?hi ?z =>
            eapply parse_key_range with (P := opt_between lo hi) in H;
            [exact H|intros; by eapply nullable_range|exact I]
        end.
    eapply parse_key_range in E11; [exact E11|apply multipliers_range|constructor].
  - cbn [ls_enabled]. intros ->. unfold parse_key in E.
    destruct (assoc_last "enabled" fs) as [[]|]; cbn in E; congruence.
Qed.

(** The program settings are always within the schema's ranges, whatever the
    stored configuration holds, and the program is enabled only when the
    configuration's own [enabled] flag is [true], no unknown key is present and
    every field is valid; otherwise the disabled default is used as a whole. *)
Theorem loyalty_settings_fail_closed config :
  let s := loyaltySettingsFromConfig config in
  settings_valid s /\
  (s = DEFAULT_LOYALTY_SETTINGS \/
   exists fs, config ≫= field "loyalty" = Some (JObj fs) /\ parse_settings fs = Some s) /\
  (ls_enabled s = true ->
   exists fs, config ≫= field "loyalty" = Some (JObj fs) /\ only_keys settings_keys fs = true /\
              assoc_last "enabled" fs = Some (JBool true)).
Proof.
  unfold loyaltySettingsFromConfig. cbn zeta.
  destruct (config ≫= field "loyalty") as [[| | | | |fs]|]; cbn [or_else];
    try (split; [exact default_settings_valid|split; [by left|discriminate]]).
  destruct (parse_settings fs) as [s|] eqn:E; cbn [or_else].
  - destruct (parse_settings_valid _ _ E) as (V & K & En). split; [done|]. split; [right; by exists fs|].
    intros He. exists fs. auto.
  - split; [exact default_settings_valid|split; [by left|discriminate]].
Qed.
End Settings.

(** ** Earning and redeeming *)

Definition pointsEarned (eligibleCents earnRatePerDollar : Z) : Z :=
  if negb (0 <? eligibleCents) || negb (0 <? earnRatePerDollar) then 0
  else js_floor (js_div (js_mul (jsn eligibleCents) (jsn earnRatePerDollar)) (jsn 100)).

Definition pointsToCents (points pointsPerDollarOff : Z) : Z :=
  if negb (0 <? points) || negb (0 <? pointsPerDollarOff) then 0
  else js_floor (js_div (js_mul (jsn points) (jsn 100)) (jsn pointsPerDollarOff)).

Definition centsToPoints (cents pointsPerDollarOff : Z) : Z :=
  if negb (0 <? cents) then 0
  else js_ceil (js_div (js_mul (jsn cents) (jsn pointsPerDollarOff)) (jsn 100)).

Inductive RedeemRejection := disabled | not_signed_in | below_minimum | insufficient_balance | nothing_to_discount.
Record RedeemInput := {
  ri_settings : LoyaltySettings; ri_requestedPoints : Q; ri_availablePoints : Z; ri_discountableCents : Q
}.
Record RedeemPlan := { rp_points : Z; rp_discountCents : Z }.

Definition redeem_cap (cfg : LoyaltySettings) (base : Z) : Z :=
  match ls_maxRedeemPercentOfSubtotal cfg with
  | None => base
  | Some pct => js_floor (js_div (js_mul (jsn base) (jsn pct)) (jsn 100))
  end.

Definition planRedemption (input : RedeemInput) : result RedeemRejection RedeemPlan :=
  let cfg := ri_settings input in
  if negb (ls_enabled cfg) then Err disabled else
  let requested := js_floor (ri_requestedPoints input) in
  if negb (0 <? requested) then Err below_minimum else
  if Z.max 0 (ri_availablePoints input) <? requested then Err insufficient_balance else
  if requested <? ls_minRedeemPoints cfg then Err below_minimum else
  let base := Z.max 0 (js_floor (ri_discountableCents input)) in
  let cap := redeem_cap cfg base in
  let discountCents := Z.min (pointsToCents requested (ls_pointsPerDollarOff cfg)) cap in
  if discountCents <=? 0 then Err nothing_to_discount else
  let points := Z.min requested (centsToPoints discountCents (ls_pointsPerDollarOff cfg)) in
  if points <? ls_minRedeemPoints cfg then Err below_minimum else
  Ok {| rp_points := points; rp_discountCents := discountCents |}.

Definition proportionalTarget (total num den : Z) : Z :=
  if negb (0 <? total) || negb (0 <? den) || negb (0 <? num) then 0
  else if den <=? num then total
  else js_round (js_div (js_mul (jsn total) (jsn num)) (jsn den)).

Lemma pointsEarned_exact c r : c * r < 2 ^ 52 -> pointsEarned c r = Z.max 0 c * Z.max 0 r / 100.
Proof.
  intros H. unfold pointsEarned. destruct (Z.ltb_spec 0 c), (Z.ltb_spec 0 r); cbn -[Z.pow Z.mul Z.div].
  - rewrite js_floor_mul_div by (try lia; rewrite Z.abs_eq by nia; lia). f_equal. lia.
  - replace (Z.max 0 r) with 0 by lia. rewrite Z.mul_0_r. done.
  - replace (Z.max 0 c) with 0 by lia. done.
  - replace (Z.max 0 c) with 0 by lia. done.
Qed.

Lemma pointsToCents_exact p r : 0 < p -> 0 < r -> p * 100 < 2 ^ 52 -> pointsToCents p r = p * 100 / r.
Proof.
  intros Hp Hr H. unfold pointsToCents. rewrite !(proj2 (Z.ltb_lt 0 _)) by lia. cbn -[Z.pow Z.mul Z.div].
  apply js_floor_mul_div; [lia|]. rewrite Z.abs_eq; lia.
Qed.

Lemma centsToPoints_exact c r : 0 < c -> 0 <= r -> c * r < 2 ^ 52 -> centsToPoints c r = - (- (c * r) / 100).
Proof.
  intros Hp Hr H. unfold centsToPoints. rewrite (proj2 (Z.ltb_lt 0 _)) by lia. cbn -[Z.pow Z.mul Z.div].
  apply js_ceil_mul_div; [lia|]. rewrite Z.abs_eq; nia.
Qed.

(** [centsToPoints] is the least number of points that buys the cents. *)
Lemma points_cover_cents c p r : 0 < c -> 0 < r -> - (- (c * r) / 100) <= p <-> c <= p * 100 / r.
Proof.
  intros Hc Hr.
  pose proof (Z.div_mod (- (c * r)) 100 ltac:(lia)). pose proof (Z.mod_pos_bound (- (c * r)) 100 ltac:(lia)).
  split; intros Hle.
  - apply Z.div_le_lower_bound; lia.
  - pose proof (Z.div_mod (p * 100) r ltac:(lia)). pose proof (Z.mod_pos_bound (p * 100) r ltac:(lia)). nia.
Qed.

(** Amounts whose products stay exact in binary64. *)
Definition redeem_range (input : RedeemInput) : Prop :=
  js_floor (ri_requestedPoints input) < 2 ^ 45 /\ js_floor (ri_discountableCents input) < 2 ^ 32.

(** A redemption plan never spends more than the shopper asked for or has,
    never discounts more than the (capped) merchandise, and charges exactly the
    least number of points that buys the discount it grants; the discount is the
    largest the request and the cap allow. *)
Theorem redemption_plan_sound input plan :
  settings_valid (ri_settings input) -> redeem_range input -> planRedemption input = Ok plan ->
  let cfg := ri_settings input in
  let requested := js_floor (ri_requestedPoints input) in
  let base := Z.max 0 (js_floor (ri_discountableCents input)) in
  let cap := base * or_else (ls_maxRedeemPercentOfSubtotal cfg) 100 / 100 in
  0 < rp_discountCents plan /\
  rp_discountCents plan = Z.min (requested * 100 / ls_pointsPerDollarOff cfg) cap /\
  ls_minRedeemPoints cfg <= rp_points plan <= requested /\ requested <= ri_availablePoints input /\
  rp_discountCents plan <= base /\
  (forall p, rp_points plan <= p <-> rp_discountCents plan <= p * 100 / ls_pointsPerDollarOff cfg).
Proof.
  intros (_ & Hoff & Hmin & Hpct & _) [R1 R2] H. cbn zeta. unfold planRedemption in H.
  set (cfg := ri_settings input) in *. set (req := js_floor (ri_requestedPoints input)) in *.
  set (base := Z.max 0 (js_floor (ri_discountableCents input))) in *.
  assert (Hcap : redeem_cap cfg base = base * or_else (ls_maxRedeemPercentOfSubtotal cfg) 100 / 100).
  { unfold redeem_cap. destruct (ls_maxRedeemPercentOfSubtotal cfg) as [pct|]; cbn [or_else] in *; cbn in Hpct.
    - apply js_floor_mul_div; [lia|]. rewrite Z.abs_eq; nia.
    - by rewrite Z.div_mul. }
  rewrite Hcap in H. set (cap := base * or_else (ls_maxRedeemPercentOfSubtotal cfg) 100 / 100) in *.
  assert (Hcb : cap <= base).
  { unfold cap. apply Z.div_le_upper_bound; [lia|].
    destruct (ls_maxRedeemPercentOfSubtotal cfg); cbn in *; nia. }
  destruct (ls_enabled cfg); cbn [negb] in H; [|discriminate].
  destruct (Z.ltb_spec 0 req) as [Hr|]; cbn [negb] in H; [|discriminate].
  destruct (Z.ltb_spec (Z.max 0 (ri_availablePoints input)) req) as [|Ha]; [discriminate|].
  destruct (req <? _); [discriminate|].
  rewrite pointsToCents_exact in H by lia.
  set (d := Z.min (req * 100 / ls_pointsPerDollarOff cfg) cap) in *.
  destruct (Z.leb_spec d 0) as [|Hd]; [discriminate|].
  rewrite centsToPoints_exact in H by (lia || nia).
  pose proof (points_cover_cents d req (ls_pointsPerDollarOff cfg) Hd ltac:(lia)) as Hcov.
  rewrite Z.min_r in H by (apply Hcov; lia).
  destruct (Z.ltb_spec (- (- (d * ls_pointsPerDollarOff cfg) / 100)) (ls_minRedeemPoints cfg)) as [|Hm]; [discriminate|].
  injection H as <-. cbn [rp_points rp_discountCents].
  split; [lia|]. split; [done|]. split; [split; [lia|apply Hcov; lia]|]. split; [lia|]. split; [lia|].
  intros p. apply points_cover_cents; lia.
Qed.

Definition sample_settings : LoyaltySettings :=
  {| ls_enabled := true; ls_earnRatePerDollar := 2; ls_pointsPerDollarOff := 30; ls_minRedeemPoints := 10;
     ls_maxRedeemPercentOfSubtotal := Some 50; ls_expiryDays := Some 365; ls_reviewBonusPoints := 25;
     ls_reviewBonusVerifiedOnly := true; ls_signupBonusPoints := 0; ls_signupBonusSince := None;
     ls_firstOrderBonusPoints := 0; ls_birthdayBonusPoints := 0; ls_productMultipliers := [] |}.
Definition sample_redeem : RedeemInput :=
  {| ri_settings := sample_settings; ri_requestedPoints := 500; ri_availablePoints := 700; ri_discountableCents := 1001 |}.

Lemma redemption_plan_sound_witness :
  planRedemption sample_redeem = Ok {| rp_points := 150; rp_discountCents := 500 |} /\ 0 < 500.
Proof.
  assert (E : planRedemption sample_redeem = Ok {| rp_points := 150; rp_discountCents := 500 |}) by (vm_compute; reflexivity).
  split; [exact E|].
  refine (proj1 (redemption_plan_sound sample_redeem {| rp_points := 150; rp_discountCents := 500 |} _ _ E)).
  - unfold settings_valid. cbn. repeat split; try lia. constructor.
  - split; vm_compute; reflexivity.
Defined.

(** The share of points reversed by a refund is zero before any money moves,
    grows with the refunded amount, never exceeds the total, is within half a
    point of exact proportion, and is the whole total once everything is
    refunded. *)
Theorem proportional_target_spec total num den :
  0 <= total -> 0 < den -> total * den < 2 ^ 52 ->
  (num <= 0 -> proportionalTarget total num den = 0) /\
  (den <= num -> proportionalTarget total num den = total) /\
  0 <= proportionalTarget total num den <= total /\
  (0 <= num <= den -> 2 * Z.abs (proportionalTarget total num den * den - total * num) <= den) /\
  (forall num', num <= num' -> proportionalTarget total num den <= proportionalTarget total num' den).
Proof.
  intros Ht Hd Hr.
  assert (E : forall n, proportionalTarget total n den = round_half_up (total * Z.max 0 (Z.min n den)) den).
  { intros n. unfold proportionalTarget. rewrite (proj2 (Z.ltb_lt 0 den)) by lia.
    destruct (Z.ltb_spec 0 total); cbn [negb orb].
    2: { replace total with 0 by lia. rewrite Z.mul_0_l. symmetry. apply (round_half_up_mul 0 den Hd). }
    destruct (Z.ltb_spec 0 n); cbn [negb].
    2: { replace (Z.max 0 (Z.min n den)) with 0 by lia. rewrite Z.mul_0_r. symmetry. apply (round_half_up_mul 0 den Hd). }
    destruct (Z.leb_spec den n).
    - replace (Z.max 0 (Z.min n den)) with den by lia. by rewrite round_half_up_mul.
    - rewrite js_round_mul_div by (try lia; rewrite Z.abs_eq; nia). do 2 f_equal. lia. }
  assert (M : forall n n', n <= n' -> proportionalTarget total n den <= proportionalTarget total n' den).
  { intros n n' Hn. rewrite !E. apply round_half_up_mono; [lia|]. nia. }
  assert (Z0 : forall n, n <= 0 -> proportionalTarget total n den = 0).
  { intros n Hn. rewrite E. replace (Z.max 0 (Z.min n den)) with 0 by lia. rewrite Z.mul_0_r. apply (round_half_up_mul 0 den Hd). }
  assert (Zd : forall n, den <= n -> proportionalTarget total n den = total).
  { intros n Hn. rewrite E. replace (Z.max 0 (Z.min n den)) with den by lia. by apply round_half_up_mul. }
  split; [apply Z0|]. split; [apply Zd|]. split.
  { pose proof (M (Z.min num 0) num ltac:(lia)). pose proof (M num (Z.max num den) ltac:(lia)).
    rewrite (Z0 (Z.min num 0)) in * by lia. rewrite (Zd (Z.max num den)) in * by lia. lia. }
  split; [|by apply M].
  intros Hn. rewrite E. replace (Z.max 0 (Z.min num den)) with num by lia.
  pose proof (round_half_up_bounds (total * num) den Hd). lia.
Qed.

Lemma proportional_target_spec_witness :
  proportionalTarget 100 333 1000 = 33 /\ proportionalTarget 100 1000 1000 = 100.
Proof.
  split; [vm_compute; reflexivity|].
  exact (proj1 (proj2 (proportional_target_spec 100 1000 1000 ltac:(lia) ltac:(lia) ltac:(lia))) ltac:(lia)).
Defined.

(** ** First-expiring-first lot accounting *)

Inductive LoyaltyLedgerKind := k_earn | k_redeem | k_reverse | k_adjust | k_expire | k_import | k_bonus.
#[export] Instance LoyaltyLedgerKind_eq_dec : EqDecision LoyaltyLedgerKind.
Proof. solve_decision. Defined.

(** Times are milliseconds ([Date.getTime()]). *)
Record LedgerEntryLike := { le_kind : LoyaltyLedgerKind; le_points : Z; le_expiresAt : option Z; le_createdAt : Z }.
Record Lot := { lot_remaining : Z; lot_expiresAt : option Z }.
#[export] Instance Lot_eq_dec : EqDecision Lot.
Proof. solve_decision. Defined.

(** [(a.expiresAt ?? Infinity) - (b.expiresAt ?? Infinity) > 0]; the
    difference of two infinities is [NaN], which sorts as equal. *)
Definition expires_after (a b : Lot) : bool :=
  match lot_expiresAt a, lot_expiresAt b with
  | Some x, Some y => y <? x
  | None, Some _ => true
  | _, None => false
  end.
Definition expired_at (t : Z) (l : Lot) : bool := match lot_expiresAt l with Some e => e <=? t | None => false end.

(** The lots are shared, mutable objects: a pass lists their positions. *)
Definition pick (pred : Lot -> bool) (lots : list Lot) : list nat :=
  map fst (sort_stable (fun a b => expires_after (snd a) (snd b))
    (List.filter (fun p => (0 <? lot_remaining (snd p)) && pred (snd p)) (imap pair lots))).

Definition take_from (lots : list Lot) (i : nat) (left : Z) : list Lot * Z :=
  match lots !! i with
  | Some l => let take := Z.min (lot_remaining l) left in
              (<[i := {| lot_remaining := lot_remaining l - take; lot_expiresAt := lot_expiresAt l |}]> lots, left - take)
  | None => (lots, left)
  end.

(** The inner loop, which returns as soon as nothing is left to take. *)
Fixpoint drain (ids : list nat) (lots : list Lot) (left : Z) : list Lot * Z :=
  match ids with
  | [] => (lots, left)
  | i :: rest => if left <=? 0 then (lots, left) else let '(lots', left') := take_from lots i left in drain rest lots' left'
  end.

(** Both passes are computed before either runs. *)
Definition consume (lots : list Lot) (amount at_ : Z) (expiredOnly : bool) : list Lot :=
  let passes := if expiredOnly then [pick (expired_at at_) lots]
                else [pick (fun l => negb (expired_at at_ l)) lots; pick (fun _ => true) lots] in
  fst (drain (concat passes) lots amount).

Definition post_entry (lots : list Lot) (e : LedgerEntryLike) : list Lot :=
  if 0 <? le_points e then lots ++ [{| lot_remaining := le_points e; lot_expiresAt := le_expiresAt e |}]
  else if le_points e <? 0 then consume lots (- le_points e) (le_createdAt e) (bool_decide (le_kind e = k_expire))
  else lots.

Definition lots_of (entries : list LedgerEntryLike) : list Lot := fold_left post_entry entries [].

Definition expired_total (now : Z) (lots : list Lot) : Z :=
  sumZ (map (fun l => if expired_at now l then lot_remaining l else 0) lots).
Definition unpostedExpiredPoints (entries : list LedgerEntryLike) (now : Z) : Z := expired_total now (lots_of entries).

(** *** What draining does *)

Definition lots_nonneg (lots : list Lot) : Prop := Forall (fun l => 0 <= lot_remaining l) lots.
(** [ls'] is [ls] with some points taken: same expiries, no lot grows. *)
Definition drained (ls ls' : list Lot) : Prop :=
  Forall2 (fun l l' => lot_expiresAt l' = lot_expiresAt l /\ 0 <= lot_remaining l' <= lot_remaining l) ls ls'.

Lemma drained_refl ls : lots_nonneg ls -> drained ls ls.
Proof. induction 1; constructor; auto. repeat split; lia. Qed.
Lemma drained_trans l1 l2 l3 : drained l1 l2 -> drained l2 l3 -> drained l1 l3.
Proof.
  intros H. revert l3. induction H as [|a b l1 l2 [E1 R1] _ IH]; intros l3 H3; inversion H3 as [|? c ? ? [E2 R2]]; subst; constructor.
  - split; [congruence|lia].
  - by apply IH.
Qed.
Lemma drained_nonneg ls ls' : drained ls ls' -> lots_nonneg ls'.
Proof. induction 1 as [|a b l1 l2 [_ ?] _ IH]; constructor; [lia|done]. Qed.

(** The points removed from lots that satisfy an expiry predicate. *)
Definition total_where (p : option Z -> bool) (ls : list Lot) : Z :=
  sumZ (map (fun l => if p (lot_expiresAt l) then lot_remaining l else 0) ls).

Lemma total_where_insert p ls i l r :
  ls !! i = Some l ->
  total_where p (<[i := {| lot_remaining := r; lot_expiresAt := lot_expiresAt l |}]> ls) =
  total_where p ls + (if p (lot_expiresAt l) then r - lot_remaining l else 0).
Proof.
  revert i. induction ls as [|x xs IH]; intros [|i] H; cbn in H; try discriminate.
  - injection H as ->. unfold total_where. cbn. destruct (p _); lia.
  - unfold total_where in *. cbn. rewrite IH by done. lia.
Qed.

Lemma take_from_spec ls i left ls' left' :
  lots_nonneg ls -> 0 <= left -> take_from ls i left = (ls', left') ->
  drained ls ls' /\ 0 <= left' <= left /\ (forall j, j <> i -> ls' !! j = ls !! j) /\
  (0 < left' -> forall l, ls' !! i = Some l -> lot_remaining l = 0) /\
  (forall p l, ls !! i = Some l -> p (lot_expiresAt l) = true -> total_where p ls - total_where p ls' = left - left').
Proof.
  intros Hn Hl H. unfold take_from in H. destruct (ls !! i) as [l|] eqn:E; injection H as <- <-.
  2: { split; [by apply drained_refl|]. split; [lia|]. split; [done|]. split; [intros; congruence|]. intros ? ? [=]. }
  assert (Hr : 0 <= lot_remaining l) by (unfold lots_nonneg in Hn; rewrite Forall_lookup in Hn; eauto).
  split.
  { unfold drained. rewrite Forall2_same_length_lookup. split; [by rewrite length_insert|].
    intros j x y Hx Hy. destruct (decide (j = i)) as [->|Hj].
    - rewrite list_lookup_insert_eq in Hy by (by eapply lookup_lt_Some). injection Hy as <-. cbn.
      assert (x = l) as -> by congruence. split; [done|lia].
    - rewrite list_lookup_insert_ne in Hy by done. assert (y = x) as -> by congruence. split; [done|].
      unfold lots_nonneg in Hn. rewrite Forall_lookup in Hn. specialize (Hn _ _ Hx). lia. }
  split; [lia|]. split; [intros j Hj; by rewrite list_lookup_insert_ne|]. split.
  - intros Hp y Hy. rewrite list_lookup_insert_eq in Hy by (by eapply lookup_lt_Some). injection Hy as <-. cbn. lia.
  - intros p x [= <-] Hp. rewrite total_where_insert by done. rewrite Hp. lia.
Qed.

Lemma drain_spec ids : forall ls left ls' left',
  lots_nonneg ls -> 0 <= left -> drain ids ls left = (ls', left') ->
  drained ls ls' /\ 0 <= left' <= left /\ (forall j, j ∉ ids -> ls' !! j = ls !! j) /\
  (0 < left' -> forall i l, i ∈ ids -> ls' !! i = Some l -> lot_remaining l = 0) /\
  (forall p, (forall i, i ∈ ids -> exists l, ls !! i = Some l /\ p (lot_expiresAt l) = true) ->
             total_where p ls - total_where p ls' = left - left').
Proof.
  induction ids as [|i ids IH]; intros ls left ls' left' Hn Hl H; cbn in H.
  - injection H as <- <-. split; [by apply drained_refl|]. split; [lia|]. split; [done|].
    split; [intros _ i l Hi; inversion Hi|]. intros; lia.
  - destruct (Z.leb_spec left 0) as [Hz|Hz].
    { injection H as <- <-. split; [by apply drained_refl|]. split; [lia|]. split; [done|]. split; [lia|]. intros; lia. }
    destruct (take_from ls i left) as [ls1 left1] eqn:E.
    destruct (take_from_spec _ _ _ _ _ Hn Hl E) as (D1 & L1 & K1 & Z1 & T1).
    destruct (IH _ _ _ _ (drained_nonneg _ _ D1) (proj1 L1) H) as (D2 & L2 & K2 & Z2 & T2).
    split; [by eapply drained_trans|]. split; [lia|]. split; [|split].
    + intros j Hj. apply not_elem_of_cons in Hj as [Hj1 Hj2]. rewrite K2 by done. by apply K1.
    + intros Hp j l Hj Hlk. apply elem_of_cons in Hj as [->|Hj]; [|by eapply Z2].
      destruct (Forall2_lookup_r _ _ _ _ _ D2 Hlk) as (l1 & H1 & _ & Hle).
      rewrite (Z1 ltac:(lia) l1 H1) in Hle. lia.
    + intros p Hin. destruct (Hin i ltac:(by left)) as (l & Hl0 & Hp0).
      rewrite <- (Z.sub_add (total_where p ls1) (total_where p ls)), (T1 p l Hl0 Hp0).
      assert (T : total_where p ls1 - total_where p ls' = left1 - left').
      { apply T2. intros k Hk. destruct (Hin k ltac:(by right)) as (lk & Hk1 & Hk2).
        destruct (Forall2_lookup_l _ _ _ _ _ D1 Hk1) as (lk' & Hk3 & He & _).
        exists lk'. split; [done|]. by rewrite He. }
      lia.
Qed.

Lemma drain_app a b ls left :
  drain (a ++ b) ls left = let '(ls', left') := drain a ls left in drain b ls' left'.
Proof.
  revert ls left. induction a as [|i a IH]; intros ls left; cbn; [by destruct (drain b ls left)|].
  destruct (Z.leb_spec left 0) as [H|H].
  - destruct b as [|j b]; cbn; [done|]. destruct (Z.leb_spec left 0); [done|lia].
  - destruct (take_from ls i left) as [ls1 left1]. apply IH.
Qed.

(** *** The order of a pass *)

Lemma elem_of_pick pred lots i :
  i ∈ pick pred lots <-> exists l, lots !! i = Some l /\ 0 < lot_remaining l /\ pred l = true.
Proof.
  unfold pick. rewrite list_elem_of_In, in_map_iff. split.
  - intros ([j l] & Hf & Hin). cbn in Hf. subst j.
    apply list_elem_of_In in Hin. rewrite sort_stable_perm, list_elem_of_In, filter_In in Hin.
    destruct Hin as [Hin Hp]. cbn in Hp. bool_props. apply list_elem_of_In, list_elem_of_lookup in Hin as [k Hk].
    rewrite list_lookup_imap in Hk. destruct (lots !! k) as [l'|] eqn:E; cbn in Hk; [|discriminate].
    injection Hk as -> ->. eauto.
  - intros (l & Hl & Hr & Hp). exists (i, l). split; [done|].
    apply list_elem_of_In. rewrite sort_stable_perm, list_elem_of_In, filter_In. split.
    + apply list_elem_of_In, list_elem_of_lookup. exists i. by rewrite list_lookup_imap, Hl.
    + cbn. rewrite Hp, (proj2 (Z.ltb_lt 0 _)) by lia. done.
Qed.

Lemma expires_after_asym a b : expires_after a b = true -> expires_after b a = false.
Proof. unfold expires_after. destruct (lot_expiresAt a), (lot_expiresAt b); intros; bool_props; try done. lia. Qed.
Lemma expires_after_cotrans a b c :
  expires_after a c = true -> expires_after a b = true \/ expires_after b c = true.
Proof.
  unfold expires_after. destruct (lot_expiresAt a), (lot_expiresAt b), (lot_expiresAt c); intros; bool_props; try auto; try done.
  rewrite !Z.ltb_lt. lia.
Qed.

Lemma StronglySorted_app_between {A} (R : A -> A -> Prop) l x y :
  StronglySorted R l -> x ∈ l -> y ∈ l -> ~ R y x -> x <> y -> exists a b, l = a ++ x :: b /\ y ∈ b.
Proof.
  intros Hs Hx Hy Hn Hne. apply list_elem_of_split in Hx as (a & b & ->). exists a, b. split; [done|].
  apply elem_of_app in Hy as [Hy|Hy].
  - exfalso. apply Hn. clear Hn. induction a as [|z a IH]; [inversion Hy|]. inversion Hs as [|? ? Hs' Hz]; subst.
    apply elem_of_cons in Hy as [->|Hy].
    + rewrite Forall_forall in Hz. apply Hz, elem_of_app. right. by left.
    + by apply IH.
  - apply elem_of_cons in Hy as [->|Hy]; [done|by apply elem_of_nil in Hy || exact Hy].
Qed.

(** Of two lots of a pass, the sooner-expiring one comes first. *)
Lemma pick_order pred lots i j li lj :
  i ∈ pick pred lots -> j ∈ pick pred lots -> lots !! i = Some li -> lots !! j = Some lj ->
  expires_after lj li = true -> exists a b, pick pred lots = a ++ i :: b /\ j ∈ b.
Proof.
  unfold pick. intros Hi Hj Eli Elj He.
  set (L := List.filter _ (imap pair lots)) in *.
  pose proof (sort_stable_sorted (fun a b : nat * Lot => expires_after (snd a) (snd b))
    ltac:(intros; by apply expires_after_asym) ltac:(intros; by apply expires_after_cotrans) L) as S.
  assert (HL : forall k l, (k, l) ∈ L -> lots !! k = Some l).
  { intros k l Hk. unfold L in Hk. apply list_elem_of_In, filter_In in Hk as [Hk _].
    apply list_elem_of_In, list_elem_of_lookup in Hk as [m Hm]. rewrite list_lookup_imap in Hm.
    destruct (lots !! m) eqn:E; cbn in Hm; [|discriminate]. by injection Hm as -> ->. }
  assert (Hmem : forall k, k ∈ map fst (sort_stable (fun a b => expires_after (snd a) (snd b)) L) ->
            forall l, lots !! k = Some l -> (k, l) ∈ sort_stable (fun a b => expires_after (snd a) (snd b)) L).
  { intros k Hk l Hl. apply list_elem_of_In, in_map_iff in Hk as ([k' l'] & Hf & Hin). cbn in Hf. subst k'.
    apply list_elem_of_In in Hin. assert (Hin' := Hin). rewrite sort_stable_perm in Hin'. apply HL in Hin'. by simplify_eq. }
  destruct (StronglySorted_app_between _ _ (i, li) (j, lj) S (Hmem i Hi li Eli) (Hmem j Hj lj Elj)) as (a & b & Hab & Hb).
  - cbn. congruence.
  - intros [= -> ->]. by rewrite (expires_after_asym _ _ He) in He.
  - exists (map fst a), (map fst b). rewrite Hab, map_app. split; [done|].
    apply list_elem_of_In, in_map_iff. exists (j, lj). split; [done|]. by apply list_elem_of_In.
Qed.

Lemma NoDup_pick pred lots : NoDup (pick pred lots).
Proof.
  unfold pick. assert (HP : forall l l' : list (nat * Lot), l ≡ₚ l' -> NoDup (map fst l') -> NoDup (map fst l)).
  { intros l l' H1 H2. rewrite H1. done. }
  eapply HP; [apply sort_stable_perm|]. clear HP.
  assert (G : forall k ls, NoDup (map fst (List.filter (fun p : nat * Lot => (0 <? lot_remaining (snd p)) && pred (snd p))
                (imap (fun i l => ((k + i)%nat, l)) ls))) /\
              forall x, x ∈ map fst (List.filter (fun p : nat * Lot => (0 <? lot_remaining (snd p)) && pred (snd p))
                (imap (fun i l => ((k + i)%nat, l)) ls)) -> (k <= x)%nat).
  { intros k ls. revert k. induction ls as [|l ls IH]; intros k; cbn; [split; [constructor|intros x Hx; inversion Hx]|].
    rewrite (imap_ext _ (fun i l => ((S k + i)%nat, l))) by (intros; cbn; f_equal; lia).
    destruct (IH (S k)) as [I1 I2]. cbn. destruct (_ && _); cbn.
    - split.
      + constructor; [|done]. intros Hc. apply I2 in Hc. lia.
      + intros x Hx. apply elem_of_cons in Hx as [->|Hx]; [lia|]. apply I2 in Hx. lia.
    - split; [done|]. intros x Hx. apply I2 in Hx. lia. }
  apply (G 0%nat).
Qed.

Lemma drain_in_order a i b j ls left ls' left' l :
  lots_nonneg ls -> 0 <= left -> NoDup (a ++ i :: b) -> j ∈ b ->
  drain (a ++ i :: b) ls left = (ls', left') -> ls' !! j <> ls !! j ->
  ls' !! i = Some l -> lot_remaining l = 0.
Proof.
  intros Hn Hl Hd Hj H Hch Hi. change (a ++ i :: b) with (a ++ [i] ++ b) in *. rewrite app_assoc in *.
  rewrite drain_app in H. destruct (drain (a ++ [i]) ls left) as [ls1 left1] eqn:E.
  destruct (drain_spec _ _ _ _ _ Hn Hl E) as (D1 & L1 & K1 & Z1 & _).
  destruct (drain_spec _ _ _ _ _ (drained_nonneg _ _ D1) (proj1 L1) H) as (D2 & _ & _ & _ & _).
  assert (Hj1 : j ∉ a ++ [i]) by (intros C; apply NoDup_app in Hd as (_ & Hx & _); exact (Hx j C Hj)).
  destruct (Z.eq_dec left1 0) as [->|Hp].
  - exfalso. apply Hch. rewrite <- (K1 j Hj1). destruct b; cbn in H; by injection H as <- <-.
  - destruct (Forall2_lookup_r _ _ _ _ _ D2 Hi) as (l1 & H1 & _ & Hle).
    rewrite (Z1 ltac:(lia) i l1 ltac:(apply elem_of_app; right; by left) H1) in Hle. lia.
Qed.

Lemma consume_nonneg lots amount t eo : lots_nonneg lots -> 0 <= amount -> drained lots (consume lots amount t eo).
Proof.
  intros Hn Ha. unfold consume. destruct (drain _ lots amount) as [ls' left'] eqn:E. cbn.
  by destruct (drain_spec _ _ _ _ _ Hn Ha E) as (D & _).
Qed.

(** A spend takes points from the lots in order of expiry: a lot is touched
    only once every still-valid lot that expires sooner is empty, and an expired
    or lost lot only once every valid lot is empty. No lot grows, and the expiry
    dates never change. *)
Theorem spend_consumes_first_expiring lots amount t i j li li' lj :
  lots_nonneg lots -> 0 <= amount ->
  let lots' := consume lots amount t false in
  lots !! i = Some li -> expired_at t li = false -> lots' !! i = Some li' ->
  lots !! j = Some lj -> lots' !! j <> Some lj ->
  expired_at t lj = true \/ expires_after lj li = true ->
  lot_remaining li' = 0.
Proof.
  intros Hn Ha lots' Ei Hv Ei' Ej Hch Hor. subst lots'. unfold consume in *. cbn [concat] in *. rewrite app_nil_r in *.
  set (A := pick (fun l => negb (expired_at t l)) lots) in *. set (B := pick (fun _ => true) lots) in *.
  rewrite drain_app in *. destruct (drain A lots amount) as [ls1 left1] eqn:EA.
  destruct (drain_spec _ _ _ _ _ Hn Ha EA) as (D1 & L1 & K1 & Z1 & _).
  destruct (drain B ls1 left1) as [ls2 left2] eqn:EB. cbn [fst] in *.
  destruct (drain_spec _ _ _ _ _ (drained_nonneg _ _ D1) (proj1 L1) EB) as (D2 & _).
  destruct (Forall2_lookup_r _ _ _ _ _ D2 Ei') as (l1 & H1 & _ & Hle).
  destruct (Forall2_lookup_r _ _ _ _ _ D1 H1) as (l0 & H0 & _ & Hle0). simplify_eq.
  destruct (Z.eq_dec (lot_remaining li) 0) as [Hz0|Hz0]; [lia|].
  assert (HiA : i ∈ A). { apply elem_of_pick. exists li. split; [done|]. split; [lia|]. by rewrite Hv. }
  assert (Hdone : ls1 !! j = Some lj -> 0 < left1).
  { intros Hj. destruct (Z.eq_dec left1 0) as [->|]; [|lia]. exfalso. apply Hch. rewrite <- Hj.
    destruct B; cbn in EB; by injection EB as <- <-. }
  destruct (decide (ls1 !! j = Some lj)) as [Hj|Hj].
  - rewrite (Z1 (Hdone Hj) i l1 HiA H1) in Hle. lia.
  - assert (HjA : j ∈ A). { destruct (decide (j ∈ A)) as [|C]; [done|]. exfalso. apply Hj. by rewrite (K1 j C). }
    destruct Hor as [Hor|Hor].
    { apply elem_of_pick in HjA as (? & ? & _ & Hx). simplify_eq. by rewrite Hor in Hx. }
    destruct (pick_order _ lots i j li lj HiA HjA Ei Ej Hor) as (a & b & Hab & Hb).
    fold A in Hab. pose proof (NoDup_pick (fun l => negb (expired_at t l)) lots) as ND. fold A in ND. rewrite Hab in ND, EA.
    rewrite (drain_in_order a i b j lots amount ls1 left1 l1 Hn Ha ND Hb EA ltac:(congruence) H1) in Hle. lia.
Qed.

Definition sample_lots : list Lot :=
  [{| lot_remaining := 50; lot_expiresAt := None |}; {| lot_remaining := 30; lot_expiresAt := Some 900 |};
   {| lot_remaining := 20; lot_expiresAt := Some 100 |}; {| lot_remaining := 40; lot_expiresAt := Some 500 |}].

Lemma spend_consumes_first_expiring_witness :
  map lot_remaining (consume sample_lots 60 200 false) = [50; 10; 20; 0] /\
  (forall l, consume sample_lots 60 200 false !! 3%nat = Some l -> lot_remaining l = 0).
Proof.
  split; [vm_compute; reflexivity|]. intros l Hl.
  refine (spend_consumes_first_expiring sample_lots 60 200 3 1 {| lot_remaining := 40; lot_expiresAt := Some 500 |} l
    {| lot_remaining := 30; lot_expiresAt := Some 900 |} _ _ eq_refl eq_refl Hl eq_refl _ (or_intror eq_refl)).
  - repeat constructor; cbn; lia.
  - lia.
  - vm_compute. discriminate.
Defined.

(** *** Expiry *)

Lemma lots_of_snoc es e : lots_of (es ++ [e]) = post_entry (lots_of es) e.
Proof. unfold lots_of. by rewrite fold_left_app. Qed.

Lemma lots_of_nonneg es : lots_nonneg (lots_of es).
Proof.
  induction es as [|e es IH] using rev_ind; [constructor|]. rewrite lots_of_snoc. unfold post_entry.
  destruct (Z.ltb_spec 0 (le_points e)); [|destruct (Z.ltb_spec (le_points e) 0); [|done]].
  - apply Forall_app. split; [done|]. constructor; [cbn; lia|constructor].
  - eapply drained_nonneg, consume_nonneg; [done|lia].
Qed.

Lemma expired_total_where now ls :
  expired_total now ls = total_where (fun o => match o with Some e => e <=? now | None => false end) ls.
Proof. done. Qed.

Lemma drained_total p ls ls' : drained ls ls' -> total_where p ls' <= total_where p ls.
Proof.
  unfold total_where. induction 1 as [|a b l1 l2 [E R] _ IH]; cbn; [lia|]. rewrite E. destruct (p _); lia.
Qed.
Lemma total_where_nonneg p ls : lots_nonneg ls -> 0 <= total_where p ls.
Proof.
  intros H. apply sumZ_nonneg, Forall_map. eapply Forall_impl; [exact H|]. cbn. intros l ?. destruct (p _); lia.
Qed.

Definition expired_credit (now : Z) (e : LedgerEntryLike) : Z :=
  if (0 <? le_points e) && match le_expiresAt e with Some x => x <=? now | None => false end then le_points e else 0.

(** The expired points a balance read must hide: never negative, and never more
    than the credits that have reached their expiry. *)
Lemma unposted_expired_bounds entries now :
  0 <= unpostedExpiredPoints entries now <= sumZ (map (expired_credit now) entries).
Proof.
  unfold unpostedExpiredPoints. rewrite expired_total_where.
  split; [apply total_where_nonneg, lots_of_nonneg|].
  induction entries as [|e es IH] using rev_ind; [cbn; lia|].
  rewrite lots_of_snoc, map_app, sumZ_app. cbn [map sumZ]. unfold post_entry at 1, expired_credit at 2.
  destruct (Z.ltb_spec 0 (le_points e)); [|destruct (Z.ltb_spec (le_points e) 0)]; cbn [andb].
  - unfold total_where in *. rewrite map_app, sumZ_app. cbn [map sumZ lot_expiresAt lot_remaining].
    destruct (le_expiresAt e) as [x|]; [destruct (x <=? now)|]; lia.
  - pose proof (drained_total (fun o => match o with Some x => x <=? now | None => false end) _ _
      (consume_nonneg (lots_of es) (- le_points e) (le_createdAt e) (bool_decide (le_kind e = k_expire))
        (lots_of_nonneg es) ltac:(lia))). lia.
  - lia.
Qed.

(** The entry [postExpiry] writes for the whole unposted amount. *)
Definition expire_entry (amount now : Z) : LedgerEntryLike :=
  {| le_kind := k_expire; le_points := - amount; le_expiresAt := None; le_createdAt := now |}.

Lemma expire_consume lots t u :
  lots_nonneg lots -> 0 < u -> u = expired_total t lots ->
  expired_total t (consume lots u t true) = 0 /\
  forall i l, lots !! i = Some l -> expired_at t l = false -> consume lots u t true !! i = Some l.
Proof.
  intros Hn Hu Eu. unfold consume. cbn [concat]. rewrite app_nil_r.
  destruct (drain (pick (expired_at t) lots) lots u) as [ls left] eqn:E. cbn [fst].
  destruct (drain_spec _ _ _ _ _ Hn (Z.lt_le_incl _ _ Hu) E) as (D & L & K & Zr & T). split.
  - rewrite expired_total_where in *.
    assert (T' := T (fun o => match o with Some e => e <=? t | None => false end)
      ltac:(intros i Hi; apply elem_of_pick in Hi as (l & Hl & _ & Hp); eauto)).
    pose proof (total_where_nonneg (fun o => match o with Some e => e <=? t | None => false end) ls (drained_nonneg _ _ D)).
    destruct (Z.eq_dec left 0); [lia|].
    enough (total_where (fun o => match o with Some e => e <=? t | None => false end) ls = 0) by lia.
    unfold total_where. etrans; [|exact (sumZ_zeros ls)]. f_equal. apply map_ext_in. intros l Hl.
    apply list_elem_of_In, list_elem_of_lookup in Hl as [i Hi].
    cbn beta. destruct (lot_expiresAt l) as [e|] eqn:Ee; [|done]. destruct (e <=? t) eqn:Et; [|done].
    destruct (Forall2_lookup_r _ _ _ _ _ D Hi) as (l0 & H0 & He & Hle).
    destruct (decide (i ∈ pick (expired_at t) lots)) as [Hin|Hin]; [exact (Zr ltac:(lia) i l Hin Hi)|].
    destruct (Z.eq_dec (lot_remaining l0) 0); [lia|]. exfalso. apply Hin, elem_of_pick. exists l0. split; [done|].
    split; [lia|]. unfold expired_at. by rewrite <- He, Ee.
  - intros i l Hl Hx. rewrite K; [done|]. intros Hin. apply elem_of_pick in Hin as (l' & Hl' & _ & Hx'). congruence.
Qed.

(** Posting one [expire] entry for the unposted amount settles expiry
    completely: nothing is left to write off at that moment, and no lot that is
    still valid loses a point. *)
Theorem expire_posting_settles entries now :
  let u := unpostedExpiredPoints entries now in
  0 < u ->
  unpostedExpiredPoints (entries ++ [expire_entry u now]) now = 0 /\
  forall i l, lots_of entries !! i = Some l -> expired_at now l = false ->
              lots_of (entries ++ [expire_entry u now]) !! i = Some l.
Proof.
  intros u Hu. unfold unpostedExpiredPoints at 1. rewrite lots_of_snoc. unfold post_entry, expire_entry. cbn.
  rewrite (proj2 (Z.ltb_ge 0 (- u))), (proj2 (Z.ltb_lt (- u) 0)) by lia. rewrite Z.opp_involutive.
  apply expire_consume; [apply lots_of_nonneg|done|done].
Qed.

Definition sample_entries : list LedgerEntryLike :=
  [{| le_kind := k_earn; le_points := 100; le_expiresAt := Some 1000; le_createdAt := 0 |};
   {| le_kind := k_bonus; le_points := 50; le_expiresAt := None; le_createdAt := 10 |};
   {| le_kind := k_redeem; le_points := -70; le_expiresAt := None; le_createdAt := 20 |}].

Lemma expire_posting_settles_witness :
  unpostedExpiredPoints sample_entries 2000 = 30 /\
  unpostedExpiredPoints (sample_entries ++ [expire_entry 30 2000]) 2000 = 0.
Proof.
  split; [vm_compute; reflexivity|].
  exact (proj1 (expire_posting_settles sample_entries 2000 ltac:(vm_compute; reflexivity))).
Defined.

(** ** What an order earns *)

Record EarnInput := { ei_subtotal : Z; ei_discountTotal : Z; ei_taxRate : Z; ei_taxInclusive : bool }.
Definition earnableCents (input : EarnInput) : Z :=
  let discounted := Z.max 0 (ei_subtotal input - ei_discountTotal input) in
  if negb (ei_taxInclusive input) || (ei_taxRate input <=? 0) then discounted
  else js_round (js_div (js_mul (jsn discounted) (jsn 10000)) (jsn (10000 + ei_taxRate input))).

Record EarnLine := { el_productId : string; el_cents : Z }.

(** [new Map(multipliers.map(...)).get(...)]: the last entry of a product wins. *)
Definition multiplier_for (ms : list ProductMultiplier) (productId : string) : option Q :=
  assoc_last (to_lower productId) (map (fun m => (to_lower (pm_productId m), pm_multiplier m)) ms).

Definition line_bonus (subtotal earnable rate : Z) (ms : list ProductMultiplier) (l : EarnLine) : Z :=
  match multiplier_for ms (el_productId l) with
  | Some m =>
      if Qle_bool m 1 || negb (0 <? el_cents l) then 0
      else
        let share := js_floor (js_div (js_mul (jsn (el_cents l)) (jsn earnable)) (jsn subtotal)) in
        js_floor (js_div (js_mul (js_mul (jsn share) (jsn rate)) (js_sub m 1)) (jsn 100))
  | None => 0
  end.

Definition multiplierBonusPoints (lines : list EarnLine) (subtotal earnable rate : Z) (ms : list ProductMultiplier) : Z :=
  if negb (0 <? subtotal) || negb (0 <? earnable) || negb (0 <? rate) || match ms with [] => true | _ => false end then 0
  else sumZ (map (line_bonus subtotal earnable rate ms) lines).

Lemma assoc_last_In {A} k (l : list (string * A)) v : assoc_last k l = Some v -> In (k, v) l.
Proof.
  induction l as [|[k' w] r IH]; cbn; [discriminate|]. destruct (assoc_last k r); [auto|].
  destruct (String.eqb_spec k k') as [->|]; [|discriminate]. intros [= ->]. by left.
Qed.

(** Whole multipliers, and amounts whose products stay exact. *)
Definition whole_multipliers (M : Z) (ms : list ProductMultiplier) : Prop :=
  Forall (fun m => exists k, (pm_multiplier m == inject_Z k)%Q /\ 1 <= k <= M) ms.

Lemma line_bonus_bound M subtotal earnable rate ms l :
  whole_multipliers M ms -> 1 <= M <= 100 -> 0 < rate <= 10000 -> 0 < earnable <= subtotal -> subtotal < 2 ^ 25 ->
  el_cents l <= subtotal ->
  0 <= line_bonus subtotal earnable rate ms l /\
  100 * subtotal * line_bonus subtotal earnable rate ms l <= Z.max 0 (el_cents l) * earnable * rate * (M - 1).
Proof.
  intros Hm HM Hr He Hs Hc. unfold line_bonus.
  assert (Z0 : 0 <= Z.max 0 (el_cents l) * earnable * rate * (M - 1)) by (repeat apply Z.mul_nonneg_nonneg; lia).
  destruct (multiplier_for ms (el_productId l)) as [m|] eqn:E; [|lia].
  destruct (Qle_bool m 1 || negb (0 <? el_cents l)) eqn:Eb; [lia|]. bool_props.
  unfold multiplier_for in E. apply assoc_last_In, in_map_iff in E as (pm & [= _ <-] & Hin).
  unfold whole_multipliers in Hm. rewrite List.Forall_forall in Hm. destruct (Hm _ Hin) as (k & Ek & Hk).
  rewrite js_floor_mul_div by (try lia; rewrite Z.abs_eq; nia).
  set (share := el_cents l * earnable / subtotal).
  assert (Hsh : 0 <= share <= earnable) by (unfold share; split; [apply Z.div_pos; nia|apply Z.div_le_upper_bound; nia]).
  assert (Hshm : subtotal * share <= el_cents l * earnable) by (apply Z.mul_div_le; lia).
  assert (X : js_mul (js_mul (jsn share) (jsn rate)) (js_sub (pm_multiplier pm) 1) = js_mul (jsn (share * rate)) (jsn (k - 1))).
  { unfold js_mul at 1 3. apply (rounding_proper (r := fl)). rewrite js_mul_int by (rewrite Z.abs_eq; nia).
    unfold js_sub, jsn. rewrite (rounding_proper (r := fl) _ (inject_Z (k - 1))).
    - rewrite rounding_int by lia. reflexivity.
    - rewrite Ek. unfold Z.sub. rewrite inject_Z_plus. reflexivity. }
  assert (Hbig : Z.abs (share * rate * (k - 1)) < 2 ^ 52).
  { rewrite Z.abs_eq by (apply Z.mul_nonneg_nonneg; nia).
    apply Z.le_lt_trans with (2 ^ 25 * 10000 * 99); [apply Z.mul_le_mono_nonneg; nia|lia]. }
  rewrite X, js_floor_mul_div by (exact Hbig || lia).
  split; [apply Z.div_pos; nia|].
  pose proof (Z.mul_div_le (share * rate * (k - 1)) 100 ltac:(lia)) as D.
  rewrite Z.max_r by lia.
  apply Z.le_trans with (subtotal * (share * rate * (k - 1))); [nia|].
  replace (subtotal * (share * rate * (k - 1))) with (subtotal * share * (rate * (k - 1))) by ring.
  replace (el_cents l * earnable * rate * (M - 1)) with (el_cents l * earnable * (rate * (M - 1))) by ring.
  apply Z.mul_le_mono_nonneg; nia.
Qed.

(** Product multipliers of at most [M] never make an order earn more than [M]
    times its plain earn: base points plus bonus stay within [M] times the earn
    rate on the discounted merchandise, and the bonus is never negative. *)
Theorem multiplied_earn_bounded M lines subtotal earnable rate ms :
  whole_multipliers M ms -> 1 <= M <= 100 -> 0 < rate <= 10000 -> 0 <= earnable <= subtotal -> subtotal < 2 ^ 25 ->
  sumZ (map (fun l => Z.max 0 (el_cents l)) lines) <= subtotal ->
  0 <= multiplierBonusPoints lines subtotal earnable rate ms /\
  100 * (pointsEarned earnable rate + multiplierBonusPoints lines subtotal earnable rate ms) <= M * (earnable * rate).
Proof.
  intros Hm HM Hr He Hs Hsum.
  rewrite pointsEarned_exact by nia. rewrite !Z.max_r by lia.
  pose proof (Z.mul_div_le (earnable * rate) 100 ltac:(lia)) as D.
  unfold multiplierBonusPoints. destruct (_ || _) eqn:Eg; [nia|]. bool_props.
  set (f := line_bonus subtotal earnable rate ms).
  assert (G : 0 <= sumZ (map f lines) /\
    100 * subtotal * sumZ (map f lines) <= sumZ (map (fun l => Z.max 0 (el_cents l)) lines) * earnable * rate * (M - 1)).
  { clear D. induction lines as [|l ls IH]; [cbn; lia|]. cbn [map sumZ] in *.
    assert (0 <= sumZ (map (fun l => Z.max 0 (el_cents l)) ls)).
    { apply sumZ_nonneg, Forall_map, Forall_true. intros; cbn; lia. }
    destruct (line_bonus_bound M subtotal earnable rate ms l) as [B1 B2]; try done; try lia.
    destruct IH as [I1 I2]; [lia|]. fold f in B1, B2. split; [lia|]. nia. }
  destruct G as [G1 G2]. split; [done|].
  assert (subtotal * (100 * sumZ (map f lines)) <= subtotal * (earnable * rate * (M - 1))).
  { apply Z.le_trans with (sumZ (map (fun l => Z.max 0 (el_cents l)) lines) * (earnable * rate * (M - 1))); [nia|].
    apply Z.mul_le_mono_nonneg_r; [|done]. repeat apply Z.mul_nonneg_nonneg; lia. }
  assert (100 * sumZ (map f lines) <= earnable * rate * (M - 1)) by nia. nia.
Qed.

Lemma multiplied_earn_bounded_witness :
  let lines := [{| el_productId := "P1"; el_cents := 6000 |}; {| el_productId := "p2"; el_cents := 4000 |}]%string in
  let ms := [{| pm_productId := "p1"; pm_multiplier := 3 |}]%string in
  multiplierBonusPoints lines 10000 9000 2 ms = 216 /\ 0 <= multiplierBonusPoints lines 10000 9000 2 ms.
Proof.
  cbv zeta. split; [vm_compute; reflexivity|].
  refine (proj1 (multiplied_earn_bounded 3 _ 10000 9000 2 _ _ _ _ _ _ _)); try (cbn; lia).
  constructor; [|constructor]. exists 3. split; [reflexivity|lia].
Defined.
