(* ===== verification/LoyaltyLedger.v ===== *)
(** The loyalty ledger: [src/packages/api/src/loyalty/{ledger,bonus}.ts] and the
    ownership proof it filters by, [auth/{order-access,email}.ts].

    The state is one store's tables: the append-only ledger (oldest insertion
    first), customers, orders, reviews, the money tables and the store
    configuration. Every handler is a function of the state and of the instant
    [now] its [new Date()] reads; [INSERT ... ON CONFLICT DO NOTHING] is
    [insert_row], whose conflict is the unique index on [source_ref]. Advisory
    and row locks serialize the handlers, so a run of the system is a sequence
    of them. *)

From S2P Require Import Prelude JsNumber Json OrderState Tender Loyalty.
From Stdlib Require Import ZArith QArith Lia Bool String.
From stdpp Require Import base list strings gmap pretty sorting.
Local Open Scope Z_scope.

(** ** State *)

Record LedgerRow := {
  lr_id : string; lr_customerId : string; lr_kind : LoyaltyLedgerKind; lr_points : Z; lr_orderId : option string;
  lr_refundId : option string; lr_sourceRef : option string; lr_expiresAt : option Z; lr_shortfall : Z;
  lr_reason : string; lr_actor : string; lr_createdAt : Z
}.
Record Customer := {
  cu_email : string; cu_emailVerified : bool; cu_createdAt : Z; cu_deletedAt : option Z; cu_birthday : option (Z * Z)
}.
Record LOrder := { od_customerId : option string; od_metadata : option json; od_state : OrderState; od_grandTotal : Z }.
Record Review := {
  rv_customerId : option string; rv_orderId : option string; rv_approved : bool; rv_verifiedBuyer : bool; rv_bonusPoints : Z
}.
Record LedgerDb := {
  ld_rows : list LedgerRow; ld_customers : gmap string Customer; ld_orders : gmap string LOrder;
  ld_reviews : gmap string Review; ld_money : MoneyTables; ld_config : option json
}.

Definition with_rows (db : LedgerDb) (rows : list LedgerRow) : LedgerDb :=
  {| ld_rows := rows; ld_customers := ld_customers db; ld_orders := ld_orders db; ld_reviews := ld_reviews db;
     ld_money := ld_money db; ld_config := ld_config db |}.
Definition with_orders (db : LedgerDb) (orders : gmap string LOrder) : LedgerDb :=
  {| ld_rows := ld_rows db; ld_customers := ld_customers db; ld_orders := orders; ld_reviews := ld_reviews db;
     ld_money := ld_money db; ld_config := ld_config db |}.
Definition with_reviews (db : LedgerDb) (reviews : gmap string Review) : LedgerDb :=
  {| ld_rows := ld_rows db; ld_customers := ld_customers db; ld_orders := ld_orders db; ld_reviews := reviews;
     ld_money := ld_money db; ld_config := ld_config db |}.

(** ** Ownership of an order by the mailbox that placed it *)

Definition normalizeEmail (email : string) : string := to_lower (trim email).

(** [linked_via] and [contact.email] of the order's metadata. *)
Definition contact_email (md : option json) : option string := text_field "email" (opt_field "contact" md).

Definition customerOwnsOrder (id : string) (customer : option Customer) (order : LOrder) : bool :=
  match customer with
  | None => false
  | Some c =>
      if negb (bool_decide (od_customerId order = Some id)) then false
      else if negb (bool_decide (text_field "linked_via" (od_metadata order) = Some "email_match"%string)) then true
      else match contact_email (od_metadata order) with
           | Some e => cu_emailVerified c && negb (String.eqb (trim e) EmptyString) && String.eqb (normalizeEmail e) (normalizeEmail (cu_email c))
           | None => false
           end
  end.

(** [orderProvenanceFilter] on the order's row, in SQL. [lower(btrim(..))]
    strips spaces only; the addresses it is compared with hold no other blank. *)
Definition orderProvenanceFilter (c : Customer) (order : LOrder) : bool :=
  negb (bool_decide (text_field "linked_via" (od_metadata order) = Some "email_match"%string)) ||
  (cu_emailVerified c &&
   match contact_email (od_metadata order) with
   | Some e => String.eqb (normalizeEmail e) (normalizeEmail (cu_email c))
   | None => false
   end).

(** ** The order's checkout snapshot *)

Record OrderLoyaltySnapshot := {
  os_redeemPoints : Z; os_pointsDiscount : Z; os_earnPoints : Z; os_expiryDays : option Z;
  os_earnRatePerDollar : option Z; os_productMultipliers : list ProductMultiplier
}.

Definition snapshot_int (v : option json) : Z :=
  match safe_integer v with Some z => if 0 <=? z then z else 0 | None => 0 end.
Definition positive_int (v : option json) : option Z :=
  match safe_integer v with Some z => if 0 <? z then Some z else None | None => None end.

(** Entries with a string id and a multiplier above 1; snapshots are written
    from validated settings, whose multipliers are numbers. *)
Definition snapshot_multiplier (v : json) : list ProductMultiplier :=
  match field "productId" v, field "multiplier" v with
  | Some (JStr id), Some (JNum q) => if Qle_bool q 1 then [] else [{| pm_productId := id; pm_multiplier := q |}]
  | _, _ => []
  end.

Definition orderLoyaltySnapshot (metadata : option json) : option OrderLoyaltySnapshot :=
  match opt_field "loyalty" metadata with
  | Some (JObj fs) =>
      let get k := assoc_last k fs in
      Some {| os_redeemPoints := snapshot_int (get "redeemPoints"); os_pointsDiscount := snapshot_int (get "pointsDiscount");
              os_earnPoints := snapshot_int (get "earnPoints"); os_expiryDays := positive_int (get "expiryDays");
              os_earnRatePerDollar := positive_int (get "earnRatePerDollar");
              os_productMultipliers := match as_array (get "productMultipliers") with
                                       | Some l => flat_map snapshot_multiplier l
                                       | None => []
                                       end |}
  | Some (JArr _) =>
      Some {| os_redeemPoints := 0; os_pointsDiscount := 0; os_earnPoints := 0; os_expiryDays := None;
              os_earnRatePerDollar := None; os_productMultipliers := [] |}
  | _ => None
  end%string.

Definition DAY_MS : Z := 86400000.
(** [days ? new Date(at + days * DAY_MS) : null] *)
Definition expiryFrom (at_ : Z) (days : option Z) : option Z :=
  match days with Some d => if d =? 0 then None else Some (at_ + d * DAY_MS) | None => None end.

(** [jsonb_set(metadata, '{loyalty}', (metadata->'loyalty') || {k: v})], or the
    key's removal ([-]); only when the metadata has a [loyalty] key. On an array the
    object is appended and the key's text removed. A scalar, on which the statement
    fails, is never patched: every caller has read a snapshot or marker in it. *)
Definition set_key (k : string) (v : option json) (fs : list (string * json)) : list (string * json) :=
  List.filter (fun '(k', _) => negb (String.eqb k' k)) fs ++ match v with Some j => [(k, j)] | None => [] end.
Definition patch_metadata (k : string) (v : option json) (md : option json) : option json :=
  match md with
  | Some (JObj fs) =>
      match assoc_last "loyalty" fs with
      | Some (JObj lfs) => Some (JObj (set_key "loyalty" (Some (JObj (set_key k v lfs))) fs))
      | Some (JArr l) =>
          let l' := match v with
            | Some j => (l ++ [JObj [(k, j)]])%list
            | None => List.filter (fun x => match x with JStr t => negb (String.eqb t k) | _ => true end) l
            end in
          Some (JObj (set_key "loyalty" (Some (JArr l')) fs))
      | _ => md
      end
  | _ => md
  end%string.
Definition patchOrderLoyaltyMeta (db : LedgerDb) (orderId k : string) (v : option json) : LedgerDb :=
  with_orders db (alter (fun o => {| od_customerId := od_customerId o; od_metadata := patch_metadata k v (od_metadata o);
                                     od_state := od_state o; od_grandTotal := od_grandTotal o |}) orderId (ld_orders db)).

(** ** Balances *)

(** The rows [customerEntries] and the balance query read: the customer's, less
    those of orders whose mailbox the customer has not proven. *)
Definition visible (db : LedgerDb) (cid : string) (c : Customer) (r : LedgerRow) : bool :=
  String.eqb (lr_customerId r) cid &&
  match lr_orderId r with
  | None => true
  | Some o => match ld_orders db !! o with
              | Some order => bool_decide (od_customerId order = Some cid) && orderProvenanceFilter c order
              | None => false
              end
  end.

Definition entry_of (r : LedgerRow) : LedgerEntryLike :=
  {| le_kind := lr_kind r; le_points := lr_points r; le_expiresAt := lr_expiresAt r; le_createdAt := lr_createdAt r |}.

(** [ORDER BY created_at, (points < 0), id] *)
Definition row_after (a b : LedgerRow) : bool :=
  if negb (lr_createdAt a =? lr_createdAt b) then lr_createdAt b <? lr_createdAt a
  else if negb (Bool.eqb (lr_points a <? 0) (lr_points b <? 0)) then lr_points a <? 0
  else str_after (lr_id a) (lr_id b).

Definition visible_rows (db : LedgerDb) (cid : string) (c : Customer) : list LedgerRow :=
  List.filter (visible db cid c) (ld_rows db).
Definition customerEntries (db : LedgerDb) (cid : string) (c : Customer) : list LedgerEntryLike :=
  map entry_of (sort_stable row_after (visible_rows db cid c)).

Record LoyaltyBalance := { lb_balance : Z; lb_pendingExpiry : Z; lb_available : Z }.

Definition expired_lot (now : Z) (r : LedgerRow) : bool :=
  (0 <? lr_points r) && match lr_expiresAt r with Some e => e <=? now | None => false end.

Definition loyaltyBalance (db : LedgerDb) (cid : string) (now : Z) : LoyaltyBalance :=
  match ld_customers db !! cid with
  | None => {| lb_balance := 0; lb_pendingExpiry := 0; lb_available := 0 |}
  | Some c =>
      let rows := visible_rows db cid c in
      if (length (List.filter (expired_lot now) rows) =? 0)%nat then
        let balance := sumZ (map lr_points rows) in
        {| lb_balance := balance; lb_pendingExpiry := 0; lb_available := Z.max 0 balance |}
      else
        let entries := customerEntries db cid c in
        let balance := sumZ (map le_points entries) in
        let pendingExpiry := Z.min (Z.max 0 balance) (unpostedExpiredPoints entries now) in
        {| lb_balance := balance; lb_pendingExpiry := pendingExpiry; lb_available := Z.max 0 (balance - pendingExpiry) |}
  end.

(** ** Postings *)

Section Postings.
Context (gen_random_uuid : nat -> string) (zod_datetime : string -> bool).

(** [INSERT ... ON CONFLICT DO NOTHING RETURNING id]: the unique index on
    [(store_id, source_ref) WHERE source_ref IS NOT NULL]. *)
Definition ref_taken (rows : list LedgerRow) (ref : option string) : bool :=
  match ref with Some s => existsb (fun r => bool_decide (lr_sourceRef r = Some s)) rows | None => false end.
Definition insert_row (db : LedgerDb) (r : LedgerRow) : LedgerDb * option string :=
  if ref_taken (ld_rows db) (lr_sourceRef r) then (db, None)
  else (with_rows db (ld_rows db ++ [r]), Some (lr_id r)).
Definition next_id (db : LedgerDb) : string := gen_random_uuid (length (ld_rows db)).

Definition postExpiry (db : LedgerDb) (cid : string) (now : Z) : LedgerDb * Z :=
  let pendingExpiry := lb_pendingExpiry (loyaltyBalance db cid now) in
  if pendingExpiry <=? 0 then (db, 0)
  else (fst (insert_row db
    {| lr_id := next_id db; lr_customerId := cid; lr_kind := k_expire; lr_points := - pendingExpiry; lr_orderId := None;
       lr_refundId := None; lr_sourceRef := Some ("expire:" +:+ cid +:+ ":" +:+ pretty now)%string; lr_expiresAt := None;
       lr_shortfall := 0; lr_reason := "points_expired"; lr_actor := "system:loyalty-expiry"; lr_createdAt := now |}),
    pendingExpiry)%string.

Definition reserveRedemption (db : LedgerDb) (cid orderId : string) (points now : Z) : LedgerDb :=
  if points <=? 0 then db
  else fst (insert_row db
    {| lr_id := next_id db; lr_customerId := cid; lr_kind := k_redeem; lr_points := - points; lr_orderId := Some orderId;
       lr_refundId := None; lr_sourceRef := Some ("redeem:" +:+ orderId)%string; lr_expiresAt := None; lr_shortfall := 0;
       lr_reason := "checkout_redemption"; lr_actor := "system:checkout"; lr_createdAt := now |})%string.

Definition postEarnForPaidOrder (db : LedgerDb) (orderId : string) (paidAt : Z) : LedgerDb * Z :=
  match ld_orders db !! orderId with
  | None => (db, 0)
  | Some order =>
      match od_customerId order, orderLoyaltySnapshot (od_metadata order) with
      | Some cid, Some snap =>
          if os_earnPoints snap <=? 0 then (db, 0)
          else if negb (customerOwnsOrder cid (ld_customers db !! cid) order) then (db, 0)
          else
            let '(db', id) := insert_row db
              {| lr_id := next_id db; lr_customerId := cid; lr_kind := k_earn; lr_points := os_earnPoints snap;
                 lr_orderId := Some orderId; lr_refundId := None; lr_sourceRef := Some ("earn:" +:+ orderId)%string;
                 lr_expiresAt := expiryFrom paidAt (os_expiryDays snap); lr_shortfall := 0; lr_reason := "order_paid";
                 lr_actor := "system:order-paid"; lr_createdAt := paidAt |}%string in
            (db', match id with Some _ => os_earnPoints snap | None => 0 end)
      | _, _ => (db, 0)
      end
  end.

(** *** Reversal in proportion to the money given back *)

Definition rows_of_order (db : LedgerDb) (orderId : string) : list LedgerRow :=
  List.filter (fun r => bool_decide (lr_orderId r = Some orderId)) (ld_rows db).
Definition sum_rows (f : LedgerRow -> Z) (rows : list LedgerRow) : Z := sumZ (map f rows).

Definition redeemed_of (r : LedgerRow) : Z := match lr_kind r with k_redeem => - lr_points r | _ => 0 end.
Definition restored_of (r : LedgerRow) : Z :=
  match lr_kind r with k_reverse => if String.eqb (lr_reason r) "redeem_restore" then lr_points r else 0 | _ => 0 end.
Definition earned_of (r : LedgerRow) : Z :=
  match lr_kind r with
  | k_earn => lr_points r
  | k_adjust => if String.eqb (lr_reason r) "order_edit_earn" then lr_points r - lr_shortfall r else 0
  | _ => 0
  end.
Definition earn_reversed_of (r : LedgerRow) : Z :=
  match lr_kind r with
  | k_reverse => if String.eqb (lr_reason r) "earn_reversal" then - lr_points r + lr_shortfall r else 0
  | _ => 0
  end.

Record ReconcileInput := {
  rc_orderId : string; rc_num : Z; rc_den : Z; rc_sourceRef : string; rc_actor : string; rc_refundId : option string;
  rc_settings : option LoyaltySettings
}.
Record ReconcileOut := { ro_restored : Z; ro_reversed : Z; ro_shortfall : Z }.
Definition reconcile_none : ReconcileOut := {| ro_restored := 0; ro_reversed := 0; ro_shortfall := 0 |}.

Definition reconcile_expiryDays (db : LedgerDb) (input : ReconcileInput) : option Z :=
  match rc_settings input with
  | Some s => ls_expiryDays s
  | None => ls_expiryDays (loyaltySettingsFromConfig zod_datetime (ld_config db))
  end.

Definition restore_leg (db : LedgerDb) (input : ReconcileInput) (cid : string) (restoreDelta now : Z) : LedgerDb * Z :=
  if restoreDelta <=? 0 then (db, 0)
  else
    let '(db', id) := insert_row db
      {| lr_id := next_id db; lr_customerId := cid; lr_kind := k_reverse; lr_points := restoreDelta;
         lr_orderId := Some (rc_orderId input); lr_refundId := rc_refundId input;
         lr_sourceRef := Some (rc_sourceRef input +:+ ":restore")%string;
         lr_expiresAt := expiryFrom now (reconcile_expiryDays db input); lr_shortfall := 0;
         lr_reason := "redeem_restore"; lr_actor := rc_actor input; lr_createdAt := now |}%string in
    (db', match id with Some _ => restoreDelta | None => 0 end).

Definition earn_leg (db : LedgerDb) (input : ReconcileInput) (cid : string) (earnDelta now : Z) : LedgerDb * (Z * Z) :=
  if earnDelta <=? 0 then (db, (0, 0))
  else
    let db1 := fst (postExpiry db cid now) in
    let available := lb_available (loyaltyBalance db1 cid now) in
    let posted := Z.min earnDelta (Z.max 0 available) in
    let shortfall := earnDelta - posted in
    let '(db2, id) := insert_row db1
      {| lr_id := next_id db1; lr_customerId := cid; lr_kind := k_reverse; lr_points := - posted;
         lr_orderId := Some (rc_orderId input); lr_refundId := rc_refundId input;
         lr_sourceRef := Some (rc_sourceRef input +:+ ":earn")%string; lr_expiresAt := None; lr_shortfall := shortfall;
         lr_reason := "earn_reversal"; lr_actor := rc_actor input; lr_createdAt := now + 1 |}%string in
    (db2, match id with Some _ => (posted, shortfall) | None => (0, 0) end).

Definition reconcileOrderLoyalty (db : LedgerDb) (input : ReconcileInput) (now : Z) : LedgerDb * ReconcileOut :=
  match rows_of_order db (rc_orderId input) with
  | [] => (db, reconcile_none)
  | (r0 :: _) as locked =>
      let redeemed := sum_rows redeemed_of locked in
      let restored := sum_rows restored_of locked in
      let earned := Z.max 0 (sum_rows earned_of locked) in
      let earnReversed := sum_rows earn_reversed_of locked in
      let '(db1, out_restored) :=
        restore_leg db input (lr_customerId r0) (proportionalTarget redeemed (rc_num input) (rc_den input) - restored) now in
      let '(db2, (out_reversed, out_shortfall)) :=
        earn_leg db1 input (lr_customerId r0) (proportionalTarget earned (rc_num input) (rc_den input) - earnReversed) now in
      (db2, {| ro_restored := out_restored; ro_reversed := out_reversed; ro_shortfall := out_shortfall |})
  end.

Definition releaseOrderLoyalty (db : LedgerDb) (orderId actor : string) (settings : option LoyaltySettings) (now : Z) :=
  reconcileOrderLoyalty db
    {| rc_orderId := orderId; rc_num := 1; rc_den := 1; rc_sourceRef := ("cancel:" +:+ orderId)%string; rc_actor := actor;
       rc_refundId := None; rc_settings := settings |} now.

Definition reconcileRefundLoyalty (db : LedgerDb) (orderId refundId actor : string) (refunded captured now : Z) :=
  if captured <=? 0 then (db, reconcile_none)
  else reconcileOrderLoyalty db
    {| rc_orderId := orderId; rc_num := refunded; rc_den := captured; rc_sourceRef := ("refund:" +:+ refundId)%string;
       rc_actor := actor; rc_refundId := Some refundId; rc_settings := None |} now.

(** *** Order edits *)

Definition editedEarnTarget (snap : OrderLoyaltySnapshot) (input : EarnInput) (lines : list EarnLine) : option Z :=
  match os_earnRatePerDollar snap with
  | None => None
  | Some rate =>
      let base := earnableCents input in
      Some (pointsEarned base rate +
            multiplierBonusPoints lines (ei_subtotal input) base rate (os_productMultipliers snap))
  end.

Record EditEarnResult := { ee_delta : Z; ee_posted : Z; ee_shortfall : Z; ee_deferred : bool; ee_snapshotUpdated : bool }.
Definition edit_none : EditEarnResult :=
  {| ee_delta := 0; ee_posted := 0; ee_shortfall := 0; ee_deferred := false; ee_snapshotUpdated := false |}.
Definition has_earn (rows : list LedgerRow) : bool := existsb (fun r => bool_decide (lr_kind r = k_earn)) rows.

Definition postEditEarnAdjustment (db : LedgerDb) (orderId editId actor : string) (targetEarn now : Z)
    : LedgerDb * EditEarnResult :=
  match ld_orders db !! orderId with
  | None => (db, edit_none)
  | Some order =>
      match od_customerId order with
      | None => (db, edit_none)
      | Some cid =>
          let snap := orderLoyaltySnapshot (od_metadata order) in
          let rows := rows_of_order db orderId in
          if negb (has_earn rows) then (db, edit_none) else
          let delta := Z.max 0 targetEarn - sum_rows earned_of rows in
          if delta =? 0 then (db, edit_none) else
          let ref := Some ("order_edit:" +:+ editId +:+ ":earn")%string in
          if 0 <? delta then
            let '(db', id) := insert_row db
              {| lr_id := next_id db; lr_customerId := cid; lr_kind := k_adjust; lr_points := delta; lr_orderId := Some orderId;
                 lr_refundId := None; lr_sourceRef := ref; lr_expiresAt := expiryFrom now (snap ≫= os_expiryDays);
                 lr_shortfall := 0; lr_reason := "order_edit_earn"; lr_actor := actor; lr_createdAt := now |}%string in
            (db', match id with
                  | Some _ => {| ee_delta := delta; ee_posted := delta; ee_shortfall := 0; ee_deferred := false; ee_snapshotUpdated := false |}
                  | None => edit_none
                  end)
          else
            let db1 := fst (postExpiry db cid now) in
            let available := lb_available (loyaltyBalance db1 cid now) in
            let posted := Z.min (- delta) (Z.max 0 available) in
            let shortfall := - delta - posted in
            let '(db2, id) := insert_row db1
              {| lr_id := next_id db1; lr_customerId := cid; lr_kind := k_adjust; lr_points := - posted; lr_orderId := Some orderId;
                 lr_refundId := None; lr_sourceRef := ref; lr_expiresAt := None; lr_shortfall := shortfall;
                 lr_reason := "order_edit_earn"; lr_actor := actor; lr_createdAt := now |}%string in
            (db2, match id with
                  | Some _ => {| ee_delta := delta; ee_posted := - posted; ee_shortfall := shortfall; ee_deferred := false;
                                 ee_snapshotUpdated := false |}
                  | None => edit_none
                  end)
      end
  end.

Definition deferred_marker (md : option json) : option json := opt_field "deferredEarn" (opt_field "loyalty" md).
Definition js_truthy (v : option json) : bool :=
  match v with
  | None | Some JNull | Some (JBool false) => false
  | Some (JStr s) => negb (String.eqb s EmptyString)
  | Some (JNum q) => negb (Qeq_bool q 0)
  | _ => true
  end.

Definition syncEditEarn (db : LedgerDb) (orderId editId actor : string) (targetEarn : Z) (settled : bool) (now : Z)
    : LedgerDb * EditEarnResult :=
  match ld_orders db !! orderId with
  | None => (db, edit_none)
  | Some order =>
      match od_customerId order, orderLoyaltySnapshot (od_metadata order) with
      | Some _, Some snap =>
          let rows := rows_of_order db orderId in
          let target := Z.max 0 targetEarn in
          if negb (has_earn rows) then
            if negb (bool_decide (od_state order = PendingPayment)) || (os_earnPoints snap =? target) then (db, edit_none)
            else (patchOrderLoyaltyMeta db orderId "earnPoints"%string (Some (JNum (inject_Z target))),
                  {| ee_delta := target - os_earnPoints snap; ee_posted := 0; ee_shortfall := 0; ee_deferred := false;
                     ee_snapshotUpdated := true |})
          else
            let delta := target - sum_rows earned_of rows in
            if (0 <? delta) && negb settled then
              (patchOrderLoyaltyMeta db orderId "deferredEarn"%string
                 (Some (JObj [("editId"%string, JStr editId); ("targetEarn"%string, JNum (inject_Z target))])),
               {| ee_delta := delta; ee_posted := 0; ee_shortfall := 0; ee_deferred := true; ee_snapshotUpdated := false |})
            else
              let db1 := if js_truthy (deferred_marker (od_metadata order))
                         then patchOrderLoyaltyMeta db orderId "deferredEarn"%string None else db in
              postEditEarnAdjustment db1 orderId editId actor target now
      | _, _ => (db, edit_none)
      end
  end.

Definition settleDeferredEditEarnForOrder (db : LedgerDb) (orderId : string) (now : Z) : LedgerDb * Z :=
  match ld_orders db !! orderId with
  | None => (db, 0)
  | Some order =>
      let deferred := deferred_marker (od_metadata order) in
      match od_customerId order, text_field "editId"%string deferred, safe_integer (opt_field "targetEarn"%string deferred) with
      | Some _, Some editId, Some targetEarn =>
          if String.eqb editId EmptyString then (db, 0)
          else if negb (bool_decide (od_state order = Paid \/ od_state order = PartiallyRefunded)) then (db, 0)
          else if 0 <? amountDueForOrder (ld_money db) orderId (od_grandTotal order) then (db, 0)
          else
            let '(db1, r) := postEditEarnAdjustment db orderId editId "system:order-edit-settled"%string targetEarn now in
            (patchOrderLoyaltyMeta db1 orderId "deferredEarn"%string None, ee_posted r)
      | _, _, _ => (db, 0)
      end
  end.

Definition settleDeferredEditEarns (db : LedgerDb) (cid : string) (now : Z) : LedgerDb :=
  let due := List.filter (fun '(_, o) => bool_decide (od_customerId o = Some cid) &&
                              match deferred_marker (od_metadata o) with Some _ => true | None => false end)
               (map_to_list (ld_orders db)) in
  fold_left (fun d '(orderId, _) => fst (settleDeferredEditEarnForOrder d orderId now)) due db.

(** Lock, post what became spendable, expire, read. *)
Definition lockedAvailable (db : LedgerDb) (cid : string) (now : Z) : LedgerDb * Z :=
  let db1 := settleDeferredEditEarns db cid now in
  let db2 := fst (postExpiry db1 cid now) in
  (db2, lb_available (loyaltyBalance db2 cid now)).

Inductive LoyaltyAdjustError := points_must_be_nonzero_integer | cannot_remove_points.
Record AdjustInput := {
  aj_customerId : string; aj_points : Z; aj_reason : string; aj_actor : string; aj_idempotencyKey : option string;
  aj_expiryDays : option Z
}.
Definition adjustPoints (db : LedgerDb) (input : AdjustInput) (now : Z)
    : result LoyaltyAdjustError (LedgerDb * (option string * LoyaltyBalance)) :=
  if negb (is_safe (aj_points input)) || (aj_points input =? 0) then Err points_must_be_nonzero_integer else
  let '(db1, available) := lockedAvailable db (aj_customerId input) now in
  if (aj_points input <? 0) && (available <? - aj_points input) then Err cannot_remove_points else
  let '(db2, id) := insert_row db1
    {| lr_id := next_id db1; lr_customerId := aj_customerId input; lr_kind := k_adjust; lr_points := aj_points input;
       lr_orderId := None; lr_refundId := None;
       lr_sourceRef := match aj_idempotencyKey input with
                       | Some k => if String.eqb k EmptyString then None else Some ("adjust:" +:+ k)%string
                       | None => None
                       end;
       lr_expiresAt := if (0 <? aj_points input)%Z then expiryFrom now (aj_expiryDays input) else None; lr_shortfall := 0;
       lr_reason := aj_reason input; lr_actor := aj_actor input; lr_createdAt := now |}%string in
  Ok (db2, (id, loyaltyBalance db2 (aj_customerId input) now)).
End Postings.

(** ** Bonus earn rules *)

Section Bonuses.
Context (gen_random_uuid : nat -> string) (zod_datetime : string -> bool).
(** [new Date(iso).getTime()] *)
Context (parse_date : string -> Z).

Inductive BonusRule := rule_review | rule_signup | rule_first_order | rule_birthday.
Definition rule_name (r : BonusRule) : string :=
  match r with rule_review => "review" | rule_signup => "signup" | rule_first_order => "first_order" | rule_birthday => "birthday" end.

Definition program (db : LedgerDb) : LoyaltySettings := loyaltySettingsFromConfig zod_datetime (ld_config db).

Record BonusInput := {
  bi_customerId : string; bi_points : Z; bi_rule : BonusRule; bi_sourceRef : string; bi_expiryDays : option Z;
  bi_orderId : option string
}.
Definition postBonus (db : LedgerDb) (input : BonusInput) (at_ : Z) : LedgerDb * option string :=
  if negb (is_safe (bi_points input)) || (bi_points input <=? 0) then (db, None)
  else insert_row db
    {| lr_id := next_id gen_random_uuid db; lr_customerId := bi_customerId input; lr_kind := k_bonus; lr_points := bi_points input;
       lr_orderId := bi_orderId input; lr_refundId := None; lr_sourceRef := Some (bi_sourceRef input);
       lr_expiresAt := expiryFrom at_ (bi_expiryDays input); lr_shortfall := 0;
       lr_reason := ("bonus_" +:+ rule_name (bi_rule input))%string;
       lr_actor := ("system:bonus-" +:+ rule_name (bi_rule input))%string; lr_createdAt := at_ |}.

Definition live_customer (db : LedgerDb) (cid : string) : option Customer :=
  match ld_customers db !! cid with
  | Some c => match cu_deletedAt c with Some _ => None | None => Some c end
  | None => None
  end.

(** The purchase proof a verified-buyer review needs at grant time. *)
Definition review_purchase_proven (db : LedgerDb) (cid : string) (c : Customer) (r : Review) : bool :=
  match rv_orderId r ≫= (fun o => ld_orders db !! o) with
  | Some ord => customerOwnsOrder cid (Some c) ord
  | None => false
  end.

Definition grantReviewBonus (db : LedgerDb) (reviewId : string) (now : Z) : LedgerDb * (Z * option string) :=
  let none := (db, (0, None)) in
  match ld_reviews db !! reviewId with
  | None => none
  | Some r =>
      match rv_customerId r with
      | None => none
      | Some cid =>
          let p := program db in
          if negb (rv_approved r) || negb (ls_enabled p) || (ls_reviewBonusPoints p <=? 0) ||
             (ls_reviewBonusVerifiedOnly p && negb (rv_verifiedBuyer r)) then none
          else match live_customer db cid with
          | None => none
          | Some c =>
              if ls_reviewBonusVerifiedOnly p && negb (review_purchase_proven db cid c r) then none
              else
                let '(db1, id) := postBonus db
                  {| bi_customerId := cid; bi_points := ls_reviewBonusPoints p; bi_rule := rule_review;
                     bi_sourceRef := ("bonus:review:" +:+ reviewId)%string; bi_expiryDays := ls_expiryDays p; bi_orderId := None |} now in
                match id with
                | None => (db1, (0, None))
                | Some lid =>
                    (with_reviews db1 (<[reviewId := {| rv_customerId := rv_customerId r; rv_orderId := rv_orderId r;
                                          rv_approved := rv_approved r; rv_verifiedBuyer := rv_verifiedBuyer r;
                                          rv_bonusPoints := ls_reviewBonusPoints p |}]> (ld_reviews db1)),
                     (ls_reviewBonusPoints p, Some lid))
                end
          end
      end
  end.

Definition grantSignupBonus (db : LedgerDb) (cid : string) (now : Z) : LedgerDb * Z :=
  let p := program db in
  match ls_signupBonusSince p with
  | None => (db, 0)
  | Some since =>
      if negb (ls_enabled p) || (ls_signupBonusPoints p <=? 0) || String.eqb since EmptyString then (db, 0)
      else match live_customer db cid with
      | None => (db, 0)
      | Some c =>
          if negb (cu_emailVerified c) || (cu_createdAt c <? parse_date since) then (db, 0)
          else
            let '(db1, id) := postBonus db
              {| bi_customerId := cid; bi_points := ls_signupBonusPoints p; bi_rule := rule_signup;
                 bi_sourceRef := ("bonus:signup:" +:+ cid)%string; bi_expiryDays := ls_expiryDays p; bi_orderId := None |} now in
            (db1, match id with Some _ => ls_signupBonusPoints p | None => 0 end)
      end
  end.

Definition paid_state (s : OrderState) : bool :=
  match s with Paid | PartiallyRefunded | Refunded => true | _ => false end.
Definition other_paid_order (db : LedgerDb) (cid orderId : string) : bool :=
  existsb (fun '(id, o) => bool_decide (od_customerId o = Some cid) && negb (String.eqb id orderId) && paid_state (od_state o))
    (map_to_list (ld_orders db)).

Definition grantFirstOrderBonus (db : LedgerDb) (orderId : string) (now : Z) : LedgerDb * Z :=
  let p := program db in
  if negb (ls_enabled p) || (ls_firstOrderBonusPoints p <=? 0) then (db, 0)
  else match ld_orders db !! orderId with
  | None => (db, 0)
  | Some order =>
      match od_customerId order with
      | None => (db, 0)
      | Some cid =>
          if negb (customerOwnsOrder cid (ld_customers db !! cid) order) then (db, 0)
          else if other_paid_order db cid orderId then (db, 0)
          else
            let '(db1, id) := postBonus db
              {| bi_customerId := cid; bi_points := ls_firstOrderBonusPoints p; bi_rule := rule_first_order;
                 bi_sourceRef := ("bonus:first_order:" +:+ cid)%string; bi_expiryDays := ls_expiryDays p;
                 bi_orderId := Some orderId |} now in
            (db1, match id with Some _ => ls_firstOrderBonusPoints p | None => 0 end)
      end
  end.

(** The points a newly paid order earns; the [points_earned] e-mail the code
    then queues is not part of this state. *)
Definition postPaidOrderRewards (db : LedgerDb) (orderId : string) (paidAt now : Z) : LedgerDb * (Z * Z) :=
  let '(db1, earned) := postEarnForPaidOrder gen_random_uuid db orderId paidAt in
  let '(db2, bonus) := grantFirstOrderBonus db1 orderId now in
  (db2, (earned, bonus)).

(** *** Birthdays *)

Definition isLeap (y : Z) : bool := ((y mod 4 =? 0) && negb (y mod 100 =? 0)) || (y mod 400 =? 0).
Definition month_days (y : Z) : list Z := [31; if isLeap y then 29 else 28; 31; 30; 31; 30; 31; 31; 30; 31; 30; 31].

(** The UTC calendar of a [Date]: proleptic Gregorian, counted from 1 March
    of year 0 in 400-year cycles. *)
Definition utc_date (ms : Z) : Z * Z * Z :=
  let z := ms / DAY_MS + 719468 in
  let era := z / 146097 in
  let doe := z - era * 146097 in
  let yoe := (doe - doe / 1460 + doe / 36524 - doe / 146096) / 365 in
  let doy := doe - (365 * yoe + yoe / 4 - yoe / 100) in
  let mp := (5 * doy + 2) / 153 in
  let d := doy - (153 * mp + 2) / 5 + 1 in
  let m := if mp <? 10 then mp + 3 else mp - 9 in
  (yoe + era * 400 + (if m <=? 2 then 1 else 0), m, d).

Definition birthday_days (year month day : Z) : list Z :=
  if (month =? 2) && (day =? 28) && negb (isLeap year) then [28; 29] else [day].
Definition birthday_ref (cid : string) (year : Z) : string := ("bonus:birthday:" +:+ cid +:+ ":" +:+ pretty year)%string.

Definition birthday_due (db : LedgerDb) (year month day : Z) (after : option string) : list string :=
  sort_stable str_after
    (map fst (List.filter (fun '(cid, c) =>
       match cu_birthday c with
       | Some (bm, bd) => (bm =? month) && existsb (Z.eqb bd) (birthday_days year month day)
       | None => false
       end && cu_emailVerified c && match cu_deletedAt c with Some _ => false | None => true end &&
       match after with Some a => str_after cid a | None => true end &&
       negb (existsb (fun r => String.eqb (lr_customerId r) cid && bool_decide (lr_sourceRef r = Some (birthday_ref cid year)))
               (ld_rows db))) (map_to_list (ld_customers db)))).

Definition BIRTHDAY_BATCH : nat := 100.

Definition grant_birthday (p : LoyaltySettings) (year now : Z) (st : LedgerDb * Z) (cid : string) : LedgerDb * Z :=
  let '(db, granted) := st in
  let '(db1, id) := postBonus db
    {| bi_customerId := cid; bi_points := ls_birthdayBonusPoints p; bi_rule := rule_birthday;
       bi_sourceRef := birthday_ref cid year; bi_expiryDays := ls_expiryDays p; bi_orderId := None |} now in
  (db1, match id with Some _ => granted + 1 | None => granted end).

Definition grantBirthdayBonusBatch (db : LedgerDb) (now : Z) (after : option string) (limit : nat)
    : LedgerDb * (Z * option string) :=
  let p := program db in
  if negb (ls_enabled p) || (ls_birthdayBonusPoints p <=? 0) then (db, (0, None))
  else
    let '(year, month, day) := utc_date now in
    let due := take limit (birthday_due db year month day after) in
    let '(db1, granted) := fold_left (grant_birthday p year now) due (db, 0) in
    (db1, (granted, if (length due <? limit)%nat then None else last due)).

(** [for (;;)]: [None] is a run that has not ended within the fuel. *)
Fixpoint grant_birthdays_loop (fuel : nat) (db : LedgerDb) (now : Z) (after : option string) (granted : Z)
    : option (LedgerDb * Z) :=
  match fuel with
  | O => None
  | S f =>
      let '(db1, (n, next)) := grantBirthdayBonusBatch db now after BIRTHDAY_BATCH in
      match next with
      | None => Some (db1, granted + n)
      | Some _ => grant_birthdays_loop f db1 now next (granted + n)
      end
  end.
(** One batch per hundred customers, and one more that finds none. *)
Definition grantBirthdayBonuses (db : LedgerDb) (now : Z) : option (LedgerDb * Z) :=
  grant_birthdays_loop (S (size (ld_customers db))) db now None 0.

Inductive BonusReverseError := only_bonus_entries | already_reversed.
Definition reverseBonus (db : LedgerDb) (ledgerId actor : string) (now : Z)
    : result BonusReverseError (LedgerDb * option (Z * Z)) :=
  match List.find (fun r => String.eqb (lr_id r) ledgerId) (ld_rows db) with
  | None => Ok (db, None)
  | Some row =>
      if negb (bool_decide (lr_kind row = k_bonus)) then Err only_bonus_entries
      else
        let db1 := fst (postExpiry gen_random_uuid db (lr_customerId row) now) in
        let available := lb_available (loyaltyBalance db1 (lr_customerId row) now) in
        let posted := Z.min (lr_points row) (Z.max 0 available) in
        let shortfall := lr_points row - posted in
        let '(db2, id) := insert_row db1
          {| lr_id := next_id gen_random_uuid db1; lr_customerId := lr_customerId row; lr_kind := k_reverse; lr_points := - posted;
             lr_orderId := lr_orderId row; lr_refundId := None; lr_sourceRef := Some ("bonus_reverse:" +:+ lr_id row)%string;
             lr_expiresAt := None; lr_shortfall := shortfall; lr_reason := "bonus_reversal"%string; lr_actor := actor;
             lr_createdAt := now |} in
        match id with
        | None => Err already_reversed
        | Some _ => Ok (db2, Some (posted, shortfall))
        end
  end.
End Bonuses.

Example utc_date_leap : utc_date 1709164800000 = (2024, 2, 29).
Proof. reflexivity. Qed.
Example utc_date_epoch : utc_date 0 = (1970, 1, 1).
Proof. reflexivity. Qed.

(** ** What a balance read returns *)

(** The sum of the visible rows. *)
Definition vis_total (db : LedgerDb) (cid : string) : Z :=
  match ld_customers db !! cid with Some c => sumZ (map lr_points (visible_rows db cid c)) | None => 0 end.

Lemma entries_total db cid c : sumZ (map le_points (customerEntries db cid c)) = sumZ (map lr_points (visible_rows db cid c)).
Proof.
  unfold customerEntries. rewrite map_map. apply sumZ_perm. apply Permutation_map, sort_stable_perm.
Qed.

Lemma no_expired_lot db cid c now :
  List.filter (expired_lot now) (visible_rows db cid c) = [] -> unpostedExpiredPoints (customerEntries db cid c) now = 0.
Proof.
  intros H. pose proof (unposted_expired_bounds (customerEntries db cid c) now) as B.
  assert (E : sumZ (map (expired_credit now) (customerEntries db cid c)) = 0); [|lia].
  unfold customerEntries. rewrite map_map.
  rewrite (sumZ_perm _ (map (fun r => expired_credit now (entry_of r)) (visible_rows db cid c)))
    by (apply Permutation_map, sort_stable_perm).
  induction (visible_rows db cid c) as [|r rs IH]; [done|]. cbn in *.
  unfold expired_credit at 1. cbn. unfold expired_lot in H at 1. destruct (_ && _); [discriminate|]. by rewrite IH.
Qed.

(** A balance read is the sum of the customer's visible rows; the expiry it
    hides is what first-expiring-first accounting says has expired unposted,
    within the balance; the rest, never negative, is spendable. The query that
    skips the accounting when no lot has expired returns the same answer. *)
Theorem loyalty_balance_spec db cid now :
  let b := loyaltyBalance db cid now in
  lb_balance b = vis_total db cid /\
  (forall c, ld_customers db !! cid = Some c ->
     lb_pendingExpiry b = Z.min (Z.max 0 (vis_total db cid)) (unpostedExpiredPoints (customerEntries db cid c) now)) /\
  0 <= lb_pendingExpiry b <= Z.max 0 (vis_total db cid) /\
  lb_available b = Z.max 0 (vis_total db cid - lb_pendingExpiry b).
Proof.
  cbn zeta. unfold loyaltyBalance, vis_total. destruct (ld_customers db !! cid) as [c|] eqn:Ec; cbn; [|repeat split; (done || lia)].
  destruct (Nat.eqb_spec (length (List.filter (expired_lot now) (visible_rows db cid c))) 0) as [H|H]; cbn.
  - apply length_zero_iff_nil, no_expired_lot in H.
    split; [done|]. split; [intros c' [= <-]; lia|]. split; lia.
  - pose proof (unposted_expired_bounds (customerEntries db cid c) now). rewrite entries_total in *.
    split; [done|]. split; [by intros c' [= <-]|]. split; lia.
Qed.

Lemma available_bound db cid now : 0 <= lb_available (loyaltyBalance db cid now) <= Z.max 0 (vis_total db cid).
Proof.
  unfold loyaltyBalance, vis_total. destruct (ld_customers db !! cid) as [c|] eqn:Ec; cbn; [|lia].
  destruct (_ =? _)%nat; cbn; [lia|].
  pose proof (unposted_expired_bounds (customerEntries db cid c) now). rewrite entries_total in *. lia.
Qed.
Lemma pending_bound db cid now : 0 <= lb_pendingExpiry (loyaltyBalance db cid now) <= Z.max 0 (vis_total db cid).
Proof.
  unfold loyaltyBalance, vis_total. destruct (ld_customers db !! cid) as [c|] eqn:Ec; cbn; [|lia].
  destruct (_ =? _)%nat; cbn; [lia|].
  pose proof (unposted_expired_bounds (customerEntries db cid c) now). rewrite entries_total in *. lia.
Qed.

(** ** The abstract ledger: handlers as sequences of moves *)

Definition sign_ok (r : LedgerRow) : Prop :=
  0 <= lr_shortfall r /\
  match lr_kind r with
  | k_earn | k_import | k_bonus => 0 <= lr_points r
  | k_redeem | k_expire => lr_points r <= 0
  | k_reverse | k_adjust => True
  end.

(** What a transaction may do to the ledger: append a row that is no replay, has
    the sign its kind demands, and, if a debit, is covered by the customer's
    balance; or touch loyalty metadata of an order, or a review. *)
Inductive ledger_move : LedgerDb -> LedgerDb -> Prop :=
  | mv_append db r : ref_taken (ld_rows db) (lr_sourceRef r) = false -> sign_ok r ->
      - lr_points r <= Z.max 0 (vis_total db (lr_customerId r)) ->
      ledger_move db (with_rows db (ld_rows db ++ [r]))
  | mv_patch db orderId k v : ledger_move db (patchOrderLoyaltyMeta db orderId k v)
  | mv_review db reviews : ledger_move db (with_reviews db reviews).

Definition moves : LedgerDb -> LedgerDb -> Prop := rtc ledger_move.

Definition refs_of (rows : list LedgerRow) : list string := omap lr_sourceRef rows.
Definition ledger_ok (db : LedgerDb) : Prop :=
  (forall cid, 0 <= vis_total db cid) /\ NoDup (refs_of (ld_rows db)) /\ Forall sign_ok (ld_rows db).

Lemma assoc_last_set_key k k' v fs : k <> k' -> assoc_last k (set_key k' v fs) = assoc_last k fs.
Proof.
  intros Hk. unfold set_key. rewrite assoc_last_app.
  assert (E : assoc_last k (List.filter (fun '(x, _) => negb (String.eqb x k')) fs) = assoc_last k fs).
  { induction fs as [|[x w] r IH]; cbn; [done|]. destruct (String.eqb_spec x k'); cbn; rewrite IH; [|done].
    subst x. destruct (assoc_last k r); [done|]. by rewrite (proj2 (String.eqb_neq k k')). }
  destruct v; cbn; rewrite E; [|done]. by rewrite (proj2 (String.eqb_neq k k')).
Qed.
Lemma patch_other_field k v md k' : k' <> "loyalty"%string -> opt_field k' (patch_metadata k v md) = opt_field k' md.
Proof.
  intros Hk. destruct md as [[| | | | |fs]|]; try done. cbn. destruct (assoc_last "loyalty" fs) as [[]|]; cbn; rewrite ?assoc_last_set_key; done.
Qed.

Lemma visible_patch db orderId k v cid c r : visible (patchOrderLoyaltyMeta db orderId k v) cid c r = visible db cid c r.
Proof.
  unfold visible, patchOrderLoyaltyMeta. cbn. f_equal. destruct (lr_orderId r) as [o|]; [|done].
  destruct (decide (o = orderId)) as [->|Ho]; [|by rewrite lookup_alter_ne].
  rewrite lookup_alter_eq. destruct (ld_orders db !! orderId) as [order|]; cbn [fmap option_fmap option_map od_customerId]; [|done].
  unfold orderProvenanceFilter, contact_email, text_field. cbn [od_metadata]. rewrite !patch_other_field by discriminate. done.
Qed.

Lemma vis_total_patch db orderId k v cid : vis_total (patchOrderLoyaltyMeta db orderId k v) cid = vis_total db cid.
Proof.
  unfold vis_total. cbn. destruct (ld_customers db !! cid) as [c|]; [|done]. unfold visible_rows. cbn.
  do 2 f_equal. apply List.filter_ext. intros r. apply visible_patch.
Qed.

Lemma vis_total_append db r cid :
  vis_total (with_rows db (ld_rows db ++ [r])) cid =
  vis_total db cid + match ld_customers db !! cid with Some c => if visible db cid c r then lr_points r else 0 | None => 0 end.
Proof.
  unfold vis_total. cbn. destruct (ld_customers db !! cid) as [c|]; [|done]. unfold visible_rows. cbn.
  rewrite List.filter_app, map_app, sumZ_app. cbn.
  change (visible (with_rows db (ld_rows db ++ [r])) cid c) with (visible db cid c).
  destruct (visible db cid c r); cbn; lia.
Qed.

Lemma ref_taken_spec rows ref s : ref = Some s -> ref_taken rows ref = false -> s ∉ refs_of rows.
Proof.
  intros -> H. cbn in H. unfold refs_of. rewrite list_elem_of_omap. intros (r & Hr & Hs).
  apply list_elem_of_In in Hr. assert (existsb (fun r => bool_decide (lr_sourceRef r = Some s)) rows = true); [|congruence].
  apply existsb_exists. exists r. split; [done|]. by apply bool_decide_eq_true.
Qed.

Lemma move_ok db db' : ledger_move db db' -> ledger_ok db -> ledger_ok db'.
Proof.
  intros Hm (B & N & S). destruct Hm as [db r Hf Hs Hb|db o k v|db rv].
  - split; [|split].
    + intros cid. rewrite vis_total_append. specialize (B cid).
      destruct (ld_customers db !! cid) as [c|] eqn:Ec; [|lia]. destruct (visible db cid c r) eqn:Ev; [|lia].
      unfold visible in Ev. apply andb_true_iff in Ev as [Ev _]. apply String.eqb_eq in Ev. subst cid. lia.
    + cbn. unfold refs_of in *. rewrite omap_app. apply NoDup_app. split; [done|].
      cbn. destruct (lr_sourceRef r) as [s|] eqn:Er; [|split; [intros x _ Hx; inversion Hx|constructor]].
      split; [|apply NoDup_singleton]. intros x Hx Hx'. apply list_elem_of_singleton in Hx'. subst x.
      exact (ref_taken_spec _ _ s eq_refl Hf Hx).
    + cbn. apply Forall_app. split; [done|by constructor].
  - split; [|done]. intros cid. rewrite vis_total_patch. apply B.
  - done.
Qed.

(** Along any sequence of loyalty postings by any interleaving of handlers,
    rows are only ever appended, a customer's visible balance never becomes
    negative, no posting reference is used twice and every row has the sign its
    kind demands. *)
Theorem ledger_moves_safe db db' :
  ledger_ok db -> moves db db' -> ledger_ok db' /\ exists news, ld_rows db' = ld_rows db ++ news.
Proof.
  intros Hok Hm. induction Hm as [db|db db1 db2 H1 _ IH]; [split; [done|exists []; by rewrite app_nil_r]|].
  destruct (IH (move_ok _ _ H1 Hok)) as [I1 (news & I2)]. split; [done|].
  destruct H1 as [db r _ _ _| |]; cbn in I2; [|by exists news|by exists news].
  exists (r :: news). by rewrite I2, <- app_assoc.
Qed.

(** ** Every handler is a sequence of moves *)

Section HandlerMoves.
Context (gen : nat -> string) (zod : string -> bool) (parse_date : string -> Z).

Lemma moves_refl db : moves db db.
Proof. apply rtc_refl. Qed.
Lemma insert_moves db r db' id :
  insert_row db r = (db', id) -> sign_ok r -> - lr_points r <= Z.max 0 (vis_total db (lr_customerId r)) -> moves db db'.
Proof.
  unfold insert_row. destruct (ref_taken _ _) eqn:E; intros [= <- <-] Hs Hb; [apply moves_refl|].
  apply rtc_once. by constructor.
Qed.
Lemma insert_credit_moves db r db' id : insert_row db r = (db', id) -> sign_ok r -> 0 <= lr_points r -> moves db db'.
Proof. intros H Hs Hp. eapply insert_moves; [done|done|lia]. Qed.

Lemma postExpiry_moves db cid now : moves db (fst (postExpiry gen db cid now)).
Proof.
  unfold postExpiry. pose proof (pending_bound db cid now) as B.
  destruct (Z.leb_spec (lb_pendingExpiry (loyaltyBalance db cid now)) 0); [apply moves_refl|]. cbn [fst].
  destruct (insert_row db _) as [db' id] eqn:E. cbn [fst]. eapply insert_moves; [exact E| |]; cbn; [split; cbn; lia|lia].
Qed.

Lemma spend_moves db r db' id now :
  insert_row db r = (db', id) -> sign_ok r -> - lr_points r <= lb_available (loyaltyBalance db (lr_customerId r) now) ->
  moves db db'.
Proof.
  intros H Hs Hp. pose proof (available_bound db (lr_customerId r) now). eapply insert_moves; [done|done|lia].
Qed.

Lemma postEarn_moves db o t : moves db (fst (postEarnForPaidOrder gen db o t)).
Proof.
  unfold postEarnForPaidOrder. destruct (ld_orders db !! o) as [order|]; [|apply moves_refl].
  destruct (od_customerId order) as [cid|], (orderLoyaltySnapshot (od_metadata order)) as [snap|]; try apply moves_refl.
  destruct (Z.leb_spec (os_earnPoints snap) 0); [apply moves_refl|]. destruct (negb _); [apply moves_refl|].
  destruct (insert_row db _) as [db' id] eqn:E. cbn [fst]. eapply insert_credit_moves; [exact E| |]; cbn; [split; cbn; lia|lia].
Qed.

Lemma restore_leg_moves db input cid d now : moves db (fst (restore_leg gen zod db input cid d now)).
Proof.
  unfold restore_leg. destruct (Z.leb_spec d 0); [apply moves_refl|].
  destruct (insert_row db _) as [db' id] eqn:E. cbn [fst]. eapply insert_credit_moves; [exact E| |]; cbn; [split; cbn; [lia|done]|lia].
Qed.
Lemma earn_leg_moves db input cid d now : moves db (fst (earn_leg gen db input cid d now)).
Proof.
  unfold earn_leg. destruct (Z.leb_spec d 0); [apply moves_refl|].
  destruct (insert_row _ _) as [db' id] eqn:E. cbn [fst].
  etrans; [apply (postExpiry_moves db cid now)|].
  pose proof (available_bound (fst (postExpiry gen db cid now)) cid now).
  eapply spend_moves with (now := now); [exact E| |]; cbn; [split; cbn; [lia|done]|lia].
Qed.
Lemma reconcile_moves db input now : moves db (fst (reconcileOrderLoyalty gen zod db input now)).
Proof.
  unfold reconcileOrderLoyalty. destruct (rows_of_order db (rc_orderId input)) as [|r0 rs]; [apply moves_refl|].
  set (d1 := _ - sum_rows restored_of _). set (d2 := _ - sum_rows earn_reversed_of _).
  pose proof (restore_leg_moves db input (lr_customerId r0) d1 now) as M1.
  destruct (restore_leg gen zod db input (lr_customerId r0) d1 now) as [db1 x]. cbn [fst] in M1.
  pose proof (earn_leg_moves db1 input (lr_customerId r0) d2 now) as M2.
  destruct (earn_leg gen db1 input (lr_customerId r0) d2 now) as [db2 [y z]]. cbn [fst] in *. by etrans.
Qed.

Lemma postEditEarn_moves db o e a t now : moves db (fst (postEditEarnAdjustment gen db o e a t now)).
Proof.
  unfold postEditEarnAdjustment. destruct (ld_orders db !! o) as [order|]; [|apply moves_refl].
  destruct (od_customerId order) as [cid|]; [|apply moves_refl]. destruct (negb (has_earn _)); [apply moves_refl|].
  set (delta := _ - _). destruct (Z.eqb_spec delta 0); [apply moves_refl|]. destruct (Z.ltb_spec 0 delta).
  - destruct (insert_row db _) as [db' id] eqn:E. cbn [fst].
    eapply insert_credit_moves; [exact E| |]; cbn; [split; cbn; [lia|done]|lia].
  - destruct (insert_row (fst _) _) as [db' id] eqn:E. cbn [fst].
    etrans; [apply (postExpiry_moves db cid now)|].
    pose proof (available_bound (fst (postExpiry gen db cid now)) cid now).
    eapply spend_moves with (now := now); [exact E| |]; cbn; [split; cbn; [lia|done]|lia].
Qed.

Lemma patch_moves db o k v : moves db (patchOrderLoyaltyMeta db o k v).
Proof. apply rtc_once. constructor. Qed.

Lemma syncEditEarn_moves db o e a t s now : moves db (fst (syncEditEarn gen db o e a t s now)).
Proof.
  unfold syncEditEarn. destruct (ld_orders db !! o) as [order|]; [|apply moves_refl].
  destruct (od_customerId order), (orderLoyaltySnapshot (od_metadata order)); try apply moves_refl.
  destruct (negb (has_earn _)).
  - destruct (_ || _); [apply moves_refl|apply patch_moves].
  - destruct (_ && _); [apply patch_moves|]. destruct (js_truthy _).
    + etrans; [apply (patch_moves db o "deferredEarn" None)|apply postEditEarn_moves].
    + apply postEditEarn_moves.
Qed.

Lemma settleDeferred_moves db o now : moves db (fst (settleDeferredEditEarnForOrder gen db o now)).
Proof.
  unfold settleDeferredEditEarnForOrder. destruct (ld_orders db !! o) as [order|]; [|apply moves_refl].
  destruct (od_customerId order); [|apply moves_refl].
  destruct (text_field "editId" (deferred_marker (od_metadata order))) as [e|]; [|apply moves_refl].
  destruct (safe_integer (opt_field "targetEarn" (deferred_marker (od_metadata order)))) as [t|]; [|apply moves_refl].
  destruct (String.eqb e EmptyString); [apply moves_refl|]. destruct (negb _); [apply moves_refl|].
  destruct (0 <? _); [apply moves_refl|].
  pose proof (postEditEarn_moves db o e "system:order-edit-settled" t now) as M.
  destruct (postEditEarnAdjustment _ _ _ _ _ _ _) as [db1 r]. cbn [fst] in *.
  etrans; [exact M|apply patch_moves].
Qed.

Lemma fold_moves {A B} (f : LedgerDb * B -> A -> LedgerDb * B) l : forall st,
  (forall st x, moves (fst st) (fst (f st x))) -> moves (fst st) (fst (fold_left f l st)).
Proof.
  induction l as [|x l IH]; intros st Hf; cbn; [apply moves_refl|]. etrans; [apply (Hf st x)|by apply IH].
Qed.

Lemma lockedAvailable_moves db cid now : moves db (fst (lockedAvailable gen db cid now)).
Proof.
  unfold lockedAvailable, settleDeferredEditEarns. cbn [fst]. etrans; [|apply postExpiry_moves].
  match goal with |- moves db (fold_left ?f ?l db) =>
    generalize l; intros due; clear; revert db; induction due as [|[o x] due IH]; intros db; cbn; [apply moves_refl|] end.
  etrans; [apply settleDeferred_moves|apply IH].
Qed.

Lemma adjust_moves db input now db' out : adjustPoints gen db input now = Ok (db', out) -> moves db db'.
Proof.
  unfold adjustPoints. destruct (_ || _); [discriminate|].
  pose proof (lockedAvailable_moves db (aj_customerId input) now) as M.
  destruct (lockedAvailable gen db (aj_customerId input) now) as [db1 av] eqn:EL. cbn [fst] in M.
  destruct ((aj_points input <? 0) && (av <? - aj_points input)) eqn:Eb; [discriminate|].
  destruct (insert_row db1 _) as [db2 id] eqn:E. intros [= <- <-]. etrans; [exact M|].
  assert (Hav : av = lb_available (loyaltyBalance db1 (aj_customerId input) now)).
  { unfold lockedAvailable in EL. by injection EL as <- <-. }
  pose proof (available_bound db1 (aj_customerId input) now) as B.
  apply andb_false_iff in Eb.
  eapply spend_moves with (now := now); [exact E| |]; cbn; [split; cbn; [lia|done]|].
  rewrite <- Hav in *. destruct Eb as [Eb|Eb]; bool_props; lia.
Qed.

(** A redemption planned on the balance just locked is covered. *)
Lemma reserve_moves db cid o points now :
  points <= lb_available (loyaltyBalance db cid now) -> moves db (reserveRedemption gen db cid o points now).
Proof.
  intros Hp. unfold reserveRedemption. destruct (Z.leb_spec points 0); [apply moves_refl|].
  destruct (insert_row db _) as [db' id] eqn:E. cbn [fst].
  eapply spend_moves with (now := now); [exact E| |]; cbn; [split; cbn; lia|lia].
Qed.

Lemma postBonus_moves db input t : moves db (fst (postBonus gen db input t)).
Proof.
  unfold postBonus. destruct (_ || _) eqn:Eb; [apply moves_refl|]. bool_props.
  destruct (insert_row db _) as [db' id] eqn:E. cbn [fst]. eapply insert_credit_moves; [exact E| |]; cbn; [split; cbn; lia|lia].
Qed.
#[local] Hint Resolve moves_refl postBonus_moves postExpiry_moves : core.

Lemma reviewBonus_moves db rid now : moves db (fst (grantReviewBonus gen zod db rid now)).
Proof.
  unfold grantReviewBonus. destruct (ld_reviews db !! rid) as [r|]; [|done]. destruct (rv_customerId r) as [cid|] eqn:Ec; [|done].
  destruct (_ || _); [done|]. destruct (live_customer db cid) as [c|]; [|done]. destruct (_ && _); [done|].
  match goal with |- context [postBonus gen db ?i now] => pose proof (postBonus_moves db i now) as M; destruct (postBonus gen db i now) as [db1 [lid|]] end;
    cbn [fst] in *; [|exact M].
  etrans; [exact M|]. apply rtc_once. constructor.
Qed.
Lemma signupBonus_moves db cid now : moves db (fst (grantSignupBonus gen zod parse_date db cid now)).
Proof.
  unfold grantSignupBonus. destruct (ls_signupBonusSince _) as [since|]; [|done]. destruct (_ || _); [done|].
  destruct (live_customer db cid) as [c|]; [|done]. destruct (_ || _); [done|].
  match goal with |- context [postBonus gen db ?i now] => pose proof (postBonus_moves db i now) as M; destruct (postBonus gen db i now) end.
  exact M.
Qed.
Lemma firstOrderBonus_moves db o now : moves db (fst (grantFirstOrderBonus gen zod db o now)).
Proof.
  unfold grantFirstOrderBonus. destruct (_ || _); [done|]. destruct (ld_orders db !! o) as [order|]; [|done].
  destruct (od_customerId order) as [cid|]; [|done]. destruct (negb _); [done|]. destruct (other_paid_order _ _ _); [done|].
  match goal with |- context [postBonus gen db ?i now] => pose proof (postBonus_moves db i now) as M; destruct (postBonus gen db i now) end.
  exact M.
Qed.
Lemma paidRewards_moves db o paidAt now : moves db (fst (postPaidOrderRewards gen zod db o paidAt now)).
Proof.
  unfold postPaidOrderRewards. pose proof (postEarn_moves db o paidAt) as M1.
  destruct (postEarnForPaidOrder gen db o paidAt) as [db1 e]. pose proof (firstOrderBonus_moves db1 o now) as M2.
  destruct (grantFirstOrderBonus gen zod db1 o now) as [db2 b]. cbn [fst] in *. by etrans.
Qed.
Lemma grant_birthday_moves p y now st cid : moves (fst st) (fst (grant_birthday gen p y now st cid)).
Proof.
  destruct st as [db g]. unfold grant_birthday.
  match goal with |- context [postBonus gen db ?i now] => pose proof (postBonus_moves db i now) as M; destruct (postBonus gen db i now) end.
  exact M.
Qed.
Lemma birthdayBatch_moves db now after limit : moves db (fst (grantBirthdayBonusBatch gen zod db now after limit)).
Proof.
  unfold grantBirthdayBonusBatch. destruct (_ || _); [done|]. destruct (utc_date now) as [[y m] d].
  set (due := take limit _).
  pose proof (fold_moves (grant_birthday gen (program zod db) y now) due (db, 0) (grant_birthday_moves _ _ _)) as M.
  destruct (fold_left _ due (db, 0)) as [db1 g]. exact M.
Qed.
Lemma birthdays_loop_moves now fuel : forall db after g db' n,
  grant_birthdays_loop gen zod fuel db now after g = Some (db', n) -> moves db db'.
Proof.
  induction fuel as [|f IH]; intros db after g db' n H; cbn in H; [discriminate|].
  pose proof (birthdayBatch_moves db now after BIRTHDAY_BATCH) as M.
  destruct (grantBirthdayBonusBatch gen zod db now after BIRTHDAY_BATCH) as [db1 [k [nx|]]]; cbn [fst] in M.
  - etrans; [exact M|]. by eapply IH.
  - injection H as <- <-. exact M.
Qed.
Lemma reverseBonus_moves db lid actor now db' out : Forall sign_ok (ld_rows db) ->
  reverseBonus gen db lid actor now = Ok (db', out) -> moves db db'.
Proof.
  unfold reverseBonus. intros Hsign. destruct (List.find _ _) as [row|] eqn:Ef; [|by intros [= <- <-]].
  destruct (negb _) eqn:Ek; [discriminate|]. apply negb_false_iff, bool_decide_eq_true in Ek.
  apply List.find_some in Ef as [Hin _]. rewrite List.Forall_forall in Hsign. destruct (Hsign _ Hin) as [_ Hp].
  rewrite Ek in Hp.
  destruct (insert_row (fst _) _) as [db2 [id|]] eqn:E; [|discriminate]. intros [= <- <-].
  etrans; [apply (postExpiry_moves db (lr_customerId row) now)|].
  pose proof (available_bound (fst (postExpiry gen db (lr_customerId row) now)) (lr_customerId row) now).
  eapply spend_moves with (now := now); [exact E| |]; cbn; [split; cbn; [lia|done]|lia].
Qed.
End HandlerMoves.

(** C40: Every loyalty handler (expiry, checkout redemption of locked points, earn
    on payment, refund and cancellation reversal, order-edit sync, deferred
    settlement, manual adjustment and all bonuses) refines the abstract ledger:
    whatever its input, it performs a sequence of covered, signed, non-replaying
    appends. *)
Theorem loyalty_handlers_refine_ledger gen zod parse_date db now :
  (forall cid, moves db (fst (lockedAvailable gen db cid now))) /\
  (forall cid o points, points <= lb_available (loyaltyBalance db cid now) -> moves db (reserveRedemption gen db cid o points now)) /\
  (forall o paidAt, moves db (fst (postPaidOrderRewards gen zod db o paidAt now))) /\
  (forall input, moves db (fst (reconcileOrderLoyalty gen zod db input now))) /\
  (forall o e a t s, moves db (fst (syncEditEarn gen db o e a t s now))) /\
  (forall o, moves db (fst (settleDeferredEditEarnForOrder gen db o now))) /\
  (forall input db' out, adjustPoints gen db input now = Ok (db', out) -> moves db db') /\
  (forall rid, moves db (fst (grantReviewBonus gen zod db rid now))) /\
  (forall cid, moves db (fst (grantSignupBonus gen zod parse_date db cid now))) /\
  (forall db' n, grantBirthdayBonuses gen zod db now = Some (db', n) -> moves db db') /\
  (forall lid actor db' out, ledger_ok db -> reverseBonus gen db lid actor now = Ok (db', out) -> moves db db').
Proof.
  split; [intros; apply lockedAvailable_moves|]. split; [intros; by apply reserve_moves|].
  split; [intros; apply paidRewards_moves|]. split; [intros; apply reconcile_moves|].
  split; [intros; apply syncEditEarn_moves|]. split; [intros; apply settleDeferred_moves|].
  split; [intros ? ? ? H; by eapply adjust_moves|]. split; [intros; apply reviewBonus_moves|]. split; [intros; apply signupBonus_moves|].
  split; [intros db' n H; by eapply birthdays_loop_moves|].
  intros lid actor db' out (_ & _ & Hs). by apply reverseBonus_moves.
Qed.

(** ** Convergence of an order's loyalty rows *)

Definition tally (f : LedgerRow -> Z) (db : LedgerDb) (o : string) : Z := sum_rows f (rows_of_order db o).

Lemma rows_of_order_append db r o :
  rows_of_order (with_rows db (ld_rows db ++ [r])) o =
  rows_of_order db o ++ (if bool_decide (lr_orderId r = Some o) then [r] else []).
Proof. unfold rows_of_order. cbn. rewrite List.filter_app. cbn. by destruct (bool_decide _). Qed.

Lemma tally_append f db r o :
  tally f (with_rows db (ld_rows db ++ [r])) o = tally f db o + (if bool_decide (lr_orderId r = Some o) then f r else 0).
Proof.
  unfold tally, sum_rows. rewrite rows_of_order_append, map_app, sumZ_app. destruct (bool_decide _); cbn; lia.
Qed.

Definition ref_free (db : LedgerDb) (ref : string) : Prop := ref_taken (ld_rows db) (Some ref) = false.

Lemma insert_free db r s : lr_sourceRef r = Some s -> ref_free db s ->
  insert_row db r = (with_rows db (ld_rows db ++ [r]), Some (lr_id r)).
Proof. intros E H. unfold insert_row. rewrite E. unfold ref_free in H. by rewrite H. Qed.

Lemma ref_free_append db r s : ref_free db s -> lr_sourceRef r <> Some s -> ref_free (with_rows db (ld_rows db ++ [r])) s.
Proof.
  unfold ref_free. cbn. intros H1 H2. rewrite existsb_app, H1. cbn. by rewrite bool_decide_eq_false_2.
Qed.

(** A reference that no expiry write-off can have taken. *)
Definition not_expiry_ref (s : string) : Prop := forall cid t, ("expire:" +:+ cid +:+ ":" +:+ pretty (t : Z))%string <> s.

Lemma postExpiry_frame gen db cid now :
  (forall f o, tally f (fst (postExpiry gen db cid now)) o = tally f db o) /\
  (forall o, rows_of_order (fst (postExpiry gen db cid now)) o = rows_of_order db o) /\
  (forall s, ref_free db s -> not_expiry_ref s -> ref_free (fst (postExpiry gen db cid now)) s).
Proof.
  unfold postExpiry. destruct (_ <=? 0); cbn [fst]; [done|]. unfold insert_row.
  destruct (ref_taken _ _); cbn [fst]; [done|]. split; [|split].
  - intros f o. rewrite tally_append. cbn [lr_orderId]. rewrite bool_decide_eq_false_2 by discriminate. lia.
  - intros o. rewrite rows_of_order_append. cbn [lr_orderId]. rewrite bool_decide_eq_false_2 by discriminate. apply app_nil_r.
  - intros s Hs Hn. apply ref_free_append; [done|]. cbn. intros [= E]. by eapply Hn.
Qed.

Section Convergence.
Context (gen : nat -> string) (zod : string -> bool).

Lemma restore_leg_tally db input cid d now :
  ref_free db (rc_sourceRef input +:+ ":restore")%string ->
  let db' := fst (restore_leg gen zod db input cid d now) in
  let o := rc_orderId input in
  tally redeemed_of db' o = tally redeemed_of db o /\ tally restored_of db' o = tally restored_of db o + Z.max 0 d /\
  tally earned_of db' o = tally earned_of db o /\ tally earn_reversed_of db' o = tally earn_reversed_of db o /\
  (ref_free db (rc_sourceRef input +:+ ":earn")%string -> ref_free db' (rc_sourceRef input +:+ ":earn")%string).
Proof.
  intros Hf. cbv zeta. unfold restore_leg. destruct (Z.leb_spec d 0); cbn [fst]; [repeat split; (done || lia)|].
  erewrite insert_free; [|reflexivity|exact Hf]. cbn [fst]. rewrite !tally_append. cbn [lr_orderId].
  rewrite bool_decide_eq_true_2 by done. unfold redeemed_of, restored_of, earned_of, earn_reversed_of. cbn -[tally].
  split; [lia|]. split; [lia|]. split; [lia|]. split; [lia|].
  intros He. apply ref_free_append; [done|]. cbn. intros [= E]. by apply (inj _) in E.
Qed.

Lemma earn_leg_tally db input cid d now :
  ref_free db (rc_sourceRef input +:+ ":earn")%string -> not_expiry_ref (rc_sourceRef input +:+ ":earn")%string ->
  let db' := fst (earn_leg gen db input cid d now) in
  let o := rc_orderId input in
  tally redeemed_of db' o = tally redeemed_of db o /\ tally restored_of db' o = tally restored_of db o /\
  tally earned_of db' o = tally earned_of db o /\ tally earn_reversed_of db' o = tally earn_reversed_of db o + Z.max 0 d.
Proof.
  intros Hf Hn. cbv zeta. unfold earn_leg. destruct (Z.leb_spec d 0); cbn [fst]; [repeat split; (done || lia)|].
  destruct (postExpiry_frame gen db cid now) as (FT & _ & FR). set (db1 := fst (postExpiry gen db cid now)) in *.
  erewrite insert_free; [|reflexivity|exact (FR _ Hf Hn)]. cbn [fst]. rewrite !tally_append, !FT. cbn [lr_orderId].
  rewrite bool_decide_eq_true_2 by done. unfold redeemed_of, restored_of, earned_of, earn_reversed_of. cbn -[tally lb_available].
  repeat split; lia.
Qed.

(** Reversing loyalty for money given back converges: each call brings the
    points restored and the earn reversed (posted or recorded as shortfall) up
    to the exact proportional target of what the order redeemed and earned,
    never beyond what was already given back before, whatever the sequence of
    partial refunds; repeating it with the same proportion posts nothing. *)
Theorem order_loyalty_converges db input now :
  rows_of_order db (rc_orderId input) <> [] ->
  ref_free db (rc_sourceRef input +:+ ":restore")%string -> ref_free db (rc_sourceRef input +:+ ":earn")%string ->
  not_expiry_ref (rc_sourceRef input +:+ ":earn")%string ->
  let o := rc_orderId input in
  let target x := proportionalTarget x (rc_num input) (rc_den input) in
  let db' := fst (reconcileOrderLoyalty gen zod db input now) in
  tally redeemed_of db' o = tally redeemed_of db o /\ tally earned_of db' o = tally earned_of db o /\
  tally restored_of db' o = Z.max (tally restored_of db o) (target (tally redeemed_of db o)) /\
  tally earn_reversed_of db' o = Z.max (tally earn_reversed_of db o) (target (Z.max 0 (tally earned_of db o))) /\
  (forall input' now', rc_orderId input' = o -> rc_num input' = rc_num input -> rc_den input' = rc_den input ->
     reconcileOrderLoyalty gen zod db' input' now' = (db', reconcile_none)).
Proof.
  intros Hne Hr He Hx o target db'.
  assert (T : tally redeemed_of db' o = tally redeemed_of db o /\ tally earned_of db' o = tally earned_of db o /\
    tally restored_of db' o = Z.max (tally restored_of db o) (target (tally redeemed_of db o)) /\
    tally earn_reversed_of db' o = Z.max (tally earn_reversed_of db o) (target (Z.max 0 (tally earned_of db o)))).
  { subst db' o target. unfold reconcileOrderLoyalty.
    destruct (rows_of_order db (rc_orderId input)) as [|r0 rs] eqn:Er; [done|].
    rewrite <- Er.
    fold (tally redeemed_of db (rc_orderId input)) (tally restored_of db (rc_orderId input))
         (tally earned_of db (rc_orderId input)) (tally earn_reversed_of db (rc_orderId input)).
    set (d1 := _ - tally restored_of _ _). set (d2 := _ - tally earn_reversed_of _ _).
    pose proof (restore_leg_tally db input (lr_customerId r0) d1 now Hr) as (A1 & A2 & A3 & A4 & A5).
    destruct (restore_leg gen zod db input (lr_customerId r0) d1 now) as [db1 x]. cbn [fst] in *.
    pose proof (earn_leg_tally db1 input (lr_customerId r0) d2 now (A5 He) Hx) as (B1 & B2 & B3 & B4).
    destruct (earn_leg gen db1 input (lr_customerId r0) d2 now) as [db2 [y z]]. cbn [fst] in *.
    subst d1 d2. cbv beta. lia. }
  destruct T as (T1 & T2 & T3 & T4). repeat (split; [assumption|]).
  intros input' now' Eo En Ed. unfold reconcileOrderLoyalty. rewrite Eo, En, Ed.
  destruct (rows_of_order db' o) as [|r0 rs] eqn:Er; [done|]. rewrite <- Er.
  fold (tally redeemed_of db' o) (tally restored_of db' o) (tally earned_of db' o) (tally earn_reversed_of db' o).
  rewrite T1, T2, T3, T4. subst target. cbv beta.
  unfold restore_leg. rewrite (proj2 (Z.leb_le _ 0)) by lia. unfold earn_leg. rewrite (proj2 (Z.leb_le _ 0)) by lia. done.
Qed.

(** After an order edit on an order that has earned, the points tracked for
    it (posted or recorded as shortfall) are exactly the edited target. *)
Theorem edit_earn_tracks_target db orderId editId actor targetEarn now order cid :
  ld_orders db !! orderId = Some order -> od_customerId order = Some cid ->
  has_earn (rows_of_order db orderId) = true -> ref_free db ("order_edit:" +:+ editId +:+ ":earn")%string ->
  tally earned_of (fst (postEditEarnAdjustment gen db orderId editId actor targetEarn now)) orderId = Z.max 0 targetEarn.
Proof.
  intros Eo Ec He Hf. unfold postEditEarnAdjustment. rewrite Eo, Ec, He. cbn [negb].
  fold (tally earned_of db orderId). set (delta := Z.max 0 targetEarn - tally earned_of db orderId).
  destruct (Z.eqb_spec delta 0); [cbn [fst]; lia|]. destruct (Z.ltb_spec 0 delta).
  - erewrite insert_free; [|reflexivity|exact Hf]. cbn [fst]. rewrite tally_append. cbn [lr_orderId].
    rewrite bool_decide_eq_true_2 by done. unfold earned_of at 2. cbn -[tally]. lia.
  - destruct (postExpiry_frame gen db cid now) as (FT & _ & FR). set (db1 := fst (postExpiry gen db cid now)) in *.
    erewrite insert_free; [|reflexivity|]. 2: { apply FR; [exact Hf|]. intros c t. discriminate. }
    cbn [fst]. rewrite tally_append, FT. cbn [lr_orderId]. rewrite bool_decide_eq_true_2 by done.
    unfold earned_of at 2. cbn -[tally lb_available]. lia.
Qed.
End Convergence.

(** ** The birthday pass *)

Section BirthdayPass.
Context (gen : nat -> string) (zod : string -> bool) (now : Z).
Let year := fst (fst (utc_date now)).
Let month := snd (fst (utc_date now)).
Let day := snd (utc_date now).

(** Today is the customer's birthday, and the account is verified and live. *)
Definition birthday_today (c : Customer) : bool :=
  match cu_birthday c with Some (bm, bd) => (bm =? month) && existsb (Z.eqb bd) (birthday_days year month day) | None => false end &&
  cu_emailVerified c && match cu_deletedAt c with Some _ => false | None => true end.
Definition after_ok (after : option string) (cid : string) : bool :=
  match after with Some a => str_after cid a | None => true end.
Definition granted (db : LedgerDb) (cid : string) : Prop := ref_taken (ld_rows db) (Some (birthday_ref cid year)) = true.

Lemma utc_date_eta : utc_date now = (year, month, day).
Proof. unfold year, month, day. by destruct (utc_date now) as [[? ?] ?]. Qed.

Lemma ref_taken_app rows r ref : ref_taken rows ref = true -> ref_taken (rows ++ [r]) ref = true.
Proof. destruct ref as [s|]; cbn; [|done]. rewrite existsb_app. by intros ->. Qed.

Lemma in_birthday_due db after cid c :
  ld_customers db !! cid = Some c -> birthday_today c = true -> after_ok after cid = true ->
  cid ∈ birthday_due db year month day after \/ granted db cid.
Proof.
  intros Hc Hb Ha.
  destruct (existsb (fun r => String.eqb (lr_customerId r) cid && bool_decide (lr_sourceRef r = Some (birthday_ref cid year))) (ld_rows db)) eqn:Eg.
  - right. unfold granted, ref_taken. apply existsb_exists in Eg as (r & Hr & Hx). apply andb_true_iff in Hx as [_ Hx].
    apply existsb_exists. by exists r.
  - left. unfold birthday_due. apply list_elem_of_In. rewrite <- list_elem_of_In, (sort_stable_perm str_after), list_elem_of_In, in_map_iff.
    exists (cid, c). split; [done|]. apply filter_In. split; [apply list_elem_of_In; by apply elem_of_map_to_list|].
    cbn beta iota. rewrite Eg. unfold birthday_today in Hb. unfold after_ok in Ha. rewrite Hb, Ha. done.
Qed.

Lemma birthday_due_inv db after cid :
  cid ∈ birthday_due db year month day after -> after_ok after cid = true /\ is_Some (ld_customers db !! cid).
Proof.
  unfold birthday_due. rewrite (sort_stable_perm str_after), list_elem_of_In, in_map_iff.
  intros ([k c] & Hk & Hin). cbn in Hk. subst k. apply filter_In in Hin as [Hin Hp].
  apply list_elem_of_In, elem_of_map_to_list in Hin. split; [|by exists c].
  apply andb_true_iff in Hp as [Hp _]. apply andb_true_iff in Hp as [_ Hp]. exact Hp.
Qed.

Lemma grant_birthday_frame p db g cid :
  let st := grant_birthday gen p year now (db, g) cid in
  ld_customers (fst st) = ld_customers db /\ ld_config (fst st) = ld_config db /\
  (forall ref, ref_taken (ld_rows db) ref = true -> ref_taken (ld_rows (fst st)) ref = true) /\
  (0 < ls_birthdayBonusPoints p <= 1000000 -> granted (fst st) cid).
Proof.
  unfold grant_birthday, postBonus. cbn [bi_points].
  destruct (negb (is_safe (ls_birthdayBonusPoints p)) || (ls_birthdayBonusPoints p <=? 0)) eqn:E; cbn [fst].
  - split; [done|]. split; [done|]. split; [done|]. intros Hp. exfalso.
    assert (X : is_safe (ls_birthdayBonusPoints p) = true) by (unfold is_safe, MAX_SAFE; rewrite !(proj2 (Z.leb_le _ _)) by lia; done).
    rewrite X, (proj2 (Z.leb_gt _ _)) in E by lia. discriminate.
  - unfold insert_row. cbn [lr_sourceRef]. destruct (ref_taken _ _) eqn:Et; cbn [fst].
    + done.
    + split; [done|]. split; [done|]. split; [intros; by apply ref_taken_app|].
      intros _. unfold granted. cbn. rewrite existsb_app. cbn. rewrite bool_decide_eq_true_2 by done. by rewrite orb_true_r.
Qed.

Lemma grant_all_frame p due : forall db g,
  let st := fold_left (grant_birthday gen p year now) due (db, g) in
  ld_customers (fst st) = ld_customers db /\ ld_config (fst st) = ld_config db /\
  (forall ref, ref_taken (ld_rows db) ref = true -> ref_taken (ld_rows (fst st)) ref = true) /\
  (0 < ls_birthdayBonusPoints p <= 1000000 -> forall cid, cid ∈ due -> granted (fst st) cid).
Proof.
  induction due as [|x due IH]; intros db g; cbn [fold_left].
  - cbn. split; [done|]. split; [done|]. split; [done|]. intros _ c Hc. inversion Hc.
  - pose proof (grant_birthday_frame p db g x) as (F1 & F2 & F3 & F4). cbn zeta in *.
    destruct (grant_birthday gen p year now (db, g) x) as [db1 g1]. cbn [fst] in *.
    destruct (IH db1 g1) as (I1 & I2 & I3 & I4). cbn zeta in *.
    split; [congruence|]. split; [congruence|]. split; [by auto|].
    intros Hp c Hc. apply elem_of_cons in Hc as [->|Hc]; [apply I3, F4, Hp|by apply I4].
Qed.

Lemma sorted_take_last (L : list string) n x y :
  StronglySorted (fun a b => str_after a b = false) L -> last (take n L) = Some x -> y ∈ L -> str_after y x = false ->
  y ∈ take n L.
Proof.
  intros Hs Hl Hy Hyx. rewrite <- (take_drop n L) in Hy, Hs. apply elem_of_app in Hy as [Hy|Hy]; [done|].
  apply last_Some in Hl as [l' El]. rewrite El in *.
  assert (Hx : x ∈ l' ++ [x]) by (apply elem_of_app; right; by left).
  assert (Hxy : str_after x y = false).
  { clear El Hyx. induction l' as [|z l' IH]; cbn in Hs; inversion Hs as [|? ? Hs' Hz]; subst.
    - rewrite Forall_forall in Hz. by apply Hz.
    - apply IH; [done|]. apply elem_of_app. right. by left. }
  destruct (str_after_total x y) as [H|[->|H]]; [congruence|done|congruence].
Qed.

Lemma birthday_due_sorted db after : StronglySorted (fun a b => str_after a b = false) (birthday_due db year month day after).
Proof. apply sort_stable_sorted; [apply str_after_asym|apply str_after_cotrans]. Qed.

Lemma batch_progress db after db' n next :
  ls_enabled (program zod db) = true -> 0 < ls_birthdayBonusPoints (program zod db) <= 1000000 ->
  grantBirthdayBonusBatch gen zod db now after BIRTHDAY_BATCH = (db', (n, next)) ->
  ld_customers db' = ld_customers db /\ ld_config db' = ld_config db /\
  (forall ref, ref_taken (ld_rows db) ref = true -> ref_taken (ld_rows db') ref = true) /\
  (forall cid c, ld_customers db !! cid = Some c -> birthday_today c = true -> after_ok after cid = true ->
     granted db' cid \/ exists x, next = Some x /\ str_after cid x = true) /\
  (forall x, next = Some x -> after_ok after x = true /\ is_Some (ld_customers db !! x)).
Proof.
  intros He Hp H. unfold grantBirthdayBonusBatch in H. rewrite He, (proj2 (Z.leb_gt _ _)), utc_date_eta in H by lia.
  cbn [negb orb] in H. set (L := birthday_due db year month day after) in *.
  pose proof (grant_all_frame (program zod db) (take BIRTHDAY_BATCH L) db 0) as (F1 & F2 & F3 & F4). cbn zeta in *.
  destruct (fold_left _ (take BIRTHDAY_BATCH L) (db, 0)) as [db1 g]. cbn [fst] in *.
  assert (Edb : db' = db1 /\ next = if (length (take BIRTHDAY_BATCH L) <? BIRTHDAY_BATCH)%nat then None else last (take BIRTHDAY_BATCH L))
    by (split; congruence).
  clear H. destruct Edb as [-> Enext]. split; [done|]. split; [done|]. split; [done|]. split.
  - intros cid c Hc Hb Ha. destruct (in_birthday_due db after cid c Hc Hb Ha) as [Hin|Hg]; [|left; by apply F3].
    fold L in Hin. destruct (Nat.ltb_spec (length (take BIRTHDAY_BATCH L)) BIRTHDAY_BATCH) as [Hlt|Hge].
    + left. apply F4; [done|]. rewrite take_ge; [done|]. rewrite length_take in Hlt. lia.
    + destruct (last (take BIRTHDAY_BATCH L)) as [x|] eqn:El.
      2: { apply last_None in El. rewrite El in Hge. cbn in Hge. unfold BIRTHDAY_BATCH in Hge. lia. }
      destruct (str_after cid x) eqn:Ex; [right; by exists x|]. left. apply F4; [done|].
      eapply sorted_take_last; [apply birthday_due_sorted|exact El|done|done].
  - intros x ->. destruct (_ <? _)%nat; [discriminate|]. symmetry in Enext. apply last_Some in Enext as [l' El].
    apply birthday_due_inv. fold L. apply (subseteq_take BIRTHDAY_BATCH L). rewrite El. apply elem_of_app. right. by left.
Qed.

Definition remaining (customers : gmap string Customer) (after : option string) : nat :=
  length (List.filter (after_ok after) (map fst (map_to_list customers))).

Lemma filter_length_lt {A} (p q : A -> bool) l x :
  (forall y, q y = true -> p y = true) -> x ∈ l -> p x = true -> q x = false ->
  (length (List.filter q l) < length (List.filter p l))%nat.
Proof.
  intros Hpq Hx Hp Hq. assert (Hle : forall l, (length (List.filter q l) <= length (List.filter p l))%nat).
  { clear -Hpq. induction l as [|y l IH]; cbn; [lia|]. destruct (q y) eqn:E; [rewrite (Hpq y E); cbn; lia|].
    destruct (p y); cbn; lia. }
  induction Hx as [y l|y z l _ IH]; cbn.
  - rewrite Hp, Hq. cbn. specialize (Hle l). lia.
  - specialize (IH Hp Hq). destruct (q z) eqn:E; [rewrite (Hpq z E); cbn; lia|]. destruct (p z); cbn; lia.
Qed.

Lemma loop_complete fuel : forall db after g,
  ls_enabled (program zod db) = true -> 0 < ls_birthdayBonusPoints (program zod db) <= 1000000 ->
  (remaining (ld_customers db) after < fuel)%nat ->
  exists db' n, grant_birthdays_loop gen zod fuel db now after g = Some (db', n) /\
    (forall ref, ref_taken (ld_rows db) ref = true -> ref_taken (ld_rows db') ref = true) /\
    (forall cid c, ld_customers db !! cid = Some c -> birthday_today c = true -> after_ok after cid = true -> granted db' cid).
Proof.
  induction fuel as [|f IH]; intros db after g He Hp Hf; [lia|]. cbn [grant_birthdays_loop].
  destruct (grantBirthdayBonusBatch gen zod db now after BIRTHDAY_BATCH) as [db1 [k next]] eqn:E.
  destruct (batch_progress _ _ _ _ _ He Hp E) as (B1 & B2 & B3 & B4 & B5).
  destruct next as [x|].
  - destruct (B5 x eq_refl) as [Ha [cx Hx]].
    destruct (IH db1 (Some x) (g + k)) as (db' & n & L1 & L2 & L3).
    + unfold program in *. by rewrite B2.
    + unfold program in *. by rewrite B2.
    + assert (Hlt : (remaining (ld_customers db) (Some x) < remaining (ld_customers db) after)%nat).
      { apply (filter_length_lt _ _ _ x); [| |done|cbn; apply str_after_irrefl].
        - intros y Hy. cbn in Hy. destruct after as [a|]; [|done]. cbn in *. by eapply str_after_trans.
        - apply list_elem_of_In, in_map_iff. exists (x, cx). split; [done|]. apply list_elem_of_In. by apply elem_of_map_to_list. }
      rewrite B1. lia.
    + exists db', n. split; [done|]. split; [by auto|]. intros cid c Hc Hb Hac.
      destruct (B4 cid c Hc Hb Hac) as [Hg|(x' & [= <-] & Hx')]; [by apply L2|].
      apply (L3 cid c); [by rewrite B1|done|exact Hx'].
  - exists db1, (g + k). split; [done|]. split; [done|]. intros cid c Hc Hb Hac.
    destruct (B4 cid c Hc Hb Hac) as [Hg|(x' & [=] & _)]. done.
Qed.

Lemma program_birthday_range db : 0 <= ls_birthdayBonusPoints (program zod db) <= 1000000.
Proof.
  unfold program, loyaltySettingsFromConfig. destruct (ld_config db ≫= field "loyalty") as [[| | | | |fs]|]; cbn; try lia.
  destruct (parse_settings zod fs) as [s|] eqn:E; cbn; [|lia]. apply parse_settings_valid in E as ((_&_&_&_&_&_&_&_&V&_) & _). exact V.
Qed.

(** The birthday pass always terminates, and when the program pays a birthday
    bonus every verified, live customer whose birthday is today (29 February is
    kept on the 28th of a common year) holds this year's bonus afterwards,
    however many batches it takes and whoever was granted before. *)
Theorem birthday_pass_complete db :
  exists db' n, grantBirthdayBonuses gen zod db now = Some (db', n) /\
    (ls_enabled (program zod db) = true -> 0 < ls_birthdayBonusPoints (program zod db) ->
     forall cid c, ld_customers db !! cid = Some c -> birthday_today c = true -> granted db' cid).
Proof.
  unfold grantBirthdayBonuses. pose proof (program_birthday_range db) as Hr.
  destruct (ls_enabled (program zod db)) eqn:He; [destruct (Z.leb_spec (ls_birthdayBonusPoints (program zod db)) 0) as [Hz|Hz]|].
  - exists db, 0. cbn [grant_birthdays_loop]. unfold grantBirthdayBonusBatch. rewrite He, (proj2 (Z.leb_le _ _)) by lia. cbn.
    split; [done|]. intros; lia.
  - destruct (loop_complete (S (size (ld_customers db))) db None 0 He ltac:(lia)) as (db' & n & L1 & L2 & L3).
    + unfold remaining. rewrite (filter_ext _ (fun _ => true)) by done.
      assert (X : forall l : list string, List.filter (fun _ => true) l = l) by (induction l; cbn; congruence).
      rewrite X, length_map. rewrite length_map_to_list. lia.
    + exists db', n. split; [done|]. intros _ _ cid c Hc Hb. by apply (L3 cid c).
  - exists db, 0. cbn [grant_birthdays_loop]. unfold grantBirthdayBonusBatch. rewrite He. cbn. done.
Qed.
End BirthdayPass.

(** ** A sample store *)

Definition sample_gen (n : nat) : string := ("row-" +:+ pretty (N.of_nat n))%string.
Definition no_datetime (_ : string) : bool := false.
Definition sample_customer : Customer :=
  {| cu_email := "ann@example.com"; cu_emailVerified := true; cu_createdAt := 0; cu_deletedAt := None;
     cu_birthday := Some (2, 29) |}%string.
Definition sample_order : LOrder :=
  {| od_customerId := Some "c1"%string;
     od_metadata := Some (JObj [("loyalty"%string, JObj [("earnPoints"%string, JNum 80); ("redeemPoints"%string, JNum 30)])]);
     od_state := Paid; od_grandTotal := 5000 |}.
Definition sample_config : json :=
  JObj [("loyalty", JObj [("enabled", JBool true); ("birthdayBonusPoints", JNum 40)])]%string.
Definition sample_empty : LedgerDb :=
  {| ld_rows := []; ld_customers := <["c1" := sample_customer]> ∅; ld_orders := <["o1" := sample_order]> ∅; ld_reviews := ∅;
     ld_money := {| mt_payments := []; mt_refunds := []; mt_edits := [] |}; ld_config := Some sample_config |}%string.
Definition sample_bonus : BonusInput :=
  {| bi_customerId := "c1"; bi_points := 100; bi_rule := rule_signup; bi_sourceRef := "bonus:signup:c1"; bi_expiryDays := None;
     bi_orderId := None |}%string.
(** A signup bonus, a redemption of 30 points and the earn of the paid order. *)
Definition sample_paid : LedgerDb :=
  fst (postEarnForPaidOrder sample_gen
         (reserveRedemption sample_gen (fst (postBonus sample_gen sample_empty sample_bonus 5)) "c1" "o1" 30 10) "o1" 20)%string.

Lemma sample_empty_ok : ledger_ok sample_empty.
Proof.
  split; [|split; [constructor|constructor]]. intros cid. unfold vis_total. by destruct (ld_customers sample_empty !! cid).
Qed.

Lemma ledger_moves_safe_witness :
  vis_total (fst (postBonus sample_gen sample_empty sample_bonus 5)) "c1"%string = 100 /\
  ledger_ok (fst (postBonus sample_gen sample_empty sample_bonus 5)).
Proof.
  split; [vm_compute; reflexivity|].
  exact (proj1 (ledger_moves_safe sample_empty (fst (postBonus sample_gen sample_empty sample_bonus 5)) sample_empty_ok
    (postBonus_moves sample_gen sample_empty sample_bonus 5))).
Defined.

Definition sample_refund : ReconcileInput :=
  {| rc_orderId := "o1"; rc_num := 2500; rc_den := 5000; rc_sourceRef := "refund:r1"; rc_actor := "admin"; rc_refundId := Some "r1";
     rc_settings := None |}%string.

Lemma order_loyalty_converges_witness :
  snd (reconcileOrderLoyalty sample_gen no_datetime sample_paid sample_refund 30) =
    {| ro_restored := 15; ro_reversed := 40; ro_shortfall := 0 |} /\
  snd (reconcileOrderLoyalty sample_gen no_datetime
    (fst (reconcileOrderLoyalty sample_gen no_datetime sample_paid sample_refund 30)) sample_refund 40) = reconcile_none.
Proof.
  split; [vm_compute; reflexivity|].
  assert (C : not_expiry_ref (rc_sourceRef sample_refund +:+ ":earn")%string) by (intros c t; cbn; discriminate).
  pose proof (order_loyalty_converges sample_gen no_datetime sample_paid sample_refund 30 ltac:(vm_compute; discriminate)
    ltac:(vm_compute; reflexivity) ltac:(vm_compute; reflexivity) C) as (_ & _ & _ & _ & H).
  rewrite (H sample_refund 40 eq_refl eq_refl eq_refl). reflexivity.
Defined.

Lemma edit_earn_tracks_target_witness :
  tally earned_of (fst (postEditEarnAdjustment sample_gen sample_paid "o1" "e1" "admin" 55 60)) "o1" = 55.
Proof.
  refine (edit_earn_tracks_target sample_gen sample_paid "o1" "e1" "admin" 55 60 sample_order "c1" _ _ _ _);
    vm_compute; reflexivity.
Defined.
