(* ===== verification/AccountCredit.v ===== *)
(** Monetary coupon credit: [src/packages/api/src/account-credit/{math,service}.ts].

    An account holds a balance in cents. Orders hold part of it while they await
    payment ([RESERVE]/[PENDING] entries), redeem it when a payment settles, or
    release it. The state is one store's tables; every handler runs under order
    and account row locks, so a run of the system is a sequence of handlers. An
    error rolls the handler's transaction back: it is [Err] and has no state.

    What is restored by refunds and order edits, unit by unit, is planned and read
    back in [EditFunding]. *)

From S2P Require Import Prelude JsNumber Json OrderState Tender.
From Stdlib Require Import ZArith QArith Lia Bool String Ascii.
From stdpp Require Import base list strings gmap sorting.
Local Open Scope Z_scope.

(** ** Arithmetic ([math.ts]) *)

Inductive CreditError :=
  | invalid_input | missing | unavailable | conflict | allocation | invariant
  | imported_reconciliation (* ImportedFinancialReconciliationError *)
  | constraint_violation (* raised by the database *)
  | other_error (* any other exception *).

Definition MAX_CREDIT_CENTS : Z := 2147483647.

Definition assertCents (value : Z) (positive : bool) : result CreditError unit :=
  if negb (is_safe value) || (value <? (if positive then 1 else 0)) || (MAX_CREDIT_CENTS <? value)
  then Err invalid_input else Ok tt.

Fixpoint no_space_or_at (s : string) : bool :=
  match s with
  | EmptyString => true
  | String c r => negb (ascii_space c) && negb (Ascii.eqb c "@"%char) && no_space_or_at r
  end.
(** [[^\s@]+\.[^\s@]+$]: a dot with something on each side. *)
Fixpoint dot_then_some (s : string) : bool :=
  match s with
  | EmptyString => false
  | String c r => (Ascii.eqb c "."%char && negb (String.eqb r EmptyString)) || dot_then_some r
  end.
Definition domain_ok (s : string) : bool :=
  match s with String _ r => no_space_or_at s && dot_then_some r | EmptyString => false end.
(** [[^\s@]+@...]: split at the first [@]. *)
Fixpoint mailbox_ok (seen : bool) (s : string) : bool :=
  match s with
  | EmptyString => false
  | String c r =>
      if Ascii.eqb c "@"%char then seen && domain_ok r
      else negb (ascii_space c) && mailbox_ok true r
  end.
Definition normalizeCreditEmail (email : string) : result CreditError string :=
  let normalized := to_lower (trim email) in
  if (320 <? Z.of_nat (String.length normalized)) || negb (mailbox_ok false normalized) then Err invalid_input
  else Ok normalized.

Record Hold := { ho_amount : Z; ho_orderId : option string }.

(** [exceptOrderId !== undefined && hold.orderId === exceptOrderId] *)
Definition hold_excepted (exceptOrderId : option string) (h : Hold) : bool :=
  match exceptOrderId with Some o => bool_decide (ho_orderId h = Some o) | None => false end.

Definition add_hold (exceptOrderId : option string) (held : Z) (h : Hold) : result CreditError Z :=
  let! _ := assertCents (ho_amount h) false in
  if hold_excepted exceptOrderId h then Ok held
  else if negb (is_safe (held + ho_amount h)) then Err invariant else Ok (held + ho_amount h).

Definition availableCredit (balance : Z) (holds : list Hold) (exceptOrderId : option string) : result CreditError Z :=
  let! _ := assertCents balance false in
  let! held := fold_result (add_hold exceptOrderId) 0 holds in
  if balance <? held then Err invariant else Ok (balance - held).

Definition AccountCreditAllocation : Type := gmap string (list Z).

Definition add_unit (total cents : Z) : result CreditError Z :=
  let! _ := assertCents cents false in
  if negb (is_safe (total + cents)) || (MAX_CREDIT_CENTS <? total + cents) then Err allocation else Ok (total + cents).
Definition add_line (alloc : AccountCreditAllocation) (total : Z) (line : string * Z) : result CreditError Z :=
  match alloc !! fst line with
  | Some units =>
      if negb (is_safe (snd line)) || (snd line <? 1) || negb (Z.of_nat (length units) =? snd line) then Err allocation
      else fold_result add_unit total units
  | None => Err allocation
  end.
Definition validateAllocation (alloc : AccountCreditAllocation) (lines : list (string * Z)) (applied : Z) : result CreditError unit :=
  let! _ := assertCents applied false in
  if negb (size alloc =? length lines)%nat then Err allocation else
  let! total := fold_result (add_line alloc) 0 lines in
  if negb (total =? applied) then Err allocation else Ok tt.

Definition equalAllocation (a : option AccountCreditAllocation) (b : AccountCreditAllocation) : bool :=
  match a with None => false | Some a => bool_decide (a = b) end.

Definition restorationAmount (units : list Z) (restoredQuantity quantity : Z) (expectedCents : option Z) : result CreditError Z :=
  if negb (is_safe restoredQuantity) || (restoredQuantity <? 0) || negb (is_safe quantity) || (quantity <? 1) ||
     (Z.of_nat (length units) <? restoredQuantity + quantity) then Err allocation else
  let! _ := map_result (fun cents => assertCents cents false) units in
  let amount := sumZ (take (Z.to_nat quantity) (drop (Z.to_nat restoredQuantity) units)) in
  let! _ := assertCents amount false in
  match expectedCents with
  | Some e => if negb (amount =? e) then Err conflict else Ok amount
  | None => Ok amount
  end.

(** *** What the arithmetic accepts *)

Lemma assertCents_ok v p : assertCents v p = Ok tt <-> (if p then 1 else 0) <= v <= MAX_CREDIT_CENTS.
Proof.
  unfold assertCents, is_safe, MAX_SAFE, MAX_CREDIT_CENTS. destruct (_ || _) eqn:E.
  - split; [discriminate|]. intros [H1 H2]. exfalso.
    rewrite (proj2 (Z.ltb_ge v _)), (proj2 (Z.ltb_ge _ v)), !(proj2 (Z.leb_le _ _)) in E by (destruct p; lia). discriminate.
  - bool_props. destruct p; split; (done || lia).
Qed.
Lemma assertCents_unit v p u : assertCents v p = Ok u -> (if p then 1 else 0) <= v <= MAX_CREDIT_CENTS.
Proof. destruct u. apply assertCents_ok. Qed.

Definition held_except (o : option string) (holds : list Hold) : Z :=
  sumZ (map ho_amount (List.filter (fun h => negb (hold_excepted o h)) holds)).

Lemma fold_holds o holds : forall a held, fold_result (add_hold o) a holds = Ok held ->
  held = a + held_except o holds /\ Forall (fun h => 0 <= ho_amount h <= MAX_CREDIT_CENTS) holds.
Proof.
  unfold held_except. induction holds as [|h hs IH]; intros a held H; cbn in H.
  - injection H as <-. cbn. split; [lia|constructor].
  - destruct (add_hold o a h) as [a'|] eqn:E; [|discriminate]. cbn in H. destruct (IH _ _ H) as [I1 I2].
    unfold add_hold in E. destruct (assertCents (ho_amount h) false) eqn:Ea; [|discriminate]. cbn in E.
    apply assertCents_unit in Ea. cbn. destruct (hold_excepted o h); cbn.
    + injection E as <-. split; [lia|by constructor].
    + destruct (negb _); [discriminate|]. injection E as <-. split; [lia|by constructor].
Qed.

Lemma availableCredit_ok balance holds o v : availableCredit balance holds o = Ok v ->
  v = balance - held_except o holds /\ 0 <= v /\ 0 <= balance <= MAX_CREDIT_CENTS.
Proof.
  unfold availableCredit. intros H. inv_ok. apply assertCents_unit in Em. destruct (fold_holds _ _ _ _ Em0) as [-> _].
  bool_props. lia.
Qed.

Definition line_covered (alloc : AccountCreditAllocation) (line : string * Z) : Prop :=
  exists units, alloc !! fst line = Some units /\ 1 <= snd line /\ Z.of_nat (length units) = snd line /\
                Forall (fun c => 0 <= c) units.
Definition line_cents (alloc : AccountCreditAllocation) (line : string * Z) : Z :=
  match alloc !! fst line with Some units => sumZ units | None => 0 end.

Lemma fold_units units : forall a t, 0 <= a ->
  fold_result add_unit a units = Ok t <->
  Forall (fun c => 0 <= c) units /\ t = a + sumZ units /\ (units = [] \/ a + sumZ units <= MAX_CREDIT_CENTS).
Proof.
  induction units as [|c cs IH]; intros a t Ha; cbn [fold_result sumZ].
  - split; [intros [= <-]; split; [constructor|split; [lia|by left]]|intros (_ & -> & _); f_equal; lia].
  - assert (E : add_unit a c = if (0 <=? c) && (a + c <=? MAX_CREDIT_CENTS) then Ok (a + c) else add_unit a c).
    { destruct (_ && _) eqn:Eb; [|done]. bool_props. unfold add_unit.
      rewrite (proj2 (assertCents_ok c false)) by lia. cbn. unfold is_safe, MAX_SAFE, MAX_CREDIT_CENTS in *.
      rewrite !(proj2 (Z.leb_le _ _)), (proj2 (Z.ltb_ge _ _)) by lia. done. }
    split.
    + destruct (add_unit a c) as [a'|] eqn:Ea; [|discriminate]. cbn. intros H.
      assert (Hc : 0 <= c /\ a' = a + c /\ a + c <= MAX_CREDIT_CENTS).
      { unfold add_unit in Ea. destruct (assertCents c false) eqn:Ec; [|discriminate]. cbn in Ea. apply assertCents_unit in Ec.
        destruct (_ || _) eqn:Eo; [discriminate|]. injection Ea as <-. bool_props. lia. }
      destruct Hc as (Hc & -> & Hm). apply IH in H as (F & -> & Ho); [|lia].
      split; [by constructor|]. split; [lia|]. right. destruct Ho as [->|Ho]; cbn; lia.
    + intros (F & -> & Ho). inversion F as [|? ? Hc Hcs]; subst. destruct Ho as [|Ho]; [discriminate|].
      pose proof (sumZ_nonneg cs Hcs).
      rewrite E, (proj2 (Z.leb_le 0 c)), (proj2 (Z.leb_le _ _)) by lia. cbn. apply IH; [lia|]. split; [done|]. split; [lia|]. right; lia.
Qed.

Lemma fold_lines alloc lines : forall a t, 0 <= a <= MAX_CREDIT_CENTS ->
  fold_result (add_line alloc) a lines = Ok t <->
  Forall (line_covered alloc) lines /\ t = a + sumZ (map (line_cents alloc) lines) /\
  a + sumZ (map (line_cents alloc) lines) <= MAX_CREDIT_CENTS /\ Forall (fun l => is_safe (snd l) = true) lines.
Proof.
  induction lines as [|[id q] ls IH]; intros a t Ha; cbn [fold_result map sumZ].
  - split; [intros [= <-]; repeat split; (constructor || lia)|intros (_ & -> & _); f_equal; lia].
  - unfold add_line at 1. cbn [fst snd]. 
    assert (Elc : line_cents alloc (id, q) = match alloc !! id with Some units => sumZ units | None => 0 end) by done.
    rewrite !Elc. clear Elc.
    destruct (alloc !! id) as [units|] eqn:Eu.
    2: { split; [discriminate|]. intros (F & _). inversion F as [|? ? (u & Hu & _)]; subst. cbn in Hu. congruence. }
    destruct (is_safe q) eqn:Es; cbn [negb orb].
    2: { split; [discriminate|]. intros (_ & _ & _ & F). inversion F; subst. cbn in *. congruence. }
    destruct (Z.ltb_spec q 1) as [Hq|Hq]; cbn [orb].
    { split; [discriminate|]. intros (F & _). inversion F as [|? ? (u & _ & Hu & _)]; subst. cbn in Hu. lia. }
    destruct (Z.eqb_spec (Z.of_nat (length units)) q) as [Hl|Hl]; cbn [negb].
    2: { split; [discriminate|]. intros (F & _). inversion F as [|? ? (u & Hu & _ & Hu2 & _)]; subst. cbn in *. congruence. }
    split.
    + destruct (fold_result add_unit a units) as [a'|] eqn:E; [|discriminate]. cbn [bind_result]. intros H.
      apply fold_units in E as (F & -> & Ho); [|lia]. pose proof (sumZ_nonneg _ F).
      assert (a + sumZ units <= MAX_CREDIT_CENTS) by (destruct Ho as [->|Ho]; cbn; lia).
      apply IH in H as (G & -> & Hm & S); [|lia].
      split; [constructor; [by exists units|done]|]. split; [lia|]. split; [lia|by constructor].
    + intros (F & -> & Hm & S). inversion F as [|? ? (u & Hu & _ & _ & Hu2) Fr]; subst. cbn in Hu. simplify_eq.
      inversion S; subst. pose proof (sumZ_nonneg _ Hu2).
      assert (Hr : 0 <= sumZ (map (line_cents alloc) ls)).
      { apply sumZ_nonneg, Forall_map. eapply Forall_impl; [exact Fr|]. intros l (u' & Hu' & _ & _ & Hn).
        cbn. unfold line_cents. rewrite Hu'. by apply sumZ_nonneg. }
      rewrite (proj2 (fold_units units a (a + sumZ units) ltac:(lia))) by (split; [done|split; [done|right; lia]]).
      cbn [bind_result]. apply IH; [lia|]. split; [done|]. split; [lia|]. split; [lia|done].
Qed.

(** A credit allocation is accepted exactly when it covers precisely the
    purchased lines, with one non-negative amount of cents for every unit, and
    the cents add up to the redeemed amount. *)
Theorem credit_allocation_valid_iff alloc lines applied : Forall (fun l => is_safe (snd l) = true) lines ->
  validateAllocation alloc lines applied = Ok tt <->
  0 <= applied <= MAX_CREDIT_CENTS /\ size alloc = length lines /\ Forall (line_covered alloc) lines /\
  sumZ (map (line_cents alloc) lines) = applied.
Proof.
  intros Hs. unfold validateAllocation.
  destruct (assertCents applied false) as [u|] eqn:Ea; cbn [bind_result].
  2: { split; [discriminate|]. intros (Hb & _). pose proof (proj2 (assertCents_ok applied false) Hb). congruence. }
  apply assertCents_unit in Ea. destruct (Nat.eqb_spec (size alloc) (length lines)) as [Hl|Hl]; cbn [negb].
  2: { split; [discriminate|]. intros (_ & ? & _). done. }
  split.
  - destruct (fold_result (add_line alloc) 0 lines) as [t|] eqn:E; [|discriminate]. cbn [bind_result].
    apply fold_lines in E as (F & -> & _ & _); [|unfold MAX_CREDIT_CENTS; lia].
    destruct (Z.eqb_spec (0 + sumZ (map (line_cents alloc) lines)) applied); [|discriminate]. intros _.
    split; [lia|]. split; [done|]. split; [done|lia].
  - intros (Hb & _ & F & Hsum).
    rewrite (proj2 (fold_lines alloc lines 0 applied ltac:(unfold MAX_CREDIT_CENTS; lia))) by (split; [done|]; split; [lia|]; split; [lia|done]).
    cbn [bind_result]. by rewrite Z.eqb_refl.
Qed.

Definition sample_allocation : AccountCreditAllocation := <["l1" := [300; 200]]> (<["l2" := [0]]> ∅)%string.
Lemma credit_allocation_valid_iff_witness :
  validateAllocation sample_allocation [("l1", 2); ("l2", 1)]%string 500 = Ok tt /\ size sample_allocation = 2%nat.
Proof.
  split; [vm_compute; reflexivity|].
  refine (proj1 (proj2 (proj1 (credit_allocation_valid_iff sample_allocation [("l1", 2); ("l2", 1)]%string 500 _) _))).
  - repeat constructor.
  - vm_compute. reflexivity.
Defined.

Lemma restorationAmount_ok units r q a : restorationAmount units r q None = Ok a <->
  is_safe r = true /\ is_safe q = true /\ 0 <= r /\ 1 <= q /\ r + q <= Z.of_nat (length units) /\
  Forall (fun c => 0 <= c <= MAX_CREDIT_CENTS) units /\
  a = sumZ (take (Z.to_nat q) (drop (Z.to_nat r) units)) /\ a <= MAX_CREDIT_CENTS.
Proof.
  unfold restorationAmount. destruct (is_safe r); cbn [negb orb]; [|split; [discriminate|by intros (? & _)]].
  destruct (Z.ltb_spec r 0); cbn [orb]; [split; [discriminate|lia]|].
  destruct (is_safe q); cbn [negb orb]; [|split; [discriminate|by intros (_ & ? & _)]].
  destruct (Z.ltb_spec q 1); cbn [orb]; [split; [discriminate|lia]|].
  destruct (Z.ltb_spec (Z.of_nat (length units)) (r + q)); [split; [discriminate|lia]|].
  assert (M : (exists u, map_result (fun c => assertCents c false) units = Ok u) <->
              Forall (fun c => 0 <= c <= MAX_CREDIT_CENTS) units).
  { clear. induction units as [|c cs IH]; cbn; [split; [constructor|by exists []]|]. split.
    - destruct (assertCents c false) as [x|] eqn:E; cbn; [|by intros [? [=]]]. apply assertCents_unit in E.
      destruct (map_result _ cs) as [ys|] eqn:Em; cbn; [|by intros [? [=]]]. intros _.
      constructor; [lia|]. apply IH. by eexists.
    - inversion 1 as [|? ? Hc Hcs]; subst. rewrite (proj2 (assertCents_ok c false)) by lia. cbn.
      apply IH in Hcs as [ys ->]. cbn. by eexists. }
  destruct (map_result _ units) as [us|] eqn:Em; cbn [bind_result].
  2: { split; [discriminate|]. intros (_ & _ & _ & _ & _ & F & _). apply M in F as [? [=]]. }
  assert (F : Forall (fun c => 0 <= c <= MAX_CREDIT_CENTS) units) by (apply M; by eexists). clear M.
  set (s := sumZ (take (Z.to_nat q) (drop (Z.to_nat r) units))).
  assert (Hs : 0 <= s).
  { apply sumZ_nonneg, Forall_take, Forall_drop. eapply Forall_impl; [exact F|]. cbn. lia. }
  destruct (assertCents s false) as [x|] eqn:E; cbn [bind_result].
  - apply assertCents_unit in E. split.
    + intros [= <-]. do 5 (split; [first [done | lia]|]). split; [done|]. split; [done|lia].
    + by intros (_ & _ & _ & _ & _ & _ & -> & _).
  - split; [discriminate|]. intros (_ & _ & _ & _ & _ & _ & -> & Hle).
    pose proof (proj2 (assertCents_ok s false) (conj Hs Hle)). congruence.
Qed.

(** Restoring credit unit by unit gives back exactly what restoring the same
    units at once would: consecutive returns of [q1] and then [q2] units add up
    to the return of [q1 + q2], and returning every unit of a line restores all
    its credit (an array has fewer than 2^32 elements). *)
Theorem restoration_additive units r q1 q2 a :
  1 <= q1 -> 1 <= q2 -> Z.of_nat (length units) < 2 ^ 32 -> restorationAmount units r (q1 + q2) None = Ok a ->
  (exists a1 a2, restorationAmount units r q1 None = Ok a1 /\ restorationAmount units (r + q1) q2 None = Ok a2 /\ a = a1 + a2) /\
  (r = 0 -> q1 + q2 = Z.of_nat (length units) -> a = sumZ units).
Proof.
  intros H1 H2 Hlen H. apply restorationAmount_ok in H as (Sr & Sq & Hr & Hq & Hl & F & Ea & Hm).
  unfold is_safe, MAX_SAFE in *. bool_props.
  assert (Es : a = sumZ (take (Z.to_nat q1) (drop (Z.to_nat r) units)) + sumZ (take (Z.to_nat q2) (drop (Z.to_nat (r + q1)) units))).
  { rewrite Ea, (Z2Nat.inj_add q1 q2) by lia. rewrite (Z2Nat.inj_add r q1) by lia. rewrite <- take_take_drop, sumZ_app, drop_drop. done. }
  assert (N : forall n m, 0 <= sumZ (take n (drop m units))).
  { intros. apply sumZ_nonneg, Forall_take, Forall_drop. eapply Forall_impl; [exact F|]. cbn. lia. }
  pose proof (N (Z.to_nat q1) (Z.to_nat r)). pose proof (N (Z.to_nat q2) (Z.to_nat (r + q1))). split.
  - eexists _, _. split; [|split; [|exact Es]]; apply restorationAmount_ok; unfold is_safe, MAX_SAFE;
      repeat split; try (apply andb_true_iff; rewrite !Z.leb_le); (done || lia).
  - intros -> E. rewrite Ea, E, Nat2Z.id. change (Z.to_nat 0) with 0%nat. by rewrite drop_0, firstn_all.
Qed.

Lemma restoration_additive_witness :
  restorationAmount [120; 80; 81] 0 3 None = Ok 281 /\
  exists a1 a2, restorationAmount [120; 80; 81] 0 1 None = Ok a1 /\ restorationAmount [120; 80; 81] 1 2 None = Ok a2 /\ 281 = a1 + a2.
Proof.
  split; [vm_compute; reflexivity|].
  exact (proj1 (restoration_additive [120; 80; 81] 0 1 2 281 ltac:(lia) ltac:(lia) ltac:(cbn; lia) ltac:(vm_compute; reflexivity))).
Defined.

(** ** State of the service *)

Inductive CreditKind := ISSUE | ADJUST | DISABLE | ENABLE | RESERVE | RELEASE | REDEEM | RESTORE.
Inductive CreditStatus := PENDING | POSTED | VOID.
#[export] Instance CreditKind_eq_dec : EqDecision CreditKind.
Proof. solve_decision. Defined.
#[export] Instance CreditStatus_eq_dec : EqDecision CreditStatus.
Proof. solve_decision. Defined.

Record CreditAccount := {
  ca_promotionId : string; ca_currency : string; ca_emailNormalized : string; ca_issuanceKey : string; ca_initialAmount : Z;
  ca_balance : Z; ca_disabled : bool; ca_sourcePromotionRecord : option string
}.
(** The columns only a restoration sets. *)
Record RestoreColumns := {
  rc_orderLineId : option string; rc_refundId : option string; rc_quantity : option Z; rc_allocation : option string;
  rc_operationalAllocation : option json
}.
Definition no_columns : RestoreColumns :=
  {| rc_orderLineId := None; rc_refundId := None; rc_quantity := None; rc_allocation := None; rc_operationalAllocation := None |}.
(** [ct_allocation] is a redemption's [operationalAllocation]. *)
Record CreditTransaction := {
  ct_id : string; ct_accountId : string; ct_kind : CreditKind; ct_status : CreditStatus; ct_amount : Z; ct_delta : Z;
  ct_balanceAfter : option Z; ct_relatedId : option string; ct_key : string; ct_reason : option string; ct_actor : option string;
  ct_orderId : option string; ct_allocation : option AccountCreditAllocation; ct_columns : RestoreColumns
}.
Record CreditPromotion := {
  cp_code : option string; cp_isAccountCredit : bool; cp_enabled : bool; cp_startsAt : option Z; cp_endsAt : option Z; cp_stackOrder : Z
}.
Record CreditOrder := {
  co_state : OrderState; co_currency : string; co_promotionId : option string; co_grandTotal : Z; co_metadata : option json;
  co_lines : list (string * Z) (* id and billed quantity of each order line *)
}.
Record CreditDb := {
  cd_accounts : gmap string CreditAccount; cd_entries : list CreditTransaction; cd_promotions : gmap string CreditPromotion;
  cd_orders : gmap string CreditOrder; cd_payments : list Payment; cd_storeCurrency : string
}.

Definition with_entries (db : CreditDb) (es : list CreditTransaction) : CreditDb :=
  {| cd_accounts := cd_accounts db; cd_entries := es; cd_promotions := cd_promotions db; cd_orders := cd_orders db;
     cd_payments := cd_payments db; cd_storeCurrency := cd_storeCurrency db |}.
Definition with_account (db : CreditDb) (id : string) (a : CreditAccount) : CreditDb :=
  {| cd_accounts := <[id := a]> (cd_accounts db); cd_entries := cd_entries db; cd_promotions := cd_promotions db;
     cd_orders := cd_orders db; cd_payments := cd_payments db; cd_storeCurrency := cd_storeCurrency db |}.
Definition with_promotion (db : CreditDb) (id : string) (p : CreditPromotion) : CreditDb :=
  {| cd_accounts := cd_accounts db; cd_entries := cd_entries db; cd_promotions := <[id := p]> (cd_promotions db);
     cd_orders := cd_orders db; cd_payments := cd_payments db; cd_storeCurrency := cd_storeCurrency db |}.

Definition set_balance (a : CreditAccount) (b : Z) : CreditAccount :=
  {| ca_promotionId := ca_promotionId a; ca_currency := ca_currency a; ca_emailNormalized := ca_emailNormalized a;
     ca_issuanceKey := ca_issuanceKey a; ca_initialAmount := ca_initialAmount a; ca_balance := b; ca_disabled := ca_disabled a;
     ca_sourcePromotionRecord := ca_sourcePromotionRecord a |}.
Definition set_disabled (a : CreditAccount) (d : bool) : CreditAccount :=
  {| ca_promotionId := ca_promotionId a; ca_currency := ca_currency a; ca_emailNormalized := ca_emailNormalized a;
     ca_issuanceKey := ca_issuanceKey a; ca_initialAmount := ca_initialAmount a; ca_balance := ca_balance a; ca_disabled := d;
     ca_sourcePromotionRecord := ca_sourcePromotionRecord a |}.

(** ** Helpers *)

Definition is_pending (e : CreditTransaction) : bool := bool_decide (ct_kind e = RESERVE /\ ct_status e = PENDING).
Definition on_order (o : string) (e : CreditTransaction) : bool := bool_decide (ct_orderId e = Some o).

Definition is_redemption (o : string) (e : CreditTransaction) : bool :=
  on_order o e && bool_decide (ct_kind e = REDEEM) && bool_decide (ct_status e = POSTED).

Definition pendingForOrder (db : CreditDb) (o : string) : option CreditTransaction :=
  List.find (fun e => on_order o e && is_pending e) (cd_entries db).
Definition priorOperation (db : CreditDb) (key : string) : option CreditTransaction :=
  List.find (fun e => String.eqb (ct_key e) key) (cd_entries db).
Definition account_holds (db : CreditDb) (accountId : string) : list CreditTransaction :=
  List.filter (fun e => String.eqb (ct_accountId e) accountId && is_pending e) (cd_entries db).
Definition hold_of (e : CreditTransaction) : Hold := {| ho_amount := ct_amount e; ho_orderId := ct_orderId e |}.
Definition holdsForAccount (db : CreditDb) (accountId : string) : list Hold := map hold_of (account_holds db accountId).
Definition available (db : CreditDb) (accountId : string) (a : CreditAccount) (except : option string) : result CreditError Z :=
  availableCredit (ca_balance a) (holdsForAccount db accountId) except.

Definition required (value : string) (max : Z) : result CreditError unit :=
  if String.eqb (trim value) EmptyString || (max <? Z.of_nat (String.length value)) then Err invalid_input else Ok tt.
Definition operator (operationKey actor reason : string) : result CreditError unit :=
  let! _ := required operationKey 153 in let! _ := required actor 100 in required reason 255.

Definition lockAccount (db : CreditDb) (id : string) : result CreditError CreditAccount :=
  match cd_accounts db !! id with Some a => Ok a | None => Err missing end.
Definition lockOrder (db : CreditDb) (id : string) : result CreditError CreditOrder :=
  match cd_orders db !! id with
  | None => Err missing
  | Some o => if importedFinancialReconciliationRequired (co_metadata o) then Err imported_reconciliation else Ok o
  end.
Definition accountPromotion (db : CreditDb) (a : CreditAccount) : result CreditError CreditPromotion :=
  match cd_promotions db !! ca_promotionId a with Some p => Ok p | None => Err missing end.

(** The table's constraints: primary key, [(store_id, idempotency_key)], one
    pending hold per order, and [amount >= 0]. *)
Definition insertEntry (db : CreditDb) (e : CreditTransaction) : result CreditError CreditDb :=
  if existsb (fun x => String.eqb (ct_id x) (ct_id e) || String.eqb (ct_key x) (ct_key e) ||
                       (is_pending e && is_pending x && bool_decide (ct_orderId x = ct_orderId e /\ is_Some (ct_orderId e)))) (cd_entries db)
     || (ct_amount e <? 0)
  then Err constraint_violation else Ok (with_entries db (cd_entries db ++ [e])).

Definition setBalance (db : CreditDb) (id : string) (a : CreditAccount) (balance : Z) : result CreditError (CreditDb * CreditAccount) :=
  let! _ := assertCents balance false in
  Ok (with_account db id (set_balance a balance), set_balance a balance).

Definition set_status (id : string) (st : CreditStatus) (e : CreditTransaction) : CreditTransaction :=
  if String.eqb (ct_id e) id then
    {| ct_id := ct_id e; ct_accountId := ct_accountId e; ct_kind := ct_kind e; ct_status := st; ct_amount := ct_amount e;
       ct_delta := ct_delta e; ct_balanceAfter := ct_balanceAfter e; ct_relatedId := ct_relatedId e; ct_key := ct_key e;
       ct_reason := ct_reason e; ct_actor := ct_actor e; ct_orderId := ct_orderId e; ct_allocation := ct_allocation e; ct_columns := ct_columns e |}
  else e.
Definition update_status (db : CreditDb) (id : string) (st : CreditStatus) : CreditDb :=
  with_entries db (map (set_status id st) (cd_entries db)).

Section Service.
Context (gen_random_uuid : nat -> string) (JSON_parse : string -> option json).

Definition sourcePromotionLive (rec : option string) : bool :=
  match rec with
  | None => true
  | Some s => match JSON_parse s with Some (JObj fs) => nullish (assoc_last "deletedAt" fs) | _ => false end
  end.
Definition promotionLive (p : CreditPromotion) (a : CreditAccount) (now : Z) : bool :=
  cp_isAccountCredit p && cp_enabled p && sourcePromotionLive (ca_sourcePromotionRecord a) &&
  match cp_startsAt p with Some t => t <=? now | None => true end &&
  match cp_endsAt p with Some t => now <=? t | None => true end.

Definition next_entry_id (db : CreditDb) : string := gen_random_uuid (length (cd_entries db)).

(** An entry with the fields every insertion sets. *)
Definition entry (db : CreditDb) (accountId : string) (kind : CreditKind) (st : CreditStatus) (amount delta : Z)
    (balanceAfter : option Z) (key : string) : CreditTransaction :=
  {| ct_id := next_entry_id db; ct_accountId := accountId; ct_kind := kind; ct_status := st; ct_amount := amount; ct_delta := delta;
     ct_balanceAfter := balanceAfter; ct_relatedId := None; ct_key := key; ct_reason := None; ct_actor := None;
     ct_orderId := None; ct_allocation := None; ct_columns := no_columns |}.
Definition noted (e : CreditTransaction) (reason actor : option string) : CreditTransaction :=
  {| ct_id := ct_id e; ct_accountId := ct_accountId e; ct_kind := ct_kind e; ct_status := ct_status e; ct_amount := ct_amount e;
     ct_delta := ct_delta e; ct_balanceAfter := ct_balanceAfter e; ct_relatedId := ct_relatedId e; ct_key := ct_key e;
     ct_reason := reason; ct_actor := actor; ct_orderId := ct_orderId e; ct_allocation := ct_allocation e; ct_columns := ct_columns e |}.
Definition for_order (e : CreditTransaction) (o : string) (related : option string) (alloc : option AccountCreditAllocation) : CreditTransaction :=
  {| ct_id := ct_id e; ct_accountId := ct_accountId e; ct_kind := ct_kind e; ct_status := ct_status e; ct_amount := ct_amount e;
     ct_delta := ct_delta e; ct_balanceAfter := ct_balanceAfter e; ct_relatedId := related; ct_key := ct_key e;
     ct_reason := ct_reason e; ct_actor := ct_actor e; ct_orderId := Some o; ct_allocation := alloc; ct_columns := ct_columns e |}.

(** *** Reading *)

(** Promotions of the code, left-joined with their credit account. *)
Definition code_matches (db : CreditDb) (code : string) : list (string * CreditPromotion * option (string * CreditAccount)) :=
  flat_map (fun '(pid, p) =>
    if match cp_code p with Some c => String.eqb (to_lower c) (to_lower (trim code)) | None => false end then
      match List.filter (fun '(_, a) => String.eqb (ca_promotionId a) pid) (map_to_list (cd_accounts db)) with
      | [] => [(pid, p, None)]
      | accts => map (fun acct => (pid, p, Some acct)) accts
      end
    else []) (map_to_list (cd_promotions db)).
Definition findByCode (db : CreditDb) (code : string) (now : Z) (includeInactive : bool)
    : option (string * CreditAccount * CreditPromotion) :=
  match code_matches db code with
  | [(_, p, Some (id, a))] => if includeInactive || promotionLive p a now then Some (id, a, p) else None
  | _ => None
  end.

Definition previewAvailable (db : CreditDb) (code currency : string) (orderId : option string) (now : Z) : result CreditError Z :=
  match findByCode db code now false with
  | None => Ok 0
  | Some (id, a, _) =>
      if negb (String.eqb (ca_currency a) currency) then Ok 0 else
      let hold := orderId ≫= pendingForOrder db in
      let ownOrder := match hold with Some h => if String.eqb (ct_accountId h) id then orderId else None | None => None end in
      if ca_disabled a && match ownOrder with Some _ => false | None => true end then Ok 0
      else available db id a ownOrder
  end.

Inductive CreditPhase := AddingItems | ArrangingPayment | PaymentSettled.
Definition currentDiscount (db : CreditDb) (promotionId currency : string) (orderId : option string) (phase : CreditPhase) (now : Z)
    : result CreditError Z :=
  match List.find (fun '(_, a) => String.eqb (ca_promotionId a) promotionId) (map_to_list (cd_accounts db)) with
  | None => Ok 0
  | Some (id, a) =>
      if negb (String.eqb (ca_currency a) currency) then Ok 0 else
      let! p := accountPromotion db a in
      if negb (promotionLive p a now) then Ok 0 else
      let hold := orderId ≫= pendingForOrder db in
      if match hold with Some h => negb (String.eqb (ct_accountId h) id) | None => false end then Ok 0 else
      match phase with
      | AddingItems =>
          if ca_disabled a && match hold with Some _ => false | None => true end then Ok 0 else available db id a orderId
      | _ => Ok (match hold with Some h => ct_amount h | None => 0 end)
      end
  end.

(** *** Operations *)

Definition is_currency_code (s : string) : bool :=
  (String.length s =? 3)%nat && forallb (fun c => let n := nat_of_ascii c in (65 <=? n)%nat && (n <=? 90)%nat) (list_ascii_of_string s).
Definition max_stack_order (db : CreditDb) : Z :=
  fold_right Z.max 0 (map (fun '(_, p) => cp_stackOrder p) (map_to_list (cd_promotions db))).

Record IssueInput := {
  is_email : string; is_amount : Z; is_issuanceKey : string; is_currency : option string; is_code : option string
}.
Record IssueOut := { io_accountId : string; io_code : option string; io_created : bool }.
(** [freshCode] is the random [ACC-...] code drawn when the caller gives none. *)
Definition issue (db : CreditDb) (input : IssueInput) (freshCode promotionId accountId : string)
    : result CreditError (CreditDb * IssueOut) :=
  let! _ := assertCents (is_amount input) true in
  let! _ := required (is_issuanceKey input) 154 in
  let! emailNormalized := normalizeCreditEmail (is_email input) in
  let currency := or_else (is_currency input) (cd_storeCurrency db) in
  let! _ := required currency 3 in
  if negb (is_currency_code currency) then Err invalid_input else
  match List.find (fun '(_, a) => String.eqb (ca_issuanceKey a) (is_issuanceKey input)) (map_to_list (cd_accounts db)) with
  | Some (id, existing) =>
      let! p := accountPromotion db existing in
      if negb (String.eqb (ca_emailNormalized existing) emailNormalized) || negb (ca_initialAmount existing =? is_amount input) ||
         negb (String.eqb (ca_currency existing) currency) ||
         match is_code input with Some c => negb (bool_decide (cp_code p = Some (trim c))) | None => false end
      then Err conflict
      else Ok (db, {| io_accountId := id; io_code := cp_code p; io_created := false |})
  | None =>
      let code := match is_code input with Some c => trim c | None => freshCode end in
      let! _ := required code 200 in
      if existsb (fun '(_, p) => match cp_code p with Some c => String.eqb (to_lower c) (to_lower code) | None => false end)
           (map_to_list (cd_promotions db)) then Err conflict else
      let stackOrder := max_stack_order db + 1 in
      if MAX_CREDIT_CENTS <? stackOrder then Err invariant else
      if bool_decide (is_Some (cd_promotions db !! promotionId)) || bool_decide (is_Some (cd_accounts db !! accountId))
      then Err constraint_violation else
      let db1 := with_promotion db promotionId
        {| cp_code := Some code; cp_isAccountCredit := true; cp_enabled := true; cp_startsAt := None; cp_endsAt := None;
           cp_stackOrder := stackOrder |} in
      let db2 := with_account db1 accountId
        {| ca_promotionId := promotionId; ca_currency := currency; ca_emailNormalized := emailNormalized;
           ca_issuanceKey := is_issuanceKey input; ca_initialAmount := is_amount input; ca_balance := is_amount input;
           ca_disabled := false; ca_sourcePromotionRecord := None |} in
      let! db3 := insertEntry db2 (noted (entry db2 accountId ISSUE POSTED (is_amount input) (is_amount input)
        (Some (is_amount input)) ("issue:" +:+ is_issuanceKey input)%string) (Some "Approved issuance"%string) None) in
      Ok (db3, {| io_accountId := accountId; io_code := Some code; io_created := true |})
  end.

Record OperatorInput := { op_accountId : string; op_operationKey : string; op_actor : string; op_reason : string }.
Definition same_operation (prior : CreditTransaction) (kind : CreditKind) (input : OperatorInput) : bool :=
  bool_decide (ct_kind prior = kind) && bool_decide (ct_status prior = POSTED) && String.eqb (ct_accountId prior) (op_accountId input) &&
  bool_decide (ct_actor prior = Some (op_actor input)) && bool_decide (ct_reason prior = Some (op_reason input)).

Definition adjust (db : CreditDb) (input : OperatorInput) (delta : Z) : result CreditError (CreditDb * CreditAccount) :=
  let! _ := operator (op_operationKey input) (op_actor input) (op_reason input) in
  let! _ := assertCents (Z.abs delta) true in
  let! account := lockAccount db (op_accountId input) in
  let key := ("adjust:" +:+ op_operationKey input)%string in
  match priorOperation db key with
  | Some prior =>
      if negb (same_operation prior ADJUST input) || negb (ct_delta prior =? delta) then Err conflict else Ok (db, account)
  | None =>
      if (ca_balance account + delta <? 0) || (MAX_CREDIT_CENTS <? ca_balance account + delta) then Err unavailable else
      let! av := available db (op_accountId input) account None in
      if av + delta <? 0 then Err unavailable else
      let! (db1, updated) := setBalance db (op_accountId input) account (ca_balance account + delta) in
      let! db2 := insertEntry db1 (noted (entry db1 (op_accountId input) ADJUST POSTED (Z.abs delta) delta (Some (ca_balance updated)) key)
        (Some (op_reason input)) (Some (op_actor input))) in
      Ok (db2, updated)
  end.

Definition disable (db : CreditDb) (input : OperatorInput) (disabled : bool) : result CreditError (CreditDb * CreditAccount) :=
  let! _ := operator (op_operationKey input) (op_actor input) (op_reason input) in
  let! account := lockAccount db (op_accountId input) in
  let key := ("status:" +:+ op_operationKey input)%string in
  let kind := if disabled then DISABLE else ENABLE in
  match priorOperation db key with
  | Some prior => if negb (same_operation prior kind input) then Err conflict else Ok (db, account)
  | None =>
      let updated := set_disabled account disabled in
      let db1 := with_account db (op_accountId input) updated in
      let! db2 := insertEntry db1 (noted (entry db1 (op_accountId input) kind POSTED 0 0 (Some (ca_balance account)) key)
        (Some (op_reason input)) (Some (op_actor input))) in
      Ok (db2, updated)
  end.

Record ReserveCreditInput := { rs_orderId : string; rs_accountId : string; rs_appliedAmount : Z; rs_arranging : bool }.
(** [holdUuid] is the random part of the hold's key. *)
Definition reserve (db : CreditDb) (input : ReserveCreditInput) (holdUuid : string) (now : Z)
    : result CreditError (CreditDb * CreditTransaction) :=
  if negb (rs_arranging input) then Err invalid_input else
  let! _ := assertCents (rs_appliedAmount input) true in
  let! order := lockOrder db (rs_orderId input) in
  if negb (bool_decide (co_state order = PendingPayment)) then Err unavailable else
  let! account := lockAccount db (rs_accountId input) in
  let hold := pendingForOrder db (rs_orderId input) in
  let! p := accountPromotion db account in
  if negb (String.eqb (co_currency order) (ca_currency account)) || negb (bool_decide (co_promotionId order = Some (ca_promotionId account))) ||
     negb (promotionLive p account now) || (ca_disabled account && match hold with Some _ => false | None => true end) ||
     match hold with Some h => negb (String.eqb (ct_accountId h) (rs_accountId input)) | None => false end
  then Err unavailable else
  if co_grandTotal order <=? 0 then Err unavailable else
  let! av := available db (rs_accountId input) account (Some (rs_orderId input)) in
  if av <? rs_appliedAmount input then Err unavailable else
  match hold with
  | Some h =>
      if ct_amount h =? rs_appliedAmount input then Ok (db, h)
      else
        let db1 := update_status db (ct_id h) VOID in
        let e := for_order (entry db1 (rs_accountId input) RESERVE PENDING (rs_appliedAmount input) 0 None ("hold:" +:+ holdUuid)%string)
                   (rs_orderId input) (Some (ct_id h)) None in
        let! db2 := insertEntry db1 e in Ok (db2, e)
  | None =>
      let e := for_order (entry db (rs_accountId input) RESERVE PENDING (rs_appliedAmount input) 0 None ("hold:" +:+ holdUuid)%string)
                 (rs_orderId input) None None in
      let! db2 := insertEntry db e in Ok (db2, e)
  end.

Definition redemptionForOrder (db : CreditDb) (o : string) : result CreditError (option CreditTransaction) :=
  match List.filter (is_redemption o) (cd_entries db) with
  | [] => Ok None
  | [e] => Ok (Some e)
  | _ => Err conflict
  end.

Definition releaseEntry (db : CreditDb) (hold : CreditTransaction) (o : string) (amount : Z) (reason : string) : result CreditError CreditDb :=
  insertEntry db (noted (for_order (entry db (ct_accountId hold) RELEASE POSTED amount 0 None ("release:" +:+ ct_id hold)%string)
    o (Some (ct_id hold)) None) (Some reason) None).

Record RedeemCreditInput := { rd_orderId : string; rd_appliedAmount : Z; rd_allocation : AccountCreditAllocation }.
Definition redeem (db : CreditDb) (input : RedeemCreditInput) : result CreditError (CreditDb * option CreditTransaction) :=
  let! _ := assertCents (rd_appliedAmount input) false in
  let! order := lockOrder db (rd_orderId input) in
  match pendingForOrder db (rd_orderId input) with
  | None =>
      let! prior := redemptionForOrder db (rd_orderId input) in
      match prior with
      | Some e => if negb (ct_amount e =? rd_appliedAmount input) || negb (equalAllocation (ct_allocation e) (rd_allocation input))
                  then Err conflict else Ok (db, Some e)
      | None => Ok (db, None)
      end
  | Some hold =>
      let! account := lockAccount db (ct_accountId hold) in
      if negb (existsb (fun p => String.eqb (py_orderId p) (rd_orderId input) && bool_decide (py_state p = pay_Settled)) (cd_payments db))
      then Err unavailable else
      if negb (String.eqb (co_currency order) (ca_currency account)) ||
         ((0 <? rd_appliedAmount input) && negb (bool_decide (co_promotionId order = Some (ca_promotionId account)))) ||
         (ct_amount hold <? rd_appliedAmount input) then Err invariant else
      if rd_appliedAmount input =? 0 then
        let! db1 := releaseEntry (update_status db (ct_id hold) VOID) hold (rd_orderId input) (ct_amount hold) "No credit applied at settlement"%string in
        Ok (db1, None)
      else
        let! _ := validateAllocation (rd_allocation input) (co_lines order) (rd_appliedAmount input) in
        if ca_balance account <? rd_appliedAmount input then Err invariant else
        let! (db1, updated) := setBalance db (ct_accountId hold) account (ca_balance account - rd_appliedAmount input) in
        let db2 := update_status db1 (ct_id hold) POSTED in
        let e := noted (for_order (entry db2 (ct_accountId hold) REDEEM POSTED (rd_appliedAmount input) (- rd_appliedAmount input)
                   (Some (ca_balance updated)) ("redeem:" +:+ ct_id hold)%string) (rd_orderId input) (Some (ct_id hold)) (Some (rd_allocation input)))
                   (Some "Payment settled"%string) None in
        let! db3 := insertEntry db2 e in
        if rd_appliedAmount input <? ct_amount hold then
          let! db4 := releaseEntry db3 hold (rd_orderId input) (ct_amount hold - rd_appliedAmount input) "Unused reserved credit"%string in
          Ok (db4, Some e)
        else Ok (db3, Some e)
  end.

Inductive ReleaseCause := cancelled | coupon_removed (couponCode : string).
Definition release (db : CreditDb) (o : string) (cause : ReleaseCause) : result CreditError (CreditDb * bool) :=
  let! order := lockOrder db o in
  if match cause with cancelled => negb (bool_decide (co_state order = Cancelled)) | _ => false end then Err unavailable else
  match pendingForOrder db o with
  | None => Ok (db, false)
  | Some hold =>
      let! account := lockAccount db (ct_accountId hold) in
      let! matches := match cause with
        | cancelled => Ok true
        | coupon_removed code =>
            let! p := accountPromotion db account in
            Ok (bool_decide (to_lower <$> cp_code p = Some (to_lower (trim code))))
        end in
      if negb matches then Ok (db, false) else
      let! db1 := releaseEntry (update_status db (ct_id hold) VOID) hold o (ct_amount hold)
        (match cause with cancelled => "Order cancelled" | coupon_removed _ => "Coupon removed" end)%string in
      Ok (db1, true)
  end.

(** [afterSettlement]: a savepoint around the posting. A failure rolls the
    posting back and is reported, never raised. *)
Definition redeemAfterSettlement (db : CreditDb) (input : RedeemCreditInput)
    : CreditDb * result CreditError (option CreditTransaction) :=
  match redeem db input with
  | Ok (db', v) => (db', Ok v)
  | Err e => (db, Err e)
  end.
End Service.

(** ** The ledger invariant *)

Definition pend (accountId : string) (e : CreditTransaction) : bool := String.eqb (ct_accountId e) accountId && is_pending e.
Definition amount_where (p : CreditTransaction -> bool) (es : list CreditTransaction) : Z :=
  sumZ (map ct_amount (List.filter p es)).
Definition delta_total (es : list CreditTransaction) (accountId : string) : Z :=
  sumZ (map ct_delta (List.filter (fun e => String.eqb (ct_accountId e) accountId) es)).
#[global] Arguments amount_where : simpl never.
#[global] Arguments delta_total : simpl never.
Definition pending_on (o : string) (e : CreditTransaction) : bool := is_pending e && on_order o e.

Definition account_ok (es : list CreditTransaction) (id : string) (a : CreditAccount) : Prop :=
  0 <= ca_balance a <= MAX_CREDIT_CENTS /\ amount_where (pend id) es <= ca_balance a /\ delta_total es id = ca_balance a.

Record credit_ok (db : CreditDb) : Prop := {
  ok_accounts : map_Forall (account_ok (cd_entries db)) (cd_accounts db);
  ok_known : Forall (fun e => is_Some (cd_accounts db !! ct_accountId e)) (cd_entries db);
  ok_ids : NoDup (map ct_id (cd_entries db));
  ok_keys : NoDup (map ct_key (cd_entries db));
  ok_one_hold : forall o, (length (List.filter (pending_on o) (cd_entries db)) <= 1)%nat;
  ok_amounts : Forall (fun e => 0 <= ct_amount e) (cd_entries db)
}.

Lemma amount_where_app p es e : amount_where p (es ++ [e]) = amount_where p es + (if p e then ct_amount e else 0).
Proof. unfold amount_where. rewrite List.filter_app, map_app, sumZ_app. cbn. destruct (p e); cbn; lia. Qed.
Lemma delta_total_app es e id :
  delta_total (es ++ [e]) id = delta_total es id + (if String.eqb (ct_accountId e) id then ct_delta e else 0).
Proof. unfold delta_total. rewrite List.filter_app, map_app, sumZ_app. cbn. destruct (String.eqb _ _); cbn; lia. Qed.
Lemma amount_where_mono (p q : CreditTransaction -> bool) es :
  Forall (fun e => 0 <= ct_amount e) es -> (forall e, e ∈ es -> p e = true -> q e = true) -> amount_where p es <= amount_where q es.
Proof.
  intros Ha Hpq. unfold amount_where. induction Ha as [|e es He _ IH]; cbn; [lia|].
  assert (IH' : sumZ (map ct_amount (List.filter p es)) <= sumZ (map ct_amount (List.filter q es))) by (apply IH; intros; apply Hpq; [by right|done]).
  destruct (p e) eqn:E; [rewrite (Hpq e ltac:(by left) E); cbn; lia|]. destruct (q e); cbn; lia.
Qed.

(** Marking an entry as no longer pending. *)
Lemma set_status_other id st e : String.eqb (ct_id e) id = false -> set_status id st e = e.
Proof. unfold set_status. by intros ->. Qed.
Lemma set_status_facts id st e :
  ct_accountId (set_status id st e) = ct_accountId e /\ ct_delta (set_status id st e) = ct_delta e /\
  ct_key (set_status id st e) = ct_key e /\ ct_amount (set_status id st e) = ct_amount e /\
  ct_orderId (set_status id st e) = ct_orderId e /\
  (st <> PENDING -> is_pending (set_status id st e) = is_pending e && negb (String.eqb (ct_id e) id)).
Proof.
  unfold set_status, is_pending. destruct (String.eqb (ct_id e) id); cbn; repeat split; try done; intros H.
  - rewrite andb_false_r. apply bool_decide_eq_false_2. by intros [_ ?].
  - by rewrite andb_true_r.
Qed.

Lemma amount_where_closed id st es (p : CreditTransaction -> bool) : st <> PENDING ->
  (forall e, p (set_status id st e) = p e && negb (String.eqb (ct_id e) id)) ->
  amount_where p (map (set_status id st) es) = amount_where (fun e => p e && negb (String.eqb (ct_id e) id)) es.
Proof.
  intros Hst Hp. unfold amount_where. induction es as [|e es IH]; cbn; [done|].
  rewrite Hp. destruct (p e && negb _); cbn; [|done]. rewrite IH. by rewrite (proj1 (proj2 (proj2 (proj2 (set_status_facts id st e))))).
Qed.
Lemma pend_closed acc id st e : st <> PENDING -> pend acc (set_status id st e) = pend acc e && negb (String.eqb (ct_id e) id).
Proof.
  intros Hst. unfold pend. destruct (set_status_facts id st e) as (-> & _ & _ & _ & _ & ->); [|done]. by rewrite andb_assoc.
Qed.
Lemma pending_on_closed o id st e : st <> PENDING -> pending_on o (set_status id st e) = pending_on o e && negb (String.eqb (ct_id e) id).
Proof.
  intros Hst. unfold pending_on, on_order. destruct (set_status_facts id st e) as (_ & _ & _ & _ & -> & ->); [|done].
  destruct (is_pending e), (bool_decide _), (String.eqb _ _); done.
Qed.
Lemma delta_total_status id st es acc : delta_total (map (set_status id st) es) acc = delta_total es acc.
Proof.
  unfold delta_total. induction es as [|e es IH]; cbn; [done|]. destruct (set_status_facts id st e) as (-> & E & _).
  destruct (String.eqb _ _); cbn; [|done]. by rewrite E, IH.
Qed.

Lemma amount_where_without h p es : Forall (fun e => 0 <= ct_amount e) es -> h ∈ es -> p h = true ->
  amount_where (fun e => p e && negb (String.eqb (ct_id e) (ct_id h))) es + ct_amount h <= amount_where p es.
Proof.
  intros Ha Hin Hp. unfold amount_where. induction Hin as [h es|h e es _ IH]; cbn.
  - rewrite Hp, String.eqb_refl. cbn. inversion Ha; subst.
    pose proof (amount_where_mono (fun e => p e && negb (String.eqb (ct_id e) (ct_id h))) p es ltac:(done)
      ltac:(intros e _ He; by apply andb_true_iff in He as [? _])) as M. unfold amount_where in M. lia.
  - inversion Ha as [|? ? He Hes]; subst. specialize (IH Hes Hp).
    destruct (p e); cbn; [|done]. destruct (String.eqb (ct_id e) (ct_id h)); cbn; lia.
Qed.

Lemma closed_status_ok db id st : st <> PENDING -> credit_ok db -> credit_ok (update_status db id st).
Proof.
  intros Hst [A K U N O P]. split; cbn.
  - intros i a Hi. destruct (A i a Hi) as (B1 & B2 & B3). split; [done|]. rewrite delta_total_status. split; [|done].
    rewrite amount_where_closed by (done || intros; by apply pend_closed).
    etrans; [|exact B2]. apply amount_where_mono; [done|]. intros e _ He. by apply andb_true_iff in He as [? _].
  - apply Forall_map. eapply Forall_impl; [exact K|]. cbn. intros e He. by rewrite (proj1 (set_status_facts id st e)).
  - rewrite map_map. erewrite map_ext; [exact U|]. intros e. unfold set_status. by destruct (String.eqb _ _).
  - rewrite map_map. erewrite map_ext; [exact N|]. intros e. apply set_status_facts.
  - intros o. specialize (O o). etrans; [|exact O]. clear -Hst. induction (cd_entries db) as [|e es IH]; cbn; [lia|].
    rewrite pending_on_closed by done. destruct (pending_on o e); cbn; [|done]. destruct (negb _); cbn; lia.
  - apply Forall_map. eapply Forall_impl; [exact P|]. cbn. intros e He. destruct (set_status_facts id st e) as (_ & _ & _ & -> & _). done.
Qed.

Lemma insertEntry_spec db e db' : insertEntry db e = Ok db' ->
  db' = with_entries db (cd_entries db ++ [e]) /\ 0 <= ct_amount e /\ (ct_id e ∉ map ct_id (cd_entries db)) /\
  (ct_key e ∉ map ct_key (cd_entries db)) /\
  (forall o, pending_on o e = true -> List.filter (pending_on o) (cd_entries db) = []).
Proof.
  unfold insertEntry. destruct (_ || _) eqn:E; [discriminate|]. intros [= <-]. bool_props.
  assert (Hno : forall x, x ∈ cd_entries db -> String.eqb (ct_id x) (ct_id e) = false /\ String.eqb (ct_key x) (ct_key e) = false /\
    (is_pending e && is_pending x && bool_decide (ct_orderId x = ct_orderId e /\ is_Some (ct_orderId e))) = false).
  { intros x Hx. apply not_true_iff_false in H. rewrite existsb_exists in H.
    destruct (String.eqb (ct_id x) (ct_id e)) eqn:E0; [exfalso; apply H; exists x; split; [by apply list_elem_of_In|by rewrite E0]|].
    split; [done|].
    destruct (String.eqb (ct_key x) (ct_key e)) eqn:E1; [exfalso; apply H; exists x; split; [by apply list_elem_of_In|by rewrite E1, orb_true_r]|].
    split; [done|]. apply not_true_iff_false. intros E2. apply H. exists x. split; [by apply list_elem_of_In|]. by rewrite E2, orb_true_r. }
  split; [done|]. split; [lia|]. split; [|split].
  - intros Hin. apply list_elem_of_fmap in Hin as (x & Hk & Hx). destruct (Hno x Hx) as [E1 _]. apply String.eqb_neq in E1. congruence.
  - intros Hin. apply list_elem_of_fmap in Hin as (x & Hk & Hx). destruct (Hno x Hx) as (_ & E1 & _). apply String.eqb_neq in E1. congruence.
  - intros o Ho. unfold pending_on, on_order in Ho. apply andb_true_iff in Ho as [Hp Ho]. apply bool_decide_eq_true in Ho.
    assert (F : forall x, x ∈ cd_entries db -> pending_on o x = false).
    { intros x Hx. destruct (Hno x Hx) as (_ & _ & E2). rewrite Hp in E2. unfold pending_on, on_order. destruct (is_pending x); [|done]. cbn in *.
      apply bool_decide_eq_false in E2. apply bool_decide_eq_false. intros Hc. apply E2. rewrite Ho. split; [done|by eexists]. }
    clear -F. induction (cd_entries db) as [|x es IH]; cbn; [done|]. rewrite (F x ltac:(by left)). apply IH. intros; apply F. by right.
Qed.

(** Appending an entry: the account it names must afford its delta and hold. *)
Lemma insertEntry_ok db e db' : credit_ok db -> insertEntry db e = Ok db' ->
  (forall a, cd_accounts db !! ct_accountId e = Some a ->
     ct_delta e = 0 /\ amount_where (pend (ct_accountId e)) (cd_entries db) + (if is_pending e then ct_amount e else 0) <= ca_balance a) ->
  is_Some (cd_accounts db !! ct_accountId e) -> credit_ok db'.
Proof.
  intros [A K U N O P] H Ha Hs. apply insertEntry_spec in H as (-> & H1 & Hu & H2 & H3). split; cbn.
  - intros i a Hi. destruct (A i a Hi) as (B1 & B2 & B3). split; [done|]. rewrite amount_where_app, delta_total_app.
    unfold pend at 2. destruct (String.eqb_spec (ct_accountId e) i) as [<-|]; cbn [andb]; [|split; lia].
    destruct (Ha a Hi) as [D1 D2]. split; [exact D2|]. lia.
  - apply Forall_app. split; [done|by constructor].
  - by apply NoDup_map_snoc.
  - by apply NoDup_map_snoc.
  - intros o. rewrite List.filter_app, length_app. cbn. destruct (pending_on o e) eqn:E; [rewrite (H3 o E); cbn; lia|].
    cbn. specialize (O o). lia.
  - apply Forall_app. split; [done|by constructor].
Qed.

Lemma balance_post db id a delta e db' : credit_ok db -> cd_accounts db !! id = Some a ->
  0 <= ca_balance a + delta <= MAX_CREDIT_CENTS -> amount_where (pend id) (cd_entries db) <= ca_balance a + delta ->
  insertEntry (with_account db id (set_balance a (ca_balance a + delta))) e = Ok db' ->
  ct_accountId e = id -> ct_delta e = delta -> is_pending e = false -> credit_ok db'.
Proof.
  intros [A K U N O P] Ea Hb Hp H E1 E2 E3. apply insertEntry_spec in H as (-> & H1 & Hu & H2 & H3). cbn in *. split; cbn.
  - intros i x Hi. unfold account_ok. rewrite amount_where_app, delta_total_app. unfold pend at 2. rewrite E1, E3, andb_false_r.
    destruct (decide (i = id)) as [->|Hne].
    + rewrite lookup_insert_eq in Hi. injection Hi as <-. cbn. destruct (A id a Ea) as (_ & _ & B3).
      rewrite String.eqb_refl. split; [lia|]. split; lia.
    + rewrite lookup_insert_ne in Hi by done. destruct (A i x Hi) as (B1 & B2 & B3).
      rewrite (proj2 (String.eqb_neq id i)) by done. split; [done|]. split; lia.
  - apply Forall_app. split; [|constructor; [rewrite E1, lookup_insert_eq; by eexists|constructor]].
    eapply Forall_impl; [exact K|]. cbn. intros x Hx. destruct (decide (ct_accountId x = id)) as [->|]; [rewrite lookup_insert_eq; by eexists|].
    by rewrite lookup_insert_ne.
  - by apply NoDup_map_snoc.
  - by apply NoDup_map_snoc.
  - intros o. rewrite List.filter_app, length_app. cbn. unfold pending_on at 2. rewrite E3. cbn. specialize (O o). lia.
  - apply Forall_app. split; [done|by constructor].
Qed.

(** A change of the account row that keeps its balance. *)
Lemma same_balance_ok db id a a' : credit_ok db -> cd_accounts db !! id = Some a -> ca_balance a' = ca_balance a ->
  credit_ok (with_account db id a').
Proof.
  intros [A K U N O P] Ea Eb. split; cbn; try done.
  - intros i x Hi. destruct (decide (i = id)) as [->|Hne].
    + rewrite lookup_insert_eq in Hi. injection Hi as <-. unfold account_ok. rewrite Eb. by apply A.
    + rewrite lookup_insert_ne in Hi by done. by apply A.
  - eapply Forall_impl; [exact K|]. cbn. intros x Hx. destruct (decide (ct_accountId x = id)) as [->|]; [rewrite lookup_insert_eq; by eexists|].
    by rewrite lookup_insert_ne.
Qed.

Lemma fresh_account_empty db id : credit_ok db -> cd_accounts db !! id = None ->
  amount_where (pend id) (cd_entries db) = 0 /\ delta_total (cd_entries db) id = 0.
Proof.
  intros [A K U N O P] Hn. unfold amount_where, delta_total. clear -K Hn.
  induction K as [|e es He _ [I1 I2]]; cbn; [done|]. unfold pend at 1.
  assert (String.eqb (ct_accountId e) id = false) as ->.
  { apply String.eqb_neq. intros E. rewrite E, Hn in He. by destruct He. }
  done.
Qed.

Lemma with_promotion_ok db id p : credit_ok db -> credit_ok (with_promotion db id p).
Proof. by intros [A K U N O P]. Qed.

Lemma held_except_holds db acc o :
  held_except o (holdsForAccount db acc) =
  amount_where (fun e => pend acc e && negb (match o with Some x => on_order x e | None => false end)) (cd_entries db).
Proof.
  unfold held_except, holdsForAccount, account_holds, amount_where.
  induction (cd_entries db) as [|e es IH]; cbn; [done|]. fold (pend acc e). destruct (pend acc e); cbn; [|done].
  assert (E : hold_excepted o (hold_of e) = match o with Some x => on_order x e | None => false end) by (destruct o; done).
  rewrite E. destruct (negb _); cbn; [by rewrite IH|done].
Qed.

Lemma available_spec db acc a o v : available db acc a o = Ok v ->
  v = ca_balance a - amount_where (fun e => pend acc e && negb (match o with Some x => on_order x e | None => false end)) (cd_entries db) /\ 0 <= v.
Proof.
  unfold available. intros H. apply availableCredit_ok in H as (-> & Hv & _). rewrite held_except_holds in *. done.
Qed.
Lemma amount_where_ext p q es : (forall e, e ∈ es -> p e = q e) -> amount_where p es = amount_where q es.
Proof. intros H. unfold amount_where. rewrite (List.filter_ext_in p q); [done|]. intros e He. apply H. by apply list_elem_of_In. Qed.

Lemma pendingForOrder_some db o h : pendingForOrder db o = Some h ->
  h ∈ cd_entries db /\ is_pending h = true /\ ct_orderId h = Some o.
Proof.
  intros H. apply List.find_some in H as [H1 H2]. apply andb_true_iff in H2 as [H2 H3].
  split; [by apply list_elem_of_In|]. split; [done|]. by apply bool_decide_eq_true in H2.
Qed.
Lemma pendingForOrder_none db o e : pendingForOrder db o = None -> e ∈ cd_entries db -> pending_on o e = false.
Proof.
  intros H He. apply list_elem_of_In in He. apply (List.find_none _ _ H) in He. unfold pending_on. by rewrite andb_comm.
Qed.

Inductive CreditOp :=
  | op_issue (input : IssueInput) (freshCode promotionId accountId : string)
  | op_adjust (input : OperatorInput) (delta : Z)
  | op_disable (input : OperatorInput) (disabled : bool)
  | op_reserve (input : ReserveCreditInput) (holdUuid : string) (now : Z)
  | op_redeem (input : RedeemCreditInput)
  | op_release (orderId : string) (cause : ReleaseCause).

Section Invariant.
Context (gen : nat -> string) (JSON_parse : string -> option json).

(** A committed handler's effect on the state. *)
Definition run_credit_op (db : CreditDb) (op : CreditOp) : result CreditError CreditDb :=
  match op with
  | op_issue input c p a => let! (d, _) := issue gen db input c p a in Ok d
  | op_adjust input delta => let! (d, _) := adjust gen db input delta in Ok d
  | op_disable input b => let! (d, _) := disable gen db input b in Ok d
  | op_reserve input u now => let! (d, _) := reserve gen JSON_parse db input u now in Ok d
  | op_redeem input => let! (d, _) := redeem gen db input in Ok d
  | op_release o cause => let! (d, _) := release gen db o cause in Ok d
  end.

Lemma issue_ok db input c p a d out : credit_ok db -> issue gen db input c p a = Ok (d, out) -> credit_ok d.
Proof.
  intros Hok H. unfold issue in H. inv_ok. destruct (List.find _ _) as [[id ex]|].
  { inv_ok. destruct (_ || _); [discriminate|]. by inv_ok. }
  inv_ok. apply assertCents_unit in Em.
  assert (Hfresh : cd_accounts db !! a = None).
  { apply eq_None_not_Some. intros Hs.
    match goal with E : _ || bool_decide (is_Some (cd_accounts db !! a)) = false |- _ => apply orb_false_iff in E as [_ E]; by apply bool_decide_eq_false in E end. }
  destruct (fresh_account_empty db a Hok Hfresh) as [F1 F2]. destruct Hok as [A K U N O P].
  match goal with E : insertEntry _ _ = Ok _ |- _ => apply insertEntry_spec in E as (-> & H1 & Hu & H2 & H3) end. cbn in *. split; cbn.
  - intros i x Hi. unfold account_ok. rewrite amount_where_app, delta_total_app. unfold pend at 2. cbn. unfold is_pending at 1. cbn. rewrite andb_false_r.
    destruct (decide (i = a)) as [->|Hne].
    + rewrite lookup_insert_eq in Hi. injection Hi as <-. cbn. rewrite String.eqb_refl, F1, F2. split; [cbn; lia|]. cbn; split; lia.
    + rewrite lookup_insert_ne in Hi by done. destruct (A i x Hi) as (B1 & B2 & B3).
      rewrite (proj2 (String.eqb_neq a i)) by done. split; [done|]. split; lia.
  - apply Forall_app. split; [|constructor; [cbn; rewrite lookup_insert_eq; by eexists|constructor]].
    eapply Forall_impl; [exact K|]. cbn. intros x Hx. destruct (decide (ct_accountId x = a)) as [->|]; [rewrite lookup_insert_eq; by eexists|].
    by rewrite lookup_insert_ne.
  - by apply NoDup_map_snoc.
  - by apply NoDup_map_snoc.
  - intros o. rewrite List.filter_app, length_app. cbn.
    match goal with |- context [if ?b then [_] else _] => change b with false end. cbn. specialize (O o). lia.
  - apply Forall_app. split; [done|constructor; [cbn; lia|constructor]].
Qed.

Lemma adjust_ok db input delta d out : credit_ok db -> adjust gen db input delta = Ok (d, out) -> credit_ok d.
Proof.
  intros Hok H. unfold adjust in H. inv_ok. destruct (priorOperation _ _) as [prior|].
  { destruct (_ || _); [discriminate|]. by inv_ok. }
  inv_ok. unfold lockAccount in Em1. destruct (cd_accounts db !! op_accountId input) as [ac|] eqn:Ea; [|discriminate]. inv_ok.
  apply available_spec in Em2 as [Hav _]. bool_props. unfold setBalance in Em3. inv_ok.
  match goal with E : insertEntry _ _ = Ok _ |- _ => rename E into Hins end.
  eapply balance_post; [exact Hok|exact Ea| | |exact Hins|done|done|done]; [lia|].
  rewrite (amount_where_ext _ (pend (op_accountId input))) in * by (intros; by rewrite andb_true_r). lia.
Qed.

Lemma disable_ok db input b d out : credit_ok db -> disable gen db input b = Ok (d, out) -> credit_ok d.
Proof.
  intros Hok H. unfold disable in H. inv_ok. destruct (priorOperation _ _) as [prior|].
  { destruct (negb _); [discriminate|]. by inv_ok. }
  inv_ok. unfold lockAccount in Em0. destruct (cd_accounts db !! op_accountId input) as [ac|] eqn:Ea; [|discriminate]. inv_ok.
  match goal with E : insertEntry _ _ = Ok _ |- _ => rename E into Hins end.
  eapply insertEntry_ok; [|exact Hins| |]; [by eapply (same_balance_ok _ _ a0)| |].
  - intros x Hx. cbn in Hx. rewrite lookup_insert_eq in Hx. injection Hx as <-. cbn.
    destruct (ok_accounts _ Hok _ _ Ea) as (_ & B & _). split; [done|]. cbn.
    match goal with |- context [if ?c then 0 else 0] => destruct c end; lia.
  - cbn. rewrite lookup_insert_eq. by eexists.
Qed.

Lemma reserve_ok db input u now d out : credit_ok db -> reserve gen JSON_parse db input u now = Ok (d, out) -> credit_ok d.
Proof.
  intros Hok H. unfold reserve in H. inv_ok. apply available_spec in Em3 as [Hav _]. bool_props.
  apply assertCents_unit in Em. unfold lockAccount in Em1.
  destruct (cd_accounts db !! rs_accountId input) as [ac|] eqn:Ea; [|discriminate]. inv_ok.
  set (o := rs_orderId input) in *. set (acc := rs_accountId input) in *.
  destruct (pendingForOrder db o) as [h|] eqn:Eh.
  - destruct (ct_amount h =? rs_appliedAmount input); inv_ok; [done|].
    pose proof (closed_status_ok db (ct_id h) VOID ltac:(discriminate) Hok) as Hok1.
    match goal with E : insertEntry _ _ = Ok _ |- _ => rename E into Hins end.
    pose proof (insertEntry_spec _ _ _ Hins) as (_ & _ & _ & _ & Hone). specialize (Hone o).
    eapply insertEntry_ok; [exact Hok1|exact Hins| |cbn; by eexists].
    intros x Hx. cbn in Hx. fold acc in Hx. rewrite Ea in Hx. injection Hx as <-. split; [done|]. cbn [ct_accountId ct_amount for_order entry].
    change (is_pending _) with true. cbn iota.
    assert (Hno : forall e, e ∈ cd_entries (update_status db (ct_id h) VOID) -> pending_on o e = false).
    { intros e He. destruct (pending_on o e) eqn:E; [|done]. exfalso.
      assert (Hin : e ∈ List.filter (pending_on o) (cd_entries (update_status db (ct_id h) VOID))).
      { apply list_elem_of_In, filter_In. split; [by apply list_elem_of_In|done]. }
      rewrite Hone in Hin; [inversion Hin|]. unfold pending_on, on_order. cbn. by apply bool_decide_eq_true. }
    cbn [cd_entries update_status with_entries]. rewrite amount_where_closed by (done || intros; by apply pend_closed).
    enough (amount_where (fun e => pend acc e && negb (String.eqb (ct_id e) (ct_id h))) (cd_entries db) <=
            amount_where (fun e => pend acc e && negb (on_order o e)) (cd_entries db)) by lia.
    apply amount_where_mono; [apply (ok_amounts _ Hok)|]. intros e He Hp. apply andb_true_iff in Hp as [Hp Hid].
    rewrite Hp. cbn. assert (X : pending_on o (set_status (ct_id h) VOID e) = false).
    { apply Hno. cbn. apply list_elem_of_fmap. by exists e. }
    rewrite pending_on_closed, Hid, andb_true_r in X by done. unfold pending_on in X.
    unfold pend in Hp. apply andb_true_iff in Hp as [_ Hp]. rewrite Hp in X. cbn in X. by rewrite X.
  - inv_ok. match goal with E : insertEntry _ _ = Ok _ |- _ => rename E into Hins end.
    eapply insertEntry_ok; [exact Hok|exact Hins| |cbn; by eexists].
    intros x Hx. cbn in Hx. fold acc in Hx. rewrite Ea in Hx. injection Hx as <-. split; [done|]. cbn [ct_accountId ct_amount for_order entry].
    change (is_pending _) with true. cbn iota.
    rewrite (amount_where_ext _ (pend acc)) in *; [lia|]. intros e He. pose proof (pendingForOrder_none _ _ _ Eh He) as X.
    unfold pending_on in X. unfold pend. destruct (is_pending e); [|by rewrite andb_false_r]. cbn in X. rewrite X. by rewrite !andb_true_r.
Qed.

Lemma releaseEntry_ok db h o amount reason db' : credit_ok db -> is_Some (cd_accounts db !! ct_accountId h) ->
  releaseEntry gen db h o amount reason = Ok db' -> credit_ok db'.
Proof.
  intros Hok Hs H. eapply insertEntry_ok; [exact Hok|exact H| |done].
  intros x Hx. destruct (ok_accounts _ Hok _ _ Hx) as (_ & B & _). split; [done|].
  change (is_pending _) with false. cbn in B |- *. lia.
Qed.

Lemma hold_known db o h : credit_ok db -> pendingForOrder db o = Some h -> is_Some (cd_accounts db !! ct_accountId h).
Proof.
  intros Hok H. apply pendingForOrder_some in H as (Hin & _). pose proof (ok_known _ Hok) as K.
  rewrite Forall_forall in K. by apply K.
Qed.

Lemma redeem_ok db input d out : credit_ok db -> redeem gen db input = Ok (d, out) -> credit_ok d.
Proof.
  intros Hok H. unfold redeem in H. inv_ok. apply assertCents_unit in Em.
  destruct (pendingForOrder db (rd_orderId input)) as [h|] eqn:Eh.
  2: { inv_ok. destruct a1 as [e|]; [destruct (_ || _); [discriminate|]|]; by inv_ok. }
  pose proof (hold_known _ _ _ Hok Eh) as Hk. apply pendingForOrder_some in Eh as (Hin & Hpend & Ho). inv_ok.
  destruct (rd_appliedAmount input =? 0) eqn:E0; inv_ok.
  { match goal with E : releaseEntry _ _ _ _ _ _ = Ok _ |- _ => eapply releaseEntry_ok; [| |exact E]; [|exact Hk] end. by apply closed_status_ok. }
  unfold lockAccount in Em1. destruct (cd_accounts db !! ct_accountId h) as [ac|] eqn:Ea; [|discriminate]. inv_ok. bool_props.
  match goal with E : setBalance _ _ _ _ = Ok _ |- _ => unfold setBalance in E end. inv_ok.
  match goal with E : insertEntry _ _ = Ok ?db3 |- _ => rename E into Hins; assert (Hok3 : credit_ok db3) end.
  { eapply (balance_post (update_status db (ct_id h) POSTED) (ct_accountId h) a1 (- rd_appliedAmount input));
      [by apply closed_status_ok|exact Ea| | |exact Hins|done|done|done].
    - destruct (ok_accounts _ Hok _ _ Ea) as (B1 & _ & _). lia.
    - cbn [cd_entries update_status with_entries]. rewrite amount_where_closed by (done || intros; by apply pend_closed).
      pose proof (amount_where_without h (pend (ct_accountId h)) (cd_entries db) (ok_amounts _ Hok) Hin
        ltac:(unfold pend; by rewrite String.eqb_refl, Hpend)).
      destruct (ok_accounts _ Hok _ _ Ea) as (_ & B & _). lia. }
  destruct (rd_appliedAmount input <? ct_amount h); inv_ok; [|done].
  match goal with E : releaseEntry _ _ _ _ _ _ = Ok _ |- _ => eapply releaseEntry_ok; [| |exact E]; [exact Hok3|] end.
  apply insertEntry_spec in Hins as (-> & _). cbn. rewrite lookup_insert_eq. by eexists.
Qed.

Lemma release_ok db o cause d out : credit_ok db -> release gen db o cause = Ok (d, out) -> credit_ok d.
Proof.
  intros Hok H. unfold release in H. inv_ok. destruct (pendingForOrder db o) as [h|] eqn:Eh; [|by inv_ok].
  pose proof (hold_known _ _ _ Hok Eh) as Hk. inv_ok. destruct (negb a1); inv_ok; [done|].
  match goal with E : releaseEntry _ _ _ _ _ _ = Ok _ |- _ => eapply releaseEntry_ok; [| |exact E]; [|exact Hk] end.
  by apply closed_status_ok.
Qed.

Lemma run_credit_op_ok db op d : credit_ok db -> run_credit_op db op = Ok d -> credit_ok d.
Proof.
  intros Hok E. destruct op; cbn in E; inv_ok; destruct a as [d1 out]; inv_ok;
    eauto using issue_ok, adjust_ok, disable_ok, reserve_ok, redeem_ok, release_ok.
Qed.

(** Under any sequence of issuances, adjustments, reservations, redemptions and
    releases, failed ones rolled back, every account's balance stays within the
    storage range and equals the sum of its posted deltas, the holds of orders
    awaiting payment never exceed it, no operation key is used twice and an order
    has at most one pending hold. *)
Theorem account_credit_invariant db ops :
  credit_ok db -> credit_ok (fold_left (fun d op => match run_credit_op d op with Ok d' => d' | Err _ => d end) ops db).
Proof.
  revert db. induction ops as [|op ops IH]; intros db Hok; cbn [fold_left]; [done|]. apply IH.
  destruct (run_credit_op db op) as [d'|] eqn:E; [|done]. by eapply run_credit_op_ok.
Qed.
End Invariant.

(** ** Redemption posts once *)

Lemma filter_none {A} (p : A -> bool) l : (forall x, x ∈ l -> p x = false) -> List.filter p l = [].
Proof.
  induction l as [|x l IH]; cbn; intros H; [done|]. rewrite (H x ltac:(by left)). apply IH. intros; apply H. by right.
Qed.
Lemma filter_none_inv {A} (p : A -> bool) l x : List.filter p l = [] -> x ∈ l -> p x = false.
Proof.
  intros H Hx. destruct (p x) eqn:E; [|done]. exfalso. assert (Hin : In x (List.filter p l)) by (apply filter_In; split; [by apply list_elem_of_In|done]).
  rewrite H in Hin. inversion Hin.
Qed.

(** After the hold [h] is marked posted and non-pending entries are appended,
    the order has no pending hold and the redemptions are those appended. *)
Lemma after_posting db o h news : credit_ok db -> pendingForOrder db o = Some h ->
  List.filter (is_redemption o) (cd_entries db) = [] ->
  Forall (fun e => is_pending e = false) news ->
  let es := map (set_status (ct_id h) POSTED) (cd_entries db) ++ news in
  List.find (fun e => on_order o e && is_pending e) es = None /\
  List.filter (is_redemption o) es = List.filter (is_redemption o) news.
Proof.
  intros Hok Hh Hr Hn es. apply pendingForOrder_some in Hh as (Hin & Hp & Ho). subst es. split.
  - destruct (List.find _ _) as [x|] eqn:Ef; [|done]. exfalso. apply List.find_some in Ef as [Hx Hb].
    apply andb_true_iff in Hb as [Hb1 Hb2]. apply in_app_iff in Hx as [Hx|Hx].
    + apply in_map_iff in Hx as (y & <- & Hy). apply list_elem_of_In in Hy.
      assert (Hpy : pending_on o (set_status (ct_id h) POSTED y) = true) by (unfold pending_on; by rewrite Hb2, Hb1).
      rewrite pending_on_closed in Hpy by discriminate. apply andb_true_iff in Hpy as [Hpy Hid].
      assert (Hph : pending_on o h = true) by (unfold pending_on, on_order; rewrite Hp, Ho; by rewrite bool_decide_eq_true_2).
      pose proof (ok_one_hold _ Hok o) as O1.
      assert (y = h); [|subst y; by rewrite String.eqb_refl in Hid].
      assert (Hy' : y ∈ List.filter (pending_on o) (cd_entries db)) by (apply list_elem_of_In, filter_In; split; [by apply list_elem_of_In|done]).
      assert (Hh' : h ∈ List.filter (pending_on o) (cd_entries db)) by (apply list_elem_of_In, filter_In; split; [by apply list_elem_of_In|done]).
      destruct (List.filter (pending_on o) (cd_entries db)) as [|a [|b l]]; [inversion Hy'| |cbn in O1; lia].
      apply list_elem_of_singleton in Hy', Hh'. congruence.
    + rewrite List.Forall_forall in Hn. specialize (Hn _ Hx). congruence.
  - rewrite List.filter_app, filter_none; [done|]. intros x Hx. apply list_elem_of_fmap in Hx as (y & -> & Hy).
    pose proof (filter_none_inv _ _ y Hr Hy) as Hny. destruct (String.eqb_spec (ct_id y) (ct_id h)) as [E|E].
    + assert (y = h) as -> by (eapply NoDup_map_inj; [apply (ok_ids _ Hok)|done|done|done]).
      unfold is_redemption, set_status. rewrite String.eqb_refl. cbn. unfold is_pending in Hp. apply bool_decide_eq_true in Hp as [Hk _].
      rewrite (bool_decide_eq_false_2 (ct_kind h = REDEEM)) by congruence. by rewrite andb_false_r.
    + rewrite set_status_other by (by apply String.eqb_neq). done.
Qed.

(** Settling an order's credit posts it exactly once: the account pays exactly
    the applied amount, the order keeps no pending hold, and replaying the
    settlement with the same amount and allocation returns the same redemption
    and changes nothing. *)
Theorem redemption_posts_once gen db input d e h a :
  credit_ok db -> pendingForOrder db (rd_orderId input) = Some h -> redemptionForOrder db (rd_orderId input) = Ok None ->
  cd_accounts db !! ct_accountId h = Some a -> redeem gen db input = Ok (d, Some e) ->
  ct_amount e = rd_appliedAmount input /\ 0 < rd_appliedAmount input <= ct_amount h /\
  (exists a', cd_accounts d !! ct_accountId h = Some a' /\ ca_balance a' = ca_balance a - rd_appliedAmount input) /\
  pendingForOrder d (rd_orderId input) = None /\ redeem gen d input = Ok (d, Some e).
Proof.
  intros Hok Hh Hr Ha H.
  assert (Hrn : List.filter (is_redemption (rd_orderId input)) (cd_entries db) = []).
  { unfold redemptionForOrder in Hr.
    destruct (List.filter (is_redemption (rd_orderId input)) (cd_entries db)) as [|x [|y l]]; [done|discriminate|discriminate]. }
  unfold redeem in H |- *. destruct (assertCents (rd_appliedAmount input) false) as [u|] eqn:Ec; cbn [bind_result] in H |- *; [|discriminate].
  unfold lockOrder in H |- *. destruct (cd_orders db !! rd_orderId input) as [order|] eqn:Eo; cbn [bind_result] in H; [|discriminate].
  destruct (importedFinancialReconciliationRequired (co_metadata order)) eqn:Eq; cbn [bind_result] in H; [discriminate|].
  rewrite Hh in H. unfold lockAccount in H. rewrite Ha in H. cbn [bind_result] in H.
  destruct (negb (existsb _ _)); [discriminate|]. destruct (_ || _ || _) eqn:Eg; [discriminate|]. bool_props.
  destruct (Z.eqb_spec (rd_appliedAmount input) 0); [inv_ok; discriminate|].
  apply assertCents_unit in Ec. destruct (validateAllocation _ _ _); cbn [bind_result] in H; [|discriminate].
  destruct (ca_balance a <? rd_appliedAmount input); [discriminate|]. unfold setBalance in H. destruct (assertCents (ca_balance a - rd_appliedAmount input) false); cbn [bind_result] in H; [|discriminate].
  set (e0 := noted _ _ _) in H.
  destruct (insertEntry _ e0) as [d3|] eqn:Ei; cbn [bind_result] in H; [|discriminate].
  apply insertEntry_spec in Ei as (-> & _ & _ & _ & _).
  assert (Fin : exists news, cd_entries d = map (set_status (ct_id h) POSTED) (cd_entries db) ++ news /\
    Forall (fun x => is_pending x = false) news /\ List.filter (is_redemption (rd_orderId input)) news = [e] /\ e = e0 /\
    cd_accounts d = <[ct_accountId h := set_balance a (ca_balance a - rd_appliedAmount input)]> (cd_accounts db) /\
    cd_orders d = cd_orders db).
  { assert (R0 : is_redemption (rd_orderId input) e0 = true) by (unfold is_redemption, on_order; cbn; by rewrite bool_decide_eq_true_2).
    destruct (rd_appliedAmount input <? ct_amount h); inv_ok.
    - match goal with E : releaseEntry _ _ _ _ _ _ = Ok _ |- _ => apply insertEntry_spec in E as (-> & _) end.
      eexists [_; _]. split; [cbn; by rewrite <- app_assoc|]. split; [repeat constructor|]. split; [|done].
      cbn [List.filter]. rewrite R0. match goal with |- context [if ?c then _ else []] => replace c with false end; [done|].
      unfold is_redemption. cbn. by rewrite andb_false_r.
    - exists [e0]. split; [done|]. split; [repeat constructor|]. cbn [List.filter]. by rewrite R0. }
  destruct Fin as (news & F1 & F2 & F3 & -> & F5 & F6).
  destruct (after_posting db (rd_orderId input) h news Hok Hh Hrn F2) as [P1 P2]. rewrite <- F1 in P1, P2.
  split; [done|]. split; [lia|]. split; [eexists; rewrite F5, lookup_insert_eq; split; [done|done]|]. split; [exact P1|].
  rewrite F6, Eo, Eq. cbn [bind_result]. unfold pendingForOrder. rewrite P1. unfold redemptionForOrder.
  rewrite P2, F3. cbn [bind_result]. cbn [e0 noted for_order entry ct_amount ct_allocation equalAllocation].
  rewrite Z.eqb_refl, bool_decide_eq_true_2 by done. done.
Qed.

(** ** A sample store *)

Definition sample_ids (n : nat) : string := match n with O => "t0" | S O => "t1" | S (S O) => "t2" | _ => "t3" end.
Definition no_parse (_ : string) : option json := None.
Definition sample_order : CreditOrder :=
  {| co_state := PendingPayment; co_currency := "USD"; co_promotionId := Some "p1"; co_grandTotal := 900; co_metadata := None;
     co_lines := [("l1", 2)] |}%string.
Definition sample_payment : Payment :=
  {| py_id := "pay1"; py_orderId := "o1"; py_amount := 900; py_gatewayAccount := None; py_gatewayMode := None;
     py_currency := Some "USD"; py_method := "stripe"; py_providerRef := Some "pi_1"; py_state := pay_Settled; py_metadata := None;
     py_errorMessage := None |}%string.
Definition sample_store : CreditDb :=
  {| cd_accounts := ∅; cd_entries := []; cd_promotions := ∅; cd_orders := <["o1" := sample_order]> ∅;
     cd_payments := [sample_payment]; cd_storeCurrency := "USD" |}%string.
Definition sample_issue : CreditOp :=
  op_issue {| is_email := " Ann@Example.com "; is_amount := 1000; is_issuanceKey := "k1"; is_currency := None; is_code := Some "GIFT" |}
    "ACC-0" "p1" "a1".
Definition sample_reserve : CreditOp :=
  op_reserve {| rs_orderId := "o1"; rs_accountId := "a1"; rs_appliedAmount := 600; rs_arranging := true |} "u1" 5.
Definition run_sample (db : CreditDb) (ops : list CreditOp) : CreditDb :=
  fold_left (fun d op => match run_credit_op sample_ids no_parse d op with Ok d' => d' | Err _ => d end) ops db.

Lemma sample_store_ok : credit_ok sample_store.
Proof. split; cbn; [apply map_Forall_empty| | | |lia|]; constructor. Qed.

Lemma account_credit_invariant_witness :
  map ct_amount (cd_entries (run_sample sample_store [sample_issue; sample_reserve])) = [1000; 600] /\
  credit_ok (run_sample sample_store [sample_issue; sample_reserve]).
Proof.
  split; [vm_compute; reflexivity|].
  exact (account_credit_invariant sample_ids no_parse sample_store [sample_issue; sample_reserve] sample_store_ok).
Defined.

Definition sample_held : CreditDb := run_sample sample_store [sample_issue; sample_reserve].
Lemma sample_held_ok : credit_ok sample_held.
Proof.
  destruct (issue sample_ids sample_store {| is_email := " Ann@Example.com "; is_amount := 1000; is_issuanceKey := "k1";
    is_currency := None; is_code := Some "GIFT"%string |} "ACC-0" "p1" "a1") as [[d1 o1]|] eqn:E1; [|vm_compute in E1; discriminate].
  pose proof (issue_ok _ _ _ _ _ _ _ _ sample_store_ok E1) as H1.
  destruct (reserve sample_ids no_parse d1 {| rs_orderId := "o1"; rs_accountId := "a1"; rs_appliedAmount := 600; rs_arranging := true |}
    "u1" 5) as [[d2 o2]|] eqn:E2.
  - pose proof (reserve_ok _ _ _ _ _ _ _ _ H1 E2) as H2.
    assert (sample_held = d2) as ->; [|exact H2].
    unfold sample_held, run_sample, sample_issue, sample_reserve. cbn [fold_left run_credit_op]. rewrite E1. cbn [bind_result]. by rewrite E2.
  - exfalso. revert E2. vm_compute in E1. injection E1 as <- _. vm_compute. discriminate.
Qed.

Definition sample_redeem : RedeemCreditInput :=
  {| rd_orderId := "o1"; rd_appliedAmount := 500; rd_allocation := <["l1" := [300; 200]]> ∅ |}%string.

Lemma redemption_posts_once_witness :
  exists d e, redeem sample_ids sample_held sample_redeem = Ok (d, Some e) /\ redeem sample_ids d sample_redeem = Ok (d, Some e) /\
    map ct_kind (cd_entries d) = [ISSUE; RESERVE; REDEEM; RELEASE].
Proof.
  destruct (redeem sample_ids sample_held sample_redeem) as [[d [e|]]|] eqn:E; [|vm_compute in E; discriminate E|vm_compute in E; discriminate E].
  exists d, e. split; [reflexivity|].
  destruct (pendingForOrder sample_held "o1") as [h|] eqn:Eh; [|vm_compute in Eh; discriminate Eh].
  destruct (cd_accounts sample_held !! ct_accountId h) as [a|] eqn:Ea.
  2: { exfalso. revert Ea. vm_compute in Eh. injection Eh as <-. vm_compute. discriminate. }
  split.
  - exact (proj2 (proj2 (proj2 (proj2 (redemption_posts_once sample_ids sample_held sample_redeem d e h a sample_held_ok Eh
      ltac:(vm_compute; reflexivity) Ea E))))).
  - revert E. vm_compute. intros [= <- _]. reflexivity.
Defined.
