(* ===== verification/EditFunding.v ===== *)
(** Credit given back unit by unit: [src/packages/api/src/account-credit/edit-funding.ts]
    and the unit identities of [import/source-compatibility.ts].

    A redemption splits its cents over the units of the order's lines. Every
    restoration row takes some of them back, and says so in the JSON of its
    [allocation]: which unit went from which amount to which. [readState]
    rebuilds what each unit still holds from the redemption and the complete
    history; [planEditCreditFunding] and [planCreditUnitReturn] plan the next
    rows. A stored envelope is untrusted JSON, so it stays JSON here and each
    field is compared as the code compares it.

    A refusal carries its code; the messages, which only describe it, are left
    out. Sums are exact: the addends are at most [MAX_CREDIT_CENTS], and a sum
    that would round is refused like the exact one. *)

From S2P Require Import Prelude JsNumber Json JsonText AccountCredit.
From Stdlib Require Import ZArith QArith Lia Bool String Ascii.
From stdpp Require Import base list strings pretty.
Local Open Scope Z_scope.

Inductive EditFundingRefusalCode := INVALID_REDEMPTION | AMBIGUOUS_HISTORY | INVALID_REQUEST | REPLAY_CONFLICT.
Inductive FundingError := Refusal (code : EditFundingRefusalCode) | TypeError.

Record EditFundingRedemption := {
  er_id : string; er_orderId : option string; er_accountCreditId : string; er_kind : CreditKind; er_status : CreditStatus;
  er_amount : Z; er_delta : Z; er_operationalAllocation : option json
}.
Record EditFundingHistoryRow := {
  hr_id : string; hr_idempotencyKey : string; hr_orderId : option string; hr_accountCreditId : string;
  hr_relatedTransactionId : option string; hr_orderLineId : option string; hr_refundId : option string;
  hr_kind : CreditKind; hr_status : CreditStatus; hr_quantity : option Z; hr_amount : Z; hr_delta : Z;
  hr_allocation : option string; hr_operationalAllocation : option json
}.
Record EditFundingUnitChange := { uc_index : Z; uc_before : Z; uc_after : Z }.
Record EditFundingPosting := {
  po_refundId : option string; po_kind : CreditKind; po_status : CreditStatus; po_relatedTransactionId : string;
  po_orderId : string; po_accountCreditId : string; po_orderLineId : string; po_quantity : Z; po_amount : Z; po_delta : Z;
  po_idempotencyKey : string; po_allocation : string; po_operationalAllocation : json
}.
Record TargetUnit := {
  tu_originalIndex : option Z; tu_maximumCredit : Z; tu_consumed : option bool; tu_unitId : option string
}.
Record EditFundingTargetLine := { tl_orderLineId : string; tl_units : list TargetUnit }.
Record CommittedEdit := { ce_editId : string; ce_requestDigest : string; ce_postingKeys : list string }.
Record EditFundingInput := {
  fi_redemption : EditFundingRedemption; fi_history : list EditFundingHistoryRow; fi_historyComplete : bool;
  fi_editId : string; fi_lines : list EditFundingTargetLine; fi_committedEdit : option CommittedEdit
}.
(** [Record<string, number[]>]: the object's entries in order. *)
Definition UnitVectors : Type := list (string * list Z).
Record CreditFundingState := {
  fs_remaining : UnitVectors; fs_returnedIndexes : UnitVectors; fs_redeemed : Z; fs_restored : Z; fs_retained : Z
}.
Inductive EditFundingResult :=
  | replayed (requestDigest : string) (state : CreditFundingState)
  | planned (requestDigest : string) (postings : list EditFundingPosting) (allocation : UnitVectors) (state : CreditFundingState).

(** ** Values *)

Definition money (v : Z) : bool := is_safe v && (0 <=? v) && (v <=? MAX_CREDIT_CENTS).
Definition money_json (v : json) : option Z :=
  match safe_integer (Some v) with Some z => if money z then Some z else None | None => None end.
Definition sum (values : list Z) (code : EditFundingRefusalCode) : result FundingError Z :=
  guard! money (sumZ values) or Refusal code in Ok (sumZ values).

Definition is_text (s : string) (v : option json) : bool := match v with Some (JStr x) => String.eqb x s | _ => false end.
Definition is_number (z : Z) (v : option json) : bool := match v with Some (JNum q) => Qeq_bool q (inject_Z z) | _ => false end.
Definition is_object (v : option json) : bool := match v with Some (JObj _) => true | _ => false end.
(** [String(v)]: an array joins its elements, [null] ones as nothing. *)
Fixpoint js_text (v : json) : string :=
  match v with
  | JNull => "null"
  | JBool b => if b then "true" else "false"
  | JNum q => print_num q
  | JStr s => s
  | JArr l => String.concat "," (map (fun x => match x with JNull => EmptyString | _ => js_text x end) l)
  | JObj _ => "[object Object]"
  end.
Definition js_String (v : option json) : string := match v with Some v => js_text v | None => "undefined" end.
Definition one_of_texts (l : list string) (s : string) : bool := existsb (String.eqb s) l.

(** [/^[a-f0-9]{64}$/] *)
Definition lower_hex (c : ascii) : bool := is_digit c || (let n := nat_of_ascii c in (97 <=? n)%nat && (n <=? 102)%nat).
Definition hex64 (s : string) : bool := (String.length s =? 64)%nat && forallb lower_hex (list_ascii_of_string s).

Definition int_json (z : Z) : json := JNum (inject_Z z).

(** ** Envelopes *)

Definition EDIT_RESTORE : string := "account_credit.edit_restore".
Definition UNIT_RESTORE : string := "account_credit.unit_restore".
Definition QUANTITY_RETURN : string := "quantity_return".
Definition UNIT_CORRECTION : string := "unit_correction".

(** The key is built from what the object holds; reading [e.operation.kind] of
    no object at all throws. *)
Definition edit_key (editId redemptionId line cause : string) : string :=
  "edit:" +:+ editId +:+ ":credit:" +:+ redemptionId +:+ ":line:" +:+ line +:+ ":" +:+ cause.
Definition refund_key (refundId line : string) : string := "refund:" +:+ refundId +:+ ":line:" +:+ line.
Definition manual_key (id : string) : string := "manual:" +:+ id.
Definition keyFor (e : json) : result FundingError string :=
  if is_text EDIT_RESTORE (field "type" e) then
    Ok (edit_key (js_String (field "editId" e)) (js_String (field "redemptionId" e)) (js_String (field "orderLineId" e)) (js_String (field "cause" e)))
  else
    match field "operation" e with
    | None | Some JNull => Err TypeError
    | Some op =>
        if is_text "refund" (field "kind" op) then Ok (refund_key (js_String (field "id" op)) (js_String (field "orderLineId" e)))
        else Ok (manual_key (js_String (field "id" op)))
    end.

Definition valid_operation (kind id : string) : bool :=
  negb (String.eqb id EmptyString) && (Z.of_nat (String.length id) <=? 153) && (negb (String.eqb kind "refund") || is_uuid id).
Definition unit_restore_ok (raw : json) : bool :=
  is_number 1 (field "version" raw) && is_text QUANTITY_RETURN (field "cause" raw) && is_object (field "operation" raw) &&
  match field "operation" raw with
  | Some op =>
      one_of_texts ["refund"; "manual_return"] (js_String (field "kind" op)) &&
      match as_string (field "id" op) with
      | Some id => negb (String.eqb id EmptyString) && (Z.of_nat (String.length id) <=? 153) &&
                   (negb (is_text "refund" (field "kind" op)) || is_uuid id)
      | None => false
      end
  | None => false
  end &&
  match as_array (field "units" raw) with Some (_ :: _) => true | _ => false end.
Definition edit_restore_ok (raw : json) : bool :=
  is_number 1 (field "version" raw) && one_of_texts [QUANTITY_RETURN; UNIT_CORRECTION] (js_String (field "cause" raw)) &&
  match as_string (field "editId" raw) with Some id => is_uuid id | None => false end &&
  match as_string (field "requestDigest" raw) with Some d => hex64 d | None => false end &&
  match as_array (field "units" raw) with Some (_ :: _) => true | _ => false end.

Definition parseEnvelope (row : EditFundingHistoryRow) : result FundingError (option json) :=
  match hr_allocation row with
  | None => Ok None
  | Some text =>
      match JSON_parse text with
      | None => Err (Refusal AMBIGUOUS_HISTORY)
      | Some raw =>
          if negb (is_object (Some raw)) then Ok None
          else if negb (one_of_texts [EDIT_RESTORE; UNIT_RESTORE] (js_String (field "type" raw))) then
            guard! match as_string (field "type" raw) with Some t => negb (String.prefix "account_credit." t) | None => true end
              or Refusal AMBIGUOUS_HISTORY in Ok None
          else if is_text UNIT_RESTORE (field "type" raw) then
            guard! unit_restore_ok raw or Refusal AMBIGUOUS_HISTORY in Ok (Some raw)
          else guard! edit_restore_ok raw or Refusal AMBIGUOUS_HISTORY in Ok (Some raw)
      end
  end.

(** ** Reading the history *)

Definition own_entries (fs : list (string * json)) : list (string * json) :=
  map (fun k => (k, or_else (assoc_last k fs) JNull)) (uniq (map fst fs)).
Definition unit_vector (entry : string * json) : option (string * list Z) :=
  match snd entry with
  | JArr l =>
      if is_uuid (fst entry) && negb (is_nil l) then (fun units => (fst entry, units)) <$> all_some (map money_json l) else None
  | _ => None
  end.
(** The redemption's own facts: its unit vectors when they are proven. *)
Definition original_units (r : EditFundingRedemption) : result FundingError UnitVectors :=
  let no := Refusal INVALID_REDEMPTION in
  guard! bool_decide (er_kind r = REDEEM) && bool_decide (er_status r = POSTED) && is_uuid (er_id r) &&
         match er_orderId r with Some o => is_uuid o | None => false end && is_uuid (er_accountCreditId r) &&
         money (er_amount r) && (0 <? er_amount r) && (er_delta r =? - er_amount r) && is_object (er_operationalAllocation r) or no in
  let entries := match er_operationalAllocation r with Some (JObj fs) => own_entries fs | _ => [] end in
  guard! negb (is_nil entries) or no in
  match all_some (map unit_vector entries) with
  | None => Err no
  | Some original =>
      let! total := sum (concat (map snd original)) INVALID_REDEMPTION in
      guard! total =? er_amount r or no in Ok original
  end.

Record LegacyGroup := { lg_line : string; lg_quantity : Z; lg_amounts : list Z }.
Fixpoint legacy_add (line : string) (quantity amount : Z) (groups : list LegacyGroup) : list LegacyGroup :=
  match groups with
  | [] => [{| lg_line := line; lg_quantity := quantity; lg_amounts := [amount] |}]
  | g :: rest =>
      if String.eqb (lg_line g) line
      then {| lg_line := line; lg_quantity := lg_quantity g + quantity; lg_amounts := lg_amounts g ++ [amount] |} :: rest
      else g :: legacy_add line quantity amount rest
  end.
Record Scan := {
  sc_ids : list string; sc_keys : list string; sc_legacy : list LegacyGroup; sc_modern : list (EditFundingHistoryRow * json)
}.
Definition row_line (row : EditFundingHistoryRow) : string := or_else (hr_orderLineId row) EmptyString.
Definition row_proven (r : EditFundingRedemption) (original : UnitVectors) (row : EditFundingHistoryRow) : bool :=
  negb (String.eqb (hr_id row) EmptyString) && negb (String.eqb (hr_idempotencyKey row) EmptyString) &&
  bool_decide (hr_kind row = RESTORE) && bool_decide (hr_status row = POSTED) && bool_decide (hr_orderId row = er_orderId r) &&
  String.eqb (hr_accountCreditId row) (er_accountCreditId r) && bool_decide (hr_relatedTransactionId row = Some (er_id r)) &&
  match hr_orderLineId row with Some line => is_some (assoc_last line original) | None => false end &&
  money (hr_amount row) && (hr_delta row =? hr_amount row).
Definition scan_row (r : EditFundingRedemption) (original : UnitVectors) (acc : Scan) (row : EditFundingHistoryRow)
    : result FundingError Scan :=
  guard! row_proven r original row && negb (one_of_texts (sc_ids acc) (hr_id row)) &&
         negb (one_of_texts (sc_keys acc) (hr_idempotencyKey row)) or Refusal AMBIGUOUS_HISTORY in
  let ids := hr_id row :: sc_ids acc in let keys := hr_idempotencyKey row :: sc_keys acc in
  let! envelope := parseEnvelope row in
  match envelope with
  | Some e => Ok {| sc_ids := ids; sc_keys := keys; sc_legacy := sc_legacy acc; sc_modern := sc_modern acc ++ [(row, e)] |}
  | None =>
      match hr_quantity row with
      | Some q =>
          guard! is_safe q && (0 <? q) or Refusal AMBIGUOUS_HISTORY in
          Ok {| sc_ids := ids; sc_keys := keys; sc_legacy := legacy_add (row_line row) q (hr_amount row) (sc_legacy acc);
                sc_modern := sc_modern acc |}
      | None => Err (Refusal AMBIGUOUS_HISTORY)
      end
  end.

Definition units_of (v : UnitVectors) (line : string) : list Z := or_else (assoc_last line v) [].
Definition check_legacy (original : UnitVectors) (g : LegacyGroup) : result FundingError unit :=
  let units := units_of original (lg_line g) in
  guard! is_safe (lg_quantity g) && (lg_quantity g <=? Z.of_nat (length units)) or Refusal AMBIGUOUS_HISTORY in
  let! given := sum (lg_amounts g) AMBIGUOUS_HISTORY in
  let! prefix := sum (take (Z.to_nat (lg_quantity g)) units) AMBIGUOUS_HISTORY in
  guard! given =? prefix or Refusal AMBIGUOUS_HISTORY in Ok tt.
Definition legacy_returned (groups : list LegacyGroup) (line : string) : nat :=
  match List.find (fun g => String.eqb (lg_line g) line) groups with Some g => Z.to_nat (lg_quantity g) | None => 0 end.

Record Edge := { ed_before : Z; ed_after : Z; ed_returned : bool }.
Record Transition := { tr_line : string; tr_index : Z; tr_edge : Edge }.
Definition read_change (u : json) : option EditFundingUnitChange :=
  match u with
  | JObj _ =>
      match safe_integer (field "index" u), field "before" u, field "after" u with
      | Some i, Some b, Some a =>
          match money_json b, money_json a with
          | Some b, Some a => Some {| uc_index := i; uc_before := b; uc_after := a |}
          | _, _ => None
          end
      | _, _, _ => None
      end
  | _ => None
  end.
Definition quantity_return (e : json) : bool := is_text QUANTITY_RETURN (field "cause" e).
Definition change_ok (returns : bool) (len returned : nat) (seen : list Z) (c : EditFundingUnitChange) : bool :=
  (0 <=? uc_index c) && (uc_index c <? Z.of_nat len) && negb (existsb (Z.eqb (uc_index c)) seen) && (uc_after c <=? uc_before c) &&
  (if returns then uc_after c =? 0 else uc_after c <? uc_before c) &&
  negb (existsb (Z.eqb (uc_index c)) (map Z.of_nat (seq 0 returned))).
Fixpoint read_changes (returns : bool) (len returned : nat) (seen : list Z) (us : list json)
    : result FundingError (list EditFundingUnitChange) :=
  match us with
  | [] => Ok []
  | u :: us =>
      match read_change u with
      | None => Err (Refusal AMBIGUOUS_HISTORY)
      | Some c =>
          guard! change_ok returns len returned seen c or Refusal AMBIGUOUS_HISTORY in
          let! cs := read_changes returns len returned (uc_index c :: seen) us in Ok (c :: cs)
      end
  end.
Definition change_cents (c : EditFundingUnitChange) : Z := uc_before c - uc_after c.
Definition edge_of (returns : bool) (line : string) (c : EditFundingUnitChange) : Transition :=
  {| tr_line := line; tr_index := uc_index c;
     tr_edge := {| ed_before := uc_before c; ed_after := uc_after c; ed_returned := returns |} |}.
Definition projection (line : string) (cents : list Z) : json := JObj [(line, JArr (map int_json cents))].

Record Chains := { cn_transitions : list Transition; cn_editDigests : list (string * string) }.
Definition read_modern (r : EditFundingRedemption) (original : UnitVectors) (legacy : list LegacyGroup) (acc : Chains)
    (item : EditFundingHistoryRow * json) : result FundingError Chains :=
  let '(row, e) := item in
  let no := Refusal AMBIGUOUS_HISTORY in
  let line := row_line row in
  let units := or_else (as_array (field "units" e)) [] in
  guard! is_text (er_id r) (field "redemptionId" e) && is_text (or_else (er_orderId r) EmptyString) (field "orderId" e) &&
         is_text (er_accountCreditId r) (field "accountCreditId" e) && is_text line (field "orderLineId" e) or no in
  let! key := keyFor e in
  guard! String.eqb (hr_idempotencyKey row) key &&
         bool_decide (hr_quantity row = Some (if quantity_return e then Z.of_nat (length units) else 0)) or no in
  guard! negb (is_text UNIT_RESTORE (field "type" e)) ||
         (let op := or_else (field "operation" e) JNull in
          if is_text "refund" (field "kind" op) then bool_decide (hr_refundId row = as_string (field "id" op))
          else bool_decide (hr_refundId row = None)) or no in
  let! digests :=
    (if is_text EDIT_RESTORE (field "type" e) then
       guard! bool_decide (hr_refundId row = None) or no in
       let id := js_String (field "editId" e) in let digest := js_String (field "requestDigest" e) in
       guard! match assoc_last id (cn_editDigests acc) with Some d => String.eqb d digest | None => true end or no in
       Ok (cn_editDigests acc ++ [(id, digest)])
     else Ok (cn_editDigests acc)) in
  let! changes := read_changes (quantity_return e) (length (units_of original line)) (legacy_returned legacy line) [] units in
  let! given := sum (map change_cents changes) AMBIGUOUS_HISTORY in
  guard! (given =? hr_amount row) &&
         match hr_operationalAllocation row with
         | Some alloc => json_eqb (stable alloc) (stable (projection line (map change_cents changes)))
         | None => false
         end or no in
  Ok {| cn_transitions := cn_transitions acc ++ map (edge_of (quantity_return e) line) changes; cn_editDigests := digests |}.

(** Largest [before] first, a return after a correction from the same amount. *)
Definition edge_after (a b : Edge) : bool :=
  (ed_before a <? ed_before b) || ((ed_before a =? ed_before b) && ed_returned a && negb (ed_returned b)).
Definition chain_of (ts : list Transition) (line : string) (index : Z) : list Edge :=
  map tr_edge (List.filter (fun t => String.eqb (tr_line t) line && (tr_index t =? index)) ts).
Fixpoint follow (current : Z) (returned : bool) (chain : list Edge) : result FundingError (Z * bool) :=
  match chain with
  | [] => Ok (current, returned)
  | e :: rest =>
      guard! negb returned && (ed_before e =? current) or Refusal AMBIGUOUS_HISTORY in follow (ed_after e) (ed_returned e) rest
  end.
(** One unit: what its chain leaves, and whether it was returned; a unit without
    a chain keeps what the legacy rows left. *)
Definition unit_state (ts : list Transition) (line : string) (legacy : nat) (iu : nat * Z) : result FundingError (Z * bool) :=
  let chain := sort_stable edge_after (chain_of ts line (Z.of_nat (fst iu))) in
  let! out := follow (snd iu) false chain in
  Ok (if is_nil chain then (if (fst iu <? legacy)%nat then 0 else snd iu) else fst out, snd out).
Definition indexed {A} (l : list A) : list (nat * A) := zip (seq 0 (length l)) l.
Definition line_state (ts : list Transition) (legacy : list LegacyGroup) (entry : string * list Z)
    : result FundingError (string * list Z * list Z) :=
  let '(line, units) := entry in
  let n := legacy_returned legacy line in
  let! us := map_result (unit_state ts line n) (indexed units) in
  let returned := map (fun p => Z.of_nat (fst p)) (List.filter (fun p => snd (snd p)) (indexed us)) in
  Ok (line, map fst us, sort_stable Z.gtb (map Z.of_nat (seq 0 n) ++ returned)).

Record ReadState := { rs_state : CreditFundingState; rs_modern : list (EditFundingHistoryRow * json) }.
Definition readState (r : EditFundingRedemption) (history : list EditFundingHistoryRow) (complete : bool) : result FundingError ReadState :=
  let! original := original_units r in
  guard! complete or Refusal AMBIGUOUS_HISTORY in
  let! scan := fold_result (scan_row r original) {| sc_ids := []; sc_keys := []; sc_legacy := []; sc_modern := [] |} history in
  let! _ := map_result (check_legacy original) (sc_legacy scan) in
  let! chains := fold_result (read_modern r original (sc_legacy scan)) {| cn_transitions := []; cn_editDigests := [] |} (sc_modern scan) in
  let! lines := map_result (line_state (cn_transitions chains) (sc_legacy scan)) original in
  let! restored := sum (map hr_amount history) AMBIGUOUS_HISTORY in
  let! retained := sum (concat (map (fun l => snd (fst l)) lines)) AMBIGUOUS_HISTORY in
  guard! restored + retained =? er_amount r or Refusal AMBIGUOUS_HISTORY in
  Ok {| rs_state := {| fs_remaining := map fst lines; fs_returnedIndexes := map (fun l => (fst (fst l), snd l)) lines;
                       fs_redeemed := er_amount r; fs_restored := restored; fs_retained := retained |};
        rs_modern := sc_modern scan |}.

Definition readCreditFundingState (r : EditFundingRedemption) (history : list EditFundingHistoryRow) (complete : bool)
    : result FundingError CreditFundingState :=
  let! s := readState r history complete in Ok (rs_state s).

(** ** Planning *)

Section Planning.
Context (sha256 : string -> string) (localeAfter : string -> string -> bool).

Definition creditReturnSnapshotDigest (value : json) : string := sha256 (serialize value).

Definition edit_envelope (r : EditFundingRedemption) (cause line editId digest : string) (units : list EditFundingUnitChange) : json :=
  JObj [("version", int_json 1); ("type", JStr EDIT_RESTORE); ("cause", JStr cause); ("redemptionId", JStr (er_id r));
        ("orderId", JStr (or_else (er_orderId r) EmptyString)); ("accountCreditId", JStr (er_accountCreditId r));
        ("orderLineId", JStr line); ("editId", JStr editId); ("requestDigest", JStr digest);
        ("units", JArr (map (fun c => JObj [("index", int_json (uc_index c)); ("before", int_json (uc_before c)); ("after", int_json (uc_after c))]) units))].
Definition unit_envelope (r : EditFundingRedemption) (line kind id : string) (units : list EditFundingUnitChange) : json :=
  JObj [("version", int_json 1); ("type", JStr UNIT_RESTORE); ("cause", JStr QUANTITY_RETURN); ("redemptionId", JStr (er_id r));
        ("orderId", JStr (or_else (er_orderId r) EmptyString)); ("accountCreditId", JStr (er_accountCreditId r));
        ("orderLineId", JStr line); ("operation", JObj [("kind", JStr kind); ("id", JStr id)]);
        ("units", JArr (map (fun c => JObj [("index", int_json (uc_index c)); ("before", int_json (uc_before c)); ("after", int_json (uc_after c))]) units))].
Definition posting (r : EditFundingRedemption) (line : string) (refundId : option string) (quantity amount : Z) (key : string)
    (envelope : json) (cents : list Z) : EditFundingPosting :=
  {| po_refundId := refundId; po_kind := RESTORE; po_status := POSTED; po_relatedTransactionId := er_id r;
     po_orderId := or_else (er_orderId r) EmptyString; po_accountCreditId := er_accountCreditId r; po_orderLineId := line;
     po_quantity := quantity; po_amount := amount; po_delta := amount; po_idempotencyKey := key;
     po_allocation := serialize envelope; po_operationalAllocation := projection line cents |}.

(** The ledger row a posting becomes ([insertEntry] of [account-credit/service.ts]). *)
Definition row_of_posting (id : string) (p : EditFundingPosting) : EditFundingHistoryRow :=
  {| hr_id := id; hr_idempotencyKey := po_idempotencyKey p; hr_orderId := Some (po_orderId p); hr_accountCreditId := po_accountCreditId p;
     hr_relatedTransactionId := Some (po_relatedTransactionId p); hr_orderLineId := Some (po_orderLineId p); hr_refundId := po_refundId p;
     hr_kind := po_kind p; hr_status := po_status p; hr_quantity := Some (po_quantity p); hr_amount := po_amount p; hr_delta := po_delta p;
     hr_allocation := Some (po_allocation p); hr_operationalAllocation := Some (po_operationalAllocation p) |}.

(** *** The request *)

Definition unit_target_ok (remaining : UnitVectors) (line : string) (seen : list Z) (u : TargetUnit) : bool :=
  money (tu_maximumCredit u) &&
  match tu_unitId u with Some id => negb (String.eqb id EmptyString) && (Z.of_nat (String.length id) <=? 255) | None => true end &&
  match tu_originalIndex u with
  | None => true
  | Some i =>
      is_safe i && (0 <=? i) && is_some (assoc_last line remaining) && (i <? Z.of_nat (length (units_of remaining line))) &&
      negb (existsb (Z.eqb i) seen)
  end.
Fixpoint units_target_ok (remaining : UnitVectors) (line : string) (seen : list Z) (us : list TargetUnit) : bool :=
  match us with
  | [] => true
  | u :: us =>
      unit_target_ok remaining line seen u &&
      units_target_ok remaining line (match tu_originalIndex u with Some i => i :: seen | None => seen end) us
  end.
Fixpoint targets_ok (remaining : UnitVectors) (seen : list string) (lines : list EditFundingTargetLine) : bool :=
  match lines with
  | [] => true
  | l :: ls =>
      is_uuid (tl_orderLineId l) && negb (one_of_texts seen (tl_orderLineId l)) &&
      units_target_ok remaining (tl_orderLineId l) [] (tl_units l) && targets_ok remaining (tl_orderLineId l :: seen) ls
  end.
Definition target_unit_json (u : TargetUnit) : json :=
  JObj ([("originalIndex", match tu_originalIndex u with Some i => int_json i | None => JNull end); ("maximumCredit", int_json (tu_maximumCredit u))] ++
        match tu_consumed u with Some b => [("consumed", JBool b)] | None => [] end ++
        match tu_unitId u with Some id => [("unitId", JStr id)] | None => [] end).
Definition target_line_json (l : EditFundingTargetLine) : json :=
  JObj [("orderLineId", JStr (tl_orderLineId l)); ("units", JArr (map target_unit_json (tl_units l)))].
Definition requestDigestOf (r : EditFundingRedemption) (editId : string) (lines : list EditFundingTargetLine) : string :=
  sha256 (serialize (JObj [("redemptionId", JStr (er_id r)); ("editId", JStr editId);
    ("lines", JArr (map target_line_json (sort_stable (fun a b => localeAfter (tl_orderLineId a) (tl_orderLineId b)) lines)))])).

Definition own_rows (editId : string) (modern : list (EditFundingHistoryRow * json)) : list (EditFundingHistoryRow * json) :=
  List.filter (fun '(_, e) => is_text EDIT_RESTORE (field "type" e) && is_text editId (field "editId" e)) modern.
Definition replay_ok (c : CommittedEdit) (editId digest : string) (own : list (EditFundingHistoryRow * json)) : bool :=
  String.eqb (ce_editId c) editId && String.eqb (ce_requestDigest c) digest &&
  (length (uniq (ce_postingKeys c)) =? length (ce_postingKeys c))%nat &&
  bool_decide (sort_stable str_after (ce_postingKeys c) = sort_stable str_after (map (fun i => hr_idempotencyKey (fst i)) own)) &&
  forallb (fun '(_, e) => is_text digest (field "requestDigest" e)) own.

(** *** The plan of one line *)

Definition target_units (lines : list EditFundingTargetLine) (line : string) : list TargetUnit :=
  match List.find (fun l => String.eqb (tl_orderLineId l) line) lines with Some l => tl_units l | None => [] end.
Definition wanted (us : list TargetUnit) (index : Z) : option TargetUnit :=
  List.find (fun u => bool_decide (tu_originalIndex u = Some index)) us.
Definition returned_has (returned : list Z) (index : Z) : bool := existsb (Z.eqb index) returned.
Definition consumed_ok (returned : list Z) (u : TargetUnit) : bool :=
  match tu_originalIndex u with
  | Some i => if returned_has returned i then bool_decide (tu_consumed u = Some true) else negb (bool_decide (tu_consumed u = Some true))
  | None => true
  end.

Inductive Cause := quantity_return_cause | unit_correction_cause.
Definition cause_text (c : Cause) : string := match c with quantity_return_cause => QUANTITY_RETURN | unit_correction_cause => UNIT_CORRECTION end.
Definition unit_changes (us : list TargetUnit) (returned : list Z) (cause : Cause) (iu : nat * Z) : list EditFundingUnitChange :=
  let index := Z.of_nat (fst iu) in let before := snd iu in
  if returned_has returned index then [] else
  match cause, wanted us index with
  | quantity_return_cause, None => [{| uc_index := index; uc_before := before; uc_after := 0 |}]
  | unit_correction_cause, Some u =>
      if tu_maximumCredit u <? before then [{| uc_index := index; uc_before := before; uc_after := tu_maximumCredit u |}] else []
  | _, _ => []
  end.
Definition set_unit (units : list Z) (c : EditFundingUnitChange) : list Z := <[Z.to_nat (uc_index c) := uc_after c]> units.
Record LinePlan := { lp_units : list Z; lp_returned : list Z; lp_postings : list EditFundingPosting }.
Definition plan_cause (r : EditFundingRedemption) (editId digest line : string) (us : list TargetUnit) (returned : list Z)
    (acc : LinePlan) (cause : Cause) : result FundingError LinePlan :=
  let changes := flat_map (unit_changes us returned cause) (indexed (lp_units acc)) in
  if is_nil changes then Ok acc else
  let envelope := edit_envelope r (cause_text cause) line editId digest changes in
  let cents := map change_cents changes in
  let! amount := sum cents INVALID_REQUEST in
  let! key := keyFor envelope in
  let quantity := match cause with quantity_return_cause => Z.of_nat (length changes) | unit_correction_cause => 0 end in
  Ok {| lp_units := fold_left set_unit changes (lp_units acc);
        lp_returned := match cause with quantity_return_cause => lp_returned acc ++ map uc_index changes | unit_correction_cause => lp_returned acc end;
        lp_postings := lp_postings acc ++ [posting r line None quantity amount key envelope cents] |}.
Definition plan_line (r : EditFundingRedemption) (editId digest : string) (lines : list EditFundingTargetLine) (s : CreditFundingState)
    (line : string) : result FundingError LinePlan :=
  let us := target_units lines line in let returned := units_of (fs_returnedIndexes s) line in
  guard! forallb (consumed_ok returned) us or Refusal INVALID_REQUEST in
  fold_result (plan_cause r editId digest line us returned)
    {| lp_units := units_of (fs_remaining s) line; lp_returned := returned; lp_postings := [] |}
    [quantity_return_cause; unit_correction_cause].

Definition line_plan (plans : list (string * LinePlan)) (line : string) : LinePlan :=
  or_else (assoc_last line plans) {| lp_units := []; lp_returned := []; lp_postings := [] |}.
Definition unit_allocation (remaining : UnitVectors) (line : string) (u : TargetUnit) : Z :=
  match tu_originalIndex u with Some i => or_else (units_of remaining line !! Z.to_nat i) 0 | None => 0 end.

Definition planEditCreditFunding (input : EditFundingInput) : result FundingError EditFundingResult :=
  let r := fi_redemption input in
  let! rs := readState r (fi_history input) (fi_historyComplete input) in
  let s := rs_state rs in
  guard! is_uuid (fi_editId input) && targets_ok (fs_remaining s) [] (fi_lines input) or Refusal INVALID_REQUEST in
  let digest := requestDigestOf r (fi_editId input) (fi_lines input) in
  let own := own_rows (fi_editId input) (rs_modern rs) in
  match fi_committedEdit input with
  | Some c => guard! replay_ok c (fi_editId input) digest own or Refusal REPLAY_CONFLICT in Ok (replayed digest s)
  | None =>
      guard! is_nil own or Refusal REPLAY_CONFLICT in
      let! plans := map_result (fun line => let! p := plan_line r (fi_editId input) digest (fi_lines input) s line in Ok (line, p))
        (sort_stable localeAfter (map fst (fs_remaining s))) in
      let remaining := map (fun l => (fst l, lp_units (line_plan plans (fst l)))) (fs_remaining s) in
      let returned := map (fun l => (fst l, sort_stable Z.gtb (lp_returned (line_plan plans (fst l))))) (fs_returnedIndexes s) in
      let postings := concat (map (fun p => lp_postings (snd p)) plans) in
      let allocation := map (fun l => (tl_orderLineId l, map (unit_allocation remaining (tl_orderLineId l)) (tl_units l))) (fi_lines input) in
      let! given := sum (map po_amount postings) INVALID_REQUEST in
      let! retained := sum (concat (map snd remaining)) INVALID_REQUEST in
      guard! fs_restored s + given + retained =? fs_redeemed s or Refusal AMBIGUOUS_HISTORY in
      let! allocated := sum (concat (map snd allocation)) INVALID_REQUEST in
      guard! allocated =? retained or Refusal AMBIGUOUS_HISTORY in
      Ok (planned digest postings allocation
        {| fs_remaining := remaining; fs_returnedIndexes := returned; fs_redeemed := fs_redeemed s;
           fs_restored := fs_restored s + given; fs_retained := retained |})
  end.

(** *** Returned units *)

Record UnitOperation := { uo_kind : string; uo_id : string }.
Fixpoint return_changes (remaining returned : list Z) (seen : list Z) (indexes : list (option Z)) : result FundingError (list EditFundingUnitChange) :=
  match indexes with
  | [] => Ok []
  | None :: rest => return_changes remaining returned seen rest
  | Some i :: rest =>
      guard! is_safe i && (0 <=? i) && (i <? Z.of_nat (length remaining)) && negb (existsb (Z.eqb i) seen) && negb (returned_has returned i)
        or Refusal INVALID_REQUEST in
      let! cs := return_changes remaining returned (i :: seen) rest in
      Ok ({| uc_index := i; uc_before := or_else (remaining !! Z.to_nat i) 0; uc_after := 0 |} :: cs)
  end.
Definition planCreditUnitReturn (r : EditFundingRedemption) (history : list EditFundingHistoryRow) (complete : bool)
    (op : UnitOperation) (line : string) (originalIndexes : list (option Z))
    : result FundingError (option EditFundingPosting * CreditFundingState) :=
  let! rs := readState r history complete in
  let s := rs_state rs in
  guard! is_uuid line && negb (is_nil originalIndexes) && one_of_texts ["refund"; "manual_return"]%string (uo_kind op) &&
         valid_operation (uo_kind op) (uo_id op) or Refusal INVALID_REQUEST in
  let! units := return_changes (units_of (fs_remaining s) line) (units_of (fs_returnedIndexes s) line) [] originalIndexes in
  if is_nil units then Ok (None, s) else
  let envelope := unit_envelope r line (uo_kind op) (uo_id op) units in
  let cents := map uc_before units in
  let! amount := sum cents INVALID_REQUEST in
  let! key := keyFor envelope in
  Ok (Some (posting r line (if String.eqb (uo_kind op) "refund" then Some (uo_id op) else None) (Z.of_nat (length units)) amount key envelope cents),
      {| fs_remaining := set_where (fun e => String.eqb (fst e) line) (fun e => (fst e, fold_left set_unit units (snd e))) (fs_remaining s);
         fs_returnedIndexes := set_where (fun e => String.eqb (fst e) line)
           (fun e => (fst e, sort_stable Z.gtb (snd e ++ map uc_index units))) (fs_returnedIndexes s);
         fs_redeemed := fs_redeemed s; fs_restored := fs_restored s + amount; fs_retained := fs_retained s - amount |}).

(** ** The units a refund froze ([readCreditUnitReturns])

    Malformed evidence throws a plain [Error]; which one is left out. *)

Definition originalCreditUnitId (redemptionId orderLineId : string) (index : Z) : string :=
  "original:" +:+ redemptionId +:+ ":" +:+ orderLineId +:+ ":" +:+ pretty index.
Definition importedCreditUnitId (sourceBasisDigest orderLineId : string) (sourceSlot : Z) : string :=
  "vendure:" +:+ sourceBasisDigest +:+ ":" +:+ orderLineId +:+ ":" +:+ pretty sourceSlot.
(** A decimal without leading zeros, in the safe range. *)
Definition slot_text (s : string) : bool :=
  all_digits s && negb (String.eqb s EmptyString) && negb (leading_zero s) && is_safe (decimal 0 s).
Definition isImportedCreditUnitId (id orderLineId : string) : bool :=
  match split_on ":" id with
  | [a; digest; line; slot] => String.eqb a "vendure" && hex64 digest && String.eqb line orderLineId && slot_text slot
  | _ => false
  end.
Definition isEditUnitId (id orderLineId : string) : bool :=
  match split_on ":" id with
  | [a; edit; line; slot] => String.eqb a "edit" && is_uuid edit && String.eqb line orderLineId && slot_text slot
  | _ => false
  end.

Record CreditUnitEconomics := { ue_net : Z; ue_gross : Z; ue_cashRefundGross : Z }.
Record UnitCustody := { cu_unitIds : list string; cu_unitEconomics : list CreditUnitEconomics; cu_presentUnitIds : option (list string) }.
Record CreditUnitReturnLine := {
  ur_orderLineId : string; ur_positions : list Z; ur_originalIndexes : list (option Z); ur_creditCents : list Z;
  ur_custody : option UnitCustody (* version 2 *)
}.
Record CreditUnitReturns := {
  cr_version : Z; cr_redemptionId : string; cr_snapshotHash : option string; cr_snapshotDigest : string;
  cr_requestDigest : string; cr_lines : list CreditUnitReturnLine
}.
Definition natural_json (v : json) : option Z :=
  match safe_integer (Some v) with Some z => if 0 <=? z then Some z else None | None => None end.
Definition index_json (v : json) : option (option Z) := match v with JNull => Some None | _ => Some <$> natural_json v end.
Definition known_indexes (l : list (option Z)) : list Z := omap id l.
Definition economics_json (v : json) : option CreditUnitEconomics :=
  match v with
  | JObj _ =>
      match field "net" v ≫= money_json, field "gross" v ≫= money_json, field "cashRefundGross" v ≫= money_json with
      | Some n, Some g, Some c => Some {| ue_net := n; ue_gross := g; ue_cashRefundGross := c |}
      | _, _, _ => None
      end
  | _ => None
  end.
Definition string_json (v : json) : option string := match v with JStr s => Some s | _ => None end.
Definition strings_json (v : json) : option (list string) := match v with JArr l => all_some (map string_json l) | _ => None end.
Definition unit_id_ok (redemptionId line id : string) (index : option Z) : bool :=
  match index with
  | Some i => String.eqb id (originalCreditUnitId redemptionId line i)
  | None => isImportedCreditUnitId id line || isEditUnitId id line
  end.
Definition read_custody (redemptionId line : string) (indexes : list (option Z)) (seen : list string) (v : json) : option UnitCustody :=
  match as_array (field "unitIds" v), as_array (field "unitEconomics" v) with
  | Some ids, Some economics =>
      if negb (length ids =? length indexes)%nat || negb (length economics =? length indexes)%nat then None else
      match all_some (map string_json ids), all_some (map economics_json economics) with
      | Some ids, Some economics =>
          if negb (forallb (fun '(id, i) => unit_id_ok redemptionId line id i) (combine ids indexes)) ||
             negb (bool_decide (NoDup ids)) || existsb (one_of_texts seen) ids then None else
          match field "presentUnitIds" v with
          | None => Some {| cu_unitIds := ids; cu_unitEconomics := economics; cu_presentUnitIds := None |}
          | Some p =>
              match strings_json p with
              | Some present =>
                  if bool_decide (NoDup present) && forallb (one_of_texts ids) present
                  then Some {| cu_unitIds := ids; cu_unitEconomics := economics; cu_presentUnitIds := Some present |} else None
              | None => None
              end
          end
      | _, _ => None
      end
  | _, _ => None
  end.
Definition unfunded_ok (indexes : list (option Z)) (cents : list Z) : bool :=
  forallb (fun '(i, c) => match i with None => c =? 0 | Some _ => true end) (combine indexes cents).
Definition read_return_line (version : Z) (redemptionId : string) (lines units : list string) (v : json) : option CreditUnitReturnLine :=
  match as_string (field "orderLineId" v), as_array (field "positions" v), as_array (field "originalIndexes" v), as_array (field "creditCents" v) with
  | Some line, Some positions, Some indexes, Some cents =>
      if one_of_texts lines line || is_nil positions || negb (length positions =? length indexes)%nat ||
         negb (length positions =? length cents)%nat then None else
      match all_some (map natural_json positions), all_some (map index_json indexes), all_some (map money_json cents) with
      | Some positions, Some indexes, Some cents =>
          if negb (bool_decide (NoDup positions)) || negb (bool_decide (NoDup (known_indexes indexes))) || negb (unfunded_ok indexes cents) then None else
          let out custody := {| ur_orderLineId := line; ur_positions := positions; ur_originalIndexes := indexes; ur_creditCents := cents;
                                ur_custody := custody |} in
          if version =? 2 then match read_custody redemptionId line indexes units v with Some c => Some (out (Some c)) | None => None end
          else Some (out None)
      | _, _, _ => None
      end
  | _, _, _, _ => None
  end.
Fixpoint read_return_lines (version : Z) (redemptionId : string) (lines units : list string) (vs : list json) : option (list CreditUnitReturnLine) :=
  match vs with
  | [] => Some []
  | v :: vs =>
      match read_return_line version redemptionId lines units v with
      | None => None
      | Some l =>
          let units' := match ur_custody l with Some c => cu_unitIds c ++ units | None => units end in
          match read_return_lines version redemptionId (ur_orderLineId l :: lines) units' vs with Some ls => Some (l :: ls) | None => None end
      end
  end.
Definition frozen_base (raw : json) : json :=
  let at_key k := match field k raw with Some v => [(k, v)] | None => [] end in
  JObj (at_key "version" ++ at_key "redemptionId" ++ at_key "snapshotDigest" ++ at_key "lines" ++
        (if is_number 2 (field "version" raw) then at_key "snapshotHash" else []))%list.
Definition readCreditUnitReturns (metadata : option json) : result unit (option CreditUnitReturns) :=
  match metadata ≫= field "creditUnitReturns" with
  | None => Ok None
  | Some raw =>
      match safe_integer (field "version" raw), as_string (field "redemptionId" raw), as_string (field "snapshotDigest" raw),
            as_array (field "lines" raw), as_string (field "requestDigest" raw) with
      | Some version, Some redemptionId, Some snapshotDigest, Some vs, Some requestDigest =>
          guard! ((version =? 1) || (version =? 2)) && hex64 snapshotDigest &&
                 (negb (version =? 2) || match as_string (field "snapshotHash" raw) with Some h => hex64 h | None => false end) or tt in
          match read_return_lines version redemptionId [] [] vs with
          | None => Err tt
          | Some lines =>
              guard! String.eqb (creditReturnSnapshotDigest (frozen_base raw)) requestDigest or tt in
              Ok (Some {| cr_version := version; cr_redemptionId := redemptionId;
                          cr_snapshotHash := if version =? 2 then as_string (field "snapshotHash" raw) else None;
                          cr_snapshotDigest := snapshotDigest; cr_requestDigest := requestDigest; cr_lines := lines |})
          end
      | _, _, _, _, _ => Err tt
      end
  end.

Record RefundEvidenceLine := { rv_orderLineId : string; rv_quantity : Z; rv_amount : Z }.
Definition refund_cash (l : CreditUnitReturnLine) : option Z :=
  (fun c => sumZ (map ue_cashRefundGross (cu_unitEconomics c))) <$> ur_custody l.
Definition line_agrees (version : Z) (l : CreditUnitReturnLine) (actual : RefundEvidenceLine) : bool :=
  String.eqb (rv_orderLineId actual) (ur_orderLineId l) && (rv_quantity actual =? Z.of_nat (length (ur_positions l))) &&
  (negb (version =? 2) || bool_decide (refund_cash l = Some (rv_amount actual))).
Definition readCreditRefundEvidence (metadata : option json) (lines : list RefundEvidenceLine) : result unit (option CreditUnitReturns) :=
  let! frozen := readCreditUnitReturns metadata in
  match frozen with
  | None => Ok None
  | Some f =>
      guard! bool_decide (NoDup (map rv_orderLineId lines)) && (length (cr_lines f) =? length lines)%nat &&
             forallb (fun l => existsb (line_agrees (cr_version f) l) lines) (cr_lines f) or tt in Ok (Some f)
  end.
End Planning.
