(* ===== verification/FundingFacts.v ===== *)
(** What [EditFunding] guarantees: reading a history conserves every cent of the
    redemption and never brings a returned unit back, the order in which the
    rows are listed does not matter, and the rows a plan posts read back as the
    state it announced. *)

From S2P Require Import Prelude JsNumber Json JsonText AccountCredit EditFunding.
From Stdlib Require Import ZArith QArith Lia Bool String Ascii Sorted.
From stdpp Require Import base list strings pretty.
Local Open Scope Z_scope.

(** ** Sums and lists *)

Lemma money_spec v : money v = true <-> 0 <= v <= MAX_CREDIT_CENTS.
Proof.
  unfold money, is_safe, MAX_SAFE, MAX_CREDIT_CENTS. rewrite !andb_true_iff, !Z.leb_le. lia.
Qed.
Lemma funding_sum_ok values code t : sum values code = Ok t -> t = sumZ values /\ 0 <= t <= MAX_CREDIT_CENTS.
Proof. unfold sum. intros H. inv_ok. by apply money_spec in Eb. Qed.
Lemma funding_sum_intro values code : 0 <= sumZ values <= MAX_CREDIT_CENTS -> sum values code = Ok (sumZ values).
Proof. intros H. unfold sum. by rewrite (proj2 (money_spec _) H). Qed.

Lemma one_of_texts_spec l s : one_of_texts l s = true <-> s ∈ l.
Proof.
  unfold one_of_texts. rewrite existsb_exists. split.
  - intros (x & Hx & E). apply String.eqb_eq in E as ->. by apply list_elem_of_In.
  - intros H. exists s. split; [by apply list_elem_of_In|apply String.eqb_refl].
Qed.
Lemma existsb_index i l : existsb (Z.eqb i) l = true <-> i ∈ l.
Proof.
  rewrite existsb_exists. split.
  - intros (x & Hx & E). apply Z.eqb_eq in E as ->. by apply list_elem_of_In.
  - intros H. exists i. split; [by apply list_elem_of_In|apply Z.eqb_refl].
Qed.
Lemma existsb_index_false i l : existsb (Z.eqb i) l = false <-> i ∉ l.
Proof. rewrite <- not_true_iff_false, existsb_index. done. Qed.

Lemma indexed_lookup {A} (l : list A) i p : indexed l !! i = Some p <-> exists x, l !! i = Some x /\ p = (i, x).
Proof.
  unfold indexed. rewrite lookup_zip_with_Some. split.
  - intros (a & b & -> & Ha & Hb). apply lookup_seq in Ha as [-> _]. by exists b.
  - intros (x & Hx & ->). exists i, x. split; [done|]. split; [|done]. apply lookup_seq. split; [done|]. by apply lookup_lt_Some in Hx.
Qed.
Lemma length_indexed {A} (l : list A) : length (indexed l) = length l.
Proof. unfold indexed. rewrite length_zip_with, length_seq. lia. Qed.
Lemma indexed_elem {A} (l : list A) p : p ∈ indexed l <-> l !! fst p = Some (snd p).
Proof.
  rewrite list_elem_of_lookup. split.
  - intros [i H]. by apply indexed_lookup in H as (x & Hx & ->).
  - intros H. exists (fst p). apply indexed_lookup. exists (snd p). by destruct p.
Qed.

Lemma all_some_Forall2 {A B} (f : A -> option B) l ys : all_some (map f l) = Some ys -> Forall2 (fun x y => f x = Some y) l ys.
Proof.
  revert ys. induction l as [|x l IH]; intros ys; cbn; [by intros [= <-]; constructor|].
  destruct (f x) as [y|] eqn:E; [|done]. destruct (all_some (map f l)) as [zs|]; [|done]. intros [= <-]. constructor; auto.
Qed.

(** ** Chains of one unit *)

(** What [change_ok] accepts of an edge. *)
Definition edge_ok (e : Edge) : Prop :=
  0 <= ed_after e <= ed_before e /\ ed_before e <= MAX_CREDIT_CENTS /\
  (if ed_returned e then ed_after e = 0 else ed_after e < ed_before e).

Lemma follow_returned chain current out : follow current true chain = Ok out -> chain = [] /\ out = (current, true).
Proof. destruct chain; cbn; [by intros [= <-]|done]. Qed.

(** A followed chain goes down to its outcome; a return ends it at zero, and
    without one every amount on the way was larger. *)
Lemma follow_spec chain : forall current c r, Forall edge_ok chain -> 0 <= current -> follow current false chain = Ok (c, r) ->
  0 <= c <= current /\ (r = true -> c = 0) /\ (r = false -> Forall (fun e => c < ed_before e /\ ed_returned e = false) chain).
Proof.
  induction chain as [|e chain IH]; intros current c r HF H0 H; cbn in H.
  - injection H as <- <-. split; [lia|]. by split; [|constructor].
  - inversion HF as [|? ? (A1 & A2 & A3) HF']; subst. inv_ok. bool_props. destruct (ed_returned e) eqn:Er.
    + apply follow_returned in H as [-> [= -> ->]]. split; [lia|]. by split.
    + destruct (IH (ed_after e) c r HF' ltac:(lia) H) as (B1 & B2 & B3). split; [lia|]. split; [done|].
      intros Hr. constructor; [split; [lia|done]|by apply B3].
Qed.
Lemma follow_app chain1 chain2 current r : follow current r (chain1 ++ chain2) =
  let! out := follow current r chain1 in follow (fst out) (snd out) chain2.
Proof.
  revert current r. induction chain1 as [|e chain IH]; intros current r; cbn; [done|]. destruct (_ && _); [|done]. apply IH.
Qed.

Lemma insert_stable_last {A} (gt : A -> A -> bool) x e l : gt x e = false -> insert_stable gt x (l ++ [e]) = insert_stable gt x l ++ [e].
Proof. intros H. induction l as [|y l IH]; cbn; [by rewrite H|]. destruct (gt x y); [|done]. by rewrite IH. Qed.
Lemma sort_stable_last {A} (gt : A -> A -> bool) l e : Forall (fun x => gt x e = false) l -> sort_stable gt (l ++ [e]) = sort_stable gt l ++ [e].
Proof. induction 1 as [|x l Hx _ IH]; cbn; [done|]. rewrite IH. by apply insert_stable_last. Qed.

(** A new edge from a unit's current amount goes last in its chain. *)
Lemma chain_extends chain current c e : Forall edge_ok chain -> 0 <= current ->
  follow current false (sort_stable edge_after chain) = Ok (c, false) -> ed_before e = c ->
  sort_stable edge_after (chain ++ [e]) = sort_stable edge_after chain ++ [e] /\
  follow current false (sort_stable edge_after (chain ++ [e])) = Ok (ed_after e, ed_returned e).
Proof.
  intros HF H0 H He.
  assert (E : sort_stable edge_after (chain ++ [e]) = sort_stable edge_after chain ++ [e]).
  { apply sort_stable_last. assert (HF' : Forall edge_ok (sort_stable edge_after chain)) by (rewrite sort_stable_perm; exact HF).
    destruct (follow_spec _ _ _ _ HF' H0 H) as (_ & _ & B). specialize (B eq_refl). rewrite sort_stable_perm in B. eapply Forall_impl; [exact B|]. intros x [Hx _].
    unfold edge_after. rewrite (proj2 (Z.ltb_ge _ _)), (proj2 (Z.eqb_neq _ _)) by lia. done. }
  split; [done|]. rewrite E, follow_app, H. cbn. by rewrite He, Z.eqb_refl.
Qed.

(** ** Reading, in closed form

    The scans of [readState] accumulate; what they accept does not depend on the
    accumulator. *)

Definition envelope_of (row : EditFundingHistoryRow) : option json :=
  match parseEnvelope row with Ok e => e | Err _ => None end.
Definition modern_of (h : list EditFundingHistoryRow) : list (EditFundingHistoryRow * json) :=
  omap (fun row => (fun e => (row, e)) <$> envelope_of row) h.
Definition is_legacy (row : EditFundingHistoryRow) : bool := negb (is_some (envelope_of row)).
Definition row_quantity (row : EditFundingHistoryRow) : Z := or_else (hr_quantity row) 0.
Definition add_legacy_row (groups : list LegacyGroup) (row : EditFundingHistoryRow) : list LegacyGroup :=
  legacy_add (row_line row) (row_quantity row) (hr_amount row) groups.
Definition groups_of (h : list EditFundingHistoryRow) : list LegacyGroup := fold_left add_legacy_row (List.filter is_legacy h) [].

Definition row_ok (r : EditFundingRedemption) (original : UnitVectors) (row : EditFundingHistoryRow) : Prop :=
  row_proven r original row = true /\
  match parseEnvelope row with
  | Ok (Some _) => True
  | Ok None => exists q, hr_quantity row = Some q /\ is_safe q = true /\ 0 < q
  | Err _ => False
  end.

(** Distinct from what was seen, and from each other. *)
Definition unseen {A} (f : A -> string) (seen : list string) (l : list A) : Prop :=
  NoDup (map f l) /\ forall x, x ∈ l -> f x ∉ seen.
Lemma unseen_nil {A} (f : A -> string) seen : unseen f seen [].
Proof. split; [constructor|]. by intros x ?%elem_of_nil. Qed.
Lemma unseen_cons {A} (f : A -> string) seen x l : unseen f seen (x :: l) <-> (f x ∉ seen) /\ unseen f (f x :: seen) l.
Proof.
  unfold unseen. cbn [map]. rewrite NoDup_cons. split.
  - intros ((A1 & N1) & H). split; [apply H; left|]. split; [done|]. intros y Hy [E|Hin]%elem_of_cons.
    + destruct A1. rewrite <- E. apply list_elem_of_fmap. by exists y.
    + by destruct (H y ltac:(by right)).
  - intros (H0 & N1 & H). split; [split; [|done]|].
    + intros Hin. apply list_elem_of_fmap in Hin as (y & E & Hy). destruct (H y Hy). rewrite <- E. left.
    + intros y [->|Hy]%elem_of_cons; [done|]. intros Hin. destruct (H y Hy). by right.
Qed.

Lemma scan_iff r original h : forall acc acc',
  fold_result (scan_row r original) acc h = Ok acc' <->
  Forall (row_ok r original) h /\ unseen hr_id (sc_ids acc) h /\ unseen hr_idempotencyKey (sc_keys acc) h /\
  acc' = {| sc_ids := rev (map hr_id h) ++ sc_ids acc; sc_keys := rev (map hr_idempotencyKey h) ++ sc_keys acc;
            sc_legacy := fold_left add_legacy_row (List.filter is_legacy h) (sc_legacy acc); sc_modern := sc_modern acc ++ modern_of h |}.
Proof.
  induction h as [|row h IH]; intros acc acc'; cbn [fold_result].
  { cbn. rewrite app_nil_r. split; [intros [= <-]; split; [constructor|split; [apply unseen_nil|split; [apply unseen_nil|by destruct acc]]]|].
    intros (_ & _ & _ & ->). by destruct acc. }
  rewrite Forall_cons, !unseen_cons. unfold scan_row at 1, row_ok at 1.
  destruct (row_proven r original row); cbn [andb]; [|split; [discriminate|by intros ([[[=] _] _] & _)]].
  destruct (one_of_texts (sc_ids acc) (hr_id row)) eqn:Ei; cbn [negb andb].
  { apply one_of_texts_spec in Ei. split; [discriminate|]. by intros (_ & [? _] & _). }
  destruct (one_of_texts (sc_keys acc) (hr_idempotencyKey row)) eqn:Ek; cbn [negb andb].
  { apply one_of_texts_spec in Ek. split; [discriminate|]. by intros (_ & _ & [? _] & _). }
  apply not_true_iff_false in Ei, Ek. rewrite one_of_texts_spec in Ei, Ek.
  cbn [map rev]. rewrite <- !app_assoc. cbn [app].
  unfold modern_of, is_legacy in *. cbn [List.filter omap list_omap].
  unfold envelope_of in *. destruct (parseEnvelope row) as [[e|]|err] eqn:Ee; cbn [bind_result is_some negb fmap option_fmap option_map].
  - rewrite IH. cbn [sc_ids sc_keys sc_legacy sc_modern]. rewrite <- app_assoc. cbn. tauto.
  - destruct (hr_quantity row) as [q|] eqn:Eq; [|split; [discriminate|by intros ([[_ (? & [=] & _)] _] & _)]].
    destruct (is_safe q && (0 <? q)) eqn:Es.
    + apply andb_true_iff in Es as [Es1 Es2]. apply Z.ltb_lt in Es2. cbn [bind_result]. rewrite IH. unfold add_legacy_row, row_quantity.
      cbn [sc_ids sc_keys sc_legacy sc_modern fold_left]. rewrite Eq. cbn.
      assert (exists q0, Some q = Some q0 /\ is_safe q0 = true /\ 0 < q0) by (by exists q). tauto.
    + split; [discriminate|]. intros ([[_ (q' & [= <-] & S1 & S2)] _] & _). apply Z.ltb_lt in S2. by rewrite S1, S2 in Es.
  - split; [discriminate|]. by intros ([[_ []] _] & _).
Qed.

Abbreviation Item := (EditFundingHistoryRow * json)%type (only parsing).
Section Items.
Context (r : EditFundingRedemption) (original : UnitVectors) (groups : list LegacyGroup).

Definition item_line (item : Item) : string := row_line (fst item).
Definition item_units (item : Item) : list json := or_else (as_array (field "units" (snd item))) [].
Definition item_read (item : Item) : result FundingError (list EditFundingUnitChange) :=
  read_changes (quantity_return (snd item)) (length (units_of original (item_line item))) (legacy_returned groups (item_line item)) [] (item_units item).
Definition item_changes (item : Item) : list EditFundingUnitChange := match item_read item with Ok cs => cs | Err _ => [] end.
Definition item_edges (item : Item) : list Transition := map (edge_of (quantity_return (snd item)) (item_line item)) (item_changes item).
Definition item_digest (item : Item) : option (string * string) :=
  if is_text EDIT_RESTORE (field "type" (snd item))
  then Some (js_String (field "editId" (snd item)), js_String (field "requestDigest" (snd item))) else None.

(** What a versioned row must satisfy by itself. *)
Definition item_identified (item : Item) : bool :=
  let '(row, e) := item in
  is_text (er_id r) (field "redemptionId" e) && is_text (or_else (er_orderId r) EmptyString) (field "orderId" e) &&
  is_text (er_accountCreditId r) (field "accountCreditId" e) && is_text (item_line item) (field "orderLineId" e) &&
  match keyFor e with
  | Ok key => String.eqb (hr_idempotencyKey row) key &&
              bool_decide (hr_quantity row = Some (if quantity_return e then Z.of_nat (length (item_units item)) else 0))
  | Err _ => false
  end &&
  (negb (is_text UNIT_RESTORE (field "type" e)) ||
   (let op := or_else (field "operation" e) JNull in
    if is_text "refund" (field "kind" op) then bool_decide (hr_refundId row = as_string (field "id" op))
    else bool_decide (hr_refundId row = None))) &&
  (negb (is_text EDIT_RESTORE (field "type" e)) || bool_decide (hr_refundId row = None)).
Definition item_conserves (item : Item) : bool :=
  let '(row, e) := item in
  match item_read item with
  | Ok cs =>
      money (sumZ (map change_cents cs)) && (sumZ (map change_cents cs) =? hr_amount row) &&
      match hr_operationalAllocation row with
      | Some alloc => json_eqb (stable alloc) (stable (projection (item_line item) (map change_cents cs)))
      | None => false
      end
  | Err _ => false
  end.

Definition consistent (l : list (string * string)) : Prop := forall id d d', (id, d) ∈ l -> (id, d') ∈ l -> d = d'.
Lemma consistent_nil : consistent [].
Proof. by intros id d d' H%elem_of_nil. Qed.
Lemma consistent_last l id d : consistent l ->
  match assoc_last id l with Some d' => String.eqb d' d | None => true end = true <-> consistent (l ++ [(id, d)]).
Proof.
  intros C. split.
  - intros H. assert (K : forall b, (id, b) ∈ l -> b = d).
    { intros b Hb. destruct (assoc_last id l) as [d'|] eqn:E.
      - apply String.eqb_eq in H as ->. apply assoc_last_elem in E. by eapply C.
      - exfalso. pose proof (proj2 (assoc_last_keys id l)) as N. rewrite E in N. destruct N as [? [=]]. apply list_elem_of_fmap. by exists (id, b). }
    intros x a b. rewrite !elem_of_app, !list_elem_of_singleton. intros [Ha|Ha] [Hb|Hb]; simplify_eq; [by eapply C| | |done].
    + by apply K.
    + symmetry. by apply K.
  - intros C'. destruct (assoc_last id l) as [d'|] eqn:E; [|done]. apply String.eqb_eq. apply assoc_last_elem in E.
    apply (C' id); apply elem_of_app; [by left|right; left].
Qed.

Lemma read_modern_iff acc item acc' : consistent (cn_editDigests acc) ->
  read_modern r original groups acc item = Ok acc' <->
  item_identified item = true /\ item_conserves item = true /\
  consistent (cn_editDigests acc ++ match item_digest item with Some d => [d] | None => [] end) /\
  acc' = {| cn_transitions := cn_transitions acc ++ item_edges item;
            cn_editDigests := cn_editDigests acc ++ match item_digest item with Some d => [d] | None => [] end |}.
Proof.
  intros C. destruct item as [row e]. unfold read_modern, item_identified, item_conserves, item_digest, item_edges, item_changes.
  cbn [fst snd]. set (id_ok := is_text (er_id r) _ && _ && _ && _). unfold item_read, item_line, item_units. cbn [fst snd].
  fold id_ok. destruct id_ok; cbn [andb]; [|split; [discriminate|by intros ([=] & _)]].
  destruct (keyFor e) as [key|]; cbn [bind_result]; [|split; [discriminate|by intros ([=] & _)]].
  destruct (String.eqb _ key && _); cbn [andb]; [|split; [discriminate|by intros ([=] & _)]].
  destruct (negb (is_text UNIT_RESTORE (field "type" e)) || _); cbn [andb]; [|split; [discriminate|by intros ([=] & _)]].
  assert (Tail : forall digests,
    (let! changes := read_changes (quantity_return e) (length (units_of original (row_line row))) (legacy_returned groups (row_line row)) []
                       (or_else (as_array (field "units" e)) []) in
     let! given := sum (map change_cents changes) AMBIGUOUS_HISTORY in
     guard! (given =? hr_amount row) &&
         match hr_operationalAllocation row with
         | Some alloc => json_eqb (stable alloc) (stable (projection (row_line row) (map change_cents changes)))
         | None => false
         end or Refusal AMBIGUOUS_HISTORY in
     Ok {| cn_transitions := cn_transitions acc ++ map (edge_of (quantity_return e) (row_line row)) changes; cn_editDigests := digests |}) = Ok acc' <->
    match read_changes (quantity_return e) (length (units_of original (row_line row))) (legacy_returned groups (row_line row)) []
            (or_else (as_array (field "units" e)) []) with
    | Ok cs =>
        money (sumZ (map change_cents cs)) && (sumZ (map change_cents cs) =? hr_amount row) &&
        match hr_operationalAllocation row with
        | Some alloc => json_eqb (stable alloc) (stable (projection (row_line row) (map change_cents cs)))
        | None => false
        end
    | Err _ => false
    end = true /\
    acc' = {| cn_transitions := cn_transitions acc ++ map (edge_of (quantity_return e) (row_line row))
                match read_changes (quantity_return e) (length (units_of original (row_line row))) (legacy_returned groups (row_line row)) []
                        (or_else (as_array (field "units" e)) []) with Ok cs => cs | Err _ => [] end; cn_editDigests := digests |}).
  { intros digests. destruct (read_changes _ _ _ _ _) as [cs|]; cbn [bind_result]; [|by split; [|intros [[=] _]]].
    unfold sum. destruct (money _); cbn [bind_result andb]; [|by split; [|intros [[=] _]]].
    destruct (_ && _); split; try discriminate; [by intros [= <-]|by intros [_ ->]|by intros [[=] _]]. }
  destruct (is_text EDIT_RESTORE (field "type" e)); cbn [negb orb].
  - destruct (bool_decide (hr_refundId row = None)); cbn [bind_result]; [|split; [discriminate|by intros ([=] & _)]].
    pose proof (consistent_last (cn_editDigests acc) (js_String (field "editId" e)) (js_String (field "requestDigest" e)) C) as CL.
    destruct (match assoc_last _ _ with Some d => _ | None => true end); cbn [bind_result].
    + rewrite Tail. tauto.
    + split; [discriminate|]. intros (_ & _ & C' & _). apply CL in C'. discriminate.
  - cbn [bind_result]. rewrite app_nil_r, Tail. tauto.
Qed.

Lemma modern_iff items : forall acc acc', consistent (cn_editDigests acc) ->
  fold_result (read_modern r original groups) acc items = Ok acc' <->
  Forall (fun i => item_identified i = true /\ item_conserves i = true) items /\
  consistent (cn_editDigests acc ++ omap item_digest items) /\
  acc' = {| cn_transitions := cn_transitions acc ++ concat (map item_edges items);
            cn_editDigests := cn_editDigests acc ++ omap item_digest items |}.
Proof.
  induction items as [|item items IH]; intros acc acc' C; cbn [fold_result].
  { cbn. rewrite !app_nil_r. split; [intros [= <-]; split; [constructor|split; [done|by destruct acc]]|]. intros (_ & _ & ->). by destruct acc. }
  assert (E : omap item_digest (item :: items) = match item_digest item with Some d => [d] | None => [] end ++ omap item_digest items).
  { cbn. by destruct (item_digest item). }
  rewrite E, Forall_cons. cbn [map concat]. rewrite !app_assoc.
  destruct (read_modern r original groups acc item) as [a|] eqn:Ea; cbn [bind_result].
  - apply read_modern_iff in Ea as (I1 & I2 & C1 & ->); [|done]. rewrite IH by done. cbn [cn_transitions cn_editDigests]. tauto.
  - split; [discriminate|]. intros ([[I1 I2] _] & C1 & _). exfalso.
    assert (C2 : consistent (cn_editDigests acc ++ match item_digest item with Some d => [d] | None => [] end)).
    { intros id d d' H1 H2. apply (C1 id); apply elem_of_app; by left. }
    pose proof (proj2 (read_modern_iff acc item _ C) (conj I1 (conj I2 (conj C2 eq_refl)))). congruence.
Qed.
End Items.

Definition edges_of (original : UnitVectors) (h : list EditFundingHistoryRow) : list Transition :=
  concat (map (item_edges original (groups_of h)) (modern_of h)).
Definition state_of (r : EditFundingRedemption) (h : list EditFundingHistoryRow) (lines : list (string * list Z * list Z)) : ReadState :=
  {| rs_state := {| fs_remaining := map fst lines; fs_returnedIndexes := map (fun l => (fst (fst l), snd l)) lines;
                    fs_redeemed := er_amount r; fs_restored := sumZ (map hr_amount h);
                    fs_retained := sumZ (concat (map (fun l => snd (fst l)) lines)) |};
     rs_modern := modern_of h |}.

(** A complete history that proves what its redemption still holds. *)
Record proves (r : EditFundingRedemption) (original : UnitVectors) (h : list EditFundingHistoryRow) (lines : list (string * list Z * list Z)) : Prop := {
  pv_original : original_units r = Ok original;
  pv_rows : Forall (row_ok r original) h;
  pv_ids : unseen hr_id [] h;
  pv_keys : unseen hr_idempotencyKey [] h;
  pv_legacy : Forall (fun g => check_legacy original g = Ok tt) (groups_of h);
  pv_items : Forall (fun i => item_identified r i = true /\ item_conserves original (groups_of h) i = true) (modern_of h);
  pv_digests : consistent (omap item_digest (modern_of h));
  pv_lines : map_result (line_state (edges_of original h) (groups_of h)) original = Ok lines;
  pv_restored : 0 <= sumZ (map hr_amount h) <= MAX_CREDIT_CENTS;
  pv_retained : 0 <= sumZ (concat (map (fun l => snd (fst l)) lines)) <= MAX_CREDIT_CENTS;
  pv_total : sumZ (map hr_amount h) + sumZ (concat (map (fun l => snd (fst l)) lines)) = er_amount r
}.

Lemma readState_iff r h rs : readState r h true = Ok rs <-> exists original lines, proves r original h lines /\ rs = state_of r h lines.
Proof.
  unfold readState. split.
  - intros H. inv_ok. rename a into original. exists original, a3.
    apply scan_iff in Em0 as (P1 & P2 & P3 & ->). cbn [sc_ids sc_keys sc_legacy sc_modern] in *. rewrite app_nil_l in *.
    change (fold_left add_legacy_row (List.filter is_legacy h) []) with (groups_of h) in *.
    apply (proj1 (modern_iff r original (groups_of h) _ {| cn_transitions := []; cn_editDigests := [] |} _ consistent_nil)) in Em2 as (P4 & P5 & ->). cbn [cn_transitions cn_editDigests] in *. rewrite app_nil_l in *.
    apply funding_sum_ok in Em4 as [-> B1], Em5 as [-> B2]. apply Z.eqb_eq in Eb.
    split; [|done]. split; try done.
    apply map_result_Forall2 in Em1. clear -Em1. induction Em1 as [|g [] gs us Hg _ IH]; by constructor.
  - intros (original & lines & [Q1 Q2 Q3 Q4 Q5 Q6 Q7 Q8 Q9 Q10 Q11] & ->). rewrite Q1. cbn [bind_result].
    rewrite (proj2 (scan_iff r original h _ _)) by (split; [done|]; split; [done|]; split; [done|]; reflexivity). cbn [bind_result sc_legacy sc_modern].
    change (fold_left add_legacy_row (List.filter is_legacy h) []) with (groups_of h). rewrite app_nil_l.
    assert (L : map_result (check_legacy original) (groups_of h) = Ok (map (fun _ => tt) (groups_of h))).
    { apply map_result_Forall2. clear -Q5. induction Q5; cbn; by constructor. }
    rewrite L. cbn [bind_result]. rewrite (proj2 (modern_iff r original (groups_of h) (modern_of h) {| cn_transitions := []; cn_editDigests := [] |} _ consistent_nil))
      by (split; [done|]; split; [done|]; reflexivity). cbn [bind_result cn_transitions cn_editDigests]. rewrite app_nil_l.
    unfold edges_of in Q8. rewrite Q8. cbn [bind_result]. rewrite !funding_sum_intro by done. cbn [bind_result]. by rewrite Q11, Z.eqb_refl.
Qed.

(** *** The redemption's own vectors *)

Lemma own_entries_keys fs : map fst (own_entries fs) = uniq (map fst fs).
Proof. unfold own_entries. rewrite map_map. by rewrite map_id. Qed.

Definition vector_ok (entry : string * list Z) : Prop :=
  is_uuid (fst entry) = true /\ snd entry <> [] /\ Forall (fun c => 0 <= c <= MAX_CREDIT_CENTS) (snd entry).
Lemma unit_vector_ok e v : unit_vector e = Some v -> fst v = fst e /\ vector_ok v.
Proof.
  unfold unit_vector, vector_ok. destruct (snd e) as [| | | |l|]; try done. destruct (_ && _) eqn:Eb; [|done]. bool_props.
  destruct (all_some (map money_json l)) as [units|] eqn:E; [|done]. intros [= <-]. cbn. apply all_some_Forall2 in E.
  split; [done|]. split; [done|]. split; [by destruct E|]. clear -E. induction E as [|j c l cs H _ IH]; constructor; try done.
  unfold money_json in H. destruct (safe_integer (Some j)) as [z|]; [|done]. destruct (money z) eqn:Em; [|done]. injection H as <-. by apply money_spec.
Qed.

Record redemption_ok (r : EditFundingRedemption) (original : UnitVectors) : Prop := {
  ro_id : is_uuid (er_id r) = true;
  ro_order : exists o, er_orderId r = Some o /\ is_uuid o = true;
  ro_account : is_uuid (er_accountCreditId r) = true;
  ro_amount : 0 < er_amount r <= MAX_CREDIT_CENTS;
  ro_vectors : Forall vector_ok original;
  ro_lines : NoDup (map fst original);
  ro_sum : sumZ (concat (map snd original)) = er_amount r
}.
Lemma original_units_ok r original : original_units r = Ok original -> redemption_ok r original.
Proof.
  unfold original_units. intros H. inv_ok. bool_props. set (entries := match er_operationalAllocation r with Some (JObj fs) => own_entries fs | _ => [] end) in *.
  destruct (all_some (map unit_vector entries)) as [o|] eqn:E; [|done]. inv_ok. apply funding_sum_ok in Em as [-> B]. bool_props.
  apply all_some_Forall2 in E. rename E into F.
  split; try done.
  - destruct (er_orderId r) as [o|]; [|done]. by exists o.
  - match goal with M : money (er_amount r) = true |- _ => apply money_spec in M end. lia.
  - clear -F. induction F as [|e v es vs H _ IH]; constructor; try done. by apply unit_vector_ok in H as [_ ?].
  - assert (K : map fst original = map fst entries).
    { clear -F. induction F as [|e v es vs H _ IH]; [done|]. cbn. apply unit_vector_ok in H as [-> _]. by rewrite IH. }
    rewrite K. subst entries. destruct (er_operationalAllocation r) as [[| | | | |fs]|]; try constructor. rewrite own_entries_keys. apply NoDup_uniq.
Qed.

(** *** The edges of a history *)

Lemma read_changes_ok returns line len n us : forall seen cs, read_changes returns len n seen us = Ok cs ->
  Forall (fun c => edge_ok (tr_edge (edge_of returns line c)) /\ Z.of_nat n <= uc_index c < Z.of_nat len) cs /\
  NoDup (map uc_index cs) /\ (forall c, c ∈ cs -> uc_index c ∉ seen).
Proof.
  induction us as [|u us IH]; intros seen cs H; cbn in H.
  { inv_ok. split; [constructor|]. split; [constructor|]. by intros c ?%elem_of_nil. }
  destruct (read_change u) as [c|] eqn:Ec; [|done]. inv_ok. destruct (IH _ _ Em) as (F & N & D).
  unfold change_ok in Eb. bool_props.
  repeat match goal with E : existsb _ _ = false |- _ => apply existsb_index_false in E end.
  assert (K : Z.of_nat n <= uc_index c).
  { match goal with E : _ ∉ map Z.of_nat _ |- _ => rename E into Hn end. destruct (Z.le_gt_cases (Z.of_nat n) (uc_index c)); [done|]. exfalso.
    apply Hn, list_elem_of_fmap. exists (Z.to_nat (uc_index c)). split; [lia|]. apply elem_of_seq. lia. }
  assert (M : 0 <= uc_after c /\ uc_before c <= MAX_CREDIT_CENTS).
  { clear -Ec. unfold read_change, money_json in Ec. repeat case_match; simplify_eq. cbn.
    repeat match goal with M : money _ = true |- _ => apply money_spec in M end. lia. }
  split; [constructor; [|done]|split].
  - unfold edge_ok. cbn. split; [|lia]. split; [lia|]. split; [lia|].
    destruct returns; match goal with E : _ = true |- _ => revert E end; rewrite ?Z.eqb_eq, ?Z.ltb_lt; done.
  - cbn. constructor; [|done]. intros Hin. apply list_elem_of_fmap in Hin as (c' & E & Hc'). apply (D _ Hc'). rewrite <- E. left.
  - intros c' [->|Hc']%elem_of_cons; [done|]. intros Hs. apply (D _ Hc'). by right.
Qed.

Definition transition_ok (original : UnitVectors) (groups : list LegacyGroup) (t : Transition) : Prop :=
  edge_ok (tr_edge t) /\ Z.of_nat (legacy_returned groups (tr_line t)) <= tr_index t < Z.of_nat (length (units_of original (tr_line t))).
Lemma item_edges_ok original groups i : item_conserves original groups i = true -> Forall (transition_ok original groups) (item_edges original groups i).
Proof.
  unfold item_conserves, item_edges, item_changes. destruct i as [row e]. destruct (item_read original groups (row, e)) as [cs|] eqn:E; [|done]. intros _.
  apply (read_changes_ok _ (item_line (row, e))) in E as (F & _ & _). apply Forall_map. eapply Forall_impl; [exact F|]. intros c [H1 H2]. by split.
Qed.
Lemma edges_ok r original h lines : proves r original h lines -> Forall (transition_ok original (groups_of h)) (edges_of original h).
Proof.
  intros P. unfold edges_of. apply Forall_concat, Forall_map. eapply Forall_impl; [exact (pv_items _ _ _ _ P)|].
  intros i [_ H]. cbn. by apply item_edges_ok.
Qed.

Lemma chain_elem ts line i e : e ∈ chain_of ts line i <-> exists t, t ∈ ts /\ tr_line t = line /\ tr_index t = i /\ tr_edge t = e.
Proof.
  unfold chain_of. rewrite list_elem_of_fmap. split.
  - intros (t & -> & Ht). apply list_elem_of_In, filter_In in Ht as [Ht Eb]. bool_props.
    match goal with E : String.eqb _ _ = true |- _ => apply String.eqb_eq in E end. exists t. split; [by apply list_elem_of_In|done].
  - intros (t & Ht & <- & <- & <-). exists t. split; [done|]. apply list_elem_of_In, filter_In. split; [by apply list_elem_of_In|].
    by rewrite String.eqb_refl, Z.eqb_refl.
Qed.
Lemma chain_edges_ok original groups ts line i : Forall (transition_ok original groups) ts -> Forall edge_ok (chain_of ts line i).
Proof. rewrite !Forall_forall. intros H e He. apply chain_elem in He as (t & Ht & _ & _ & <-). by apply H. Qed.

(** What one unit has left. *)
Lemma unit_state_ok original groups ts line iu c b : Forall (transition_ok original groups) ts -> 0 <= snd iu ->
  unit_state ts line (legacy_returned groups line) iu = Ok (c, b) ->
  0 <= c <= snd iu /\ (b = true -> c = 0 /\ (legacy_returned groups line <= fst iu)%nat) /\
  ((fst iu < legacy_returned groups line)%nat -> c = 0).
Proof.
  intros F H0 H. unfold unit_state in H. inv_ok. destruct a as [c' b']. cbn [fst snd].
  assert (F' : Forall edge_ok (sort_stable edge_after (chain_of ts line (Z.of_nat (fst iu))))) by (rewrite sort_stable_perm; by eapply chain_edges_ok).
  destruct (follow_spec _ _ _ _ F' H0 Em) as (A & B & _).
  destruct (sort_stable edge_after (chain_of ts line (Z.of_nat (fst iu)))) as [|e es] eqn:Es; cbn [is_nil].
  - cbn in Em. injection Em as <- <-. destruct (Nat.ltb_spec (fst iu) (legacy_returned groups line)); repeat split; (done || lia).
  - assert (G : (legacy_returned groups line <= fst iu)%nat).
    { assert (He : e ∈ chain_of ts line (Z.of_nat (fst iu))) by (rewrite <- (sort_stable_perm edge_after), Es; left).
      apply chain_elem in He as (t & Ht & El & Ei & _). rewrite Forall_forall in F. destruct (F t Ht) as (_ & G & _). rewrite El, Ei in G. lia. }
    split; [done|]. split; [intros Hb; split; [by apply B|done]|lia].
Qed.

Lemma Zgtb_sorted l : NoDup l -> StronglySorted Z.lt (sort_stable Z.gtb l).
Proof.
  intros N. assert (S : StronglySorted (fun a b => Z.gtb b a = true) (sort_stable Z.gtb l)).
  { apply sorted_distinct.
    - intros a b. rewrite !Z.gtb_lt. lia.
    - apply sort_stable_sorted; intros; rewrite ?Z.gtb_lt, ?Z.gtb_ltb, ?Z.ltb_ge in *; lia.
    - by rewrite sort_stable_perm. }
  clear N. induction S as [|x xs _ IH Hx]; constructor; [done|].
  eapply Forall_impl; [exact Hx|]. intros y Hy. cbn in Hy. apply Z.gtb_lt in Hy. lia.
Qed.

Definition returned_units (n : nat) (us : list (Z * bool)) : list Z :=
  map Z.of_nat (seq 0 n) ++ map (fun p => Z.of_nat (fst p)) (List.filter (fun p => snd (snd p)) (indexed us)).
Lemma returned_units_elem n us i : i ∈ returned_units n us <->
  0 <= i < Z.of_nat n \/ exists c, us !! Z.to_nat i = Some (c, true) /\ 0 <= i.
Proof.
  unfold returned_units. rewrite elem_of_app, !list_elem_of_fmap. split.
  - intros [(k & -> & Hk)|(p & -> & Hp)].
    + apply elem_of_seq in Hk. left. lia.
    + apply list_elem_of_In, filter_In in Hp as [Hp Hb]. apply list_elem_of_In, indexed_elem in Hp. destruct p as [k [c b]]. cbn in *. subst b.
      right. exists c. rewrite Nat2Z.id. split; [done|lia].
  - intros [Hi|(c & Hc & Hi)].
    + left. exists (Z.to_nat i). split; [lia|]. apply elem_of_seq. lia.
    + right. exists (Z.to_nat i, (c, true)). cbn. split; [lia|]. apply list_elem_of_In, filter_In. split; [|done]. by apply list_elem_of_In, indexed_elem.
Qed.
Lemma NoDup_app_disjoint {A} (l1 l2 : list A) : NoDup l1 -> NoDup l2 -> (forall x, x ∈ l1 -> x ∈ l2 -> False) -> NoDup (l1 ++ l2).
Proof. intros H1 H2 H. apply NoDup_app. split; [done|]. split; [|done]. intros x Hx Hx2. by eapply H. Qed.
Lemma NoDup_indexed_filter {A} (p : nat * A -> bool) l : NoDup (map (fun p => Z.of_nat (fst p)) (List.filter p (indexed l))).
Proof.
  unfold indexed. generalize 0%nat. induction l as [|x l IH]; intros k; cbn; [constructor|].
  destruct (p (k, x)); [|apply IH]. cbn. constructor; [|apply IH]. intros Hin. apply list_elem_of_fmap in Hin as (q & E & Hq).
  apply list_elem_of_In, filter_In in Hq as [Hq _]. destruct q as [j y]. apply list_elem_of_In, elem_of_zip_l, elem_of_seq in Hq. cbn in E. lia.
Qed.
Lemma returned_units_NoDup n us : (forall k c, us !! k = Some (c, true) -> (n <= k)%nat) -> NoDup (returned_units n us).
Proof.
  intros H. unfold returned_units. apply NoDup_app_disjoint; [|apply NoDup_indexed_filter|].
  - apply NoDup_fmap_2; [intros ? ?; lia|apply NoDup_seq].
  - intros i Hi Hj. apply list_elem_of_fmap in Hi as (k & -> & Hk). apply elem_of_seq in Hk.
    apply list_elem_of_fmap in Hj as (p & E & Hp). apply list_elem_of_In, filter_In in Hp as [Hp Hb]. apply list_elem_of_In, indexed_elem in Hp.
    destruct p as [k' [c b]]. cbn in *. subst b. apply H in Hp. lia.
Qed.

(** The reading of one line. *)
Record line_reading (n : nat) (units : list Z) (us : list (Z * bool)) : Prop := {
  lr_between : Forall2 (fun u k => 0 <= k <= u) units (map fst us);
  lr_returned : forall i, i ∈ returned_units n us -> (map fst us) !! Z.to_nat i = Some 0 \/ Z.of_nat (length units) <= i;
  lr_late : forall k c, us !! k = Some (c, true) -> (n <= k)%nat
}.
Lemma units_reading original groups ts line units us : Forall (transition_ok original groups) ts -> Forall (fun c => 0 <= c) units ->
  map_result (unit_state ts line (legacy_returned groups line)) (indexed units) = Ok us -> line_reading (legacy_returned groups line) units us.
Proof.
  intros F H0 H. apply map_result_Forall2 in H.
  assert (U : forall k u c b, units !! k = Some u -> us !! k = Some (c, b) ->
    0 <= c <= u /\ (b = true -> c = 0 /\ (legacy_returned groups line <= k)%nat) /\ ((k < legacy_returned groups line)%nat -> c = 0)).
  { intros k u c b Hu Hc. assert (Hi : indexed units !! k = Some (k, u)) by (apply indexed_lookup; by exists u).
    pose proof (Forall2_lookup_lr _ _ _ _ _ _ H Hi Hc) as E. apply (unit_state_ok original) in E; [done|done|]. cbn.
    rewrite Forall_lookup in H0. by eapply H0. }
  assert (L : length us = length units).
  { apply Forall2_length in H. rewrite <- H. unfold indexed. rewrite length_zip_with, length_seq. lia. }
  split.
  - apply Forall2_same_length_lookup_2; [by rewrite length_map|]. intros k u c Hu Hc. rewrite list_lookup_fmap in Hc.
    destruct (us !! k) as [[c' b]|] eqn:E; [|done]. cbn in Hc. injection Hc as <-. by destruct (U _ _ _ _ Hu E) as (? & _).
  - intros i Hi. destruct (Z.le_gt_cases (Z.of_nat (length units)) i) as [?|Hlt]; [by right|left].
    apply returned_units_elem in Hi. assert (Hi0 : 0 <= i) by (destruct Hi as [?|(c & _ & ?)]; lia).
    destruct (lookup_lt_is_Some_2 units (Z.to_nat i) ltac:(lia)) as [u Hu].
    destruct (lookup_lt_is_Some_2 us (Z.to_nat i) ltac:(lia)) as [[c b] Hc]. rewrite list_lookup_fmap, Hc. cbn.
    destruct (U _ _ _ _ Hu Hc) as (_ & U2 & U3). f_equal. destruct Hi as [Hi|(c' & Hc' & _)]; [apply U3; lia|]. rewrite Hc in Hc'. injection Hc' as <- ->. by apply U2.
  - intros k c Hk. destruct (lookup_lt_is_Some_2 units k) as [u Hu]; [apply lookup_lt_Some in Hk; lia|]. by apply (U _ _ _ _ Hu Hk).
Qed.

Lemma line_state_iff ts groups line units out : line_state ts groups (line, units) = Ok out <->
  exists us, map_result (unit_state ts line (legacy_returned groups line)) (indexed units) = Ok us /\
             out = (line, map fst us, sort_stable Z.gtb (returned_units (legacy_returned groups line) us)).
Proof.
  unfold line_state. split.
  - intros H. inv_ok. by exists a.
  - intros (us & -> & ->). done.
Qed.

Lemma legacy_fits original h line : Forall (fun g => check_legacy original g = Ok tt) (groups_of h) ->
  Z.of_nat (legacy_returned (groups_of h) line) <= Z.of_nat (length (units_of original line)).
Proof.
  intros F. unfold legacy_returned. destruct (List.find _ _) as [g|] eqn:E; [|lia]. apply List.find_some in E as [Hg El].
  apply String.eqb_eq in El as <-. rewrite List.Forall_forall in F. specialize (F _ Hg). unfold check_legacy in F. inv_ok. bool_props. lia.
Qed.

Lemma assoc_nodup {A} (l : list (string * A)) k v : NoDup (map fst l) -> (k, v) ∈ l -> assoc_last k l = Some v.
Proof.
  induction l as [|[k' x] l IH]; cbn; intros N H; [by apply elem_of_nil in H|]. inversion N as [|? ? Hn N']; subst.
  apply elem_of_cons in H as [[= -> ->]|H]; [|by rewrite (IH N' H)].
  pose proof (assoc_last_keys k' l) as K. destruct (assoc_last k' l); [destruct Hn; apply K; by eexists|]. by rewrite String.eqb_refl.
Qed.

(** C31: Reading a complete restoration history conserves credit. Whatever was
    restored and whatever is still held add up to the redemption; every unit
    holds between nothing and what it was redeemed for; and the units marked
    as returned, listed once each in increasing order, hold nothing. *)
Theorem restored_credit_conserved r history rs : readState r history true = Ok rs ->
  exists original, original_units r = Ok original /\ sumZ (concat (map snd original)) = er_amount r /\
  fs_restored (rs_state rs) = sumZ (map hr_amount history) /\
  fs_retained (rs_state rs) = sumZ (concat (map snd (fs_remaining (rs_state rs)))) /\
  fs_restored (rs_state rs) + fs_retained (rs_state rs) = er_amount r /\
  forall k line units, original !! k = Some (line, units) -> exists remaining returned,
    fs_remaining (rs_state rs) !! k = Some (line, remaining) /\ fs_returnedIndexes (rs_state rs) !! k = Some (line, returned) /\
    Forall2 (fun u c => 0 <= c <= u) units remaining /\
    StronglySorted Z.lt returned /\ Forall (fun i => 0 <= i /\ remaining !! Z.to_nat i = Some 0) returned.
Proof.
  intros H. apply readState_iff in H as (original & lines & P & ->). exists original.
  pose proof (original_units_ok _ _ (pv_original _ _ _ _ P)) as R. cbn.
  split; [apply P|]. split; [apply R|]. split; [done|]. split; [by rewrite map_map|]. split; [apply P|].
  intros k line units Hk. pose proof (proj1 (map_result_Forall2 _ _ _) (pv_lines _ _ _ _ P)) as F.
  destruct (Forall2_lookup_l _ _ _ _ _ F Hk) as (out & Ho & E). apply line_state_iff in E as (us & Hus & ->).
  exists (map fst us), (sort_stable Z.gtb (returned_units (legacy_returned (groups_of history) line) us)).
  split; [pose proof (list_lookup_fmap fst lines k) as Q; rewrite Ho in Q; exact Q|].
  split; [pose proof (list_lookup_fmap (fun l => (fst (fst l), snd l)) lines k) as Q; rewrite Ho in Q; exact Q|].
  assert (V : Forall (fun c => 0 <= c) units).
  { pose proof (ro_vectors _ _ R) as V. rewrite Forall_lookup in V. destruct (V _ _ Hk) as (_ & _ & V'). eapply Forall_impl; [exact V'|]. cbn. lia. }
  pose proof (units_reading _ _ _ _ _ _ (edges_ok _ _ _ _ P) V Hus) as [L1 L2 L3]. split; [done|].
  split; [by apply Zgtb_sorted, returned_units_NoDup|]. rewrite sort_stable_perm. apply Forall_forall. intros i Hi.
  pose proof Hi as Hi'. apply returned_units_elem in Hi'. split; [destruct Hi' as [?|(c & _ & ?)]; lia|].
  destruct (L2 i Hi) as [?|Hl]; [done|exfalso]. destruct Hi' as [Hn|(c & Hc & _)].
  - pose proof (legacy_fits original history line (pv_legacy _ _ _ _ P)) as G. unfold units_of in G.
    rewrite (assoc_nodup _ line units (ro_lines _ _ R)) in G by (by apply list_elem_of_lookup_2 in Hk). cbn in G. lia.
  - apply lookup_lt_Some in Hc. apply Forall2_length in L1. rewrite length_map in L1. lia.
Qed.

(** ** A sample redemption *)

Definition sample_uuid_of (c : ascii) : string :=
  let g n := string_of_list_ascii (repeat c n) in
  g 8%nat +:+ "-" +:+ g 4%nat +:+ "-" +:+ g 4%nat +:+ "-" +:+ g 4%nat +:+ "-" +:+ g 12%nat.
Definition sample_sha (_ : string) : string := string_of_list_ascii (repeat "a"%char 64).
Definition sample_redemption : EditFundingRedemption :=
  {| er_id := sample_uuid_of "1"; er_orderId := Some (sample_uuid_of "2"); er_accountCreditId := sample_uuid_of "3"; er_kind := REDEEM;
     er_status := POSTED; er_amount := 500; er_delta := -500;
     er_operationalAllocation := Some (JObj [(sample_uuid_of "a", JArr [int_json 300; int_json 150]); (sample_uuid_of "b", JArr [int_json 50])]) |}.
Definition sample_target (i : option Z) (cents : Z) : TargetUnit :=
  {| tu_originalIndex := i; tu_maximumCredit := cents; tu_consumed := None; tu_unitId := None |}.
(** The edit drops the second unit of line a and lowers the first. *)
Definition sample_edit : EditFundingInput :=
  {| fi_redemption := sample_redemption; fi_history := []; fi_historyComplete := true; fi_editId := sample_uuid_of "e";
     fi_lines := [{| tl_orderLineId := sample_uuid_of "a"; tl_units := [sample_target (Some 0) 200] |};
                  {| tl_orderLineId := sample_uuid_of "b"; tl_units := [sample_target (Some 0) 90; sample_target None 90] |}];
     fi_committedEdit := None |}.
Definition sample_plan : string * list EditFundingPosting * UnitVectors * CreditFundingState :=
  match planEditCreditFunding sample_sha str_after sample_edit with
  | Ok (planned d ps a s) => (d, ps, a, s)
  | _ => (EmptyString, [], [], {| fs_remaining := []; fs_returnedIndexes := []; fs_redeemed := 0; fs_restored := 0; fs_retained := 0 |})
  end.
Definition sample_digest : string := fst (fst (fst sample_plan)).
Definition sample_postings : list EditFundingPosting := snd (fst (fst sample_plan)).
Definition sample_allocation : UnitVectors := snd (fst sample_plan).
Definition sample_out : CreditFundingState := snd sample_plan.
Definition sample_history : list EditFundingHistoryRow := zip_with row_of_posting ["t1"; "t2"]%string sample_postings.

Lemma restored_credit_conserved_witness : exists rs, readState sample_redemption sample_history true = Ok rs /\
  fs_restored (rs_state rs) = 250 /\ fs_restored (rs_state rs) + fs_retained (rs_state rs) = 500.
Proof.
  destruct (readState sample_redemption sample_history true) as [rs|] eqn:E; [|vm_compute in E; discriminate E].
  exists rs. split; [reflexivity|]. split; [vm_compute in E; injection E as <-; reflexivity|].
  destruct (restored_credit_conserved sample_redemption sample_history rs E) as (o & _ & _ & _ & _ & H & _). exact H.
Defined.
