(* ===== verification/FundingReplay.v ===== *)
(** The rows [EditFunding] plans, read back: posted after the history they were
    planned from, they prove the state the plan announced, and the same edit is
    then recognised as done. *)

From S2P Require Import Prelude JsNumber Json JsonText AccountCredit EditFunding FundingFacts.
From Stdlib Require Import ZArith QArith Lia Bool String Ascii Sorted.
From stdpp Require Import base list strings pretty.
Local Open Scope Z_scope.

(** ** Appending versioned rows *)

Lemma modern_of_app h rows : modern_of (h ++ rows) = modern_of h ++ modern_of rows.
Proof. unfold modern_of. by rewrite omap_app. Qed.
Lemma groups_of_versioned h rows : Forall (fun row => is_legacy row = false) rows -> groups_of (h ++ rows) = groups_of h.
Proof.
  intros F. unfold groups_of. rewrite List.filter_app. assert (E : List.filter is_legacy rows = []).
  { induction F as [|row rows H _ IH]; [done|]. cbn. by rewrite H. }
  by rewrite E, app_nil_r.
Qed.

Lemma proves_extends r original h lines rows lines' : proves r original h lines ->
  Forall (row_ok r original) rows -> Forall (fun row => is_legacy row = false) rows ->
  unseen hr_id [] (h ++ rows) -> unseen hr_idempotencyKey [] (h ++ rows) ->
  Forall (fun i => item_identified r i = true /\ item_conserves original (groups_of h) i = true) (modern_of rows) ->
  consistent (omap item_digest (modern_of h) ++ omap item_digest (modern_of rows)) ->
  map_result (line_state (edges_of original h ++ concat (map (item_edges original (groups_of h)) (modern_of rows))) (groups_of h)) original = Ok lines' ->
  0 <= sumZ (map hr_amount (h ++ rows)) -> 0 <= sumZ (concat (map (fun l => snd (fst l)) lines')) ->
  sumZ (map hr_amount (h ++ rows)) + sumZ (concat (map (fun l => snd (fst l)) lines')) = er_amount r ->
  proves r original (h ++ rows) lines'.
Proof.
  intros [Q1 Q2 Q3 Q4 Q5 Q6 Q7 Q8 Q9 Q10 Q11] R1 R2 R3 R4 R5 R6 R7 R8 R9 R10.
  pose proof (ro_amount _ _ (original_units_ok _ _ Q1)) as A.
  assert (G : groups_of (h ++ rows) = groups_of h) by by apply groups_of_versioned.
  split; rewrite ?G, ?modern_of_app, ?omap_app; try done; try lia.
  - by apply Forall_app.
  - by apply Forall_app.
  - unfold edges_of. by rewrite G, modern_of_app, map_app, concat_app.
Qed.

(** ** One more edge in a unit's chain *)

Lemma chain_of_app ts news line i : chain_of (ts ++ news) line i = chain_of ts line i ++ chain_of news line i.
Proof. unfold chain_of. by rewrite List.filter_app, map_app. Qed.

Lemma unit_unchanged ts news line n iu out : chain_of news line (Z.of_nat (fst iu)) = [] ->
  unit_state ts line n iu = Ok out -> unit_state (ts ++ news) line n iu = Ok out.
Proof. intros E H. unfold unit_state in *. by rewrite chain_of_app, E, app_nil_r. Qed.

Lemma unit_changed original groups ts news line iu c e : Forall (transition_ok original groups) ts -> 0 <= snd iu ->
  chain_of news line (Z.of_nat (fst iu)) = [e] -> (legacy_returned groups line <= fst iu)%nat -> ed_before e = c ->
  unit_state ts line (legacy_returned groups line) iu = Ok (c, false) ->
  unit_state (ts ++ news) line (legacy_returned groups line) iu = Ok (ed_after e, ed_returned e).
Proof.
  intros F H0 E Hn He H. unfold unit_state in *. rewrite chain_of_app, E.
  pose proof (chain_edges_ok original groups ts line (Z.of_nat (fst iu)) F) as F'.
  set (chain := chain_of ts line (Z.of_nat (fst iu))) in *. inv_ok. destruct a as [c' b']. cbn [fst snd] in *.
  assert (c' = ed_before e) as ->.
  { destruct (sort_stable edge_after chain) eqn:Es; cbn [is_nil] in *; [|done]. cbn in Em.
    destruct (Nat.ltb_spec (fst iu) (legacy_returned groups line)); [lia|]. congruence. }
  match goal with E : b' = false |- _ => subst b' end.
  destruct (chain_extends chain (snd iu) (ed_before e) e F' H0 Em eq_refl) as [S1 S2]. rewrite S1 in S2 |- *. rewrite S2. cbn [bind_result].
  by destruct (sort_stable edge_after chain).
Qed.

(** ** The changes of one pass over a line *)

(** At most one change per unit, of that unit. *)
Definition pointwise (f : nat * Z -> list EditFundingUnitChange) : Prop :=
  forall iu, f iu = [] \/ exists c, f iu = [c] /\ uc_index c = Z.of_nat (fst iu).
Definition changed (f : nat * Z -> list EditFundingUnitChange) (iu : nat * Z) : Z :=
  match f iu with c :: _ => uc_after c | [] => snd iu end.

Lemma set_units f l : pointwise f -> fold_left set_unit (flat_map f (indexed l)) l = map (changed f) (indexed l).
Proof.
  intros P. unfold indexed.
  assert (G : forall l k pre, length pre = k ->
    fold_left set_unit (flat_map f (zip (seq k (length l)) l)) (pre ++ l) = pre ++ map (changed f) (zip (seq k (length l)) l)).
  { clear l. induction l as [|u l IH]; intros k pre Hk; [done|]. cbn [length seq zip zip_with flat_map map].
    rewrite fold_left_app. unfold changed at 1. cbn [snd].
    assert (E : forall v, fold_left set_unit (flat_map f (zip (seq (S k) (length l)) l)) (pre ++ v :: l) =
                          pre ++ v :: map (changed f) (zip (seq (S k) (length l)) l)).
    { intros v. rewrite (cons_middle v pre l), app_assoc, IH by (rewrite length_app; cbn; lia). by rewrite <- app_assoc. }
    destruct (P (k, u)) as [->|(c & -> & Hc)]; [apply E|]. cbn [fold_left]. unfold set_unit at 2. rewrite Hc. cbn [fst].
    rewrite Nat2Z.id, <- Hk, insert_app_r_alt, Nat.sub_diag by lia. cbn. rewrite Hk. apply E. }
  by apply (G l 0%nat []).
Qed.

Lemma chain_of_pass f returns line l i : pointwise f ->
  chain_of (map (edge_of returns line) (flat_map f (indexed l))) line (Z.of_nat i) =
  match l !! i with Some u => map (fun c => tr_edge (edge_of returns line c)) (f (i, u)) | None => [] end.
Proof.
  intros P. unfold indexed.
  assert (G : forall l k i, chain_of (map (edge_of returns line) (flat_map f (zip (seq k (length l)) l))) line (Z.of_nat i) =
    if (i <? k)%nat then [] else match l !! (i - k)%nat with Some u => map (fun c => tr_edge (edge_of returns line c)) (f (i, u)) | None => [] end).
  { clear l i. induction l as [|u l IH]; intros k i; cbn [length seq zip zip_with flat_map map].
    - by destruct (_ <? _)%nat.
    - rewrite map_app, chain_of_app, IH. 
      assert (E : chain_of (map (edge_of returns line) (f (k, u))) line (Z.of_nat i) =
                  if (i =? k)%nat then map (fun c => tr_edge (edge_of returns line c)) (f (i, u)) else []).
      { destruct (P (k, u)) as [E|(c & E & Hc)]; rewrite E; cbn [fst] in *.
        - destruct (Nat.eqb_spec i k) as [->|]; [by rewrite E|done].
        - unfold chain_of. cbn [map List.filter edge_of tr_line tr_index]. rewrite String.eqb_refl, Hc. cbn [andb].
          destruct (Nat.eqb_spec i k) as [->|]; [by rewrite Z.eqb_refl, E|]. rewrite (proj2 (Z.eqb_neq _ _)) by lia. done. }
      rewrite E. destruct (Nat.eqb_spec i k) as [Eik|N]; [subst i|].
      + rewrite (proj2 (Nat.ltb_lt k (S k))), Nat.ltb_irrefl, Nat.sub_diag by lia. by rewrite app_nil_r.
      + destruct (Nat.ltb_spec i (S k)), (Nat.ltb_spec i k); try lia; [done|]. by replace (i - k)%nat with (S (i - S k)) by lia. }
  rewrite G. cbn. by rewrite Nat.sub_0_r.
Qed.
Lemma chain_of_other returns line line' cs i : line <> line' -> chain_of (map (edge_of returns line) cs) line' i = [].
Proof.
  intros H. unfold chain_of. induction cs as [|c cs IH]; [done|]. cbn. rewrite (proj2 (String.eqb_neq line line') H). exact IH.
Qed.

Section Pass.
Context (us : list TargetUnit) (returned : list Z).
Abbreviation changes := (unit_changes us returned).

Lemma changes_pointwise cause : pointwise (changes cause).
Proof.
  intros [i u]. unfold unit_changes. cbn [fst snd]. destruct (returned_has _ _); [by left|].
  destruct cause, (wanted _ _) as [t|]; try by left; try (right; by eexists).
  - right. by eexists.
  - destruct (_ <? _); [right; by eexists|by left].
Qed.
Lemma wanted_spec i t : wanted us i = Some t -> t ∈ us /\ tu_originalIndex t = Some i.
Proof. unfold wanted. intros H. apply List.find_some in H as [Hi H]. apply bool_decide_eq_true in H. split; [by apply list_elem_of_In|done]. Qed.

(** The second pass sees the first one's units, and works on others. *)
Lemma second_pass l :
  flat_map (changes unit_correction_cause) (indexed (map (changed (changes quantity_return_cause)) (indexed l))) =
  flat_map (changes unit_correction_cause) (indexed l).
Proof.
  unfold indexed. rewrite length_map, length_zip_with, length_seq, Nat.min_id. generalize 0%nat. induction l as [|u l IH]; intros k; [done|].
  cbn [length seq zip zip_with map flat_map]. f_equal; [|apply IH]. unfold changed, unit_changes. cbn [fst snd].
  destruct (returned_has _ _); [done|]. by destruct (wanted _ _).
Qed.

(** Both passes on one unit. *)
Definition unit_edge (iu : nat * Z) : option Edge :=
  match changes quantity_return_cause iu, changes unit_correction_cause iu with
  | c :: _, _ => Some {| ed_before := uc_before c; ed_after := uc_after c; ed_returned := true |}
  | [], c :: _ => Some {| ed_before := uc_before c; ed_after := uc_after c; ed_returned := false |}
  | [], [] => None
  end.
Definition unit_after (iu : nat * Z) : Z := match unit_edge iu with Some e => ed_after e | None => snd iu end.
Lemma unit_edge_spec iu e : unit_edge iu = Some e ->
  ed_before e = snd iu /\ returned_has returned (Z.of_nat (fst iu)) = false /\
  (if ed_returned e then ed_after e = 0 else exists t, t ∈ us /\ ed_after e = tu_maximumCredit t /\ ed_after e < snd iu).
Proof.
  unfold unit_edge, unit_changes. destruct (returned_has _ _); [done|]. destruct (wanted us (Z.of_nat (fst iu))) as [t|] eqn:Ew.
  - destruct (Z.ltb_spec (tu_maximumCredit t) (snd iu)); [|done]. intros [= <-]. cbn. split; [done|]. split; [done|].
    exists t. apply wanted_spec in Ew as [? _]. done.
  - intros [= <-]. done.
Qed.
Lemma two_passes l :
  fold_left set_unit (flat_map (changes unit_correction_cause) (indexed l)) (map (changed (changes quantity_return_cause)) (indexed l)) =
  map unit_after (indexed l).
Proof.
  rewrite <- second_pass, set_units by apply changes_pointwise.
  unfold indexed. rewrite length_map, length_zip_with, length_seq, Nat.min_id. generalize 0%nat. induction l as [|u l IH]; intros k; [done|].
  cbn [length seq zip zip_with map]. f_equal; [|apply IH]. unfold unit_after, unit_edge, changed, unit_changes. cbn [fst snd].
  destruct (returned_has _ _); [done|]. destruct (wanted _ _) as [t|]; [|done]. by destruct (_ <? _).
Qed.
Lemma chain_of_passes line l i :
  chain_of (map (edge_of true line) (flat_map (changes quantity_return_cause) (indexed l)) ++
            map (edge_of false line) (flat_map (changes unit_correction_cause) (indexed l))) line (Z.of_nat i) =
  match l !! i with Some u => match unit_edge (i, u) with Some e => [e] | None => [] end | None => [] end.
Proof.
  rewrite chain_of_app, !chain_of_pass by apply changes_pointwise. destruct (l !! i) as [u|]; [|done].
  unfold unit_edge, unit_changes. cbn [fst snd]. destruct (returned_has _ _); [done|].
  destruct (wanted _ _) as [t|]; [|done]. by destruct (_ <? _).
Qed.
End Pass.

(** ** A line with new edges *)

Section Line.
Context (original : UnitVectors) (groups : list LegacyGroup) (ts news : list Transition) (line : string) (units : list Z) (us : list (Z * bool)).
Let n := legacy_returned groups line.
Let returned := sort_stable Z.gtb (returned_units n us).
Context (edge : nat * Z -> option Edge).
Context (ts_ok : Forall (transition_ok original groups) ts) (units_nonneg : Forall (fun c => 0 <= c) units)
        (reading : map_result (unit_state ts line n) (indexed units) = Ok us)
        (edge_fits : forall iu e, edge iu = Some e -> ed_before e = snd iu /\ Z.of_nat (fst iu) ∉ returned)
        (news_fit : forall i, chain_of news line (Z.of_nat i) =
           match map fst us !! i with Some u => match edge (i, u) with Some e => [e] | None => [] end | None => [] end).

Definition new_unit (p : nat * (Z * bool)) : Z * bool :=
  match edge (fst p, fst (snd p)) with Some e => (ed_after e, ed_returned e) | None => snd p end.
Definition new_units : list (Z * bool) := map new_unit (indexed us).

Lemma lookup_new i : new_units !! i = (fun cb => new_unit (i, cb)) <$> us !! i.
Proof.
  unfold new_units. rewrite list_lookup_fmap. destruct (indexed us !! i) as [p|] eqn:E.
  - apply indexed_lookup in E as (x & -> & ->). done.
  - destruct (us !! i) as [x|] eqn:Ex; [|done]. exfalso.
    assert (indexed us !! i = Some (i, x)) by (apply indexed_lookup; by exists x). congruence.
Qed.
Lemma length_reading : length us = length units.
Proof. apply map_result_length in reading. by rewrite reading, length_indexed. Qed.

Lemma read_new : map_result (unit_state (ts ++ news) line n) (indexed units) = Ok new_units.
Proof.
  apply map_result_Forall2. apply Forall2_same_length_lookup_2; [unfold new_units; by rewrite length_map, !length_indexed, length_reading|].
  intros k iu cb' Hk Hc. pose proof Hk as Hk'. apply indexed_lookup in Hk' as (u & Hu & ->).
  rewrite lookup_new in Hc. destruct (us !! k) as [[c b]|] eqn:Ek; [|done]. cbn in Hc. injection Hc as <-.
  pose proof (Forall2_lookup_lr _ _ _ _ _ _ (proj1 (map_result_Forall2 _ _ _) reading) Hk Ek) as E. cbn in E.
  pose proof (news_fit k) as N. rewrite list_lookup_fmap, Ek in N. cbn in N. unfold new_unit. cbn [fst snd].
  destruct (edge (k, c)) as [e|] eqn:Ee; [|by apply unit_unchanged].
  destruct (edge_fits _ _ Ee) as [Hb Hr]. cbn [fst snd] in *. subst returned. rewrite sort_stable_perm in Hr.
  apply (unit_changed original groups ts news line (k, u) c e); cbn [fst snd]; try done.
  - rewrite Forall_lookup in units_nonneg. by eapply units_nonneg.
  - destruct (Nat.le_gt_cases n k); [done|]. exfalso. apply Hr. apply returned_units_elem. left. subst n. lia.
  - destruct b; [|done]. exfalso. apply Hr. apply returned_units_elem. right. exists c. rewrite Nat2Z.id. split; [done|lia].
Qed.

Lemma new_amounts : map fst new_units = map (fun iu => match edge iu with Some e => ed_after e | None => snd iu end) (indexed (map fst us)).
Proof.
  apply list_eq. intros i. rewrite !list_lookup_fmap, lookup_new.
  destruct (indexed (map fst us) !! i) as [p|] eqn:E.
  - apply indexed_lookup in E as (x & Hx & ->). rewrite list_lookup_fmap in Hx. destruct (us !! i) as [[c b]|]; [|done]. injection Hx as <-.
    cbn. unfold new_unit. cbn. by destruct (edge (i, c)).
  - destruct (us !! i) as [[c b]|] eqn:Ex; [|done]. exfalso.
    assert (indexed (map fst us) !! i = Some (i, c)) by (apply indexed_lookup; exists c; by rewrite list_lookup_fmap, Ex). congruence.
Qed.

Context (extra : list Z) (extra_nodup : NoDup extra)
        (extra_fits : forall i, i ∈ extra <-> 0 <= i /\ exists u e, map fst us !! Z.to_nat i = Some u /\ edge (Z.to_nat i, u) = Some e /\ ed_returned e = true).

Lemma late_returns k c : us !! k = Some (c, true) -> (n <= k)%nat.
Proof. apply (units_reading original groups ts line units us ts_ok units_nonneg reading). Qed.

Lemma new_late k c : new_units !! k = Some (c, true) -> (n <= k)%nat.
Proof.
  rewrite lookup_new. destruct (us !! k) as [[c0 b0]|] eqn:Ek; [|done]. cbn. unfold new_unit. cbn.
  destruct (edge (k, c0)) as [e|] eqn:Ee; [|intros [= -> ->]; by eapply late_returns].
  intros _. destruct (edge_fits _ _ Ee) as [_ Hr]. subst returned. rewrite sort_stable_perm in Hr. cbn in Hr.
  destruct (Nat.le_gt_cases n k); [done|]. exfalso. apply Hr, returned_units_elem. left. subst n. lia.
Qed.

Lemma new_returned : returned_units n new_units ≡ₚ returned_units n us ++ extra.
Proof.
  assert (ND : NoDup (returned_units n us)) by (apply returned_units_NoDup; apply late_returns).
  assert (D : forall i, i ∈ extra -> i ∉ returned_units n us).
  { intros i Hi Hr. apply extra_fits in Hi as (Hi & u & e & Hu & He & _). destruct (edge_fits _ _ He) as [_ Hf]. cbn [fst] in Hf.
    rewrite Z2Nat.id in Hf by done. apply Hf. subst returned. by rewrite sort_stable_perm. }
  apply NoDup_Permutation; [apply returned_units_NoDup; apply new_late| |].
  { apply NoDup_app_disjoint; [done|done|]. intros x Hx Hy. exact (D x Hy Hx). }
  intros i. rewrite elem_of_app, !returned_units_elem, extra_fits. split.
  - intros [?|(c & Hc & Hi)]; [by left; left|]. rewrite lookup_new in Hc.
    destruct (us !! Z.to_nat i) as [[c0 b0]|] eqn:Ek; [|done]. cbn in Hc. unfold new_unit in Hc. cbn in Hc.
    destruct (edge (Z.to_nat i, c0)) as [e|] eqn:Ee.
    + right. split; [done|]. exists c0, e. rewrite list_lookup_fmap, Ek. split; [done|]. split; [done|]. congruence.
    + left. right. exists c. by injection Hc as -> ->.
  - intros [[?|(c & Hc & Hi)]|(Hi & u & e & Hu & He & Hr)]; [by left| |].
    + right. exists c. rewrite lookup_new, Hc. cbn. unfold new_unit. cbn. split; [|done].
      destruct (edge (Z.to_nat i, c)) as [e|] eqn:Ee; [|done]. exfalso. destruct (edge_fits _ _ Ee) as [_ Hf]. apply Hf. cbn.
      subst returned. rewrite sort_stable_perm. apply returned_units_elem. right. exists c. rewrite Nat2Z.id. split; [done|lia].
    + right. rewrite list_lookup_fmap in Hu. destruct (us !! Z.to_nat i) as [[c b]|] eqn:Ek; [|done]. injection Hu as <-.
      exists (ed_after e). rewrite lookup_new, Ek. cbn. unfold new_unit. cbn. by rewrite He, Hr.
Qed.

Lemma sort_gtb_perm l1 l2 : l1 ≡ₚ l2 -> NoDup l1 -> sort_stable Z.gtb l1 = sort_stable Z.gtb l2.
Proof.
  intros H N. pose proof (Zgtb_sorted l1 N) as S1. pose proof (Zgtb_sorted l2 ltac:(by rewrite <- H)) as S2.
  assert (P : sort_stable Z.gtb l1 ≡ₚ sort_stable Z.gtb l2) by (by rewrite !sort_stable_perm).
  revert S1 S2 P. generalize (sort_stable Z.gtb l1), (sort_stable Z.gtb l2). clear.
  induction l as [|x xs IH]; intros ys S1 S2 P; [by apply Permutation_nil in P as ->|].
  destruct ys as [|y ys]; [by apply Permutation_sym, Permutation_nil in P|].
  inversion S1 as [|? ? S1' H1]; inversion S2 as [|? ? S2' H2]; subst. rewrite Forall_forall in H1, H2.
  assert (x = y) as ->.
  { assert (Hx : x ∈ y :: ys) by (rewrite <- P; left). assert (Hy : y ∈ x :: xs) by (rewrite P; left).
    apply elem_of_cons in Hx as [?|Hx]; [done|]. apply elem_of_cons in Hy as [?|Hy]; [done|]. specialize (H1 _ Hy). specialize (H2 _ Hx). lia. }
  f_equal. apply IH; [done|done|]. by apply Permutation_cons_inv in P.
Qed.

(** The line after the new rows, as the plan computes it. *)
Lemma line_extends : line_state (ts ++ news) groups (line, units) =
  Ok (line, map (fun iu => match edge iu with Some e => ed_after e | None => snd iu end) (indexed (map fst us)),
      sort_stable Z.gtb (returned ++ extra)).
Proof.
  assert (ND : NoDup (returned_units n new_units)) by (apply returned_units_NoDup; apply new_late).
  assert (E : sort_stable Z.gtb (returned_units n new_units) = sort_stable Z.gtb (returned ++ extra)).
  { apply sort_gtb_perm; [|done]. unfold returned. by rewrite sort_stable_perm, new_returned. }
  apply line_state_iff. exists new_units. split; [apply read_new|]. by rewrite new_amounts, <- E.
Qed.
End Line.

(** ** A posted envelope is read back *)

Lemma safe_int_json z : is_safe z = true -> safe_integer (Some (int_json z)) = Some z.
Proof.
  intros H. unfold safe_integer, int_json. rewrite Qcanon.Qred_identity by (cbn; apply Z.gcd_1_r). cbn. by rewrite H.
Qed.
Lemma money_int_json z : money z = true -> money_json (int_json z) = Some z.
Proof. intros H. unfold money_json. rewrite safe_int_json, H; [done|]. unfold money in H. by bool_props. Qed.
Lemma plain_int_json z : plain (int_json z) = is_safe z.
Proof. done. Qed.

Definition change_json (c : EditFundingUnitChange) : json :=
  JObj [("index", int_json (uc_index c)); ("before", int_json (uc_before c)); ("after", int_json (uc_after c))]%string.

(** A change the plans make: of a unit of the line that legacy rows left alone. *)
Record change_fits (returns : bool) (n len : nat) (c : EditFundingUnitChange) : Prop := {
  cf_before : 0 <= uc_before c <= MAX_CREDIT_CENTS;
  cf_after : 0 <= uc_after c;
  cf_index : Z.of_nat n <= uc_index c < Z.of_nat len;
  cf_down : if returns then uc_after c = 0 else uc_after c < uc_before c;
  cf_safe : is_safe (uc_index c) = true
}.
Lemma change_down returns n len c : change_fits returns n len c -> uc_after c <= uc_before c.
Proof. intros [H1 H2 _ H3 _]. destruct returns; lia. Qed.
Lemma change_money returns n len c : change_fits returns n len c -> money (uc_before c) = true /\ money (uc_after c) = true.
Proof. intros H. pose proof (change_down _ _ _ _ H). destruct H. rewrite !money_spec. lia. Qed.

Lemma read_change_posted returns n len c : change_fits returns n len c -> read_change (stable (change_json c)) = Some c.
Proof.
  intros H. destruct (change_money _ _ _ _ H) as [M1 M2]. unfold read_change.
  assert (E : exists fs, stable (change_json c) = JObj fs) by by eexists. destruct E as [fs E].
  assert (F : forall k, field k (stable (change_json c)) = stable <$> assoc_last k
    [("index", int_json (uc_index c)); ("before", int_json (uc_before c)); ("after", int_json (uc_after c))]%string) by (intros; apply field_stable).
  rewrite !F. rewrite E. cbn [assoc_last String.eqb Ascii.eqb Bool.eqb fmap option_fmap option_map].
  change (stable (int_json ?z)) with (int_json z). rewrite safe_int_json, !money_int_json by (done || apply H). by destruct c.
Qed.
Lemma change_ok_posted returns n len seen c : change_fits returns n len c -> uc_index c ∉ seen -> change_ok returns len n seen c = true.
Proof.
  intros H Hs. pose proof (change_down _ _ _ _ H). destruct H as [B1 B2 B3 B4 B5]. unfold change_ok.
  rewrite (proj2 (Z.leb_le 0 _)), (proj2 (Z.ltb_lt (uc_index c) _)), (proj2 (existsb_index_false _ seen) Hs), (proj2 (Z.leb_le (uc_after c) _)) by lia.
  assert (E : existsb (Z.eqb (uc_index c)) (map Z.of_nat (seq 0 n)) = false).
  { apply existsb_index_false. intros Hin. apply list_elem_of_fmap in Hin as (k & E & Hk). apply elem_of_seq in Hk. lia. }
  rewrite E. cbn. rewrite andb_true_r. destruct returns; [by apply Z.eqb_eq|by apply Z.ltb_lt].
Qed.
Lemma read_changes_posted returns n len cs : forall seen, Forall (change_fits returns n len) cs -> NoDup (map uc_index cs) ->
  (forall c, c ∈ cs -> uc_index c ∉ seen) -> read_changes returns len n seen (map (fun c => stable (change_json c)) cs) = Ok cs.
Proof.
  induction cs as [|c cs IH]; intros seen F N D; [done|]. inversion F as [|? ? Fc Fs]; subst. cbn [map] in N. apply NoDup_cons in N as [Nc Ns].
  cbn [map read_changes]. rewrite (read_change_posted returns n len c Fc), (change_ok_posted returns n len seen c Fc) by (apply D; left).
  rewrite IH; [done|done|done|]. intros c' Hc' [E|Hin]%elem_of_cons.
  - apply Nc. rewrite <- E. apply list_elem_of_fmap. by exists c'.
  - by apply (D c'); [right|].
Qed.
Lemma changes_plain returns n len cs : Forall (change_fits returns n len) cs -> plain (JArr (map change_json cs)) = true.
Proof.
  intros F. cbn [plain]. apply forallb_forall. intros j Hj. apply in_map_iff in Hj as (c & <- & Hc). rewrite List.Forall_forall in F.
  specialize (F _ Hc). destruct (change_money _ _ _ _ F) as [M1 M2]. unfold change_json. cbn [plain forallb].
  rewrite !plain_int_json, (cf_safe _ _ _ _ F). unfold money in M1, M2. bool_props.
  repeat match goal with E : is_safe _ = true |- _ => rewrite E; clear E end. done.
Qed.
Lemma changes_cents returns n len cs : Forall (change_fits returns n len) cs -> Forall (fun c => 0 <= c) (map change_cents cs).
Proof. intros F. apply Forall_map. eapply Forall_impl; [exact F|]. intros c H. cbn. pose proof (change_down _ _ _ _ H). unfold change_cents. lia. Qed.

Section Posted.
Context (r : EditFundingRedemption) (original : UnitVectors) (groups : list LegacyGroup) (redeemed : redemption_ok r original).
Context (line : string) (units : list Z) (on_line : assoc_last line original = Some units).
Let n := legacy_returned groups line.
Let len := length units.

(** What one posting adds to a reading. *)
Record posted (row : EditFundingHistoryRow) (returns : bool) (cs : list EditFundingUnitChange) (digest : option (string * string)) (e : json) : Prop := {
  po_row : row_ok r original row;
  po_envelope : envelope_of row = Some e;
  po_identified : item_identified r (row, e) = true;
  po_conserves : item_conserves original groups (row, e) = true;
  po_edges : item_edges original groups (row, e) = map (edge_of returns line) cs;
  po_digest : item_digest (row, e) = digest
}.

Lemma posting_proven id refundId quantity key envelope cents : id <> EmptyString -> key <> EmptyString -> money (sumZ cents) = true ->
  row_proven r original (row_of_posting id (posting r line refundId quantity (sumZ cents) key envelope cents)) = true.
Proof.
  intros Hi Hk Hm. unfold row_proven, row_of_posting, posting. cbn -[money].
  destruct (ro_order _ _ redeemed) as (o & Ho & _). rewrite on_line, Hm, Ho, !Z.eqb_refl, !String.eqb_refl.
  rewrite (proj2 (String.eqb_neq id _) Hi), (proj2 (String.eqb_neq key _) Hk), !bool_decide_eq_true_2 by done. done.
Qed.

Lemma vector_units : units_of original line = units.
Proof. unfold units_of. by rewrite on_line. Qed.

(** The part both kinds of envelope share. *)
Lemma conserves_posted row e returns cs : row_line row = line -> quantity_return e = returns ->
  field "units" e = Some (JArr (map (fun c => stable (change_json c)) cs)) -> Forall (change_fits returns n len) cs -> NoDup (map uc_index cs) ->
  money (sumZ (map change_cents cs)) = true -> hr_amount row = sumZ (map change_cents cs) ->
  hr_operationalAllocation row = Some (projection line (map change_cents cs)) ->
  item_conserves original groups (row, e) = true /\ item_edges original groups (row, e) = map (edge_of returns line) cs.
Proof.
  intros Hl Hq Hu F N M A P.
  assert (R : item_read original groups (row, e) = Ok cs).
  { unfold item_read, item_units, item_line. cbn [fst snd]. rewrite Hl, Hq, Hu, vector_units. cbn [as_array or_else].
    apply read_changes_posted; [done|done|]. by intros c _ ?%elem_of_nil. }
  unfold item_conserves, item_edges, item_changes, item_line. rewrite R. cbn [fst snd]. rewrite Hl, Hq, M, A, P, Z.eqb_refl, json_eqb_refl. done.
Qed.

Definition cause_returns (cause : Cause) : bool := match cause with quantity_return_cause => true | unit_correction_cause => false end.

Lemma stable_units cs : stable (JArr (map change_json cs)) = JArr (map (fun c => stable (change_json c)) cs).
Proof. cbn [stable]. by rewrite map_map. Qed.
Lemma edit_field cause editId digest cs k : field k (stable (edit_envelope r cause line editId digest cs)) =
  stable <$> assoc_last k [("version", int_json 1); ("type", JStr EDIT_RESTORE); ("cause", JStr cause); ("redemptionId", JStr (er_id r));
        ("orderId", JStr (or_else (er_orderId r) EmptyString)); ("accountCreditId", JStr (er_accountCreditId r));
        ("orderLineId", JStr line); ("editId", JStr editId); ("requestDigest", JStr digest); ("units", JArr (map change_json cs))]%string.
Proof. apply field_stable. Qed.
Lemma unit_field kind id cs k : field k (stable (unit_envelope r line kind id cs)) =
  stable <$> assoc_last k [("version", int_json 1); ("type", JStr UNIT_RESTORE); ("cause", JStr QUANTITY_RETURN); ("redemptionId", JStr (er_id r));
        ("orderId", JStr (or_else (er_orderId r) EmptyString)); ("accountCreditId", JStr (er_accountCreditId r));
        ("orderLineId", JStr line); ("operation", JObj [("kind", JStr kind); ("id", JStr id)]); ("units", JArr (map change_json cs))]%string.
Proof. apply field_stable. Qed.

Lemma edit_posted id cause editId digest cs : id <> EmptyString -> is_uuid editId = true -> hex64 digest = true ->
  cs <> [] -> Forall (change_fits (cause_returns cause) n len) cs -> NoDup (map uc_index cs) -> money (sumZ (map change_cents cs)) = true ->
  let env := edit_envelope r (cause_text cause) line editId digest cs in
  posted (row_of_posting id (posting r line None (match cause with quantity_return_cause => Z.of_nat (length cs) | unit_correction_cause => 0 end)
            (sumZ (map change_cents cs)) (edit_key editId (er_id r) line (cause_text cause)) env (map change_cents cs)))
    (cause_returns cause) cs (Some (editId, digest)) (stable env).
Proof.
  intros Hi He Hd Hn F N M env. set (row := row_of_posting _ _).
  assert (Fs : forall k, field k (stable env) = _) by (intros k; apply edit_field).
  assert (Parsed : parseEnvelope row = Ok (Some (stable env))).
  { unfold parseEnvelope. cbn [hr_allocation row row_of_posting posting po_allocation]. rewrite parse_serialize.
    2: { pose proof (changes_plain _ _ _ _ F) as P. unfold env, edit_envelope. cbn [plain forallb] in *. change (map _ cs) with (map change_json cs). by rewrite P. }
    change (is_object (Some (stable env))) with true. cbn [negb]. rewrite (Fs "type"%string). 
    change (js_String (stable <$> assoc_last "type" _)) with EDIT_RESTORE. change (one_of_texts [EDIT_RESTORE; UNIT_RESTORE] EDIT_RESTORE) with true. cbn [negb].
    change (is_text UNIT_RESTORE (stable <$> assoc_last "type" _)) with false. cbv match beta.
    unfold edit_restore_ok. rewrite !Fs. cbn [assoc_last String.eqb Ascii.eqb Bool.eqb fmap option_fmap option_map as_string as_array is_number js_String js_text stable].
    rewrite He, Hd. destruct cs as [|c cs']; [done|]. destruct cause; reflexivity. }
  assert (Ret : quantity_return (stable env) = cause_returns cause) by (unfold quantity_return; rewrite Fs; by destruct cause).
  assert (Us : field "units" (stable env) = Some (JArr (map (fun c => stable (change_json c)) cs))) by (rewrite Fs; exact (f_equal Some (stable_units cs))).
  destruct (conserves_posted row (stable env) (cause_returns cause) cs eq_refl Ret Us F N M eq_refl eq_refl) as [C1 C2].
  split; [| | |exact C1|exact C2|].
  - unfold row_ok. rewrite Parsed. split; [|done]. by apply posting_proven.
  - unfold envelope_of. by rewrite Parsed.
  - unfold item_identified, item_line, item_units. cbn [fst snd]. unfold keyFor. rewrite !Ret, !Fs.
    cbn [assoc_last String.eqb Ascii.eqb Bool.eqb fmap option_fmap option_map as_array is_text js_String js_text stable row_line row_of_posting posting hr_orderLineId
         po_orderLineId or_else hr_idempotencyKey po_idempotencyKey hr_quantity po_quantity hr_refundId po_refundId].
    rewrite !String.eqb_refl. rewrite !length_map. cbn [andb].
    change (String.eqb EDIT_RESTORE EDIT_RESTORE) with true. rewrite !bool_decide_eq_true_2 by (done || by destruct cause). done.
  - unfold item_digest. cbn [snd]. by rewrite !Fs.
Qed.
Lemma unit_posted id kind opId cs : id <> EmptyString -> one_of_texts ["refund"; "manual_return"]%string kind = true -> valid_operation kind opId = true ->
  cs <> [] -> Forall (change_fits true n len) cs -> NoDup (map uc_index cs) -> money (sumZ (map change_cents cs)) = true ->
  let env := unit_envelope r line kind opId cs in
  let refund := String.eqb kind "refund" in
  posted (row_of_posting id (posting r line (if refund then Some opId else None) (Z.of_nat (length cs)) (sumZ (map change_cents cs))
            (if refund then refund_key opId line else manual_key opId) env (map change_cents cs)))
    true cs None (stable env).
Proof.
  intros Hi Hkind Hop Hn F N M env refund. set (row := row_of_posting _ _).
  assert (Fs : forall k, field k (stable env) = _) by (intros k; apply unit_field).
  assert (Op : stable (JObj [("kind", JStr kind); ("id", JStr opId)]%string) = JObj [("id", JStr opId); ("kind", JStr kind)]%string) by reflexivity.
  assert (Parsed : parseEnvelope row = Ok (Some (stable env))).
  { unfold parseEnvelope. cbn [hr_allocation row row_of_posting posting po_allocation]. rewrite parse_serialize.
    2: { pose proof (changes_plain _ _ _ _ F) as P. unfold env, unit_envelope. cbn [plain forallb] in *. change (map _ cs) with (map change_json cs). by rewrite P. }
    change (is_object (Some (stable env))) with true. cbn [negb]. rewrite (Fs "type"%string).
    change (js_String (stable <$> assoc_last "type" _)) with UNIT_RESTORE. change (one_of_texts [EDIT_RESTORE; UNIT_RESTORE] UNIT_RESTORE) with true. cbn [negb].
    change (is_text UNIT_RESTORE (stable <$> assoc_last "type" _)) with true. cbv match beta.
    unfold unit_restore_ok. rewrite !Fs. cbn [assoc_last String.eqb Ascii.eqb Bool.eqb fmap option_fmap option_map]. rewrite Op, stable_units.
    cbn [field assoc_last String.eqb Ascii.eqb Bool.eqb as_string as_array js_String js_text is_object is_text is_number stable]. rewrite Hkind.
    unfold valid_operation in Hop. rewrite Hop. destruct cs as [|c cs']; [done|]. reflexivity. }
  assert (Ret : quantity_return (stable env) = true) by (unfold quantity_return; by rewrite Fs).
  assert (Us : field "units" (stable env) = Some (JArr (map (fun c => stable (change_json c)) cs))) by (rewrite Fs; exact (f_equal Some (stable_units cs))).
  assert (Hkey : (if refund then refund_key opId line else manual_key opId) <> EmptyString) by by destruct refund.
  destruct (conserves_posted row (stable env) true cs eq_refl Ret Us F N M eq_refl eq_refl) as [C1 C2].
  split; [| | |exact C1|exact C2|].
  - unfold row_ok. rewrite Parsed. split; [|done]. by apply posting_proven.
  - unfold envelope_of. by rewrite Parsed.
  - unfold item_identified, item_line, item_units. cbn [fst snd]. unfold keyFor. rewrite !Ret, !Us, !Fs.
    cbn [assoc_last String.eqb Ascii.eqb Bool.eqb fmap option_fmap option_map]. rewrite Op. unfold row. fold refund.
    cbn [field assoc_last String.eqb Ascii.eqb Bool.eqb is_text js_String js_text stable row_line row_of_posting posting hr_orderLineId as_array as_string
         po_orderLineId or_else hr_idempotencyKey po_idempotencyKey hr_quantity po_quantity hr_refundId po_refundId].
    change (String.eqb UNIT_RESTORE EDIT_RESTORE) with false. cbv match beta. rewrite !String.eqb_refl, !length_map. cbn [andb].
    fold refund. destruct refund; cbn [andb]; rewrite !String.eqb_refl; rewrite !bool_decide_eq_true_2 by done; done.
  - unfold item_digest. cbn [snd]. by rewrite !Fs.
Qed.
End Posted.

(** ** Reading on after the new rows *)

Definition apply_edges (edge : nat * Z -> option Edge) (remaining : list Z) : list Z :=
  map (fun iu => match edge iu with Some e => ed_after e | None => snd iu end) (indexed remaining).
(** [edge] is what [news] holds for the line, and [extra] what it returns. *)
Record line_edges (news : list Transition) (line : string) (remaining returned : list Z) (edge : nat * Z -> option Edge) (extra : list Z) : Prop := {
  le_fits : forall iu e, edge iu = Some e -> ed_before e = snd iu /\ Z.of_nat (fst iu) ∉ returned;
  le_news : forall i, chain_of news line (Z.of_nat i) =
    match remaining !! i with Some u => match edge (i, u) with Some e => [e] | None => [] end | None => [] end;
  le_nodup : NoDup extra;
  le_extra : forall i, i ∈ extra <->
    0 <= i /\ exists u e, remaining !! Z.to_nat i = Some u /\ edge (Z.to_nat i, u) = Some e /\ ed_returned e = true
}.
Lemma line_reads_on original groups ts news line units remaining returned edge extra :
  Forall (transition_ok original groups) ts -> Forall (fun c => 0 <= c) units ->
  line_state ts groups (line, units) = Ok (line, remaining, returned) -> line_edges news line remaining returned edge extra ->
  line_state (ts ++ news) groups (line, units) = Ok (line, apply_edges edge remaining, sort_stable Z.gtb (returned ++ extra)).
Proof.
  intros F H0 H [L1 L2 L3 L4]. apply line_state_iff in H as (us & Hus & [= -> ->]).
  by apply (line_extends original groups ts news line units us edge F H0 Hus L1 L2 extra L3 L4).
Qed.
Lemma line_stays groups ts news line units out : (forall i, chain_of news line (Z.of_nat i) = []) ->
  line_state ts groups (line, units) = Ok out -> line_state (ts ++ news) groups (line, units) = Ok out.
Proof.
  intros N H. apply line_state_iff in H as (us & Hus & ->). apply line_state_iff. exists us. split; [|done].
  apply map_result_Forall2 in Hus. apply map_result_Forall2. eapply Forall2_impl; [exact Hus|]. intros iu cb. by apply unit_unchanged.
Qed.

Record Entry := {
  en_row : EditFundingHistoryRow; en_line : string; en_returns : bool; en_changes : list EditFundingUnitChange;
  en_digest : option (string * string); en_envelope : json
}.
Definition entry_ok (r : EditFundingRedemption) (original : UnitVectors) (groups : list LegacyGroup) (en : Entry) : Prop :=
  posted r original groups (en_line en) (en_row en) (en_returns en) (en_changes en) (en_digest en) (en_envelope en).
Definition entry_edges (en : Entry) : list Transition := map (edge_of (en_returns en) (en_line en)) (en_changes en).

Lemma entries_read r original groups ens : Forall (entry_ok r original groups) ens ->
  modern_of (map en_row ens) = map (fun en => (en_row en, en_envelope en)) ens /\
  Forall (row_ok r original) (map en_row ens) /\ Forall (fun row => is_legacy row = false) (map en_row ens) /\
  Forall (fun i => item_identified r i = true /\ item_conserves original groups i = true) (modern_of (map en_row ens)) /\
  concat (map (item_edges original groups) (modern_of (map en_row ens))) = concat (map entry_edges ens) /\
  omap item_digest (modern_of (map en_row ens)) = omap en_digest ens.
Proof.
  induction 1 as [|en ens [P1 P2 P3 P4 P5 P6] _ (I1 & I2 & I3 & I4 & I5 & I6)]; [repeat split; constructor|].
  assert (M : modern_of (map en_row (en :: ens)) = (en_row en, en_envelope en) :: modern_of (map en_row ens)).
  { unfold modern_of. cbn [map omap list_omap]. by rewrite P2. }
  rewrite M. cbn [map concat omap list_omap]. rewrite P5, I5, P6, <- I1, <- I6.
  split; [done|]. split; [by constructor|]. split; [constructor; [unfold is_legacy; by rewrite P2|done]|]. split; [by constructor|]. split; [done|].
  by destruct (en_digest en).
Qed.

(** The history with the entries posted, read as [lines']. *)
Lemma history_reads_on r original h lines lines' ens : proves r original h lines -> Forall (entry_ok r original (groups_of h)) ens ->
  unseen hr_id [] (h ++ map en_row ens) -> unseen hr_idempotencyKey [] (h ++ map en_row ens) ->
  consistent (omap item_digest (modern_of h) ++ omap en_digest ens) ->
  Forall2 (fun e l => line_state (edges_of original h ++ concat (map entry_edges ens)) (groups_of h) e = Ok l) original lines' ->
  Forall (fun a => 0 <= a) (map (fun en => hr_amount (en_row en)) ens) -> 0 <= sumZ (concat (map (fun l => snd (fst l)) lines')) ->
  sumZ (map hr_amount h) + sumZ (map (fun en => hr_amount (en_row en)) ens) + sumZ (concat (map (fun l => snd (fst l)) lines')) = er_amount r ->
  proves r original (h ++ map en_row ens) lines'.
Proof.
  intros P E U1 U2 C L A0 N T. destruct (entries_read _ _ _ _ E) as (I1 & I2 & I3 & I4 & I5 & I6).
  assert (S : sumZ (map hr_amount (h ++ map en_row ens)) = sumZ (map hr_amount h) + sumZ (map (fun en => hr_amount (en_row en)) ens)).
  { by rewrite map_app, sumZ_app, map_map. }
  apply (proves_extends r original h lines); try done.
  - by rewrite I6.
  - rewrite I5. by apply map_result_Forall2.
  - rewrite S. pose proof (pv_restored _ _ _ _ P). pose proof (sumZ_nonneg _ A0). lia.
  - rewrite S. lia.
Qed.

(** ** The state a reading leaves *)

Lemma readState_complete r h complete rs : readState r h complete = Ok rs -> complete = true.
Proof. destruct complete; [done|]. unfold readState. intros H. inv_ok. Qed.

(** A line of the state, with its vector and its reading. *)
Record line_of (r : EditFundingRedemption) (original : UnitVectors) (h : list EditFundingHistoryRow) (lines : list (string * list Z * list Z))
    (line : string) (units remaining returned : list Z) : Prop := {
  lo_units : assoc_last line original = Some units;
  lo_line : (line, remaining, returned) ∈ lines;
  lo_remaining : assoc_last line (map fst lines) = Some remaining;
  lo_returned : assoc_last line (map (fun l => (fst (fst l), snd l)) lines) = Some returned;
  lo_state : line_state (edges_of original h) (groups_of h) (line, units) = Ok (line, remaining, returned);
  lo_vector : vector_ok (line, units);
  lo_between : Forall2 (fun u k => 0 <= k <= u) units remaining;
  lo_legacy : forall i, 0 <= i < Z.of_nat (legacy_returned (groups_of h) line) -> i ∈ returned;
  lo_length : length units = length remaining
}.
Lemma line_state_name ts groups e l : line_state ts groups e = Ok l -> fst (fst l) = fst e.
Proof. destruct e as [line units]. intros H. by apply line_state_iff in H as (us & _ & ->). Qed.
Lemma lines_names r original h lines : proves r original h lines -> map (fun l => fst (fst l)) lines = map fst original.
Proof.
  intros P. pose proof (proj1 (map_result_Forall2 _ _ _) (pv_lines _ _ _ _ P)) as F. clear P.
  induction F as [|e l es ls H _ IH]; [done|]. cbn. by rewrite IH, (line_state_name _ _ _ _ H).
Qed.
Lemma line_of_elem r original h lines l : proves r original h lines -> l ∈ lines ->
  exists units, line_of r original h lines (fst (fst l)) units (snd (fst l)) (snd l).
Proof.
  intros P Hl. pose proof (original_units_ok _ _ (pv_original _ _ _ _ P)) as R.
  pose proof (proj1 (map_result_Forall2 _ _ _) (pv_lines _ _ _ _ P)) as F.
  pose proof Hl as Hl'. apply list_elem_of_lookup in Hl' as [k Hk]. destruct (Forall2_lookup_r _ _ _ _ _ F Hk) as ([line units] & Hu & E).
  pose proof (lines_names _ _ _ _ P) as N. pose proof (line_state_name _ _ _ _ E) as El. cbn in El.
  pose proof (ro_lines _ _ R) as ND. rewrite <- N in ND.
  destruct l as [[line' remaining] returned]. cbn [fst snd] in *. subst line'. exists units.
  assert (V : vector_ok (line, units)) by (pose proof (ro_vectors _ _ R) as V; rewrite Forall_lookup in V; by eapply V).
  pose proof E as E'. apply line_state_iff in E' as (us & Hus & [= Er Et]).
  assert (LR : line_reading (legacy_returned (groups_of h) line) units us).
  { eapply units_reading; [by eapply edges_ok| |done]. eapply Forall_impl; [exact (proj2 (proj2 V))|]. cbn. lia. }
  split; try done.
  - apply assoc_nodup; [apply R|]. by eapply list_elem_of_lookup_2.
  - apply assoc_nodup; [by rewrite map_map|]. apply list_elem_of_fmap. by exists (line, remaining, returned).
  - apply assoc_nodup; [by rewrite map_map|]. apply list_elem_of_fmap. by exists (line, remaining, returned).
  - rewrite Er. apply LR.
  - intros i Hi. rewrite Et, sort_stable_perm. apply returned_units_elem. by left.
  - rewrite Er. by apply (Forall2_length _ _ _ (lr_between _ _ _ LR)).
Qed.
Lemma line_of_name r original h lines line remaining : proves r original h lines -> assoc_last line (map fst lines) = Some remaining ->
  exists units returned, line_of r original h lines line units remaining returned.
Proof.
  intros P H. apply assoc_last_elem, list_elem_of_fmap in H as (l & E & Hl). destruct (line_of_elem _ _ _ _ _ P Hl) as (units & L).
  exists units, (snd l). destruct l as [[? ?] ?]. cbn in *. by injection E as -> ->.
Qed.

(** *** Replacing the amounts of some units *)

Lemma sumZ_set l i x y : l !! i = Some x -> sumZ (<[i:=y]> l) = sumZ l - x + y.
Proof.
  revert i. induction l as [|z l IH]; intros [|i] H; [done|done| |].
  - injection H as ->. cbn. lia.
  - change (<[S i:=y]> (z :: l)) with (z :: <[i:=y]> l). rewrite !sumZ_cons, (IH _ H). lia.
Qed.
Definition starts (l : list Z) (c : EditFundingUnitChange) : Prop := 0 <= uc_index c /\ l !! Z.to_nat (uc_index c) = Some (uc_before c).
Lemma set_unit_lookup cs : forall l i, NoDup (map uc_index cs) -> Forall (starts l) cs ->
  fold_left set_unit cs l !! i = match List.find (fun c => uc_index c =? Z.of_nat i) cs with Some c => Some (uc_after c) | None => l !! i end.
Proof.
  induction cs as [|c cs IH]; intros l i N F; [done|]. cbn [map] in N. apply NoDup_cons in N as [Nc N]. inversion F as [|? ? [H0 Hc] F']; subst.
  cbn [fold_left List.find]. rewrite IH; [|done|].
  - destruct (Z.eqb_spec (uc_index c) (Z.of_nat i)) as [E|E].
    + assert (Ef : List.find (fun c0 => uc_index c0 =? Z.of_nat i) cs = None).
      { destruct (List.find _ cs) as [c'|] eqn:Ef; [|done]. apply List.find_some in Ef as [Hin E']. apply Z.eqb_eq in E'. destruct Nc.
        apply list_elem_of_fmap. exists c'. split; [congruence|]. by apply list_elem_of_In. }
      rewrite Ef. unfold set_unit. rewrite E, Nat2Z.id in *. apply list_lookup_insert_eq. by apply lookup_lt_Some in Hc.
    + destruct (List.find _ cs); [done|]. unfold set_unit. apply list_lookup_insert_ne. lia.
  - rewrite Forall_forall in *. intros c' Hc'. destruct (F' _ Hc') as [H0' Hl]. split; [done|]. unfold set_unit. rewrite list_lookup_insert_ne; [done|].
    intros E. apply Nc, list_elem_of_fmap. exists c'. split; [lia|done].
Qed.
Lemma set_unit_sum cs : forall l, NoDup (map uc_index cs) -> Forall (starts l) cs ->
  sumZ (fold_left set_unit cs l) = sumZ l - sumZ (map change_cents cs).
Proof.
  induction cs as [|c cs IH]; intros l N F; [cbn; lia|]. cbn [map] in N. apply NoDup_cons in N as [Nc N]. inversion F as [|? ? [H0 Hc] F']; subst.
  cbn [fold_left map sumZ]. rewrite IH; [|done|].
  - unfold set_unit. rewrite (sumZ_set _ _ _ _ Hc). unfold change_cents. lia.
  - rewrite Forall_forall in *. intros c' Hc'. destruct (F' _ Hc') as [H0' Hl]. split; [done|]. unfold set_unit. rewrite list_lookup_insert_ne; [done|].
    intros E. apply Nc, list_elem_of_fmap. exists c'. split; [lia|done].
Qed.
Lemma sum_lines_update (f : list Z -> list Z) line rem d (ls : list (string * list Z)) :
  NoDup (map fst ls) -> (line, rem) ∈ ls -> sumZ (f rem) = sumZ rem - d ->
  sumZ (concat (map snd (set_where (fun e => String.eqb (fst e) line) (fun e => (fst e, f (snd e))) ls))) = sumZ (concat (map snd ls)) - d.
Proof.
  intros N H E. induction ls as [|[k v] ls IH]; [by apply elem_of_nil in H|]. cbn [map] in N. apply NoDup_cons in N as [Nk N].
  unfold set_where in *. cbn [map fst snd concat]. rewrite !sumZ_app. apply elem_of_cons in H as [[= <- <-]|H].
  - rewrite String.eqb_refl. cbn [fst snd]. rewrite E.
    assert (Id : map (fun r0 : string * list Z => if String.eqb (fst r0) line then (fst r0, f (snd r0)) else r0) ls = ls).
    { transitivity (map id ls); [|apply map_id]. apply map_ext_in. intros [k' v'] Hin. cbn. destruct (String.eqb_spec k' line) as [->|]; [|done]. destruct Nk.
      apply list_elem_of_fmap. exists (line, v'). split; [done|]. by apply list_elem_of_In. }
    rewrite Id. lia.
  - rewrite (proj2 (String.eqb_neq k line)) by (intros ->; apply Nk, list_elem_of_fmap; by exists (line, rem)). cbn [fst snd].
    rewrite (IH N H). lia.
Qed.

(** ** Returned units *)

Lemma return_changes_ok remaining returned idx : forall seen cs, return_changes remaining returned seen idx = Ok cs ->
  NoDup (map uc_index cs) /\ (forall c, c ∈ cs -> uc_index c ∉ seen) /\
  Forall (fun c => starts remaining c /\ uc_after c = 0 /\ is_safe (uc_index c) = true /\ uc_index c ∉ returned) cs.
Proof.
  induction idx as [|[i|] idx IH]; intros seen cs H; cbn [return_changes] in H.
  - inv_ok. split; [constructor|]. split; [by intros c ?%elem_of_nil|constructor].
  - inv_ok. destruct (IH _ _ Em) as (N & D & F). bool_props.
    repeat match goal with E : existsb _ _ = false |- _ => apply existsb_index_false in E | E : returned_has _ _ = false |- _ => apply existsb_index_false in E end.
    split; [cbn; constructor; [|done]|split].
    + intros Hin. apply list_elem_of_fmap in Hin as (c & E & Hc). apply (D _ Hc). rewrite <- E. left.
    + intros c [->|Hc]%elem_of_cons; [done|]. intros Hs. apply (D _ Hc). by right.
    + constructor; [|done]. split; [|done]. split; [done|]. cbn [uc_index uc_before].
      destruct (lookup_lt_is_Some_2 remaining (Z.to_nat i) ltac:(lia)) as [x Hx]. by rewrite Hx.
  - by apply IH.
Qed.

Definition return_edge (cs : list EditFundingUnitChange) (iu : nat * Z) : option Edge :=
  if existsb (Z.eqb (Z.of_nat (fst iu))) (map uc_index cs) then Some {| ed_before := snd iu; ed_after := 0; ed_returned := true |} else None.
Lemma chain_of_returns line remaining cs i : NoDup (map uc_index cs) -> Forall (fun c => starts remaining c /\ uc_after c = 0) cs ->
  chain_of (map (edge_of true line) cs) line (Z.of_nat i) =
  match remaining !! i with Some u => match return_edge cs (i, u) with Some e => [e] | None => [] end | None => [] end.
Proof.
  induction cs as [|c cs IH]; intros N F; [by destruct (remaining !! i)|]. cbn [map] in N. apply NoDup_cons in N as [Nc N].
  inversion F as [|? ? [[H0 Hc] Ha] F']; subst. specialize (IH N F'). unfold chain_of in IH |- *. cbn [map List.filter edge_of tr_line tr_index].
  rewrite String.eqb_refl. cbn [andb]. unfold return_edge in *. cbn [fst snd map existsb] in *.
  destruct (Z.eqb_spec (uc_index c) (Z.of_nat i)) as [E|E].
  - rewrite E, Nat2Z.id in Hc. rewrite <- E in IH |- *. rewrite Z.eqb_refl. cbn [orb]. rewrite Hc in *. cbn [map]. rewrite IH.
    rewrite (proj2 (existsb_index_false (uc_index c) _) Nc). unfold edge_of. cbn. by rewrite Ha.
  - rewrite (proj2 (Z.eqb_neq (Z.of_nat i) (uc_index c))) by lia. cbn [orb]. exact IH.
Qed.
Lemma set_returns remaining cs : NoDup (map uc_index cs) -> Forall (fun c => starts remaining c /\ uc_after c = 0) cs ->
  fold_left set_unit cs remaining = apply_edges (return_edge cs) remaining.
Proof.
  intros N F. apply list_eq. intros i. rewrite set_unit_lookup; [|done|eapply Forall_impl; [exact F|]; by intros c [? _]].
  unfold apply_edges. rewrite list_lookup_fmap.
  destruct (List.find (fun c => uc_index c =? Z.of_nat i) cs) as [c|] eqn:Ef.
  - apply List.find_some in Ef as [Hc E]. apply Z.eqb_eq in E. apply list_elem_of_In in Hc. rewrite Forall_forall in F.
    destruct (F _ Hc) as [[H0 Hl] Ha]. rewrite E, Nat2Z.id in Hl.
    assert (Hi : indexed remaining !! i = Some (i, uc_before c)) by (apply indexed_lookup; by eexists). rewrite Hi. cbn. unfold return_edge. cbn.
    rewrite (proj2 (existsb_index (Z.of_nat i) _)); [by rewrite Ha|]. apply list_elem_of_fmap. by exists c.
  - destruct (indexed remaining !! i) as [p|] eqn:Ei.
    + apply indexed_lookup in Ei as (x & Hx & ->). cbn. unfold return_edge. cbn. rewrite (proj2 (existsb_index_false (Z.of_nat i) _)); [done|].
      intros Hin. apply list_elem_of_fmap in Hin as (c & E & Hc). apply list_elem_of_In, (List.find_none _ _ Ef c) in Hc.
      apply Z.eqb_neq in Hc. lia.
    + destruct (remaining !! i) as [x|] eqn:Ex; [|done]. exfalso. assert (indexed remaining !! i = Some (i, x)) by (apply indexed_lookup; by eexists). congruence.
Qed.

Lemma returns_fit r original h lines line units remaining returned cs : line_of r original h lines line units remaining returned ->
  Forall (fun c => starts remaining c /\ uc_after c = 0 /\ is_safe (uc_index c) = true /\ uc_index c ∉ returned) cs ->
  Forall (change_fits true (legacy_returned (groups_of h) line) (length units)) cs.
Proof.
  intros L F. eapply Forall_impl; [exact F|]. intros c ([H0 Hl] & Ha & Hs & Hr).
  pose proof (lo_between _ _ _ _ _ _ _ _ L) as B. destruct (Forall2_lookup_r _ _ _ _ _ B Hl) as (u & Hu & Hb).
  destruct (lo_vector _ _ _ _ _ _ _ _ L) as (_ & _ & V). cbn in V. rewrite Forall_lookup in V. specialize (V _ _ Hu). cbn in V.
  split; try done; try lia. split.
  - destruct (Z.le_gt_cases (Z.of_nat (legacy_returned (groups_of h) line)) (uc_index c)); [done|]. exfalso. apply Hr.
    apply (lo_legacy _ _ _ _ _ _ _ _ L). lia.
  - apply lookup_lt_Some in Hu. lia.
Qed.
Lemma returns_edges line remaining returned cs : NoDup (map uc_index cs) ->
  Forall (fun c => starts remaining c /\ uc_after c = 0 /\ is_safe (uc_index c) = true /\ uc_index c ∉ returned) cs ->
  line_edges (map (edge_of true line) cs) line remaining returned (return_edge cs) (map uc_index cs).
Proof.
  intros N F. assert (F' : Forall (fun c => starts remaining c /\ uc_after c = 0) cs).
  { eapply Forall_impl; [exact F|]. by intros c (? & ? & _). }
  split; [| |done|].
  - intros iu e. unfold return_edge. destruct (existsb _ _) eqn:E; [|done]. intros [= <-]. split; [done|].
    apply existsb_index, list_elem_of_fmap in E as (c & -> & Hc). rewrite Forall_forall in F. by apply F.
  - intros i. by apply chain_of_returns.
  - intros i. split.
    + intros Hi. apply list_elem_of_fmap in Hi as (c & -> & Hc). rewrite Forall_forall in F. destruct (F _ Hc) as ([H0 Hl] & _).
      split; [done|]. eexists _, _. split; [exact Hl|]. unfold return_edge. cbn. rewrite Z2Nat.id by done.
      rewrite (proj2 (existsb_index (uc_index c) _)) by (apply list_elem_of_fmap; by exists c). done.
    + intros (H0 & u & e & _ & He & _). unfold return_edge in He. cbn in He. destruct (existsb _ _) eqn:E; [|done].
      rewrite Z2Nat.id in E by done. by apply existsb_index in E.
Qed.

Lemma returned_line_nonempty (v : UnitVectors) line cs (F : Forall (starts (units_of v line)) cs) : cs <> [] ->
  assoc_last line v = Some (units_of v line).
Proof.
  intros Hn. destruct cs as [|c cs]; [done|]. inversion F as [|? ? [_ Hc] _]; subst. unfold units_of in *.
  by destruct (assoc_last line v).
Qed.

(** *** Every line, after the new rows *)

Lemma no_edges news line remaining returned : (forall i, chain_of news line (Z.of_nat i) = []) ->
  line_edges news line remaining returned (fun _ => None) [].
Proof.
  intros H. split; [done| |constructor|].
  - intros i. rewrite H. by destruct (remaining !! i).
  - intros i. split; [by intros ?%elem_of_nil|]. by intros (_ & u & e & _ & [=] & _).
Qed.
Lemma apply_no_edges l : apply_edges (fun _ => None) l = l.
Proof.
  apply list_eq. intros i. unfold apply_edges. rewrite list_lookup_fmap. destruct (indexed l !! i) as [p|] eqn:E.
  - by apply indexed_lookup in E as (x & -> & ->).
  - destruct (l !! i) as [x|] eqn:Ex; [|done]. exfalso. assert (indexed l !! i = Some (i, x)) by (apply indexed_lookup; by eexists). congruence.
Qed.

Definition line_update (edge : string -> nat * Z -> option Edge) (extra : string -> list Z) (l : string * list Z * list Z) : string * list Z * list Z :=
  (fst (fst l), apply_edges (edge (fst (fst l))) (snd (fst l)), sort_stable Z.gtb (snd l ++ extra (fst (fst l)))).
Lemma lines_read_on r original h lines news edge extra : proves r original h lines ->
  (forall l, l ∈ lines -> line_edges news (fst (fst l)) (snd (fst l)) (snd l) (edge (fst (fst l))) (extra (fst (fst l)))) ->
  Forall2 (fun e l => line_state (edges_of original h ++ news) (groups_of h) e = Ok l) original (map (line_update edge extra) lines).
Proof.
  intros P H. apply Forall2_fmap_r. pose proof (proj1 (map_result_Forall2 _ _ _) (pv_lines _ _ _ _ P)) as F.
  apply Forall2_same_length_lookup_2; [by apply Forall2_length in F|]. intros k [line units] l Hu Hl. pose proof (Forall2_lookup_lr _ _ _ _ _ _ F Hu Hl) as E.
  pose proof (line_state_name _ _ _ _ E) as El. cbn in El. apply list_elem_of_lookup_2 in Hl. specialize (H l Hl).
  destruct l as [[line' remaining] returned]. cbn [fst snd] in *. subst line'.
  eapply line_reads_on; [by eapply edges_ok| |exact E|exact H].
  pose proof (original_units_ok _ _ (pv_original _ _ _ _ P)) as R. pose proof (ro_vectors _ _ R) as V. rewrite Forall_lookup in V.
  destruct (V _ _ Hu) as (_ & _ & V'). eapply Forall_impl; [exact V'|]. cbn. lia.
Qed.
Lemma update_nonneg r original h lines news edge extra : proves r original h lines ->
  (forall l, l ∈ lines -> line_edges news (fst (fst l)) (snd (fst l)) (snd l) (edge (fst (fst l))) (extra (fst (fst l)))) ->
  (forall line iu e, edge line iu = Some e -> 0 <= ed_after e) ->
  0 <= sumZ (concat (map (fun l => snd (fst l)) (map (line_update edge extra) lines))).
Proof.
  intros P H Hn. apply sumZ_nonneg, Forall_concat, Forall_map, Forall_map, Forall_forall. intros l Hl. unfold line_update. cbn [fst snd].
  unfold apply_edges. apply Forall_map, Forall_forall. intros iu Hi. cbn. destruct (edge _ iu) as [e|] eqn:E; [by eapply Hn|].
  apply indexed_elem in Hi. destruct (line_of_elem _ _ _ _ _ P Hl) as (units & L). destruct (Forall2_lookup_r _ _ _ _ _ (lo_between _ _ _ _ _ _ _ _ L) Hi) as (u & _ & ?).
  cbn in *. lia.
Qed.
Lemma sorted_returned r original h lines l : proves r original h lines -> l ∈ lines -> sort_stable Z.gtb (snd l ++ []) = snd l.
Proof.
  intros P Hl. rewrite app_nil_r. destruct (line_of_elem _ _ _ _ _ P Hl) as (units & L). pose proof (lo_state _ _ _ _ _ _ _ _ L) as E.
  apply line_state_iff in E as (us & Hus & [= _ ->]).
  assert (N : NoDup (returned_units (legacy_returned (groups_of h) (fst (fst l))) us)).
  { apply returned_units_NoDup. destruct (lo_vector _ _ _ _ _ _ _ _ L) as (_ & _ & V).
    eapply (units_reading original); [by eapply edges_ok| |exact Hus]. eapply Forall_impl; [exact V|]. cbn. lia. }
  apply sort_gtb_perm; [apply sort_stable_perm|by rewrite sort_stable_perm].
Qed.

(** The update a unit return makes: one line, the others as they are. *)
Section OneLine.
Context (r : EditFundingRedemption) (original : UnitVectors) (h : list EditFundingHistoryRow) (lines : list (string * list Z * list Z)).
Context (P : proves r original h lines) (line : string) (units remaining returned : list Z) (L : line_of r original h lines line units remaining returned).
Context (cs : list EditFundingUnitChange) (N : NoDup (map uc_index cs)).
Context (F : Forall (fun c => starts remaining c /\ uc_after c = 0 /\ is_safe (uc_index c) = true /\ uc_index c ∉ returned) cs).

Definition one_edge (l : string) : nat * Z -> option Edge := if String.eqb l line then return_edge cs else fun _ => None.
Definition one_extra (l : string) : list Z := if String.eqb l line then map uc_index cs else [].
Lemma one_F : Forall (fun c => starts remaining c /\ uc_after c = 0) cs.
Proof. eapply Forall_impl; [exact F|]. by intros c (? & ? & _). Qed.
Lemma line_is l : l ∈ lines -> fst (fst l) = line -> snd (fst l) = remaining /\ snd l = returned.
Proof.
  intros Hl E. destruct l as [[line' rem] ret]. cbn in *. subst line'.
  assert (K1 : assoc_last line (map fst lines) = Some rem).
  { apply assoc_nodup; [|apply list_elem_of_fmap; by exists (line, rem, ret)]. rewrite map_map, (lines_names _ _ _ _ P). apply (original_units_ok _ _ (pv_original _ _ _ _ P)). }
  assert (K2 : assoc_last line (map (fun l => (fst (fst l), snd l)) lines) = Some ret).
  { apply assoc_nodup; [|apply list_elem_of_fmap; by exists (line, rem, ret)]. rewrite map_map. cbn. rewrite (lines_names _ _ _ _ P). apply (original_units_ok _ _ (pv_original _ _ _ _ P)). }
  rewrite (lo_remaining _ _ _ _ _ _ _ _ L) in K1. rewrite (lo_returned _ _ _ _ _ _ _ _ L) in K2. by simplify_eq.
Qed.
Lemma one_edges l : l ∈ lines -> line_edges (map (edge_of true line) cs) (fst (fst l)) (snd (fst l)) (snd l) (one_edge (fst (fst l))) (one_extra (fst (fst l))).
Proof.
  intros Hl. unfold one_edge, one_extra. destruct (String.eqb_spec (fst (fst l)) line) as [E|E].
  - destruct (line_is l Hl E) as [-> ->]. rewrite E. by apply returns_edges.
  - apply no_edges. intros i. by apply chain_of_other.
Qed.
Lemma one_nonneg l iu e : one_edge l iu = Some e -> 0 <= ed_after e.
Proof. unfold one_edge, return_edge. destruct (String.eqb _ _); [|done]. destruct (existsb _ _); [|done]. by intros [= <-]. Qed.

Lemma one_remaining : map fst (map (line_update one_edge one_extra) lines) =
  set_where (fun e => String.eqb (fst e) line) (fun e => (fst e, fold_left set_unit cs (snd e))) (map fst lines).
Proof.
  unfold set_where. rewrite !map_map. apply map_ext_in. intros l Hl. apply list_elem_of_In in Hl. unfold line_update, one_edge. cbn [fst snd].
  destruct (String.eqb_spec (fst (fst l)) line) as [E|E].
  - destruct (line_is l Hl E) as [-> _]. by rewrite (set_returns _ _ N one_F).
  - rewrite apply_no_edges. by destruct l as [[? ?] ?].
Qed.
Lemma one_returned : map (fun l => (fst (fst l), snd l)) (map (line_update one_edge one_extra) lines) =
  set_where (fun e => String.eqb (fst e) line) (fun e => (fst e, sort_stable Z.gtb (snd e ++ map uc_index cs))) (map (fun l => (fst (fst l), snd l)) lines).
Proof.
  unfold set_where. rewrite !map_map. apply map_ext_in. intros l Hl. apply list_elem_of_In in Hl. unfold line_update, one_extra. cbn [fst snd].
  destruct (String.eqb_spec (fst (fst l)) line) as [E|E]; [done|]. by rewrite (sorted_returned _ _ _ _ _ P Hl).
Qed.
Lemma one_sum : sumZ (concat (map (fun l => snd (fst l)) (map (line_update one_edge one_extra) lines))) =
  sumZ (concat (map (fun l => snd (fst l)) lines)) - sumZ (map change_cents cs).
Proof.
  rewrite <- (map_map fst snd), <- (map_map fst snd lines), one_remaining.
  apply (sum_lines_update (fold_left set_unit cs) line remaining).
  - rewrite map_map, (lines_names _ _ _ _ P). apply (original_units_ok _ _ (pv_original _ _ _ _ P)).
  - apply assoc_last_elem. apply L.
  - apply set_unit_sum; [done|]. eapply Forall_impl; [exact one_F|]. by intros c [? _].
Qed.
Lemma one_cents : map uc_before cs = map change_cents cs.
Proof.
  apply map_ext_in. intros c Hin. apply list_elem_of_In in Hin. pose proof one_F as F2. rewrite Forall_forall in F2. destruct (F2 _ Hin) as [_ Ha].
  unfold change_cents. lia.
Qed.

(** Any row that posts these changes is read as the update. *)
Lemma one_reads_on en : en_line en = line -> en_returns en = true -> en_changes en = cs -> en_digest en = None ->
  entry_ok r original (groups_of h) en -> hr_amount (en_row en) = sumZ (map change_cents cs) -> 0 <= sumZ (map change_cents cs) ->
  NoDup (map hr_id h ++ [hr_id (en_row en)]) -> NoDup (map hr_idempotencyKey h ++ [hr_idempotencyKey (en_row en)]) ->
  proves r original (h ++ [en_row en]) (map (line_update one_edge one_extra) lines).
Proof.
  intros E1 E2 E3 E4 Ok1 A A0 U1 U2. apply (history_reads_on r original h lines _ [en] P).
  - by constructor.
  - split; [cbn; by rewrite map_app|]. by intros x _ ?%elem_of_nil.
  - split; [cbn; by rewrite map_app|]. by intros x _ ?%elem_of_nil.
  - cbn. rewrite E4, app_nil_r. apply P.
  - cbn [map concat]. rewrite app_nil_r. unfold entry_edges. rewrite E1, E2, E3. apply (lines_read_on r original h lines); [done|]. apply one_edges.
  - cbn. constructor; [lia|constructor].
  - apply (update_nonneg r original h lines (map (edge_of true line) cs)); [done|apply one_edges|apply one_nonneg].
  - cbn [map sumZ]. rewrite one_sum, A. pose proof (pv_total _ _ _ _ P). lia.
Qed.
End OneLine.

(** What a unit return that posts something has checked. *)
Record unit_planned (r : EditFundingRedemption) (history : list EditFundingHistoryRow) (op : UnitOperation) (line : string) (indexes : list (option Z))
    (p : EditFundingPosting) (original : UnitVectors) (lines : list (string * list Z * list Z)) (cs : list EditFundingUnitChange)
    (units remaining returned : list Z) : Prop := {
  up_proves : proves r original history lines;
  up_line : line_of r original history lines line units remaining returned;
  up_changes : return_changes remaining returned [] indexes = Ok cs;
  up_some : cs <> [];
  up_distinct : NoDup (map uc_index cs);
  up_starts : Forall (fun c => starts remaining c /\ uc_after c = 0 /\ is_safe (uc_index c) = true /\ uc_index c ∉ returned) cs;
  up_uuid : is_uuid line = true;
  up_operation : one_of_texts ["refund"; "manual_return"]%string (uo_kind op) = true /\ valid_operation (uo_kind op) (uo_id op) = true;
  up_money : money (sumZ (map change_cents cs)) = true;
  up_posting : p = posting r line (if String.eqb (uo_kind op) "refund" then Some (uo_id op) else None) (Z.of_nat (length cs)) (sumZ (map change_cents cs))
    (if String.eqb (uo_kind op) "refund" then refund_key (uo_id op) line else manual_key (uo_id op))
    (unit_envelope r line (uo_kind op) (uo_id op) cs) (map change_cents cs)
}.
Lemma unit_plan_ok r history complete op line indexes p s :
  planCreditUnitReturn r history complete op line indexes = Ok (Some p, s) ->
  exists original lines cs units remaining returned, unit_planned r history op line indexes p original lines cs units remaining returned /\
    s = {| fs_remaining := set_where (fun e => String.eqb (fst e) line) (fun e => (fst e, fold_left set_unit cs (snd e))) (map fst lines);
           fs_returnedIndexes := set_where (fun e => String.eqb (fst e) line) (fun e => (fst e, sort_stable Z.gtb (snd e ++ map uc_index cs)))
             (map (fun l => (fst (fst l), snd l)) lines);
           fs_redeemed := er_amount r; fs_restored := sumZ (map hr_amount history) + sumZ (map change_cents cs);
           fs_retained := sumZ (concat (map (fun l => snd (fst l)) lines)) - sumZ (map change_cents cs) |}.
Proof.
  intros H. unfold planCreditUnitReturn in H. inv_ok. rename a into rs, a0 into cs. bool_props.
  match goal with E : readState _ _ complete = Ok rs |- _ => pose proof (readState_complete _ _ _ _ E) as ->; apply readState_iff in E as (original & lines & P & ->) end.
  cbn [state_of rs_state fs_remaining fs_returnedIndexes fs_redeemed fs_restored fs_retained] in *.
  destruct (is_nil cs) eqn:En; [done|]. assert (Hn : cs <> []) by (intros ->; done). clear En. inv_ok.
  match goal with E : sum _ _ = Ok _ |- _ => apply funding_sum_ok in E as [-> Hsum] end.
  match goal with E : return_changes _ _ _ _ = Ok cs |- _ => rename E into C; destruct (return_changes_ok _ _ _ _ _ C) as (N & _ & F) end.
  assert (A : assoc_last line (map fst lines) = Some (units_of (map fst lines) line)).
  { apply (returned_line_nonempty _ _ cs); [|done]. eapply Forall_impl; [exact F|]. by intros c [? _]. }
  destruct (line_of_name _ _ _ _ _ _ P A) as (units & returned & L).
  assert (Er : units_of (map (fun l => (fst (fst l), snd l)) lines) line = returned) by (unfold units_of; by rewrite (lo_returned _ _ _ _ _ _ _ _ L)).
  rewrite Er in F, C. rewrite (one_cents _ _ _ F) in *.
  match goal with E : keyFor _ = Ok ?x |- _ => assert (x = if String.eqb (uo_kind op) "refund" then refund_key (uo_id op) line else manual_key (uo_id op)) as -> by
    (unfold keyFor, unit_envelope in E; cbn in E; destruct (String.eqb (uo_kind op) "refund"); by injection E as <-) end.
  exists original, lines, cs, units, (units_of (map fst lines) line), returned. split; [|done]. split; try done. by apply money_spec.
Qed.
Lemma unit_changes_fit r history op line indexes p original lines cs units remaining returned :
  unit_planned r history op line indexes p original lines cs units remaining returned ->
  Forall (change_fits true (legacy_returned (groups_of history) line) (length units)) cs.
Proof. intros U. exact (returns_fit _ _ _ _ _ _ _ _ _ (up_line _ _ _ _ _ _ _ _ _ _ _ _ U) (up_starts _ _ _ _ _ _ _ _ _ _ _ _ U)). Qed.

(** A unit return that was planned and posted reads back as planned: with its
    row at the end of the history, reading gives exactly the state
    [planCreditUnitReturn] announced. *)
Theorem unit_return_reads_back r history complete op line indexes p s id :
  planCreditUnitReturn r history complete op line indexes = Ok (Some p, s) -> id <> EmptyString ->
  NoDup (map hr_id history ++ [id]) -> NoDup (map hr_idempotencyKey history ++ [po_idempotencyKey p]) ->
  readCreditFundingState r (history ++ [row_of_posting id p]) true = Ok s.
Proof.
  intros H Hid U1 U2. apply unit_plan_ok in H as (original & lines & cs & units & remaining & returned & U & ->). pose proof (unit_changes_fit _ _ _ _ _ _ _ _ _ _ _ _ U) as Fit.
  destruct U as [P L C Hn N F Hu [Ho1 Ho2] Hsum ->]. set (p := posting _ _ _ _ _ _ _ _) in *. set (env := unit_envelope r line (uo_kind op) (uo_id op) cs) in *.
  set (en := {| en_row := row_of_posting id p; en_line := line; en_returns := true; en_changes := cs; en_digest := None; en_envelope := stable env |}).
  assert (Ok1 : entry_ok r original (groups_of history) en).
  { by apply (unit_posted r original (groups_of history) (original_units_ok _ _ (pv_original _ _ _ _ P)) line units (lo_units _ _ _ _ _ _ _ _ L)). }
  pose proof (one_reads_on r original history lines P line units _ returned L cs N F en eq_refl eq_refl eq_refl eq_refl Ok1 eq_refl (proj1 (proj1 (money_spec _) Hsum)) U1 U2) as P'.
  unfold readCreditFundingState. change (row_of_posting id p) with (en_row en).
  rewrite (proj2 (readState_iff _ _ _) (ex_intro _ original (ex_intro _ _ (conj P' eq_refl)))).
  cbn [bind_result state_of rs_state]. rewrite (one_remaining r original history lines P line units _ returned L cs N F), (one_returned r original history lines P line cs),
    (one_sum r original history lines P line units _ returned L cs N F), map_app, sumZ_app. cbn. do 2 f_equal. lia.
Qed.

(** ** Planned edits *)

Section Edit.
Context (r : EditFundingRedemption) (editId digest : string).

(** A posting of the plan: one cause of one line. *)
Record Proto := { pr_line : string; pr_cause : Cause; pr_changes : list EditFundingUnitChange }.
Definition cause_quantity (cause : Cause) (cs : list EditFundingUnitChange) : Z :=
  match cause with quantity_return_cause => Z.of_nat (length cs) | unit_correction_cause => 0 end.
Definition proto_envelope (p : Proto) : json := edit_envelope r (cause_text (pr_cause p)) (pr_line p) editId digest (pr_changes p).
Definition proto_posting (p : Proto) : EditFundingPosting :=
  posting r (pr_line p) None (cause_quantity (pr_cause p) (pr_changes p)) (sumZ (map change_cents (pr_changes p)))
    (edit_key editId (er_id r) (pr_line p) (cause_text (pr_cause p))) (proto_envelope p) (map change_cents (pr_changes p)).
Definition proto_edges (p : Proto) : list Transition := map (edge_of (cause_returns (pr_cause p)) (pr_line p)) (pr_changes p).
Definition proto_entry (id : string) (p : Proto) : Entry :=
  {| en_row := row_of_posting id (proto_posting p); en_line := pr_line p; en_returns := cause_returns (pr_cause p); en_changes := pr_changes p;
     en_digest := Some (editId, digest); en_envelope := stable (proto_envelope p) |}.
Definition protos_of (line : string) (us : list TargetUnit) (remaining returned : list Z) : list Proto :=
  List.filter (fun p => negb (is_nil (pr_changes p)))
    (map (fun cause => {| pr_line := line; pr_cause := cause; pr_changes := flat_map (unit_changes us returned cause) (indexed remaining) |})
       [quantity_return_cause; unit_correction_cause]).

Lemma plan_cause_ok line us returned acc cause out : plan_cause r editId digest line us returned acc cause = Ok out ->
  let cs := flat_map (unit_changes us returned cause) (indexed (lp_units acc)) in
  lp_units out = fold_left set_unit cs (lp_units acc) /\
  lp_returned out = lp_returned acc ++ (if cause_returns cause then map uc_index cs else []) /\
  lp_postings out = lp_postings acc ++ (if is_nil cs then [] else [proto_posting {| pr_line := line; pr_cause := cause; pr_changes := cs |}]) /\
  (cs <> [] -> money (sumZ (map change_cents cs)) = true).
Proof.
  intros H cs. unfold plan_cause in H. fold cs in H. destruct (is_nil cs) eqn:En.
  - inv_ok. destruct cs; [|done]. cbn. rewrite app_nil_r. split; [done|]. split; [by destruct (cause_returns cause); rewrite app_nil_r|done].
  - inv_ok. apply funding_sum_ok in Em as [-> B]. unfold keyFor, edit_envelope in Em0. cbn in Em0. injection Em0 as <-. cbn.
    split; [done|]. split; [destruct cause; cbn; by rewrite ?app_nil_r|]. split; [done|]. intros _. by apply money_spec.
Qed.

Lemma plan_line_ok tlines s line p : plan_line r editId digest tlines s line = Ok p ->
  let us := target_units tlines line in let returned := units_of (fs_returnedIndexes s) line in let remaining := units_of (fs_remaining s) line in
  lp_units p = apply_edges (unit_edge us returned) remaining /\
  lp_returned p = returned ++ map uc_index (flat_map (unit_changes us returned quantity_return_cause) (indexed remaining)) /\
  lp_postings p = map proto_posting (protos_of line us remaining returned) /\
  Forall (fun pr => money (sumZ (map change_cents (pr_changes pr))) = true) (protos_of line us remaining returned).
Proof.
  intros H us returned remaining. unfold plan_line in H. fold us returned remaining in H. inv_ok. cbn [fold_result] in H. inv_ok.
  match goal with A : plan_cause _ _ _ _ _ _ _ quantity_return_cause = Ok ?x, B : plan_cause _ _ _ _ _ _ ?x unit_correction_cause = Ok _ |- _ =>
    apply plan_cause_ok in A as (A1 & A2 & A3 & A4); apply plan_cause_ok in B as (B1 & B2 & B3 & B4) end.
  cbn [lp_units lp_returned lp_postings] in *. rewrite (set_units _ remaining (changes_pointwise us returned _)) in A1. rewrite A1, second_pass in *.
  cbn [cause_returns] in *. rewrite app_nil_r in B2. rewrite B1, B2, B3, A2, A3.
  split; [apply two_passes|]. split; [done|]. unfold protos_of. cbn [map List.filter pr_changes].
  split; [|destruct (is_nil (flat_map (unit_changes us returned quantity_return_cause) (indexed remaining))) eqn:E1,
      (is_nil (flat_map (unit_changes us returned unit_correction_cause) (indexed remaining))) eqn:E2; cbn [negb]; repeat constructor; cbn [pr_changes];
      first [apply A4|apply B4]; intros E; by rewrite E in *].
  destruct (is_nil (flat_map (unit_changes us returned quantity_return_cause) (indexed remaining))),
    (is_nil (flat_map (unit_changes us returned unit_correction_cause) (indexed remaining))); reflexivity.
Qed.
End Edit.

(** *** The edges of a plan *)

Lemma chain_of_lines (g : string -> list Transition) ls line i : NoDup ls -> (forall l t, t ∈ g l -> tr_line t = l) ->
  chain_of (concat (map g ls)) line i = if decide (line ∈ ls) then chain_of (g line) line i else [].
Proof.
  intros N G. assert (O : forall l, l <> line -> chain_of (g l) line i = []).
  { intros l Hl. destruct (chain_of (g l) line i) as [|e es] eqn:E; [done|]. exfalso. assert (He : e ∈ chain_of (g l) line i) by (rewrite E; left).
    apply chain_elem in He as (t & Ht & <- & _). by apply Hl; symmetry; apply G. }
  induction ls as [|l ls IH]; [done|]. apply NoDup_cons in N as [Nl N]. cbn [map concat]. rewrite chain_of_app, (IH N).
  destruct (decide (l = line)) as [->|Hl].
  - destruct (decide (line ∈ ls)) as [?|_]; [done|]. destruct (decide (line ∈ line :: ls)) as [_|N']; [apply app_nil_r|]. destruct N'. left.
  - rewrite O by done. cbn. destruct (decide (line ∈ ls)), (decide (line ∈ l :: ls)) as [H|H]; try done; [destruct H; by right|].
    by apply elem_of_cons in H as [?|?].
Qed.
Lemma protos_edges line us remaining returned :
  concat (map proto_edges (protos_of line us remaining returned)) =
  map (edge_of true line) (flat_map (unit_changes us returned quantity_return_cause) (indexed remaining)) ++
  map (edge_of false line) (flat_map (unit_changes us returned unit_correction_cause) (indexed remaining)).
Proof.
  unfold protos_of. cbn [map List.filter pr_changes].
  destruct (flat_map (unit_changes us returned quantity_return_cause) (indexed remaining)) as [|c1 cs1];
    destruct (flat_map (unit_changes us returned unit_correction_cause) (indexed remaining)) as [|c2 cs2]; cbn [is_nil negb map concat]; rewrite ?app_nil_r; done.
Qed.
Lemma pointwise_indexes f l : pointwise f -> NoDup (map uc_index (flat_map f (indexed l))).
Proof.
  intros P. unfold indexed. generalize 0%nat. induction l as [|u l IH]; intros k; [constructor|]. cbn [length seq zip zip_with flat_map]. rewrite map_app.
  apply NoDup_app_disjoint; [|apply IH|].
  - destruct (P (k, u)) as [->|(c & -> & _)]; cbn; [constructor|]. constructor; [by intros ?%elem_of_nil|constructor].
  - intros i Hi Hj. destruct (P (k, u)) as [E|(c & E & Hc)]; rewrite E in Hi; cbn in Hi; [by apply elem_of_nil in Hi|].
    apply list_elem_of_singleton in Hi. cbn in Hc. apply list_elem_of_fmap in Hj as (c' & -> & Hc'). apply list_elem_of_In, in_flat_map in Hc' as ([k' u'] & Hin & Hc').
    apply list_elem_of_In, elem_of_zip_l, elem_of_seq in Hin. destruct (P (k', u')) as [E'|(c2 & E' & Hc2)]; rewrite E' in Hc'; [done|].
    destruct Hc' as [->|[]]. cbn in Hc2. lia.
Qed.
Lemma changes_elem us returned cause l c : c ∈ flat_map (unit_changes us returned cause) (indexed l) ->
  exists k u, l !! k = Some u /\ unit_changes us returned cause (k, u) = [c] /\ uc_index c = Z.of_nat k /\ uc_before c = u /\ starts l c.
Proof.
  intros H. apply list_elem_of_In, in_flat_map in H as ([k u] & Hin & Hc). apply list_elem_of_In, indexed_elem in Hin. cbn in Hin.
  exists k, u. split; [done|]. destruct (changes_pointwise us returned cause (k, u)) as [E|(c' & E & Hi)]; rewrite E in Hc; [done|].
  destruct Hc as [->|[]]. cbn in Hi. split; [done|]. split; [done|].
  assert (B : uc_before c = u).
  { unfold unit_changes in E. cbn in E. destruct (returned_has _ _); [done|]. destruct cause, (wanted _ _) as [t|]; try done; [by injection E as <-|].
    destruct (_ <? _); [|done]. by injection E as <-. }
  split; [done|]. unfold starts. rewrite Hi, Nat2Z.id, B. split; [lia|done].
Qed.

Lemma plan_edges news line us remaining returned :
  (forall i, chain_of news line i = chain_of (concat (map proto_edges (protos_of line us remaining returned))) line i) ->
  line_edges news line remaining returned (unit_edge us returned)
    (map uc_index (flat_map (unit_changes us returned quantity_return_cause) (indexed remaining))).
Proof.
  intros H. split.
  - intros iu e He. apply unit_edge_spec in He as (A & B & _). split; [done|]. by apply existsb_index_false.
  - intros i. rewrite H, protos_edges. apply chain_of_passes.
  - apply pointwise_indexes, changes_pointwise.
  - intros i. split.
    + intros Hi. apply list_elem_of_fmap in Hi as (c & -> & Hc). apply changes_elem in Hc as (k & u & Hu & E & Hi & _ & _).
      split; [lia|]. rewrite Hi, Nat2Z.id. exists u. eexists. split; [done|]. unfold unit_edge. rewrite E. done.
    + intros (H0 & u & e & Hu & He & Hr). unfold unit_edge in He.
      destruct (unit_changes us returned quantity_return_cause (Z.to_nat i, u)) as [|c cs] eqn:E.
      * destruct (unit_changes us returned unit_correction_cause _); [done|]. injection He as <-. done.
      * destruct (changes_pointwise us returned quantity_return_cause (Z.to_nat i, u)) as [E'|(c' & E' & Hi)]; rewrite E in E'; [done|].
        injection E' as -> ->. apply list_elem_of_fmap. exists c'. split; [cbn in Hi; lia|]. apply list_elem_of_In, in_flat_map.
        exists (Z.to_nat i, u). split; [by apply list_elem_of_In, indexed_elem|]. rewrite E. by left.
Qed.

Lemma protos_fit r original h lines line units remaining returned us :
  line_of r original h lines line units remaining returned -> Z.of_nat (length units) <= MAX_SAFE -> Forall (fun t => 0 <= tu_maximumCredit t) us ->
  Forall (fun p => pr_line p = line /\ pr_changes p <> [] /\ NoDup (map uc_index (pr_changes p)) /\
    Forall (change_fits (cause_returns (pr_cause p)) (legacy_returned (groups_of h) line) (length units)) (pr_changes p))
    (protos_of line us remaining returned).
Proof.
  intros L Hs Hm. unfold protos_of. apply Forall_forall. intros p Hp. apply list_elem_of_In, filter_In in Hp as [Hp Hn].
  apply in_map_iff in Hp as (cause & <- & _). cbn [pr_line pr_changes pr_cause] in *.
  split; [done|]. split; [by intros E; rewrite E in Hn|]. split; [apply pointwise_indexes, changes_pointwise|].
  apply Forall_forall. intros c Hc. apply changes_elem in Hc as (k & u & Hu & E & Hi & Hb & _).
  destruct (Forall2_lookup_r _ _ _ _ _ (lo_between _ _ _ _ _ _ _ _ L) Hu) as (u0 & Hu0 & Bu).
  destruct (lo_vector _ _ _ _ _ _ _ _ L) as (_ & _ & V). cbn in V. rewrite Forall_lookup in V. specialize (V _ _ Hu0). cbn in V.
  unfold unit_changes in E. cbn [fst snd] in E. destruct (returned_has returned (Z.of_nat k)) eqn:Er; [done|]. apply existsb_index_false in Er.
  assert (G : Z.of_nat (legacy_returned (groups_of h) line) <= Z.of_nat k).
  { destruct (Z.le_gt_cases (Z.of_nat (legacy_returned (groups_of h) line)) (Z.of_nat k)); [done|]. exfalso. apply Er, (lo_legacy _ _ _ _ _ _ _ _ L). lia. }
  assert (Hk : (k < length units)%nat) by (by apply lookup_lt_Some in Hu0).
  split; rewrite ?Hi, ?Hb; try lia.
  - destruct cause, (wanted us (Z.of_nat k)) as [t|] eqn:Ew; try done; [by injection E as <-|].
    destruct (_ <? _); [|done]. injection E as <-. cbn. apply wanted_spec in Ew as [Ht _]. rewrite Forall_forall in Hm. by apply Hm.
  - destruct cause, (wanted us (Z.of_nat k)) as [t|] eqn:Ew; try done; [by injection E as <-|]. cbn.
    destruct (Z.ltb_spec (tu_maximumCredit t) u); [|done]. by injection E as <-.
  - unfold is_safe. apply andb_true_iff. rewrite !Z.leb_le. unfold MAX_SAFE in *. lia.
Qed.

(** *** What a plan is made of *)

Section PlanParts.
Context (sha256 : string -> string) (localeAfter : string -> string -> bool).

Definition state_units (s : CreditFundingState) (line : string) : list Z := units_of (fs_remaining s) line.
Definition state_returned (s : CreditFundingState) (line : string) : list Z := units_of (fs_returnedIndexes s) line.
Definition line_protos (tlines : list EditFundingTargetLine) (s : CreditFundingState) (line : string) : list Proto :=
  protos_of line (target_units tlines line) (state_units s line) (state_returned s line).
Definition plan_lines (s : CreditFundingState) : list string := sort_stable localeAfter (map fst (fs_remaining s)).
Definition plan_protos (tlines : list EditFundingTargetLine) (s : CreditFundingState) : list Proto :=
  concat (map (line_protos tlines s) (plan_lines s)).
Definition plan_edge (tlines : list EditFundingTargetLine) (s : CreditFundingState) (line : string) : nat * Z -> option Edge :=
  unit_edge (target_units tlines line) (state_returned s line).
Definition plan_extra (tlines : list EditFundingTargetLine) (s : CreditFundingState) (line : string) : list Z :=
  map uc_index (flat_map (unit_changes (target_units tlines line) (state_returned s line) quantity_return_cause) (indexed (state_units s line))).

Record edit_planned (input : EditFundingInput) (digest : string) (postings : list EditFundingPosting) (out : CreditFundingState)
    (original : UnitVectors) (lines : list (string * list Z * list Z)) : Prop := {
  ep_proves : proves (fi_redemption input) original (fi_history input) lines;
  ep_edit : is_uuid (fi_editId input) = true;
  ep_targets : targets_ok (map fst lines) [] (fi_lines input) = true;
  ep_digest : digest = requestDigestOf sha256 localeAfter (fi_redemption input) (fi_editId input) (fi_lines input);
  ep_own : own_rows (fi_editId input) (modern_of (fi_history input)) = [];
  ep_state : out = {| fs_remaining := map fst (map (line_update (plan_edge (fi_lines input) (rs_state (state_of (fi_redemption input) (fi_history input) lines)))
                        (plan_extra (fi_lines input) (rs_state (state_of (fi_redemption input) (fi_history input) lines)))) lines);
                      fs_returnedIndexes := map (fun l => (fst (fst l), snd l)) (map (line_update (plan_edge (fi_lines input) (rs_state (state_of (fi_redemption input) (fi_history input) lines)))
                        (plan_extra (fi_lines input) (rs_state (state_of (fi_redemption input) (fi_history input) lines)))) lines);
                      fs_redeemed := er_amount (fi_redemption input);
                      fs_restored := sumZ (map hr_amount (fi_history input)) + sumZ (map po_amount postings);
                      fs_retained := fs_retained out |};
  ep_retained : fs_retained out = sumZ (concat (map snd (fs_remaining out)));
  ep_total : fs_restored out + fs_retained out = er_amount (fi_redemption input);
  ep_postings : postings = map (proto_posting (fi_redemption input) (fi_editId input) digest)
                  (plan_protos (fi_lines input) (rs_state (state_of (fi_redemption input) (fi_history input) lines)));
  ep_money : Forall (fun pr => money (sumZ (map change_cents (pr_changes pr))) = true)
               (plan_protos (fi_lines input) (rs_state (state_of (fi_redemption input) (fi_history input) lines)))
}.

Lemma plans_spec r editId digest tlines s ls plans :
  map_result (fun line => let! p := plan_line r editId digest tlines s line in Ok (line, p)) ls = Ok plans -> NoDup ls ->
  (forall line, line ∈ ls -> plan_line r editId digest tlines s line = Ok (line_plan plans line)) /\
  concat (map (fun p => lp_postings (snd p)) plans) = map (proto_posting r editId digest) (concat (map (line_protos tlines s) ls)) /\
  Forall (fun pr => money (sumZ (map change_cents (pr_changes pr))) = true) (concat (map (line_protos tlines s) ls)).
Proof.
  intros H N. apply map_result_Forall2 in H.
  assert (K : Forall2 (fun line lp => fst lp = line /\ plan_line r editId digest tlines s line = Ok (snd lp)) ls plans).
  { eapply Forall2_impl; [exact H|]. intros line lp E. cbn in E. inv_ok. done. }
  assert (Keys : map fst plans = ls). { clear -K. induction K as [|l p ls ps [E _] _ IH]; [done|]. cbn. by rewrite E, IH. }
  split; [|clear H Keys N; induction K as [|line lp ls ps [<- E] _ [I1 I2]]; [done|]].
  - intros line Hl. apply list_elem_of_lookup in Hl as [k Hk]. destruct (Forall2_lookup_l _ _ _ _ _ K Hk) as ([l p] & Hp & E1 & E2). cbn in *. subst l.
    unfold line_plan. rewrite (assoc_nodup plans line p); [done|by rewrite Keys|by apply list_elem_of_lookup_2 in Hp].
  - apply plan_line_ok in E as (_ & _ & E3 & E4). cbn [map concat]. rewrite map_app, <- I1. cbn [fst snd] in *.
    split; [by rewrite E3|]. apply Forall_app. by split.
Qed.
End PlanParts.

Section EditReplay.
Context (sha256 : string -> string) (localeAfter : string -> string -> bool).

Lemma plan_lines_perm r original h lines : proves r original h lines -> plan_lines localeAfter (rs_state (state_of r h lines)) ≡ₚ map fst original.
Proof. intros P. unfold plan_lines. rewrite sort_stable_perm. cbn. by rewrite map_map, (lines_names _ _ _ _ P). Qed.
Lemma plan_lines_NoDup r original h lines : proves r original h lines -> NoDup (plan_lines localeAfter (rs_state (state_of r h lines))).
Proof. intros P. rewrite (plan_lines_perm _ _ _ _ P). apply (original_units_ok _ _ (pv_original _ _ _ _ P)). Qed.
Lemma in_plan_lines r original h lines l : proves r original h lines -> l ∈ lines -> fst (fst l) ∈ plan_lines localeAfter (rs_state (state_of r h lines)).
Proof. intros P Hl. unfold plan_lines. rewrite sort_stable_perm. cbn. rewrite map_map. apply list_elem_of_fmap. by exists l. Qed.
Lemma state_of_line r original h lines l : proves r original h lines -> l ∈ lines ->
  state_units (rs_state (state_of r h lines)) (fst (fst l)) = snd (fst l) /\ state_returned (rs_state (state_of r h lines)) (fst (fst l)) = snd l.
Proof.
  intros P Hl. destruct (line_of_elem _ _ _ _ _ P Hl) as (units & L). unfold state_units, state_returned, units_of. cbn.
  by rewrite (lo_remaining _ _ _ _ _ _ _ _ L), (lo_returned _ _ _ _ _ _ _ _ L).
Qed.

Lemma funding_state_eq a a' b b' c d e : a = a' -> b = b' ->
  {| fs_remaining := a; fs_returnedIndexes := b; fs_redeemed := c; fs_restored := d; fs_retained := e |} =
  {| fs_remaining := a'; fs_returnedIndexes := b'; fs_redeemed := c; fs_restored := d; fs_retained := e |}.
Proof. by intros -> ->. Qed.
Lemma plan_ok input digest postings allocation out : planEditCreditFunding sha256 localeAfter input = Ok (planned digest postings allocation out) ->
  exists original lines, edit_planned sha256 localeAfter input digest postings out original lines.
Proof.
  intros H. unfold planEditCreditFunding in H. inv_ok. rename a into rs.
  match goal with E : readState _ _ ?c = Ok rs |- _ => rename E into Hr end. pose proof (readState_complete _ _ _ _ Hr) as Hc. rewrite Hc in Hr.
  apply readState_iff in Hr as (original & lines & P & ->). bool_props. set (r := fi_redemption input) in *. set (h := fi_history input) in *.
  destruct (fi_committedEdit input) as [c|]; [inv_ok; discriminate|]. inv_ok. set (s := rs_state (state_of r h lines)) in *.
  match goal with E : map_result _ _ = Ok ?x |- _ => rename E into Hp; rename x into plans end.
  repeat match goal with E : sum _ _ = Ok _ |- _ => apply funding_sum_ok in E as [-> ?] end. bool_props.
  destruct (plans_spec _ _ _ _ _ _ _ Hp (plan_lines_NoDup _ _ _ _ P)) as (Q1 & Q2 & Q3).
  exists original, lines.
  assert (Line : forall l, l ∈ lines ->
    lp_units (line_plan plans (fst (fst l))) = apply_edges (plan_edge (fi_lines input) s (fst (fst l))) (snd (fst l)) /\
    lp_returned (line_plan plans (fst (fst l))) = snd l ++ plan_extra (fi_lines input) s (fst (fst l))).
  { intros l Hl. destruct (state_of_line _ _ _ _ _ P Hl) as [S1 S2]. fold s in S1, S2.
    destruct (plan_line_ok _ _ _ _ _ _ _ (Q1 _ (in_plan_lines _ _ _ _ _ P Hl))) as (A & B & _).
    unfold plan_edge, plan_extra. unfold state_units, state_returned in *. by rewrite A, B, S1, S2. }
  assert (E1 : map (fun l => (fst l, lp_units (line_plan plans (fst l)))) (fs_remaining s) =
               map fst (map (line_update (plan_edge (fi_lines input) s) (plan_extra (fi_lines input) s)) lines)).
  { subst s. cbn [state_of rs_state fs_remaining]. rewrite !map_map. apply map_ext_in. intros l Hl. apply list_elem_of_In in Hl.
    unfold line_update. cbn [fst snd]. by rewrite (proj1 (Line _ Hl)). }
  assert (E2 : map (fun l => (fst l, sort_stable Z.gtb (lp_returned (line_plan plans (fst l))))) (fs_returnedIndexes s) =
               map (fun l => (fst (fst l), snd l)) (map (line_update (plan_edge (fi_lines input) s) (plan_extra (fi_lines input) s)) lines)).
  { subst s. cbn [state_of rs_state fs_returnedIndexes]. rewrite !map_map. apply map_ext_in. intros l Hl. apply list_elem_of_In in Hl.
    unfold line_update. cbn [fst snd]. by rewrite (proj2 (Line _ Hl)). }
  split; [exact P|done|done|done| | | | |exact Q2|exact Q3].
  - cbn [rs_modern state_of] in *. match goal with E : is_nil (own_rows _ _) = true |- _ => by destruct (own_rows _ _) end.
  - exact (funding_state_eq _ _ _ _ _ _ _ E1 E2).
  - done.
  - done.
Qed.

(** *** The targets *)

Lemma units_target_money rem line us : forall seen, units_target_ok rem line seen us = true -> Forall (fun t => 0 <= tu_maximumCredit t) us.
Proof.
  induction us as [|u us IH]; intros seen H; [constructor|]. cbn in H. apply andb_true_iff in H as [H1 H2].
  constructor; [|by eapply IH]. unfold unit_target_ok in H1. bool_props. match goal with M : money _ = true |- _ => apply money_spec in M end. lia.
Qed.
Lemma targets_money rem tlines line : forall seen, targets_ok rem seen tlines = true -> Forall (fun t => 0 <= tu_maximumCredit t) (target_units tlines line).
Proof.
  unfold target_units. induction tlines as [|l ls IH]; intros seen H; [constructor|]. cbn in H. bool_props. cbn [List.find].
  destruct (String.eqb _ _); [by eapply units_target_money|by eapply IH].
Qed.
(** Targets are checked against the shape of the state only. *)
Definition same_shape (a b : UnitVectors) : Prop := Forall2 (fun x y => fst x = fst y /\ length (snd x) = length (snd y)) a b.
Lemma shape_assoc a b k : same_shape a b ->
  is_some (assoc_last k a) = is_some (assoc_last k b) /\ length (units_of a k) = length (units_of b k).
Proof.
  unfold units_of. induction 1 as [|[k1 x] [k2 y] a b [E1 E2] _ [I1 I2]]; [done|]. cbn in *. subst k2.
  destruct (assoc_last k a), (assoc_last k b); try done. by destruct (String.eqb k k1).
Qed.
Lemma units_target_shape a b line us : same_shape a b -> forall seen, units_target_ok a line seen us = units_target_ok b line seen us.
Proof.
  intros S. induction us as [|u us IH]; intros seen; [done|]. cbn. rewrite IH. unfold unit_target_ok.
  destruct (shape_assoc a b line S) as [-> ->]. done.
Qed.
Lemma targets_shape a b tlines : same_shape a b -> forall seen, targets_ok a seen tlines = targets_ok b seen tlines.
Proof.
  intros S. induction tlines as [|l ls IH]; intros seen; [done|]. cbn. by rewrite IH, (units_target_shape _ _ _ _ S).
Qed.
Lemma update_shape edge extra lines : same_shape (map fst (map (line_update edge extra) lines)) (map fst lines).
Proof.
  unfold same_shape. induction lines as [|l ls IH]; [constructor|]. constructor; [|exact IH]. unfold line_update, apply_edges. cbn [map fst snd].
  split; [done|]. by rewrite length_map, length_indexed.
Qed.

(** *** The rows of one edit *)

Lemma own_rows_app editId m1 m2 : own_rows editId (m1 ++ m2) = own_rows editId m1 ++ own_rows editId m2.
Proof. apply List.filter_app. Qed.
Lemma edit_digest_id row e d : parseEnvelope row = Ok (Some e) -> item_digest (row, e) = Some d ->
  field "editId" e = Some (JStr (fst d)) /\ field "requestDigest" e = Some (JStr (snd d)).
Proof.
  unfold parseEnvelope, item_digest. cbn [snd]. intros H Hd. destruct (is_text EDIT_RESTORE (field "type" e)) eqn:Et; [|done].
  destruct (hr_allocation row) as [text|]; [|done]. destruct (JSON_parse text) as [raw|]; [|done]. destruct (negb (is_object _)); [done|].
  destruct (negb (one_of_texts _ _)); [by destruct (match as_string _ with Some _ => _ | None => _ end)|].
  destruct (is_text UNIT_RESTORE (field "type" raw)) eqn:Eu.
  - destruct (unit_restore_ok raw); [|done]. injection H as ->. exfalso. unfold is_text in *. destruct (field "type" e) as [[]|]; try done.
    apply String.eqb_eq in Et, Eu. by rewrite Et in Eu.
  - destruct (edit_restore_ok raw) eqn:Eo; [|done]. injection H as ->. unfold edit_restore_ok in Eo. bool_props. injection Hd as <-. cbn [fst snd].
    unfold as_string in *. split; [destruct (field "editId" e) as [[]|]|destruct (field "requestDigest" e) as [[]|]]; done.
Qed.
Lemma own_none_digests editId h : own_rows editId (modern_of h) = [] -> forall d, (editId, d) ∉ omap item_digest (modern_of h).
Proof.
  intros H d Hin. apply elem_omap in Hin as ([row e] & Hi & Hd).
  assert (He : parseEnvelope row = Ok (Some e)).
  { unfold modern_of in Hi. apply elem_omap in Hi as (row' & _ & E). unfold envelope_of in E.
    destruct (parseEnvelope row') as [[e'|]|] eqn:Ep; try done. cbn in E. by injection E as -> ->. }
  destruct (edit_digest_id _ _ _ He Hd) as [Hf _]. cbn in Hf.
  assert (In (row, e) (own_rows editId (modern_of h))); [|by rewrite H in *].
  unfold own_rows. apply filter_In. split; [by apply list_elem_of_In|]. unfold item_digest in Hd. cbn [snd] in Hd.
  destruct (is_text EDIT_RESTORE (field "type" e)); [|done]. rewrite Hf. cbn. apply String.eqb_refl.
Qed.
Lemma own_entries editId digest r ens : Forall (fun en => exists p, en_envelope en = stable (proto_envelope r editId digest p)) ens ->
  let items := map (fun en => (en_row en, en_envelope en)) ens in
  own_rows editId items = items /\ forallb (fun '(_, e) => is_text digest (field "requestDigest" e)) items = true.
Proof.
  intros F items. subst items. unfold own_rows. induction F as [|en ens [p E] _ [I1 I2]]; [done|]. cbn [map List.filter forallb].
  assert (Fs : forall k, field k (en_envelope en) = _) by (intros k; rewrite E; apply edit_field).
  rewrite !Fs. cbn [assoc_last String.eqb Ascii.eqb Bool.eqb fmap option_fmap option_map is_text stable].
  change (String.eqb EDIT_RESTORE EDIT_RESTORE) with true. rewrite !String.eqb_refl. cbn [andb]. by rewrite I1, I2.
Qed.
Definition array_sized (r : EditFundingRedemption) : Prop :=
  forall original, original_units r = Ok original -> Forall (fun e => Z.of_nat (length (snd e)) < 2 ^ 32) original.

Section Planned.
Context (hex_digest : forall text, hex64 (sha256 text) = true).
Context (input : EditFundingInput) (digest : string) (postings : list EditFundingPosting) (out : CreditFundingState).
Context (original : UnitVectors) (lines : list (string * list Z * list Z)) (EP : edit_planned sha256 localeAfter input digest postings out original lines).
Context (sized : array_sized (fi_redemption input)).
Context (ids : list string) (ids_fit : length ids = length postings) (ids_text : Forall (fun id => id <> EmptyString) ids).
Let r := fi_redemption input.
Let h := fi_history input.
Let s := rs_state (state_of r h lines).
Let protos := plan_protos localeAfter (fi_lines input) s.
Let ens := zip_with (proto_entry r (fi_editId input) digest) ids protos.
Let rows := zip_with row_of_posting ids postings.
Context (ids_new : NoDup (map hr_id (h ++ rows))) (keys_new : NoDup (map hr_idempotencyKey (h ++ rows))).

Let P : proves r original h lines := ep_proves _ _ _ _ _ _ _ _ EP.

Lemma protos_length : length ids = length protos.
Proof. rewrite ids_fit, (ep_postings _ _ _ _ _ _ _ _ EP). by rewrite length_map. Qed.
Lemma entries_rows : map en_row ens = rows.
Proof.
  unfold rows, ens. rewrite (ep_postings _ _ _ _ _ _ _ _ EP). fold r h s protos. clear -ids. generalize protos. intros ps.
  revert ps. induction ids as [|id l IH]; intros [|p ps]; cbn; [done|done|done|]. by rewrite IH.
Qed.
Lemma ens_map {B} (f : Entry -> B) (g : Proto -> B) : (forall id p, f (proto_entry r (fi_editId input) digest id p) = g p) -> map f ens = map g protos.
Proof.
  intros H. unfold ens. pose proof protos_length as L. revert L. generalize protos. clear -H. intros ps. revert ps.
  induction ids as [|id l IH]; intros [|p ps] L; cbn in *; [done|done|done|]. rewrite H, IH; [done|lia].
Qed.
Lemma ens_forall (Q : Entry -> Prop) (R : Proto -> Prop) : (forall id p, id <> EmptyString -> R p -> Q (proto_entry r (fi_editId input) digest id p)) ->
  Forall R protos -> Forall Q ens.
Proof.
  intros H F. unfold ens. apply Forall_forall. intros en He. apply list_elem_of_lookup in He as [k Hk].
  apply lookup_zip_with_Some in Hk as (id & p & -> & Hi & Hp). rewrite Forall_lookup in F. apply H; [|by eapply F].
  pose proof ids_text as T. rewrite Forall_lookup in T. by eapply T.
Qed.

Lemma proto_line p : p ∈ protos -> exists units remaining returned,
  line_of r original h lines (pr_line p) units remaining returned /\
  pr_changes p <> [] /\ NoDup (map uc_index (pr_changes p)) /\
  Forall (change_fits (cause_returns (pr_cause p)) (legacy_returned (groups_of h) (pr_line p)) (length units)) (pr_changes p).
Proof.
  intros Hp. unfold protos, plan_protos in Hp. apply list_elem_of_In, in_concat in Hp as (ps & Hps & Hp). apply in_map_iff in Hps as (line & <- & Hl).
  apply list_elem_of_In in Hp, Hl.
  unfold plan_lines in Hl. rewrite sort_stable_perm in Hl. subst s. cbn in Hl. rewrite map_map in Hl. apply list_elem_of_fmap in Hl as (l & -> & Hl).
  destruct (line_of_elem _ _ _ _ _ P Hl) as (units & L). destruct (state_of_line _ _ _ _ _ P Hl) as [S1 S2].
  unfold line_protos in Hp. rewrite S1, S2 in Hp.
  assert (Hs : Z.of_nat (length units) <= MAX_SAFE).
  { pose proof (sized original (pv_original _ _ _ _ P)) as Z32. rewrite Forall_forall in Z32.
    specialize (Z32 _ (assoc_last_elem _ _ _ (lo_units _ _ _ _ _ _ _ _ L))). cbn [snd] in Z32. unfold MAX_SAFE. lia. }
  pose proof (protos_fit _ _ _ _ _ _ _ _ _ L Hs (targets_money _ _ (fst (fst l)) _ (ep_targets _ _ _ _ _ _ _ _ EP))) as F.
  rewrite Forall_forall in F. destruct (F _ Hp) as (-> & F2 & F3 & F4). by exists units, (snd (fst l)), (snd l).
Qed.
Lemma entries_ok : Forall (entry_ok r original (groups_of h)) ens.
Proof.
  apply (ens_forall _ (fun p => p ∈ protos /\ money (sumZ (map change_cents (pr_changes p))) = true)).
  - intros id p Hi [Hp Hm]. destruct (proto_line p Hp) as (units & remaining & returned & L & F2 & F3 & F4).
    apply (edit_posted r original (groups_of h) (original_units_ok _ _ (pv_original _ _ _ _ P)) (pr_line p) units (lo_units _ _ _ _ _ _ _ _ L)); try done.
    + apply (ep_edit _ _ _ _ _ _ _ _ EP).
    + rewrite (ep_digest _ _ _ _ _ _ _ _ EP). apply hex_digest.
  - pose proof (ep_money _ _ _ _ _ _ _ _ EP) as M. fold r h s protos in M. rewrite Forall_forall in M |- *. auto.
Qed.

Lemma plan_news line i : line ∈ plan_lines localeAfter s ->
  chain_of (concat (map entry_edges ens)) line i = chain_of (concat (map proto_edges (line_protos (fi_lines input) s line))) line i.
Proof.
  intros Hl. rewrite (ens_map entry_edges proto_edges) by done. unfold protos, plan_protos.
  assert (E : concat (map proto_edges (concat (map (line_protos (fi_lines input) s) (plan_lines localeAfter s)))) =
              concat (map (fun l => concat (map proto_edges (line_protos (fi_lines input) s l))) (plan_lines localeAfter s))).
  { clear. induction (plan_lines localeAfter s) as [|l ls IH]; [done|]. cbn [map concat]. by rewrite map_app, concat_app, IH. }
  rewrite E, (chain_of_lines (fun l => concat (map proto_edges (line_protos (fi_lines input) s l)))); [by rewrite decide_True|by eapply plan_lines_NoDup|].
  intros l t Ht. unfold line_protos in Ht. rewrite protos_edges in Ht. apply elem_of_app in Ht as [Ht|Ht]; apply list_elem_of_fmap in Ht as (c & -> & _); done.
Qed.
Lemma planned_edges l : l ∈ lines -> line_edges (concat (map entry_edges ens)) (fst (fst l)) (snd (fst l)) (snd l)
  (plan_edge (fi_lines input) s (fst (fst l))) (plan_extra (fi_lines input) s (fst (fst l))).
Proof.
  intros Hl. destruct (state_of_line _ _ _ _ _ P Hl) as [S1 S2]. unfold plan_edge, plan_extra. unfold s at 1 2 3. rewrite S1, S2.
  apply plan_edges. intros i. rewrite plan_news by (by eapply in_plan_lines). unfold line_protos. unfold s. by rewrite S1, S2.
Qed.
Lemma planned_nonneg line iu e : plan_edge (fi_lines input) s line iu = Some e -> 0 <= ed_after e.
Proof.
  intros H. apply unit_edge_spec in H as (_ & _ & H). destruct (ed_returned e); [lia|]. destruct H as (t & Ht & -> & _).
  pose proof (targets_money _ _ line _ (ep_targets _ _ _ _ _ _ _ _ EP)) as F. rewrite Forall_forall in F. by apply F.
Qed.

Lemma planned_proves : proves r original (h ++ rows) (map (line_update (plan_edge (fi_lines input) s) (plan_extra (fi_lines input) s)) lines).
Proof.
  rewrite <- entries_rows. apply (history_reads_on r original h lines _ ens P entries_ok).
  - rewrite entries_rows. split; [done|]. by intros x _ ?%elem_of_nil.
  - rewrite entries_rows. split; [done|]. by intros x _ ?%elem_of_nil.
  - assert (D : Forall (fun d => d = (fi_editId input, digest)) (omap en_digest ens)).
    { apply Forall_forall. intros d Hd. apply elem_omap in Hd as (en & He & Hd). unfold ens in He. apply list_elem_of_lookup in He as [k Hk].
      apply lookup_zip_with_Some in Hk as (id & p & -> & _). cbn in Hd. congruence. }
    pose proof (own_none_digests _ _ (ep_own _ _ _ _ _ _ _ _ EP)) as N. fold h in N. rewrite Forall_forall in D.
    intros x a b. rewrite !elem_of_app. intros [Ha|Ha] [Hb|Hb].
    + by eapply (pv_digests _ _ _ _ P).
    + apply D in Hb. simplify_eq. by apply N in Ha.
    + apply D in Ha. simplify_eq. by apply N in Hb.
    + apply D in Ha, Hb. congruence.
  - apply (lines_read_on r original h lines); [exact P|]. apply planned_edges.
  - rewrite (ens_map _ (fun p => sumZ (map change_cents (pr_changes p)))) by done. apply Forall_map.
    pose proof (ep_money _ _ _ _ _ _ _ _ EP) as M. fold r h s protos in M. eapply Forall_impl; [exact M|]. intros p Hm. cbn. apply money_spec in Hm. lia.
  - apply (update_nonneg r original h lines (concat (map entry_edges ens))); [exact P|apply planned_edges|apply planned_nonneg].
  - pose proof (ep_total _ _ _ _ _ _ _ _ EP) as T. rewrite (ep_retained _ _ _ _ _ _ _ _ EP), (ep_state _ _ _ _ _ _ _ _ EP) in T.
    cbn [fs_restored fs_remaining] in T. fold r h s in T. rewrite !map_map in T. rewrite map_map, <- T. f_equal. f_equal.
    rewrite (ens_map _ (fun p => po_amount (proto_posting r (fi_editId input) digest p))) by done.
    rewrite (ep_postings _ _ _ _ _ _ _ _ EP). by rewrite map_map.
Qed.

Lemma planned_state : rs_state (state_of r (h ++ rows) (map (line_update (plan_edge (fi_lines input) s) (plan_extra (fi_lines input) s)) lines)) = out.
Proof.
  rewrite (ep_state _ _ _ _ _ _ _ _ EP). fold r h s. unfold state_of. cbn [rs_state].
  rewrite (ep_retained _ _ _ _ _ _ _ _ EP), (ep_state _ _ _ _ _ _ _ _ EP). cbn [fs_remaining]. fold r h s.
  rewrite !map_map, map_app, sumZ_app. f_equal. f_equal. unfold rows. clear -ids_fit. rewrite sumZ_perm with (l2 := map po_amount postings); [done|].
  revert ids_fit. generalize postings. induction ids as [|id l IH]; intros [|p ps] L; cbn in *; try done. f_equiv. apply IH. lia.
Qed.
End Planned.

End EditReplay.

(** ** What a plan posts is what the ledger later proves *)

(** The same request once its rows are posted, with or without its receipt. *)
Definition after_posting (input : EditFundingInput) (rows : list EditFundingHistoryRow) (receipt : option CommittedEdit) : EditFundingInput :=
  {| fi_redemption := fi_redemption input; fi_history := fi_history input ++ rows; fi_historyComplete := true; fi_editId := fi_editId input;
     fi_lines := fi_lines input; fi_committedEdit := receipt |}.

Lemma uniq_after_nodup {A} `{EqDecision A} (l seen : list A) : NoDup l -> (forall x, x ∈ l -> x ∉ seen) -> uniq_after seen l = l.
Proof.
  revert seen. induction l as [|x l IH]; intros seen N D; [done|]. apply NoDup_cons in N as [Nx N]. cbn.
  rewrite decide_False by (apply D; left). rewrite IH; [done|done|]. intros y Hy [->|Hs]%elem_of_cons; [done|]. by apply (D y); [right|].
Qed.
Lemma rows_keys ids ps : length ids = length ps -> map hr_idempotencyKey (zip_with row_of_posting ids ps) = map po_idempotencyKey ps.
Proof. revert ps. induction ids as [|id ids IH]; intros [|p ps] L; cbn in *; try done. rewrite IH; [done|lia]. Qed.

(** A posting that credits the account and the order of the redemption. *)
Record posts_for (r : EditFundingRedemption) (refundId : option string) (p : EditFundingPosting) : Prop := {
  pf_kind : po_kind p = RESTORE; pf_status : po_status p = POSTED; pf_delta : po_delta p = po_amount p;
  pf_account : po_accountCreditId p = er_accountCreditId r; pf_order : po_orderId p = or_else (er_orderId r) EmptyString;
  pf_redemption : po_relatedTransactionId p = er_id r; pf_refund : po_refundId p = refundId
}.
Section PlanReplay.
Context (sha256 : string -> string) (localeAfter : string -> string -> bool) (hex_digest : forall text, hex64 (sha256 text) = true).

Lemma edit_posted_reads input digest postings allocation out ids :
  planEditCreditFunding sha256 localeAfter input = Ok (planned digest postings allocation out) ->
  array_sized (fi_redemption input) -> length ids = length postings -> Forall (fun id => id <> EmptyString) ids ->
  let rows := zip_with row_of_posting ids postings in
  NoDup (map hr_id (fi_history input ++ rows)) -> NoDup (map hr_idempotencyKey (fi_history input ++ rows)) ->
  readCreditFundingState (fi_redemption input) (fi_history input ++ rows) true = Ok out.
Proof.
  intros H sized Hlen Hids rows N1 N2. destruct (plan_ok _ _ _ _ _ _ _ H) as (original & lines & EP).
  pose proof (planned_proves sha256 localeAfter hex_digest input digest postings out original lines EP sized ids Hlen Hids N1 N2) as P'.
  unfold readCreditFundingState, rows. rewrite (proj2 (readState_iff _ _ _) (ex_intro _ original (ex_intro _ _ (conj P' eq_refl)))).
  cbn [bind_result]. f_equal. exact (planned_state sha256 localeAfter input digest postings out original lines EP ids Hlen).
Qed.
(** The rows of a plan credit the redemption's own account and order. *)
Lemma edit_postings_own input digest postings allocation out :
  planEditCreditFunding sha256 localeAfter input = Ok (planned digest postings allocation out) ->
  Forall (posts_for (fi_redemption input) None) postings.
Proof.
  intros H. destruct (plan_ok _ _ _ _ _ _ _ H) as (original & lines & EP). rewrite (ep_postings _ _ _ _ _ _ _ _ EP).
  apply Forall_map, Forall_forall. done.
Qed.

(** C32: An edit whose planned rows were posted reads back as planned. Reading the
    extended history gives exactly the announced state; planning the same edit
    again with its receipt is recognised as a replay that changes nothing; and
    without the receipt it is refused. *)
Theorem edit_plan_reads_back input digest postings allocation out ids :
  planEditCreditFunding sha256 localeAfter input = Ok (planned digest postings allocation out) ->
  array_sized (fi_redemption input) -> length ids = length postings -> Forall (fun id => id <> EmptyString) ids ->
  let rows := zip_with row_of_posting ids postings in
  NoDup (map hr_id (fi_history input ++ rows)) -> NoDup (map hr_idempotencyKey (fi_history input ++ rows)) ->
  readCreditFundingState (fi_redemption input) (fi_history input ++ rows) true = Ok out /\
  planEditCreditFunding sha256 localeAfter (after_posting input rows (Some {| ce_editId := fi_editId input; ce_requestDigest := digest;
    ce_postingKeys := map po_idempotencyKey postings |})) = Ok (replayed digest out) /\
  (postings <> [] -> planEditCreditFunding sha256 localeAfter (after_posting input rows None) = Err (Refusal REPLAY_CONFLICT)).
Proof.
  intros H sized Hlen Hids rows N1 N2. destruct (plan_ok _ _ _ _ _ _ _ H) as (original & lines & EP).
  pose proof (planned_proves sha256 localeAfter hex_digest input digest postings out original lines EP sized ids Hlen Hids N1 N2) as P'.
  pose proof (planned_state sha256 localeAfter input digest postings out original lines EP ids Hlen) as S'.
  set (upd := line_update _ _) in P', S'. fold rows in P', S'.
  assert (R : readState (fi_redemption input) (fi_history input ++ rows) true = Ok (state_of (fi_redemption input) (fi_history input ++ rows) (map upd lines))).
  { apply readState_iff. by exists original, (map upd lines). }
  split; [unfold readCreditFundingState; rewrite R; cbn [bind_result]; by rewrite S'|].
  pose proof (entries_ok sha256 localeAfter hex_digest input digest postings out original lines EP sized ids Hlen Hids) as Eok.
  set (ens := zip_with _ ids _) in Eok.
  assert (Er : map en_row ens = rows) by (by apply (entries_rows sha256 localeAfter input digest postings out original lines EP)).
  destruct (entries_read _ _ _ _ Eok) as (Em & _). rewrite Er in Em.
  assert (Own : own_rows (fi_editId input) (modern_of (fi_history input ++ rows)) = map (fun en => (en_row en, en_envelope en)) ens /\
                forallb (fun '(_, e) => is_text digest (field "requestDigest" e)) (map (fun en => (en_row en, en_envelope en)) ens) = true).
  { rewrite modern_of_app, own_rows_app, (ep_own _ _ _ _ _ _ _ _ EP), Em. cbn [app]. apply (own_entries (fi_editId input) digest (fi_redemption input)).
    apply Forall_forall. intros en He. apply list_elem_of_lookup in He as [k Hk]. apply lookup_zip_with_Some in Hk as (id & p & -> & _). by exists p. }
  destruct Own as [O1 O2].
  assert (T : targets_ok (fs_remaining (rs_state (state_of (fi_redemption input) (fi_history input ++ rows) (map upd lines)))) [] (fi_lines input) = true).
  { cbn [state_of rs_state fs_remaining]. unfold upd. rewrite (targets_shape _ _ _ (update_shape _ _ _)). apply EP. }
  unfold planEditCreditFunding, after_posting. cbn [fi_redemption fi_history fi_historyComplete fi_editId fi_lines fi_committedEdit].
  rewrite R. cbn [bind_result]. rewrite (ep_edit _ _ _ _ _ _ _ _ EP), T. cbn [andb rs_modern state_of]. rewrite O1, <- (ep_digest _ _ _ _ _ _ _ _ EP).
  assert (Kr : map hr_idempotencyKey rows = map po_idempotencyKey postings) by by apply rows_keys.
  assert (K : map (fun i => hr_idempotencyKey (fst i)) (map (fun en => (en_row en, en_envelope en)) ens) = map po_idempotencyKey postings).
  { rewrite map_map. cbn [fst]. rewrite <- (map_map en_row hr_idempotencyKey), Er. exact Kr. }
  split.
  - unfold replay_ok. cbn [ce_editId ce_requestDigest ce_postingKeys]. rewrite K, O2, !String.eqb_refl, bool_decide_eq_true_2 by done.
    unfold uniq. rewrite uniq_after_nodup; [by rewrite Nat.eqb_refl, S'| |by intros x _ ?%elem_of_nil].
    rewrite map_app, Kr in N2. by apply NoDup_app in N2 as (_ & _ & N2).
  - intros Hp. destruct ens as [|en l]; [|done]. destruct Hp. apply (f_equal length) in K. rewrite length_map in K. by destruct postings.
Qed.
End PlanReplay.

Lemma sample_hex : forall text, hex64 (sample_sha text) = true.
Proof. intros. vm_compute. reflexivity. Qed.
Lemma sample_sized : array_sized sample_redemption.
Proof. intros original E. vm_compute in E. injection E as <-. repeat constructor. Qed.

Lemma edit_plan_reads_back_witness :
  map po_amount sample_postings = [150; 100] /\ fs_retained sample_out = 250 /\
  readCreditFundingState sample_redemption (zip_with row_of_posting ["t1"; "t2"]%string sample_postings) true = Ok sample_out.
Proof.
  split; [vm_compute; reflexivity|]. split; [vm_compute; reflexivity|].
  refine (proj1 (edit_plan_reads_back sample_sha str_after sample_hex sample_edit sample_digest sample_postings sample_allocation sample_out
    ["t1"; "t2"]%string _ sample_sized _ _ _ _)).
  - vm_compute. reflexivity.
  - vm_compute. reflexivity.
  - repeat constructor; discriminate.
  - apply (bool_decide_unpack _). vm_compute. exact I.
  - apply (bool_decide_unpack _). vm_compute. exact I.
Defined.

Lemma unit_return_reads_back_witness : exists p s,
  planCreditUnitReturn sample_redemption sample_history true {| uo_kind := "manual_return"; uo_id := "op-7" |} (sample_uuid_of "a") [Some 0; None]
    = Ok (Some p, s) /\ po_amount p = 200 /\
  readCreditFundingState sample_redemption (sample_history ++ [row_of_posting "t3" p]) true = Ok s.
Proof.
  destruct (planCreditUnitReturn sample_redemption sample_history true {| uo_kind := "manual_return"; uo_id := "op-7" |} (sample_uuid_of "a") [Some 0; None])
    as [[[p|] s]|] eqn:E; [|vm_compute in E; discriminate E|vm_compute in E; discriminate E].
  exists p, s. split; [reflexivity|].
  assert (K : po_amount p = 200 /\ po_idempotencyKey p = "manual:op-7"%string) by (vm_compute in E; injection E as <- _; split; reflexivity).
  split; [apply K|].
  refine (unit_return_reads_back sample_redemption sample_history true _ _ _ p s "t3" E _ _ _).
  - discriminate.
  - apply (bool_decide_unpack _). vm_compute. exact I.
  - rewrite (proj2 K). apply (bool_decide_unpack _). vm_compute. exact I.
Defined.
