(* ===== verification/FundingOrder.v ===== *)
(** The listing order of a restoration history does not matter: the before and
    after amounts of each unit alone fix the chronology [EditFunding] reads. *)

From S2P Require Import Prelude JsNumber Json JsonText AccountCredit EditFunding FundingFacts.
From Stdlib Require Import ZArith QArith Lia Bool String Ascii Sorted.
From stdpp Require Import base list strings sorting.
Local Open Scope Z_scope.

(** ** The legacy groups, line by line *)

Definition on_line (line : string) (row : EditFundingHistoryRow) : bool := String.eqb (row_line row) line.
Definition line_quantity (line : string) (rows : list EditFundingHistoryRow) : Z := sumZ (map row_quantity (List.filter (on_line line) rows)).
Definition line_amount (line : string) (rows : list EditFundingHistoryRow) : Z := sumZ (map hr_amount (List.filter (on_line line) rows)).
Definition group_fits (rows : list EditFundingHistoryRow) (g : LegacyGroup) : Prop :=
  lg_quantity g = line_quantity (lg_line g) rows /\ sumZ (lg_amounts g) = line_amount (lg_line g) rows.

Lemma legacy_add_lines line q a gs : forall l, l ∈ map lg_line (legacy_add line q a gs) <-> l = line \/ l ∈ map lg_line gs.
Proof.
  induction gs as [|g gs IH]; intros l; cbn [legacy_add]; [cbn; rewrite list_elem_of_singleton; split; [by left|by intros [?|?%elem_of_nil]]|].
  destruct (String.eqb_spec (lg_line g) line) as [E|E]; cbn; rewrite !elem_of_cons; [rewrite E; tauto|]. rewrite IH. tauto.
Qed.
Lemma legacy_add_nodup line q a gs : NoDup (map lg_line gs) -> NoDup (map lg_line (legacy_add line q a gs)).
Proof.
  induction gs as [|g gs IH]; intros N; cbn [legacy_add]; [cbn; constructor; [by intros ?%elem_of_nil|constructor]|].
  cbn in N. apply NoDup_cons in N as [Ng N]. destruct (String.eqb_spec (lg_line g) line) as [E|E]; cbn; constructor; try done; [by rewrite <- E| |by apply IH].
  rewrite legacy_add_lines. by intros [?|?].
Qed.
Lemma legacy_add_fits rows row gs : NoDup (map lg_line gs) -> Forall (group_fits rows) gs ->
  (forall x, x ∈ rows -> row_line x ∈ map lg_line gs) ->
  Forall (group_fits (rows ++ [row])) (legacy_add (row_line row) (row_quantity row) (hr_amount row) gs).
Proof.
  assert (S : forall l, line_quantity l (rows ++ [row]) = line_quantity l rows + (if String.eqb (row_line row) l then row_quantity row else 0) /\
                        line_amount l (rows ++ [row]) = line_amount l rows + (if String.eqb (row_line row) l then hr_amount row else 0)).
  { intros l. unfold line_quantity, line_amount. rewrite List.filter_app, !map_app, !sumZ_app. cbn [List.filter].
    change (on_line l row) with (String.eqb (row_line row) l). destruct (String.eqb (row_line row) l); cbn [map sumZ]; lia. }
  intros N F C.
  assert (G : forall gs', NoDup (map lg_line gs') -> Forall (group_fits rows) gs' ->
    (row_line row ∉ map lg_line gs' -> line_quantity (row_line row) rows = 0 /\ line_amount (row_line row) rows = 0) ->
    Forall (group_fits (rows ++ [row])) (legacy_add (row_line row) (row_quantity row) (hr_amount row) gs')).
  { clear N F C gs. intros gs'. induction gs' as [|g gs IH]; intros N F C; cbn [legacy_add].
    - constructor; [|constructor]. unfold group_fits. cbn. destruct (S (row_line row)) as [-> ->]. rewrite String.eqb_refl.
      destruct (C ltac:(by intros ?%elem_of_nil)) as [-> ->]. lia.
    - cbn in N. apply NoDup_cons in N as [Ng N]. inversion F as [|? ? [F1 F2] F']; subst.
      assert (Rest : (row_line row ∉ map lg_line gs) -> Forall (group_fits (rows ++ [row])) gs).
      { intros Hn. rewrite Forall_forall in *. intros g' Hg'. destruct (F' _ Hg') as [Q1 Q2]. destruct (S (lg_line g')) as [S1 S2]. unfold group_fits. rewrite S1, S2.
        rewrite (proj2 (String.eqb_neq _ _)); [lia|]. intros E. apply Hn. rewrite E. apply list_elem_of_fmap. by exists g'. }
      destruct (String.eqb_spec (lg_line g) (row_line row)) as [E|E].
      + constructor; [|apply Rest; by rewrite <- E]. unfold group_fits. cbn. destruct (S (row_line row)) as [-> ->]. rewrite String.eqb_refl, sumZ_app, F1, F2, E. cbn. lia.
      + constructor.
        * unfold group_fits. destruct (S (lg_line g)) as [-> ->]. rewrite (proj2 (String.eqb_neq _ _)) by congruence. lia.
        * apply IH; [done|done|]. intros Hn. apply C. cbn. by intros [?|?]%elem_of_cons. }
  apply G; [done|done|]. intros Hn.
  assert (Z0 : List.filter (on_line (row_line row)) rows = []).
  { destruct (List.filter _ rows) as [|x l] eqn:E; [done|]. exfalso. assert (Hx : In x (List.filter (on_line (row_line row)) rows)) by (rewrite E; by left).
    apply filter_In in Hx as [Hx El]. apply String.eqb_eq in El. apply Hn. rewrite <- El. apply C. by apply list_elem_of_In. }
  unfold line_quantity, line_amount. by rewrite Z0.
Qed.
Lemma groups_spec rows : let gs := fold_left add_legacy_row rows [] in
  NoDup (map lg_line gs) /\ Forall (group_fits rows) gs /\ forall l, l ∈ map lg_line gs <-> l ∈ map row_line rows.
Proof.
  induction rows as [|row rows (I1 & I2 & I3)] using rev_ind; [split; [constructor|split; [constructor|done]]|].
  cbn zeta in *. rewrite fold_left_app. cbn [fold_left]. unfold add_legacy_row at 1 3 5.
  split; [by apply legacy_add_nodup|]. split.
  - apply legacy_add_fits; [done|done|]. intros x Hx. apply I3, list_elem_of_fmap. by exists x.
  - intros l. rewrite legacy_add_lines, I3, map_app, elem_of_app. cbn. rewrite list_elem_of_singleton. tauto.
Qed.
Lemma filter_perm {A} (p : A -> bool) l l' : l ≡ₚ l' -> List.filter p l ≡ₚ List.filter p l'.
Proof.
  induction 1 as [|x l l' _ IH|x y l|l l' l'' _ I1 _ I2]; cbn; [done|by destruct (p x); rewrite IH| |by rewrite I1].
  destruct (p x), (p y); try done. apply perm_swap.
Qed.
Lemma line_sums_perm line rows rows' : rows ≡ₚ rows' -> line_quantity line rows = line_quantity line rows' /\ line_amount line rows = line_amount line rows'.
Proof. intros H. unfold line_quantity, line_amount. split; apply sumZ_perm, Permutation_map, filter_perm, H. Qed.

Lemma legacy_returned_line rows line : legacy_returned (fold_left add_legacy_row rows []) line = Z.to_nat (line_quantity line rows).
Proof.
  destruct (groups_spec rows) as (_ & F & M). unfold legacy_returned. destruct (List.find _ _) as [g|] eqn:E.
  - apply List.find_some in E as [Hg El]. apply String.eqb_eq in El as <-. rewrite List.Forall_forall in F. by destruct (F _ Hg) as [-> _].
  - assert (Z0 : List.filter (on_line line) rows = []); [|unfold line_quantity; by rewrite Z0].
    destruct (List.filter _ rows) as [|x l] eqn:Ef; [done|]. exfalso. assert (Hx : In x (List.filter (on_line line) rows)) by (rewrite Ef; by left).
    apply filter_In in Hx as [Hx El]. apply String.eqb_eq in El. assert (Hl : line ∈ map row_line rows) by (apply list_elem_of_fmap; exists x; split; [done|by apply list_elem_of_In]).
    apply M, list_elem_of_fmap in Hl as (g & E' & Hg). apply list_elem_of_In, (List.find_none _ _ E) in Hg. by rewrite E', String.eqb_refl in Hg.
Qed.

(** ** Permuted histories *)

Section Permuted.
Context (h h' : list EditFundingHistoryRow) (perm : h ≡ₚ h').

Lemma legacy_rows_perm : List.filter is_legacy h ≡ₚ List.filter is_legacy h'.
Proof. apply filter_perm, perm. Qed.
Lemma legacy_returned_perm line : legacy_returned (groups_of h) line = legacy_returned (groups_of h') line.
Proof. unfold groups_of. rewrite !legacy_returned_line. f_equal. apply line_sums_perm, legacy_rows_perm. Qed.
Lemma modern_perm : modern_of h ≡ₚ modern_of h'.
Proof. unfold modern_of. by rewrite perm. Qed.

Lemma check_legacy_spec original g : check_legacy original g = Ok tt <->
  is_safe (lg_quantity g) = true /\ lg_quantity g <= Z.of_nat (length (units_of original (lg_line g))) /\
  0 <= sumZ (lg_amounts g) <= MAX_CREDIT_CENTS /\ sumZ (lg_amounts g) = sumZ (take (Z.to_nat (lg_quantity g)) (units_of original (lg_line g))).
Proof.
  unfold check_legacy. split.
  - intros H. inv_ok. bool_props. repeat match goal with E : sum _ _ = Ok _ |- _ => apply funding_sum_ok in E as [-> ?] end. done.
  - intros (H1 & H2 & H3 & H4). rewrite H1, (proj2 (Z.leb_le _ _) H2). cbn [andb]. rewrite funding_sum_intro by done. cbn [bind_result].
    rewrite funding_sum_intro by lia. cbn [bind_result]. by rewrite H4, Z.eqb_refl.
Qed.
Lemma legacy_check_perm original : Forall (fun g => check_legacy original g = Ok tt) (groups_of h) -> Forall (fun g => check_legacy original g = Ok tt) (groups_of h').
Proof.
  intros F. destruct (groups_spec (List.filter is_legacy h)) as (_ & F1 & M1), (groups_spec (List.filter is_legacy h')) as (_ & F2 & M2).
  rewrite Forall_forall in F, F1, F2 |- *. intros g Hg. unfold groups_of in Hg.
  assert (Hl : lg_line g ∈ map lg_line (groups_of h)).
  { apply M1. rewrite legacy_rows_perm. apply M2, list_elem_of_fmap. by exists g. }
  apply list_elem_of_fmap in Hl as (g1 & El & Hg1). destruct (F1 _ Hg1) as [A1 A2], (F2 _ Hg) as [B1 B2].
  destruct (line_sums_perm (lg_line g) _ _ legacy_rows_perm) as [S1 S2]. rewrite <- El, S1 in A1. rewrite <- El, S2 in A2.
  pose proof (proj1 (check_legacy_spec _ _) (F _ Hg1)) as C. rewrite <- El, A1, A2 in C. apply check_legacy_spec. by rewrite B1, B2.
Qed.

Lemma item_read_perm original i : item_read original (groups_of h) i = item_read original (groups_of h') i.
Proof. unfold item_read. by rewrite legacy_returned_perm. Qed.
Lemma item_edges_perm original i : item_edges original (groups_of h) i = item_edges original (groups_of h') i.
Proof. unfold item_edges, item_changes. by rewrite item_read_perm. Qed.
Lemma item_conserves_perm original i : item_conserves original (groups_of h) i = item_conserves original (groups_of h') i.
Proof. unfold item_conserves. destruct i. by rewrite item_read_perm. Qed.
Lemma concat_perm {A} (l l' : list (list A)) : l ≡ₚ l' -> concat l ≡ₚ concat l'.
Proof. induction 1 as [|x l l' _ IH|x y l|l l' l'' _ I1 _ I2]; cbn; [done|by rewrite IH| |by rewrite I1]. rewrite !app_assoc. by rewrite (Permutation_app_comm x y). Qed.
Lemma edges_perm original : edges_of original h ≡ₚ edges_of original h'.
Proof.
  unfold edges_of. rewrite (map_ext _ _ (item_edges_perm original)). apply concat_perm, Permutation_map, modern_perm.
Qed.
End Permuted.

(** ** One order for every chain that can be followed *)

Lemma followed_decreasing chain : forall current out, Forall edge_ok chain -> 0 <= current -> follow current false chain = Ok out ->
  StronglySorted (fun a b => ed_before b < ed_before a) chain /\ Forall (fun e => ed_before e <= current) chain.
Proof.
  induction chain as [|e chain IH]; intros current out F H0 H; [split; constructor|]. cbn in H. inv_ok. bool_props.
  inversion F as [|? ? (A1 & A2 & A3) F']; subst. destruct (ed_returned e).
  - apply follow_returned in H as [-> _]. split; [repeat constructor|]. repeat constructor. lia.
  - destruct (IH (ed_after e) out F' ltac:(lia) H) as [S L]. split.
    + constructor; [done|]. eapply Forall_impl; [exact L|]. cbn. lia.
    + constructor; [lia|]. eapply Forall_impl; [exact L|]. cbn. lia.
Qed.
Lemma edge_sorted l : StronglySorted (fun a b => edge_after a b = false) (sort_stable edge_after l).
Proof.
  apply sort_stable_sorted; unfold edge_after.
  - intros a b. rewrite orb_true_iff, orb_false_iff, !andb_true_iff, Z.ltb_lt, Z.eqb_eq, negb_true_iff. intros [H|[[H1 H2] H3]].
    + split; [apply Z.ltb_ge; lia|]. by rewrite (proj2 (Z.eqb_neq _ _)) by lia.
    + split; [apply Z.ltb_ge; lia|]. by rewrite H2, H3, andb_false_r.
  - intros a b c. rewrite !orb_true_iff, !andb_true_iff, !Z.ltb_lt, !Z.eqb_eq, !negb_true_iff. intros [H|[[H1 H2] H3]].
    + destruct (Z.lt_trichotomy (ed_before a) (ed_before b)) as [?|[?|?]]; [by left; left|right; left; lia|right; left; lia].
    + destruct (Z.lt_trichotomy (ed_before a) (ed_before b)) as [?|[E|?]]; [by left; left| |right; left; lia].
      destruct (ed_returned b) eqn:Eb; [right; right; repeat split; [lia|done]|left; right; done].
Qed.
Lemma chain_perm chain chain' u out : chain ≡ₚ chain' -> Forall edge_ok chain -> 0 <= u ->
  follow u false (sort_stable edge_after chain) = Ok out -> sort_stable edge_after chain' = sort_stable edge_after chain.
Proof.
  intros P F H0 H. assert (F' : Forall edge_ok (sort_stable edge_after chain)) by (by rewrite sort_stable_perm).
  destruct (followed_decreasing _ _ _ F' H0 H) as [S _].
  assert (W : forall l, StronglySorted (fun a b => edge_after a b = false) l -> StronglySorted (fun a b => ed_before b <= ed_before a) l).
  { intros l. induction 1 as [|x l _ IH Hx]; constructor; [done|]. eapply Forall_impl; [exact Hx|]. intros y Hy. cbn in Hy. unfold edge_after in Hy.
    apply orb_false_iff in Hy as [Hy _]. apply Z.ltb_ge in Hy. lia. }
  symmetry. eapply (StronglySorted_unique_strong (fun a b => ed_before b <= ed_before a)); [|apply W, edge_sorted|apply W, edge_sorted|by rewrite !sort_stable_perm].
  intros x y Hx Hy L1 L2. assert (Hy' : y ∈ sort_stable edge_after chain) by (rewrite sort_stable_perm in Hy |- *; by rewrite P).
  clear -S Hx Hy' L1 L2. induction S as [|z l _ IH Hz]; [by apply elem_of_nil in Hx|]. rewrite Forall_forall in Hz.
  apply elem_of_cons in Hx as [Ex|Hx], Hy' as [Ey|Hy]; subst; [done| | |by apply IH].
  - specialize (Hz _ Hy). cbn in Hz. lia.
  - specialize (Hz _ Hx). cbn in Hz. lia.
Qed.

(** A restoration history is a set of rows. However they are listed, a history
    that reads reads to the same state, with the same versioned rows: which
    restoration came first is decided by the amounts they start and end at. *)
Theorem history_order_irrelevant r history history' rs : history ≡ₚ history' -> readState r history true = Ok rs ->
  exists rs', readState r history' true = Ok rs' /\ rs_state rs' = rs_state rs /\ rs_modern rs' ≡ₚ rs_modern rs.
Proof.
  intros Hp H. apply readState_iff in H as (original & lines & P & ->). pose proof P as [Q1 Q2 Q3 Q4 Q5 Q6 Q7 Q8 Q9 Q10 Q11].
  assert (S : sumZ (map hr_amount history') = sumZ (map hr_amount history)) by (by apply sumZ_perm, Permutation_map).
  exists (state_of r history' lines). split; [|split; [unfold state_of; by rewrite S|cbn; by apply modern_perm]].
  apply readState_iff. exists original, lines. split; [|done]. split; rewrite ?S; try done.
  - by rewrite <- Hp.
  - destruct Q3 as [N _]. split; [by rewrite <- Hp|]. by intros x _ ?%elem_of_nil.
  - destruct Q4 as [N _]. split; [by rewrite <- Hp|]. by intros x _ ?%elem_of_nil.
  - by apply (legacy_check_perm history history').
  - rewrite <- (modern_perm _ _ Hp). eapply Forall_impl; [exact Q6|]. intros i [I1 I2]. split; [done|]. by rewrite <- (item_conserves_perm _ _ Hp).
  - intros id d d'. rewrite <- (modern_perm _ _ Hp). apply Q7.
  - apply map_result_Forall2. apply map_result_Forall2 in Q8. pose proof (original_units_ok _ _ Q1) as R.
    apply Forall2_same_length_lookup_2; [by apply Forall2_length in Q8|]. intros k [line units] l Hu Hl. pose proof (Forall2_lookup_lr _ _ _ _ _ _ Q8 Hu Hl) as E.
    apply line_state_iff in E as (us & Hus & ->). apply line_state_iff. exists us. rewrite <- (legacy_returned_perm _ _ Hp). split; [|done].
    apply map_result_Forall2. apply map_result_Forall2 in Hus. apply Forall2_same_length_lookup_2; [by apply Forall2_length in Hus|].
    intros j iu cb Hi Hc. pose proof (Forall2_lookup_lr _ _ _ _ _ _ Hus Hi Hc) as E. unfold unit_state in E |- *. cbn in E.
    assert (U0 : 0 <= snd iu).
    { pose proof (ro_vectors _ _ R) as V. rewrite Forall_lookup in V. destruct (V _ _ Hu) as (_ & _ & V'). apply indexed_lookup in Hi as (u & Hu' & ->).
      rewrite Forall_lookup in V'. apply V' in Hu'. cbn in *. lia. }
    assert (C : chain_of (edges_of original history) line (Z.of_nat (fst iu)) ≡ₚ chain_of (edges_of original history') line (Z.of_nat (fst iu))).
    { unfold chain_of. by apply Permutation_map, filter_perm, edges_perm. }
    destruct (follow (snd iu) false (sort_stable edge_after (chain_of (edges_of original history) line (Z.of_nat (fst iu))))) as [out|] eqn:Ef; [|done].
    rewrite (chain_perm _ _ _ _ C (chain_edges_ok _ _ _ _ _ (edges_ok _ _ _ _ P)) U0 Ef), Ef. exact E.
Qed.

Lemma history_order_irrelevant_witness : exists rs rs', readState sample_redemption sample_history true = Ok rs /\
  readState sample_redemption (rev sample_history) true = Ok rs' /\ rs_state rs' = rs_state rs /\ map hr_amount (rev sample_history) = [100; 150].
Proof.
  destruct (readState sample_redemption sample_history true) as [rs|] eqn:E; [|vm_compute in E; discriminate E].
  destruct (history_order_irrelevant sample_redemption sample_history (rev sample_history) rs (Permutation_rev _) E) as (rs' & H1 & H2 & _).
  exists rs, rs'. split; [reflexivity|]. split; [exact H1|]. split; [exact H2|vm_compute; reflexivity].
Defined.
