(* ===== verification/CreditRestore.v ===== *)
(** Giving credit back: the restoration half of
    [src/packages/api/src/account-credit/service.ts].

    A settled refund, a manual return or a committed order edit restores part of
    an order's redemption. The handlers here read the redemption and its complete
    restoration history, let [EditFunding] plan the rows, and post them with the
    account's balance. They run under the order and account row locks, after the
    provider's outcome is stored.

    Two readers outside this file are parameters. [current_pricing] is
    [readCurrentOrderPricingSnapshot] of [money/current-credit-pricing.ts]: which
    source unit sits at which position of the order's current lines.
    [importedOrigin] is the last part of [readCurrentCreditEvidence]: the proven
    origin of credit that was imported from another shop, [None] for credit
    issued here. *)

From S2P Require Import Prelude JsNumber Json JsonText OrderState Tender AccountCredit EditFunding.
From Stdlib Require Import ZArith Lia Bool String Ascii.
From stdpp Require Import base list strings gmap.
Local Open Scope Z_scope.

(** ** State *)

Record CreditRefundLine := { cl_refundId : string; cl_line : RefundEvidenceLine }.
Record RestoreDb := {
  rb_credit : CreditDb; rb_money : MoneyTables; rb_refundLines : list CreditRefundLine;
  rb_snapshots : gmap string json (* order.pricingSnapshot, where it is not null *)
}.
Definition with_credit (db : RestoreDb) (c : CreditDb) : RestoreDb :=
  {| rb_credit := c; rb_money := rb_money db; rb_refundLines := rb_refundLines db; rb_snapshots := rb_snapshots db |}.
Definition with_snapshot (db : RestoreDb) (o : string) (snapshot : json) : RestoreDb :=
  {| rb_credit := rb_credit db; rb_money := rb_money db; rb_refundLines := rb_refundLines db; rb_snapshots := <[o := snapshot]> (rb_snapshots db) |}.

(** *** Ledger entries as [EditFunding] reads them *)

(** The keys of a [jsonb] object, shortest first, then by their bytes. *)
Definition jsonb_after (a b : string * list Z) : bool :=
  (String.length (fst b) <? String.length (fst a))%nat ||
  ((String.length (fst a) =? String.length (fst b))%nat && str_after (fst a) (fst b)).
Definition allocation_json (a : AccountCreditAllocation) : json :=
  JObj (map (fun e => (fst e, JArr (map int_json (snd e)))) (sort_stable jsonb_after (map_to_list a))).
Definition redemption_of (e : CreditTransaction) : EditFundingRedemption :=
  {| er_id := ct_id e; er_orderId := ct_orderId e; er_accountCreditId := ct_accountId e; er_kind := ct_kind e; er_status := ct_status e;
     er_amount := ct_amount e; er_delta := ct_delta e; er_operationalAllocation := allocation_json <$> ct_allocation e |}.
Definition history_row (e : CreditTransaction) : EditFundingHistoryRow :=
  {| hr_id := ct_id e; hr_idempotencyKey := ct_key e; hr_orderId := ct_orderId e; hr_accountCreditId := ct_accountId e;
     hr_relatedTransactionId := ct_relatedId e; hr_orderLineId := rc_orderLineId (ct_columns e); hr_refundId := rc_refundId (ct_columns e);
     hr_kind := ct_kind e; hr_status := ct_status e; hr_quantity := rc_quantity (ct_columns e); hr_amount := ct_amount e;
     hr_delta := ct_delta e; hr_allocation := rc_allocation (ct_columns e);
     hr_operationalAllocation := rc_operationalAllocation (ct_columns e) |}.

Definition funding_error (e : FundingError) : CreditError := match e with Refusal _ => allocation | TypeError => other_error end.
Definition lift {A} (m : result FundingError A) : result CreditError A :=
  match m with Ok a => Ok a | Err e => Err (funding_error e) end.

(** *** Evidence *)

Definition is_restoration (o : string) (e : CreditTransaction) : bool := on_order o e && bool_decide (ct_kind e = RESTORE).
Definition restorations (db : CreditDb) (o : string) : list CreditTransaction := List.filter (is_restoration o) (cd_entries db).
Definition redemptionForAccount (db : CreditDb) (o accountId : string) : result CreditError (option CreditTransaction) :=
  match List.filter (fun e => is_redemption o e && String.eqb (ct_accountId e) accountId) (cd_entries db) with
  | [] => Ok None
  | [e] => Ok (Some e)
  | _ => Err conflict
  end.
Definition readCreditFundingEvidence (db : CreditDb) (o : string) : result CreditError (option (CreditTransaction * list CreditTransaction)) :=
  let! redemption := redemptionForOrder db o in
  Ok ((fun r => (r, restorations db o)) <$> redemption).
Definition funding_state (r : CreditTransaction) (history : list CreditTransaction) : result FundingError CreditFundingState :=
  readCreditFundingState (redemption_of r) (map history_row history) true.
Definition assertRedemptionAllocation (r : CreditTransaction) : result CreditError unit :=
  guard! is_some (ct_allocation r) or allocation in Ok tt.

Record CreditEvidence := { ev_redemption : CreditTransaction; ev_history : list CreditTransaction; ev_importedOrigin : option json }.
Record SourceUnit := { su_unitId : string; su_originalIndex : option Z }.
Record CurrentPricing := { cx_sourceRefundUnits : list (string * list SourceUnit); cx_admittedLegacyRefundIds : list string }.

(** ** Handlers *)

Section Restore.
Context (gen_random_uuid : nat -> string) (sha256 : string -> string) (localeAfter : string -> string -> bool).
Context (importedOrigin : RestoreDb -> string -> result CreditError (option json)).
Context (current_pricing : RestoreDb -> string -> option json -> result CreditError (option CurrentPricing)).

Definition readCurrentCreditEvidence (db : RestoreDb) (o : string) : result CreditError (option CreditEvidence) :=
  let! funding := readCreditFundingEvidence (rb_credit db) o in
  match funding with
  | None => Ok None
  | Some (r, history) =>
      match cd_accounts (rb_credit db) !! ct_accountId r with
      | None => Err allocation
      | Some account =>
          guard! match cd_promotions (rb_credit db) !! ca_promotionId account with Some p => cp_isAccountCredit p | None => false end or allocation in
          let! origin := importedOrigin db o in
          Ok (Some {| ev_redemption := r; ev_history := history; ev_importedOrigin := origin |})
      end
  end.

Definition anchorImportedCreditOrigin (db : RestoreDb) (o : string) : result CreditError (RestoreDb * option CreditEvidence) :=
  let! _ := lockOrder (rb_credit db) o in
  let! redemption := redemptionForOrder (rb_credit db) o in
  let! _ := match redemption with Some r => let! _ := lockAccount (rb_credit db) (ct_accountId r) in Ok tt | None => Ok tt end in
  let! evidence := readCurrentCreditEvidence db o in
  match rb_snapshots db !! o, evidence ≫= ev_importedOrigin with
  | None, Some origin =>
      let! _ := current_pricing db o (Some origin) in
      let db' := with_snapshot db o origin in
      let! evidence' := readCurrentCreditEvidence db' o in
      guard! is_some evidence' or conflict in
      let! _ := current_pricing db' o (Some origin) in
      Ok (db', evidence')
  | _, _ => Ok (db, evidence)
  end.

(** *** Posting *)

Record Extra := { xt_refundId : option string; xt_actor : option string; xt_reason : string }.
Definition funding_entry (db : CreditDb) (p : EditFundingPosting) (balanceAfter : Z) (x : Extra) : CreditTransaction :=
  {| ct_id := next_entry_id gen_random_uuid db; ct_accountId := po_accountCreditId p; ct_kind := po_kind p; ct_status := po_status p;
     ct_amount := po_amount p; ct_delta := po_delta p; ct_balanceAfter := Some balanceAfter; ct_relatedId := Some (po_relatedTransactionId p);
     ct_key := po_idempotencyKey p; ct_reason := Some (xt_reason x); ct_actor := xt_actor x; ct_orderId := Some (po_orderId p);
     ct_allocation := None;
     ct_columns := {| rc_orderLineId := Some (po_orderLineId p); rc_refundId := xt_refundId x; rc_quantity := Some (po_quantity p);
                      rc_allocation := Some (po_allocation p); rc_operationalAllocation := Some (po_operationalAllocation p) |} |}.
Record Posted := { pt_db : CreditDb; pt_account : CreditAccount; pt_entries : list CreditTransaction }.
Definition post_row (accountId : string) (x : Extra) (acc : Posted) (p : EditFundingPosting) : result CreditError Posted :=
  let! (db1, updated) := setBalance (pt_db acc) accountId (pt_account acc) (ca_balance (pt_account acc) + po_amount p) in
  let e := funding_entry db1 p (ca_balance updated) x in
  let! db2 := insertEntry db1 e in
  Ok {| pt_db := db2; pt_account := updated; pt_entries := pt_entries acc ++ [e] |}.
Definition postFundingRows (db : CreditDb) (accountId : string) (account : CreditAccount) (postings : list EditFundingPosting) (x : Extra)
    : result CreditError Posted :=
  fold_result (post_row accountId x) {| pt_db := db; pt_account := account; pt_entries := [] |} postings.

(** *** Order edits *)

Record EditCreditInput := {
  ec_orderId : string; ec_editId : string; ec_lines : list EditFundingTargetLine; ec_committedEdit : option CommittedEdit
}.
Record PreparedEdit := { pe_plan : EditFundingResult; pe_redemption : CreditTransaction }.
Definition prepareEditCreditFunding (db : CreditDb) (input : EditCreditInput) : result CreditError (option PreparedEdit) :=
  let! order := lockOrder db (ec_orderId input) in
  let! redemption := redemptionForOrder db (ec_orderId input) in
  match redemption with
  | None => Ok None
  | Some r =>
      let! _ := assertRedemptionAllocation r in
      let! account := lockAccount db (ct_accountId r) in
      guard! String.eqb (ca_currency account) (co_currency order) or conflict in
      let! plan := lift (planEditCreditFunding sha256 localeAfter
        {| fi_redemption := redemption_of r; fi_history := map history_row (restorations db (ec_orderId input)); fi_historyComplete := true;
           fi_editId := ec_editId input; fi_lines := ec_lines input; fi_committedEdit := ec_committedEdit input |}) in
      Ok (Some {| pe_plan := plan; pe_redemption := r |})
  end.
Definition edit_extra : Extra := {| xt_refundId := None; xt_actor := None; xt_reason := "Committed order edit" |}.
Definition postEditCreditFunding (db : CreditDb) (input : EditCreditInput) : result CreditError (CreditDb * option PreparedEdit) :=
  let! prepared := prepareEditCreditFunding db input in
  match prepared with
  | Some {| pe_plan := planned _ postings _ _; pe_redemption := r |} =>
      let! account := lockAccount db (ct_accountId r) in
      let! out := postFundingRows db (ct_accountId r) account postings edit_extra in
      Ok (pt_db out, prepared)
  | _ => Ok (db, prepared)
  end.

(** *** One restoration *)

Record RestoreInput := {
  ri_orderId : string; ri_orderLineId : string; ri_quantity : Z; ri_key : string; ri_reason : string; ri_actor : option string;
  ri_refundId : option string; ri_expectedCents : option Z; ri_originalIndexes : option (list (option Z))
}.
Definition for_refund_line (refundId line : string) (e : CreditTransaction) : bool :=
  bool_decide (rc_refundId (ct_columns e) = Some refundId /\ rc_orderLineId (ct_columns e) = Some line).
(** [envelope.units?.map(u => u.index)], printed; [None] is [undefined]. *)
Definition unit_index (u : json) : result CreditError json :=
  match u with JNull => Err other_error | _ => Ok (or_else (field "index" u) JNull) end.
Definition units_text (env : json) : result CreditError (option string) :=
  match field "units" env with
  | None | Some JNull => Ok None
  | Some (JArr us) => let! ixs := map_result unit_index us in Ok (Some (print_json (JArr ixs)))
  | Some _ => Err other_error
  end.
(** A replayed selection must name the units the posted envelope names. *)
Definition check_selection (originalIndexes : option (list (option Z))) (allocation : option string) : result CreditError unit :=
  match originalIndexes, allocation with
  | Some indexes, Some (String _ _ as text) =>
      match JSON_parse text with
      | None | Some JNull => Err other_error
      | Some env =>
          if is_text UNIT_RESTORE (field "type" env) then
            let! units := units_text env in
            guard! bool_decide (units = Some (print_json (JArr (map int_json (known_indexes indexes))))) or conflict in Ok tt
          else Ok tt
      end
  | _, _ => Ok tt
  end.
Definition prior_matches (accountId : string) (r : CreditTransaction) (input : RestoreInput) (prior : CreditTransaction) : bool :=
  let quantity := match ri_originalIndexes input with Some l => Z.of_nat (length (known_indexes l)) | None => ri_quantity input end in
  bool_decide (ct_kind prior = RESTORE /\ ct_status prior = POSTED /\ ct_accountId prior = accountId /\ ct_relatedId prior = Some (ct_id r) /\
    ct_orderId prior = Some (ri_orderId input) /\ rc_orderLineId (ct_columns prior) = Some (ri_orderLineId input) /\
    rc_quantity (ct_columns prior) = Some quantity /\ ct_actor prior = ri_actor input /\ ct_reason prior = Some (ri_reason input) /\
    rc_refundId (ct_columns prior) = ri_refundId input) &&
  match ri_expectedCents input with Some cents => ct_amount prior =? cents | None => true end.
Definition prior_restoration (db : CreditDb) (input : RestoreInput) (history : list CreditTransaction) : result CreditError (option CreditTransaction) :=
  let byRefund := match ri_refundId input with
    | None => []
    | Some id => List.filter (for_refund_line id (ri_orderLineId input)) history end in
  match priorOperation db (ri_key input), byRefund with
  | _, _ :: _ :: _ => Err conflict
  | Some p, [b] => guard! String.eqb (ct_id p) (ct_id b) or conflict in Ok (Some p)
  | Some p, [] => Ok (Some p)
  | None, [b] => Ok (Some b)
  | None, [] => Ok None
  end.
(** The still held units of a line, first ones first. *)
Definition held_units (s : CreditFundingState) (line : string) (quantity : Z) : option (list (option Z)) :=
  match assoc_last line (fs_remaining s) with
  | None => None
  | Some units =>
      let free := List.filter (fun i => negb (returned_has (units_of (fs_returnedIndexes s) line) i)) (map Z.of_nat (seq 0 (length units))) in
      Some (map Some (take (Z.to_nat quantity) free))
  end.
Definition restore_operation (input : RestoreInput) : UnitOperation :=
  if nonempty (ri_refundId input) then {| uo_kind := "refund"; uo_id := or_else (ri_refundId input) EmptyString |}
  else {| uo_kind := "manual_return"; uo_id := substring 7 (String.length (ri_key input)) (ri_key input) |}.
Definition restore_extra (input : RestoreInput) : Extra :=
  {| xt_refundId := ri_refundId input; xt_actor := ri_actor input; xt_reason := ri_reason input |}.
Definition has_line (db : CreditDb) (o line : string) : bool :=
  match cd_orders db !! o with Some order => existsb (fun l => String.eqb (fst l) line) (co_lines order) | None => false end.

Definition postRestoration (db : CreditDb) (accountId : string) (account : CreditAccount) (redeem : CreditTransaction) (input : RestoreInput)
    : result CreditError (CreditDb * CreditAccount * option CreditTransaction) :=
  let! evidence := readCreditFundingEvidence db (ri_orderId input) in
  match evidence with
  | None => Err other_error
  | Some (r, history) =>
      let! s := lift (funding_state r history) in
      let! prior := prior_restoration db input history in
      match prior with
      | Some p =>
          guard! prior_matches accountId redeem input p or conflict in
          let! _ := check_selection (ri_originalIndexes input) (rc_allocation (ct_columns p)) in
          Ok (db, account, Some p)
      | None =>
          guard! has_line db (ri_orderId input) (ri_orderLineId input) && bool_decide (ct_orderId redeem = Some (ri_orderId input)) or allocation in
          match match ri_originalIndexes input with Some l => Some l | None => held_units s (ri_orderLineId input) (ri_quantity input) end with
          | None => Err allocation
          | Some indexes =>
              guard! Z.of_nat (length indexes) =? ri_quantity input or allocation in
              let! (posting, _) := lift (planCreditUnitReturn (redemption_of r) (map history_row history) true (restore_operation input)
                (ri_orderLineId input) indexes) in
              match posting with
              | None =>
                  guard! match ri_expectedCents input with Some c => c =? 0 | None => true end or conflict in Ok (db, account, None)
              | Some p =>
                  guard! match ri_expectedCents input with Some c => po_amount p =? c | None => true end or conflict in
                  let! out := postFundingRows db accountId account [p] (restore_extra input) in
                  Ok (pt_db out, pt_account out, head (pt_entries out))
              end
          end
      end
  end.

(** *** Settled refunds *)

(** Where each position of a line comes from. *)
Definition Mapping : Type := list (string * list (option Z)).
Definition pricing_mapping (c : CurrentPricing) : Mapping :=
  map (fun l => (fst l, map su_originalIndex (snd l))) (cx_sourceRefundUnits c).
Definition identity_mapping (r : CreditTransaction) : Mapping :=
  match ct_allocation r with
  | Some a => map (fun l => (fst l, map (fun i => Some (Z.of_nat i)) (seq 0 (length (snd l))))) (map_to_list a)
  | None => []
  end.
Definition mapped_at (m : Mapping) (line : string) (position : Z) : option (option Z) :=
  assoc_last line m ≫= fun ixs => if 0 <=? position then ixs !! Z.to_nat position else None.
Definition positions_agree (m : Mapping) (l : CreditUnitReturnLine) : bool :=
  forallb (fun '(position, index) => bool_decide (mapped_at m (ur_orderLineId l) position = Some index)) (zip (ur_positions l) (ur_originalIndexes l)).
Fixpoint unit_position (id : string) (units : list SourceUnit) : option nat :=
  match units with
  | [] => None
  | u :: rest => if String.eqb (su_unitId u) id then Some 0%nat else S <$> unit_position id rest
  end.
Definition custody_agrees (c : CurrentPricing) (l : CreditUnitReturnLine) : bool :=
  let ids := match ur_custody l with Some u => cu_unitIds u | None => [] end in
  forallb (fun '(id, index) =>
    match assoc_last (ur_orderLineId l) (cx_sourceRefundUnits c) ≫= unit_position id with
    | Some k => bool_decide (mapped_at (pricing_mapping c) (ur_orderLineId l) (Z.of_nat k) = Some index)
    | None => false
    end) (zip ids (ur_originalIndexes l)).
Definition frozen_unposted (history : list CreditTransaction) (refundId : string) (f : CreditUnitReturns) : bool :=
  existsb (fun l => negb (is_nil (known_indexes (ur_originalIndexes l))) &&
                    negb (existsb (for_refund_line refundId (ur_orderLineId l)) history)) (cr_lines f).
(** The frozen units must still sit where the refund found them. *)
Definition check_frozen (db : RestoreDb) (o refundId : string) (redeem : CreditTransaction) (evidence : CreditEvidence) (f : CreditUnitReturns)
    : result CreditError unit :=
  if frozen_unposted (ev_history evidence) refundId f then
    let snapshot := rb_snapshots db !! o in
    guard! negb (cr_version f =? 1) ||
           String.eqb (cr_snapshotDigest f) (creditReturnSnapshotDigest sha256 (or_else snapshot JNull)) or conflict in
    let! current := current_pricing db o (match snapshot with Some s => Some s | None => ev_importedOrigin evidence end) in
    let mapping := match current with Some c => pricing_mapping c | None => identity_mapping redeem end in
    guard! negb (cr_version f =? 1) || forallb (positions_agree mapping) (cr_lines f) or conflict in
    guard! negb (cr_version f =? 2) || match current with Some c => forallb (custody_agrees c) (cr_lines f) | None => false end or conflict in
    Ok tt
  else Ok tt.
Definition frozen_line (f : CreditUnitReturns) (line : string) : option CreditUnitReturnLine :=
  List.find (fun l => String.eqb (ur_orderLineId l) line) (cr_lines f).
(** What [restoreRefund] asks of a refund line. *)
Definition refund_restore (o refundId : string) (frozen : option CreditUnitReturns) (l : RefundEvidenceLine) : result CreditError RestoreInput :=
  let line := rv_orderLineId l in
  let! (cents, indexes) := match frozen with
    | None => Ok (None, None)
    | Some f => match frozen_line f line with
                | Some u => Ok (Some (sumZ (ur_creditCents u)), Some (ur_originalIndexes u))
                | None => Err other_error end
    end in
  Ok {| ri_orderId := o; ri_orderLineId := line; ri_quantity := rv_quantity l; ri_key := refund_key refundId line;
        ri_reason := "Settled merchandise refund"; ri_actor := None; ri_refundId := Some refundId;
        ri_expectedCents := cents; ri_originalIndexes := indexes |}.
Record RefundRun := { rr_db : CreditDb; rr_account : CreditAccount; rr_seen : list string; rr_entries : list CreditTransaction }.
Definition restore_line (accountId o refundId : string) (redeem : CreditTransaction) (frozen : option CreditUnitReturns) (acc : RefundRun) (l : RefundEvidenceLine)
    : result CreditError RefundRun :=
  guard! negb (existsb (String.eqb (rv_orderLineId l)) (rr_seen acc)) or conflict in
  let! input := refund_restore o refundId frozen l in
  let! out := postRestoration (rr_db acc) accountId (rr_account acc) redeem input in
  let '(db, account, e) := out in
  Ok {| rr_db := db; rr_account := account; rr_seen := rr_seen acc ++ [rv_orderLineId l];
        rr_entries := rr_entries acc ++ match e with Some e => [e] | None => [] end |}.
Definition refund_lines (db : RestoreDb) (refundId : string) : list RefundEvidenceLine :=
  map cl_line (List.filter (fun l => String.eqb (cl_refundId l) refundId) (rb_refundLines db)).
Definition frozen_closed (redeem : CreditTransaction) (f : CreditUnitReturns) (lines : list RefundEvidenceLine) : bool :=
  String.eqb (cr_redemptionId f) (ct_id redeem) && (length (cr_lines f) =? length lines)%nat &&
  forallb (fun u => existsb (fun l => String.eqb (rv_orderLineId l) (ur_orderLineId u) && (rv_quantity l =? Z.of_nat (length (ur_positions u)))) lines) (cr_lines f).

Definition restoreRefund (db : RestoreDb) (o refundId : string) : result CreditError (RestoreDb * list CreditTransaction) :=
  let! order := lockOrder (rb_credit db) o in
  match List.find (fun r => String.eqb (rf_orderId r) o && String.eqb (rf_id r) refundId) (mt_refunds (rb_money db)) with
  | None => Err unavailable
  | Some refund =>
      guard! bool_decide (rf_state refund = ref_Settled) or unavailable in
      let! redemption := redemptionForOrder (rb_credit db) o in
      match redemption with
      | None => Ok (db, [])
      | Some redeem =>
          let! _ := assertRedemptionAllocation redeem in
          let! account := lockAccount (rb_credit db) (ct_accountId redeem) in
          let lines := refund_lines db refundId in
          let! found := readCurrentCreditEvidence db o in
          let! frozen := match readCreditRefundEvidence sha256 (rf_metadata refund) lines with Ok f => Ok f | Err _ => Err allocation end in
          guard! String.eqb (ca_currency account) (co_currency order) or conflict in
          guard! match frozen with Some f => frozen_closed redeem f lines | None => true end or conflict in
          guard! is_some frozen || negb (is_number 2 (opt_field "version" (rb_snapshots db !! o))) or allocation in
          match found with
          | None => Err other_error
          | Some evidence =>
              let! _ := match frozen with Some f => check_frozen db o refundId redeem evidence f | None => Ok tt end in
              let! out := fold_result (restore_line (ct_accountId redeem) o refundId redeem frozen)
                {| rr_db := rb_credit db; rr_account := account; rr_seen := []; rr_entries := [] |} lines in
              Ok (with_credit db (rr_db out), rr_entries out)
          end
      end
  end.

(** *** Manual returns *)

Record RestoreManualInput := {
  rm_accountId : string; rm_orderId : string; rm_orderLineId : string; rm_quantity : Z; rm_expectedCents : Z;
  rm_operationKey : string; rm_actor : string; rm_reason : string
}.
(** The units of the line that refunds in force hold. *)
Definition reserve_units (db : RestoreDb) (redeem : CreditTransaction) (history : list CreditTransaction) (current : option CurrentPricing)
    (line : string) (reserved : list Z) (refund : Refund) : result CreditError (list Z) :=
  if match current with Some c => existsb (String.eqb (rf_id refund)) (cx_admittedLegacyRefundIds c) | None => false end then Ok reserved else
  match readCreditUnitReturns sha256 (rf_metadata refund) with
  | Err _ => Err allocation
  | Ok (Some f) =>
      guard! String.eqb (cr_redemptionId f) (ct_id redeem) or allocation in
      Ok (reserved ++ flat_map (fun l => if String.eqb (ur_orderLineId l) line then known_indexes (ur_originalIndexes l) else []) (cr_lines f))
  | Ok None =>
      let lines := List.filter (fun l => String.eqb (rv_orderLineId l) line) (refund_lines db (rf_id refund)) in
      match lines, List.filter (for_refund_line (rf_id refund) line) history with
      | [], _ => Ok reserved
      | [l], [row] =>
          guard! bool_decide (rf_state refund = ref_Settled) && bool_decide (rc_quantity (ct_columns row) = Some (rv_quantity l)) or allocation in
          Ok reserved
      | _, _ => Err allocation
      end
  end.
Definition source_indexes (current : option CurrentPricing) (s : CreditFundingState) (line : string) : option (list (option Z)) :=
  match current ≫= fun c => assoc_last line (cx_sourceRefundUnits c) with
  | Some units => Some (map su_originalIndex units)
  | None => (fun units => map (fun i => Some (Z.of_nat i)) (seq 0 (length units))) <$> assoc_last line (fs_remaining s)
  end.
Definition manual_units (db : RestoreDb) (input : RestoreManualInput) (redeem : CreditTransaction) (evidence : CreditEvidence)
    : result CreditError (list (option Z)) :=
  let o := rm_orderId input in let line := rm_orderLineId input in
  let! s := lift (funding_state (ev_redemption evidence) (ev_history evidence)) in
  let! current := current_pricing db o (match rb_snapshots db !! o with Some x => Some x | None => ev_importedOrigin evidence end) in
  let refunds := List.filter (fun r => String.eqb (rf_orderId r) o && negb (bool_decide (rf_state r = ref_Failed))) (mt_refunds (rb_money db)) in
  let! reserved := fold_result (reserve_units db redeem (ev_history evidence) current line) [] refunds in
  match source_indexes current s line with
  | None => Err allocation
  | Some mapping =>
      let free := List.filter (fun i => negb (returned_has (units_of (fs_returnedIndexes s) line) i) && negb (existsb (Z.eqb i) reserved)) (known_indexes mapping) in
      let chosen := take (Z.to_nat (rm_quantity input)) free in
      guard! Z.of_nat (length chosen) =? rm_quantity input or allocation in Ok (map Some chosen)
  end.

Definition restoreManual (db : RestoreDb) (input : RestoreManualInput) : result CreditError (RestoreDb * CreditTransaction) :=
  let o := rm_orderId input in
  let! _ := operator (rm_operationKey input) (rm_actor input) (rm_reason input) in
  let! _ := assertCents (rm_expectedCents input) false in
  guard! is_safe (rm_quantity input) && (1 <=? rm_quantity input) or invalid_input in
  let! order := lockOrder (rb_credit db) o in
  guard! is_ok (assertNoPendingOrderEdit (rb_money db) o None) or conflict in
  let! redemption := redemptionForAccount (rb_credit db) o (rm_accountId input) in
  match redemption with
  | None => Err missing
  | Some redeem =>
      let! _ := assertRedemptionAllocation redeem in
      let! account := lockAccount (rb_credit db) (rm_accountId input) in
      guard! String.eqb (ca_currency account) (co_currency order) or conflict in
      let key := manual_key (rm_operationKey input) in
      let! (db1, indexes) := match priorOperation (rb_credit db) key with
        | Some _ => Ok (db, None)
        | None =>
            let! (db1, found) := anchorImportedCreditOrigin db o in
            match found with
            | None => Err other_error
            | Some evidence => let! chosen := manual_units db1 input redeem evidence in Ok (db1, Some chosen)
            end
        end in
      let! out := postRestoration (rb_credit db1) (rm_accountId input) account redeem
        {| ri_orderId := o; ri_orderLineId := rm_orderLineId input; ri_quantity := rm_quantity input; ri_key := key;
           ri_reason := rm_reason input; ri_actor := Some (rm_actor input); ri_refundId := None;
           ri_expectedCents := Some (rm_expectedCents input); ri_originalIndexes := indexes |} in
      match out with
      | (db2, _, Some e) => Ok (with_credit db1 db2, e)
      | (_, _, None) => Err allocation
      end
  end.

(** [afterSettlement]: the savepoint keeps the settled refund when posting fails. *)
Definition restoreRefundAfterSettlement (db : RestoreDb) (o refundId : string) : RestoreDb * result CreditError (list CreditTransaction) :=
  match restoreRefund db o refundId with
  | Ok (db', entries) => (db', Ok entries)
  | Err e => (db, Err e)
  end.
End Restore.
