(* ===== verification/RestoreFacts.v ===== *)
(** What restorations guarantee: over any run of the credit handlers the
    restored cents of an order stay within its redemption and its history stays
    readable; a refund restores once. *)

From S2P Require Import Prelude JsNumber Json JsonText OrderState Tender AccountCredit EditFunding FundingFacts FundingReplay CreditRestore.
From Stdlib Require Import ZArith Lia Bool String Ascii.
From stdpp Require Import base list strings gmap.
Local Open Scope Z_scope.

(** ** Handlers that leave redemptions and restorations alone *)

Definition redemptions (db : CreditDb) (o : string) : list CreditTransaction := List.filter (is_redemption o) (cd_entries db).
(** A JavaScript array has fewer than 2^32 elements. *)
Definition alloc_sized (a : AccountCreditAllocation) : Prop := forall line units, a !! line = Some units -> Z.of_nat (length units) < 2 ^ 32.
Definition entry_sized (e : CreditTransaction) : Prop := forall a, ct_allocation e = Some a -> alloc_sized a.

Record quiet (db db' : CreditDb) : Prop := {
  qt_restores : forall o, restorations db' o = restorations db o;
  qt_redeems : forall o, exists news, redemptions db' o = redemptions db o ++ news;
  qt_sized : Forall entry_sized (cd_entries db) -> Forall entry_sized (cd_entries db')
}.

Lemma quiet_same db db' : cd_entries db' = cd_entries db -> quiet db db'.
Proof. intros E. split; unfold restorations, redemptions; rewrite E; [done| |done]. intros o. exists []. by rewrite app_nil_r. Qed.
Lemma quiet_trans a b c : quiet a b -> quiet b c -> quiet a c.
Proof.
  intros [A1 A2 A3] [B1 B2 B3]. split; [intros o; by rewrite B1|intros o|auto].
  destruct (A2 o) as [x Hx], (B2 o) as [y Hy]. exists (x ++ y). by rewrite Hy, Hx, app_assoc.
Qed.
Lemma insert_quiet db e db' : insertEntry db e = Ok db' -> ct_kind e <> RESTORE -> entry_sized e -> quiet db db'.
Proof.
  intros H K S. apply insertEntry_spec in H as (-> & _). split; cbn.
  - intros o. unfold restorations. cbn. rewrite List.filter_app. cbn. unfold is_restoration at 2. rewrite bool_decide_eq_false_2 by done.
    by rewrite andb_false_r, app_nil_r.
  - intros o. unfold redemptions. cbn. rewrite List.filter_app. by eexists.
  - intros F. apply Forall_app. split; [done|by constructor].
Qed.
Lemma filter_status p id st (es : list CreditTransaction) : (forall e, e ∈ es -> ct_id e = id -> p e = false /\ p (set_status id st e) = false) ->
  List.filter p (map (set_status id st) es) = List.filter p es.
Proof.
  induction es as [|e es IH]; intros H; cbn; [done|]. rewrite IH by (intros x Hx; apply H; by right).
  destruct (String.eqb_spec (ct_id e) id) as [E|E].
  - destruct (H e ltac:(by left) E) as [-> ->]. done.
  - by rewrite (set_status_other id st e) by by apply String.eqb_neq.
Qed.
Lemma close_quiet db o h st : credit_ok db -> pendingForOrder db o = Some h -> quiet db (update_status db (ct_id h) st).
Proof.
  intros Hok Hp. apply pendingForOrder_some in Hp as (Hin & Hp & _). apply bool_decide_eq_true in Hp as [Hk _].
  assert (U : forall e, e ∈ cd_entries db -> ct_id e = ct_id h -> e = h).
  { intros e He E. exact (NoDup_map_inj ct_id _ e h (ok_ids _ Hok) He Hin E). }
  assert (F : forall e, e ∈ cd_entries db -> ct_id e = ct_id h -> ct_kind e = RESERVE /\ ct_kind (set_status (ct_id h) st e) = RESERVE).
  { intros e He E. rewrite (U e He E). unfold set_status. rewrite String.eqb_refl. done. }
  split.
  - intros o'. apply filter_status. intros e He E. destruct (F e He E) as [F1 F2]. unfold is_restoration. rewrite F1, F2.
    by rewrite !(bool_decide_eq_false_2 (RESERVE = RESTORE)), !andb_false_r.
  - intros o'. exists []. rewrite app_nil_r. apply filter_status. intros e He E. destruct (F e He E) as [F1 F2]. unfold is_redemption. rewrite F1, F2.
    by rewrite !(bool_decide_eq_false_2 (RESERVE = REDEEM)), !andb_false_r.
  - intros S. cbn. apply Forall_map. eapply Forall_impl; [exact S|]. intros e He a. cbn. unfold set_status. destruct (String.eqb _ _); apply He.
Qed.

Section Frames.
Context (gen : nat -> string) (JSON_parse : string -> option json).

Definition op_sized (op : CreditOp) : Prop := match op with op_redeem input => alloc_sized (rd_allocation input) | _ => True end.

Lemma quiet_via db db1 e db' : cd_entries db1 = cd_entries db -> insertEntry db1 e = Ok db' -> ct_kind e <> RESTORE -> entry_sized e -> quiet db db'.
Proof. intros E H K S. eapply quiet_trans; [exact (quiet_same db db1 E)|]. by eapply insert_quiet. Qed.
Lemma quiet_closed db o h st db1 e db' : credit_ok db -> pendingForOrder db o = Some h -> cd_entries db1 = cd_entries (update_status db (ct_id h) st) ->
  insertEntry db1 e = Ok db' -> ct_kind e <> RESTORE -> entry_sized e -> quiet db db'.
Proof. intros Hok Hp E H K S. eapply quiet_trans; [exact (close_quiet db o h st Hok Hp)|]. by eapply quiet_via. Qed.

Lemma redeem_quiet db input d out : credit_ok db -> alloc_sized (rd_allocation input) -> redeem gen db input = Ok (d, out) -> quiet db d.
Proof.
  intros Hok Hs H. unfold redeem in H. inv_ok. destruct (pendingForOrder db (rd_orderId input)) as [h|] eqn:Eh.
  2: { inv_ok. destruct a1 as [e|]; [destruct (_ || _); [discriminate|]|]; inv_ok; by apply quiet_same. }
  inv_ok. destruct (rd_appliedAmount input =? 0); inv_ok.
  { match goal with E : releaseEntry _ _ _ _ _ _ = Ok _ |- _ => eapply (quiet_closed db _ h); [done|exact Eh|reflexivity|exact E|done|done] end. }
  match goal with E : setBalance _ _ _ _ = Ok _ |- _ => unfold setBalance in E end. inv_ok.
  match goal with E : insertEntry _ _ = Ok ?db3 |- _ => assert (Q : quiet db db3) end.
  { match goal with E : insertEntry _ _ = Ok _ |- _ => eapply (quiet_closed db _ h POSTED _ _ _ Hok Eh); [|exact E|done|]; [reflexivity|] end.
    intros al [= <-]. exact Hs. }
  destruct (rd_appliedAmount input <? ct_amount h); inv_ok; [|done]. eapply quiet_trans; [exact Q|].
  match goal with E : releaseEntry _ _ _ _ _ _ = Ok _ |- _ => eapply insert_quiet; [exact E|done|done] end.
Qed.

Lemma run_credit_quiet db op d : credit_ok db -> op_sized op -> run_credit_op gen JSON_parse db op = Ok d -> quiet db d.
Proof.
  intros Hok Hs H. destruct op; cbn in H; inv_ok; destruct a as [d1 out]; inv_ok.
  - unfold issue in *. inv_ok. destruct (List.find _ _) as [[id x]|]; inv_ok; [by apply quiet_same|].
    match goal with E : insertEntry _ _ = Ok _ |- _ => eapply quiet_via; [|exact E|done|done]; reflexivity end.
  - unfold adjust in *. inv_ok. destruct (priorOperation _ _); inv_ok; [by apply quiet_same|].
    match goal with E : setBalance _ _ _ _ = Ok _ |- _ => unfold setBalance in E end. inv_ok.
    match goal with E : insertEntry _ _ = Ok _ |- _ => eapply quiet_via; [|exact E|done|done]; reflexivity end.
  - unfold disable in *. inv_ok. destruct (priorOperation _ _); inv_ok; [by apply quiet_same|].
    match goal with E : insertEntry _ _ = Ok _ |- _ => eapply quiet_via; [|exact E|by destruct disabled|done]; reflexivity end.
  - unfold reserve in *. inv_ok. destruct (pendingForOrder _ _) as [h|] eqn:Eh.
    + destruct (ct_amount h =? _); inv_ok; [by apply quiet_same|].
      match goal with E : insertEntry _ _ = Ok _ |- _ => eapply (quiet_closed db _ h); [done|exact Eh|reflexivity|exact E|done|done] end.
    + inv_ok. match goal with E : insertEntry _ _ = Ok _ |- _ => eapply insert_quiet; [exact E|done|done] end.
  - by eapply redeem_quiet.
  - unfold release in *. inv_ok. destruct (pendingForOrder _ _) as [h|] eqn:Eh; inv_ok; [|by apply quiet_same].
    match goal with H : (if negb ?b then _ else _) = Ok _ |- _ => destruct b; cbn [negb] in H end; inv_ok; [|by apply quiet_same].
    match goal with E : releaseEntry _ _ _ _ _ _ = Ok _ |- _ => eapply (quiet_closed db _ h); [done|exact Eh|reflexivity|exact E|done|done] end.
Qed.
End Frames.

(** ** The restoration invariant *)

Record restore_ok (db : CreditDb) : Prop := {
  ro_credit : credit_ok db;
  ro_sized : Forall entry_sized (cd_entries db);
  ro_redeemed : forall o, restorations db o <> [] -> redemptions db o <> [];
  ro_reads : forall o r, redemptions db o = [r] -> restorations db o <> [] -> exists s, funding_state r (restorations db o) = Ok s
}.

Lemma quiet_ok db db' : restore_ok db -> quiet db db' -> credit_ok db' -> restore_ok db'.
Proof.
  intros [A S R F] [Q1 Q2 Q3] C. split; [done|by apply Q3| |].
  - intros o. rewrite Q1. intros H. destruct (Q2 o) as [news ->]. intros E. apply app_eq_nil in E as [E _]. by apply (R o).
  - intros o r. rewrite Q1. intros E H. destruct (Q2 o) as [news En]. rewrite En in E. specialize (R o H).
    destruct (redemptions db o) as [|x l] eqn:Er; [done|]. injection E as -> E. apply app_eq_nil in E as [-> _]. by apply F.
Qed.

Lemma redemptionForOrder_some db o r : redemptionForOrder db o = Ok (Some r) <-> redemptions db o = [r].
Proof.
  unfold redemptionForOrder, redemptions. destruct (List.filter _ _) as [|x [|y l]]; split; intros H; try done; congruence.
Qed.
Lemma redemption_facts db o r : redemptions db o = [r] -> r ∈ cd_entries db /\ ct_orderId r = Some o /\ ct_kind r = REDEEM /\ ct_status r = POSTED.
Proof.
  intros E. assert (H : r ∈ redemptions db o) by (rewrite E; by left). apply elem_filter_bool in H as [H1 H2].
  unfold is_redemption, on_order in H2. apply andb_true_iff in H2 as [H2 H4]. apply andb_true_iff in H2 as [H2 H3].
  apply bool_decide_eq_true in H2, H3, H4. done.
Qed.

(** ** Posting planned rows *)

Lemma allocation_json_elem a k v : (k, v) ∈ map (fun e : string * list Z => (fst e, JArr (map int_json (snd e)))) (sort_stable jsonb_after (map_to_list (a : AccountCreditAllocation))) ->
  exists units, a !! k = Some units /\ v = JArr (map int_json units).
Proof.
  intros H. apply list_elem_of_fmap in H as ([k' units] & E & H). cbn in E. injection E as -> ->.
  rewrite (sort_stable_perm jsonb_after) in H. apply elem_of_map_to_list in H. by exists units.
Qed.
Lemma unit_vector_length k v y : unit_vector (k, v) = Some y -> exists l, v = JArr l /\ length (snd y) = length l.
Proof.
  unfold unit_vector. cbn [fst snd]. destruct v; try done. destruct (_ && _); [|done]. destruct (all_some _) as [us|] eqn:E; [|done].
  intros [= <-]. eexists. split; [done|]. apply all_some_Forall2 in E. symmetry. by apply Forall2_length in E.
Qed.
Lemma redemption_sized e : entry_sized e -> array_sized (redemption_of e).
Proof.
  intros S original H. unfold original_units in H. inv_ok. clear Eb.
  change (er_operationalAllocation (redemption_of e)) with (allocation_json <$> ct_allocation e) in *.
  destruct (ct_allocation e) as [a|] eqn:Ea; [|done]. unfold allocation_json in H. cbn [fmap option_fmap option_map] in H.
  destruct (all_some _) as [vs|] eqn:E; [|done]. inv_ok. apply all_some_Forall2 in E. apply Forall_forall. intros y Hy.
  apply list_elem_of_lookup in Hy as [i Hi]. destruct (Forall2_lookup_r _ _ _ _ _ E Hi) as ([k v] & Hk & Ey).
  apply unit_vector_length in Ey as (l & -> & ->). apply list_elem_of_lookup_2 in Hk. apply list_elem_of_fmap in Hk as (k' & Ek & _).
  injection Ek as <- Ek. destruct (assoc_last k _) as [v|] eqn:Ev; [|done]. cbn in Ek. subst v.
  apply assoc_last_elem, allocation_json_elem in Ev as (units & Hu & [= ->]). rewrite length_map. by apply (S a Ea k).
Qed.

Section Posting.
Context (gen : nat -> string) (accountId : string) (x : Extra).

(** What a run of postings leaves: the entries it appended, the balance it added. *)
Record posted_run (db : CreditDb) (account : CreditAccount) (ps : list EditFundingPosting) (db' : CreditDb) (account' : CreditAccount)
    (es : list CreditTransaction) : Prop := {
  pr_entries : cd_entries db' = cd_entries db ++ es;
  pr_rows : Forall2 (fun e p => exists d b, e = funding_entry gen d p b x) es ps;
  pr_credit : credit_ok db';
  pr_account : cd_accounts db' !! accountId = Some account';
  pr_balance : ca_balance account' = ca_balance account + sumZ (map po_amount ps);
  pr_same : ca_promotionId account' = ca_promotionId account /\ ca_currency account' = ca_currency account;
  pr_frame : cd_orders db' = cd_orders db /\ cd_promotions db' = cd_promotions db
}.
Definition own_posting (p : EditFundingPosting) : Prop := po_kind p = RESTORE /\ po_delta p = po_amount p /\ po_accountCreditId p = accountId.

Lemma post_rows_spec ps : forall acc out, fold_result (post_row gen accountId x) acc ps = Ok out ->
  credit_ok (pt_db acc) -> cd_accounts (pt_db acc) !! accountId = Some (pt_account acc) -> Forall own_posting ps ->
  exists es, posted_run (pt_db acc) (pt_account acc) ps (pt_db out) (pt_account out) es /\ pt_entries out = pt_entries acc ++ es.
Proof.
  induction ps as [|p ps IH]; intros acc out H Hok Ha F; cbn [fold_result] in H.
  { inv_ok. exists []. rewrite app_nil_r. split; [|done]. split; try done; rewrite ?app_nil_r; cbn; (done || lia || constructor). }
  inversion F as [|? ? (K & D & A) F']; subst. destruct (post_row _ _ _ acc p) as [mid|] eqn:Em; [|done]. cbn [bind_result] in H.
  unfold post_row, setBalance in Em. inv_ok. match goal with E : assertCents _ _ = Ok _ |- _ => apply assertCents_unit in E end.
  match goal with E : insertEntry _ ?e0 = Ok _ |- _ => rename E into Hins; set (e := e0) in * end.
  pose proof (insertEntry_spec _ _ _ Hins) as (Ed & Hn & _). cbn in Hn.
  destruct (ok_accounts _ Hok _ _ Ha) as (_ & B & _).
  rename a into db1. assert (Hok1 : credit_ok db1).
  { eapply (balance_post (pt_db acc) accountId (pt_account acc) (po_amount p)); [done|done|lia|lia|exact Hins|done|done|]. unfold is_pending. cbn.
    apply bool_decide_eq_false_2. rewrite K. by intros [? _]. }
  apply IH in H as (es & [R1 R2 R3 R4 R5 R6 R7] & R8); [|done|subst db1; cbn; apply lookup_insert_eq|done].
  cbn [pt_db pt_account pt_entries] in *. exists (e :: es). split; [|by rewrite R8, <- app_assoc].
  split; try done.
  - rewrite R1, Ed. cbn. by rewrite <- app_assoc.
  - constructor; [by eexists _, _|done].
  - rewrite R5. cbn. lia.
  - rewrite (proj1 R7), (proj2 R7), Ed. done.
Qed.

Lemma posted_rows db account ps db' account' es : posted_run db account ps db' account' es -> Forall (fun p => po_refundId p = xt_refundId x) ps ->
  map history_row es = zip_with row_of_posting (map ct_id es) ps.
Proof.
  intros R. pose proof (pr_rows _ _ _ _ _ _ R) as F. clear R. induction F as [|e p es ps (d & b & ->) _ IH]; intros G; [done|].
  inversion G as [|? ? Hr G']; subst. cbn [map zip_with]. rewrite (IH G'). f_equal. unfold history_row, row_of_posting, funding_entry. cbn. by rewrite Hr.
Qed.
End Posting.

Lemma redemptions_evidence db o r : redemptions db o = [r] -> readCreditFundingEvidence db o = Ok (Some (r, restorations db o)).
Proof. intros E. unfold readCreditFundingEvidence. apply redemptionForOrder_some in E. by rewrite E. Qed.

(** New rows on the order [o] only add to its history. *)
Lemma posted_restore_ok gen accountId x db account ps db' account' es o r : restore_ok db -> redemptions db o = [r] ->
  posted_run gen accountId x db account ps db' account' es -> Forall (fun p => po_kind p = RESTORE /\ po_orderId p = o) ps ->
  restorations db' o = restorations db o ++ es /\ redemptions db' o = [r] /\
  ((exists s, funding_state r (restorations db o ++ es) = Ok s) -> restore_ok db').
Proof.
  intros [A S R F] Hr Run G.
  assert (N : Forall (fun e => ct_kind e = RESTORE /\ ct_orderId e = Some o /\ ct_allocation e = None) es).
  { pose proof (pr_rows _ _ _ _ _ _ _ _ _ Run) as W. clear -W G. induction W as [|e p es ps (d & b & ->) _ IH]; [constructor|].
    inversion G as [|? ? [G1 G2] G']; subst. constructor; [done|by apply IH]. }
  assert (Q : forall o', redemptions db' o' = redemptions db o').
  { intros o'. unfold redemptions. rewrite (pr_entries _ _ _ _ _ _ _ _ _ Run), List.filter_app. rewrite (filter_none _ es); [by rewrite app_nil_r|].
    rewrite Forall_forall in N. intros e He. destruct (N e He) as (K & _). unfold is_redemption. rewrite K.
    rewrite (bool_decide_eq_false_2 (RESTORE = REDEEM)) by done. by rewrite andb_false_r. }
  assert (H : forall o', restorations db' o' = restorations db o' ++ if decide (o' = o) then es else []).
  { intros o'. unfold restorations. rewrite (pr_entries _ _ _ _ _ _ _ _ _ Run), List.filter_app. f_equal. rewrite Forall_forall in N.
    destruct (decide (o' = o)) as [->|Hne].
    - apply forallb_filter_id, forallb_forall. intros e He. apply list_elem_of_In in He. destruct (N e He) as (K & O & _). unfold is_restoration, on_order.
      by rewrite K, O, !bool_decide_eq_true_2.
    - apply filter_none. intros e He. destruct (N e He) as (K & O & _). unfold is_restoration, on_order.
      rewrite O, bool_decide_eq_false_2; [done|congruence]. }
  split; [by rewrite H, decide_True|]. split; [by rewrite Q|]. intros [s Es]. split.
  - apply Run.
  - rewrite (pr_entries _ _ _ _ _ _ _ _ _ Run). apply Forall_app. split; [done|]. eapply Forall_impl; [exact N|]. intros e (_ & _ & E) a. by rewrite E.
  - intros o'. rewrite Q. rewrite H. destruct (decide (o' = o)) as [->|]; [by rewrite Hr|]. rewrite app_nil_r. apply R.
  - intros o' r'. rewrite Q, H. destruct (decide (o' = o)) as [->|]; [|rewrite app_nil_r; apply F].
    rewrite Hr. intros [= <-] _. by exists s.
Qed.

(** ** Unit returns *)

Lemma changes_indexes remaining returned idx : forall seen cs, return_changes remaining returned seen idx = Ok cs -> map uc_index cs = known_indexes idx.
Proof.
  induction idx as [|[i|] idx IH]; intros seen cs H; cbn [return_changes] in H; inv_ok; [done| |by apply IH in H].
  cbn. f_equal. by eapply IH.
Qed.
Lemma unit_posting_own r h op line indexes p s : planCreditUnitReturn r h true op line indexes = Ok (Some p, s) ->
  posts_for r (if String.eqb (uo_kind op) "refund" then Some (uo_id op) else None) p /\ po_orderLineId p = line /\
  po_quantity p = Z.of_nat (length (known_indexes indexes)) /\ 
  po_idempotencyKey p = if String.eqb (uo_kind op) "refund" then refund_key (uo_id op) line else manual_key (uo_id op).
Proof.
  intros H. apply unit_plan_ok in H as (original & lines & cs & units & remaining & returned & U & _). destruct U as [_ _ C _ _ _ _ _ _ ->]. 
  split; [done|]. split; [done|]. split; [|done]. cbn. by rewrite <- (changes_indexes _ _ _ _ _ C), length_map.
Qed.

(** The envelope of a posted row names the units that were selected. *)
Lemma selection_replayed r h op line indexes p s : planCreditUnitReturn r h true op line indexes = Ok (Some p, s) ->
  check_selection (Some indexes) (Some (po_allocation p)) = Ok tt.
Proof.
  intros H. apply unit_plan_ok in H as (original & lines & cs & units & remaining & returned & U & _).
  pose proof (unit_changes_fit _ _ _ _ _ _ _ _ _ _ _ _ U) as Fit. destruct U as [_ _ C _ _ _ _ _ _ ->]. cbn [posting po_allocation].
  set (env := unit_envelope r line (uo_kind op) (uo_id op) cs).
  assert (Pl : plain env = true).
  { pose proof (changes_plain _ _ _ _ Fit) as Pc. unfold env, unit_envelope. cbn [plain forallb] in *. change (map _ cs) with (map change_json cs). by rewrite Pc. }
  pose proof (parse_serialize env Pl) as Ps. unfold check_selection.
  assert (Fs : forall k, field k (stable env) = stable <$> assoc_last k _) by (intros k; apply unit_field).
  destruct (serialize env) as [|c t] eqn:Es; [vm_compute in Ps; done|]. rewrite Ps.
  assert (Eo : exists fs, stable env = JObj fs) by by eexists. destruct Eo as [fs Eo]. rewrite Eo. rewrite <- Eo.
  rewrite (Fs "type"%string). cbn [assoc_last String.eqb Ascii.eqb Bool.eqb fmap option_fmap option_map stable is_text].
  rewrite String.eqb_refl. unfold units_text. rewrite (Fs "units"%string). cbn [assoc_last String.eqb Ascii.eqb Bool.eqb fmap option_fmap option_map].
  rewrite stable_units. 
  assert (M : map_result unit_index (map (fun c => stable (change_json c)) cs) = Ok (map int_json (known_indexes indexes))).
  { rewrite <- (changes_indexes _ _ _ _ _ C), map_map. apply map_result_Forall2. clear. induction cs as [|x cs IH]; cbn [map]; constructor; [|done].
    unfold unit_index, change_json. rewrite (field_stable "index"). reflexivity. }
  rewrite M. cbn [bind_result]. by rewrite bool_decide_eq_true_2.
Qed.

(** ** One restoration *)

Lemma lift_ok {A} (m : result FundingError A) a : lift m = Ok a <-> m = Ok a.
Proof. destruct m; cbn; split; intros H; try done; congruence. Qed.

Section Restoring.
Context (gen : nat -> string) (gen_text : forall n, gen n <> EmptyString).

(** A state that holds the order's only redemption [r] and its account. *)
Record ready (db : CreditDb) (o : string) (r : CreditTransaction) (account : CreditAccount) : Prop := {
  rd_ok : restore_ok db;
  rd_one : redemptions db o = [r];
  rd_account : cd_accounts db !! ct_accountId r = Some account
}.
Lemma history_fresh db o es : credit_ok db -> restorations db o = es ->
  NoDup (map hr_id (map history_row es)) /\ NoDup (map hr_idempotencyKey (map history_row es)).
Proof.
  intros C <-. rewrite !map_map. cbn. split; (apply NoDup_map_filter; apply C).
Qed.

(** Posting planned rows: the history gains them and reads to the planned state. *)
Lemma post_planned db o r account ps x out s : ready db o r account -> fold_result (post_row gen (ct_accountId r) x) {| pt_db := db; pt_account := account; pt_entries := [] |} ps = Ok out ->
  Forall (posts_for (redemption_of r) (xt_refundId x)) ps ->
  (forall ids, length ids = length ps -> Forall (fun id => id <> EmptyString) ids ->
     let rows := zip_with row_of_posting ids ps in let h := map history_row (restorations db o) in
     NoDup (map hr_id (h ++ rows)) -> NoDup (map hr_idempotencyKey (h ++ rows)) -> readCreditFundingState (redemption_of r) (h ++ rows) true = Ok s) ->
  exists es, posted_run gen (ct_accountId r) x db account ps (pt_db out) (pt_account out) es /\ pt_entries out = es /\
    ready (pt_db out) o r (pt_account out) /\ restorations (pt_db out) o = restorations db o ++ es /\ funding_state r (restorations (pt_db out) o) = Ok s.
Proof.
  intros [Hok H1 Ha] Hp F Read. pose proof (redemption_facts _ _ _ H1) as (_ & Ho & _).
  apply post_rows_spec in Hp as (es & Run & Ee); [|apply Hok|done|].
  2: { eapply Forall_impl; [exact F|]. intros p [K _ D A _ _ _]. done. }
  cbn [pt_db pt_account pt_entries app] in *. exists es.
  destruct (posted_restore_ok _ _ _ _ _ _ _ _ _ o r Hok H1 Run) as (Eh & Er & Ok').
  { eapply Forall_impl; [exact F|]. intros p [K _ _ _ O _ _]. split; [done|]. cbn in O. by rewrite Ho in O. }
  assert (Rows : map history_row es = zip_with row_of_posting (map ct_id es) ps).
  { eapply posted_rows; [exact Run|]. eapply Forall_impl; [exact F|]. by intros p []. }
  pose proof (history_fresh _ o _ (pr_credit _ _ _ _ _ _ _ _ _ Run) Eh) as [N1 N2]. rewrite (map_app history_row), Rows in N1, N2.
  assert (S : funding_state r (restorations db o ++ es) = Ok s).
  { unfold funding_state. rewrite map_app, Rows. apply Read; [by rewrite length_map, (Forall2_length _ _ _ (pr_rows _ _ _ _ _ _ _ _ _ Run))| |done|done].
    apply Forall_map. pose proof (pr_rows _ _ _ _ _ _ _ _ _ Run) as W. clear -W gen_text. induction W as [|e p es ps (d & b & ->) _ IH]; constructor; [|done].
    cbn. apply gen_text. }
  split; [done|]. split; [done|]. split; [|by rewrite Eh]. split; [apply Ok'; by exists s|done|apply Run].
Qed.

Lemma post_unit_return db o r account op line indexes p s x out : ready db o r account ->
  planCreditUnitReturn (redemption_of r) (map history_row (restorations db o)) true op line indexes = Ok (Some p, s) ->
  xt_refundId x = po_refundId p -> postFundingRows gen db (ct_accountId r) account [p] x = Ok out ->
  exists e, posted_run gen (ct_accountId r) x db account [p] (pt_db out) (pt_account out) [e] /\ pt_entries out = [e] /\
    ready (pt_db out) o r (pt_account out) /\ restorations (pt_db out) o = restorations db o ++ [e] /\ funding_state r (restorations (pt_db out) o) = Ok s.
Proof.
  intros R Hplan Hx Hp. pose proof (unit_posting_own _ _ _ _ _ _ _ Hplan) as (Own & _).
  destruct (post_planned db o r account [p] x out s R Hp) as (es & Run & Ee & R' & Eh & S).
  - constructor; [|constructor]. rewrite Hx. destruct Own as [? ? ? ? ? ? E]. by split.
  - intros [|id [|]] L Ft rows h N1 N2; [done| |done]. cbn in rows. apply Forall_inv in Ft. subst rows.
    rewrite map_app in N1, N2. by eapply unit_return_reads_back.
  - pose proof (Forall2_length _ _ _ (pr_rows _ _ _ _ _ _ _ _ _ Run)) as L. destruct es as [|e [|]]; try done. exists e. done.
Qed.

(** What [postRestoration] does: it finds the restoration it made before, or has
    nothing to post, or posts one row. *)
Inductive restored (db : CreditDb) (account : CreditAccount) (r : CreditTransaction) (input : RestoreInput) :
    CreditDb -> CreditAccount -> option CreditTransaction -> Prop :=
  | restored_prior p : prior_restoration db input (restorations db (ri_orderId input)) = Ok (Some p) ->
      prior_matches (ct_accountId r) r input p = true -> check_selection (ri_originalIndexes input) (rc_allocation (ct_columns p)) = Ok tt ->
      restored db account r input db account (Some p)
  | restored_nothing s s' indexes : prior_restoration db input (restorations db (ri_orderId input)) = Ok None ->
      has_line db (ri_orderId input) (ri_orderLineId input) && bool_decide (ct_orderId r = Some (ri_orderId input)) = true ->
      funding_state r (restorations db (ri_orderId input)) = Ok s ->
      match ri_originalIndexes input with Some l => Some l | None => held_units s (ri_orderLineId input) (ri_quantity input) end = Some indexes ->
      (Z.of_nat (length indexes) =? ri_quantity input) = true ->
      planCreditUnitReturn (redemption_of r) (map history_row (restorations db (ri_orderId input))) true (restore_operation input) (ri_orderLineId input) indexes = Ok (None, s') ->
      match ri_expectedCents input with Some c => c =? 0 | None => true end = true ->
      restored db account r input db account None
  | restored_row s s' indexes p db' account' e : prior_restoration db input (restorations db (ri_orderId input)) = Ok None ->
      funding_state r (restorations db (ri_orderId input)) = Ok s ->
      match ri_originalIndexes input with Some l => Some l | None => held_units s (ri_orderLineId input) (ri_quantity input) end = Some indexes ->
      Z.of_nat (length indexes) = ri_quantity input ->
      planCreditUnitReturn (redemption_of r) (map history_row (restorations db (ri_orderId input))) true (restore_operation input) (ri_orderLineId input) indexes = Ok (Some p, s') ->
      match ri_expectedCents input with Some c => po_amount p = c | None => True end ->
      posted_run gen (ct_accountId r) (restore_extra input) db account [p] db' account' [e] ->
      restorations db' (ri_orderId input) = restorations db (ri_orderId input) ++ [e] ->
      funding_state r (restorations db' (ri_orderId input)) = Ok s' ->
      restored db account r input db' account' (Some e).

Lemma postRestoration_ok db account r input db' account' oe : ready db (ri_orderId input) r account -> ri_refundId input <> Some EmptyString ->
  postRestoration gen db (ct_accountId r) account r input = Ok (db', account', oe) ->
  (exists s, funding_state r (restorations db (ri_orderId input)) = Ok s) /\
  ready db' (ri_orderId input) r account' /\ restored db account r input db' account' oe.
Proof.
  intros R Hid H. unfold postRestoration in H. rewrite (redemptions_evidence _ _ _ (rd_one _ _ _ _ R)) in H. cbn [bind_result] in H. inv_ok.
  apply lift_ok in Em. split; [by eexists|].
  match type of Em with _ = Ok ?x => rename x into s end.
  match goal with E : prior_restoration _ _ _ = Ok ?x |- _ => rename E into Hprior; destruct x as [p|] end.
  - inv_ok. split; [done|]. match goal with u : unit |- _ => destruct u end. by apply restored_prior.
  - inv_ok. destruct (match ri_originalIndexes input with Some l => Some l | None => _ end) as [indexes|] eqn:Ei; [|done]. inv_ok.
    match goal with a : option EditFundingPosting * CreditFundingState |- _ => destruct a as [posting s'] end.
    match goal with E : lift (planCreditUnitReturn _ _ _ _ _ _) = Ok _ |- _ => apply lift_ok in E; rename E into Hplan end.
    destruct posting as [p|]; inv_ok.
    + match goal with E : postFundingRows _ _ _ _ _ _ = Ok _ |- _ => rename E into Hpost end.
      pose proof (unit_posting_own _ _ _ _ _ _ _ Hplan) as (Own & _).
      assert (Hx : xt_refundId (restore_extra input) = po_refundId p).
      { rewrite (pf_refund _ _ _ Own). unfold restore_operation. cbn. destruct (ri_refundId input) as [[|c t]|]; [done|done|done]. }
      destruct (post_unit_return _ _ _ _ _ _ _ _ _ _ _ R Hplan Hx Hpost) as (e & Run & Ee & R' & Eh & S').
      split; [done|]. rewrite Ee. cbn [head]. eapply restored_row; try done; [lia|].
      destruct (ri_expectedCents input); [lia|done].
    + split; [done|]. by eapply restored_nothing.
Qed.
End Restoring.

(** ** The lines of a refund *)

Lemma append_inj_l a b c : a +:+ b = a +:+ c -> b = c.
Proof. induction a as [|x a IH]; cbn; [done|]. intros [= H]. by apply IH. Qed.
Lemma refund_key_line id a b : refund_key id a = refund_key id b -> a = b.
Proof. unfold refund_key. intros H. by do 3 apply append_inj_l in H. Qed.

Section Refund.
Context (gen : nat -> string) (gen_text : forall n, gen n <> EmptyString).
Context (o refundId : string) (r : CreditTransaction) (frozen : option CreditUnitReturns) (real_id : refundId <> EmptyString).
Abbreviation restore_line := (restore_line gen (ct_accountId r) o refundId r frozen).

(** A row this refund posts for [line]. *)
Definition refund_row (line : string) (e : CreditTransaction) : Prop :=
  is_restoration o e = true /\ ct_key e = refund_key refundId line /\ for_refund_line refundId line e = true.
Lemma refund_row_line line line' e : refund_row line e -> line' <> line -> for_refund_line refundId line' e = false /\ ct_key e <> refund_key refundId line'.
Proof.
  intros (_ & K & F) N. apply bool_decide_eq_true in F as [F1 F2]. split.
  - apply bool_decide_eq_false. intros [_ E]. congruence.
  - rewrite K. intros E. by apply refund_key_line in E.
Qed.
Definition asks (l : RefundEvidenceLine) (input : RestoreInput) : Prop :=
  ri_orderId input = o /\ ri_orderLineId input = rv_orderLineId l /\ ri_key input = refund_key refundId (rv_orderLineId l) /\
  ri_refundId input = Some refundId /\ ri_actor input = None.
Lemma refund_asks l input : refund_restore o refundId frozen l = Ok input -> asks l input /\
  match frozen with Some f => exists u, frozen_line f (rv_orderLineId l) = Some u /\ ri_originalIndexes input = Some (ur_originalIndexes u) | None => ri_originalIndexes input = None end.
Proof.
  unfold refund_restore. intros H. destruct frozen as [f|]; [destruct (frozen_line f _) as [u|] eqn:E|]; cbn in H; inv_ok; split; try done. by exists u.
Qed.

(** One step: what it appends, and the row that then stands for the line. *)
Lemma restore_line_step acc l mid : restore_line acc l = Ok mid -> ready (rr_db acc) o r (rr_account acc) ->
  exists input oe es, refund_restore o refundId frozen l = Ok input /\ asks l input /\ (rv_orderLineId l ∉ rr_seen acc) /\
    (exists s, funding_state r (restorations (rr_db acc) o) = Ok s) /\ ready (rr_db mid) o r (rr_account mid) /\
    restored gen (rr_db acc) (rr_account acc) r input (rr_db mid) (rr_account mid) oe /\
    rr_seen mid = rr_seen acc ++ [rv_orderLineId l] /\ rr_entries mid = rr_entries acc ++ match oe with Some e => [e] | None => [] end /\
    cd_entries (rr_db mid) = cd_entries (rr_db acc) ++ es /\ Forall (refund_row (rv_orderLineId l)) es /\
    cd_orders (rr_db mid) = cd_orders (rr_db acc) /\ cd_promotions (rr_db mid) = cd_promotions (rr_db acc) /\
    ca_promotionId (rr_account mid) = ca_promotionId (rr_account acc) /\ ca_currency (rr_account mid) = ca_currency (rr_account acc) /\
    Forall (fun e => oe = Some e) es.
Proof.
  intros H R. unfold CreditRestore.restore_line in H. inv_ok. rename a into input.
  match goal with E : refund_restore _ _ _ _ = Ok _ |- _ => rename E into Ei; destruct (refund_asks _ _ Ei) as [A _] end.
  match goal with a : CreditDb * CreditAccount * option CreditTransaction |- _ => destruct a as [[db' account'] oe] end. inv_ok.
  match goal with E : postRestoration _ _ _ _ _ _ = Ok _ |- _ => rename E into Hp end.
  destruct A as (A1 & A2 & A3 & A4 & A5). pose proof R as R0. rewrite <- A1 in R0.
  apply (postRestoration_ok gen gen_text) in Hp as (S & R' & T); [|done|rewrite A4; congruence]. rewrite A1 in S, R'.
  assert (Seen : rv_orderLineId l ∉ rr_seen acc).
  { bool_props. match goal with E : existsb _ _ = false |- _ => rename E into Es end. intros Hin. apply not_true_iff_false in Es. apply Es.
    apply existsb_exists. exists (rv_orderLineId l). split; [by apply list_elem_of_In|apply String.eqb_refl]. }
  cbn [rr_db rr_account rr_seen rr_entries]. destruct T as [p T1 T2 T3|s s' indexes T1 T1' T2 T3 T3' T4 T4'|s s' indexes p db' account' e T1 T2 T3 T4 T5 T6 T7 T8 T9].
  - exists input, (Some p), []. rewrite app_nil_r. repeat (split; [first [done | by constructor]|]). constructor.
  - exists input, None, []. rewrite !app_nil_r. repeat (split; [first [done | by econstructor]|]). constructor.
  - exists input, (Some e), [e]. assert (W : Forall (refund_row (rv_orderLineId l)) [e]).
    { constructor; [|constructor]. pose proof (pr_rows _ _ _ _ _ _ _ _ _ T7) as W. apply Forall2_cons in W as [(d & b & ->) _].
      destruct (unit_posting_own _ _ _ _ _ _ _ T5) as ([K _ _ _ Oo _ _] & Ln & _ & Ky).
      assert (Re : uo_kind (restore_operation input) = "refund"%string /\ uo_id (restore_operation input) = refundId).
      { unfold restore_operation. rewrite A4. cbn. by destruct refundId. }
      destruct Re as [Re1 Re2]. rewrite Re1, Re2 in Ky. rewrite A2 in *.
      split; [|split].
      - unfold is_restoration, on_order. cbn. rewrite K, Oo. cbn. destruct (redemption_facts _ _ _ (rd_one _ _ _ _ R)) as (_ & -> & _).
        by rewrite !bool_decide_eq_true_2.
      - exact Ky.
      - unfold for_refund_line. cbn. rewrite Ln, A4. by apply bool_decide_eq_true_2. }
    destruct T7 as [P1 P2 P3 P4 P5 [P6 P7] [P8 P9]].
    repeat (split; [first [done | by econstructor]|]). by constructor.
Qed.

Lemma refund_fold lines : forall acc out, fold_result restore_line acc lines = Ok out -> ready (rr_db acc) o r (rr_account acc) ->
  ready (rr_db out) o r (rr_account out) /\ (exists news, rr_entries out = rr_entries acc ++ news) /\
  (exists ls, cd_entries (rr_db out) = cd_entries (rr_db acc) ++ ls /\
     Forall (fun e => e ∈ rr_entries out /\ exists line, refund_row line e /\ (line ∉ rr_seen acc) /\ line ∈ map rv_orderLineId lines) ls) /\
  cd_orders (rr_db out) = cd_orders (rr_db acc) /\ cd_promotions (rr_db out) = cd_promotions (rr_db acc) /\
  ca_promotionId (rr_account out) = ca_promotionId (rr_account acc) /\ ca_currency (rr_account out) = ca_currency (rr_account acc).
Proof.
  induction lines as [|l lines IH]; intros acc out H R; cbn [fold_result] in H.
  { inv_ok. split; [done|]. split; [exists []; by rewrite app_nil_r|]. split; [exists []; by rewrite app_nil_r|done]. }
  destruct (restore_line acc l) as [mid|] eqn:Em; [|done]. cbn [bind_result] in H.
  apply restore_line_step in Em as (input & oe & es & _ & _ & Seen & _ & R' & _ & Es & En & Ee & Fe & F1 & F2 & F3 & F4 & F5); [|done].
  destruct (IH _ _ H R') as (Ro & (news & Nw) & (ls & El & Fl) & G1 & G2 & G3 & G4). split; [done|].
  split; [eexists; by rewrite Nw, En, <- app_assoc|]. split; [|by rewrite G1, G2, G3, G4].
  exists (es ++ ls). split; [by rewrite El, Ee, app_assoc|]. apply Forall_app. split.
  - rewrite Forall_forall in *. intros e He. split; [rewrite Nw, En, (F5 e He), !elem_of_app; left; right; by left|].
    exists (rv_orderLineId l). split; [by apply Fe|]. split; [done|]. left.
  - eapply Forall_impl; [exact Fl|]. intros e (H0 & line & H1 & H2 & H3). split; [done|]. exists line. split; [done|]. split; [|by right].
    intros Hin. apply H2. rewrite Es. apply elem_of_app. by left.
Qed.

Lemma find_app {A} (p : A -> bool) l1 l2 : List.find p (l1 ++ l2) = match List.find p l1 with Some x => Some x | None => List.find p l2 end.
Proof. induction l1 as [|x l1 IH]; cbn; [done|]. by destruct (p x). Qed.

(** Rows of other lines do not change what a line finds. *)
Lemma prior_later db input l later : asks l input -> Forall (fun e => exists line, refund_row line e /\ line <> rv_orderLineId l) later ->
  forall db', cd_entries db' = cd_entries db ++ later -> prior_restoration db' input (restorations db' o) = prior_restoration db input (restorations db o).
Proof.
  intros (A1 & A2 & A3 & A4 & A5) F db' E. unfold prior_restoration. rewrite A4, A2, A3. unfold restorations, priorOperation.
  rewrite E, find_app, !List.filter_app.
  assert (N : List.filter (for_refund_line refundId (rv_orderLineId l)) (List.filter (is_restoration o) later) = []).
  { apply filter_none. intros e He. apply elem_filter_bool in He as [He _]. rewrite Forall_forall in F. destruct (F e He) as (line & Hr & Hne).
    eapply refund_row_line; [exact Hr|done]. }
  assert (K : List.find (fun e => String.eqb (ct_key e) (refund_key refundId (rv_orderLineId l))) later = None).
  { clear -F. induction F as [|e later (line & Hr & Hne) _ IH]; [done|]. cbn. rewrite (proj2 (String.eqb_neq _ _)); [done|].
    eapply refund_row_line; [exact Hr|done]. }
  rewrite N, app_nil_r, K. by destruct (List.find _ (cd_entries db)).
Qed.

Lemma plan_nothing h op line indexes s : planCreditUnitReturn (redemption_of r) h true op line indexes = Ok (None, s) ->
  indexes <> [] /\ known_indexes indexes = [] /\
  forall h' s', readCreditFundingState (redemption_of r) h' true = Ok s' -> planCreditUnitReturn (redemption_of r) h' true op line indexes = Ok (None, s').
Proof.
  intros H. unfold planCreditUnitReturn in *. inv_ok. rename a0 into cs.
  match goal with E : return_changes _ _ _ _ = Ok cs |- _ => pose proof (changes_indexes _ _ _ _ _ E) as K; clear E end.
  destruct cs as [|c cs]; cbn [is_nil] in H; inv_ok; [|discriminate]. cbn in K. split; [intros ->; by bool_props|]. split; [done|].
  intros h' s' H'. unfold readCreditFundingState in H'. inv_ok. cbn [bind_result].
  assert (E : forall a b, return_changes a b [] indexes = Ok []).
  { clear -K. induction indexes as [|[i|] l IH]; intros a b; [done|done|]. cbn. by apply IH. }
  by rewrite E.
Qed.

Lemma restorations_prefix db db' later : cd_entries db' = cd_entries db ++ later -> restorations db' o = restorations db o ++ List.filter (is_restoration o) later.
Proof. intros E. unfold restorations. by rewrite E, List.filter_app. Qed.
Lemma ready_reads db db' account account' later : ready db o r account -> ready db' o r account' -> cd_entries db' = cd_entries db ++ later ->
  (exists s, funding_state r (restorations db o) = Ok s) -> exists s, funding_state r (restorations db' o) = Ok s.
Proof.
  intros R R' E S. destruct (restorations db' o) as [|e es] eqn:Er.
  - rewrite (restorations_prefix _ _ _ E) in Er. apply app_eq_nil in Er as [Er _]. by rewrite Er in S.
  - rewrite <- Er. apply (ro_reads _ (rd_ok _ _ _ _ R')); [apply R'|by rewrite Er].
Qed.

(** The row a line posted is what its key and its refund find next. *)
Lemma prior_posted db input l e db' : asks l input -> prior_restoration db input (restorations db o) = Ok None -> refund_row (rv_orderLineId l) e ->
  restorations db' o = restorations db o ++ [e] -> cd_entries db' = cd_entries db ++ [e] ->
  prior_restoration db' input (restorations db' o) = Ok (Some e).
Proof.
  intros (A1 & A2 & A3 & A4 & A5) H (F1 & F2 & F3) Er Ee. unfold prior_restoration in *. rewrite A4, A3, A2 in *. rewrite Er. unfold priorOperation in *.
  rewrite Ee, find_app, List.filter_app. cbn [List.find List.filter]. rewrite F2, F3, String.eqb_refl.
  destruct (List.find _ (cd_entries db)), (List.filter _ (restorations db o)) as [|? [|]]; inv_ok; try done. cbn. by rewrite String.eqb_refl.
Qed.
(** It matches the request that posted it. *)
Lemma row_matches input l h op indexes p s d b : asks l input -> ct_orderId r = Some o ->
  planCreditUnitReturn (redemption_of r) h true op (rv_orderLineId l) indexes = Ok (Some p, s) ->
  match ri_expectedCents input with Some c => po_amount p = c | None => True end ->
  match ri_originalIndexes input with Some ix => ix = indexes | None => ri_quantity input = Z.of_nat (length (known_indexes indexes)) end ->
  let e := funding_entry gen d p b (restore_extra input) in
  prior_matches (ct_accountId r) r input e = true /\ check_selection (ri_originalIndexes input) (rc_allocation (ct_columns e)) = Ok tt.
Proof.
  intros (A1 & A2 & A3 & A4 & A5) Ho Hp Hc Hi e. destruct (unit_posting_own _ _ _ _ _ _ _ Hp) as ([K S _ A O Rd _] & Ln & Q & _). split.
  - unfold prior_matches. subst e. cbn. rewrite A1, A2, Ln, Q, K, S, A, O, Rd. cbn. rewrite Ho. cbn [or_else].
    destruct (ri_expectedCents input) as [c|]; [rewrite Hc, Z.eqb_refl|]; rewrite andb_true_r; apply bool_decide_eq_true_2;
      repeat (split; [done|]); (split; [|done]); (destruct (ri_originalIndexes input); [by subst|by rewrite Hi]).
  - cbn. destruct (ri_originalIndexes input) as [ix|]; [|done]. subst ix. by eapply selection_replayed.
Qed.
Lemma held_known s line quantity indexes : held_units s line quantity = Some indexes -> length (known_indexes indexes) = length indexes.
Proof.
  unfold held_units. destruct (assoc_last _ _); [|done]. intros [= <-]. generalize (take (Z.to_nat quantity) (List.filter (fun i => negb (returned_has (units_of (fs_returnedIndexes s) line) i)) (map Z.of_nat (seq 0 (length l))))).
  intros m. induction m as [|x m IH]; [done|]. cbn. by f_equal.
Qed.

(** Asked again when later lines are posted too, a line is answered the same. *)
Lemma replay_line acc l mid fin afin later : restore_line acc l = Ok mid -> ready (rr_db acc) o r (rr_account acc) -> ready fin o r afin ->
  cd_entries fin = cd_entries (rr_db mid) ++ later -> cd_orders fin = cd_orders (rr_db acc) ->
  Forall (fun e => exists line, refund_row line e /\ line <> rv_orderLineId l) later ->
  exists new, rr_entries mid = rr_entries acc ++ new /\ rr_seen mid = rr_seen acc ++ [rv_orderLineId l] /\
    forall entries, restore_line {| rr_db := fin; rr_account := afin; rr_seen := rr_seen acc; rr_entries := entries |} l =
      Ok {| rr_db := fin; rr_account := afin; rr_seen := rr_seen mid; rr_entries := entries ++ new |}.
Proof.
  intros H R Rf Ef Of Fl. apply restore_line_step in H as (input & oe & es & Ei & A & Seen & S & R' & T & Es & En & Ee & Fe & F1 & _); [|done].
  pose proof A as (A1 & A2 & A3 & A4 & A5). exists (match oe with Some e => [e] | None => [] end). split; [done|]. split; [done|]. intros entries.
  unfold CreditRestore.restore_line. cbn [rr_db rr_account rr_seen rr_entries]. rewrite Ei. cbn [bind_result].
  assert (Es' : existsb (String.eqb (rv_orderLineId l)) (rr_seen acc) = false).
  { apply not_true_iff_false. intros Hx. apply existsb_exists in Hx as (x & Hx & E). apply String.eqb_eq in E as <-. by apply Seen, list_elem_of_In. }
  rewrite Es'. cbn [negb].
  assert (E2 : cd_entries fin = cd_entries (rr_db acc) ++ (es ++ later)) by (by rewrite Ef, Ee, app_assoc).
  destruct (ready_reads _ _ _ _ _ R Rf E2 S) as [sf Sf].
  enough (P : postRestoration gen fin (ct_accountId r) afin r input = Ok (fin, afin, oe)) by (rewrite P; cbn [bind_result]; by rewrite Es).
  unfold postRestoration. rewrite A1, (redemptions_evidence _ _ _ (rd_one _ _ _ _ Rf)). cbn [bind_result]. rewrite (proj2 (lift_ok _ _) Sf). cbn [bind_result].
  rewrite (prior_later (rr_db mid) input l later A Fl fin Ef).
  remember (rr_db mid) as dm eqn:Edm. remember (rr_account mid) as am eqn:Eam. clear Edm Eam.
  destruct T as [p T1 T2 T3|s s' indexes T1 T1' T2 T3 T3' T4 T4'|s s' indexes p db' account' e T1 T2 T3 T4 T5 T6 T7 T8 T9]; rewrite A1 in *.
  - rewrite T1. cbn [bind_result]. by rewrite T2, T3.
  - rewrite T1. cbn [bind_result]. rewrite A2 in *.
    destruct (plan_nothing _ _ _ _ _ T4) as (N1 & N2 & N3). unfold funding_state in Sf.
    destruct (ri_originalIndexes input) as [ix|].
    2: { exfalso. unfold held_units in T3. destruct (assoc_last _ _); [|done]. injection T3 as <-. apply N1. clear -N2. by destruct (take _ _). }
    injection T3 as ->. unfold has_line in *. rewrite Of, T1', T3', (N3 _ _ Sf). cbn [lift bind_result]. by rewrite T4'.
  - assert (es = [e]) as -> by (rewrite (pr_entries _ _ _ _ _ _ _ _ _ T7) in Ee; by apply app_inv_head in Ee).
    apply Forall_inv in Fe. rewrite (prior_posted _ _ l e db' A T1 Fe T8 (pr_entries _ _ _ _ _ _ _ _ _ T7)). cbn [bind_result].
    pose proof (pr_rows _ _ _ _ _ _ _ _ _ T7) as W. apply Forall2_cons in W as [(d & b & ->) _]. rewrite A2 in T5.
    destruct (row_matches input l _ _ indexes p _ d b A (proj1 (proj2 (redemption_facts _ _ _ (rd_one _ _ _ _ R)))) T5 T6) as [M1 M2].
    { destruct (ri_originalIndexes input); [by injection T3|]. rewrite (held_known _ _ _ _ T3). lia. }
    rewrite M1, M2. done.
Qed.

Lemma replay_fold lines : forall acc out, fold_result restore_line acc lines = Ok out -> ready (rr_db acc) o r (rr_account acc) ->
  exists new, rr_entries out = rr_entries acc ++ new /\ forall entries,
    fold_result restore_line {| rr_db := rr_db out; rr_account := rr_account out; rr_seen := rr_seen acc; rr_entries := entries |} lines =
    Ok {| rr_db := rr_db out; rr_account := rr_account out; rr_seen := rr_seen out; rr_entries := entries ++ new |}.
Proof.
  induction lines as [|l lines IH]; intros acc out H R; cbn [fold_result] in *.
  { inv_ok. exists []. split; [by rewrite app_nil_r|]. intros. by rewrite app_nil_r. }
  destruct (restore_line acc l) as [mid|] eqn:Em; [|done]. cbn [bind_result] in H.
  pose proof (restore_line_step _ _ _ Em R) as (_ & _ & _ & _ & _ & _ & _ & R' & _ & Es & _ & _ & _ & F1 & _).
  pose proof (refund_fold _ _ _ H R') as (Ro & _ & (ls & El & Fl) & G1 & _).
  destruct (replay_line _ _ _ _ _ ls Em R Ro El ltac:(by rewrite G1, F1)) as (new1 & E1 & S1 & P1).
  { eapply Forall_impl; [exact Fl|]. intros e (_ & line & W1 & W2 & _). exists line. split; [done|]. intros ->. apply W2. rewrite Es.
    apply elem_of_app. right. by left. }
  destruct (IH _ _ H R') as (new2 & E2 & P2). exists (new1 ++ new2). split; [by rewrite E2, E1, app_assoc|]. intros entries.
  rewrite P1. cbn [bind_result]. by rewrite P2, app_assoc.
Qed.

(** Every line that names units leaves a row of the refund. *)
Lemma refund_covered lines : forall acc out, fold_result restore_line acc lines = Ok out -> ready (rr_db acc) o r (rr_account acc) ->
  forall l input ix, l ∈ lines -> refund_restore o refundId frozen l = Ok input -> ri_originalIndexes input = Some ix -> known_indexes ix <> [] ->
  existsb (for_refund_line refundId (rv_orderLineId l)) (restorations (rr_db out) o) = true.
Proof.
  induction lines as [|x lines IH]; intros acc out H R l input ix Hl Hi Hx Hk; cbn [fold_result] in H; [by apply elem_of_nil in Hl|].
  destruct (restore_line acc x) as [mid|] eqn:Em; [|done]. cbn [bind_result] in H.
  apply restore_line_step in Em as (input' & oe & es & Ei & A & _ & _ & R' & T & _ & _ & Ee & Fe & _); [|done].
  apply elem_of_cons in Hl as [->|Hl]; [|by eapply IH].
  rewrite Ei in Hi. injection Hi as ->. pose proof (refund_fold _ _ _ H R') as (_ & _ & (ls & El & _) & _).
  rewrite (restorations_prefix _ _ _ El), existsb_app. apply orb_true_iff. left.
  destruct A as (A1 & A2 & A3 & A4 & _). remember (rr_db mid) as dm eqn:Edm. remember (rr_account mid) as am eqn:Eam. clear Edm Eam H R' El.
  destruct T as [p T1 T2 T3|s s' indexes T1 T1' T2 T3 T3' T4 T4'|s s' indexes p db' account' e T1 T2 T3 T4 T5 T6 T7 T8 T9].
  - unfold prior_matches in T2. apply andb_true_iff in T2 as [T2 _]. apply bool_decide_eq_true in T2 as (K & _ & _ & _ & O & L & _ & _ & _ & Rf).
    assert (Hp : p ∈ cd_entries (rr_db acc)).
    { unfold prior_restoration in T1. destruct (priorOperation _ _) as [q|] eqn:Eq.
      - destruct (match ri_refundId input with Some _ => _ | None => _ end) as [|? [|]]; inv_ok; by apply find_elem in Eq as [Eq _].
      - rewrite A4 in T1. destruct (List.filter _ _) as [|b [|]] eqn:Ef; inv_ok; try discriminate. assert (Hb : p ∈ [p]) by by left. rewrite <- Ef in Hb.
        apply elem_filter_bool in Hb as [Hb _]. by apply elem_filter_bool in Hb as [Hb _]. }
    apply existsb_exists. exists p. split.
    + apply list_elem_of_In, elem_filter_bool. split; [done|]. unfold is_restoration, on_order. rewrite K, O, A1. by rewrite !bool_decide_eq_true_2.
    + unfold for_refund_line. rewrite L, Rf, A2, A4. by apply bool_decide_eq_true_2.
  - destruct (plan_nothing _ _ _ _ _ T4) as (_ & N2 & _). rewrite Hx in T3. injection T3 as ->. done.
  - rewrite A1 in T8. rewrite T8, existsb_app. apply orb_true_iff. right.
    rewrite (pr_entries _ _ _ _ _ _ _ _ _ T7) in Ee. apply app_inv_head in Ee as <-. apply Forall_inv in Fe as (_ & _ & F). cbn. by rewrite F.
Qed.
End Refund.

(** ** A refund restores once *)

Lemma frozen_lines_distinct sha metadata f : readCreditUnitReturns sha metadata = Ok (Some f) -> NoDup (map ur_orderLineId (cr_lines f)).
Proof.
  unfold readCreditUnitReturns. destruct (metadata ≫= _) as [raw|]; [|by inv_ok]. intros H.
  destruct (safe_integer _) as [v|], (as_string (field "redemptionId" raw)) as [rid|], (as_string (field "snapshotDigest" raw)), (as_array (field "lines" raw)) as [vs|], (as_string (field "requestDigest" raw)); try done.
  inv_ok. destruct (read_return_lines v rid [] [] vs) as [ls|] eqn:E; [|done]. inv_ok. cbn.
  enough (G : forall lines units, read_return_lines v rid lines units vs = Some ls -> NoDup (map ur_orderLineId ls) /\ Forall (fun l => ur_orderLineId l ∉ lines) ls) by (exact (proj1 (G _ _ E))).
  clear. revert ls.
  induction vs as [|x vs IH]; intros ls lines units H; cbn in H; [injection H as <-; split; constructor|].
  destruct (read_return_line v rid lines units x) as [l|] eqn:El; [|done]. destruct (read_return_lines _ _ _ _ vs) as [ls'|] eqn:E; [|done].
  injection H as <-. apply IH in E as [N F]. cbn. assert (Hl : ur_orderLineId l ∉ lines).
  { unfold read_return_line in El. destruct (as_string (field "orderLineId" x)) as [line|], (as_array (field "positions" x)), (as_array (field "originalIndexes" x)), (as_array (field "creditCents" x)); try done.
    destruct (_ || _ || _ || _) eqn:Eo in El; [done|]. bool_props. do 3 (destruct (all_some (map _ _)); [|done]). destruct (_ || _) in El; [done|].
    assert (ur_orderLineId l = line) as -> by (destruct (v =? 2); [destruct (read_custody _ _ _ _ _); [|done]|]; by injection El as <-).
    match goal with E : one_of_texts _ _ = false |- _ => intros Hin; apply not_true_iff_false in E; apply E end.
    apply existsb_exists. exists line. split; [by apply list_elem_of_In|apply String.eqb_refl]. }
  split.
  - constructor; [|done]. intros Hin. apply list_elem_of_fmap in Hin as (y & Ey & Hy). rewrite Forall_forall in F. apply (F y Hy). rewrite <- Ey. by left.
  - constructor; [done|]. eapply Forall_impl; [exact F|]. intros y Hy Hin. apply Hy. by right.
Qed.

Lemma frozen_line_elem f u : NoDup (map ur_orderLineId (cr_lines f)) -> u ∈ cr_lines f -> frozen_line f (ur_orderLineId u) = Some u.
Proof.
  unfold frozen_line. intros N H. destruct (List.find _ _) as [u'|] eqn:E.
  - apply find_elem in E as [E1 E2]. apply String.eqb_eq in E2. f_equal. by eapply (NoDup_map_inj ur_orderLineId).
  - apply list_elem_of_In in H. apply (List.find_none _ _ E) in H. by rewrite String.eqb_refl in H.
Qed.

Section Once.
Context (gen : nat -> string) (gen_text : forall n, gen n <> EmptyString) (sha256 : string -> string).
Context (importedOrigin : RestoreDb -> string -> result CreditError (option json)).
Context (current_pricing : RestoreDb -> string -> option json -> result CreditError (option CurrentPricing)).
Abbreviation restoreRefund := (restoreRefund gen sha256 importedOrigin current_pricing).

(** A refund whose guards passed. *)
Record refund_run (db : RestoreDb) (o refundId : string) (order : CreditOrder) (refund : Refund) (r : CreditTransaction) (account : CreditAccount)
    (frozen : option CreditUnitReturns) (evidence : CreditEvidence) (out : RefundRun) : Prop := {
  fr_order : lockOrder (rb_credit db) o = Ok order;
  fr_refund : List.find (fun x => String.eqb (rf_orderId x) o && String.eqb (rf_id x) refundId) (mt_refunds (rb_money db)) = Some refund;
  fr_settled : bool_decide (rf_state refund = ref_Settled) = true;
  fr_one : redemptions (rb_credit db) o = [r];
  fr_allocation : assertRedemptionAllocation r = Ok tt;
  fr_account : cd_accounts (rb_credit db) !! ct_accountId r = Some account;
  fr_frozen : readCreditRefundEvidence sha256 (rf_metadata refund) (refund_lines db refundId) = Ok frozen;
  fr_currency : String.eqb (ca_currency account) (co_currency order) = true;
  fr_closed : match frozen with Some f => frozen_closed r f (refund_lines db refundId) | None => true end = true;
  fr_version : is_some frozen || negb (is_number 2 (opt_field "version" (rb_snapshots db !! o))) = true;
  fr_evidence : readCurrentCreditEvidence importedOrigin db o = Ok (Some evidence);
  fr_check : match frozen with Some f => check_frozen sha256 current_pricing db o refundId r evidence f | None => Ok tt end = Ok tt;
  fr_fold : fold_result (CreditRestore.restore_line gen (ct_accountId r) o refundId r frozen)
    {| rr_db := rb_credit db; rr_account := account; rr_seen := []; rr_entries := [] |} (refund_lines db refundId) = Ok out
}.
Lemma restoreRefund_run db o refundId db' entries : restoreRefund db o refundId = Ok (db', entries) <->
  (exists order refund, lockOrder (rb_credit db) o = Ok order /\
     List.find (fun x => String.eqb (rf_orderId x) o && String.eqb (rf_id x) refundId) (mt_refunds (rb_money db)) = Some refund /\
     bool_decide (rf_state refund = ref_Settled) = true /\ redemptions (rb_credit db) o = [] /\ db' = db /\ entries = []) \/
  exists order refund r account frozen evidence out, refund_run db o refundId order refund r account frozen evidence out /\
    db' = with_credit db (rr_db out) /\ entries = rr_entries out.
Proof.
  split.
  - intros H. unfold CreditRestore.restoreRefund in H. inv_ok. rename a into order, Em into Eo.
    destruct (List.find _ _) as [refund|] eqn:Ef; [|done]. inv_ok.
    match goal with E : redemptionForOrder _ _ = Ok ?x |- _ => rename E into Er; destruct x as [r|] end.
    2: { inv_ok. left. exists order, refund. unfold redemptionForOrder in Er. unfold redemptions. by destruct (List.filter _ _) as [|? [|]]. }
    inv_ok. right. apply redemptionForOrder_some in Er. unfold lockAccount in *.
    destruct (cd_accounts _ !! ct_accountId r) as [account|] eqn:Ea; [|done]. inv_ok.
    match goal with H : match ?x with Some _ => _ | None => Err other_error end = Ok _ |- _ => destruct x as [ev|]; [|done] end. inv_ok.
    match goal with E : match readCreditRefundEvidence _ _ _ with Ok _ => _ | Err _ => _ end = Ok _ |- _ => rename E into Ez end.
    destruct (readCreditRefundEvidence _ _ _) as [z|] eqn:Ez'; inv_ok. repeat match goal with u : unit |- _ => destruct u end.
    eexists order, refund, r, _, _, ev, _. split; [by split|done].
  - intros [(order & refund & H1 & H2 & H3 & H4 & -> & ->)|(order & refund & r & account & frozen & ev & out & [] & -> & ->)]; unfold CreditRestore.restoreRefund.
    + rewrite H1. cbn [bind_result]. rewrite H2, H3. unfold redemptionForOrder. unfold redemptions in H4. by rewrite H4.
    + rewrite fr_order0. cbn [bind_result]. rewrite fr_refund0, fr_settled0, (proj2 (redemptionForOrder_some _ _ _) fr_one0). cbn [bind_result].
      rewrite fr_allocation0. cbn [bind_result]. unfold lockAccount. rewrite fr_account0. cbn [bind_result]. rewrite fr_evidence0. cbn [bind_result].
      rewrite fr_frozen0. cbn [bind_result]. rewrite fr_currency0, fr_closed0, fr_version0, fr_check0. cbn [bind_result]. by rewrite fr_fold0.
Qed.
Lemma restoreRefund_ok db o refundId db' entries : restore_ok (rb_credit db) -> refundId <> EmptyString ->
  restoreRefund db o refundId = Ok (db', entries) -> restore_ok (rb_credit db').
Proof.
  intros Hok Hid H. apply restoreRefund_run in H as [(? & ? & _ & _ & _ & _ & -> & _)|(order & refund & r & account & frozen & ev & out & R & -> & _)]; [done|].
  destruct R. apply (refund_fold gen gen_text o refundId r frozen Hid) in fr_fold0 as (R & _); [|by split]. apply R.
Qed.

(** With every row posted, nothing of a frozen refund is left to check. *)
Lemma frozen_posted db o refundId r account f evidence out order refund : refundId <> EmptyString -> restore_ok (rb_credit db) ->
  refund_run db o refundId order refund r account (Some f) evidence out -> frozen_unposted (restorations (rr_db out) o) refundId f = false.
Proof.
  intros Hid Hok Run. assert (R : ready (rb_credit db) o r account) by (split; [done|apply Run|apply Run]).
  assert (N : NoDup (map ur_orderLineId (cr_lines f))).
  { pose proof (fr_frozen _ _ _ _ _ _ _ _ _ _ Run) as E. unfold readCreditRefundEvidence in E. inv_ok. destruct a as [f'|]; inv_ok; [|discriminate]. by eapply frozen_lines_distinct. }
  apply not_true_iff_false. intros H. apply existsb_exists in H as (u & Hu & H). apply andb_true_iff in H as [H1 H2]. apply negb_true_iff in H1, H2.
  apply list_elem_of_In in Hu. pose proof (frozen_line_elem _ _ N Hu) as Ef.
  pose proof (fr_closed _ _ _ _ _ _ _ _ _ _ Run) as Cl. unfold frozen_closed in Cl. apply andb_true_iff in Cl as [_ Cl].
  rewrite forallb_forall in Cl. apply list_elem_of_In in Hu. specialize (Cl _ Hu). apply existsb_exists in Cl as (l & Hl & El).
  apply andb_true_iff in El as [El _]. apply String.eqb_eq in El. rewrite <- El in H2, Ef.
  assert (Ei : exists input, refund_restore o refundId (Some f) l = Ok input /\ ri_originalIndexes input = Some (ur_originalIndexes u)).
  { unfold refund_restore. rewrite Ef. cbn. by eexists. }
  destruct Ei as (input & Ei & Ex). apply list_elem_of_In in Hl.
  pose proof (refund_covered gen gen_text o refundId r (Some f) Hid _ _ _ (fr_fold _ _ _ _ _ _ _ _ _ _ Run) R l input _ Hl Ei Ex) as C.
  rewrite C in H2; [done|]. by destruct (known_indexes _).
Qed.

Lemma refund_replays db o refundId order refund r account frozen evidence out : (forall d x, importedOrigin d x = Ok None) -> refundId <> EmptyString ->
  restore_ok (rb_credit db) -> refund_run db o refundId order refund r account frozen evidence out ->
  restoreRefund (with_credit db (rr_db out)) o refundId = Ok (with_credit db (rr_db out), rr_entries out).
Proof.
  intros Native Hid Hok Run. assert (R : ready (rb_credit db) o r account) by (split; [done|apply Run|apply Run]).
  pose proof (refund_fold gen gen_text o refundId r frozen Hid _ _ _ (fr_fold _ _ _ _ _ _ _ _ _ _ Run) R) as (Ro & _ & _ & F1 & F2 & F3 & F4).
  destruct (replay_fold gen gen_text o refundId r frozen Hid _ _ _ (fr_fold _ _ _ _ _ _ _ _ _ _ Run) R) as (new & En & Pn).
  cbn [rr_db rr_account rr_seen rr_entries app] in *.
  assert (Ev : readCurrentCreditEvidence importedOrigin (with_credit db (rr_db out)) o =
    Ok (Some {| ev_redemption := r; ev_history := restorations (rr_db out) o; ev_importedOrigin := None |})).
  { unfold readCurrentCreditEvidence. cbn [rb_credit with_credit]. rewrite (redemptions_evidence _ _ _ (rd_one _ _ _ _ Ro)). cbn [bind_result].
    rewrite (rd_account _ _ _ _ Ro), F2, F3, Native. pose proof (fr_evidence _ _ _ _ _ _ _ _ _ _ Run) as E. unfold readCurrentCreditEvidence in E.
    rewrite (redemptions_evidence _ _ _ (rd_one _ _ _ _ R)) in E. cbn [bind_result] in E. rewrite (rd_account _ _ _ _ R) in E. inv_ok.
    done. }
  apply restoreRefund_run. right. exists order, refund, r, (rr_account out), frozen, {| ev_redemption := r; ev_history := restorations (rr_db out) o; ev_importedOrigin := None |},
    {| rr_db := rr_db out; rr_account := rr_account out; rr_seen := rr_seen out; rr_entries := new |}.
  split; [|by rewrite En]. pose proof Run as []. split; cbn [rb_credit rb_money rb_snapshots with_credit]; try done; try by apply Ro.
  - unfold lockOrder in *. by rewrite F1.
  - by rewrite F4.
  - destruct frozen as [f|]; [|done]. unfold check_frozen. cbn [ev_history]. by rewrite (frozen_posted _ _ _ _ _ _ _ _ _ _ Hid Hok Run).
Qed.

(** C30: A settled refund restores its credit once. Running the restoration again
    gives the same rows and changes nothing; every row it appended belongs to
    this refund and is among the rows it answered with; and each account gained
    exactly what its new rows say. (The credit was issued here, not imported.) *)
Theorem refund_restores_once db o refundId db' entries :
  (forall d x, importedOrigin d x = Ok None) -> restore_ok (rb_credit db) -> refundId <> EmptyString ->
  restoreRefund db o refundId = Ok (db', entries) ->
  restoreRefund db' o refundId = Ok (db', entries) /\
  exists news, cd_entries (rb_credit db') = cd_entries (rb_credit db) ++ news /\
    Forall (fun e => e ∈ entries /\ is_restoration o e = true /\ rc_refundId (ct_columns e) = Some refundId) news /\
    forall id a a', cd_accounts (rb_credit db) !! id = Some a -> cd_accounts (rb_credit db') !! id = Some a' ->
      ca_balance a' = ca_balance a + delta_total news id.
Proof.
  intros Native Hok Hid H. pose proof (restoreRefund_ok _ _ _ _ _ Hok Hid H) as Hok'.
  pose proof H as H0. apply restoreRefund_run in H0 as [(? & ? & _ & _ & _ & E1 & -> & ->)|(order & refund & r & account & frozen & ev & out & Run & -> & ->)].
  { split; [done|]. exists []. rewrite app_nil_r. split; [done|]. split; [constructor|]. intros id a a' -> [= ->]. unfold delta_total. cbn. lia. }
  assert (R : ready (rb_credit db) o r account) by (split; [done|apply Run|apply Run]).
  pose proof (refund_fold gen gen_text o refundId r frozen Hid _ _ _ (fr_fold _ _ _ _ _ _ _ _ _ _ Run) R) as (Ro & _ & (ls & El & Fl) & _).
  cbn [rr_db with_credit rb_credit] in *. split; [by eapply refund_replays|]. exists ls. split; [done|]. split.
  - eapply Forall_impl; [exact Fl|]. intros e (H1 & line & (W1 & _ & W3) & _). split; [done|]. split; [done|]. by apply bool_decide_eq_true in W3 as [W3 _].
  - intros id a a' Ha Ha'. destruct (ok_accounts _ (ro_credit _ Hok) _ _ Ha) as (_ & _ & <-). destruct (ok_accounts _ (ro_credit _ Hok') _ _ Ha') as (_ & _ & <-).
    rewrite El. unfold delta_total. by rewrite List.filter_app, map_app, sumZ_app.
Qed.
End Once.

(** ** Every handler keeps the invariant *)

Section Runs.
Context (gen : nat -> string) (gen_text : forall n, gen n <> EmptyString) (JSON_parse : string -> option json).
Context (sha256 : string -> string) (hex_digest : forall text, hex64 (sha256 text) = true) (localeAfter : string -> string -> bool).
Context (importedOrigin : RestoreDb -> string -> result CreditError (option json)).
Context (current_pricing : RestoreDb -> string -> option json -> result CreditError (option CurrentPricing)).

Lemma anchor_credit db o db' ev : anchorImportedCreditOrigin importedOrigin current_pricing db o = Ok (db', ev) -> rb_credit db' = rb_credit db.
Proof.
  intros H. unfold anchorImportedCreditOrigin in H. inv_ok.
  destruct (rb_snapshots db !! o) as [x|]; [by inv_ok|]. destruct (_ ≫= ev_importedOrigin); inv_ok; done.
Qed.

Lemma restoreManual_ok db input db' e : restore_ok (rb_credit db) ->
  restoreManual gen sha256 importedOrigin current_pricing db input = Ok (db', e) -> restore_ok (rb_credit db').
Proof.
  intros Hok H. unfold restoreManual in H. inv_ok.
  match goal with E : redemptionForAccount _ _ _ = Ok ?x |- _ => rename E into Er; destruct x as [r|]; [|done] end. inv_ok.
  assert (Hr : r ∈ redemptions (rb_credit db) (rm_orderId input) /\ ct_accountId r = rm_accountId input).
  { unfold redemptionForAccount in Er. destruct (List.filter _ _) as [|x [|]] eqn:Ef; inv_ok; try discriminate. assert (Hx : r ∈ [r]) by by left. rewrite <- Ef in Hx.
    apply elem_filter_bool in Hx as [H1 H2]. apply andb_true_iff in H2 as [H2 H3]. apply String.eqb_eq in H3. split; [by apply elem_filter_bool|done]. }
  destruct Hr as [Hr Hacc].
  match goal with x : RestoreDb * option (list (option Z)) |- _ => destruct x as [db1 indexes] end. 
  assert (E1 : rb_credit db1 = rb_credit db).
  { destruct (priorOperation _ _); [by inv_ok|]. inv_ok.
    match goal with x : RestoreDb * option CreditEvidence |- _ => destruct x as [db2 [ev|]] end; inv_ok. by eapply anchor_credit. }
  cbn beta iota in H. inv_ok.
  match goal with x : CreditDb * CreditAccount * option CreditTransaction |- _ => destruct x as [[db2 account2] [e'|]] end; inv_ok.
  match goal with E : postRestoration _ _ _ _ _ _ = Ok _ |- _ => rename E into Hp end. rewrite E1 in Hp. cbn [rb_credit with_credit].
  assert (One : redemptions (rb_credit db) (rm_orderId input) = [r]).
  { unfold postRestoration, readCreditFundingEvidence in Hp. cbn [ri_orderId] in Hp. destruct (redemptionForOrder _ _) as [[x|]|] eqn:E; cbn in Hp; [|done|done].
    apply redemptionForOrder_some in E. rewrite E in Hr. apply list_elem_of_singleton in Hr as ->. done. }
  rewrite <- Hacc in Hp. unfold lockAccount in *. destruct (cd_accounts _ !! rm_accountId input) as [account|] eqn:Ea; [|done]. inv_ok.
  apply (postRestoration_ok gen gen_text) in Hp as (_ & R & _); [apply R| |done]. split; [done|exact One|by rewrite Hacc].
Qed.

Lemma postEdit_ok db input db' out : restore_ok db -> postEditCreditFunding gen sha256 localeAfter db input = Ok (db', out) -> restore_ok db'.
Proof.
  intros Hok H. unfold postEditCreditFunding in H. inv_ok. destruct a as [[plan r]|]; [|by inv_ok].
  destruct plan as [|digest postings allocation s]; inv_ok; [done|]. unfold prepareEditCreditFunding in Em. inv_ok.
  match goal with E : redemptionForOrder _ _ = Ok ?x |- _ => rename E into Er; destruct x as [r'|]; inv_ok; [|discriminate] end.
  match goal with E : lift (planEditCreditFunding _ _ _) = Ok _ |- _ => apply lift_ok in E; rename E into Hplan end.
  apply redemptionForOrder_some in Er. unfold lockAccount in *. destruct (cd_accounts db !! ct_accountId r) as [account|] eqn:Ea; [|done]. inv_ok.
  match goal with E : postFundingRows _ _ _ _ _ _ = Ok _ |- _ => rename E into Hp end.
  destruct (post_planned gen gen_text db (ec_orderId input) r _ postings edit_extra _ s ltac:(by split) Hp) as (es & _ & _ & R & _).
  - exact (edit_postings_own _ _ _ _ _ _ _ Hplan).
  - intros ids L Ft rows h N1 N2. eapply (edit_posted_reads sha256 localeAfter hex_digest _ _ _ _ _ ids Hplan); try done.
    apply redemption_sized. pose proof (ro_sized _ Hok) as S. rewrite Forall_forall in S. apply S. apply (redemption_facts _ _ _ Er).
  - apply R.
Qed.

(** A step of the ledger, or a change of the tables other modules write. *)
Inductive RestoreOp :=
  | ledger_op (op : CreditOp)
  | refund_op (orderId refundId : string)
  | manual_op (input : RestoreManualInput)
  | edit_op (input : EditCreditInput)
  | others (orders : gmap string CreditOrder) (payments : list Payment) (money : MoneyTables) (lines : list CreditRefundLine) (snapshots : gmap string json).
Definition op_text (op : RestoreOp) : Prop := match op with ledger_op op => op_sized op | refund_op _ id => id <> EmptyString | _ => True end.
Definition run_restore_op (db : RestoreDb) (op : RestoreOp) : result CreditError RestoreDb :=
  match op with
  | ledger_op op => let! d := run_credit_op gen JSON_parse (rb_credit db) op in Ok (with_credit db d)
  | refund_op o id => let! (d, _) := restoreRefund gen sha256 importedOrigin current_pricing db o id in Ok d
  | manual_op input => let! (d, _) := restoreManual gen sha256 importedOrigin current_pricing db input in Ok d
  | edit_op input => let! (d, _) := postEditCreditFunding gen sha256 localeAfter (rb_credit db) input in Ok (with_credit db d)
  | others orders payments money lines snapshots =>
      let c := rb_credit db in
      Ok {| rb_credit := {| cd_accounts := cd_accounts c; cd_entries := cd_entries c; cd_promotions := cd_promotions c; cd_orders := orders;
                            cd_payments := payments; cd_storeCurrency := cd_storeCurrency c |};
            rb_money := money; rb_refundLines := lines; rb_snapshots := snapshots |}
  end.
Definition run_restore (db : RestoreDb) (ops : list RestoreOp) : RestoreDb :=
  fold_left (fun d op => match run_restore_op d op with Ok d' => d' | Err _ => d end) ops db.

Lemma run_restore_op_ok db op db' : restore_ok (rb_credit db) -> op_text op -> run_restore_op db op = Ok db' -> restore_ok (rb_credit db').
Proof.
  intros Hok Ht H. destruct op; cbn [run_restore_op op_text] in *; inv_ok; try (destruct a as [d x]; inv_ok).
  - eapply quiet_ok; [exact Hok|eapply run_credit_quiet; [apply Hok|exact Ht|exact Em]|eapply run_credit_op_ok; [apply Hok|exact Em]].
  - by eapply restoreRefund_ok.
  - by eapply restoreManual_ok.
  - by eapply postEdit_ok.
  - destruct Hok as [[A K U N O P] S R F]. split; [split; done|done|done|done].
Qed.

(** C29: Whatever runs on the ledger, in any order, with failures rolled back and
    other modules changing orders, payments, refunds, edits and snapshots in
    between, balances stay within range and equal to their posted deltas, and an
    order never gets back more than it redeemed: its restorations read as one
    consistent history whose restored and retained cents add up to the
    redemption. *)
Theorem credit_restored_within_redemption db ops : restore_ok (rb_credit db) -> Forall op_text ops ->
  let ledger := rb_credit (run_restore db ops) in
  credit_ok ledger /\
  forall o r, redemptions ledger o = [r] -> restorations ledger o <> [] ->
    exists s, funding_state r (restorations ledger o) = Ok s /\ fs_restored s = sumZ (map ct_amount (restorations ledger o)) /\
      fs_restored s + fs_retained s = ct_amount r /\ 0 <= fs_retained s.
Proof.
  intros Hok Ht. assert (R : restore_ok (rb_credit (run_restore db ops))).
  { revert db Hok. unfold run_restore. induction Ht as [|op ops Hop _ IH]; intros db Hok; cbn [fold_left]; [done|]. apply IH.
    destruct (run_restore_op db op) as [d|] eqn:E; [|done]. by eapply run_restore_op_ok. }
  split; [apply R|]. intros o r Hr Hn. destruct (ro_reads _ R _ _ Hr Hn) as [s Hs]. exists s. split; [done|].
  unfold funding_state, readCreditFundingState in Hs. inv_ok. apply readState_iff in Em as (original & lines & P & ->).
  cbn [state_of rs_state fs_restored fs_retained]. rewrite map_map in *. pose proof (pv_total _ _ _ _ P) as T. rewrite map_map in T.
  split; [done|]. split; [exact T|]. apply (pv_retained _ _ _ _ P).
Qed.
End Runs.

(** ** A sample shop *)

Definition shop_ids (n : nat) : string := sample_uuid_of (ascii_of_nat (48 + n)).
Lemma shop_ids_text n : shop_ids n <> EmptyString.
Proof. discriminate. Qed.
Definition shop_order : string := sample_uuid_of "d".
Definition shop_account : string := sample_uuid_of "c".
Definition shop_refund : string := sample_uuid_of "e".
Definition shop_start : RestoreDb :=
  {| rb_credit := {| cd_accounts := ∅; cd_entries := []; cd_promotions := ∅; cd_storeCurrency := "USD";
       cd_orders := <[shop_order := {| co_state := PendingPayment; co_currency := "USD"; co_promotionId := Some "p1"; co_grandTotal := 900;
                                       co_metadata := None; co_lines := [(sample_uuid_of "a", 2); (sample_uuid_of "b", 1)] |}]> ∅;
       cd_payments := [{| py_id := "pay1"; py_orderId := shop_order; py_amount := 900; py_gatewayAccount := None; py_gatewayMode := None;
         py_currency := Some "USD"; py_method := "stripe"; py_providerRef := Some "pi_1"; py_state := pay_Settled; py_metadata := None;
         py_errorMessage := None |}] |};
     rb_money := {| mt_payments := []; mt_edits := []; mt_refunds :=
       [{| rf_id := shop_refund; rf_orderId := shop_order; rf_paymentId := "pay1"; rf_amount := 400; rf_state := ref_Settled; rf_metadata := None;
           rf_attemptId := None; rf_reason := None; rf_providerRef := None; rf_itemsAmount := None; rf_shippingAmount := None; rf_adjustmentAmount := None |}] |};
     rb_refundLines := [{| cl_refundId := shop_refund; cl_line := {| rv_orderLineId := sample_uuid_of "a"; rv_quantity := 1; rv_amount := 250 |} |};
                        {| cl_refundId := shop_refund; cl_line := {| rv_orderLineId := sample_uuid_of "b"; rv_quantity := 1; rv_amount := 150 |} |}];
     rb_snapshots := ∅ |}%string.
Definition shop_paid : list RestoreOp :=
  [ledger_op (op_issue {| is_email := "ann@example.com"; is_amount := 1000; is_issuanceKey := "k1"; is_currency := None; is_code := Some "GIFT" |}
     "ACC-0" "p1" shop_account);
   ledger_op (op_reserve {| rs_orderId := shop_order; rs_accountId := shop_account; rs_appliedAmount := 600; rs_arranging := true |} "u1" 5);
   ledger_op (op_redeem {| rd_orderId := shop_order; rd_appliedAmount := 500;
     rd_allocation := <[sample_uuid_of "a" := [300; 150]]> (<[sample_uuid_of "b" := [50]]> ∅) |})]%string.
(** The refund, a manual return of the second unit, and a useless retry. *)
Definition shop_returns : list RestoreOp :=
  [refund_op shop_order shop_refund;
   manual_op {| rm_accountId := shop_account; rm_orderId := shop_order; rm_orderLineId := sample_uuid_of "a"; rm_quantity := 1;
     rm_expectedCents := 150; rm_operationKey := "m1"; rm_actor := "op"; rm_reason := "returned" |};
   refund_op shop_order shop_refund]%string.
Definition shop_origin (_ : RestoreDb) (_ : string) : result CreditError (option json) := Ok None.
Definition shop_pricing (_ : RestoreDb) (_ : string) (_ : option json) : result CreditError (option CurrentPricing) := Ok None.
Definition shop_run (db : RestoreDb) (ops : list RestoreOp) : RestoreDb := run_restore shop_ids no_parse sample_sha str_after shop_origin shop_pricing db ops.

Lemma shop_start_ok : restore_ok (rb_credit shop_start).
Proof. split; [split; cbn; [apply map_Forall_empty| | | |lia|]; constructor|constructor|done|done]. Qed.
Lemma shop_allocation : alloc_sized (<[sample_uuid_of "a" := [300; 150]]> (<[sample_uuid_of "b" := [50]]> ∅)).
Proof.
  intros line units H. apply lookup_insert_Some in H as [(_ & <-)|(_ & H)]; [done|]. apply lookup_insert_Some in H as [(_ & <-)|(_ & H)]; [done|].
  change (None = Some units) in H. discriminate H.
Qed.
Lemma shop_sized : Forall op_text (shop_paid ++ shop_returns).
Proof. repeat (apply Forall_cons; split; [first [exact I|exact shop_allocation|discriminate]|]). constructor. Qed.

Definition shop_ledger : CreditDb := rb_credit (shop_run shop_start (shop_paid ++ shop_returns)).
Definition shop_redemption : CreditTransaction := or_else (head (redemptions shop_ledger shop_order)) (entry shop_ids shop_ledger "" REDEEM POSTED 0 0 None "").
Lemma credit_restored_within_redemption_witness :
  map ct_amount (restorations shop_ledger shop_order) = [300; 50; 150] /\
  exists s, funding_state shop_redemption (restorations shop_ledger shop_order) = Ok s /\ fs_restored s + fs_retained s = 500.
Proof.
  split; [vm_compute; reflexivity|].
  destruct (proj2 (credit_restored_within_redemption shop_ids shop_ids_text no_parse sample_sha sample_hex str_after shop_origin shop_pricing
    shop_start (shop_paid ++ shop_returns) shop_start_ok shop_sized) shop_order shop_redemption) as (s & H1 & _ & H3 & _).
  - vm_compute. reflexivity.
  - vm_compute. discriminate.
  - exists s. split; [exact H1|]. rewrite H3. vm_compute. reflexivity.
Defined.

Lemma shop_paid_ok : restore_ok (rb_credit (shop_run shop_start shop_paid)).
Proof.
  destruct (Forall_app op_text shop_paid shop_returns) as [S _]. destruct (S shop_sized) as [T _]. clear S.
  revert T. generalize shop_start_ok. generalize shop_start. unfold shop_run, run_restore. induction shop_paid as [|op ops IH]; intros db Hok T; cbn [fold_left]; [done|].
  inversion T as [|? ? T1 T2]; subst. apply IH; [|done]. destruct (run_restore_op _ _ _ _ _ _ db op) as [d|] eqn:E; [|done].
  by eapply (run_restore_op_ok shop_ids shop_ids_text no_parse sample_sha sample_hex).
Qed.
Definition shop_result : RestoreDb * list CreditTransaction :=
  match restoreRefund shop_ids sample_sha shop_origin shop_pricing (shop_run shop_start shop_paid) shop_order shop_refund with
  | Ok x => x | Err _ => (shop_start, []) end.
Lemma refund_restores_once_witness : map ct_amount (snd shop_result) = [300; 50] /\
  restoreRefund shop_ids sample_sha shop_origin shop_pricing (fst shop_result) shop_order shop_refund = Ok (fst shop_result, snd shop_result).
Proof.
  split; [vm_compute; reflexivity|].
  refine (proj1 (refund_restores_once shop_ids shop_ids_text sample_sha shop_origin shop_pricing (shop_run shop_start shop_paid) shop_order shop_refund
    (fst shop_result) (snd shop_result) _ shop_paid_ok _ _)); [reflexivity|discriminate|vm_compute; reflexivity].
Defined.
