(* ===== verification/PromotionStack.v ===== *)
(** The captured pricing profile: [src/packages/api/src/money/promotion-stack.ts].

    One call prices every line, lets each promotion act in turn (item stage,
    order stage, loyalty points, shipping stage) and records what it took off.
    The source mutates its working lines and its [applied] list in place; here
    [StackState] is that store and each stage returns the next one. A line is
    named by its index, so an [active] list that aliases [lines] in the source
    is a list of indexes here.

    Cents are [Z]; a quotient or product that may be fractional is a binary64
    value ([JsNumber.fl]). [sum] adds integers exactly, as the doubles do while
    a list has fewer than 2^22 entries of at most [MAX_CENTS]. The SHA-256
    [quoteHash] of the result is not modelled: nothing here reads it. *)

From S2P Require Import Prelude JsNumber Apportion Totals Json Coupon AccountCredit.
From Stdlib Require Import ZArith QArith Qround Qabs Lia Lqa Bool String Ascii.
From stdpp Require Import base list strings gmap sorting.
Local Open Scope Z_scope.

(** ** Data *)

Inductive PricingPhase := AddingItems | ArrangingPayment | PaymentSettled.
Inductive AdjustmentKind := item_adjustment | order_adjustment.
Record SignedAdjustment := {
  sa_amount : Z; sa_units : option (list Z); sa_promotionId : option string; sa_kind : AdjustmentKind
}.
Record StackLine := {
  sl_key : string; sl_quantity : Z; sl_placedQuantity : Z; sl_unitListPrice : Z;
  sl_priceIncludesTax : bool; sl_taxRateBps : Z; sl_priorAdjustments : list SignedAdjustment
}.
Inductive StackKind := percentage | fixed | free_shipping | account_credit.
#[export] Instance StackKind_eq_dec : EqDecision StackKind.
Proof. solve_decision. Defined.
Inductive StackScope := order_scope | line_scope.
#[export] Instance StackScope_eq_dec : EqDecision StackScope.
Proof. solve_decision. Defined.
Record CreditBudget := { cb_accountId : string; cb_availableCents : Z }.
Record ResolvedPromotion := {
  rp_id : string; rp_code : option string; rp_kind : StackKind; rp_scope : StackScope; rp_value : Q;
  rp_priority : Z; rp_sequence : Z; rp_freeShipping : bool; rp_conditions : option json;
  rp_credit : option CreditBudget
}.
Record SourceCharge := { sc_sourceId : string; sc_sourceDigest : string; sc_net : Z; sc_gross : Z }.
Record ShippingPricingBasis := { pb_sourceId : string; pb_amount : Z; pb_includesTax : bool; pb_taxRateBps : Z }.
Record ShippingCarrier := { sr_sourceId : string; sr_methodCode : option string; sr_lineKeys : list string }.
Inductive RetainedMode := keep | revalidate_promotions | recalculate_keep_promotions.
#[export] Instance RetainedMode_eq_dec : EqDecision RetainedMode.
Proof. solve_decision. Defined.
Record RetainedLine := { rl_sourceId : string; rl_net : Z; rl_gross : Z }.
Record RetainedShipping := {
  rs_sourceDigest : string; rs_mode : RetainedMode; rs_lines : list RetainedLine;
  rs_repricedBasis : option (list ShippingPricingBasis); rs_carriers : option (list ShippingCarrier)
}.
Record StackAdjustment := { aj_amount : Z; aj_taxable : bool; aj_sourceSurcharge : option SourceCharge }.
Record StackInput := {
  si_lines : list StackLine; si_promotions : list ResolvedPromotion; si_couponCodes : list string;
  si_phase : PricingPhase; si_currency : string; si_pricesIncludeTax : bool;
  si_shipping : Z; si_shippingTaxRateBps : Z; si_shippingIncludesTax : bool;
  si_activeVerifications : list string; si_items : option (list CouponItem);
  si_pointsDiscount : option Z; si_adjustments : option (list StackAdjustment);
  si_retainedShipping : option RetainedShipping
}.
Inductive StackReason :=
  | Ambiguous_coupon_code | Credit_unavailable | Condition_failed (r : CouponReason)
  | Promotion_not_applicable | Coupon_unavailable.
Record StackCouponStatus := {
  cs_code : string; cs_promotionId : option string; cs_kind : option StackKind; cs_applied : bool;
  cs_reason : option StackReason; cs_appliedAmount : option Z; cs_availableAmount : option Z;
  cs_remainingAmount : option Z
}.
Record LineAllocation := {
  al_lineKey : string; al_amount : Z; al_units : list Z; al_sourceAdjustmentAmount : Z;
  al_sourceUnits : list Z; al_sourceDiscountAmount : Z; al_sourceDiscountAmountWithTax : Z
}.
Record AppliedPromotion := {
  ap_promotionId : string; ap_kind : StackKind; ap_gross_basis : bool; ap_amount : Z; ap_amountWithTax : Z;
  ap_requestedAmount : Z; ap_shippingAdjustment : option (Z * Z); ap_lineAllocations : list LineAllocation
}.
Record LineSnapshot := {
  ls_lineKey : string; ls_quantity : Z; ls_proratedUnitPriceWithTax : Z; ls_lineNet : Z; ls_lineGross : Z;
  ls_sourceAdjustmentTotal : Z; ls_sourceAdjustmentDivisor : Z
}.
Record StackLineTotals := { lt_unitPrice : Z; lt_quantity : Z; lt_lineSubtotal : Z; lt_lineDiscount : Z; lt_lineTotal : Z }.
Record SelectedCredit := {
  sd_accountId : string; sd_promotionId : string; sd_appliedAmount : Z; sd_allocation : AccountCreditAllocation
}.
Record PromotionStackTotals := {
  pt_lines : list StackLineTotals; pt_subtotal : Z; pt_discountTotal : Z; pt_shippingTotal : Z; pt_taxTotal : Z;
  pt_grandTotal : Z; pt_pointsDiscount : Z; pt_adjustmentTotal : option Z;
  pt_coupons : list StackCouponStatus; pt_applied : list AppliedPromotion; pt_lineSnapshots : list LineSnapshot;
  pt_selectedCredit : option SelectedCredit; pt_retainedShippingFinal : option (list RetainedLine);
  pt_resolvedPromotions : list ResolvedPromotion
}.

(** A plain [Error] carries its message; a [PromotionStackError] its code. *)
Inductive StackError := PlainError (message : string) | CREDIT_AMOUNT_CHANGED | CREDIT_ALLOCATION_INVALID.
Definition throw {A} (message : string) : result StackError A := Err (PlainError message).

(** ** Integer cents *)

Definition MAX_CENTS : Z := 2147483647.
Definition integer (value : Z) (label : string) (min max : Z) : result StackError Z :=
  if negb (is_safe value) || (value <? min) || (max <? value) then throw (label ++ " must fit integer cents")%string
  else Ok value.
Definition sum (values : list Z) : result StackError Z := integer (sumZ values) "Money sum" (- MAX_CENTS) MAX_CENTS.
Definition rounded (value : Q) : result StackError Z :=
  integer (js_round value) "Rounded money" (- MAX_CENTS) MAX_CENTS.

(** ** [prorateSigned] *)

Definition signed_share (amount total n weight : Z) : Q :=
  if total =? 0 then js_div (jsn amount) (jsn n) else js_mul (jsn amount) (js_div (jsn weight) (jsn total)).
Definition fraction (value : Q) : Q := js_sub value (jsn (js_floor value)).

Definition prorateSigned (weights : list Z) (amount : Z) : result StackError (list Z) :=
  let! _ := integer amount "Proration amount" (- MAX_CENTS) MAX_CENTS in
  match weights with
  | [] => if negb (amount =? 0) then throw "Cannot distribute money without units" else Ok []
  | _ =>
      let! _ := map_result (fun w => integer w "Proration weight" 0 MAX_CENTS) weights in
      let! total := sum weights in
      let n := Z.of_nat (length weights) in
      let actual := map (signed_share amount total n) weights in
      let shares := map js_floor actual in
      let! floors := sum shares in
      let missing := amount - floors in
      let final := assign_leftover (by_fraction (map fraction actual)) missing shares in
      let left := missing - Z.min n (Z.max 0 missing) in
      let! check := sum final in
      if negb (left =? 0) || negb (check =? amount) then throw "Signed proration did not conserve money"
      else Ok final
  end.

(** ** Working lines *)

Record WorkingLine := { wl_input : StackLine; wl_adjustments : list Z }.
Record LineFacts := { lf_lineNet : Z; lf_lineGross : Z; lf_unitNet : Z; lf_unitGross : Z }.
Definition placed_max (l : StackLine) : Z := Z.max (sl_placedQuantity l) (sl_quantity l).
Definition tax_factor (bps : Z) : Q := js_add 1 (js_div (jsn bps) 10000).

Definition facts (line : WorkingLine) : result StackError LineFacts :=
  let input := wl_input line in
  let! adjustment :=
    if sl_quantity input =? 0 then Ok 0%Q
    else let! total := sum (wl_adjustments line) in Ok (js_div (jsn total) (jsn (placed_max input))) in
  let list_price := js_add (jsn (sl_unitListPrice input)) adjustment in
  if negb (Qle_bool 0 list_price) then throw "Discount distribution exceeds line basis" else
  let factor := tax_factor (sl_taxRateBps input) in
  let net := if sl_priceIncludesTax input then js_div list_price factor else list_price in
  let gross := if sl_priceIncludesTax input then list_price else js_mul list_price factor in
  let q := jsn (sl_quantity input) in
  let! lineNet := rounded (js_mul net q) in
  let! lineGross := rounded (js_mul gross q) in
  let! unitNet := rounded net in
  let! unitGross := rounded gross in
  Ok {| lf_lineNet := lineNet; lf_lineGross := lineGross; lf_unitNet := unitNet; lf_unitGross := unitGross |}.

Record StackTotals := { tt_net : Z; tt_gross : Z }.
Definition totals (lines : list WorkingLine) : result StackError StackTotals :=
  let! fs := map_result facts lines in
  let! net := sum (map lf_lineNet fs) in
  let! gross := sum (map lf_lineGross fs) in
  Ok {| tt_net := net; tt_gross := gross |}.

(** ** Input validation (the guards at the head of [calculatePromotionStack]) *)

Definition all_chars (p : nat -> bool) (s : string) : bool :=
  forallb (fun c => p (nat_of_ascii c)) (list_ascii_of_string s).
(** [/^[a-f0-9]{64}$/] and [/^[A-Z]{3}$/]. *)
Definition is_digest (s : string) : bool :=
  (String.length s =? 64)%nat &&
  all_chars (fun n => ((97 <=? n)%nat && (n <=? 102)%nat) || ((48 <=? n)%nat && (n <=? 57)%nat)) s.
Definition is_currency (s : string) : bool :=
  (String.length s =? 3)%nat && all_chars (fun n => (65 <=? n)%nat && (n <=? 90)%nat) s.
Definition blank (s : string) : bool := (String.length s =? 0)%nat.
Fixpoint distinct (l : list string) : bool :=
  match l with [] => true | x :: xs => negb (in_set xs x) && distinct xs end.

Definition check_each {A} (f : A -> result StackError unit) (l : list A) : result StackError unit :=
  fold_result (fun _ x => f x) tt l.

Definition check_retained_line (l : RetainedLine) : result StackError unit :=
  if blank (rl_sourceId l) then throw "Invalid source shipping identity" else
  let! _ := integer (rl_net l) "Source shipping net" (- MAX_CENTS) MAX_CENTS in
  let! _ := integer (rl_gross l) "Source shipping gross" (- MAX_CENTS) MAX_CENTS in Ok tt.

Definition check_repriced (row : ShippingPricingBasis * RetainedLine) : result StackError unit :=
  let '(b, l) := row in
  if negb (String.eqb (pb_sourceId b) (rl_sourceId l)) then throw "Source shipping repricing identity" else
  let! _ := integer (pb_amount b) "Repriced shipping" (- MAX_CENTS) MAX_CENTS in
  let! _ := integer (pb_taxRateBps b) "Repriced shipping tax" 0 MAX_CENTS in Ok tt.

Definition check_repricing (s : RetainedShipping) : result StackError unit :=
  if bool_decide (rs_repricedBasis s = None) && negb (bool_decide (rs_mode s = recalculate_keep_promotions)) then Ok tt
  else if bool_decide (rs_mode s = keep) then throw "Unexpected source shipping repricing basis" else
  match rs_repricedBasis s with
  | Some basis =>
      if negb (length basis =? length (rs_lines s))%nat then throw "Source shipping repricing basis absent"
      else check_each check_repriced (combine basis (rs_lines s))
  | None => throw "Source shipping repricing basis absent"
  end.

Definition carrier_member (keys : list string) (members : list string) (key : string) : result StackError (list string) :=
  if negb (in_set keys key) || in_set members key then throw "Source shipping carrier membership"
  else Ok (key :: members).
Definition check_carrier (keys : list string) (members : list string) (row : ShippingCarrier * RetainedLine) :
    result StackError (list string) :=
  let '(carrier, l) := row in
  if negb (String.eqb (sr_sourceId carrier) (rl_sourceId l)) ||
     match sr_methodCode carrier with Some m => blank m | None => false end
  then throw "Source shipping carrier identity"
  else fold_result (carrier_member keys) members (sr_lineKeys carrier).
Definition check_carriers (keys : list string) (s : RetainedShipping) : result StackError unit :=
  match rs_carriers s with
  | None => Ok tt
  | Some carriers =>
      if negb (length carriers =? length (rs_lines s))%nat then throw "Source shipping carrier closure"
      else let! _ := fold_result (check_carrier keys) [] (combine carriers (rs_lines s)) in Ok tt
  end.

Definition check_retained (input : StackInput) (s : RetainedShipping) : result StackError unit :=
  if negb (is_digest (rs_sourceDigest s)) || negb (distinct (map rl_sourceId (rs_lines s)))
  then throw "Invalid retained shipping" else
  let! _ := check_each check_retained_line (rs_lines s) in
  let! net := sum (map rl_net (rs_lines s)) in
  if negb (net =? si_shipping input) then throw "Source shipping total differs" else
  let! _ := check_repricing s in
  check_carriers (map sl_key (si_lines input)) s.

Definition check_context (input : StackInput) : result StackError unit :=
  if negb (is_currency (si_currency input)) then throw "Invalid pricing context" else
  let! _ := integer (si_shipping input) "Shipping"
              (match si_retainedShipping input with Some _ => - MAX_CENTS | None => 0 end) MAX_CENTS in
  let! _ := integer (si_shippingTaxRateBps input) "Shipping tax rate" 0 MAX_CENTS in
  match si_retainedShipping input with Some s => check_retained input s | None => Ok tt end.

Definition prepare_line (acc : list string * list WorkingLine) (line : StackLine) :
    result StackError (list string * list WorkingLine) :=
  let '(keys, out) := acc in
  if blank (sl_key line) || in_set keys (sl_key line) then throw "Line keys must be unique" else
  let! _ := integer (sl_quantity line) "Quantity" 0 MAX_CENTS in
  let! _ := integer (sl_placedQuantity line) "Placed quantity" 0 MAX_CENTS in
  let! _ := integer (sl_unitListPrice line) "Unit price" 0 MAX_CENTS in
  let! _ := integer (sl_taxRateBps line) "Tax rate" 0 MAX_CENTS in
  let! _ := integer (sl_unitListPrice line * sl_quantity line) "Line price" 0 MAX_CENTS in
  let! adjustments :=
    map_result (fun a => integer (sa_amount a) "Prior adjustment" (- MAX_CENTS) 0) (sl_priorAdjustments line) in
  Ok (sl_key line :: keys, out ++ [{| wl_input := line; wl_adjustments := adjustments |}]).
Definition prepare_lines (lines : list StackLine) : result StackError (list WorkingLine) :=
  let! r := fold_result prepare_line ([], []) lines in Ok (snd r).

(** [(a, b) => a.priority - b.priority || a.sequence - b.sequence], as "a sorts after b". *)
Definition promotion_after (a b : ResolvedPromotion) : bool :=
  (rp_priority b <? rp_priority a) || ((rp_priority a =? rp_priority b) && (rp_sequence b <? rp_sequence a)).
Definition integral (v : Q) : bool := Qeq_bool v (jsn (Qfloor v)).

Definition check_promotion (seen : list string) (p : ResolvedPromotion) : result StackError (list string) :=
  if blank (rp_id p) || in_set seen (rp_id p) then throw "Promotion identities must be unique" else
  let! _ := integer (rp_priority p) "Promotion priority" (- MAX_CENTS) MAX_CENTS in
  let! _ := integer (rp_sequence p) "Promotion sequence" 0 MAX_CENTS in
  let! _ :=
    match rp_kind p with
    | percentage =>
        if negb (Qle_bool 0 (rp_value p)) || negb (Qle_bool (rp_value p) 100) then throw "Invalid percentage" else Ok 0
    | _ =>
        if negb (integral (rp_value p)) then throw "Promotion value must fit integer cents"
        else integer (Qfloor (rp_value p)) "Promotion value" 0 MAX_CENTS
    end in
  let! _ :=
    match rp_kind p, rp_credit p with
    | account_credit, Some c =>
        if negb (bool_decide (rp_scope p = order_scope)) then throw "Credit must be an order action"
        else integer (cb_availableCents c) "Credit budget" 0 MAX_CENTS
    | account_credit, None => throw "Credit must be an order action"
    | _, _ => Ok 0
    end in
  Ok (rp_id p :: seen).
Definition check_prior (identities : list string) (a : SignedAdjustment) : result StackError unit :=
  match sa_kind a, sa_promotionId a with
  | order_adjustment, Some id =>
      if negb (blank id) && in_set identities id then throw "Current order promotion already present in prior adjustments"
      else Ok tt
  | _, _ => Ok tt
  end.

(** ** The store one pricing run mutates *)

Record StackState := {
  st_lines : list WorkingLine; st_applied : list AppliedPromotion;
  st_accepted : list string; st_reasons : gmap string StackReason
}.
Definition with_lines (st : StackState) (lines : list WorkingLine) : StackState :=
  {| st_lines := lines; st_applied := st_applied st; st_accepted := st_accepted st; st_reasons := st_reasons st |}.
Definition with_applied (st : StackState) (applied : list AppliedPromotion) : StackState :=
  {| st_lines := st_lines st; st_applied := applied; st_accepted := st_accepted st; st_reasons := st_reasons st |}.
Definition refuse (st : StackState) (id : string) (reason : StackReason) : StackState :=
  {| st_lines := st_lines st; st_applied := st_applied st; st_accepted := st_accepted st;
     st_reasons := <[id := reason]> (st_reasons st) |}.
Definition accept (st : StackState) (id : string) : StackState :=
  {| st_lines := st_lines st; st_applied := st_applied st;
     st_accepted := if in_set (st_accepted st) id then st_accepted st else st_accepted st ++ [id];
     st_reasons := st_reasons st |}.

Definition has_code (code : string) (p : ResolvedPromotion) : bool :=
  match rp_code p with Some c => String.eqb (to_lower c) (to_lower code) | None => false end.
Definition available_budget (p : ResolvedPromotion) : Z :=
  match rp_credit p with Some c => cb_availableCents c | None => 0 end.
Definition applied_for (id : string) (e : AppliedPromotion) : bool := String.eqb (ap_promotionId e) id.
Definition allocation_for (key : string) (a : LineAllocation) : bool := String.eqb (al_lineKey a) key.

(** Element-wise [existing.map((unit, i) => sum([unit, other[i] ?? 0]))]. *)
Fixpoint add_units (existing other : list Z) : result StackError (list Z) :=
  match existing with
  | [] => Ok []
  | unit :: rest =>
      let! u := sum [unit; match other with x :: _ => x | [] => 0 end] in
      let! us := add_units rest (match other with _ :: xs => xs | [] => [] end) in Ok (u :: us)
  end.
Definition merge_allocation (existing a : LineAllocation) : result StackError LineAllocation :=
  let! amount := sum [al_amount existing; al_amount a] in
  let! units := add_units (al_units existing) (al_units a) in
  let! sourceAdjustment := sum [al_sourceAdjustmentAmount existing; al_sourceAdjustmentAmount a] in
  let! sourceUnits := add_units (al_sourceUnits existing) (al_sourceUnits a) in
  let! discount := sum [al_sourceDiscountAmount existing; al_sourceDiscountAmount a] in
  let! discountWithTax := sum [al_sourceDiscountAmountWithTax existing; al_sourceDiscountAmountWithTax a] in
  Ok {| al_lineKey := al_lineKey existing; al_amount := amount; al_units := units;
        al_sourceAdjustmentAmount := sourceAdjustment; al_sourceUnits := sourceUnits;
        al_sourceDiscountAmount := discount; al_sourceDiscountAmountWithTax := discountWithTax |}.
(** The first element satisfying [p] becomes [f] of it; with none, [fresh] is pushed. *)
Fixpoint upsert {A} (p : A -> bool) (f : A -> result StackError A) (fresh : result StackError A) (l : list A) :
    result StackError (list A) :=
  match l with
  | [] => let! x := fresh in Ok [x]
  | x :: xs =>
      if p x then let! y := f x in Ok (y :: xs) else let! ys := upsert p f fresh xs in Ok (x :: ys)
  end.
Definition add_allocation (l : list LineAllocation) (a : LineAllocation) : result StackError (list LineAllocation) :=
  upsert (allocation_for (al_lineKey a)) (fun existing => merge_allocation existing a) (Ok a) l.

(** Replace the allocation of the line [input] by a discount of [requested] more cents. *)
Definition unit_weights (quantity : Z) : list Z := repeat 1 (Z.to_nat quantity).
Definition basis_of (includesTax : bool) (f : LineFacts) : Z := if includesTax then lf_lineGross f else lf_lineNet f.

Definition addAdjustment (pricesIncludeTax : bool) (line : WorkingLine) (requested : Z) :
    result StackError (WorkingLine * LineAllocation) :=
  let input := wl_input line in
  let! before := facts line in
  let sourceAdjustment := Z.max (- basis_of (sl_priceIncludesTax input) before) requested in
  let! sourceUnits := prorateSigned (unit_weights (sl_quantity input)) requested in
  let line' :=
    if negb (sourceAdjustment =? 0)
    then {| wl_input := input; wl_adjustments := wl_adjustments line ++ [sourceAdjustment] |} else line in
  let! after := facts line' in
  let amount := basis_of pricesIncludeTax after - basis_of pricesIncludeTax before in
  let exposed := js_div (js_mul (jsn sourceAdjustment) (jsn (sl_quantity input))) (jsn (placed_max input)) in
  let factor := tax_factor (sl_taxRateBps input) in
  let! units := prorateSigned (unit_weights (sl_quantity input)) amount in
  let! discount := rounded (if sl_priceIncludesTax input then js_div exposed factor else exposed) in
  let! discountWithTax := rounded (if sl_priceIncludesTax input then exposed else js_mul exposed factor) in
  Ok (line', {| al_lineKey := sl_key input; al_amount := amount; al_units := units;
                al_sourceAdjustmentAmount := sourceAdjustment; al_sourceUnits := sourceUnits;
                al_sourceDiscountAmount := discount; al_sourceDiscountAmountWithTax := discountWithTax |}).

(** [lines[i]] gets the adjustment; the other lines stay as they are. *)
Definition adjust_line (pricesIncludeTax : bool) (lines : list WorkingLine) (i : nat) (requested : Z) :
    result StackError (list WorkingLine * LineAllocation) :=
  match lines !! i with
  | Some line =>
      let! r := addAdjustment pricesIncludeTax line requested in Ok (<[i := fst r]> lines, snd r)
  | None => throw "no such line"
  end.
(** [active.map((line, i) => addAdjustment(line, shares[i]!))]. *)
Fixpoint adjust_lines (pricesIncludeTax : bool) (lines : list WorkingLine) (parts : list (nat * Z)) :
    result StackError (list WorkingLine * list LineAllocation) :=
  match parts with
  | [] => Ok (lines, [])
  | (i, share) :: rest =>
      let! r := adjust_line pricesIncludeTax lines i share in
      let! rs := adjust_lines pricesIncludeTax (fst r) rest in Ok (fst rs, snd r :: snd rs)
  end.
Definition active_indexes (lines : list WorkingLine) : list nat :=
  map fst (List.filter (fun '(_, l) => 0 <? sl_quantity (wl_input l)) (imap pair lines)).
(** [lineGross] of each active line. *)
Definition active_weights (lines : list WorkingLine) : result StackError (list Z) :=
  let! fs := map_result facts (List.filter (fun l => 0 <? sl_quantity (wl_input l)) lines) in Ok (map lf_lineGross fs).

Definition new_applied (pricesIncludeTax : bool) (p : ResolvedPromotion) : AppliedPromotion :=
  {| ap_promotionId := rp_id p; ap_kind := rp_kind p; ap_gross_basis := pricesIncludeTax; ap_amount := 0;
     ap_amountWithTax := 0; ap_requestedAmount := 0; ap_shippingAdjustment := None; ap_lineAllocations := [] |}.
Definition charge (lines : list WorkingLine) (amount requestedAmount grossBefore : Z) (allocations : list LineAllocation)
    (e : AppliedPromotion) : result StackError AppliedPromotion :=
  let! total := sum [ap_amount e; amount] in
  let! requested := sum [ap_requestedAmount e; requestedAmount] in
  let! now := totals lines in
  let! withTax := sum [ap_amountWithTax e; tt_gross now - grossBefore] in
  let! allocs := fold_result add_allocation (ap_lineAllocations e) allocations in
  Ok {| ap_promotionId := ap_promotionId e; ap_kind := ap_kind e; ap_gross_basis := ap_gross_basis e;
        ap_amount := total; ap_amountWithTax := withTax; ap_requestedAmount := requested;
        ap_shippingAdjustment := ap_shippingAdjustment e; ap_lineAllocations := allocs |}.
Definition record (pricesIncludeTax : bool) (st : StackState) (p : ResolvedPromotion)
    (amount grossBefore : Z) (allocations : list LineAllocation) (requestedAmount : Z) : result StackError StackState :=
  let f := charge (st_lines st) amount requestedAmount grossBefore allocations in
  let! applied := upsert (applied_for (rp_id p)) f (f (new_applied pricesIncludeTax p)) (st_applied st) in
  Ok (accept (with_applied st applied) (rp_id p)).

(** ** The stages *)

Section Stages.
Context (JSON_parse : string -> option json) (safe_Number : string -> option Z).
Context (input : StackInput) (codes : list string) (promotions : list ResolvedPromotion).

Definition total_basis (t : StackTotals) : Z := if (si_pricesIncludeTax input) then tt_gross t else tt_net t.

Definition eligible (st : StackState) (p : ResolvedPromotion) : result StackError (StackState * bool) :=
  if match rp_code p with Some c => negb (existsb (fun code => String.eqb (to_lower code) (to_lower c)) codes) | None => false end
  then Ok (st, false) else
  if match rp_code p with
     | Some c => negb (length (List.filter (has_code c) promotions) =? 1)%nat
     | None => false
     end
  then Ok (refuse st (rp_id p) Ambiguous_coupon_code, false) else
  if bool_decide (rp_kind p = account_credit) && (available_budget p <=? 0)
  then Ok (refuse st (rp_id p) Credit_unavailable, false) else
  let! current := totals (st_lines st) in
  match evaluatePromotionConditions JSON_parse safe_Number (rp_conditions p)
          {| cc_subtotal := total_basis current; cc_netSubtotal := Some (tt_net current);
             cc_grossSubtotal := Some (tt_gross current);
             cc_activeVerifications := si_activeVerifications input; cc_items := si_items input |} with
  | None => Ok (st, true)
  | Some reason => Ok (refuse st (rp_id p) (Condition_failed reason), false)
  end.

(** [kind === 'percentage' ? rounded(-basis * value / 100) : -Math.min(budget, cap)]. *)
Definition requested_amount (p : ResolvedPromotion) (basis budget_cap : Z) (budget : Q) : result StackError Z :=
  match rp_kind p with
  | percentage => rounded (js_div (js_mul (jsn (- basis)) budget) 100)
  | _ => Ok (- Z.min (Qfloor budget) budget_cap)
  end.

Definition item_action (st : StackState) (step : nat * ResolvedPromotion) : result StackError StackState :=
  let '(i, p) := step in
  match st_lines st !! i with
  | None => Ok st
  | Some line =>
      if negb (bool_decide (rp_scope p = line_scope)) || bool_decide (rp_kind p = free_shipping) ||
         (sl_quantity (wl_input line) =? 0) then Ok st else
      let! e := eligible st p in
      if negb (snd e) then Ok (fst e) else
      let! current := facts line in
      let! all := totals (st_lines st) in
      let basis := basis_of (sl_priceIncludesTax (wl_input line)) current in
      let! requested := requested_amount p basis basis (rp_value p) in
      let! r := adjust_line (si_pricesIncludeTax input) (st_lines st) i requested in
      record (si_pricesIncludeTax input) (with_lines (fst e) (fst r)) p (al_amount (snd r)) (tt_gross all) [snd r] requested
  end.
Definition item_stage (st : StackState) : result StackError StackState :=
  fold_result item_action st
    (flat_map (fun i => map (fun p => (i, p)) promotions) (seq 0 (length (st_lines st)))).

Definition order_action (st : StackState) (p : ResolvedPromotion) : result StackError StackState :=
  if negb (bool_decide (rp_scope p = order_scope)) || bool_decide (rp_kind p = free_shipping) then Ok st else
  let! e := eligible st p in
  if negb (snd e) then Ok (fst e) else
  let! current := totals (st_lines st) in
  let basis := total_basis current in
  let budget := if bool_decide (rp_kind p = account_credit) then jsn (available_budget p) else rp_value p in
  let! amount := requested_amount p basis (Z.max 0 basis) budget in
  let active := active_indexes (st_lines st) in
  let! shares :=
    if bool_decide (active = []) then Ok []
    else let! weights := active_weights (st_lines st) in prorateSigned weights amount in
  let! r := adjust_lines (si_pricesIncludeTax input) (st_lines st) (combine active shares) in
  let! total := sum (map al_amount (snd r)) in
  record (si_pricesIncludeTax input) (with_lines (fst e) (fst r)) p total (tt_gross current) (snd r) amount.
Definition order_stage (st : StackState) : result StackError StackState := fold_result order_action st promotions.

(** Loyalty points come off what the promotions left. *)
Definition points_stage (st : StackState) : result StackError (StackState * Z) :=
  let! after := totals (st_lines st) in
  let! requested := integer (or_else (si_pointsDiscount input) 0) "Points discount" 0 MAX_CENTS in
  let points := Z.min requested (total_basis after) in
  if points =? 0 then Ok (st, 0) else
  let! weights := active_weights (st_lines st) in
  let! shares := prorateSigned weights (- points) in
  let! r := adjust_lines (si_pricesIncludeTax input) (st_lines st) (combine (active_indexes (st_lines st)) shares) in
  let! total := sum (map al_amount (snd r)) in
  Ok (with_lines st (fst r), - total).

(** Shipping actions: each accepted promotion waives what is left of it. *)
Record ShippingState := { sh_state : StackState; sh_total : Z; sh_retained : option (list RetainedLine) }.
Definition retained_blocks_promotions : bool :=
  match si_retainedShipping input with
  | Some s => negb (bool_decide (rs_mode s = revalidate_promotions))
  | None => false
  end.
Definition shipping_old_gross (sh : ShippingState) : result StackError Z :=
  match sh_retained sh with
  | Some lines => sum (map rl_gross lines)
  | None =>
      if si_shippingIncludesTax input then Ok (sh_total sh)
      else rounded (js_mul (jsn (sh_total sh)) (tax_factor (si_shippingTaxRateBps input)))
  end.
Definition zero_retained (l : RetainedLine) : RetainedLine :=
  {| rl_sourceId := rl_sourceId l; rl_net := 0; rl_gross := 0 |}.
(** [entry.amountWithTax = sum([entry.amountWithTax, -oldGross])] and the retained adjustment. *)
Definition waive_entry (old oldGross : Z) (retained : bool) (e : AppliedPromotion) : result StackError AppliedPromotion :=
  let! withTax := sum [ap_amountWithTax e; - oldGross] in
  let! adjustment :=
    if retained then
      let '(n, g) := or_else (ap_shippingAdjustment e) (0, 0) in
      let! net := sum [n; - old] in let! gross := sum [g; - oldGross] in Ok (Some (net, gross))
    else Ok (ap_shippingAdjustment e) in
  Ok {| ap_promotionId := ap_promotionId e; ap_kind := ap_kind e; ap_gross_basis := ap_gross_basis e;
        ap_amount := ap_amount e; ap_amountWithTax := withTax; ap_requestedAmount := ap_requestedAmount e;
        ap_shippingAdjustment := adjustment; ap_lineAllocations := ap_lineAllocations e |}.
Definition shipping_action (final_gross : Z) (sh : ShippingState) (p : ResolvedPromotion) :
    result StackError ShippingState :=
  let st := sh_state sh in
  if retained_blocks_promotions ||
     (negb (bool_decide (rp_kind p = free_shipping)) && negb (rp_freeShipping p)) then Ok sh else
  let! e := eligible st p in
  if negb (snd e) then Ok {| sh_state := fst e; sh_total := sh_total sh; sh_retained := sh_retained sh |} else
  let old := sh_total sh in
  let! oldGross := shipping_old_gross sh in
  let retained := map zero_retained <$> sh_retained sh in
  let! st1 := record (si_pricesIncludeTax input) (fst e) p (- old) final_gross [] (- old) in
  let! applied := upsert (applied_for (rp_id p)) (waive_entry old oldGross (bool_decide (is_Some retained)))
                    (throw "no such entry") (st_applied st1) in
  Ok {| sh_state := with_applied st1 applied; sh_total := 0; sh_retained := retained |}.
Definition shipping_stage (st : StackState) (final_gross : Z) : result StackError ShippingState :=
  fold_result (shipping_action final_gross)
    {| sh_state := st; sh_total := si_shipping input; sh_retained := rs_lines <$> si_retainedShipping input |} promotions.
Definition shipping_net (sh : ShippingState) : result StackError Z :=
  match sh_retained sh with
  | Some lines => sum (map rl_net lines)
  | None =>
      if si_shippingIncludesTax input
      then rounded (js_div (jsn (sh_total sh)) (tax_factor (si_shippingTaxRateBps input)))
      else Ok (sh_total sh)
  end.
Definition shipping_gross (sh : ShippingState) : result StackError Z := shipping_old_gross sh.

(** Order adjustments and their tax. *)
Definition input_adjustments : list StackAdjustment := or_else (si_adjustments input) [].
Definition source_charges : list (Z * SourceCharge) :=
  omap (fun a => (fun s => (aj_amount a, s)) <$> aj_sourceSurcharge a) input_adjustments.
Definition check_charge (row : Z * SourceCharge) : result StackError unit :=
  let '(amount, s) := row in
  if blank (sc_sourceId s) || negb (is_digest (sc_sourceDigest s)) then throw "Invalid source surcharge" else
  let! net := integer (sc_net s) "Source surcharge net" (- MAX_CENTS) MAX_CENTS in
  if negb (net =? amount) then throw "Invalid source surcharge" else
  let! _ := integer (sc_gross s) "Source surcharge gross" (- MAX_CENTS) MAX_CENTS in Ok tt.
Record AdjustmentTotals := { jt_total : Z; jt_source_tax : Z; jt_tax : Z }.
Definition adjustment_totals (lines : list WorkingLine) : result StackError AdjustmentTotals :=
  let! amounts := map_result (fun a => integer (aj_amount a) "Order adjustment" (- MAX_CENTS) MAX_CENTS) input_adjustments in
  let! total := sum amounts in
  let! taxable := sum (map aj_amount (List.filter (fun a => aj_taxable a && bool_decide (aj_sourceSurcharge a = None))
                                        input_adjustments)) in
  let rate := match lines with l :: _ => sl_taxRateBps (wl_input l) | [] => 0 end in
  let! scalar :=
    if si_pricesIncludeTax input
    then let! net := rounded (js_div (jsn taxable) (tax_factor rate)) in Ok (taxable - net)
    else rounded (js_div (js_mul (jsn taxable) (jsn rate)) 10000) in
  let! _ := check_each check_charge source_charges in
  if negb (distinct (map (fun r => sc_sourceId (snd r)) source_charges)) then throw "Duplicate source surcharge" else
  let! source := sum (map (fun r => sc_gross (snd r) - sc_net (snd r)) source_charges) in
  let! tax := sum [scalar; source] in
  Ok {| jt_total := total; jt_source_tax := source; jt_tax := tax |}.

(** What each code did, for the cart. *)
Definition coupon_status (st : StackState) (code : string) : StackCouponStatus :=
  let matching := List.filter (has_code code) promotions in
  match matching with
  | [p] =>
      let discount := match List.find (applied_for (rp_id p)) (st_applied st) with Some e => - ap_amount e | None => 0 end in
      let was_applied := in_set (st_accepted st) (rp_id p) in
      {| cs_code := code; cs_promotionId := Some (rp_id p); cs_kind := Some (rp_kind p); cs_applied := was_applied;
         cs_reason := if was_applied then None else Some (or_else (st_reasons st !! rp_id p) Promotion_not_applicable);
         cs_appliedAmount := Some discount; cs_availableAmount := cb_availableCents <$> rp_credit p;
         cs_remainingAmount := (fun c => Z.max 0 (cb_availableCents c - discount)) <$> rp_credit p |}
  | _ =>
      {| cs_code := code; cs_promotionId := None; cs_kind := None; cs_applied := false;
         cs_reason := Some (if (1 <? length matching)%nat then Ambiguous_coupon_code else Coupon_unavailable);
         cs_appliedAmount := None; cs_availableAmount := None; cs_remainingAmount := None |}
  end.

(** The credit account the cart draws on, with the cents each purchased unit takes. *)
Definition credit_promotion : option ResolvedPromotion :=
  head (omap (fun code =>
    List.find (fun p => bool_decide (rp_kind p = account_credit) && has_code code p) promotions) codes).
Definition credit_units (entry : AppliedPromotion) (line : WorkingLine) : result StackError (string * list Z) :=
  let l := wl_input line in
  let units :=
    match List.find (allocation_for (sl_key l)) (ap_lineAllocations entry) with
    | Some part => if al_sourceAdjustmentAmount part =? 0 then repeat 0 (Z.to_nat (placed_max l)) else al_sourceUnits part
    | None => repeat 0 (Z.to_nat (placed_max l))
    end in
  if negb (Z.of_nat (length units) =? placed_max l) || existsb (fun u => negb (is_safe u) || (0 <? u)) units
  then Err CREDIT_ALLOCATION_INVALID
  else Ok (sl_key l, map Z.opp units).
Definition selectedCredit (st : StackState) : result StackError (option SelectedCredit) :=
  match credit_promotion with
  | None => Ok None
  | Some p =>
      match List.find (applied_for (rp_id p)) (st_applied st), rp_credit p with
      | Some entry, Some credit =>
          let! debits := sum (map (if si_pricesIncludeTax input then al_sourceDiscountAmountWithTax
                                   else al_sourceDiscountAmount) (ap_lineAllocations entry)) in
          let sourceDebit := - debits in
          if (sourceDebit <? 1) || (cb_availableCents credit <? sourceDebit) then Err CREDIT_AMOUNT_CHANGED else
          let! rows := map_result (credit_units entry) (st_lines st) in
          let! total := sum (concat (map snd rows)) in
          if negb (total =? sourceDebit) then Err CREDIT_ALLOCATION_INVALID else
          Ok (Some {| sd_accountId := cb_accountId credit; sd_promotionId := rp_id p;
                      sd_appliedAmount := sourceDebit; sd_allocation := list_to_map rows |})
      | _, _ => Ok None
      end
  end.

(** The result's lines. *)
Definition line_totals (line : WorkingLine) : result StackError StackLineTotals :=
  let l := wl_input line in
  let! current := facts line in
  let original := sl_unitListPrice l * sl_quantity l in
  let now := basis_of (sl_priceIncludesTax l) current in
  Ok {| lt_unitPrice := sl_unitListPrice l; lt_quantity := sl_quantity l; lt_lineSubtotal := original;
        lt_lineDiscount := original - now; lt_lineTotal := now |}.
Definition line_snapshot (line : WorkingLine) : result StackError LineSnapshot :=
  let l := wl_input line in
  let! current := facts line in
  let! total := sum (wl_adjustments line) in
  Ok {| ls_lineKey := sl_key l; ls_quantity := sl_quantity l; ls_proratedUnitPriceWithTax := lf_unitGross current;
        ls_lineNet := lf_lineNet current; ls_lineGross := lf_lineGross current;
        ls_sourceAdjustmentTotal := total; ls_sourceAdjustmentDivisor := placed_max l |}.
Definition grand_total (final shippingGross : Z) (a : AdjustmentTotals) : result StackError Z :=
  if bool_decide (is_Some (si_retainedShipping input)) || negb (bool_decide (source_charges = []))
  then sum [final; shippingGross; jt_total a; if si_pricesIncludeTax input then jt_source_tax a else jt_tax a]
  else let! t := sum [final; shippingGross; jt_total a; if si_pricesIncludeTax input then 0 else jt_tax a] in
       Ok (Z.max 0 t).

Definition finish (before final : StackTotals) (points : Z) (sh : ShippingState) : result StackError PromotionStackTotals :=
  let st := sh_state sh in
  let! net := shipping_net sh in
  let! gross := shipping_gross sh in
  let! adj := adjustment_totals (st_lines st) in
  let! credit := selectedCredit st in
  let subtotal := total_basis before in
  let! lines := map_result line_totals (st_lines st) in
  let! tax := sum [tt_gross final - tt_net final; gross - net; jt_tax adj] in
  let! grand := grand_total (tt_gross final) gross adj in
  let! snapshots := map_result line_snapshot (st_lines st) in
  Ok {| pt_lines := lines; pt_subtotal := subtotal; pt_discountTotal := subtotal - total_basis final;
        pt_shippingTotal := sh_total sh; pt_taxTotal := tax; pt_grandTotal := grand; pt_pointsDiscount := points;
        pt_adjustmentTotal := (fun _ => jt_total adj) <$> si_adjustments input;
        pt_coupons := map (coupon_status st) codes; pt_applied := st_applied st; pt_lineSnapshots := snapshots;
        pt_selectedCredit := credit; pt_retainedShippingFinal := sh_retained sh; pt_resolvedPromotions := promotions |}.

Definition run_stages (lines : list WorkingLine) : result StackError PromotionStackTotals :=
  let! before := totals (map (fun l => {| wl_input := wl_input l; wl_adjustments := [] |}) lines) in
  let! identities := fold_result check_promotion [] promotions in
  let! _ := check_each (check_prior identities) (flat_map sl_priorAdjustments (si_lines input)) in
  let! st1 := item_stage {| st_lines := lines; st_applied := []; st_accepted := []; st_reasons := ∅ |} in
  let! st2 := order_stage st1 in
  let! st3 := points_stage st2 in
  let! final := totals (st_lines (fst st3)) in
  let! sh := shipping_stage (fst st3) (tt_gross final) in
  finish before final (snd st3) sh.
End Stages.

Definition stack_codes (codes : list string) : result StackError (list string) :=
  match canonicalCouponCodes codes with Ok c => Ok c | Err _ => throw "Invalid coupon code" end.

Definition calculatePromotionStack (JSON_parse : string -> option json) (safe_Number : string -> option Z)
    (input : StackInput) : result StackError PromotionStackTotals :=
  let! _ := check_context input in
  let! codes := stack_codes (si_couponCodes input) in
  let! lines := prepare_lines (si_lines input) in
  run_stages JSON_parse safe_Number input codes (sort_stable promotion_after (si_promotions input)) lines.

(** * Proration *)

(** ** Shares of a signed amount are within a fraction of a cent of exact *)

Section SignedShares.
Context (amount total n : Z).

(** The exact fraction a weight stands for. *)
Definition exact_weight (w : Z) : Q :=
  if total =? 0 then (1 / inject_Z n)%Q else (inject_Z w / inject_Z total)%Q.

Lemma exact_weight_nonneg w : 0 <= total -> 0 < n -> 0 <= w -> (0 <= exact_weight w)%Q.
Proof.
  intros Ht Hn Hw. unfold exact_weight. destruct (total =? 0) eqn:E; bool_props.
  - apply Qle_shift_div_l; [rewrite <- (Zlt_Qlt 0); lia|]. rewrite Qmult_0_l. discriminate.
  - apply Qle_shift_div_l; [rewrite <- (Zlt_Qlt 0); lia|]. rewrite Qmult_0_l. rewrite <- (Zle_Qle 0). lia.
Qed.

Lemma product_err p : (0 <= p)%Q ->
  (Qabs (fl (inject_Z amount * fl p) - inject_Z amount * p) <= inject_Z (Z.abs amount) * p * (1 # 2 ^ 51))%Q.
Proof.
  intros Hp. pose proof (rounding_err (r := fl) p) as E1. pose proof (rounding_nonneg (r := fl) p Hp) as Ha.
  pose proof (rounding_err (r := fl) (inject_Z amount * fl p)) as E2.
  set (a := fl p) in *. set (t := inject_Z amount) in *.
  rewrite (Qabs_pos p Hp) in E1. rewrite Qabs_Qmult, (Qabs_pos a Ha) in E2.
  assert (At : (Qabs t == inject_Z (Z.abs amount))%Q) by (unfold t; destruct amount; reflexivity).
  set (T := inject_Z (Z.abs amount)) in *. rewrite At in E2.
  assert (HT : (0 <= T)%Q) by (rewrite <- At; apply Qabs_nonneg).
  assert (S : (fl (t * a) - t * p == (fl (t * a) - t * a) + t * (a - p))%Q) by ring.
  rewrite S. eapply Qle_trans; [apply Qabs_triangle|]. rewrite Qabs_Qmult, At.
  assert (B1 : (T * Qabs (a - p) <= T * (p * (1 # 2 ^ 53)))%Q)
    by (rewrite (Qmult_comm T), (Qmult_comm T (p * _)); apply Qmult_le_compat_r; lra).
  assert (Hap : (a <= p * (1 + (1 # 2 ^ 53)))%Q) by (apply Qabs_Qle_condition in E1; lra).
  assert (B2 : (T * a <= T * (p * (1 + (1 # 2 ^ 53))))%Q)
    by (rewrite (Qmult_comm T), (Qmult_comm T (p * _)); apply Qmult_le_compat_r; lra).
  assert (HTp : (0 <= T * p)%Q) by (apply Qmult_le_0_compat; lra).
  assert (R1 : (T * (p * (1 # 2 ^ 53)) == T * p * (1 # 2 ^ 53))%Q) by ring.
  assert (R2 : (T * (p * (1 + (1 # 2 ^ 53))) == T * p * (1 + (1 # 2 ^ 53)))%Q) by ring.
  rewrite R1 in B1. rewrite R2 in B2. set (y := (T * p)%Q) in *. set (z := (T * a)%Q) in *.
  change (2 ^ 53)%positive with 9007199254740992%positive in *.
  change (2 ^ 51)%positive with 2251799813685248%positive. lra.
Qed.

Lemma signed_share_err w : 0 <= total -> 0 < n -> 0 <= w ->
  (Qabs (signed_share amount total n w - inject_Z amount * exact_weight w)
     <= inject_Z (Z.abs amount) * exact_weight w * (1 # 2 ^ 51))%Q.
Proof.
  intros Ht Hn Hw. pose proof (exact_weight_nonneg w Ht Hn Hw) as He.
  unfold signed_share, exact_weight in *. destruct (total =? 0) eqn:E; [|by apply product_err].
  unfold js_div, jsn in *. set (p := (1 / inject_Z n)%Q) in *.
  assert (A : (inject_Z amount / inject_Z n == inject_Z amount * p)%Q).
  { unfold p. field. intros C. assert (0 < inject_Z n)%Q by (rewrite <- (Zlt_Qlt 0); lia). lra. }
  rewrite (rounding_proper (r := fl) _ _ A). pose proof (rounding_err (r := fl) (inject_Z amount * p)) as Er.
  rewrite Qabs_Qmult in Er. rewrite (Qabs_pos p He) in Er.
  assert (At : (Qabs (inject_Z amount) == inject_Z (Z.abs amount))%Q) by (destruct amount; reflexivity).
  rewrite At in Er.
  assert (0 <= inject_Z (Z.abs amount) * p)%Q.
  { apply Qmult_le_0_compat; [|done]. rewrite <- At. apply Qabs_nonneg. }
  set (y := (inject_Z (Z.abs amount) * p)%Q) in *.
  change (2 ^ 53)%positive with 9007199254740992%positive in *.
  change (2 ^ 51)%positive with 2251799813685248%positive. lra.
Qed.
End SignedShares.

Lemma sumQ_map_scale {A} c (f : A -> Q) l : (sumQ (map (fun w => c * f w) l) == c * sumQ (map f l))%Q.
Proof. induction l as [|x xs IH]; cbn; [ring|]. rewrite IH. ring. Qed.

Lemma exact_weights_sum ws : Forall (fun w => 0 <= w) ws -> ws <> [] ->
  (sumQ (map (exact_weight (sumZ ws) (Z.of_nat (length ws))) ws) == 1)%Q.
Proof.
  intros Hw Hne. assert (Hn : 0 < Z.of_nat (length ws)) by (destruct ws; [done|cbn; lia]).
  pose proof (sumZ_nonneg _ Hw) as Hs. set (n := Z.of_nat (length ws)) in *.
  unfold exact_weight. destruct (sumZ ws =? 0) eqn:E; bool_props.
  - assert (X : forall l : list Z, (sumQ (map (fun _ => 1 / inject_Z n) l) == inject_Z (Z.of_nat (length l)) / inject_Z n)%Q).
    { assert (0 < inject_Z n)%Q by (rewrite <- (Zlt_Qlt 0); lia).
      induction l as [|x xs IH]; cbn [map sumQ length]; [vm_compute; reflexivity|].
      rewrite IH, Nat2Z.inj_succ. unfold Z.succ. rewrite inject_Z_plus. change (inject_Z 1) with 1%Q. field. lra. }
    rewrite X. fold n. field. intros C. assert (0 < inject_Z n)%Q by (rewrite <- (Zlt_Qlt 0); lia). lra.
  - assert (Hp : (0 < inject_Z (sumZ ws))%Q) by (rewrite <- (Zlt_Qlt 0); lia).
    assert (X : (sumQ (map (fun w => inject_Z w * / inject_Z (sumZ ws)) ws) == sumQ (map inject_Z ws) * / inject_Z (sumZ ws))%Q)
      by (rewrite <- (sumQ_scale _ (map inject_Z ws)), map_map; reflexivity).
    unfold Qdiv. rewrite X, sumQ_map_inject. field. lra.
Qed.

Lemma signed_shares_sum amount ws : Z.abs amount < 2 ^ 50 -> Forall (fun w => 0 <= w) ws -> ws <> [] ->
  (Qabs (sumQ (map (signed_share amount (sumZ ws) (Z.of_nat (length ws))) ws) - inject_Z amount)
     <= inject_Z (Z.abs amount) * (1 # 2 ^ 51))%Q.
Proof.
  intros Ha Hw Hne. pose proof (exact_weights_sum ws Hw Hne) as H1.
  assert (Hn : 0 < Z.of_nat (length ws)) by (destruct ws; [done|cbn; lia]).
  pose proof (sumZ_nonneg _ Hw) as Hs.
  set (total := sumZ ws) in *. set (n := Z.of_nat (length ws)) in *.
  pose proof (sumQ_abs_diff (signed_share amount total n) (fun w => inject_Z amount * exact_weight total n w)%Q
    (fun w => inject_Z (Z.abs amount) * exact_weight total n w * (1 # 2 ^ 51))%Q ws) as D.
  assert (X : forall c : Q, (sumQ (map (fun w => c * exact_weight total n w) ws) == c)%Q).
  { intros c. rewrite sumQ_map_scale, H1. ring. }
  rewrite X in D.
  assert (Y : (sumQ (map (fun w => inject_Z (Z.abs amount) * exact_weight total n w * (1 # 2 ^ 51)) ws)
    == inject_Z (Z.abs amount) * (1 # 2 ^ 51))%Q).
  { rewrite <- (X (inject_Z (Z.abs amount))), <- sumQ_scale, map_map. reflexivity. }
  rewrite Y in D. apply D. intros w Hin. rewrite Forall_forall in Hw. apply signed_share_err; auto.
Qed.

(** ** What a successful [prorateSigned] returned *)

(** [inv_ok] through [throw]. *)
Ltac inv_stack := unfold throw in *; inv_ok.

Lemma integer_spec value label min max v :
  integer value label min max = Ok v <-> v = value /\ is_safe value = true /\ min <= value <= max.
Proof.
  unfold integer, throw. split.
  - intros H. inv_ok. bool_props. repeat split; [done|lia|lia].
  - intros (-> & -> & H). rewrite (proj2 (Z.ltb_ge _ _)), (proj2 (Z.ltb_ge _ _)) by lia. done.
Qed.

Lemma sum_spec l v : sum l = Ok v -> v = sumZ l /\ - MAX_CENTS <= v <= MAX_CENTS.
Proof. intros H. apply integer_spec in H as (-> & _ & H). done. Qed.

Lemma in_range_safe v : - MAX_CENTS <= v <= MAX_CENTS -> is_safe v = true.
Proof. unfold is_safe, MAX_SAFE, MAX_CENTS. intros. apply andb_true_iff. split; apply Z.leb_le; lia. Qed.

Lemma sum_ok l : - MAX_CENTS <= sumZ l <= MAX_CENTS -> sum l = Ok (sumZ l).
Proof. intros H. apply integer_spec. split; [done|]. split; [by apply in_range_safe|done]. Qed.

Lemma integers_spec l label min max l' :
  map_result (fun w => integer w label min max) l = Ok l' -> Forall (fun w => min <= w <= max) l.
Proof.
  intros H. apply map_result_Forall2 in H. induction H as [|x y xs ys Hxy _ IH]; constructor; [|done].
  by apply integer_spec in Hxy as (_ & _ & Hxy).
Qed.

Lemma integers_ok l label : Forall (fun w => 0 <= w <= MAX_CENTS) l ->
  map_result (fun w => integer w label 0 MAX_CENTS) l = Ok l.
Proof.
  intros H. apply map_result_Forall2. induction H as [|x xs Hx _ IH]; constructor; [|done].
  apply integer_spec. split; [done|]. split; [apply in_range_safe; unfold MAX_CENTS in *; lia|done].
Qed.

Definition raw_shares (ws : list Z) (amount : Z) : list Q :=
  map (signed_share amount (sumZ ws) (Z.of_nat (length ws))) ws.
Definition prorated (ws : list Z) (amount : Z) : list Z :=
  assign_leftover (by_fraction (map fraction (raw_shares ws amount)))
    (amount - sumZ (map js_floor (raw_shares ws amount))) (map js_floor (raw_shares ws amount)).

Lemma prorateSigned_inv ws amount shares : prorateSigned ws amount = Ok shares -> ws <> [] ->
  shares = prorated ws amount /\ sumZ shares = amount /\ Forall (fun w => 0 <= w <= MAX_CENTS) ws /\
  - MAX_CENTS <= amount <= MAX_CENTS /\
  0 <= amount - sumZ (map js_floor (raw_shares ws amount)) <= Z.of_nat (length ws).
Proof.
  intros H Hne. unfold prorateSigned in H. inv_ok. apply integer_spec in Em as (-> & _ & Ha).
  destruct ws as [|w ws]; [done|]. cbv beta iota zeta in H. set (l := w :: ws) in *. clearbody l. inv_stack.
  apply orb_false_iff in Eb as [E1 E2]. bool_props.
  repeat match goal with Hs : sum _ = Ok _ |- _ => apply sum_spec in Hs as [? ?] end. subst.
  split; [reflexivity|]. fold (raw_shares l amount) in *. split; [assumption|].
  split; [eapply integers_spec; eauto|]. split; [assumption|]. lia.
Qed.

Lemma prorated_length ws amount : length (prorated ws amount) = length ws.
Proof. unfold prorated, raw_shares. by rewrite assign_leftover_length, !length_map. Qed.

Lemma prorateSigned_conserves ws amount shares : prorateSigned ws amount = Ok shares ->
  length shares = length ws /\ sumZ shares = amount.
Proof.
  intros H. destruct (decide (ws = [])) as [->|Hne].
  - unfold prorateSigned in H. inv_stack. bool_props. apply integer_spec in Em as (-> & _ & _). by subst.
  - apply prorateSigned_inv in H as (-> & Hs & _); [|done]. split; [apply prorated_length|done].
Qed.

Lemma signed_share_sign amount total n w : 0 <= total -> 0 < n -> 0 <= w ->
  (amount <= 0 -> (signed_share amount total n w <= 0)%Q) /\
  (0 <= amount -> (0 <= signed_share amount total n w)%Q).
Proof.
  intros Ht Hn Hw. pose proof (signed_share_err amount total n w Ht Hn Hw) as E.
  pose proof (exact_weight_nonneg total n w Ht Hn Hw) as He.
  set (e := exact_weight total n w) in *. set (x := signed_share amount total n w) in *.
  change (2 ^ 51)%positive with 2251799813685248%positive in E. split; intros Ha.
  - rewrite Z.abs_neq in E by lia. rewrite inject_Z_opp in E. apply Qabs_Qle_condition in E.
    assert (0 <= (- inject_Z amount) * e)%Q.
    { apply Qmult_le_0_compat; [|done]. rewrite <- inject_Z_opp, <- (Zle_Qle 0). lia. }
    set (y := ((- inject_Z amount) * e)%Q) in *.
    assert (S : (inject_Z amount * e == - y)%Q) by (unfold y; ring). rewrite S in E. lra.
  - rewrite Z.abs_eq in E by lia. apply Qabs_Qle_condition in E.
    assert (0 <= inject_Z amount * e)%Q.
    { apply Qmult_le_0_compat; [|done]. rewrite <- (Zle_Qle 0). lia. }
    set (y := (inject_Z amount * e)%Q) in *. lra.
Qed.

(** A line whose exact share is not below zero but whose rounded-down share is
    zero never gets a leftover cent of a negative amount. *)
Lemma zero_share_not_bumped ws amount i x :
  ws <> [] -> Forall (fun w => 0 <= w <= MAX_CENTS) ws -> Z.abs amount <= MAX_CENTS ->
  Z.of_nat (length ws) <= 2 ^ 31 ->
  0 <= amount - sumZ (map js_floor (raw_shares ws amount)) <= Z.of_nat (length ws) ->
  raw_shares ws amount !! i = Some x -> (x == 0)%Q ->
  i ∈ take (Z.to_nat (amount - sumZ (map js_floor (raw_shares ws amount)))) (by_fraction (map fraction (raw_shares ws amount))) ->
  False.
Proof.
  intros Hne Hw Ha Hlen Hm Hi Hx Hin.
  assert (Hfx : (fraction x <= 0)%Q).
  { destruct (frac_part_bounds x) as (_ & _ & _ & B). change (frac_part x) with (fraction x) in B.
    assert (F : Qfloor x = 0) by (apply Qfloor_unique; rewrite Hx; vm_compute; discriminate + reflexivity).
    rewrite F in B. change (inject_Z 0) with 0%Q in B.
    change (2 ^ 53)%positive with 9007199254740992%positive in B. lra. }
  set (raw := raw_shares ws amount) in *. set (rem := amount - sumZ (map js_floor raw)) in *.
  assert (Hlook : map fraction raw !! i = Some (fraction x)) by (by rewrite list_lookup_fmap, Hi).
  assert (M0 : (0 <= 1 + (1 # 2 ^ 53))%Q) by (vm_compute; discriminate).
  pose proof (bumped_fraction (map fraction raw) i (fraction x) (1 + (1 # 2 ^ 53)) 0 rem
    Hlook Hin Hfx ltac:(discriminate) M0 (Forall_frac_part raw)) as Hup.
  pose proof (frac_sum_lower raw) as Hlow. change (map frac_part raw) with (map fraction raw) in Hlow.
  assert (Hraw : (Qabs (sumQ raw - inject_Z amount) <= inject_Z (Z.abs amount) * (1 # 2 ^ 51))%Q).
  { apply signed_shares_sum; [unfold MAX_CENTS in *; lia| |done]. eapply Forall_impl; [exact Hw|]. cbn. lia. }
  change Qfloor with js_floor in Hlow.
  assert (A1 : (inject_Z (Z.abs amount) <= inject_Z MAX_CENTS)%Q) by (rewrite <- Zle_Qle; lia).
  assert (A2 : (inject_Z (rem - 1) <= inject_Z (2 ^ 31))%Q) by (rewrite <- Zle_Qle; unfold rem; lia).
  assert (A3 : (inject_Z amount - inject_Z (sumZ (map js_floor raw)) == inject_Z (rem - 1) + 1)%Q).
  { unfold rem, Z.sub. rewrite !inject_Z_plus, !inject_Z_opp. change (inject_Z 1) with 1%Q. ring. }
  apply Qabs_Qle_condition in Hraw as [Hraw _].
  set (F := inject_Z (sumZ (map js_floor raw))) in *. set (r := inject_Z (rem - 1)) in *.
  set (s := sumQ (map fraction raw)) in *. set (R := sumQ raw) in *. set (T := inject_Z amount) in *.
  set (U := inject_Z (Z.abs amount)) in *.
  unfold MAX_CENTS, inject_Z in A1, A2. change (2 ^ 31) with 2147483648 in A2.
  change (2 ^ 51)%positive with 2251799813685248%positive in *.
  change (2 ^ 52)%positive with 4503599627370496%positive in *.
  change (2 ^ 53)%positive with 9007199254740992%positive in *.
  rewrite Qmult_0_r in Hup. lra.
Qed.

Lemma raw_shares_lookup ws amount i x : raw_shares ws amount !! i = Some x ->
  exists w, ws !! i = Some w /\ x = signed_share amount (sumZ ws) (Z.of_nat (length ws)) w.
Proof. unfold raw_shares. rewrite list_lookup_fmap. destruct (ws !! i); intros [= <-]; eauto. Qed.

Lemma prorateSigned_sign ws amount shares : prorateSigned ws amount = Ok shares -> Z.of_nat (length ws) <= 2 ^ 31 ->
  (amount <= 0 -> Forall (fun s => s <= 0) shares) /\ (0 <= amount -> Forall (fun s => 0 <= s) shares).
Proof.
  intros H Hlen. destruct (decide (ws = [])) as [->|Hne].
  { apply prorateSigned_conserves in H as [Hl _]. destruct shares; [|discriminate]. split; constructor. }
  apply prorateSigned_inv in H as (-> & _ & Hw & Ha & Hm); [|done].
  assert (Hn : 0 < Z.of_nat (length ws)) by (destruct ws; [done|cbn; lia]).
  assert (Hs : 0 <= sumZ ws) by (apply sumZ_nonneg; eapply Forall_impl; [exact Hw|cbn; lia]).
  assert (Hget : forall i s, prorated ws amount !! i = Some s -> exists w x, 0 <= w /\
     raw_shares ws amount !! i = Some x /\ x = signed_share amount (sumZ ws) (Z.of_nat (length ws)) w /\
     (s = Qfloor x \/ (s = Qfloor x + 1 /\ i ∈ take (Z.to_nat (amount - sumZ (map js_floor (raw_shares ws amount))))
        (by_fraction (map fraction (raw_shares ws amount)))))).
  { intros i s Hi. assert (Hlt := lookup_lt_Some _ _ _ Hi). rewrite prorated_length in Hlt.
    destruct (lookup_lt_is_Some_2 (raw_shares ws amount) i) as [x Hx]; [unfold raw_shares; by rewrite length_map|].
    destruct (raw_shares_lookup _ _ _ _ Hx) as (w & Hwi & Ex). exists w, x.
    split; [rewrite Forall_forall in Hw; apply (Hw w), list_elem_of_lookup_2 with i, Hwi|].
    split; [done|]. split; [done|]. unfold prorated in Hi.
    rewrite (assign_leftover_lookup _ _ _ i (Qfloor x)) in Hi;
      [|apply by_fraction_NoDup|by rewrite list_lookup_fmap, Hx].
    destruct (bool_decide _) eqn:Ed in Hi; [apply bool_decide_eq_true in Ed|]; injection Hi as <-; auto. }
  split; intros Hamt; apply Forall_forall; intros s Hin; apply list_elem_of_lookup in Hin as [i Hi];
    destruct (Hget i s Hi) as (w & x & Hw0 & Hx & Ex & Hcase);
    destruct (signed_share_sign amount (sumZ ws) _ w Hs Hn Hw0) as [Hneg Hpos]; rewrite <- Ex in Hneg, Hpos.
  - specialize (Hneg Hamt). pose proof (Qfloor_le x) as Fx.
    assert (Hf : Qfloor x <= 0) by (change 0 with (Qfloor 0); by apply Qfloor_resp_le).
    destruct Hcase as [->|[-> Hin]]; [done|]. destruct (Z.eq_dec (Qfloor x) 0) as [E0|]; [|lia]. exfalso.
    rewrite E0 in Fx. change (inject_Z 0) with 0%Q in Fx.
    eapply (zero_share_not_bumped ws amount i x); eauto; [lia|lra].
  - specialize (Hpos Hamt). assert (0 <= Qfloor x) by (change 0 with (Qfloor 0); by apply Qfloor_resp_le).
    destruct Hcase as [->|[-> _]]; lia.
Qed.

Lemma prorated_sum ws amount : ws <> [] -> Z.abs amount <= MAX_CENTS -> Forall (fun w => 0 <= w) ws ->
  sumZ (prorated ws amount) = amount /\
  0 <= amount - sumZ (map js_floor (raw_shares ws amount)) <= Z.of_nat (length ws).
Proof.
  intros Hne Ha Hw.
  assert (Hc : (Qabs (sumQ (raw_shares ws amount) - inject_Z amount) < 1)%Q).
  { eapply Qle_lt_trans; [apply signed_shares_sum; [unfold MAX_CENTS in *; lia|done|done]|].
    assert (A1 : (inject_Z (Z.abs amount) <= inject_Z MAX_CENTS)%Q) by (rewrite <- Zle_Qle; lia).
    unfold MAX_CENTS, inject_Z in *. change (2 ^ 51)%positive with 2251799813685248%positive. lra. }
  assert (Hr : raw_shares ws amount <> []) by (destruct ws; [done|discriminate]). split.
  - apply apportion_sum; [done|by rewrite length_map|done].
  - pose proof (leftover_bounds _ _ Hr Hc) as B. by rewrite (length_map _ ws : length (raw_shares ws amount) = _) in B.
Qed.

(** [prorateSigned] always succeeds on valid weights, conserves the signed
    amount to the cent, gives one share per weight, and never gives a share of
    the opposite sign: a discount is never turned into a surcharge on some line,
    although its shares are rounded from binary64 quotients. *)
Theorem prorate_signed_sound ws amount :
  ws <> [] -> Forall (fun w => 0 <= w) ws -> sumZ ws <= MAX_CENTS ->
  Z.abs amount + Z.of_nat (length ws) <= MAX_CENTS ->
  exists shares, prorateSigned ws amount = Ok shares /\ length shares = length ws /\ sumZ shares = amount /\
    (amount <= 0 -> Forall (fun s => s <= 0) shares) /\ (0 <= amount -> Forall (fun s => 0 <= s) shares).
Proof.
  intros Hne Hw Hs Ha. destruct (prorated_sum ws amount Hne ltac:(lia) Hw) as [Hsum Hm].
  assert (Hok : prorateSigned ws amount = Ok (prorated ws amount)).
  { unfold prorateSigned.
    rewrite (proj2 (integer_spec amount _ _ _ amount)) by (split; [done|]; split; [apply in_range_safe; lia|lia]).
    destruct ws as [|w ws']; [done|]. cbn [bind_result]. set (l := w :: ws') in *. clearbody l.
    rewrite integers_ok by (apply Forall_forall; intros x Hx; pose proof (sumZ_elem_le l x Hw Hx);
      rewrite Forall_forall in Hw; specialize (Hw x Hx); cbn in *; lia).
    rewrite sum_ok by (pose proof (sumZ_nonneg l Hw); unfold MAX_CENTS in *; lia). cbn [bind_result].
    fold (raw_shares l amount). rewrite sum_ok by lia. cbn [bind_result]. fold (prorated l amount).
    rewrite sum_ok by (rewrite Hsum; lia). cbn [bind_result]. rewrite Hsum.
    rewrite Z.max_r, Z.min_r by lia. rewrite Z.sub_diag, !Z.eqb_refl. done. }
  exists (prorated ws amount). split; [done|]. split; [apply prorated_length|]. split; [done|].
  apply (prorateSigned_sign _ _ _ Hok). unfold MAX_CENTS in *. lia.
Qed.

Lemma prorate_signed_sound_witness :
  (exists shares, prorateSigned [1999; 0; 2500; 1] (-1000) = Ok shares /\ length shares = 4%nat /\ sumZ shares = -1000 /\
     (-1000 <= 0 -> Forall (fun s => s <= 0) shares) /\ (0 <= -1000 -> Forall (fun s => 0 <= s) shares)) /\
  prorateSigned [1999; 0; 2500; 1] (-1000) = Ok [-444; 0; -556; 0] /\
  prorateSigned [0; 0; 0] (-100) = Ok [-33; -33; -34].
Proof.
  split; [|split; vm_compute; reflexivity].
  apply (prorate_signed_sound [1999; 0; 2500; 1] (-1000)); [discriminate|repeat constructor; lia|vm_compute; discriminate..].
Defined.

(** * Accounting: what the promotions record is what the customer saves *)

Definition line_basis (incl : bool) (line : WorkingLine) : Z :=
  match facts line with Ok f => basis_of incl f | Err _ => 0 end.
Definition basis_sum (incl : bool) (lines : list WorkingLine) : Z := sumZ (map (line_basis incl) lines).
#[global] Arguments basis_sum : simpl never.
Definition amounts (applied : list AppliedPromotion) : Z := sumZ (map ap_amount applied).
#[global] Arguments amounts : simpl never.
Definition unadjusted (l : WorkingLine) : WorkingLine := {| wl_input := wl_input l; wl_adjustments := [] |}.
(** What earlier, still standing adjustments took off before this run. *)
Definition prior_discount (incl : bool) (lines : list WorkingLine) : Z :=
  basis_sum incl (map unadjusted lines) - basis_sum incl lines.

Lemma facts_basis incl line f : facts line = Ok f -> line_basis incl line = basis_of incl f.
Proof. unfold line_basis. by intros ->. Qed.

Lemma totals_basis (incl : bool) lines t : totals lines = Ok t ->
  (if incl then tt_gross t else tt_net t) = basis_sum incl lines.
Proof.
  intros H. unfold totals in H. inv_stack. apply sum_spec in Em0 as [-> _]. apply sum_spec in Em1 as [-> _].
  apply map_result_Forall2 in Em. unfold basis_sum. cbn [tt_gross tt_net].
  destruct incl; f_equal; induction Em as [|l f ls fs Hf _ IH]; cbn; [done| |done|];
    rewrite (facts_basis _ _ _ Hf), IH; done.
Qed.

Lemma sumZ_insert {A} (f : A -> Z) l i x y : l !! i = Some x ->
  sumZ (map f (<[i := y]> l)) = sumZ (map f l) + f y - f x.
Proof.
  revert i. induction l as [|z zs IH]; intros [|i] H; try discriminate; cbn in *.
  - injection H as ->. lia.
  - rewrite IH by done. lia.
Qed.

Lemma addAdjustment_spec incl line requested line' a : addAdjustment incl line requested = Ok (line', a) ->
  line_basis incl line' = line_basis incl line + al_amount a /\ wl_input line' = wl_input line /\
  al_lineKey a = sl_key (wl_input line) /\ prorateSigned (unit_weights (sl_quantity (wl_input line))) requested = Ok (al_sourceUnits a).
Proof.
  unfold addAdjustment. intros H. inv_stack.
  match goal with H1 : facts line = Ok _ |- _ => rewrite (facts_basis _ _ _ H1) end.
  match goal with H2 : facts (if _ then _ else _) = Ok _ |- _ => rewrite (facts_basis _ _ _ H2) end.
  cbn. split; [lia|]. split; [by destruct (negb _)|]. done.
Qed.

Lemma adjust_line_spec incl lines i requested lines' a : adjust_line incl lines i requested = Ok (lines', a) ->
  basis_sum incl lines' = basis_sum incl lines + al_amount a /\ map wl_input lines' = map wl_input lines.
Proof.
  unfold adjust_line. intros H. destruct (lines !! i) as [line|] eqn:E; [|discriminate]. inv_stack.
  destruct a0 as [line' a']. apply addAdjustment_spec in Em as (Hb & Hi & _). cbn [fst snd] in *.
  unfold basis_sum. rewrite (sumZ_insert _ _ _ _ _ E), (map_insert_same _ _ _ _ _ E Hi). split; [lia|done].
Qed.

Lemma adjust_lines_spec incl lines parts lines' allocs : adjust_lines incl lines parts = Ok (lines', allocs) ->
  basis_sum incl lines' = basis_sum incl lines + sumZ (map al_amount allocs) /\ map wl_input lines' = map wl_input lines.
Proof.
  revert lines lines' allocs. induction parts as [|[i s] rest IH]; intros lines lines' allocs H; cbn in H; inv_stack.
  - cbn. split; [lia|done].
  - destruct a as [l1 a1], a0 as [l2 a2]. cbn in *. apply adjust_line_spec in Em as [H1 I1].
    apply IH in Em0 as [H2 I2]. split; [lia|congruence].
Qed.

Lemma upsert_sum {A} (g : A -> Z) (p : A -> bool) f fresh d l l' : upsert p f fresh l = Ok l' ->
  (forall x y, f x = Ok y -> g y = g x + d) -> (forall y, fresh = Ok y -> g y = d) ->
  sumZ (map g l') = sumZ (map g l) + d.
Proof.
  intros H Hf Hfresh. revert l' H. induction l as [|x xs IH]; intros l' H; cbn in H.
  - inv_stack. cbn. rewrite (Hfresh _ eq_refl). lia.
  - destruct (p x); inv_stack; cbn; [rewrite (Hf _ _ Em); lia|]. rewrite (IH _ eq_refl). lia.
Qed.

Lemma charge_amount lines amount requested before allocs e e' : charge lines amount requested before allocs e = Ok e' ->
  ap_amount e' = ap_amount e + amount.
Proof. unfold charge. intros H. inv_stack. apply sum_spec in Em as [-> _]. cbn. lia. Qed.

Lemma record_spec incl st p amount before allocs requested st' :
  record incl st p amount before allocs requested = Ok st' ->
  amounts (st_applied st') = amounts (st_applied st) + amount /\ st_lines st' = st_lines st.
Proof.
  unfold record. intros H. inv_stack. split; [|done]. cbn. unfold amounts.
  eapply (upsert_sum ap_amount); [exact Em| |].
  - intros x y Hc. by apply charge_amount in Hc.
  - intros y Hc. apply charge_amount in Hc. cbn in Hc. lia.
Qed.

Section Accounting.
Context (JSON_parse : string -> option json) (safe_Number : string -> option Z).
Context (input : StackInput) (codes : list string) (promotions : list ResolvedPromotion).

Lemma eligible_frame st p st' b : eligible JSON_parse safe_Number input codes promotions st p = Ok (st', b) ->
  st_lines st' = st_lines st /\ st_applied st' = st_applied st.
Proof.
  unfold eligible. intros H. repeat (case_match; inv_stack; try done).
Qed.

Context (inputs : list StackLine) (start : Z).
(** The recorded amounts are what the merchandise total has moved by. *)
Definition accounted (st : StackState) : Prop :=
  amounts (st_applied st) = basis_sum (si_pricesIncludeTax input) (st_lines st) - start /\
  map wl_input (st_lines st) = inputs.

Lemma recorded_accounted st e lines p amount before allocs requested st' :
  accounted st -> st_lines e = st_lines st -> st_applied e = st_applied st ->
  basis_sum (si_pricesIncludeTax input) lines = basis_sum (si_pricesIncludeTax input) (st_lines st) + amount ->
  map wl_input lines = map wl_input (st_lines st) ->
  record (si_pricesIncludeTax input) (with_lines e lines) p amount before allocs requested = Ok st' -> accounted st'.
Proof.
  intros [Ha Hi] Hl Hp Hb Hm H. apply record_spec in H as [H1 H2]. unfold accounted. rewrite H1, H2. cbn.
  rewrite Hp. split; [lia|congruence].
Qed.

Lemma item_action_accounted st step st' : accounted st ->
  item_action JSON_parse safe_Number input codes promotions st step = Ok st' -> accounted st'.
Proof.
  intros Hst H. destruct step as [i p]. unfold item_action in H. destruct (st_lines st !! i); [|by inv_stack].
  destruct (_ || _); [by inv_stack|]. inv_stack. destruct a as [e b]. apply eligible_frame in Em as [El Ea].
  cbn [fst snd] in *. destruct b; cbn [negb] in H; inv_stack.
  - match goal with H1 : adjust_line _ _ _ _ = Ok ?r |- _ => destruct r; apply adjust_line_spec in H1 as [Hb Hm] end.
    cbn [fst snd] in *. eapply recorded_accounted; eauto.
  - destruct Hst. split; rewrite ?El, ?Ea; done.
Qed.

Lemma order_action_accounted st p st' : accounted st ->
  order_action JSON_parse safe_Number input codes promotions st p = Ok st' -> accounted st'.
Proof.
  intros Hst H. unfold order_action in H. destruct (_ || _); [by inv_stack|]. inv_stack. destruct a as [e b].
  apply eligible_frame in Em as [El Ea]. cbn [fst snd] in *. destruct b; cbn [negb] in H; inv_stack.
  - match goal with H1 : adjust_lines _ _ _ = Ok ?r |- _ => destruct r; apply adjust_lines_spec in H1 as [Hb Hm] end.
    match goal with H1 : sum (map al_amount _) = Ok _ |- _ => apply sum_spec in H1 as [-> _] end.
    cbn [fst snd] in *. eapply recorded_accounted; eauto.
  - destruct Hst. split; rewrite ?El, ?Ea; done.
Qed.

Lemma points_stage_accounted st st' points : accounted st -> points_stage input st = Ok (st', points) ->
  amounts (st_applied st') = basis_sum (si_pricesIncludeTax input) (st_lines st') - start + points /\
  map wl_input (st_lines st') = inputs.
Proof.
  intros [Ha Hi] H. unfold points_stage in H. inv_stack.
  match goal with H : (if ?b then _ else _) = _ |- _ => destruct b; inv_stack end; [split; [lia|done]|].
  match goal with H1 : adjust_lines _ _ _ = Ok ?r |- _ => destruct r; apply adjust_lines_spec in H1 as [Hb Hm] end.
  match goal with H1 : sum (map al_amount _) = Ok _ |- _ => apply sum_spec in H1 as [-> _] end.
  cbn in *. split; [lia|congruence].
Qed.

Lemma waive_entry_amount old g r e e' : waive_entry old g r e = Ok e' -> ap_amount e' = ap_amount e.
Proof. unfold waive_entry. intros H. by inv_stack. Qed.

Lemma waived_amounts P old g r st applied : upsert P (waive_entry old g r) (throw "no such entry") st = Ok applied ->
  amounts applied = amounts st.
Proof.
  intros H. unfold amounts. rewrite <- (Z.add_0_r (sumZ (map ap_amount st))).
  eapply (upsert_sum ap_amount); [exact H| |discriminate].
  intros x y Hw. apply waive_entry_amount in Hw. lia.
Qed.

(** Shipping moves the recorded amounts and the shipping total together. *)
Definition shipped (st0 : StackState) (sh : ShippingState) : Prop :=
  amounts (st_applied (sh_state sh)) = amounts (st_applied st0) + sh_total sh - si_shipping input /\
  st_lines (sh_state sh) = st_lines st0.

Lemma shipping_action_shipped st0 final sh p sh' : shipped st0 sh ->
  shipping_action JSON_parse safe_Number input codes promotions final sh p = Ok sh' -> shipped st0 sh'.
Proof.
  intros [Ha Hl] H. unfold shipping_action in H. destruct (_ || _); [by inv_stack|]. inv_stack.
  destruct a as [e b]. apply eligible_frame in Em as [El Ea]. cbn [fst snd] in *.
  destruct b; cbn [negb] in H; inv_stack.
  - match goal with H1 : record _ _ _ _ _ _ _ = Ok _ |- _ => apply record_spec in H1 as [Hr Hrl] end.
    match goal with H1 : upsert _ _ _ _ = Ok _ |- _ => apply waived_amounts in H1 end.
    split; cbn; [|congruence]. rewrite Ea in Hr. lia.
  - split; cbn; rewrite ?Ea, ?El; done.
Qed.

Lemma shipping_stage_shipped st final sh :
  shipping_stage JSON_parse safe_Number input codes promotions st final = Ok sh -> shipped st sh.
Proof.
  unfold shipping_stage. apply fold_result_inv; [split; cbn; [lia|done]|].
  intros. eapply shipping_action_shipped; eauto.
Qed.
End Accounting.

Lemma prepare_lines_inputs lines ws : prepare_lines lines = Ok ws -> map wl_input ws = lines.
Proof.
  unfold prepare_lines. intros H. inv_stack. destruct a as [keys ws]. cbn.
  assert (X : forall ls acc acc', fold_result prepare_line acc ls = Ok acc' ->
    map wl_input (snd acc') = map wl_input (snd acc) ++ ls).
  { induction ls as [|l ls IH]; intros [k o] acc' H; cbn in H; inv_stack; [by rewrite app_nil_r|].
    apply IH in H. rewrite H. unfold prepare_line in *. inv_stack. cbn. by rewrite map_app, <- app_assoc. }
  by apply X in Em.
Qed.

(** Everything a finished run went through. *)
Lemma run_stages_inv JP SN input codes promos ws r : run_stages JP SN input codes promos ws = Ok r ->
  exists before final st points sh,
    totals (map unadjusted ws) = Ok before /\ totals (st_lines st) = Ok final /\
    amounts (st_applied st) =
      basis_sum (si_pricesIncludeTax input) (st_lines st) - basis_sum (si_pricesIncludeTax input) ws + points /\
    map wl_input (st_lines st) = map wl_input ws /\ shipped input st sh /\
    finish input codes promos before final points sh = Ok r.
Proof.
  unfold run_stages. intros H. inv_stack.
  match goal with H1 : points_stage _ _ = Ok ?q |- _ => destruct q as [st points]; rename H1 into Hp end.
  match goal with H1 : totals (st_lines _) = Ok ?f |- _ => rename H1 into Hf; rename f into final end.
  match goal with H1 : shipping_stage _ _ _ _ _ _ _ = Ok _ |- _ => apply shipping_stage_shipped in H1; rename H1 into Hs end.
  match goal with H1 : totals (map _ ws) = Ok ?b |- _ => rename H1 into Hb; rename b into before end.
  enough (amounts (st_applied st) =
      basis_sum (si_pricesIncludeTax input) (st_lines st) - basis_sum (si_pricesIncludeTax input) ws + points /\
    map wl_input (st_lines st) = map wl_input ws) as [Ha Hi] by eauto 15.
  eapply points_stage_accounted; [|exact Hp].
  match goal with H1 : order_stage _ _ _ _ _ _ = Ok _ |- _ => unfold order_stage in H1; rename H1 into Ho end.
  eapply fold_result_inv; [|intros ? ? ? _ A B; eapply order_action_accounted; [exact A|exact B]|exact Ho].
  match goal with H1 : item_stage _ _ _ _ _ _ = Ok _ |- _ => unfold item_stage in H1; rename H1 into Hi end.
  eapply fold_result_inv; [|intros ? ? ? _ A B; eapply item_action_accounted; [exact A|exact B]|exact Hi].
  split; cbn; [unfold amounts; cbn; lia|done].
Qed.

(** C38: Every cent of discount is accounted for. For any order the profile
    prices, the amounts recorded against the applied promotions add up to the
    whole discount (less what earlier adjustments already took and what loyalty
    points took) plus the shipping that was waived; the discount is the
    difference between the totals without and with adjustments on the channel's
    own basis. *)
Theorem stack_accounting JP SN input ws r :
  prepare_lines (si_lines input) = Ok ws -> calculatePromotionStack JP SN input = Ok r ->
  - sumZ (map ap_amount (pt_applied r)) =
    pt_discountTotal r - prior_discount (si_pricesIncludeTax input) ws - pt_pointsDiscount r
    + (si_shipping input - pt_shippingTotal r) /\
  pt_subtotal r = basis_sum (si_pricesIncludeTax input) (map unadjusted ws).
Proof.
  intros Hws H. unfold calculatePromotionStack in H. rewrite Hws in H. inv_stack.
  apply run_stages_inv in H as (before & final & st & points & sh & Hb & Hf & Ha & Hi & [Hs Hl] & H).
  unfold finish in H. inv_stack. cbn.
  apply (totals_basis (si_pricesIncludeTax input)) in Hb, Hf. unfold total_basis, prior_discount. rewrite Hb, Hf.
  fold (amounts (st_applied (sh_state sh))). split; [lia|done].
Qed.

Definition sample_line (key : string) (quantity price : Z) (prior : list SignedAdjustment) : StackLine :=
  {| sl_key := key; sl_quantity := quantity; sl_placedQuantity := quantity; sl_unitListPrice := price;
     sl_priceIncludesTax := false; sl_taxRateBps := 825; sl_priorAdjustments := prior |}.
Definition sample_promotion (id : string) (code : option string) (kind : StackKind) (scope : StackScope) (value : Q)
    (seq : Z) (free : bool) (credit : option CreditBudget) : ResolvedPromotion :=
  {| rp_id := id; rp_code := code; rp_kind := kind; rp_scope := scope; rp_value := value; rp_priority := 0;
     rp_sequence := seq; rp_freeShipping := free; rp_conditions := None; rp_credit := credit |}.
Definition sample_input : StackInput :=
  {| si_lines := [sample_line "a" 2 1999 [{| sa_amount := -100; sa_units := None; sa_promotionId := None; sa_kind := item_adjustment |}];
                  sample_line "b" 3 500 []];
     si_promotions :=
       [sample_promotion "credit" (Some "SAVE") account_credit order_scope 0 9 false
          (Some {| cb_accountId := "acct"; cb_availableCents := 700 |});
        sample_promotion "ten" None percentage order_scope 10 1 false None;
        sample_promotion "item" None fixed line_scope 150 0 false None;
        sample_promotion "ship" None free_shipping order_scope 0 5 true None];
     si_couponCodes := ["save"]; si_phase := AddingItems; si_currency := "USD"; si_pricesIncludeTax := false;
     si_shipping := 599; si_shippingTaxRateBps := 825; si_shippingIncludesTax := false;
     si_activeVerifications := []; si_items := Some []; si_pointsDiscount := Some 250; si_adjustments := None;
     si_retainedShipping := None |}.
Definition no_number (s : string) : option Z := None.
Definition no_parse (s : string) : option json := None.

Lemma stack_accounting_witness :
  exists ws r, prepare_lines (si_lines sample_input) = Ok ws /\
    calculatePromotionStack no_parse no_number sample_input = Ok r /\
    (- sumZ (map ap_amount (pt_applied r)) =
       pt_discountTotal r - prior_discount (si_pricesIncludeTax sample_input) ws - pt_pointsDiscount r
       + (si_shipping sample_input - pt_shippingTotal r) /\
     pt_subtotal r = basis_sum (si_pricesIncludeTax sample_input) (map unadjusted ws)) /\
    (pt_subtotal r, pt_discountTotal r, pt_grandTotal r) = (5498, 1860, 3939) /\
    map (fun a => (ap_promotionId a, ap_amount a)) (pt_applied r) =
      [("item", -300); ("ten", -510); ("credit", -700); ("ship", -599)].
Proof.
  destruct (prepare_lines (si_lines sample_input)) as [ws|e] eqn:Ew; [|vm_compute in Ew; discriminate].
  destruct (calculatePromotionStack no_parse no_number sample_input) as [r|e] eqn:Er; [|vm_compute in Er; discriminate].
  exists ws, r. split; [done|]. split; [done|].
  split; [exact (stack_accounting no_parse no_number sample_input ws r Ew Er)|].
  vm_compute in Er. injection Er as <-. split; reflexivity.
Defined.

(** * The selected store credit *)

Lemma distinct_NoDup l : distinct l = true -> NoDup l.
Proof.
  induction l as [|x xs IH]; cbn; intros H; bool_props; constructor; [|auto].
  intros Hin. assert (in_set xs x = true); [|congruence].
  apply existsb_exists. exists x. rewrite <- list_elem_of_In. split; [done|apply String.eqb_refl].
Qed.

Lemma prepare_lines_keys lines ws : prepare_lines lines = Ok ws -> NoDup (map sl_key lines).
Proof.
  unfold prepare_lines. intros H. inv_stack. destruct a as [keys out].
  assert (X : forall ls acc acc', fold_result prepare_line acc ls = Ok acc' -> NoDup (fst acc) ->
    fst acc' ≡ₚ map sl_key ls ++ fst acc /\ NoDup (fst acc')).
  { induction ls as [|l ls IH]; intros [k o] acc' H Hn; cbn [fold_result] in H; inv_stack; [done|].
    assert (Ea : fst a = sl_key l :: k /\ sl_key l ∉ k).
    { unfold prepare_line in *. inv_stack. bool_props. split; [done|]. intros Hin.
      assert (in_set k (sl_key l) = true); [|congruence].
      apply existsb_exists. exists (sl_key l). rewrite <- list_elem_of_In. split; [done|apply String.eqb_refl]. }
    destruct Ea as [Ea Hk]. apply IH in H as [Hp Hn']; [|rewrite Ea; by constructor]. split; [|done].
    rewrite Hp, Ea. cbn. by rewrite <- Permutation_middle. }
  apply X in Em as [Hp Hn]; [|constructor]. rewrite app_nil_r in Hp. cbn in *. by rewrite <- Hp.
Qed.

Lemma prepare_lines_bounds lines ws : prepare_lines lines = Ok ws -> Forall (fun l => placed_max l <= MAX_CENTS) lines.
Proof.
  unfold prepare_lines. intros H. inv_stack. revert Em. generalize (@nil string, @nil WorkingLine) as acc.
  induction lines as [|l ls IH]; intros acc H; cbn [fold_result] in H; inv_stack; constructor; [|by eapply IH].
  unfold prepare_line in *. destruct acc. inv_stack.
  repeat match goal with H : integer _ _ _ _ = Ok _ |- _ => apply integer_spec in H as (-> & _ & ?) end.
  unfold placed_max. lia.
Qed.

(** A unit row holds cents between zero and the cap, one per purchased unit. *)
Definition unit_row (row : string * list Z) (line : WorkingLine) : Prop :=
  fst row = sl_key (wl_input line) /\ Z.of_nat (length (snd row)) = placed_max (wl_input line) /\
  Forall (fun c => 0 <= c) (snd row).

Lemma credit_units_row entry line row : credit_units entry line = Ok row -> unit_row row line.
Proof.
  unfold credit_units. intros H. destruct (_ || _) eqn:E in H; [discriminate|]. inv_stack. bool_props.
  split; [done|]. cbn [fst snd]. rewrite length_map. split; [lia|].
  apply Forall_map, Forall_forall. intros u Hu.
  match goal with H : existsb _ _ = false |- _ => rename H into Hex end.
  destruct (0 <? u) eqn:Eu; bool_props; [|lia]. exfalso.
  assert (existsb (fun u => negb (is_safe u) || (0 <? u)) (match
     List.find (allocation_for (sl_key (wl_input line))) (ap_lineAllocations entry) with
     | Some part => if al_sourceAdjustmentAmount part =? 0 then repeat 0 (Z.to_nat (placed_max (wl_input line))) else al_sourceUnits part
     | None => repeat 0 (Z.to_nat (placed_max (wl_input line))) end) = true) as Ht; [|congruence].
  apply existsb_exists. exists u. rewrite <- list_elem_of_In. split; [done|].
  apply orb_true_iff. right. by apply Z.ltb_lt.
Qed.

Lemma add_units_ok units total : Forall (fun c => 0 <= c) units -> 0 <= total -> total + sumZ units <= MAX_CENTS ->
  fold_result add_unit total units = Ok (total + sumZ units).
Proof.
  revert total. induction units as [|c cs IH]; intros total Hf Ht Hm; cbn in *; [by rewrite Z.add_0_r|].
  inversion Hf as [|? ? Hc Hcs]; subst. pose proof (sumZ_nonneg cs Hcs).
  assert (A : add_unit total c = Ok (total + c)).
  { unfold add_unit. rewrite (proj2 (assertCents_ok c false)) by (unfold MAX_CREDIT_CENTS; unfold MAX_CENTS in Hm; lia). cbn [bind_result].
    rewrite (in_range_safe (total + c)) by (unfold MAX_CENTS; unfold MAX_CENTS in Hm; lia).
    unfold MAX_CREDIT_CENTS. unfold MAX_CENTS in Hm. by rewrite (proj2 (Z.ltb_ge 2147483647 (total + c))) by lia. }
  rewrite A. cbn. rewrite IH; [f_equal; lia|done|lia|lia].
Qed.

Lemma add_line_rows (alloc : AccountCreditAllocation) rows lines total :
  Forall2 unit_row rows lines -> Forall (fun l => 0 < placed_max (wl_input l) <= MAX_CENTS) lines ->
  Forall (fun r => alloc !! fst r = Some (snd r)) rows ->
  0 <= total -> total + sumZ (concat (map snd rows)) <= MAX_CENTS ->
  fold_result (add_line alloc) total (map (fun l => (sl_key (wl_input l), placed_max (wl_input l))) lines) =
  Ok (total + sumZ (concat (map snd rows))).
Proof.
  intros H. revert total. induction H as [|row l rows ls (Hk & Hlen & Hnn) Hrest IH]; intros total Hl Ha Ht Hm;
    cbn in *; [by rewrite Z.add_0_r|].
  inversion Hl; inversion Ha; subst. rewrite sumZ_app in Hm |- *.
  assert (Hc : 0 <= sumZ (concat (map snd rows))).
  { apply sumZ_nonneg. clear -Hrest. induction Hrest as [|r l rs ls (_ & _ & H) _ IH]; cbn; [constructor|].
    by apply Forall_app. }
  pose proof (sumZ_nonneg _ Hnn).
  assert (A : add_line alloc total (sl_key (wl_input l), placed_max (wl_input l)) = Ok (total + sumZ (snd row))).
  { unfold add_line. cbn [fst snd]. rewrite <- Hk. match goal with H : alloc !! _ = _ |- _ => rewrite H end.
    rewrite (in_range_safe (placed_max _)), (proj2 (Z.ltb_ge _ 1)), Hlen, Z.eqb_refl by (unfold MAX_CENTS in *; lia).
    cbn. apply add_units_ok; [done|lia|lia]. }
  rewrite A. cbn. rewrite IH; [f_equal; lia|done|done|lia|lia].
Qed.

Lemma unit_rows_keys rows lines : Forall2 unit_row rows lines -> map fst rows = map (fun l => sl_key (wl_input l)) lines.
Proof. induction 1 as [|r l rs ls (Hk & _) _ IH]; cbn; congruence. Qed.

Lemma credit_promotion_spec codes promos p : credit_promotion codes promos = Some p -> p ∈ promos /\ rp_kind p = account_credit.
Proof.
  unfold credit_promotion. induction codes as [|c cs IH]; cbn [omap list_omap]; [discriminate|].
  destruct (List.find _ promos) as [q|] eqn:E; [|exact IH]. cbn. intros [= ->].
  apply find_some in E as [Hin Hb]. apply list_elem_of_In in Hin. bool_props. split; [done|by eapply bool_decide_eq_true_1].
Qed.

Lemma selectedCredit_inv input codes promos st c : selectedCredit input codes promos st = Ok (Some c) ->
  exists p credit rows, p ∈ promos /\ rp_credit p = Some credit /\ rp_id p = sd_promotionId c /\
    cb_accountId credit = sd_accountId c /\ 1 <= sd_appliedAmount c <= cb_availableCents credit /\
    Forall2 unit_row rows (st_lines st) /\ sd_allocation c = list_to_map rows /\
    sumZ (concat (map snd rows)) = sd_appliedAmount c /\ sd_appliedAmount c <= MAX_CENTS.
Proof.
  unfold selectedCredit. intros H. destruct (credit_promotion codes promos) as [p|] eqn:Ep; [|discriminate].
  apply credit_promotion_spec in Ep as [Hin _]. destruct (List.find _ _) as [entry|]; [|discriminate].
  destruct (rp_credit p) as [credit|] eqn:Ec; [|discriminate]. inv_stack. bool_props.
  match goal with H1 : map_result _ _ = Ok ?r |- _ => exists p, credit, r; apply map_result_Forall2 in H1; rename H1 into Hr end.
  match goal with H1 : sum (concat _) = Ok _ |- _ => apply sum_spec in H1 as [Hs Hm] end. cbn.
  repeat split; try done; try lia.
  clear -Hr. induction Hr as [|l r ls rs Hl _ IH]; constructor; [by apply credit_units_row in Hl|done].
Qed.

(** The store credit a priced cart selects can be posted as it stands: its
    per-unit allocation passes the account-credit service's own validation for
    exactly the purchased quantities, its amount is at least one cent and never
    exceeds what the promotion's account has available. *)
Theorem selected_credit_valid JP SN input r c :
  calculatePromotionStack JP SN input = Ok r -> pt_selectedCredit r = Some c ->
  Forall (fun l => 0 < placed_max l) (si_lines input) ->
  validateAllocation (sd_allocation c) (map (fun l => (sl_key l, placed_max l)) (si_lines input)) (sd_appliedAmount c) = Ok tt /\
  exists p credit, p ∈ si_promotions input /\ rp_id p = sd_promotionId c /\ rp_credit p = Some credit /\
    cb_accountId credit = sd_accountId c /\ 1 <= sd_appliedAmount c <= cb_availableCents credit.
Proof.
  intros H Hc Hq. unfold calculatePromotionStack in H. inv_stack.
  match goal with H1 : prepare_lines _ = Ok ?w |- _ => rename w into ws; rename H1 into Hws end.
  pose proof (prepare_lines_inputs _ _ Hws) as Hi0. pose proof (prepare_lines_keys _ _ Hws) as Hk.
  pose proof (prepare_lines_bounds _ _ Hws) as Hb.
  apply run_stages_inv in H as (before & final & st & points & sh & _ & _ & _ & Hi & [_ Hl] & H).
  unfold finish in H. inv_stack. cbn in Hc. subst.
  match goal with H1 : selectedCredit _ _ _ _ = Ok _ |- _ => apply selectedCredit_inv in H1 as (p & credit & rows & Hin & Hcr & Hid & Hac & Hr & Hrows & Hal & Hs & Hm) end.
  rewrite Hl in Hrows. assert (Hin' : map wl_input (st_lines st) = si_lines input) by congruence.
  split.
  - rewrite Hal. rewrite <- Hin', Forall_map in Hq, Hb. rewrite <- Hin', map_map. unfold validateAllocation.
    rewrite (proj2 (assertCents_ok _ false)) by (unfold MAX_CREDIT_CENTS; unfold MAX_CENTS in Hm; lia).
    rewrite <- Hin', map_map in Hk.
    assert (Hnd : NoDup rows.*1) by (change (NoDup (map fst rows)); by rewrite (unit_rows_keys _ _ Hrows)).
    cbn [bind_result].
    assert (Hsz : size (list_to_map rows : AccountCreditAllocation) = length rows) by exact (map_size_list_to_map rows Hnd).
    rewrite Hsz, length_map, (Forall2_length _ _ _ Hrows), Nat.eqb_refl. cbn [negb].
    rewrite (add_line_rows _ rows); [cbn; by rewrite Hs, Z.eqb_refl|done| | |lia|cbn; lia].
    + apply Forall_forall. intros l Hlin. rewrite Forall_forall in Hq, Hb. exact (conj (Hq l Hlin) (Hb l Hlin)).
    + apply Forall_forall. intros [k u] Hrin. by apply elem_of_list_to_map_1.
  - exists p, credit. split; [|done]. by rewrite <- (sort_stable_perm promotion_after).
Qed.

Lemma selected_credit_valid_witness :
  exists r c, calculatePromotionStack no_parse no_number sample_input = Ok r /\ pt_selectedCredit r = Some c /\
    (validateAllocation (sd_allocation c) (map (fun l => (sl_key l, placed_max l)) (si_lines sample_input)) (sd_appliedAmount c) = Ok tt /\
     exists p credit, p ∈ si_promotions sample_input /\ rp_id p = sd_promotionId c /\ rp_credit p = Some credit /\
       cb_accountId credit = sd_accountId c /\ 1 <= sd_appliedAmount c <= cb_availableCents credit) /\
    map_to_list (sd_allocation c) = [("a", [257; 258]); ("b", [61; 62; 62])].
Proof.
  destruct (calculatePromotionStack no_parse no_number sample_input) as [r|e] eqn:Er; [|vm_compute in Er; discriminate].
  destruct (pt_selectedCredit r) as [c|] eqn:Ec; [|exfalso; vm_compute in Er; injection Er as <-; discriminate Ec].
  exists r, c. split; [done|]. split; [done|].
  split; [apply (selected_credit_valid no_parse no_number sample_input r c Er Ec); repeat constructor|].
  vm_compute in Er. injection Er as <-. injection Ec as <-. reflexivity.
Defined.

(** The cases of the source's own unit tests. *)
Example prorate_ties : prorateSigned [1; 1] (-1) = Ok [0; -1] /\ prorateSigned [1; 1; 1] (-101) = Ok [-33; -34; -34] /\
  prorateSigned [0; 0] (-1) = Ok [0; -1] /\ prorateSigned [1; 1] 1 = Ok [1; 0].
Proof. vm_compute. auto. Qed.
