(* ===== verification/Effects.v ===== *)
(** The pending-effects engine:
    [src/packages/api/src/payments/settlement/effects.ts] with the execution
    ranks of [payments/settlement/ops.ts].

    [FxDb] is one store's [order_pending_effect] table with its receipts and the
    alerts announced for terminal rows; [D] stands for every other table, which
    handlers may change. A database transaction is one step. A worker keeps the
    copy of the row it claimed ([Job]) across transactions, so claims, crashes,
    stale reclaims and late writes interleave freely in [fx_step]. Times are
    milliseconds; [gen_random_uuid] is a parameter indexed by a counter. Handlers
    are parameters: the code registers them at run time, plugins included. *)

From S2P Require Import Prelude Json.
From Stdlib Require Import ZArith Lia Bool String.
From stdpp Require Import base list strings gmap sorting pretty.
Local Open Scope Z_scope.

(** ** Effect kinds and ranks *)

Definition EFFECT_KINDS : list string :=
  ["license_issue"; "license_extend"; "edit_reconcile"; "loyalty_earn"; "notification"; "entitlement_reversal"; "admin_review"]%string.
Fixpoint index_of (x : string) (l : list string) : nat :=
  match l with [] => 0%nat | y :: ys => if String.eqb x y then 0%nat else S (index_of x ys) end.
(** The position in [EFFECT_KINDS], its length for an unknown kind. *)
Definition effectRank (kind : string) : nat := index_of kind EFFECT_KINDS.

Definition STALE_CLAIM_MS : Z := 5 * 60000.
Definition MAX_ATTEMPTS : Z := 8.
Definition backoffSeconds (attempts : Z) : Z := Z.min (2 ^ Z.max attempts 1 * 30) 3600.

(** ** Rows *)

Inductive EffectStatus := fx_pending | fx_processing | fx_done | fx_terminal.
#[export] Instance EffectStatus_eq_dec : EqDecision EffectStatus.
Proof. solve_decision. Defined.

Record EffectRow := {
  ef_id : string; ef_operationKind : string; ef_operationId : string; ef_kind : string;
  ef_payloadVersion : Z; ef_payload : json; ef_status : EffectStatus;
  ef_claimToken : option string; ef_claimedAt : option Z; ef_attempts : Z; ef_nextAttemptAt : Z;
  ef_lastError : option string; ef_firstFailedAt : option Z;
  ef_resolution : option json; ef_resolvedBy : option string; ef_result : option json; ef_createdAt : Z
}.

Record EffectRequest := {
  rq_kind : string; rq_payloadVersion : option Z; rq_payload : option json; rq_resolution : option json
}.
Inductive EffectOutcome :=
  | out_void
  | out_done (result : json)
  | out_retry (reason : string) (delayMs horizonMs : option Z)
  | out_terminal (reason : string).
Inductive ProcessResult := p_done | p_retry | p_terminal | p_stale.
#[export] Instance ProcessResult_eq_dec : EqDecision ProcessResult.
Proof. solve_decision. Defined.

(** A row is announced with the audit entry and the [effect.terminal] event. *)
Record Alert := { at_id : string; at_operationKind : string; at_operationId : string; at_kind : string; at_reason : option string }.
Record FxDb := {
  fx_rows : list EffectRow; fx_receipts : gmap string string; fx_alerts : list Alert; fx_fresh : nat
}.
Definition with_fx_rows (db : FxDb) (rows : list EffectRow) : FxDb :=
  {| fx_rows := rows; fx_receipts := fx_receipts db; fx_alerts := fx_alerts db; fx_fresh := fx_fresh db |}.

(** The column updates of each transition. *)
Definition claim_row (now : Z) (token : string) (r : EffectRow) : EffectRow :=
  {| ef_id := ef_id r; ef_operationKind := ef_operationKind r; ef_operationId := ef_operationId r; ef_kind := ef_kind r;
     ef_payloadVersion := ef_payloadVersion r; ef_payload := ef_payload r; ef_status := fx_processing;
     ef_claimToken := Some token; ef_claimedAt := Some now; ef_attempts := ef_attempts r + 1;
     ef_nextAttemptAt := ef_nextAttemptAt r; ef_lastError := ef_lastError r; ef_firstFailedAt := ef_firstFailedAt r;
     ef_resolution := ef_resolution r; ef_resolvedBy := ef_resolvedBy r; ef_result := ef_result r; ef_createdAt := ef_createdAt r |}.
Definition done_row (result : json) (r : EffectRow) : EffectRow :=
  {| ef_id := ef_id r; ef_operationKind := ef_operationKind r; ef_operationId := ef_operationId r; ef_kind := ef_kind r;
     ef_payloadVersion := ef_payloadVersion r; ef_payload := ef_payload r; ef_status := fx_done;
     ef_claimToken := ef_claimToken r; ef_claimedAt := ef_claimedAt r; ef_attempts := ef_attempts r;
     ef_nextAttemptAt := ef_nextAttemptAt r; ef_lastError := None; ef_firstFailedAt := ef_firstFailedAt r;
     ef_resolution := ef_resolution r; ef_resolvedBy := ef_resolvedBy r; ef_result := Some result; ef_createdAt := ef_createdAt r |}.
(** Shared by the retry, terminal and requeue updates, which drop the claim. *)
Definition release_row (status : EffectStatus) (attempts next : Z) (lastError : option string) (firstFailedAt : option Z)
    (r : EffectRow) : EffectRow :=
  {| ef_id := ef_id r; ef_operationKind := ef_operationKind r; ef_operationId := ef_operationId r; ef_kind := ef_kind r;
     ef_payloadVersion := ef_payloadVersion r; ef_payload := ef_payload r; ef_status := status;
     ef_claimToken := None; ef_claimedAt := None; ef_attempts := attempts;
     ef_nextAttemptAt := next; ef_lastError := lastError; ef_firstFailedAt := firstFailedAt;
     ef_resolution := ef_resolution r; ef_resolvedBy := ef_resolvedBy r; ef_result := ef_result r; ef_createdAt := ef_createdAt r |}.
Definition annotate_row (payload : json) (resolution : option json) (r : EffectRow) : EffectRow :=
  {| ef_id := ef_id r; ef_operationKind := ef_operationKind r; ef_operationId := ef_operationId r; ef_kind := ef_kind r;
     ef_payloadVersion := ef_payloadVersion r; ef_payload := payload; ef_status := ef_status r;
     ef_claimToken := ef_claimToken r; ef_claimedAt := ef_claimedAt r; ef_attempts := ef_attempts r;
     ef_nextAttemptAt := ef_nextAttemptAt r; ef_lastError := ef_lastError r; ef_firstFailedAt := ef_firstFailedAt r;
     ef_resolution := resolution; ef_resolvedBy := ef_resolvedBy r; ef_result := ef_result r; ef_createdAt := ef_createdAt r |}.

Definition status_is (st : EffectStatus) (r : EffectRow) : bool := bool_decide (ef_status r = st).
Definition is_open (r : EffectRow) : bool := status_is fx_pending r || status_is fx_processing r.
Definition is_review (kind : string) : bool := String.eqb kind "admin_review".

(** [UPDATE ... WHERE p]: the table afterwards; [RETURNING] is whether a row matched. *)
Definition update_where (p : EffectRow -> bool) (f : EffectRow -> EffectRow) (rows : list EffectRow) : list EffectRow :=
  map (fun r => if p r then f r else r) rows.

(** [EffectFencedError], or what a handler threw. *)
Inductive FxError := Fenced | Thrown (message : string).

Definition announceTerminal (db : FxDb) (r : EffectRow) : FxDb :=
  {| fx_rows := fx_rows db; fx_receipts := fx_receipts db;
     fx_alerts := fx_alerts db ++ [{| at_id := ef_id r; at_operationKind := ef_operationKind r;
                                      at_operationId := ef_operationId r; at_kind := ef_kind r; at_reason := ef_lastError r |}];
     fx_fresh := fx_fresh db |}.

Section Engine.
Context {D : Type}.
Context (gen_random_uuid : nat -> string).

(** [run] commits with the row's new status; [call] names the provider's reference
    (the effect id is the idempotency key) and [complete] runs with the receipt. *)
Inductive EffectHandler :=
  | LocalHandler (run : D -> EffectRow -> result string (D * EffectOutcome))
  | ExternalHandler (call : EffectRow -> string -> result string string)
                    (complete : D -> EffectRow -> string -> result string D).
Context (handlers : string -> option EffectHandler).

(** ** Enqueueing *)

Definition same_identity (kind id effect : string) (r : EffectRow) : bool :=
  String.eqb (ef_operationKind r) kind && String.eqb (ef_operationId r) id && String.eqb (ef_kind r) effect.

Definition review_reason (req : EffectRequest) : string :=
  match field "reason" (or_else (rq_payload req) (JObj [])) with
  | Some (JStr s) => s
  | _ => "held for review"%string
  end.
Definition new_row (db : FxDb) (now : Z) (kind id : string) (req : EffectRequest) : EffectRow :=
  let review := is_review (rq_kind req) in
  {| ef_id := gen_random_uuid (fx_fresh db); ef_operationKind := kind; ef_operationId := id; ef_kind := rq_kind req;
     ef_payloadVersion := or_else (rq_payloadVersion req) 1; ef_payload := or_else (rq_payload req) (JObj []);
     ef_status := if review then fx_terminal else fx_pending;
     ef_claimToken := None; ef_claimedAt := None; ef_attempts := 0; ef_nextAttemptAt := now;
     ef_lastError := if review then Some (review_reason req) else None;
     ef_firstFailedAt := if review then Some now else None;
     ef_resolution := rq_resolution req; ef_resolvedBy := None; ef_result := None; ef_createdAt := now |}.
(** One [INSERT ... ON CONFLICT DO NOTHING RETURNING]. *)
Definition enqueue_one (now : Z) (kind id : string) (acc : FxDb * list EffectRow) (req : EffectRequest) : FxDb * list EffectRow :=
  let '(db, created) := acc in
  if existsb (same_identity kind id (rq_kind req)) (fx_rows db) then (db, created)
  else
    let row := new_row db now kind id req in
    let db' := {| fx_rows := fx_rows db ++ [row]; fx_receipts := fx_receipts db; fx_alerts := fx_alerts db;
                  fx_fresh := S (fx_fresh db) |} in
    (if is_review (rq_kind req) then announceTerminal db' row else db', created ++ [row]).
Definition enqueueEffects (now : Z) (db : FxDb) (kind id : string) (requests : list EffectRequest) : FxDb * list EffectRow :=
  fold_left (enqueue_one now kind id) requests (db, []).

(** ** Outcomes (every write is fenced by the claim token) *)

Definition holds_claim (row r : EffectRow) : bool :=
  String.eqb (ef_id r) (ef_id row) && bool_decide (ef_claimToken r = ef_claimToken row) && status_is fx_processing r.
Definition fenced_update (db : FxDb) (row : EffectRow) (f : EffectRow -> EffectRow) : result FxError FxDb :=
  if existsb (holds_claim row) (fx_rows db) then Ok (with_fx_rows db (update_where (holds_claim row) f (fx_rows db)))
  else Err Fenced.

Definition review_request (row : EffectRow) (reason : string) : EffectRequest :=
  {| rq_kind := "admin_review"; rq_payloadVersion := None;
     rq_payload := Some (JObj [("reason", JStr reason); ("failedEffectKind", JStr (ef_kind row)); ("failedEffectId", JStr (ef_id row))]%string);
     rq_resolution := None |}.
Definition markTerminal (now : Z) (db : FxDb) (row : EffectRow) (reason : string) : result FxError FxDb :=
  let f := fun r => release_row fx_terminal (ef_attempts r) (ef_nextAttemptAt r) (Some reason)
                      (Some (or_else (ef_firstFailedAt row) now)) r in
  let! db1 := fenced_update db row f in
  let db2 := match List.find (holds_claim row) (fx_rows db) with Some r => announceTerminal db1 (f r) | None => db1 end in
  if is_review (ef_kind row) then Ok db2
  else Ok (fst (enqueueEffects now db2 (ef_operationKind row) (ef_operationId row) [review_request row reason])).

Definition markRetryOrTerminal (now : Z) (db : FxDb) (row : EffectRow) (reason : string) (delayMs horizonMs : option Z) :
    result FxError (FxDb * ProcessResult) :=
  let firstFailedAt := or_else (ef_firstFailedAt row) now in
  let horizonPassed := match horizonMs with Some h => h <? now - firstFailedAt | None => false end in
  if horizonPassed || (match horizonMs with None => true | Some _ => false end && (MAX_ATTEMPTS <=? ef_attempts row))
  then let! db' := markTerminal now db row reason in Ok (db', p_terminal)
  else
    let! db' := fenced_update db row (fun r => release_row fx_pending (ef_attempts r)
                  (now + or_else delayMs (backoffSeconds (ef_attempts row) * 1000)) (Some reason) (Some firstFailedAt) r) in
    Ok (db', p_retry).

Definition applyOutcome (now : Z) (db : FxDb) (row : EffectRow) (out : EffectOutcome) : result FxError (FxDb * ProcessResult) :=
  match out with
  | out_retry reason delayMs horizonMs => markRetryOrTerminal now db row reason delayMs horizonMs
  | out_terminal reason => let! db' := markTerminal now db row reason in Ok (db', p_terminal)
  | out_void => let! db' := fenced_update db row (done_row (JObj [])) in Ok (db', p_done)
  | out_done result => let! db' := fenced_update db row (done_row result) in Ok (db', p_done)
  end.

(** ** Inline execution, in the recording transaction *)

Definition rank_after (a b : EffectRow) : bool := (effectRank (ef_kind b) <? effectRank (ef_kind a))%nat.
Definition is_external (h : option EffectHandler) : bool := match h with Some (ExternalHandler _ _) => true | _ => false end.
(** The third component lists the effects whose outcome was [done]. *)
Definition Inline : Type := FxDb * D * list string.
Definition thrown {A} (r : result string A) : result FxError A := match r with Ok a => Ok a | Err m => Err (Thrown m) end.
Definition run_inline (now : Z) (acc : Inline) (row : EffectRow) : result FxError Inline :=
  let '(db, d, applied) := acc in
  match handlers (ef_kind row) with
  | Some (ExternalHandler _ _) => Ok acc
  | None => Err (Thrown ("no handler registered for effect kind " ++ ef_kind row))
  | Some (LocalHandler run) =>
      let p := fun r => String.eqb (ef_id r) (ef_id row) && status_is fx_pending r in
      let token := gen_random_uuid (fx_fresh db) in
      match List.find p (fx_rows db) with
      | None => Ok acc
      | Some r =>
          (* nothing else in this transaction touches the row, so its attempts are those read above *)
          let f := claim_row now token in
          let db1 := {| fx_rows := update_where p f (fx_rows db); fx_receipts := fx_receipts db;
                        fx_alerts := fx_alerts db; fx_fresh := S (fx_fresh db) |} in
          let! o := thrown (run d (f r)) in
          let! q := applyOutcome now db1 (f r) (snd o) in
          Ok (fst q, fst o, if bool_decide (snd q = p_done) then applied ++ [ef_id row] else applied)
      end
  end.
Definition executeEffectsNow (now : Z) (db : FxDb) (d : D) (effectIds : list string) : result FxError Inline :=
  let rows := List.filter (fun r => existsb (String.eqb (ef_id r)) effectIds && status_is fx_pending r) (fx_rows db) in
  fold_result (run_inline now) (db, d, []) (sort_stable rank_after rows).

(** ** Workers *)

Definition same_operation_row (a b : EffectRow) : bool :=
  String.eqb (ef_operationKind a) (ef_operationKind b) && String.eqb (ef_operationId a) (ef_operationId b).
(** An earlier-rank sibling of [c] is still pending or processing. *)
Definition blocks (c p : EffectRow) : bool :=
  same_operation_row p c && negb (String.eqb (ef_id p) (ef_id c)) && is_open p && negb (is_review (ef_kind p)) &&
  (effectRank (ef_kind p) <? effectRank (ef_kind c))%nat.
Definition stale_claim (now : Z) (r : EffectRow) : bool :=
  match ef_claimedAt r with Some at_ => at_ <? now - STALE_CLAIM_MS | None => false end.
Definition due (now : Z) (r : EffectRow) : bool :=
  (status_is fx_pending r && (ef_nextAttemptAt r <=? now)) || (status_is fx_processing r && stale_claim now r).
Definition claim_after (a b : EffectRow) : bool :=
  (ef_nextAttemptAt b <? ef_nextAttemptAt a) ||
  ((ef_nextAttemptAt a =? ef_nextAttemptAt b) && (ef_createdAt b <? ef_createdAt a)).
(** [locked] are the rows other live transactions hold ([SKIP LOCKED]). *)
Definition claimable (now : Z) (locked : string -> bool) (rows : list EffectRow) (c : EffectRow) : bool :=
  due now c && negb (existsb (blocks c) rows) && negb (locked (ef_id c)).
Definition claim_ids (now : Z) (locked : string -> bool) (limit : nat) (rows : list EffectRow) : list string :=
  map ef_id (take limit (sort_stable claim_after (List.filter (claimable now locked rows) rows))).
(** Every claimed row gets a token of its own. *)
Fixpoint claim_rows (now : Z) (ids : list string) (fresh : nat) (rows : list EffectRow) : list EffectRow :=
  match rows with
  | [] => []
  | r :: rest =>
      (if existsb (String.eqb (ef_id r)) ids then claim_row now (gen_random_uuid fresh) r else r)
      :: claim_rows now ids (S fresh) rest
  end.
Definition claimDueEffects (now : Z) (locked : string -> bool) (limit : nat) (db : FxDb) : FxDb * list EffectRow :=
  let ids := claim_ids now locked limit (fx_rows db) in
  let rows := claim_rows now ids (fx_fresh db) (fx_rows db) in
  ({| fx_rows := rows; fx_receipts := fx_receipts db; fx_alerts := fx_alerts db;
      fx_fresh := fx_fresh db + length (fx_rows db) |},
   sort_stable rank_after (List.filter (fun r => existsb (String.eqb (ef_id r)) ids) rows)).

(** The transactions of [processClaimedEffect]. A transaction that fails leaves the
    store as it was; the caller sees only which way it failed. *)
Definition claimedRow (db : FxDb) (effect : EffectRow) : option EffectRow := List.find (holds_claim effect) (fx_rows db).
Inductive TxOutcome := tx_stale | tx_threw (message : string) | tx_committed (res : ProcessResult).
Definition settle_tx (db : FxDb) (d : D) (r : result FxError (FxDb * D * ProcessResult)) : FxDb * D * TxOutcome :=
  match r with
  | Ok (db', d', res) => (db', d', tx_committed res)
  | Err Fenced => (db, d, tx_stale)
  | Err (Thrown m) => (db, d, tx_threw m)
  end.
Definition local_tx (now : Z) (db : FxDb) (d : D) (effect : EffectRow) (run : D -> EffectRow -> result string (D * EffectOutcome)) :
    FxDb * D * TxOutcome :=
  match claimedRow db effect with
  | None => (db, d, tx_stale)
  | Some cur =>
      settle_tx db d
        (let! o := thrown (run d cur) in let! q := applyOutcome now db cur (snd o) in Ok (fst q, fst o, snd q))
  end.
(** The receipt look-up, and the commit after the provider call. *)
Inductive Lookup := lk_stale | lk_receipt (ref : string) | lk_none.
Definition external_lookup (db : FxDb) (effect : EffectRow) : Lookup :=
  match claimedRow db effect with
  | None => lk_stale
  | Some _ => match fx_receipts db !! ef_id effect with Some ref => lk_receipt ref | None => lk_none end
  end.
Definition add_receipt (db : FxDb) (id ref : string) : FxDb :=
  {| fx_rows := fx_rows db;
     fx_receipts := match fx_receipts db !! id with Some _ => fx_receipts db | None => <[id := ref]> (fx_receipts db) end;
     fx_alerts := fx_alerts db; fx_fresh := fx_fresh db |}.
Definition external_commit (now : Z) (db : FxDb) (d : D) (effect : EffectRow)
    (complete : D -> EffectRow -> string -> result string D) (ref : string) : FxDb * D * TxOutcome :=
  match claimedRow db effect with
  | None => (db, d, tx_stale)
  | Some cur =>
      settle_tx db d
        (let! d' := thrown (complete d cur ref) in
         let! q := applyOutcome now (add_receipt db (ef_id effect) ref) cur out_void in Ok (fst q, d', snd q))
  end.
Definition failClaimed (now : Z) (db : FxDb) (effect : EffectRow) (reason : string) : FxDb * ProcessResult :=
  match markRetryOrTerminal now db effect reason None None with
  | Ok q => q
  | Err _ => (db, p_stale)
  end.

Definition no_handler (effect : EffectRow) : string := "no handler registered for effect kind " ++ ef_kind effect.
(** After a transaction: a thrown error becomes a retry or a terminal row. *)
Definition after_tx (now : Z) (effect : EffectRow) (r : FxDb * D * TxOutcome) : FxDb * D * ProcessResult :=
  let '(db, d, out) := r in
  match out with
  | tx_stale => (db, d, p_stale)
  | tx_committed res => (db, d, res)
  | tx_threw m => let q := failClaimed now db effect m in (fst q, d, snd q)
  end.
(** One claimed effect from start to end, when no other transaction comes between. *)
Definition processClaimedEffect (now : Z) (db : FxDb) (d : D) (effect : EffectRow) : FxDb * D * ProcessResult :=
  match handlers (ef_kind effect) with
  | None => let q := failClaimed now db effect (no_handler effect) in (fst q, d, snd q)
  | Some (LocalHandler run) => after_tx now effect (local_tx now db d effect run)
  | Some (ExternalHandler call complete) =>
      match external_lookup db effect with
      | lk_stale => (db, d, p_stale)
      | lk_receipt ref => after_tx now effect (external_commit now db d effect complete ref)
      | lk_none =>
          match call effect (ef_id effect) with
          | Ok ref => after_tx now effect (external_commit now db d effect complete ref)
          | Err m => let q := failClaimed now db effect m in (fst q, d, snd q)
          end
      end
  end.

(** One worker pass over the store: a round per rank step. *)
Definition process_one (now : Z) (acc : FxDb * D * list ProcessResult) (effect : EffectRow) : FxDb * D * list ProcessResult :=
  let '(db, d, out) := acc in
  let '(db', d', res) := processClaimedEffect now db d effect in (db', d', out ++ [res]).
Fixpoint effects_rounds (rounds : nat) (now : Z) (limit : nat) (acc : FxDb * D * list ProcessResult) : FxDb * D * list ProcessResult :=
  match rounds with
  | O => acc
  | S n =>
      let '(db, d, out) := acc in
      let '(db1, claimed) := claimDueEffects now (fun _ => false) limit db in
      match claimed with
      | [] => (db1, d, out)
      | _ => effects_rounds n now limit (fold_left (process_one now) claimed (db1, d, out))
      end
  end.
Definition runEffectsPass (now : Z) (limit rounds : option nat) (db : FxDb) (d : D) : FxDb * D * list ProcessResult :=
  effects_rounds (or_else rounds (length EFFECT_KINDS)) now (or_else limit 50%nat) (db, d, []).
Definition countOpenEffects (db : FxDb) : nat := length (List.filter is_open (fx_rows db)).

(** ** Administration *)

Definition listEffectsNeedingAttention (db : FxDb) : list EffectRow :=
  List.filter (fun r =>
    (status_is fx_terminal r && bool_decide (ef_resolution r = None) && bool_decide (ef_resolvedBy r = None)) ||
    (status_is fx_pending r && bool_decide (is_Some (ef_firstFailedAt r)))) (fx_rows db).
Definition requeueTerminalEffect (now : Z) (db : FxDb) (effectId : string) : FxDb * bool :=
  let p := fun r => String.eqb (ef_id r) effectId && status_is fx_terminal r && negb (is_review (ef_kind r)) in
  (with_fx_rows db (update_where p (release_row fx_pending 0 now None None) (fx_rows db)), existsb p (fx_rows db)).
(** [payload || approval]: the approval's key replaces an earlier one, the rest stays. *)
Definition merge_payload (payload approval : json) : json :=
  match payload with
  | JObj fields => JObj (List.filter (fun kv => negb (String.eqb (fst kv) "issuanceApprovedBy")) fields ++ [("issuanceApprovedBy"%string, approval)])
  | other => other
  end.
Definition recordEffectIssuanceApproval (db : FxDb) (effectId : string) (approval : json) : FxDb :=
  with_fx_rows db (update_where (fun r => String.eqb (ef_id r) effectId)
    (fun r => annotate_row (merge_payload (ef_payload r) approval) (ef_resolution r) r) (fx_rows db)).
Definition reviews_effect (e r : EffectRow) : bool :=
  same_operation_row r e && is_review (ef_kind r) && bool_decide (ef_resolution r = None) &&
  match field "failedEffectId" (ef_payload r) with Some (JStr s) => String.eqb s (ef_id e) | _ => false end.
Definition resolveReviewTasksForEffect (db : FxDb) (e : EffectRow) (resolution : json) : FxDb :=
  with_fx_rows db (update_where (reviews_effect e) (fun r => annotate_row (ef_payload r) (Some resolution) r) (fx_rows db)).

(** ** The concurrent system *)

(** What a worker holds between its transactions; a crash loses it. *)
Inductive Job :=
  | j_claimed (effect : EffectRow)
  | j_called (effect : EffectRow) (ref : string)
  | j_calling (effect : EffectRow)
  | j_failing (effect : EffectRow) (reason : string).
Definition job_row (j : Job) : EffectRow :=
  match j with j_claimed e | j_called e _ | j_calling e | j_failing e _ => e end.
Record FxSys := { sy_db : FxDb; sy_d : D; sy_jobs : list Job }.
(** The ids whose effects committed as [done] in one step. *)
Definition done_label (effect : EffectRow) (out : TxOutcome) : list string :=
  match out with tx_committed p_done => [ef_id effect] | _ => [] end.
Definition next_job (effect : EffectRow) (out : TxOutcome) : list Job :=
  match out with tx_threw m => [j_failing effect m] | _ => [] end.

Inductive fx_step : FxSys -> list string -> FxSys -> Prop :=
  | step_other db d d' jobs : fx_step {| sy_db := db; sy_d := d; sy_jobs := jobs |} [] {| sy_db := db; sy_d := d'; sy_jobs := jobs |}
  | step_enqueue db d jobs now kind id requests :
      fx_step {| sy_db := db; sy_d := d; sy_jobs := jobs |} []
              {| sy_db := fst (enqueueEffects now db kind id requests); sy_d := d; sy_jobs := jobs |}
  | step_inline db d jobs now ids db' d' applied :
      executeEffectsNow now db d ids = Ok (db', d', applied) ->
      fx_step {| sy_db := db; sy_d := d; sy_jobs := jobs |} applied {| sy_db := db'; sy_d := d'; sy_jobs := jobs |}
  | step_claim db d jobs now locked limit :
      let r := claimDueEffects now locked limit db in
      fx_step {| sy_db := db; sy_d := d; sy_jobs := jobs |} []
              {| sy_db := fst r; sy_d := d; sy_jobs := jobs ++ map j_claimed (snd r) |}
  | step_no_handler db d jobs1 jobs2 e : handlers (ef_kind e) = None ->
      fx_step {| sy_db := db; sy_d := d; sy_jobs := jobs1 ++ j_claimed e :: jobs2 |} []
              {| sy_db := db; sy_d := d; sy_jobs := jobs1 ++ j_failing e (no_handler e) :: jobs2 |}
  | step_local db d jobs1 jobs2 e run now db' d' out : handlers (ef_kind e) = Some (LocalHandler run) ->
      local_tx now db d e run = (db', d', out) ->
      fx_step {| sy_db := db; sy_d := d; sy_jobs := jobs1 ++ j_claimed e :: jobs2 |} (done_label e out)
              {| sy_db := db'; sy_d := d'; sy_jobs := jobs1 ++ next_job e out ++ jobs2 |}
  | step_lookup db d jobs1 jobs2 e call complete : handlers (ef_kind e) = Some (ExternalHandler call complete) ->
      fx_step {| sy_db := db; sy_d := d; sy_jobs := jobs1 ++ j_claimed e :: jobs2 |} []
              {| sy_db := db; sy_d := d; sy_jobs := jobs1 ++
                   match external_lookup db e with lk_stale => [] | lk_receipt ref => [j_called e ref] | lk_none => [j_calling e] end ++ jobs2 |}
  (* the provider may answer or fail in any way *)
  | step_call db d jobs1 jobs2 e call complete answer : handlers (ef_kind e) = Some (ExternalHandler call complete) ->
      fx_step {| sy_db := db; sy_d := d; sy_jobs := jobs1 ++ j_calling e :: jobs2 |} []
              {| sy_db := db; sy_d := d; sy_jobs := jobs1 ++
                   match answer with Ok ref => j_called e ref | Err m => j_failing e m end :: jobs2 |}
  | step_commit db d jobs1 jobs2 e ref call complete now db' d' out :
      handlers (ef_kind e) = Some (ExternalHandler call complete) ->
      external_commit now db d e complete ref = (db', d', out) ->
      fx_step {| sy_db := db; sy_d := d; sy_jobs := jobs1 ++ j_called e ref :: jobs2 |} (done_label e out)
              {| sy_db := db'; sy_d := d'; sy_jobs := jobs1 ++ next_job e out ++ jobs2 |}
  | step_fail db d jobs1 jobs2 e reason now :
      fx_step {| sy_db := db; sy_d := d; sy_jobs := jobs1 ++ j_failing e reason :: jobs2 |} []
              {| sy_db := fst (failClaimed now db e reason); sy_d := d; sy_jobs := jobs1 ++ jobs2 |}
  | step_crash db d jobs1 jobs2 j :
      fx_step {| sy_db := db; sy_d := d; sy_jobs := jobs1 ++ j :: jobs2 |} [] {| sy_db := db; sy_d := d; sy_jobs := jobs1 ++ jobs2 |}
  | step_requeue db d jobs now id :
      fx_step {| sy_db := db; sy_d := d; sy_jobs := jobs |} []
              {| sy_db := fst (requeueTerminalEffect now db id); sy_d := d; sy_jobs := jobs |}
  | step_approve db d jobs id approval :
      fx_step {| sy_db := db; sy_d := d; sy_jobs := jobs |} []
              {| sy_db := recordEffectIssuanceApproval db id approval; sy_d := d; sy_jobs := jobs |}
  | step_resolve db d jobs e resolution :
      fx_step {| sy_db := db; sy_d := d; sy_jobs := jobs |} []
              {| sy_db := resolveReviewTasksForEffect db e resolution; sy_d := d; sy_jobs := jobs |}.

Inductive fx_run (d0 : D) : list string -> FxSys -> Prop :=
  | fx_init : fx_run d0 [] {| sy_db := {| fx_rows := []; fx_receipts := ∅; fx_alerts := []; fx_fresh := 0 |}; sy_d := d0; sy_jobs := [] |}
  | fx_more tr s l s' : fx_run d0 tr s -> fx_step s l s' -> fx_run d0 (tr ++ l) s'.
End Engine.

(** * Row-level facts *)

Definition dones (rows : list EffectRow) : list string := map ef_id (List.filter (status_is fx_done) rows).
#[global] Arguments dones : simpl never.
(** Every terminal row of [rows] has a review task of its operation among [all]. *)
Definition covered (all rows : list EffectRow) : Prop :=
  Forall (fun r => ef_status r = fx_terminal ->
    existsb (same_identity (ef_operationKind r) (ef_operationId r) "admin_review") all = true) rows.
Definition reviewed (rows : list EffectRow) : Prop := covered rows rows.
Definition identity (r : EffectRow) : string * string * string * string :=
  (ef_id r, ef_operationKind r, ef_operationId r, ef_kind r).
Definition keeps_identity (f : EffectRow -> EffectRow) : Prop := forall r, identity (f r) = identity r.

Lemma claim_row_identity now t : keeps_identity (claim_row now t).
Proof. done. Qed.
Lemma done_row_identity v : keeps_identity (done_row v).
Proof. done. Qed.
Lemma release_row_identity st a n e x : keeps_identity (release_row st a n e x).
Proof. done. Qed.
Lemma annotate_row_identity g h : keeps_identity (fun r => annotate_row (g r) (h r) r).
Proof. done. Qed.
#[export] Hint Resolve claim_row_identity done_row_identity release_row_identity annotate_row_identity : sellright.

Lemma update_identity p f rows : keeps_identity f -> map identity (update_where p f rows) = map identity rows.
Proof.
  intros Hf. unfold update_where. rewrite map_map. apply map_ext. intros r. destruct (p r); [apply Hf|done].
Qed.

Lemma identity_ids rows rows' : map identity rows' = map identity rows -> map ef_id rows' = map ef_id rows.
Proof.
  intros H. apply (f_equal (map (fun i => fst (fst (fst i))))) in H. by rewrite !map_map in H.
Qed.

Lemma identity_existsb k i e rows rows' : map identity rows' = map identity rows ->
  existsb (same_identity k i e) rows' = existsb (same_identity k i e) rows.
Proof.
  revert rows'. induction rows as [|r rs IH]; intros [|r' rs'] H; try discriminate; [done|].
  cbn [map] in H. injection H as Hid Hk Ho He Hrest. cbn. rewrite (IH _ Hrest). unfold same_identity. by rewrite Hk, Ho, He.
Qed.

Lemma dones_update p f rows : (forall r, p r = true -> ef_status r <> fx_done /\ ef_status (f r) <> fx_done) ->
  dones (update_where p f rows) = dones rows.
Proof.
  intros H. unfold dones, update_where. induction rows as [|r rs IH]; cbn; [done|]. unfold status_is in *.
  destruct (p r) eqn:E.
  - destruct (H r E) as [H1 H2]. rewrite !bool_decide_eq_false_2 by done. exact IH.
  - destruct (bool_decide _); cbn; by rewrite IH.
Qed.

Lemma update_none p f rows : existsb p rows = false -> update_where p f rows = rows.
Proof.
  unfold update_where. induction rows as [|r rs IH]; cbn; intros H; [done|]. bool_props.
  match goal with H1 : p r = false |- _ => rewrite H1 end. by rewrite IH.
Qed.

Lemma holds_claim_spec row r : holds_claim row r = true ->
  ef_id r = ef_id row /\ ef_claimToken r = ef_claimToken row /\ ef_status r = fx_processing.
Proof.
  unfold holds_claim, status_is. intros H. bool_props. split; [by apply String.eqb_eq|]. split; eapply bool_decide_eq_true_1; eassumption.
Qed.

(** Committing one row as done adds exactly its id. *)
Lemma dones_commit row v rows : NoDup (map ef_id rows) -> existsb (holds_claim row) rows = true ->
  dones (update_where (holds_claim row) (done_row v) rows) ≡ₚ dones rows ++ [ef_id row].
Proof.
  induction rows as [|r rs IH]; intros Hnd Hex; [discriminate|]. cbn in Hnd, Hex. inversion Hnd as [|? ? Hnot Hnd']; subst.
  unfold dones. cbn [update_where map]. destruct (holds_claim row r) eqn:E.
  - destruct (holds_claim_spec _ _ E) as (Hid & _ & Hst).
    assert (Hr : existsb (holds_claim row) rs = false).
    { apply Bool.not_true_is_false. intros Hx. apply existsb_exists in Hx as (r' & Hin & Hr').
      apply holds_claim_spec in Hr' as (Hid' & _). apply Hnot. rewrite Hid, <- Hid'.
      rewrite list_elem_of_In. by apply in_map. }
    fold (update_where (holds_claim row) (done_row v) rs). rewrite update_none by done.
    cbn [List.filter]. change (status_is fx_done (done_row v r)) with true.
    assert (status_is fx_done r = false) as -> by (unfold status_is; by rewrite Hst).
    cbn. rewrite Hid. apply Permutation_cons_append.
  - cbn in Hex. specialize (IH Hnd' Hex). unfold dones in IH. cbn [List.filter].
    fold (update_where (holds_claim row) (done_row v) rs). destruct (status_is fx_done r); cbn; [|done]. by rewrite IH.
Qed.

(** * Every transaction preserves the table's invariant *)

Section EngineFacts.
Context {D : Type} (gen_random_uuid : nat -> string) `{Hinj : !Inj (=) (=) gen_random_uuid}.
Context (handlers : string -> option (EffectHandler (D := D))).

Record fx_ok (db : FxDb) : Prop := {
  ok_ids : NoDup (map ef_id (fx_rows db));
  ok_uuid : Forall (fun i => exists k, (k < fx_fresh db)%nat /\ i = gen_random_uuid k) (map ef_id (fx_rows db))
}.
(** [db'] follows [db], committing the effects [l] as done. *)
Definition evolves (db db' : FxDb) (l : list string) : Prop :=
  fx_ok db -> fx_ok db' /\ (fx_fresh db <= fx_fresh db')%nat /\ dones (fx_rows db') ≡ₚ dones (fx_rows db) ++ l.

Lemma evolves_refl db : evolves db db [].
Proof. intros H. split; [done|]. split; [lia|]. by rewrite app_nil_r. Qed.

Lemma evolves_trans db1 db2 db3 l1 l2 : evolves db1 db2 l1 -> evolves db2 db3 l2 -> evolves db1 db3 (l1 ++ l2).
Proof.
  intros H1 H2 H. destruct (H1 H) as (O1 & F1 & P1). destruct (H2 O1) as (O2 & F2 & P2).
  split; [done|]. split; [lia|]. by rewrite P2, P1, app_assoc.
Qed.

Lemma evolves_then db1 db2 db3 l : evolves db1 db2 l -> evolves db2 db3 [] -> evolves db1 db3 l.
Proof. intros H1 H2. rewrite <- (app_nil_r l). eapply evolves_trans; eauto. Qed.

Lemma evolves_announce db r : evolves db (announceTerminal db r) [].
Proof. intros [A B]. split; [done|]. cbn. split; [lia|]. by rewrite app_nil_r. Qed.

(** An update that keeps identities and commits [l]. *)
Lemma evolves_update db db' p f l : keeps_identity f -> fx_rows db' = update_where p f (fx_rows db) ->
  (fx_fresh db <= fx_fresh db')%nat ->
  (NoDup (map ef_id (fx_rows db)) -> dones (update_where p f (fx_rows db)) ≡ₚ dones (fx_rows db) ++ l) -> evolves db db' l.
Proof.
  intros Hf Hr Hle Hd [A B]. pose proof (identity_ids _ _ (update_identity p f (fx_rows db) Hf)) as Hi.
  split; [|split; [done|rewrite Hr; by apply Hd]]. constructor; [by rewrite Hr, Hi|].
  rewrite Hr, Hi. eapply Forall_impl; [exact B|]. intros i (k & Hk & ->). exists k. split; [lia|done].
Qed.

Lemma evolves_open db db' p f : keeps_identity f -> fx_rows db' = update_where p f (fx_rows db) ->
  (fx_fresh db <= fx_fresh db')%nat ->
  (forall r, p r = true -> ef_status r <> fx_done /\ ef_status (f r) <> fx_done) -> evolves db db' [].
Proof. intros Hf Hr Hle Hd. eapply evolves_update; eauto. intros _. by rewrite dones_update, app_nil_r. Qed.

Lemma reviewed_update p f rows : keeps_identity f -> reviewed rows ->
  (forall r, p r = true -> ef_status (f r) = fx_terminal -> ef_status r = fx_terminal) -> reviewed (update_where p f rows).
Proof.
  intros Hf Hrev Hst. unfold reviewed, covered in *. rewrite Forall_forall in *. intros r' Hin.
  unfold update_where in Hin. apply list_elem_of_fmap in Hin as (r & -> & Hr). intros Ht.
  rewrite (identity_existsb _ _ _ _ _ (update_identity p f rows Hf)).
  assert (E : identity (if p r then f r else r) = identity r) by (destruct (p r); [apply Hf|done]).
  injection E as _ -> -> _. apply Hrev; [done|]. destruct (p r) eqn:Ep; [by apply Hst|done].
Qed.

Lemma covered_app all news rows : covered all rows -> covered (all ++ news) rows.
Proof. intros H. eapply Forall_impl; [exact H|]. intros x Hx Ht. rewrite existsb_app, (Hx Ht). done. Qed.

(** Appending a fresh row. *)
Lemma evolves_insert db db' r : fx_rows db' = fx_rows db ++ [r] -> fx_fresh db' = S (fx_fresh db) ->
  ef_id r = gen_random_uuid (fx_fresh db) -> ef_status r <> fx_done -> evolves db db' [].
Proof.
  intros Hr Hf Hid Hst [A B]. split; [|split; [lia|]].
  - constructor.
    + rewrite Hr, map_app. apply NoDup_app. split; [done|]. split; [|apply NoDup_singleton].
      intros i Hi Hi2. apply list_elem_of_singleton in Hi2 as ->. rewrite Forall_forall in B.
      destruct (B _ Hi) as (k & Hk & E). rewrite Hid in E. apply Hinj in E. lia.
    + rewrite Hr, map_app, Forall_app. split.
      * eapply Forall_impl; [exact B|]. intros i (k & Hk & ->). exists k. split; [lia|done].
      * constructor; [|done]. exists (fx_fresh db). split; [lia|done].
  - unfold dones. rewrite Hr, List.filter_app, map_app. cbn. unfold status_is at 2.
    by rewrite bool_decide_eq_false_2 by done.
Qed.

(** What an enqueue adds: fresh rows, terminal only as their own review. *)
Definition extends (db db' : FxDb) : Prop :=
  evolves db db' [] /\ exists news, fx_rows db' = fx_rows db ++ news /\ covered news news.

Lemma enqueue_one_extends now kind id acc req : extends (fst acc) (fst (enqueue_one gen_random_uuid now kind id acc req)).
Proof.
  destruct acc as [db created]. unfold enqueue_one. destruct (existsb _ _).
  { split; [apply evolves_refl|]. exists []. cbn. rewrite app_nil_r. split; [done|constructor]. }
  set (row := new_row _ _ _ _ _ _). set (db' := {| fx_rows := _; fx_receipts := _; fx_alerts := _; fx_fresh := _ |}).
  assert (E : evolves db db' []).
  { apply evolves_insert with row; try done. unfold row, new_row. cbn. destruct (is_review _); discriminate. }
  assert (C : covered [row] [row]).
  { constructor; [|constructor]. unfold row, new_row. cbn. intros Ht.
    destruct (is_review (rq_kind req)) eqn:Er; [|discriminate]. unfold is_review in Er. apply String.eqb_eq in Er.
    unfold same_identity. cbn. by rewrite Er, !String.eqb_refl. }
  cbn. destruct (is_review (rq_kind req)); (split; [|by exists [row]]); [|done].
  eapply evolves_then; [exact E|apply evolves_announce].
Qed.

Lemma covered_both l1 l2 : covered l1 l1 -> covered l2 l2 -> covered (l1 ++ l2) (l1 ++ l2).
Proof.
  intros H1 H2. apply Forall_app. split; [by apply covered_app|]. eapply Forall_impl; [exact H2|].
  intros x Hx Ht. rewrite existsb_app, (Hx Ht). by rewrite orb_true_r.
Qed.

Lemma extends_trans db1 db2 db3 : extends db1 db2 -> extends db2 db3 -> extends db1 db3.
Proof.
  intros (E1 & n1 & R1 & C1) (E2 & n2 & R2 & C2). split; [by eapply evolves_then|].
  exists (n1 ++ n2). rewrite R2, R1, app_assoc. split; [done|by apply covered_both].
Qed.

Lemma enqueueEffects_extends now db kind id requests : extends db (fst (enqueueEffects gen_random_uuid now db kind id requests)).
Proof.
  unfold enqueueEffects. change db with (fst (db, @nil EffectRow)) at 1. generalize (db, @nil EffectRow) as acc.
  induction requests as [|r rs IH]; intros acc; cbn.
  { split; [apply evolves_refl|]. exists []. rewrite app_nil_r. split; [done|constructor]. }
  eapply extends_trans; [apply enqueue_one_extends|apply IH].
Qed.

Lemma extends_reviewed db db' : extends db db' -> reviewed (fx_rows db) -> reviewed (fx_rows db').
Proof. intros (_ & news & -> & C) H. by apply covered_both. Qed.

(** ** Outcomes *)

Lemma fenced_update_spec db row f db' : fenced_update db row f = Ok db' ->
  existsb (holds_claim row) (fx_rows db) = true /\ db' = with_fx_rows db (update_where (holds_claim row) f (fx_rows db)).
Proof. unfold fenced_update. destruct (existsb _ _); [|discriminate]. by intros [= <-]. Qed.

Lemma enqueue_review now db kind id reason row :
  existsb (same_identity kind id "admin_review")
    (fx_rows (fst (enqueueEffects gen_random_uuid now db kind id [review_request row reason]))) = true.
Proof.
  unfold enqueueEffects, fold_left, enqueue_one, review_request; cbn [rq_kind].
  change (is_review "admin_review") with true.
  destruct (existsb _ (fx_rows db)) eqn:E; [done|]. cbn [fst announceTerminal fx_rows].
  rewrite existsb_app. cbn. unfold same_identity. cbn. by rewrite !String.eqb_refl, orb_true_r.
Qed.

(** [row] is a copy of a row of the table: its id was issued and identities never change. *)
Definition issued (db : FxDb) (row : EffectRow) : Prop :=
  (exists k, (k < fx_fresh db)%nat /\ ef_id row = gen_random_uuid k) /\
  forall r, r ∈ fx_rows db -> ef_id r = ef_id row -> identity r = identity row.

Lemma issued_update db db' p f row : keeps_identity f -> fx_rows db' = update_where p f (fx_rows db) ->
  (fx_fresh db <= fx_fresh db')%nat -> issued db row -> issued db' row.
Proof.
  intros Hf Hr Hle [(k & Hk & E) H]. split; [exists k; split; [lia|done]|]. intros r Hin. rewrite Hr in Hin.
  unfold update_where in Hin. apply list_elem_of_fmap in Hin as (r0 & -> & Hr0).
  assert (Ei : identity (if p r0 then f r0 else r0) = identity r0) by (destruct (p r0); [apply Hf|done]).
  intros Hid. rewrite Ei. apply H; [done|]. injection Ei as Ei _ _ _. congruence.
Qed.

Lemma issued_insert db db' r row : fx_rows db' = fx_rows db ++ [r] -> fx_fresh db' = S (fx_fresh db) ->
  ef_id r = gen_random_uuid (fx_fresh db) -> issued db row -> issued db' row.
Proof.
  intros Hr Hf Hid [(k & Hk & E) H]. split; [exists k; split; [lia|done]|]. intros x Hin. rewrite Hr in Hin.
  apply elem_of_app in Hin as [Hin|Hin]; [by apply H|]. apply list_elem_of_singleton in Hin as ->.
  intros Ex. rewrite Hid, E in Ex. apply Hinj in Ex. lia.
Qed.

Lemma issued_elem db r : fx_ok db -> r ∈ fx_rows db -> issued db r.
Proof.
  intros [A B] Hr. split.
  - rewrite Forall_map, Forall_forall in B. by apply B.
  - intros r' Hr' Hid. f_equal. clear B. revert A Hr Hr'. generalize (fx_rows db) as rows.
    induction rows as [|x xs IH]; cbn; intros Hnd Hr Hr'; [by apply not_elem_of_nil in Hr|].
    inversion Hnd as [|? ? Hx Hxs]; subst.
    assert (X : forall y z, ef_id y = ef_id z -> y ∈ xs -> ef_id z = ef_id x -> False).
    { intros y z E Hy Ez. apply Hx. rewrite <- Ez, <- E, list_elem_of_In. apply in_map. by apply list_elem_of_In. }
    apply elem_of_cons in Hr as [->|Hr]; apply elem_of_cons in Hr' as [->|Hr']; [done| | |auto]; exfalso.
    + eapply (X r' x); eauto.
    + eapply (X r x); eauto.
Qed.

(** What every transaction of the engine guarantees. *)
Definition good (db db' : FxDb) (l : list string) : Prop :=
  fx_ok db -> reviewed (fx_rows db) ->
  (fx_ok db' /\ (fx_fresh db <= fx_fresh db')%nat /\ dones (fx_rows db') ≡ₚ dones (fx_rows db) ++ l) /\
  reviewed (fx_rows db') /\ (forall row, issued db row -> issued db' row).

Lemma good_refl db : good db db [].
Proof. intros H R. split; [by apply evolves_refl|]. done. Qed.

Lemma good_trans db1 db2 db3 l1 l2 : good db1 db2 l1 -> good db2 db3 l2 -> good db1 db3 (l1 ++ l2).
Proof.
  intros G1 G2 H R. destruct (G1 H R) as (E1 & R1 & I1). destruct (G2 (proj1 E1) R1) as (E2 & R2 & I2).
  split; [|split; [done|auto]]. exact (evolves_trans db1 db2 db3 l1 l2 (fun _ => E1) (fun _ => E2) H).
Qed.

Lemma good_update db db' p f l : keeps_identity f -> fx_rows db' = update_where p f (fx_rows db) ->
  (fx_fresh db <= fx_fresh db')%nat ->
  (NoDup (map ef_id (fx_rows db)) -> dones (update_where p f (fx_rows db)) ≡ₚ dones (fx_rows db) ++ l) ->
  (forall r, p r = true -> ef_status (f r) = fx_terminal -> ef_status r = fx_terminal) -> good db db' l.
Proof.
  intros Hf Hr Hle Hd Ht H R. split; [by eapply (evolves_update db db')|]. split; [rewrite Hr; by apply reviewed_update|].
  intros row. by apply issued_update with p f.
Qed.

Lemma issued_enqueue now kind id acc req row : issued (fst acc) row -> issued (fst (enqueue_one gen_random_uuid now kind id acc req)) row.
Proof.
  destruct acc as [db created]. unfold enqueue_one. destruct (existsb _ _); [done|]. intros H.
  set (r := new_row _ _ _ _ _ _). set (db' := {| fx_rows := _; fx_receipts := _; fx_alerts := _; fx_fresh := _ |}).
  assert (issued db' row) by (by apply issued_insert with db r). cbn. by destruct (is_review (rq_kind req)).
Qed.

Lemma issued_enqueueEffects now db kind id requests row : issued db row ->
  issued (fst (enqueueEffects gen_random_uuid now db kind id requests)) row.
Proof.
  unfold enqueueEffects. change db with (fst (db, @nil EffectRow)) at 1. generalize (db, @nil EffectRow) as acc.
  induction requests as [|r rs IH]; intros acc H; cbn; [done|]. by apply IH, issued_enqueue.
Qed.

Lemma enqueueEffects_good now db kind id requests : good db (fst (enqueueEffects gen_random_uuid now db kind id requests)) [].
Proof.
  intros H R. pose proof (enqueueEffects_extends now db kind id requests) as E.
  split; [by apply (proj1 E)|]. split; [by eapply extends_reviewed|]. intros row. apply issued_enqueueEffects.
Qed.

(** Terminal rows made by one update are covered once their operation has a review. *)
Lemma covered_update all p f rows row : keeps_identity f -> reviewed rows ->
  (forall r, r ∈ rows -> p r = true -> identity r = identity row) ->
  (forall k i, existsb (same_identity k i "admin_review") rows = true -> existsb (same_identity k i "admin_review") all = true) ->
  existsb (same_identity (ef_operationKind row) (ef_operationId row) "admin_review") all = true ->
  covered all (update_where p f rows).
Proof.
  intros Hf Hrev Hp Hmono Hnew. apply Forall_forall. intros r' Hin Ht.
  unfold update_where in Hin. apply list_elem_of_fmap in Hin as (r & -> & Hr). destruct (p r) eqn:E.
  - pose proof (Hf r) as Hfr. rewrite (Hp r Hr E) in Hfr. injection Hfr as _ -> -> _. done.
  - apply Hmono. unfold reviewed, covered in Hrev. rewrite Forall_forall in Hrev. by apply Hrev.
Qed.

Lemma issued_holds db row r : issued db row -> r ∈ fx_rows db -> holds_claim row r = true -> identity r = identity row.
Proof. intros [_ H] Hin Hr. apply H; [done|]. by apply holds_claim_spec in Hr as (? & _). Qed.

Lemma markTerminal_good now db row reason db' : issued db row ->
  markTerminal gen_random_uuid now db row reason = Ok db' -> good db db' [].
Proof.
  intros Hk H Hok Hrev. unfold markTerminal in H. inv_ok.
  match goal with H1 : fenced_update _ _ _ = Ok _ |- _ => apply fenced_update_spec in H1 as [Hex ->] end.
  set (f := fun r => release_row fx_terminal _ _ _ _ r) in *. assert (Hf : keeps_identity f) by (intros r; done).
  set (db1 := with_fx_rows db (update_where (holds_claim row) f (fx_rows db))) in *.
  set (db2 := match List.find _ _ with Some r => _ | None => db1 end) in *.
  assert (R2 : fx_rows db2 = update_where (holds_claim row) f (fx_rows db) /\ fx_fresh db2 = fx_fresh db)
    by (unfold db2; by destruct (List.find _ _)).
  destruct R2 as [R2 F2].
  assert (E2 : evolves db db2 []).
  { eapply evolves_open; [exact Hf|exact R2|by rewrite F2|]. intros r Hr. apply holds_claim_spec in Hr as (_ & _ & ->). by split. }
  assert (I2 : forall x, issued db x -> issued db2 x) by (intros x; apply issued_update with (holds_claim row) f; [done|done|by rewrite F2]).
  assert (Hc : forall all, (forall k i, existsb (same_identity k i "admin_review") (fx_rows db) = true ->
        existsb (same_identity k i "admin_review") all = true) ->
      existsb (same_identity (ef_operationKind row) (ef_operationId row) "admin_review") all = true -> covered all (fx_rows db2)).
  { intros all Hm Hn. rewrite R2. eapply covered_update; eauto. intros r Hin Hr. by eapply issued_holds. }
  destruct (is_review (ef_kind row)) eqn:Er; injection H as <-.
  - split; [by apply E2|]. split; [|done]. apply Hc; rewrite R2.
    + intros k i. by rewrite (identity_existsb _ _ _ _ _ (update_identity (holds_claim row) f _ Hf)).
    + rewrite (identity_existsb _ _ _ _ _ (update_identity (holds_claim row) f _ Hf)).
      apply existsb_exists in Hex as (r & Hin & Hr). apply existsb_exists. exists r. split; [done|].
      apply list_elem_of_In in Hin. pose proof (issued_holds _ _ _ Hk Hin Hr) as Ei. injection Ei as _ Ek Eo Ee.
      unfold is_review in Er. apply String.eqb_eq in Er. unfold same_identity. by rewrite Ek, Eo, Ee, Er, !String.eqb_refl.
  - pose proof (enqueueEffects_extends now db2 (ef_operationKind row) (ef_operationId row) [review_request row reason]) as X.
    split; [by apply (evolves_then db db2); [exact E2|apply X|]|]. split; [|intros x Hx; by apply issued_enqueueEffects, I2].
    pose proof (enqueue_review now db2 (ef_operationKind row) (ef_operationId row) reason row) as Hnew.
    destruct X as (_ & news & Hnews & C). set (db3 := fst _) in *. clearbody db3. rewrite Hnews in *.
    apply Forall_app. split.
    + apply Hc; [|done]. intros k i Hx. rewrite existsb_app, R2.
      by rewrite (identity_existsb _ _ _ _ _ (update_identity (holds_claim row) f _ Hf)), Hx.
    + eapply Forall_impl; [exact C|]. intros x Hx Ht. rewrite existsb_app, (Hx Ht). by rewrite orb_true_r.
Qed.

Lemma markRetryOrTerminal_good now db row reason delay horizon db' res : issued db row ->
  markRetryOrTerminal gen_random_uuid now db row reason delay horizon = Ok (db', res) ->
  good db db' [] /\ res <> p_done.
Proof.
  intros Hk H. unfold markRetryOrTerminal in H. destruct (_ || _); inv_ok.
  - split; [by eapply markTerminal_good|done].
  - apply fenced_update_spec in Em as [_ ->]. split; [|done].
    eapply good_update with (p := holds_claim row); [|done|done| |discriminate]; [by intros r|].
    intros _. rewrite dones_update, app_nil_r; [done|]. intros r Hr. apply holds_claim_spec in Hr as (_ & _ & ->). by split.
Qed.

(** The id an outcome commits. *)
Definition committed (row : EffectRow) (res : ProcessResult) : list string :=
  if bool_decide (res = p_done) then [ef_id row] else [].

Lemma done_good db row v db' : fenced_update db row (done_row v) = Ok db' -> good db db' [ef_id row].
Proof.
  intros H. apply fenced_update_spec in H as [Hex ->].
  apply good_update with (holds_claim row) (done_row v); [by intros r|done|done| |discriminate].
  intros Hnd. by apply dones_commit.
Qed.

Lemma applyOutcome_good now db row out db' res : issued db row ->
  applyOutcome gen_random_uuid now db row out = Ok (db', res) -> good db db' (committed row res).
Proof.
  intros Hk H. unfold applyOutcome in H. unfold committed. destruct out as [|v|reason delay horizon|reason].
  - inv_ok. by eapply done_good.
  - inv_ok. by eapply done_good.
  - apply markRetryOrTerminal_good in H as [G Hr]; [|done]. by rewrite bool_decide_eq_false_2.
  - inv_ok. by eapply markTerminal_good.
Qed.

Lemma issued_same db x y : identity x = identity y -> issued db x -> issued db y.
Proof.
  intros E [H1 H2]. injection E as Ei Ek Eo Ee. split; [by rewrite <- Ei|]. intros r Hr Hid. rewrite H2; [|done|congruence].
  unfold identity. by rewrite Ei, Ek, Eo, Ee.
Qed.


(** ** Transactions *)

Lemma run_inline_good now acc row acc' : run_inline gen_random_uuid handlers now acc row = Ok acc' ->
  exists l, snd acc' = snd acc ++ l /\ good (fst (fst acc)) (fst (fst acc')) l.
Proof.
  destruct acc as [[db d] applied]. unfold run_inline. intros H.
  destruct (handlers (ef_kind row)) as [[run|call complete]|]; [|injection H as <-; exists []; rewrite app_nil_r; split; [done|apply good_refl]|discriminate].
  destruct (List.find _ (fx_rows db)) as [r|] eqn:Ef; [|injection H as <-; exists []; rewrite app_nil_r; split; [done|apply good_refl]].
  apply find_elem in Ef as [Hin Hr]. bool_props. inv_ok. destruct a0 as [db2 res]. cbn [fst snd] in *.
  match goal with H1 : String.eqb _ _ = true |- _ => apply String.eqb_eq in H1; rename H1 into Hid end.
  set (f := claim_row now (gen_random_uuid (fx_fresh db))) in *. set (p := fun r => _ && _) in *.
  match goal with H1 : applyOutcome _ _ ?x _ _ = _ |- _ => set (db1 := x) in *; rename H1 into Ho end.
  exists (committed r res). split.
  { cbn. unfold committed. rewrite Hid. destruct (bool_decide (res = p_done)); [done|]. by rewrite app_nil_r. }
  intros Hok Hrev. pose proof (issued_elem _ _ Hok Hin) as Hi.
  assert (G1 : good db db1 []).
  { apply good_update with p f; [by intros x|done|cbn; lia| |discriminate]. intros _. rewrite dones_update, app_nil_r; [done|].
    intros x Hx. unfold p in Hx. bool_props. match goal with H1 : status_is fx_pending x = true |- _ => apply bool_decide_eq_true_1 in H1; rewrite H1 end. by split. }
  assert (Hi1 : issued db1 (f r)) by (apply (issued_same _ r); [done|]; by apply (G1 Hok Hrev)).
  pose proof (applyOutcome_good _ _ _ _ _ _ Hi1 Ho) as G2. exact (good_trans _ _ _ _ _ G1 G2 Hok Hrev).
Qed.

Lemma executeEffectsNow_good now db d ids db' d' applied :
  executeEffectsNow gen_random_uuid handlers now db d ids = Ok (db', d', applied) -> good db db' applied.
Proof.
  unfold executeEffectsNow. intros H.
  assert (X : forall rows acc acc', fold_result (run_inline gen_random_uuid handlers now) acc rows = Ok acc' ->
    exists l, snd acc' = snd acc ++ l /\ good (fst (fst acc)) (fst (fst acc')) l).
  { induction rows as [|r rs IH]; intros acc acc' Hf; cbn [fold_result] in Hf; inv_ok.
    - exists []. rewrite app_nil_r. split; [done|apply good_refl].
    - apply run_inline_good in Em as (l1 & E1 & G1). apply IH in Hf as (l2 & E2 & G2).
      exists (l1 ++ l2). split; [by rewrite E2, E1, app_assoc|by eapply good_trans]. }
  apply X in H as (l & E & G). cbn in *. by subst.
Qed.

Lemma settle_tx_spec db (d : D) r db' d' out : settle_tx db d r = (db', d', out) ->
  (exists res, r = Ok (db', d', res) /\ out = tx_committed res) \/ (db' = db /\ d' = d /\ out <> tx_committed p_done).
Proof.
  unfold settle_tx. destruct r as [[[a b] res]|[|m]]; intros [= <- <- <-]; [left; eauto|right; done|right; done].
Qed.

Lemma claimedRow_elem db effect cur : claimedRow db effect = Some cur -> cur ∈ fx_rows db /\ ef_id cur = ef_id effect.
Proof. intros H. apply find_elem in H as [H1 H2]. by apply holds_claim_spec in H2 as (? & _). Qed.

Lemma local_tx_good now db (d : D) e run db' d' out : local_tx gen_random_uuid now db d e run = (db', d', out) ->
  good db db' (done_label e out).
Proof.
  unfold local_tx. intros H. destruct (claimedRow db e) as [cur|] eqn:Ec; [|injection H as <- <- <-; apply good_refl].
  apply claimedRow_elem in Ec as [Hin Hid]. intros Hok Hrev.
  apply settle_tx_spec in H as [(res & H & ->)|(-> & -> & Hout)].
  - inv_ok. destruct a0 as [db2 res2]. cbn [fst snd] in *.
    replace (done_label e (tx_committed res2)) with (committed cur res2); [|unfold committed; rewrite Hid; by destruct res2].
    by eapply applyOutcome_good; eauto using issued_elem.
  - replace (done_label e out) with (@nil string); [by apply good_refl|]. destruct out as [| |[]]; done.
Qed.

Lemma add_receipt_good db id ref : good db (add_receipt db id ref) [].
Proof. intros [A B] R. split; [|split; [done|by intros row]]. split; [done|]. split; [done|]. by rewrite app_nil_r. Qed.

Lemma external_commit_good now db (d : D) e complete ref db' d' out :
  external_commit gen_random_uuid now db d e complete ref = (db', d', out) -> good db db' (done_label e out).
Proof.
  unfold external_commit. intros H. destruct (claimedRow db e) as [cur|] eqn:Ec; [|injection H as <- <- <-; apply good_refl].
  apply claimedRow_elem in Ec as [Hin Hid]. intros Hok Hrev.
  apply settle_tx_spec in H as [(res & H & ->)|(-> & -> & Hout)].
  - inv_ok. destruct a0 as [db2 res2]. cbn [fst snd] in *.
    replace (done_label e (tx_committed res2)) with (committed cur res2); [|unfold committed; rewrite Hid; by destruct res2].
    pose proof (add_receipt_good db (ef_id e) ref) as G1.
    assert (G2 : good (add_receipt db (ef_id e) ref) db2 (committed cur res2)).
    { eapply applyOutcome_good; [|eassumption]. apply (G1 Hok Hrev). by apply issued_elem. }
    exact (good_trans _ _ _ _ _ G1 G2 Hok Hrev).
  - replace (done_label e out) with (@nil string); [by apply good_refl|]. destruct out as [| |[]]; done.
Qed.

Lemma failClaimed_good now db e reason : issued db e -> good db (fst (failClaimed gen_random_uuid now db e reason)) [].
Proof.
  intros Hi. unfold failClaimed. destruct (markRetryOrTerminal _ _ _ _ _ _ _) as [[db' res]|] eqn:E; [|apply good_refl].
  by apply markRetryOrTerminal_good in E as [G _].
Qed.

Lemma requeue_good now db id : good db (fst (requeueTerminalEffect now db id)) [].
Proof.
  unfold requeueTerminalEffect. cbn [fst]. set (p := fun r => _ && _).
  apply good_update with p (release_row fx_pending 0 now None None); [by intros r|done|done| |discriminate].
  intros _. rewrite dones_update, app_nil_r; [done|]. intros r Hr. unfold p in Hr. bool_props.
  match goal with H1 : status_is fx_terminal r = true |- _ => apply bool_decide_eq_true_1 in H1; rewrite H1 end. by split.
Qed.

Lemma dones_annotate p g h rows : dones (update_where p (fun r => annotate_row (g r) (h r) r) rows) = dones rows.
Proof.
  unfold dones, update_where. induction rows as [|r rs IH]; cbn; [done|]. unfold status_is in *.
  destruct (p r); cbn; destruct (bool_decide _); cbn; by rewrite IH.
Qed.

Lemma annotate_good db p g h : good db (with_fx_rows db (update_where p (fun r => annotate_row (g r) (h r) r) (fx_rows db))) [].
Proof.
  eapply good_update with (f := fun r => annotate_row (g r) (h r) r); [by intros r|done|done| |done].
  intros _. by rewrite dones_annotate, app_nil_r.
Qed.

(** ** Claims *)

Definition in_ids (ids : list string) (r : EffectRow) : bool := existsb (String.eqb (ef_id r)) ids.

Lemma in_ids_spec ids r : in_ids ids r = true <-> ef_id r ∈ ids.
Proof.
  unfold in_ids. rewrite existsb_exists. split.
  - intros (x & Hx & E). apply String.eqb_eq in E. rewrite E. by apply list_elem_of_In.
  - intros H. exists (ef_id r). split; [by apply list_elem_of_In|apply String.eqb_refl].
Qed.

Lemma claim_rows_identity now ids n rows : map identity (claim_rows gen_random_uuid now ids n rows) = map identity rows.
Proof. revert n. induction rows as [|r rs IH]; intros n; cbn; [done|]. rewrite IH. by destruct (existsb _ ids). Qed.

(** Each row is kept, or claimed with a token of its own. *)
Lemma claim_rows_elem now ids n rows r' : r' ∈ claim_rows gen_random_uuid now ids n rows ->
  exists r, r ∈ rows /\ ((in_ids ids r = false /\ r' = r) \/
    (in_ids ids r = true /\ exists k, (n <= k < n + length rows)%nat /\ r' = claim_row now (gen_random_uuid k) r)).
Proof.
  revert n. induction rows as [|r rs IH]; intros n H; cbn in H; [by apply not_elem_of_nil in H|].
  apply elem_of_cons in H as [->|H].
  - exists r. split; [left|]. fold (in_ids ids r). destruct (in_ids ids r) eqn:E; [right|by left].
    split; [done|]. exists n. cbn. split; [lia|done].
  - apply IH in H as (x & Hx & [Hl|(Hc & k & Hk & E)]); exists x; (split; [by right|]); [by left|right].
    split; [done|]. exists k. cbn. split; [lia|done].
Qed.

Lemma claim_rows_tokens now ids n rows :
  NoDup (map ef_claimToken (List.filter (in_ids ids) (claim_rows gen_random_uuid now ids n rows))).
Proof.
  revert n. induction rows as [|r rs IH]; intros n; cbn; [constructor|]. fold (in_ids ids r).
  destruct (in_ids ids r) eqn:E.
  - change (in_ids ids (claim_row now (gen_random_uuid n) r)) with (in_ids ids r). rewrite E. cbn. constructor; [|apply IH].
    intros Hin. apply list_elem_of_fmap in Hin as (r' & Et & Hin). apply list_elem_of_In, filter_In in Hin as [Hin Hids].
    apply list_elem_of_In, claim_rows_elem in Hin as (x & Hx & [(Hf & ->)|(Hc & k & Hk & ->)]); [congruence|].
    cbn in Et. injection Et as Et. apply Hinj in Et. lia.
  - rewrite E. apply IH.
Qed.

Lemma claim_ids_sound now locked limit rows i : i ∈ claim_ids now locked limit rows ->
  exists c, c ∈ rows /\ ef_id c = i /\ claimable now locked rows c = true.
Proof.
  unfold claim_ids. intros H. apply list_elem_of_fmap in H as (c & -> & H). apply elem_of_take in H as (k & H & _).
  apply list_elem_of_lookup_2 in H. rewrite sort_stable_perm in H. apply list_elem_of_In, filter_In in H as [H1 H2].
  exists c. split; [by apply list_elem_of_In|done].
Qed.

Lemma due_open now r : due now r = true -> ef_status r = fx_pending \/ ef_status r = fx_processing.
Proof.
  unfold due, status_is. intros H. apply orb_true_iff in H as [H|H]; bool_props; [left|right]; by eapply bool_decide_eq_true_1.
Qed.

Lemma claimed_open now locked limit db r : fx_ok db -> r ∈ fx_rows db ->
  in_ids (claim_ids now locked limit (fx_rows db)) r = true ->
  claimable now locked (fx_rows db) r = true.
Proof.
  intros Hok Hr Hi. apply in_ids_spec, claim_ids_sound in Hi as (c & Hc & Hid & Hcl).
  pose proof (proj2 (issued_elem _ _ Hok Hr) c Hc Hid) as E.
  assert (r = c) as ->; [|done]. clear -Hok Hr Hc Hid. destruct Hok as [A _].
  apply list_elem_of_lookup in Hr as [i Hi]. apply list_elem_of_lookup in Hc as [j Hj].
  assert (i = j) as ->; [|congruence]. eapply (NoDup_lookup (map ef_id (fx_rows db))); [done| |];
    rewrite list_lookup_fmap, ?Hi, ?Hj; cbn; [done|by rewrite Hid].
Qed.

Lemma dones_claim now ids n rows : (forall r, r ∈ rows -> in_ids ids r = true -> ef_status r <> fx_done) ->
  dones (claim_rows gen_random_uuid now ids n rows) = dones rows.
Proof.
  revert n. induction rows as [|r rs IH]; intros n H; [done|]. specialize (IH (S n) (fun x Hx => H x (list_elem_of_further x r rs Hx))).
  unfold dones in *. cbn. fold (in_ids ids r). destruct (in_ids ids r) eqn:E.
  - assert (status_is fx_done r = false) as -> by (unfold status_is; rewrite bool_decide_eq_false_2; [done|apply H; [left|done]]).
    exact IH.
  - destruct (status_is fx_done r); cbn; by rewrite IH.
Qed.

Lemma claim_good now locked limit db : good db (fst (claimDueEffects gen_random_uuid now locked limit db)) [].
Proof.
  intros Hok Hrev. unfold claimDueEffects. cbn [fst]. set (ids := claim_ids now locked limit (fx_rows db)).
  pose proof (claim_rows_identity now ids (fx_fresh db) (fx_rows db)) as Hi. set (rows := claim_rows _ _ _ _ _) in *.
  assert (Hop : forall r, r ∈ fx_rows db -> in_ids ids r = true -> ef_status r = fx_pending \/ ef_status r = fx_processing).
  { intros r Hr Hin. pose proof (claimed_open _ _ _ _ _ Hok Hr Hin) as Hc. unfold claimable in Hc. bool_props. by eapply due_open. }
  split; [split; [|cbn; split; [lia|]]|split].
  - destruct Hok as [A B]. constructor; cbn; rewrite (identity_ids _ _ Hi); [done|].
    eapply Forall_impl; [exact B|]. intros i (k & Hk & ->). exists k. split; [lia|done].
  - fold (dones rows). unfold rows. rewrite dones_claim, app_nil_r; [done|]. intros r Hr Hin. destruct (Hop r Hr Hin) as [->| ->]; done.
  - unfold reviewed, covered in *. cbn. apply Forall_forall. intros r' Hr' Ht. rewrite (identity_existsb _ _ _ _ _ Hi).
    apply claim_rows_elem in Hr' as (r & Hr & [(_ & ->)|(_ & k & _ & ->)]); [|discriminate].
    rewrite Forall_forall in Hrev. by apply Hrev.
  - intros row [(k & Hk & E) H]. split; [exists k; split; [cbn; lia|done]|]. cbn. intros r' Hr' Hid.
    apply claim_rows_elem in Hr' as (r & Hr & [(_ & ->)|(_ & j & _ & ->)]); [by apply H|]. by apply (H r).
Qed.

(** ** The invariant of the concurrent system *)

Definition job_token (j : Job) : option string := ef_claimToken (job_row j).
Record sys_ok (tr : list string) (s : FxSys (D := D)) : Prop := {
  so_db : fx_ok (sy_db s);
  so_reviewed : reviewed (fx_rows (sy_db s));
  so_trace : dones (fx_rows (sy_db s)) ≡ₚ tr;
  so_issued : Forall (fun j => issued (sy_db s) (job_row j)) (sy_jobs s);
  so_tokens : NoDup (map job_token (sy_jobs s));
  so_used : Forall (fun j => exists k, (k < fx_fresh (sy_db s))%nat /\ job_token j = Some (gen_random_uuid k)) (sy_jobs s)
}.

(** Jobs that come from earlier ones (none added, tokens and rows kept). *)
Lemma sys_ok_move tr db d jobs db' d' jobs' l :
  sys_ok tr {| sy_db := db; sy_d := d; sy_jobs := jobs |} -> good db db' l ->
  (exists rest, map job_row jobs ≡ₚ map job_row jobs' ++ rest) ->
  sys_ok (tr ++ l) {| sy_db := db'; sy_d := d'; sy_jobs := jobs' |}.
Proof.
  intros [A B C E F G] Hg [rest Hp]. cbn in *. destruct (Hg A B) as ((A' & Hle & P) & B' & I). constructor; cbn; [done|done| | | |].
  - by rewrite P, C.
  - rewrite <- (Forall_map job_row (issued db')). rewrite <- (Forall_map job_row (issued db)) in E.
    rewrite Hp, Forall_app in E. eapply Forall_impl; [apply E|]. done.
  - change (map job_token) with (map (fun j => ef_claimToken (job_row j))) in *. rewrite <- map_map in F |- *.
    rewrite Hp, map_app in F. by apply NoDup_app in F as (F & _).
  - rewrite <- (Forall_map job_row (fun e => exists k, (k < fx_fresh db)%nat /\ ef_claimToken e = Some (gen_random_uuid k))) in G.
    rewrite Hp, Forall_app in G. destruct G as [G _].
    apply (Forall_map job_row (fun e => exists k, (k < fx_fresh db')%nat /\ ef_claimToken e = Some (gen_random_uuid k))).
    eapply Forall_impl; [exact G|]. intros e (k & Hk & Ek). exists k. split; [lia|done].
Qed.

Lemma jobs_replaced jobs1 jobs2 j js : map job_row js ⊆+ [job_row j] ->
  exists rest, map job_row (jobs1 ++ j :: jobs2) ≡ₚ map job_row (jobs1 ++ js ++ jobs2) ++ rest.
Proof.
  intros H. rewrite !map_app. cbn [map]. destruct js as [|j1 js].
  - exists [job_row j]. cbn. by rewrite <- Permutation_middle, <- Permutation_cons_append.
  - exists []. rewrite app_nil_r. apply Permutation_app_head. cbn [map] in *.
    apply submseteq_length_Permutation in H; [|cbn; lia]. change (job_row j :: map job_row jobs2) with ([job_row j] ++ map job_row jobs2).
    by rewrite <- H.
Qed.

Lemma sys_ok_claim tr db d jobs now locked limit :
  sys_ok tr {| sy_db := db; sy_d := d; sy_jobs := jobs |} ->
  sys_ok (tr ++ []) {| sy_db := fst (claimDueEffects gen_random_uuid now locked limit db); sy_d := d;
                       sy_jobs := jobs ++ map j_claimed (snd (claimDueEffects gen_random_uuid now locked limit db)) |}.
Proof.
  intros [A B C E F G]. cbn in A, B, C, E, F, G. destruct (claim_good now locked limit db A B) as ((A' & Hle & P) & B' & I).
  set (ids := claim_ids now locked limit (fx_rows db)).
  set (claimed := snd (claimDueEffects gen_random_uuid now locked limit db)) in *.
  set (rows := claim_rows gen_random_uuid now ids (fx_fresh db) (fx_rows db)).
  assert (Hc : claimed ≡ₚ List.filter (in_ids ids) rows) by (unfold claimed, claimDueEffects; apply sort_stable_perm).
  assert (Hel : forall r', r' ∈ claimed -> r' ∈ rows /\ exists k, (fx_fresh db <= k < fx_fresh db + length (fx_rows db))%nat /\
     ef_claimToken r' = Some (gen_random_uuid k)).
  { intros r' Hr'. rewrite Hc in Hr'. apply list_elem_of_In, filter_In in Hr' as [Hr' Hin]. apply list_elem_of_In in Hr'.
    split; [done|]. apply claim_rows_elem in Hr' as (r & Hr & [(Hf & ->)|(_ & k & Hk & ->)]); [congruence|]. by exists k. }
  set (db' := fst (claimDueEffects gen_random_uuid now locked limit db)) in *.
  assert (Hrows : fx_rows db' = rows) by done.
  assert (Hfresh : fx_fresh db' = (fx_fresh db + length (fx_rows db))%nat) by done. clearbody db' claimed.
  constructor; cbn; [exact A'|exact B'| | | |].
  - by rewrite P, C.
  - apply Forall_app. split; [eapply Forall_impl; [exact E|]; intros j; apply I|].
    apply Forall_map, Forall_forall. intros r' Hr'. cbn. apply issued_elem; [done|]. rewrite Hrows. by apply Hel.
  - rewrite map_app. apply NoDup_app. split; [done|]. split.
    + intros t Ht Ht2. apply list_elem_of_fmap in Ht as (j & -> & Hj). rewrite Forall_forall in G.
      destruct (G j Hj) as (k & Hk & Ek). rewrite map_map in Ht2. apply list_elem_of_fmap in Ht2 as (r' & Er & Hr').
      destruct (Hel r' Hr') as (_ & k' & Hk' & Ek'). cbn in Er. rewrite Er in Ek. unfold job_token in Ek. cbn in Ek.
      rewrite Ek' in Ek. injection Ek as Ek. apply Hinj in Ek. lia.
    + rewrite map_map. unfold job_token. cbn. rewrite Hc. apply claim_rows_tokens.
  - apply Forall_app. split.
    + eapply Forall_impl; [exact G|]. intros j (k & Hk & Ek). exists k. split; [lia|done].
    + apply Forall_map, Forall_forall. intros r' Hr'. destruct (Hel r' Hr') as (_ & k & Hk & Ek).
      exists k. split; [rewrite Hfresh; lia|done].
Qed.

Lemma fx_step_ok tr s l s' : sys_ok tr s -> fx_step gen_random_uuid handlers s l s' -> sys_ok (tr ++ l) s'.
Proof.
  intros Hs Hst. destruct Hst; cbn [fst snd] in *.
  - eapply sys_ok_move; [exact Hs|apply good_refl|]. exists []. by rewrite app_nil_r.
  - eapply sys_ok_move; [exact Hs|apply enqueueEffects_good|]. exists []. by rewrite app_nil_r.
  - eapply sys_ok_move; [exact Hs|by eapply executeEffectsNow_good|]. exists []. by rewrite app_nil_r.
  - by apply sys_ok_claim.
  - eapply sys_ok_move; [exact Hs|apply good_refl|]. by apply (jobs_replaced _ _ _ [_]).
  - eapply sys_ok_move; [exact Hs|by eapply local_tx_good|]. apply jobs_replaced. destruct out; cbn; auto using submseteq_nil_l.
  - eapply sys_ok_move; [exact Hs|apply good_refl|]. apply jobs_replaced. destruct (external_lookup db e); cbn; auto using submseteq_nil_l.
  - eapply sys_ok_move; [exact Hs|apply good_refl|]. apply (jobs_replaced _ _ _ [_]). by destruct answer.
  - eapply sys_ok_move; [exact Hs|by eapply external_commit_good|]. apply jobs_replaced. destruct out; cbn; auto using submseteq_nil_l.
  - eapply sys_ok_move; [exact Hs|apply failClaimed_good|apply (jobs_replaced _ _ _ []), submseteq_nil_l].
    destruct Hs as [_ _ _ E _ _]. cbn in E. rewrite Forall_app in E. destruct E as [_ E]. by inversion E.
  - eapply sys_ok_move; [exact Hs|apply good_refl|apply (jobs_replaced _ _ _ []), submseteq_nil_l].
  - eapply sys_ok_move; [exact Hs|apply requeue_good|]. exists []. by rewrite app_nil_r.
  - eapply sys_ok_move; [exact Hs|apply (annotate_good db _ (fun r => merge_payload (ef_payload r) approval) ef_resolution)|].
    exists []. by rewrite app_nil_r.
  - eapply sys_ok_move; [exact Hs|apply (annotate_good db _ ef_payload (fun _ => Some resolution))|].
    exists []. by rewrite app_nil_r.
Qed.

Lemma fx_run_ok d0 tr s : fx_run gen_random_uuid handlers d0 tr s -> sys_ok tr s.
Proof.
  induction 1 as [|tr s l s' _ IH Hst]; [|by eapply fx_step_ok].
  constructor; cbn; try constructor; cbn; constructor.
Qed.

Lemma claim_length now locked limit db : fx_ok db ->
  (length (snd (claimDueEffects gen_random_uuid now locked limit db)) <= limit)%nat.
Proof.
  intros [A _]. unfold claimDueEffects. cbn [snd]. rewrite sort_stable_perm.
  set (ids := claim_ids now locked limit (fx_rows db)). set (rows := claim_rows _ _ _ _ _).
  assert (Hids : (length ids <= limit)%nat) by (unfold ids, claim_ids; rewrite length_map, length_take; lia).
  etransitivity; [|exact Hids]. rewrite <- (length_map ef_id). apply submseteq_length, NoDup_submseteq.
  - assert (Hnd : NoDup (map ef_id rows)) by (unfold rows; by rewrite (identity_ids _ _ (claim_rows_identity _ _ _ _))).
    clear -Hnd. induction rows as [|r rs IH]; cbn in *; [constructor|]. inversion Hnd as [|? ? Hr Hrs]; subst.
    destruct (existsb _ ids); cbn; [|auto]. constructor; [|auto]. intros Hin. apply Hr.
    apply list_elem_of_fmap in Hin as (x & -> & Hx). apply list_elem_of_In, filter_In in Hx as [Hx _].
    rewrite list_elem_of_In. by apply in_map.
  - intros x Hx. apply list_elem_of_fmap in Hx as (r & -> & Hx). apply list_elem_of_In, filter_In in Hx as [_ Hx].
    by apply in_ids_spec.
Qed.

(** ** Theorems *)

(** C20: Exactly once. However workers claim, crash, are overtaken and retry, and
    whatever providers answer, every effect commits its [done] outcome (with the
    mutations of its handler in the same transaction) at most once over the whole
    run, and exactly the effects that read [done] have. *)
Theorem effects_exactly_once d0 tr s : fx_run gen_random_uuid handlers d0 tr s ->
  NoDup tr /\ forall id, id ∈ tr <-> exists r, r ∈ fx_rows (sy_db s) /\ ef_id r = id /\ ef_status r = fx_done.
Proof.
  intros H. apply fx_run_ok in H as [[A _] _ C _ _ _]. split.
  - rewrite <- C. unfold dones. clear -A. induction (fx_rows (sy_db s)) as [|r rs IH]; cbn in *; [constructor|].
    inversion A as [|? ? Hr Hrs]; subst. destruct (status_is fx_done r); cbn; [|auto]. constructor; [|auto].
    intros Hin. apply Hr. apply list_elem_of_fmap in Hin as (x & -> & Hx). apply list_elem_of_In, filter_In in Hx as [Hx _].
    rewrite list_elem_of_In. by apply in_map.
  - intros id. rewrite <- C. unfold dones. split.
    + intros Hin. apply list_elem_of_fmap in Hin as (r & -> & Hr). apply list_elem_of_In, filter_In in Hr as [Hr Hst].
      exists r. split; [by apply list_elem_of_In|]. split; [done|]. by eapply bool_decide_eq_true_1.
    + intros (r & Hr & <- & Hst). rewrite list_elem_of_In. apply in_map, filter_In.
      split; [by apply list_elem_of_In|]. unfold status_is. by rewrite Hst.
Qed.

(** Mutual exclusion. Two live jobs never both hold the claim of the same
    effect: once a stale claim has been taken over, the former owner's token no
    longer matches and every write of it is fenced. *)
Theorem one_live_claim d0 tr s i j e1 e2 : fx_run gen_random_uuid handlers d0 tr s -> i <> j ->
  map job_row (sy_jobs s) !! i = Some e1 -> map job_row (sy_jobs s) !! j = Some e2 ->
  is_Some (claimedRow (sy_db s) e1) -> is_Some (claimedRow (sy_db s) e2) -> ef_id e1 <> ef_id e2.
Proof.
  intros H Hij Hi Hj [c1 H1] [c2 H2] Heq. apply fx_run_ok in H as [Hok _ _ _ F _].
  apply find_elem in H1 as [I1 K1]. apply find_elem in H2 as [I2 K2].
  destruct (holds_claim_spec _ _ K1) as (D1 & T1 & _). destruct (holds_claim_spec _ _ K2) as (D2 & T2 & _).
  assert (c1 = c2) as ->.
  { destruct Hok as [A _]. apply list_elem_of_lookup in I1 as [a Ha]. apply list_elem_of_lookup in I2 as [b Hb].
    assert (a = b) as ->; [|congruence]. eapply (NoDup_lookup (map ef_id (fx_rows (sy_db s)))); [done| |];
      rewrite list_lookup_fmap, ?Ha, ?Hb; cbn; [done|congruence]. }
  apply Hij. rewrite list_lookup_fmap in Hi, Hj.
  destruct (sy_jobs s !! i) as [ji|] eqn:Ji; [|discriminate]. destruct (sy_jobs s !! j) as [jj|] eqn:Jj; [|discriminate].
  cbn in Hi, Hj. injection Hi as Hi. injection Hj as Hj.
  eapply (NoDup_lookup (map job_token (sy_jobs s))); [done| |]; rewrite list_lookup_fmap, ?Ji, ?Jj; cbn; [done|].
  f_equal. unfold job_token. congruence.
Qed.

(** Nothing is given up silently: in every reachable state an effect that
    became [terminal] has a review task for its operation, unless it is one. *)
Theorem terminal_effects_reviewed d0 tr s r : fx_run gen_random_uuid handlers d0 tr s ->
  r ∈ fx_rows (sy_db s) -> ef_status r = fx_terminal ->
  exists review, review ∈ fx_rows (sy_db s) /\ ef_kind review = "admin_review"%string /\
    ef_operationKind review = ef_operationKind r /\ ef_operationId review = ef_operationId r.
Proof.
  intros H Hr Ht. apply fx_run_ok in H as [_ B _ _ _ _]. unfold reviewed, covered in B. rewrite Forall_forall in B.
  specialize (B r Hr Ht). apply existsb_exists in B as (x & Hx & Hi). exists x. split; [by apply list_elem_of_In|].
  unfold same_identity in Hi. bool_props. by repeat match goal with H : String.eqb _ _ = true |- _ => apply String.eqb_eq in H end.
Qed.

(** Rank gating. Whatever the claim order, a worker is handed only effects
    that are due and unlocked, at most [limit] of them, in rank order, and never
    one that an earlier-rank sibling of the same operation still precedes, whether
    that sibling is outside the batch or in it. *)
Theorem claims_respect_ranks d0 tr s now locked limit c : fx_run gen_random_uuid handlers d0 tr s ->
  let claimed := snd (claimDueEffects gen_random_uuid now locked limit (sy_db s)) in
  c ∈ claimed -> (length claimed <= limit)%nat /\ locked (ef_id c) = false /\
  (exists r, r ∈ fx_rows (sy_db s) /\ identity r = identity c /\ due now r = true) /\
  (forall p, p ∈ fx_rows (sy_db s) -> ef_id p <> ef_id c -> same_operation_row p c = true -> is_open p = true ->
     is_review (ef_kind p) = false -> (effectRank (ef_kind c) <= effectRank (ef_kind p))%nat).
Proof.
  intros H claimed Hc. apply fx_run_ok in H as [Hok _ _ _ _ _]. set (db := sy_db s) in *.
  set (ids := claim_ids now locked limit (fx_rows db)).
  assert (Hcl : claimed ≡ₚ List.filter (in_ids ids) (claim_rows gen_random_uuid now ids (fx_fresh db) (fx_rows db)))
    by apply sort_stable_perm.
  split; [by apply claim_length|]. rewrite Hcl in Hc. apply list_elem_of_In, filter_In in Hc as [Hc Hin].
  apply list_elem_of_In, claim_rows_elem in Hc as (r & Hr & [(Hf & ->)|(Hi & k & _ & ->)]); [congruence|].
  pose proof (claimed_open _ _ _ _ _ Hok Hr Hi) as Hop. unfold claimable in Hop. bool_props.
  split; [done|]. split; [by exists r|]. intros p Hp Hid Hso Hopen Hrev.
  match goal with H : existsb (blocks r) _ = false |- _ => rename H into Hb end.
  apply Nat.nlt_ge. intros Hlt. assert (existsb (blocks r) (fx_rows db) = true); [|congruence].
  apply existsb_exists. exists p. split; [by apply list_elem_of_In|]. unfold blocks.
  change (same_operation_row p r = true) in Hso. change (ef_id p <> ef_id r) in Hid.
  change (effectRank (ef_kind p) < effectRank (ef_kind r))%nat in Hlt.
  rewrite Hso, Hopen, Hrev, (proj2 (Nat.ltb_lt _ _) Hlt). cbn. by rewrite (proj2 (String.eqb_neq _ _) Hid).
Qed.

Lemma backoff_bounds n : 60 <= backoffSeconds n <= 3600.
Proof.
  unfold backoffSeconds. assert (2 ^ 1 <= 2 ^ Z.max n 1) by (apply Z.pow_le_mono_r; lia). lia.
Qed.

Lemma backoff_mono n m : n <= m -> backoffSeconds n <= backoffSeconds m.
Proof.
  intros H. unfold backoffSeconds. assert (2 ^ Z.max n 1 <= 2 ^ Z.max m 1) by (apply Z.pow_le_mono_r; lia). lia.
Qed.

Lemma fenced_update_ok db e f : e ∈ fx_rows db -> ef_status e = fx_processing ->
  fenced_update db e f = Ok (with_fx_rows db (update_where (holds_claim e) f (fx_rows db))) /\ holds_claim e e = true.
Proof.
  intros Hin Hst. assert (Hh : holds_claim e e = true).
  { unfold holds_claim, status_is. by rewrite String.eqb_refl, bool_decide_eq_true_2, Hst. }
  split; [|done]. unfold fenced_update. replace (existsb (holds_claim e) (fx_rows db)) with true; [done|].
  symmetry. apply existsb_exists. exists e. split; [by apply list_elem_of_In|done].
Qed.

Lemma update_where_elem p f rows r : r ∈ rows -> p r = true -> f r ∈ update_where p f rows.
Proof. intros Hr Hp. unfold update_where. apply list_elem_of_fmap. exists r. by rewrite Hp. Qed.

(** The retry policy is bounded. A failure of a claimed effect is recorded
    under its claim: below eight attempts the row goes back to the queue with its
    claim dropped and a delay between one minute and one hour that never shrinks
    from attempt to attempt; from the eighth attempt on it is terminal. *)
Theorem failures_retire now db e reason : e ∈ fx_rows db -> ef_status e = fx_processing ->
  let q := failClaimed gen_random_uuid now db e reason in
  (ef_attempts e < MAX_ATTEMPTS -> snd q = p_retry /\
     exists r, r ∈ fx_rows (fst q) /\ identity r = identity e /\ ef_status r = fx_pending /\ ef_claimToken r = None /\
       ef_lastError r = Some reason /\ ef_attempts r = ef_attempts e /\
       now + 60000 <= ef_nextAttemptAt r <= now + 3600000 /\
       ef_nextAttemptAt r = now + backoffSeconds (ef_attempts e) * 1000) /\
  (MAX_ATTEMPTS <= ef_attempts e -> snd q = p_terminal /\
     exists r, r ∈ fx_rows (fst q) /\ identity r = identity e /\ ef_status r = fx_terminal /\ ef_lastError r = Some reason) /\
  (forall n, n <= ef_attempts e -> backoffSeconds n <= backoffSeconds (ef_attempts e)).
Proof.
  intros Hin Hst. cbn zeta. pose proof (backoff_bounds (ef_attempts e)) as Hb. unfold failClaimed, markRetryOrTerminal. cbn [orb].
  split; [|split; [|intros n; apply backoff_mono]]; intros Ha.
  - rewrite (proj2 (Z.leb_gt _ _) Ha). cbn [andb].
    destruct (fenced_update_ok db e (fun r => release_row fx_pending (ef_attempts r) (now + or_else None (backoffSeconds (ef_attempts e) * 1000))
      (Some reason) (Some (or_else (ef_firstFailedAt e) now)) r) Hin Hst) as [E Hh].
    rewrite E. cbn [bind_result fst snd or_else]. split; [done|].
    eexists. split; [cbn; apply (update_where_elem _ _ _ e Hin Hh)|]. cbn. repeat split; lia.
  - rewrite (proj2 (Z.leb_le _ _) Ha). cbn [andb]. unfold markTerminal.
    match goal with |- context [fenced_update db e ?f] => set (g := f) end.
    destruct (fenced_update_ok db e g Hin Hst) as [E Hh]. rewrite E. cbn [bind_result fst snd].
    set (db1 := with_fx_rows _ _). set (db2 := match List.find _ _ with Some r => _ | None => db1 end).
    assert (R2 : fx_rows db2 = update_where (holds_claim e) g (fx_rows db)) by (unfold db2; by destruct (List.find _ _)).
    assert (Hg : g e ∈ fx_rows db2) by (rewrite R2; by apply update_where_elem).
    destruct (is_review (ef_kind e)); cbn [bind_result fst snd]; (split; [done|]); exists (g e); (split; [|done]); [done|].
    destruct (enqueueEffects_extends now db2 (ef_operationKind e) (ef_operationId e) [review_request e reason]) as (_ & news & -> & _).
    apply elem_of_app. by left.
Qed.
End EngineFacts.

(** * A concrete history *)

Definition sample_uuid (n : nat) : string := String.append "u" (pretty (N.of_nat n)).
#[export] Instance sample_uuid_inj : Inj (=) (=) sample_uuid.
Proof. intros n m H. unfold sample_uuid in H. apply (inj (String.append "u")) in H. by apply (inj pretty), Nat2N.inj in H. Qed.
Definition sample_handlers (kind : string) : option (EffectHandler (D := list string)) :=
  if String.eqb kind "license_issue" then Some (LocalHandler (fun d e => Ok (("issued " ++ ef_operationId e)%string :: d, out_void)))
  else if String.eqb kind "loyalty_earn" then Some (LocalHandler (fun d e => Err "ledger busy"%string))
  else if String.eqb kind "notification" then Some (LocalHandler (fun d e => Ok (d, out_terminal "no recipient"%string)))
  else None.
Definition sample_request (kind : string) : EffectRequest :=
  {| rq_kind := kind; rq_payloadVersion := None; rq_payload := None; rq_resolution := None |}.
Definition sample_db0 : FxDb := {| fx_rows := []; fx_receipts := ∅; fx_alerts := []; fx_fresh := 0 |}.
Definition sample_db1 : FxDb :=
  fst (enqueueEffects sample_uuid 0 sample_db0 "order_paid_transition" "o1" [sample_request "loyalty_earn"; sample_request "license_issue"]).
(** A first worker claims and stalls; a second one reclaims the stale row. *)
Definition sample_claim1 := claimDueEffects sample_uuid 10 (fun _ => false) 50 sample_db1.
Definition sample_claim2 := claimDueEffects sample_uuid 600000 (fun _ => false) 50 (fst sample_claim1).
Definition sample_late : EffectRow := default (new_row sample_uuid sample_db0 0 "" "" (sample_request "")) (head (snd sample_claim1)).
Definition sample_live : EffectRow := default (new_row sample_uuid sample_db0 0 "" "" (sample_request "")) (head (snd sample_claim2)).
Definition sample_run (d : list string) (e : EffectRow) : result string (list string * EffectOutcome) :=
  Ok (("issued " ++ ef_operationId e)%string :: d, out_void).
Definition sample_commit := local_tx sample_uuid 600001 (fst sample_claim2) [] sample_live sample_run.
Definition sample_late_commit := local_tx sample_uuid 600002 (fst (fst sample_commit)) (snd (fst sample_commit)) sample_late sample_run.
(** Both workers' jobs are gone; the licence was issued once, by the live one. *)
Definition sample_end : FxSys (D := list string) :=
  {| sy_db := fst (fst sample_late_commit); sy_d := snd (fst sample_late_commit); sy_jobs := [] |}.
Definition sample_mid : FxSys (D := list string) :=
  {| sy_db := fst sample_claim2; sy_d := []; sy_jobs := [j_claimed sample_late; j_claimed sample_live] |}.

Lemma sample_mid_run : fx_run sample_uuid sample_handlers [] [] sample_mid.
Proof.
  change (@nil string) with ((([] ++ []) ++ []) ++ @nil string) at 2.
  eapply fx_more; [eapply fx_more; [eapply fx_more; [apply fx_init|]|]|].
  - apply step_enqueue with (now := 0) (kind := "order_paid_transition"%string) (id := "o1"%string)
      (requests := [sample_request "loyalty_earn"; sample_request "license_issue"]).
  - apply (step_claim _ _ _ _ _ 10 (fun _ => false) 50).
  - assert (E : sample_mid = {| sy_db := fst sample_claim2; sy_d := [];
      sy_jobs := ([] ++ map j_claimed (snd sample_claim1)) ++ map j_claimed (snd sample_claim2) |}) by (vm_compute; reflexivity).
    rewrite E. apply (step_claim _ _ _ _ _ 600000 (fun _ => false) 50).
Qed.

Lemma sample_end_run : fx_run sample_uuid sample_handlers [] [ef_id sample_live] sample_end.
Proof.
  change [ef_id sample_live] with ((@nil string ++ [ef_id sample_live]) ++ []).
  eapply fx_more; [eapply fx_more; [apply sample_mid_run|]|].
  - apply (step_local _ _ _ _ [j_claimed sample_late] [] sample_live sample_run 600001 (fst (fst sample_commit)) (snd (fst sample_commit)) (snd sample_commit)).
    + vm_compute. reflexivity.
    + fold sample_commit. by destruct sample_commit as [[? ?] ?].
  - apply (step_local _ _ _ _ [] [] sample_late sample_run 600002 _ _ (snd sample_late_commit)).
    + vm_compute. reflexivity.
    + fold sample_late_commit. by destruct sample_late_commit as [[? ?] ?].
Qed.

Lemma effects_exactly_once_witness :
  fx_run sample_uuid sample_handlers [] [ef_id sample_live] sample_end /\ sy_d sample_end = ["issued o1"%string] /\
  (NoDup [ef_id sample_live] /\ forall id, id ∈ [ef_id sample_live] <->
     exists r, r ∈ fx_rows (sy_db sample_end) /\ ef_id r = id /\ ef_status r = fx_done).
Proof.
  split; [exact sample_end_run|]. split; [vm_compute; reflexivity|].
  exact (effects_exactly_once sample_uuid sample_handlers [] [ef_id sample_live] sample_end sample_end_run).
Defined.

(** Two operations, one worker each. *)
Definition sample_two : FxDb :=
  fst (enqueueEffects sample_uuid 0 (fst (enqueueEffects sample_uuid 0 sample_db0 "order_paid_transition" "o1" [sample_request "license_issue"]))
         "order_paid_transition" "o2" [sample_request "license_issue"]).
Definition sample_two_claim := claimDueEffects sample_uuid 10 (fun _ => false) 50 sample_two.
Definition sample_two_sys : FxSys (D := list string) :=
  {| sy_db := fst sample_two_claim; sy_d := []; sy_jobs := [] ++ map j_claimed (snd sample_two_claim) |}.
Lemma sample_two_run : fx_run sample_uuid sample_handlers [] [] sample_two_sys.
Proof.
  change (@nil string) with ((([] ++ []) ++ []) ++ @nil string) at 2.
  eapply fx_more; [eapply fx_more; [eapply fx_more; [apply fx_init|]|]|].
  - apply step_enqueue with (now := 0) (kind := "order_paid_transition"%string) (id := "o1"%string) (requests := [sample_request "license_issue"]).
  - apply step_enqueue with (now := 0) (kind := "order_paid_transition"%string) (id := "o2"%string) (requests := [sample_request "license_issue"]).
  - apply (step_claim _ _ _ _ _ 10 (fun _ => false) 50).
Qed.

Lemma one_live_claim_witness : exists e1 e2,
  map job_row (sy_jobs sample_two_sys) !! 0%nat = Some e1 /\ map job_row (sy_jobs sample_two_sys) !! 1%nat = Some e2 /\
  is_Some (claimedRow (sy_db sample_two_sys) e1) /\ is_Some (claimedRow (sy_db sample_two_sys) e2) /\ ef_id e1 <> ef_id e2.
Proof.
  destruct (map job_row (sy_jobs sample_two_sys) !! 0%nat) as [e1|] eqn:E1; [|vm_compute in E1; discriminate].
  destruct (map job_row (sy_jobs sample_two_sys) !! 1%nat) as [e2|] eqn:E2; [|vm_compute in E2; discriminate].
  assert (H1 : is_Some (claimedRow (sy_db sample_two_sys) e1)) by (vm_compute in E1; injection E1 as <-; vm_compute; eexists; reflexivity).
  assert (H2 : is_Some (claimedRow (sy_db sample_two_sys) e2)) by (vm_compute in E2; injection E2 as <-; vm_compute; eexists; reflexivity).
  exists e1, e2. split; [done|]. split; [done|]. split; [done|]. split; [done|].
  exact (one_live_claim sample_uuid sample_handlers [] [] sample_two_sys 0 1 e1 e2 sample_two_run ltac:(discriminate) E1 E2 H1 H2).
Defined.

(** A handler that keeps failing: the eighth failure gives up. *)
Definition sample_failing : EffectRow :=
  claim_row 0 "t" (release_row fx_pending 7 0 None None (new_row sample_uuid sample_db0 0 "order_paid_transition" "o1" (sample_request "loyalty_earn"))).

Lemma claims_respect_ranks_witness : exists c, c ∈ snd (claimDueEffects sample_uuid 600000 (fun _ => false) 50 (sy_db sample_two_sys)) /\
  let claimed := snd (claimDueEffects sample_uuid 600000 (fun _ => false) 50 (sy_db sample_two_sys)) in
  (length claimed <= 50)%nat /\ false = false /\
  (exists r, r ∈ fx_rows (sy_db sample_two_sys) /\ identity r = identity c /\ due 600000 r = true) /\
  (forall p, p ∈ fx_rows (sy_db sample_two_sys) -> ef_id p <> ef_id c -> same_operation_row p c = true -> is_open p = true ->
     is_review (ef_kind p) = false -> (effectRank (ef_kind c) <= effectRank (ef_kind p))%nat).
Proof.
  destruct (snd (claimDueEffects sample_uuid 600000 (fun _ => false) 50 (sy_db sample_two_sys))) as [|c cs] eqn:E; [vm_compute in E; discriminate|].
  exists c. split; [left|]. rewrite <- E.
  apply (claims_respect_ranks sample_uuid sample_handlers [] [] sample_two_sys 600000 (fun _ => false) 50 c sample_two_run). rewrite E. left.
Defined.

Definition sample_failing_db : FxDb := {| fx_rows := [sample_failing]; fx_receipts := ∅; fx_alerts := []; fx_fresh := 1 |}.
Lemma failures_retire_witness :
  sample_failing ∈ fx_rows sample_failing_db /\ ef_attempts sample_failing = 8 /\
  snd (failClaimed sample_uuid 5 sample_failing_db sample_failing "ledger busy") = p_terminal.
Proof.
  split; [left|]. split; [reflexivity|].
  apply (proj1 (proj2 (failures_retire sample_uuid 5 sample_failing_db sample_failing "ledger busy"%string ltac:(left) eq_refl))). 
  vm_compute. discriminate.
Defined.


(** A precondition that can never hold: the effect gives up and its review appears. *)
Definition sample_note : FxDb := fst (enqueueEffects sample_uuid 0 sample_db0 "order_paid_transition" "o1" [sample_request "notification"]).
Definition sample_note_claim := claimDueEffects sample_uuid 10 (fun _ => false) 50 sample_note.
Definition sample_note_row : EffectRow := default sample_failing (head (snd sample_note_claim)).
Definition sample_note_handler (d : list string) (e : EffectRow) : result string (list string * EffectOutcome) :=
  Ok (d, out_terminal "no recipient"%string).
Definition sample_note_tx := local_tx sample_uuid 11 (fst sample_note_claim) [] sample_note_row sample_note_handler.
Definition sample_note_sys : FxSys (D := list string) :=
  {| sy_db := fst (fst sample_note_tx); sy_d := snd (fst sample_note_tx); sy_jobs := [] |}.
Lemma sample_note_run : fx_run sample_uuid sample_handlers [] [] sample_note_sys.
Proof.
  change (@nil string) with ((([] ++ []) ++ []) ++ @nil string) at 2.
  eapply fx_more; [eapply fx_more; [eapply fx_more; [apply fx_init|]|]|].
  - apply step_enqueue with (now := 0) (kind := "order_paid_transition"%string) (id := "o1"%string) (requests := [sample_request "notification"]).
  - apply (step_claim _ _ _ _ _ 10 (fun _ => false) 50).
  - apply (step_local _ _ _ _ [] [] sample_note_row sample_note_handler 11 (fst (fst sample_note_tx)) (snd (fst sample_note_tx)) (snd sample_note_tx)); [vm_compute; reflexivity|].
    transitivity sample_note_tx; [reflexivity|by destruct sample_note_tx as [[? ?] ?]].
Qed.

Lemma terminal_effects_reviewed_witness : exists r, r ∈ fx_rows (sy_db sample_note_sys) /\ ef_kind r = "notification"%string /\
  ef_status r = fx_terminal /\
  exists review, review ∈ fx_rows (sy_db sample_note_sys) /\ ef_kind review = "admin_review"%string /\
    ef_operationKind review = ef_operationKind r /\ ef_operationId review = ef_operationId r.
Proof.
  destruct (fx_rows (sy_db sample_note_sys)) as [|r rs] eqn:E; [vm_compute in E; discriminate|].
  assert (Hr : ef_kind r = "notification"%string /\ ef_status r = fx_terminal) by (vm_compute in E; injection E as <- _; done).
  exists r. split; [left|]. split; [apply Hr|]. split; [apply Hr|]. rewrite <- E.
  apply (terminal_effects_reviewed sample_uuid sample_handlers [] [] sample_note_sys r sample_note_run); [rewrite E; left|apply Hr].
Defined.
