(* ===== verification/Settlement.v ===== *)
(** The settlement chokepoint:
    [src/packages/api/src/payments/settlement/{ops,record}.ts].

    [SettleDb X] is one store's money tables: orders, payments, settlement
    operations, subscription invoice payments, refunds, edits, audit log and
    e-mail outbox, rows oldest first; [X] stands for every other table. The
    pending-effects table is [Effects.FxDb]. [recordSettlementOperation] runs in
    the caller's transaction under advisory and row locks, so it is one function
    from state to state; [Err] is a throw, after which the caller rolls back.
    Uuids come from [gen_random_uuid] and a counter. What record.ts calls in
    other components (credit posting, reservation consumption, effect handlers)
    is the interface [SettlementDeps]. *)

From S2P Require Import Prelude Json OrderState Tender Effects.
From Stdlib Require Import ZArith QArith Lia Bool String.
From stdpp Require Import base list strings.
Local Open Scope Z_scope.

(** ** ops.ts: the operation table *)

Inductive SettlementKind :=
  | stripe_invoice_paid | payment_settled | payment_state_progress | order_paid_transition | admin_draft_create
  | order_edit_balance_settled | duplicate_capture_recorded | historical_import | synthetic_seed
  | payment_mode_corrected | order_purge | operator_resolution | order_refunded | dispute_opened.
#[export] Instance SettlementKind_eq_dec : EqDecision SettlementKind.
Proof. solve_decision. Defined.

Definition SETTLEMENT_KINDS : list SettlementKind :=
  [stripe_invoice_paid; payment_settled; payment_state_progress; order_paid_transition; admin_draft_create;
   order_edit_balance_settled; duplicate_capture_recorded; historical_import; synthetic_seed;
   payment_mode_corrected; order_purge; operator_resolution; order_refunded; dispute_opened].

(** The text stored in [operation_kind]. *)
Definition kind_text (k : SettlementKind) : string :=
  match k with
  | stripe_invoice_paid => "stripe_invoice_paid" | payment_settled => "payment_settled"
  | payment_state_progress => "payment_state_progress" | order_paid_transition => "order_paid_transition"
  | admin_draft_create => "admin_draft_create" | order_edit_balance_settled => "order_edit_balance_settled"
  | duplicate_capture_recorded => "duplicate_capture_recorded" | historical_import => "historical_import"
  | synthetic_seed => "synthetic_seed" | payment_mode_corrected => "payment_mode_corrected"
  | order_purge => "order_purge" | operator_resolution => "operator_resolution"
  | order_refunded => "order_refunded" | dispute_opened => "dispute_opened"
  end%string.

Definition MONOTONE_KINDS : list SettlementKind := [payment_state_progress; payment_mode_corrected].

Inductive MutationType :=
  | mut_payment_insert | mut_payment_state | mut_payment_gateway_identity
  | mut_order_paid | mut_order_insert | mut_invoice_payment_record | mut_order_purge.
#[export] Instance MutationType_eq_dec : EqDecision MutationType.
Proof. solve_decision. Defined.

Record OperationPolicy := { pol_mutations : list MutationType; pol_effects : list string }.

Definition OPERATION_POLICY (k : SettlementKind) : OperationPolicy :=
  match k with
  | stripe_invoice_paid =>
      {| pol_mutations := [mut_payment_insert; mut_order_paid; mut_invoice_payment_record];
         pol_effects := ["license_issue"; "loyalty_earn"; "notification"; "license_extend"; "edit_reconcile"; "admin_review"] |}
  | payment_settled =>
      {| pol_mutations := [mut_payment_insert; mut_payment_state]; pol_effects := ["edit_reconcile"; "loyalty_earn"] |}
  | payment_state_progress =>
      {| pol_mutations := [mut_payment_insert; mut_payment_state; mut_payment_gateway_identity]; pol_effects := [] |}
  | order_paid_transition =>
      {| pol_mutations := [mut_order_paid; mut_order_insert; mut_payment_insert];
         pol_effects := ["license_issue"; "loyalty_earn"; "notification"] |}
  | admin_draft_create => {| pol_mutations := [mut_order_insert]; pol_effects := [] |}
  | order_edit_balance_settled =>
      {| pol_mutations := [mut_payment_insert; mut_payment_state]; pol_effects := ["edit_reconcile"; "loyalty_earn"] |}
  | duplicate_capture_recorded => {| pol_mutations := [mut_payment_insert]; pol_effects := ["notification"] |}
  | historical_import => {| pol_mutations := [mut_payment_insert; mut_order_insert]; pol_effects := [] |}
  | synthetic_seed => {| pol_mutations := [mut_order_insert]; pol_effects := [] |}
  | payment_mode_corrected => {| pol_mutations := [mut_payment_gateway_identity]; pol_effects := [] |}
  | order_purge => {| pol_mutations := [mut_order_purge]; pol_effects := [] |}
  | order_refunded => {| pol_mutations := []; pol_effects := ["entitlement_reversal"] |}
  | dispute_opened => {| pol_mutations := []; pol_effects := ["entitlement_reversal"] |}
  | operator_resolution =>
      {| pol_mutations := [mut_invoice_payment_record; mut_payment_insert; mut_order_paid];
         pol_effects := ["license_issue"; "license_extend"; "loyalty_earn"; "notification"; "edit_reconcile"] |}
  end%string.

Inductive InvoiceClassification := first_cycle | renewal | adjustment | unresolved.
#[export] Instance InvoiceClassification_eq_dec : EqDecision InvoiceClassification.
Proof. solve_decision. Defined.
Definition classification_text (c : InvoiceClassification) : string :=
  match c with first_cycle => "first_cycle" | renewal => "renewal" | adjustment => "adjustment" | unresolved => "unresolved" end%string.

Definition INVOICE_AUTHORIZED_EFFECTS (c : InvoiceClassification) : list string :=
  match c with
  | first_cycle => ["license_issue"; "loyalty_earn"; "notification"; "edit_reconcile"; "admin_review"]
  | renewal => ["license_extend"; "admin_review"]
  | adjustment => ["admin_review"]
  | unresolved => ["admin_review"]
  end%string.

(** ** Rows *)

Record Order := {
  so_id : string; so_code : string; so_state : OrderState; so_currency : string; so_grandTotal : Z;
  so_customerId : option string; so_idempotencyKey : option string; so_metadata : option json;
  so_placedAt : option Z; so_updatedAt : Z; so_deletedAt : option Z
}.
(** An omitted column takes its default. *)
Record OrderInsert := {
  oi_id : option string; oi_code : string; oi_state : option OrderState; oi_currency : option string; oi_grandTotal : option Z;
  oi_customerId : option string; oi_idempotencyKey : option string; oi_metadata : option json; oi_placedAt : option Z
}.
Record PaymentInsert := {
  pi_id : option string; pi_orderId : string; pi_amount : Z; pi_gatewayAccount : option string; pi_gatewayMode : option string;
  pi_currency : option string; pi_method : string; pi_providerRef : option string; pi_state : option PaymentState;
  pi_metadata : option json; pi_errorMessage : option string
}.
Record InvoicePayment := {
  iv_orderId : option string; iv_stripeAccountId : string; iv_mode : string; iv_stripeSubscriptionId : string;
  iv_invoiceId : string; iv_providerRef : string; iv_amount : Z; iv_currency : option string; iv_state : PaymentState;
  iv_paidAt : option Z; iv_billingReason : option string; iv_origin : string; iv_disposition : option string; iv_metadata : option json
}.
(** A purged payment: id, method, provider reference, amount, state. *)
Definition Snapshot : Type := string * string * option string * Z * PaymentState.
Record OperationRow := {
  or_id : string; or_kind : SettlementKind; or_operationId : string; or_classification : option InvoiceClassification;
  or_authorizedEffects : list string; or_disposition : option string;
  or_paymentId : option string; or_orderId : option string; or_licenseId : option string; or_invoicePaymentId : option string;
  or_paymentIntent : option string; or_providerAccount : option string; or_providerMode : option string;
  or_targetKind : option SettlementKind; or_targetId : option string; or_actor : option string; or_reason : option string;
  or_snapshot : option (list Snapshot)
}.
Record AuditRow := {
  au_actor : string; au_entity : string; au_entityId : string; au_action : string;
  au_fromState : option OrderState; au_toState : option OrderState; au_data : json
}.
Record OutboxRow := { ob_kind : string; ob_recipient : string; ob_dedupeKey : string }.

Record SettleDb (X : Type) := {
  sd_store : string;
  sd_orders : list Order; sd_payments : list Payment; sd_ops : list OperationRow;
  sd_invoices : list (string * InvoicePayment); sd_refunds : list Refund; sd_edits : list OrderEditRow;
  sd_audit : list AuditRow; sd_outbox : list OutboxRow; sd_fresh : nat; sd_other : X
}.
Arguments sd_store {X}. Arguments sd_orders {X}. Arguments sd_payments {X}. Arguments sd_ops {X}. Arguments sd_invoices {X}.
Arguments sd_refunds {X}. Arguments sd_edits {X}. Arguments sd_audit {X}. Arguments sd_outbox {X}. Arguments sd_fresh {X}.
Arguments sd_other {X}. Arguments Build_SettleDb {X}.

(** ** record.ts: operations *)

(** [None] leaves the column alone, [Some None] writes NULL. *)
Record PaymentStateUpdate := {
  pu_state : PaymentState; pu_metadata : option (option json); pu_errorMessage : option (option string)
}.
Inductive SettlementMutation :=
  | payment_insert (rows : list PaymentInsert)
  | payment_state (paymentId : string) (next : PaymentStateUpdate)
  | payment_gateway_identity (paymentId : string) (gatewayMode gatewayAccount : option string)
  | order_paid (orderId : string) (placedAt : Z) (updatedAt : option Z)
  | order_insert (rows : list OrderInsert)
  | invoice_payment_record (row : InvoicePayment)
  | purge_order (orderId : string).
Definition mutation_type (m : SettlementMutation) : MutationType :=
  match m with
  | payment_insert _ => mut_payment_insert | payment_state _ _ => mut_payment_state
  | payment_gateway_identity _ _ _ => mut_payment_gateway_identity | order_paid _ _ _ => mut_order_paid
  | order_insert _ => mut_order_insert | invoice_payment_record _ => mut_invoice_payment_record
  | purge_order _ => mut_order_purge
  end.

Inductive ResolutionAction := res_apply | res_skip.
#[export] Instance ResolutionAction_eq_dec : EqDecision ResolutionAction.
Proof. solve_decision. Defined.
Record Resolution := {
  rn_targetKind : SettlementKind; rn_targetId : string; rn_action : ResolutionAction; rn_actor : string; rn_reason : string
}.
Record Provider := { pv_account : string; pv_mode : string; pv_ref : string }.
Inductive EffectMode := mode_inline | mode_deferred.
#[export] Instance EffectMode_eq_dec : EqDecision EffectMode.
Proof. solve_decision. Defined.

Record SettlementOperation := {
  op_storeId : string; op_kind : SettlementKind; op_operationId : string; op_provider : option Provider;
  op_classification : option InvoiceClassification; op_resolution : option Resolution;
  op_disposition : option string; op_orderId : option string;
  op_mutations : list SettlementMutation; op_effects : list EffectRequest; op_effectMode : option EffectMode
}.
Record SettlementResult := {
  rs_creditReconciliation : option string; rs_created : bool; rs_replayed : bool; rs_operationRowId : option string;
  rs_paymentId : option string; rs_invoicePaymentId : option string; rs_effectIds : list string;
  rs_storedClassification : option InvoiceClassification
}.

Inductive SettleError :=
  | WrongScope
  | MutationNotAllowed (k : SettlementKind) (t : MutationType)
  | ClassificationRequired (k : SettlementKind)
  | ResolutionMismatch
  | SkipDoesWork
  | EffectNotEligible (k : SettlementKind) (effect : string)
  | EffectNotAuthorized (effect : string)
  | ImportedFinancialReconciliation
  | ReferenceMismatch
  | OrderMissing
  | CannotTransition (from : OrderState)
  | TargetMissing
  | ResolutionExists
  | UnappliedOrderPaid (k : SettlementKind) (orderId : string)
  | UnappliedOrderInsert (k : SettlementKind) (orderId : string)
  | ConstraintViolation (constraint : string)
  | EffectsFailed (e : FxError)
  | Failed (message : string).

(** ** Table updates *)

Section Record.
Context {X : Type}.
Implicit Types (d : SettleDb X).

Definition with_orders d l : SettleDb X :=
  {| sd_store := sd_store d; sd_orders := l; sd_payments := sd_payments d; sd_ops := sd_ops d; sd_invoices := sd_invoices d;
     sd_refunds := sd_refunds d; sd_edits := sd_edits d; sd_audit := sd_audit d; sd_outbox := sd_outbox d;
     sd_fresh := sd_fresh d; sd_other := sd_other d |}.
Definition with_payments d l : SettleDb X :=
  {| sd_store := sd_store d; sd_orders := sd_orders d; sd_payments := l; sd_ops := sd_ops d; sd_invoices := sd_invoices d;
     sd_refunds := sd_refunds d; sd_edits := sd_edits d; sd_audit := sd_audit d; sd_outbox := sd_outbox d;
     sd_fresh := sd_fresh d; sd_other := sd_other d |}.
Definition with_ops d l : SettleDb X :=
  {| sd_store := sd_store d; sd_orders := sd_orders d; sd_payments := sd_payments d; sd_ops := l; sd_invoices := sd_invoices d;
     sd_refunds := sd_refunds d; sd_edits := sd_edits d; sd_audit := sd_audit d; sd_outbox := sd_outbox d;
     sd_fresh := sd_fresh d; sd_other := sd_other d |}.
Definition with_invoices d l : SettleDb X :=
  {| sd_store := sd_store d; sd_orders := sd_orders d; sd_payments := sd_payments d; sd_ops := sd_ops d; sd_invoices := l;
     sd_refunds := sd_refunds d; sd_edits := sd_edits d; sd_audit := sd_audit d; sd_outbox := sd_outbox d;
     sd_fresh := sd_fresh d; sd_other := sd_other d |}.
Definition with_edits d l : SettleDb X :=
  {| sd_store := sd_store d; sd_orders := sd_orders d; sd_payments := sd_payments d; sd_ops := sd_ops d; sd_invoices := sd_invoices d;
     sd_refunds := sd_refunds d; sd_edits := l; sd_audit := sd_audit d; sd_outbox := sd_outbox d;
     sd_fresh := sd_fresh d; sd_other := sd_other d |}.
Definition with_audit d l : SettleDb X :=
  {| sd_store := sd_store d; sd_orders := sd_orders d; sd_payments := sd_payments d; sd_ops := sd_ops d; sd_invoices := sd_invoices d;
     sd_refunds := sd_refunds d; sd_edits := sd_edits d; sd_audit := l; sd_outbox := sd_outbox d;
     sd_fresh := sd_fresh d; sd_other := sd_other d |}.
Definition with_outbox d l : SettleDb X :=
  {| sd_store := sd_store d; sd_orders := sd_orders d; sd_payments := sd_payments d; sd_ops := sd_ops d; sd_invoices := sd_invoices d;
     sd_refunds := sd_refunds d; sd_edits := sd_edits d; sd_audit := sd_audit d; sd_outbox := l;
     sd_fresh := sd_fresh d; sd_other := sd_other d |}.
(** The counter moves on with every uuid drawn. *)
Definition tick d : SettleDb X :=
  {| sd_store := sd_store d; sd_orders := sd_orders d; sd_payments := sd_payments d; sd_ops := sd_ops d; sd_invoices := sd_invoices d;
     sd_refunds := sd_refunds d; sd_edits := sd_edits d; sd_audit := sd_audit d; sd_outbox := sd_outbox d;
     sd_fresh := S (sd_fresh d); sd_other := sd_other d |}.

Definition order_row d (id : string) : option Order := List.find (fun o => String.eqb (so_id o) id) (sd_orders d).
Definition payment_row d (id : string) : option Payment := List.find (fun p => String.eqb (py_id p) id) (sd_payments d).

(** The unique indexes of [payment]: the primary key, and the provider reference
    within its account and mode, except that Stripe's is unique in the store. *)
Definition ref_key (p : Payment) : option (string * string * string * string) :=
  match py_providerRef p with
  | None => None
  | Some r => if String.eqb (py_method p) "stripe" then Some ("stripe", EmptyString, EmptyString, r)%string
              else Some (py_method p, or_else (py_gatewayAccount p) EmptyString, or_else (py_gatewayMode p) EmptyString, r)
  end.
Definition same_ref (a b : Payment) : bool := bool_decide (ref_key a = ref_key b) && bool_decide (is_Some (ref_key a)).
Definition payment_conflict (p q : Payment) : bool := String.eqb (py_id p) (py_id q) || same_ref p q.

(** The indexes hold of the table an UPDATE leaves behind. *)
Definition refs_unique (ps : list Payment) : bool := bool_decide (NoDup (omap ref_key ps)).

Definition payment_of (id : string) (r : PaymentInsert) : Payment :=
  {| py_id := id; py_orderId := pi_orderId r; py_amount := pi_amount r; py_gatewayAccount := pi_gatewayAccount r;
     py_gatewayMode := pi_gatewayMode r; py_currency := pi_currency r; py_method := pi_method r; py_providerRef := pi_providerRef r;
     py_state := or_else (pi_state r) pay_Pending; py_metadata := pi_metadata r; py_errorMessage := pi_errorMessage r |}.

Context (gen_random_uuid : nat -> string).

(** [INSERT INTO payment ... ON CONFLICT DO NOTHING RETURNING id]: the rows of
    one statement in turn, with the foreign key to [order]. *)
Definition insert_payment (acc : SettleDb X * list string) (r : PaymentInsert) : result SettleError (SettleDb X * list string) :=
  let '(d, ids) := acc in
  let p := payment_of (or_else (pi_id r) (gen_random_uuid (sd_fresh d))) r in
  if existsb (payment_conflict p) (sd_payments d) then Ok (tick d, ids)
  else match order_row d (pi_orderId r) with
       | None => Err (ConstraintViolation "payment_order_id_order_id_fk")
       | Some _ => Ok (with_payments (tick d) (sd_payments d ++ [p]), ids ++ [py_id p])
       end.
Definition insert_payments d (rows : list PaymentInsert) : result SettleError (SettleDb X * list string) :=
  fold_result insert_payment (d, []) rows.

(** effects.ts: the licence an operation issued is linked to it. *)
Definition recordOperationLicense d (kind : SettlementKind) (operationId licenseId : string) : SettleDb X :=
  with_ops d (set_where (fun o => bool_decide (or_kind o = kind) && String.eqb (or_operationId o) operationId)
    (fun o => {| or_id := or_id o; or_kind := or_kind o; or_operationId := or_operationId o; or_classification := or_classification o;
       or_authorizedEffects := or_authorizedEffects o; or_disposition := or_disposition o; or_paymentId := or_paymentId o;
       or_orderId := or_orderId o; or_licenseId := Some licenseId; or_invoicePaymentId := or_invoicePaymentId o;
       or_paymentIntent := or_paymentIntent o; or_providerAccount := or_providerAccount o; or_providerMode := or_providerMode o;
       or_targetKind := or_targetKind o; or_targetId := or_targetId o; or_actor := or_actor o; or_reason := or_reason o;
       or_snapshot := or_snapshot o |}) (sd_ops d)).

(** [payment WHERE store_id, method, provider_ref LIMIT 1] (a NULL reference equals nothing). *)
Definition payment_by_ref d (method : string) (ref : option string) : option Payment :=
  List.find (fun p => String.eqb (py_method p) method && bool_decide (py_providerRef p = ref) && bool_decide (is_Some ref)) (sd_payments d).

Definition latestSettledPaymentId d (orderId : string) : option string :=
  option_map py_id (last (List.filter (fun p => String.eqb (py_orderId p) orderId && bool_decide (py_state p = pay_Settled)) (sd_payments d))).
Definition paymentOrderId d (paymentId : string) : option string := option_map py_orderId (payment_row d paymentId).

Definition quarantined_order d (orderId : string) : bool :=
  match order_row d orderId with Some o => importedFinancialReconciliationRequired (so_metadata o) | None => false end.

Definition operation_is (k : SettlementKind) (id : string) (r : OperationRow) : bool :=
  bool_decide (or_kind r = k) && String.eqb (or_operationId r) id.
Definition operation_row d (k : SettlementKind) (id : string) : option OperationRow := List.find (operation_is k id) (sd_ops d).

(** ** Step 2: eligibility *)


(** Step 2: the effects the operation may create, or the refusal. *)
Definition authorized_effects (op : SettlementOperation) : result SettleError (list string) :=
  let k := op_kind op in
  let! authorized := match k, op_classification op with
    | stripe_invoice_paid, None => Err (ClassificationRequired k)
    | stripe_invoice_paid, Some c => Ok (INVOICE_AUTHORIZED_EFFECTS c)
    | _, _ => Ok (pol_effects (OPERATION_POLICY k))
    end in
  guard! Bool.eqb (bool_decide (k = operator_resolution)) (is_some (op_resolution op)) or ResolutionMismatch in
  match k, op_resolution op with
  | operator_resolution, Some r =>
      match op_classification op with
      | None => Err (ClassificationRequired k)
      | Some c =>
          if bool_decide (rn_action r = res_skip)
          then guard! is_nil (op_mutations op) && is_nil (op_effects op) or SkipDoesWork in Ok []
          else Ok (List.filter (fun e => negb (is_review e)) (INVOICE_AUTHORIZED_EFFECTS c))
      end
  | _, _ => Ok authorized
  end.
Definition check_mutation (k : SettlementKind) (m : SettlementMutation) : result SettleError unit :=
  guard! bool_decide (mutation_type m ∈ pol_mutations (OPERATION_POLICY k)) or MutationNotAllowed k (mutation_type m) in Ok tt.
Definition check_effect (k : SettlementKind) (authorized : list string) (e : EffectRequest) : result SettleError unit :=
  guard! bool_decide (rq_kind e ∈ pol_effects (OPERATION_POLICY k)) or EffectNotEligible k (rq_kind e) in
  guard! bool_decide (rq_kind e ∈ authorized) or EffectNotAuthorized (rq_kind e) in Ok tt.
Definition check_operation (op : SettlementOperation) : result SettleError (list string) :=
  let! _ := map_result (check_mutation (op_kind op)) (op_mutations op) in
  let! authorized := authorized_effects op in
  let! _ := map_result (check_effect (op_kind op) authorized) (op_effects op) in
  Ok authorized.

(** ** The imported-history quarantine *)

Definition payload_order (e : EffectRequest) : list string :=
  match field "orderId" (or_else (rq_payload e) (JObj [])) with Some (JStr id) => [id] | _ => [] end.
Definition mutation_orders d (m : SettlementMutation) : list string :=
  match m with
  | order_paid id _ _ | purge_order id => [id]
  | payment_insert rows => map pi_orderId rows
  | invoice_payment_record row => match iv_orderId row with Some id => if String.eqb id EmptyString then [] else [id] | None => [] end
  | payment_state id _ | payment_gateway_identity id _ _ =>
      match paymentOrderId d id with Some o => [o] | None => [] end
  | order_insert _ => []
  end.
(** The set [orderIds]; the loop over it is insensitive to order and repetition. *)
Definition touched_orders d (op : SettlementOperation) : list string :=
  match op_orderId op with Some id => if String.eqb id EmptyString then [] else [id] | None => [] end ++
  flat_map (mutation_orders d) (op_mutations op) ++ flat_map payload_order (op_effects op).
Definition purges_quarantined d (op : SettlementOperation) : bool :=
  existsb (fun m => match m with purge_order id => quarantined_order d id | _ => false end) (op_mutations op).
Definition is_order_paid (m : SettlementMutation) : bool := match m with order_paid _ _ _ => true | _ => false end.
Definition quarantine_op (op : SettlementOperation) : SettlementOperation :=
  {| op_storeId := op_storeId op; op_kind := op_kind op; op_operationId := op_operationId op; op_provider := op_provider op;
     op_classification := op_classification op; op_resolution := op_resolution op;
     op_disposition := Some "imported_financial_reconciliation_required"%string; op_orderId := op_orderId op;
     op_mutations := List.filter (fun m => negb (is_order_paid m)) (op_mutations op); op_effects := [];
     op_effectMode := op_effectMode op |}.
Definition revalidate d (op : SettlementOperation) (authorized : list string) :
    result SettleError (SettlementOperation * list string) :=
  guard! negb (purges_quarantined d op) or ImportedFinancialReconciliation in
  if existsb (quarantined_order d) (touched_orders d op) then Ok (quarantine_op op, []) else Ok (op, authorized).

(** ** Step 3: the identity *)

Definition is_ref_insert (m : SettlementMutation) : bool :=
  match m with payment_insert [r] => nonempty (pi_providerRef r) | _ => false end.
Fixpoint find_index {A} (p : A -> bool) (l : list A) : option nat :=
  match l with [] => None | x :: xs => if p x then Some 0%nat else option_map S (find_index p xs) end.
(** The mutation the identity is resolved by, as its position. *)
Definition ref_insert (op : SettlementOperation) : option nat :=
  if bool_decide (op_kind op = payment_settled) || bool_decide (op_kind op = payment_state_progress)
  then find_index is_ref_insert (op_mutations op) else None.
Definition ref_insert_row (op : SettlementOperation) : option PaymentInsert :=
  match ref_insert op with
  | Some i => match op_mutations op !! i with Some (payment_insert [r]) => Some r | _ => None end
  | None => None
  end.
(** [operationId] and [preResolved]. *)
Definition resolve_identity d (op : SettlementOperation) : result SettleError (SettleDb X * string * option string) :=
  match ref_insert_row op with
  | None => Ok (d, op_operationId op, None)
  | Some r =>
      let! q := insert_payments d [r] in
      let '(d1, ids) := q in
      let! id := match ids with
        | id :: _ => Ok id
        | [] => match payment_by_ref d1 (pi_method r) (pi_providerRef r) with
                | Some ex => Ok (py_id ex)
                | None => Err ReferenceMismatch
                end
        end in
      Ok (d1, if bool_decide (op_kind op = payment_settled) then id else op_operationId op, Some id)
  end.
End Record.

(** ** What other components promise the chokepoint *)

(** [postAcceptedCredit] posts the order's accepted credit snapshot in a
    savepoint and answers the error code of a failed posting;
    [consumeForSettlement] (payments/reservation.ts) answers the reservations it
    consumed; [handler_of] is the effect-handler registry; [order_referenced] is
    whether a row of [X] still references the order, so that it cannot be deleted. *)
Class SettlementDeps (X : Type) := {
  postAcceptedCredit : SettleDb X -> string -> SettleDb X * option string;
  consumeForSettlement : SettleDb X -> string -> option string -> string -> result string (SettleDb X * list string);
  handler_of : string -> option (EffectHandler (D := SettleDb X));
  order_referenced : X -> string -> bool
}.

Section Settle.
Context {X : Type} {deps : SettlementDeps X} (gen_random_uuid : nat -> string).
Implicit Types (d : SettleDb X).
Definition St : Type := FxDb * SettleDb X.

(** ** The mutations *)

Record Applied := { ap_paymentId : option string; ap_invoicePaymentId : option string; ap_orderId : option string }.
Definition nothing_applied : Applied := {| ap_paymentId := None; ap_invoicePaymentId := None; ap_orderId := None |}.
Definition or_some {A} (a b : option A) : option A := match a with Some _ => a | None => b end.
Definition note_payment (out : Applied) (id : option string) : Applied :=
  {| ap_paymentId := or_some (ap_paymentId out) id; ap_invoicePaymentId := ap_invoicePaymentId out; ap_orderId := ap_orderId out |}.

Definition update_payment (state : PaymentState) (metadata : option (option json)) (errorMessage : option (option string)) (p : Payment) : Payment :=
  {| py_id := py_id p; py_orderId := py_orderId p; py_amount := py_amount p; py_gatewayAccount := py_gatewayAccount p;
     py_gatewayMode := py_gatewayMode p; py_currency := py_currency p; py_method := py_method p; py_providerRef := py_providerRef p;
     py_state := state; py_metadata := or_else metadata (py_metadata p); py_errorMessage := or_else errorMessage (py_errorMessage p) |}.
(** [coalesce(column, value)]: fills NULLs only. *)
Definition fill_identity (mode account : option string) (p : Payment) : Payment :=
  {| py_id := py_id p; py_orderId := py_orderId p; py_amount := py_amount p;
     py_gatewayAccount := or_some (py_gatewayAccount p) account; py_gatewayMode := or_some (py_gatewayMode p) mode;
     py_currency := py_currency p; py_method := py_method p; py_providerRef := py_providerRef p;
     py_state := py_state p; py_metadata := py_metadata p; py_errorMessage := py_errorMessage p |}.
Definition has_payment_id (id : string) (p : Payment) : bool := String.eqb (py_id p) id.
Definition unsettled (p : Payment) : bool := negb (bool_decide (py_state p = pay_Settled)).
Definition pay_order (placedAt updatedAt : Z) (o : Order) : Order :=
  {| so_id := so_id o; so_code := so_code o; so_state := Paid; so_currency := so_currency o; so_grandTotal := so_grandTotal o;
     so_customerId := so_customerId o; so_idempotencyKey := so_idempotencyKey o; so_metadata := so_metadata o;
     so_placedAt := Some placedAt; so_updatedAt := updatedAt; so_deletedAt := so_deletedAt o |}.

(** A first-cycle Settled invoice payment adopts the Pending row that already
    holds its reference. *)
Definition adopt_pending d (r : PaymentInsert) : SettleDb X * option string :=
  match payment_by_ref d (pi_method r) (pi_providerRef r) with
  | Some ex =>
      if String.eqb (py_orderId ex) (pi_orderId r) && bool_decide (py_state ex = pay_Pending) && bool_decide (pi_state r = Some pay_Settled)
      then (with_payments d (set_where (has_payment_id (py_id ex)) (update_payment pay_Settled (Some (pi_metadata r)) (Some None)) (sd_payments d)),
            Some (py_id ex))
      else (d, None)
  | None => (d, None)
  end.
Definition apply_payment_insert d (op : SettlementOperation) (out : Applied) (rows : list PaymentInsert) :
    result SettleError (SettleDb X * Applied) :=
  let! q := insert_payments gen_random_uuid d rows in
  match snd q, rows with
  | id :: _, _ => Ok (fst q, note_payment out (Some id))
  | [], [r] =>
      if bool_decide (op_kind op = stripe_invoice_paid) && bool_decide (op_classification op = Some first_cycle)
      then let '(d2, id) := adopt_pending (fst q) r in Ok (d2, note_payment out id)
      else Ok (fst q, out)
  | [], _ => Ok (fst q, out)
  end.

Definition order_of_insert (id : string) (now : Z) (r : OrderInsert) : Order :=
  {| so_id := id; so_code := oi_code r; so_state := or_else (oi_state r) PendingPayment; so_currency := or_else (oi_currency r) "USD"%string;
     so_grandTotal := or_else (oi_grandTotal r) 0; so_customerId := oi_customerId r; so_idempotencyKey := oi_idempotencyKey r;
     so_metadata := oi_metadata r; so_placedAt := oi_placedAt r; so_updatedAt := now; so_deletedAt := None |}.
Definition order_conflict (a b : Order) : bool :=
  String.eqb (so_id a) (so_id b) || String.eqb (so_code a) (so_code b) ||
  (bool_decide (so_idempotencyKey a = so_idempotencyKey b) && is_some (so_idempotencyKey a)).
Definition insert_order (now : Z) d (r : OrderInsert) : result SettleError (SettleDb X) :=
  let o := order_of_insert (or_else (oi_id r) (gen_random_uuid (sd_fresh d))) now r in
  guard! negb (existsb (order_conflict o) (sd_orders d)) or ConstraintViolation "order_unique" in
  Ok (with_orders (tick d) (sd_orders d ++ [o])).

(** The effects of a purged order that are still pending are cancelled; claimed
    ones are left to their fenced owner. *)
Definition cancel_row (orderId : string) (r : EffectRow) : EffectRow :=
  {| ef_id := ef_id r; ef_operationKind := ef_operationKind r; ef_operationId := ef_operationId r; ef_kind := ef_kind r;
     ef_payloadVersion := ef_payloadVersion r; ef_payload := ef_payload r; ef_status := fx_done;
     ef_claimToken := ef_claimToken r; ef_claimedAt := ef_claimedAt r; ef_attempts := ef_attempts r;
     ef_nextAttemptAt := ef_nextAttemptAt r; ef_lastError := ef_lastError r; ef_firstFailedAt := ef_firstFailedAt r;
     ef_resolution := ef_resolution r; ef_resolvedBy := ef_resolvedBy r;
     ef_result := Some (JObj [("cancelled", JStr "order_purged"); ("orderId", JStr orderId)]%string); ef_createdAt := ef_createdAt r |}.
Definition effect_of_order d (orderId : string) (r : EffectRow) : bool :=
  bool_decide (text_field "orderId" (Some (ef_payload r)) = Some orderId) ||
  existsb (fun o => String.eqb (kind_text (or_kind o)) (ef_operationKind r) && String.eqb (or_operationId o) (ef_operationId r) &&
                    bool_decide (or_orderId o = Some orderId)) (sd_ops d).
Definition cancel_effects d (orderId : string) (fx : FxDb) : FxDb :=
  with_fx_rows fx (update_where (fun r => status_is fx_pending r && effect_of_order d orderId r) (cancel_row orderId) (fx_rows fx)).
Definition of_order (orderId : string) (p : Payment) : bool := String.eqb (py_orderId p) orderId.
(** Refunds reference both their payment and their order without a cascade; edits cascade. *)
Definition purge_tables d (orderId : string) : result SettleError (SettleDb X) :=
  guard! negb (existsb (fun r => existsb (fun p => of_order orderId p && String.eqb (rf_paymentId r) (py_id p)) (sd_payments d)) (sd_refunds d))
    or ConstraintViolation "refund_payment_id_payment_id_fk" in
  let d1 := with_payments d (List.filter (fun p => negb (of_order orderId p)) (sd_payments d)) in
  match order_row d orderId with
  | None => Ok d1
  | Some _ =>
      guard! negb (existsb (fun r => String.eqb (rf_orderId r) orderId) (sd_refunds d) || order_referenced (sd_other d) orderId)
        or ConstraintViolation "order_referenced" in
      Ok (with_edits (with_orders d1 (List.filter (fun o => negb (String.eqb (so_id o) orderId)) (sd_orders d)))
            (List.filter (fun e => negb (String.eqb (oe_orderId e) orderId)) (sd_edits d)))
  end.

Definition invoice_conflict (a b : InvoicePayment) : bool :=
  String.eqb (iv_stripeAccountId a) (iv_stripeAccountId b) && String.eqb (iv_mode a) (iv_mode b) && String.eqb (iv_invoiceId a) (iv_invoiceId b).
(** The invoice's money is recorded unless a payment already carries its reference. *)
Definition record_invoice d (row : InvoicePayment) : SettleDb X * option string :=
  if existsb (fun p => bool_decide (py_providerRef p = Some (iv_providerRef row))) (sd_payments d) then (d, None)
  else if existsb (fun q => invoice_conflict row (snd q)) (sd_invoices d) then (tick d, None)
  else let id := gen_random_uuid (sd_fresh d) in (with_invoices (tick d) (sd_invoices d ++ [(id, row)]), Some id).

Definition apply_mutation (now : Z) (op : SettlementOperation) (preResolved : option string)
    (acc : St * Applied) (im : nat * SettlementMutation) : result SettleError (St * Applied) :=
  let '((fx, d), out) := acc in
  match snd im with
  | payment_insert rows =>
      if bool_decide (ref_insert op = Some (fst im)) && is_some preResolved then Ok ((fx, d), note_payment out preResolved)
      else let! q := apply_payment_insert d op out rows in Ok ((fx, fst q), snd q)
  | payment_state id next =>
      Ok ((fx, with_payments d (set_where (fun p => has_payment_id id p && unsettled p)
                (update_payment (pu_state next) (pu_metadata next) (pu_errorMessage next)) (sd_payments d))), note_payment out (Some id))
  | payment_gateway_identity id mode account =>
      let ps := set_where (has_payment_id id) (fill_identity mode account) (sd_payments d) in
      guard! refs_unique ps or ConstraintViolation "payment_store_provider_ref_uidx" in
      Ok ((fx, with_payments d ps), note_payment out (Some id))
  | order_paid id placedAt updatedAt =>
      match order_row d id with
      | None => Err OrderMissing
      | Some cur =>
          guard! canTransition (so_state cur) Paid or CannotTransition (so_state cur) in
          Ok ((fx, with_orders d (set_where (fun o => String.eqb (so_id o) id) (pay_order placedAt (or_else updatedAt now)) (sd_orders d))),
              {| ap_paymentId := ap_paymentId out; ap_invoicePaymentId := ap_invoicePaymentId out; ap_orderId := Some id |})
      end
  | order_insert rows =>
      let! d1 := fold_result (insert_order now) d rows in
      Ok ((fx, d1), {| ap_paymentId := ap_paymentId out; ap_invoicePaymentId := ap_invoicePaymentId out;
                       ap_orderId := or_some (ap_orderId out) (match rows with r :: _ => oi_id r | [] => None end) |})
  | purge_order id =>
      let! d1 := purge_tables d id in
      Ok ((cancel_effects d id fx, d1), {| ap_paymentId := ap_paymentId out; ap_invoicePaymentId := ap_invoicePaymentId out; ap_orderId := Some id |})
  | invoice_payment_record row =>
      let '(d1, id) := record_invoice d row in
      Ok ((fx, d1), {| ap_paymentId := ap_paymentId out;
                       ap_invoicePaymentId := match id with Some _ => id | None => ap_invoicePaymentId out end; ap_orderId := ap_orderId out |})
  end.
Definition apply_all (now : Z) (op : SettlementOperation) (preResolved : option string) (s : St) : result SettleError (St * Applied) :=
  fold_result (apply_mutation now op preResolved) (s, nothing_applied)
    (combine (List.seq 0 (length (op_mutations op))) (op_mutations op)).

(** ** Step 5: operations that own a row *)

(** The held effects of the target a resolution decides. *)
Definition held_effects (fx : FxDb) (k : SettlementKind) (id : string) : list string :=
  map ef_id (List.filter (fun r => String.eqb (ef_operationKind r) (kind_text k) && String.eqb (ef_operationId r) id && status_is fx_terminal r) (fx_rows fx)).
Definition check_resolution (s : St) (op : SettlementOperation) (operationId : string) (authorized : list string) : result SettleError (list string) :=
  match op_kind op, op_resolution op with
  | operator_resolution, Some r =>
      guard! is_some (operation_row (snd s) (rn_targetKind r) (rn_targetId r)) or TargetMissing in
      let sameKey := is_some (operation_row (snd s) operator_resolution operationId) in
      let prior := existsb (fun o => bool_decide (or_kind o = operator_resolution) && bool_decide (or_targetKind o = Some (rn_targetKind r)) &&
                                     bool_decide (or_targetId o = Some (rn_targetId r)) && negb (is_nil (or_authorizedEffects o))) (sd_ops (snd s)) in
      guard! negb (negb (is_nil authorized) && negb sameKey && prior) or ResolutionExists in
      Ok (held_effects (fst s) (rn_targetKind r) (rn_targetId r))
  | _, _ => Ok []
  end.

Definition purge_snapshot d (op : SettlementOperation) : option (list Snapshot) :=
  match List.find (fun m => match m with purge_order _ => true | _ => false end) (op_mutations op) with
  | Some (purge_order id) =>
      Some (map (fun p => (py_id p, py_method p, py_providerRef p, py_amount p, py_state p)) (List.filter (of_order id) (sd_payments d)))
  | _ => None
  end.
Definition new_operation d (op : SettlementOperation) (operationId : string) (authorized : list string) : OperationRow :=
  let k := op_kind op in
  {| or_id := gen_random_uuid (sd_fresh d); or_kind := k; or_operationId := operationId; or_classification := op_classification op;
     or_authorizedEffects := if bool_decide (k = stripe_invoice_paid) || bool_decide (k = operator_resolution) then authorized else [];
     or_disposition := op_disposition op; or_paymentId := None; or_orderId := None; or_licenseId := None; or_invoicePaymentId := None;
     or_paymentIntent := option_map pv_ref (op_provider op); or_providerAccount := option_map pv_account (op_provider op);
     or_providerMode := option_map pv_mode (op_provider op);
     or_targetKind := option_map rn_targetKind (op_resolution op); or_targetId := option_map rn_targetId (op_resolution op);
     or_actor := option_map rn_actor (op_resolution op); or_reason := option_map rn_reason (op_resolution op);
     or_snapshot := purge_snapshot d op |}.
Definition link_operation (a : Applied) (op : SettlementOperation) (o : OperationRow) : OperationRow :=
  {| or_id := or_id o; or_kind := or_kind o; or_operationId := or_operationId o; or_classification := or_classification o;
     or_authorizedEffects := or_authorizedEffects o; or_disposition := or_disposition o;
     or_paymentId := ap_paymentId a; or_orderId := or_some (ap_orderId a) (op_orderId op); or_licenseId := or_licenseId o;
     or_invoicePaymentId := ap_invoicePaymentId a; or_paymentIntent := or_paymentIntent o; or_providerAccount := or_providerAccount o;
     or_providerMode := or_providerMode o; or_targetKind := or_targetKind o; or_targetId := or_targetId o; or_actor := or_actor o;
     or_reason := or_reason o; or_snapshot := or_snapshot o |}.

(** A replay may only skip mutations that are already in force. *)
Definition check_replayed d (k : SettlementKind) (m : SettlementMutation) : result SettleError unit :=
  match m with
  | order_paid id _ _ =>
      guard! match order_row d id with Some o => negb (canTransition (so_state o) Paid) | None => false end or UnappliedOrderPaid k id in Ok tt
  | order_insert ({| oi_id := Some id |} :: _) =>
      guard! is_some (order_row d id) || String.eqb id EmptyString or UnappliedOrderInsert k id in Ok tt
  | _ => Ok tt
  end.
Definition effects_of (fx : FxDb) (k : SettlementKind) (operationId : string) : list EffectRow :=
  List.filter (fun r => String.eqb (ef_operationKind r) (kind_text k) && String.eqb (ef_operationId r) operationId) (fx_rows fx).
Definition replay_audit (existing : OperationRow) (op : SettlementOperation) (stored observed : InvoiceClassification) : AuditRow :=
  {| au_actor := "system:settlement"; au_entity := "settlement_operation"; au_entityId := or_id existing;
     au_action := "settlement_classification_replayed"; au_fromState := None; au_toState := None;
     au_data := JObj [("operationKind", JStr (kind_text (op_kind op))); ("operationId", JStr (op_operationId op));
                      ("stored", JStr (classification_text stored)); ("observed", JStr (classification_text observed))] |}%string.
Definition replay_operation (s : St) (op : SettlementOperation) (operationId : string) (existing : OperationRow) :
    result SettleError (St * SettlementResult) :=
  let '(fx, d) := s in
  let! _ := map_result (check_replayed d (op_kind op)) (op_mutations op) in
  let d1 := match op_classification op, or_classification existing with
    | Some observed, Some stored =>
        if bool_decide (stored = observed) then d else with_audit d (sd_audit d ++ [replay_audit existing op stored observed])
    | _, _ => d
    end in
  Ok ((fx, d1),
      {| rs_creditReconciliation := None; rs_created := false; rs_replayed := true; rs_operationRowId := Some (or_id existing);
         rs_paymentId := or_paymentId existing; rs_invoicePaymentId := or_invoicePaymentId existing;
         rs_effectIds := map ef_id (effects_of fx (op_kind op) operationId); rs_storedClassification := or_classification existing |}).

Definition PAYMENT_IDENTITY_KINDS : list SettlementKind := [payment_settled; duplicate_capture_recorded].
Definition CONSUMING_KINDS : list SettlementKind :=
  [payment_settled; order_paid_transition; stripe_invoice_paid; order_edit_balance_settled].
Definition inserted_nothing (op : SettlementOperation) (a : Applied) : bool :=
  bool_decide (op_kind op ∈ PAYMENT_IDENTITY_KINDS) &&
  existsb (fun m => bool_decide (mutation_type m = mut_payment_insert)) (op_mutations op) && negb (is_some (ap_paymentId a)).
(** Deleting the operation row cascades to its effects. *)
Definition delete_operation (s : St) (o : OperationRow) : St :=
  (with_fx_rows (fst s) (List.filter (fun r => negb (String.eqb (ef_operationKind r) (kind_text (or_kind o)) && String.eqb (ef_operationId r) (or_operationId o))) (fx_rows (fst s))),
   with_ops (snd s) (List.filter (fun x => negb (String.eqb (or_id x) (or_id o))) (sd_ops (snd s)))).

Definition resolve_row (by_op : string) (r : EffectRow) : EffectRow :=
  {| ef_id := ef_id r; ef_operationKind := ef_operationKind r; ef_operationId := ef_operationId r; ef_kind := ef_kind r;
     ef_payloadVersion := ef_payloadVersion r; ef_payload := ef_payload r; ef_status := ef_status r;
     ef_claimToken := ef_claimToken r; ef_claimedAt := ef_claimedAt r; ef_attempts := ef_attempts r;
     ef_nextAttemptAt := ef_nextAttemptAt r; ef_lastError := ef_lastError r; ef_firstFailedAt := ef_firstFailedAt r;
     ef_resolution := ef_resolution r; ef_resolvedBy := Some by_op; ef_result := ef_result r; ef_createdAt := ef_createdAt r |}.
Definition resolve_held (fx : FxDb) (op : SettlementOperation) (held : list string) (opId : string) : FxDb :=
  if bool_decide (op_kind op = operator_resolution) && bool_decide (option_map rn_action (op_resolution op) = Some res_apply)
  then with_fx_rows fx (update_where (fun r => existsb (String.eqb (ef_id r)) held) (resolve_row opId) (fx_rows fx)) else fx.

(** The order and payment whose reservations the settlement consumes. *)
Definition consumption (d : SettleDb X) (op : SettlementOperation) (a : Applied) (operationId : string) :
    result SettleError (SettleDb X * option string * list string) :=
  if negb (bool_decide (op_kind op ∈ CONSUMING_KINDS)) then Ok (d, None, [])
  else
    match or_some (or_some (ap_orderId a) (op_orderId op)) (ap_paymentId a ≫= paymentOrderId d) with
    | None => Ok (d, None, [])
    | Some orderId =>
        let paymentId := or_some (ap_paymentId a) (latestSettledPaymentId d orderId) in
        if quarantined_order d orderId then Ok (d, None, [])
        else
          let '(d1, credit) := postAcceptedCredit d orderId in
          match consumeForSettlement d1 orderId paymentId operationId with
          | Ok (d2, ids) => Ok (d2, credit, ids)
          | Err m => Err (Failed m)
          end
    end.
Definition set_field (k : string) (v : json) (j : json) : json :=
  match j with JObj fs => JObj (fs ++ [(k, v)]) | _ => JObj [(k, v)] end.
Definition carry_reservations (ids : list string) (e : EffectRequest) : EffectRequest :=
  if negb (is_nil ids) && String.eqb (rq_kind e) "license_issue"
  then {| rq_kind := rq_kind e; rq_payloadVersion := rq_payloadVersion e;
          rq_payload := Some (set_field "reservationIds" (JArr (map JStr ids)) (or_else (rq_payload e) (JObj []))); rq_resolution := rq_resolution e |}
  else e.

(** The new operation: mutate, link, resolve, consume, enqueue, execute. *)
Definition perform (now : Z) (s : St) (op : SettlementOperation) (operationId : string) (preResolved : option string)
    (held : list string) (o : OperationRow) : result SettleError (St * SettlementResult) :=
  let! q := apply_all now op preResolved s in
  let '(s1, a) := q in
  if inserted_nothing op a then
    Ok (delete_operation s1 o,
        {| rs_creditReconciliation := None; rs_created := false; rs_replayed := false; rs_operationRowId := None; rs_paymentId := None;
           rs_invoicePaymentId := None; rs_effectIds := []; rs_storedClassification := None |})
  else
    let '(fx1, d1) := s1 in
    let d2 := with_ops d1 (set_where (fun x => String.eqb (or_id x) (or_id o)) (link_operation a op) (sd_ops d1)) in
    let fx2 := resolve_held fx1 op held (or_id o) in
    let! c := consumption d2 op a operationId in
    let '(d3, credit, ids) := c in
    let '(fx3, created) := enqueueEffects gen_random_uuid now fx2 (kind_text (op_kind op)) operationId (map (carry_reservations ids) (op_effects op)) in
    let! s4 :=
      if bool_decide (or_else (op_effectMode op) mode_inline = mode_inline)
      then match executeEffectsNow gen_random_uuid handler_of now fx3 d3 (map ef_id created) with
           | Ok (fx4, d4, _) => Ok (fx4, d4)
           | Err e => Err (EffectsFailed e)
           end
      else Ok (fx3, d3) in
    Ok (s4, {| rs_creditReconciliation := credit; rs_created := true; rs_replayed := false; rs_operationRowId := Some (or_id o);
               rs_paymentId := ap_paymentId a; rs_invoicePaymentId := ap_invoicePaymentId a; rs_effectIds := map ef_id created;
               rs_storedClassification := op_classification op |}).

Definition record_once (now : Z) (s : St) (op : SettlementOperation) (operationId : string) (preResolved : option string)
    (authorized : list string) : result SettleError (St * SettlementResult) :=
  let! held := check_resolution s op operationId authorized in
  match operation_row (snd s) (op_kind op) operationId with
  | Some existing => replay_operation s op operationId existing
  | None =>
      let o := new_operation (snd s) op operationId authorized in
      perform now (fst s, with_ops (tick (snd s)) (sd_ops (snd s) ++ [o])) op operationId preResolved held o
  end.

Definition recordSettlementOperation (now : Z) (s : St) (op0 : SettlementOperation) : result SettleError (St * SettlementResult) :=
  guard! String.eqb (sd_store (snd s)) (op_storeId op0) or WrongScope in
  let! authorized0 := check_operation op0 in
  let! q := revalidate (snd s) op0 authorized0 in
  let '(op, authorized) := q in
  let! i := resolve_identity gen_random_uuid (snd s) op in
  let '(d1, operationId, preResolved) := i in
  if bool_decide (op_kind op ∈ MONOTONE_KINDS) then
    let! r := apply_all now op preResolved (fst s, d1) in
    Ok (fst r, {| rs_creditReconciliation := None; rs_created := true; rs_replayed := false; rs_operationRowId := None;
                  rs_paymentId := ap_paymentId (snd r); rs_invoicePaymentId := None; rs_effectIds := []; rs_storedClassification := None |})
  else record_once now (fst s, d1) op operationId preResolved authorized.
End Settle.
