(* ===== verification/SettlementFacts.v ===== *)
(** What the settlement chokepoint guarantees ([Settlement.v]).

    [ChokepointDeps] is the discipline that scripts/assert-settlement-chokepoint.mjs
    enforces on the rest of the code base: no other component writes payments,
    invoice payments, settlement operations (licence links apart) or order
    states. Under it the invariant [settle_ok] and the relation [settles] between
    the tables before and after an operation hold for every outcome. *)

From S2P Require Import Prelude Json OrderState Tender Effects Settlement.
From Stdlib Require Import ZArith QArith Lia Bool String.
From stdpp Require Import base list strings sets pretty relations.
Local Open Scope Z_scope.

(** ** The frame other components keep *)

(** An operation row up to the licence recorded on it later. *)
Definition unlicensed (o : OperationRow) : OperationRow :=
  {| or_id := or_id o; or_kind := or_kind o; or_operationId := or_operationId o; or_classification := or_classification o;
     or_authorizedEffects := or_authorizedEffects o; or_disposition := or_disposition o;
     or_paymentId := or_paymentId o; or_orderId := or_orderId o; or_licenseId := None;
     or_invoicePaymentId := or_invoicePaymentId o; or_paymentIntent := or_paymentIntent o; or_providerAccount := or_providerAccount o;
     or_providerMode := or_providerMode o; or_targetKind := or_targetKind o; or_targetId := or_targetId o; or_actor := or_actor o;
     or_reason := or_reason o; or_snapshot := or_snapshot o |}.
(** What settlement decides by: the identity, the state, the total and the quarantine of an order. *)
Definition order_facts (o : Order) : string * string * option string * OrderState * Z * bool :=
  (so_id o, so_code o, so_idempotencyKey o, so_state o, so_grandTotal o, importedFinancialReconciliationRequired (so_metadata o)).

Record money_frame {X} (d d' : SettleDb X) : Prop := {
  mf_store : sd_store d' = sd_store d;
  mf_payments : sd_payments d' = sd_payments d;
  mf_invoices : sd_invoices d' = sd_invoices d;
  mf_refunds : sd_refunds d' = sd_refunds d;
  mf_edits : sd_edits d' = sd_edits d;
  mf_orders : map order_facts (sd_orders d') = map order_facts (sd_orders d);
  mf_ops : map unlicensed (sd_ops d') = map unlicensed (sd_ops d);
  mf_fresh : (sd_fresh d <= sd_fresh d')%nat
}.
#[export] Instance money_frame_preorder {X} : PreOrder (@money_frame X).
Proof.
  split; [by constructor|]. intros d1 d2 d3 [] []. constructor; first [congruence | lia].
Qed.

Class ChokepointDeps (X : Type) `{SettlementDeps X} : Prop := {
  credit_frame d orderId : money_frame d (fst (postAcceptedCredit d orderId));
  consume_frame d orderId paymentId operationId d' ids :
    consumeForSettlement d orderId paymentId operationId = Ok (d', ids) -> money_frame d d';
  handler_frame kind run d row d' out : handler_of kind = Some (LocalHandler run) -> run d row = Ok (d', out) -> money_frame d d'
}.

(** ** Effect rows a transaction can leave behind *)

Definition op_of (r : EffectRow) : string * string := (ef_operationKind r, ef_operationId r).
(** [r'] belongs to the operation of a row of [rows] and has its kind, or is a review. *)
Definition sprung (rows : list EffectRow) (r' : EffectRow) : Prop :=
  exists r, r ∈ rows /\ op_of r' = op_of r /\ (ef_kind r' = ef_kind r \/ is_review (ef_kind r') = true).
Definition grows (fx fx' : FxDb) : Prop := forall r', r' ∈ fx_rows fx' -> sprung (fx_rows fx) r'.

Lemma sprung_refl rows r : r ∈ rows -> sprung rows r.
Proof. intros H. exists r. auto. Qed.
Lemma grows_refl fx : grows fx fx.
Proof. intros r. apply sprung_refl. Qed.
Lemma grows_trans fx1 fx2 fx3 : grows fx1 fx2 -> grows fx2 fx3 -> grows fx1 fx3.
Proof.
  intros G1 G2 r3 H3. destruct (G2 r3 H3) as (r2 & H2 & O2 & K2). destruct (G1 r2 H2) as (r1 & H1 & O1 & K1).
  exists r1. split; [done|]. split; [congruence|]. destruct K2 as [K2|K2]; [|by right]. rewrite K2.
  destruct K1; [by left|by right].
Qed.
Lemma grows_update fx p f : keeps_identity f -> grows fx (with_fx_rows fx (update_where p f (fx_rows fx))).
Proof.
  intros Hf r' H. cbn in H. unfold update_where in H. apply list_elem_of_fmap in H as (r & -> & Hr). exists r. split; [done|].
  destruct (p r); [|auto]. pose proof (Hf r) as E. injection E as _ E1 E2 E3. unfold op_of. rewrite E1, E2, E3. auto.
Qed.
Lemma grows_rows fx fx1 fx2 : fx_rows fx1 = fx_rows fx2 -> grows fx fx1 -> grows fx fx2.
Proof. intros E G r. rewrite <- E. apply G. Qed.

Section Exec.
Context {D : Type} (gen_random_uuid : nat -> string) (handlers : string -> option (EffectHandler (D := D))).

(** What an enqueue adds belongs to the operation and was requested. *)
Lemma enqueueEffects_rows now fx kind id requests r :
  r ∈ fx_rows (fst (enqueueEffects gen_random_uuid now fx kind id requests)) ->
  r ∈ fx_rows fx \/ (op_of r = (kind, id) /\ exists req, req ∈ requests /\ ef_kind r = rq_kind req).
Proof.
  unfold enqueueEffects.
  assert (G : forall reqs acc, r ∈ fx_rows (fst (fold_left (enqueue_one gen_random_uuid now kind id) reqs acc)) ->
    r ∈ fx_rows (fst acc) \/ (op_of r = (kind, id) /\ exists req, req ∈ reqs /\ ef_kind r = rq_kind req)).
  { induction reqs as [|q qs IH]; intros acc H; cbn in H; [by left|].
    apply IH in H as [H|(O & x & Hx & E)]; [|right; split; [done|]; exists x; split; [by right|done]].
    destruct acc as [db created]. unfold enqueue_one in H. cbn [fst] in *. destruct (existsb _ _); [by left|].
    assert (H' : r ∈ fx_rows db ++ [new_row gen_random_uuid db now kind id q]) by (destruct (is_review (rq_kind q)); exact H).
    apply elem_of_app in H' as [H'|H']; [by left|]. apply list_elem_of_singleton in H'. subst r.
    right. split; [done|]. exists q. split; [by left|done]. }
  apply G.
Qed.

Lemma fenced_grows fx row f fx' : keeps_identity f -> fenced_update fx row f = Ok fx' -> grows fx fx'.
Proof. intros Hf H. apply fenced_update_spec in H as [_ ->]. by apply grows_update. Qed.

Lemma markTerminal_grows now fx row reason fx' : sprung (fx_rows fx) row ->
  markTerminal gen_random_uuid now fx row reason = Ok fx' -> grows fx fx'.
Proof.
  intros (r0 & H0 & O0 & K0) H. unfold markTerminal in H. inv_ok. apply fenced_grows in Em as G; [|by intros r].
  assert (G2 : grows fx (match List.find (holds_claim row) (fx_rows fx) with
    | Some r => announceTerminal a (release_row fx_terminal (ef_attempts r) (ef_nextAttemptAt r) (Some reason) (Some (or_else (ef_firstFailedAt row) now)) r)
    | None => a end)).
  { destruct (List.find _ _); [|done]. by apply (grows_rows fx a). }
  destruct (is_review (ef_kind row)); injection H as <-; [done|].
  intros r Hr. apply enqueueEffects_rows in Hr as [Hr|(O & q & Hq & E)]; [by apply G2|].
  apply list_elem_of_singleton in Hq. subst q. exists r0. split; [done|]. split; [by rewrite O, <- O0|]. right. by rewrite E.
Qed.

Lemma applyOutcome_grows now fx row out fx' res : sprung (fx_rows fx) row ->
  applyOutcome gen_random_uuid now fx row out = Ok (fx', res) -> grows fx fx'.
Proof.
  intros Hs H. unfold applyOutcome in H. destruct out as [|v|reason delay horizon|reason].
  - inv_ok. eapply fenced_grows; [|exact Em]. by intros r.
  - inv_ok. eapply fenced_grows; [|exact Em]. by intros r.
  - unfold markRetryOrTerminal in H. destruct (_ || _); inv_ok; [by eapply markTerminal_grows|].
    eapply fenced_grows; [|exact Em]. by intros r.
  - inv_ok. by eapply markTerminal_grows.
Qed.

(** Inline execution keeps every preorder that the local handlers keep. *)
Context (R : D -> D -> Prop) `{!PreOrder R}.
Context (keeps : forall kind run d row d' out, handlers kind = Some (LocalHandler run) -> run d row = Ok (d', out) -> R d d').

Lemma executeEffectsNow_keeps now fx d ids fx' d' applied :
  executeEffectsNow gen_random_uuid handlers now fx d ids = Ok (fx', d', applied) -> grows fx fx' /\ R d d'.
Proof.
  unfold executeEffectsNow. intros H.
  apply (fold_result_inv (fun acc : Inline => grows fx (fst (fst acc)) /\ R d (snd (fst acc)))) in H; [done|split; [apply grows_refl|done]|].
  intros [[db e] done_] row [[db' e'] done'] _ [G1 R1] Hrun. unfold run_inline in Hrun. cbn [fst snd] in *.
  destruct (handlers (ef_kind row)) as [[run|call complete]|] eqn:Eh; [|by injection Hrun as <- <- <-|discriminate].
  destruct (List.find _ (fx_rows db)) as [r|] eqn:Ef; [|by injection Hrun as <- <- <-].
  apply find_elem in Ef as [Hin Hp]. inv_ok. destruct a0 as [db2 res]. cbn [fst snd].
  match goal with H1 : thrown (run e _) = Ok _ |- _ => unfold thrown in H1; destruct (run e _) as [[e2 out]|] eqn:Er; [|discriminate]; injection H1 as <- end.
  cbn [fst snd] in *. split; [|etrans; [exact R1|by eapply keeps]].
  eapply grows_trans; [exact G1|]. match goal with H1 : applyOutcome _ _ ?x _ _ = _ |- _ => set (db1 := x) in * end.
  apply (grows_trans db db1).
  { apply (grows_rows db (with_fx_rows db (update_where (fun r => String.eqb (ef_id r) (ef_id row) && status_is fx_pending r) (claim_row now (gen_random_uuid (fx_fresh db))) (fx_rows db)))); [done|].
    apply grows_update. by intros x. }
  eapply applyOutcome_grows; [|eassumption]. exists (claim_row now (gen_random_uuid (fx_fresh db)) r). split; [|by split; [|left]].
  unfold db1. cbn. by apply update_where_elem.
Qed.
End Exec.

Lemma order_row_facts {X} (d d' : SettleDb X) id : map order_facts (sd_orders d') = map order_facts (sd_orders d) ->
  option_map order_facts (order_row d' id) = option_map order_facts (order_row d id).
Proof.
  unfold order_row. generalize (sd_orders d') as l'. induction (sd_orders d) as [|x xs IH]; intros [|y ys] H; try discriminate; [done|].
  cbn in *. injection H as H1 H2 H3 H4 H5 H6 H. rewrite H1. destruct (String.eqb (so_id x) id); [|by apply IH]. cbn.
  unfold order_facts. congruence.
Qed.

(** ** The invariant *)

Definition op_identity (o : OperationRow) : SettlementKind * string := (or_kind o, or_operationId o).
Definition invoice_key (q : string * InvoicePayment) : string * string * string :=
  (iv_stripeAccountId (snd q), iv_mode (snd q), iv_invoiceId (snd q)).
(** The effect kinds an operation row may have created. *)
Definition eligible (o : OperationRow) : list string :=
  if bool_decide (or_kind o = stripe_invoice_paid) || bool_decide (or_kind o = operator_resolution)
  then or_authorizedEffects o else pol_effects (OPERATION_POLICY (or_kind o)).
Definition frozen_policy (o : OperationRow) : Prop :=
  match or_kind o with
  | stripe_invoice_paid | operator_resolution =>
      exists c, or_classification o = Some c /\ forall e, e ∈ or_authorizedEffects o -> e ∈ INVOICE_AUTHORIZED_EFFECTS c
  | _ => or_authorizedEffects o = []
  end.
(** Every effect row belongs to a recorded operation that was eligible for it,
    or is a review. *)
Definition authorized_row (ops : list OperationRow) (r : EffectRow) : Prop :=
  exists o, o ∈ ops /\ op_of r = (kind_text (or_kind o), or_operationId o) /\ (ef_kind r ∈ eligible o \/ is_review (ef_kind r) = true).

Section Facts.
Context {X : Type} {deps : SettlementDeps X} {chokepoint : ChokepointDeps X} (gen_random_uuid : nat -> string) {Hinj : Inj (=) (=) gen_random_uuid}.
Implicit Types (d : SettleDb X).

Record tables_ok (d : SettleDb X) : Prop := {
  tk_payments : NoDup (map py_id (sd_payments d));
  tk_refs : NoDup (omap ref_key (sd_payments d));
  tk_orders : NoDup (map so_id (sd_orders d));
  tk_ops : NoDup (map op_identity (sd_ops d));
  tk_op_ids : NoDup (map or_id (sd_ops d)) /\ Forall (fun i => exists k, (k < sd_fresh d)%nat /\ i = gen_random_uuid k) (map or_id (sd_ops d));
  tk_invoices : NoDup (map invoice_key (sd_invoices d));
  tk_policy : Forall frozen_policy (sd_ops d)
}.
Record settle_ok (s : St (X := X)) : Prop := {
  sk_tables : tables_ok (snd s);
  sk_effects : Forall (authorized_row (sd_ops (snd s))) (fx_rows (fst s))
}.

Lemma map_proj {A B C} (f : A -> B) (g : B -> C) (h : A -> C) l l' : (forall x, h x = g (f x)) -> map f l' = map f l -> map h l' = map h l.
Proof. intros E H. rewrite (map_ext h (fun x => g (f x))), <- map_map, H, map_map by done. by apply map_ext. Qed.

Lemma kind_text_inj a b : kind_text a = kind_text b -> a = b.
Proof. by destruct a, b. Qed.

Lemma map_unlicensed_elem ops ops' o : map unlicensed ops' = map unlicensed ops -> o ∈ ops -> exists o', o' ∈ ops' /\ unlicensed o' = unlicensed o.
Proof.
  intros E Ho. assert (H : unlicensed o ∈ map unlicensed ops') by (rewrite E; by apply list_elem_of_fmap_2).
  apply list_elem_of_fmap in H as (o' & E' & Ho'). by exists o'.
Qed.
Lemma eligible_unlicensed o o' : unlicensed o' = unlicensed o ->
  or_id o' = or_id o /\ op_identity o' = op_identity o /\ eligible o' = eligible o /\ (frozen_policy o -> frozen_policy o').
Proof.
  intros E. injection E as E1 E2 E3 E4 E5 E6 E7 E8 E9. unfold op_identity, eligible, frozen_policy. rewrite E1, E2, E3, E4, E5. auto.
Qed.

(** Other components keep the invariant. *)
Lemma frame_ok d d' : money_frame d d' -> tables_ok d -> tables_ok d'.
Proof.
  intros [] [A B C D1 [E1 E2] F G]. constructor; try congruence.
  - rewrite (map_proj order_facts (fun x => x.1.1.1.1.1) so_id _ _ (fun _ => eq_refl) mf_orders0). done.
  - rewrite (map_proj unlicensed op_identity op_identity _ _ (fun _ => eq_refl) mf_ops0). done.
  - rewrite (map_proj unlicensed or_id or_id _ _ (fun _ => eq_refl) mf_ops0). split; [done|].
    eapply Forall_impl; [exact E2|]. intros i (k & Hk & ->). exists k. split; [lia|done].
  - apply Forall_forall. intros o Ho. destruct (map_unlicensed_elem _ _ _ (eq_sym mf_ops0) Ho) as (o0 & H0 & E0).
    rewrite Forall_forall in G. apply (eligible_unlicensed o0 o); [done|]. by apply G.
Qed.
Lemma authorized_frame ops ops' r : map unlicensed ops' = map unlicensed ops -> authorized_row ops r -> authorized_row ops' r.
Proof.
  intros E (o & Ho & I & K). destruct (map_unlicensed_elem _ _ _ E Ho) as (o' & Ho' & E').
  destruct (eligible_unlicensed _ _ E') as (_ & Ei & Ee & _). exists o'. split; [done|]. rewrite Ee.
  unfold op_identity in Ei. injection Ei as E1 E2. by rewrite E1, E2.
Qed.
Lemma authorized_sprung ops rows r' : Forall (authorized_row ops) rows -> sprung rows r' -> authorized_row ops r'.
Proof.
  intros H (r & Hr & O & K). rewrite Forall_forall in H. destruct (H r Hr) as (o & Ho & I & J). exists o. split; [done|].
  split; [congruence|]. destruct K as [K|K]; [|by right]. rewrite K. destruct J; auto.
Qed.
Lemma authorized_grows ops fx fx' : grows fx fx' -> Forall (authorized_row ops) (fx_rows fx) -> Forall (authorized_row ops) (fx_rows fx').
Proof. intros G H. apply Forall_forall. intros r Hr. by apply (authorized_sprung ops (fx_rows fx)), G. Qed.

(** ** What the mutations of one operation do *)

(** A settled payment stays as it is, up to identity columns that were NULL. *)
Definition kept (p p' : Payment) : Prop := exists mode account, p' = fill_identity mode account p.
(** A payment row goes on: its identity is fixed, and once settled all of it is. *)
Definition goes_on (p p' : Payment) : Prop :=
  py_id p' = py_id p /\ py_orderId p' = py_orderId p /\ py_method p' = py_method p /\ py_providerRef p' = py_providerRef p /\
  (py_state p = pay_Settled -> kept p p').
Definition paid_facts (o : Order) : string * string * option string * OrderState * Z * bool :=
  (so_id o, so_code o, so_idempotencyKey o, Paid, so_grandTotal o, importedFinancialReconciliationRequired (so_metadata o)).
(** Where an order row comes from: it is a row of before, possibly paid by the
    operation, or the operation inserted it. *)
Definition traced (muts : list SettlementMutation) (before : list Order) (o' : Order) : Prop :=
  (exists o, o ∈ before /\ so_id o' = so_id o /\
     (order_facts o' = order_facts o \/
      (order_facts o' = paid_facts o /\ canTransition (so_state o) Paid = true /\ (exists t u, order_paid (so_id o) t u ∈ muts)))) \/
  (exists rows r, order_insert rows ∈ muts /\ r ∈ rows /\ so_code o' = oi_code r).
Record effect_on (muts : list SettlementMutation) (d d' : SettleDb X) : Prop := {
  eo_store : sd_store d' = sd_store d;
  eo_fresh : (sd_fresh d <= sd_fresh d')%nat;
  eo_money : forall p, p ∈ sd_payments d -> (exists p', p' ∈ sd_payments d' /\ goes_on p p') \/ purge_order (py_orderId p) ∈ muts;
  eo_orders : forall o', o' ∈ sd_orders d' -> traced muts (sd_orders d) o'
}.

Lemma kept_refl p : kept p p.
Proof. exists None, None. unfold fill_identity, or_some. destruct p as [? ? ? [] [] ? ? ? ? ? ?]; done. Qed.
Lemma kept_trans p1 p2 p3 : kept p1 p2 -> kept p2 p3 -> kept p1 p3.
Proof.
  intros (m1 & a1 & ->) (m2 & a2 & ->). exists (or_some m1 m2), (or_some a1 a2).
  unfold fill_identity, or_some. cbn. destruct p1 as [? ? ? [] [] ? ? ? ? ? ?], m1, a1; done.
Qed.
Lemma kept_order p p' : kept p p' -> py_orderId p' = py_orderId p /\ py_state p' = py_state p /\ py_id p' = py_id p.
Proof. by intros (m & a & ->). Qed.
Lemma goes_on_refl p : goes_on p p.
Proof. repeat split. intros _. apply kept_refl. Qed.
Lemma goes_on_trans p1 p2 p3 : goes_on p1 p2 -> goes_on p2 p3 -> goes_on p1 p3.
Proof.
  intros (A1 & B1 & C1 & D1 & K1) (A2 & B2 & C2 & D2 & K2). repeat split; [congruence..|]. intros Hs. specialize (K1 Hs).
  eapply kept_trans; [exact K1|]. apply K2. by destruct (kept_order _ _ K1) as (_ & -> & _).
Qed.
Lemma traced_refl muts before o : o ∈ before -> traced muts before o.
Proof. intros H. left. exists o. auto. Qed.

Lemma effect_refl muts d d' : sd_store d' = sd_store d -> (sd_fresh d <= sd_fresh d')%nat ->
  sd_payments d' = sd_payments d -> sd_orders d' = sd_orders d -> effect_on muts d d'.
Proof.
  intros A C D E. constructor; [done|done| |].
  - intros p Hp. left. exists p. rewrite D. split; [done|apply goes_on_refl].
  - intros o Ho. rewrite E in Ho. by apply traced_refl.
Qed.
Lemma effect_trans muts d1 d2 d3 : effect_on muts d1 d2 -> effect_on muts d2 d3 -> effect_on muts d1 d3.
Proof.
  intros [A1 C1 D1 E1] [A2 C2 D2 E2]. constructor; [congruence|lia| |].
  - intros p Hp. destruct (D1 p Hp) as [(p2 & H2 & K2)|?]; [|by right]. pose proof K2 as (_ & Eo & _).
    destruct (D2 p2 H2) as [(p3 & H3 & K3)|Hpu]; [|right; by rewrite <- Eo].
    left. exists p3. split; [done|by eapply goes_on_trans].
  - intros o3 H3. destruct (E2 o3 H3) as [(o2 & H2 & I2 & F2)|?]; [|by right].
    destruct (E1 o2 H2) as [(o1 & H1 & I1 & F1)|(rows & r & Hr & Hin & Hc)].
    + left. exists o1. split; [done|]. split; [congruence|].
      destruct F2 as [F2|(F2 & T2 & M2)], F1 as [F1|(F1 & T1 & M1)].
      * left. congruence.
      * right. split; [congruence|done].
      * right. injection F1 as P1 P2 P3 P4 P5 P6. unfold paid_facts in *. rewrite F2, P1, P2, P3, P5, P6. split; [done|].
        split; [congruence|]. by rewrite <- P1.
      * exfalso. injection F1 as _ _ _ P4 _ _. rewrite P4 in T2. discriminate T2.
    + right. exists rows, r. split; [done|]. split; [done|].
      destruct F2 as [F2|(F2 & _)]; injection F2 as _ -> _ _ _ _; done.
Qed.

(** A change of one table, the others and the counter following. *)
Lemma ok_change d d' : tables_ok d -> (sd_fresh d <= sd_fresh d')%nat -> sd_ops d' = sd_ops d ->
  NoDup (map py_id (sd_payments d')) -> NoDup (omap ref_key (sd_payments d')) ->
  NoDup (map so_id (sd_orders d')) -> NoDup (map invoice_key (sd_invoices d')) -> tables_ok d'.
Proof.
  intros [A B C D1 [E1 E2] F G] Hf Ho. rewrite <- Ho in D1, E1, E2, G. constructor; try done.
  split; [done|]. eapply Forall_impl; [exact E2|]. intros i (k & Hk & ->). exists k. split; [lia|done].
Qed.
Lemma ok_tick d : tables_ok d -> tables_ok (tick d).
Proof. intros H. apply (ok_change d); cbn; try apply H; [lia|done]. Qed.



Lemma conflict_free p ps : existsb (payment_conflict p) ps = false ->
  (py_id p ∉ map py_id ps) /\ (forall k, ref_key p = Some k -> k ∉ omap ref_key ps).
Proof.
  intros H. assert (G : forall q, q ∈ ps -> payment_conflict p q = false).
  { intros q Hq. destruct (payment_conflict p q) eqn:E; [|done]. enough (existsb (payment_conflict p) ps = true) by congruence.
    apply existsb_exists. exists q. split; [by apply list_elem_of_In|done]. }
  split.
  - intros Hin. apply list_elem_of_fmap in Hin as (q & E & Hq). specialize (G q Hq). unfold payment_conflict in G. bool_props.
    rewrite E, String.eqb_refl in *. discriminate.
  - intros k Hk Hin. apply elem_omap in Hin as (q & Hq & E). specialize (G q Hq). unfold payment_conflict, same_ref in G. bool_props.
    rewrite Hk, E in *. rewrite !bool_decide_eq_true_2 in *; [discriminate|by eexists|done].
Qed.
Lemma snoc_payment_ok d p : tables_ok d -> existsb (payment_conflict p) (sd_payments d) = false ->
  tables_ok (with_payments (tick d) (sd_payments d ++ [p])).
Proof.
  intros H Hc. destruct (conflict_free _ _ Hc) as [Hid Href]. apply (ok_change d); cbn; try apply H; [lia|done| |].
  - by apply NoDup_map_snoc; [apply H|].
  - rewrite omap_app. cbn. destruct (ref_key p) as [k|] eqn:Ek; cbn; [|by rewrite app_nil_r; apply H].
    apply NoDup_app. split; [apply H|]. split; [|apply NoDup_singleton].
    intros k' Hk Hk'. apply list_elem_of_singleton in Hk'. subst k'. by apply (Href k).
Qed.

Lemma insert_payments_ok muts d rows d' ids : tables_ok d -> insert_payments gen_random_uuid d rows = Ok (d', ids) ->
  tables_ok d' /\ effect_on muts d d' /\ sd_orders d' = sd_orders d.
Proof.
  intros H Hi. unfold insert_payments in Hi.
  apply (fold_result_inv (fun acc : SettleDb X * list string => tables_ok (fst acc) /\ effect_on muts d (fst acc) /\ sd_orders (fst acc) = sd_orders d)) in Hi;
    [done|split; [done|split; [by apply effect_refl|done]]|].
  intros [e l] r [e' l'] _ (Ho & He & Hor) Hs. unfold insert_payment in Hs. cbn [fst] in *.
  destruct (existsb _ _) eqn:Ec.
  - injection Hs as <- <-. split; [by apply ok_tick|]. split; [|done]. eapply effect_trans; [exact He|]. apply effect_refl; cbn; done || lia.
  - destruct (order_row e (pi_orderId r)); [|discriminate]. injection Hs as <- <-. split; [by apply snoc_payment_ok|]. split; [|done].
    eapply effect_trans; [exact He|]. constructor; cbn; [done|lia| |intros ?; apply traced_refl].
    intros p Hp. left. exists p. split; [apply elem_of_app; by left|apply goes_on_refl].
Qed.

(** Updates of unsettled payments. *)
Lemma update_payments_ok muts d p f : tables_ok d ->
  (forall x, py_id (f x) = py_id x /\ py_orderId (f x) = py_orderId x /\ py_method (f x) = py_method x /\ py_providerRef (f x) = py_providerRef x) ->
  (forall x, ref_key (f x) = ref_key x) ->
  (forall x, x ∈ sd_payments d -> p x = true -> py_state x <> pay_Settled) ->
  tables_ok (with_payments d (set_where p f (sd_payments d))) /\ effect_on muts d (with_payments d (set_where p f (sd_payments d))).
Proof.
  intros H Hi Hr Hp. split.
  - apply (ok_change d); cbn; try apply H; [lia|done| |].
    + rewrite map_set_where by (intros; apply Hi). apply H.
    + rewrite omap_set_where by auto. apply H.
  - constructor; cbn; [done|lia| |intros ?; apply traced_refl].
    intros x Hx. left. eexists. split; [by apply set_where_elem|]. destruct (p x) eqn:Ep; [|apply goes_on_refl].
    destruct (Hi x) as (A & B & C & D1). repeat split; [done..|]. intros Hs. by destruct (Hp x Hx Ep).
Qed.

Lemma and3 (A B C : Prop) : A /\ B -> C -> A /\ B /\ C.
Proof. tauto. Qed.
Lemma payment_by_ref_elem d m r p : payment_by_ref d m r = Some p -> p ∈ sd_payments d /\ py_method p = m /\ py_providerRef p = r.
Proof. intros H. apply find_elem in H as [H1 H2]. bool_props. split; [done|]. split; [by apply String.eqb_eq|by eapply bool_decide_eq_true_1]. Qed.

Lemma adopt_ok muts d r d' id : tables_ok d -> adopt_pending d r = (d', id) -> tables_ok d' /\ effect_on muts d d' /\ sd_orders d' = sd_orders d.
Proof.
  intros H Ha. unfold adopt_pending in Ha. destruct (payment_by_ref _ _ _) as [ex|] eqn:Ee;
    [|injection Ha as <- <-; split; [done|split; [by apply effect_refl|done]]].
  destruct (_ && _ && _) eqn:Eb; injection Ha as <- <-; [|split; [done|split; [by apply effect_refl|done]]].
  bool_props. apply payment_by_ref_elem in Ee as (Hin & _).
  match goal with H1 : bool_decide (py_state ex = _) = true |- _ => apply bool_decide_eq_true_1 in H1; rename H1 into Hst end.
  apply and3; [|done]. apply update_payments_ok; [done|by intros x|done|].
  intros x Hx Hid. unfold has_payment_id in Hid. apply String.eqb_eq in Hid.
  assert (x = ex) as -> by (apply (NoDup_map_inj py_id (sd_payments d)); [apply H|done..]). by rewrite Hst.
Qed.

Lemma insert_order_ok muts now rows d d' : tables_ok d -> order_insert rows ∈ muts ->
  fold_result (insert_order gen_random_uuid now) d rows = Ok d' -> tables_ok d' /\ effect_on muts d d' /\ sd_payments d' = sd_payments d.
Proof.
  intros H Hm Hf.
  apply (fold_result_inv (fun e => tables_ok e /\ effect_on muts d e /\ sd_payments e = sd_payments d)) in Hf; [done|split; [done|split; [by apply effect_refl|done]]|].
  intros e r e' Hr (Ho & He & Hp) Hs. unfold insert_order in Hs. inv_ok. bool_props. set (o := order_of_insert _ _ _) in *.
  assert (Hid : so_id o ∉ map so_id (sd_orders e)).
  { intros Hin. apply list_elem_of_fmap in Hin as (q & E & Hq). assert (existsb (order_conflict o) (sd_orders e) = true); [|congruence].
    apply existsb_exists. exists q. split; [by apply list_elem_of_In|]. unfold order_conflict. by rewrite E, String.eqb_refl. }
  split; [|split; [|done]].
  - apply (ok_change e); cbn; try apply Ho; [lia|done|]. apply NoDup_map_snoc; [apply Ho|done].
  - eapply effect_trans; [exact He|]. constructor; cbn; [done|lia| |].
    + intros p Hin. left. exists p. split; [done|apply goes_on_refl].
    + intros x Hx. apply elem_of_app in Hx as [Hx|Hx]; [by apply traced_refl|]. apply list_elem_of_singleton in Hx. subst x.
      right. exists rows, r. by split.
Qed.


Lemma purge_ok muts d id d' : tables_ok d -> purge_order id ∈ muts -> purge_tables d id = Ok d' -> tables_ok d' /\ effect_on muts d d'.
Proof.
  intros H Hm Hp. unfold purge_tables in Hp. inv_ok.
  assert (G : forall e, sd_store e = sd_store d -> sd_ops e = sd_ops d -> sd_fresh e = sd_fresh d -> sd_invoices e = sd_invoices d ->
    sd_payments e = List.filter (fun p => negb (of_order id p)) (sd_payments d) ->
    (sd_orders e = sd_orders d \/ sd_orders e = List.filter (fun o => negb (String.eqb (so_id o) id)) (sd_orders d)) ->
    tables_ok e /\ effect_on muts d e).
  { intros e A B C D1 E F. split.
    - apply (ok_change d); rewrite ?C, ?E, ?D1; try done; try apply H.
      + apply NoDup_map_filter, H.
      + apply NoDup_omap_filter, H.
      + destruct F as [F|F]; rewrite F; [apply H|apply NoDup_map_filter, H].
    - constructor; [done|lia| |].
      + intros p Hin. destruct (of_order id p) eqn:Eo.
        * right. unfold of_order in Eo. apply String.eqb_eq in Eo. by rewrite Eo.
        * left. exists p. rewrite E. split; [|apply goes_on_refl]. apply elem_filter_bool. by rewrite Eo.
      + intros o Ho. apply traced_refl. destruct F as [F|F]; rewrite F in Ho; [done|apply elem_filter_bool in Ho as [? _]; done]. }
  destruct (order_row d id); inv_ok; apply G; auto.
Qed.

Lemma pay_order_ok muts d id cur placedAt updatedAt t u : tables_ok d -> order_row d id = Some cur -> canTransition (so_state cur) Paid = true ->
  order_paid id t u ∈ muts ->
  let d' := with_orders d (set_where (fun o => String.eqb (so_id o) id) (pay_order placedAt updatedAt) (sd_orders d)) in
  tables_ok d' /\ effect_on muts d d'.
Proof.
  intros H Hc Ht Hm d'. apply find_elem in Hc as [Hin Hid]. apply String.eqb_eq in Hid. split.
  - apply (ok_change d); cbn; try apply H; [lia|done|]. rewrite map_set_where by done. apply H.
  - constructor; cbn; [done|lia| |].
    + intros p Hp. left. exists p. split; [done|apply goes_on_refl].
    + intros o' Ho'. apply elem_set_where in Ho' as (o & Ho & ->). destruct (String.eqb (so_id o) id) eqn:E; [|by apply traced_refl].
      apply String.eqb_eq in E. left. exists o. split; [done|]. split; [done|]. right. split; [done|].
      assert (o = cur) as -> by (apply (NoDup_map_inj so_id (sd_orders d)); [apply H|done|done|congruence]).
      split; [done|]. exists t, u. by rewrite E.
Qed.

Lemma identity_ok muts d id mode account : tables_ok d ->
  refs_unique (set_where (has_payment_id id) (fill_identity mode account) (sd_payments d)) = true ->
  let d' := with_payments d (set_where (has_payment_id id) (fill_identity mode account) (sd_payments d)) in
  tables_ok d' /\ effect_on muts d d'.
Proof.
  intros H Hr d'. apply bool_decide_eq_true_1 in Hr. split.
  - apply (ok_change d); cbn; try apply H; [lia|done| |done]. rewrite map_set_where by done. apply H.
  - constructor; cbn; [done|lia| |intros ?; apply traced_refl]. intros p Hp. left. eexists. split; [by apply set_where_elem|].
    destruct (has_payment_id id p); [repeat split; by exists mode, account|apply goes_on_refl].
Qed.

Lemma record_invoice_ok muts d row d' id : tables_ok d -> record_invoice gen_random_uuid d row = (d', id) ->
  tables_ok d' /\ effect_on muts d d'.
Proof.
  intros H Hr. unfold record_invoice in Hr. destruct (existsb _ (sd_payments d)); [injection Hr as <- <-; split; [done|by apply effect_refl]|].
  destruct (existsb _ (sd_invoices d)) eqn:Ec; injection Hr as <- <-.
  { split; [by apply ok_tick|]. apply effect_refl; cbn; done || lia. }
  split; [|apply effect_refl; cbn; done || lia]. apply (ok_change d); cbn; try apply H; [lia|done|].
  apply NoDup_map_snoc; [apply H|]. intros Hin. apply list_elem_of_fmap in Hin as (q & E & Hq).
  assert (existsb (fun q => invoice_conflict row (snd q)) (sd_invoices d) = true); [|congruence].
  apply existsb_exists. exists q. split; [by apply list_elem_of_In|]. unfold invoice_key in E. cbn in E. injection E as E1 E2 E3.
  unfold invoice_conflict. by rewrite E1, E2, E3, !String.eqb_refl.
Qed.

Lemma apply_payment_insert_ok muts d op out rows d' out' : tables_ok d ->
  apply_payment_insert gen_random_uuid d op out rows = Ok (d', out') -> tables_ok d' /\ effect_on muts d d'.
Proof.
  intros H Ha. unfold apply_payment_insert in Ha. inv_ok. destruct a as [d1 ids]. cbn [fst snd] in *.
  destruct (insert_payments_ok muts _ _ _ _ H Em) as (O1 & E1 & _).
  destruct ids as [|i is_]; [|by injection Ha as <- _]. destruct rows as [|r [|]]; try by injection Ha as <- _.
  destruct (_ && _); [|by injection Ha as <- _]. destruct (adopt_pending d1 r) as [d2 i] eqn:Ep. injection Ha as <- _.
  destruct (adopt_ok muts _ _ _ _ O1 Ep) as (O2 & E2 & _). split; [done|by eapply effect_trans].
Qed.

Lemma apply_mutation_ok now op pre fx d out im fx' d' out' : tables_ok d -> snd im ∈ op_mutations op ->
  apply_mutation gen_random_uuid now op pre ((fx, d), out) im = Ok ((fx', d'), out') ->
  tables_ok d' /\ effect_on (op_mutations op) d d' /\ map identity (fx_rows fx') = map identity (fx_rows fx).
Proof.
  intros H Hm Ha. destruct im as [i m]. cbn [snd fst] in *. unfold apply_mutation in Ha. cbn [snd fst] in Ha.
  destruct m as [rows|id next|id mode account|id placedAt updatedAt|rows|row|id].
  - destruct (_ && _); [injection Ha as <- <- _; split; [done|]; split; [by apply effect_refl|done]|].
    inv_ok. destruct a as [d1 o1]. cbn [fst]. apply and3; [|done]. by eapply apply_payment_insert_ok.
  - injection Ha as <- <- _. apply and3; [|done]. apply update_payments_ok; [done|by intros x|done|].
    intros x _ Hx. bool_props. unfold unsettled in *. bool_props. by eapply bool_decide_eq_false_1.
  - inv_ok. apply and3; [|done]. by apply identity_ok.
  - destruct (order_row d id) as [cur|] eqn:Eo; [|discriminate]. inv_ok. apply and3; [|done]. by eapply pay_order_ok.
  - inv_ok. destruct (insert_order_ok _ _ _ _ _ H Hm Em) as (A & B & _). done.
  - destruct (record_invoice _ d row) as [d1 id] eqn:Er. injection Ha as <- <- _. apply and3; [|done]. by eapply record_invoice_ok.
  - inv_ok. apply and3; [by eapply purge_ok|]. by apply update_identity.
Qed.

Lemma combine_seq_elem {A} (l : list A) n k i x : (i, x) ∈ combine (List.seq n k) l -> x ∈ l.
Proof. intros H. apply list_elem_of_In in H. apply in_combine_r in H. by apply list_elem_of_In. Qed.
Lemma apply_all_ok now op pre fx d fx' d' out : tables_ok d -> apply_all gen_random_uuid now op pre (fx, d) = Ok ((fx', d'), out) ->
  tables_ok d' /\ effect_on (op_mutations op) d d' /\ map identity (fx_rows fx') = map identity (fx_rows fx).
Proof.
  intros H Ha. unfold apply_all in Ha.
  apply (fold_result_inv (fun acc : St * Applied => tables_ok (snd (fst acc)) /\ effect_on (op_mutations op) d (snd (fst acc)) /\
    map identity (fx_rows (fst (fst acc))) = map identity (fx_rows fx))) in Ha; [done|split; [done|split; [by apply effect_refl|done]]|].
  intros [[fx1 d1] o1] [i m] [[fx2 d2] o2] Him (O1 & E1 & I1) Hs. cbn [fst snd] in *.
  destruct (apply_mutation_ok now op pre fx1 d1 o1 (i, m) fx2 d2 o2 O1 (combine_seq_elem _ _ _ _ _ Him) Hs) as (O2 & E2 & I2).
  split; [done|]. split; [by eapply effect_trans|congruence].
Qed.

Lemma insert_payments_ops d rows d' ids : insert_payments gen_random_uuid d rows = Ok (d', ids) -> sd_ops d' = sd_ops d.
Proof.
  intros Hi. unfold insert_payments in Hi.
  apply (fold_result_inv (fun acc : SettleDb X * list string => sd_ops (fst acc) = sd_ops d)) in Hi; [done|done|].
  intros [e1 l1] r [e2 l2] _ He Hs. unfold insert_payment in Hs. destruct (existsb _ _); [by injection Hs as <- _|].
  destruct (order_row _ _); [by injection Hs as <- _|discriminate].
Qed.
Lemma apply_mutation_ops now op pre fx d out im fx' d' out' :
  apply_mutation gen_random_uuid now op pre ((fx, d), out) im = Ok ((fx', d'), out') -> sd_ops d' = sd_ops d.
Proof.
  destruct im as [i m]. unfold apply_mutation. cbn [fst snd]. intros Ha.
  destruct m as [rows|id next|id mode account|id placedAt updatedAt|rows|row|id].
  - destruct (_ && _); [by injection Ha as _ <- _|]. inv_ok. destruct a as [d1 o1]. cbn [fst]. unfold apply_payment_insert in Em.
    inv_ok. destruct a as [d2 ids]. cbn [fst snd] in *. apply insert_payments_ops in Em0. rewrite <- Em0.
    destruct ids as [|x xs]; [|by injection Em as <- _]. destruct rows as [|r [|]]; try by injection Em as <- _.
    destruct (_ && _); [|by injection Em as <- _]. unfold adopt_pending in Em. destruct (payment_by_ref _ _ _); [|by injection Em as <- _].
    destruct (_ && _ && _); by injection Em as <- _.
  - by injection Ha as _ <- _.
  - by inv_ok.
  - destruct (order_row d id); [|discriminate]. by inv_ok.
  - inv_ok. apply (fold_result_inv (fun e => sd_ops e = sd_ops d)) in Em; [done|done|].
    intros e r e' _ He Hs. unfold insert_order in Hs. by inv_ok.
  - unfold record_invoice in Ha. destruct (existsb _ _); [by injection Ha as _ <- _|]. destruct (existsb _ _); by injection Ha as _ <- _.
  - inv_ok. unfold purge_tables in Em. inv_ok. destruct (order_row d id); by inv_ok.
Qed.
Lemma apply_all_ops now op pre fx d fx' d' out : apply_all gen_random_uuid now op pre (fx, d) = Ok ((fx', d'), out) -> sd_ops d' = sd_ops d.
Proof.
  intros Ha. unfold apply_all in Ha.
  apply (fold_result_inv (fun acc : St * Applied => sd_ops (snd (fst acc)) = sd_ops d)) in Ha; [done|done|].
  intros [[fx1 d1] o1] im [[fx2 d2] o2] _ E Hs. cbn [fst snd] in *. apply apply_mutation_ops in Hs. congruence.
Qed.

Lemma frame_effect muts d d' : money_frame d d' -> effect_on muts d d'.
Proof.
  intros []. constructor; [done|done| |].
  - intros p Hp. left. exists p. rewrite mf_payments0. split; [done|apply goes_on_refl].
  - intros o' Ho'. assert (H : order_facts o' ∈ map order_facts (sd_orders d)) by (rewrite <- mf_orders0; by apply list_elem_of_fmap_2).
    apply list_elem_of_fmap in H as (o & E & Ho). left. exists o. split; [done|]. split; [by injection E|by left].
Qed.
Lemma effect_sub muts muts' d d' : muts ⊆ muts' -> effect_on muts d d' -> effect_on muts' d d'.
Proof.
  intros Hs [A B C D]. constructor; [done|done| |].
  - intros p Hp. destruct (C p Hp); [by left|right; by apply Hs].
  - intros o Ho. destruct (D o Ho) as [(x & Hx & I & F)|(rows & r & M & R)].
    + left. exists x. split; [done|]. split; [done|]. destruct F as [F|(F & T & t & u & M)]; [by left|]. right. split; [done|].
      split; [done|]. exists t, u. by apply Hs.
    + right. exists rows, r. split; [by apply Hs|done].
Qed.

(** ** Recording an operation *)

Definition op_allowed (op : SettlementOperation) (o : OperationRow) : Prop :=
  or_kind o = op_kind op /\ frozen_policy o /\ forall e, e ∈ op_effects op -> rq_kind e ∈ eligible o.

Lemma authorized_subset op l : authorized_effects op = Ok l ->
  match op_kind op with
  | stripe_invoice_paid | operator_resolution => exists c, op_classification op = Some c /\ forall e, e ∈ l -> e ∈ INVOICE_AUTHORIZED_EFFECTS c
  | _ => True
  end.
Proof.
  intros H. unfold authorized_effects in H. destruct (op_kind op) eqn:Ek; try done.
  - destruct (op_classification op) as [c|]; [|discriminate]. cbn [bind_result] in H. inv_ok. by exists c.
  - destruct (op_resolution op) as [r|]; [|by inv_ok]. destruct (op_classification op) as [c|]; [|by inv_ok]. exists c. split; [done|].
    cbn [bind_result is_some] in H. destruct (Bool.eqb _ _); [|discriminate]. destruct (bool_decide _).
    + destruct (_ && _); [|discriminate]. injection H as <-. intros e He. by apply elem_of_nil in He.
    + injection H as <-. intros e He. by apply elem_filter_bool in He as [He _].
Qed.
Lemma check_effects op authorized u : map_result (check_effect (op_kind op) authorized) (op_effects op) = Ok u ->
  forall e, e ∈ op_effects op -> rq_kind e ∈ pol_effects (OPERATION_POLICY (op_kind op)) /\ rq_kind e ∈ authorized.
Proof.
  intros H e He. apply map_result_Forall2 in H. apply list_elem_of_lookup in He as [i Hi].
  destruct (Forall2_lookup_l _ _ _ _ _ H Hi) as (y & _ & Hy). unfold check_effect in Hy. inv_ok.
  split; by eapply bool_decide_eq_true_1.
Qed.
Lemma frozen_from_authorized d op operationId l :
  match op_kind op with
  | stripe_invoice_paid | operator_resolution => exists c, op_classification op = Some c /\ forall e, e ∈ l -> e ∈ INVOICE_AUTHORIZED_EFFECTS c
  | _ => True
  end -> frozen_policy (new_operation gen_random_uuid d op operationId l).
Proof. unfold frozen_policy, new_operation. cbn. by destruct (op_kind op). Qed.

(** The row of a checked operation, quarantined or not, authorises its effects. *)
Lemma revalidated_allowed d op0 l0 op l (e : SettleDb X) operationId : check_operation op0 = Ok l0 -> revalidate d op0 l0 = Ok (op, l) ->
  op_allowed op (new_operation gen_random_uuid e op operationId l).
Proof.
  intros Hc Hr. unfold check_operation in Hc. inv_ok. apply authorized_subset in Em0 as Ha.
  pose proof (check_effects _ _ _ Em1) as He. unfold revalidate in Hr. inv_ok. destruct (existsb _ _); injection Hr as <- <-.
  - split; [done|]. split; [|by intros x ?%elem_of_nil]. apply frozen_from_authorized. cbn. destruct (op_kind op0); try done.
    + destruct Ha as (c & Hc & _). exists c. split; [done|]. by intros x ?%elem_of_nil.
    + destruct Ha as (c & Hc & _). exists c. split; [done|]. by intros x ?%elem_of_nil.
  - split; [done|]. split; [by apply frozen_from_authorized|]. intros x Hx. destruct (He x Hx) as [H1 H2].
    unfold eligible, new_operation. cbn. by destruct (_ || _).
Qed.

(** Rewriting operation rows without touching what the invariant reads. *)
Definition same_op (o' o : OperationRow) : Prop :=
  or_id o' = or_id o /\ op_identity o' = op_identity o /\ eligible o' = eligible o /\ (frozen_policy o -> frozen_policy o') /\
  or_disposition o' = or_disposition o.
Lemma same_op_refl o : same_op o o.
Proof. by repeat split. Qed.
Lemma same_op_trans o1 o2 o3 : same_op o3 o2 -> same_op o2 o1 -> same_op o3 o1.
Proof. intros (A1 & B1 & C1 & D1 & E1) (A2 & B2 & C2 & D2 & E2). repeat split; [congruence..|auto|congruence]. Qed.
Lemma link_same a op o : same_op (link_operation a op o) o.
Proof. by repeat split. Qed.
Lemma unlicensed_same o o' : unlicensed o' = unlicensed o -> same_op o' o.
Proof.
  intros E. destruct (eligible_unlicensed _ _ E) as (A & B & C & D1). split; [done|]. split; [done|]. split; [done|]. split; [done|].
  by injection E.
Qed.
Lemma ok_ops d p f : (forall o, same_op (f o) o) -> tables_ok d -> tables_ok (with_ops d (set_where p f (sd_ops d))).
Proof.
  intros Hf [A B C D1 [E1 E2] F G]. constructor; cbn; try done.
  - rewrite map_set_where; [done|]. intros o _ _. apply Hf.
  - rewrite map_set_where; [done|]. intros o _ _. apply Hf.
  - apply Forall_forall. intros o' Ho'. apply elem_set_where in Ho' as (o & Ho & ->). rewrite Forall_forall in G. specialize (G o Ho).
    destruct (p o); [|done]. by apply (Hf o).
Qed.
Lemma authorized_ops ops p f r : (forall o, same_op (f o) o) -> authorized_row ops r -> authorized_row (set_where p f ops) r.
Proof.
  intros Hf (o & Ho & I & K). eexists. split; [by apply set_where_elem|]. destruct (p o); [|done].
  destruct (Hf o) as (_ & Ei & Ee & _). unfold op_identity in Ei. injection Ei as E1 E2. by rewrite E1, E2, Ee.
Qed.

Lemma delete_ok s o : settle_ok s -> o ∈ sd_ops (snd s) -> settle_ok (delete_operation s o).
Proof.
  intros [[A B C D1 [E1 E2] F G] H] Ho. split.
  - constructor; cbn; try done.
    + by apply NoDup_map_filter.
    + split; [by apply NoDup_map_filter|]. apply Forall_forall. intros i Hi. rewrite Forall_forall in E2. apply E2.
      apply list_elem_of_fmap in Hi as (x & -> & Hx). apply elem_filter_bool in Hx as [Hx _]. by apply list_elem_of_fmap_2.
    + by apply Forall_filter_bool.
  - cbn. apply Forall_forall. intros r Hr. apply elem_filter_bool in Hr as [Hr Hn]. rewrite Forall_forall in H.
    destruct (H r Hr) as (x & Hx & I & K). exists x. split; [|done]. apply elem_filter_bool. split; [done|].
    destruct (String.eqb (or_id x) (or_id o)) eqn:Eid; [|done]. apply String.eqb_eq in Eid.
    assert (x = o) as -> by (apply (NoDup_map_inj or_id (sd_ops (snd s))); done).
    unfold op_of in I. injection I as I1 I2. rewrite I1, I2, !String.eqb_refl in Hn. discriminate.
Qed.

Lemma execute_nothing now fx d : executeEffectsNow gen_random_uuid handler_of now fx d [] = Ok (fx, d, []).
Proof. unfold executeEffectsNow. cbn [existsb andb]. induction (fx_rows fx) as [|r rs IH]; cbn; [done|exact IH]. Qed.

Lemma consumption_frame d op a oid d' credit ids : consumption d op a oid = Ok (d', credit, ids) -> money_frame d d'.
Proof.
  unfold consumption. intros H. destruct (negb _); [by injection H as <- _ _|].
  destruct (or_some _ _) as [orderId|]; [|by injection H as <- _ _]. destruct (quarantined_order d orderId); [by injection H as <- _ _|].
  pose proof (credit_frame d orderId) as F1. destruct (postAcceptedCredit d orderId) as [d1 cr]. cbn [fst] in F1.
  destruct (consumeForSettlement d1 orderId _ oid) as [[d2 l]|] eqn:Ec; [|discriminate]. injection H as <- _ _.
  etrans; [exact F1|by eapply consume_frame].
Qed.
Lemma carry_kind ids e : rq_kind (carry_reservations ids e) = rq_kind e.
Proof. unfold carry_reservations. by destruct (_ && _). Qed.
Lemma resolve_held_identity fx op held i : map identity (fx_rows (resolve_held fx op held i)) = map identity (fx_rows fx).
Proof. unfold resolve_held. destruct (_ && _); [|done]. by apply update_identity. Qed.
Lemma authorized_identity ops rows rows' : map identity rows' = map identity rows ->
  Forall (authorized_row ops) rows -> Forall (authorized_row ops) rows'.
Proof.
  intros E H. apply Forall_forall. intros r' Hr'. assert (Hi : identity r' ∈ map identity rows) by (rewrite <- E; by apply list_elem_of_fmap_2).
  apply list_elem_of_fmap in Hi as (r & Ei & Hr). rewrite Forall_forall in H. destruct (H r Hr) as (o & Ho & I & K).
  exists o. injection Ei as _ E1 E2 E3. unfold op_of. rewrite E1, E2, E3. done.
Qed.

Lemma exec_ok now fx d mode ids fx' d' : tables_ok d -> Forall (authorized_row (sd_ops d)) (fx_rows fx) ->
  (if bool_decide (or_else mode mode_inline = mode_inline)
   then match executeEffectsNow gen_random_uuid handler_of now fx d ids with
        | Ok (fx4, d4, _) => Ok (fx4, d4) | Err e => Err (EffectsFailed e) end
   else Ok (fx, d)) = Ok (fx', d') -> settle_ok (fx', d') /\ money_frame d d' /\ grows fx fx'.
Proof.
  intros Hd Hfx H. destruct (bool_decide _); [|injection H as <- <-; split; [done|split; [done|apply grows_refl]]].
  destruct (executeEffectsNow _ _ _ _ _ _) as [[[fx4 d4] ap]|] eqn:Ex; [|discriminate]. injection H as <- <-.
  apply (executeEffectsNow_keeps gen_random_uuid handler_of money_frame) in Ex as [G M]; [|intros; by eapply handler_frame].
  split; [|done]. split; cbn [fst snd]; [by eapply frame_ok|]. apply (authorized_grows _ fx); [done|].
  eapply Forall_impl; [exact Hfx|]. intros r. apply authorized_frame. by destruct M.
Qed.

Lemma enqueue_ok now fx o kind id reqs ops : Forall (authorized_row ops) (fx_rows fx) -> o ∈ ops ->
  kind = kind_text (or_kind o) -> id = or_operationId o -> (forall e, e ∈ reqs -> rq_kind e ∈ eligible o) ->
  Forall (authorized_row ops) (fx_rows (fst (enqueueEffects gen_random_uuid now fx kind id reqs))).
Proof.
  intros H Ho -> -> He. apply Forall_forall. intros r Hr. rewrite Forall_forall in H.
  apply enqueueEffects_rows in Hr as [Hr|(O & q & Hq & E)]; [by apply H|]. exists o. split; [done|]. split; [done|]. left. rewrite E. by apply He.
Qed.

Lemma perform_ok now s op oid pre held o s' res : settle_ok s -> o ∈ sd_ops (snd s) -> op_allowed op o -> or_operationId o = oid ->
  perform gen_random_uuid now s op oid pre held o = Ok (s', res) ->
  settle_ok s' /\ effect_on (op_mutations op) (snd s) (snd s') /\
  (op_effects op = [] -> forall r', r' ∈ fx_rows (fst s') -> identity r' ∈ map identity (fx_rows (fst s))) /\
  (rs_created res = true -> rs_operationRowId res = Some (or_id o) /\ exists o', o' ∈ sd_ops (snd s') /\ same_op o' o) /\
  rs_replayed res = false /\
  (forall x, x ∈ sd_ops (snd s) -> or_id x <> or_id o -> exists x', x' ∈ sd_ops (snd s') /\ same_op x' x).
Proof.
  intros [Hd Hfx] Ho (Hk & _ & He) Hoid H. destruct s as [fx d]. cbn [fst snd] in *. unfold perform in H. inv_ok. destruct a as [[fx1 d1] a].
  destruct (apply_all_ok _ _ _ _ _ _ _ _ Hd Em) as (O1 & E1 & I1). apply apply_all_ops in Em as P1.
  assert (A1 : Forall (authorized_row (sd_ops d1)) (fx_rows fx1)) by (rewrite P1; by apply (authorized_identity _ (fx_rows fx))).
  destruct (inserted_nothing op a).
  { injection H as <- <-. split; [apply delete_ok; [by split|cbn [snd]; by rewrite P1]|]. cbn. split; [by destruct E1|]. split.
    - intros _ r' Hr'. apply elem_filter_bool in Hr' as [Hr' _]. rewrite <- I1. by apply list_elem_of_fmap_2.
    - split; [done|]. split; [done|]. intros x Hx Hn. exists x. split; [|apply same_op_refl]. apply elem_filter_bool. rewrite P1. split; [done|].
      apply negb_true_iff. by apply String.eqb_neq. }
  inv_ok. destruct a0 as [[d3 credit] ids]. apply consumption_frame in Em0 as M2.
  set (d2 := with_ops d1 _) in *. set (fx2 := resolve_held _ _ _ _) in *.
  assert (L : forall x, same_op (link_operation a op x) x) by apply link_same.
  assert (O2 : tables_ok d2) by by apply ok_ops. assert (O3 : tables_ok d3) by by eapply frame_ok.
  assert (I2 : map identity (fx_rows fx2) = map identity (fx_rows fx)) by (unfold fx2; by rewrite resolve_held_identity).
  assert (A2 : Forall (authorized_row (sd_ops d3)) (fx_rows fx2)).
  { eapply Forall_impl; [apply (authorized_identity (sd_ops d1) (fx_rows fx1)); [by rewrite I1|exact A1]|].
    intros r Hr. eapply authorized_frame; [by destruct M2|]. by apply authorized_ops. }
  assert (Ho3 : exists o3, o3 ∈ sd_ops d3 /\ same_op o3 o).
  { rewrite <- P1 in Ho. pose proof (set_where_elem (fun x => String.eqb (or_id x) (or_id o)) (link_operation a op) _ _ Ho) as Ho2.
    cbn beta in Ho2. rewrite String.eqb_refl in Ho2. destruct M2 as [_ _ _ _ _ _ M2 _].
    destruct (map_unlicensed_elem _ _ _ M2 Ho2) as (o3 & H3 & E3). exists o3. split; [done|]. apply unlicensed_same in E3.
    by eapply same_op_trans. }
  destruct Ho3 as (o3 & Ho3 & S3). pose proof S3 as (S3a & S3b & S3c & _). unfold op_identity in S3b. injection S3b as S3k S3i.
  destruct (enqueueEffects _ _ _ _ _ _) as [fx3 created] eqn:Eq. inv_ok.
  assert (A3 : Forall (authorized_row (sd_ops d3)) (fx_rows fx3)).
  { change fx3 with (fst (fx3, created)). rewrite <- Eq. eapply (enqueue_ok _ _ o3); [done|done|by rewrite S3k, Hk|done|].
    intros x Hx. apply list_elem_of_fmap in Hx as (y & -> & Hy). rewrite carry_kind, S3c. by apply He. }
  destruct s' as [fx4 d4]. destruct (exec_ok _ _ _ _ _ _ _ O3 A3 Em1) as (O4 & M4 & G4). split; [done|]. cbn [fst snd].
  split; [|split; [|split; [|split; [done|]]]].
  - eapply effect_trans; [exact E1|]. eapply effect_trans; [|by apply frame_effect]. eapply effect_trans; [|by apply frame_effect].
    by apply effect_refl.
  - intros Hn r' Hr'. rewrite Hn in Eq. cbn in Eq. injection Eq as <- <-. cbn [map] in Em1. rewrite execute_nothing in Em1.
    assert (fx4 = fx2) as -> by (destruct (bool_decide _); by injection Em1). rewrite <- I2. by apply list_elem_of_fmap_2.
  - intros _. split; [done|]. destruct M4 as [_ _ _ _ _ _ M4 _]. destruct (map_unlicensed_elem _ _ _ M4 Ho3) as (o4 & H4 & E4).
    exists o4. split; [done|]. apply unlicensed_same in E4.
    by eapply same_op_trans.
  - intros x Hx Hn. rewrite <- P1 in Hx. pose proof (set_where_elem (fun x => String.eqb (or_id x) (or_id o)) (link_operation a op) _ _ Hx) as Hx2.
    cbn beta in Hx2. rewrite (proj2 (String.eqb_neq _ _) Hn) in Hx2. destruct M2 as [_ _ _ _ _ _ M2 _], M4 as [_ _ _ _ _ _ M4 _].
    assert (M : map unlicensed (sd_ops d4) = map unlicensed (sd_ops d2)) by congruence.
    destruct (map_unlicensed_elem _ _ _ M Hx2) as (x4 & H4 & E4). exists x4. split; [done|]. by apply unlicensed_same.
Qed.

Lemma resolve_identity_ok muts d op d1 oid pre : tables_ok d -> resolve_identity gen_random_uuid d op = Ok (d1, oid, pre) ->
  tables_ok d1 /\ effect_on muts d d1 /\ sd_orders d1 = sd_orders d /\ sd_ops d1 = sd_ops d.
Proof.
  intros H Hr. unfold resolve_identity in Hr. destruct (ref_insert_row op) as [r|].
  - inv_ok. destruct a as [d2 ids]. inv_ok. destruct (insert_payments_ok muts _ _ _ _ H Em) as (O & E & Eo).
    split; [done|]. split; [done|]. split; [done|by eapply insert_payments_ops].
  - injection Hr as <- _ _. split; [done|]. split; [by apply effect_refl|done].
Qed.

Lemma new_row_ok d op oid l : tables_ok d -> operation_row d (op_kind op) oid = None ->
  frozen_policy (new_operation gen_random_uuid d op oid l) ->
  tables_ok (with_ops (tick d) (sd_ops d ++ [new_operation gen_random_uuid d op oid l])).
Proof.
  intros [A B C D1 [E1 E2] F G] Hn Hp. set (o := new_operation _ _ _ _ _) in *. constructor; cbn; try done.
  - apply NoDup_map_snoc; [done|]. intros Hin. apply list_elem_of_fmap in Hin as (x & E & Hx). injection E as Ek Ei.
    assert (operation_is (op_kind op) oid x = true) by (unfold operation_is; rewrite <- Ek, <- Ei, String.eqb_refl; by rewrite bool_decide_eq_true_2).
    unfold operation_row in Hn. eapply find_none in Hn; [|by apply list_elem_of_In]. congruence.
  - rewrite map_app. split.
    + apply NoDup_app. split; [done|]. split; [|apply NoDup_singleton]. intros i Hi Hi'. apply list_elem_of_singleton in Hi'. subst i.
      rewrite Forall_forall in E2. destruct (E2 _ Hi) as (k & Hk & E). apply Hinj in E. lia.
    + apply Forall_app. split; [eapply Forall_impl; [exact E2|]; intros i (k & Hk & ->); exists k; split; [lia|done]|].
      constructor; [|constructor]. exists (sd_fresh d). split; [lia|done].
  - apply Forall_app. split; [done|]. by constructor.
Qed.
Lemma authorized_more ops ops' r : ops ⊆ ops' -> authorized_row ops r -> authorized_row ops' r.
Proof. intros H (o & Ho & K). exists o. split; [by apply H|done]. Qed.

(** What [recordSettlementOperation] guarantees, for the operation [op] that it
    performs after the quarantine check. *)
Lemma record_ok now s op0 s' res : settle_ok s -> recordSettlementOperation gen_random_uuid now s op0 = Ok (s', res) ->
  exists op l0 l, check_operation op0 = Ok l0 /\ revalidate (snd s) op0 l0 = Ok (op, l) /\
    settle_ok s' /\ effect_on (op_mutations op) (snd s) (snd s') /\
    (op_effects op = [] -> forall r', r' ∈ fx_rows (fst s') -> identity r' ∈ map identity (fx_rows (fst s))) /\
    (rs_operationRowId res <> None -> rs_created res = true ->
      exists o, o ∈ sd_ops (snd s') /\ rs_operationRowId res = Some (or_id o) /\ or_kind o = op_kind op /\ or_disposition o = op_disposition op) /\
    (forall x, x ∈ sd_ops (snd s) -> exists x', x' ∈ sd_ops (snd s') /\ same_op x' x).
Proof.
  intros [Hd Hfx] H. destruct s as [fx d]. cbn [fst snd] in *. unfold recordSettlementOperation in H. inv_ok. destruct a0 as [op l].
  inv_ok. destruct a0 as [[d1 oid] pre]. cbn [fst snd] in *. exists op, a, l. split; [done|]. split; [done|].
  destruct (resolve_identity_ok (op_mutations op) _ _ _ _ _ Hd Em1) as (O1 & E1 & _ & P1).
  assert (A1 : Forall (authorized_row (sd_ops d1)) (fx_rows fx)) by by rewrite P1.
  destruct (bool_decide (op_kind op ∈ MONOTONE_KINDS)).
  { inv_ok. destruct a0 as [[fx2 d2] ap]. destruct (apply_all_ok _ _ _ _ _ _ _ _ O1 Em2) as (O2 & E2 & I2).
    apply apply_all_ops in Em2. cbn [fst snd] in *. split; [split; cbn; [done|by rewrite Em2; apply (authorized_identity _ (fx_rows fx))]|].
    split; [by eapply effect_trans|]. split; [intros _ r Hr; rewrite <- I2; by apply list_elem_of_fmap_2|]. split; [done|].
    intros x Hx. exists x. rewrite Em2, P1. split; [done|apply same_op_refl]. }
  unfold record_once in H. inv_ok. cbn [snd fst] in *. destruct (operation_row d1 (op_kind op) oid) as [ex|] eqn:Eo.
  { unfold replay_operation in H. inv_ok. cbn [fst snd].
    set (d2 := match op_classification op with Some _ => _ | None => _ end).
    assert (X2 : exists l, d2 = with_audit d1 l).
    { exists (sd_audit d2). unfold d2. destruct (op_classification op), (or_classification ex); try (by destruct d1). destruct (bool_decide _); by destruct d1. }
    destruct X2 as [au ->]. split; [split; cbn; [|done]; apply (ok_change d1); try done; try apply O1; cbn; lia|].
    split; [eapply effect_trans; [exact E1|by apply effect_refl]|]. split; [intros _ r Hr; by apply list_elem_of_fmap_2|]. split; [done|].
    intros x Hx. exists x. cbn. rewrite P1. split; [done|apply same_op_refl]. }
  pose proof (revalidated_allowed _ _ _ _ _ d1 oid Em Em0) as Hallow. set (o := new_operation gen_random_uuid d1 op oid l) in *.
  apply (perform_ok now (fx, with_ops (tick d1) (sd_ops d1 ++ [o]))) in H as (S & E & Q & C & _ & K); [|split; cbn| |done|done].
  - cbn [fst snd] in *. split; [done|]. split.
    { eapply effect_trans; [exact E1|]. eapply effect_trans; [|exact E]. apply effect_refl; cbn; done || lia. }
    split; [done|]. split.
    { intros Hne Hcr. destruct (C Hcr) as (Er & o' & Ho' & X1 & X2 & _ & _ & X5). exists o'. split; [done|].
      split; [by rewrite X1|]. split; [by injection X2|done]. }
    intros x Hx. apply K; cbn; [rewrite P1; apply elem_of_app; by left|]. destruct (tk_op_ids _ Hd) as [_ Hids]. rewrite Forall_forall in Hids.
    destruct (Hids (or_id x)) as (k & Hk & ->); [by apply list_elem_of_fmap_2|]. intros E'. apply Hinj in E'. destruct E1 as [_ F1 _ _]. lia.
  - apply new_row_ok; [done|done|by apply Hallow].
  - eapply Forall_impl; [exact A1|]. intros r. apply authorized_more. intros x Hx. apply elem_of_app. by left.
  - cbn. apply elem_of_app. right. by left.
Qed.

(** ** Runs of the store *)

(** What everything else may do between two operations: no money, invoice or
    operation row changes, orders keep distinct ids, and effects only lead to
    reviews of their own operation ([Effects.v]'s worker transactions do). *)
Record elsewhere (s s' : St (X := X)) : Prop := {
  el_store : sd_store (snd s') = sd_store (snd s);
  el_payments : sd_payments (snd s') = sd_payments (snd s);
  el_invoices : sd_invoices (snd s') = sd_invoices (snd s);
  el_ops : map unlicensed (sd_ops (snd s')) = map unlicensed (sd_ops (snd s));
  el_orders : NoDup (map so_id (sd_orders (snd s')));
  el_fresh : (sd_fresh (snd s) <= sd_fresh (snd s'))%nat;
  el_effects : grows (fst s) (fst s')
}.
Inductive settle_run : St (X := X) -> Prop :=
  | run_start s : sd_payments (snd s) = [] -> sd_ops (snd s) = [] -> sd_invoices (snd s) = [] -> fx_rows (fst s) = [] ->
      NoDup (map so_id (sd_orders (snd s))) -> settle_run s
  | run_record s now op s' res : settle_run s -> recordSettlementOperation gen_random_uuid now s op = Ok (s', res) -> settle_run s'
  | run_elsewhere s s' : settle_run s -> elsewhere s s' -> settle_run s'.

Lemma elsewhere_ok s s' : settle_ok s -> elsewhere s s' -> settle_ok s'.
Proof.
  intros [[A B C D1 [E1 E2] F G] H] []. split.
  - constructor; try congruence.
    + by rewrite (map_proj unlicensed op_identity op_identity _ _ (fun _ => eq_refl) el_ops0).
    + rewrite (map_proj unlicensed or_id or_id _ _ (fun _ => eq_refl) el_ops0). split; [done|].
      eapply Forall_impl; [exact E2|]. intros i (k & Hk & ->). exists k. split; [lia|done].
    + apply Forall_forall. intros o Ho. destruct (map_unlicensed_elem _ _ _ (eq_sym el_ops0) Ho) as (o0 & H0 & E0).
      rewrite Forall_forall in G. apply (eligible_unlicensed o0 o); [done|]. by apply G.
  - apply (authorized_grows _ (fst s)); [done|]. eapply Forall_impl; [exact H|]. intros r. by apply authorized_frame.
Qed.
Lemma settle_run_ok s : settle_run s -> settle_ok s.
Proof.
  induction 1 as [s A B C D1 E|s now op s' res _ IH H|s s' _ IH H].
  - split; [constructor|]; rewrite ?A, ?B, ?C, ?D1; try done; cbn; try constructor; constructor.
  - by destruct (record_ok _ _ _ _ _ IH H) as (_ & _ & _ & _ & _ & ? & _).
  - by eapply elsewhere_ok.
Qed.

(** A provider reference is one payment (within its account and mode, where the
    provider is not Stripe). *)
Lemma ref_key_unique d p1 p2 k : tables_ok d -> p1 ∈ sd_payments d -> p2 ∈ sd_payments d -> ref_key p1 = Some k -> ref_key p2 = Some k -> p1 = p2.
Proof.
  intros [_ B _ _ _ _ _] H1 H2 K1 K2. induction (sd_payments d) as [|x xs IH]; [by apply elem_of_nil in H1|].
  assert (Q : forall y, y ∈ xs -> ref_key y = Some k -> k ∈ omap ref_key xs) by (intros y Hy Ey; apply list_elem_of_omap; by exists y).
  cbn in B. apply elem_of_cons in H1 as [->|H1], H2 as [->|H2]; [done| | |]; try rewrite K1 in B; try rewrite K2 in B.
  - inversion B as [|? ? Hx _]; subst. by destruct Hx; eapply Q.
  - inversion B as [|? ? Hx _]; subst. by destruct Hx; eapply Q.
  - apply IH; [|done|done]. destruct (ref_key x); [by inversion B|done].
Qed.

(** C8: Effects stay within policy. Every effect row of a store belongs to a
    recorded operation whose kind is eligible for it, or is a review; what an
    invoice or an operator resolution may fulfil is bounded by the
    classification frozen on its row. So a duplicate capture never issues a
    licence or earns points, and an import, a seed or a purge causes nothing. *)
Theorem effects_within_policy s r : settle_run s -> r ∈ fx_rows (fst s) -> is_review (ef_kind r) = false ->
  exists o, o ∈ sd_ops (snd s) /\ ef_operationKind r = kind_text (or_kind o) /\ ef_operationId r = or_operationId o /\
    ef_kind r ∈ pol_effects (OPERATION_POLICY (or_kind o)) /\
    (or_kind o = stripe_invoice_paid \/ or_kind o = operator_resolution ->
       exists c, or_classification o = Some c /\ ef_kind r ∈ INVOICE_AUTHORIZED_EFFECTS c) /\
    or_kind o <> historical_import /\ or_kind o <> synthetic_seed /\ or_kind o <> order_purge /\
    (or_kind o = duplicate_capture_recorded -> ef_kind r = "notification"%string).
Proof.
  intros H Hr Hn. apply settle_run_ok in H as [T H]. rewrite Forall_forall in H. destruct (H r Hr) as (o & Ho & I & K).
  destruct K as [K|K]; [|congruence]. unfold op_of in I. injection I as I1 I2. exists o. split; [done|]. split; [done|]. split; [done|].
  pose proof (tk_policy _ T) as G. rewrite Forall_forall in G. specialize (G o Ho). unfold frozen_policy, eligible in *.
  destruct (or_kind o) eqn:Ek; cbn [bool_decide orb] in *; try change (bool_decide _ || bool_decide _) with false in K; cbn in K |- *;
    try (by apply elem_of_nil in K).
  all: try (split; [done|]; split; [by intros [?|?]|]; repeat split; try done; intros _; by apply list_elem_of_singleton in K).
  - destruct G as (c & Hc & Hi). apply Hi in K. split; [|split; [by exists c|done]].
    clear -K. destruct c; cbn in K; set_solver.
  - destruct G as (c & Hc & Hi). apply Hi in K. split; [|split; [by exists c|done]].
    clear -K Hn. assert (ef_kind r <> "admin_review"%string) by (intros E; by rewrite E in Hn). destruct c; cbn in K; set_solver.
Qed.

Lemma revalidate_muts d op0 l0 op l : revalidate d op0 l0 = Ok (op, l) -> op_mutations op ⊆ op_mutations op0.
Proof.
  unfold revalidate. intros H. inv_ok. destruct (existsb _ _); injection H as <- _; [|done].
  intros m Hm. cbn in Hm. by apply elem_filter_bool in Hm as [Hm _].
Qed.
Lemma revalidate_quarantined d op0 l0 op l orderId : revalidate d op0 l0 = Ok (op, l) -> orderId ∈ touched_orders d op0 ->
  quarantined_order d orderId = true -> op = quarantine_op op0 /\ purges_quarantined d op0 = false.
Proof.
  unfold revalidate. intros H Hin Hq. inv_ok. bool_props. split; [|done].
  assert (E : existsb (quarantined_order d) (touched_orders d op0) = true) by (apply existsb_exists; exists orderId; split; [by apply list_elem_of_In|done]).
  rewrite E in H. by injection H as <- _.
Qed.
Lemma paid_touched d op id t u : order_paid id t u ∈ op_mutations op -> id ∈ touched_orders d op.
Proof.
  intros H. unfold touched_orders. apply elem_of_app. right. apply elem_of_app. left. apply list_elem_of_In, in_flat_map.
  exists (order_paid id t u). split; [by apply list_elem_of_In|]. by left.
Qed.
Lemma order_row_elem d o : NoDup (map so_id (sd_orders d)) -> o ∈ sd_orders d -> order_row d (so_id o) = Some o.
Proof.
  intros Hn Ho. unfold order_row. destruct (List.find _ _) as [x|] eqn:E.
  - apply find_elem in E as [Hx Hid]. apply String.eqb_eq in Hid. f_equal. by apply (NoDup_map_inj so_id (sd_orders d)).
  - eapply find_none in E; [|by apply list_elem_of_In]. by rewrite String.eqb_refl in E.
Qed.
Lemma paid_from o : canTransition (so_state o) Paid = true -> so_state o = PendingPayment.
Proof. by destruct (so_state o). Qed.

(** C5: Captured funds are final. No settlement operation downgrades, repriced
    or reassigns a Settled payment: unless the operation purges its order, the
    row is still there with its amount, order, reference and metadata, and its
    account and mode change only from unknown to known. *)
Theorem settled_money_final now s op s' res p : settle_run s -> recordSettlementOperation gen_random_uuid now s op = Ok (s', res) ->
  p ∈ sd_payments (snd s) -> py_state p = pay_Settled -> (purge_order (py_orderId p) ∉ op_mutations op) ->
  exists p', p' ∈ sd_payments (snd s') /\ py_state p' = pay_Settled /\ py_id p' = py_id p /\ py_amount p' = py_amount p /\
    py_orderId p' = py_orderId p /\ py_providerRef p' = py_providerRef p /\ py_metadata p' = py_metadata p /\
    (forall a, py_gatewayAccount p = Some a -> py_gatewayAccount p' = Some a) /\
    (forall m, py_gatewayMode p = Some m -> py_gatewayMode p' = Some m).
Proof.
  intros Hs H Hp Hst Hn. apply settle_run_ok in Hs. destruct (record_ok _ _ _ _ _ Hs H) as (op' & l0 & l & _ & Hr & _ & [_ _ E _] & _).
  destruct (E p Hp) as [(p' & Hp' & _ & _ & _ & _ & K)|Hpu]; [|by destruct Hn; apply (revalidate_muts _ _ _ _ _ Hr)].
  destruct (K Hst) as (m & a & ->). eexists. split; [exact Hp'|]. cbn. repeat split; try done; intros x Hx; by rewrite Hx.
Qed.

Lemma checked_mutations op l m : check_operation op = Ok l -> m ∈ op_mutations op -> mutation_type m ∈ pol_mutations (OPERATION_POLICY (op_kind op)).
Proof.
  intros Hc Hm. unfold check_operation in Hc. inv_ok. apply map_result_Forall2 in Em. apply list_elem_of_lookup in Hm as [i Hi].
  destruct (Forall2_lookup_l _ _ _ _ _ Em Hi) as (y & _ & Hy). unfold check_mutation in Hy. inv_ok. by eapply bool_decide_eq_true_1.
Qed.
(** C9: Orders become Paid only through the state machine. After an operation
    every order row is either unchanged in state and total, or was
    PendingPayment, is not quarantined and was asked to be paid by an operation
    of a kind that may do so, or was inserted by the operation. *)
Theorem order_paid_by_fsm now s op s' res o' : settle_run s -> recordSettlementOperation gen_random_uuid now s op = Ok (s', res) ->
  o' ∈ sd_orders (snd s') ->
  (exists o, o ∈ sd_orders (snd s) /\ order_facts o' = order_facts o) \/
  (exists o t u, o ∈ sd_orders (snd s) /\ so_id o' = so_id o /\ so_state o = PendingPayment /\ so_state o' = Paid /\ so_grandTotal o' = so_grandTotal o /\
     order_paid (so_id o) t u ∈ op_mutations op /\ importedFinancialReconciliationRequired (so_metadata o) = false /\
     op_kind op ∈ [stripe_invoice_paid; order_paid_transition; operator_resolution]) \/
  (exists rows r, order_insert rows ∈ op_mutations op /\ r ∈ rows /\ so_code o' = oi_code r /\
     op_kind op ∈ [order_paid_transition; admin_draft_create; historical_import; synthetic_seed]).
Proof.
  intros Hs H Ho'. apply settle_run_ok in Hs. destruct (record_ok _ _ _ _ _ Hs H) as (op' & l0 & l & Hc & Hr & _ & [_ _ _ E] & _).
  pose proof (fun m => checked_mutations _ _ m Hc) as K.
  destruct (E o' Ho') as [(o & Ho & I & [F|(F & T & t & u & M)])|(rows & r & M & R & C)].
  - left. by exists o.
  - right; left. pose proof (revalidate_muts _ _ _ _ _ Hr _ M) as M0. exists o, t, u. injection F as F1 F2 F3 F4 F5 F6.
    split; [done|]. split; [done|]. split; [by apply paid_from|]. split; [done|]. split; [done|]. split; [done|]. split.
    + destruct (importedFinancialReconciliationRequired (so_metadata o)) eqn:Eq; [|done]. exfalso.
      destruct (revalidate_quarantined _ _ _ _ _ (so_id o) Hr) as [-> _]; [by eapply paid_touched| |].
      * unfold quarantined_order. by rewrite order_row_elem; [|apply Hs|].
      * cbn in M. by apply elem_filter_bool in M as [_ M].
    + specialize (K _ M0). clear -K. cbn in K. destruct (op_kind op); cbn in K; set_solver.
  - right; right. pose proof (revalidate_muts _ _ _ _ _ Hr _ M) as M0. exists rows, r. split; [done|]. split; [done|]. split; [done|].
    specialize (K _ M0). clear -K. cbn in K. destruct (op_kind op); cbn in K; set_solver.
Qed.

(** Quarantined history is inert. An operation that touches an order whose
    imported finances await reconciliation may record provider money, but it
    moves no existing order, adds no effect and says why on its row; purging
    such an order is refused. *)
Theorem quarantine_inert now s op orderId : settle_run s -> orderId ∈ touched_orders (snd s) op -> quarantined_order (snd s) orderId = true ->
  (purge_order orderId ∈ op_mutations op -> is_ok (recordSettlementOperation gen_random_uuid now s op) = false) /\
  (forall s' res, recordSettlementOperation gen_random_uuid now s op = Ok (s', res) ->
     (forall o', o' ∈ sd_orders (snd s') -> (exists o, o ∈ sd_orders (snd s) /\ order_facts o' = order_facts o) \/
        exists rows r, order_insert rows ∈ op_mutations op /\ r ∈ rows /\ so_code o' = oi_code r) /\
     (forall r', r' ∈ fx_rows (fst s') -> exists r, r ∈ fx_rows (fst s) /\ identity r' = identity r) /\
     (rs_operationRowId res <> None -> rs_created res = true -> exists o, o ∈ sd_ops (snd s') /\ rs_operationRowId res = Some (or_id o) /\
        or_disposition o = Some "imported_financial_reconciliation_required"%string)).
Proof.
  intros Hs Hin Hq. split.
  - intros Hp. destruct (recordSettlementOperation _ _ _ _) as [[s' res]|] eqn:H; [|done]. apply settle_run_ok in Hs.
    destruct (record_ok _ _ _ _ _ Hs H) as (op' & l0 & l & _ & Hr & _). destruct (revalidate_quarantined _ _ _ _ _ _ Hr Hin Hq) as [_ Hpu].
    assert (purges_quarantined (snd s) op = true); [|congruence]. apply existsb_exists. eexists. split; [by apply list_elem_of_In|done].
  - intros s' res H. apply settle_run_ok in Hs. destruct (record_ok _ _ _ _ _ Hs H) as (op' & l0 & l & _ & Hr & _ & [_ _ _ E] & Q & C & _).
    destruct (revalidate_quarantined _ _ _ _ _ _ Hr Hin Hq) as [-> _]. split; [|split].
    + intros o' Ho'. destruct (E o' Ho') as [(o & Ho & I & [F|(F & T & t & u & M)])|(rows & r & M & R)]; [left; by exists o| |].
      * cbn in M. by apply elem_filter_bool in M as [_ M].
      * right. exists rows, r. split; [|done]. cbn in M. by apply elem_filter_bool in M as [M _].
    + intros r' Hr'. specialize (Q eq_refl r' Hr'). apply list_elem_of_fmap in Q as (r & Ei & Hrr). by exists r.
    + intros Hne Hcr. destruct (C Hne Hcr) as (o & Ho & X1 & _ & X2). by exists o.
Qed.

(** ** Replays *)

Lemma find_index_lookup {A} (p : A -> bool) l : find_index p l ≫= (fun i => l !! i) = List.find p l.
Proof.
  induction l as [|x xs IH]; cbn; [done|]. destruct (p x); [done|]. rewrite <- IH. by destruct (find_index p xs).
Qed.
Lemma find_filter {A} (p q : A -> bool) l : (forall x, p x = true -> q x = true) -> List.find p (List.filter q l) = List.find p l.
Proof.
  intros H. induction l as [|x xs IH]; cbn; [done|]. destruct (q x) eqn:Eq; cbn; [by destruct (p x)|].
  destruct (p x) eqn:Ep; [|done]. rewrite H in Eq; done.
Qed.
Lemma ref_insert_row_spec op : ref_insert_row op =
  if bool_decide (op_kind op = payment_settled) || bool_decide (op_kind op = payment_state_progress)
  then match List.find is_ref_insert (op_mutations op) with Some (payment_insert [r]) => Some r | _ => None end else None.
Proof.
  unfold ref_insert_row, ref_insert. destruct (_ || _); [|done]. rewrite <- find_index_lookup. by destruct (find_index _ _).
Qed.
Lemma ref_insert_row_revalidated d op0 l0 op l : revalidate d op0 l0 = Ok (op, l) ->
  ref_insert_row op = ref_insert_row op0 /\ op_kind op = op_kind op0 /\ op_operationId op = op_operationId op0.
Proof.
  unfold revalidate. intros H. inv_ok. destruct (existsb _ _); injection H as <- _; [|done]. split; [|done].
  rewrite !ref_insert_row_spec. cbn [op_kind op_mutations quarantine_op]. destruct (_ || _); [|done].
  rewrite find_filter; [done|]. by intros [].
Qed.

(** The operation id a fact resolves to, when it is already known: the payment
    that carries its provider reference, or the id given. *)
Definition known_identity (d : SettleDb X) (op : SettlementOperation) (operationId : string) : Prop :=
  match ref_insert_row op with
  | None => operationId = op_operationId op
  | Some r => existsb (same_ref (payment_of EmptyString r)) (sd_payments d) = true /\
              option_map py_id (payment_by_ref d (pi_method r) (pi_providerRef r)) = Some operationId /\ op_kind op = payment_settled
  end.
(** Equal but for the audit log and the uuid counter. *)
Definition same_tables (d d' : SettleDb X) : Prop :=
  sd_store d' = sd_store d /\ sd_orders d' = sd_orders d /\ sd_payments d' = sd_payments d /\ sd_ops d' = sd_ops d /\
  sd_invoices d' = sd_invoices d /\ sd_refunds d' = sd_refunds d /\ sd_edits d' = sd_edits d /\ sd_outbox d' = sd_outbox d /\
  sd_other d' = sd_other d.

Lemma resolve_known d op oid d1 oid' pre : known_identity d op oid -> resolve_identity gen_random_uuid d op = Ok (d1, oid', pre) ->
  oid' = oid /\ same_tables d d1 /\ sd_audit d1 = sd_audit d.
Proof.
  unfold known_identity, resolve_identity. intros K H. destruct (ref_insert_row op) as [r|].
  - destruct K as (K1 & K2 & K3). unfold insert_payments, fold_result, insert_payment in H. cbn [bind_result] in H.
    assert (Ec : existsb (payment_conflict (payment_of (or_else (pi_id r) (gen_random_uuid (sd_fresh d))) r)) (sd_payments d) = true).
    { apply existsb_exists in K1 as (p & Hp & E). apply existsb_exists. exists p. split; [done|]. unfold payment_conflict.
      apply orb_true_iff. by right. }
    rewrite Ec in H. cbn [bind_result] in H. change (payment_by_ref (tick d)) with (payment_by_ref d) in H.
    destruct (payment_by_ref d _ _) as [p|]; [|discriminate]. cbn [bind_result option_map] in *. injection K2 as K2.
    rewrite bool_decide_eq_true_2 in H by done. injection H as <- <- _. done.
  - injection H as <- <- _. done.
Qed.

(** Replaying a fact mutates nothing. When the operation's row exists, a call
    that succeeds - through any path, for whatever mutations and effects -
    changes no order, payment, operation, invoice, effect or other row, answers
    with the recorded operation and its effects, and logs at most a changed
    classification. It succeeds only if every transition it skips is in force. *)
Theorem replay_mutates_nothing now s op s' res operationId existing :
  recordSettlementOperation gen_random_uuid now s op = Ok (s', res) -> (op_kind op ∉ MONOTONE_KINDS) ->
  known_identity (snd s) op operationId -> operation_row (snd s) (op_kind op) operationId = Some existing ->
  fst s' = fst s /\ same_tables (snd s) (snd s') /\
  (exists log, sd_audit (snd s') = sd_audit (snd s) ++ log /\ (length log <= 1)%nat) /\
  rs_created res = false /\ rs_replayed res = true /\ rs_operationRowId res = Some (or_id existing) /\ rs_paymentId res = or_paymentId existing /\
  rs_effectIds res = map ef_id (effects_of (fst s) (op_kind op) operationId) /\
  (forall id t u, order_paid id t u ∈ op_mutations op -> quarantined_order (snd s) id = false ->
     existsb (quarantined_order (snd s)) (touched_orders (snd s) op) = false ->
     exists o, order_row (snd s) id = Some o /\ so_state o <> PendingPayment).
Proof.
  intros H Hm Hk He. destruct s as [fx d]. cbn [fst snd] in *. unfold recordSettlementOperation in H. inv_ok. destruct a0 as [op1 l].
  destruct (ref_insert_row_revalidated _ _ _ _ _ Em0) as (R1 & R2 & R3). inv_ok. destruct a0 as [[d1 oid] pre]. cbn [fst snd] in *.
  assert (K1 : known_identity d op1 operationId) by (unfold known_identity in *; by rewrite R1, R2, R3).
  destruct (resolve_known _ _ _ _ _ _ K1 Em1) as (-> & T & Ta). destruct T as (T1 & T2 & T3 & T4 & T).
  rewrite R2, bool_decide_eq_false_2 in H by done. unfold record_once in H. inv_ok. cbn [snd] in H.
  assert (He1 : operation_row d1 (op_kind op1) operationId = Some existing) by (unfold operation_row in *; by rewrite R2, T4).
  rewrite He1 in H. unfold replay_operation in H. inv_ok. cbn [fst snd rs_created rs_replayed rs_operationRowId rs_paymentId rs_effectIds].
  set (d2 := match op_classification op1 with Some _ => _ | None => _ end).
  assert (X2 : same_tables d d2 /\ exists log, sd_audit d2 = sd_audit d ++ log /\ (length log <= 1)%nat).
  { unfold d2. destruct (op_classification op1), (or_classification existing); try (split; [done|]; exists []; rewrite app_nil_r, Ta; split; [done|cbn; lia]).
    destruct (bool_decide _); (split; [done|]); [exists []; rewrite app_nil_r; split; [done|cbn; lia]|].
    eexists [_]. cbn. rewrite Ta. split; [done|lia]. }
  destruct X2 as [X2 X3]. rewrite <- R2. repeat (split; [done|]). intros id t u Hin Hq Hnq. unfold revalidate in Em0. inv_ok.
  rewrite Hnq in *. match goal with H1 : Ok (op, _) = Ok (op1, _) |- _ => injection H1 as <- _ end.
  match goal with H1 : map_result (check_replayed d1 _) _ = Ok _ |- _ => apply map_result_Forall2 in H1; rename H1 into F end.
  apply list_elem_of_lookup in Hin as [i Hi]. destruct (Forall2_lookup_l _ _ _ _ _ F Hi) as (y & _ & Hy). cbn in Hy. inv_ok.
  assert (Eo : order_row d1 id = order_row d id) by (unfold order_row; by rewrite T2). rewrite Eo in *.
  destruct (order_row d id) as [o|]; [|discriminate]. exists o. split; [done|]. intros E. by rewrite E in *.
Qed.
(** ** One fact, one operation *)

Lemma resolve_ref d op r d1 oid pre : op_kind op = payment_settled -> ref_insert_row op = Some r ->
  resolve_identity gen_random_uuid d op = Ok (d1, oid, pre) ->
  pre = Some oid /\ exists p, p ∈ sd_payments d1 /\ py_id p = oid /\ py_method p = pi_method r /\ py_providerRef p = pi_providerRef r.
Proof.
  intros Hk Hr H. unfold resolve_identity in H. rewrite Hr in H. unfold insert_payments, fold_result, insert_payment in H. cbn [bind_result] in H.
  rewrite bool_decide_eq_true_2 in H by done. destruct (existsb _ _).
  - cbn [bind_result] in H. destruct (payment_by_ref _ _ _) as [p|] eqn:E; [|discriminate]. cbn [bind_result] in H. injection H as <- <- <-.
    split; [done|]. exists p. by apply payment_by_ref_elem in E as (E1 & E2 & E3).
  - destruct (order_row d _); [|discriminate]. cbn [bind_result app] in H. injection H as <- <- <-. split; [done|].
    eexists. split; [cbn; apply elem_of_app; right; left|done].
Qed.
Lemma fold_result_reaches {A S E} (P : S -> Prop) (f : S -> A -> result E S) l s s' x : x ∈ l -> (forall t t', f t x = Ok t' -> P t') ->
  (forall t y t', P t -> f t y = Ok t' -> P t') -> fold_result f s l = Ok s' -> P s'.
Proof.
  intros Hx Hat Hstep. revert s. induction l as [|y l IH]; intros s H; [by apply elem_of_nil in Hx|]. cbn in H. inv_ok.
  apply elem_of_cons in Hx as [->|Hx]; [|by eapply IH]. eapply (fold_result_inv P); [by eapply Hat| |exact H]. intros t z t' _. apply Hstep.
Qed.
Lemma apply_mutation_noted now op pre st st' im : is_some (ap_paymentId (snd st)) = true ->
  apply_mutation gen_random_uuid now op pre st im = Ok st' -> is_some (ap_paymentId (snd st')) = true.
Proof.
  destruct st as [[fx d] out], im as [i m]. unfold apply_mutation. cbn [fst snd]. intros Hn Ha.
  assert (N : forall id, is_some (ap_paymentId (note_payment out id)) = true) by (intros id; cbn; by destruct (ap_paymentId out)).
  destruct m as [rows|id next|id mode account|id placedAt updatedAt|rows|row|id]; try (inv_ok; cbn [snd]; done || apply N).
  - destruct (_ && _); [injection Ha as <-; apply N|]. inv_ok. destruct a as [d1 o1]. cbn [snd]. unfold apply_payment_insert in Em. inv_ok. destruct a as [d2 ids].
    cbn [fst snd] in *. destruct ids; [|injection Em as _ <-; apply N]. destruct rows as [|x []]; try by injection Em as _ <-.
    destruct (_ && _); [|by injection Em as _ <-]. destruct (adopt_pending d2 x). injection Em as _ <-. apply N.
  - destruct (order_row d id); [|discriminate]. inv_ok. done.
  - destruct (record_invoice _ d row). injection Ha as <-. done.
Qed.
Lemma combine_seq_lookup {A} (l : list A) k i x : l !! i = Some x -> ((k + i)%nat, x) ∈ combine (List.seq k (length l)) l.
Proof.
  revert k i. induction l as [|y l IH]; intros k [|i] H; try discriminate; cbn.
  - injection H as ->. rewrite Nat.add_0_r. left.
  - right. rewrite <- Nat.add_succ_comm. by apply IH.
Qed.
Lemma apply_all_noted now op id i s s' a : ref_insert op = Some i -> apply_all gen_random_uuid now op (Some id) s = Ok (s', a) -> is_some (ap_paymentId a) = true.
Proof.
  intros Hi H. unfold apply_all in H.
  assert (M : exists r, op_mutations op !! i = Some (payment_insert [r])).
  { unfold ref_insert in Hi. destruct (_ || _); [|discriminate]. pose proof (find_index_lookup is_ref_insert (op_mutations op)) as F. rewrite Hi in F. cbn in F.
    destruct (List.find _ _) as [m|] eqn:E; [|].
    - apply find_elem in E as [_ E]. destruct m as [[|r []]| | | | | |]; try discriminate. by exists r.
    - exfalso. revert Hi E. generalize (op_mutations op) as l. clear. intros l. revert i. induction l as [|x l IH]; intros i; cbn; [done|].
      destruct (is_ref_insert x); [done|]. destruct (find_index _ l); [|done]. intros _. by eapply IH. }
  destruct M as [r M]. 
  apply (fold_result_reaches (fun st : St (X := X) * Applied => is_some (ap_paymentId (snd st)) = true) _ _ _ _ (i, payment_insert [r])) in H; [done| | |].
  - by apply (combine_seq_lookup _ 0).
  - intros [[fx d] out] t' E. unfold apply_mutation in E. cbn [fst snd] in E. rewrite Hi, bool_decide_eq_true_2 in E by done. cbn in E. injection E as <-. cbn.
    by destruct (ap_paymentId out).
  - intros t y t'. apply apply_mutation_noted.
Qed.

Lemma perform_created now s op oid id held o s' res i : ref_insert op = Some i ->
  perform gen_random_uuid now s op oid (Some id) held o = Ok (s', res) -> rs_created res = true.
Proof.
  intros Hi H. unfold perform in H. inv_ok. destruct a as [[fx1 d1] a]. pose proof (apply_all_noted _ _ _ _ _ _ _ Hi Em) as N.
  unfold inserted_nothing in H. rewrite N, andb_false_r in H. inv_ok. destruct a0 as [[d3 credit] ids].
  destruct (enqueueEffects _ _ _ _ _ _). inv_ok. done.
Qed.

(** The first call for a provider reference: its payment is there, and the call is
    the operation of that payment, a new one exactly when none was recorded. *)
Lemma first_observation now s op r s' res : settle_ok s -> op_kind op = payment_settled -> ref_insert_row op = Some r ->
  recordSettlementOperation gen_random_uuid now s op = Ok (s', res) ->
  exists p o, p ∈ sd_payments (snd s') /\ py_method p = pi_method r /\ py_providerRef p = pi_providerRef r /\
    o ∈ sd_ops (snd s') /\ op_identity o = (payment_settled, py_id p) /\ rs_operationRowId res = Some (or_id o) /\
    rs_created res = negb (is_some (operation_row (snd s) payment_settled (py_id p))).
Proof.
  intros [Hd Hfx] Hk Hr H. destruct s as [fx d]. cbn [fst snd] in *. unfold recordSettlementOperation in H. inv_ok. destruct a0 as [op1 l].
  destruct (ref_insert_row_revalidated _ _ _ _ _ Em0) as (R1 & R2 & _). rewrite Hr in R1. rewrite Hk in R2.
  inv_ok. destruct a0 as [[d1 oid] pre]. cbn [fst snd] in *.
  destruct (resolve_identity_ok (op_mutations op1) _ _ _ _ _ Hd Em1) as (O1 & E1 & _ & P1).
  destruct (resolve_ref _ _ _ _ _ _ R2 R1 Em1) as (-> & p & Hp & <- & Pm & Pr).
  rewrite R2, bool_decide_eq_false_2 in H by set_solver.
  unfold record_once in H. inv_ok. cbn [snd fst] in *. assert (Er : operation_row d payment_settled (py_id p) = operation_row d1 payment_settled (py_id p)) by (unfold operation_row; by rewrite P1).
  rewrite R2 in H. destruct (operation_row d1 payment_settled (py_id p)) as [ex|] eqn:Eo.
  - unfold replay_operation in H. inv_ok. cbn [fst snd rs_operationRowId rs_created is_some negb].
    pose proof Eo as Eo'. apply find_elem in Eo as [Hex Eo]. unfold operation_is in Eo. bool_props. exists p, ex.
    match goal with H1 : bool_decide (or_kind ex = _) = true, H2 : String.eqb _ _ = true |- _ => apply bool_decide_eq_true_1 in H1; apply String.eqb_eq in H2; rename H1 into K1, H2 into K2 end.
    split; [by destruct (op_classification op1), (or_classification ex); try destruct (bool_decide _)|]. split; [done|]. split; [done|].
    split; [by destruct (op_classification op1), (or_classification ex); try destruct (bool_decide _)|]. split; [unfold op_identity; congruence|]. split; [done|]. by rewrite Er.
  - pose proof (revalidated_allowed _ _ _ _ _ d1 (py_id p) Em Em0) as Hallow. set (o := new_operation gen_random_uuid d1 op1 (py_id p) l) in *.
    assert (Ri : exists i, ref_insert op1 = Some i) by (unfold ref_insert_row in R1; destruct (ref_insert op1) as [i|]; [by exists i|discriminate]).
    destruct Ri as [i Ri]. pose proof (perform_created _ _ _ _ _ _ _ _ _ _ Ri H) as Hcr.
    apply (perform_ok now (fx, with_ops (tick d1) (sd_ops d1 ++ [o]))) in H as (S & [_ _ E _] & _ & C & _); [|split; cbn| |by apply Hallow|done].
    + destruct (C Hcr) as (Er' & o' & Ho' & X1 & X2 & _). cbn [snd] in E. destruct (E p Hp) as [(p' & Hp' & Y1 & _ & Y2 & Y3 & _)|Hpu].
      * exists p', o'. split; [done|]. split; [congruence|]. split; [congruence|]. split; [done|]. split; [rewrite X2, Y1; unfold op_identity; cbn; by rewrite R2|].
        split; [by rewrite X1|]. rewrite Y1, Er. by rewrite Hcr.
      * exfalso. apply (revalidate_muts _ _ _ _ _ Em0) in Hpu. apply (checked_mutations _ _ _ Em) in Hpu. rewrite Hk in Hpu. cbn in Hpu. set_solver.
    + apply new_row_ok; [done|by rewrite R2|by apply Hallow].
    + rewrite P1. eapply Forall_impl; [exact Hfx|]. intros x. apply authorized_more. intros y Hy. apply elem_of_app. by left.
    + cbn. apply elem_of_app. right. by left.
Qed.

Lemma ref_insert_row_reference op r : ref_insert_row op = Some r -> exists x, pi_providerRef r = Some x.
Proof.
  rewrite ref_insert_row_spec. destruct (_ || _); [|done]. destruct (List.find _ _) as [m|] eqn:E; [|done]. apply find_elem in E as [_ E].
  destruct m as [[|y []]| | | | | |]; try discriminate. intros [= <-]. unfold is_ref_insert, nonempty in E. destruct (pi_providerRef y) as [x|]; [by exists x|done].
Qed.
Lemma operation_row_found d o k id : tables_ok d -> o ∈ sd_ops d -> op_identity o = (k, id) -> operation_row d k id = Some o.
Proof.
  intros Hd Ho E. injection E as E1 E2. unfold operation_row. destruct (List.find _ _) as [x|] eqn:F.
  - apply find_elem in F as [Hx F]. unfold operation_is in F. bool_props. f_equal. apply (NoDup_map_inj op_identity (sd_ops d)); [apply Hd|done|done|].
    match goal with H1 : bool_decide (or_kind x = _) = true, H2 : String.eqb _ _ = true |- _ => apply bool_decide_eq_true_1 in H1; apply String.eqb_eq in H2 end.
    unfold op_identity. congruence.
  - eapply find_none in F; [|by apply list_elem_of_In]. unfold operation_is in F. rewrite E1, E2, String.eqb_refl in F. by rewrite bool_decide_eq_true_2 in F.
Qed.

(** What may happen between two calls: other operations, unless one purges the
    order, and everything else the program does. *)
Definition passes_by (orderId : string) (s s' : St (X := X)) : Prop :=
  elsewhere s s' \/ exists now op res, recordSettlementOperation gen_random_uuid now s op = Ok (s', res) /\ (purge_order orderId ∉ op_mutations op).
Lemma passes_by_keeps s s' p o : rtc (passes_by (py_orderId p)) s s' -> settle_ok s -> p ∈ sd_payments (snd s) -> o ∈ sd_ops (snd s) ->
  settle_ok s' /\ (exists p', p' ∈ sd_payments (snd s') /\ py_id p' = py_id p /\ py_method p' = py_method p /\ py_providerRef p' = py_providerRef p) /\
  exists o', o' ∈ sd_ops (snd s') /\ or_id o' = or_id o /\ op_identity o' = op_identity o.
Proof.
  intros R. remember (py_orderId p) as oid eqn:Eoid. revert p o Eoid. induction R as [s|s s1 s' St _ IH]; intros p o -> Hs Hp Ho.
  - split; [done|]. split; [by exists p|by exists o].
  - assert (K : settle_ok s1 /\ (exists p', p' ∈ sd_payments (snd s1) /\ goes_on p p') /\ exists o', o' ∈ sd_ops (snd s1) /\ or_id o' = or_id o /\ op_identity o' = op_identity o).
    { destruct St as [El|(now & op & res & H & Hn)].
      - split; [by eapply elsewhere_ok|]. destruct El. split; [exists p; rewrite el_payments0; split; [done|apply goes_on_refl]|].
        destruct (map_unlicensed_elem _ _ _ el_ops0 Ho) as (o' & Ho' & E). exists o'. split; [done|]. by apply unlicensed_same in E as (-> & -> & _).
      - destruct (record_ok _ _ _ _ _ Hs H) as (op' & l0 & l & _ & Hr & S & [_ _ E _] & _ & _ & K). split; [done|]. split.
        + destruct (E p Hp) as [?|Hpu]; [done|]. by destruct Hn; apply (revalidate_muts _ _ _ _ _ Hr).
        + destruct (K o Ho) as (o' & Ho' & E1 & E2 & _). by exists o'. }
    destruct K as (S1 & (p1 & Hp1 & G1 & G2 & G3 & G4 & _) & o1 & Ho1 & I1 & I2).
    destruct (IH p1 o1 (eq_sym G2) S1 Hp1 Ho1) as (S' & (p' & Hp' & X1 & X2 & X3) & o' & Ho' & Y1 & Y2). split; [done|].
    split; [exists p'; repeat split; congruence|exists o'; repeat split; congruence].
Qed.

Lemma map_result_ok {A B E} (f : A -> result E B) l : (forall x, x ∈ l -> is_ok (f x) = true) -> is_ok (map_result f l) = true.
Proof.
  induction l as [|x l IH]; intros H; [done|]. cbn. specialize (H x (list_elem_of_here _ _)) as Hx. destruct (f x); [|done]. cbn.
  destruct (map_result f l); [done|]. apply IH. intros y Hy. apply H. by right.
Qed.
(** A settled payment that is known again is always answered: nothing it may ask
    for has to be in force already. *)
Lemma settled_replay_answers now s op l oid ex : op_kind op = payment_settled -> op_storeId op = sd_store (snd s) -> check_operation op = Ok l ->
  known_identity (snd s) op oid -> operation_row (snd s) payment_settled oid = Some ex -> is_ok (recordSettlementOperation gen_random_uuid now s op) = true.
Proof.
  intros Hk Hst Hc K He. destruct s as [fx d]. cbn [fst snd] in *. unfold recordSettlementOperation. cbn [fst snd]. rewrite Hst, String.eqb_refl, Hc. cbn [bind_result].
  assert (M : forall m, m ∈ op_mutations op -> mutation_type m ∈ [mut_payment_insert; mut_payment_state]).
  { intros m Hm. pose proof (checked_mutations _ _ _ Hc Hm) as X1. by rewrite Hk in X1. }
  assert (V : exists op1 l1, revalidate d op l = Ok (op1, l1)).
  { unfold revalidate. destruct (purges_quarantined d op) eqn:E; [|cbn; destruct (existsb _ _); eauto].
    exfalso. apply existsb_exists in E as (m & Hm & E). apply list_elem_of_In, M in Hm. destruct m; try discriminate. cbn in Hm. set_solver. }
  destruct V as (op1 & l1 & V). rewrite V. cbn [bind_result]. pose proof (revalidate_muts _ _ _ _ _ V) as M1.
  destruct (ref_insert_row_revalidated _ _ _ _ _ V) as (R1 & R2 & R3). rewrite Hk in R2.
  assert (K1 : known_identity d op1 oid) by (unfold known_identity in *; rewrite R1, R2, R3; destruct (ref_insert_row op); [by destruct K as (? & ? & _)|done]).
  assert (Y : exists q, resolve_identity gen_random_uuid d op1 = Ok q).
  { unfold resolve_identity. unfold known_identity in K1. destruct (ref_insert_row op1) as [r|]; [|by eexists]. destruct K1 as (A & B & _).
    unfold insert_payments, fold_result, insert_payment. cbn [bind_result].
    assert (Ec : existsb (payment_conflict (payment_of (or_else (pi_id r) (gen_random_uuid (sd_fresh d))) r)) (sd_payments d) = true).
    { apply existsb_exists in A as (p & Hp & E). apply existsb_exists. exists p. split; [done|]. unfold payment_conflict. apply orb_true_iff. by right. }
    rewrite Ec. cbn [bind_result]. change (payment_by_ref (tick d)) with (payment_by_ref d). destruct (payment_by_ref d _ _); [by eexists|done]. }
  destruct Y as [[[d1 oid1] pre] Y]. destruct (resolve_known _ _ _ _ _ _ K1 Y) as (-> & (_ & _ & _ & T & _) & _). rewrite Y. cbn [bind_result].
  rewrite R2, bool_decide_eq_false_2 by set_solver. unfold record_once, check_resolution. rewrite R2. cbn [bind_result snd fst].
  assert (He1 : operation_row d1 payment_settled oid = Some ex) by (unfold operation_row in *; by rewrite T). rewrite He1. unfold replay_operation.
  assert (W : is_ok (map_result (check_replayed d1 (op_kind op1)) (op_mutations op1)) = true).
  { apply map_result_ok. intros m Hm. apply M1, M in Hm. destruct m; try done; cbn in Hm; set_solver. }
  destruct (map_result _ _); [done|discriminate].
Qed.

(** A reference that is recorded for one payment only resolves to it. *)
Lemma known_payment d op r p : tables_ok d -> p ∈ sd_payments d -> op_kind op = payment_settled -> ref_insert_row op = Some r ->
  py_method p = pi_method r -> py_providerRef p = pi_providerRef r ->
  (pi_method r = "stripe"%string \/ forall q, q ∈ sd_payments d -> py_method q = pi_method r -> py_providerRef q = pi_providerRef r ->
     ref_key q = ref_key (payment_of EmptyString r)) -> known_identity d op (py_id p).
Proof.
  intros Hd Hp Hk Hr Pm Pr Hq. destruct (ref_insert_row_reference _ _ Hr) as [x N].
  assert (Q : forall q, q ∈ sd_payments d -> py_method q = pi_method r -> py_providerRef q = pi_providerRef r -> ref_key q = ref_key (payment_of EmptyString r)).
  { destruct Hq as [Hq|Hq]; [|done]. intros q _ Qm Qr. unfold ref_key, payment_of. cbn. by rewrite Qm, Qr, Hq. }
  assert (Kp : exists k, ref_key p = Some k) by (unfold ref_key; rewrite Pr, N; destruct (String.eqb _ _); by eexists). destruct Kp as [k Kp].
  unfold known_identity. rewrite Hr. split; [|split; [|done]].
  - apply existsb_exists. exists p. split; [by apply list_elem_of_In|]. unfold same_ref. rewrite <- (Q p Hp), Kp by done. by rewrite !bool_decide_eq_true_2.
  - destruct (payment_by_ref _ _ _) as [q|] eqn:Eq.
    + apply payment_by_ref_elem in Eq as (Hq' & Qm & Qr). cbn. do 2 f_equal.
      apply (ref_key_unique d q p k); [done|done|done| |done]. by rewrite <- Kp, (Q q), (Q p).
    + exfalso. eapply find_none in Eq; [|by apply list_elem_of_In]. cbn in Eq. rewrite Pm, Pr, String.eqb_refl in Eq.
      rewrite !bool_decide_eq_true_2 in Eq; [discriminate|rewrite N; by eexists|done].
Qed.

(** C1: A provider fact settles once. The first call that records a settled payment
    by its provider reference makes, or finds, the operation whose id is the id of
    the payment carrying that reference, and creates it exactly when the payment had
    none. However the store goes on, unless the payment's order is purged, every
    later call for that reference that its policy admits - under any operation id of
    its own, for any amount or order, with any other mutations and effects - is
    answered as a replay of this operation and changes no order, payment, invoice,
    operation or effect. For other providers than Stripe, whose references are
    unique only within an account and mode, the later call must name the account and
    mode of every payment of that reference. *)
Theorem provider_fact_settles_once now1 s0 op1 r1 s1 res1 : settle_run s0 ->
  op_kind op1 = payment_settled -> ref_insert_row op1 = Some r1 -> recordSettlementOperation gen_random_uuid now1 s0 op1 = Ok (s1, res1) ->
  exists p o, p ∈ sd_payments (snd s1) /\ py_method p = pi_method r1 /\ py_providerRef p = pi_providerRef r1 /\
    o ∈ sd_ops (snd s1) /\ or_kind o = payment_settled /\ or_operationId o = py_id p /\ rs_operationRowId res1 = Some (or_id o) /\
    rs_created res1 = negb (is_some (operation_row (snd s0) payment_settled (py_id p))) /\
    forall now2 s2 op2 r2 l2, rtc (passes_by (py_orderId p)) s1 s2 ->
      op_kind op2 = payment_settled -> op_storeId op2 = sd_store (snd s2) -> check_operation op2 = Ok l2 ->
      ref_insert_row op2 = Some r2 -> pi_method r2 = pi_method r1 -> pi_providerRef r2 = pi_providerRef r1 ->
      (pi_method r1 = "stripe"%string \/ forall q, q ∈ sd_payments (snd s2) -> py_method q = pi_method r1 -> py_providerRef q = pi_providerRef r1 ->
         ref_key q = ref_key (payment_of EmptyString r2)) ->
      exists s3 res2, recordSettlementOperation gen_random_uuid now2 s2 op2 = Ok (s3, res2) /\
        rs_created res2 = false /\ rs_replayed res2 = true /\ rs_operationRowId res2 = Some (or_id o) /\
        fst s3 = fst s2 /\ same_tables (snd s2) (snd s3).
Proof.
  intros Hrun Hk Hr H. apply settle_run_ok in Hrun. destruct (record_ok _ _ _ _ _ Hrun H) as (_ & _ & _ & _ & _ & S1 & _).
  destruct (first_observation _ _ _ _ _ _ Hrun Hk Hr H) as (p & o & Hp & Pm & Pr & Ho & Io & Ro & Co). pose proof Io as Io'. injection Io' as K1 K2.
  exists p, o. repeat (split; [done|]). intros now2 s2 op2 r2 l2 Hl Hk2 Hst Hc Hr2 Em Er Hq.
  destruct (passes_by_keeps _ _ _ _ Hl S1 Hp Ho) as (S2 & (p' & Hp' & X1 & X2 & X3) & o' & Ho' & Y1 & Y2).
  assert (E' : operation_row (snd s2) payment_settled (py_id p) = Some o') by (apply operation_row_found; [apply S2|done|congruence]).
  assert (K : known_identity (snd s2) op2 (py_id p)) by (rewrite <- X1; eapply known_payment; [apply S2|exact Hp'|exact Hk2|exact Hr2|congruence|congruence|by rewrite Em, Er]).
  pose proof (settled_replay_answers now2 s2 op2 l2 (py_id p) o' Hk2 Hst Hc K E') as A.
  destruct (recordSettlementOperation gen_random_uuid now2 s2 op2) as [[s3 res2]|] eqn:H2; [|discriminate A]. exists s3, res2. split; [done|].
  destruct (replay_mutates_nothing now2 s2 op2 s3 res2 (py_id p) o' H2) as (B & C & _ & D1 & D2 & E & _); [rewrite Hk2; set_solver|exact K|by rewrite Hk2|].
  by rewrite E, Y1.
Qed.
End Facts.

(** ** A concrete store *)

(** Handlers that only note the effect, no credit and no reservations. *)
#[export] Instance settle_deps : SettlementDeps unit := {
  postAcceptedCredit d _ := (d, None);
  consumeForSettlement d _ _ _ := Ok (d, []);
  handler_of kind := if String.eqb kind "entitlement_reversal" then None else Some (LocalHandler (fun d _ => Ok (d, out_void)));
  order_referenced _ _ := false
}.
#[export] Instance settle_chokepoint : ChokepointDeps unit.
Proof.
  split; cbn; [by intros|by intros d ? ? ? d' ? [= <- _]|].
  intros kind run d row d' out H Hr. destruct (String.eqb _ _); [discriminate|]. injection H as <-. by injection Hr as <- _.
Qed.

Definition settle_order (id : string) (state : OrderState) (metadata : option json) : Order :=
  {| so_id := id; so_code := id; so_state := state; so_currency := "USD"; so_grandTotal := 1500; so_customerId := None;
     so_idempotencyKey := None; so_metadata := metadata; so_placedAt := None; so_updatedAt := 0; so_deletedAt := None |}%string.
Definition settle_held : json := JObj [("vendure", JObj [("financialReconciliationV1", JObj [])])]%string.
Definition settle_db : SettleDb unit :=
  {| sd_store := "s1"; sd_orders := [settle_order "o1" PendingPayment None; settle_order "o2" PendingPayment (Some settle_held)];
     sd_payments := []; sd_ops := []; sd_invoices := []; sd_refunds := []; sd_edits := []; sd_audit := []; sd_outbox := []; sd_fresh := 0; sd_other := tt |}%string.
Definition settle_start : St (X := unit) := (sample_db0, settle_db).
Definition settle_payment (orderId ref : string) : PaymentInsert :=
  {| pi_id := Some ("pay-" ++ ref); pi_orderId := orderId; pi_amount := 1500; pi_gatewayAccount := None; pi_gatewayMode := None;
     pi_currency := Some "USD"; pi_method := "stripe"; pi_providerRef := Some ref; pi_state := Some pay_Settled;
     pi_metadata := None; pi_errorMessage := None |}%string.
Definition settle_op (kind : SettlementKind) (id : string) (muts : list SettlementMutation) (effects : list string) : SettlementOperation :=
  {| op_storeId := "s1"; op_kind := kind; op_operationId := id; op_provider := None; op_classification := None; op_resolution := None;
     op_disposition := None; op_orderId := None; op_mutations := muts; op_effects := map sample_request effects; op_effectMode := None |}%string.
Definition settle_pay (orderId ref : string) : SettlementOperation :=
  settle_op payment_settled ("pay-" ++ ref)%string [payment_insert [settle_payment orderId ref]] [].
Definition settle_paid (orderId : string) : SettlementOperation :=
  settle_op order_paid_transition orderId [order_paid orderId 7 None] ["license_issue"%string].
(** The state after an operation that succeeds. *)
Definition settle_after (now : Z) (s : St (X := unit)) (op : SettlementOperation) : St (X := unit) * option SettlementResult :=
  match recordSettlementOperation sample_uuid now s op with Ok (s', r) => (s', Some r) | Err _ => (s, None) end.
Definition settle_s1 : St (X := unit) := fst (settle_after 5 settle_start (settle_pay "o1" "pi_1")).
Definition settle_s2 : St (X := unit) := fst (settle_after 6 settle_s1 (settle_paid "o1")).

Lemma settle_start_run : settle_run sample_uuid settle_start.
Proof. apply run_start; [done..|]. apply (bool_decide_eq_true_1 (NoDup _)). reflexivity. Qed.
Lemma settle_after_run now s op : settle_run sample_uuid s -> is_some (snd (settle_after now s op)) = true ->
  settle_run sample_uuid (fst (settle_after now s op)).
Proof.
  intros H E. unfold settle_after in *. destruct (recordSettlementOperation _ _ _ _) as [[s1 r1]|] eqn:Er; [|discriminate].
  by eapply run_record.
Qed.
Lemma settle_s1_run : settle_run sample_uuid settle_s1.
Proof. apply settle_after_run; [apply settle_start_run|vm_compute; reflexivity]. Qed.
Lemma settle_s2_run : settle_run sample_uuid settle_s2.
Proof. apply settle_after_run; [apply settle_s1_run|vm_compute; reflexivity]. Qed.

(** The same capture told again by a webhook: another operation id, payment id,
    amount and order, with an effect to run. *)
Definition settle_again : SettlementOperation :=
  settle_op payment_settled "evt_9" [payment_insert [{| pi_id := Some "other"; pi_orderId := "o2"; pi_amount := 900; pi_gatewayAccount := None; pi_gatewayMode := None;
     pi_currency := Some "USD"; pi_method := "stripe"; pi_providerRef := Some "pi_1"; pi_state := Some pay_Settled; pi_metadata := None; pi_errorMessage := None |}]]
    ["loyalty_earn"]%string.
Lemma provider_fact_settles_once_witness : exists s3 res2 i, recordSettlementOperation sample_uuid 9 settle_s2 settle_again = Ok (s3, res2) /\
  rs_created res2 = false /\ rs_operationRowId res2 = Some i /\ i ∈ map or_id (sd_ops (snd settle_s1)) /\ fst s3 = fst settle_s2.
Proof.
  destruct (recordSettlementOperation sample_uuid 5 settle_start (settle_pay "o1" "pi_1")) as [[s1 res1]|] eqn:H1; [|vm_compute in H1; discriminate].
  assert (E1 : settle_s1 = s1) by (unfold settle_s1, settle_after; by rewrite H1).
  destruct (recordSettlementOperation sample_uuid 6 s1 (settle_paid "o1")) as [[s2 res]|] eqn:H2; [|rewrite <- E1 in H2; vm_compute in H2; discriminate].
  assert (E2 : settle_s2 = s2) by (unfold settle_s2, settle_after; by rewrite E1, H2).
  destruct (provider_fact_settles_once sample_uuid 5 settle_start (settle_pay "o1" "pi_1") (settle_payment "o1" "pi_1") s1 res1 settle_start_run eq_refl eq_refl H1)
    as (p & o & _ & _ & _ & Ho & _ & _ & _ & _ & Again).
  destruct (check_operation settle_again) as [l|] eqn:Hc; [|vm_compute in Hc; discriminate].
  destruct (ref_insert_row settle_again) as [r2|] eqn:Hr; [|vm_compute in Hr; discriminate].
  assert (Hm : pi_method r2 = "stripe"%string /\ pi_providerRef r2 = Some "pi_1"%string) by (vm_compute in Hr; by injection Hr as <-).
  destruct (Again 9 settle_s2 settle_again r2 l) as (s3 & res2 & H3 & A & _ & B & C & _); [|done|vm_compute; reflexivity|done|done|apply Hm|apply Hm|by left|].
  - apply rtc_once. right. exists 6, (settle_paid "o1"), res. rewrite E2. split; [done|]. intros X. apply list_elem_of_singleton in X. discriminate.
  - exists s3, res2, (or_id o). rewrite E1. split; [done|]. split; [done|]. split; [done|]. split; [by apply list_elem_of_fmap_2|done].
Defined.

(** The condition on accounts is needed: a provider's reference known under two
    accounts is looked up by method and reference alone, so the second account's
    capture, told again, may be answered with the operation of the first. *)
Definition settle_account (account : string) : SettlementOperation :=
  settle_op payment_settled "evt" [payment_insert [{| pi_id := Some ("pay-" ++ account)%string; pi_orderId := "o1"; pi_amount := 1500; pi_gatewayAccount := Some account;
     pi_gatewayMode := Some "live"; pi_currency := Some "USD"; pi_method := "sezzle"; pi_providerRef := Some "ref"; pi_state := Some pay_Settled;
     pi_metadata := None; pi_errorMessage := None |}]] []%string.
Lemma other_account_answered :
  let s := fst (settle_after 6 (fst (settle_after 5 settle_start (settle_account "A"))) (settle_account "B")) in
  map py_id (sd_payments (snd s)) = ["pay-A"; "pay-B"]%string /\
  option_map rs_operationRowId (snd (settle_after 7 s (settle_account "B"))) = Some (option_map or_id (operation_row (snd s) payment_settled "pay-A")).
Proof. vm_compute. done. Qed.

Lemma effects_within_policy_witness : exists r o, r ∈ fx_rows (fst settle_s2) /\ ef_kind r = "license_issue"%string /\
  o ∈ sd_ops (snd settle_s2) /\ or_kind o <> historical_import.
Proof.
  destruct (fx_rows (fst settle_s2)) as [|r rs] eqn:E; [vm_compute in E; discriminate|].
  assert (Hk : ef_kind r = "license_issue"%string) by (vm_compute in E; by injection E as <- _).
  assert (Hr : r ∈ fx_rows (fst settle_s2)) by (rewrite E; left).
  destruct (effects_within_policy sample_uuid settle_s2 r settle_s2_run Hr) as (o & Ho & _ & _ & _ & _ & Hn & _); [by rewrite Hk|].
  exists r, o. split; [left|done].
Defined.

Lemma settled_money_final_witness : exists p', p' ∈ sd_payments (snd settle_s2) /\ py_state p' = pay_Settled /\ py_amount p' = 1500.
Proof.
  destruct (sd_payments (snd settle_s1)) as [|p ps] eqn:E; [vm_compute in E; discriminate|].
  assert (Hp : p ∈ sd_payments (snd settle_s1)) by (rewrite E; left). vm_compute in E. injection E as <- _.
  destruct (recordSettlementOperation sample_uuid 6 settle_s1 (settle_paid "o1")) as [[s' res]|] eqn:H; [|vm_compute in H; discriminate].
  destruct (settled_money_final sample_uuid 6 settle_s1 (settle_paid "o1") s' res _ settle_s1_run H Hp) as (p' & A & B & _ & C & _);
    [done|by intros [?|?%elem_of_nil]%elem_of_cons|].
  assert (settle_s2 = s') as -> by (unfold settle_s2, settle_after; by rewrite H). by exists p'.
Defined.

Lemma order_paid_by_fsm_witness : exists o', o' ∈ sd_orders (snd settle_s2) /\ so_state o' = Paid /\
  exists o, o ∈ sd_orders (snd settle_s1) /\ so_id o' = so_id o.
Proof.
  destruct (sd_orders (snd settle_s2)) as [|o' os] eqn:E; [vm_compute in E; discriminate|].
  assert (Ho : o' ∈ sd_orders (snd settle_s2)) by (rewrite E; left).
  assert (Hst : so_state o' = Paid) by (vm_compute in E; by injection E as <- _).
  destruct (recordSettlementOperation sample_uuid 6 settle_s1 (settle_paid "o1")) as [[s' res]|] eqn:H; [|vm_compute in H; discriminate].
  assert (settle_s2 = s') as Es by (unfold settle_s2, settle_after; by rewrite H). rewrite Es in Ho.
  exists o'. split; [left|]. split; [done|].
  destruct (order_paid_by_fsm sample_uuid 6 settle_s1 (settle_paid "o1") s' res o' settle_s1_run H Ho)
    as [(o & A & B)|[(o & t & u & A & B & _)|(rows & r & A & _)]].
  - exists o. split; [done|by injection B].
  - by exists o.
  - by apply list_elem_of_singleton in A.
Defined.

Lemma quarantine_inert_witness : settle_run sample_uuid settle_s2 /\
  is_ok (recordSettlementOperation sample_uuid 9 settle_s2 (settle_op order_purge "o2" [purge_order "o2"%string] [])) = false.
Proof.
  split; [apply settle_s2_run|].
  apply (quarantine_inert sample_uuid 9 settle_s2 (settle_op order_purge "o2" [purge_order "o2"%string] []) "o2");
    [apply settle_s2_run|left|vm_compute; reflexivity|left].
Defined.

Lemma replay_mutates_nothing_witness : exists s' res, recordSettlementOperation sample_uuid 9 settle_s2 (settle_pay "o1" "pi_1") = Ok (s', res) /\
  rs_replayed res = true /\ fst s' = fst settle_s2.
Proof.
  destruct (recordSettlementOperation sample_uuid 9 settle_s2 (settle_pay "o1" "pi_1")) as [[s' res]|] eqn:H; [|vm_compute in H; discriminate].
  destruct (operation_row (snd settle_s2) payment_settled "pay-pi_1") as [ex|] eqn:E; [|vm_compute in E; discriminate].
  destruct (replay_mutates_nothing sample_uuid 9 settle_s2 (settle_pay "o1" "pi_1") s' res "pay-pi_1" ex H) as (A & _ & _ & _ & B & _);
    [vm_compute; intros C; inversion C as [|? ? ? C']; inversion C' as [|? ? ? C'']; inversion C''|vm_compute; auto|done|].
  by exists s', res.
Defined.
