(* ===== verification/Settle.v ===== *)
(** Applying a provider's result to an order:
    [src/packages/api/src/payments/settle.ts], with the effect-set builders of
    [payments/settlement/record.ts].

    The caller holds the order's lock set, so [applyPaymentResult] is one function
    on the state of [Settlement.v]. Activating a staged order edit
    (orders/order-edit-service.ts) is the interface [EditActivation]; the rendered
    text of the operator e-mail is not modelled, only its outbox row. *)

From S2P Require Import Prelude Json OrderState Tender Effects Settlement.
From Stdlib Require Import ZArith QArith Lia Bool String.
From stdpp Require Import base list strings.
Local Open Scope Z_scope.

(** ** Rows *)

Record PaymentResult := {
  pr_state : PaymentState; pr_providerRef : option string; pr_metadata : option json; pr_errorMessage : option string
}.
Record Attempt := {
  pt_id : string; pt_orderId : string; pt_paymentId : option string; pt_operation : string; pt_method : string; pt_accountId : string;
  pt_mode : string; pt_amount : Z; pt_currency : string; pt_idempotencyKey : string; pt_providerRef : option string
}.
(** [opts]: [amount] is what was charged; [editId] the edit the payment settles. *)
Record ApplyOpts := {
  ao_storeId : string; ao_orderId : string; ao_method : string; ao_result : PaymentResult; ao_amount : option Z;
  ao_editId : option string; ao_paymentAttemptId : option string
}.

(** ** Effect sets *)

Definition json_text (o : option string) : json := match o with Some s => JStr s | None => JNull end.
Definition request (kind : string) (payload : list (string * json)) : EffectRequest :=
  {| rq_kind := kind; rq_payloadVersion := None; rq_payload := Some (JObj payload); rq_resolution := None |}.

(** [activatePreparedOrderEdit] answers whether an edit was activated;
    [operatorRecipients] whom the store alerts; [toISOString] prints a date. *)
Class EditActivation (X : Type) := {
  activatePreparedOrderEdit : FxDb * SettleDb X -> string -> option string -> string -> result string (FxDb * SettleDb X * bool);
  operatorRecipients : X -> list string;
  toISOString : Z -> string
}.

Section Settle.
Context {X : Type} {deps : SettlementDeps X} {edits : EditActivation X} (gen_random_uuid : nat -> string).
Implicit Types (d : SettleDb X) (s : FxDb * SettleDb X).

Inductive Variant := variant_settle | variant_checkout.
Definition variant_text (v : Variant) : string := match v with variant_settle => "settle" | variant_checkout => "checkout" end%string.
Definition paidOrderEffects (orderId : string) (customerId : option string) (paidAt : Z) (variant : Variant)
    (guestEmail : option string) (itemCount : option Z) (only_license_issue : bool) : list EffectRequest :=
  let at_ := JStr (toISOString paidAt) in
  let issue := request "license_issue" [("orderId", JStr orderId); ("customerId", json_text customerId); ("paidAt", at_)] in
  if only_license_issue then [issue]
  else [issue;
        request "loyalty_earn" [("variant", JStr (variant_text variant)); ("orderId", JStr orderId); ("paidAt", at_)];
        request "notification" [("variant", JStr (variant_text variant)); ("orderId", JStr orderId); ("guestEmail", json_text guestEmail);
                                ("itemCount", JNum (inject_Z (or_else itemCount 0)))]]%string.
Definition editBalanceEffects (now : Z) (orderId : string) (customerId : option string) (deferredEarn : bool) (actorKind : option string) :
    list EffectRequest :=
  request "edit_reconcile" ([("orderId", JStr orderId); ("customerId", json_text customerId); ("paidAt", JStr (toISOString now))] ++
                            match actorKind with Some a => [("actorKind", JStr a)] | None => [] end) ::
  (if deferredEarn then [request "loyalty_earn" [("variant", JStr "deferred_edit"); ("orderId", JStr orderId)]] else [])%string.

(** ** Reads *)

Definition money_tables d : MoneyTables := {| mt_payments := sd_payments d; mt_refunds := sd_refunds d; mt_edits := sd_edits d |}.
Definition gateway_field (k : string) (metadata : option json) : option string := as_string (opt_field k (opt_field "gateway" metadata)).
Definition text_or (o : option string) : string := or_else o EmptyString.

(** A Stripe reference is looked up in the whole store; any other with its account and mode. *)
Definition existing_payment d (method : string) (ref account mode : option string) : option Payment :=
  List.find (fun p => String.eqb (py_method p) method && bool_decide (py_providerRef p = ref) &&
    (String.eqb method "stripe" ||
     String.eqb (text_or (py_gatewayAccount p)) (text_or account) && String.eqb (text_or (py_gatewayMode p)) (text_or mode))) (sd_payments d).
Definition differs (stored given : option string) : bool :=
  match stored, given with Some a, Some b => negb (String.eqb a b) | _, _ => false end.
(** The recorded payment contradicts the result. *)
Definition contradicts (p : Payment) (o : Order) (amount : Z) (account mode : option string) : bool :=
  negb (String.eqb (py_orderId p) (so_id o)) || negb (py_amount p =? amount) ||
  (nonempty (py_currency p) && negb (bool_decide (py_currency p = Some (so_currency o)))) ||
  differs (py_gatewayMode p) mode || differs (py_gatewayAccount p) account.
(** A duplicate or delayed observation: nothing to progress. *)
Definition already_observed (p : Payment) (observed : PaymentState) : bool :=
  bool_decide (py_state p = pay_Settled) ||
  (bool_decide (py_state p = pay_Authorized) && bool_decide (observed = pay_Pending)) ||
  (negb (bool_decide (py_state p = pay_Pending)) && negb (bool_decide (observed = pay_Settled)) && bool_decide (py_state p = observed)).

Definition base_op (storeId : string) (kind : SettlementKind) (operationId : string) (orderId : option string)
    (mutations : list SettlementMutation) (effects : list EffectRequest) : SettlementOperation :=
  {| op_storeId := storeId; op_kind := kind; op_operationId := operationId; op_provider := None; op_classification := None;
     op_resolution := None; op_disposition := None; op_orderId := orderId; op_mutations := mutations; op_effects := effects; op_effectMode := None |}.

(** ** MONEY-4: settled money on an order that cannot take it *)

Definition enqueueEmail d (kind recipient dedupeKey : string) : SettleDb X :=
  if existsb (fun r => String.eqb (ob_dedupeKey r) dedupeKey) (sd_outbox d) then d
  else with_outbox d (sd_outbox d ++ [{| ob_kind := kind; ob_recipient := recipient; ob_dedupeKey := dedupeKey |}]).
Definition enqueuePaymentAfterCancelAlert d (orderId : string) (providerRef : option string) : SettleDb X :=
  fold_left (fun e recipient => enqueueEmail e "payment_after_cancel_alert" recipient
      ("payment_after_cancel:" ++ orderId ++ ":" ++ or_else providerRef "none" ++ ":" ++ recipient)%string) (operatorRecipients (sd_other d)) d.
Definition order_audit (action : string) (o : Order) (data : list (string * json)) : AuditRow :=
  {| au_actor := "system:settle"; au_entity := "order"; au_entityId := so_id o; au_action := action;
     au_fromState := Some (so_state o); au_toState := Some (so_state o); au_data := JObj data |}%string.
Definition recordPaymentAfterCancel d (o : Order) (method : string) (providerRef : option string) (amount : Z) : SettleDb X :=
  enqueuePaymentAfterCancelAlert
    (with_audit d (sd_audit d ++ [order_audit "payment_after_cancel" o
      [("reason", JStr "settled_payment_on_non_payable_order"); ("needsReconciliation", JBool true); ("amount", JNum (inject_Z amount));
       ("method", JStr method); ("providerRef", json_text providerRef)]%string]))
    (so_id o) providerRef.

(** ** applyPaymentResult *)

Definition activate s (orderId : string) (attemptId : option string) (paymentId : string) : result SettleError (FxDb * SettleDb X * bool) :=
  match activatePreparedOrderEdit s orderId attemptId paymentId with Ok r => Ok r | Err m => Err (Failed m) end.
Definition live_state d (orderId : string) : result SettleError OrderState :=
  match order_row d orderId with Some o => Ok (so_state o) | None => Err OrderMissing end.

(** The plan: stop with an answer, or go on with a payment id and a mutation. *)
Inductive Plan := Stop (orderState : OrderState) (paymentState : PaymentState) | Go (paymentId : string) (mutation : SettlementMutation).

Definition new_payment (paymentId : string) (o : Order) (opts : ApplyOpts) (amount : Z) (account mode : option string) : PaymentInsert :=
  {| pi_id := Some paymentId; pi_orderId := so_id o; pi_amount := amount; pi_gatewayAccount := account; pi_gatewayMode := mode;
     pi_currency := Some (so_currency o); pi_method := ao_method opts; pi_providerRef := pr_providerRef (ao_result opts);
     pi_state := Some (pr_state (ao_result opts)); pi_metadata := pr_metadata (ao_result opts); pi_errorMessage := pr_errorMessage (ao_result opts) |}.

Definition backfill (now : Z) s (opts : ApplyOpts) (p : Payment) (account mode : option string) : result SettleError (FxDb * SettleDb X) :=
  if (nonempty mode && negb (nonempty (py_gatewayMode p))) || (nonempty account && negb (nonempty (py_gatewayAccount p)))
  then let! q := recordSettlementOperation gen_random_uuid now s
         (base_op (ao_storeId opts) payment_state_progress (py_id p) None [payment_gateway_identity (py_id p) mode account] []) in Ok (fst q)
  else Ok s.
(** The existing row of the reference: progress it, or answer. *)
Definition plan_existing (now : Z) s (opts : ApplyOpts) (o : Order) (amount : Z) (account mode : option string) (p : Payment) :
    result SettleError (FxDb * SettleDb X * Plan) :=
  let result := ao_result opts in
  guard! negb (contradicts p o amount account mode) or ReferenceMismatch in
  let! s1 := backfill now s opts p account mode in
  if already_observed p (pr_state result) then
    if bool_decide (py_state p = pay_Settled) && negb (importedFinancialReconciliationRequired (so_metadata o)) then
      let! q := activate s1 (so_id o) (ao_paymentAttemptId opts) (py_id p) in
      let '(s2, activated) := q in
      if (activated : bool) then let! live := live_state (snd s2) (so_id o) in Ok (s2, Stop live (py_state p))
      else Ok (s2, Stop (so_state o) (py_state p))
    else Ok (s1, Stop (so_state o) (py_state p))
  else Ok (s1, Go (py_id p) (payment_state (py_id p)
         {| pu_state := pr_state result; pu_metadata := Some (pr_metadata result); pu_errorMessage := Some (pr_errorMessage result) |})).
Definition plan (now : Z) s (opts : ApplyOpts) (o : Order) (amount : Z) (account mode : option string) : result SettleError (FxDb * SettleDb X * Plan) :=
  let paymentId := gen_random_uuid (sd_fresh (snd s)) in
  let s0 := (fst s, tick (snd s)) in
  let fresh := Go paymentId (payment_insert [new_payment paymentId o opts amount account mode]) in
  let ref := pr_providerRef (ao_result opts) in
  if nonempty ref then
    match existing_payment (snd s0) (ao_method opts) ref account mode with
    | Some p => plan_existing now s0 opts o amount account mode p
    | None => Ok (s0, fresh)
    end
  else Ok (s0, fresh).

Definition Answer : Type := OrderState * PaymentState.
(** A Settled payment on an order with no staged edit (MONEY-3, G13, MONEY-4). *)
Definition settle_captured (now : Z) s (opts : ApplyOpts) (o : Order) (amount : Z) (paymentId : string) (m : SettlementMutation) :
    result SettleError (FxDb * SettleDb X * Answer) :=
  let storeId := ao_storeId opts in
  let remaining := amountDueForOrder (money_tables (snd s)) (so_id o) (so_grandTotal o) - amount in
  let payable := canTransition (so_state o) Paid in
  let transitions := payable && (remaining <=? 0) in
  let balance := negb payable && (bool_decide (so_state o = Paid) || bool_decide (so_state o = PartiallyRefunded)) && (0 <=? remaining) in
  let balanceCleared := balance && (remaining =? 0) in
  let '(kind, operationId) := match ao_editId opts with
    | Some editId => if nonempty (Some editId) && balanceCleared then (order_edit_balance_settled, editId) else (payment_settled, paymentId)
    | None => (payment_settled, paymentId)
    end in
  let! q := recordSettlementOperation gen_random_uuid now s
    (base_op storeId kind operationId None [m] (if balanceCleared then editBalanceEffects now (so_id o) (so_customerId o) true None else [])) in
  let '(s1, recorded) := q in
  guard! rs_created recorded || rs_replayed recorded or ReferenceMismatch in
  if transitions then
    let! q := recordSettlementOperation gen_random_uuid now s1
      (base_op storeId order_paid_transition (so_id o) (Some (so_id o)) [order_paid (so_id o) now None]
         (paidOrderEffects (so_id o) (so_customerId o) now variant_settle None None false)) in
    Ok (fst q, (Paid, pay_Settled))
  else if negb balance && payable then Ok (s1, (so_state o, pay_Settled))
  else if balance then
    Ok ((fst s1, with_audit (snd s1) (sd_audit (snd s1) ++ [order_audit "balance_payment" o
          [("amount", JNum (inject_Z amount)); ("method", JStr (ao_method opts)); ("providerRef", json_text (pr_providerRef (ao_result opts)))]%string])),
        (so_state o, pay_Settled))
  else Ok ((fst s1, recordPaymentAfterCancel (snd s1) o (ao_method opts) (pr_providerRef (ao_result opts)) amount), (so_state o, pr_state (ao_result opts))).

Definition pending_edit d (orderId : string) : bool :=
  existsb (fun e => String.eqb (oe_orderId e) orderId && isPendingEditStage (oe_settlement e)) (sd_edits d).

Definition apply_planned (now : Z) s (opts : ApplyOpts) (o : Order) (amount : Z) (paymentId : string) (m : SettlementMutation) :
    result SettleError (FxDb * SettleDb X * Answer) :=
  let result := ao_result opts in
  let settled := bool_decide (pr_state result = pay_Settled) in
  if negb settled || importedFinancialReconciliationRequired (so_metadata o) then
    let! q := recordSettlementOperation gen_random_uuid now s
      (base_op (ao_storeId opts) (if settled then payment_settled else payment_state_progress) paymentId (Some (so_id o)) [m] []) in
    guard! is_some (rs_paymentId (snd q)) or ReferenceMismatch in
    Ok (fst q, (so_state o, pr_state result))
  else if pending_edit (snd s) (so_id o) then
    let! q := recordSettlementOperation gen_random_uuid now s (base_op (ao_storeId opts) payment_settled paymentId None [m] []) in
    guard! rs_created (snd q) || rs_replayed (snd q) or ReferenceMismatch in
    let! r := activate (fst q) (so_id o) (ao_paymentAttemptId opts) paymentId in
    let! live := live_state (snd (fst r)) (so_id o) in
    Ok (fst r, (live, pay_Settled))
  else settle_captured now s opts o amount paymentId m.

Definition applyPaymentResult (now : Z) s (opts : ApplyOpts) : result SettleError (FxDb * SettleDb X * Answer) :=
  match order_row (snd s) (ao_orderId opts) with
  | None => Err OrderMissing
  | Some o =>
      let amount := or_else (ao_amount opts) (so_grandTotal o) in
      let account := gateway_field "accountId" (pr_metadata (ao_result opts)) in
      let mode := gateway_field "mode" (pr_metadata (ao_result opts)) in
      let! q := plan now s opts o amount account mode in
      match q with
      | (s1, Stop orderState paymentState) => Ok (s1, (orderState, paymentState))
      | (s1, Go paymentId m) => apply_planned now s1 opts o amount paymentId m
      end
  end.

(** ** Recovery of a prepared edit whose payment arrived *)

Record Match := { mc_paymentAttemptId : option string; mc_providerRef : option string; mc_idempotencyKey : option string; mc_method : option string }.
(** [given && given !== value]. *)
Definition mismatched (given value : option string) : bool := nonempty given && negb (bool_decide (value = given)).
Definition same_gateway (a : Attempt) (p : Payment) : bool :=
  String.eqb (pt_method a) "stripe" ||
  bool_decide (py_gatewayAccount p = Some (pt_accountId a)) && bool_decide (py_gatewayMode p = Some (pt_mode a)).
Definition attempt_payment d (orderId : string) (a : Attempt) : option Payment :=
  List.find (fun p => String.eqb (py_orderId p) orderId && bool_decide (py_state p = pay_Settled) &&
    (if nonempty (pt_paymentId a) then bool_decide (Some (py_id p) = pt_paymentId a)
     else nonempty (pt_providerRef a) && String.eqb (py_method p) (pt_method a) && bool_decide (py_providerRef p = pt_providerRef a) &&
          same_gateway a p)) (sd_payments d).
Definition attempt_paid (a : Attempt) (p : Payment) : bool :=
  String.eqb (py_method p) (pt_method a) && (py_amount p =? pt_amount a) && bool_decide (py_currency p = Some (pt_currency a)) &&
  nonempty (pt_providerRef a) && bool_decide (py_providerRef p = pt_providerRef a) && same_gateway a p.
Definition edit_attempt (attempts : list Attempt) (orderId : string) (m : Match) (e : OrderEditRow) : option Attempt :=
  match text_field "paymentAttemptId" (oe_settlement e) with
  | None => None
  | Some id =>
      if negb (isPendingEditStage (oe_settlement e)) || String.eqb id EmptyString || mismatched (mc_paymentAttemptId m) (Some id) then None
      else match List.find (fun a => String.eqb (pt_id a) id && String.eqb (pt_orderId a) orderId) attempts with
      | None => None
      | Some a =>
          if negb (one_of ["intent"; "charge"; "session"]%string (pt_operation a)) || mismatched (mc_providerRef m) (pt_providerRef a) ||
             mismatched (mc_method m) (Some (pt_method a)) ||
             (mismatched (mc_idempotencyKey m) (Some (pt_idempotencyKey a)) &&
              negb (String.eqb (pt_idempotencyKey a) (text_or (mc_idempotencyKey m) ++ ":edit:" ++ oe_id e)%string))
          then None else Some a
      end
  end.
Fixpoint retry_edits s (attempts : list Attempt) (orderId : string) (m : Match) (rows : list OrderEditRow) :
    result SettleError (FxDb * SettleDb X * option (Attempt * string * OrderState)) :=
  match rows with
  | [] => Ok (s, None)
  | e :: rest =>
      match edit_attempt attempts orderId m e with
      | None => retry_edits s attempts orderId m rest
      | Some a =>
          match attempt_payment (snd s) orderId a with
          | Some p =>
              if attempt_paid a p then
                let! q := activate s orderId (Some (pt_id a)) (py_id p) in
                let! live := live_state (snd (fst q)) orderId in
                Ok (fst q, Some (a, py_id p, live))
              else retry_edits s attempts orderId m rest
          | None => retry_edits s attempts orderId m rest
          end
      end
  end.
Definition retryPreparedEditSettlement s (attempts : list Attempt) (orderId : string) (m : Match) :
    result SettleError (FxDb * SettleDb X * option (Attempt * string * OrderState)) :=
  if quarantined_order (snd s) orderId then Ok (s, None)
  else retry_edits s attempts orderId m (List.filter (fun e => String.eqb (oe_orderId e) orderId) (sd_edits (snd s))).
End Settle.
