(* ===== verification/SettleFacts.v ===== *)
(** What applying a payment result guarantees ([Settle.v]): the money, the order
    state and the alerts of every branch, proved over the chokepoint's own
    behaviour ([Settlement.v]). *)

From S2P Require Import Prelude Json OrderState Tender Effects Settlement SettlementFacts Settle.
From Stdlib Require Import ZArith QArith Lia Bool String.
From stdpp Require Import base list strings sets.
Local Open Scope Z_scope.

Section Facts.
Context {X : Type} {deps : SettlementDeps X} {chokepoint : ChokepointDeps X} {edits : EditActivation X}.
Context (gen_random_uuid : nat -> string).
Implicit Types (d : SettleDb X) (s : FxDb * SettleDb X).

(** ** The money side of one operation *)

(** Payments, refunds, edits and order facts agree. *)
Definition same_money (d d' : SettleDb X) : Prop :=
  sd_payments d' = sd_payments d /\ sd_refunds d' = sd_refunds d /\ sd_edits d' = sd_edits d /\
  map order_facts (sd_orders d') = map order_facts (sd_orders d).
#[local] Instance same_money_preorder : PreOrder same_money.
Proof.
  split; [by intros d|]. intros d1 d2 d3 (A1 & B1 & C1 & D1) (A2 & B2 & C2 & D2). repeat split; congruence.
Qed.
Lemma frame_money d d' : money_frame d d' -> same_money d d'.
Proof. by intros []. Qed.

(** What a recorded operation leaves in the money tables is what its mutations did. *)
Lemma perform_money now s op oid pre held o s' res a fx1 d1 : perform gen_random_uuid now s op oid pre held o = Ok (s', res) ->
  apply_all gen_random_uuid now op pre s = Ok ((fx1, d1), a) -> same_money d1 (snd s').
Proof.
  intros H Ha. unfold perform in H. rewrite Ha in H. cbn [bind_result] in H.
  destruct (inserted_nothing op a); [by injection H as <- _|]. inv_ok. destruct a0 as [[d3 credit] ids].
  apply consumption_frame in Em. destruct (enqueueEffects _ _ _ _ _ _) as [fx3 created]. inv_ok. destruct s' as [fx4 d4]. cbn [snd].
  assert (M : money_frame d3 d4).
  { destruct (bool_decide _); [|by injection Em0 as _ <-]. destruct (executeEffectsNow _ _ _ _ _ _) as [[[fx5 d5] ap]|] eqn:Ex; [|discriminate].
    injection Em0 as _ <-. apply (executeEffectsNow_keeps gen_random_uuid handler_of money_frame) in Ex as [_ M]; [done|].
    intros; by eapply handler_frame. }
  apply frame_money in Em, M. by etrans; [|exact M].
Qed.

Definition captured (id : string) (r : PaymentInsert) d : SettleDb X := with_payments (tick d) (sd_payments d ++ [payment_of id r]).
Definition conflicts d (id : string) (r : PaymentInsert) : bool := existsb (payment_conflict (payment_of id r)) (sd_payments d).

Lemma insert_one d id r o : pi_id r = Some id -> conflicts d id r = false -> order_row d (pi_orderId r) = Some o ->
  insert_payments gen_random_uuid d [r] = Ok (captured id r d, [id]).
Proof.
  intros Hi Hc Ho. unfold insert_payments, fold_result, insert_payment. rewrite Hi. cbn [or_else]. unfold conflicts in Hc.
  by rewrite Hc, Ho.
Qed.

Lemma replay_shape fx d op oid ex s' res : replay_operation (fx, d) op oid ex = Ok (s', res) ->
  exists l, s' = (fx, with_audit d l) /\ rs_replayed res = true.
Proof.
  intros H. unfold replay_operation in H. inv_ok. eexists (match op_classification op, or_classification ex with
    | Some c1, Some c2 => if bool_decide (c2 = c1) then sd_audit d else _ | _, _ => sd_audit d end).
  split; [|done]. f_equal. destruct (op_classification op), (or_classification ex); try by destruct d. by destruct (bool_decide _), d.
Qed.

(** Recording a new captured payment with a provider reference adds exactly that
    row, whether or not the operation row existed. *)
Lemma record_capture now s storeId pid orderId r effects s' res o : pi_id r = Some pid -> nonempty (pi_providerRef r) = true ->
  conflicts (snd s) pid r = false -> order_row (snd s) (pi_orderId r) = Some o ->
  recordSettlementOperation gen_random_uuid now s (base_op storeId payment_settled pid orderId [payment_insert [r]] effects) = Ok (s', res) ->
  sd_payments (snd s') = sd_payments (snd s) ++ [payment_of pid r] /\ sd_refunds (snd s') = sd_refunds (snd s) /\
  sd_edits (snd s') = sd_edits (snd s) /\ map order_facts (sd_orders (snd s')) = map order_facts (sd_orders (snd s)) /\
  (rs_created res = true \/ rs_replayed res = true).
Proof.
  intros Hi Hn Hc Ho H. destruct s as [fx d]. cbn [fst snd] in *. set (op := base_op _ _ _ _ _ _) in *. unfold recordSettlementOperation in H.
  inv_ok. destruct a0 as [op1 l]. cbn [snd] in *.
  assert (K : op_kind op1 = payment_settled /\ op_mutations op1 = [payment_insert [r]]).
  { clear -Em0. unfold revalidate in Em0. inv_ok. by destruct (existsb _ _); injection Em0 as <- _. }
  destruct K as [K1 K2].
  assert (R : ref_insert_row op1 = Some r).
  { rewrite ref_insert_row_spec, K1, K2. cbn. by rewrite Hn. }
  unfold resolve_identity in H. rewrite R, (insert_one d pid r o Hi Hc Ho) in H. cbn [bind_result] in H. rewrite K1 in H.
  change (bool_decide (payment_settled = payment_settled)) with true in H. change (bool_decide (payment_settled ∈ MONOTONE_KINDS)) with false in H. cbv iota in H.
  unfold record_once in H. inv_ok. cbn [fst snd] in *.
  destruct (operation_row (captured pid r d) (op_kind op1) pid) as [ex|].
  { apply replay_shape in H as (l1 & -> & Hrep). cbn. repeat (split; [done|]). by right. }
  assert (Ea : forall e fx0, apply_all gen_random_uuid now op1 (Some pid) (fx0, e) = Ok ((fx0, e), note_payment nothing_applied (Some pid))).
  { intros e fx0. unfold apply_all. rewrite K2. cbn [length List.seq combine fold_result]. unfold apply_mutation. cbn [fst snd].
    assert (E : ref_insert op1 = Some 0%nat) by (unfold ref_insert; rewrite K1, K2; cbn; by rewrite Hn). rewrite E.
    by rewrite bool_decide_eq_true_2. }
  pose proof (perform_money _ _ _ _ _ _ _ _ _ _ _ _ H (Ea _ _)) as (M1 & M2 & M3 & M4). cbn in M1, M2, M3, M4.
  repeat (split; [done|]). left. unfold perform in H. rewrite Ea in H. cbn [bind_result] in H.
  assert (N : inserted_nothing op1 (note_payment nothing_applied (Some pid)) = false) by (unfold inserted_nothing; cbn; by rewrite andb_false_r).
  rewrite N in H. destruct (consumption _ _ _ _) as [[[d3 cr] ids]|]; [|discriminate]. cbn [bind_result] in H.
  destruct (enqueueEffects _ _ _ _ _ _). by inv_ok.
Qed.

Definition pay_facts (id : string) (o : Order) : string * string * option string * OrderState * Z * bool :=
  if String.eqb (so_id o) id then paid_facts o else order_facts o.

(** Recording the Paid transition of an order that may take it pays exactly that order. *)
Lemma record_paid now s storeId o placedAt effects s' res : order_row (snd s) (so_id o) = Some o -> canTransition (so_state o) Paid = true ->
  let op := base_op storeId order_paid_transition (so_id o) (Some (so_id o)) [order_paid (so_id o) placedAt None] effects in
  existsb (quarantined_order (snd s)) (touched_orders (snd s) op) = false ->
  recordSettlementOperation gen_random_uuid now s op = Ok (s', res) ->
  sd_payments (snd s') = sd_payments (snd s) /\ sd_refunds (snd s') = sd_refunds (snd s) /\ sd_edits (snd s') = sd_edits (snd s) /\
  map order_facts (sd_orders (snd s')) = map (pay_facts (so_id o)) (sd_orders (snd s)) /\ rs_created res = true.
Proof.
  intros Ho Ht op Hq H. destruct s as [fx d]. cbn [fst snd] in *. unfold recordSettlementOperation in H. inv_ok. destruct a0 as [op1 l].
  unfold revalidate in Em0. cbn [fst snd] in *. destruct (negb _) in Em0; [|discriminate]. rewrite Hq in Em0. injection Em0 as <- _.
  unfold resolve_identity in H. change (ref_insert_row op) with (@None PaymentInsert) in H. cbn [bind_result] in H.
  change (bool_decide (op_kind op ∈ MONOTONE_KINDS)) with false in H. cbv iota in H. unfold record_once in H. inv_ok. cbn [fst snd] in *.
  destruct (operation_row d (op_kind op) (op_operationId op)) as [ex|].
  { unfold replay_operation in H. cbn [op_mutations op base_op map_result check_replayed] in H. by rewrite Ho, Ht in H. }
  set (d1 := with_ops (tick d) _) in *.
  assert (Ho1 : order_row d1 (so_id o) = Some o) by done.
  set (d2 := with_orders d1 (set_where (fun x => String.eqb (so_id x) (so_id o)) (pay_order placedAt now) (sd_orders d1))).
  assert (Ea : apply_all gen_random_uuid now op None (fx, d1) =
    Ok ((fx, d2), {| ap_paymentId := None; ap_invoicePaymentId := None; ap_orderId := Some (so_id o) |})).
  { unfold apply_all. cbn [op_mutations op base_op length List.seq combine fold_result]. unfold apply_mutation. cbn [fst snd].
    by rewrite Ho1, Ht. }
  pose proof (perform_money _ _ _ _ _ _ _ _ _ _ _ _ H Ea) as (M1 & M2 & M3 & M4). cbn in M1, M2, M3, M4.
  repeat (split; [done|]). split.
  - rewrite M4. unfold set_where. rewrite map_map. apply map_ext. intros x. unfold pay_facts. cbn. by destruct (String.eqb (so_id x) (so_id o)).
  - unfold perform in H. rewrite Ea in H. cbn [bind_result] in H.
    change (inserted_nothing op _) with false in H. cbv iota in H.
    destruct (consumption _ _ _ _) as [[[d3 cr] ids]|]; [|discriminate]. cbn [bind_result] in H.
    destruct (enqueueEffects _ _ _ _ _ _). by inv_ok.
Qed.

(** ** The branches of [applyPaymentResult] *)

(** A new captured payment: a provider reference the store has not seen, and a
    uuid that is not in use. *)
Definition new_capture s (opts : ApplyOpts) (o : Order) : Prop :=
  let md := pr_metadata (ao_result opts) in
  order_row (snd s) (ao_orderId opts) = Some o /\ importedFinancialReconciliationRequired (so_metadata o) = false /\
  pending_edit (snd s) (so_id o) = false /\ pr_state (ao_result opts) = pay_Settled /\ nonempty (pr_providerRef (ao_result opts)) = true /\
  existing_payment (snd s) (ao_method opts) (pr_providerRef (ao_result opts)) (gateway_field "accountId" md) (gateway_field "mode" md) = None /\
  existsb (has_payment_id (gen_random_uuid (sd_fresh (snd s)))) (sd_payments (snd s)) = false.
Definition charged (opts : ApplyOpts) (o : Order) : Z := or_else (ao_amount opts) (so_grandTotal o).
(** The row it adds. *)
Definition captured_row s (opts : ApplyOpts) (o : Order) : Payment :=
  let md := pr_metadata (ao_result opts) in let id := gen_random_uuid (sd_fresh (snd s)) in
  payment_of id (new_payment id o opts (charged opts o) (gateway_field "accountId" md) (gateway_field "mode" md)).

Lemma text_or_else (o : option string) : or_else o EmptyString = text_or o.
Proof. done. Qed.
Lemma nonempty_some o : nonempty o = true -> is_Some o.
Proof. destruct o; [by eexists|discriminate]. Qed.

(** No payment carries the reference within its index, so the insert goes through. *)
Lemma new_capture_free s opts o : new_capture s opts o ->
  existsb (payment_conflict (captured_row s opts o)) (sd_payments (snd s)) = false.
Proof.
  intros (_ & _ & _ & _ & Hn & He & Hf). apply not_true_iff_false. intros H. apply existsb_exists in H as (p & Hp & H).
  unfold payment_conflict in H. apply orb_true_iff in H as [H|H].
  - apply String.eqb_eq in H. assert (X1 : existsb (has_payment_id (gen_random_uuid (sd_fresh (snd s)))) (sd_payments (snd s)) = true); [|congruence].
    apply existsb_exists. exists p. split; [done|]. unfold has_payment_id. rewrite <- H. apply String.eqb_refl.
  - unfold same_ref in H. bool_props. apply bool_decide_eq_true_1 in H. destruct (nonempty_some _ Hn) as [ref Eref].
    unfold existing_payment in He. eapply find_none in He; [|exact Hp]. unfold captured_row, ref_key in H. cbn in H. rewrite Eref in *.
    destruct (py_providerRef p) as [r'|] eqn:Er; [|by destruct (String.eqb (ao_method opts) "stripe")].
    destruct (String.eqb (ao_method opts) "stripe") eqn:Es, (String.eqb (py_method p) "stripe") eqn:Ep.
    + injection H as H. apply String.eqb_eq in Es, Ep. rewrite Es, Ep, H, bool_decide_eq_true_2 in He; done.
    + injection H as H _ _ _. apply String.eqb_neq in Ep. congruence.
    + injection H as H _ _ _. apply String.eqb_neq in Es. congruence.
    + injection H as H Ha Hm ->. rewrite !text_or_else in Ha, Hm.
      rewrite <- H, Ha, Hm, !String.eqb_refl, bool_decide_eq_true_2, orb_true_r in He; done.
Qed.

Lemma apply_new_capture now s opts o : new_capture s opts o -> applyPaymentResult gen_random_uuid now s opts =
  settle_captured gen_random_uuid now (fst s, tick (snd s)) opts o (charged opts o) (gen_random_uuid (sd_fresh (snd s)))
    (payment_insert [new_payment (gen_random_uuid (sd_fresh (snd s))) o opts (charged opts o)
       (gateway_field "accountId" (pr_metadata (ao_result opts))) (gateway_field "mode" (pr_metadata (ao_result opts)))]).
Proof.
  intros (Ho & Hq & Hp & Hs & Hn & He & _). unfold applyPaymentResult, plan. cbn [snd fst]. rewrite Ho, Hn.
  change (existing_payment (tick (snd s))) with (existing_payment (snd s)). rewrite He. cbn [bind_result].
  unfold apply_planned. rewrite Hs, Hq. change (bool_decide (pay_Settled = pay_Settled)) with true. cbn [negb orb snd].
  change (pending_edit (tick (snd s))) with (pending_edit (snd s)). by rewrite Hp.
Qed.

Lemma quarantined_facts d d' id : map order_facts (sd_orders d') = map order_facts (sd_orders d) -> quarantined_order d' id = quarantined_order d id.
Proof.
  intros H. apply (order_row_facts d d' id) in H. unfold quarantined_order. destruct (order_row d' id), (order_row d id); try discriminate; [|done].
  by injection H.
Qed.
Lemma order_row_id d id o : order_row d id = Some o -> so_id o = id.
Proof. intros H. apply find_elem in H as [_ H]. by apply String.eqb_eq. Qed.

(** The first record of a new capture, for any effects. *)
Lemma record_new_capture now s opts o effects s1 r : new_capture s opts o ->
  let id := gen_random_uuid (sd_fresh (snd s)) in let md := pr_metadata (ao_result opts) in
  recordSettlementOperation gen_random_uuid now (fst s, tick (snd s)) (base_op (ao_storeId opts) payment_settled id None
    [payment_insert [new_payment id o opts (charged opts o) (gateway_field "accountId" md) (gateway_field "mode" md)]] effects) = Ok (s1, r) ->
  sd_payments (snd s1) = sd_payments (snd s) ++ [captured_row s opts o] /\ sd_refunds (snd s1) = sd_refunds (snd s) /\
  sd_edits (snd s1) = sd_edits (snd s) /\ map order_facts (sd_orders (snd s1)) = map order_facts (sd_orders (snd s)) /\
  (rs_created r || rs_replayed r) = true.
Proof.
  intros Hc id md H. pose proof (new_capture_free _ _ _ Hc) as Hf. destruct Hc as (Ho & _ & _ & _ & Hn & _ & _).
  pose proof (order_row_id _ _ _ Ho) as Eid.
  destruct (record_capture now (fst s, tick (snd s)) (ao_storeId opts) id None
    (new_payment id o opts (charged opts o) (gateway_field "accountId" md) (gateway_field "mode" md)) effects s1 r o) as (A & B & C & D & E); try done.
  - cbn. rewrite Eid. exact Ho.
  - repeat (split; [done|]). destruct E as [->| ->]; [done|by rewrite orb_true_r].
Qed.

Definition duplicate_capture (opts : ApplyOpts) : bool := or_else (bool_field "duplicate" (pr_metadata (ao_result opts))) false.
Lemma due_after_capture s opts o d' : new_capture s opts o -> sd_payments d' = sd_payments (snd s) ++ [captured_row s opts o] ->
  sd_refunds d' = sd_refunds (snd s) -> sd_edits d' = sd_edits (snd s) ->
  amountDueForOrder (money_tables d') (so_id o) (so_grandTotal o) =
  amountDueForOrder (money_tables (snd s)) (so_id o) (so_grandTotal o) - (if duplicate_capture opts then 0 else charged opts o).
Proof.
  intros (_ & _ & _ & Hs & _) A B C. unfold amountDueForOrder, editRefundedTotal, money_tables. cbn [mt_payments mt_refunds mt_edits]. rewrite A, B, C, settled_total_snoc.
  cbn [captured_row payment_of new_payment py_orderId pi_orderId py_amount pi_amount]. rewrite String.eqb_refl. unfold usable_tender, duplicate_capture. cbn. rewrite Hs, bool_decide_eq_true_2 by done.
  destruct (or_else _ _); cbn; lia.
Qed.

Lemma touched_paid d storeId id paidAt customerId t orderId : orderId = id -> quarantined_order d id = false ->
  existsb (quarantined_order d) (touched_orders d (base_op storeId order_paid_transition id (Some id) [order_paid id t None]
    (paidOrderEffects orderId customerId paidAt variant_settle None None false))) = false.
Proof.
  intros -> H. unfold touched_orders. cbn [op_orderId op_mutations op_effects base_op flat_map mutation_orders paidOrderEffects].
  rewrite !existsb_app. change (payload_order _) with [id] at 1. destruct (String.eqb id EmptyString); cbn [existsb app];
    change (payload_order _) with [id] at 1; cbn; by rewrite ?H.
Qed.

(** C4: A captured payment settles its order exactly when the usable tender
    covers it. For a new Settled result on a PendingPayment order, the payment is
    recorded as charged, the order becomes Paid if and only if what was still
    owed is now covered, no other order changes, and the amount due falls by the
    charge (not at all for a marked duplicate). *)
Theorem payment_settles_order now s opts o s' st ps : new_capture s opts o -> so_state o = PendingPayment ->
  applyPaymentResult gen_random_uuid now s opts = Ok (s', (st, ps)) ->
  let due := amountDueForOrder (money_tables (snd s)) (so_id o) (so_grandTotal o) in
  ps = pay_Settled /\ st = (if due <=? charged opts o then Paid else PendingPayment) /\
  sd_payments (snd s') = sd_payments (snd s) ++ [captured_row s opts o] /\
  map order_facts (sd_orders (snd s')) = map (if due <=? charged opts o then pay_facts (so_id o) else order_facts) (sd_orders (snd s)) /\
  amountDueForOrder (money_tables (snd s')) (so_id o) (so_grandTotal o) = due - (if duplicate_capture opts then 0 else charged opts o).
Proof.
  intros Hc Hst H due. pose proof Hc as (Ho & Hq & _). pose proof (order_row_id _ _ _ Ho) as Eid. rewrite (apply_new_capture _ _ _ _ Hc) in H.
  unfold settle_captured in H. change (money_tables (snd (fst s, tick (snd s)))) with (money_tables (snd s)) in H. fold due in H.
  rewrite Hst in H. change (canTransition PendingPayment Paid) with true in H. cbn [negb andb orb] in H.
  replace (match ao_editId opts with Some editId => if nonempty (Some editId) && false then (order_edit_balance_settled, editId)
      else (payment_settled, gen_random_uuid (sd_fresh (snd s))) | None => (payment_settled, gen_random_uuid (sd_fresh (snd s))) end)
    with (payment_settled, gen_random_uuid (sd_fresh (snd s))) in H by (destruct (ao_editId opts); [by rewrite andb_false_r|done]).
  destruct (recordSettlementOperation _ _ _ _) as [[s1 r1]|] eqn:E1; [|discriminate]. cbn [bind_result] in H.
  apply record_new_capture in E1 as (A & B & C & D1 & E); [|done]. rewrite E in H.
  replace (due - charged opts o <=? 0) with (due <=? charged opts o) in H by (destruct (Z.leb_spec due (charged opts o)), (Z.leb_spec (due - charged opts o) 0); lia).
  destruct (due <=? charged opts o) eqn:Ed.
  - destruct (recordSettlementOperation _ _ s1 _) as [[s2 r2]|] eqn:E2; [|discriminate]. cbn [bind_result fst] in H. injection H as <- <- <-.
    pose proof (order_row_facts (snd s) (snd s1) (ao_orderId opts) D1) as F. rewrite Ho in F.
    destruct (order_row (snd s1) (ao_orderId opts)) as [o1|] eqn:Eo1; [|discriminate]. injection F as F1 F2 F3 F4 F5 F6.
    rewrite <- F1 in E2. destruct (record_paid now s1 _ o1 _ _ _ _ ltac:(by rewrite F1, Eid) ltac:(by rewrite F4, Hst) ltac:(
      apply touched_paid; [by rewrite F1|rewrite (quarantined_facts _ _ _ D1), F1, Eid; unfold quarantined_order; by rewrite Ho, Hq]) E2) as (A2 & B2 & C2 & D2 & _).
    split; [done|]. split; [done|]. split; [by rewrite A2|]. split; [|apply due_after_capture; congruence].
    rewrite D2, F1. apply (map_proj order_facts (fun f => let '(i, c, k, t, g, q) := f in if String.eqb i (so_id o) then (i, c, k, Paid, g, q) else f)); [|done].
    intros x. unfold pay_facts, paid_facts, order_facts. by destruct (String.eqb _ _).
  - injection H as <- <- <-. split; [done|]. split; [done|]. split; [done|]. split; [done|]. by apply due_after_capture.
Qed.

(** With no staged edit on the order there is nothing to activate. *)
Class EditActivationLaws : Prop := {
  activate_idle s orderId paymentId : pending_edit (snd s) orderId = false -> activatePreparedOrderEdit s orderId None paymentId = Ok (s, false)
}.

(** The result is about another order, amount, currency, mode or account than the row. *)
Definition names_another (p : Payment) (o : Order) (amount : Z) (account mode : option string) : Prop :=
  py_orderId p <> so_id o \/ py_amount p <> amount \/ (nonempty (py_currency p) = true /\ py_currency p <> Some (so_currency o)) \/
  (exists a b, py_gatewayMode p = Some a /\ mode = Some b /\ a <> b) \/ (exists a b, py_gatewayAccount p = Some a /\ account = Some b /\ a <> b).
Lemma differs_spec x y : differs x y = true <-> exists a b, x = Some a /\ y = Some b /\ a <> b.
Proof.
  unfold differs. destruct x as [a|], y as [b|]; try (split; [discriminate|by intros (? & ? & ? & ? & ?)]).
  rewrite negb_true_iff, String.eqb_neq. split; [intros; by exists a, b|]. by intros (? & ? & [= <-] & [= <-] & ?).
Qed.
Lemma contradicts_spec p o amount account mode : contradicts p o amount account mode = true <-> names_another p o amount account mode.
Proof.
  unfold contradicts, names_another. rewrite !orb_true_iff, !differs_spec, !negb_true_iff, andb_true_iff, negb_true_iff, String.eqb_neq, Z.eqb_neq.
  rewrite bool_decide_eq_false. tauto.
Qed.

(** C14: A provider reference is settled once. Another observation of a reference
    whose payment is Settled - a webhook replay, a delayed or contradicting
    status - changes nothing and reports the order as it is; one that names
    another order, amount, currency, account or mode is refused. *)
Theorem settled_reference_final `{!EditActivationLaws} now s opts o p : order_row (snd s) (ao_orderId opts) = Some o ->
  let md := pr_metadata (ao_result opts) in let account := gateway_field "accountId" md in let mode := gateway_field "mode" md in
  nonempty (pr_providerRef (ao_result opts)) = true ->
  existing_payment (snd s) (ao_method opts) (pr_providerRef (ao_result opts)) account mode = Some p -> py_state p = pay_Settled ->
  (names_another p o (charged opts o) account mode ->
     applyPaymentResult gen_random_uuid now s opts = Err ReferenceMismatch) /\
  (~ names_another p o (charged opts o) account mode ->
     (nonempty mode = true -> nonempty (py_gatewayMode p) = true) -> (nonempty account = true -> nonempty (py_gatewayAccount p) = true) ->
     pending_edit (snd s) (so_id o) = false -> ao_paymentAttemptId opts = None ->
     applyPaymentResult gen_random_uuid now s opts = Ok ((fst s, tick (snd s)), (so_state o, pay_Settled))).
Proof.
  intros Ho md account mode Hn He Hs.
  assert (E : applyPaymentResult gen_random_uuid now s opts =
    let! q := plan_existing gen_random_uuid now (fst s, tick (snd s)) opts o (charged opts o) account mode p in
    match q with (s1, Stop a b) => Ok (s1, (a, b)) | (s1, Go i m) => apply_planned gen_random_uuid now s1 opts o (charged opts o) i m end).
  { unfold applyPaymentResult, plan. fold md. fold account mode. rewrite Ho, Hn. cbn [snd]. change (existing_payment (tick (snd s))) with (existing_payment (snd s)). by rewrite He. }
  rewrite E. unfold plan_existing. split.
  - intros Hc%contradicts_spec. by rewrite Hc.
  - intros Hc Hm Ha Hp Hat. rewrite <- contradicts_spec in Hc. apply not_true_iff_false in Hc. rewrite Hc. cbn [negb]. unfold backfill.
    replace ((nonempty mode && negb (nonempty (py_gatewayMode p))) || (nonempty account && negb (nonempty (py_gatewayAccount p)))) with false.
    2:{ destruct (nonempty mode), (nonempty account); cbn; rewrite ?Hm, ?Ha; done. }
    cbn [bind_result]. unfold already_observed. rewrite Hs. change (bool_decide (pay_Settled = pay_Settled)) with true. cbn [orb andb].
    destruct (importedFinancialReconciliationRequired (so_metadata o)); cbn [negb bind_result]; [done|].
    unfold activate. rewrite Hat, activate_idle; done.
Qed.

Lemma enqueued_alerts d0 (l : list string) key : (forall x y, key x = key y -> x = y) ->
  let d1 := fold_left (fun e r => enqueueEmail e "payment_after_cancel_alert" r (key r)) l d0 in
  (forall r, r ∈ l -> exists b, b ∈ sd_outbox d1 /\ ob_dedupeKey b = key r) /\ (forall b, b ∈ sd_outbox d0 -> b ∈ sd_outbox d1) /\
  sd_payments d1 = sd_payments d0 /\ sd_orders d1 = sd_orders d0 /\ sd_audit d1 = sd_audit d0 /\ sd_other (X := X) d1 = sd_other d0.
Proof.
  intros Hk. revert d0. induction l as [|x xs IH]; intros d0; cbn; [split; [by intros r ?%elem_of_nil|done]|].
  set (e := enqueueEmail _ _ _ _). destruct (IH e) as (A & B & C).
  assert (H : (exists b, b ∈ sd_outbox e /\ ob_dedupeKey b = key x) /\ (forall b, b ∈ sd_outbox d0 -> b ∈ sd_outbox e) /\
    sd_payments e = sd_payments d0 /\ sd_orders e = sd_orders d0 /\ sd_audit e = sd_audit d0 /\ sd_other e = sd_other d0).
  { unfold e, enqueueEmail. destruct (existsb _ _) eqn:Ex; cbn.
    - split; [|done]. apply existsb_exists in Ex as (b & Hb & Hd). exists b. split; [by apply list_elem_of_In|by apply String.eqb_eq].
    - split; [eexists; split; [apply elem_of_app; right; by left|done]|]. split; [|done]. intros b Hb. apply elem_of_app. by left. }
  destruct H as ((b & Hb & Hd) & H2 & H3 & H4 & H5 & H6). destruct C as (C1 & C2 & C3 & C4).
  split; [|split; [auto|repeat split; congruence]]. intros r Hr. apply elem_of_cons in Hr as [->|Hr]; [exists b; auto|by apply A].
Qed.

(** A payment on an order past PendingPayment is a balance payment or lands too late. *)
Definition is_balance (o : Order) (due amount : Z) : bool :=
  (bool_decide (so_state o = Paid) || bool_decide (so_state o = PartiallyRefunded)) && (amount <=? due).

(** Money on an order that cannot become Paid is never silent. A new Settled
    payment on such an order leaves every order as it is and is recorded as
    charged; it is audited as a balance payment when the order is paid and still
    owes at least that much, and otherwise as [payment_after_cancel], with an
    alert queued for every operator. *)
Theorem late_payment_flagged now s opts o s' st ps : new_capture s opts o -> so_state o <> PendingPayment -> ao_editId opts = None ->
  applyPaymentResult gen_random_uuid now s opts = Ok (s', (st, ps)) ->
  let due := amountDueForOrder (money_tables (snd s)) (so_id o) (so_grandTotal o) in
  let balance := is_balance o due (charged opts o) in
  st = so_state o /\ ps = pay_Settled /\
  sd_payments (snd s') = sd_payments (snd s) ++ [captured_row s opts o] /\
  map order_facts (sd_orders (snd s')) = map order_facts (sd_orders (snd s)) /\
  (exists a, a ∈ sd_audit (snd s') /\ au_entityId a = so_id o /\ au_action a = (if balance then "balance_payment" else "payment_after_cancel")%string) /\
  (balance = false -> forall recipient, recipient ∈ operatorRecipients (sd_other (snd s')) -> exists b, b ∈ sd_outbox (snd s') /\
     ob_dedupeKey b = ("payment_after_cancel:" ++ so_id o ++ ":" ++ or_else (pr_providerRef (ao_result opts)) "none" ++ ":" ++ recipient)%string).
Proof.
  intros Hc Hst He H due balance. pose proof Hc as (_ & _ & _ & Hset & _). rewrite (apply_new_capture _ _ _ _ Hc) in H.
  unfold settle_captured in H. change (money_tables (snd (fst s, tick (snd s)))) with (money_tables (snd s)) in H. fold due in H.
  assert (Ht : canTransition (so_state o) Paid = false) by (by destruct (so_state o)). rewrite Ht, He in H. cbn [negb andb] in H.
  replace ((bool_decide (so_state o = Paid) || bool_decide (so_state o = PartiallyRefunded)) && (0 <=? due - charged opts o)) with balance in H.
  2:{ unfold balance, is_balance. f_equal. destruct (Z.leb_spec (charged opts o) due), (Z.leb_spec 0 (due - charged opts o)); lia. }
  destruct (recordSettlementOperation _ _ _ _) as [[s1 r1]|] eqn:E1; [|discriminate]. cbn [bind_result] in H.
  apply record_new_capture in E1 as (A & _ & _ & D1 & E); [|done]. rewrite E in H. rewrite andb_false_r in H. destruct balance eqn:Eb.
  - injection H as <- <- <-. cbn [fst snd]. repeat (split; [done|]). split; [|done].
    eexists. split; [apply elem_of_app; right; by left|done].
  - injection H as <- <- <-. cbn [fst snd]. unfold recordPaymentAfterCancel, enqueuePaymentAfterCancelAlert.
    set (d1 := with_audit _ _). set (d2 := fold_left _ _ d1).
    set (key := fun recipient : string =>
      ("payment_after_cancel:" ++ so_id o ++ ":" ++ or_else (pr_providerRef (ao_result opts)) "none" ++ ":" ++ recipient)%string).
    assert (Hk : forall x y, key x = key y -> x = y) by (intros x y K; unfold key in K; by repeat apply (inj (String.append _)) in K).
    pose proof (enqueued_alerts d1 (operatorRecipients (sd_other d1)) key Hk) as P. change (fold_left _ _ d1) with d2 in P.
    destruct P as (B & _ & C1 & C2 & C3 & C4).
    split; [done|]. split; [done|]. rewrite C1, C2, C3, C4. repeat (split; [done|]). split; [|intros _; exact B].
    eexists. split; [apply elem_of_app; right; by left|done].
Qed.
End Facts.

(** ** A concrete store *)

#[export] Instance settle_edits : EditActivation unit := {
  activatePreparedOrderEdit s _ _ _ := Ok (s, false); operatorRecipients _ := ["ops@example.test"%string]; toISOString _ := "1970-01-01"%string }.
#[export] Instance settle_edits_laws : EditActivationLaws (X := unit).
Proof. by split. Qed.

Definition settle_opts (orderId ref : string) (amount : Z) : ApplyOpts :=
  {| ao_storeId := "s1"; ao_orderId := orderId; ao_method := "nmi";
     ao_result := {| pr_state := pay_Settled; pr_providerRef := Some ref; pr_metadata := None; pr_errorMessage := None |};
     ao_amount := Some amount; ao_editId := None; ao_paymentAttemptId := None |}%string.
Definition apply_after (s : FxDb * SettleDb unit) (opts : ApplyOpts) : FxDb * SettleDb unit :=
  match applyPaymentResult sample_uuid 5 s opts with Ok (s', _) => s' | Err _ => s end.
Definition settle_settled : FxDb * SettleDb unit := apply_after settle_start (settle_opts "o1" "t1" 1500).
Definition settle_order1 : Order := settle_order "o1" PendingPayment None.
Definition settle_cancelled : FxDb * SettleDb unit :=
  (sample_db0, with_orders settle_db [settle_order "o3" Cancelled None]).

Lemma payment_settles_order_witness :
  exists s', applyPaymentResult sample_uuid 5 settle_start (settle_opts "o1" "t1" 1500) = Ok (s', (Paid, pay_Settled)) /\
    amountDueForOrder (money_tables (snd s')) "o1" 1500 = 0.
Proof.
  destruct (applyPaymentResult sample_uuid 5 settle_start (settle_opts "o1" "t1" 1500)) as [[s' [st ps]]|] eqn:H; [|vm_compute in H; discriminate].
  destruct (payment_settles_order sample_uuid 5 settle_start (settle_opts "o1" "t1" 1500) settle_order1 s' st ps) as (-> & -> & _ & _ & E);
    [vm_compute; auto 10|done|done|]. exists s'. split; [done|exact E].
Defined.

Lemma settled_reference_final_witness :
  exists p s', applyPaymentResult sample_uuid 9 settle_settled (settle_opts "o1" "t1" 1500) =
    Ok (s', (Paid, pay_Settled)) /\ p ∈ sd_payments (snd s') /\ py_state p = pay_Settled.
Proof.
  exists (captured_row sample_uuid settle_start (settle_opts "o1" "t1" 1500) settle_order1), (fst settle_settled, tick (snd settle_settled)).
  split; [|split; [|vm_compute; reflexivity]].
  - refine (proj2 (settled_reference_final sample_uuid 9 settle_settled (settle_opts "o1" "t1" 1500)
      (pay_order 5 5 settle_order1) (captured_row sample_uuid settle_start (settle_opts "o1" "t1" 1500) settle_order1) _ _ _ _) _ _ _ _ _);
      [..|intros Hc%contradicts_spec; revert Hc| | | |]; vm_compute; try reflexivity; discriminate.
  - apply list_elem_of_In. vm_compute. by left.
Defined.

Lemma late_payment_flagged_witness : exists s', applyPaymentResult sample_uuid 5 settle_cancelled (settle_opts "o3" "t3" 700) = Ok (s', (Cancelled, pay_Settled)) /\
  exists a, a ∈ sd_audit (snd s') /\ au_action a = "payment_after_cancel"%string.
Proof.
  destruct (applyPaymentResult sample_uuid 5 settle_cancelled (settle_opts "o3" "t3" 700)) as [[s' [st ps]]|] eqn:H; [|vm_compute in H; discriminate].
  destruct (late_payment_flagged sample_uuid 5 settle_cancelled (settle_opts "o3" "t3" 700) (settle_order "o3" Cancelled None) s' st ps)
    as (-> & -> & _ & _ & (a & Ha & _ & E) & _); [vm_compute; auto 10|done|done|done|]. exists s'. split; [done|]. by exists a.
Defined.
