(* ===== verification/Reservation.v ===== *)
(** Order reservations: [src/packages/api/src/payments/reservation.ts] with the
    projection dispatch of [payments/policy/{registry,transitions}.ts].

    The store is [Settlement.SettleDb] whose remaining tables are [ResTables Y]:
    the [order_reservation] rows, the payment attempts provider quiescence reads,
    and [Y] for the rest. [HeldLocks] is a static brand without content. Payment
    policies are registered at run time, so their projection hooks are a
    parameter, as is the credit release of account-credit/service.ts. [Err] is a
    throw that aborts the caller's transaction. *)

From S2P Require Import Prelude Json OrderState Tender Effects Settlement.
From Stdlib Require Import ZArith QArith Lia Bool String.
From stdpp Require Import base list strings pretty.
Local Open Scope Z_scope.

(** ** Rows *)

Inductive ReservationState := held | consumed | released.
#[export] Instance ReservationState_eq_dec : EqDecision ReservationState.
Proof. solve_decision. Defined.

Record Reservation := {
  rv_id : string; rv_orderId : string; rv_kind : string; rv_ownerKey : string; rv_state : ReservationState; rv_holder : json;
  rv_releaseOnFullRefund : bool; rv_createdAt : Z; rv_updatedAt : Z; rv_expiresAt : option Z;
  rv_releaseRequestedAt : option Z; rv_releaseReason : option string; rv_releasedAt : option Z; rv_releasedUnverified : bool;
  rv_consumedAt : option Z; rv_consumedPaymentId : option string; rv_consumedOperationId : option string; rv_providerTerminalAt : option Z
}.
Record ProviderAttempt := {
  va_id : string; va_orderId : string; va_paymentId : option string; va_operation : string; va_method : string; va_accountId : string;
  va_mode : string; va_amount : Z; va_currency : string; va_idempotencyKey : string; va_fingerprint : string; va_status : string;
  va_providerRef : option string; va_context : option json; va_result : option json; va_updatedAt : Z
}.
Record ResTables (Y : Type) := { rt_reservations : list Reservation; rt_attempts : list ProviderAttempt; rt_rest : Y }.
Arguments rt_reservations {Y}. Arguments rt_attempts {Y}. Arguments rt_rest {Y}. Arguments Build_ResTables {Y}.

Inductive Cause := cause_reserved | cause_consumed | cause_order_cancelled | cause_order_refunded | cause_order_purged | cause_operator_override.
Record ReservationTransition := {
  tr_reservation : Reservation; tr_from : option ReservationState; tr_to : ReservationState; tr_cause : Cause
}.

Inductive ConflictReason := live_owner | conflict_released | order_terminal.
Inductive ResError :=
  | ReservationConflict (reason : ConflictReason)
  | ReservationRuleError (rule : string)
  | ImportedFinancialReconciliationError
  | PaymentPolicyUnavailableError (policyId : string)
  | CreditFailed (message : string).

Definition PROVIDER_METHODS : list string := ["nmi"; "stripe"; "sezzle"]%string.
Definition TERMINAL_RELEASE_STATES : list OrderState := [Cancelled; Refunded].
Definition CONSUMABLE_STATES : list OrderState := [Paid; PartiallyRefunded].
Definition state_in (l : list OrderState) (s : OrderState) : bool := bool_decide (s ∈ l).

Definition is_state (st : ReservationState) (r : Reservation) : bool := bool_decide (rv_state r = st).
Definition live (r : Reservation) : bool := is_state held r || is_state consumed r.
Definition on_order (orderId : string) (r : Reservation) : bool := String.eqb (rv_orderId r) orderId.
Definition held_on (orderId : string) (r : Reservation) : bool := on_order orderId r && is_state held r.
Definition release_requested (r : Reservation) : bool := is_some (rv_releaseRequestedAt r).
Definition same_owner (kind ownerKey : string) (r : Reservation) : bool := String.eqb (rv_kind r) kind && String.eqb (rv_ownerKey r) ownerKey.

(** The column updates of the transitions. *)
Definition consume_row (now : Z) (paymentId : option string) (operationId : string) (r : Reservation) : Reservation :=
  {| rv_id := rv_id r; rv_orderId := rv_orderId r; rv_kind := rv_kind r; rv_ownerKey := rv_ownerKey r; rv_state := consumed;
     rv_holder := rv_holder r; rv_releaseOnFullRefund := rv_releaseOnFullRefund r; rv_createdAt := rv_createdAt r; rv_updatedAt := now;
     rv_expiresAt := rv_expiresAt r; rv_releaseRequestedAt := rv_releaseRequestedAt r; rv_releaseReason := rv_releaseReason r;
     rv_releasedAt := rv_releasedAt r; rv_releasedUnverified := rv_releasedUnverified r; rv_consumedAt := Some now;
     rv_consumedPaymentId := paymentId; rv_consumedOperationId := Some operationId; rv_providerTerminalAt := Some now |}.
Definition request_row (now : Z) (reason : string) (r : Reservation) : Reservation :=
  {| rv_id := rv_id r; rv_orderId := rv_orderId r; rv_kind := rv_kind r; rv_ownerKey := rv_ownerKey r; rv_state := rv_state r;
     rv_holder := rv_holder r; rv_releaseOnFullRefund := rv_releaseOnFullRefund r; rv_createdAt := rv_createdAt r; rv_updatedAt := now;
     rv_expiresAt := rv_expiresAt r; rv_releaseRequestedAt := Some (or_else (rv_releaseRequestedAt r) now);
     rv_releaseReason := Some (or_else (rv_releaseReason r) reason); rv_releasedAt := rv_releasedAt r; rv_releasedUnverified := rv_releasedUnverified r;
     rv_consumedAt := rv_consumedAt r; rv_consumedPaymentId := rv_consumedPaymentId r; rv_consumedOperationId := rv_consumedOperationId r;
     rv_providerTerminalAt := rv_providerTerminalAt r |}.
Definition release_with (now : Z) (terminal : option Z) (unverified : bool) (reason : option string) (r : Reservation) : Reservation :=
  {| rv_id := rv_id r; rv_orderId := rv_orderId r; rv_kind := rv_kind r; rv_ownerKey := rv_ownerKey r; rv_state := released;
     rv_holder := rv_holder r; rv_releaseOnFullRefund := rv_releaseOnFullRefund r; rv_createdAt := rv_createdAt r; rv_updatedAt := now;
     rv_expiresAt := rv_expiresAt r; rv_releaseRequestedAt := rv_releaseRequestedAt r; rv_releaseReason := reason;
     rv_releasedAt := Some now; rv_releasedUnverified := unverified; rv_consumedAt := rv_consumedAt r;
     rv_consumedPaymentId := rv_consumedPaymentId r; rv_consumedOperationId := rv_consumedOperationId r; rv_providerTerminalAt := terminal |}.

Section Reservations.
Context {Y : Type}.
Definition ResDb : Type := SettleDb (ResTables Y).
Implicit Types (d : ResDb).

(** A registered policy; [None] for a policy without the hook. *)
Record PaymentPolicy := { pp_id : string; pp_onReservationTransition : option (ResDb -> ReservationTransition -> result string ResDb) }.
Context (gen_random_uuid : nat -> string) (registeredPaymentPolicies : list PaymentPolicy).
Context (releaseAccountCredit : ResDb -> string -> result string ResDb).

Definition reservations d : list Reservation := rt_reservations (sd_other d).
Definition with_other d (x : ResTables Y) : ResDb :=
  {| sd_store := sd_store d; sd_orders := sd_orders d; sd_payments := sd_payments d; sd_ops := sd_ops d; sd_invoices := sd_invoices d;
     sd_refunds := sd_refunds d; sd_edits := sd_edits d; sd_audit := sd_audit d; sd_outbox := sd_outbox d; sd_fresh := sd_fresh d; sd_other := x |}.
Definition with_reservations d (l : list Reservation) : ResDb :=
  with_other d {| rt_reservations := l; rt_attempts := rt_attempts (sd_other d); rt_rest := rt_rest (sd_other d) |}.

(** [UPDATE order_reservation ... WHERE p RETURNING *]. *)
Definition update_reservations d (p : Reservation -> bool) (f : Reservation -> Reservation) : ResDb * list Reservation :=
  (with_reservations d (set_where p f (reservations d)), map f (List.filter p (reservations d))).

Definition orderState d (orderId : string) : result ResError OrderState :=
  match order_row d orderId with Some o => Ok (so_state o) | None => Err (ReservationRuleError "order not found") end.
Definition financiallyQuarantined d (orderId : string) : bool := quarantined_order d orderId.
Definition assertFinancialEffectsAllowed d (orderId : string) : result ResError unit :=
  guard! negb (financiallyQuarantined d orderId) or ImportedFinancialReconciliationError in Ok tt.

(** ** Provider quiescence *)

Definition attempt_open (a : ProviderAttempt) : bool :=
  negb (String.eqb (va_operation a) "refund") && negb (one_of ["settled"; "cancelled"]%string (va_status a)) &&
  negb (String.eqb (va_status a) "failed" &&
        (String.eqb (va_method a) "nmi" ||
         String.eqb (va_method a) "sezzle" && or_else (bool_field "authorization_released" (opt_field "recovery" (va_context a))) false)).
Definition attempts_of d (orderId : string) : list ProviderAttempt :=
  List.filter (fun a => String.eqb (va_orderId a) orderId) (rt_attempts (sd_other d)).
(** Stripe may hold an intent the store has not looked for yet. *)
Definition stripe_unchecked d (orderId : string) : bool :=
  match order_row d orderId with
  | None => false
  | Some o =>
      let discovery := opt_field "stripeDiscovery" (so_metadata o) in
      or_else (bool_field "hold" discovery) false ||
      (negb (existsb (fun a => String.eqb (va_operation a) "intent") (attempts_of d orderId)) && nullish (opt_field "checkedAt" discovery))
  end.
Definition providerQuiescent d (orderId : string) (stripeDiscoverable : bool) : bool :=
  negb (existsb attempt_open (attempts_of d orderId)) &&
  negb (existsb (fun p => String.eqb (py_orderId p) orderId && (bool_decide (py_state p = pay_Pending) || bool_decide (py_state p = pay_Authorized)))
          (sd_payments d)) &&
  negb (stripeDiscoverable && stripe_unchecked d orderId).

(** ** Projections *)

(** Each hook runs in a savepoint of its own: a failure keeps what earlier hooks
    wrote and names the policy. *)
Fixpoint run_hooks d (policies : list PaymentPolicy) (t : ReservationTransition) : ResDb * option string :=
  match policies with
  | [] => (d, None)
  | p :: rest =>
      match pp_onReservationTransition p with
      | None => run_hooks d rest t
      | Some hook => match hook d t with Ok d' => run_hooks d' rest t | Err _ => (d, Some (pp_id p)) end
      end
  end.
Definition dispatchReservationTransition d (t : ReservationTransition) : ResDb * option string := run_hooks d registeredPaymentPolicies t.
Fixpoint dispatchReservationTransitions d (rows : list Reservation) (from : option ReservationState) (to : ReservationState) (cause : Cause) :
    ResDb * option string :=
  match rows with
  | [] => (d, None)
  | r :: rest =>
      match dispatchReservationTransition d {| tr_reservation := r; tr_from := from; tr_to := to; tr_cause := cause |} with
      | (d', None) => dispatchReservationTransitions d' rest from to cause
      | failed => failed
      end
  end.
(** The usual caller lets a failed projection abort its transaction. *)
Definition dispatched d (rows : list Reservation) (from : option ReservationState) (to : ReservationState) (cause : Cause) : result ResError ResDb :=
  match dispatchReservationTransitions d rows from to cause with
  | (d', None) => Ok d'
  | (_, Some policyId) => Err (PaymentPolicyUnavailableError policyId)
  end.

(** ** R1 *)

Record ReserveInput := {
  ri_orderId : string; ri_kind : string; ri_ownerKey : string; ri_holder : option json; ri_releaseOnFullRefund : option bool; ri_expiresAt : option Z
}.
Definition new_reservation (now : Z) (id : string) (i : ReserveInput) : Reservation :=
  {| rv_id := id; rv_orderId := ri_orderId i; rv_kind := ri_kind i; rv_ownerKey := ri_ownerKey i; rv_state := held;
     rv_holder := or_else (ri_holder i) (JObj []); rv_releaseOnFullRefund := or_else (ri_releaseOnFullRefund i) false; rv_createdAt := now;
     rv_updatedAt := now; rv_expiresAt := ri_expiresAt i; rv_releaseRequestedAt := None; rv_releaseReason := None; rv_releasedAt := None;
     rv_releasedUnverified := false; rv_consumedAt := None; rv_consumedPaymentId := None; rv_consumedOperationId := None; rv_providerTerminalAt := None |}.
Definition reserve (now : Z) d (i : ReserveInput) : result ResError (ResDb * Reservation) :=
  let! _ := assertFinancialEffectsAllowed d (ri_orderId i) in
  let! state := orderState d (ri_orderId i) in
  guard! negb (state_in TERMINAL_RELEASE_STATES state) or ReservationConflict order_terminal in
  guard! negb (is_some (ri_expiresAt i) && existsb (fun a => one_of PROVIDER_METHODS (va_method a)) (attempts_of d (ri_orderId i)))
    or ReservationRuleError "expires_at must be NULL: provider-bound holds have no fixed expiry" in
  match List.find (fun r => on_order (ri_orderId i) r && same_owner (ri_kind i) (ri_ownerKey i) r) (reservations d) with
  | Some existing => guard! negb (is_state released existing) or ReservationConflict conflict_released in Ok (d, existing)
  | None =>
      guard! negb (existsb (fun r => same_owner (ri_kind i) (ri_ownerKey i) r && live r) (reservations d)) or ReservationConflict live_owner in
      let row := new_reservation now (gen_random_uuid (sd_fresh d)) i in
      let! d' := dispatched (with_reservations (tick d) (reservations d ++ [row])) [row] None held cause_reserved in
      Ok (d', row)
  end.

(** ** R2 *)

Definition projection_audit (orderId : string) (action : string) (data : list (string * json)) : AuditRow :=
  {| au_actor := "system:policy"; au_entity := "order"; au_entityId := orderId; au_action := action; au_fromState := None; au_toState := None;
     au_data := JObj data |}%string.
Definition ids_json (rows : list Reservation) : json := JArr (map (fun r => JStr (rv_id r)) rows).
Definition consumeCore (now : Z) d (orderId : string) (paymentId : option string) (operationId : string) (isolateProjection : bool) :
    result ResError (ResDb * list Reservation) :=
  if financiallyQuarantined d orderId then Ok (d, [])
  else
    let! state := orderState d orderId in
    guard! state_in CONSUMABLE_STATES state or ReservationRuleError "I3: consume implies Paid" in
    let '(d1, rows) := update_reservations d (held_on orderId) (consume_row now paymentId operationId) in
    match dispatchReservationTransitions d1 rows (Some held) consumed cause_consumed with
    | (d2, None) => Ok (d2, rows)
    | (d2, Some policyId) =>
        if isolateProjection then
          Ok (with_audit d2 (sd_audit d2 ++ [projection_audit orderId "reservation_projection_failed"
                [("cause", JStr "consumed"); ("operationId", JStr operationId); ("reservationIds", ids_json rows)]%string]), rows)
        else Err (PaymentPolicyUnavailableError policyId)
    end.
Definition consume (now : Z) d (orderId paymentId operationId : string) : result ResError (ResDb * list Reservation) :=
  consumeCore now d orderId (Some paymentId) operationId false.
Definition consumeForSettlement (now : Z) d (orderId : string) (paymentId : option string) (operationId : string) : result ResError (ResDb * list Reservation) :=
  if negb (existsb (held_on orderId) (reservations d)) then Ok (d, [])
  else match order_row d orderId with
       | Some o => if state_in CONSUMABLE_STATES (so_state o) then consumeCore now d orderId paymentId operationId true else Ok (d, [])
       | None => Ok (d, [])
       end.

(** ** R3, R4 *)

Definition requestRelease (now : Z) d (orderId reason : string) : result ResError (ResDb * list Reservation) :=
  let! _ := assertFinancialEffectsAllowed d orderId in
  Ok (update_reservations d (held_on orderId) (request_row now reason)).

Definition release_row (now : Z) (r : Reservation) : Reservation := release_with now (Some now) (rv_releasedUnverified r) (rv_releaseReason r) r.
Definition settleReleaseCore (now : Z) d (orderId : string) (stripeDiscoverable : bool) : result ResError (ResDb * list Reservation) :=
  if financiallyQuarantined d orderId then Ok (d, [])
  else
    let! state := orderState d orderId in
    if negb (state_in TERMINAL_RELEASE_STATES state) then Ok (d, [])
    else
      let! d1 := if bool_decide (state = Cancelled) && providerQuiescent d orderId stripeDiscoverable
                 then match releaseAccountCredit d orderId with Ok d' => Ok d' | Err m => Err (CreditFailed m) end else Ok d in
      let pending := fun r => held_on orderId r && release_requested r in
      if negb (existsb pending (reservations d1)) then Ok (d1, [])
      else if negb (providerQuiescent d1 orderId stripeDiscoverable) then Ok (d1, [])
      else
        let '(d2, rows) := update_reservations d1 pending (release_row now) in
        let! d3 := dispatched d2 rows (Some held) released (if bool_decide (state = Refunded) then cause_order_refunded else cause_order_cancelled) in
        Ok (d3, rows).
Definition settleRelease (now : Z) d (orderId : string) (stripeDiscoverable : bool) := settleReleaseCore now d orderId stripeDiscoverable.
Definition release (now : Z) d (orderId reason : string) (stripeDiscoverable : bool) : result ResError (ResDb * list Reservation * list Reservation) :=
  let! q := requestRelease now d orderId reason in
  let! r := settleRelease now (fst q) orderId stripeDiscoverable in
  Ok (fst r, snd r, List.filter (held_on orderId) (reservations (fst r))).
Definition hasPendingRelease d (orderId : string) : bool := existsb (fun r => held_on orderId r && release_requested r) (reservations d).
(** [creditHold]: the order has a pending credit reservation. *)
Definition releaseOnProviderTerminal (now : Z) d (orderId : string) (creditHold : bool) : result ResError (ResDb * list Reservation) :=
  if negb (hasPendingRelease d orderId) && negb creditHold then Ok (d, []) else settleReleaseCore now d orderId true.

(** ** R5 *)

Definition refund_releases (orderId : string) (r : Reservation) : bool := on_order orderId r && is_state consumed r && rv_releaseOnFullRefund r.
Definition refund_release_row (now : Z) (r : Reservation) : Reservation :=
  release_with now (rv_providerTerminalAt r) (rv_releasedUnverified r) (rv_releaseReason r) r.
Definition releaseOnFullRefund (now : Z) d (orderId : string) : result ResError (ResDb * list Reservation) :=
  if financiallyQuarantined d orderId then Ok (d, [])
  else
    let! state := orderState d orderId in
    if negb (bool_decide (state = Refunded)) then Ok (d, [])
    else
      let '(d1, rows) := update_reservations d (refund_releases orderId) (refund_release_row now) in
      let! d2 := dispatched d1 rows (Some consumed) released cause_order_refunded in
      Ok (d2, rows).
(** The refund's money has moved: a failed projection defers the release to the sweep. *)
Definition releaseOnFullRefundOrDefer (now : Z) d (orderId : string) (refundId : option string) : result ResError (ResDb * list Reservation * bool) :=
  match releaseOnFullRefund now d orderId with
  | Ok (d', rows) => Ok (d', rows, false)
  | Err (PaymentPolicyUnavailableError _) =>
      let '(d1, deferred) := update_reservations d (refund_releases orderId) (request_row now "order_refunded") in
      let audits := [projection_audit orderId "reservation_projection_failed"
            [("cause", JStr "order_refunded"); ("refundId", match refundId with Some i => JStr i | None => JNull end); ("reservationIds", ids_json deferred)];
          projection_audit orderId "policy_admin_task" [("title", JStr "Reservation release pending after refund");
            ("detail", JStr ("release of " ++ pretty (N.of_nat (length deferred)) ++
               " reservation(s) deferred after a refund: projection unavailable; the sweep retries"));
            ("code", JStr "reservation_projection_failed")]]%string in
      Ok (if is_nil deferred then d1 else with_audit d1 (sd_audit d1 ++ audits), [], true)
  | Err e => Err e
  end.

(** ** R6 and purge *)

Definition overrideRelease (now : Z) d (orderId reason : string) : result ResError (ResDb * list Reservation) :=
  let! _ := assertFinancialEffectsAllowed d orderId in
  guard! negb (String.length (trim reason) <? 10)%nat or ReservationRuleError "override reason must be at least 10 characters" in
  let! state := orderState d orderId in
  guard! bool_decide (state = Cancelled) or ReservationRuleError "operator override requires a Cancelled order" in
  let '(d1, rows) := update_reservations d (held_on orderId)
    (release_with now (Some now) true (Some ("operator_override: " ++ trim reason)%string)) in
  let! d2 := dispatched d1 rows (Some held) released cause_operator_override in
  Ok (d2, rows).

Definition purgeBlockedByReservations d (orderId : string) (stripeDiscoverable : bool) : bool :=
  existsb (held_on orderId) (reservations d) && negb (providerQuiescent d orderId stripeDiscoverable).
Definition purged_row (r : Reservation) : Reservation :=
  {| rv_id := rv_id r; rv_orderId := rv_orderId r; rv_kind := rv_kind r; rv_ownerKey := rv_ownerKey r; rv_state := released;
     rv_holder := rv_holder r; rv_releaseOnFullRefund := rv_releaseOnFullRefund r; rv_createdAt := rv_createdAt r; rv_updatedAt := rv_updatedAt r;
     rv_expiresAt := rv_expiresAt r; rv_releaseRequestedAt := rv_releaseRequestedAt r; rv_releaseReason := rv_releaseReason r;
     rv_releasedAt := rv_releasedAt r; rv_releasedUnverified := rv_releasedUnverified r; rv_consumedAt := rv_consumedAt r;
     rv_consumedPaymentId := rv_consumedPaymentId r; rv_consumedOperationId := rv_consumedOperationId r; rv_providerTerminalAt := rv_providerTerminalAt r |}.
Definition purgeReservations (d0 : ResDb) (orderId : string) : result ResError (ResDb * list Reservation) :=
  let! _ := assertFinancialEffectsAllowed d0 orderId in
  let rows := List.filter (on_order orderId) (reservations d0) in
  let! d1 := fold_result (fun d r => dispatched d [purged_row r] (Some (rv_state r)) released cause_order_purged) d0 rows in
  Ok (if is_nil rows then d1 else with_reservations d1 (List.filter (fun r => negb (on_order orderId r)) (reservations d1)), rows).

Definition findOpen d (orderId kind ownerKey : option string) : list Reservation :=
  List.filter (fun r => live r && (negb (nonempty orderId) || bool_decide (Some (rv_orderId r) = orderId)) &&
                        (negb (nonempty kind) || bool_decide (Some (rv_kind r) = kind)) &&
                        (negb (nonempty ownerKey) || bool_decide (Some (rv_ownerKey r) = ownerKey))) (reservations d).
End Reservations.
