(* ===== verification/ReservationFacts.v ===== *)
(** What the reservation life cycle guarantees ([Reservation.v]), and how it
    discharges the part of the settlement interface that concerns it. *)

From S2P Require Import Prelude Json OrderState Tender Effects Settlement SettlementFacts Reservation.
From Stdlib Require Import ZArith QArith Lia Bool String.
From stdpp Require Import base list strings sets.
Local Open Scope Z_scope.

(** What every projection hook keeps, a dispatch keeps. *)
Section Dispatch.
Context {Y : Type} (policies : list (PaymentPolicy (Y := Y))) (R : ResDb (Y := Y) -> ResDb (Y := Y) -> Prop) `{!PreOrder R}.
Context (hooks_keep : forall p hook d t d', p ∈ policies -> pp_onReservationTransition p = Some hook -> hook d t = Ok d' -> R d d').
Lemma run_hooks_rel ps d t : (forall p, p ∈ ps -> p ∈ policies) -> R d (fst (run_hooks d ps t)).
Proof.
  revert d. induction ps as [|p ps IH]; intros d H; cbn; [done|].
  destruct (pp_onReservationTransition p) as [hook|] eqn:Eh; [|apply IH; intros; apply H; by right].
  destruct (hook d t) as [d'|] eqn:E; [|done]. etrans; [|apply IH; intros; apply H; by right].
  eapply hooks_keep; [apply H; by left|done|done].
Qed.
Lemma dispatch_rel d rows from to cause : R d (fst (dispatchReservationTransitions policies d rows from to cause)).
Proof.
  revert d. induction rows as [|r rest IH]; intros d; cbn; [done|].
  unfold dispatchReservationTransition. set (t := Build_ReservationTransition _ _ _ _).
  pose proof (run_hooks_rel policies d t (fun p H => H)) as F. destruct (run_hooks _ _ _) as [d' [e|]]; cbn in *; [done|].
  etrans; [exact F|apply IH].
Qed.
Lemma dispatched_rel d rows from to cause d' : dispatched policies d rows from to cause = Ok d' -> R d d'.
Proof.
  unfold dispatched. pose proof (dispatch_rel d rows from to cause) as F. destruct (dispatchReservationTransitions _ _ _ _ _ _) as [d1 [e|]]; [discriminate|]. by intros [= <-].
Qed.
End Dispatch.

Section Facts.
Context {Y : Type}.
Abbreviation DB := (ResDb (Y := Y)).
Implicit Types (d : DB).

(** Projections and credit releases write neither reservations, attempts nor any money table. *)
Record res_frame (d d' : DB) : Prop := {
  rf_money : money_frame d d';
  rf_orders : sd_orders d' = sd_orders d;
  rf_reservations : reservations d' = reservations d;
  rf_attempts : rt_attempts (sd_other d') = rt_attempts (sd_other d)
}.
#[export] Instance res_frame_preorder : PreOrder res_frame.
Proof.
  split; [by constructor|]. intros d1 d2 d3 [A1 B1 C1 D1] [A2 B2 C2 D2]. constructor; [by etrans|congruence..].
Qed.

Context (gen_random_uuid : nat -> string) `{Hinj : !Inj (=) (=) gen_random_uuid}.
Context (registeredPaymentPolicies : list (PaymentPolicy (Y := Y))) (releaseAccountCredit : DB -> string -> result string DB).
Context (policy_frame : forall p hook d t d', p ∈ registeredPaymentPolicies -> pp_onReservationTransition p = Some hook -> hook d t = Ok d' -> res_frame d d').
Context (credit_release_frame : forall d orderId d', releaseAccountCredit d orderId = Ok d' -> res_frame d d').

Abbreviation dispatch := (dispatchReservationTransitions registeredPaymentPolicies).
Abbreviation dispatched_ := (dispatched registeredPaymentPolicies).

Lemma dispatch_frame d rows from to cause : res_frame d (fst (dispatch d rows from to cause)).
Proof. apply (dispatch_rel registeredPaymentPolicies res_frame). apply policy_frame. Qed.
Lemma dispatched_frame d rows from to cause d' : dispatched_ d rows from to cause = Ok d' -> res_frame d d'.
Proof.
  unfold dispatched. pose proof (dispatch_frame d rows from to cause) as F. destruct (dispatch _ _ _ _ _) as [d1 [e|]]; [discriminate|]. by intros [= <-].
Qed.

(** ** The invariant *)

Definition res_identity (r : Reservation) : string * string * string * string := (rv_id r, rv_orderId r, rv_kind r, rv_ownerKey r).
(** [order_reservation_shape_check] *)
Definition shape (r : Reservation) : bool :=
  match rv_state r with
  | held => negb (is_some (rv_consumedAt r)) && negb (is_some (rv_releasedAt r)) && negb (is_some (rv_providerTerminalAt r))
  | consumed => is_some (rv_consumedAt r) && is_some (rv_providerTerminalAt r) && negb (is_some (rv_releasedAt r))
  | released => is_some (rv_releasedAt r) && is_some (rv_providerTerminalAt r)
  end.
Record res_ok (d : DB) : Prop := {
  ro_ids : NoDup (map rv_id (reservations d));
  ro_uuid : Forall (fun i => exists k, (k < sd_fresh d)%nat /\ i = gen_random_uuid k) (map rv_id (reservations d));
  ro_live : forall r1 r2, r1 ∈ reservations d -> r2 ∈ reservations d -> live r1 = true -> live r2 = true ->
    rv_kind r1 = rv_kind r2 -> rv_ownerKey r1 = rv_ownerKey r2 -> rv_id r1 = rv_id r2;
  ro_order : forall r1 r2, r1 ∈ reservations d -> r2 ∈ reservations d -> rv_orderId r1 = rv_orderId r2 ->
    rv_kind r1 = rv_kind r2 -> rv_ownerKey r1 = rv_ownerKey r2 -> rv_id r1 = rv_id r2;
  ro_shape : Forall (fun r => shape r = true) (reservations d)
}.

Lemma frame_res_ok d d' : res_frame d d' -> res_ok d -> res_ok d'.
Proof.
  intros [M _ R _] [A B C D1 E]. constructor; rewrite ?R; try done. eapply Forall_impl; [exact B|].
  intros i (k & Hk & ->). exists k. destruct M. split; [lia|done].
Qed.
(** Orders, payments and the like may change around the reservations. *)
Lemma other_res_ok d d' : reservations d' = reservations d -> (sd_fresh d <= sd_fresh d')%nat -> res_ok d -> res_ok d'.
Proof.
  intros R Hf [A B C D1 E]. constructor; rewrite ?R; try done. eapply Forall_impl; [exact B|].
  intros i (k & Hk & ->). exists k. split; [lia|done].
Qed.

Lemma update_res_ok d p f : res_ok d -> (forall r, res_identity (f r) = res_identity r) ->
  (forall r, p r = true -> shape r = true -> shape (f r) = true) -> (forall r, p r = true -> live (f r) = true -> live r = true) ->
  res_ok (fst (update_reservations d p f)).
Proof.
  intros [A B C D1 E] Hi Hs Hl.
  assert (G : forall r', r' ∈ set_where p f (reservations d) -> exists r, r ∈ reservations d /\ res_identity r' = res_identity r /\
    (live r' = true -> live r = true) /\ (shape r = true -> shape r' = true)).
  { intros r' Hr. apply elem_set_where in Hr as (r & Hr & ->). exists r. split; [done|]. destruct (p r) eqn:Ep; auto. }
  assert (Hid : map rv_id (set_where p f (reservations d)) = map rv_id (reservations d)).
  { apply map_set_where. intros r _ _. specialize (Hi r). by injection Hi. }
  constructor; cbn; change (reservations (fst (update_reservations d p f))) with (set_where p f (reservations d)); rewrite ?Hid; try done.
  - intros r1' r2' H1 H2 L1 L2 K O. destruct (G _ H1) as (r1 & I1 & E1 & X1 & _). destruct (G _ H2) as (r2 & I2 & E2 & X2 & _).
    unfold res_identity in *. injection E1 as -> _ E1b E1c. injection E2 as -> _ E2b E2c. apply (C r1 r2); auto; congruence.
  - intros r1' r2' H1 H2 Ho K O. destruct (G _ H1) as (r1 & I1 & E1 & _). destruct (G _ H2) as (r2 & I2 & E2 & _).
    unfold res_identity in *. injection E1 as -> E1a E1b E1c. injection E2 as -> E2a E2b E2c. apply (D1 r1 r2); auto; congruence.
  - apply Forall_forall. intros r' Hr. destruct (G _ Hr) as (r & Ir & _ & _ & Sr). rewrite Forall_forall in E. auto.
Qed.

(** ** Lawful moves *)

(** How one operation, run in state [d], may move a row. *)
Definition lawful (d : DB) (r r' : Reservation) : Prop :=
  res_identity r' = res_identity r /\
  (rv_state r' = rv_state r \/
   exists o, order_row d (rv_orderId r) = Some o /\ importedFinancialReconciliationRequired (so_metadata o) = false /\
     ((rv_state r = held /\ rv_state r' = consumed /\ so_state o ∈ CONSUMABLE_STATES) \/
      (rv_state r = held /\ rv_state r' = released /\ so_state o ∈ TERMINAL_RELEASE_STATES /\ release_requested r = true /\
         exists stripeDiscoverable, providerQuiescent d (rv_orderId r) stripeDiscoverable = true) \/
      (rv_state r = held /\ rv_state r' = released /\ so_state o = Cancelled /\ rv_releasedUnverified r' = true) \/
      (rv_state r = consumed /\ rv_state r' = released /\ so_state o = Refunded /\ rv_releaseOnFullRefund r = true))).
(** Every row of after is a lawful successor of a row of before, or a new hold. *)
Definition moves (d d' : DB) : Prop := forall r', r' ∈ reservations d' ->
  (exists r, r ∈ reservations d /\ lawful d r r') \/ (rv_state r' = held /\ rv_id r' ∉ map rv_id (reservations d)).
(** The step keeps the invariant and moves rows lawfully. *)
Definition sound (d d' : DB) : Prop := res_ok d -> res_ok d' /\ moves d d'.

Lemma lawful_same d r : lawful d r r.
Proof. split; [done|by left]. Qed.
Lemma moves_same d d' : reservations d' = reservations d -> moves d d'.
Proof. intros E r Hr. rewrite E in Hr. left. exists r. split; [done|apply lawful_same]. Qed.
Lemma sound_frame d d' : res_frame d d' -> sound d d'.
Proof. intros F H. split; [by eapply frame_res_ok|by apply moves_same; destruct F]. Qed.
Lemma sound_refl d : sound d d.
Proof. by apply sound_frame. Qed.
Lemma moves_rows d d1 d2 : reservations d2 = reservations d1 -> moves d d1 -> moves d d2.
Proof. intros E M r. rewrite E. apply M. Qed.
Lemma sound_then d d1 d2 : sound d d1 -> res_frame d1 d2 -> sound d d2.
Proof. intros S F H. destruct (S H) as [O M]. split; [by eapply frame_res_ok|]. eapply moves_rows; [|exact M]. by destruct F. Qed.

Lemma update_sound d p f : (forall r, res_identity (f r) = res_identity r) -> (forall r, p r = true -> shape r = true -> shape (f r) = true) ->
  (forall r, p r = true -> live (f r) = true -> live r = true) -> (forall r, p r = true -> lawful d r (f r)) ->
  sound d (fst (update_reservations d p f)).
Proof.
  intros Hi Hs Hl Hm H. split; [by apply update_res_ok|]. intros r' Hr. apply elem_set_where in Hr as (r & Hr & ->). left. exists r.
  split; [done|]. destruct (p r) eqn:Ep; [by apply Hm|apply lawful_same].
Qed.

(** ** The operations *)

Lemma not_quarantined d orderId o : financiallyQuarantined d orderId = false -> order_row d orderId = Some o ->
  importedFinancialReconciliationRequired (so_metadata o) = false.
Proof. unfold financiallyQuarantined, quarantined_order. intros H E. by rewrite E in H. Qed.
Lemma held_on_spec orderId r : held_on orderId r = true -> rv_orderId r = orderId /\ rv_state r = held.
Proof. unfold held_on, on_order, is_state. intros H. bool_props. split; [by apply String.eqb_eq|by eapply bool_decide_eq_true_1]. Qed.
Lemma held_live r : rv_state r = held -> live r = true.
Proof. unfold live, is_state. by intros ->. Qed.
Lemma state_in_spec l s : state_in l s = true -> s ∈ l.
Proof. by intros H%bool_decide_eq_true_1. Qed.

(** A consumption of held rows in an order that allows it. *)
Lemma consume_update_sound now d orderId o pid oid : financiallyQuarantined d orderId = false -> order_row d orderId = Some o ->
  so_state o ∈ CONSUMABLE_STATES -> sound d (fst (update_reservations d (held_on orderId) (consume_row now pid oid))).
Proof.
  intros Hq Ho Hs. apply update_sound; [done| | |].
  - intros r Hr Hsh. apply held_on_spec in Hr as [_ Hr]. unfold shape in *. rewrite Hr in Hsh. cbn. by destruct (rv_consumedAt r), (rv_releasedAt r).
  - intros r Hr _. apply held_on_spec in Hr as [_ Hr]. by apply held_live.
  - intros r Hr. apply held_on_spec in Hr as [Eo Hr]. split; [done|]. right. exists o. rewrite Eo. split; [done|].
    split; [by eapply not_quarantined|]. by left.
Qed.
Lemma consumeCore_sound now d orderId pid oid iso d' rows : consumeCore registeredPaymentPolicies now d orderId pid oid iso = Ok (d', rows) -> sound d d'.
Proof.
  unfold consumeCore. intros H. destruct (financiallyQuarantined d orderId) eqn:Eq; [injection H as <- _; apply sound_refl|].
  unfold orderState in H. destruct (order_row d orderId) as [o|] eqn:Eo; [|discriminate]. cbn [bind_result] in H.
  destruct (state_in _ _) eqn:Es; [|discriminate]. apply state_in_spec in Es.
  pose proof (consume_update_sound now d orderId o pid oid Eq Eo Es) as S. destruct (update_reservations _ _ _) as [d1 rs]. cbn [fst] in S.
  pose proof (dispatch_frame d1 rs (Some held) consumed cause_consumed) as F. destruct (dispatch _ _ _ _ _) as [d2 [e|]]; cbn [fst] in F.
  - destruct iso; [|discriminate]. injection H as <- _. apply (sound_then d d1); [done|]. etrans; [exact F|]. by constructor.
  - injection H as <- _. by apply (sound_then d d1).
Qed.

Lemma requestRelease_sound now d orderId reason d' rows : requestRelease now d orderId reason = Ok (d', rows) -> sound d d'.
Proof.
  unfold requestRelease. intros H. inv_ok.
  change (with_reservations d (set_where ?p ?f (reservations d))) with (fst (update_reservations d p f)).
  apply update_sound; done || by intros r _; split; [|left].
Qed.

Lemma settleReleaseCore_sound now d orderId sd d' rows :
  settleReleaseCore registeredPaymentPolicies releaseAccountCredit now d orderId sd = Ok (d', rows) -> sound d d'.
Proof.
  unfold settleReleaseCore. intros H. destruct (financiallyQuarantined d orderId) eqn:Eq; [injection H as <- _; apply sound_refl|].
  unfold orderState in H. destruct (order_row d orderId) as [o|] eqn:Eo; [|discriminate]. cbn [bind_result] in H.
  destruct (state_in _ _) eqn:Es; cbn [negb] in H; [|injection H as <- _; apply sound_refl]. apply state_in_spec in Es.
  set (m := if _ && _ then _ else _) in H. assert (F : forall d1, m = Ok d1 -> res_frame d d1).
  { intros d1 Hm. unfold m in Hm. destruct (_ && _); [|by injection Hm as <-].
    destruct (releaseAccountCredit d orderId) eqn:Ec; [|discriminate]. injection Hm as <-. by eapply credit_release_frame. }
  destruct m as [d1|]; [|discriminate]. specialize (F d1 eq_refl). cbn [bind_result] in H.
  set (pending := fun r => _ && _) in H. destruct (existsb pending _); cbn [negb] in H; [|injection H as <- _; by apply sound_frame].
  destruct (providerQuiescent d1 orderId sd) eqn:Ep; cbn [negb] in H; [|injection H as <- _; by apply sound_frame].
  assert (S : sound d (fst (update_reservations d1 pending (release_row now)))).
  { destruct F as [M Ho R A]. intros Hok.
    assert (Hok1 : res_ok d1) by (apply (frame_res_ok d); [by constructor|done]).
    destruct (update_sound d1 pending (release_row now)) as [O1 M1]; [done|done| | |done|].
    - intros r Hr _. unfold pending in Hr. bool_props. match goal with H1 : held_on _ _ = true |- _ => apply held_on_spec in H1 as [_ H1] end. by apply held_live.
    - intros r Hr. unfold pending in Hr. bool_props. match goal with H1 : held_on _ _ = true |- _ => apply held_on_spec in H1 as [E1 H1] end.
      split; [done|]. right. exists o. rewrite E1. assert (Eo1 : order_row d1 orderId = Some o) by (unfold order_row in *; by rewrite Ho).
      split; [done|]. split; [by eapply not_quarantined|]. right; left. repeat (split; [done|]). by exists sd.
    - split; [done|]. assert (Q : providerQuiescent d orderId sd = providerQuiescent d1 orderId sd).
      { unfold providerQuiescent, stripe_unchecked, attempts_of, order_row. rewrite Ho, A. destruct M. by rewrite mf_payments. }
      intros r' Hr'. destruct (M1 r' Hr') as [(r & Hr & Hl)|Hn]; [|right; by rewrite <- R]. left. exists r. rewrite <- R. split; [done|].
      destruct Hl as [I K]. split; [done|]. destruct K as [K|(o' & K1 & K2 & K3)]; [by left|]. right. exists o'.
      assert (Eo' : order_row d (rv_orderId r) = Some o') by (unfold order_row in *; by rewrite <- Ho). split; [done|]. split; [done|].
      destruct K3 as [K3|[(X1 & X2 & X3 & X4 & b & X5)|K3]]; [by left| |by right; right].
      right; left. repeat (split; [done|]). exists b. unfold providerQuiescent, stripe_unchecked, attempts_of, order_row in *.
      rewrite Ho, A in X5. destruct M. by rewrite mf_payments in X5. }
  destruct (update_reservations _ _ _) as [d2 rs]. cbn [fst] in S. inv_ok. apply dispatched_frame in Em. by apply (sound_then d d2).
Qed.

Lemma existsb_none {A} (p : A -> bool) l x : existsb p l = false -> x ∈ l -> p x = false.
Proof.
  intros H Hx. destruct (p x) eqn:E; [|done]. assert (existsb p l = true); [|congruence].
  apply existsb_exists. exists x. split; [by apply list_elem_of_In|done].
Qed.
Lemma new_hold_sound now d i : 
  List.find (fun r => on_order (ri_orderId i) r && same_owner (ri_kind i) (ri_ownerKey i) r) (reservations d) = None ->
  existsb (fun r => same_owner (ri_kind i) (ri_ownerKey i) r && live r) (reservations d) = false ->
  sound d (with_reservations (tick d) (reservations d ++ [new_reservation now (gen_random_uuid (sd_fresh d)) i])).
Proof.
  intros Hf He [A B C D1 E]. set (row := new_reservation _ _ _).
  assert (Hid : rv_id row ∉ map rv_id (reservations d)).
  { intros Hin. rewrite Forall_forall in B. destruct (B _ Hin) as (k & Hk & Ek). apply Hinj in Ek. lia. }
  assert (L : forall r, r ∈ reservations d -> live r = true -> rv_kind r = rv_kind row -> rv_ownerKey r = rv_ownerKey row -> False).
  { intros r Hr Hl Ek Eo. apply (existsb_none _ _ r) in He; [|done]. unfold same_owner in He. rewrite Ek, Eo in He. cbn in He.
    by rewrite !String.eqb_refl, Hl in He. }
  assert (N : forall r, r ∈ reservations d -> rv_orderId r = rv_orderId row -> rv_kind r = rv_kind row -> rv_ownerKey r = rv_ownerKey row -> False).
  { intros r Hr Eo Ek Ew. eapply find_none in Hf; [|by apply list_elem_of_In]. unfold on_order, same_owner in Hf.
    rewrite Eo, Ek, Ew in Hf. cbn in Hf. by rewrite !String.eqb_refl in Hf. }
  split; [constructor; cbn|].
  - by apply NoDup_map_snoc.
  - rewrite map_app. apply Forall_app. split; [eapply Forall_impl; [exact B|]; intros k (n & Hn & ->); exists n; split; [lia|done]|].
    constructor; [|constructor]. exists (sd_fresh d). split; [lia|done].
  - intros r1 r2 H1 H2 L1 L2 Ek Eo. change (reservations (with_reservations _ ?l)) with l in H1, H2.
    apply elem_of_app in H1 as [H1|H1%list_elem_of_singleton], H2 as [H2|H2%list_elem_of_singleton]; subst; try done; [by apply C| |];
      exfalso; [apply (L r1)|apply (L r2)]; done.
  - intros r1 r2 H1 H2 Ho Ek Eo. change (reservations (with_reservations _ ?l)) with l in H1, H2.
    apply elem_of_app in H1 as [H1|H1%list_elem_of_singleton], H2 as [H2|H2%list_elem_of_singleton]; subst; try done; [by apply D1| |];
      exfalso; [apply (N r1)|apply (N r2)]; done.
  - apply Forall_app. split; [done|]. by constructor.
  - intros r Hr. apply elem_of_app in Hr as [Hr|Hr%list_elem_of_singleton]; [left; exists r; split; [done|apply lawful_same]|]. subst. by right.
Qed.
Lemma reserve_sound now d i d' row : reserve gen_random_uuid registeredPaymentPolicies now d i = Ok (d', row) -> sound d d'.
Proof.
  unfold reserve. intros H. inv_ok. destruct (List.find _ _) as [ex|] eqn:Ef; inv_ok; [apply sound_refl|].
  bool_props. eapply sound_then; [by apply new_hold_sound|]. by eapply dispatched_frame.
Qed.

Lemma releaseOnFullRefund_sound now d orderId d' rows : releaseOnFullRefund registeredPaymentPolicies now d orderId = Ok (d', rows) -> sound d d'.
Proof.
  unfold releaseOnFullRefund. intros H. destruct (financiallyQuarantined d orderId) eqn:Eq; [injection H as <- _; apply sound_refl|].
  unfold orderState in H. destruct (order_row d orderId) as [o|] eqn:Eo; [|discriminate]. cbn [bind_result] in H.
  destruct (bool_decide (so_state o = Refunded)) eqn:Es; cbn [negb] in H; [|injection H as <- _; apply sound_refl].
  apply bool_decide_eq_true_1 in Es.
  assert (S : sound d (fst (update_reservations d (refund_releases orderId) (refund_release_row now)))).
  { assert (P : forall r, refund_releases orderId r = true -> rv_orderId r = orderId /\ rv_state r = consumed /\ rv_releaseOnFullRefund r = true).
    { unfold refund_releases, on_order, is_state. intros r H1. bool_props. split; [by apply String.eqb_eq|]. split; [by eapply bool_decide_eq_true_1|done]. }
    apply update_sound; [done| |by intros r _|].
    - intros r Hr Hsh. apply P in Hr as (_ & Hr & _). unfold shape in *. rewrite Hr in Hsh. cbn in *. by bool_props.
    - intros r Hr. apply P in Hr as (E1 & E2 & E3). split; [done|]. right. exists o. rewrite E1. split; [done|].
      split; [by eapply not_quarantined|]. right; right; right. auto. }
  destruct (update_reservations _ _ _) as [d1 rs]. inv_ok. apply dispatched_frame in Em. by apply (sound_then d d1).
Qed.
Lemma refundOrDefer_sound now d orderId refundId d' rows deferred :
  releaseOnFullRefundOrDefer registeredPaymentPolicies now d orderId refundId = Ok (d', rows, deferred) -> sound d d'.
Proof.
  unfold releaseOnFullRefundOrDefer. intros H. destruct (releaseOnFullRefund _ _ _ _) as [[d1 rs]|e] eqn:E.
  - injection H as <- _ _. by eapply releaseOnFullRefund_sound.
  - destruct e; try discriminate. pose proof (update_sound d (refund_releases orderId) (request_row now "order_refunded")
      ltac:(done) ltac:(done) ltac:(done) ltac:(by intros r _; split; [|left])) as S.
    destruct (update_reservations _ _ _) as [d1 rs]. cbn [fst] in S. destruct (is_nil rs); injection H as <- _ _; [done|].
    apply (sound_then d d1); [done|]. by constructor.
Qed.

Lemma overrideRelease_sound now d orderId reason d' rows : overrideRelease registeredPaymentPolicies now d orderId reason = Ok (d', rows) -> sound d d'.
Proof.
  unfold overrideRelease, assertFinancialEffectsAllowed. intros H.
  destruct (financiallyQuarantined d orderId) eqn:Eq; [discriminate|]. cbn [negb bind_result] in H.
  destruct (negb _); [|discriminate]. unfold orderState in H. destruct (order_row d orderId) as [o|] eqn:Eo; [|discriminate]. cbn [bind_result] in H.
  destruct (bool_decide (so_state o = Cancelled)) eqn:Es; [|discriminate]. apply bool_decide_eq_true_1 in Es.
  assert (S : sound d (fst (update_reservations d (held_on orderId) (release_with now (Some now) true (Some ("operator_override: " ++ trim reason)%string))))).
  { apply update_sound; [done|done|done|]. intros r Hr. apply held_on_spec in Hr as [E1 E2]. split; [done|]. right. exists o. rewrite E1.
    split; [done|]. split; [by eapply not_quarantined|]. right; right; left. auto. }
  destruct (update_reservations _ _ _) as [d1 rs]. inv_ok. apply dispatched_frame in Em. by apply (sound_then d d1).
Qed.

Lemma purge_sound d orderId d' rows : purgeReservations registeredPaymentPolicies d orderId = Ok (d', rows) -> sound d d'.
Proof.
  unfold purgeReservations. intros H. inv_ok. destruct a. set (rs := List.filter _ _) in *.
  assert (F : res_frame d a0).
  { eapply (fold_result_inv (fun e => res_frame d e)); [done| |exact Em0]. intros e r e' _ F Hd. etrans; [exact F|by apply dispatched_frame in Hd]. }
  destruct (is_nil rs); [by apply sound_frame|]. intros Hok. pose proof (frame_res_ok _ _ F Hok) as [A B C D1 E].
  assert (G : forall r, r ∈ List.filter (fun r => negb (on_order orderId r)) (reservations a0) -> r ∈ reservations a0) by (intros r Hr; by apply elem_filter_bool in Hr as [Hr _]).
  split.
  - constructor; cbn; change (reservations (with_reservations _ ?l)) with l.
    + by apply NoDup_map_filter.
    + apply Forall_forall. intros k Hk. apply list_elem_of_fmap in Hk as (r & -> & Hr). rewrite Forall_forall in B. apply B, list_elem_of_fmap_2, G, Hr.
    + intros; apply C; auto.
    + intros; apply D1; auto.
    + by apply Forall_filter_bool.
  - intros r Hr. left. exists r. split; [|apply lawful_same]. destruct F as [_ _ R _]. rewrite <- R. by apply G.
Qed.

(** ** Runs *)

Inductive res_step (d : DB) : DB -> Prop :=
  | step_reserve now i d' row : reserve gen_random_uuid registeredPaymentPolicies now d i = Ok (d', row) -> res_step d d'
  | step_consume now o p i iso d' rows : consumeCore registeredPaymentPolicies now d o p i iso = Ok (d', rows) -> res_step d d'
  | step_request now o reason d' rows : requestRelease now d o reason = Ok (d', rows) -> res_step d d'
  | step_release now o sd d' rows : settleReleaseCore registeredPaymentPolicies releaseAccountCredit now d o sd = Ok (d', rows) -> res_step d d'
  | step_refund now o refundId d' rows b : releaseOnFullRefundOrDefer registeredPaymentPolicies now d o refundId = Ok (d', rows, b) -> res_step d d'
  | step_override now o reason d' rows : overrideRelease registeredPaymentPolicies now d o reason = Ok (d', rows) -> res_step d d'
  | step_purge o d' rows : purgeReservations registeredPaymentPolicies d o = Ok (d', rows) -> res_step d d'
  | step_elsewhere d' : reservations d' = reservations d -> (sd_fresh d <= sd_fresh d')%nat -> res_step d d'.
Inductive res_run : DB -> Prop :=
  | res_start d : reservations d = [] -> res_run d
  | res_next d d' : res_run d -> res_step d d' -> res_run d'.

Lemma res_step_sound d d' : res_step d d' -> sound d d'.
Proof.
  destruct 1.
  - by eapply reserve_sound. - by eapply consumeCore_sound. - by eapply requestRelease_sound. - by eapply settleReleaseCore_sound.
  - by eapply refundOrDefer_sound. - by eapply overrideRelease_sound. - by eapply purge_sound.
  - intros Hok. split; [by eapply other_res_ok|by apply moves_same].
Qed.
Lemma res_run_ok d : res_run d -> res_ok d.
Proof.
  induction 1 as [d E|d d' _ IH S]; [|by apply (res_step_sound _ _ S)].
  constructor; rewrite E; try constructor; intros ? ? ?%elem_of_nil; done.
Qed.

(** C21: Exclusive holds. At any point of any run, a reserved thing has at most one
    live (held or consumed) owner, an order holds a thing at most once, and every
    row's timestamps fit its state. *)
Theorem reservations_exclusive d : res_run d ->
  (forall r1 r2, r1 ∈ reservations d -> r2 ∈ reservations d -> live r1 = true -> live r2 = true ->
     rv_kind r1 = rv_kind r2 -> rv_ownerKey r1 = rv_ownerKey r2 -> r1 = r2) /\
  (forall r1 r2, r1 ∈ reservations d -> r2 ∈ reservations d -> rv_orderId r1 = rv_orderId r2 ->
     rv_kind r1 = rv_kind r2 -> rv_ownerKey r1 = rv_ownerKey r2 -> r1 = r2) /\
  Forall (fun r => shape r = true) (reservations d).
Proof.
  intros H. destruct (res_run_ok _ H) as [A B C D1 E]. split; [|split; [|done]].
  - intros r1 r2 H1 H2 L1 L2 K O. apply (NoDup_map_inj rv_id (reservations d)); auto.
  - intros r1 r2 H1 H2 Ho K O. apply (NoDup_map_inj rv_id (reservations d)); auto.
Qed.

(** The reservation state machine. One step of any run either places a new
    hold or moves rows lawfully: a hold is consumed only when its order is Paid
    or PartiallyRefunded, released only when the order is Cancelled or Refunded,
    the release was requested and the provider is quiescent (or, for a Cancelled
    order, as an unverified operator override); a consumed row is released only
    by a full refund that it asked for; quarantined orders move nothing. Released
    rows stay released, and consumed rows are never held again. *)
Theorem reservation_moves_lawful d d' r' : res_run d -> res_step d d' -> r' ∈ reservations d' ->
  ((exists r, r ∈ reservations d /\ lawful d r r') \/ (rv_state r' = held /\ rv_id r' ∉ map rv_id (reservations d))) /\
  (forall r, r ∈ reservations d -> rv_id r = rv_id r' -> (rv_state r = released -> rv_state r' = released) /\ (rv_state r = consumed -> rv_state r' <> held)).
Proof.
  intros H S Hr'. pose proof (res_run_ok _ H) as Hok. destruct (res_step_sound _ _ S Hok) as [_ M]. split; [by apply M|].
  intros r Hr Hid. destruct (M r' Hr') as [(r0 & H0 & I & K)|[_ Hn]].
  - unfold res_identity in I. injection I as I1 _ _ _.
    assert (r0 = r) as -> by (apply (NoDup_map_inj rv_id (reservations d)); [apply Hok|done|done|congruence]).
    destruct K as [K|(o & _ & _ & K)]; [split; congruence|].
    destruct K as [(X1 & X2 & _)|[(X1 & X2 & _)|[(X1 & X2 & _)|(X1 & X2 & _)]]]; split; congruence.
  - destruct Hn. rewrite <- Hid. by apply list_elem_of_fmap_2.
Qed.

(** ** Progress *)

Definition hooks_succeed : Prop := forall d t, snd (run_hooks d registeredPaymentPolicies t) = None.
Lemma dispatch_succeeds d rows from to cause : hooks_succeed -> snd (dispatch d rows from to cause) = None.
Proof.
  intros Hh. revert d. induction rows as [|r rest IH]; intros d; cbn; [done|]. unfold dispatchReservationTransition.
  set (t := Build_ReservationTransition _ _ _ _). specialize (Hh d t). destruct (run_hooks _ _ _) as [d' [e|]]; [done|]. apply IH.
Qed.
Lemma existsb_set_where_none {A} (p q : A -> bool) f (l : list A) : (forall x, x ∈ l -> q x = true -> p x = true /\ q (f x) = false) ->
  (forall x, x ∈ l -> p x = true -> q (f x) = false) -> existsb q (set_where p f l) = false.
Proof.
  intros H1 H2. apply not_true_iff_false. intros H. apply existsb_exists in H as (y & Hy & Hq). apply list_elem_of_In, elem_set_where in Hy as (x & Hx & ->).
  destruct (p x) eqn:Ep; [rewrite H2 in Hq; done|]. destruct (H1 x Hx Hq). congruence.
Qed.

Lemma filter_existsb_none {A} (p : A -> bool) (l : list A) : existsb p l = false -> List.filter p l = [].
Proof. induction l as [|x xs IH]; cbn; [done|]. destruct (p x); [discriminate|done]. Qed.

(** C23: A cancelled order frees its holds. Once the provider is quiescent, the
    cancel path's release succeeds, leaves no held row on the order and no
    pending request, releases exactly the rows that were held, and other orders'
    rows are as before (up to projections, which do not touch reservations). *)
Theorem release_frees_holds now d orderId reason sd o : hooks_succeed -> (forall e, is_ok (releaseAccountCredit e orderId) = true) ->
  order_row d orderId = Some o -> so_state o = Cancelled -> quarantined_order d orderId = false -> providerQuiescent d orderId sd = true ->
  exists d' rows, release registeredPaymentPolicies releaseAccountCredit now d orderId reason sd = Ok (d', rows, []) /\
    existsb (held_on orderId) (reservations d') = false /\
    map rv_id rows = map rv_id (List.filter (held_on orderId) (reservations d)) /\
    reservations d' = set_where (held_on orderId) (fun r => release_row now (request_row now reason r)) (reservations d).
Proof.
  intros Hh Hc Ho Hs Hq Hp. unfold release, requestRelease, assertFinancialEffectsAllowed, financiallyQuarantined. rewrite Hq. cbn [negb bind_result].
  set (q := update_reservations d _ _). set (d1 := fst q). assert (R1 : reservations d1 = set_where (held_on orderId) (request_row now reason) (reservations d)) by done.
  unfold settleRelease, settleReleaseCore, financiallyQuarantined. change (quarantined_order d1) with (quarantined_order d). rewrite Hq.
  unfold orderState. change (order_row d1) with (order_row d). rewrite Ho, Hs. cbn [bind_result].
  change (state_in TERMINAL_RELEASE_STATES Cancelled) with true. change (bool_decide (Cancelled = Cancelled)) with true. cbn [negb andb].
  change (providerQuiescent d1) with (providerQuiescent d). rewrite Hp. specialize (Hc d1).
  destruct (releaseAccountCredit d1 orderId) as [d2|] eqn:Ec; [|discriminate]. apply credit_release_frame in Ec as [M O R A]. cbn [bind_result].
  set (pending := fun r => held_on orderId r && release_requested r).
  assert (Q2 : providerQuiescent d2 orderId sd = true).
  { rewrite <- Hp. unfold providerQuiescent, stripe_unchecked, attempts_of, order_row. rewrite O, A. destruct M. by rewrite mf_payments. }
  assert (Hreq : forall r, held_on orderId (request_row now reason r) = held_on orderId r) by done.
  assert (Rd : set_where pending (release_row now) (reservations d2) = set_where (held_on orderId) (fun r => release_row now (request_row now reason r)) (reservations d)).
  { rewrite R, R1. unfold set_where. rewrite map_map. apply map_ext. intros r. destruct (held_on orderId r) eqn:E.
    - assert (P : pending (request_row now reason r) = true) by (unfold pending; by rewrite Hreq, E). by rewrite P.
    - assert (P : pending r = false) by (unfold pending; by rewrite E). by rewrite P. }
  assert (Fin : existsb (held_on orderId) (set_where (held_on orderId) (fun r => release_row now (request_row now reason r)) (reservations d)) = false).
  { assert (Z1 : forall r, held_on orderId (release_row now (request_row now reason r)) = false) by (intros r; unfold held_on; cbn; by rewrite andb_false_r).
    apply existsb_set_where_none; intros r _; auto. }
  destruct (existsb pending (reservations d2)) eqn:Ex; cbn [negb].
  - rewrite Q2. cbn [negb]. unfold update_reservations at 1. set (d3 := with_reservations d2 _). set (rows := map (release_row now) _).
    unfold dispatched. pose proof (dispatch_succeeds d3 rows (Some held) released cause_order_cancelled Hh) as N.
    pose proof (dispatch_frame d3 rows (Some held) released cause_order_cancelled) as F.
    change (bool_decide (Cancelled = Refunded)) with false. cbv iota.
    destruct (dispatch d3 rows (Some held) released cause_order_cancelled) as [d4 e]. cbn in N, F. subst e. cbn [bind_result fst snd].
    assert (R4 : reservations d4 = set_where (held_on orderId) (fun r => release_row now (request_row now reason r)) (reservations d)) by (destruct F as [_ _ F _]; by rewrite F).
    exists d4, rows. rewrite R4. split; [|split; [done|split; [|done]]].
    + by rewrite (filter_existsb_none _ _ Fin).
    + unfold rows. rewrite map_map. cbn. rewrite R, R1. clear. unfold set_where. induction (reservations d) as [|x xs IH]; cbn; [done|].
      unfold pending at 1. destruct (held_on orderId x) eqn:E; [|by rewrite E].
      change (held_on orderId (request_row now reason x)) with (held_on orderId x). rewrite E. cbn. by f_equal.
  - assert (N : List.filter (held_on orderId) (reservations d) = []).
    { rewrite R, R1 in Ex. clear -Ex. induction (reservations d) as [|x xs IH]; cbn in *; [done|]. destruct (held_on orderId x) eqn:E.
      - unfold pending in Ex. change (held_on orderId (request_row now reason x)) with (held_on orderId x) in Ex. by rewrite E in Ex.
      - apply IH. by apply orb_false_iff in Ex as [_ Ex]. }
    assert (R2 : reservations d2 = set_where (held_on orderId) (fun r => release_row now (request_row now reason r)) (reservations d)).
    { rewrite R, R1. unfold set_where. apply map_ext_in. intros r Hr. destruct (held_on orderId r) eqn:E; [|done].
      assert (r ∈ List.filter (held_on orderId) (reservations d)) as Hin by (apply elem_filter_bool; split; [by apply list_elem_of_In|done]).
      rewrite N in Hin. by apply elem_of_nil in Hin. }
    exists d2, []. cbn [bind_result fst snd]. rewrite N, R2. split; [|done]. by rewrite (filter_existsb_none _ _ Fin).
Qed.

(** ** Consumption by settlement *)

Lemma consume_frame_money now d orderId pid oid iso d' rows :
  consumeCore registeredPaymentPolicies now d orderId pid oid iso = Ok (d', rows) -> money_frame d d'.
Proof.
  unfold consumeCore. intros H. destruct (financiallyQuarantined d orderId); [by injection H as <- _|]. unfold orderState in H.
  destruct (order_row d orderId); [|discriminate]. cbn [bind_result] in H. destruct (state_in _ _); [|discriminate].
  destruct (update_reservations _ _ _) as [d1 rs] eqn:Eu. injection Eu as <- <-. set (d1 := with_reservations d _) in *. set (rs := map _ _) in *.
  pose proof (dispatch_frame d1 rs (Some held) consumed cause_consumed) as [M _ _ _].
  assert (M0 : money_frame d d1) by by constructor.
  destruct (dispatch d1 rs (Some held) consumed cause_consumed) as [d2 [e|]]; cbn [fst] in M; [destruct iso; [|discriminate]|]; injection H as <- _.
  - etrans; [exact M0|]. etrans; [exact M|]. by constructor.
  - by etrans.
Qed.

Lemma consume_held now d orderId pid oid o :
  order_row d orderId = Some o -> so_state o ∈ CONSUMABLE_STATES -> quarantined_order d orderId = false ->
  exists d' rows, consumeForSettlement registeredPaymentPolicies now d orderId pid oid = Ok (d', rows) /\
    reservations d' = set_where (held_on orderId) (consume_row now pid oid) (reservations d) /\
    rows = map (consume_row now pid oid) (List.filter (held_on orderId) (reservations d)) /\
    existsb (held_on orderId) (reservations d') = false /\
    forall now' pid' oid', consumeForSettlement registeredPaymentPolicies now' d' orderId pid' oid' = Ok (d', []).
Proof.
  unfold consumeForSettlement.
  intros Ho Hs Hq. assert (Es : state_in CONSUMABLE_STATES (so_state o) = true) by by apply bool_decide_eq_true_2.
  assert (Fin : existsb (held_on orderId) (set_where (held_on orderId) (consume_row now pid oid) (reservations d)) = false).
  { assert (Z1 : forall r, held_on orderId (consume_row now pid oid r) = false) by (intros r; unfold held_on; cbn; by rewrite andb_false_r).
    apply existsb_set_where_none; intros r _; auto. }
  destruct (existsb (held_on orderId) (reservations d)) eqn:Ex; cbn [negb].
  - rewrite Ho, Es. unfold consumeCore, financiallyQuarantined, orderState. rewrite Hq, Ho. cbn [bind_result]. rewrite Es.
    unfold update_reservations at 1. set (d1 := with_reservations d _). set (rs := map _ _).
    pose proof (dispatch_frame d1 rs (Some held) consumed cause_consumed) as [_ _ R _]. change (reservations d1) with (set_where (held_on orderId) (consume_row now pid oid) (reservations d)) in R.
    destruct (dispatch d1 rs (Some held) consumed cause_consumed) as [d2 [e|]]; cbn [fst] in R; (eexists; exists rs; split; [done|]).
    + change (reservations (with_audit d2 _)) with (reservations d2). rewrite R, Fin. auto.
    + rewrite R, Fin. auto.
  - exists d, []. rewrite (filter_existsb_none _ _ Ex). split; [done|]. split; [|split; [done|split; [done|intros; by rewrite Ex]]].
    unfold set_where. rewrite <- (map_id (reservations d)) at 1. apply map_ext_in. intros r Hr.
    destruct (held_on orderId r) eqn:E; [|done]. assert (existsb (held_on orderId) (reservations d) = true); [|congruence].
    apply existsb_exists. by exists r.
Qed.

(** Settlement consumes an order's holds, and nothing stops it. The call
    succeeds whatever the order's state and whatever projections do (their
    failure is audited, the money is already taken). For a Paid or
    PartiallyRefunded order outside quarantine every held row becomes consumed
    with the payment and operation that settled it, no other row changes, and a
    replay consumes nothing. *)
Theorem settlement_consumes_holds now d orderId pid oid :
  is_ok (consumeForSettlement registeredPaymentPolicies now d orderId pid oid) = true /\
  (forall o, order_row d orderId = Some o -> so_state o ∈ CONSUMABLE_STATES -> quarantined_order d orderId = false ->
     exists d' rows, consumeForSettlement registeredPaymentPolicies now d orderId pid oid = Ok (d', rows) /\
       reservations d' = set_where (held_on orderId) (consume_row now pid oid) (reservations d) /\
       rows = map (consume_row now pid oid) (List.filter (held_on orderId) (reservations d)) /\
       existsb (held_on orderId) (reservations d') = false /\
       forall now' pid' oid', consumeForSettlement registeredPaymentPolicies now' d' orderId pid' oid' = Ok (d', [])).
Proof.
  unfold consumeForSettlement. split.
  - destruct (negb _); [done|]. destruct (order_row d orderId) as [o|] eqn:Eo; [|done]. destruct (state_in CONSUMABLE_STATES (so_state o)) eqn:Es; [|done].
    unfold consumeCore, orderState. destruct (financiallyQuarantined d orderId); [done|]. rewrite Eo. cbn [bind_result]. rewrite Es.
    destruct (update_reservations _ _ _) as [d1 rs]. by destruct (dispatch _ _ _ _ _) as [d2 [e|]].
  - intros o. apply consume_held.
Qed.

(** The chokepoint's interface, with the reservation part filled in by the code above. *)
Context (postCredit : DB -> string -> DB * option string) (handlers : string -> option (EffectHandler (D := DB))) (referenced : ResTables Y -> string -> bool).
Context (postCredit_frame : forall d o, money_frame d (fst (postCredit d o))).
Context (handlers_frame : forall kind run d row d' out, handlers kind = Some (LocalHandler run) -> run d row = Ok (d', out) -> money_frame d d').

Definition reservation_deps (now : Z) : SettlementDeps (ResTables Y) :=
  {| postAcceptedCredit := postCredit;
     Settlement.consumeForSettlement d orderId pid oid :=
       match consumeForSettlement registeredPaymentPolicies now d orderId pid oid with
       | Ok (d', rows) => Ok (d', map rv_id rows)
       | Err _ => Err "reservation"%string
       end;
     handler_of := handlers; order_referenced := referenced |}.

(** C19: The reservation service implements its side of the settlement interface:
    it never touches money, so every guarantee of the chokepoint holds for the
    store with its real reservations; and when an operation settles an order that
    ends up Paid, the same transaction leaves no held row on it and reports
    exactly the rows it consumed. *)
Theorem reservations_refine_settlement now d op a oid orderId o :
  op_kind op ∈ CONSUMING_KINDS -> or_some (or_some (ap_orderId a) (op_orderId op)) (ap_paymentId a ≫= paymentOrderId d) = Some orderId ->
  order_row d orderId = Some o -> so_state o ∈ CONSUMABLE_STATES -> quarantined_order d orderId = false ->
  (reservations (fst (postCredit d orderId)) = reservations d) ->
  ChokepointDeps (ResTables Y) (H := reservation_deps now) /\
  exists d' credit, consumption (deps := reservation_deps now) d op a oid =
    Ok (d', credit, map rv_id (List.filter (held_on orderId) (reservations d))) /\
    existsb (held_on orderId) (reservations d') = false.
Proof.
  intros Hk Ht Ho Hs Hq Hr. split.
  - split; cbn; [apply postCredit_frame| |apply handlers_frame]. intros e o1 p i e' ids H.
    destruct (consumeForSettlement _ _ _ _ _ _) as [[e1 rows]|] eqn:E; [|discriminate]. injection H as <- _.
    unfold consumeForSettlement in E. destruct (negb _); [by injection E as <- _|]. destruct (order_row e o1); [|by injection E as <- _].
    destruct (state_in _ _); [by eapply consume_frame_money|by injection E as <- _].
  - unfold consumption. rewrite bool_decide_eq_true_2 by done. cbn [negb]. rewrite Ht, Hq. cbn [postAcceptedCredit Settlement.consumeForSettlement reservation_deps].
    pose proof (postCredit_frame d orderId) as M. destruct (postCredit d orderId) as [d1 credit]. cbn [fst] in *.
    assert (F : option_map order_facts (order_row d1 orderId) = option_map order_facts (order_row d orderId)).
    { apply order_row_facts. by destruct M. }
    rewrite Ho in F. destruct (order_row d1 orderId) as [o1|] eqn:E1; [|discriminate]. injection F as _ _ _ F4 _ F6.
    destruct (consume_held now d1 orderId (or_some (ap_paymentId a) (latestSettledPaymentId d orderId)) oid o1 E1)
      as (d' & rows & Ec & R & -> & Fin & _); [by rewrite F4| |].
    { unfold quarantined_order in *. rewrite E1. rewrite Ho in Hq. congruence. }
    exists d', credit. rewrite Ec. split; [|done]. f_equal. f_equal. rewrite map_map, Hr. by apply map_ext.
Qed.
End Facts.

(** ** A concrete store *)

Definition res_order (state : OrderState) : Order :=
  {| so_id := "o1"; so_code := "A-1"; so_state := state; so_currency := "USD"; so_grandTotal := 900; so_customerId := None;
     so_idempotencyKey := None; so_metadata := None; so_placedAt := None; so_updatedAt := 0; so_deletedAt := None |}%string.
Definition res_db (state : OrderState) (rows : list Reservation) : ResDb (Y := unit) :=
  {| sd_store := "s1"; sd_orders := [res_order state]; sd_payments := []; sd_ops := []; sd_invoices := []; sd_refunds := []; sd_edits := [];
     sd_audit := []; sd_outbox := []; sd_fresh := length rows; sd_other := {| rt_reservations := rows; rt_attempts := []; rt_rest := tt |} |}%string.
Definition res_input : ReserveInput :=
  {| ri_orderId := "o1"; ri_kind := "upgrade_source"; ri_ownerKey := "lic-1"; ri_holder := None; ri_releaseOnFullRefund := Some true; ri_expiresAt := None |}%string.
Definition res_row : Reservation := new_reservation 1 (sample_uuid 0) res_input.
Definition res_held : ResDb (Y := unit) := res_db PendingPayment [res_row].
Definition res_keep (d : ResDb (Y := unit)) (_ : string) : result string (ResDb (Y := unit)) := Ok d.

Lemma res_no_policy (p : PaymentPolicy (Y := unit)) hook d t d' : p ∈ @nil (PaymentPolicy (Y := unit)) ->
  pp_onReservationTransition p = Some hook -> hook d t = Ok d' -> res_frame d d'.
Proof. by intros ?%elem_of_nil. Qed.
Lemma res_keep_frame d orderId d' : res_keep d orderId = Ok d' -> res_frame d d'.
Proof. by intros [= <-]. Qed.
Lemma res_held_run : res_run sample_uuid [] res_keep res_held.
Proof.
  apply (res_next _ _ _ (res_db PendingPayment [])); [by apply res_start|]. apply (step_reserve _ _ _ _ 1 res_input res_held res_row).
  vm_compute. reflexivity.
Qed.

Lemma reservations_exclusive_witness : res_run sample_uuid [] res_keep res_held /\ Forall (fun r => shape r = true) (reservations res_held).
Proof. split; [apply res_held_run|]. apply (reservations_exclusive sample_uuid [] res_keep res_no_policy res_keep_frame res_held res_held_run). Defined.

Definition res_cancelled : ResDb (Y := unit) := res_db Cancelled [res_row].
Definition res_overridden : ResDb (Y := unit) :=
  match overrideRelease [] 9 res_cancelled "o1" "operator checked the provider" with Ok (d, _) => d | Err _ => res_cancelled end.
Lemma reservation_moves_lawful_witness : exists r, r ∈ reservations res_overridden /\ rv_state r = released /\ rv_releasedUnverified r = true /\
  exists r0, r0 ∈ reservations res_cancelled /\ lawful res_cancelled r0 r.
Proof.
  destruct (overrideRelease [] 9 res_cancelled "o1" "operator checked the provider") as [[d rows]|] eqn:E; [|vm_compute in E; discriminate].
  assert (Ed : res_overridden = d) by (unfold res_overridden; by rewrite E).
  assert (Hrun : res_run sample_uuid [] res_keep res_cancelled).
  { apply (res_next _ _ _ res_held res_cancelled); [apply res_held_run|]. by apply step_elsewhere. }
  destruct (reservations res_overridden) as [|r rs] eqn:Er; [vm_compute in Er; discriminate|].
  assert (Hr : r ∈ reservations d) by (rewrite <- Ed, Er; left).
  assert (Hs : rv_state r = released /\ rv_releasedUnverified r = true) by (vm_compute in Er; injection Er as <- _; done).
  destruct (reservation_moves_lawful sample_uuid [] res_keep res_no_policy res_keep_frame res_cancelled d r Hrun
    (step_override _ _ _ _ 9 "o1" "operator checked the provider" d rows E) Hr) as [[H|[H _]] _]; [|by rewrite (proj1 Hs) in H].
  exists r. split; [left|]. split; [apply Hs|]. split; [apply Hs|exact H].
Defined.

Lemma release_frees_holds_witness : exists d' rows, release [] res_keep 9 res_cancelled "o1" "cancelled" false = Ok (d', rows, []) /\
  existsb (held_on "o1") (reservations d') = false.
Proof.
  destruct (release_frees_holds [] res_keep res_no_policy res_keep_frame 9 res_cancelled "o1" "cancelled" false (res_order Cancelled))
    as (d' & rows & A & B & _); try done. by exists d', rows.
Defined.

Definition res_paid : ResDb (Y := unit) := res_db Paid [res_row].
Definition res_credit (d : ResDb (Y := unit)) (_ : string) : ResDb (Y := unit) * option string := (d, None).
Definition res_no_handler (_ : string) : option (EffectHandler (D := ResDb (Y := unit))) := None.
Definition res_paid_op : SettlementOperation := settle_op order_paid_transition "o1" [order_paid "o1" 7 None] [].
Definition res_applied : Applied := {| ap_paymentId := None; ap_invoicePaymentId := None; ap_orderId := Some "o1"%string |}.
Lemma reservations_refine_settlement_witness :
  exists d' credit, consumption (deps := reservation_deps [] res_credit res_no_handler (fun _ _ => false) 9) res_paid res_paid_op res_applied "o1" =
    Ok (d', credit, [sample_uuid 0]) /\ existsb (held_on "o1") (reservations d') = false.
Proof.
  apply (reservations_refine_settlement [] res_no_policy res_credit res_no_handler (fun _ _ => false) (fun d _ => reflexivity d) ltac:(done)
    9 res_paid res_paid_op res_applied "o1" "o1" (res_order Paid)); try done; vm_compute; try done.
  - right; left.
  - left.
Defined.
Lemma settlement_consumes_holds_witness : is_ok (consumeForSettlement [] 9 res_paid "o1" None "o1") = true /\
  exists d' rows, consumeForSettlement [] 9 res_paid "o1" None "o1" = Ok (d', rows) /\ existsb (held_on "o1") (reservations d') = false.
Proof.
  destruct (settlement_consumes_holds [] res_no_policy 9 res_paid "o1" None "o1") as [A B]. split; [exact A|].
  destruct (B (res_order Paid)) as (d' & rows & C & _ & _ & D & _); [done|left|done|]. by exists d', rows.
Defined.
