(* ===== verification/Locks.v ===== *)
(** The global lock set: [src/packages/api/src/db/locks.ts].

    [planFor] reads the rows a set of subjects touches; the lock functions take
    them in the global class order (purchase advisories, licences, orders,
    reservations), each class sorted, plan again under the locks and start over
    when the plan grew. What other transactions do is the environment: a database
    per read, and per attempt of [withLockedSet] the failures of its statements
    and the outcome of the caller's function. Tables hold the rows of one store.
    Postgres' [hashtextextended] and the policies' plan contributors are
    parameters. *)

From S2P Require Import Prelude Json Tender.
From Stdlib Require Import ZArith Lia Bool String.
From stdpp Require Import base list strings sorting.
Local Open Scope Z_scope.

(** ** Plans *)

Record PurchaseId := { pu_storeId : string; pu_environment : string; pu_originalTransactionId : string }.
Inductive LockSubject :=
  | subject_order (orderId : string)
  | subject_notification (purchase : PurchaseId)
  | subject_link (purchases : list PurchaseId)
  | subject_customer (customerId : string) (orders_only : bool)
  | subject_checkout (sourceLicenseId : option string)
  | subject_loyalty (customerId : string).
Record LockPlanContribution := {
  lp_purchases : list PurchaseId; lp_licenseIds : list string; lp_orderIds : list string; lp_reservationIds : option (list string)
}.

(** What the planner reads. *)
Record LicenseRow := { lc_id : string; lc_orderId : option string; lc_customerId : option string }.
Record PlannedOrder := { lo_id : string; lo_customerId : option string; lo_metadata : option json }.
Record HeldThing := { lr_id : string; lr_orderId : string }.
Record StorekitPurchase := { sp_environment : string; sp_originalTransactionId : string; sp_licenseId : option string }.
Record LockDb := {
  ld_licenses : list LicenseRow; ld_orders : list PlannedOrder; ld_reservations : list HeldThing; ld_purchases : list StorekitPurchase
}.

Definition EMPTY : LockPlanContribution := {| lp_purchases := []; lp_licenseIds := []; lp_orderIds := []; lp_reservationIds := Some [] |}.
Definition purchaseLockKey (p : PurchaseId) : string := (pu_storeId p ++ ":" ++ pu_environment p ++ ":" ++ pu_originalTransactionId p)%string.
Definition canonical (id : string) : string := to_lower id.
(** Postgres compares [uuid]s, whose text is the lower-case one. *)
Definition uuid_is (row : string) (id : string) : bool := String.eqb (canonical row) (canonical id).
Definition uuid_null_is (row : option string) (id : string) : bool := match row with Some r => uuid_is r id | None => false end.
Definition reservationIds (p : LockPlanContribution) : list string := or_else (lp_reservationIds p) [].

Definition union (a b : LockPlanContribution) : LockPlanContribution :=
  {| lp_purchases := lp_purchases a ++ lp_purchases b; lp_licenseIds := uniq (lp_licenseIds a ++ lp_licenseIds b);
     lp_orderIds := uniq (lp_orderIds a ++ lp_orderIds b); lp_reservationIds := Some (uniq (reservationIds a ++ reservationIds b)) |}.
Definition subsetOf (a b : LockPlanContribution) : bool :=
  forallb (fun id => one_of (map canonical (lp_licenseIds b)) (canonical id)) (lp_licenseIds a) &&
  forallb (fun id => one_of (map canonical (lp_orderIds b)) (canonical id)) (lp_orderIds a) &&
  forallb (fun id => one_of (map canonical (reservationIds b)) (canonical id)) (reservationIds a) &&
  forallb (fun p => one_of (map purchaseLockKey (lp_purchases b)) (purchaseLockKey p)) (lp_purchases a).

Definition planPurchases (d : LockDb) (purchases : list PurchaseId) : LockPlanContribution :=
  let bound p := omap (fun r => if String.eqb (sp_environment r) (pu_environment p) &&
                                   String.eqb (sp_originalTransactionId r) (pu_originalTransactionId p) && nonempty (sp_licenseId r)
                                then sp_licenseId r else None) (ld_purchases d) in
  {| lp_purchases := purchases; lp_licenseIds := flat_map bound purchases; lp_orderIds := []; lp_reservationIds := Some [] |}.

Definition planOne (d : LockDb) (subject : LockSubject) : LockPlanContribution :=
  match subject with
  | subject_order orderId =>
      {| lp_purchases := []; lp_licenseIds := map lc_id (List.filter (fun l => uuid_null_is (lc_orderId l) orderId) (ld_licenses d));
         lp_orderIds := [orderId]; lp_reservationIds := Some [] |}
  | subject_customer customerId orders_only =>
      {| lp_purchases := [];
         lp_licenseIds := if orders_only then [] else map lc_id (List.filter (fun l => uuid_null_is (lc_customerId l) customerId) (ld_licenses d));
         lp_orderIds := map lo_id (List.filter (fun o => uuid_null_is (lo_customerId o) customerId) (ld_orders d)); lp_reservationIds := Some [] |}
  | subject_loyalty customerId =>
      {| lp_purchases := []; lp_licenseIds := [];
         lp_orderIds := map lo_id (List.filter (fun o => uuid_null_is (lo_customerId o) customerId &&
                                     is_some (opt_field "deferredEarn" (opt_field "loyalty" (lo_metadata o)))) (ld_orders d));
         lp_reservationIds := Some [] |}
  | subject_checkout sourceLicenseId =>
      {| lp_purchases := []; lp_licenseIds := match sourceLicenseId with Some id => if nonempty sourceLicenseId then [id] else [] | None => [] end;
         lp_orderIds := []; lp_reservationIds := Some [] |}
  | subject_notification purchase => planPurchases d [purchase]
  | subject_link purchases => planPurchases d purchases
  end.

Section Planner.
Context (hashtextextended : string -> Z) (contributors : list (LockDb -> LockSubject -> LockPlanContribution)).

Definition plan_subject (d : LockDb) (plan : LockPlanContribution) (subject : LockSubject) : LockPlanContribution :=
  fold_left (fun plan contribute => union plan (contribute d subject)) contributors (union plan (planOne d subject)).
(** An order's holds are locked with the order. *)
Definition plan_reservations (d : LockDb) (orderIds : list string) : LockPlanContribution :=
  {| lp_purchases := []; lp_licenseIds := []; lp_orderIds := [];
     lp_reservationIds := Some (map lr_id (List.filter (fun r => existsb (uuid_is (lr_orderId r)) orderIds) (ld_reservations d))) |}.
Definition planFor (d : LockDb) (subjects : list LockSubject) : LockPlanContribution :=
  let plan := fold_left (plan_subject d) subjects EMPTY in
  if is_nil (lp_orderIds plan) then plan else union plan (plan_reservations d (lp_orderIds plan)).

(** ** Acquisition *)

Inductive LockTable := tbl_license | tbl_order | tbl_order_reservation.
Inductive LockName := advisory (h : Z) | row (table : LockTable) (id : string).

Definition acquirePurchaseLocks (purchases : list PurchaseId) : list Z :=
  sort_stable Z.gtb (uniq (map hashtextextended (uniq (map purchaseLockKey purchases)))).
Definition lockRows (ids : list string) : list string := sorted_set (map canonical ids).
Definition table_name (t : LockTable) : string := match t with tbl_license => "license" | tbl_order => "order" | tbl_order_reservation => "order_reservation" end.
Definition taken_entry (t : LockTable) (id : string) : string := (table_name t ++ ":" ++ id)%string.

(** The lock statements of one acquisition, in order: before the re-plan, and after it. *)
Definition requests_before (plan : LockPlanContribution) : list LockName :=
  map advisory (acquirePurchaseLocks (lp_purchases plan)) ++ map (row tbl_license) (lockRows (lp_licenseIds plan)) ++
  map (row tbl_order) (lockRows (lp_orderIds plan)).
Definition requests_after (plan : LockPlanContribution) : list LockName := map (row tbl_order_reservation) (lockRows (reservationIds plan)).
Definition lock_requests (plan : LockPlanContribution) : list LockName := requests_before plan ++ requests_after plan.

Record StockRow := { sk_variantId : string; sk_onHand : Z; sk_allocated : Z }.
Definition lockStockRowsInOrder (stock : list StockRow) (variantIds : list string) : list StockRow :=
  omap (fun id => List.find (fun r => uuid_is (sk_variantId r) id) stock) (lockRows variantIds).

(** ** Held sets *)

Record Witness := {
  w_tx : nat; w_advisoryHashes : list Z; w_promisedLicenseIds : list string; w_promisedOrderIds : list string; w_lockedRows : list string
}.
Definition mintHeld (tx : nat) (plan : LockPlanContribution) : Witness :=
  {| w_tx := tx; w_advisoryHashes := acquirePurchaseLocks (lp_purchases plan); w_promisedLicenseIds := map canonical (lp_licenseIds plan);
     w_promisedOrderIds := map canonical (lp_orderIds plan);
     w_lockedRows := map (taken_entry tbl_license) (lockRows (lp_licenseIds plan)) ++ map (taken_entry tbl_order) (lockRows (lp_orderIds plan)) ++
                     map (taken_entry tbl_order_reservation) (lockRows (reservationIds plan)) |}.

Inductive HeldLocksMissing := not_minted | other_transaction | not_locked (entry : string) | advisory_not_granted (h : Z).
Definition asIntN64 (z : Z) : Z := let m := z mod 2 ^ 64 in if m <? 2 ^ 63 then m else m - 2 ^ 64.
(** [held] is what the [WeakMap] holds for the brand; [pg_locks] the granted advisory locks of this backend. *)
Definition assertHeld (lockGuardActive : bool) (pg_locks : list (Z * Z)) (tx : nat) (held : option Witness) : result HeldLocksMissing unit :=
  if negb lockGuardActive then Ok tt
  else match held with
  | None => Err not_minted
  | Some w =>
      guard! (w_tx w =? tx)%nat or other_transaction in
      let! _ := map_result (fun id => let e := taken_entry tbl_license (canonical id) in guard! one_of (w_lockedRows w) e or not_locked e in Ok tt) (w_promisedLicenseIds w) in
      let! _ := map_result (fun id => let e := taken_entry tbl_order (canonical id) in guard! one_of (w_lockedRows w) e or not_locked e in Ok tt) (w_promisedOrderIds w) in
      let granted := map (fun hl => asIntN64 (Z.lor (Z.shiftl (fst hl) 32) (snd hl))) pg_locks in
      let! _ := map_result (fun h => guard! existsb (Z.eqb (asIntN64 h)) granted or advisory_not_granted h in Ok tt) (w_advisoryHashes w) in
      Ok tt
  end.

Record LockSetContext := { cx_tx : nat; cx_held : Witness; cx_plan : LockPlanContribution }.
Definition currentLockSet (ctx : option LockSetContext) (tx : nat) : option LockSetContext :=
  match ctx with Some c => if (cx_tx c =? tx)%nat then Some c else None | None => None end.
Definition lockSetCovers (ctx : option LockSetContext) (d : LockDb) (tx : nat) (subjects : list LockSubject) : bool :=
  match currentLockSet ctx tx with Some c => subsetOf (planFor d subjects) (cx_plan c) | None => false end.
Definition adoptCreatedReservation (ctx : option LockSetContext) (tx : nat) (orderId reservationId : string) : option LockSetContext :=
  match ctx with
  | Some c =>
      if negb (cx_tx c =? tx)%nat then ctx
      else if negb (existsb (fun id => String.eqb (canonical id) (canonical orderId)) (lp_orderIds (cx_plan c))) then ctx
      else Some {| cx_tx := cx_tx c; cx_held := cx_held c;
                   cx_plan := union (cx_plan c) {| lp_purchases := []; lp_licenseIds := []; lp_orderIds := []; lp_reservationIds := Some [reservationId] |} |}
  | None => None
  end.

(** ** Errors: the [code]s along the [cause] chain, outermost first. *)

Record TxError := { te_grown : option LockPlanContribution; te_codes : list (option string) }.
Definition LockSetGrew (grown : LockPlanContribution) : TxError := {| te_grown := Some grown; te_codes := [None] |}.
Definition LockSetUnstable : TxError := {| te_grown := None; te_codes := [None] |}.
Definition hasPgCode (e : TxError) (codes : list string) : bool :=
  existsb (fun c => match c with Some s => one_of codes s | None => false end) (take 5 (te_codes e)).
Definition isLockTimeout (e : TxError) : bool := hasPgCode e ["55P03"%string].
Definition isDeadlockOrSerializationFailure (e : TxError) : bool := hasPgCode e ["40P01"; "40001"]%string.

(** ** Taking a set in the caller's transaction: the reads see [covering], [planning] and, under the locks, [under]. *)

Definition acquire_set (subjects : list LockSubject) (planning under : LockDb) : result TxError LockPlanContribution :=
  let plan := planFor planning subjects in
  let again := planFor under subjects in
  guard! subsetOf again plan or LockSetGrew again in Ok plan.
Definition lockSetInTx (ctx : option LockSetContext) (tx : nat) (subjects : list LockSubject) (covering planning under : LockDb) : result TxError (list LockName) :=
  if lockSetCovers ctx covering tx subjects then Ok [] else let! plan := acquire_set subjects planning under in Ok (lock_requests plan).
Definition withLockedSetInTx {T} (ctx : option LockSetContext) (tx : nat) (subjects : list LockSubject) (covering planning under : LockDb)
    (fn : Witness -> LockPlanContribution -> result TxError T) : result TxError T :=
  match currentLockSet ctx tx with
  | Some c => if lockSetCovers ctx covering tx subjects then fn (cx_held c) (cx_plan c)
              else let! plan := acquire_set subjects planning under in fn (mintHeld tx plan) plan
  | None => let! plan := acquire_set subjects planning under in fn (mintHeld tx plan) plan
  end.
Definition lockOrderRowsInTx (ctx : option LockSetContext) (tx : nat) (orderIds : list string) (covering : LockDb) : list LockName :=
  if is_nil orderIds || lockSetCovers ctx covering tx (map subject_order orderIds) then [] else map (row tbl_order) (lockRows orderIds).

(** ** [withLockedSet]: plan, lock, verify, start over. *)

Record Attempt (T : Type) := {
  at_tx : nat; at_locking : option TxError; at_under : LockDb; at_reservations : option TxError;
  at_fn : Witness -> LockPlanContribution -> result TxError T
}.
#[global] Arguments at_tx {T}.
#[global] Arguments at_locking {T}.
#[global] Arguments at_under {T}.
#[global] Arguments at_reservations {T}.
#[global] Arguments at_fn {T}.
#[global] Arguments Build_Attempt {T}.

Section WithLockedSet.
Context {T : Type} (subjects : list LockSubject) (maxRestarts : nat) (mustCommit : bool) (env : nat -> Attempt T).

Definition run_attempt (plan : LockPlanContribution) (a : Attempt T) : result TxError T :=
  match at_locking a with
  | Some e => Err e
  | None =>
      let again := planFor (at_under a) subjects in
      guard! subsetOf again plan or LockSetGrew again in
      match at_reservations a with Some e => Err e | None => at_fn a (mintHeld (at_tx a) plan) plan end
  end.
Fixpoint locked_loop (fuel : nat) (attempt transientRetries : nat) (plan : LockPlanContribution) : option (result TxError T) :=
  match fuel with
  | O => None
  | S fuel =>
      match run_attempt plan (env attempt) with
      | Ok x => Some (Ok x)
      | Err e =>
          if isDeadlockOrSerializationFailure e then
            if (maxRestarts <=? transientRetries)%nat then Some (Err e) else locked_loop fuel (S attempt) (S transientRetries) plan
          else if negb (is_some (te_grown e)) && negb (isLockTimeout e) then Some (Err e)
          else if mustCommit then
            match te_grown e with None => Some (Err e) | Some grown => locked_loop fuel (S attempt) transientRetries (union plan grown) end
          else if (maxRestarts <=? attempt)%nat then Some (Err LockSetUnstable)
          else locked_loop fuel (S attempt) transientRetries (match te_grown e with Some grown => union plan grown | None => plan end)
      end
  end.
Definition withLockedSet (fuel : nat) (d : LockDb) : option (result TxError T) := locked_loop fuel 0 0 (planFor d subjects).
End WithLockedSet.
End Planner.
