(* ===== verification/LockFacts.v ===== *)
(** The global lock order excludes deadlock, every held set covers what its
    subjects touch, and taking it terminates. *)

From S2P Require Import Prelude Json Tender Locks.
From Stdlib Require Import ZArith Lia Bool String.
From stdpp Require Import base list strings sorting relations.
Local Open Scope Z_scope.

(** ** The class order *)

Definition table_rank (t : LockTable) : Z := match t with tbl_license => 2 | tbl_order => 3 | tbl_order_reservation => 4 end.
(** L1 purchase advisories, then L2 licences, L3 orders, L4 reservations; each class by its key. *)
Definition lock_lt (a b : LockName) : bool :=
  match a, b with
  | advisory x, advisory y => x <? y
  | advisory _, row _ _ => true
  | row _ _, advisory _ => false
  | row s x, row t y => (table_rank s <? table_rank t) || ((table_rank s =? table_rank t) && str_after y x)
  end.
Definition in_order : list LockName -> Prop := StronglySorted (fun a b => lock_lt a b = true).

#[export] Instance lock_lt_trans : Transitive (fun a b => lock_lt a b = true).
Proof.
  intros [x|s x] [y|t y] [z|u z]; cbn; try done; [lia|]. rewrite !orb_true_iff, !andb_true_iff, !Z.ltb_lt, !Z.eqb_eq.
  intros [?|[? ?]] [?|[? ?]]; [left; lia..|right; split; [lia|by eapply str_after_trans]].
Qed.
Lemma lock_lt_irrefl a : lock_lt a a = false.
Proof. destruct a as [x|t x]; cbn; [lia|]. by rewrite str_after_irrefl, Z.ltb_irrefl, andb_false_r. Qed.

Lemma in_order_map {K} (f : K -> LockName) (gt : K -> K -> bool) l :
  (forall a b, gt b a = true -> lock_lt (f a) (f b) = true) -> StronglySorted (fun a b => gt b a = true) l -> in_order (map f l).
Proof.
  intros H. induction 1 as [|x xs Hs IH Hx]; cbn; constructor; [done|]. apply Forall_map. eapply Forall_impl; [done|]. intros y Hy. by apply H.
Qed.
Lemma in_order_app l1 l2 : in_order l1 -> in_order l2 -> (forall a b, a ∈ l1 -> b ∈ l2 -> lock_lt a b = true) -> in_order (l1 ++ l2).
Proof.
  unfold in_order. induction 1 as [|x xs Hs IH Hx]; intros H2 H; cbn; [done|]. constructor.
  - apply IH; [done|]. intros a b Ha. apply H. by right.
  - apply Forall_app. split; [done|]. apply Forall_forall. intros b Hb. apply H; [by left|done].
Qed.
Lemma rows_in_order t ids : in_order (map (row t) (lockRows ids)).
Proof.
  eapply in_order_map; [|apply sorted_set_increasing]. intros a b H. cbn. by rewrite H, Z.eqb_refl, orb_true_r.
Qed.

Section Facts.
Context (hashtextextended : string -> Z) (contributors : list (LockDb -> LockSubject -> LockPlanContribution)).
Abbreviation requests := (lock_requests hashtextextended).
Abbreviation plan_of := (planFor contributors).

Lemma advisories_in_order ps : in_order (map advisory (acquirePurchaseLocks hashtextextended ps)).
Proof.
  apply (in_order_map advisory Z.gtb); [intros a b H; cbn; lia|]. apply sorted_distinct; [intros; lia| |].
  - apply sort_stable_sorted; intros; lia.
  - unfold acquirePurchaseLocks. rewrite sort_stable_perm. apply NoDup_uniq.
Qed.
Lemma lock_requests_in_order plan : in_order (requests plan).
Proof.
  unfold lock_requests, requests_before, requests_after.
  repeat apply in_order_app; auto using advisories_in_order, rows_in_order; intros a b Ha Hb;
    repeat match goal with
    | H : _ ∈ _ ++ _ |- _ => apply elem_of_app in H
    | H : _ \/ _ |- _ => destruct H
    | H : _ ∈ map _ _ |- _ => apply list_elem_of_fmap in H as (? & -> & _)
    end; reflexivity.
Qed.

(** ** Waiting *)

(** A transaction that has got its first [lt_done] locks and asks for the next. A
    lock statement that finds no row locks nothing, so it holds at most these. *)
Record LockTx := { lt_requests : list LockName; lt_done : nat }.
Definition awaited (t : LockTx) : option LockName := lt_requests t !! lt_done t.
Definition waits_for (t u : LockTx) : Prop := exists l, awaited t = Some l /\ l ∈ take (lt_done u) (lt_requests u).
(** All its locks come from one acquisition: a whole set, or the order rows alone. *)
Definition one_acquisition (t : LockTx) : Prop :=
  (exists plan, lt_requests t = requests plan) \/ (exists ids, lt_requests t = map (row tbl_order) (lockRows ids)).

Lemma in_order_held l n x y : in_order l -> l !! n = Some y -> x ∈ take n l -> lock_lt x y = true.
Proof.
  intros Hs. revert n. induction Hs as [|z zs Hs IH Hz]; intros n Hn Hx; [done|]. destruct n as [|n]; cbn in *; [by apply elem_of_nil in Hx|].
  apply elem_of_cons in Hx as [->|Hx]; [|by eapply IH]. rewrite Forall_forall in Hz. apply Hz. by eapply list_elem_of_lookup_2.
Qed.
Lemma one_acquisition_in_order t : one_acquisition t -> in_order (lt_requests t).
Proof. intros [[p ->]|[ids ->]]; [apply lock_requests_in_order|apply rows_in_order]. Qed.
Lemma waits_for_lt t u x y : in_order (lt_requests u) -> waits_for t u -> awaited t = Some x -> awaited u = Some y -> lock_lt x y = true.
Proof. intros Hu (l & E & Hl) Ex Ey. rewrite E in Ex. injection Ex as ->. by eapply in_order_held. Qed.

Lemma chain_lt (S : list LockTx) t u : (forall v, v ∈ S -> one_acquisition v) ->
  tc (fun a b => a ∈ S /\ b ∈ S /\ waits_for a b) t u -> forall x y, awaited t = Some x -> awaited u = Some y -> lock_lt x y = true.
Proof.
  intros HS. induction 1 as [a b (Ha & Hb & W)|a b c (Ha & Hb & W) T IH]; intros x y Ex Ey.
  - eapply waits_for_lt; eauto using one_acquisition_in_order.
  - assert (exists z, awaited b = Some z) as [z Ez] by (inversion T as [? ? (_ & _ & z & E & _)|? ? ? (_ & _ & z & E & _)]; eauto).
    apply lock_lt_trans with z; [|auto]. eapply waits_for_lt; eauto using one_acquisition_in_order.
Qed.
Lemma chain_ends (R : LockTx -> LockTx -> Prop) t u : tc R t u -> (exists v, R t v) /\ exists v, R v u.
Proof. induction 1 as [a b W|a b c W T [_ IH]]; eauto. Qed.
Lemma no_wait_cycle (S : list LockTx) t : (forall v, v ∈ S -> one_acquisition v) -> ~ tc (fun a b => a ∈ S /\ b ∈ S /\ waits_for a b) t t.
Proof.
  intros HS H. destruct (chain_ends _ _ _ H) as [(v & _ & _ & x & Ex & _) _].
  pose proof (chain_lt S t t HS H x x Ex Ex) as L. by rewrite lock_lt_irrefl in L.
Qed.

(** A finite list has an element that no other exceeds. *)
Lemma list_max {A} (lt : A -> A -> Prop) `{!Transitive lt} `{forall x y, Decision (lt x y)} (S : list A) : S <> [] -> (forall x, ~ lt x x) ->
  exists x, x ∈ S /\ forall y, y ∈ S -> ~ lt x y.
Proof.
  intros HS Hi. induction S as [|x xs IH]; [done|]. destruct xs as [|x' xs'].
  { exists x. split; [by left|]. intros y ->%list_elem_of_singleton. auto. }
  destruct IH as (m & Hm & Hmax); [done|]. destruct (decide (lt m x)) as [L|N].
  - exists x. split; [by left|]. intros y [->|Hy]%elem_of_cons; [auto|]. intros L'. apply (Hmax y Hy). by transitivity x.
  - exists m. split; [by right|]. intros y [->|Hy]%elem_of_cons; auto.
Qed.
(** The order of what two transactions await; one that has all its locks comes last. *)
Definition awaits_lt (t u : LockTx) : Prop :=
  match awaited t, awaited u with Some x, Some y => lock_lt x y = true | Some _, None => True | None, _ => False end.
#[export] Instance awaits_lt_dec t u : Decision (awaits_lt t u).
Proof. unfold awaits_lt. destruct (awaited t), (awaited u); apply _. Defined.
#[export] Instance awaits_lt_trans : Transitive awaits_lt.
Proof. intros t u v. unfold awaits_lt. destruct (awaited t), (awaited u), (awaited v); try done. apply lock_lt_trans. Qed.

(** C3: Transactions that take their locks by one acquisition each never deadlock:
    in any set of them, wherever each has got to, no chain of waiting comes back
    to its start, and some transaction waits for no other, so the set advances.
    Purchases, licences, orders and reservations may be requested in any number
    and any order of the input; duplicates and upper-case ids do not matter. *)
Theorem lock_order_deadlock_free (S : list LockTx) : S <> [] -> (forall t, t ∈ S -> one_acquisition t) ->
  (forall t, ~ tc (fun a b => a ∈ S /\ b ∈ S /\ waits_for a b) t t) /\ exists t, t ∈ S /\ forall u, u ∈ S -> ~ waits_for t u.
Proof.
  intros Hne HS. split; [intros t; by apply no_wait_cycle|].
  destruct (list_max awaits_lt S Hne) as (t & Ht & Hmax).
  { intros t. unfold awaits_lt. destruct (awaited t) as [x|]; [|tauto]. by rewrite lock_lt_irrefl. }
  exists t. split; [done|]. intros u Hu W. apply (Hmax u Hu). unfold awaits_lt. pose proof W as (x & Ex & _). rewrite Ex.
  destruct (awaited u) as [y|] eqn:Ey; [|done]. eapply waits_for_lt; eauto using one_acquisition_in_order.
Qed.

(** ** Names: what a plan covers *)

Definition plan_names (p : LockPlanContribution) : list (Z * string) :=
  map (pair 1) (map purchaseLockKey (lp_purchases p)) ++ map (pair 2) (map canonical (lp_licenseIds p)) ++
  map (pair 3) (map canonical (lp_orderIds p)) ++ map (pair 4) (map canonical (reservationIds p)).
Lemma one_of_spec l s : one_of l s = true <-> s ∈ l.
Proof.
  unfold one_of. rewrite existsb_exists. split; [intros (x & Hx & ->%String.eqb_eq); by apply list_elem_of_In|].
  intros H. exists s. by rewrite String.eqb_refl, <- list_elem_of_In.
Qed.
Lemma forallb_one_of {A} (f : A -> string) (l : list A) (m : list string) :
  forallb (fun x => one_of m (f x)) l = true <-> (forall s, s ∈ map f l -> s ∈ m).
Proof.
  rewrite forallb_forall. split.
  - intros H s (x & -> & Hx)%list_elem_of_fmap. apply list_elem_of_In in Hx. apply H in Hx. by apply one_of_spec in Hx.
  - intros H x Hx. apply one_of_spec, H. apply list_elem_of_fmap. exists x. split; [done|]. by apply list_elem_of_In.
Qed.
Lemma pair_elem {A B} (k k' : A) (s : B) l : (k, s) ∈ map (pair k') l <-> k = k' /\ s ∈ l.
Proof. split; [intros (x & [= -> ->] & Hx)%list_elem_of_fmap; done|]. intros [-> H]. apply list_elem_of_fmap. eauto. Qed.
Lemma plan_names_spec p k s : (k, s) ∈ plan_names p <->
  (k = 1 /\ s ∈ map purchaseLockKey (lp_purchases p)) \/ (k = 2 /\ s ∈ map canonical (lp_licenseIds p)) \/
  (k = 3 /\ s ∈ map canonical (lp_orderIds p)) \/ (k = 4 /\ s ∈ map canonical (reservationIds p)).
Proof. unfold plan_names. by rewrite !elem_of_app, !pair_elem. Qed.
Lemma subsetOf_names a b : subsetOf a b = true <-> (forall n, n ∈ plan_names a -> n ∈ plan_names b).
Proof.
  unfold subsetOf. rewrite !andb_true_iff, !forallb_one_of. split.
  - intros (((HL & HO) & HR) & HP) [k s]. rewrite !plan_names_spec. naive_solver.
  - intros H. repeat split; intros s Hs.
    + specialize (H (2, s)). rewrite !plan_names_spec in H. naive_solver.
    + specialize (H (3, s)). rewrite !plan_names_spec in H. naive_solver.
    + specialize (H (4, s)). rewrite !plan_names_spec in H. naive_solver.
    + specialize (H (1, s)). rewrite !plan_names_spec in H. naive_solver.
Qed.
Lemma map_uniq_elem {A} `{EqDecision A} (f : A -> string) l s : s ∈ map f (uniq l) <-> s ∈ map f l.
Proof. rewrite !list_elem_of_fmap. by setoid_rewrite elem_uniq. Qed.
Lemma plan_names_union a b n : n ∈ plan_names (Locks.union a b) <-> n ∈ plan_names a \/ n ∈ plan_names b.
Proof.
  destruct n as [k s]. rewrite !plan_names_spec. unfold Locks.union, reservationIds. cbn [lp_purchases lp_licenseIds lp_orderIds lp_reservationIds or_else].
  rewrite !map_uniq_elem, !map_app, !elem_of_app. naive_solver.
Qed.

(** The locks a plan asks for are exactly its names. *)
Definition lock_of (n : Z * string) : LockName :=
  let '(k, s) := n in
  if k =? 1 then advisory (hashtextextended s) else if k =? 2 then row tbl_license s else if k =? 3 then row tbl_order s else row tbl_order_reservation s.
Lemma acquire_elem ps h : h ∈ acquirePurchaseLocks hashtextextended ps <-> exists s, h = hashtextextended s /\ s ∈ map purchaseLockKey ps.
Proof.
  unfold acquirePurchaseLocks. rewrite sort_stable_perm, elem_uniq, list_elem_of_fmap. by setoid_rewrite elem_uniq.
Qed.
Lemma lockRows_elem ids s : s ∈ lockRows ids <-> s ∈ map canonical ids.
Proof. apply elem_sorted_set. Qed.
Lemma row_elem t ids l : l ∈ map (row t) (lockRows ids) <-> exists s, l = row t s /\ s ∈ map canonical ids.
Proof. rewrite list_elem_of_fmap. by setoid_rewrite lockRows_elem. Qed.
Lemma lock_requests_names p l : l ∈ requests p <-> exists n, l = lock_of n /\ n ∈ plan_names p.
Proof.
  unfold lock_requests, requests_before, requests_after. rewrite !elem_of_app, !row_elem, list_elem_of_fmap. setoid_rewrite acquire_elem. split.
  - intros [[(h & -> & s & -> & H)|[(s & -> & H)|(s & -> & H)]]|(s & -> & H)];
      [exists (1, s)|exists (2, s)|exists (3, s)|exists (4, s)]; (split; [done|]); rewrite plan_names_spec; tauto.
  - intros ([k s] & -> & H). rewrite plan_names_spec in H. destruct H as [[-> H]|[[-> H]|[[-> H]|[-> H]]]]; cbn [lock_of Z.eqb Pos.eqb]; naive_solver.
Qed.
Lemma subset_requests a b : subsetOf a b = true -> forall l, l ∈ requests a -> l ∈ requests b.
Proof.
  rewrite subsetOf_names. intros H l. rewrite !lock_requests_names. intros (n & -> & Hn). eauto.
Qed.

(** ** The brand is truthful *)

Lemma map_result_checks {E A} (f : A -> result E unit) l : (forall x, x ∈ l -> f x = Ok tt) -> map_result f l = Ok (map (fun _ => tt) l).
Proof.
  induction l as [|x xs IH]; cbn; intros H; [done|]. rewrite (H x) by (by left). cbn [bind_result]. rewrite IH; [done|]. intros y Hy. apply H. by right.
Qed.
(** Postgres shows a 64-bit advisory key as two unsigned halves. *)
Definition key_halves (h : Z) : Z * Z := (Z.shiftr (h mod 2 ^ 64) 32, h mod 2 ^ 32).
Lemma lor_halves a b : 0 <= b < 2 ^ 32 -> Z.lor (Z.shiftl a 32) b = a * 2 ^ 32 + b.
Proof.
  intros Hb. rewrite <- Z.shiftl_mul_pow2 by lia. assert (E : Z.land (Z.shiftl a 32) b = 0).
  { apply Z.bits_inj'. intros n Hn. rewrite Z.land_spec, Z.bits_0. destruct (Z.lt_ge_cases n 32).
    - by rewrite Z.shiftl_spec_low.
    - rewrite <- (Z.mod_small b (2 ^ 32)) by lia. by rewrite Z.mod_pow2_bits_high, andb_false_r by lia. }
  pose proof (Z.add_lor_land (Z.shiftl a 32) b). lia.
Qed.
Lemma asIntN64_id h : - 2 ^ 63 <= h < 2 ^ 63 -> asIntN64 h = h.
Proof.
  intros Hh. unfold asIntN64. destruct (Z.lt_ge_cases h 0).
  - assert (E : h mod 2 ^ 64 = h + 2 ^ 64) by (symmetry; apply (Z.mod_unique _ _ (-1)); lia). rewrite E.
    rewrite (proj2 (Z.ltb_ge _ _)) by lia. lia.
  - rewrite Z.mod_small by lia. by rewrite (proj2 (Z.ltb_lt _ _)) by lia.
Qed.
Lemma key_halves_roundtrip h : - 2 ^ 63 <= h < 2 ^ 63 -> asIntN64 (Z.lor (Z.shiftl (fst (key_halves h)) 32) (snd (key_halves h))) = h.
Proof.
  intros Hh. unfold key_halves. cbn [fst snd]. rewrite lor_halves by (apply Z.mod_pos_bound; lia). rewrite Z.shiftr_div_pow2 by lia.
  assert (E : h mod 2 ^ 64 / 2 ^ 32 * 2 ^ 32 + h mod 2 ^ 32 = h mod 2 ^ 64).
  { assert (E1 : h mod 2 ^ 32 = (h mod 2 ^ 64) mod 2 ^ 32).
    { symmetry. change (2 ^ 64) with (2 ^ 32 * 2 ^ 32). rewrite Z.rem_mul_r by lia. rewrite Z.mul_comm, Z_mod_plus_full. by rewrite Z.mod_mod by lia. }
    rewrite E1, Z.mul_comm. symmetry. apply Z_div_mod_eq_full. }
  rewrite E. change (asIntN64 (h mod 2 ^ 64) = h). unfold asIntN64. rewrite Z.mod_mod by lia. by apply asIntN64_id.
Qed.
Definition shown (plan : LockPlanContribution) (pg_locks : list (Z * Z)) : Prop :=
  forall h, h ∈ acquirePurchaseLocks hashtextextended (lp_purchases plan) -> - 2 ^ 63 <= h < 2 ^ 63 /\ key_halves h ∈ pg_locks.
Lemma taken_elem t ids id : id ∈ map canonical ids -> taken_entry t (canonical id) ∈ map (taken_entry t) (lockRows ids).
Proof.
  intros H. apply list_elem_of_fmap. exists id. rewrite lockRows_elem. split; [|done].
  apply list_elem_of_fmap in H as (x & -> & _). unfold canonical. by rewrite to_lower_idem.
Qed.
Lemma minted_held tx plan pg_locks : shown plan pg_locks -> assertHeld true pg_locks tx (Some (mintHeld hashtextextended tx plan)) = Ok tt.
Proof.
  intros H. unfold assertHeld. cbn [negb w_tx mintHeld w_promisedLicenseIds w_promisedOrderIds w_lockedRows w_advisoryHashes]. rewrite Nat.eqb_refl.
  rewrite !map_result_checks; [done|..].
  - intros h Hh. destruct (H h Hh) as [B Hin]. rewrite (proj2 (existsb_exists _ _)); [done|]. exists h. split.
    + apply list_elem_of_In, list_elem_of_fmap. exists (key_halves h). split; [by rewrite key_halves_roundtrip|done].
    + rewrite asIntN64_id by done. apply Z.eqb_refl.
  - intros id Hid. rewrite (proj2 (one_of_spec _ _)); [done|]. rewrite !elem_of_app. right; left. by apply taken_elem.
  - intros id Hid. rewrite (proj2 (one_of_spec _ _)); [done|]. rewrite !elem_of_app. left. by apply taken_elem.
Qed.

(** ** [withLockedSet] *)

Section Loop.
Context {T : Type} (subjects : list LockSubject) (maxRestarts : nat) (env : nat -> Attempt T).
Abbreviation attempt_of := (run_attempt hashtextextended contributors subjects).
Abbreviation loop := (locked_loop hashtextextended contributors subjects maxRestarts).

Lemma run_attempt_inv p (a : Attempt T) : match attempt_of p a with
  | Ok x => at_fn a (mintHeld hashtextextended (at_tx a) p) p = Ok x /\ subsetOf (plan_of (at_under a) subjects) p = true
  | Err e => (e = LockSetGrew (plan_of (at_under a) subjects) /\ subsetOf (plan_of (at_under a) subjects) p = false) \/
      at_locking a = Some e \/ at_reservations a = Some e \/ at_fn a (mintHeld hashtextextended (at_tx a) p) p = Err e
  end.
Proof.
  unfold run_attempt. destruct (at_locking a) as [e|]; [auto|]. destruct (subsetOf _ p) eqn:E; [|auto].
  destruct (at_reservations a) as [e|]; [auto|]. destruct (at_fn a _ p) eqn:F; auto.
Qed.

Lemma loop_ok mc fuel at_ tr plan x : loop mc env fuel at_ tr plan = Some (Ok x) ->
  exists i p, attempt_of p (env i) = Ok x /\ forall n, n ∈ plan_names plan -> n ∈ plan_names p.
Proof.
  revert at_ tr plan. induction fuel as [|fuel IH]; intros at_ tr plan; cbn; [discriminate|].
  destruct (attempt_of plan (env at_)) as [y|e] eqn:E; [intros [= ->]; by exists at_, plan|].
  assert (G : forall at' tr' g, loop mc env fuel at' tr' (Locks.union plan g) = Some (Ok x) ->
    exists i p, attempt_of p (env i) = Ok x /\ forall n, n ∈ plan_names plan -> n ∈ plan_names p).
  { intros at' tr' g H. apply IH in H as (i & p & Hr & Hp). exists i, p. split; [done|]. intros n Hn. apply Hp, plan_names_union. by left. }
  destruct (isDeadlockOrSerializationFailure e); [destruct (_ <=? _)%nat; [discriminate|apply IH]|].
  destruct (negb _ && _); [discriminate|]. destruct mc.
  - destruct (te_grown e); [apply G|discriminate].
  - destruct (_ <=? _)%nat; [discriminate|]. destruct (te_grown e); [apply G|apply IH].
Qed.

Lemma bounded_loop fuel at_ tr plan : (maxRestarts - tr + (maxRestarts - at_) < fuel)%nat -> loop false env fuel at_ tr plan <> None.
Proof.
  revert at_ tr plan. induction fuel as [|fuel IH]; intros at_ tr plan Hf; [lia|]. cbn. destruct (attempt_of plan (env at_)) as [y|e]; [done|].
  destruct (isDeadlockOrSerializationFailure e).
  - destruct (Nat.leb_spec maxRestarts tr); [done|]. apply IH. lia.
  - destruct (negb _ && _); [done|]. destruct (Nat.leb_spec maxRestarts at_); [done|]. apply IH. lia.
Qed.

(** The names of the finite set of rows that a plan does not cover yet. *)
Definition uncovered (U : list (Z * string)) (p : LockPlanContribution) : nat := length (filter (fun n => n ∉ plan_names p) U).
Lemma filter_shrinks {A} (P Q : A -> Prop) `{forall x, Decision (P x), forall x, Decision (Q x)} (l : list A) :
  (forall x, Q x -> P x) -> (length (filter Q l) <= length (filter P l))%nat /\
  ((exists x, x ∈ l /\ P x /\ ~ Q x) -> (length (filter Q l) < length (filter P l))%nat).
Proof.
  intros HQP. induction l as [|y ys [IH1 IH2]]; [split; [done|]; intros (x & Hx & _); by apply elem_of_nil in Hx|].
  rewrite !filter_cons. destruct (decide (Q y)) as [q|q], (decide (P y)) as [p|p]; cbn; try solve [exfalso; auto]; (split; [lia|]).
  - intros (x & [->|Hx]%elem_of_cons & Hp & Hq); [done|]. pose proof (IH2 ltac:(eauto)). lia.
  - lia.
  - intros (x & [->|Hx]%elem_of_cons & Hp & Hq); [done|]. apply IH2. eauto.
Qed.
Lemma uncovered_grows U again plan : (forall n, n ∈ plan_names again -> n ∈ U) -> subsetOf again plan = false ->
  (uncovered U (Locks.union plan again) < uncovered U plan)%nat.
Proof.
  intros HU Hs. apply filter_shrinks; [intros n; rewrite plan_names_union; tauto|].
  assert (D : Exists (fun n => n ∉ plan_names plan) (plan_names again)).
  { apply not_Forall_Exists; [apply _|]. intros F. apply not_true_iff_false in Hs. apply Hs, subsetOf_names. intros n Hn.
    rewrite Forall_forall in F. by apply F. }
  apply Exists_exists in D as (n & Hn & Hm). exists n. split; [by apply HU|]. split; [done|]. rewrite plan_names_union. intros C. apply C. by right.
Qed.

Context (U : list (Z * string)).
Context (finite_rows : forall i n, n ∈ plan_names (plan_of (at_under (env i)) subjects) -> n ∈ U).
(** A failure of the attempt's own statements; the caller's function never reports growth. *)
Definition own_failure (i : nat) (e : TxError) : Prop :=
  at_locking (env i) = Some e \/ at_reservations (env i) = Some e \/ exists w p, at_fn (env i) w p = Err e.
Context (own_not_growth : forall i e, own_failure i e -> te_grown e = None).
Lemma must_commit_loop fuel at_ tr plan : (uncovered U plan + (maxRestarts - tr) < fuel)%nat ->
  exists r, loop true env fuel at_ tr plan = Some r /\ forall e, r = Err e -> exists i, own_failure i e.
Proof.
  revert at_ tr plan. induction fuel as [|fuel IH]; intros at_ tr plan Hf; [lia|]. cbn.
  pose proof (run_attempt_inv plan (env at_)) as I. destruct (attempt_of plan (env at_)) as [y|e]; [by eexists|].
  destruct I as [[-> Hs]|I].
  - change (isDeadlockOrSerializationFailure (LockSetGrew _)) with false. cbn. apply IH.
    pose proof (uncovered_grows U _ plan (finite_rows at_) Hs). lia.
  - assert (F : own_failure at_ e) by (unfold own_failure; naive_solver). rewrite (own_not_growth _ _ F).
    destruct (isDeadlockOrSerializationFailure e).
    + destruct (Nat.leb_spec maxRestarts tr); [eexists; split; [done|]; intros ? [= <-]; eauto|]. apply IH. lia.
    + cbn. destruct (negb (isLockTimeout e)); (eexists; split; [done|]; intros ? [= <-]; eauto).
Qed.
End Loop.

(** When [withLockedSet] succeeds, the caller's function ran under a set that
    covers it: every lock of the first plan and of everything the subjects touch
    as read under the locks was requested, the brand it received passes
    [assertHeld] in its own transaction and no other, and helpers that plan the
    same subjects there reuse the set instead of locking again. *)
Theorem locked_set_complete {T} subjects maxRestarts mustCommit (env : nat -> Attempt T) fuel d x :
  withLockedSet hashtextextended contributors subjects maxRestarts mustCommit env fuel d = Some (Ok x) ->
  exists i plan, let under := at_under (env i) in let tx := at_tx (env i) in let held := mintHeld hashtextextended tx plan in
    at_fn (env i) held plan = Ok x /\
    (forall l, l ∈ requests (plan_of d subjects) \/ l ∈ requests (plan_of under subjects) -> l ∈ requests plan) /\
    (forall pg_locks, shown plan pg_locks -> forall tx', is_ok (assertHeld true pg_locks tx' (Some held)) = (tx =? tx')%nat) /\
    lockSetInTx hashtextextended contributors (Some {| cx_tx := tx; cx_held := held; cx_plan := plan |}) tx subjects under under under = Ok [].
Proof.
  intros H. apply loop_ok in H as (i & p & Hr & Hp). pose proof (run_attempt_inv subjects p (env i)) as I. rewrite Hr in I. destruct I as [Hf Hs].
  exists i, p. cbn zeta. split; [done|]. split; [|split].
  - intros l [Hl|Hl]; [|by eapply subset_requests]. eapply subset_requests; [|done]. by apply subsetOf_names.
  - intros pg Hpg tx'. destruct (Nat.eqb_spec (at_tx (env i)) tx') as [<-|N]; [by rewrite minted_held|].
    unfold assertHeld. cbn [negb mintHeld w_tx]. by rewrite (proj2 (Nat.eqb_neq _ _) N).
  - unfold lockSetInTx, lockSetCovers, currentLockSet. cbn [cx_tx]. rewrite Nat.eqb_refl. cbn [cx_plan]. by rewrite Hs.
Qed.

(** C22: [withLockedSet] returns. With a restart budget it takes at most twice the
    budget and one attempt, whatever other transactions do. In must-commit mode,
    where growth is retried without limit, it returns as long as the rows the
    subjects can ever touch are finitely many, after at most one attempt per such
    row plus the transient budget, and then fails only with a failure of an
    attempt's own statements, never because the set kept growing. *)
Theorem locked_set_terminates {T} subjects maxRestarts (env : nat -> Attempt T) d :
  withLockedSet hashtextextended contributors subjects maxRestarts false env (2 * maxRestarts + 1) d <> None /\
  forall U, (forall i n, n ∈ plan_names (plan_of (at_under (env i)) subjects) -> n ∈ U) -> (forall i e, own_failure env i e -> te_grown e = None) ->
    exists r, withLockedSet hashtextextended contributors subjects maxRestarts true env (length U + maxRestarts + 1) d = Some r /\
      forall e, r = Err e -> exists i, own_failure env i e.
Proof.
  split; [apply bounded_loop; lia|]. intros U HU Hown. apply (must_commit_loop subjects maxRestarts env U HU Hown).
  unfold uncovered. pose proof (length_filter (fun n => n ∉ plan_names (plan_of d subjects)) U). lia.
Qed.
End Facts.

(** ** Concrete sets *)

Definition lock_hash (s : string) : Z := Z.of_nat (String.length s) - 20.
Definition lock_purchase : PurchaseId := {| pu_storeId := "s1"; pu_environment := "Production"; pu_originalTransactionId := "9" |}%string.
Definition lock_db0 : LockDb :=
  {| ld_licenses := [{| lc_id := "l2"; lc_orderId := Some "o1"; lc_customerId := None |}];
     ld_orders := []; ld_reservations := [{| lr_id := "r1"; lr_orderId := "o1" |}];
     ld_purchases := [{| sp_environment := "Production"; sp_originalTransactionId := "9"; sp_licenseId := Some "l7" |}] |}%string.
(** Another transaction issued a licence in between. *)
Definition lock_db1 : LockDb :=
  {| ld_licenses := {| lc_id := "L1"; lc_orderId := Some "O1"; lc_customerId := None |}%string :: ld_licenses lock_db0;
     ld_orders := []; ld_reservations := ld_reservations lock_db0; ld_purchases := ld_purchases lock_db0 |}%string.
Definition lock_subjects : list LockSubject := [subject_order "O1"; subject_notification lock_purchase].
Definition lock_env (i : nat) : Attempt nat :=
  {| at_tx := i; at_locking := if (i =? 1)%nat then Some {| te_grown := None; te_codes := [None; Some "40P01"%string] |} else None; at_under := lock_db1;
     at_reservations := None; at_fn := fun _ plan => Ok (length (lp_licenseIds plan)) |}.
Definition lock_plan : LockPlanContribution := planFor [] lock_db1 lock_subjects.

Lemma lock_order_deadlock_free_witness :
  let t := {| lt_requests := lock_requests lock_hash lock_plan; lt_done := 4 |} in
  let u := {| lt_requests := map (row tbl_order) (lockRows ["O2"; "o1"; "O1"]%string); lt_done := 1 |} in
  let S := [t; u] in waits_for t u /\ exists t, t ∈ S /\ forall u, u ∈ S -> ~ waits_for t u.
Proof.
  split; [exists (row tbl_order "o1"); vm_compute; split; [reflexivity|left]|].
  apply (lock_order_deadlock_free lock_hash); [discriminate|].
  intros v [->|[->|H%elem_of_nil]%elem_of_cons]%elem_of_cons; [left; by eexists|right; by eexists|done].
Defined.
Lemma locked_set_complete_witness :
  withLockedSet lock_hash [] lock_subjects 3 false lock_env 4 lock_db0 = Some (Ok 3%nat) /\
  exists i plan, at_fn (lock_env i) (mintHeld lock_hash i plan) plan = Ok 3%nat /\
    forall l, l ∈ lock_requests lock_hash (planFor [] lock_db1 lock_subjects) -> l ∈ lock_requests lock_hash plan.
Proof.
  assert (E : withLockedSet lock_hash [] lock_subjects 3 false lock_env 4 lock_db0 = Some (Ok 3%nat)) by (vm_compute; reflexivity).
  split; [exact E|]. destruct (locked_set_complete lock_hash [] lock_subjects 3 false lock_env 4 lock_db0 3%nat E) as (i & plan & A & B & _).
  exists i, plan. split; [exact A|]. intros l Hl. apply B. by right.
Defined.
Lemma locked_set_terminates_witness :
  exists r, withLockedSet lock_hash [] lock_subjects 3 true lock_env (length (plan_names lock_plan) + 3 + 1) lock_db0 = Some r.
Proof.
  destruct (locked_set_terminates lock_hash [] lock_subjects 3 lock_env lock_db0) as [_ H].
  destruct (H (plan_names lock_plan)) as (r & E & _); [done| |by exists r].
  intros i e. unfold own_failure, lock_env. cbn. intros [F|[F|(w & p & F)]]; [destruct (i =? 1)%nat; [by injection F as <-|discriminate]|discriminate..].
Defined.
