(* ===== verification/Refunds.v ===== *)
(** Refunds: [src/packages/api/src/payments/refunds.ts] with the cash amounts of
    [payments/refund-credit.ts] and the gift-card credit of
    [routes/admin-order-payment-helpers.ts].

    A refund is requested in one transaction, which reserves its money and units
    and writes a [Pending] row; the provider is called outside; a second
    transaction finalizes it. Webhooks finalize the same attempt again. The
    store is the settlement store over the reservation tables, with the tables
    below as the rest. Account-credit evidence, order-edit activation, loyalty
    reversal and gateway accounts belong to other modules: they are the class
    [RefundDeps]. The provider's answer is an argument. Webhook endpoints are the
    enabled ones; the guard that keeps the canary topic out of [emitEvent] cannot
    fire on [order.refunded]. *)

From S2P Require Import LoyaltyLedger AccountCredit.
From S2P Require Import Prelude JsNumber Json OrderState LineQuantity Tender Effects Settlement Settle Reservation.
From Stdlib Require Import ZArith QArith Lia Bool String.
From stdpp Require Import base list strings.
Local Open Scope Z_scope.

(** ** Rows *)

Record RefundLine := { fl_refundId : string; fl_orderLineId : string; fl_quantity : Z; fl_amount : Z; fl_restock : bool }.
Record OrderLine := {
  ol_id : string; ol_orderId : string; ol_variantId : option string; ol_quantity : Z; ol_unitPrice : Z; ol_lineTotal : Z;
  ol_fulfilledQty : Z; ol_cancelledQty : Z; ol_refundedQty : Z; ol_editRemovedQty : Z; ol_metadata : option json
}.
Record Stock := { stk_variantId : string; stk_onHand : Z; stk_allocated : Z }.
Record StockMovement := { sm_variantId : string; sm_delta : Z; sm_refOrderId : string; sm_actor : option string }.
(** What a stock savepoint covers. *)
Record Goods := { gd_lines : list OrderLine; gd_stock : list Stock; gd_movements : list StockMovement }.
Record ReturnRequest := {
  rma_id : string; rma_orderId : string; rma_status : string; rma_refundId : option string; rma_reason : option string;
  rma_lines : list (string * Z * bool)
}.
Record License := { lce_id : string; lce_orderId : option string; lce_status : string; lce_updatedAt : Z }.
Record LicenseActivation := { lca_licenseId : string; lca_state : string; lca_revokedAt : option Z; lca_generation : Z; lca_updatedAt : Z }.
Record GiftCard := { gcd_id : string; gcd_balance : Z; gcd_updatedAt : Z }.
Record GiftCardTransaction := { gct_giftCardId : string; gct_orderId : option string; gct_amount : Z }.
Record RefundTables (Y : Type) := {
  ft_lines : list RefundLine; ft_goods : Goods; ft_returns : list ReturnRequest; ft_licenses : list License;
  ft_activations : list LicenseActivation; ft_giftCards : list GiftCard; ft_giftTransactions : list GiftCardTransaction;
  ft_customerEmails : list (string * string); ft_endpoints : list (string * list string);
  ft_deliveries : list (string * string * json); ft_rest : Y
}.
Arguments ft_lines {Y}. Arguments ft_goods {Y}. Arguments ft_returns {Y}. Arguments ft_licenses {Y}. Arguments ft_activations {Y}.
Arguments ft_giftCards {Y}. Arguments ft_giftTransactions {Y}. Arguments ft_customerEmails {Y}. Arguments ft_endpoints {Y}.
Arguments ft_deliveries {Y}. Arguments ft_rest {Y}. Arguments Build_RefundTables {Y}.

Inductive RefundError :=
  | RefundRefused (status : Z) (message : string)
  | ImportedReconciliation
  | SettlementFailed (e : SettleError)
  | ReleaseFailed (e : ResError)
  | RefundAborted (message : string).

(** ** Requests *)

Record Line := { ln_orderLineId : string; ln_quantity : Z; ln_restock : bool }.
Record EditLine := { el_orderLineId : string; el_quantity : Z; el_amount : Z }.
(** [fq_orderEdit] is [source === 'order_edit'], the only source. *)
Record RefundRequest := {
  fq_orderId : string; fq_actor : string; fq_idempotencyKey : string; fq_paymentId : option string; fq_amount : option Z;
  fq_lines : list Line; fq_restock : bool; fq_shippingAmount : option Z; fq_reason : option string; fq_returnId : option string;
  fq_creditMerchandiseReturn : bool; fq_orderEdit : bool; fq_editId : option string; fq_editLines : list EditLine
}.
Record RefundResult := { rr_state : RefundState; rr_providerRef : option string }.

Definition importedPlacedQuantity (metadata : option json) : option Z := safe_integer (opt_field "placedQuantity" (opt_field "vendure" metadata)).
Definition refundQuantity (l : OrderLine) : Z := Z.max (ol_quantity l) (or_else (importedPlacedQuantity (ol_metadata l)) 0).
Definition billed_line (l : OrderLine) : OrderLine :=
  let f := billedLine {| lq_quantity := ol_quantity l; lq_cancelledQty := ol_cancelledQty l; lq_editRemovedQty := Some (ol_editRemovedQty l) |} in
  {| ol_id := ol_id l; ol_orderId := ol_orderId l; ol_variantId := ol_variantId l; ol_quantity := lq_quantity f; ol_unitPrice := ol_unitPrice l;
     ol_lineTotal := ol_lineTotal l; ol_fulfilledQty := ol_fulfilledQty l; ol_cancelledQty := lq_cancelledQty f;
     ol_refundedQty := ol_refundedQty l; ol_editRemovedQty := ol_editRemovedQty l; ol_metadata := ol_metadata l |}.

Section Fingerprint.
Context (sha256 : json -> string) (localeAfter : string -> string -> bool).
Definition text_json (o : option string) : json := match o with Some s => JStr s | None => JNull end.
Definition requestFingerprint (i : RefundRequest) : string :=
  let line l := JObj [("orderLineId", JStr (ln_orderLineId l)); ("quantity", JNum (inject_Z (ln_quantity l))); ("restock", JBool (ln_restock l))]%string in
  let edit l := JObj [("orderLineId", JStr (el_orderLineId l)); ("quantity", JNum (inject_Z (el_quantity l))); ("amount", JNum (inject_Z (el_amount l)))]%string in
  sha256 (JObj ([("orderId", JStr (fq_orderId i)); ("paymentId", text_json (fq_paymentId i));
    ("amount", match fq_amount i with Some a => JNum (inject_Z a) | None => JNull end);
    ("lines", JArr (map line (sort_stable (fun a b => localeAfter (ln_orderLineId a) (ln_orderLineId b)) (fq_lines i))));
    ("restock", JBool (fq_restock i)); ("reason", text_json (fq_reason i)); ("returnId", text_json (fq_returnId i));
    ("source", if fq_orderEdit i then JStr "order_edit" else JNull)]%string ++
    (if nonempty (fq_editId i) then [("editId"%string, text_json (fq_editId i))] else []) ++
    (if fq_creditMerchandiseReturn i then [("creditMerchandiseReturn"%string, JBool true)] else []) ++
    (if is_nil (fq_editLines i) then []
     else [("editLines"%string, JArr (map edit (sort_stable (fun a b => localeAfter (el_orderLineId a) (el_orderLineId b)) (fq_editLines i))))]))).
End Fingerprint.

(** ** Receipts kept in [refund.metadata] *)

(** [{ ...metadata, ...fields }]: a later field wins. *)
Definition spread (metadata : option json) (fields : list (string * json)) : json :=
  JObj (match metadata with Some (JObj fs) => fs | _ => [] end ++ fields).
Definition reason_char (c : Ascii.ascii) : bool :=
  let n := Ascii.nat_of_ascii c in ((97 <=? n)%nat && (n <=? 122)%nat) || (n =? 95)%nat.
Fixpoint all_chars (p : Ascii.ascii -> bool) (s : string) : bool :=
  match s with EmptyString => true | String c r => p c && all_chars p r end.
(** [/^[a-z_]{1,n}$/] *)
Definition reason_ok (n : nat) (s : string) : bool := (1 <=? String.length s)%nat && (String.length s <=? n)%nat && all_chars reason_char s.
Definition kept_reason (n : nat) (v : option json) : option string :=
  match v with Some (JStr s) => if reason_ok n s then Some s else None | _ => None end.

Record StockEffects := { se_applied : bool; se_requestDigest : string; se_reason : option string }.
Definition refundStockEffectsProjection (metadata : option json) : option StockEffects :=
  let value := opt_field "stockEffects" metadata in
  match text_field "state" value, text_field "requestDigest" value with
  | Some state, Some digest =>
      if one_of ["pending"; "applied"]%string state
      then Some {| se_applied := String.eqb state "applied"; se_requestDigest := digest; se_reason := kept_reason 80 (opt_field "reason" value) |}
      else None
  | _, _ => None
  end.
Definition stock_json (e : StockEffects) : json :=
  JObj ([("state", JStr (if se_applied e then "applied" else "pending")); ("requestDigest", JStr (se_requestDigest e))]%string ++
        match se_reason e with Some r => [("reason"%string, JStr r)] | None => [] end).
Definition refundMerchandiseCompletionProjection (metadata : option json) : option (string * option string) :=
  let value := opt_field "merchandiseCompletion" metadata in
  match text_field "state" value with
  | Some state => if one_of ["pending"; "applied"; "incomplete"]%string state then Some (state, kept_reason 80 (opt_field "reason" value)) else None
  | None => None
  end.
Definition is_cents (z : Z) : bool := is_safe z && (0 <=? z) && (z <=? MAX_CREDIT_CENTS).
Definition refundCreditProjection (metadata : option json) : option (string * Z * option string) :=
  let value := opt_field "creditRestoration" metadata in
  match text_field "state" value, safe_integer (opt_field "amount" value) with
  | Some state, Some amount =>
      if one_of ["posted"; "not_applicable"; "reconciliation_required"]%string state && is_cents amount
      then Some (state, amount, kept_reason 64 (opt_field "errorCode" value)) else None
  | _, _ => None
  end.

(** ** Cash of a line *)

(** What a unit of a line is worth: nothing proven, one amount each, or one per unit. *)
Inductive UnitBasis := basis_none | basis_each (cents : Z) | basis_units (cents : list Z).
Definition refundLineCashAmount (l : OrderLine) (quantity : Z) (unit_ : UnitBasis) (creditBearing : bool) : option Z :=
  let checked amount := if is_cents amount then Some amount else None in
  match unit_ with
  | basis_none =>
      if creditBearing then None
      else checked (js_round (js_mul (if ol_quantity l =? 0 then jsn (ol_unitPrice l) else js_div (jsn (ol_lineTotal l)) (jsn (ol_quantity l))) (jsn quantity)))
  | basis_each cents => checked (cents * quantity)
  | basis_units cents => if Z.of_nat (length cents) <? quantity then None else checked (sumZ (take (Z.to_nat quantity) cents))
  end.

(** ** What other modules answer *)

(** The account-credit evidence of an order: the pending edits it was priced
    from, the refund lines its ledger already restored, and the rest. *)
Record CreditEvidence := { ev_pricingSources : list (string * option json); ev_history : list (string * string); ev_payload : json }.
(** Frozen unit selection of a refund: per line the positions in the current unit
    order and their indexes in the original one. *)
Record CreditUnitReturns := { cr_requestDigest : string; cr_lines : list (string * list nat * list (option Z)); cr_json : json }.
(** As read back from [refund.metadata]: per line the number of units still present. *)
Record FrozenReturns := { fz_version2 : bool; fz_requestDigest : string; fz_present : list (string * option Z) }.
Record CreditReservation := { rsv_metadata : option json; rsv_restored : bool; rsv_lines : list (string * Z) }.

Class RefundDeps (Y : Type) := {
  (** [account_credit_transaction]: posted redemptions of the order, and whether one came with an import *)
  postedRedemptions : SettleDb (ResTables (RefundTables Y)) -> string -> list string;
  importedRedemption : SettleDb (ResTables (RefundTables Y)) -> string -> bool;
  creditAccountCurrency : SettleDb (ResTables (RefundTables Y)) -> string -> option string;
  (** account-credit/service.ts *)
  readCurrentCreditEvidence : SettleDb (ResTables (RefundTables Y)) -> string -> result string (option CreditEvidence);
  anchorImportedCreditOrigin : SettleDb (ResTables (RefundTables Y)) -> string -> result string (SettleDb (ResTables (RefundTables Y)) * option CreditEvidence);
  restoreRefundAfterSettlement : FxDb * SettleDb (ResTables (RefundTables Y)) -> string -> string ->
    FxDb * SettleDb (ResTables (RefundTables Y)) * result string (list Z);
  (** account-credit/edit-funding.ts, money/current-credit-pricing.ts *)
  readCreditRefundEvidence : Refund -> list RefundLine -> result unit (option FrozenReturns);
  importedPricingOrigin : SettleDb (ResTables (RefundTables Y)) -> string -> bool;
  refundUnitBases : SettleDb (ResTables (RefundTables Y)) -> string -> list OrderLine -> option CreditEvidence -> result unit (list (string * UnitBasis));
  availableCreditRefundUnits : SettleDb (ResTables (RefundTables Y)) -> string -> list OrderLine -> CreditEvidence -> list CreditReservation ->
    result unit (list (string * list nat));
  prepareCreditUnitReturns : SettleDb (ResTables (RefundTables Y)) -> string -> list OrderLine -> CreditEvidence -> list Line -> list CreditReservation ->
    result unit CreditUnitReturns;
  proveCreditMerchandiseReturn : SettleDb (ResTables (RefundTables Y)) -> string -> string -> list (string * Z * option (list (option Z))) ->
    result unit (string * string);
  (** the source units of the order and the consumed ones, when it is priced by unit *)
  merchandiseUnits : SettleDb (ResTables (RefundTables Y)) -> string -> result unit (option (list string * list string));
  (** loyalty/ledger.ts, orders/order-edit-service.ts *)
  reconcileRefundLoyalty : SettleDb (ResTables (RefundTables Y)) -> string -> string -> string -> Z -> Z -> SettleDb (ResTables (RefundTables Y));
  activateRefundedEdit : FxDb * SettleDb (ResTables (RefundTables Y)) -> string -> string -> result string (FxDb * SettleDb (ResTables (RefundTables Y)));
  bindPreparedEditRefund : FxDb * SettleDb (ResTables (RefundTables Y)) -> string -> string -> string -> result string (FxDb * SettleDb (ResTables (RefundTables Y)));
  stagedEditRemovedUnits : SettleDb (ResTables (RefundTables Y)) -> string -> string -> result string (option (list (string * Z)));
  (** payments/gateway-account.ts: the original merchant account is configured and in its environment *)
  gatewayAvailable : Payment -> bool;
  recordedNmiEnvironment : option json -> string -> result string string
}.

Section Refunds.
Context {Y : Type} {sdeps : SettlementDeps (ResTables (RefundTables Y))} {rdeps : RefundDeps Y}.
Context (gen_random_uuid : nat -> string) (registeredPaymentPolicies : list (PaymentPolicy (Y := RefundTables Y))).
Abbreviation Db := (SettleDb (ResTables (RefundTables Y))).
Implicit Types (d : Db) (s : FxDb * Db).

(** ** Table updates *)

Definition tables d : RefundTables Y := rt_rest (sd_other d).
Definition with_tables d (t : RefundTables Y) : Db :=
  with_other d {| rt_reservations := rt_reservations (sd_other d); rt_attempts := rt_attempts (sd_other d); rt_rest := t |}.
Definition with_attempts d (l : list ProviderAttempt) : Db :=
  with_other d {| rt_reservations := rt_reservations (sd_other d); rt_attempts := l; rt_rest := rt_rest (sd_other d) |}.
Definition with_refunds d (l : list Refund) : Db :=
  {| sd_store := sd_store d; sd_orders := sd_orders d; sd_payments := sd_payments d; sd_ops := sd_ops d; sd_invoices := sd_invoices d;
     sd_refunds := l; sd_edits := sd_edits d; sd_audit := sd_audit d; sd_outbox := sd_outbox d; sd_fresh := sd_fresh d; sd_other := sd_other d |}.
Definition with_lines d (l : list RefundLine) : Db :=
  let t := tables d in with_tables d
  {| ft_lines := l; ft_goods := ft_goods t; ft_returns := ft_returns t; ft_licenses := ft_licenses t; ft_activations := ft_activations t;
     ft_giftCards := ft_giftCards t; ft_giftTransactions := ft_giftTransactions t; ft_customerEmails := ft_customerEmails t;
     ft_endpoints := ft_endpoints t; ft_deliveries := ft_deliveries t; ft_rest := ft_rest t |}.
Definition with_goods d (g : Goods) : Db :=
  let t := tables d in with_tables d
  {| ft_lines := ft_lines t; ft_goods := g; ft_returns := ft_returns t; ft_licenses := ft_licenses t; ft_activations := ft_activations t;
     ft_giftCards := ft_giftCards t; ft_giftTransactions := ft_giftTransactions t; ft_customerEmails := ft_customerEmails t;
     ft_endpoints := ft_endpoints t; ft_deliveries := ft_deliveries t; ft_rest := ft_rest t |}.
Definition with_returns d (l : list ReturnRequest) : Db :=
  let t := tables d in with_tables d
  {| ft_lines := ft_lines t; ft_goods := ft_goods t; ft_returns := l; ft_licenses := ft_licenses t; ft_activations := ft_activations t;
     ft_giftCards := ft_giftCards t; ft_giftTransactions := ft_giftTransactions t; ft_customerEmails := ft_customerEmails t;
     ft_endpoints := ft_endpoints t; ft_deliveries := ft_deliveries t; ft_rest := ft_rest t |}.
Definition with_licensing d (l : list License) (a : list LicenseActivation) : Db :=
  let t := tables d in with_tables d
  {| ft_lines := ft_lines t; ft_goods := ft_goods t; ft_returns := ft_returns t; ft_licenses := l; ft_activations := a;
     ft_giftCards := ft_giftCards t; ft_giftTransactions := ft_giftTransactions t; ft_customerEmails := ft_customerEmails t;
     ft_endpoints := ft_endpoints t; ft_deliveries := ft_deliveries t; ft_rest := ft_rest t |}.
Definition with_gifts d (c : list GiftCard) (x : list GiftCardTransaction) : Db :=
  let t := tables d in with_tables d
  {| ft_lines := ft_lines t; ft_goods := ft_goods t; ft_returns := ft_returns t; ft_licenses := ft_licenses t; ft_activations := ft_activations t;
     ft_giftCards := c; ft_giftTransactions := x; ft_customerEmails := ft_customerEmails t;
     ft_endpoints := ft_endpoints t; ft_deliveries := ft_deliveries t; ft_rest := ft_rest t |}.
Definition with_deliveries d (l : list (string * string * json)) : Db :=
  let t := tables d in with_tables d
  {| ft_lines := ft_lines t; ft_goods := ft_goods t; ft_returns := ft_returns t; ft_licenses := ft_licenses t; ft_activations := ft_activations t;
     ft_giftCards := ft_giftCards t; ft_giftTransactions := ft_giftTransactions t; ft_customerEmails := ft_customerEmails t;
     ft_endpoints := ft_endpoints t; ft_deliveries := l; ft_rest := ft_rest t |}.

Definition refund_row d (id : string) : option Refund := List.find (fun r => String.eqb (rf_id r) id) (sd_refunds d).
Definition refund_of_attempt d (attemptId : string) : option Refund := List.find (fun r => bool_decide (rf_attemptId r = Some attemptId)) (sd_refunds d).
Definition attempt_row d (id : string) : option ProviderAttempt := List.find (fun a => String.eqb (va_id a) id) (rt_attempts (sd_other d)).
Definition lines_of d (refundId : string) : list RefundLine := List.filter (fun l => String.eqb (fl_refundId l) refundId) (ft_lines (tables d)).
Definition order_lines d (orderId : string) : list OrderLine := List.filter (fun l => String.eqb (ol_orderId l) orderId) (gd_lines (ft_goods (tables d))).

Definition set_refund_metadata (metadata : json) (r : Refund) : Refund :=
  {| rf_id := rf_id r; rf_orderId := rf_orderId r; rf_paymentId := rf_paymentId r; rf_amount := rf_amount r; rf_state := rf_state r;
     rf_metadata := Some metadata; rf_attemptId := rf_attemptId r; rf_reason := rf_reason r; rf_providerRef := rf_providerRef r;
     rf_itemsAmount := rf_itemsAmount r; rf_shippingAmount := rf_shippingAmount r; rf_adjustmentAmount := rf_adjustmentAmount r |}.
Definition set_refund_state (state : RefundState) (providerRef : option string) (r : Refund) : Refund :=
  {| rf_id := rf_id r; rf_orderId := rf_orderId r; rf_paymentId := rf_paymentId r; rf_amount := rf_amount r; rf_state := state;
     rf_metadata := rf_metadata r; rf_attemptId := rf_attemptId r; rf_reason := rf_reason r; rf_providerRef := providerRef;
     rf_itemsAmount := rf_itemsAmount r; rf_shippingAmount := rf_shippingAmount r; rf_adjustmentAmount := rf_adjustmentAmount r |}.
Definition update_refund d (id : string) (f : Refund -> Refund) : Db := with_refunds d (set_where (fun r => String.eqb (rf_id r) id) f (sd_refunds d)).
Definition write_metadata d (id : string) (metadata : json) : Db := update_refund d id (set_refund_metadata metadata).
Definition set_attempt (status : string) (providerRef : option string) (answer : option json) (now : Z) (a : ProviderAttempt) : ProviderAttempt :=
  {| va_id := va_id a; va_orderId := va_orderId a; va_paymentId := va_paymentId a; va_operation := va_operation a; va_method := va_method a;
     va_accountId := va_accountId a; va_mode := va_mode a; va_amount := va_amount a; va_currency := va_currency a;
     va_idempotencyKey := va_idempotencyKey a; va_fingerprint := va_fingerprint a; va_status := status; va_providerRef := providerRef;
     va_context := va_context a; va_result := answer; va_updatedAt := now |}.
Definition update_attempt d (id : string) (f : ProviderAttempt -> ProviderAttempt) : Db :=
  with_attempts d (set_where (fun a => String.eqb (va_id a) id) f (rt_attempts (sd_other d))).
Definition set_order (state : option OrderState) (updatedAt : Z) (o : Order) : Order :=
  {| so_id := so_id o; so_code := so_code o; so_state := or_else state (so_state o); so_currency := so_currency o; so_grandTotal := so_grandTotal o;
     so_customerId := so_customerId o; so_idempotencyKey := so_idempotencyKey o; so_metadata := so_metadata o; so_placedAt := so_placedAt o;
     so_updatedAt := updatedAt; so_deletedAt := so_deletedAt o |}.
Definition update_order d (id : string) (state : option OrderState) (now : Z) : Db :=
  with_orders d (set_where (fun o => String.eqb (so_id o) id) (set_order state now) (sd_orders d)).

(** ** Views *)

Record RefundView := {
  vw_refundId : string; vw_refundState : RefundState; vw_state : OrderState; vw_refunded : Z; vw_pending : Z;
  vw_creditRestoration : option (string * Z * option string); vw_stockEffects : option StockEffects;
  vw_merchandiseCompletion : option (string * option string)
}.
Definition refundView d (r : Refund) : result RefundError RefundView :=
  match order_row d (rf_orderId r) with
  | None => Err (RefundAborted "order row is missing")
  | Some o => Ok {| vw_refundId := rf_id r; vw_refundState := rf_state r; vw_state := so_state o;
                    vw_refunded := if bool_decide (rf_state r = ref_Settled) then rf_amount r else 0;
                    vw_pending := if bool_decide (rf_state r = ref_Pending) then rf_amount r else 0;
                    vw_creditRestoration := refundCreditProjection (rf_metadata r);
                    vw_stockEffects := refundStockEffectsProjection (rf_metadata r);
                    vw_merchandiseCompletion := refundMerchandiseCompletionProjection (rf_metadata r) |}
  end.
Definition current_view s (refundId : string) : result RefundError (FxDb * Db * RefundView) :=
  match refund_row (snd s) refundId with
  | None => Err (RefundAborted "refund row is missing")
  | Some r => let! v := refundView (snd s) r in Ok (s, v)
  end.

(** ** Money *)

Definition isDuplicatePayment (p : Payment) : bool := match opt_field "duplicate" (py_metadata p) with Some (JBool true) => true | _ => false end.
Definition settled_of (orderId : string) (p : Payment) : bool := String.eqb (py_orderId p) orderId && bool_decide (py_state p = pay_Settled).
Record RefundBasis := { rb_captured : Z; rb_refunded : Z; rb_editRefunded : Z }.
Definition orderRefundBasis d (orderId : string) : RefundBasis :=
  let allRefunds := List.filter (fun r => String.eqb (rf_orderId r) orderId && bool_decide (rf_state r = ref_Settled)) (sd_refunds d) in
  let payments := List.filter (fun p => negb (isDuplicatePayment p)) (List.filter (settled_of orderId) (sd_payments d)) in
  let refunds := List.filter (fun r => one_of (map py_id payments) (rf_paymentId r)) allRefunds in
  let editRefunded := sumZ (map rf_amount (List.filter (fun r => isEditRefund (rf_metadata r)) refunds)) in
  {| rb_captured := sumZ (map py_amount payments) - editRefunded;
     rb_refunded := sumZ (map rf_amount (List.filter (fun r => negb (isEditRefund (rf_metadata r))) refunds));
     rb_editRefunded := editRefunded |}.
Definition refundStateFromBasis (b : RefundBasis) : option OrderState :=
  if rb_refunded b <=? 0 then None
  else Some (if (0 <? rb_captured b) && (rb_captured b <=? rb_refunded b) then Refunded else PartiallyRefunded).

(** ** Stock and quantity effects, in a savepoint *)

Definition return_units (refund_actor : option string) (orderId : string) (imported : bool) (frozen : option FrozenReturns) (g : Goods) (l : RefundLine) :
    result unit Goods :=
  let selected := match frozen with Some f => if fz_version2 f then assoc_last (fl_orderLineId l) (rev (fz_present f)) else None | None => None end in
  let present := mjoin selected in
  guard! negb (imported && negb (is_some present)) or tt in
  let currentQuantity := or_else present (fl_quantity l) in
  match List.find (fun r => String.eqb (ol_id r) (fl_orderLineId l)) (gd_lines g) with
  | None => Err tt
  | Some r =>
      guard! String.eqb (ol_orderId r) orderId or tt in
      let unfulfilled := Z.min currentQuantity (Z.max 0 (ol_quantity r - ol_fulfilledQty r - ol_cancelledQty r)) in
      let returned := currentQuantity - unfulfilled in
      let take_back x := {| ol_id := ol_id x; ol_orderId := ol_orderId x; ol_variantId := ol_variantId x; ol_quantity := ol_quantity x;
        ol_unitPrice := ol_unitPrice x; ol_lineTotal := ol_lineTotal x; ol_fulfilledQty := ol_fulfilledQty x;
        ol_cancelledQty := ol_cancelledQty x + unfulfilled; ol_refundedQty := ol_refundedQty x + fl_quantity l;
        ol_editRemovedQty := ol_editRemovedQty x; ol_metadata := ol_metadata x |} in
      let lines := set_where (fun x => String.eqb (ol_id x) (ol_id r)) take_back (gd_lines g) in
      match ol_variantId r with
      | None => Ok {| gd_lines := lines; gd_stock := gd_stock g; gd_movements := gd_movements g |}
      | Some v =>
          let of_variant x := String.eqb (stk_variantId x) v in
          let stock1 := if unfulfilled =? 0 then gd_stock g
            else set_where of_variant (fun x => {| stk_variantId := stk_variantId x; stk_onHand := stk_onHand x;
                                                   stk_allocated := Z.max 0 (stk_allocated x - unfulfilled) |}) (gd_stock g) in
          if fl_restock l && negb (returned =? 0) then
            Ok {| gd_lines := lines;
                  gd_stock := set_where of_variant (fun x => {| stk_variantId := stk_variantId x; stk_onHand := stk_onHand x + returned;
                                                                stk_allocated := stk_allocated x |}) stock1;
                  gd_movements := gd_movements g ++ [{| sm_variantId := v; sm_delta := returned; sm_refOrderId := orderId; sm_actor := refund_actor |}] |}
          else Ok {| gd_lines := lines; gd_stock := stock1; gd_movements := gd_movements g |}
      end
  end.
(** The receipt's digest, then the effects of every line. *)
Definition stock_attempt d (orderId : string) (r : Refund) (lines : list RefundLine) (fingerprint : string) : string * result unit Goods :=
  let prior := refundStockEffectsProjection (rf_metadata r) in
  let digest := match prior with Some p => se_requestDigest p | None => fingerprint end in
  match readCreditRefundEvidence r lines with
  | Err _ => (digest, Err tt)
  | Ok frozen =>
      let differs := match prior, frozen with Some p, Some f => negb (String.eqb (se_requestDigest p) (fz_requestDigest f)) | _, _ => false end in
      if differs then (digest, Err tt)
      else
        let digest := match frozen with Some f => fz_requestDigest f | None => digest end in
        let needsPresenceProof := negb (is_nil lines) &&
          match frozen with Some f => negb (fz_version2 f) || existsb (fun q => negb (is_some (snd q))) (fz_present f) | None => true end in
        let imported := needsPresenceProof && (importedPricingOrigin d orderId || importedRedemption d orderId) in
        (digest, fold_result (return_units (text_field "actor" (rf_metadata r)) orderId imported frozen) (ft_goods (tables d)) lines)
  end.
Definition applyRefundStockEffects d (orderId : string) (r : Refund) (lines : list RefundLine) (fingerprint : string) : Db * StockEffects :=
  match refundStockEffectsProjection (rf_metadata r) with
  | Some ({| se_applied := true |} as prior) => (d, prior)
  | _ =>
      let '(digest, outcome) := stock_attempt d orderId r lines fingerprint in
      let '(d1, e) := match outcome with
        | Ok g => (with_goods d g, {| se_applied := true; se_requestDigest := digest; se_reason := None |})
        | Err _ => (d, {| se_applied := false; se_requestDigest := digest; se_reason := Some "stock_effects_reconciliation_required"%string |})
        end in
      (write_metadata d1 (rf_id r) (spread (rf_metadata r) [("stockEffects"%string, stock_json e)]), e)
  end.

(** ** Merchandise proof, licences, gift cards, messages *)

Definition fullCreditMerchandiseProof d (orderId : string) : bool * bool :=
  match merchandiseUnits d orderId with
  | Err _ => (false, true)
  | Ok (Some (domain, used)) => (negb (is_nil domain) && forallb (one_of used) domain, false)
  | Ok None => let lines := map billed_line (order_lines d orderId) in
               (negb (is_nil lines) && forallb (fun l => refundQuantity l <=? ol_refundedQty l) lines, false)
  end.
Definition revokeRefundLicenses (now : Z) d (orderId : string) : Db :=
  let of_order l := bool_decide (lce_orderId l = Some orderId) in
  let t := tables d in
  let ids := map lce_id (List.filter of_order (ft_licenses t)) in
  with_licensing d
    (set_where of_order (fun l => {| lce_id := lce_id l; lce_orderId := lce_orderId l; lce_status := "revoked"; lce_updatedAt := now |}) (ft_licenses t))
    (set_where (fun a => one_of ids (lca_licenseId a) && String.eqb (lca_state a) "active")
       (fun a => {| lca_licenseId := lca_licenseId a; lca_state := "revoked"; lca_revokedAt := Some now; lca_generation := lca_generation a + 1;
                    lca_updatedAt := now |}) (ft_activations t)).
Definition creditGiftCardRefund (now : Z) d (orderId : string) (amount : Z) : result RefundError Db :=
  let t := tables d in
  match last (List.filter (fun x => bool_decide (gct_orderId x = Some orderId) && (gct_amount x <? 0)) (ft_giftTransactions t)) with
  | None => Err (RefundAborted "no gift-card redemption found to credit back")
  | Some redemption =>
      Ok (with_gifts d
        (set_where (fun c => String.eqb (gcd_id c) (gct_giftCardId redemption))
           (fun c => {| gcd_id := gcd_id c; gcd_balance := gcd_balance c + amount; gcd_updatedAt := now |}) (ft_giftCards t))
        (ft_giftTransactions t ++ [{| gct_giftCardId := gct_giftCardId redemption; gct_orderId := Some orderId; gct_amount := amount |}]))
  end.
Definition emitEvent d (topic : string) (payload : json) : Db :=
  let matched := List.filter (fun e => one_of (snd e) "*" || one_of (snd e) topic) (ft_endpoints (tables d)) in
  with_deliveries d (ft_deliveries (tables d) ++ map (fun e => (fst e, topic, payload)) matched).
Definition enqueueRefundSettledEmail d (r : Refund) : Db :=
  match order_row d (rf_orderId r) with
  | None => d
  | Some o =>
      if importedFinancialReconciliationRequired (so_metadata o) then d
      else
        let contact := text_field "email" (opt_field "contact" (so_metadata o)) in
        let customer := so_customerId o ≫= fun c => assoc_last c (ft_customerEmails (tables d)) in
        let recipient := normalizeEmail (or_else (if nonempty contact then contact else if nonempty customer then customer else None) EmptyString) in
        if String.eqb recipient EmptyString then d
        else enqueueEmail d "order-refund-confirmation" recipient ("refund_confirmation:" ++ rf_id r)%string
  end.
Definition order_refunded_op d (orderId : string) : SettlementOperation :=
  {| op_storeId := sd_store d; op_kind := order_refunded; op_operationId := orderId; op_provider := None; op_classification := None;
     op_resolution := None; op_disposition := None; op_orderId := Some orderId; op_mutations := [];
     op_effects := [request "entitlement_reversal" [("orderId", JStr orderId); ("reason", JStr "full_refund")]%string]; op_effectMode := Some mode_deferred |}.
Definition release_holds (now : Z) s (orderId refundId : string) : result RefundError (FxDb * Db) :=
  match releaseOnFullRefundOrDefer registeredPaymentPolicies now (snd s) orderId (Some refundId) with
  | Ok (d', _, _) => Ok (fst s, d')
  | Err e => Err (ReleaseFailed e)
  end.
Definition reverse_entitlements (now : Z) s (orderId : string) : result RefundError (FxDb * Db) :=
  match recordSettlementOperation gen_random_uuid now s (order_refunded_op (snd s) orderId) with
  | Ok (s', _) => Ok s'
  | Err e => Err (SettlementFailed e)
  end.

(** A savepoint: a failure of [f] keeps nothing it wrote. *)
Definition retryCreditMerchandiseCompletion (now : Z) s (o : Order) (r : Refund) : FxDb * Db :=
  if negb (bool_decide (text_field "authority" (rf_metadata r) = Some "credit_merchandise"%string) && (rf_amount r =? 0)) then s
  else if bool_decide (option_map fst (refundMerchandiseCompletionProjection (rf_metadata r)) = Some "applied"%string) then s
  else
    let note (fields : list (string * json)) s' : FxDb * Db :=
      (fst s', write_metadata (snd s') (rf_id r) (spread (rf_metadata r) [("merchandiseCompletion"%string, JObj fields)])) in
    let attempt :=
      let '(full, pending) := fullCreditMerchandiseProof (snd s) (so_id o) in
      let basis := orderRefundBasis (snd s) (so_id o) in
      guard! negb pending or RefundAborted "Merchandise completion proof requires reconciliation" in
      let fullReversal := full && (rb_captured basis <=? rb_refunded basis) in
      let! s1 :=
        if fullReversal then
          let s1 := (fst s, revokeRefundLicenses now (snd s) (so_id o)) in
          if bool_decide (so_state o = Cancelled) then Ok s1
          else let! s2 := release_holds now (fst s1, update_order (snd s1) (so_id o) (Some Refunded) now) (so_id o) (rf_id r) in
               reverse_entitlements now s2 (so_id o)
        else Ok s in
      Ok (note [("state", JStr (if fullReversal then "applied" else "incomplete"))]%string s1) in
    match attempt with
    | Ok s1 => s1
    | Err _ => note [("state", JStr "pending"); ("reason", JStr "merchandise_completion_reconciliation_required")]%string s
    end.

(** Credit follows settled money; a failed posting leaves a receipt that a replay retries. *)
Definition restoreSettledRefundCredit s (r : Refund) : FxDb * Db :=
  match payment_row (snd s) (rf_paymentId r) with
  | Some p =>
      if negb (bool_decide (rf_state r = ref_Settled)) || isDuplicatePayment p || isEditRefund (rf_metadata r) then s
      else
        let '(s1, outcome) := restoreRefundAfterSettlement s (rf_orderId r) (rf_id r) in
        let receipt := match outcome with
          | Ok entries => [("state", JStr (if is_nil entries then "not_applicable" else "posted")); ("amount", JNum (inject_Z (sumZ entries)))]
          | Err code => [("state", JStr "reconciliation_required"); ("amount", JNum 0); ("errorCode", JStr code)]
          end%string in
        (fst s1, write_metadata (snd s1) (rf_id r) (spread (rf_metadata r) [("creditRestoration"%string, JObj receipt)]))
  | None => s
  end.

(** ** finalizeRefund *)

Definition refund_state_text (st : RefundState) : string := match st with ref_Pending => "Pending" | ref_Settled => "Settled" | ref_Failed => "Failed" end.
Definition attempt_status (st : RefundState) (providerRef : option string) : string :=
  match st with ref_Settled => "settled" | ref_Failed => "failed" | ref_Pending => if nonempty providerRef then "pending" else "unknown" end.
Definition state_result (st : RefundState) : option json := Some (JObj [("state", JStr (refund_state_text st))]%string).
Definition refs_differ (stored given : option string) : bool := nonempty stored && nonempty given && negb (bool_decide (stored = given)).
Definition refund_actor (r : Refund) : string := or_else (text_field "actor" (rf_metadata r)) "gateway:reconciliation"%string.
Definition refund_audit (r : Refund) (action : string) (o : Order) (to : option OrderState) (data : list (string * json)) : AuditRow :=
  {| au_actor := refund_actor r; au_entity := "order"; au_entityId := so_id o; au_action := action; au_fromState := Some (so_state o);
     au_toState := to; au_data := JObj data |}%string.
Definition order_state_text (st : OrderState) : string :=
  match st with PendingPayment => "PendingPayment" | Paid => "Paid" | PartiallyRefunded => "PartiallyRefunded" | Refunded => "Refunded" | Cancelled => "Cancelled" end.
Definition state_json (st : option OrderState) : json := match st with Some x => JStr (order_state_text x) | None => JNull end.
Definition refunded_event (r : Refund) (o : Order) (st : option OrderState) : json :=
  JObj [("code", JStr (so_code o)); ("amount", JNum (inject_Z (rf_amount r))); ("state", state_json st); ("refundId", JStr (rf_id r))]%string.
Definition money_data (r : Refund) : list (string * json) := [("refundId", JStr (rf_id r)); ("amount", JNum (inject_Z (rf_amount r)))]%string.
Definition audited d (row : AuditRow) : Db := with_audit d (sd_audit d ++ [row]).
(** The row as the code holds it: [{ ...refund, ... }]. *)
Definition seen (r : Refund) (st : RefundState) (providerRef : option string) (metadata : option json) : Refund :=
  match metadata with Some m => set_refund_metadata m (set_refund_state st providerRef r) | None => set_refund_state st providerRef r end.

(** A quarantined order: the observation is recorded, nothing else moves. *)
Definition finalize_quarantined (now : Z) s (a : ProviderAttempt) (r : Refund) (answer : RefundResult) : result RefundError (FxDb * Db * RefundView) :=
  guard! negb (refs_differ (rf_providerRef r) (rr_providerRef answer)) or RefundRefused 409 "Refund reference mismatch" in
  let st := if bool_decide (rf_state r = ref_Settled) then ref_Settled
            else if bool_decide (rf_state r = ref_Failed) && negb (bool_decide (rr_state answer = ref_Settled)) then ref_Failed else rr_state answer in
  let providerRef := or_some (rr_providerRef answer) (rf_providerRef r) in
  let metadata := spread (rf_metadata r) [("financialReconciliation"%string,
    JObj [("state", JStr "required"); ("errorCode", JStr "IMPORTED_FINANCIAL_RECONCILIATION_REQUIRED")]%string)] in
  let d1 := update_refund (snd s) (rf_id r) (fun x => seen x st providerRef (Some metadata)) in
  let d2 := update_attempt d1 (va_id a) (set_attempt (attempt_status st providerRef) providerRef (state_result st) now) in
  let! v := refundView d2 (seen r st providerRef (Some metadata)) in
  Ok (fst s, d2, v).

(** Already settled: adopt a late reference and retry what was deferred. *)
Definition finalize_replay (now : Z) s (o : Order) (a : ProviderAttempt) (r : Refund) (answer : RefundResult) : result RefundError (FxDb * Db * RefundView) :=
  let d := snd s in
  let d1 := if negb (nonempty (rf_providerRef r)) && nonempty (rr_providerRef answer)
    then update_attempt (update_refund d (rf_id r) (fun x => seen x (rf_state x) (rr_providerRef answer) None)) (va_id a)
           (fun x => set_attempt (va_status x) (rr_providerRef answer) (va_result x) now x)
    else d in
  let '(d2, replayRefund) :=
    if bool_decide (text_field "state" (opt_field "stockEffects" (rf_metadata r)) = Some "pending"%string) then
      let '(d2, e) := applyRefundStockEffects d1 (so_id o) r (lines_of d1 (rf_id r)) (va_fingerprint a) in
      (d2, set_refund_metadata (spread (rf_metadata r) [("stockEffects"%string, stock_json e)]) r)
    else (d1, r) in
  let s3 := restoreSettledRefundCredit (fst s, d2) replayRefund in
  let! s4 :=
    if String.eqb (va_method a) "credit_merchandise" then
      match refund_row (snd s3) (rf_id r) with
      | Some restored => Ok (retryCreditMerchandiseCompletion now s3 o restored)
      | None => Err (RefundAborted "refund row is missing")
      end
    else Ok s3 in
  let! s5 :=
    if isEditRefund (rf_metadata r) then
      match activateRefundedEdit s4 (so_id o) (rf_id r) with Ok s' => Ok s' | Err m => Err (RefundAborted m) end
    else Ok s4 in
  current_view s5 (rf_id r).

(** An edit's difference: money only. *)
Definition settle_edit_refund (now : Z) s (o : Order) (a : ProviderAttempt) (r : Refund) : result RefundError (FxDb * Db * RefundView) :=
  let lines := lines_of (snd s) (rf_id r) in
  guard! bool_decide (rf_shippingAmount r = Some 0) && negb (nonempty (text_field "returnId" (rf_metadata r))) &&
         bool_decide (rf_itemsAmount r = Some (sumZ (map fl_amount lines))) or RefundRefused 409 "Order edit refund must be money-only" in
  let! d1 := if String.eqb (va_method a) "gift_card" then creditGiftCardRefund now (snd s) (so_id o) (rf_amount r) else Ok (snd s) in
  let d2 := write_metadata d1 (rf_id r) (spread (rf_metadata r) [("effectsApplied"%string, JBool true)]) in
  let! s3 := match activateRefundedEdit (fst s, d2) (so_id o) (rf_id r) with Ok s' => Ok s' | Err m => Err (RefundAborted m) end in
  let d4 := audited (snd s3) (refund_audit r "refund" o (Some (so_state o)) (money_data r)) in
  let d5 := enqueueRefundSettledEmail (emitEvent d4 "order.refunded" (refunded_event r o (Some (so_state o)))) r in
  current_view (fst s3, d5) (rf_id r).

(** A returned duplicate capture leaves the order, its lines, stock, loyalty and licences as they were. *)
Definition settle_duplicate_refund s (o : Order) (r : Refund) (details : json) (p : Payment) : FxDb * Db * RefundView :=
  let d1 := write_metadata (snd s) (rf_id r) (spread (Some details) [("effectsApplied"%string, JBool true); ("duplicate"%string, JBool true)]) in
  let d2 := audited d1 (refund_audit r "duplicate_payment_refunded" o (Some (so_state o))
    [("refundId", JStr (rf_id r)); ("paymentId", JStr (py_id p)); ("amount", JNum (inject_Z (rf_amount r))); ("providerRef", text_json (py_providerRef p))]%string) in
  (fst s, enqueueRefundSettledEmail d2 r,
   {| vw_refundId := rf_id r; vw_refundState := ref_Settled; vw_state := so_state o; vw_refunded := rf_amount r; vw_pending := 0;
      vw_creditRestoration := None; vw_stockEffects := None; vw_merchandiseCompletion := None |}).

Definition refunded_state (o : Order) (creditMerchandise fullReversal : bool) (basis : RefundBasis) (edit : bool) : option OrderState :=
  if bool_decide (so_state o = Cancelled) then Some Cancelled
  else if creditMerchandise then Some (if bool_decide (so_state o = Refunded) || fullReversal then Refunded else PartiallyRefunded)
  else if edit && (rb_refunded basis <? rb_captured basis) then None
  else Some (if rb_captured basis <=? rb_refunded basis then Refunded else PartiallyRefunded).
Definition proof_json (pending fullReversal : bool) : json :=
  JObj (if pending then [("state", JStr "pending"); ("reason", JStr "merchandise_completion_reconciliation_required")]
        else [("state", JStr (if fullReversal then "applied" else "incomplete"))])%string.

(** The return, the receipt, the audit row and the messages. *)
Definition record_settlement d (o : Order) (r : Refund) (details final : json) (state : option OrderState) : Db :=
  let returnId := text_field "returnId" (Some details) in
  let d1 := if nonempty returnId
    then with_returns d (set_where (fun q => bool_decide (Some (rma_id q) = returnId) && String.eqb (rma_orderId q) (so_id o))
           (fun q => {| rma_id := rma_id q; rma_orderId := rma_orderId q; rma_status := "refunded"; rma_refundId := Some (rf_id r);
                        rma_reason := rma_reason q; rma_lines := rma_lines q |}) (ft_returns (tables d)))
    else d in
  let d2 := audited (write_metadata d1 (rf_id r) final) (refund_audit r "refund" o state (money_data r)) in
  enqueueRefundSettledEmail (emitEvent d2 "order.refunded" (refunded_event r o state)) r.

(** Money of an order's refund is settled for the first time. *)
Definition settle_order_refund (now : Z) s (o : Order) (r : Refund) (creditMerchandise : bool) (details0 : json) : result RefundError (FxDb * Db * RefundView) :=
  let orderId := so_id o in
  let basis := orderRefundBasis (snd s) orderId in
  let d1 := if isEditRefund (rf_metadata r) then snd s
            else reconcileRefundLoyalty (snd s) orderId (rf_id r) (refund_actor r) (rb_refunded basis) (rb_captured basis) in
  let '(full, pending) := if creditMerchandise then fullCreditMerchandiseProof d1 orderId else (false, false) in
  let fullReversal := if creditMerchandise then full && (rb_captured basis <=? rb_refunded basis)
                      else (0 <? rb_captured basis) && (rb_captured basis <=? rb_refunded basis) in
  let details := if creditMerchandise then spread (Some details0) [("merchandiseCompletion"%string, proof_json pending fullReversal)] else details0 in
  let d2 := if fullReversal then revokeRefundLicenses now d1 orderId else d1 in
  let state := refunded_state o creditMerchandise fullReversal basis (isEditRefund (rf_metadata r)) in
  let d3 := update_order d2 orderId state now in
  let reverses := bool_decide (state = Some Refunded) && (negb creditMerchandise || fullReversal) in
  let! s4 := if reverses then release_holds now (fst s, d3) orderId (rf_id r) else Ok (fst s, d3) in
  let! s5 := if reverses then reverse_entitlements now s4 orderId else Ok s4 in
  let final := spread (Some details) [("effectsApplied"%string, JBool true)] in
  let s6 := (fst s5, record_settlement (snd s5) o r details final state) in
  current_view (restoreSettledRefundCredit s6 (seen r ref_Settled (rf_providerRef r) (Some final))) (rf_id r).

Definition finalizeRefund (now : Z) s (attemptId : string) (answer : RefundResult) : result RefundError (FxDb * Db * RefundView) :=
  let d := snd s in
  match attempt_row d attemptId with
  | None => Err (RefundRefused 404 "Refund attempt not found")
  | Some a =>
      guard! String.eqb (va_operation a) "refund" or RefundRefused 404 "Refund attempt not found" in
      match order_row d (va_orderId a), refund_of_attempt d attemptId with
      | Some o, Some r =>
          if importedFinancialReconciliationRequired (so_metadata o) then finalize_quarantined now s a r answer
          else if bool_decide (rf_state r = ref_Settled) then finalize_replay now s o a r answer
          else
            guard! negb (refs_differ (rf_providerRef r) (rr_providerRef answer)) or RefundRefused 409 "Refund reference mismatch" in
            let st := rr_state answer in
            if bool_decide (rf_state r = ref_Failed) && negb (bool_decide (st = ref_Settled)) then let! v := refundView d r in Ok (s, v)
            else
              let providerRef := or_some (rr_providerRef answer) (rf_providerRef r) in
              let d1 := update_refund d (rf_id r) (set_refund_state st providerRef) in
              let d2 := update_attempt d1 (va_id a) (set_attempt (attempt_status st providerRef) providerRef (state_result st) now) in
              if negb (bool_decide (st = ref_Settled)) then let! v := refundView d2 (set_refund_state st providerRef r) in Ok (fst s, d2, v)
              else if isEditRefund (rf_metadata r) then settle_edit_refund now (fst s, d2) o a r
              else
                let '(d3, e) := applyRefundStockEffects d2 (so_id o) r (lines_of d2 (rf_id r)) (va_fingerprint a) in
                let details := spread (rf_metadata r) [("stockEffects"%string, stock_json e)] in
                let creditMerchandise := String.eqb (va_method a) "credit_merchandise" &&
                  bool_decide (text_field "authority" (rf_metadata r) = Some "credit_merchandise"%string) && (rf_amount r =? 0) in
                let! d4 := if String.eqb (va_method a) "gift_card" then creditGiftCardRefund now d3 (so_id o) (rf_amount r) else Ok d3 in
                match payment_row d4 (rf_paymentId r) with
                | Some p => if isDuplicatePayment p then Ok (settle_duplicate_refund (fst s, d4) o r details p)
                            else settle_order_refund now (fst s, d4) o r creditMerchandise details
                | None => settle_order_refund now (fst s, d4) o r creditMerchandise details
                end
      | _, _ => Err (RefundRefused 409 "Refund reservation is incomplete")
      end
  end.
End Refunds.
