(* ===== verification/RefundRequest.v ===== *)
(** Requesting a refund: [requestRefund] of [src/packages/api/src/payments/refunds.ts].

    [prepareRefund] is the first transaction: it refuses, answers an earlier
    request with the same key, or reserves money and units and writes a pending
    refund with its provider attempt. [requestRefund] then asks the provider and
    finalizes. The advisory lock of the order's refunds and the order's lock set
    make the first transaction run alone. *)

From S2P Require Import LoyaltyLedger AccountCredit.
From S2P Require Import Prelude JsNumber Json OrderState LineQuantity Tender Effects Settlement Settle Reservation Refunds.
From Stdlib Require Import ZArith QArith Lia Bool String.
From stdpp Require Import base list strings.
Local Open Scope Z_scope.

Definition SUPPORTED_PAYMENT_METHODS : list string := ["manual"; "cod"; "stripe"; "gift_card"; "nmi"; "sezzle"]%string.
Definition truthy_number (n : option Z) : bool := match n with Some z => negb (z =? 0) | None => false end.
Definition refuse (message : string) : RefundError := RefundRefused 409 message.
Definition CASH_REFUNDABLE : list OrderState := [Paid; PartiallyRefunded; Cancelled].

(** ** Refusals that need no row *)

Definition edit_line_ok (l : EditLine) : bool :=
  negb (String.eqb (el_orderLineId l) EmptyString) && is_safe (el_quantity l) && (1 <=? el_quantity l) && is_safe (el_amount l) && (0 <=? el_amount l).
Definition check_request (i : RefundRequest) : result RefundError unit :=
  guard! (1 <=? String.length (fq_idempotencyKey i))%nat && (String.length (fq_idempotencyKey i) <=? 200)%nat
    or RefundRefused 400 "A refund idempotency key is required" in
  guard! negb (nonempty (fq_editId i) && negb (fq_orderEdit i)) or RefundRefused 400 "Edit identity requires an order edit refund" in
  guard! negb (negb (is_nil (fq_editLines i)) && negb (fq_orderEdit i)) or RefundRefused 400 "Edit refund lines require an order edit refund" in
  guard! forallb edit_line_ok (fq_editLines i) && bool_decide (NoDup (map el_orderLineId (fq_editLines i)))
    or RefundRefused 400 "Invalid order edit refund lines" in
  guard! negb (fq_orderEdit i && (negb (is_nil (fq_lines i)) || nonempty (fq_returnId i) || fq_restock i || truthy_number (fq_shippingAmount i) ||
                                  fq_creditMerchandiseReturn i)) or refuse "Order edit refunds transfer money only" in
  Ok tt.

Inductive Prepared :=
  | Existing (view : RefundView)
  | Reserved (attemptId : string) (payment : Payment) (amount : Z) (currency : string) (creditMerchandise : bool).

(** A line to refund with its cash; an edit's removed units. *)
Record Selected := { sl_line : Line; sl_amount : Z }.

Section Request.
Context {Y : Type} {sdeps : SettlementDeps (ResTables (RefundTables Y))} {rdeps : RefundDeps Y}.
Context (gen_random_uuid : nat -> string) (registeredPaymentPolicies : list (PaymentPolicy (Y := RefundTables Y))).
Context (sha256 : json -> string) (localeAfter : string -> string -> bool).
Abbreviation Db := (SettleDb (ResTables (RefundTables Y))).
Abbreviation finalize := (finalizeRefund gen_random_uuid registeredPaymentPolicies).
Implicit Types (d : Db) (s : FxDb * Db).

(** ** The same key again *)

Definition prior_attempt d (key : string) : option ProviderAttempt :=
  List.find (fun a => String.eqb (va_idempotencyKey a) key) (rt_attempts (sd_other d)).
Definition resume_prior (now : Z) s (orderId fingerprint : string) (prior : ProviderAttempt) : result RefundError (FxDb * Db * Prepared) :=
  guard! String.eqb (va_operation prior) "refund" && String.eqb (va_orderId prior) orderId && String.eqb (va_fingerprint prior) fingerprint
    or refuse "Idempotency key belongs to another refund" in
  match refund_of_attempt (snd s) (va_id prior) with
  | None => Err (refuse "Refund reservation requires reconciliation")
  | Some r =>
      let merchandise := String.eqb (va_method prior) "credit_merchandise" in
      let settled := bool_decide (rf_state r = ref_Settled) in
      let resumeInternal := merchandise && bool_decide (rf_state r = ref_Pending) &&
        bool_decide (text_field "authority" (rf_metadata r) = Some "credit_merchandise"%string) in
      let resumeStock := settled && match refundStockEffectsProjection (rf_metadata r) with Some e => negb (se_applied e) | None => false end in
      let! s1 :=
        if resumeInternal then let! q := finalize now s (va_id prior) {| rr_state := ref_Settled; rr_providerRef := None |} in Ok (fst q)
        else if settled then
          if isEditRefund (rf_metadata r) || resumeStock || merchandise
          then let! q := finalize now s (va_id prior) {| rr_state := ref_Settled; rr_providerRef := rf_providerRef r |} in Ok (fst q)
          else Ok (restoreSettledRefundCredit s r)
        else Ok s in
      let! q := current_view s1 (rf_id r) in
      Ok (fst q, Existing (snd q))
  end.

(** ** Which payment, which lines *)

Definition settled_payments d (orderId : string) : list Payment := List.filter (settled_of orderId) (sd_payments d).
Definition merchandise_of_refunded (o : Order) (i : RefundRequest) : bool := fq_creditMerchandiseReturn i && bool_decide (so_state o = Refunded).
(** A duplicate capture is refundable whatever the order's own state. *)
Definition refundable_state (o : Order) (i : RefundRequest) : bool :=
  state_in CASH_REFUNDABLE (so_state o) || merchandise_of_refunded o i || (nonempty (fq_paymentId i) && negb (bool_decide (so_state o = PendingPayment))).
Definition choose_payment d (o : Order) (i : RefundRequest) : result RefundError (Payment * list Payment) :=
  let allPayments := settled_payments d (so_id o) in
  let payments := List.filter (fun p => negb (isDuplicatePayment p)) allPayments in
  let chosen := if nonempty (fq_paymentId i) then List.find (fun p => bool_decide (Some (py_id p) = fq_paymentId i)) allPayments
                else match payments with [p] => Some p | _ => None end in
  match chosen with
  | None => Err (refuse (if (1 <? length payments)%nat then "Select the payment to refund" else "No settled payment to refund"))
  | Some p =>
      guard! isDuplicatePayment p || state_in CASH_REFUNDABLE (so_state o) || merchandise_of_refunded o i or refuse "Order is not refundable" in
      guard! negb (isDuplicatePayment p && (negb (is_nil (fq_lines i)) || nonempty (fq_returnId i) || fq_restock i || truthy_number (fq_shippingAmount i)))
        or refuse "A duplicate payment is refunded money-only (no lines, restock, return or shipping)" in
      Ok (p, payments)
  end.
Definition find_return d (orderId : string) (i : RefundRequest) : result RefundError (option ReturnRequest) :=
  if nonempty (fq_returnId i) then
    match List.find (fun q => bool_decide (Some (rma_id q) = fq_returnId i) && String.eqb (rma_orderId q) orderId) (ft_returns (tables d)) with
    | Some q => guard! one_of ["requested"; "approved"; "received"]%string (rma_status q) && negb (nonempty (rma_refundId q))
                  or refuse "Return already resolved" in Ok (Some q)
    | None => Err (refuse "Return already resolved")
    end
  else Ok None.

(** Money of a payment that refunds not failed hold. *)
Definition reserved_money d (orderId paymentId : string) : Z :=
  sumZ (map rf_amount (List.filter (fun r => String.eqb (rf_orderId r) orderId && String.eqb (rf_paymentId r) paymentId &&
                                             negb (bool_decide (rf_state r = ref_Failed))) (sd_refunds d))).
(** Billed units that refunds not failed hold; an edit's attribution holds none. *)
Definition unit_reservations d (orderId : string) : list (RefundLine * Refund) :=
  omap (fun l => match refund_row d (fl_refundId l) with
                 | Some r => if String.eqb (rf_orderId r) orderId && negb (bool_decide (rf_state r = ref_Failed)) && negb (isEditRefund (rf_metadata r))
                             then Some (l, r) else None
                 | None => None end) (ft_lines (tables d)).
Definition reserved_units d (orderId lineId : string) : Z :=
  sumZ (map (fun q => fl_quantity (fst q)) (List.filter (fun q => String.eqb (fl_orderLineId (fst q)) lineId) (unit_reservations d orderId))).
Definition credit_reservations d (orderId : string) (ev : CreditEvidence) : list CreditReservation :=
  let rows := unit_reservations d orderId in
  map (fun id =>
    let mine := List.filter (fun q => String.eqb (fl_refundId (fst q)) id) rows in
    let metadata := head mine ≫= fun q => rf_metadata (snd q) in
    {| rsv_metadata := metadata;
       rsv_restored := match refundCreditProjection metadata with Some (st, _, _) => one_of ["posted"; "not_applicable"]%string st | None => false end ||
                       forallb (fun q => existsb (fun h => String.eqb (fst h) id && String.eqb (snd h) (fl_orderLineId (fst q))) (ev_history ev)) mine;
       rsv_lines := map (fun q => (fl_orderLineId (fst q), fl_quantity (fst q))) mine |}) (uniq (map (fun q => fl_refundId (fst q)) rows)).

Record Units := { un_lines : list Line; un_available : option (list (string * list nat)); un_returns : option CreditUnitReturns; un_bases : list (string * UnitBasis) }.
Definition unit_facts d (orderId : string) (orderLines : list OrderLine) (ev : option CreditEvidence) (lines : list Line) (autoLines restock : bool) : result unit Units :=
  let bases lines := if is_nil lines then Ok [] else refundUnitBases d orderId orderLines ev in
  match ev with
  | Some e =>
      if is_nil lines && negb autoLines then Ok {| un_lines := []; un_available := None; un_returns := None; un_bases := [] |}
      else
        let reservations := credit_reservations d orderId e in
        let! available := availableCreditRefundUnits d orderId orderLines e reservations in
        let lines := if autoLines
          then List.filter (fun l => 0 <? ln_quantity l)
                 (map (fun l => {| ln_orderLineId := ol_id l; ln_quantity := Z.of_nat (length (or_else (assoc_last (ol_id l) available) [])); ln_restock := restock |}) orderLines)
          else lines in
        let! returns := if is_nil lines then Ok None else let! r := prepareCreditUnitReturns d orderId orderLines e lines reservations in Ok (Some r) in
        let! b := bases lines in
        Ok {| un_lines := lines; un_available := Some available; un_returns := returns; un_bases := b |}
  | None => let! b := bases lines in Ok {| un_lines := lines; un_available := None; un_returns := None; un_bases := b |}
  end.

Definition selected_positions (u : Units) (lineId : string) : option (list nat * list (option Z)) :=
  un_returns u ≫= fun r => option_map (fun q => (snd (fst q), snd q)) (List.find (fun q => String.eqb (fst (fst q)) lineId) (cr_lines r)).
Definition select_line d (orderId : string) (orderLines : list OrderLine) (u : Units) (creditBearing : bool) (acc : list Selected) (l : Line) :
    result RefundError (list Selected) :=
  match List.find (fun r => String.eqb (ol_id r) (ln_orderLineId l)) orderLines with
  | None => Err (refuse "Invalid or already reserved refund quantity")
  | Some r =>
      let capacity := match un_available u ≫= assoc_last (ol_id r) with
        | Some positions => Z.of_nat (length positions)
        | None => refundQuantity r - reserved_units d orderId (ol_id r)
        end in
      guard! negb (existsb (fun x => String.eqb (ln_orderLineId (sl_line x)) (ln_orderLineId l)) acc) && is_safe (ln_quantity l) &&
             (1 <=? ln_quantity l) && (ln_quantity l <=? capacity) or refuse "Invalid or already reserved refund quantity" in
      let basis := or_else (assoc_last (ol_id r) (un_bases u)) basis_none in
      let cash := match basis, selected_positions u (ol_id r) with
        | basis_units cents, Some (positions, _) => option_map basis_units (all_some (map (fun k => cents !! k) positions))
        | b, _ => Some b
        end in
      match cash ≫= fun b => refundLineCashAmount r (ln_quantity l) b creditBearing with
      | Some amount => Ok (acc ++ [{| sl_line := l; sl_amount := amount |}])
      | None => Err (refuse "Refund unit basis requires reconciliation")
      end
  end.

(** ** prepareRefund *)

Definition edit_snapshots d (o : Order) (i : RefundRequest) : result RefundError (list (EditLine)) :=
  if is_nil (fq_editLines i) then Ok []
  else
    let! staged := match fq_editId i with
      | Some e => if nonempty (fq_editId i) then match stagedEditRemovedUnits d (so_id o) e with Ok x => Ok x | Err m => Err (RefundAborted m) end else Ok None
      | None => Ok None end in
    map_result (fun l =>
      match List.find (fun r => String.eqb (ol_id r) (el_orderLineId l)) (order_lines d (so_id o)) with
      | Some r =>
          let removable := match staged with Some m => or_else (assoc_last (el_orderLineId l) m) 0 | None => ol_editRemovedQty r end in
          guard! el_quantity l <=? removable or refuse "Order edit refund line exceeds the units the edit removed" in Ok l
      | None => Err (refuse "Order edit refund line exceeds the units the edit removed")
      end) (fq_editLines i).

(** The authority of a zero-cash return of credit merchandise, or the checks of a cash refund. *)
Definition credit_authority d (o : Order) (i : RefundRequest) (p : Payment) (u : Units) (snapshots : list Selected) (redemptions : list string)
    (explicitLines : bool) (amount itemsAmount shippingAmount : Z) : result RefundError (string * string) :=
  guard! negb (isDuplicatePayment p || fq_orderEdit i || negb explicitLines || negb (amount =? 0) || negb (itemsAmount =? 0) || negb (shippingAmount =? 0) ||
               truthy_number (fq_shippingAmount i) || negb (length redemptions =? 1)%nat)
    or refuse "Credit merchandise return requires explicit zero-cash allocated quantities" in
  let selection := map (fun x => (ln_orderLineId (sl_line x), ln_quantity (sl_line x), option_map snd (selected_positions u (ln_orderLineId (sl_line x))))) snapshots in
  match head redemptions with
  | None => Err (refuse "Credit merchandise allocation requires reconciliation")
  | Some redemption =>
      match proveCreditMerchandiseReturn d (so_id o) redemption selection with
      | Err _ => Err (refuse "Credit merchandise allocation requires reconciliation")
      | Ok (redemptionId, accountId) =>
          guard! bool_decide (creditAccountCurrency d accountId = Some (so_currency o)) &&
                 negb (nonempty (py_currency p) && negb (bool_decide (py_currency p = Some (so_currency o)))) or refuse "Credit merchandise currency differs" in
          Ok (redemptionId, accountId)
      end
  end.
Definition check_cash (p : Payment) (amount available : Z) : result RefundError unit :=
  guard! is_safe amount && (1 <=? amount) && (amount <=? available) or refuse "Refund exceeds the payment balance" in
  guard! one_of SUPPORTED_PAYMENT_METHODS (py_method p) or refuse "Payment method does not support refunds" in
  guard! negb (one_of ["nmi"; "sezzle"; "stripe"]%string (py_method p) && negb (one_of ["test"; "live"]%string (or_else (py_gatewayMode p) EmptyString)))
    or refuse "Original payment mode is missing; reconcile it before refunding" in
  guard! negb (one_of ["nmi"; "sezzle"]%string (py_method p) && negb (nonempty (py_gatewayAccount p))) or refuse "Original merchant account is missing" in
  guard! negb (one_of ["nmi"; "sezzle"]%string (py_method p) && negb (gatewayAvailable p)) or RefundRefused 503 "Original merchant account is unavailable" in
  Ok tt.

Definition attempt_context (i : RefundRequest) (p : Payment) (refundId : string) (authority : option (string * string)) : result RefundError json :=
  let base := [("originalProviderRef", text_json (py_providerRef p)); ("refundId", JStr refundId); ("actor", JStr (fq_actor i));
               ("returnId", text_json (fq_returnId i))]%string in
  match authority with
  | Some (redemptionId, _) => Ok (JObj (base ++ [("authority", JStr "credit_merchandise"); ("redemptionId", JStr redemptionId)]%string))
  | None =>
      if String.eqb (py_method p) "nmi" then
        match recordedNmiEnvironment (opt_field "gateway" (py_metadata p)) (or_else (py_gatewayMode p) EmptyString) with
        | Ok env => Ok (JObj (base ++ [("nmiEnvironment"%string, JStr env)]))
        | Err m => Err (RefundAborted m)
        end
      else Ok (JObj base)
  end.
Definition refund_metadata (i : RefundRequest) (fingerprint : string) (u : Units) (snapshots : list Selected) (authority : option (string * string)) : json :=
  JObj ([("actor", JStr (fq_actor i)); ("returnId", text_json (fq_returnId i)); ("effectsApplied", JBool false)]%string ++
    (if is_nil snapshots then []
     else [("stockEffects"%string, JObj [("state", JStr "pending");
            ("requestDigest", JStr (match un_returns u with Some r => cr_requestDigest r | None => fingerprint end))]%string)]) ++
    match un_returns u with Some r => [("creditUnitReturns"%string, cr_json r)] | None => [] end ++
    match authority with Some (redemptionId, _) => [("authority", JStr "credit_merchandise"); ("redemptionId", JStr redemptionId)]%string | None => [] end ++
    (if fq_orderEdit i then [("source", JStr "order_edit")]%string else [])).

(** The rows of a request that passed every check. *)
Definition write_refund (now : Z) s (o : Order) (i : RefundRequest) (key fingerprint : string) (p : Payment) (rma : option ReturnRequest)
    (u : Units) (snapshots : list Selected) (edits : list EditLine) (authority : option (string * string)) (amount itemsAmount shippingAmount : Z) :
    result RefundError (FxDb * Db * Prepared) :=
  let d := snd s in
  let attemptId := gen_random_uuid (sd_fresh d) in
  let refundId := gen_random_uuid (S (sd_fresh d)) in
  let currency := or_else (py_currency p) (so_currency o) in
  let! context := attempt_context i p refundId authority in
  let attempt := {| va_id := attemptId; va_orderId := so_id o; va_paymentId := Some (py_id p); va_operation := "refund";
    va_method := match authority with Some _ => "credit_merchandise" | None => py_method p end;
    va_accountId := match authority with Some (_, account) => account | None => or_else (py_gatewayAccount p) "internal" end;
    va_mode := match authority with Some _ => "internal" | None => if bool_decide (py_gatewayMode p = Some "test") then "test" else "live" end;
    va_amount := amount; va_currency := currency; va_idempotencyKey := key; va_fingerprint := fingerprint; va_status := "processing";
    va_providerRef := None; va_context := Some context; va_result := None; va_updatedAt := now |}%string in
  let refund := {| rf_id := refundId; rf_orderId := so_id o; rf_paymentId := py_id p; rf_amount := amount; rf_state := ref_Pending;
    rf_metadata := Some (refund_metadata i fingerprint u snapshots authority); rf_attemptId := Some attemptId;
    rf_reason := or_some (fq_reason i) (rma ≫= rma_reason); rf_providerRef := None; rf_itemsAmount := Some itemsAmount;
    rf_shippingAmount := Some shippingAmount; rf_adjustmentAmount := Some (amount - itemsAmount - shippingAmount) |} in
  let d1 := with_attempts (tick (tick d)) (rt_attempts (sd_other d) ++ [attempt]) in
  let d2 := with_refunds d1 (sd_refunds d1 ++ [refund]) in
  let! s3 := match fq_editId i with
    | Some e => if nonempty (fq_editId i)
                then match bindPreparedEditRefund (fst s, d2) (so_id o) e refundId with Ok s' => Ok s' | Err m => Err (RefundAborted m) end
                else Ok (fst s, d2)
    | None => Ok (fst s, d2) end in
  let d3 := snd s3 in
  let d4 := with_lines d3 (ft_lines (tables d3) ++
    map (fun x => {| fl_refundId := refundId; fl_orderLineId := ln_orderLineId (sl_line x); fl_quantity := ln_quantity (sl_line x);
                     fl_amount := sl_amount x; fl_restock := ln_restock (sl_line x) |}) snapshots ++
    map (fun l => {| fl_refundId := refundId; fl_orderLineId := el_orderLineId l; fl_quantity := el_quantity l; fl_amount := el_amount l;
                     fl_restock := false |}) edits) in
  let d5 := match rma with
    | Some q => with_returns d4 (set_where (fun x => String.eqb (rma_id x) (rma_id q))
        (fun x => {| rma_id := rma_id x; rma_orderId := rma_orderId x; rma_status := "approved"; rma_refundId := Some refundId;
                     rma_reason := rma_reason x; rma_lines := rma_lines x |}) (ft_returns (tables d4)))
    | None => d4 end in
  Ok (fst s3, d5, Reserved attemptId p amount currency (is_some authority)).

Definition linked_pending (i : RefundRequest) (ev : CreditEvidence) : bool :=
  fq_orderEdit i && nonempty (fq_editId i) &&
  existsb (fun q => bool_decide (Some (fst q) = fq_editId i) && isPendingEditStage (snd q)) (ev_pricingSources ev).
(** The order's credit evidence, its imported origin anchored first. *)
Definition order_evidence d (o : Order) (i : RefundRequest) (redemptions : list string) : result RefundError (Db * option CreditEvidence) :=
  if is_nil redemptions then Ok (d, None)
  else
    match readCurrentCreditEvidence d (so_id o) with
    | Err m => Err (RefundAborted m)
    | Ok None => Ok (d, None)
    | Ok (Some ev) =>
        if linked_pending i ev then Ok (d, Some ev)
        else match anchorImportedCreditOrigin d (so_id o) with Ok q => Ok q | Err m => Err (RefundAborted m) end
    end.

(** The lines asked for: the request's, the return's, or by default what is left. *)
Definition requested_lines d (o : Order) (i : RefundRequest) (duplicate : bool) (rma : option ReturnRequest) (payments : list Payment) (available : Z) :
    result RefundError (list Line * bool * bool) :=
  let asked := match rma with
    | Some q => map (fun l => {| ln_orderLineId := fst (fst l); ln_quantity := snd (fst l); ln_restock := snd l |}) (rma_lines q)
    | None => if duplicate then [] else fq_lines i end in
  let explicitLines := negb (is_nil asked) in
  let whole := match fq_amount i with Some a => a =? available | None => true end in
  let autoLines := negb duplicate && negb (fq_orderEdit i) && negb explicitLines && (fq_restock i || whole) in
  if autoLines then
    guard! negb ((1 <? length payments)%nat || negb whole) or refuse "Choose lines when restocking a partial refund" in
    Ok (List.filter (fun l => 0 <? ln_quantity l)
          (map (fun l => {| ln_orderLineId := ol_id l; ln_quantity := refundQuantity l - reserved_units d (so_id o) (ol_id l); ln_restock := fq_restock i |})
               (map billed_line (order_lines d (so_id o)))), false, true)
  else Ok (asked, explicitLines, false).

Definition reserve_refund (now : Z) s (o : Order) (i : RefundRequest) (key fingerprint : string) : result RefundError (FxDb * Db * Prepared) :=
  let d := snd s in
  guard! refundable_state o i or refuse "Order is not refundable" in
  let! rma := find_return d (so_id o) i in
  let! q := choose_payment d o i in
  let '(p, payments) := q in
  let duplicate := isDuplicatePayment p in
  let available := py_amount p - reserved_money d (so_id o) (py_id p) in
  let! l := requested_lines d o i duplicate rma payments available in
  let '(lines, explicitLines, autoLines) := l in
  let redemptions := postedRedemptions d (so_id o) in
  let! e := order_evidence d o i redemptions in
  let '(d1, ev) := e in
  let orderLines := map billed_line (order_lines d (so_id o)) in
  match unit_facts d1 (so_id o) orderLines ev lines autoLines (fq_restock i) with
  | Err _ => Err (refuse "Refund unit basis, allocation or quantity requires reconciliation")
  | Ok u =>
      let! snapshots := fold_result (select_line d1 (so_id o) orderLines u (negb (is_nil redemptions))) [] (un_lines u) in
      let! edits := edit_snapshots d1 o i in
      let itemsAmount := sumZ (map sl_amount snapshots) + sumZ (map el_amount edits) in
      guard! negb (fq_orderEdit i && match fq_amount i with Some a => a <? itemsAmount | None => false end)
        or refuse "Order edit refund lines exceed the refund amount" in
      let shippingAmount := match fq_shippingAmount i with Some n => if explicitLines && is_safe n && (0 <? n) then n else 0 | None => 0 end in
      let amount := or_else (fq_amount i) (if explicitLines then itemsAmount + shippingAmount else available) in
      let! authority :=
        if fq_creditMerchandiseReturn i
        then let! a := credit_authority d1 o i p u snapshots redemptions explicitLines amount itemsAmount shippingAmount in Ok (Some a)
        else let! _ := check_cash p amount available in Ok None in
      write_refund now (fst s, d1) o i key fingerprint p rma u snapshots edits authority amount itemsAmount shippingAmount
  end.

Definition prepareRefund (now : Z) s (i : RefundRequest) : result RefundError (FxDb * Db * Prepared) :=
  let! _ := check_request i in
  let d := snd s in
  let key := ("refund:" ++ fq_idempotencyKey i)%string in
  let fingerprint := requestFingerprint sha256 localeAfter i in
  match order_row d (fq_orderId i) with
  | None => Err (RefundRefused 404 "Order not found")
  | Some o =>
      guard! negb (is_some (so_deletedAt o)) or RefundRefused 404 "Order not found" in
      guard! negb (importedFinancialReconciliationRequired (so_metadata o)) or ImportedReconciliation in
      guard! is_ok (assertNoPendingOrderEdit (money_tables d) (so_id o) (if fq_orderEdit i then fq_editId i else None))
        or refuse "Resolve the pending order edit first" in
      match prior_attempt d key with
      | Some prior => resume_prior now s (so_id o) fingerprint prior
      | None => reserve_refund now s o i key fingerprint
      end
  end.

(** ** requestRefund *)

(** [provider method]: the provider's refund call, [None] when it has none; the
    call answers [None] when it throws. *)
Definition provider_answer (provider : string -> option (Payment -> Z -> string -> option RefundResult)) (p : Payment) (amount : Z) (attemptId : string)
    (creditMerchandise : bool) : RefundResult :=
  let internal := {| rr_state := ref_Settled; rr_providerRef := None |} in
  let unknown := {| rr_state := ref_Pending; rr_providerRef := None |} in
  if creditMerchandise then internal
  else if one_of ["nmi"; "sezzle"]%string (py_method p) && negb (gatewayAvailable p) then unknown
  else match provider (py_method p) with
       | None => internal
       | Some refundPayment => or_else (refundPayment p amount attemptId) unknown
       end.
(** [between] is what other transactions did while the provider answered. *)
Definition requestRefund (now : Z) s (i : RefundRequest) (provider : string -> option (Payment -> Z -> string -> option RefundResult))
    (between : FxDb * Db -> FxDb * Db) : result RefundError (FxDb * Db * RefundView) :=
  let! q := prepareRefund now s i in
  match q with
  | (s1, Existing view) => Ok (s1, view)
  | (s1, Reserved attemptId p amount _ creditMerchandise) =>
      finalize now (between s1) attemptId (provider_answer provider p amount attemptId creditMerchandise)
  end.
End Request.
