(* ===== verification/RefundFacts.v ===== *)
(** Frames of the refund workflow ([Refunds.v]): which rows each step touches.
    [aside] is what other modules may change during a call, [forward] what a
    refund may: rows keep their facts and states move on. *)

From S2P Require Import LoyaltyLedger AccountCredit.
From S2P Require Import Prelude JsNumber Json OrderState LineQuantity Tender Effects Settlement SettlementFacts Settle Reservation ReservationFacts Refunds RefundRequest.
From Stdlib Require Import ZArith QArith Lia Bool String.
From stdpp Require Import base list strings sets.
Local Open Scope Z_scope.

Section Facts.
Context {Y : Type} {sdeps : SettlementDeps (ResTables (RefundTables Y))} {rdeps : RefundDeps Y}.
Context (gen_random_uuid : nat -> string) (registeredPaymentPolicies : list (PaymentPolicy (Y := RefundTables Y))).
Abbreviation Db := (SettleDb (ResTables (RefundTables Y))).
Implicit Types (d : Db) (s : FxDb * Db).

(** ** Frames *)

Definition core_tables d := let t := tables d in
  (ft_lines t, ft_goods t, ft_licenses t, ft_activations t, ft_giftCards t, ft_giftTransactions t).
(** What other modules leave alone when a refund calls them. *)
Record aside d d' : Prop := {
  as_store : sd_store d' = sd_store d;
  as_payments : sd_payments d' = sd_payments d;
  as_refunds : sd_refunds d' = sd_refunds d;
  as_orders : map order_facts (sd_orders d') = map order_facts (sd_orders d);
  as_attempts : rt_attempts (sd_other d') = rt_attempts (sd_other d);
  as_core : core_tables d' = core_tables d;
  as_ops : forall k o, is_some (operation_row d k o) = true -> is_some (operation_row d' k o) = true;
  as_fresh : (sd_fresh d <= sd_fresh d')%nat
}.
#[export] Instance aside_preorder : PreOrder aside.
Proof.
  split; [by constructor|]. intros d1 d2 d3 [A1 B1 C1 D1 E1 F1 O1 G1] [A2 B2 C2 D2 E2 F2 O2 G2]. constructor; [congruence..| |lia].
  intros k o H. by apply O2, O1.
Qed.

(** A refund row moves forward only: what the provider reported failed may still
    settle later ([rv]). *)
Definition refund_facts (r : Refund) := (rf_id r, rf_orderId r, rf_paymentId r, rf_amount r, rf_attemptId r).
Definition move (rv : bool) (r r' : Refund) : Prop :=
  refund_facts r' = refund_facts r /\ (rf_state r' = rf_state r \/ rf_state r = ref_Pending \/ (rv = true /\ rf_state r = ref_Failed /\ rf_state r' = ref_Settled)).
#[export] Instance move_preorder rv : PreOrder (move rv).
Proof.
  split; [split; auto|]. intros a b c [F1 S1] [F2 S2]. split; [congruence|].
  destruct S1 as [E1|[E1|(V1 & E1 & E1')]], S2 as [E2|[E2|(V2 & E2 & E2')]]; rewrite ?E1, ?E2 in *; intuition congruence.
Qed.
Definition attempt_facts (a : ProviderAttempt) := (va_id a, va_orderId a, va_operation a, va_method a, va_idempotencyKey a, va_fingerprint a).
Record forward (rv : bool) d d' : Prop := {
  fw_store : sd_store d' = sd_store d;
  fw_payments : sd_payments d' = sd_payments d;
  fw_refunds : Forall2 (move rv) (sd_refunds d) (sd_refunds d');
  fw_attempts : map attempt_facts (rt_attempts (sd_other d')) = map attempt_facts (rt_attempts (sd_other d));
  fw_lines : ft_lines (tables d') = ft_lines (tables d);
  fw_fresh : (sd_fresh d <= sd_fresh d')%nat
}.
#[export] Instance forward_preorder rv : PreOrder (forward rv).
Proof.
  split; [constructor; try done|intros d1 d2 d3 [] []; constructor; first [congruence|lia|by etrans]].
Qed.
Lemma aside_forward rv d d' : aside d d' -> forward rv d d'.
Proof.
  intros [A B C E F G _ I]. unfold core_tables in G. constructor; rewrite ?C, ?F; try done. congruence.
Qed.
Lemma forward_weaken rv d d' : forward false d d' -> forward rv d d'.
Proof.
  intros [A B F C D E]. constructor; try done. eapply Forall2_impl; [exact F|]. intros r r' [G [H|[H|(H & _)]]]; (split; [done|]); [auto|auto|discriminate].
Qed.
Lemma forward_ids rv d d' : forward rv d d' -> map rf_id (sd_refunds d') = map rf_id (sd_refunds d).
Proof. intros [_ _ F _ _ _]. induction F as [|r r' l l' [E _] F IH]; cbn; [done|]. unfold refund_facts in E. injection E as E _ _ _ _. by rewrite E, IH. Qed.

(** The other modules keep their promise: a credit, loyalty or projection call
    leaves money and goods alone; an order edit may reprice the order, no more. *)
Class RefundDepsLaws : Prop := {
  anchor_aside d o d' ev : anchorImportedCreditOrigin d o = Ok (d', ev) -> aside d d';
  restore_aside s o r : fst (fst (restoreRefundAfterSettlement s o r)) = fst s /\ aside (snd s) (snd (fst (restoreRefundAfterSettlement s o r)));
  loyalty_aside d o r actor refunded captured : aside d (reconcileRefundLoyalty d o r actor refunded captured);
  activate_forward s o r s' : activateRefundedEdit s o r = Ok s' -> forward false (snd s) (snd s');
  bind_forward s o e r s' : bindPreparedEditRefund s o e r = Ok s' -> forward false (snd s) (snd s');
  policy_aside p hook d t d' : p ∈ registeredPaymentPolicies -> pp_onReservationTransition p = Some hook -> hook d t = Ok d' -> aside d d'
}.
Context {laws : RefundDepsLaws} (rv : bool).

(** ** The writes of a refund *)

Lemma forward_metadata d id m : forward rv d (write_metadata d id m).
Proof.
  constructor; try done; cbn; try done. unfold set_where. induction (sd_refunds d) as [|r l IH]; cbn; constructor; [|done].
  destruct (String.eqb _ _); split; cbn; auto.
Qed.
Lemma forward_update_attempt d id f : (forall a, attempt_facts (f a) = attempt_facts a) -> forward rv d (update_attempt d id f).
Proof.
  intros H. constructor; try done; cbn. apply map_set_where. intros x _ _. apply H.
Qed.
Lemma forward_update_refund d id f : (forall r, r ∈ sd_refunds d -> rf_id r = id -> move rv r (f r)) -> forward rv d (update_refund d id f).
Proof.
  intros H. constructor; try done; cbn; try done. unfold set_where. revert H. induction (sd_refunds d) as [|r l IH]; intros H; cbn; constructor.
  - destruct (String.eqb_spec (rf_id r) id) as [E|E]; [apply H; [left|done]|reflexivity].
  - apply IH. intros x Hx. apply H. by right.
Qed.
Lemma forward_same d d' : sd_store d' = sd_store d -> sd_payments d' = sd_payments d -> sd_refunds d' = sd_refunds d ->
  rt_attempts (sd_other d') = rt_attempts (sd_other d) -> ft_lines (tables d') = ft_lines (tables d) -> (sd_fresh d <= sd_fresh d')%nat -> forward rv d d'.
Proof. intros A B C E F G. constructor; rewrite ?C, ?E; try done. Qed.
Lemma forward_goods d g : forward rv d (with_goods d g).
Proof. by apply forward_same. Qed.
Lemma forward_stock d o r lines fp d' e : applyRefundStockEffects d o r lines fp = (d', e) -> forward rv d d'.
Proof.
  unfold applyRefundStockEffects. intros H.
  assert (G : (let '(digest, outcome) := stock_attempt d o r lines fp in
      let '(d1, e) := match outcome with
        | Ok g => (with_goods d g, {| se_applied := true; se_requestDigest := digest; se_reason := None |})
        | Err _ => (d, {| se_applied := false; se_requestDigest := digest; se_reason := Some "stock_effects_reconciliation_required"%string |})
        end in
      (write_metadata d1 (rf_id r) (spread (rf_metadata r) [("stockEffects"%string, stock_json e)]), e)) = (d', e) -> forward rv d d').
  { destruct (stock_attempt d o r lines fp) as [dg [g|]]; intros [= <- _]; [|apply forward_metadata].
    etrans; [apply (forward_goods d g)|apply forward_metadata]. }
  destruct (refundStockEffectsProjection (rf_metadata r)) as [[[] ? ?]|]; [by injection H as <- _|auto..].
Qed.
Lemma forward_gift now d o amount d' : creditGiftCardRefund now d o amount = Ok d' -> forward rv d d'.
Proof. unfold creditGiftCardRefund. destruct (last _); [|discriminate]. intros [= <-]. by apply forward_same. Qed.
Lemma forward_revoke now d o : forward rv d (revokeRefundLicenses now d o).
Proof. by apply forward_same. Qed.
Lemma forward_order d id st now : forward rv d (update_order d id st now).
Proof. by apply forward_same. Qed.
Lemma forward_emit d topic payload : forward rv d (emitEvent d topic payload).
Proof. by apply forward_same. Qed.
Lemma forward_audited d row : forward rv d (audited d row).
Proof. by apply forward_same. Qed.
Lemma aside_email d r : aside d (enqueueRefundSettledEmail d r).
Proof.
  unfold enqueueRefundSettledEmail, enqueueEmail. destruct (order_row d (rf_orderId r)) as [o|]; [|done].
  destruct (importedFinancialReconciliationRequired _); [done|]. cbv zeta. destruct (String.eqb _ EmptyString); [done|]. destruct (existsb _ _); [done|]. by constructor.
Qed.
Lemma email_same d r : let d' := enqueueRefundSettledEmail d r in sd_ops d' = sd_ops d /\ sd_orders d' = sd_orders d /\ sd_other d' = sd_other d.
Proof.
  unfold enqueueRefundSettledEmail, enqueueEmail. destruct (order_row d (rf_orderId r)) as [o|]; [|done].
  destruct (importedFinancialReconciliationRequired _); [done|]. cbv zeta. destruct (String.eqb _ EmptyString); [done|]. by destruct (existsb _ _).
Qed.
Lemma aside_release now s o r s' : release_holds registeredPaymentPolicies now s o r = Ok s' -> fst s' = fst s /\ aside (snd s) (snd s').
Proof.
  unfold release_holds. destruct (releaseOnFullRefundOrDefer _ _ _ _ _) as [[[d' rows] b]|e] eqn:E; [|discriminate]. intros [= <-]. split; [done|]. cbn.
  unfold releaseOnFullRefundOrDefer in E. destruct (releaseOnFullRefund _ _ _ _) as [[d1 rs]|e] eqn:E1.
  - injection E as <- _ _. unfold releaseOnFullRefund in E1. destruct (financiallyQuarantined _ _); [by injection E1 as <- _|].
    destruct (orderState _ _); [|discriminate]. cbn [bind_result] in E1. destruct (negb _); [by injection E1 as <- _|].
    destruct (update_reservations _ _ _) as [d2 rs2] eqn:U. destruct (dispatched _ _ _ _ _ _) as [d3|] eqn:D; [|discriminate]. injection E1 as <- _.
    etrans; [|eapply (dispatched_rel registeredPaymentPolicies aside policy_aside); exact D]. unfold update_reservations in U. injection U as <- _. by constructor.
  - destruct e; try discriminate. destruct (update_reservations _ _ _) as [d2 rs2] eqn:U. unfold update_reservations in U. injection U as <- _.
    injection E as <- _ _. destruct (is_nil rs2); by constructor.
Qed.

(** The reversal operation has no mutation and runs nothing inline: it writes its
    own row and effect, and no money. *)
Lemma find_app_some {A} (p : A -> bool) l1 l2 : is_some (List.find p (l1 ++ l2)) = is_some (List.find p l1) || is_some (List.find p l2).
Proof. induction l1 as [|x xs IH]; cbn; [done|]. by destruct (p x). Qed.
Lemma find_set_where {A} (p q : A -> bool) f (l : list A) : (forall x, p (f x) = p x) -> is_some (List.find p (set_where q f l)) = is_some (List.find p l).
Proof. intros H. unfold set_where. induction l as [|x xs IH]; cbn; [done|]. destruct (q x); rewrite ?H; destruct (p x); auto. Qed.
Lemma quiet_operation now s op0 s' res : recordSettlementOperation gen_random_uuid now s op0 = Ok (s', res) ->
  op_kind op0 = order_refunded -> op_mutations op0 = [] -> op_effectMode op0 = Some mode_deferred ->
  aside (snd s) (snd s') /\ is_some (operation_row (snd s') order_refunded (op_operationId op0)) = true.
Proof.
  intros H K M F. destruct s as [fx d]. unfold recordSettlementOperation in H. inv_ok. destruct a0 as [op l]. inv_ok. cbn [fst snd] in *.
  assert (Q : op_kind op = order_refunded /\ op_mutations op = [] /\ op_effectMode op = Some mode_deferred /\ op_operationId op = op_operationId op0).
  { unfold revalidate in Em0. destruct (purges_quarantined _ _); [discriminate|]. cbn [negb] in Em0. destruct (existsb _ _); injection Em0 as <- _; cbn; rewrite ?M; done. }
  destruct Q as (K' & M' & F' & O'). clear Em Em0. destruct a0 as [[d1 oid] pre].
  unfold resolve_identity, ref_insert_row, ref_insert in Em1. rewrite K', M' in Em1. cbn in Em1. injection Em1 as <- <- <-.
  rewrite K' in H. change (bool_decide (order_refunded ∈ MONOTONE_KINDS)) with false in H. cbv iota in H. rewrite O' in H.
  unfold record_once in H. inv_ok. rewrite K' in H. destruct (operation_row (snd (fx, d)) order_refunded (op_operationId op0)) as [ex|] eqn:Ex; cbn [snd] in Ex.
  - unfold replay_operation in H. rewrite M' in H. cbn [map_result bind_result] in H. injection H as <- _. cbn [fst snd].
    destruct (op_classification op) as [c|], (or_classification ex) as [c'|]; [destruct (bool_decide _)|..]; (split; [try by constructor|]);
      change (operation_row _ order_refunded (op_operationId op0)) with (operation_row d order_refunded (op_operationId op0)); by rewrite Ex.
  - unfold perform, apply_all in H. rewrite M' in H. cbn [length List.seq combine fold_result bind_result] in H. unfold inserted_nothing in H. rewrite K', M' in H.
    change (bool_decide (order_refunded ∈ PAYMENT_IDENTITY_KINDS)) with false in H. cbn [andb] in H. cbn [fst snd] in H.
    unfold consumption in H. rewrite K' in H. change (bool_decide (order_refunded ∈ CONSUMING_KINDS)) with false in H. cbn [negb bind_result] in H.
    destruct (enqueueEffects _ _ _ _ _ _) as [fx3 created]. rewrite F' in H. cbn [or_else] in H.
    change (bool_decide (mode_deferred = mode_inline)) with false in H. cbv iota in H. cbn [bind_result] in H. injection H as <- _. cbn [snd].
    match goal with |- aside d ?D /\ _ => set (d' := D) end.
    assert (R : forall k o, is_some (operation_row d' k o) = is_some (operation_row d k o) || (bool_decide (op_kind op = k) && String.eqb (op_operationId op) o)).
    { intros k o. subst d'. unfold operation_row. cbn [sd_ops with_ops]. rewrite find_set_where; [|intros x; unfold operation_is; cbn; done].
      rewrite find_app_some. f_equal. cbn [List.find]. change (operation_is k o _) with (bool_decide (op_kind op = k) && String.eqb (op_operationId op0) o).
      rewrite O'. by destruct (_ && _). }
    split; [constructor; try done|].
    + intros k o Hk. by rewrite R, Hk.
    + subst d'. cbn. lia.
    + rewrite R, K', O', bool_decide_eq_true_2, String.eqb_refl by done. by rewrite orb_true_r.
Qed.
Lemma aside_reverse now s o s' : reverse_entitlements gen_random_uuid now s o = Ok s' ->
  aside (snd s) (snd s') /\ is_some (operation_row (snd s') order_refunded o) = true.
Proof.
  unfold reverse_entitlements. destruct (recordSettlementOperation _ _ _ _) as [[s1 res]|] eqn:E; [|discriminate]. intros [= <-].
  by apply (quiet_operation now s (order_refunded_op (snd s) o) s1 res E).
Qed.

(** ** Finalizing moves refunds forward *)

Lemma current_view_same s id s' v : current_view s id = Ok (s', v) -> s' = s.
Proof. unfold current_view. destruct (refund_row _ _); [|discriminate]. destruct (refundView _ _); cbn; [|discriminate]. by intros [= <- _]. Qed.
Lemma current_view_twice q id s' v : current_view q id = Ok (s', v) -> s' = q /\ current_view s' id = Ok (s', v).
Proof. intros H. pose proof (current_view_same _ _ _ _ H) as ->. by split. Qed.
Lemma forward_restore s r : forward rv (snd s) (snd (restoreSettledRefundCredit s r)).
Proof.
  unfold restoreSettledRefundCredit. destruct (payment_row _ _); [|done]. destruct (_ || _ || _); [done|].
  pose proof (restore_aside s (rf_orderId r) (rf_id r)) as [_ A]. destruct (restoreRefundAfterSettlement _ _ _) as [s1 out]. cbn [fst snd] in *.
  etrans; [by apply aside_forward|apply forward_metadata].
Qed.
Lemma forward_retry now s o r : forward rv (snd s) (snd (retryCreditMerchandiseCompletion gen_random_uuid registeredPaymentPolicies now s o r)).
Proof.
  unfold retryCreditMerchandiseCompletion. destruct (negb _); [done|]. destruct (bool_decide _); [done|]. cbv zeta.
  destruct (fullCreditMerchandiseProof _ _) as [full pending]. destruct pending; cbn [negb]; [apply forward_metadata|].
  destruct (full && _); cbn [bind_result]; [|apply forward_metadata].
  destruct (bool_decide _); cbn [bind_result].
  { etrans; [apply forward_revoke|apply forward_metadata]. }
  destruct (release_holds _ _ _ _ _) as [s2|] eqn:R; cbn [bind_result]; [|apply forward_metadata].
  destruct (reverse_entitlements _ _ _ _) as [s3|] eqn:V; cbn [bind_result]; [|apply forward_metadata].
  apply aside_release in R as [_ R]. apply aside_reverse in V as [V _]. cbn [fst snd] in *.
  etrans; [apply forward_revoke|]. etrans; [apply forward_order|]. etrans; [apply (aside_forward rv), R|]. etrans; [apply (aside_forward rv), V|]. apply forward_metadata.
Qed.
Lemma move_seen r st ref md : rf_state r = st \/ rf_state r = ref_Pending \/ (rv = true /\ rf_state r = ref_Failed /\ st = ref_Settled) -> move rv r (seen r st ref md).
Proof. intros H. destruct md; (split; [done|]); cbn; intuition. Qed.
Lemma unique_refund d r x : NoDup (map rf_id (sd_refunds d)) -> r ∈ sd_refunds d -> x ∈ sd_refunds d -> rf_id x = rf_id r -> x = r.
Proof. intros Hn Hr Hx E. by eapply NoDup_map_inj. Qed.
Lemma set_attempt_facts st ref res now a : attempt_facts (set_attempt st ref res now a) = attempt_facts a.
Proof. done. Qed.
(** The provider does not settle what it reported failed, unless [rv]. *)
Definition settles_failed (r : Refund) (ans : RefundResult) : Prop := rf_state r = ref_Failed /\ rr_state ans = ref_Settled.
Lemma forward_quarantined now s a r ans s' v : NoDup (map rf_id (sd_refunds (snd s))) -> r ∈ sd_refunds (snd s) -> (settles_failed r ans -> rv = true) ->
  finalize_quarantined now s a r ans = Ok (s', v) -> forward rv (snd s) (snd s').
Proof.
  intros Hn Hr Hv H. unfold finalize_quarantined in H. destruct (negb _); [|discriminate]. inv_ok. cbn [snd].
  etrans; [|apply forward_update_attempt; intros; apply set_attempt_facts]. apply forward_update_refund. intros x Hx E.
  rewrite (unique_refund _ _ _ Hn Hr Hx E). refine (move_seen r _ _ (Some _) _).
  unfold settles_failed in Hv. destruct (rf_state r); [by right; left|by left|]. destruct (rr_state ans); [by left|right; right; auto|by left].
Qed.
Lemma forward_replay now s o a r ans s' v : finalize_replay gen_random_uuid registeredPaymentPolicies now s o a r ans = Ok (s', v) -> forward rv (snd s) (snd s').
Proof.
  unfold finalize_replay. intros H.
  match type of H with context [let '(_, _) := ?q in _] => set (Q := q) in H end.
  pose (d1 := if negb (nonempty (rf_providerRef r)) && nonempty (rr_providerRef ans)
    then update_attempt (update_refund (snd s) (rf_id r) (fun x => seen x (rf_state x) (rr_providerRef ans) None)) (va_id a)
           (fun x => set_attempt (va_status x) (rr_providerRef ans) (va_result x) now x) else snd s).
  assert (F1 : forward rv (snd s) d1).
  { subst d1. destruct (_ && _); [|done]. etrans; [|apply forward_update_attempt; intros; apply set_attempt_facts].
    apply forward_update_refund. intros. apply move_seen. by left. }
  assert (F2 : forward rv d1 (fst Q)).
  { subst Q. destruct (bool_decide _); [|done]. destruct (applyRefundStockEffects _ _ _ _ _) as [d2 e] eqn:E. cbn. by eapply forward_stock. }
  destruct Q as [d2 r2]. cbn [fst] in F2. pose proof (forward_restore (fst s, d2) r2) as F3. cbn [snd] in F3.
  set (s3 := restoreSettledRefundCredit (fst s, d2) r2) in *. inv_ok.
  assert (F4 : forward rv (snd s3) (snd a0)).
  { destruct (String.eqb _ _); [|by inv_ok]. destruct (refund_row _ _); inv_ok. apply forward_retry. }
  assert (F5 : forward rv (snd a0) (snd a1)).
  { destruct (isEditRefund _); [|by inv_ok]. destruct (activateRefundedEdit _ _ _) eqn:A; inv_ok. apply forward_weaken. by eapply activate_forward. }
  apply current_view_same in H as ->. etrans; [exact F1|]. etrans; [exact F2|]. etrans; [exact F3|]. by etrans.
Qed.
Lemma forward_edit_refund now s o a r s' v : settle_edit_refund now s o a r = Ok (s', v) -> forward rv (snd s) (snd s').
Proof.
  unfold settle_edit_refund. intros H. destruct (_ && _ && _); [|discriminate]. inv_ok. apply current_view_same in H as ->. cbn [snd].
  assert (F1 : forward rv (snd s) a0) by (destruct (String.eqb _ _); [by eapply forward_gift|by inv_ok]).
  destruct (activateRefundedEdit _ _ _) as [s3|] eqn:A; inv_ok. apply activate_forward in A. apply (forward_weaken rv) in A. cbn [snd] in A.
  etrans; [exact F1|]. etrans; [apply forward_metadata|]. etrans; [exact A|]. etrans; [apply forward_audited|].
  etrans; [apply forward_emit|]. apply (aside_forward rv), aside_email.
Qed.
Lemma forward_duplicate s o r details p : forward rv (snd s) (snd (fst (settle_duplicate_refund s o r details p))).
Proof.
  unfold settle_duplicate_refund. cbn [fst snd]. etrans; [apply forward_metadata|]. etrans; [apply forward_audited|]. apply (aside_forward rv), aside_email.
Qed.

Abbreviation finalize := (finalizeRefund gen_random_uuid registeredPaymentPolicies).
Abbreviation settle_refund := (settle_order_refund gen_random_uuid registeredPaymentPolicies).

Lemma settle_tail d o r details final state :
  let d9 := record_settlement d o r details final state in
  forward rv d d9 /\ sd_refunds d9 = sd_refunds (write_metadata d (rf_id r) final) /\ sd_ops d9 = sd_ops d /\ map order_facts (sd_orders d9) = map order_facts (sd_orders d) /\
  ft_goods (tables d9) = ft_goods (tables d) /\ ft_licenses (tables d9) = ft_licenses (tables d).
Proof.
  cbv zeta. unfold record_settlement. set (d6 := if nonempty _ then _ else d). assert (F6 : forward rv d d6 /\ sd_refunds d6 = sd_refunds d /\ sd_ops d6 = sd_ops d /\ sd_orders d6 = sd_orders d /\
    ft_goods (tables d6) = ft_goods (tables d) /\ ft_licenses (tables d6) = ft_licenses (tables d)) by (subst d6; destruct (nonempty _); [split; [by apply forward_same|done]|done]).
  clearbody d6. destruct F6 as (F6 & U6 & O6 & R6 & G6 & L6).
  set (d8 := emitEvent _ _ _). assert (F8 : forward rv d6 d8).
  { etrans; [apply forward_metadata|]. etrans; [apply forward_audited|]. apply forward_emit. }
  assert (E8 : sd_refunds d8 = sd_refunds (write_metadata d6 (rf_id r) final) /\ sd_ops d8 = sd_ops d6 /\ sd_orders d8 = sd_orders d6 /\ ft_goods (tables d8) = ft_goods (tables d6) /\ ft_licenses (tables d8) = ft_licenses (tables d6)) by done.
  clearbody d8. destruct E8 as (U8 & O8 & R8 & G8 & L8). destruct (email_same d8 r) as (O9 & R9 & X9). pose proof (aside_email d8 r) as A9.
  set (d9 := enqueueRefundSettledEmail d8 r) in *. clearbody d9. unfold tables in *. rewrite O9, R9, X9.
  split; [etrans; [exact F6|]; etrans; [exact F8|]; by apply aside_forward|].
  split; [rewrite (as_refunds _ _ A9), U8; unfold write_metadata, update_refund; cbn; by rewrite U6|]. split; [congruence|]. split; [congruence|]. split; congruence.
Qed.

(** What a refund is for, kept in its metadata, survives the receipts written into it. *)
Lemma spread_other k m fields : assoc_last k fields = None -> opt_field k (Some (spread m fields)) = opt_field k m.
Proof.
  intros H. unfold spread, opt_field. cbn. rewrite assoc_last_app, H. by destruct m as [[]|].
Qed.
Lemma edit_spread m fields : assoc_last "source" fields = None -> isEditRefund (Some (spread m fields)) = isEditRefund m.
Proof. intros H. unfold isEditRefund, text_field. by rewrite spread_other. Qed.
Lemma fields_kept (b : bool) details x k : k <> "merchandiseCompletion"%string -> k <> "effectsApplied"%string ->
  opt_field k (Some (spread (Some (if b then spread (Some details) [("merchandiseCompletion"%string, x)] else details)) [("effectsApplied"%string, JBool true)])) =
  opt_field k (Some details).
Proof.
  intros H1 H2. apply String.eqb_neq in H1, H2. rewrite String.eqb_sym in H1, H2. rewrite spread_other by (cbn; by rewrite ?H2, String.eqb_sym, ?H2).
  destruct b; [|done]. by rewrite spread_other by (cbn; by rewrite ?H1, String.eqb_sym, ?H1).
Qed.
(** The steps of a first settlement, and the state each leaves. *)
Lemma settle_order_steps now s o r cm details s' v : settle_refund now s o r cm details = Ok (s', v) ->
  let basis := orderRefundBasis (snd s) (so_id o) in
  exists full d1 d2 state s4 s5 d9 details',
    aside (snd s) d1 /\ (cm = false -> full = (0 <? rb_captured basis) && (rb_captured basis <=? rb_refunded basis)) /\
    d2 = (if full then revokeRefundLicenses now d1 (so_id o) else d1) /\ state = refunded_state o cm full basis (isEditRefund (rf_metadata r)) /\
    let d3 := update_order d2 (so_id o) state now in
    let reverses := bool_decide (state = Some Refunded) && (negb cm || full) in
    (aside d3 (snd s4) /\ fst s4 = fst s) /\ (aside (snd s4) (snd s5) /\ (if reverses then is_some (operation_row (snd s5) order_refunded (so_id o)) = true else s5 = s4)) /\
    forward rv (snd s5) d9 /\ sd_refunds d9 = sd_refunds (write_metadata (snd s5) (rf_id r) details') /\ (forall k, k <> "merchandiseCompletion"%string -> k <> "effectsApplied"%string -> opt_field k (Some details') = opt_field k (Some details)) /\
    sd_ops d9 = sd_ops (snd s5) /\ map order_facts (sd_orders d9) = map order_facts (sd_orders (snd s5)) /\
    ft_goods (tables d9) = ft_goods (tables (snd s5)) /\ ft_licenses (tables d9) = ft_licenses (tables (snd s5)) /\
    s' = restoreSettledRefundCredit (fst s5, d9) (seen r ref_Settled (rf_providerRef r) (Some details')) /\ current_view s' (rf_id r) = Ok (s', v).
Proof.
  unfold settle_order_refund. intros H. cbv zeta in H |- *.
  remember (orderRefundBasis (snd s) (so_id o)) as basis eqn:Eb. clear Eb.
  remember (if isEditRefund _ then _ else reconcileRefundLoyalty _ _ _ _ _ _) as d1 eqn:E1 in H.
  assert (A1 : aside (snd s) d1) by (subst d1; destruct (isEditRefund _); [done|apply loyalty_aside]). clear E1.
  destruct (if cm then fullCreditMerchandiseProof d1 (so_id o) else (false, false)) as [fl pending].
  remember (if cm then fl && (rb_captured basis <=? rb_refunded basis) else (0 <? rb_captured basis) && (rb_captured basis <=? rb_refunded basis)) as full eqn:Ef in H.
  remember (refunded_state o cm full basis _) as state eqn:Es in H. remember (if full then _ else d1) as d2 eqn:E2 in H.
  inv_ok. remember (spread (Some (if cm then _ else details)) _) as final eqn:El in H.
  assert (Ek : forall k, k <> "merchandiseCompletion"%string -> k <> "effectsApplied"%string -> opt_field k (Some final) = opt_field k (Some details)).
  { intros k N1 N2. rewrite El. by apply fields_kept. }
  clear El. apply current_view_twice in H as [H V].
  match type of H with _ = restoreSettledRefundCredit (_, ?D) _ => remember D as d9 eqn:E9 in H end.
  match type of E9 with _ = record_settlement ?d ?o ?r ?x ?y ?st => pose proof (settle_tail d o r x y st) as T9 end.
  cbv zeta in T9. rewrite <- E9 in T9. clear E9. destruct T9 as (T1 & T0 & T2 & T3 & T4 & T5).
  exists full, d1, d2, state, a, a0, d9, final.
  split; [exact A1|]. split; [intros ->; exact Ef|]. split; [exact E2|]. split; [exact Es|].
  split; [|split; [|split; [exact T1|]; split; [exact T0|]; split; [exact Ek|]; split; [exact T2|]; split; [exact T3|]; split; [exact T4|]; split; [exact T5|]; by split]].
  - destruct (bool_decide _ && _); [|by inv_ok]. by apply aside_release in Em as [E A].
  - destruct (bool_decide _ && _); [by eapply aside_reverse|]. by inv_ok.
Qed.
Lemma forward_order_refund now s o r cm details s' v : settle_refund now s o r cm details = Ok (s', v) -> forward rv (snd s) (snd s').
Proof.
  intros H. apply settle_order_steps in H as (full & d1 & d2 & st & s4 & s5 & d9 & md & A1 & _ & -> & -> & [A4 _] & [A5 _] & F9 & _ & _ & _ & _ & _ & _ & -> & _).
  etrans; [by apply aside_forward|]. etrans; [|apply (forward_restore (fst s5, d9))]. cbn [snd].
  etrans; [|exact F9]. etrans; [|by apply aside_forward]. etrans; [|by apply aside_forward].
  etrans; [|apply forward_order]. destruct full; [apply forward_revoke|done].
Qed.

Lemma find_string_elem {A} (p : A -> bool) (l : list A) x : List.find p l = Some x -> x ∈ l.
Proof. intros H. by apply find_elem in H as [H _]. Qed.
Lemma finalize_forward now s aid ans s' v : NoDup (map rf_id (sd_refunds (snd s))) ->
  (forall r, refund_of_attempt (snd s) aid = Some r -> settles_failed r ans -> rv = true) -> finalize now s aid ans = Ok (s', v) -> forward rv (snd s) (snd s').
Proof.
  intros Hn Hv H. unfold finalizeRefund in H. destruct (attempt_row _ _) as [a|]; [|discriminate]. destruct (String.eqb _ _); [|discriminate].
  destruct (order_row _ _) as [o|]; [|discriminate]. destruct (refund_of_attempt _ _) as [r|] eqn:Er; [|discriminate].
  assert (Hr : r ∈ sd_refunds (snd s)) by by eapply find_string_elem. specialize (Hv r eq_refl).
  destruct (importedFinancialReconciliationRequired _); [by eapply forward_quarantined|].
  destruct (bool_decide (rf_state r = ref_Settled)) eqn:Es; [by eapply forward_replay|]. apply bool_decide_eq_false in Es.
  destruct (negb (refs_differ _ _)); [|discriminate].
  destruct (bool_decide (rf_state r = ref_Failed) && _) eqn:Ef; [by inv_ok|].
  match type of H with context [update_refund ?d ?i ?f] => set (d1 := update_refund d i f) in H end.
  match type of H with context [update_attempt d1 ?i ?f] => set (d2 := update_attempt d1 i f) in H end.
  assert (F2 : forward rv (snd s) d2).
  { subst d2. etrans; [|apply forward_update_attempt; intros; apply set_attempt_facts]. subst d1. apply forward_update_refund. intros x Hx E.
    rewrite (unique_refund _ _ _ Hn Hr Hx E). split; [done|]. cbn [rf_state set_refund_state]. clear - Es Ef Hv. unfold settles_failed in Hv.
    destruct (rf_state r) eqn:R; [by right; left|done|].
    destruct (rr_state ans) eqn:A; [discriminate| |discriminate]. right. right. auto. }
  destruct (negb (bool_decide _)); [inv_ok; exact F2|]. etrans; [exact F2|].
  destruct (isEditRefund _); [apply forward_edit_refund in H; exact H|].
  destruct (applyRefundStockEffects _ _ _ _ _) as [d3 e] eqn:Est. apply forward_stock in Est. inv_ok.
  assert (F4 : forward rv d3 a0) by (destruct (String.eqb _ "gift_card"); [by eapply forward_gift|by inv_ok]).
  etrans; [exact Est|]. etrans; [exact F4|].
  destruct (payment_row _ _) as [p|]; [destruct (isDuplicatePayment p)|].
  - pose proof (forward_duplicate (fst s, a0) o r (spread (rf_metadata r) [("stockEffects"%string, stock_json e)]) p) as D.
    unfold settle_duplicate_refund in *. by injection H as <- _.
  - apply forward_order_refund in H. exact H.
  - apply forward_order_refund in H. exact H.
Qed.
End Facts.
