(* ===== verification/RefundSafety.v ===== *)
(** What the refund workflow promises across requests, providers' answers and
    webhooks: a payment is never refunded beyond what it captured, billed units
    are never returned twice, a key buys one refund, a settlement moves its order
    by the money, and stock effects happen once. *)

From S2P Require Import LoyaltyLedger AccountCredit.
From S2P Require Import Prelude JsNumber Json OrderState LineQuantity Tender Effects Settlement SettlementFacts Settle Reservation ReservationFacts Refunds RefundRequest RefundFacts.
From Stdlib Require Import ZArith QArith Lia Bool String.
From stdpp Require Import base list strings sets relations.
Local Open Scope Z_scope.

Section Safety.
Context {Y : Type} {sdeps : SettlementDeps (ResTables (RefundTables Y))} {rdeps : RefundDeps Y}.
Context (gen_random_uuid : nat -> string) (registeredPaymentPolicies : list (PaymentPolicy (Y := RefundTables Y))).
Context (sha256 : json -> string) (localeAfter : string -> string -> bool).
Context {laws : RefundDepsLaws registeredPaymentPolicies}.
Abbreviation Db := (SettleDb (ResTables (RefundTables Y))).
Abbreviation prepare := (prepareRefund gen_random_uuid registeredPaymentPolicies sha256 localeAfter).
Abbreviation finalize := (finalizeRefund gen_random_uuid registeredPaymentPolicies).
Implicit Types (d : Db) (s : FxDb * Db).

(** ** What a reserved request wrote *)

Definition holds_on orderId paymentId (r : Refund) : bool :=
  String.eqb (rf_orderId r) orderId && String.eqb (rf_paymentId r) paymentId && negb (bool_decide (rf_state r = ref_Failed)).
Record booked s s' (o : Order) (key fp : string) (k : nat) (p : Payment) (amount : Z) : Prop := {
  bk_payment : p ∈ sd_payments (snd s) /\ py_orderId p = so_id o;
  bk_amount : 0 <= amount /\ (amount = 0 \/ amount <= py_amount p - reserved_money (snd s) (so_id o) (py_id p));
  bk_payments : sd_payments (snd s') = sd_payments (snd s);
  bk_refunds : exists r, refund_facts r = (gen_random_uuid (S k), so_id o, py_id p, amount, Some (gen_random_uuid k)) /\ rf_state r = ref_Pending /\
    Forall2 (move false) (sd_refunds (snd s) ++ [r]) (sd_refunds (snd s'));
  bk_attempts : exists m, map attempt_facts (rt_attempts (sd_other (snd s'))) =
    map attempt_facts (rt_attempts (sd_other (snd s))) ++ [(gen_random_uuid k, so_id o, "refund"%string, m, key, fp)];
  bk_fresh : (sd_fresh (snd s) <= k)%nat /\ (S (S k) <= sd_fresh (snd s'))%nat
}.

Lemma order_evidence_aside d o i redemptions d' ev : order_evidence d o i redemptions = Ok (d', ev) -> aside d d'.
Proof.
  unfold order_evidence. destruct (is_nil _); [by intros [= <- _]|]. destruct (readCurrentCreditEvidence _ _) as [[e|]|]; [|by intros [= <- _]|discriminate].
  destruct (linked_pending _ _); [by intros [= <- _]|]. destruct (anchorImportedCreditOrigin _ _) as [[d1 e1]|] eqn:E; [|discriminate].
  intros [= <- _]. by eapply (anchor_aside registeredPaymentPolicies).
Qed.
Lemma write_refund_booked now s o i key fp p rma u snapshots edits authority amount items ship s' aid pay am cur cm :
  p ∈ sd_payments (snd s) -> py_orderId p = so_id o ->
  0 <= amount /\ (amount = 0 \/ amount <= py_amount p - reserved_money (snd s) (so_id o) (py_id p)) ->
  write_refund gen_random_uuid now s o i key fp p rma u snapshots edits authority amount items ship = Ok (s', Reserved aid pay am cur cm) ->
  booked s s' o key fp (sd_fresh (snd s)) p amount /\ aid = gen_random_uuid (sd_fresh (snd s)) /\ pay = p.
Proof.
  intros Hp Ho Ha H. unfold write_refund in H. inv_ok.
  match type of Em0 with context [bindPreparedEditRefund (_, ?D) _ _ _] => set (d2 := D) in * end.
  assert (F : forward false d2 (snd a0)).
  { destruct (fq_editId i) as [e|]; [|by inv_ok]. destruct (nonempty _); [|by inv_ok].
    destruct (bindPreparedEditRefund _ _ _ _) as [s3|] eqn:B; [|discriminate]. inv_ok. by apply (bind_forward registeredPaymentPolicies) in B. }
  destruct F as [Fs Fp Fr Fa Fl Ff]. split; [|done].
  match goal with |- context [booked _ (?a, ?D)] => set (d5 := D) end.
  assert (E5 : sd_payments d5 = sd_payments (snd a0) /\ sd_refunds d5 = sd_refunds (snd a0) /\ rt_attempts (sd_other d5) = rt_attempts (sd_other (snd a0)) /\ sd_fresh d5 = sd_fresh (snd a0))
    by (subst d5; by destruct rma).
  destruct E5 as (E1 & E2 & E3 & E4). constructor; cbn [snd]; rewrite ?E1, ?E2, ?E3, ?E4; try done.
  - eexists. split; [|split; [|exact Fr]]; done.
  - eexists. rewrite Fa. cbn. rewrite map_app. done.
Qed.
Lemma credit_authority_free d o i p u l redemptions ex amount items ship a :
  credit_authority d o i p u l redemptions ex amount items ship = Ok a -> amount = 0.
Proof. unfold credit_authority. intros H. inv_ok. bool_props. lia. Qed.
Lemma check_cash_bound p amount available x : check_cash p amount available = Ok x -> 1 <= amount <= available.
Proof. unfold check_cash. intros H. inv_ok. bool_props. lia. Qed.
Lemma reserve_booked now s o i key fp s' aid p am cur cm : 
  reserve_refund gen_random_uuid now s o i key fp = Ok (s', Reserved aid p am cur cm) ->
  exists k amount, booked s s' o key fp k p amount /\ aid = gen_random_uuid k.
Proof.
  intros H. unfold reserve_refund in H. destruct (refundable_state o i); [|discriminate]. inv_ok.
  destruct a0 as [p0 pays]. inv_ok. destruct a0 as [[lines ex] auto]. inv_ok. destruct a0 as [d1 ev].
  assert (P : p0 ∈ sd_payments (snd s) /\ py_orderId p0 = so_id o).
  { unfold choose_payment in Em0. cbv zeta in Em0.
    match type of Em0 with match ?c with _ => _ end = _ => destruct c as [q|] eqn:C; [|discriminate] end. destruct (_ || _); [|discriminate]. destruct (negb _); [|discriminate].
    injection Em0 as -> _. assert (Q : p0 ∈ settled_payments (snd s) (so_id o)).
    { destruct (nonempty _); [by apply find_elem in C as [C _]|]. remember (List.filter _ _) as l eqn:El in C. destruct l as [|x []]; try discriminate. injection C as ->.
      assert (X : p0 ∈ [p0]) by left. rewrite El in X. by apply elem_filter_bool in X as [X _]. }
    apply elem_filter_bool in Q as [Q T]. split; [done|]. unfold settled_of in T. apply andb_prop in T as [T _]. by apply String.eqb_eq in T. }
  destruct P as [Pin Po]. apply order_evidence_aside in Em2.
  destruct (unit_facts _ _ _ _ _ _ _) as [u|]; [|discriminate]. inv_ok.
  match type of H with write_refund _ _ _ _ _ _ _ _ _ _ _ _ _ ?am _ _ = _ => set (amount := am) in * end.
  assert (A : 0 <= amount /\ (amount = 0 \/ amount <= py_amount p0 - reserved_money (snd s) (so_id o) (py_id p0))).
  { clear H. destruct (fq_creditMerchandiseReturn i).
    - destruct (credit_authority _ _ _ _ _ _ _ _ _ _ _) eqn:C in Em5; [|discriminate]. apply credit_authority_free in C. lia.
    - destruct (check_cash _ _ _) eqn:C in Em5; [|discriminate]. apply check_cash_bound in C. lia. }
  pose proof Em2 as [As Ap Ar Ao At Ac _ Af].
  apply write_refund_booked in H as ([B1 B2 B3 B4 B5 B6] & -> & ->); cbn [snd] in *.
  - exists (sd_fresh d1), amount. split; [|done]. constructor; try done.
    + congruence.
    + destruct B4 as (r & R1 & R2 & R3). exists r. rewrite <- Ar. done.
    + destruct B5 as (m & B5). exists m. by rewrite B5, At.
    + lia.
  - by rewrite Ap.
  - done.
  - unfold reserved_money in *. by rewrite Ar.
Qed.

(** ** The same key again *)

Lemma current_view_id s id s' v : current_view s id = Ok (s', v) -> s' = s /\ vw_refundId v = id.
Proof.
  unfold current_view. destruct (refund_row _ _) as [r|] eqn:R; [|discriminate]. unfold refundView. destruct (order_row _ _); cbn; [|discriminate].
  intros [= <- <-]. split; [done|]. apply find_elem in R as [_ R]. by apply String.eqb_eq in R.
Qed.
Lemma resume_forward now s orderId fp prior s' pr : NoDup (map rf_id (sd_refunds (snd s))) ->
  resume_prior gen_random_uuid registeredPaymentPolicies now s orderId fp prior = Ok (s', pr) ->
  va_fingerprint prior = fp /\ va_orderId prior = orderId /\ forward false (snd s) (snd s') /\
  exists r v, refund_of_attempt (snd s) (va_id prior) = Some r /\ pr = Existing v /\ vw_refundId v = rf_id r.
Proof.
  intros Hn H. unfold resume_prior in H. inv_ok. apply andb_prop in Eb as [Eb E3]. apply andb_prop in Eb as [_ E2]. apply String.eqb_eq in E2, E3.
  split; [done|]. split; [done|]. destruct (refund_of_attempt _ _) as [r|] eqn:R; [|discriminate]. inv_ok. destruct a0 as [s2 v].
  apply current_view_id in Em0 as [-> V]. split; [|by exists r, v]. cbn [fst snd].
  assert (F : forall ref q, rf_state r <> ref_Failed -> finalize now s (va_id prior) {| rr_state := ref_Settled; rr_providerRef := ref |} = Ok q -> forward false (snd s) (snd (fst q))).
  { intros ref [q w] S Q. eapply (finalize_forward gen_random_uuid registeredPaymentPolicies false); [exact Hn| |exact Q].
    intros x X [Y1 _]. rewrite R in X. injection X as <-. done. }
  match type of Em with (if ?b then _ else _) = _ => destruct b eqn:B1 end.
  - inv_ok. eapply F; [|exact Em0]. apply andb_prop in B1 as [B1 _]. apply andb_prop in B1 as [_ B1]. apply bool_decide_eq_true in B1. congruence.
  - destruct (bool_decide (rf_state r = ref_Settled)) eqn:B2; [|by inv_ok]. apply bool_decide_eq_true in B2.
    match type of Em with (if ?b then _ else _) = _ => destruct b end; inv_ok; [|apply (forward_restore registeredPaymentPolicies)].
    eapply F; [|exact Em0]. congruence.
Qed.
Definition request_key (i : RefundRequest) : string := ("refund:" ++ fq_idempotencyKey i)%string.
Lemma prepare_cases now s i s' pr : NoDup (map rf_id (sd_refunds (snd s))) -> prepare now s i = Ok (s', pr) ->
  let fp := requestFingerprint sha256 localeAfter i in
  exists o, order_row (snd s) (fq_orderId i) = Some o /\ check_request i = Ok tt /\
  ((exists prior r v, prior_attempt (snd s) (request_key i) = Some prior /\ va_fingerprint prior = fp /\ va_orderId prior = so_id o /\
      refund_of_attempt (snd s) (va_id prior) = Some r /\ pr = Existing v /\ vw_refundId v = rf_id r /\ forward false (snd s) (snd s')) \/
   (prior_attempt (snd s) (request_key i) = None /\ reserve_refund gen_random_uuid now s o i (request_key i) fp = Ok (s', pr) /\
    exists k p am cur cm amount, pr = Reserved (gen_random_uuid k) p am cur cm /\ booked s s' o (request_key i) fp k p amount)).
Proof.
  intros Hn H fp. unfold prepareRefund in H. cbv zeta in H. inv_ok. destruct a. destruct (order_row _ _) as [o|]; [|discriminate]. exists o. split; [done|]. split; [done|].
  inv_ok. fold (request_key i) in H. destruct (prior_attempt _ _) as [prior|].
  - left. apply resume_forward in H as (A & B & C & r & v & D & E & F); [|done]. by exists prior, r, v.
  - right. split; [done|]. split; [exact H|]. destruct pr as [v|aid p am cur cm].
    + exfalso. unfold reserve_refund in H. inv_ok. destruct a0. inv_ok. destruct a0 as [[] ]. inv_ok. destruct a0. destruct (unit_facts _ _ _ _ _ _ _); [|discriminate].
      unfold write_refund in H. inv_ok. discriminate.
    + apply reserve_booked in H as H'. destruct H' as (k & amount & H' & ->). by exists k, p, am, cur, cm, amount.
Qed.

(** ** Money *)

Definition payment_facts (p : Payment) := (py_id p, py_orderId p, py_amount p).
Definition live (r : Refund) : bool := negb (bool_decide (rf_state r = ref_Failed)).
(** What a step that is not a request opened on a payment: the rows live after it
    that were not there, or failed, before it (dashboard refunds, imported rows,
    failed refunds that settle after all). *)
Definition was_live (rs : list Refund) (r' : Refund) : bool := existsb (fun r => String.eqb (rf_id r) (rf_id r') && live r) rs.
Definition held_sum orderId paymentId (l : list Refund) : Z := sumZ (map rf_amount (List.filter (holds_on orderId paymentId) l)).
Definition opened_money d d' orderId paymentId : Z :=
  held_sum orderId paymentId (List.filter (fun r' => negb (was_live (sd_refunds d) r')) (sd_refunds d')).

(** One step: a request, an answer to an attempt, or anything else the program
    does. The last includes what webhooks and imports write: rows without an
    attempt in any state and of any amount, and any change of state of the rows
    there are; the columns a refund is made with never change, and payments keep
    id, order and amount. An order purge, which takes its refunds and payments
    with it, is not a step. *)
Inductive refund_step d d' : bool -> Prop :=
  | step_request now fx fx' i pr : prepare now (fx, d) i = Ok ((fx', d'), pr) -> refund_step d d' true
  | step_finalize now fx fx' aid ans v : finalize now (fx, d) aid ans = Ok ((fx', d'), v) -> refund_step d d' false
  | step_elsewhere moved added : sd_refunds d' = moved ++ added -> map refund_facts moved = map refund_facts (sd_refunds d) ->
      Forall (fun r => rf_attemptId r = None /\ 0 <= rf_amount r /\ forall j, (sd_fresh d' <= j)%nat -> rf_id r <> gen_random_uuid j) added ->
      NoDup (map rf_id (sd_refunds d')) -> NoDup (map py_id (sd_payments d')) -> (sd_fresh d <= sd_fresh d')%nat ->
      map attempt_facts (rt_attempts (sd_other d)) `prefix_of` map attempt_facts (rt_attempts (sd_other d')) ->
      (forall p, p ∈ sd_payments d' -> payment_facts p ∈ map payment_facts (sd_payments d) \/ py_id p ∉ map rf_paymentId (sd_refunds d')) -> refund_step d d' false.
Definition refund_moves d d' : Prop := exists requested, refund_step d d' requested.
(** A run, with the money each payment had opened from outside the requests. *)
Inductive refund_run : (string -> string -> Z) -> Db -> Prop :=
  | refund_start d : sd_refunds d = [] -> NoDup (map py_id (sd_payments d)) -> refund_run (fun _ _ => 0) d
  | refund_next out d d' requested : refund_run out d -> refund_step d d' requested ->
      refund_run (fun o p => out o p + if requested then 0 else opened_money d d' o p) d'.

Record sound (rs : list Refund) (fresh : nat) (ps : list Payment) : Prop := {
  sn_ids : NoDup (map rf_id rs);
  sn_made : Forall (fun r => forall j, (fresh <= j)%nat -> rf_id r <> gen_random_uuid j /\ rf_attemptId r <> Some (gen_random_uuid j)) rs;
  sn_amounts : Forall (fun r => 0 <= rf_amount r) rs;
  sn_payments : NoDup (map py_id ps)
}.
Lemma held_sum_app o p l l' : held_sum o p (l ++ l') = held_sum o p l + held_sum o p l'.
Proof. unfold held_sum. by rewrite List.filter_app, map_app, sumZ_app. Qed.
Lemma held_sum_cons o p r l : held_sum o p (r :: l) = (if holds_on o p r then rf_amount r else 0) + held_sum o p l.
Proof. unfold held_sum. cbn [List.filter]. by destruct (holds_on o p r). Qed.
Lemma held_sum_pos o p l : Forall (fun r => 0 <= rf_amount r) l -> 0 <= held_sum o p l.
Proof. induction 1 as [|r l Hr _ IH]; [done|]. rewrite held_sum_cons. destruct (holds_on o p r); lia. Qed.
Lemma holds_live o p r : holds_on o p r = true -> live r = true.
Proof. unfold holds_on, live. intros H. by apply andb_prop in H as [_ H]. Qed.
Lemma holds_move o p r r' : move false r r' -> holds_on o p r = false -> holds_on o p r' = false.
Proof.
  intros [E S]. unfold holds_on, refund_facts in *. injection E as _ -> -> _ _. destruct (_ && String.eqb (rf_paymentId r) p); cbn [andb]; [|done].
  destruct S as [->|[->|(S & _)]]; done.
Qed.
Lemma held_sum_move o p l l' : Forall (fun r => 0 <= rf_amount r) l -> Forall2 (move false) l l' -> held_sum o p l' <= held_sum o p l.
Proof.
  intros H F. induction F as [|r r' l l' M F IH]; [done|]. apply Forall_cons in H as [H0 H]. specialize (IH H). rewrite !held_sum_cons.
  pose proof (holds_move o p r r' M) as X. destruct M as [E _]. unfold refund_facts in E. injection E as _ _ _ -> _.
  destruct (holds_on o p r); [destruct (holds_on o p r'); lia|]. rewrite X by done. lia.
Qed.
Lemma move_facts rv l l' : Forall2 (move rv) l l' -> map refund_facts l' = map refund_facts l.
Proof. induction 1 as [|r r' l l' [E _] _ IH]; cbn; [done|]. by rewrite E, IH. Qed.
(** Rows that kept the columns they were made with keep what those columns say. *)
Lemma facts_map {B} (g : Refund -> B) (h : _ -> B) l l' : (forall r, g r = h (refund_facts r)) -> map refund_facts l' = map refund_facts l -> map g l' = map g l.
Proof. intros Hg E. rewrite !(map_ext g (fun r => h (refund_facts r))) by done. rewrite <- !(map_map refund_facts h). by rewrite E. Qed.
Lemma map_Forall2 {A B} (f : A -> B) l l' : map f l' = map f l -> Forall2 (fun x x' => f x' = f x) l l'.
Proof. revert l'. induction l as [|x l IH]; intros [|x' l'] E; try discriminate; [done|]. injection E as Ex E. constructor; [done|by apply IH]. Qed.
Lemma facts_forall (P : Refund -> Prop) l l' : (forall r r', refund_facts r' = refund_facts r -> P r -> P r') -> map refund_facts l' = map refund_facts l -> Forall P l -> Forall P l'.
Proof. intros Hp E%map_Forall2. induction E as [|r r' l l' Er _ IH]; intros H; [done|]. apply Forall_cons in H as [Hr H]. constructor; eauto. Qed.
Lemma facts_ids l l' : map refund_facts l' = map refund_facts l -> map rf_id l' = map rf_id l.
Proof. by apply (facts_map _ (fun x => fst (fst (fst (fst x))))). Qed.

Lemma sound_extends rs n ps moved added n' ps' : sound rs n ps -> map refund_facts moved = map refund_facts rs -> (n <= n')%nat ->
  Forall (fun r => 0 <= rf_amount r /\ forall j, (n' <= j)%nat -> rf_id r <> gen_random_uuid j /\ rf_attemptId r <> Some (gen_random_uuid j)) added ->
  NoDup (map rf_id (moved ++ added)) -> NoDup (map py_id ps') -> sound (moved ++ added) n' ps'.
Proof.
  intros [I M A P] F Hf Ha Hd Hp. constructor; [done| | |done]; apply Forall_app; split.
  - eapply facts_forall; [|exact F|eapply Forall_impl; [exact M|]]; cbn.
    + intros r r' E H j Hj. unfold refund_facts in E. injection E as X1 _ _ _ X2. rewrite X1, X2. by apply H.
    + intros r H j Hj. apply H. lia.
  - eapply Forall_impl; [exact Ha|]. by intros r [_ H].
  - eapply facts_forall; [|exact F|exact A]. intros r r' E H. unfold refund_facts in E. injection E as _ _ _ -> _. exact H.
  - eapply Forall_impl; [exact Ha|]. by intros r [H _].
Qed.
Lemma sound_forward rv d d' : sound (sd_refunds d) (sd_fresh d) (sd_payments d) -> forward rv d d' -> sound (sd_refunds d') (sd_fresh d') (sd_payments d').
Proof.
  intros H [_ Hp Hr _ _ Hf]. apply move_facts in Hr. rewrite <- (app_nil_r (sd_refunds d')).
  eapply sound_extends; [exact H|exact Hr|exact Hf|constructor| |rewrite Hp; apply H]. rewrite app_nil_r, (facts_ids _ _ Hr). apply H.
Qed.
Lemma sound_booked s s' o key fp k p amount : (forall a b, gen_random_uuid a = gen_random_uuid b -> a = b) ->
  sound (sd_refunds (snd s)) (sd_fresh (snd s)) (sd_payments (snd s)) -> booked s s' o key fp k p amount ->
  sound (sd_refunds (snd s')) (sd_fresh (snd s')) (sd_payments (snd s')).
Proof.
  intros Hg S [_ [Ha _] Ep (r & E & Er & F) _ [Hk1 Hk2]]. unfold refund_facts in E. injection E as E1 E2 E3 E4 E5.
  apply Forall2_app_inv_l in F as (m & x & Fm & Fx & ->). apply move_facts in Fm, Fx.
  eapply sound_extends; [exact S|exact Fm|lia| | |rewrite Ep; apply S].
  - eapply facts_forall; [|exact Fx|apply Forall_singleton]; cbn.
    + intros r1 r2 E H. unfold refund_facts in E. injection E as X1 _ _ X4 X5. rewrite X1, X4, X5. exact H.
    + split; [lia|]. intros j Hj. rewrite E1, E5. split; [|intros [= H]]; [intros H|]; apply Hg in H; lia.
  - rewrite map_app, (facts_ids _ _ Fm), (facts_ids _ _ Fx), <- map_app. apply NoDup_map_snoc; [apply S|]. rewrite E1. intros H.
    apply list_elem_of_fmap in H as (x' & X & Hx). apply (proj1 (Forall_forall _ _) (sn_made _ _ _ S)) with (j := Datatypes.S k) in Hx as [Hx _]; [congruence|lia].
Qed.
Lemma sound_step d d' requested : (forall a b, gen_random_uuid a = gen_random_uuid b -> a = b) ->
  sound (sd_refunds d) (sd_fresh d) (sd_payments d) -> refund_step d d' requested -> sound (sd_refunds d') (sd_fresh d') (sd_payments d').
Proof.
  intros Hg IH [now fx fx' i pr Q|now fx fx' aid ans v Q|moved added E F Ha Hn Hp Hf _ _].
  - apply prepare_cases in Q as (o & _ & _ & [(? & ? & ? & _ & _ & _ & _ & _ & _ & G)|(_ & _ & k & p & ? & ? & ? & am & _ & Bk)]); [..|apply IH].
    + by eapply sound_forward.
    + by eapply (sound_booked (fx, d) (fx', d')).
  - eapply (finalize_forward _ registeredPaymentPolicies true) in Q; [by eapply sound_forward|apply IH|done].
  - rewrite E in *. eapply sound_extends; try done. eapply Forall_impl; [exact Ha|]. intros r (-> & A & B). split; [done|]. intros j Hj. split; [by apply B|done].
Qed.
Lemma sound_run out d : (forall a b, gen_random_uuid a = gen_random_uuid b -> a = b) -> refund_run out d -> sound (sd_refunds d) (sd_fresh d) (sd_payments d).
Proof.
  intros Hg H. induction H as [d E Hn|out d d' requested _ IH St]; [|by eapply sound_step].
  rewrite E. constructor; try done; constructor.
Qed.

(** *** How much a step can raise what a payment holds *)

Lemma was_live_row rs r r' : NoDup (map rf_id rs) -> r ∈ rs -> rf_id r' = rf_id r -> was_live rs r' = live r.
Proof.
  intros Hn Hr E. unfold was_live. destruct (live r) eqn:L.
  - apply existsb_exists. exists r. split; [by apply list_elem_of_In|]. by rewrite E, String.eqb_refl, L.
  - apply not_true_is_false. rewrite existsb_exists. intros (x & Hx & H). apply andb_prop in H as [H1 H2]. apply String.eqb_eq in H1. apply list_elem_of_In in Hx.
    assert (x = r) as -> by (eapply NoDup_map_inj; [exact Hn|done|done|congruence]). congruence.
Qed.
Lemma was_live_new rs r' : rf_id r' ∉ map rf_id rs -> was_live rs r' = false.
Proof.
  intros H. apply not_true_is_false. unfold was_live. rewrite existsb_exists. intros (x & Hx & E). apply andb_prop in E as [E _]. apply String.eqb_eq in E.
  apply H. rewrite <- E. apply list_elem_of_fmap. exists x. split; [done|by apply list_elem_of_In].
Qed.
Lemma holds_facts o p r r' : refund_facts r' = refund_facts r -> live r = true -> holds_on o p r' = true -> holds_on o p r = true.
Proof. unfold refund_facts, holds_on, live. intros E. injection E as _ -> -> _ _. intros ->. rewrite andb_true_r. intros H. by apply andb_prop in H as [-> _]. Qed.
Lemma held_reopened rs o p old moved : NoDup (map rf_id rs) -> (forall r, r ∈ old -> r ∈ rs) -> Forall (fun r => 0 <= rf_amount r) old ->
  map refund_facts moved = map refund_facts old ->
  held_sum o p moved <= held_sum o p old + held_sum o p (List.filter (fun r' => negb (was_live rs r')) moved).
Proof.
  intros Hn Hin Ha E%map_Forall2. revert Hin Ha. induction E as [|r r' old moved Er _ IH]; intros Hin Ha; [done|].
  apply Forall_cons in Ha as [A0 Ha]. specialize (IH (fun x Hx => Hin x (list_elem_of_further _ _ _ Hx)) Ha). cbn [List.filter].
  pose proof Er as Er'. unfold refund_facts in Er'. injection Er' as Ei _ _ Ea _. rewrite (was_live_row rs r r' Hn (Hin r (list_elem_of_here _ _)) Ei).
  destruct (live r) eqn:L; cbn [negb]; rewrite !held_sum_cons, Ea.
  - destruct (holds_on o p r') eqn:H; [rewrite (holds_facts o p r r' Er L H); lia|]. destruct (holds_on o p r); lia.
  - destruct (holds_on o p r) eqn:H; [apply holds_live in H; congruence|]. lia.
Qed.
(** A step raises a payment's live refunds by no more than what it opened. *)
Lemma held_extends rs o p moved added : NoDup (map rf_id rs) -> Forall (fun r => 0 <= rf_amount r) rs -> map refund_facts moved = map refund_facts rs ->
  NoDup (map rf_id (moved ++ added)) ->
  held_sum o p (moved ++ added) <= held_sum o p rs + held_sum o p (List.filter (fun r' => negb (was_live rs r')) (moved ++ added)).
Proof.
  intros Hn Ha F Hd. rewrite List.filter_app, !held_sum_app. pose proof (held_reopened rs o p rs moved Hn (fun _ H => H) Ha F) as H.
  rewrite (forallb_filter_id _ added); [lia|]. apply forallb_forall. intros r Hr. rewrite was_live_new; [done|].
  rewrite map_app, (facts_ids _ _ F) in Hd. apply NoDup_app in Hd as (_ & Hd & _). intros X. apply (Hd _ X). apply list_elem_of_fmap. exists r. split; [done|by apply list_elem_of_In].
Qed.
Lemma finalize_raises d d' fx fx' now aid ans v o p : sound (sd_refunds d) (sd_fresh d) (sd_payments d) -> finalize now (fx, d) aid ans = Ok ((fx', d'), v) ->
  sd_payments d' = sd_payments d /\ held_sum o p (sd_refunds d') <= held_sum o p (sd_refunds d) + opened_money d d' o p /\
  ((forall r, refund_of_attempt d aid = Some r -> ~ settles_failed r ans) -> held_sum o p (sd_refunds d') <= held_sum o p (sd_refunds d)).
Proof.
  intros S Q. pose proof Q as G. eapply (finalize_forward _ registeredPaymentPolicies true) in G as [_ Ep G _ _ _]; [|apply S|done]. cbn [snd] in *. apply move_facts in G.
  split; [done|]. split.
  - unfold opened_money. rewrite <- (app_nil_r (sd_refunds d')). apply held_extends; [apply S|apply S|done|]. rewrite app_nil_r, (facts_ids _ _ G). apply S.
  - intros Hv. eapply (finalize_forward _ registeredPaymentPolicies false) in Q as [_ _ Q _ _ _]; [|apply S|]; [apply held_sum_move; [apply S|done]|].
    intros r Hr Sf. by destruct (Hv r Hr).
Qed.
Lemma prepare_payments d d' fx fx' now i pr : sound (sd_refunds d) (sd_fresh d) (sd_payments d) -> prepare now (fx, d) i = Ok ((fx', d'), pr) -> sd_payments d' = sd_payments d.
Proof.
  intros S Q. apply prepare_cases in Q as (o & _ & _ & [(? & ? & ? & _ & _ & _ & _ & _ & _ & G)|(_ & _ & k & p & ? & ? & ? & am & _ & Bk)]); [..|apply S]; [apply G|apply Bk].
Qed.
(** A request raises a payment's live refunds to at most what it captured. *)
Lemma prepare_raises d d' fx fx' now i pr q : sound (sd_refunds d) (sd_fresh d) (sd_payments d) -> prepare now (fx, d) i = Ok ((fx', d'), pr) -> q ∈ sd_payments d ->
  held_sum (py_orderId q) (py_id q) (sd_refunds d') <= Z.max (held_sum (py_orderId q) (py_id q) (sd_refunds d)) (py_amount q).
Proof.
  intros S Q Hq. apply prepare_cases in Q as (o & _ & _ & [(? & ? & ? & _ & _ & _ & _ & _ & _ & G)|(_ & _ & k & p & ? & ? & ? & am & _ & Bk)]); [..|apply S].
  - destruct G as [_ _ G _ _ _]. cbn [snd] in *. pose proof (held_sum_move (py_orderId q) (py_id q) _ _ (sn_amounts _ _ _ S) G). lia.
  - destruct Bk as [[Hp Ho] [Ha1 Ha2] _ (r & E & Er & F) _ _]. cbn [snd] in *. unfold refund_facts in E. injection E as E1 E2 E3 E4 E5.
    etrans; [eapply held_sum_move; [|exact F]|]; [apply Forall_app; split; [apply S|apply Forall_singleton; lia]|].
    rewrite held_sum_app, held_sum_cons. change (held_sum _ _ []) with 0. destruct (holds_on _ _ r) eqn:Hh; [|lia].
    unfold holds_on in Hh. apply andb_prop in Hh as [Hh _]. apply andb_prop in Hh as [_ Hh]. apply String.eqb_eq in Hh.
    assert (q = p) as -> by (eapply NoDup_map_inj; [apply S|done|done|congruence]). rewrite Ho in *.
    change (reserved_money d (so_id o) (py_id p)) with (held_sum (so_id o) (py_id p) (sd_refunds d)) in Ha2. lia.
Qed.
Lemma held_none o p rs : p ∉ map rf_paymentId rs -> held_sum o p rs = 0.
Proof.
  intros H. unfold held_sum. rewrite filter_existsb_none; [done|]. apply not_true_is_false. rewrite existsb_exists. intros (r & Hr & Hh). apply H.
  apply list_elem_of_fmap. exists r. split; [|by apply list_elem_of_In]. unfold holds_on in Hh. apply andb_prop in Hh as [Hh _]. apply andb_prop in Hh as [_ Hh].
  by apply String.eqb_eq in Hh.
Qed.
Lemma opened_pos d d' o p : Forall (fun r => 0 <= rf_amount r) (sd_refunds d') -> 0 <= opened_money d d' o p.
Proof. intros H. apply held_sum_pos. apply Forall_forall. intros r Hr. apply list_elem_of_In, filter_In in Hr as [Hr _]. rewrite Forall_forall in H. by apply H, list_elem_of_In. Qed.
Lemma bounded_run out d : (forall a b, gen_random_uuid a = gen_random_uuid b -> a = b) -> refund_run out d ->
  (forall o p, 0 <= out o p) /\
  forall p, p ∈ sd_payments d -> held_sum (py_orderId p) (py_id p) (sd_refunds d) <= Z.max 0 (py_amount p) + out (py_orderId p) (py_id p).
Proof.
  intros Hg H. induction H as [d E Hn|out d d' requested R [Hout IH] St].
  - split; [done|]. intros p _. rewrite E. change (held_sum _ _ []) with 0. lia.
  - pose proof (sound_run _ _ Hg R) as S. pose proof (sound_step _ _ _ Hg S St) as S'.
    assert (O : forall o p, 0 <= out o p + (if requested then 0 else opened_money d d' o p)).
    { intros o p. specialize (Hout o p). destruct requested; [lia|]. pose proof (opened_pos d d' o p (sn_amounts _ _ _ S')). lia. }
    split; [done|]. intros p Hp. destruct St as [now fx fx' i pr Q|now fx fx' aid ans v Q|moved added E F Ha Hn Hpn _ _ Hps].
    + pose proof (prepare_payments _ _ _ _ _ _ _ S Q) as Ep. rewrite Ep in Hp. pose proof (prepare_raises _ _ _ _ _ _ _ p S Q Hp).
      specialize (IH p Hp). specialize (Hout (py_orderId p) (py_id p)). lia.
    + destruct (finalize_raises _ _ _ _ _ _ _ _ (py_orderId p) (py_id p) S Q) as (Ep & B & _). rewrite Ep in Hp. specialize (IH p Hp). lia.
    + pose proof (held_extends (sd_refunds d) (py_orderId p) (py_id p) moved added (sn_ids _ _ _ S) (sn_amounts _ _ _ S) F) as B.
      rewrite <- E in B. specialize (B Hn). fold (opened_money d d' (py_orderId p) (py_id p)) in B. destruct (Hps p Hp) as [H|H].
      * apply list_elem_of_fmap in H as (q & Eq & Hq). unfold payment_facts in Eq. injection Eq as E1 E2 E3. specialize (IH q Hq). rewrite E1, E2, E3 in *. lia.
      * rewrite held_none by done. specialize (O (py_orderId p) (py_id p)). cbn in O. lia.
Qed.

(** C2: Whatever providers report and imports bring in, the refund workflow never
    pays out beyond a payment. Along every run a payment's refunds that are not
    failed hold at most what it captured plus the money opened on it from outside
    the requests (rows webhooks and imports insert, failed refunds that settle
    after all); a request raises them at most to the captured amount, even when
    outside rows are there already, and an answer to a refund not reported failed
    never raises them. Refund ids stay unique and no amount is negative. *)
Theorem refund_never_exceeds_payment out d : (forall a b, gen_random_uuid a = gen_random_uuid b -> a = b) -> refund_run out d ->
  NoDup (map rf_id (sd_refunds d)) /\ Forall (fun r => 0 <= rf_amount r) (sd_refunds d) /\
  forall p, p ∈ sd_payments d ->
    reserved_money d (py_orderId p) (py_id p) <= Z.max 0 (py_amount p) + out (py_orderId p) (py_id p) /\
    (forall now fx i fx' d' pr, prepare now (fx, d) i = Ok ((fx', d'), pr) ->
       reserved_money d' (py_orderId p) (py_id p) <= Z.max (reserved_money d (py_orderId p) (py_id p)) (py_amount p)) /\
    (forall now fx aid ans fx' d' v, finalize now (fx, d) aid ans = Ok ((fx', d'), v) ->
       (forall r, refund_of_attempt d aid = Some r -> ~ settles_failed r ans) ->
       reserved_money d' (py_orderId p) (py_id p) <= reserved_money d (py_orderId p) (py_id p)).
Proof.
  intros Hg H. pose proof (sound_run _ _ Hg H) as S. split; [apply S|]. split; [apply S|]. intros p Hp.
  split; [by apply (bounded_run out d Hg H)|]. split.
  - intros now fx i fx' d' pr Q. by apply (prepare_raises _ _ _ _ _ _ _ p S Q).
  - intros now fx aid ans fx' d' v Q. by apply (finalize_raises _ _ _ _ _ _ _ _ (py_orderId p) (py_id p) S Q).
Qed.

(** ** One refund per key *)

Lemma find_map_facts {A B} (g : A -> B) (p : A -> bool) (q : B -> bool) (l : list A) : (forall x, p x = q (g x)) ->
  option_map g (List.find p l) = List.find q (map g l).
Proof. intros H. induction l as [|x xs IH]; cbn; [done|]. rewrite <- H. by destruct (p x). Qed.
Lemma find_app_none {A} (p : A -> bool) l1 l2 : List.find p l1 = None -> List.find p (l1 ++ l2) = List.find p l2.
Proof. induction l1 as [|x xs IH]; cbn; [done|]. by destruct (p x). Qed.
Lemma find_prefix {A} (p : A -> bool) l1 l2 x : l1 `prefix_of` l2 -> List.find p l1 = Some x -> List.find p l2 = Some x.
Proof. intros [k ->]. induction l1 as [|y ys IH]; cbn; [done|]. by destruct (p y). Qed.

Record later d d' : Prop := {
  lt_refunds : map refund_facts (sd_refunds d) `prefix_of` map refund_facts (sd_refunds d');
  lt_attempts : map attempt_facts (rt_attempts (sd_other d)) `prefix_of` map attempt_facts (rt_attempts (sd_other d'))
}.
#[export] Instance later_preorder : PreOrder later.
Proof. split; [by constructor|]. intros a b c [] []. constructor; by etrans. Qed.
Lemma forward_later rv d d' : forward rv d d' -> later d d'.
Proof.
  intros [_ _ F A _ _]. constructor; [|by rewrite A]. rewrite (move_facts _ _ _ F). done.
Qed.
Lemma booked_later s s' o key fp k p amount : booked s s' o key fp k p amount -> later (snd s) (snd s').
Proof.
  intros [_ _ _ (r & _ & _ & F) (m & A) _]. constructor; [|rewrite A; by eexists]. 
  rewrite (move_facts _ _ _ F). rewrite map_app. by eexists.
Qed.
Lemma later_step d d' requested : NoDup (map rf_id (sd_refunds d)) -> refund_step d d' requested -> later d d'.
Proof.
  intros Hn [now fx fx' i pr Q|now fx fx' aid ans v Q|moved added E F _ _ _ _ A _].
  - apply prepare_cases in Q as (o & _ & _ & [(? & ? & ? & _ & _ & _ & _ & _ & _ & F)|(_ & _ & k & p & ? & ? & ? & am & _ & Bk)]); [..|done].
    + by eapply forward_later.
    + by eapply (booked_later (fx, d) (fx', d')).
  - eapply (finalize_forward _ registeredPaymentPolicies true) in Q; [by eapply forward_later|done|done].
  - constructor; [|done]. rewrite E, map_app, F. by eexists.
Qed.
Lemma later_run d d' out : (forall a b, gen_random_uuid a = gen_random_uuid b -> a = b) -> refund_run out d -> rtc refund_moves d d' ->
  later d d' /\ exists out', refund_run out' d'.
Proof.
  intros Hg R H. revert out R. induction H as [d|d d1 d2 [requested St] _ IH]; intros out R; [by split; [done|exists out]|]. pose proof (sound_run _ d Hg R) as S.
  destruct (IH _ (refund_next _ d d1 _ R St)) as [L R2]. split; [|done]. etrans; [eapply later_step; [apply S|exact St]|exact L].
Qed.

Definition attempt_key (a : string * string * string * string * string * string) : string := snd (fst a).
Lemma find_none_all {A} (p : A -> bool) l : (forall x, x ∈ l -> p x = false) -> List.find p l = None.
Proof. intros H. induction l as [|x xs IH]; cbn; [done|]. rewrite (H x (list_elem_of_here _ _)). apply IH. intros y Hy. apply H. by right. Qed.
(** What a reserved request leaves for whoever asks again later. *)
Lemma booked_found s s' d o key fp k p amount : (forall a b, gen_random_uuid a = gen_random_uuid b -> a = b) ->
  sound (sd_refunds (snd s)) (sd_fresh (snd s)) (sd_payments (snd s)) ->
  booked s s' o key fp k p amount -> prior_attempt (snd s) key = None -> later (snd s') d ->
  exists a r, prior_attempt d key = Some a /\ va_id a = gen_random_uuid k /\ va_orderId a = so_id o /\ va_fingerprint a = fp /\
    refund_of_attempt d (va_id a) = Some r /\ refund_facts r = (gen_random_uuid (S k), so_id o, py_id p, amount, Some (gen_random_uuid k)).
Proof.
  intros Hg Hs [_ _ _ (r & E & _ & F) (m & A) [Hk _]] Hp [Lr La].
  set (q := fun x => String.eqb (attempt_key x) key). set (w := fun x : string * string * string * Z * option string => bool_decide (snd x = Some (gen_random_uuid k))).
  assert (Q : List.find q (map attempt_facts (rt_attempts (sd_other d))) = Some (gen_random_uuid k, so_id o, "refund"%string, m, key, fp)).
  { eapply find_prefix; [exact La|]. rewrite A. rewrite find_app_none; [cbn; by rewrite String.eqb_refl|].
    unfold q. rewrite <- (find_map_facts attempt_facts (fun a => String.eqb (va_idempotencyKey a) key)) by done. unfold prior_attempt in Hp. by rewrite Hp. }
  assert (W : List.find w (map refund_facts (sd_refunds d)) = Some (refund_facts r)).
  { eapply find_prefix; [exact Lr|]. rewrite (move_facts _ _ _ F). rewrite map_app, find_app_none.
    - cbn. unfold w. rewrite E. cbn. by rewrite bool_decide_eq_true_2.
    - apply find_none_all. intros x Hx. apply list_elem_of_fmap in Hx as (y & -> & Hy). apply (proj1 (Forall_forall _ _) (sn_made _ _ _ Hs)) with (j := k) in Hy as [_ Y1]; [|exact Hk].
      unfold w. cbn. by apply bool_decide_eq_false. }
  rewrite <- (find_map_facts attempt_facts (fun a => String.eqb (va_idempotencyKey a) key)) in Q by done. fold (prior_attempt d key) in Q.
  destruct (prior_attempt d key) as [a|]; [|discriminate]. cbn [option_map] in Q. unfold attempt_facts in Q. injection Q as Q1 Q2 _ _ _ Q3.
  rewrite <- (find_map_facts refund_facts (fun x => bool_decide (rf_attemptId x = Some (gen_random_uuid k)))) in W by done.
  destruct (List.find _ (sd_refunds d)) as [r'|] eqn:R in W; [|discriminate]. cbn [option_map] in W.
  assert (X : refund_facts r' = refund_facts r) by congruence. exists a, r'. unfold refund_of_attempt. rewrite Q1, R. split; [done|]. split; [done|]. split; [done|]. split; [done|]. split; [done|].
  by rewrite X.
Qed.

(** C6: A key buys one refund. After a request was reserved, whatever happens
    next, asking again with its key never reserves money: the request is refused
    or answered with the same refund, then only for the same order and the same
    fingerprint of its contents, and no refund row is added. *)
Theorem refund_request_idempotent out now s1 i s2 aid p am cur cm d3 now' fx j s4 pr : (forall a b, gen_random_uuid a = gen_random_uuid b -> a = b) ->
  refund_run out (snd s1) -> prepare now s1 i = Ok (s2, Reserved aid p am cur cm) -> rtc refund_moves (snd s2) d3 ->
  fq_idempotencyKey j = fq_idempotencyKey i -> prepare now' (fx, d3) j = Ok (s4, pr) ->
  exists r v, r ∈ sd_refunds d3 /\ rf_attemptId r = Some aid /\ pr = Existing v /\ vw_refundId v = rf_id r /\
    requestFingerprint sha256 localeAfter j = requestFingerprint sha256 localeAfter i /\
    map refund_facts (sd_refunds (snd s4)) = map refund_facts (sd_refunds d3).
Proof.
  intros Hg R1 P1 St K P2. pose proof (sound_run _ _ Hg R1) as S1.
  assert (R2 : exists out', refund_run out' (snd s2)) by (destruct s1 as [fx1 d1], s2 as [fx2 d2]; eexists; eapply refund_next; [exact R1|by eapply step_request]).
  destruct R2 as [out' R2]. destruct (later_run _ _ _ Hg R2 St) as [L [out3 R3]]. pose proof (sound_run _ _ Hg R3) as S3.
  apply prepare_cases in P1 as (o & _ & _ & [(? & ? & ? & _ & _ & _ & _ & [=] & _)|(N & _ & k & p' & ? & ? & ? & am' & E & B)]); [|apply S1].
  injection E as -> _ _ _ _. destruct (booked_found _ _ _ _ _ _ _ _ _ Hg S1 B N L) as (a & r & A1 & A2 & A3 & A4 & A5 & A6).
  unfold request_key in *. rewrite <- K in A1.
  apply prepare_cases in P2 as (o' & _ & _ & [(a' & r' & v & B1 & B2 & _ & B3 & -> & B4 & F)|(N' & _)]); [| |apply S3].
  - unfold request_key in B1. cbn [snd] in *. rewrite A1 in B1. injection B1 as <-. rewrite A5 in B3. injection B3 as <-. exists r, v.
    split; [by apply find_elem in A5 as [A5 _]|]. unfold refund_facts in A6. injection A6 as _ _ _ _ ->. split; [done|]. split; [done|]. split; [done|].
    split; [congruence|]. destruct F as [_ _ F _ _ _]. by rewrite (move_facts _ _ _ F).
  - unfold request_key in N'. cbn [snd] in N'. congruence.
Qed.

(** ** Units *)

Definition unit_share d o id (l : RefundLine) : Z :=
  match refund_row d (fl_refundId l) with
  | Some r => if String.eqb (rf_orderId r) o && negb (bool_decide (rf_state r = ref_Failed)) && negb (isEditRefund (rf_metadata r)) && String.eqb (fl_orderLineId l) id
              then fl_quantity l else 0
  | None => 0 end.
Lemma reserved_units_shares d o id : reserved_units d o id = sumZ (map (unit_share d o id) (ft_lines (tables d))).
Proof.
  unfold reserved_units, unit_reservations. generalize (ft_lines (tables d)) as ls. intros ls. induction ls as [|l ls IH]; [done|].
  cbn [map]. rewrite sumZ_cons, <- IH. clear IH. cbn. unfold unit_share. destruct (refund_row d (fl_refundId l)) as [r|]; [|done].
  destruct (_ && _ && negb (isEditRefund _)); [|done]. cbn [List.filter fst map andb]. destruct (String.eqb _ id); cbn [map]; rewrite ?sumZ_cons; done.
Qed.

Definition fits d orderId (orderLines : list OrderLine) (x : Selected) : Prop :=
  exists r, List.find (fun r => String.eqb (ol_id r) (ln_orderLineId (sl_line x))) orderLines = Some r /\
    1 <= ln_quantity (sl_line x) /\ ln_quantity (sl_line x) <= refundQuantity r - reserved_units d orderId (ln_orderLineId (sl_line x)).
Definition selected_id (x : Selected) : string := ln_orderLineId (sl_line x).
Lemma select_line_fits d orderId orderLines u cb acc l acc' : un_available u = None -> NoDup (map selected_id acc) /\ Forall (fits d orderId orderLines) acc ->
  select_line d orderId orderLines u cb acc l = Ok acc' -> NoDup (map selected_id acc') /\ Forall (fits d orderId orderLines) acc'.
Proof.
  intros Hu [Hn Hf] H. unfold select_line in H. destruct (List.find _ orderLines) as [r|] eqn:R; [|discriminate]. rewrite Hu in H. cbn [mbind option_bind] in H. inv_ok.
  match type of H with match ?c with _ => _ end = _ => destruct c as [amount|]; [|discriminate] end. injection H as <-. bool_props.
  assert (Er : ol_id r = ln_orderLineId l) by (apply find_elem in R as [_ R]; by apply String.eqb_eq in R). rewrite Er in *.
  split; [|apply Forall_app; split; [done|]; apply Forall_singleton; exists r; cbn; split; [exact R|lia]].
  apply NoDup_map_snoc; [done|]. intros X. apply list_elem_of_fmap in X as (y & X & Hy). unfold selected_id in X. cbn in X.
  match goal with E : existsb _ acc = false |- _ => apply not_true_iff_false in E; apply E end.
  apply existsb_exists. exists y. split; [by apply list_elem_of_In|]. apply String.eqb_eq. congruence.
Qed.
Lemma metadata_plain i fp u snaps auth : fq_orderEdit i = false -> isEditRefund (Some (refund_metadata i fp u snaps auth)) = false.
Proof.
  intros H. unfold isEditRefund, text_field, opt_field, refund_metadata. rewrite H. cbn [mbind option_bind field]. rewrite !assoc_last_app.
  destruct auth as [[]|], (un_returns u), (is_nil snaps); done.
Qed.

Lemma selected_sum id (l : list Selected) : NoDup (map selected_id l) ->
  let total := sumZ (map (fun x => if String.eqb (selected_id x) id then ln_quantity (sl_line x) else 0) l) in
  (total = 0 /\ id ∉ map selected_id l) \/ (exists x, x ∈ l /\ selected_id x = id /\ total = ln_quantity (sl_line x)).
Proof.
  intros Hn. cbv zeta. induction l as [|x xs IH]; [left; split; [done|apply not_elem_of_nil]|]. apply NoDup_cons in Hn as [Hx Hn]. cbn [map]. rewrite sumZ_cons.
  destruct (IH Hn) as [[-> Hi]|(y & Hy & E & ->)]; destruct (String.eqb_spec (selected_id x) id) as [Ex|Ex].
  - right. exists x. split; [left|]. split; [done|]. lia.
  - left. split; [lia|]. intros H. apply elem_of_cons in H as [H|H]; [by subst|done].
  - exfalso. apply Hx. rewrite Ex, <- E. by apply list_elem_of_fmap_2.
  - right. exists y. split; [by right|]. split; [done|]. lia.
Qed.

Definition line_of rid (x : Selected) : RefundLine :=
  {| fl_refundId := rid; fl_orderLineId := ln_orderLineId (sl_line x); fl_quantity := ln_quantity (sl_line x); fl_amount := sl_amount x; fl_restock := ln_restock (sl_line x) |}.
Lemma appended_units d d' r o snaps id : sd_refunds d' = sd_refunds d ++ [r] -> ft_lines (tables d') = ft_lines (tables d) ++ map (line_of (rf_id r)) snaps ->
  rf_id r ∉ map rf_id (sd_refunds d) -> Forall (fun l => fl_refundId l ∈ map rf_id (sd_refunds d)) (ft_lines (tables d)) ->
  rf_orderId r = o -> rf_state r = ref_Pending -> isEditRefund (rf_metadata r) = false ->
  reserved_units d' o id = reserved_units d o id + sumZ (map (fun x => if String.eqb (selected_id x) id then ln_quantity (sl_line x) else 0) snaps).
Proof.
  intros Er El Hk Hfk Eo Es Em. rewrite !reserved_units_shares, El, map_app, sumZ_app. f_equal.
  - f_equal. clear El. induction Hfk as [|l ls Hl Hfk IH]; cbn; [done|]. rewrite IH. f_equal. unfold unit_share, refund_row. rewrite Er.
    apply list_elem_of_fmap in Hl as (x & E & Hx). destruct (List.find (fun q => String.eqb (rf_id q) (fl_refundId l)) (sd_refunds d)) as [q|] eqn:F.
    + by rewrite (find_prefix _ _ _ q (prefix_app_r _ _ _ (reflexivity _)) F).
    + exfalso. eapply List.find_none in F; [|by apply list_elem_of_In]. by rewrite E, String.eqb_refl in F.
  - f_equal. rewrite map_map. apply map_ext. intros x. unfold unit_share, refund_row. rewrite Er, find_app_none.
    + cbn. rewrite String.eqb_refl, Eo, Es, Em, String.eqb_refl. done.
    + apply find_none_all. intros q Hq. cbn. apply String.eqb_neq. intros E. apply Hk. rewrite <- E. by apply list_elem_of_fmap_2.
Qed.
Lemma write_units now fx d o i key fp p rma u snaps auth amount items ship s' pr id :
  nonempty (fq_editId i) = false -> fq_orderEdit i = false -> gen_random_uuid (S (sd_fresh d)) ∉ map rf_id (sd_refunds d) ->
  Forall (fun l => fl_refundId l ∈ map rf_id (sd_refunds d)) (ft_lines (tables d)) ->
  write_refund gen_random_uuid now (fx, d) o i key fp p rma u snaps [] auth amount items ship = Ok (s', pr) ->
  reserved_units (snd s') (so_id o) id = reserved_units d (so_id o) id +
    sumZ (map (fun x => if String.eqb (selected_id x) id then ln_quantity (sl_line x) else 0) snaps).
Proof.
  intros Hi He Hk Hfk H. unfold write_refund in H. inv_ok. cbn [fst snd] in *.
  match type of Em0 with context [Ok (fx, ?D)] => assert (E0 : a0 = (fx, D)) by (rewrite Hi in Em0; destruct (fq_editId i); congruence) end.
  subst a0. clear Em0. cbn [fst snd map].
  match goal with |- context [with_refunds _ (_ ++ [?r])] => apply (appended_units d _ r) end; try done.
  - by destruct rma.
  - rewrite app_nil_r. by destruct rma.
  - by apply metadata_plain.
Qed.

(** Units are not returned twice. A cash refund of an order without redeemed
    credit reserves, for every line it names, no more than the line was billed
    less what refunds not failed already hold; a line it does not name keeps its
    reservation. *)
Theorem refund_units_bounded now s i s' aid p am cur cm o : NoDup (map rf_id (sd_refunds (snd s))) ->
  (forall k, (sd_fresh (snd s) <= k)%nat -> gen_random_uuid k ∉ map rf_id (sd_refunds (snd s))) ->
  Forall (fun l => fl_refundId l ∈ map rf_id (sd_refunds (snd s))) (ft_lines (tables (snd s))) ->
  prepare now s i = Ok (s', Reserved aid p am cur cm) -> order_row (snd s) (fq_orderId i) = Some o ->
  postedRedemptions (snd s) (so_id o) = [] -> fq_orderEdit i = false ->
  forall id r, List.find (fun x => String.eqb (ol_id x) id) (map billed_line (order_lines (snd s) (so_id o))) = Some r ->
    reserved_units (snd s') (so_id o) id = reserved_units (snd s) (so_id o) id \/ 
    reserved_units (snd s) (so_id o) id < reserved_units (snd s') (so_id o) id <= refundQuantity r.
Proof.
  intros Hn Hk Hfk H Ho Hred He id r Hr. destruct s as [fx d]. cbn [snd fst] in *.
  apply prepare_cases in H as (o' & Ho' & Hc & [(? & ? & ? & _ & _ & _ & _ & [=] & _)|(_ & H & _)]); [|done]. cbn [snd] in Ho'. rewrite Ho in Ho'. injection Ho' as <-.
  assert (Ed : fq_editLines i = [] /\ nonempty (fq_editId i) = false).
  { unfold check_request in Hc. inv_ok. rewrite He in *. destruct (fq_editLines i); [|discriminate]. split; [done|]. by destruct (nonempty (fq_editId i)). }
  destruct Ed as [El Ei]. unfold reserve_refund in H. inv_ok. cbn [snd fst] in *. destruct a0 as [p0 pays]. inv_ok. destruct a0 as [[lines ex] auto]. inv_ok. destruct a0 as [d1 ev].
  rewrite Hred in *. cbn [order_evidence is_nil] in Em2. injection Em2 as <- <-.
  unfold unit_facts in H. destruct (if is_nil lines then _ else _) as [b|] eqn:Eb' in H; [|discriminate]. cbn [bind_result] in H. inv_ok.
  cbn [un_lines un_available] in *.
  apply (fold_result_inv (fun acc => NoDup (map selected_id acc) /\ Forall (fits d (so_id o) (map billed_line (order_lines d (so_id o)))) acc)) in Em2;
    [destruct Em2 as [Sn Sf]|by split; constructor|intros acc x acc' _ K St; eapply select_line_fits; [|exact K|exact St]; done].
  match goal with F : edit_snapshots _ _ _ = Ok _ |- _ => unfold edit_snapshots in F; rewrite El in F; injection F as <- end.
  apply (write_units _ _ _ _ _ _ _ _ _ _ _ _ _ _ _ _ _ id) in H as ->; [|done|done|by apply Hk; lia|done].
  destruct (selected_sum id a0 Sn) as [[-> _]|(x & Hx & Ex & ->)]; [left; lia|right].
  apply (proj1 (Forall_forall _ _) Sf) in Hx as (r' & Fr & Q1 & Q2). unfold selected_id in Ex. rewrite Ex, Hr in Fr. injection Fr as <-. rewrite Ex in Q2. lia.
Qed.
End Safety.

Section Finalization.
Context {Y : Type} {sdeps : SettlementDeps (ResTables (RefundTables Y))} {rdeps : RefundDeps Y}.
Context (gen_random_uuid : nat -> string) (registeredPaymentPolicies : list (PaymentPolicy (Y := RefundTables Y))).
Context {laws : RefundDepsLaws registeredPaymentPolicies}.
Abbreviation Db := (SettleDb (ResTables (RefundTables Y))).
Abbreviation finalize := (finalizeRefund gen_random_uuid registeredPaymentPolicies).
Implicit Types (d : Db) (s : FxDb * Db).

(** ** The order of a settled refund *)

Definition basis_facts (r : Refund) := (rf_orderId r, rf_paymentId r, rf_amount r, rf_state r, isEditRefund (rf_metadata r)).
Definition same_money d d' : Prop := sd_payments d' = sd_payments d /\ map basis_facts (sd_refunds d') = map basis_facts (sd_refunds d).
#[export] Instance same_money_equiv : Equivalence same_money.
Proof. split; [done|intros a b []; by split|intros a b c [] []; split; congruence]. Qed.
Lemma sum_filter_factor {A B} (g : A -> B) (h : A -> Z) (p : A -> bool) (h' : B -> Z) (p' : B -> bool) (l : list A) :
  (forall x, h x = h' (g x)) -> (forall x, p x = p' (g x)) -> sumZ (map h (List.filter p l)) = sumZ (map h' (List.filter p' (map g l))).
Proof. intros H P. induction l as [|x xs IH]; cbn; [done|]. rewrite <- P. destruct (p x); cbn; rewrite ?sumZ_cons, IH, ?H; done. Qed.
Lemma filter_filter {A} (p q : A -> bool) l : List.filter p (List.filter q l) = List.filter (fun x => q x && p x) l.
Proof. induction l as [|x xs IH]; cbn; [done|]. destruct (q x); cbn; [destruct (p x); by rewrite IH|done]. Qed.
Definition money_of (o : string) (ids : list string) (b : bool -> bool) (l : list Refund) : Z :=
  sumZ (map rf_amount (List.filter (fun r => b (isEditRefund (rf_metadata r)))
    (List.filter (fun r => one_of ids (rf_paymentId r)) (List.filter (fun r => String.eqb (rf_orderId r) o && bool_decide (rf_state r = ref_Settled)) l)))).
Lemma money_of_facts o ids b l l' : map basis_facts l' = map basis_facts l -> money_of o ids b l' = money_of o ids b l.
Proof.
  intros R. unfold money_of. rewrite !filter_filter.
  rewrite !(sum_filter_factor basis_facts rf_amount _ (fun f => f.1.1.2)
    (fun f => (String.eqb f.1.1.1.1 o && bool_decide (f.1.2 = ref_Settled)) && (one_of ids f.1.1.1.2 && b f.2))) by done. by rewrite R.
Qed.
Lemma basis_same d d' o : same_money d d' -> orderRefundBasis d' o = orderRefundBasis d o.
Proof.
  intros [P R]. unfold orderRefundBasis. rewrite P. cbv zeta.
  generalize (List.filter (fun p => negb (isDuplicatePayment p)) (List.filter (settled_of o) (sd_payments d))) as ps. intros ps.
  pose proof (money_of_facts o (map py_id ps) (fun b => b) _ _ R) as X1. pose proof (money_of_facts o (map py_id ps) negb _ _ R) as X2.
  unfold money_of in X1, X2. by rewrite X1, X2.
Qed.
Lemma aside_money d d' : aside d d' -> same_money d d'.
Proof. intros [_ P R _ _ _ _ _]. split; [done|]. by rewrite R. Qed.
Lemma metadata_money d r m : (forall x, x ∈ sd_refunds d -> rf_id x = rf_id r -> isEditRefund (Some m) = isEditRefund (rf_metadata x)) ->
  same_money d (write_metadata d (rf_id r) m).
Proof.
  intros H. split; [done|]. cbn. apply map_set_where. intros x Hx E. apply String.eqb_eq in E. unfold basis_facts. cbn. by rewrite (H x Hx E).
Qed.

Definition tagged d (r : Refund) : Prop := forall x, x ∈ sd_refunds d -> rf_id x = rf_id r -> isEditRefund (rf_metadata x) = isEditRefund (rf_metadata r).
Lemma tagged_same d d' r : sd_refunds d' = sd_refunds d -> tagged d r -> tagged d' r.
Proof. unfold tagged. by intros ->. Qed.
Lemma tagged_write d r m : isEditRefund (Some m) = isEditRefund (rf_metadata r) -> tagged d r -> tagged (write_metadata d (rf_id r) m) r.
Proof.
  intros Hm H x Hx E. cbn in Hx. apply elem_set_where in Hx as (y & Hy & ->). destruct (String.eqb_spec (rf_id y) (rf_id r)) as [Eq|]; [exact Hm|by apply H].
Qed.
Lemma write_money d r m : isEditRefund (Some m) = isEditRefund (rf_metadata r) -> tagged d r -> same_money d (write_metadata d (rf_id r) m).
Proof. intros Hm H. apply metadata_money. intros x Hx E. rewrite Hm. symmetry. by apply H. Qed.

Definition order_state d (id : string) : option OrderState := option_map so_state (order_row d id).
Lemma order_state_facts d d' id : map order_facts (sd_orders d') = map order_facts (sd_orders d) -> order_state d' id = order_state d id.
Proof.
  intros H. pose proof (order_row_facts d d' id H) as F. unfold order_state. destruct (order_row d' id), (order_row d id); try done.
  cbn in *. unfold order_facts in F. by injection F as _ _ _ -> _ _.
Qed.
Lemma order_state_update d id st now o : order_row d id = Some o -> order_state (update_order d id st now) id = Some (or_else st (so_state o)).
Proof.
  unfold order_state, order_row, update_order, set_where. cbn. induction (sd_orders d) as [|x xs IH]; cbn; [done|].
  destruct (String.eqb (so_id x) id) eqn:E; cbn; rewrite E; [by intros [= ->]|exact IH].
Qed.
Definition revoked_all d (orderId : string) : Prop :=
  forall l, l ∈ ft_licenses (tables d) -> lce_orderId l = Some orderId -> lce_status l = "revoked"%string.
Lemma revoke_revokes now d o : revoked_all (revokeRefundLicenses now d o) o.
Proof.
  intros l Hl E. cbn in Hl. apply elem_set_where in Hl as (x & Hx & ->). destruct (bool_decide (lce_orderId x = Some o)) eqn:B; [done|].
  apply bool_decide_eq_false in B. done.
Qed.
Lemma aside_licenses d d' : aside d d' -> ft_licenses (tables d') = ft_licenses (tables d).
Proof. intros [_ _ _ _ _ C _ _]. unfold core_tables in C. congruence. Qed.

(** What posting the credit back keeps. *)
Lemma restore_keeps s r : tagged (snd s) r -> let s' := restoreSettledRefundCredit s r in
  same_money (snd s) (snd s') /\ map order_facts (sd_orders (snd s')) = map order_facts (sd_orders (snd s)) /\
  ft_licenses (tables (snd s')) = ft_licenses (tables (snd s)) /\
  (forall k o, is_some (operation_row (snd s) k o) = true -> is_some (operation_row (snd s') k o) = true).
Proof.
  intros T. cbv zeta. unfold restoreSettledRefundCredit. destruct (payment_row _ _); [|by repeat split]. destruct (_ || _ || _); [by repeat split|].
  pose proof (restore_aside registeredPaymentPolicies s (rf_orderId r) (rf_id r)) as [_ A]. destruct (restoreRefundAfterSettlement _ _ _) as [s1 out]. cbn [fst snd] in *.
  split; [|split; [apply A|split; [exact (aside_licenses _ _ A)|apply A]]].
  etrans; [by apply aside_money|]. apply write_money; [by apply edit_spread|]. eapply tagged_same; [apply A|exact T].
Qed.

Definition settled_state (o : Order) (b : RefundBasis) : OrderState :=
  if bool_decide (so_state o = Cancelled) then Cancelled else if rb_captured b <=? rb_refunded b then Refunded else PartiallyRefunded.
Lemma settle_order_state now s o r details s' v :
  settle_order_refund gen_random_uuid registeredPaymentPolicies now s o r false details = Ok (s', v) ->
  order_row (snd s) (so_id o) = Some o -> tagged (snd s) r -> isEditRefund (rf_metadata r) = false -> isEditRefund (Some details) = false ->
  let b := orderRefundBasis (snd s') (so_id o) in
  orderRefundBasis (snd s) (so_id o) = b /\ order_state (snd s') (so_id o) = Some (settled_state o b) /\
  ((0 <? rb_captured b) && (rb_captured b <=? rb_refunded b) = true -> revoked_all (snd s') (so_id o)) /\
  (settled_state o b = Refunded -> is_some (operation_row (snd s') order_refunded (so_id o)) = true).
Proof.
  intros H Ho T E Ed. apply (settle_order_steps _ _ false) in H as (full & d1 & d2 & st & s4 & s5 & d9 & md & A1 & Hf & E2 & E3 & [A4 _] & [A5 Op] & F9 & R9 & Ek & O9 & X9 & _ & L9 & -> & _).
  rewrite E in E3. assert (Ek' : isEditRefund (Some md) = false) by (unfold isEditRefund, text_field in *; by rewrite Ek). clear Ek. rename Ek' into Ek.
  assert (T1 : tagged d1 r) by (eapply tagged_same; [apply A1|exact T]).
  assert (M2 : same_money d1 d2 /\ tagged d2 r /\ sd_orders d2 = sd_orders d1) by (subst d2; by destruct full).
  destruct M2 as (M2 & T2 & O2).
  assert (T5 : tagged (snd s5) r) by (eapply tagged_same; [apply A5|]; eapply tagged_same; [apply A4|]; exact T2).
  assert (M5 : same_money (snd s) (snd s5)).
  { etrans; [by apply aside_money|]. etrans; [exact M2|]. etrans; [|by apply aside_money]. etrans; [|by apply aside_money]. done. }
  assert (M9 : same_money (snd s) d9).
  { etrans; [exact M5|]. destruct (write_money (snd s5) r md) as [_ B]; [congruence|exact T5|]. split; [apply F9|]. by rewrite R9. }
  assert (T9 : tagged d9 r) by (eapply tagged_same; [exact R9|]; apply tagged_write; [congruence|exact T5]).
  destruct (restore_keeps (fst s5, d9) (seen r ref_Settled (rf_providerRef r) (Some md))) as (M & X & L & Q).
  { intros x Hx Ex. cbn. rewrite Ek, <- E. by apply T9. }
  cbn [snd] in *. set (s' := restoreSettledRefundCredit _ _) in *. clearbody s'.
  assert (B : orderRefundBasis (snd s') (so_id o) = orderRefundBasis (snd s) (so_id o)) by (apply basis_same; by etrans).
  cbv zeta. rewrite B. split; [done|]. set (b := orderRefundBasis (snd s) (so_id o)) in *.
  assert (St : st = Some (settled_state o b)).
  { rewrite E3. unfold refunded_state, settled_state. destruct (bool_decide (so_state o = Cancelled)); [done|]. cbn [andb]. by destruct (_ <=? _). }
  split; [|split].
  - rewrite (order_state_facts d9) by done. rewrite (order_state_facts (snd s5)) by done. rewrite (order_state_facts (snd s4)) by apply A5.
    rewrite (order_state_facts (update_order d2 (so_id o) st now)) by apply A4.
    assert (D2 : exists o2, order_row d2 (so_id o) = Some o2).
    { unfold order_row in *. rewrite O2. pose proof (order_row_facts (snd s) d1 (so_id o) (as_orders _ _ A1)) as F. unfold order_row in F. rewrite Ho in F.
      destruct (List.find _ (sd_orders d1)) as [o2|]; [by exists o2|discriminate]. }
    destruct D2 as [o2 D2]. rewrite (order_state_update _ _ _ _ _ D2), St. done.
  - intros Hfull. rewrite Hf, Hfull in E2 by done. intros l Hl. rewrite L, L9, (aside_licenses _ _ A5), (aside_licenses _ _ A4) in Hl.
    cbn in Hl. rewrite E2 in Hl. eapply revoke_revokes. exact Hl.
  - intros Hr. apply Q. unfold operation_row. rewrite O9. rewrite St, Hr in Op. rewrite bool_decide_eq_true_2 in Op by done. exact Op.
Qed.

Lemma stock_keeps d o r lines fp d' e : applyRefundStockEffects d o r lines fp = (d', e) ->
  sd_orders d' = sd_orders d /\ sd_payments d' = sd_payments d /\ (tagged d r -> tagged d' r).
Proof.
  unfold applyRefundStockEffects. intros H.
  assert (G : (let '(digest, outcome) := stock_attempt d o r lines fp in
      let '(d1, e) := match outcome with
        | Ok g => (with_goods d g, {| se_applied := true; se_requestDigest := digest; se_reason := None |})
        | Err _ => (d, {| se_applied := false; se_requestDigest := digest; se_reason := Some "stock_effects_reconciliation_required"%string |})
        end in
      (write_metadata d1 (rf_id r) (spread (rf_metadata r) [("stockEffects"%string, stock_json e)]), e)) = (d', e) ->
      sd_orders d' = sd_orders d /\ sd_payments d' = sd_payments d /\ (tagged d r -> tagged d' r)).
  { destruct (stock_attempt d o r lines fp) as [dg [g|]]; intros [= <- _]; (split; [done|]; split; [done|]); intros T;
      (apply tagged_write; [by apply edit_spread|exact T]). }
  destruct (refundStockEffectsProjection (rf_metadata r)) as [[[] ? ?]|]; [by injection H as <- _|auto..].
Qed.
Lemma gift_keeps now d o amount d' : creditGiftCardRefund now d o amount = Ok d' ->
  sd_orders d' = sd_orders d /\ sd_payments d' = sd_payments d /\ sd_refunds d' = sd_refunds d.
Proof. unfold creditGiftCardRefund. destruct (last _); [|discriminate]. by intros [= <-]. Qed.

(** C7: The first time the provider reports a cash refund of an order settled,
    the order moves by the money on record: a cancelled order stays cancelled,
    otherwise it is Refunded exactly when the settled refunds reach what was
    captured and PartiallyRefunded when they do not. A full refund leaves no
    licence of the order unrevoked, and an order that becomes Refunded has its
    entitlement reversal on record. *)
Theorem refund_settles_order now s aid ans s' v a o r : NoDup (map rf_id (sd_refunds (snd s))) ->
  attempt_row (snd s) aid = Some a -> order_row (snd s) (va_orderId a) = Some o -> refund_of_attempt (snd s) aid = Some r ->
  va_method a <> "credit_merchandise"%string -> importedFinancialReconciliationRequired (so_metadata o) = false ->
  isEditRefund (rf_metadata r) = false -> (forall p, payment_row (snd s) (rf_paymentId r) = Some p -> isDuplicatePayment p = false) ->
  rf_state r <> ref_Settled -> rr_state ans = ref_Settled -> finalize now s aid ans = Ok (s', v) ->
  let b := orderRefundBasis (snd s') (so_id o) in
  order_state (snd s') (so_id o) = Some (settled_state o b) /\
  ((0 <? rb_captured b) && (rb_captured b <=? rb_refunded b) = true -> revoked_all (snd s') (so_id o)) /\
  (settled_state o b = Refunded -> is_some (operation_row (snd s') order_refunded (so_id o)) = true).
Proof.
  intros Hn Ha Ho Hr Hm Hq He Hd Hs Hans H b. unfold finalizeRefund in H. rewrite Ha in H. destruct (String.eqb (va_operation a) _); [|discriminate].
  rewrite Ho, Hr, Hq, bool_decide_eq_false_2 in H by done. destruct (negb (refs_differ _ _)); [|discriminate]. rewrite Hans in H.
  rewrite andb_false_r in H. change (bool_decide (ref_Settled = ref_Settled)) with true in H. cbn [negb] in H. rewrite He in H.
  match type of H with context [update_refund ?d ?i ?f] => set (d1 := update_refund d i f) in H end.
  match type of H with context [update_attempt d1 ?i ?f] => set (d2 := update_attempt d1 i f) in H end.
  assert (T2 : tagged d2 r).
  { intros x Hx E. apply elem_set_where in Hx as (y & Hy & ->).
    assert (Z : rf_id y = rf_id r) by (revert E; by destruct (String.eqb (rf_id y) _)).
    assert (y = r) as -> by (eapply unique_refund; [exact Hn|by eapply find_string_elem|exact Hy|exact Z]). by destruct (String.eqb (rf_id r) (rf_id r)). }
  destruct (applyRefundStockEffects d2 _ _ _ _) as [d3 e] eqn:St. apply stock_keeps in St as (O3 & P3 & T3). specialize (T3 T2).
  destruct (if String.eqb (va_method a) "gift_card" then _ else _) as [d4|] eqn:G in H; [|discriminate]. cbn [bind_result] in H.
  assert (K4 : sd_orders d4 = sd_orders d3 /\ sd_payments d4 = sd_payments d3 /\ sd_refunds d4 = sd_refunds d3)
    by (destruct (String.eqb _ _); [by eapply gift_keeps|by injection G as <-]).
  destruct K4 as (O4 & P4 & R4).
  assert (Cm : String.eqb (va_method a) "credit_merchandise" = false) by by apply String.eqb_neq. rewrite Cm in H. cbn [andb] in H.
  assert (H' : settle_order_refund gen_random_uuid registeredPaymentPolicies now (fst s, d4) o r false (spread (rf_metadata r) [("stockEffects"%string, stock_json e)]) = Ok (s', v)).
  { unfold payment_row in *. rewrite P4, P3 in H. change (sd_payments d2) with (sd_payments (snd s)) in H.
    destruct (List.find _ (sd_payments (snd s))) as [p|] eqn:Pr; [rewrite (Hd p eq_refl) in H|]; exact H. }
  assert (I : so_id o = va_orderId a) by (apply find_elem in Ho as [_ Ho]; by apply String.eqb_eq in Ho).
  apply settle_order_state in H' as (_ & A & B & C); [by split| | |done|by rewrite edit_spread].
  - unfold order_row in *. cbn. rewrite O4, O3, I. exact Ho.
  - eapply tagged_same; [exact R4|exact T3].
Qed.

(** ** Stock effects once *)

Abbreviation stock_of := refundStockEffectsProjection.
Definition goods_of d : Goods := ft_goods (tables d).
(** The goods and the receipt of a refund, which everything but the stock savepoint keeps. *)
Definition stocked (r : Refund) (g : Goods) (e : option StockEffects) d : Prop :=
  goods_of d = g /\ forall x, x ∈ sd_refunds d -> rf_id x = rf_id r -> stock_of (rf_metadata x) = e.
Lemma stock_field m m' : opt_field "stockEffects" m' = opt_field "stockEffects" m -> stock_of m' = stock_of m.
Proof. unfold refundStockEffectsProjection. by intros ->. Qed.
Lemma stock_spread m fields : assoc_last "stockEffects" fields = None -> stock_of (Some (spread m fields)) = stock_of m.
Proof. intros H. apply stock_field. by apply spread_other. Qed.
(** A receipt written is read back; [/^[a-z_]{1,80}$/] is what is kept of a reason. *)
Lemma stock_receipt m e : (forall rs, se_reason e = Some rs -> reason_ok 80 rs = true) -> stock_of (Some (spread m [("stockEffects"%string, stock_json e)])) = Some e.
Proof.
  intros H. unfold refundStockEffectsProjection, spread, opt_field. cbn [mbind option_bind field]. rewrite assoc_last_app.
  destruct e as [ap dg [rs|]]; cbn -[reason_ok] in *; [rewrite H by done|]; by destruct ap.
Qed.
Lemma stock_of_reason m e rs : stock_of m = Some e -> se_reason e = Some rs -> reason_ok 80 rs = true.
Proof.
  unfold refundStockEffectsProjection. destruct (text_field _ _); [|discriminate]. destruct (text_field _ _); [|discriminate]. destruct (one_of _ _); [|discriminate].
  intros [= <-]. cbn [se_reason]. unfold kept_reason. destruct (opt_field _ _) as [[]|]; try discriminate. match goal with |- (if ?b then _ else _) = _ -> _ => destruct b eqn:E end; [|discriminate]. by intros [= <-].
Qed.

Section Stocked.
Context (r : Refund) (g : Goods) (e : option StockEffects).
Abbreviation ok := (stocked r g e).

Lemma stocked_aside d d' : aside d d' -> ok d -> ok d'.
Proof. intros [_ _ R _ _ C _ _] [G X]. unfold core_tables in C. split; [unfold goods_of in *; congruence|by rewrite R]. Qed.
Lemma stocked_same d d' : goods_of d' = goods_of d -> sd_refunds d' = sd_refunds d -> ok d -> ok d'.
Proof. intros A B [G X]. split; [congruence|by rewrite B]. Qed.
Lemma stocked_write d x m : rf_id x = rf_id r -> stock_of (Some m) = e -> ok d -> ok (write_metadata d (rf_id x) m).
Proof.
  intros E Hm [G X]. split; [exact G|]. intros y Hy Ey. apply elem_set_where in Hy as (z & Hz & ->). rewrite E in *.
  destruct (String.eqb_spec (rf_id z) (rf_id r)) as [Ez|]; [exact Hm|by apply X].
Qed.
Lemma stocked_rows d id f : (forall x, rf_id (f x) = rf_id x /\ stock_of (rf_metadata (f x)) = stock_of (rf_metadata x)) -> ok d -> ok (update_refund d id f).
Proof.
  intros F [G X]. split; [exact G|]. intros y Hy Ey. apply elem_set_where in Hy as (z & Hz & ->). destruct (F z) as [F1 F2].
  destruct (String.eqb (rf_id z) id); [rewrite F2; apply X; congruence|by apply X].
Qed.
Lemma stocked_restore s x : rf_id x = rf_id r -> stock_of (rf_metadata x) = e -> ok (snd s) -> ok (snd (restoreSettledRefundCredit s x)).
Proof.
  intros E Hm H. unfold restoreSettledRefundCredit. destruct (payment_row _ _); [|done]. destruct (_ || _ || _); [done|].
  pose proof (restore_aside registeredPaymentPolicies s (rf_orderId x) (rf_id x)) as [_ A]. destruct (restoreRefundAfterSettlement _ _ _) as [s1 out]. cbn [fst snd] in *.
  apply stocked_write; [done|by rewrite stock_spread|by eapply stocked_aside].
Qed.
Lemma stocked_retry now s o x : rf_id x = rf_id r -> stock_of (rf_metadata x) = e -> ok (snd s) ->
  ok (snd (retryCreditMerchandiseCompletion gen_random_uuid registeredPaymentPolicies now s o x)).
Proof.
  intros E Hm H. unfold retryCreditMerchandiseCompletion. destruct (negb _); [done|]. destruct (bool_decide _); [done|]. cbv zeta.
  assert (W : forall d fields, ok d -> ok (write_metadata d (rf_id x) (spread (rf_metadata x) [("merchandiseCompletion"%string, JObj fields)])))
    by (intros; apply stocked_write; [done|by rewrite stock_spread|done]).
  destruct (fullCreditMerchandiseProof _ _) as [full pending]. destruct pending; cbn [negb]; [by apply W|].
  destruct (full && _); cbn [bind_result]; [|by apply W]. destruct (bool_decide _); cbn [bind_result].
  { apply W. by eapply stocked_same; [..|exact H]. }
  destruct (release_holds _ _ _ _ _) as [s2|] eqn:R; cbn [bind_result]; [|by apply W].
  destruct (reverse_entitlements _ _ _ _) as [s3|] eqn:V; cbn [bind_result]; [|by apply W].
  apply (aside_release registeredPaymentPolicies) in R as [_ R]. apply aside_reverse in V as [V _]. cbn [fst snd] in *. apply W.
  eapply stocked_aside; [exact V|]. eapply stocked_aside; [exact R|]. by eapply stocked_same; [..|exact H].
Qed.
Lemma stocked_gift now d o amount d' : creditGiftCardRefund now d o amount = Ok d' -> ok d -> ok d'.
Proof. unfold creditGiftCardRefund. destruct (last _); [|discriminate]. intros [= <-] H. by eapply stocked_same; [..|exact H]. Qed.
Lemma stocked_settle now s o x cm details s' v : rf_id x = rf_id r -> stock_of (Some details) = e ->
  settle_order_refund gen_random_uuid registeredPaymentPolicies now s o x cm details = Ok (s', v) -> ok (snd s) -> ok (snd s').
Proof.
  intros E Hm H K. apply (settle_order_steps _ _ false) in H as (full & d1 & d2 & st & s4 & s5 & d9 & md & A1 & _ & E2 & _ & [A4 _] & [A5 _] & F9 & R9 & Ek & _ & _ & G9 & _ & -> & _).
  assert (K5 : ok (snd s5)).
  { eapply stocked_aside; [exact A5|]. eapply stocked_aside; [exact A4|]. eapply (stocked_same d2); [done..|]. subst d2.
    apply (stocked_aside _ _ A1) in K. destruct full; [by eapply stocked_same; [..|exact K]|exact K]. }
  assert (Kd : stock_of (Some md) = e) by (rewrite <- Hm; by apply stock_field, Ek).
  apply stocked_restore; [done|exact Kd|]. cbn [snd].
  pose proof (stocked_write (snd s5) x md E Kd K5) as [G X]. split; [unfold goods_of in *; by rewrite G9|by rewrite R9].
Qed.
Lemma stocked_duplicate s o x details p : rf_id x = rf_id r -> stock_of (Some details) = e -> ok (snd s) -> ok (snd (fst (settle_duplicate_refund s o x details p))).
Proof.
  intros E Hm K. unfold settle_duplicate_refund. cbn [fst snd]. eapply stocked_aside; [apply aside_email|].
  assert (W : ok (write_metadata (snd s) (rf_id x) (spread (Some details) [("effectsApplied"%string, JBool true); ("duplicate"%string, JBool true)])))
    by (apply stocked_write; [done|by rewrite stock_spread|done]). by eapply stocked_same; [..|exact W].
Qed.
End Stocked.
Definition applied (e : option StockEffects) : bool := match e with Some x => se_applied x | None => false end.
Lemma stock_effects_once d o r lines fp d' e0 : stocked r (goods_of d) (stock_of (rf_metadata r)) d -> applyRefundStockEffects d o r lines fp = (d', e0) ->
  stocked r (goods_of d') (Some e0) d' /\ stock_of (Some (spread (rf_metadata r) [("stockEffects"%string, stock_json e0)])) = Some e0 /\
  (if applied (stock_of (rf_metadata r)) then se_applied e0 = true /\ goods_of d' = goods_of d else se_applied e0 = true \/ goods_of d' = goods_of d).
Proof.
  intros [_ X] H. unfold applyRefundStockEffects in H.
  assert (N : forall e1 d1, (se_applied e1 = true /\ se_reason e1 = None) \/ (se_applied e1 = false /\ se_reason e1 = Some "stock_effects_reconciliation_required"%string /\ goods_of d1 = goods_of d) ->
      sd_refunds d1 = sd_refunds d -> (write_metadata d1 (rf_id r) (spread (rf_metadata r) [("stockEffects"%string, stock_json e1)]), e1) = (d', e0) ->
      stocked r (goods_of d') (Some e0) d' /\ stock_of (Some (spread (rf_metadata r) [("stockEffects"%string, stock_json e0)])) = Some e0 /\ (se_applied e0 = true \/ goods_of d' = goods_of d)).
  { intros e1 d1 C R [= <- <-]. assert (K : stock_of (Some (spread (rf_metadata r) [("stockEffects"%string, stock_json e1)])) = Some e1) by (apply stock_receipt; intros rs; destruct C as [[_ ->]|(_ & -> & _)]; [done|by intros [= <-]]).
    split; [|split; [exact K|destruct C as [[C _]|(_ & _ & C)]; [by left|by right]]]. split; [done|].
    intros y Hy Ey. apply elem_set_where in Hy as (z & Hz & ->). destruct (String.eqb_spec (rf_id z) (rf_id r)) as [|Ez]; [exact K|done]. }
  assert (G : (let '(digest, outcome) := stock_attempt d o r lines fp in
      let '(d1, e) := match outcome with
        | Ok g => (with_goods d g, {| se_applied := true; se_requestDigest := digest; se_reason := None |})
        | Err _ => (d, {| se_applied := false; se_requestDigest := digest; se_reason := Some "stock_effects_reconciliation_required"%string |})
        end in
      (write_metadata d1 (rf_id r) (spread (rf_metadata r) [("stockEffects"%string, stock_json e)]), e)) = (d', e0) ->
      stocked r (goods_of d') (Some e0) d' /\ stock_of (Some (spread (rf_metadata r) [("stockEffects"%string, stock_json e0)])) = Some e0 /\ (se_applied e0 = true \/ goods_of d' = goods_of d)).
  { destruct (stock_attempt d o r lines fp) as [dg [g|]]; intros Q; (eapply N; [..|exact Q]); [by left|done|by right|done]. }
  clear N. unfold applied. destruct (stock_of (rf_metadata r)) as [[[] dg rs]|] eqn:S; [|by apply G in H as (? & ? & ?)..].
  injection H as <- <-. split; [by split|]. split; [|done]. apply stock_receipt. intros rs'. by eapply stock_of_reason.
Qed.

Lemma stocked_start d r : NoDup (map rf_id (sd_refunds d)) -> r ∈ sd_refunds d -> stocked r (goods_of d) (stock_of (rf_metadata r)) d.
Proof. intros Hn Hr. split; [done|]. intros x Hx E. by rewrite (unique_refund _ _ _ Hn Hr Hx E). Qed.
(** What a finalization leaves: the receipt [e], and goods it moved only when that receipt became applied. *)
Definition once d d' (r : Refund) : Prop := exists e, stocked r (goods_of d') e d' /\
  if applied (stock_of (rf_metadata r)) then applied e = true /\ goods_of d' = goods_of d else applied e = true \/ goods_of d' = goods_of d.
Lemma once_kept d d' r : stocked r (goods_of d) (stock_of (rf_metadata r)) d' -> once d d' r.
Proof. intros [G X]. exists (stock_of (rf_metadata r)). split; [by split|]. destruct (applied _); auto. Qed.
Lemma once_stock d d1 d2 d' o r lines fp e : goods_of d1 = goods_of d -> stocked r (goods_of d1) (stock_of (rf_metadata r)) d1 ->
  applyRefundStockEffects d1 o r lines fp = (d2, e) ->
  (stocked r (goods_of d2) (Some e) d2 -> stock_of (Some (spread (rf_metadata r) [("stockEffects"%string, stock_json e)])) = Some e -> stocked r (goods_of d2) (Some e) d') ->
  once d d' r.
Proof.
  intros G K H F. apply stock_effects_once in H as (A & B & C); [|done]. destruct (F A B) as [G' X]. exists (Some e). split; [by split|].
  rewrite G', <- G. exact C.
Qed.
Lemma once_quarantined now s a r ans s' v : NoDup (map rf_id (sd_refunds (snd s))) -> r ∈ sd_refunds (snd s) ->
  finalize_quarantined now s a r ans = Ok (s', v) -> once (snd s) (snd s') r.
Proof.
  intros Hn Hr H. apply once_kept. unfold finalize_quarantined in H. destruct (negb _); [|discriminate]. inv_ok. cbn [snd].
  destruct (stocked_start _ _ Hn Hr) as [G X]. split; [exact G|]. intros y Hy Ey. apply elem_set_where in Hy as (z & Hz & ->).
  destruct (String.eqb_spec (rf_id z) (rf_id r)) as [Ez|]; [|by apply X]. by rewrite <- (stock_spread (rf_metadata r) [("financialReconciliation"%string,
    JObj [("state", JStr "required"); ("errorCode", JStr "IMPORTED_FINANCIAL_RECONCILIATION_REQUIRED")]%string)]).
Qed.
Lemma once_replay now s o a r ans s' v : NoDup (map rf_id (sd_refunds (snd s))) -> r ∈ sd_refunds (snd s) -> isEditRefund (rf_metadata r) = false ->
  finalize_replay gen_random_uuid registeredPaymentPolicies now s o a r ans = Ok (s', v) -> once (snd s) (snd s') r.
Proof.
  intros Hn Hr He H. unfold finalize_replay in H. rewrite He in H. cbv zeta in H.
  match type of H with context [let '(_, _) := ?q in _] => remember q as Q eqn:EQ in H end.
  match type of EQ with context [lines_of ?d _] => set (d1 := d) in * end.
  assert (K1 : stocked r (goods_of (snd s)) (stock_of (rf_metadata r)) d1).
  { subst d1. destruct (_ && _); [|by apply stocked_start]. eapply stocked_same; [..|apply (stocked_rows _ _ _ (snd s)); [|by apply stocked_start]]; [done..|by intros]. }
  clearbody d1. destruct Q as [d2 r2].
  (* what follows the savepoint keeps the goods and the receipt *)
  assert (T : forall g e, rf_id r2 = rf_id r -> stock_of (rf_metadata r2) = e -> stocked r g e d2 -> stocked r g e (snd s')).
  { intros g e E2 M2 K2. pose proof (stocked_restore r g e (fst s, d2) r2 E2 M2 K2) as K3. set (s3 := restoreSettledRefundCredit (fst s, d2) r2) in *. inv_ok.
    apply current_view_same in H as ->. destruct (String.eqb _ _); [|by inv_ok]. destruct (refund_row _ _) as [x|] eqn:X; inv_ok.
    apply find_elem in X as [X Ex]. apply String.eqb_eq in Ex. apply stocked_retry; [done|by apply K3|exact K3]. }
  destruct (bool_decide _).
  - destruct (applyRefundStockEffects d1 _ _ _ _) as [d3 e] eqn:St. injection EQ as -> ->.
    assert (K1' : stocked r (goods_of d1) (stock_of (rf_metadata r)) d1) by (destruct K1; by split).
    eapply once_stock; [apply K1|exact K1'|exact St|]. intros K B. by apply T.
  - injection EQ as -> ->. apply once_kept. by apply T.
Qed.

(** C18: Stock effects of a refund happen at most once, however often its
    attempt is finalized: a finalization moves stock or line quantities only if
    the refund's receipt was not applied before and is applied after it, and an
    applied receipt stays applied. (An order edit's refund moves no stock by
    itself; what activates the edit is another module's.) *)
Theorem refund_stock_once now s aid ans s' v r r' : NoDup (map rf_id (sd_refunds (snd s))) ->
  refund_of_attempt (snd s) aid = Some r -> isEditRefund (rf_metadata r) = false -> finalize now s aid ans = Ok (s', v) ->
  r' ∈ sd_refunds (snd s') -> rf_id r' = rf_id r ->
  (applied (stock_of (rf_metadata r)) = true -> applied (stock_of (rf_metadata r')) = true /\ goods_of (snd s') = goods_of (snd s)) /\
  (goods_of (snd s') <> goods_of (snd s) -> applied (stock_of (rf_metadata r)) = false /\ applied (stock_of (rf_metadata r')) = true).
Proof.
  intros Hn Hr He H Hr' Ei. enough (O : once (snd s) (snd s') r).
  { destruct O as (e & [_ X] & O). rewrite (X r' Hr' Ei). destruct (applied (stock_of (rf_metadata r))); [by intuition|]. split; [done|]. intuition. }
  pose proof (find_string_elem _ _ _ Hr) as Hin. unfold finalizeRefund in H. destruct (attempt_row _ _) as [a|]; [|discriminate]. destruct (String.eqb _ _); [|discriminate].
  destruct (order_row _ _) as [o|]; [|discriminate]. rewrite Hr in H. destruct (importedFinancialReconciliationRequired _); [by eapply once_quarantined|].
  destruct (bool_decide (rf_state r = ref_Settled)); [by eapply once_replay|]. destruct (negb (refs_differ _ _)); [|discriminate].
  destruct (_ && _); [inv_ok; apply once_kept; by apply stocked_start|]. rewrite He in H. cbv zeta in H.
  match type of H with context [update_attempt ?d ?i ?f] => set (d2 := update_attempt d i f) in H end.
  assert (K2 : stocked r (goods_of (snd s)) (stock_of (rf_metadata r)) d2)
    by (eapply stocked_same; [..|apply (stocked_rows _ _ _ (snd s)); [|by apply stocked_start]]; [done..|by intros]).
  clearbody d2. destruct (negb (bool_decide _)); [inv_ok; by apply once_kept|].
  assert (K2' : stocked r (goods_of d2) (stock_of (rf_metadata r)) d2) by (destruct K2; by split).
  destruct (applyRefundStockEffects d2 _ _ _ _) as [d3 e] eqn:St. eapply once_stock; [apply K2|exact K2'|exact St|]. intros K3 B. inv_ok.
  assert (K4 : stocked r (goods_of d3) (Some e) a0) by (destruct (String.eqb _ _); [by eapply stocked_gift|by inv_ok]).
  assert (D : forall p, stocked r (goods_of d3) (Some e) (snd (fst (settle_duplicate_refund (fst s, a0) o r (spread (rf_metadata r) [("stockEffects"%string, stock_json e)]) p))))
    by (intros p; by apply stocked_duplicate).
  destruct (payment_row _ _) as [p|]; [destruct (isDuplicatePayment p)|].
  - specialize (D p). destruct (settle_duplicate_refund _ _ _ _ _) as [q w]. injection H as <- _. exact D.
  - eapply (stocked_settle _ _ _ now (fst s, a0)); [| |exact H|exact K4]; done.
  - eapply (stocked_settle _ _ _ now (fst s, a0)); [| |exact H|exact K4]; done.
Qed.
End Finalization.


(** ** A concrete store *)

Definition rfd_tables : RefundTables unit :=
  {| ft_lines := []; ft_returns := []; ft_licenses := [{| lce_id := "lic-1"; lce_orderId := Some "o1"; lce_status := "active"; lce_updatedAt := 0 |}];
     ft_activations := []; ft_giftCards := []; ft_giftTransactions := []; ft_customerEmails := []; ft_endpoints := []; ft_deliveries := []; ft_rest := tt;
     ft_goods := {| gd_lines := [{| ol_id := "l1"; ol_orderId := "o1"; ol_variantId := Some "v1"; ol_quantity := 2; ol_unitPrice := 400; ol_lineTotal := 800;
                                    ol_fulfilledQty := 0; ol_cancelledQty := 0; ol_refundedQty := 0; ol_editRemovedQty := 0; ol_metadata := None |}];
                    gd_stock := [{| stk_variantId := "v1"; stk_onHand := 5; stk_allocated := 2 |}]; gd_movements := [] |} |}%string.
Definition rfd_payment : Payment :=
  {| py_id := "p1"; py_orderId := "o1"; py_amount := 900; py_gatewayAccount := None; py_gatewayMode := None; py_currency := Some "USD";
                        py_method := "manual"; py_providerRef := None; py_state := pay_Settled; py_metadata := None; py_errorMessage := None |}%string.
Abbreviation RfdDb := (SettleDb (ResTables (RefundTables unit))).
Definition rfd_db : RfdDb :=
  {| sd_store := "s1"; sd_orders := [res_order Paid]; sd_ops := []; sd_invoices := []; sd_refunds := []; sd_edits := []; sd_audit := []; sd_outbox := []; sd_fresh := 0;
     sd_payments := [rfd_payment];
     sd_other := {| rt_reservations := []; rt_attempts := []; rt_rest := rfd_tables |} |}%string.
#[local] Instance rfd_settlement : SettlementDeps (ResTables (RefundTables unit)) :=
  {| postAcceptedCredit d _ := (d, None); Settlement.consumeForSettlement d _ _ _ := Ok (d, []);
     handler_of _ := None; order_referenced _ _ := false |}.
(** A store without account credit, loyalty or order edits. *)
#[local] Instance rfd_deps : RefundDeps unit :=
  {| postedRedemptions _ _ := []; importedRedemption _ _ := false; creditAccountCurrency _ _ := None; readCurrentCreditEvidence _ _ := Ok None;
     anchorImportedCreditOrigin d _ := Ok (d, None); restoreRefundAfterSettlement s _ _ := (s, Ok []); readCreditRefundEvidence _ _ := Ok None;
     importedPricingOrigin _ _ := false; refundUnitBases _ _ _ _ := Ok []; availableCreditRefundUnits _ _ _ _ _ := Err tt; prepareCreditUnitReturns _ _ _ _ _ _ := Err tt;
     proveCreditMerchandiseReturn _ _ _ _ := Err tt; merchandiseUnits _ _ := Ok None; reconcileRefundLoyalty d _ _ _ _ _ := d;
     activateRefundedEdit s _ _ := Ok s; bindPreparedEditRefund s _ _ _ := Ok s; stagedEditRemovedUnits _ _ _ := Ok None; gatewayAvailable _ := true;
     recordedNmiEnvironment _ m := Ok m |}.
#[local] Instance rfd_laws : RefundDepsLaws (Y := unit) [].
Proof. split; cbn; [by intros d o d' ev [= <- _]|done|done|by intros s o r s' [= <-]|by intros s o e r s' [= <-]|by intros p hook d t d' ?%elem_of_nil]. Qed.

Abbreviation rfd_prepare := (prepareRefund sample_uuid [] (fun _ => "fp"%string) (fun _ _ => false)).
Abbreviation rfd_finalize := (finalizeRefund sample_uuid []).
Definition rfd_request (key : string) (amount : option Z) (lines : list Line) : RefundRequest :=
  {| fq_orderId := "o1"; fq_actor := "admin"; fq_idempotencyKey := key; fq_paymentId := None; fq_amount := amount; fq_lines := lines; fq_restock := false;
     fq_shippingAmount := None; fq_reason := None; fq_returnId := None; fq_creditMerchandiseReturn := false; fq_orderEdit := false; fq_editId := None; fq_editLines := [] |}%string.
Definition rfd_one : RefundRequest := rfd_request "k1" None [{| ln_orderLineId := "l1"; ln_quantity := 1; ln_restock := true |}]%string.
Definition rfd_rest : RefundRequest := rfd_request "k2" (Some 500) [].
Definition rfd_settled : RefundResult := {| rr_state := ref_Settled; rr_providerRef := Some "re_1"%string |}.
Definition rfd_s0 : FxDb * RfdDb := (sample_db0, rfd_db).
(** The state after a call, and its answer. *)
Definition rfd_then {A} (m : result RefundError (FxDb * RfdDb * A)) (s : FxDb * RfdDb) : FxDb * RfdDb := match m with Ok (s', _) => s' | Err _ => s end.
Definition rfd_s1 : FxDb * RfdDb := rfd_then (rfd_prepare 5 rfd_s0 rfd_one) rfd_s0.
Definition rfd_s2 : FxDb * RfdDb := rfd_then (rfd_finalize 6 rfd_s1 "u0" rfd_settled) rfd_s1.
Definition rfd_s3 : FxDb * RfdDb := rfd_then (rfd_prepare 7 rfd_s2 rfd_rest) rfd_s2.
Definition rfd_s4 : FxDb * RfdDb := rfd_then (rfd_finalize 8 rfd_s3 "u2" rfd_settled) rfd_s3.
#[local] Strategy expand [rfd_s1 rfd_s2 rfd_s3 rfd_s4].
Definition rfd_view (s : FxDb * RfdDb) := (map (fun r => (rf_id r, rf_amount r, rf_state r)) (sd_refunds (snd s)), map so_state (sd_orders (snd s)), gd_stock (ft_goods (tables (snd s)))).

Lemma rfd_uuid_inj a b : sample_uuid a = sample_uuid b -> a = b.
Proof. apply (inj sample_uuid). Qed.
Abbreviation rfd_run := (refund_run (Y := unit) sample_uuid [] (fun _ => "fp"%string) (fun _ _ => false)).
Lemma rfd_run0 : rfd_run (fun _ _ => 0) (snd rfd_s0).
Proof. by apply refund_start; [|apply (bool_decide_eq_true_1 (NoDup _))]. Qed.
(** A refund made in the provider's dashboard, as its webhook records it. *)
Definition rfd_dashboard : Refund :=
  {| rf_id := "re"%string; rf_attemptId := None; rf_paymentId := "p1"%string; rf_orderId := "o1"%string; rf_amount := 700; rf_reason := Some "stripe_dashboard"%string;
     rf_state := ref_Settled; rf_providerRef := Some "re_1"%string; rf_metadata := None; rf_itemsAmount := None; rf_shippingAmount := None; rf_adjustmentAmount := None |}.
Definition rfd_d5 : RfdDb := with_refunds (snd rfd_s2) (sd_refunds (snd rfd_s2) ++ [rfd_dashboard]).
Lemma rfd_dashboard_step (d : RfdDb) : NoDup (map rf_id (sd_refunds d ++ [rfd_dashboard])) -> NoDup (map py_id (sd_payments d)) ->
  refund_step (Y := unit) sample_uuid [] (fun _ => "fp"%string) (fun _ _ => false) d (with_refunds d (sd_refunds d ++ [rfd_dashboard])) false.
Proof.
  intros Hn Hp. apply (step_elsewhere _ _ _ _ _ _ (sd_refunds d) [rfd_dashboard]); try done.
  - apply Forall_singleton. split; [done|]. split; [done|]. intros j _ [=].
  - intros p Hin. left. by apply list_elem_of_fmap_2.
Qed.
Definition rfd_out (o p : string) : Z := 0 + 0 + opened_money (snd rfd_s1) (snd rfd_s2) o p + opened_money (snd rfd_s2) rfd_d5 o p.
Lemma rfd_run5 : rfd_run rfd_out rfd_d5.
Proof.
  assert (K1 : is_ok (rfd_prepare 5 rfd_s0 rfd_one) = true) by (vm_compute; reflexivity).
  destruct (rfd_prepare 5 rfd_s0 rfd_one) as [[[fx1 d1] q1]|] eqn:E1; [|discriminate K1]. clear K1.
  assert (R1 : rfd_run (fun _ _ => 0 + 0) d1) by (eapply (refund_next _ _ _ _ _ _ _ true); [apply rfd_run0|by eapply step_request]).
  assert (S1 : rfd_s1 = (fx1, d1)) by (unfold rfd_s1; by rewrite E1).
  assert (K2 : is_ok (rfd_finalize 6 rfd_s1 "u0" rfd_settled) = true) by (vm_compute; reflexivity).
  destruct (rfd_finalize 6 rfd_s1 "u0" rfd_settled) as [[[fx2 d2] v2]|] eqn:E2; [|discriminate K2]. clear K2.
  assert (S2 : rfd_s2 = (fx2, d2)) by (unfold rfd_s2; by rewrite E2). rewrite S1 in E2.
  unfold rfd_out. eapply (refund_next _ _ _ _ (fun o p => 0 + 0 + opened_money (snd rfd_s1) (snd rfd_s2) o p) _ _ false).
  - rewrite S1, S2. eapply (refund_next _ _ _ _ (fun _ _ => 0 + 0) _ _ false); [exact R1|by eapply step_finalize].
  - apply rfd_dashboard_step; apply (bool_decide_eq_true_1 (NoDup _)); vm_compute; reflexivity.
Qed.

Lemma refund_never_exceeds_payment_witness :
  rfd_view rfd_s2 = ([("u1"%string, 400, ref_Settled)], [PartiallyRefunded], [{| stk_variantId := "v1"; stk_onHand := 5; stk_allocated := 1 |}])%string /\
  rfd_out "o1" "p1" = 700 /\ reserved_money rfd_d5 "o1" "p1" = 1100 /\ reserved_money rfd_d5 "o1" "p1" <= 900 + 700.
Proof.
  split; [vm_compute; reflexivity|]. assert (O : rfd_out "o1" "p1" = 700) by (vm_compute; reflexivity). split; [exact O|]. split; [vm_compute; reflexivity|].
  destruct (refund_never_exceeds_payment sample_uuid [] (fun _ => "fp"%string) (fun _ _ => false) rfd_out rfd_d5 rfd_uuid_inj rfd_run5) as (_ & _ & B).
  assert (P : sd_payments rfd_d5 = [rfd_payment]) by (vm_compute; reflexivity). rewrite P in B.
  destruct (B rfd_payment (list_elem_of_here _ _)) as [X _]. change (py_orderId rfd_payment) with "o1"%string in X. change (py_id rfd_payment) with "p1"%string in X.
  rewrite O in X. exact X.
Defined.

Lemma refund_request_idempotent_witness : exists v r, option_map snd (match rfd_prepare 9 rfd_s2 rfd_one with Ok q => Some q | Err _ => None end) = Some (Existing v) /\
  vw_refundId v = rf_id r /\ rf_attemptId r = Some "u0"%string.
Proof.
  assert (K3 : is_ok (rfd_prepare 5 rfd_s0 rfd_one) = true) by (vm_compute; reflexivity).
  destruct (rfd_prepare 5 rfd_s0 rfd_one) as [[s1 q1]|] eqn:E1; [|discriminate K3]. clear K3.
  assert (S1 : rfd_s1 = s1) by (unfold rfd_s1; by rewrite E1).
  assert (A : exists p am cur cm, q1 = Reserved "u0"%string p am cur cm).
  { assert (X : option_map snd (match rfd_prepare 5 rfd_s0 rfd_one with Ok q => Some q | Err _ => None end) = Some (Reserved "u0"%string rfd_payment 400 "USD"%string false))
      by (vm_compute; reflexivity). rewrite E1 in X. injection X as ->. by exists rfd_payment, 400, "USD"%string, false. }
  destruct A as (p & am & cur & cm & ->).
  assert (K4 : is_ok (rfd_finalize 6 rfd_s1 "u0" rfd_settled) = true) by (vm_compute; reflexivity).
  destruct (rfd_finalize 6 rfd_s1 "u0" rfd_settled) as [[s2 v2]|] eqn:E2; [|discriminate K4]. clear K4.
  assert (S2 : rfd_s2 = s2) by (unfold rfd_s2; by rewrite E2). rewrite S1 in E2.
  assert (K5 : is_ok (rfd_prepare 9 rfd_s2 rfd_one) = true) by (vm_compute; reflexivity).
  destruct (rfd_prepare 9 rfd_s2 rfd_one) as [[s4 q4]|] eqn:E4; [|discriminate K5]. clear K5.
  assert (St : rtc (refund_moves (Y := unit) sample_uuid [] (fun _ => "fp"%string) (fun _ _ => false)) (snd s1) (snd rfd_s2)).
  { apply rtc_once. rewrite S2. destruct s1 as [fx1 d1], s2 as [fx2 d2]. exists false. by eapply step_finalize. }
  rewrite (surjective_pairing rfd_s2) in E4.
  destruct (refund_request_idempotent sample_uuid [] (fun _ => "fp"%string) (fun _ _ => false) (fun _ _ => 0) 5 rfd_s0 rfd_one s1 "u0" p am cur cm (snd rfd_s2) 9 (fst rfd_s2) rfd_one s4 q4
    rfd_uuid_inj rfd_run0 E1 St eq_refl E4) as (r & v & _ & Ra & -> & V & _). exists v, r. split; [reflexivity|]. split; [exact V|exact Ra].
Defined.

Lemma rfd_one_payment (d : RfdDb) q p id : sd_payments d = [q] -> payment_row d id = Some p -> p = q.
Proof. unfold payment_row. intros ->. cbn. destruct (String.eqb _ id); [by intros [= ->]|discriminate]. Qed.
Lemma refund_settles_order_witness : order_state (snd rfd_s4) "o1" = Some Refunded /\ revoked_all (snd rfd_s4) "o1".
Proof.
  assert (K6 : is_ok (rfd_finalize 8 rfd_s3 "u2" rfd_settled) = true) by (vm_compute; reflexivity).
  destruct (rfd_finalize 8 rfd_s3 "u2" rfd_settled) as [[s' v]|] eqn:E; [|discriminate K6]. clear K6.
  assert (S : rfd_s4 = s') by (unfold rfd_s4; by rewrite E).
  assert (K7 : is_some (attempt_row (snd rfd_s3) "u2") = true) by (vm_compute; reflexivity).
  destruct (attempt_row (snd rfd_s3) "u2") as [a|] eqn:Ea; [|discriminate K7]. clear K7.
  assert (K8 : is_some (order_row (snd rfd_s3) "o1") = true) by (vm_compute; reflexivity).
  destruct (order_row (snd rfd_s3) "o1") as [o|] eqn:Eo; [|discriminate K8]. clear K8.
  assert (K9 : is_some (refund_of_attempt (snd rfd_s3) "u2") = true) by (vm_compute; reflexivity).
  destruct (refund_of_attempt (snd rfd_s3) "u2") as [r|] eqn:Er; [|discriminate K9]. clear K9.
  assert (Fa : option_map (fun a => (va_orderId a, va_method a)) (attempt_row (snd rfd_s3) "u2") = Some ("o1", "manual")%string) by (vm_compute; reflexivity).
  assert (Fo : option_map (fun o => (so_id o, so_state o, importedFinancialReconciliationRequired (so_metadata o))) (order_row (snd rfd_s3) "o1") = Some ("o1"%string, PartiallyRefunded, false))
    by (vm_compute; reflexivity).
  assert (Fr : option_map (fun r => (rf_state r, isEditRefund (rf_metadata r))) (refund_of_attempt (snd rfd_s3) "u2") = Some (ref_Pending, false)) by (vm_compute; reflexivity).
  rewrite Ea in Fa. rewrite Eo in Fo. rewrite Er in Fr. injection Fa as A1 A2. injection Fo as O1 O2 O3. injection Fr as R1 R2.
  destruct (refund_settles_order sample_uuid [] 8 rfd_s3 "u2" rfd_settled s' v a o r) as (B1 & B2 & _).
  - apply (bool_decide_eq_true_1 (NoDup _)). vm_compute. reflexivity.
  - exact Ea.
  - by rewrite A1.
  - exact Er.
  - by rewrite A2.
  - exact O3.
  - exact R2.
  - intros p Hp. assert (P : sd_payments (snd rfd_s3) = [rfd_payment]) by (vm_compute; reflexivity).
    by rewrite (rfd_one_payment (snd rfd_s3) rfd_payment p _ P Hp).
  - by rewrite R1.
  - done.
  - exact E.
  - rewrite O1, <- S in *. assert (Bs : orderRefundBasis (snd rfd_s4) "o1" = {| rb_captured := 900; rb_refunded := 900; rb_editRefunded := 0 |}) by (vm_compute; reflexivity).
    rewrite Bs in *. split; [rewrite B1; unfold settled_state; by rewrite O2|by apply B2].
Defined.

Lemma refund_units_bounded_witness : reserved_units (snd rfd_s3) "o1" "l1" = 2 /\
  (reserved_units (snd rfd_s3) "o1" "l1" = reserved_units (snd rfd_s2) "o1" "l1" \/ reserved_units (snd rfd_s3) "o1" "l1" <= 2).
Proof.
  split; [vm_compute; reflexivity|].
  assert (K10 : is_ok (rfd_prepare 7 rfd_s2 rfd_rest) = true) by (vm_compute; reflexivity).
  destruct (rfd_prepare 7 rfd_s2 rfd_rest) as [[s' q]|] eqn:E; [|discriminate K10]. clear K10.
  assert (S : rfd_s3 = s') by (unfold rfd_s3; by rewrite E).
  assert (X : option_map snd (match rfd_prepare 7 rfd_s2 rfd_rest with Ok q => Some q | Err _ => None end) = Some (Reserved "u2"%string rfd_payment 500 "USD"%string false))
    by (vm_compute; reflexivity). rewrite E in X. injection X as ->.
  assert (K11 : is_some (order_row (snd rfd_s2) "o1") = true) by (vm_compute; reflexivity).
  destruct (order_row (snd rfd_s2) "o1") as [o|] eqn:Eo; [|discriminate K11]. clear K11.
  assert (Io : option_map so_id (order_row (snd rfd_s2) "o1") = Some "o1"%string) by (vm_compute; reflexivity). rewrite Eo in Io. injection Io as Io.
  assert (Ids : map rf_id (sd_refunds (snd rfd_s2)) = ["u1"%string]) by (vm_compute; reflexivity).
  assert (K12 : is_some (List.find (fun x => String.eqb (ol_id x) "l1") (map billed_line (order_lines (snd rfd_s2) "o1"))) = true) by (vm_compute; reflexivity).
  destruct (List.find (fun x => String.eqb (ol_id x) "l1") (map billed_line (order_lines (snd rfd_s2) "o1"))) as [r|] eqn:Er; [|discriminate K12]. clear K12.
  assert (Qr : option_map refundQuantity (List.find (fun x => String.eqb (ol_id x) "l1") (map billed_line (order_lines (snd rfd_s2) "o1"))) = Some 2) by (vm_compute; reflexivity).
  rewrite Er in Qr. injection Qr as Qr.
  destruct (refund_units_bounded sample_uuid [] (fun _ => "fp"%string) (fun _ _ => false) 7 rfd_s2 rfd_rest s' "u2" rfd_payment 500 "USD" false o)
    with (id := "l1"%string) (r := r) as [T|T].
  - rewrite Ids. apply NoDup_singleton.
  - intros k Hk H. rewrite Ids in H. apply list_elem_of_singleton in H. assert (Fk : sd_fresh (snd rfd_s2) = 2%nat) by (vm_compute; reflexivity). rewrite Fk in Hk.
    change "u1"%string with (sample_uuid 1) in H. apply rfd_uuid_inj in H. lia.
  - rewrite Ids. apply (bool_decide_eq_true_1 (Forall _ _)). vm_compute. reflexivity.
  - exact E.
  - exact Eo.
  - reflexivity.
  - reflexivity.
  - rewrite Io. exact Er.
  - rewrite S. rewrite Io in T. by left.
  - rewrite S. rewrite Io, Qr in T. right. apply T.
Defined.

Lemma refund_stock_once_witness : goods_of (snd rfd_s2) <> goods_of (snd rfd_s1) /\
  forall r', r' ∈ sd_refunds (snd rfd_s2) -> rf_id r' = "u1"%string -> applied (refundStockEffectsProjection (rf_metadata r')) = true.
Proof.
  assert (D : goods_of (snd rfd_s2) <> goods_of (snd rfd_s1)).
  { intros H. apply (f_equal gd_stock) in H. vm_compute in H. discriminate. }
  split; [exact D|]. intros r' Hr' Ei.
  assert (K13 : is_ok (rfd_finalize 6 rfd_s1 "u0" rfd_settled) = true) by (vm_compute; reflexivity).
  destruct (rfd_finalize 6 rfd_s1 "u0" rfd_settled) as [[s' v]|] eqn:E; [|discriminate K13]. clear K13.
  assert (S : rfd_s2 = s') by (unfold rfd_s2; by rewrite E).
  assert (K14 : is_some (refund_of_attempt (snd rfd_s1) "u0") = true) by (vm_compute; reflexivity).
  destruct (refund_of_attempt (snd rfd_s1) "u0") as [r|] eqn:Er; [|discriminate K14]. clear K14.
  assert (Fr : option_map (fun r => (rf_id r, isEditRefund (rf_metadata r))) (refund_of_attempt (snd rfd_s1) "u0") = Some ("u1"%string, false)) by (vm_compute; reflexivity).
  rewrite Er in Fr. injection Fr as R1 R2. rewrite S in *.
  destruct (refund_stock_once sample_uuid [] 6 rfd_s1 "u0" rfd_settled s' v r r') as [_ B]; [|exact Er|exact R2|exact E|exact Hr'|congruence|].
  - apply (bool_decide_eq_true_1 (NoDup _)). vm_compute. reflexivity.
  - by apply B.
Defined.
