(* ===== verification/OrderNumber.v ===== *)
(** Sequential, store-configurable order numbers (orders/order-number.ts and the settings handlers of
    routes/admin-settings.ts): the code format and its anchored pattern, the counter row of a store, the allocation
    loop, the move past existing codes, the conflict test on a chain of causes, the savepoint retry, and the two
    settings handlers.

    A transaction sees the counters, the orders ([store], [code]) and the batches of rows that other writers commit
    while it runs: [arrivals] holds one batch per statement, and every statement first sees its batch ([tick]). The
    unique (store, code) constraint refuses an arrival that exists already. The counter row is locked by the first
    statement that writes it, so no other writer changes it afterwards. Text is ASCII, as the affix rule demands. *)
From Stdlib Require Import ZArith List Bool String Ascii Lia.
From stdpp Require Import base list strings gmap pretty.
From S2P Require Import Prelude JsNumber Json JsonText.
Local Open Scope string_scope.
Local Open Scope list_scope.
Local Open Scope Z_scope.

Record OrderNumbering := { prefix : string; suffix : string; minDigits : Z; nextNumber : Z }.
Definition DEFAULT_ORDER_NUMBERING : OrderNumbering := {| prefix := ""; suffix := ""; minDigits := 0; nextNumber := 1001 |}.
Definition MAX_ORDER_NUMBER : Z := 999999999999.
Definition MAX_MIN_DIGITS : Z := 12.
Definition MAX_AFFIX_LENGTH : nat := 16.

Definition is_alnum (c : ascii) : bool :=
  let n := nat_of_ascii c in is_digit c || (65 <=? n)%nat && (n <=? 90)%nat || (97 <=? n)%nat && (n <=? 122)%nat.
Definition affix_char (c : ascii) : bool := is_alnum c || existsb (Ascii.eqb c) ["#"%char; "_"%char; "."%char; "/"%char; "-"%char].
Fixpoint all_chars (p : ascii -> bool) (s : string) : bool :=
  match s with EmptyString => true | String c r => p c && all_chars p r end.

(** ** Codes *)

(** [String(n).padStart(width, '0')]. *)
Fixpoint zeros (n : nat) : string := match n with O => EmptyString | S k => String "0"%char (zeros k) end.
Definition padStart (s : string) (width : Z) : string := zeros (Z.to_nat width - String.length s) +:+ s.
Definition formatOrderCode (f : OrderNumbering) (n : Z) : string := prefix f +:+ padStart (pretty n) (minDigits f) +:+ suffix f.

Fixpoint escapeLiteral (s : string) : string :=
  match s with
  | EmptyString => EmptyString
  | String c r => if is_alnum c then String c (escapeLiteral r) else String backslash (String c (escapeLiteral r))
  end.
Definition orderCodePattern (p s : string) : string := "^" +:+ escapeLiteral p +:+ "([0-9]+)" +:+ escapeLiteral s +:+ "$".

(** The fragment of the expression language the patterns use: an anchored sequence of literal characters, escaped
    punctuation and one capturing group of digits, matched greedily with backtracking. *)
Inductive atom := lit (c : ascii) | digits.
Fixpoint read_atoms (fuel : nat) (s : string) : option (list atom) :=
  match fuel with
  | O => None
  | S fuel =>
      match strip_prefix "([0-9]+)" s with
      | Some r => cons digits <$> read_atoms fuel r
      | None =>
          match s with
          | String c EmptyString => if Ascii.eqb c "$"%char then Some [] else None
          | String c (String d r as t) =>
              if Ascii.eqb c backslash then if is_alnum d then None else cons (lit d) <$> read_atoms fuel r
              else if is_alnum c then cons (lit c) <$> read_atoms fuel t else None
          | EmptyString => None
          end
      end
  end.
Definition read_pattern (p : string) : option (list atom) :=
  match p with String c r => if Ascii.eqb c "^"%char then read_atoms (S (String.length r)) r else None | EmptyString => None end.
Fixpoint eat_digits (k : string -> option (list string)) (seen s : string) : option (list string) :=
  match s with
  | EmptyString => None
  | String c r =>
      if is_digit c then
        let d := seen +:+ String c EmptyString in
        match eat_digits k d r with Some caps => Some caps | None => cons d <$> k r end
      else None
  end.
Fixpoint exec_atoms (p : list atom) (s : string) : option (list string) :=
  match p with
  | [] => if String.eqb s EmptyString then Some [] else None
  | lit c :: p' => match s with String d r => if Ascii.eqb c d then exec_atoms p' r else None | EmptyString => None end
  | digits :: p' => eat_digits (exec_atoms p') EmptyString s
  end.
Definition regexp_exec (pattern code : string) : option (list string) := atoms ← read_pattern pattern; exec_atoms atoms code.

(** The captured digits as a number: [substring(code from pattern)::numeric]. *)
Definition code_number (f : OrderNumbering) (code : string) : option Z :=
  match regexp_exec (orderCodePattern (prefix f) (suffix f)) code with Some (d :: _) => Some (decimal 0 d) | _ => None end.
Definition parseOrderNumber (f : OrderNumbering) (code : string) : option Z :=
  match regexp_exec (orderCodePattern (prefix f) (suffix f)) code with
  | Some (d :: _) => let n := decimal 0 d in if is_safe n then Some n else None
  | _ => None
  end.

(** Shape rules. The values come from integer columns and integer fields. *)
Definition affix_error (name value : string) : option string :=
  if (MAX_AFFIX_LENGTH <? String.length value)%nat then Some (name +:+ " must be at most 16 characters")
  else if negb (all_chars affix_char value) then Some (name +:+ " may contain only letters, digits and # _ . / -")
  else None.
Fixpoint last_digit (s : string) : bool :=
  match s with EmptyString => false | String c EmptyString => is_digit c | String _ r => last_digit r end.
Definition orderNumberingError (v : OrderNumbering) : option string :=
  match affix_error "prefix" (prefix v) with
  | Some e => Some e
  | None =>
      match affix_error "suffix" (suffix v) with
      | Some e => Some e
      | None =>
          if last_digit (prefix v) then Some "prefix must not end with a digit"
          else if negb (no_digit (suffix v)) then Some "suffix must not start with a digit"
          else if (minDigits v <? 0) || (MAX_MIN_DIGITS <? minDigits v) then Some "minimum digits must be between 0 and 12"
          else if negb (is_safe (nextNumber v)) || (nextNumber v <? 1) || (MAX_ORDER_NUMBER <? nextNumber v)
               then Some "next number must be between 1 and 999999999999"
          else None
      end
  end.

(** Codes a typed reference may stand for. *)
Fixpoint strip_hashes (s : string) : string :=
  match s with String c r => if Ascii.eqb c "#"%char then strip_hashes r else s | EmptyString => EmptyString end.
Definition add_candidate (out : list string) (v : string) : list string :=
  if negb (String.eqb v EmptyString) && negb (String.eqb v "#") && negb (existsb (String.eqb v) out) then out ++ [v] else out.
Definition orderCodeCandidates (input : string) : list string :=
  let typed := trim input in
  fold_left (fun out base => let bare := strip_hashes base in fold_left add_candidate [base; bare; "#" +:+ bare] out)
    [typed; to_upper typed] [].

(** ** The transaction *)

(** A value that can be thrown: its code, constraint and cause, as far as the code looks. *)
Inductive thrown :=
| not_object
| error_object (message : string) (code constraint : option string) (cause : thrown).
Definition Error (message : string) : thrown := error_object message None None not_object.
Definition order_code_violation : thrown := error_object "duplicate key value" (Some "23505") (Some "order_store_code") not_object.

(** True when a link of the chain of causes, at most [depth] deep, is the unique (store_id, code) violation. *)
Fixpoint conflict_within (depth : nat) (cur : thrown) : bool :=
  match depth, cur with
  | S d, error_object _ code constraint cause =>
      if bool_decide (code = Some "23505" /\ constraint = Some "order_store_code") then true else conflict_within d cause
  | _, _ => false
  end.
Definition isOrderCodeConflict (e : thrown) : bool := conflict_within 5 e.

Record tx := { seqs : gmap string OrderNumbering; orders : list (string * string); arrivals : list (list (string * string)) }.
Definition with_seqs (t : tx) (m : gmap string OrderNumbering) : tx := {| seqs := m; orders := orders t; arrivals := arrivals t |}.
Definition has_order (t : tx) (store code : string) : bool := bool_decide ((store, code) ∈ orders t).
Definition arrive (rows : list (string * string)) (o : string * string) : list (string * string) :=
  if decide (o ∈ rows) then rows else rows ++ [o].
Definition tick (t : tx) : tx :=
  match arrivals t with
  | [] => t
  | batch :: later => {| seqs := seqs t; orders := fold_left arrive batch (orders t); arrivals := later |}
  end.

Definition store_codes (t : tx) (store : string) : list string := omap (fun o => if String.eqb (fst o) store then Some (snd o) else None) (orders t).
Definition readOrderNumbering (store : string) (t : tx) : OrderNumbering := default DEFAULT_ORDER_NUMBERING (seqs t !! store).

Section ordering.
(** The order the database gives two codes of one number. *)
Context (code_after : string -> string -> bool).

Definition better (best : option (string * Z)) (row : string * Z) : option (string * Z) :=
  match best with
  | None => Some row
  | Some (code, n) => if (n <? snd row) || (n =? snd row) && code_after code (fst row) then Some row else best
  end.
Definition matching (f : OrderNumbering) (codes : list string) : list (string * Z) :=
  omap (fun code => pair code <$> code_number f code) codes.
Definition highestMatchingCode (store : string) (f : OrderNumbering) (t : tx) : option (string * Z) :=
  fold_left better (matching f (store_codes t store)) None.

(** [INSERT … ON CONFLICT (store_id) DO NOTHING] with the default row. *)
Definition ensure_row (store : string) (t : tx) : tx :=
  match seqs t !! store with Some _ => t | None => with_seqs t (<[store := DEFAULT_ORDER_NUMBERING]> (seqs t)) end.
Definition with_next (v : OrderNumbering) (n : Z) : OrderNumbering :=
  {| prefix := prefix v; suffix := suffix v; minDigits := minDigits v; nextNumber := n |}.

(** One statement each: make the row, read it locked, read the orders, move the counter. *)
Definition bumpOrderNumberPastExisting (store : string) (t : tx) : result thrown OrderNumbering * tx :=
  let t := ensure_row store (tick t) in
  let t := tick t in
  let current := readOrderNumbering store t in
  let t := tick t in
  match highestMatchingCode store current t with
  | Some (code, number) =>
      if nextNumber current <=? number then
        if MAX_ORDER_NUMBER <=? number
        then (Err (Error ("order number space exhausted for format " +:+ formatOrderCode current 0 +:+ " (highest " +:+ code +:+ ")")), t)
        else let v := with_next current (number + 1) in (Ok v, with_seqs (tick t) (<[store := v]> (seqs t)))
      else (Ok current, t)
  | None => (Ok current, t)
  end.

(** [INSERT … ON CONFLICT DO UPDATE SET next_number = next_number + 1 RETURNING …, next_number - 1]. *)
Definition take_number (store : string) (t : tx) : OrderNumbering * tx :=
  let v := match seqs t !! store with
           | Some v => with_next v (nextNumber v + 1)
           | None => with_next DEFAULT_ORDER_NUMBERING (nextNumber DEFAULT_ORDER_NUMBERING + 1)
           end in
  (with_next v (nextNumber v - 1), with_seqs t (<[store := v]> (seqs t))).

Fixpoint nextOrderCode_attempts (attempts : nat) (store : string) (t : tx) : result thrown string * tx :=
  match attempts with
  | O => (Err (Error "could not allocate a free order code"), t)
  | S more =>
      let '(taken, t) := take_number store (tick t) in
      if MAX_ORDER_NUMBER <? nextNumber taken then (Err (Error "order number space exhausted; change the order number format"), t)
      else
        let code := formatOrderCode taken (nextNumber taken) in
        let t := tick t in
        if has_order t store code then
          match bumpOrderNumberPastExisting store t with
          | (Err e, t) => (Err e, t)
          | (Ok _, t) => nextOrderCode_attempts more store t
          end
        else (Ok code, t)
  end.
Definition nextOrderCode : string -> tx -> result thrown string * tx := nextOrderCode_attempts 3.

(** [insert] writes the order row and whatever must commit with it. A failure rolls its writes back to the savepoint;
    rows other writers committed meanwhile stay. *)
Definition withSavepoint {T} (fn : tx -> result thrown (T * tx)) (t : tx) : result thrown T * tx :=
  let t := tick t in
  match fn t with Ok (a, t') => (Ok a, t') | Err e => (Err e, t) end.

Fixpoint withOrderNumber_from {T} (retries : nat) (store : string) (insert : string -> tx -> result thrown (T * tx)) (t : tx)
    : result thrown (string * T) * tx :=
  match nextOrderCode store t with
  | (Err e, t) => (Err e, t)
  | (Ok code, t) =>
      match withSavepoint (insert code) t with
      | (Ok r, t) => (Ok (code, r), t)
      | (Err e, t) =>
          match retries with
          | S more => if isOrderCodeConflict e then withOrderNumber_from more store insert t else (Err e, t)
          | O => (Err e, t)
          end
      end
  end.
Definition withOrderNumber {T} : string -> (string -> tx -> result thrown (T * tx)) -> tx -> result thrown (string * T) * tx :=
  withOrderNumber_from 2.

(** ** The settings handlers ([admin-settings.ts]) *)

Record NumberingView := { nv_numbering : OrderNumbering; nv_preview : string; nv_highestExisting : option string }.
Definition orderNumberingView (store : string) (v : OrderNumbering) (t : tx) : NumberingView :=
  {| nv_numbering := v; nv_preview := formatOrderCode v (nextNumber v); nv_highestExisting := fst <$> highestMatchingCode store v t |}.
Definition get_order_numbering (store : string) (t : tx) : NumberingView := orderNumberingView store (readOrderNumbering store t) t.

Record NumberingPatch := { pt_prefix : option string; pt_suffix : option string; pt_minDigits : option Z; pt_nextNumber : option Z }.
Definition apply_patch (b : NumberingPatch) (v : OrderNumbering) : OrderNumbering :=
  {| prefix := default (prefix v) (pt_prefix b); suffix := default (suffix v) (pt_suffix b);
     minDigits := default (minDigits v) (pt_minDigits b); nextNumber := default (nextNumber v) (pt_nextNumber b) |}.
Inductive patch_error := invalid_format (message : string) | order_number_collision (highestExisting : string) (minimumNextNumber : Z).
(** The transaction of the update. A refusal rolls it back. *)
Definition patch_order_numbering (store : string) (b : NumberingPatch) (t : tx) : result patch_error (NumberingView * tx) :=
  let t := ensure_row store (tick t) in
  let t := tick t in
  let before := readOrderNumbering store t in
  let next := apply_patch b before in
  match orderNumberingError next with
  | Some e => Err (invalid_format e)
  | None =>
      let t := tick t in
      let write :=
        let t := with_seqs (tick t) (<[store := next]> (seqs t)) in
        let t := tick (tick t) in
        Ok (orderNumberingView store next t, t) in
      match highestMatchingCode store next t with
      | Some (code, number) => if nextNumber next <=? number then Err (order_number_collision code (number + 1)) else write
      | None => write
      end
  end.
End ordering.
