(* ===== verification/OrderNumberFacts.v ===== *)
(** Correctness of the order numbers of [OrderNumber.v]: the pattern captures exactly the number of a code, codes and
    numbers determine each other, the allocation loop needs two attempts, and the counter stays ahead of every existing
    code, so the previewed code is the next one. *)
From Stdlib Require Import ZArith List Bool String Ascii Lia.
From stdpp Require Import base list strings gmap relations pretty.
From S2P Require Import Prelude JsNumber Json JsonText OrderNumber.
Local Open Scope string_scope.
Local Open Scope list_scope.
Local Open Scope Z_scope.

(** ** The pattern *)

Lemma strip_prefix_app a b : strip_prefix a (a +:+ b) = Some b.
Proof. induction a as [|c a IH]; [done|]. rewrite append_cons. cbn. by rewrite Ascii.eqb_refl. Qed.
Lemma strip_prefix_spec a s b : strip_prefix a s = Some b -> s = a +:+ b.
Proof.
  revert s. induction a as [|c a IH]; intros s H; cbn in H; [by injection H as ->|].
  destruct s as [|d s]; [done|]. destruct (Ascii.eqb_spec c d) as [->|]; [|done]. by rewrite append_cons, (IH _ H).
Qed.

Definition lits (s : string) : list atom := map lit (list_ascii_of_string s).
#[local] Arguments lits !s /.
Lemma alnum_special c : is_alnum c = true -> Ascii.eqb c "$"%char = false /\ Ascii.eqb c backslash = false /\ Ascii.eqb "("%char c = false.
Proof.
  assert (H : forall d, Ascii.eqb c d = true -> is_alnum c = true -> is_alnum d = true) by (intros d E%Ascii.eqb_eq; by subst).
  intros Hc. repeat split; [| |rewrite Ascii.eqb_sym]; apply not_true_is_false; intros E; discriminate (H _ E Hc).
Qed.

Lemma read_escape s : forall fuel c rest,
  read_atoms (String.length s + fuel) (escapeLiteral s +:+ String c rest) = app (lits s) <$> read_atoms fuel (String c rest).
Proof.
  induction s as [|a s IH]; intros fuel c rest; [cbn; by destruct (read_atoms fuel _)|].
  cbn [escapeLiteral String.length Nat.add]. destruct (is_alnum a) eqn:Ea.
  - destruct (alnum_special _ Ea) as (E1 & E2 & E3). rewrite append_cons. cbn [read_atoms strip_prefix]. rewrite E3.
    assert (exists d r, escapeLiteral s +:+ String c rest = String d r) as (d & r & E).
    { destruct (escapeLiteral s) as [|x y]; [by eexists _, _|]. rewrite append_cons. by eexists _, _. }
    pose proof (IH fuel c rest) as H. rewrite E in *. rewrite E2, Ea, H. by destruct (read_atoms fuel _).
  - rewrite !append_cons. cbn [read_atoms strip_prefix]. change (Ascii.eqb "("%char backslash) with false.
    change (Ascii.eqb backslash backslash) with true. cbv iota. rewrite Ea, IH. by destruct (read_atoms fuel _).
Qed.

Lemma read_orderCodePattern p s : read_pattern (orderCodePattern p s) = Some (lits p ++ digits :: lits s).
Proof.
  unfold orderCodePattern. rewrite append_cons, append_empty. cbn [read_pattern]. rewrite Ascii.eqb_refl.
  set (t := escapeLiteral p +:+ _).
  assert (exists k, S (String.length t) = String.length p + S (String.length s + S k))%nat as [k ->].
  { assert (L : forall s, (String.length s <= String.length (escapeLiteral s))%nat)
      by (clear; induction s as [|a s IH]; cbn; [lia|]; destruct (is_alnum a); cbn; lia).
    pose proof (L p). pose proof (L s). unfold t. rewrite !string_length_append. cbn [String.length].
    exists (String.length (escapeLiteral p) - String.length p + (String.length (escapeLiteral s) - String.length s) + 8)%nat. lia. }
  unfold t. rewrite (append_cons "("%char), read_escape. rewrite <- append_cons. cbn [read_atoms].
  rewrite (strip_prefix_app "([0-9]+)").
  rewrite (read_escape s (S _) "$"%char EmptyString). cbn. by rewrite app_nil_r.
Qed.

Lemma exec_lits s p code : exec_atoms (lits s ++ p) code = match strip_prefix s code with Some r => exec_atoms p r | None => None end.
Proof.
  revert code. induction s as [|a s IH]; intros code; [done|]. cbn. destruct code as [|d r]; [done|].
  destruct (Ascii.eqb a d); [apply IH|done].
Qed.
Lemma exec_end s x : exec_atoms (lits s) x = if String.eqb x s then Some [] else None.
Proof.
  pose proof (exec_lits s [] x) as H. rewrite app_nil_r in H. rewrite H. clear H. destruct (strip_prefix s x) as [r|] eqn:E.
  - apply strip_prefix_spec in E as ->. cbn. destruct (String.eqb_spec r EmptyString) as [->|Hr].
    + by rewrite append_nil_r, String.eqb_refl.
    + destruct (String.eqb_spec (s +:+ r) s) as [E|]; [|done]. apply (f_equal String.length) in E.
      rewrite string_length_append in E. destruct r; [done|cbn in E; lia].
  - destruct (String.eqb_spec x s) as [->|]; [|done]. pose proof (strip_prefix_app s EmptyString) as H. rewrite append_nil_r in H. congruence.
Qed.

Lemma eat_sound s x : forall seen caps, eat_digits (exec_atoms (lits s)) seen x = Some caps ->
  exists d, d <> EmptyString /\ all_digits d = true /\ x = d +:+ s /\ caps = [seen +:+ d].
Proof.
  induction x as [|c x IH]; intros seen caps H; [done|]. cbn [eat_digits] in H. destruct (is_digit c) eqn:Hc; [|done].
  destruct (eat_digits _ _ x) as [caps'|] eqn:E.
  - apply IH in E as (d & Hn & Hd & -> & ->). injection H as <-. exists (String c d).
    split; [done|]. split; [cbn; by rewrite Hc|]. split; [done|]. by rewrite append_assoc.
  - rewrite exec_end in H. destruct (String.eqb_spec x s) as [->|]; [|done]. injection H as <-.
    exists (String c EmptyString). by rewrite append_cons; cbn; rewrite Hc.
Qed.
Lemma eat_complete s d : forall seen, d <> EmptyString -> all_digits d = true ->
  eat_digits (exec_atoms (lits s)) seen (d +:+ s) = Some [seen +:+ d].
Proof.
  induction d as [|c d IH]; intros seen Hn Hd; [done|]. cbn in Hd. apply andb_true_iff in Hd as [Hc Hd].
  rewrite append_cons. cbn [eat_digits]. rewrite Hc. destruct d as [|c' d'].
  - rewrite append_empty. destruct (eat_digits _ _ s) as [caps|] eqn:E.
    + apply eat_sound in E as (d & Hn' & _ & E & _). apply (f_equal String.length) in E. rewrite string_length_append in E.
      destruct d; [done|cbn in E; lia].
    + by rewrite exec_end, String.eqb_refl.
  - rewrite IH by done. by rewrite append_assoc.
Qed.

(** The captured text, for every code of the format and no other. *)
Lemma capture_iff p s code d :
  regexp_exec (orderCodePattern p s) code = Some [d] <-> d <> EmptyString /\ all_digits d = true /\ code = p +:+ d +:+ s.
Proof.
  unfold regexp_exec. rewrite read_orderCodePattern. cbn [mbind option_bind]. rewrite exec_lits. split.
  - destruct (strip_prefix p code) as [r|] eqn:E; [|done]. apply strip_prefix_spec in E as ->. intros H.
    apply eat_sound in H as (d' & Hn & Hd & -> & E). injection E as ->. by rewrite append_empty.
  - intros (Hn & Hd & ->). rewrite strip_prefix_app. cbn [exec_atoms]. by rewrite eat_complete.
Qed.
Lemma capture_shape p s code : regexp_exec (orderCodePattern p s) code = None \/ exists d, regexp_exec (orderCodePattern p s) code = Some [d].
Proof.
  unfold regexp_exec. rewrite read_orderCodePattern. cbn [mbind option_bind]. rewrite exec_lits.
  destruct (strip_prefix p code) as [r|]; [|by left]. cbn [exec_atoms]. destruct (eat_digits _ _ r) as [caps|] eqn:E; [|by left].
  apply eat_sound in E as (d & _ & _ & _ & ->). right. by eexists.
Qed.
Lemma code_number_iff f code n : code_number f code = Some n <->
  exists d, d <> EmptyString /\ all_digits d = true /\ code = prefix f +:+ d +:+ suffix f /\ n = decimal 0 d.
Proof.
  unfold code_number. split.
  - destruct (capture_shape (prefix f) (suffix f) code) as [->|[d E]]; [done|]. rewrite E. intros [= <-].
    apply capture_iff in E as (? & ? & ?). by exists d.
  - intros (d & Hn & Hd & E & ->). by rewrite (proj2 (capture_iff (prefix f) (suffix f) code d)).
Qed.

(** ** Codes and numbers determine each other *)

Lemma decimal_acc d : forall acc, decimal acc d = acc * 10 ^ Z.of_nat (String.length d) + decimal 0 d.
Proof.
  induction d as [|c d IH]; intros acc; [cbn; lia|]. cbn [decimal String.length]. rewrite (IH (acc * 10 + _)), (IH (0 * 10 + _)), Nat2Z.inj_succ, Z.pow_succ_r by lia. lia.
Qed.
Lemma digit_value c : is_digit c = true -> 0 <= Z.of_nat (nat_of_ascii c) - 48 <= 9.
Proof. unfold is_digit. intros H. apply andb_true_iff in H as [H1%Nat.leb_le H2%Nat.leb_le]. lia. Qed.
Lemma decimal_bound d : all_digits d = true -> 0 <= decimal 0 d < 10 ^ Z.of_nat (String.length d).
Proof.
  induction d as [|c d IH]; intros H; [cbn; lia|]. cbn in H. apply andb_true_iff in H as [Hc Hd].
  specialize (IH Hd). pose proof (digit_value _ Hc). cbn [decimal String.length]. rewrite decimal_acc, Nat2Z.inj_succ, Z.pow_succ_r by lia. nia.
Qed.
Lemma decimal_inj d : forall e, all_digits d = true -> all_digits e = true -> String.length d = String.length e ->
  decimal 0 d = decimal 0 e -> d = e.
Proof.
  induction d as [|c d IH]; intros [|c' e] Hd He L E; try done. cbn in Hd, He, L.
  apply andb_true_iff in Hd as [Hc Hd]. apply andb_true_iff in He as [Hc' He]. injection L as L.
  cbn [decimal] in E. rewrite (decimal_acc d), (decimal_acc e), L in E.
  pose proof (decimal_bound _ Hd). pose proof (decimal_bound _ He). rewrite L in *. pose proof (digit_value _ Hc). pose proof (digit_value _ Hc').
  assert (Ec : nat_of_ascii c = nat_of_ascii c') by nia.
  assert (c = c') as -> by (rewrite <- (ascii_nat_embedding c), Ec; apply ascii_nat_embedding).
  f_equal. apply IH; auto. lia.
Qed.

Lemma zeros_spec k : all_digits (zeros k) = true /\ decimal 0 (zeros k) = 0 /\ String.length (zeros k) = k.
Proof. induction k as [|k (Hd & Hv & Hl)]; [done|]. cbn. by rewrite Hd, Hl. Qed.
Lemma pretty_spec n : 0 <= n -> pretty n <> EmptyString /\ all_digits (pretty n) = true /\ decimal 0 (pretty n) = n /\
  leading_zero (pretty n) = false.
Proof.
  intros H. replace (pretty n) with (pretty (Z.to_N n)) by (by destruct n).
  destruct (pretty_nat_spec (Z.to_N n)) as (Hd & Hv & Hz & c & t & E). rewrite Z2N.id in Hv by lia. repeat split; auto. by rewrite E.
Qed.
Lemma padStart_spec n w : 0 <= n -> padStart (pretty n) w <> EmptyString /\ all_digits (padStart (pretty n) w) = true /\
  decimal 0 (padStart (pretty n) w) = n.
Proof.
  intros H. destruct (pretty_spec _ H) as (Hn & Hd & Hv & _). unfold padStart. destruct (zeros_spec (Z.to_nat w - String.length (pretty n))) as (Zd & Zv & _).
  split; [by destruct (zeros _)|]. by rewrite digits_append, decimal_append, Zd, Hd, Zv, Hv.
Qed.
Lemma format_number f n : 0 <= n -> code_number f (formatOrderCode f n) = Some n.
Proof. intros H. apply code_number_iff. destruct (padStart_spec n (minDigits f) H) as (Hn & Hd & Hv). by exists (padStart (pretty n) (minDigits f)). Qed.
Lemma code_number_ext f g code : prefix f = prefix g -> suffix f = suffix g -> code_number f code = code_number g code.
Proof. unfold code_number. by intros -> ->. Qed.
Lemma format_inj f g n m : prefix f = prefix g -> suffix f = suffix g -> 0 <= n -> 0 <= m ->
  formatOrderCode f n = formatOrderCode g m -> n = m.
Proof.
  intros Hp Hs Hn Hm E. pose proof (format_number f n Hn) as H. rewrite E, (code_number_ext f g) in H by done.
  rewrite format_number in H by done. by injection H.
Qed.

Lemma short_digits d : d <> EmptyString -> all_digits d = true -> leading_zero d = false -> 0 < decimal 0 d ->
  10 ^ (Z.of_nat (String.length d) - 1) <= decimal 0 d.
Proof.
  destruct d as [|c d]; [done|]. intros _ Hd Hz Hv. cbn in Hd. apply andb_true_iff in Hd as [Hc Hd]. pose proof (decimal_bound _ Hd) as B.
  cbn [String.length]. replace (Z.of_nat (S (String.length d)) - 1) with (Z.of_nat (String.length d)) by lia.
  assert (1 <= Z.of_nat (nat_of_ascii c) - 48).
  { pose proof (digit_value _ Hc). destruct (Z.eq_dec (Z.of_nat (nat_of_ascii c) - 48) 0) as [E|]; [|lia].
    assert (c = "0"%char) as -> by (rewrite <- (ascii_nat_embedding c); replace (nat_of_ascii c) with 48%nat by lia; done).
    by destruct d. }
  cbn [decimal]. rewrite decimal_acc. nia.
Qed.
Definition with_digits (f : OrderNumbering) (w : Z) : OrderNumbering :=
  {| prefix := prefix f; suffix := suffix f; minDigits := w; nextNumber := nextNumber f |}.
Lemma digits_padded d : d <> EmptyString -> all_digits d = true -> padStart (pretty (decimal 0 d)) (Z.of_nat (String.length d)) = d.
Proof.
  intros Hn Hd. pose proof (decimal_bound _ Hd) as B. set (n := decimal 0 d) in *. destruct (pretty_spec n ltac:(lia)) as (Pn & Pd & Pv & Pz).
  destruct (padStart_spec n (Z.of_nat (String.length d)) ltac:(lia)) as (_ & Sd & Sv). apply decimal_inj; auto.
  unfold padStart. rewrite string_length_append, Nat2Z.id, (proj2 (proj2 (zeros_spec _))).
  enough (String.length (pretty n) <= String.length d)%nat by lia. destruct (Z.eq_dec n 0) as [E0|Hz]; [rewrite E0; change (String.length (pretty 0)) with 1%nat; destruct d; [done|cbn; lia]|].
  pose proof (short_digits _ Pn Pd Pz ltac:(lia)) as Hs. rewrite Pv in Hs.
  assert (Z.of_nat (String.length (pretty n)) - 1 < Z.of_nat (String.length d)) by (apply (Z.pow_lt_mono_r_iff 10); lia). lia.
Qed.
Lemma code_is_padded f code n : code_number f code = Some n -> 0 <= n /\ exists w, 1 <= w /\ code = formatOrderCode (with_digits f w) n.
Proof.
  intros H. apply code_number_iff in H as (d & Hn & Hd & -> & ->). split; [by apply decimal_bound|].
  exists (Z.of_nat (String.length d)). unfold formatOrderCode. cbn [with_digits prefix suffix minDigits]. rewrite digits_padded by done.
  split; [destruct d; [done|cbn; lia]|done].
Qed.
Lemma parse_code_number f code : parseOrderNumber f code = match code_number f code with Some n => if is_safe n then Some n else None | None => None end.
Proof. unfold parseOrderNumber, code_number. by destruct (regexp_exec _ _) as [[|]|]. Qed.

(** C37: Order codes and their numbers determine each other. Whatever the format, the pattern built by escaping the
    affixes reads the number of a printed code back, at any padding; a code it accepts is a padding of its number
    between the affixes, and two numbers printed in one format with any two paddings never share a code. Numbers up to
    the largest safe integer are parsed back, larger ones to nothing. *)
Theorem order_code_reads_back f n (H : 0 <= n) :
  (forall w, code_number f (formatOrderCode (with_digits f w) n) = Some n /\
     parseOrderNumber f (formatOrderCode (with_digits f w) n) = if n <=? MAX_SAFE then Some n else None) /\
  (forall code, parseOrderNumber f code = Some n -> exists w, 1 <= w /\ code = formatOrderCode (with_digits f w) n) /\
  (forall w w' m, 0 <= m -> formatOrderCode (with_digits f w) n = formatOrderCode (with_digits f w') m -> n = m).
Proof.
  split; [|split].
  - intros w. assert (E : code_number f (formatOrderCode (with_digits f w) n) = Some n)
      by (rewrite (code_number_ext f (with_digits f w)) by done; by apply format_number).
    split; [done|]. rewrite parse_code_number, E. unfold is_safe. by replace (- MAX_SAFE <=? n) with true by (symmetry; apply Z.leb_le; change MAX_SAFE with 9007199254740991; lia).
  - intros code. rewrite parse_code_number. destruct (code_number f code) as [m|] eqn:E; [|done]. destruct (is_safe m); [|done].
    intros [= <-]. by apply (code_is_padded _ _ _ E).
  - intros w w' m Hm. by apply format_inj.
Qed.
Lemma order_code_reads_back_witness :
  parseOrderNumber {| prefix := "SO-"; suffix := "-US"; minDigits := 4; nextNumber := 1 |} "SO-0042-US" = Some 42.
Proof.
  exact (proj2 (proj1 (order_code_reads_back {| prefix := "SO-"; suffix := "-US"; minDigits := 4; nextNumber := 1 |} 42 ltac:(lia)) 4)).
Defined.
