(* ===== verification/OrderSequence.v ===== *)
(** The counter of [OrderNumber.v]: what one allocation does under any interference, that two attempts suffice without
    it, what the savepoint retry guarantees, and the invariant that keeps the counter ahead of every existing code. *)
From Stdlib Require Import ZArith List Bool String Ascii Lia.
From stdpp Require Import base list strings gmap relations pretty.
From S2P Require Import Prelude JsNumber Json JsonText OrderNumber OrderNumberFacts.
Local Open Scope string_scope.
Local Open Scope list_scope.
Local Open Scope Z_scope.

(** ** Arrivals *)

Lemma arrive_in batch rows o : o ∈ fold_left arrive batch rows <-> o ∈ rows \/ o ∈ batch.
Proof.
  revert rows. induction batch as [|b batch IH]; intros rows; cbn; [set_solver|]. rewrite IH. unfold arrive.
  destruct (decide (b ∈ rows)); set_solver.
Qed.
Lemma arrive_NoDup batch rows : NoDup rows -> NoDup (fold_left arrive batch rows).
Proof.
  revert rows. induction batch as [|b batch IH]; intros rows H; cbn; [done|]. apply IH. unfold arrive.
  destruct (decide (b ∈ rows)); [done|]. apply NoDup_app. split; [done|]. split; [set_solver|]. apply NoDup_singleton.
Qed.

(** [t'] saw more rows of other writers than [t] and wrote no order. *)
Definition grown (t t' : tx) : Prop :=
  orders t ⊆ orders t' /\ (forall o, o ∈ orders t' -> o ∈ orders t \/ exists b, b ∈ arrivals t /\ o ∈ b) /\
  (forall b, b ∈ arrivals t' -> b ∈ arrivals t) /\ (NoDup (orders t) -> NoDup (orders t')).
#[export] Instance grown_preorder : PreOrder grown.
Proof.
  split; [by intros t; repeat split; auto|]. intros a b c (H1 & H2 & H3 & H4) (K1 & K2 & K3 & K4).
  repeat split; [set_solver| |auto|auto]. intros o Ho. apply K2 in Ho as [Ho|(x & Hx & Ho)]; [auto|right; eauto].
Qed.
Lemma tick_grown t : grown t (tick t).
Proof.
  unfold tick. destruct (arrivals t) as [|b later] eqn:E; [done|]. unfold grown. cbn. rewrite E.
  split; [intros o Ho; apply arrive_in; auto|]. split; [intros o Ho; apply arrive_in in Ho as [?|?]; [auto|right; exists b; set_solver]|].
  split; [set_solver|apply arrive_NoDup].
Qed.
Lemma with_seqs_grown t m : grown t (with_seqs t m).
Proof. by repeat split; auto. Qed.
Lemma tick_seqs t : seqs (tick t) = seqs t.
Proof. unfold tick. by destruct (arrivals t). Qed.
Lemma tick_quiet t : arrivals t = [] -> tick t = t.
Proof. unfold tick. by intros ->. Qed.
Lemma grown_trans a b c : grown a b -> grown b c -> grown a c.
Proof. apply transitivity. Qed.
(** Chains of statements. *)
Ltac chain := repeat first [apply tick_grown | apply with_seqs_grown | reflexivity | assumption | eapply grown_trans; [eassumption|] |
  eapply grown_trans; [|apply with_seqs_grown] | eapply grown_trans; [|apply tick_grown]].

Lemma has_order_iff t store code : has_order t store code = true <-> (store, code) ∈ orders t.
Proof. unfold has_order. apply bool_decide_eq_true. Qed.
Lemma store_codes_in t store code : code ∈ store_codes t store <-> (store, code) ∈ orders t.
Proof.
  unfold store_codes. rewrite list_elem_of_omap. split.
  - intros ([s c] & Ho & E). cbn in E. destruct (String.eqb_spec s store) as [->|]; [|done]. by injection E as ->.
  - intros H. exists (store, code). cbn. by rewrite String.eqb_refl.
Qed.

Section sequence.
Context (code_after : string -> string -> bool).
Abbreviation highest := (highestMatchingCode code_after).
Abbreviation bump := (bumpOrderNumberPastExisting code_after).
Abbreviation next_code := (nextOrderCode code_after).

(** ** The highest code *)

Lemma better_spec rows : forall best, match fold_left (better code_after) rows best with
  | Some r => (r ∈ rows \/ best = Some r) /\ (forall x, x ∈ rows \/ best = Some x -> snd x <= snd r)
  | None => rows = [] /\ best = None
  end.
Proof.
  induction rows as [|x rows IH]; intros best; cbn [fold_left].
  - destruct best as [r|]; [|done]. split; [by right|]. intros x [H|[= ->]]; [set_solver|lia].
  - specialize (IH (better code_after best x)). destruct (fold_left _ rows _) as [r|].
    + destruct IH as [Hr Hm]. destruct best as [[c n]|]; cbn [better] in *.
      * destruct ((n <? snd x) || _) eqn:E; split.
        -- destruct Hr as [?|[= ->]]; [left; set_solver|left; set_solver].
        -- intros y [Hy|[= <-]]; [apply elem_of_cons in Hy as [->|Hy]; apply Hm; auto|].
           etrans; [|apply Hm; by right]. cbn. apply orb_true_iff in E as [E|E]; bool_props; lia.
        -- destruct Hr as [?|[= <-]]; [left; set_solver|by right].
        -- intros y [Hy|[= <-]]; [|apply Hm; by right]. apply elem_of_cons in Hy as [->|Hy]; [|apply Hm; auto].
           etrans; [|apply Hm; by right]. cbn. apply orb_false_iff in E as [E _]. lia.
      * split; [destruct Hr as [?|[= ->]]; left; set_solver|]. intros y [Hy|?]; [|done].
        apply elem_of_cons in Hy as [->|Hy]; apply Hm; auto.
    + destruct IH as [_ E]. destruct best as [[c n]|]; cbn in E; [by destruct (_ || _)|done].
Qed.
Lemma highest_spec store f t : match highest store f t with
  | Some (c, n) => (store, c) ∈ orders t /\ code_number f c = Some n /\
      forall c' n', (store, c') ∈ orders t -> code_number f c' = Some n' -> n' <= n
  | None => forall c, (store, c) ∈ orders t -> code_number f c = None
  end.
Proof.
  unfold highestMatchingCode. assert (M : forall c n, (c, n) ∈ matching f (store_codes t store) <-> (store, c) ∈ orders t /\ code_number f c = Some n).
  { intros c n. unfold matching. rewrite list_elem_of_omap. rewrite <- store_codes_in. split.
    - intros (x & Hx & E). destruct (code_number f x) as [m|] eqn:Ex; [|done]. injection E as -> ->. done.
    - intros [Hc E]. exists c. by rewrite E. }
  pose proof (better_spec (matching f (store_codes t store)) None) as B. destruct (fold_left _ _ _) as [[c n]|].
  - destruct B as [[B|?] Hm]; [|done]. apply M in B as [? ?]. split; [done|]. split; [done|]. intros c' n' H1 H2.
    apply (Hm (c', n')). left. by apply M.
  - destruct B as [B _]. intros c Hc. destruct (code_number f c) as [n|] eqn:E; [|done].
    assert (Hx : (c, n) ∈ matching f (store_codes t store)) by (by apply M). rewrite B in Hx. set_solver.
Qed.

(** ** The counter row *)

Definition moved (store : string) (t t' : tx) (v : OrderNumbering) : Prop := seqs t' = <[store := v]> (seqs t).

Lemma with_next_twice v a b : with_next (with_next v a) b = with_next v b.
Proof. done. Qed.
Lemma with_next_same v : with_next v (nextNumber v) = v.
Proof. by destruct v. Qed.
Lemma take_number_eq store t : let v := readOrderNumbering store t in
  take_number store t = (v, with_seqs t (<[store := with_next v (nextNumber v + 1)]> (seqs t))).
Proof.
  unfold take_number, readOrderNumbering. destruct (seqs t !! store) as [v|] eqn:E; cbn.
  - by rewrite with_next_twice, Z.add_simpl_r, with_next_same.
  - done.
Qed.
Lemma read_moved store t v : readOrderNumbering store (with_seqs t (<[store := v]> (seqs t))) = v.
Proof. unfold readOrderNumbering. cbn. by rewrite lookup_insert_eq. Qed.
Lemma read_tick store t : readOrderNumbering store (tick t) = readOrderNumbering store t.
Proof. unfold readOrderNumbering. by rewrite tick_seqs. Qed.
Lemma ensure_row_spec store t : grown t (ensure_row store t) /\ moved store t (ensure_row store t) (readOrderNumbering store t) /\
  readOrderNumbering store (ensure_row store t) = readOrderNumbering store t.
Proof.
  unfold ensure_row, moved, readOrderNumbering. destruct (seqs t !! store) as [v|] eqn:E; cbn.
  - rewrite E, insert_id by done. done.
  - rewrite lookup_insert_eq. split; [apply with_seqs_grown|done].
Qed.

(** Moving past the existing codes, under any arrivals: the highest code is that of the rows seen then. *)
Lemma bump_spec store t : let v := readOrderNumbering store t in
  match bump store t with
  | (Ok v', t') => exists seen n, v' = with_next v n /\ nextNumber v <= n /\ (n = nextNumber v \/ n <= MAX_ORDER_NUMBER) /\
      grown t seen /\ grown seen t' /\ moved store t t' v' /\
      (forall c m, (store, c) ∈ orders seen -> code_number v c = Some m -> m < n) /\
      (n <> nextNumber v -> exists c, (store, c) ∈ orders seen /\ code_number v c = Some (n - 1))
  | (Err e, t') => grown t t' /\ isOrderCodeConflict e = false /\ moved store t t' v /\
      exists c m, (store, c) ∈ orders t' /\ code_number v c = Some m /\ MAX_ORDER_NUMBER <= m
  end.
Proof.
  intros v. unfold bumpOrderNumberPastExisting. destruct (ensure_row_spec store (tick t)) as (G & M & R).
  rewrite read_tick, R, read_tick. fold v. set (t1 := ensure_row store (tick t)) in *. set (seen := tick (tick t1)).
  assert (Gs : grown t seen) by (unfold seen; transitivity (tick t); [apply tick_grown|]; chain).
  assert (Ms : moved store t seen v) by (unfold moved, seen in *; by rewrite !tick_seqs in *; rewrite M, read_tick).
  pose proof (highest_spec store v seen) as H. destruct (highest store v seen) as [[c m]|].
  - destruct H as (Hc & Hm & Hmax). destruct (nextNumber v <=? m) eqn:E1; [destruct (MAX_ORDER_NUMBER <=? m) eqn:E2|]; bool_props.
    + split; [done|]. split; [done|]. split; [done|]. exists c, m. split; [done|]. split; [done|lia].
    + exists seen, (m + 1). split; [done|]. split; [lia|]. split; [lia|]. split; [done|]. split; [apply (grown_trans _ (tick seen)); chain|].
      split; [unfold moved in *; cbn; by rewrite Ms, insert_insert_eq|].
      split; [intros c' m' H1 H2; pose proof (Hmax _ _ H1 H2); lia|]. intros _. exists c. by rewrite Z.add_simpl_r.
    + exists seen, (nextNumber v). rewrite with_next_same. split; [done|]. split; [lia|]. split; [by left|]. split; [done|]. split; [done|].
      split; [done|]. split; [intros c' m' H1 H2; pose proof (Hmax _ _ H1 H2); lia|done].
  - exists seen, (nextNumber v). rewrite with_next_same. split; [done|]. split; [lia|]. split; [by left|]. split; [done|]. split; [done|].
    split; [done|]. split; [intros c' m' H1 H2; rewrite (H _ H1) in H2; congruence|done].
Qed.

(** One allocation under any arrivals. *)
Lemma allocation_spec attempts store : forall t, let v := readOrderNumbering store t in
  match nextOrderCode_attempts code_after attempts store t with
  | (Ok code, t') => exists n, nextNumber v <= n <= MAX_ORDER_NUMBER /\ code = formatOrderCode v n /\
      ((store, code) ∉ orders t') /\ moved store t t' (with_next v (n + 1)) /\ grown t t'
  | (Err e, t') => grown t t' /\ isOrderCodeConflict e = false /\ (t' = t \/ exists n, nextNumber v <= n /\ moved store t t' (with_next v n))
  end.
Proof.
  induction attempts as [|more IH]; intros t v; cbn [nextOrderCode_attempts]; [split; [done|]; split; [done|by left]|].
  pose proof (take_number_eq store (tick t)) as E. cbn in E. rewrite E, read_tick, tick_seqs. fold v. clear E.
  set (t1 := with_seqs (tick t) _). assert (G1 : grown t t1) by (unfold t1; chain).
  assert (M1 : moved store t t1 (with_next v (nextNumber v + 1))) by done.
  destruct (MAX_ORDER_NUMBER <? nextNumber v) eqn:Em; bool_props.
  { split; [done|]. split; [done|]. right. exists (nextNumber v + 1). split; [lia|done]. }
  assert (G2 : grown t (tick t1)) by chain.
  assert (R2 : readOrderNumbering store (tick t1) = with_next v (nextNumber v + 1))
    by (rewrite read_tick; unfold readOrderNumbering; rewrite M1, lookup_insert_eq; done).
  destruct (has_order _ _ _) eqn:Eh.
  - pose proof (bump_spec store (tick t1)) as B. cbn in B. rewrite R2 in B. destruct (bump store (tick t1)) as [[v'|e] t2].
    + destruct B as (seen & n & -> & Hn & _ & Gs & Gs' & M2 & _). unfold moved in *. rewrite tick_seqs, M1, insert_insert_eq in M2. cbn in Hn.
      assert (G3 : grown t t2) by (etrans; [apply G2|]; by etrans).
      assert (R3 : readOrderNumbering store t2 = with_next v n) by (unfold readOrderNumbering; rewrite M2, lookup_insert_eq; done).
      specialize (IH t2). cbn in IH. rewrite R3 in IH. destruct (nextOrderCode_attempts _ more store t2) as [[code|e] t3].
      * destruct IH as (k & Hk & -> & Hf & M3 & G4). unfold moved in *. rewrite M2, insert_insert_eq in M3. cbn in Hk.
        exists k. split; [lia|]. split; [done|]. split; [done|]. split; [done|by etrans].
      * destruct IH as (G4 & He & Hs). split; [by etrans|]. split; [done|]. right. destruct Hs as [->|(k & Hk & M3)].
        -- exists n. split; [lia|done].
        -- exists k. unfold moved in *. rewrite M2, insert_insert_eq in M3. cbn in Hk. split; [lia|done].
    + destruct B as (G3 & He & M2 & _). split; [by etrans|]. split; [done|]. right. exists (nextNumber v + 1). split; [lia|].
      unfold moved in *. by rewrite tick_seqs, M1, insert_insert_eq in M2.
  - exists (nextNumber v). split; [lia|]. split; [done|]. split; [by rewrite <- has_order_iff, Eh|]. split; [|done].
    unfold moved. by rewrite tick_seqs.
Qed.

(** ** Without interference *)

Lemma grown_quiet t t' : arrivals t = [] -> grown t t' -> (forall o, o ∈ orders t' <-> o ∈ orders t) /\ arrivals t' = [].
Proof.
  intros Q (H1 & H2 & H3 & _). rewrite Q in *. split.
  - intros o. split; [|apply H1]. intros Ho. apply H2 in Ho as [?|(b & Hb & _)]; [done|set_solver].
  - destruct (arrivals t') as [|b l]; [done|]. specialize (H3 b ltac:(set_solver)). set_solver.
Qed.

Lemma attempt_quiet more store t : let v := readOrderNumbering store t in arrivals t = [] ->
  let t1 := with_seqs t (<[store := with_next v (nextNumber v + 1)]> (seqs t)) in
  nextOrderCode_attempts code_after (S more) store t =
    if MAX_ORDER_NUMBER <? nextNumber v then (Err (Error "order number space exhausted; change the order number format"), t1)
    else if has_order t store (formatOrderCode v (nextNumber v))
    then match bump store t1 with (Err e, t2) => (Err e, t2) | (Ok _, t2) => nextOrderCode_attempts code_after more store t2 end
    else (Ok (formatOrderCode v (nextNumber v)), t1).
Proof.
  intros v Q t1. cbn [nextOrderCode_attempts]. rewrite (tick_quiet t) by done. rewrite take_number_eq. fold v t1.
  rewrite (tick_quiet t1) by done. by destruct (MAX_ORDER_NUMBER <? nextNumber v).
Qed.

(** One allocation of an order number, without other writers: the code of the counter's number when it is free, else
    the code one past the highest existing number of the format, taken in the second of the three attempts. The code
    is free, its number lies between the counter and the largest allowed one, and the counter ends one past it. It
    fails only when the numbers of the format are used up, never for want of attempts. *)
Theorem order_code_allocated store t (Q : arrivals t = []) (P : 1 <= nextNumber (readOrderNumbering store t)) :
  let v := readOrderNumbering store t in
  let first := formatOrderCode v (nextNumber v) in
  match nextOrderCode code_after store t with
  | (Ok code, t') => exists n, nextNumber v <= n <= MAX_ORDER_NUMBER /\ code = formatOrderCode v n /\ ((store, code) ∉ orders t) /\
      (seqs t' = <[store := with_next v (n + 1)]> (seqs t)) /\ (forall o, o ∈ orders t' <-> o ∈ orders t) /\
      (if has_order t store first
       then (exists c, (store, c) ∈ orders t /\ code_number v c = Some (n - 1)) /\
            (forall c m, (store, c) ∈ orders t -> code_number v c = Some m -> m < n)
       else n = nextNumber v)
  | (Err e, _) => (e <> Error "could not allocate a free order code") /\
      (MAX_ORDER_NUMBER < nextNumber v \/
       has_order t store first = true /\ exists c m, (store, c) ∈ orders t /\ code_number v c = Some m /\ MAX_ORDER_NUMBER <= m)
  end.
Proof.
  intros v first. fold v in P. unfold nextOrderCode. rewrite attempt_quiet by done. fold v first.
  destruct (MAX_ORDER_NUMBER <? nextNumber v) eqn:Em; bool_props; [split; [done|by left]|].
  set (t1 := with_seqs t _). destruct (has_order t store first) eqn:Eh.
  - apply has_order_iff in Eh. pose proof (bump_spec store t1) as B. cbv zeta in B.
    rewrite (read_moved store t _ : readOrderNumbering store t1 = _) in B. destruct (bump store t1) as [[v'|e] t2] eqn:Eb.
    + destruct B as (seen & n & -> & Hn & Hm & Gs & Gs' & M2 & Hlt & Hge). cbn in Hn, Hm, Hge.
      destruct (grown_quiet t1 seen Q Gs) as [Os Qs]. destruct (grown_quiet seen t2 Qs Gs') as [O2 Q2].
      assert (O : forall o, o ∈ orders t2 <-> o ∈ orders t) by (intros o; rewrite O2, Os; done).
      assert (Hn1 : exists c, (store, c) ∈ orders t /\ code_number v c = Some (n - 1)).
      { destruct (decide (n = nextNumber v + 1)) as [->|Hne].
        - exists first. split; [done|]. rewrite Z.add_simpl_r. by apply format_number; lia.
        - destruct (Hge Hne) as (c & Hc & Ec). exists c. split; [by apply Os in Hc|done]. }
      assert (Hall : forall c m, (store, c) ∈ orders t -> code_number v c = Some m -> m < n)
        by (intros c m Hc; apply Hlt; by apply Os).
      assert (R2 : readOrderNumbering store t2 = with_next v n) by (unfold readOrderNumbering; rewrite M2, lookup_insert_eq; done).
      rewrite attempt_quiet by done. rewrite R2. cbn [nextNumber with_next].
      destruct (MAX_ORDER_NUMBER <? n) eqn:En; bool_props.
      * split; [done|]. right. split; [done|]. destruct Hn1 as (c & Hc & Ec). exists c, (n - 1). split; [done|]. split; [done|lia].
      * assert (Hf : (store, formatOrderCode v n) ∉ orders t) by (intros Hx; pose proof (Hall _ _ Hx (format_number v n ltac:(lia))); lia).
        change (formatOrderCode (with_next v n) n) with (formatOrderCode v n).
        destruct (has_order t2 _ _) eqn:E2; [exfalso; apply Hf, O, has_order_iff, E2|].
        exists n. split; [lia|]. split; [done|]. split; [done|]. split; [|by auto].
        unfold moved in M2. cbn [seqs with_seqs]. rewrite M2. unfold t1. cbn. rewrite !insert_insert_eq. reflexivity.
    + destruct B as (G & He & _ & c & m & Hc & Ec & Hm). destruct (grown_quiet t1 t2 Q G) as [O _]. split.
      * intros ->. unfold bumpOrderNumberPastExisting in Eb. destruct (highest store _ _) as [[c' m']|]; [|done].
        destruct (_ <=? m'); [|done]. destruct (_ <=? m'); done.
      * right. split; [done|]. exists c, m. split; [by apply O in Hc|done].
  - exists (nextNumber v). split; [lia|]. split; [done|]. split; [by rewrite <- has_order_iff, Eh|]. by split.
Qed.

(** ** The insert of the order and the retry *)

(** What the allocation relies on: the insert writes one order under the code it is given, or refuses a code that
    exists by the unique constraint. *)
Class OrderInsert {T} (store : string) (insert : string -> tx -> result thrown (T * tx)) := {
  insert_writes code t r t' : insert code t = Ok (r, t') ->
    ((store, code) ∉ orders t) /\ orders t' = orders t ++ [(store, code)] /\ seqs t' = seqs t /\ arrivals t' = arrivals t;
  insert_unique code t : (store, code) ∈ orders t -> exists e, insert code t = Err e /\ isOrderCodeConflict e = true
}.

Lemma moved_read store t t' v : moved store t t' v -> readOrderNumbering store t' = v.
Proof. unfold moved, readOrderNumbering. intros ->. by rewrite lookup_insert_eq. Qed.
Lemma moved_twice store a b c v w : moved store a b v -> moved store b c w -> moved store a c w.
Proof. unfold moved. intros E ->. by rewrite E, insert_insert_eq. Qed.

Definition assigned {T} (store : string) (t : tx) (out : result thrown (string * T) * tx) (conflicts : Z) : Prop :=
  let v := readOrderNumbering store t in
  match out with
  | (Ok (code, r), t') => exists n before, nextNumber v <= n <= MAX_ORDER_NUMBER /\ code = formatOrderCode v n /\
      grown t before /\ ((store, code) ∉ orders before) /\ orders t' = orders before ++ [(store, code)] /\ moved store t t' (with_next v (n + 1)) /\
      arrivals t' = arrivals before
  | (Err e, t') => grown t t' /\ (isOrderCodeConflict e = true -> exists n, nextNumber v + conflicts <= n /\ moved store t t' (with_next v n))
  end.

Lemma assignment_spec {T} store insert `{!@OrderInsert T store insert} retries : forall t,
  assigned store t (withOrderNumber_from code_after retries store insert t) (Z.of_nat (S retries)).
Proof.
  induction retries as [|more IH]; intros t; cbn [withOrderNumber_from]; pose proof (allocation_spec 3 store t) as A; cbv zeta in A; fold (nextOrderCode code_after store t) in A;
    destruct (nextOrderCode code_after store t) as [[code|e] t1];
    try (destruct A as (G & He & _); split; [done|]; rewrite He; discriminate);
    destruct A as (n & Hn & -> & Hf & M & G); unfold withSavepoint; set (v := readOrderNumbering store t) in *;
    assert (M' : moved store t (tick t1) (with_next v (n + 1))) by (unfold moved; by rewrite tick_seqs);
    assert (G' : grown t (tick t1)) by chain;
    destruct (insert (formatOrderCode v n) (tick t1)) as [[r t2]|e] eqn:Ei.
  1, 3: apply insert_writes in Ei as (Hni & Ho & Hs & Ha); exists n, (tick t1); unfold moved; rewrite Hs; done.
  - split; [done|]. intros _. exists (n + 1). fold v. split; [lia|done].
  - destruct (isOrderCodeConflict e) eqn:Ec; [|split; [done|congruence]].
    specialize (IH (tick t1)). unfold assigned in *. rewrite (moved_read _ _ _ _ M') in IH. fold v.
    destruct (withOrderNumber_from _ more store insert (tick t1)) as [[[code r]|e'] t3].
    + destruct IH as (k & before & Hk & -> & Gb & Hfb & Hob & Mb & Ab). cbn in Hk. exists k, before.
      split; [lia|]. split; [done|]. split; [by etrans|]. split; [done|]. split; [done|]. split; [apply (moved_twice _ _ _ _ _ _ M' Mb)|done].
    + destruct IH as [G3 IH]. split; [by etrans|]. intros Hc. destruct (IH Hc) as (k & Hk & Mk). cbn in Hk.
      exists k. split; [lia|apply (moved_twice _ _ _ _ _ _ M' Mk)].
Qed.

(** C35: Taking an order number and inserting the order, whatever rows other writers commit between the statements: an
    order that is inserted has a code of the store's format, absent from every row visible until then, with a number at
    or after the counter, and leaves the counter one past it and every other row in place, so no (store, code) pair
    repeats; an attempt that fails leaves no order row of its own, and a code conflict comes back to the caller only
    after three numbers were refused. *)
Theorem order_number_assigned {T} store insert (I : @OrderInsert T store insert) t :
  let v := readOrderNumbering store t in
  match withOrderNumber code_after store insert t with
  | (Ok (code, _), t') => (exists n, nextNumber v <= n <= MAX_ORDER_NUMBER /\ code = formatOrderCode v n /\ seqs t' = <[store := with_next v (n + 1)]> (seqs t)) /\
      ((store, code) ∉ orders t) /\ ((store, code) ∈ orders t') /\ (forall o, o ∈ orders t -> o ∈ orders t') /\
      (NoDup (orders t) -> NoDup (orders t'))
  | (Err e, t') => (forall o, o ∈ orders t' -> o ∈ orders t \/ exists b, b ∈ arrivals t /\ o ∈ b) /\
      (NoDup (orders t) -> NoDup (orders t')) /\
      (isOrderCodeConflict e = true -> exists n, nextNumber v + 3 <= n /\ seqs t' = <[store := with_next v n]> (seqs t))
  end.
Proof.
  intros v. pose proof (assignment_spec store insert 2 t) as A. unfold withOrderNumber.
  unfold assigned in A. cbv zeta in A. fold v in A. destruct (withOrderNumber_from _ 2 store insert t) as [[[code r]|e] t'].
  - destruct A as (n & before & Hn & E & (B1 & _ & _ & B4) & Hf & Ho & M & _). rewrite Ho.
    split; [by exists n|]. split; [set_solver|]. split; [set_solver|]. split; [set_solver|]. intros H.
    apply NoDup_app. split; [auto|]. split; [set_solver|apply NoDup_singleton].
  - destruct A as ((_ & B2 & _ & B4) & Hc). done.
Qed.
End sequence.

(** ** Concrete runs *)

(** The plain insert of the checkout: the order row under the code. *)
Definition insert_order (store : string) (code : string) (t : tx) : result thrown (string * tx) :=
  if has_order t store code then Err order_code_violation
  else Ok (code, {| seqs := seqs t; orders := orders t ++ [(store, code)]; arrivals := arrivals t |}).
#[export] Instance insert_order_insert store : OrderInsert store (insert_order store).
Proof.
  split; unfold insert_order.
  - intros code t r t'. destruct (has_order t store code) eqn:E; [done|]. intros [= _ <-]. cbn.
    split; [by rewrite <- has_order_iff, E|done].
  - intros code t H. apply has_order_iff in H. rewrite H. by eexists.
Qed.

Definition imported_shop : tx :=
  {| seqs := <["s" := {| prefix := "DD"; suffix := ""; minDigits := 5; nextNumber := 7 |}]> ∅;
     orders := [("s", "DD7"); ("s", "DD00007"); ("s", "DD00041"); ("s", "SRA15"); ("other", "DD90000")]; arrivals := [] |}.
Lemma order_code_allocated_witness : fst (nextOrderCode str_after "s" imported_shop) = Ok "DD00042" /\
  exists n, 7 <= n <= MAX_ORDER_NUMBER /\ "DD00042" = formatOrderCode (readOrderNumbering "s" imported_shop) n.
Proof.
  pose proof (order_code_allocated str_after "s" imported_shop eq_refl ltac:(vm_compute; discriminate)) as H. cbv zeta in H.
  destruct (nextOrderCode str_after "s" imported_shop) as [r t'] eqn:E.
  assert (Er : r = Ok "DD00042") by (apply (f_equal fst) in E; cbn [fst] in E; rewrite <- E; vm_compute; reflexivity).
  subst r. split; [reflexivity|]. destruct H as (n & Hn & Hc & _). exists n. split; [exact Hn|exact Hc].
Defined.

(** Another writer commits the very code between the check and the insert. *)
Definition raced_shop : tx :=
  {| seqs := ∅; orders := []; arrivals := [[]; []; [("s", "1001")]; []; [("s", "1002"); ("s", "1005")]] |}.
Lemma order_number_assigned_witness : fst (withOrderNumber str_after "s" (insert_order "s") raced_shop) = Ok ("1006", "1006") /\
  (("s", "1006") ∉ orders raced_shop).
Proof.
  pose proof (order_number_assigned str_after "s" (insert_order "s") (insert_order_insert "s") raced_shop) as H. cbv zeta in H.
  destruct (withOrderNumber str_after "s" (insert_order "s") raced_shop) as [r t'] eqn:E.
  assert (Er : r = Ok ("1006", "1006")) by (apply (f_equal fst) in E; cbn [fst] in E; rewrite <- E; vm_compute; reflexivity).
  subst r. split; [reflexivity|]. apply H.
Defined.
