(* ===== verification/OrderCounter.v ===== *)
(** The life of a store's order counter: orders, imports, settings changes and purges as a step relation, and the
    invariant that the counter is ahead of every existing code of its format, so that the settings page previews the
    code the next order gets. *)
From Stdlib Require Import ZArith List Bool String Ascii Lia.
From stdpp Require Import base list strings gmap relations pretty.
From S2P Require Import Prelude JsNumber Json JsonText OrderNumber OrderNumberFacts OrderSequence.
Local Open Scope string_scope.
Local Open Scope list_scope.
Local Open Scope Z_scope.

Section counter.
Context (code_after : string -> string -> bool).

(** [import/orders.ts]: the imported orders keep their codes, then the counter moves past them. *)
Definition import_orders (store : string) (codes : list string) (t : tx) : result thrown OrderNumbering * tx :=
  bumpOrderNumberPastExisting code_after store
    {| seqs := seqs t; orders := orders t ++ map (pair store) codes; arrivals := arrivals t |}.

(** Committed transactions. A failed one changes nothing, its counter included. *)
Inductive order_step : tx -> tx -> Prop :=
| ordered T store insert t x t' : @OrderInsert T store insert -> withOrderNumber code_after store insert t = (Ok x, t') -> order_step t t'
| imported store codes t v t' : NoDup (orders t ++ map (pair store) codes) -> import_orders store codes t = (Ok v, t') -> order_step t t'
| configured store b t view t' : patch_order_numbering code_after store b t = Ok (view, t') -> order_step t t'
| purged t rows : sublist rows (orders t) -> order_step t {| seqs := seqs t; orders := rows; arrivals := arrivals t |}.

Definition ahead (store : string) (t : tx) : Prop :=
  let v := readOrderNumbering store t in
  1 <= nextNumber v <= MAX_ORDER_NUMBER + 1 /\
  forall code n, (store, code) ∈ orders t -> code_number v code = Some n -> n < nextNumber v.
Definition counters_ahead (t : tx) : Prop := NoDup (orders t) /\ arrivals t = [] /\ forall store, ahead store t.

(** A transaction that works on one store leaves the others alone. *)
Lemma ahead_elsewhere store t t' v : moved store t t' v -> (forall s c, s <> store -> (s, c) ∈ orders t' -> (s, c) ∈ orders t) ->
  (forall s, ahead s t) -> ahead store t' -> forall s, ahead s t'.
Proof.
  intros M O A H s. destruct (decide (s = store)) as [->|Hs]; [done|]. specialize (A s). unfold ahead in *.
  replace (readOrderNumbering s t') with (readOrderNumbering s t)
    by (unfold readOrderNumbering; rewrite M, lookup_insert_ne by done; done).
  split; [apply A|]. intros code n Hc. apply A. by apply O.
Qed.

Lemma ordered_ahead {T} store insert `{!@OrderInsert T store insert} t x t' :
  counters_ahead t -> withOrderNumber code_after store insert t = (Ok x, t') -> counters_ahead t'.
Proof.
  intros (Hd & Q & A) E. pose proof (assignment_spec code_after store insert 2 t) as S. unfold assigned in S. cbv zeta in S.
  unfold withOrderNumber in E. rewrite E in S. destruct x as [code r]. destruct S as (n & before & Hn & -> & G & Hf & Ho & M & Ha).
  destruct (grown_quiet t before Q G) as [Ob Qb]. destruct G as (_ & _ & _ & Gd).
  destruct (A store) as [An Ac]. split; [|split; [congruence|]].
  - rewrite Ho. apply NoDup_app. split; [auto|]. split; [set_solver|apply NoDup_singleton].
  - apply (ahead_elsewhere _ _ _ _ M); [|done|].
    + intros s c Hs. rewrite Ho, elem_of_app, Ob. set_solver.
    + unfold ahead. rewrite (moved_read _ _ _ _ M). cbn. split; [lia|]. intros c m. rewrite Ho, elem_of_app, Ob.
      intros [Hc|Hc] Ec.
      * pose proof (Ac _ _ Hc Ec). lia.
      * apply list_elem_of_singleton in Hc. injection Hc as ->. change (code_number (readOrderNumbering store t) (formatOrderCode (readOrderNumbering store t) n) = Some m) in Ec.
        rewrite format_number in Ec by lia. injection Ec as <-. lia.
Qed.
Lemma imported_ahead store codes t v t' :
  counters_ahead t -> NoDup (orders t ++ map (pair store) codes) -> import_orders store codes t = (Ok v, t') -> counters_ahead t'.
Proof.
  intros (Hd & Q & A) Hn E. unfold import_orders in E. set (t1 := {| seqs := _ |}) in E.
  pose proof (bump_spec code_after store t1) as S. cbv zeta in S. rewrite E in S.
  change (readOrderNumbering store t1) with (readOrderNumbering store t) in S.
  destruct S as (seen & n & -> & Hge & Hm & Gs & Gs' & M & Hlt & _). destruct (grown_quiet t1 seen Q Gs) as [Os Qs].
  destruct (grown_quiet seen t' Qs Gs') as [O' Q']. assert (O : forall o, o ∈ orders t' <-> o ∈ orders t1) by (intros o; by rewrite O', Os).
  destruct (A store) as [An Ac]. split; [|split; [done|]].
  - destruct Gs as (_ & _ & _ & Gd), Gs' as (_ & _ & _ & Gd'). auto.
  - apply (ahead_elsewhere store t t' _ M); [|done|].
    + intros s c Hs. rewrite O. cbn. rewrite elem_of_app, list_elem_of_fmap. intros [?|(y & [= -> ->] & _)]; done.
    + unfold ahead. rewrite (moved_read _ _ _ _ M). cbn. split; [lia|]. intros c m Hc. apply Hlt. by apply Os, O.
Qed.
Lemma valid_next v : orderNumberingError v = None -> 1 <= nextNumber v <= MAX_ORDER_NUMBER.
Proof.
  unfold orderNumberingError. repeat (case_match; try done). intros _. bool_props. lia.
Qed.
Lemma configured_ahead store b t view t' : counters_ahead t -> patch_order_numbering code_after store b t = Ok (view, t') -> counters_ahead t'.
Proof.
  intros (Hd & Q & A) E. unfold patch_order_numbering in E. rewrite (tick_quiet t) in E by done.
  destruct (ensure_row_spec store t) as (G & M & R). destruct (grown_quiet t _ Q G) as [O1 Q1]. set (t1 := ensure_row store t) in *.
  rewrite !(tick_quiet t1) in E by done. rewrite R in E. set (next := apply_patch b _) in *.
  destruct (orderNumberingError next) eqn:Ev; [done|]. apply valid_next in Ev.
  set (t2 := with_seqs t1 _) in E. rewrite !(tick_quiet t2) in E by done.
  pose proof (highest_spec code_after store next t1) as H.
  assert (t' = t2 /\ forall c n, (store, c) ∈ orders t1 -> code_number next c = Some n -> n < nextNumber next) as [-> Hall].
  { destruct (highestMatchingCode _ store next t1) as [[c m]|].
    - destruct (nextNumber next <=? m) eqn:El; [done|]. bool_props. injection E as _ <-. split; [done|].
      intros c' n Hc Ec. destruct H as (_ & _ & H). pose proof (H _ _ Hc Ec). lia.
    - injection E as _ <-. split; [done|]. intros c n Hc Ec. rewrite (H _ Hc) in Ec. done. }
  assert (M2 : moved store t t2 next) by (unfold moved, t2 in *; cbn; by rewrite M, insert_insert_eq).
  split; [by apply G|]. split; [done|]. apply (ahead_elsewhere _ _ _ _ M2); [intros s c _; apply O1|done|].
  unfold ahead. rewrite (moved_read _ _ _ _ M2). split; [lia|done].
Qed.
Lemma step_ahead t t' : order_step t t' -> counters_ahead t -> counters_ahead t'.
Proof.
  intros S. destruct S as [T store insert t x t' I E|store codes t v t' Hn E|store b t view t' E|t rows Hs]; intros H.
  - by apply (ordered_ahead store insert t x).
  - by apply (imported_ahead store codes t v).
  - by apply (configured_ahead store b t view).
  - destruct H as (Hd & Q & A). split; [by apply (sublist_NoDup _ _ Hd Hs)|]. split; [done|]. intros s. destruct (A s) as [An Ac].
    split; [done|]. intros c n Hc. apply Ac. by apply (elem_of_sublist _ _ _ Hc Hs).
Qed.

Definition no_orders : tx := {| seqs := ∅; orders := []; arrivals := [] |}.
Lemma no_orders_ahead : counters_ahead no_orders.
Proof. split; [constructor|]. split; [done|]. intros s. split; [by vm_compute|]. intros c n Hc. cbn in Hc. set_solver. Qed.
Lemma reachable_ahead t : rtc order_step no_orders t -> counters_ahead t.
Proof.
  intros H. pose proof no_orders_ahead as A. revert A. induction H as [|x y z S _ IH]; [done|].
  intros A. by apply IH, (step_ahead x).
Qed.

(** C34: The settings page tells the truth about order numbers. After any run of orders, imports, settings changes and
    purges, no (store, code) pair repeats, a store's counter is above every existing number of its format, and the code
    that the settings page previews is free and is exactly the code the next order takes, at the first attempt, moving
    the counter by one; only a counter past the largest number fails. *)
Theorem preview_is_next_code t store (R : rtc order_step no_orders t) :
  let view := get_order_numbering code_after store t in
  let v := nv_numbering view in
  NoDup (orders t) /\ ((store, nv_preview view) ∉ orders t) /\
  (forall code, nv_highestExisting view = Some code -> exists n, code_number v code = Some n /\ n < nextNumber v) /\
  nextOrderCode code_after store t =
    ((if MAX_ORDER_NUMBER <? nextNumber v then Err (Error "order number space exhausted; change the order number format")
      else Ok (nv_preview view)),
     with_seqs t (<[store := with_next v (nextNumber v + 1)]> (seqs t))).
Proof.
  destruct (reachable_ahead t R) as (Hd & Q & A). destruct (A store) as [Hn Hc]. cbn. set (v := readOrderNumbering store t) in *.
  assert (Hf : (store, formatOrderCode v (nextNumber v)) ∉ orders t)
    by (intros Hx; pose proof (Hc _ _ Hx (format_number v (nextNumber v) ltac:(lia))); lia).
  split; [done|]. split; [done|]. split.
  - intros code E. pose proof (highest_spec code_after store v t) as H. destruct (highestMatchingCode _ store v t) as [[c n]|]; [|done].
    injection E as <-. exists n. destruct H as (Ho & En & _). split; [done|by apply (Hc c)].
  - unfold nextOrderCode. pose proof (attempt_quiet code_after 2 store t Q) as E. cbv zeta in E. etrans; [exact E|]. clear E. fold v. destruct (MAX_ORDER_NUMBER <? nextNumber v); [done|].
    destruct (has_order t store _) eqn:E; [|done]. by apply has_order_iff in E.
Qed.
End counter.

(** A store that takes an order, imports two, and switches its format. *)
Definition first_sale : tx := snd (withOrderNumber str_after "s" (insert_order "s") no_orders).
Definition after_import : tx := snd (import_orders str_after "s" ["1500"; "DD41"] first_sale).
Definition dd_format : NumberingPatch := {| pt_prefix := Some "DD"; pt_suffix := None; pt_minDigits := Some 5; pt_nextNumber := Some 42 |}.
Definition reconfigured : tx := match patch_order_numbering str_after "s" dd_format after_import with Ok (_, t) => t | Err _ => after_import end.
Lemma preview_is_next_code_witness :
  fst (nextOrderCode str_after "s" reconfigured) = Ok "DD00042" /\ (("s", "DD00042") ∉ orders reconfigured).
Proof.
  assert (R : rtc (order_step str_after) no_orders reconfigured).
  { eapply rtc_l; [eapply (ordered _ _ "s" (insert_order "s") _ ("1001", "1001") first_sale (insert_order_insert "s")); vm_compute; reflexivity|].
    eapply rtc_l; [eapply (imported _ "s" ["1500"; "DD41"] _ _ after_import); [|vm_compute; reflexivity]|].
    - apply (bool_decide_unpack _). vm_compute. exact I.
    - eapply rtc_l; [|apply rtc_refl]. eapply (configured _ "s" dd_format). vm_compute. reflexivity. }
  destruct (preview_is_next_code str_after reconfigured "s" R) as (_ & Hf & _ & E). rewrite E.
  split; [vm_compute; reflexivity|]. exact Hf.
Defined.
