(* ===== verification/Stock.v ===== *)
(** Stock of a store: reserving units for an order (orders/stock-reservation.ts), giving them back when an unpaid order
    is cancelled (orders/cancel-unpaid.ts, the cancel and bulk-cancel routes, orders/purge.ts, the line replacement of
    admin-orders.ts) and shipping them (the three fulfilment routes of routes/admin.ts).

    The lines, stock rows and stock movements are the [Goods] of [Refunds.v], whose [return_units] is the refund's part.
    Each function is one transaction, or the part of it that touches these tables, over the rows of one store; [shop]
    also holds the orders, fulfilments, locations, payment rows and audit rows those functions read and write.
    Loyalty, reservations, webhooks and mail are the operations [ShopDeps] of the rest [X]. *)
From Stdlib Require Import ZArith QArith List Bool String Lia.
From stdpp Require Import base list strings gmap.
From S2P Require Import LoyaltyLedger AccountCredit.
From S2P Require Import Prelude JsNumber Json OrderState LineQuantity Tender Effects Settlement Settle Reservation Refunds.
Local Open Scope string_scope.
Local Open Scope list_scope.
Local Open Scope Z_scope.

(** ** Reserving ([stock-reservation.ts]) *)

Record ReservableItem := { it_sku : string; it_quantity : Z }.
Record ReservableVariant := {
  vt_id : string; vt_sku : string; vt_enabled : bool; vt_isPreOrder : bool; vt_fulfillmentType : option string
}.

Definition validateReservableItems (items : list ReservableItem) (bySku : gmap string ReservableVariant) : list string :=
  omap (fun i => match bySku !! it_sku i with Some v => if vt_enabled v then None else Some (it_sku i) | None => Some (it_sku i) end) items.

Definition reservable (v : ReservableVariant) : bool :=
  vt_enabled v && negb (vt_isPreOrder v) && String.eqb (default "physical" (vt_fulfillmentType v)) "physical".

(** The items to reserve with their position, in lower-case variant order. *)
Definition pick (bySku : gmap string ReservableVariant) (x : nat * ReservableItem) : option (ReservableItem * ReservableVariant * nat) :=
  match bySku !! it_sku (snd x) with Some v => if reservable v then Some (snd x, v, fst x) else None | None => None end.
Definition physical_items (items : list ReservableItem) (bySku : gmap string ReservableVariant) : list (ReservableItem * ReservableVariant * nat) :=
  sort_stable (fun x y => str_after (to_lower (vt_id (snd (fst x)))) (to_lower (vt_id (snd (fst y)))))
    (omap (pick bySku) (combine (seq 0 (length items)) items)).

Definition of_variant (v : string) (x : Stock) : bool := String.eqb (stk_variantId x) v.
Definition allocate (v : string) (n : Z) (x : Stock) : bool := of_variant v x && (n <=? stk_onHand x - stk_allocated x).
Definition set_allocated (f : Z -> Z) (x : Stock) : Stock :=
  {| stk_variantId := stk_variantId x; stk_onHand := stk_onHand x; stk_allocated := f (stk_allocated x) |}.

(** One conditional update per item; an item whose update does not hit one row is remembered by its position. *)
Definition reserve_item (acc : list Stock * list nat) (x : ReservableItem * ReservableVariant * nat) : list Stock * list nat :=
  let '(stock, failedAt) := acc in
  let '(i, v, index) := x in
  let hit := allocate (vt_id v) (it_quantity i) in
  (set_where hit (set_allocated (fun a => a + it_quantity i)) stock,
   if (length (List.filter hit stock) =? 1)%nat then failedAt else failedAt ++ [index]).

Definition reserveStockOrThrow (items : list ReservableItem) (bySku : gmap string ReservableVariant) (stock : list Stock)
    : result (list string) (bool * list Stock) :=
  let physical := physical_items items bySku in
  let '(stock', failedAt) := fold_left reserve_item physical (stock, []) in
  let failed := omap (fun index => it_sku <$> items !! index) (sort_stable (fun a b => (b <? a)%nat) failedAt) in
  if is_nil failed then Ok (negb (is_nil physical), stock') else Err failed.

(** ** The store's tables *)

Record StockOrder := { sk_id : string; sk_code : string; sk_state : OrderState; sk_createdAt : Z; sk_metadata : option json }.
Record Fulfillment := {
  ff_id : string; ff_orderId : string; ff_state : FulfillmentState; ff_trackingCode : option string; ff_carrier : option string;
  ff_locationId : option string
}.
Record FulfillmentLine := { fn_fulfillmentId : string; fn_orderLineId : string; fn_quantity : Z }.
Record StockLocation := { sl_variantId : string; sl_locationId : string; sl_onHand : Z }.
Record OrderAudit := {
  ad_actor : string; ad_orderId : string; ad_action : string; ad_from : option OrderState; ad_to : string; ad_data : option json
}.

Record Shop (X : Type) := {
  sh_orders : list StockOrder; sh_goods : Goods; sh_fulfillments : list Fulfillment; sh_fulfillmentLines : list FulfillmentLine;
  sh_variants : list ReservableVariant; sh_locations : list (string * bool); sh_stockLocations : list StockLocation;
  sh_attempts : list PaymentAttempt; sh_money : MoneyTables; sh_audit : list OrderAudit; sh_fresh : nat; sh_rest : X
}.
Arguments sh_orders {X} _. Arguments sh_goods {X} _. Arguments sh_fulfillments {X} _. Arguments sh_fulfillmentLines {X} _.
Arguments sh_variants {X} _. Arguments sh_locations {X} _. Arguments sh_stockLocations {X} _. Arguments sh_attempts {X} _.
Arguments sh_money {X} _. Arguments sh_audit {X} _. Arguments sh_fresh {X} _. Arguments sh_rest {X} _.
Arguments Build_Shop {X} _ _ _ _ _ _ _ _ _ _ _ _.

Inductive NmiChargebackOutcome :=
  nmi_cancelled | not_cancelled_fulfilled | already_cancelled | not_cancelled_state | needs_reconciliation | order_missing.

(** What other modules do in the same transaction; each may throw. *)
Class ShopDeps (X E : Type) := {
  release_loyalty : string -> string -> X -> result E X;
  release_reservation : string -> string -> bool -> X -> result E X;
  notify_shipped : string -> option string -> option string -> string -> X -> result E X;
  open_dispute : string -> string -> X -> result E X;
  write_dispute_outcome : string -> NmiChargebackOutcome -> X -> result E X
}.
Inductive ShopError (E : Type) :=
| not_found | unresolved_payment | paid_order (state : OrderState) | bad_state (state : OrderState)
| bad_fulfillment (state : option FulfillmentState) | regress | order_edit_pending | imported_reconciliation_required
| bad_location | bad_lines | pre_order | from_module (e : E).
Arguments not_found {E}. Arguments unresolved_payment {E}. Arguments paid_order {E} _. Arguments bad_state {E} _.
Arguments bad_fulfillment {E} _. Arguments regress {E}. Arguments order_edit_pending {E}. Arguments imported_reconciliation_required {E}.
Arguments bad_location {E}. Arguments bad_lines {E}. Arguments pre_order {E}. Arguments from_module {E} _.

(** Writing one part. *)
Section writes.
Context {X : Type}.
Definition set_goods (g : Goods) (s : Shop X) : Shop X :=
  Build_Shop (sh_orders s) g (sh_fulfillments s) (sh_fulfillmentLines s) (sh_variants s) (sh_locations s) (sh_stockLocations s)
    (sh_attempts s) (sh_money s) (sh_audit s) (sh_fresh s) (sh_rest s).
Definition set_order_state (orderId : string) (state : OrderState) (s : Shop X) : Shop X :=
  Build_Shop (set_where (fun o => String.eqb (sk_id o) orderId)
      (fun o => {| sk_id := sk_id o; sk_code := sk_code o; sk_state := state; sk_createdAt := sk_createdAt o; sk_metadata := sk_metadata o |}) (sh_orders s))
    (sh_goods s) (sh_fulfillments s) (sh_fulfillmentLines s) (sh_variants s) (sh_locations s) (sh_stockLocations s)
    (sh_attempts s) (sh_money s) (sh_audit s) (sh_fresh s) (sh_rest s).
Definition set_fulfillments (ffs : list Fulfillment) (lines : list FulfillmentLine) (fresh : nat) (s : Shop X) : Shop X :=
  Build_Shop (sh_orders s) (sh_goods s) ffs lines (sh_variants s) (sh_locations s) (sh_stockLocations s)
    (sh_attempts s) (sh_money s) (sh_audit s) fresh (sh_rest s).
Definition set_stock_locations (sls : list StockLocation) (s : Shop X) : Shop X :=
  Build_Shop (sh_orders s) (sh_goods s) (sh_fulfillments s) (sh_fulfillmentLines s) (sh_variants s) (sh_locations s) sls
    (sh_attempts s) (sh_money s) (sh_audit s) (sh_fresh s) (sh_rest s).
Definition add_audit (a : OrderAudit) (s : Shop X) : Shop X :=
  Build_Shop (sh_orders s) (sh_goods s) (sh_fulfillments s) (sh_fulfillmentLines s) (sh_variants s) (sh_locations s) (sh_stockLocations s)
    (sh_attempts s) (sh_money s) (sh_audit s ++ [a]) (sh_fresh s) (sh_rest s).
Definition set_rest (x : X) (s : Shop X) : Shop X :=
  Build_Shop (sh_orders s) (sh_goods s) (sh_fulfillments s) (sh_fulfillmentLines s) (sh_variants s) (sh_locations s) (sh_stockLocations s)
    (sh_attempts s) (sh_money s) (sh_audit s) (sh_fresh s) x.
Definition set_orders (os : list StockOrder) (s : Shop X) : Shop X :=
  Build_Shop os (sh_goods s) (sh_fulfillments s) (sh_fulfillmentLines s) (sh_variants s) (sh_locations s) (sh_stockLocations s)
    (sh_attempts s) (sh_money s) (sh_audit s) (sh_fresh s) (sh_rest s).
Definition order_by_code (code : string) (s : Shop X) : option StockOrder := List.find (fun o => String.eqb (sk_code o) code) (sh_orders s).
End writes.

(** ** Lines and units *)

Definition remaining (l : OrderLine) : Z := ol_quantity l - ol_fulfilledQty l - ol_cancelledQty l.
Definition of_order (orderId : string) (l : OrderLine) : bool := String.eqb (ol_orderId l) orderId.
Definition with_quantities (fulfilled cancelled : Z) (l : OrderLine) : OrderLine :=
  {| ol_id := ol_id l; ol_orderId := ol_orderId l; ol_variantId := ol_variantId l; ol_quantity := ol_quantity l; ol_unitPrice := ol_unitPrice l;
     ol_lineTotal := ol_lineTotal l; ol_fulfilledQty := fulfilled; ol_cancelledQty := cancelled; ol_refundedQty := ol_refundedQty l;
     ol_editRemovedQty := ol_editRemovedQty l; ol_metadata := ol_metadata l |}.
Definition update_line (id : string) (f : OrderLine -> OrderLine) (g : Goods) : Goods :=
  {| gd_lines := set_where (fun l => String.eqb (ol_id l) id) f (gd_lines g); gd_stock := gd_stock g; gd_movements := gd_movements g |}.
Definition update_stock (v : string) (f : Stock -> Stock) (g : Goods) : Goods :=
  {| gd_lines := gd_lines g; gd_stock := set_where (of_variant v) f (gd_stock g); gd_movements := gd_movements g |}.
Definition add_movement (m : StockMovement) (g : Goods) : Goods :=
  {| gd_lines := gd_lines g; gd_stock := gd_stock g; gd_movements := gd_movements g ++ [m] |}.

(** [allocated = greatest(allocated - n, 0)] *)
Definition unallocate (n : Z) : Stock -> Stock := set_allocated (fun a => Z.max (a - n) 0).
(** Shipped units leave both counters. *)
Definition ship_units (n : Z) (x : Stock) : Stock :=
  {| stk_variantId := stk_variantId x; stk_onHand := Z.max (stk_onHand x - n) 0; stk_allocated := Z.max (stk_allocated x - n) 0 |}.

(** ** Placing and replacing lines *)

(** One line per item: its id, the item's variant, the price and total computed for it. *)
Definition new_line (orderId : string) (bySku : gmap string ReservableVariant) (x : string * ReservableItem * Z * Z) : option OrderLine :=
  let '(id, i, unitPrice, lineTotal) := x in
  match bySku !! it_sku i with
  | Some v => Some {| ol_id := id; ol_orderId := orderId; ol_variantId := Some (vt_id v); ol_quantity := it_quantity i; ol_unitPrice := unitPrice;
      ol_lineTotal := lineTotal; ol_fulfilledQty := 0; ol_cancelledQty := 0; ol_refundedQty := 0; ol_editRemovedQty := 0; ol_metadata := None |}
  | None => None
  end.
(** Refuse unavailable items, then reserve; later insert the lines. The checkout, the draft order and the line
    replacement do the first two before they price the order and the last after. *)
Definition reserve_lines (bySku : gmap string ReservableVariant) (lines : list (string * ReservableItem * Z * Z)) (g : Goods) : result (list string) Goods :=
  let items := map (fun x => snd (fst (fst x))) lines in
  let blocked := validateReservableItems items bySku in
  guard! is_nil blocked or blocked in
  let! reserved := reserveStockOrThrow items bySku (gd_stock g) in
  Ok {| gd_lines := gd_lines g; gd_stock := snd reserved; gd_movements := gd_movements g |}.
Definition insert_lines (orderId : string) (bySku : gmap string ReservableVariant) (lines : list (string * ReservableItem * Z * Z)) (g : Goods) : Goods :=
  {| gd_lines := gd_lines g ++ omap (new_line orderId bySku) lines; gd_stock := gd_stock g; gd_movements := gd_movements g |}.
(** A placed order: what of its transaction touches these tables. *)
Definition place_lines (orderId : string) (bySku : gmap string ReservableVariant) (lines : list (string * ReservableItem * Z * Z)) (g : Goods)
    : result (list string) Goods :=
  let! g := reserve_lines bySku lines g in Ok (insert_lines orderId bySku lines g).

(** Replacing the lines of an unpaid order: its units go back first, line by line. *)
Definition give_back (g : Goods) (l : OrderLine) : Goods :=
  match ol_variantId l with Some v => if 0 <? remaining l then update_stock v (unallocate (remaining l)) g else g | None => g end.
Definition delete_lines (orderId : string) (g : Goods) : Goods :=
  {| gd_lines := List.filter (fun l => negb (of_order orderId l)) (gd_lines g); gd_stock := gd_stock g; gd_movements := gd_movements g |}.
Definition replace_lines (orderId : string) (bySku : gmap string ReservableVariant) (lines : list (string * ReservableItem * Z * Z)) (g : Goods)
    : result (list string) Goods :=
  let! g := reserve_lines bySku lines (fold_left give_back (List.filter (of_order orderId) (gd_lines g)) g) in
  Ok (insert_lines orderId bySku lines (delete_lines orderId g)).

(** The purge: what the lines still hold goes back, then the lines go. *)
Definition retire_lines (orderId : string) (g : Goods) : Goods :=
  delete_lines orderId (fold_left give_back (List.filter (of_order orderId) (gd_lines g)) g).

(** ** Cancelling an unpaid order ([cancel-unpaid.ts]) *)

(** Units per variant, in the order the variants appear ([Map]). *)
Fixpoint add_units (v : string) (n : Z) (m : list (string * Z)) : list (string * Z) :=
  match m with
  | [] => [(v, n)]
  | (w, k) :: r => if String.eqb v w then (w, k + n) :: r else (w, k) :: add_units v n r
  end.
Definition heldUnits (orderId : string) (g : Goods) : list (string * Z) :=
  fold_left (fun m l => match ol_variantId l with
                        | Some v => if (0 <? remaining l) && negb (String.eqb v EmptyString) then add_units v (remaining l) m else m
                        | None => m end)
    (List.filter (of_order orderId) (gd_lines g)) [].
Definition units_of (m : list (string * Z)) (v : string) : option Z := snd <$> List.find (fun x => String.eqb (fst x) v) m.

Definition CANCEL_SOURCE_RELEASE_STALE : string := "release-stale".

(** The predicate under the lock set: unpaid, old enough, no imported history, nothing in flight at a provider. *)
Definition unpaidCancellable (cutoff : Z) (requireDiscovery : bool) (attempts : list PaymentAttempt) (payments : list Payment) (o : StockOrder) : bool :=
  let discovery := opt_field "stripeDiscovery" (sk_metadata o) in
  let own a := String.eqb (pa_orderId a) (sk_id o) in
  bool_decide (sk_state o = PendingPayment) && (sk_createdAt o <? cutoff) && negb (importedFinancialReconciliationRequired (sk_metadata o)) &&
  negb (existsb (fun a => own a && (one_of ["processing"; "unknown"; "pending"] (pa_status a) ||
          String.eqb (pa_operation a) "intent" && one_of ["open"; "failed"; "action_required"] (pa_status a))) attempts) &&
  negb (or_else (bool_field "hold" discovery) false) &&
  (negb requireDiscovery || existsb (fun a => own a && String.eqb (pa_operation a) "intent") attempts || negb (nullish (opt_field "checkedAt" discovery))) &&
  negb (existsb (fun p => String.eqb (py_orderId p) (sk_id o) && bool_decide (py_state p = pay_Pending \/ py_state p = pay_Authorized)) payments).

Section handlers.
Context {X E : Type} `{!ShopDeps X E} (gen_random_uuid : nat -> string).
Abbreviation Fail := (result (ShopError E)).
Definition run_module (f : X -> result E X) (s : Shop X) : Fail (Shop X) :=
  match f (sh_rest s) with Ok x => Ok (set_rest x s) | Err e => Err (from_module e) end.
Definition cancel_audit (actor orderId : string) (data : option json) : OrderAudit :=
  {| ad_actor := actor; ad_orderId := orderId; ad_action := "cancel"; ad_from := Some PendingPayment; ad_to := "Cancelled"; ad_data := data |}.

(** The caller has checked [unpaidCancellable] under the same lock set. *)
Definition cancel_goods (orderId : string) (g : Goods) : Goods :=
  let byVariant := heldUnits orderId g in
  {| gd_lines := set_where (fun l => of_order orderId l && (0 <? remaining l)) (fun l => with_quantities (ol_fulfilledQty l) (ol_quantity l - ol_fulfilledQty l) l) (gd_lines g);
     gd_stock := map (fun x => match units_of byVariant (stk_variantId x) with Some n => unallocate n x | None => x end) (gd_stock g);
     gd_movements := gd_movements g |}.
Definition cancelUnpaidOrderInSet (orderId actor : string) (reason : list (string * json)) (cancelSource : option string)
    (stripeDiscoverable apply : bool) (s : Shop X) : Fail (Z * Shop X) :=
  let released := sumZ (map snd (heldUnits orderId (sh_goods s))) in
  if negb apply then Ok (released, s) else
  let s := set_order_state orderId Cancelled (set_goods (cancel_goods orderId (sh_goods s)) s) in
  let! s := run_module (release_loyalty orderId actor) s in
  let! s := run_module (release_reservation orderId "order_cancelled" stripeDiscoverable) s in
  let source := match cancelSource with Some c => if String.eqb c EmptyString then [] else [("cancelSource", JStr c)] | None => [] end in
  Ok (released, add_audit (cancel_audit actor orderId (Some (spread (Some (JObj reason)) source))) s).
(** The stale job and the cart reopen: re-check, then cancel. *)
Definition cancel_if_unpaid (cutoff : Z) (requireDiscovery : bool) (orderId actor : string) (reason : list (string * json))
    (cancelSource : option string) (apply : bool) (s : Shop X) : Fail (option Z * Shop X) :=
  if existsb (fun o => String.eqb (sk_id o) orderId && unpaidCancellable cutoff requireDiscovery (sh_attempts s) (mt_payments (sh_money s)) o) (sh_orders s)
  then let! r := cancelUnpaidOrderInSet orderId actor reason cancelSource requireDiscovery apply s in Ok (Some (fst r), snd r)
  else Ok (None, s).

(** ** Cancelling from the admin: [POST /orders/{code}/cancel] and each item of the bulk cancel *)

Definition release_line (g : Goods) (l : OrderLine) : Goods :=
  let release := remaining l in
  if 0 <? release then
    let g := update_line (ol_id l) (fun x => with_quantities (ol_fulfilledQty x) (ol_cancelledQty x + release) x) g in
    match ol_variantId l with Some v => update_stock v (unallocate release) g | None => g end
  else g.
Definition release_lines (orderId : string) (g : Goods) : Goods :=
  fold_left release_line (List.filter (of_order orderId) (gd_lines g)) g.
Definition cancel_order (code actor : string) (stripeDiscover : bool) (s : Shop X) : Fail (Shop X) :=
  match order_by_code code s with
  | None => Err not_found
  | Some o =>
      guard! negb (importedFinancialReconciliationRequired (sk_metadata o)) or imported_reconciliation_required in
      guard! negb (hasUnresolvedPayment (sh_attempts s) (mt_payments (sh_money s)) (sk_id o)) or unresolved_payment in
      guard! bool_decide (sk_state o = PendingPayment) or (paid_order (sk_state o)) in
      guard! canTransition (sk_state o) Cancelled or (bad_state (sk_state o)) in
      guard! is_ok (assertNoPendingOrderEdit (sh_money s) (sk_id o) None) or order_edit_pending in
      let s := set_order_state (sk_id o) Cancelled (set_goods (release_lines (sk_id o) (sh_goods s)) s) in
      let! s := run_module (release_loyalty (sk_id o) actor) s in
      run_module (release_reservation (sk_id o) "order_cancelled" stripeDiscover) (add_audit (cancel_audit actor (sk_id o) None) s)
  end.

Definition state_name (st : OrderState) : string :=
  match st with PendingPayment => "PendingPayment" | Paid => "Paid" | PartiallyRefunded => "PartiallyRefunded"
  | Refunded => "Refunded" | Cancelled => "Cancelled" end.

(** ** A chargeback ([disputes/nmi-chargeback.ts]) *)

Definition applyNmiChargebackToOrder (orderId disputeRecordId note : string) (s : Shop X) : Fail (NmiChargebackOutcome * Shop X) :=
  let actor := "nmi:webhook" in
  let noted text s := add_audit {| ad_actor := actor; ad_orderId := orderId; ad_action := "nmi_chargeback_note"; ad_from := None; ad_to := "";
                                   ad_data := Some (JStr (note +:+ text)) |} s in
  let! r :=
    match List.find (fun o => String.eqb (sk_id o) orderId) (sh_orders s) with
    | None => Ok (order_missing, s)
    | Some o =>
        let imported := importedFinancialReconciliationRequired (sk_metadata o) in
        let! s := if imported then Ok s else run_module (open_dispute disputeRecordId orderId) s in
        if existsb (fun f => String.eqb (ff_orderId f) orderId && negb (bool_decide (ff_state f = ful_Cancelled))) (sh_fulfillments s)
        then Ok (not_cancelled_fulfilled, noted " Order was not cancelled because it has a fulfillment; review immediately." s)
        else if bool_decide (sk_state o = Cancelled) then Ok (already_cancelled, s)
        else if imported then Ok (needs_reconciliation, noted " Order was not cancelled: imported financial reconciliation is required first." s)
        else if negb (canTransition (sk_state o) Cancelled) then Ok (not_cancelled_state, noted (" Order was not cancelled because it is " +:+ state_name (sk_state o) +:+ "; review.") s)
        else
          let from := sk_state o in
          let s := set_order_state orderId Cancelled (set_goods (release_lines orderId (sh_goods s)) s) in
          let! s := run_module (release_loyalty orderId actor) s in
          let s := add_audit {| ad_actor := actor; ad_orderId := orderId; ad_action := "cancel"; ad_from := Some from; ad_to := "Cancelled"; ad_data := None |} s in
          let! s := run_module (release_reservation orderId "order_cancelled" false) s in
          Ok (nmi_cancelled, noted " Cancelled automatically; no NMI refund was issued." s)
    end in
  let! s := run_module (write_dispute_outcome disputeRecordId (fst r)) (snd r) in
  Ok (fst r, s).

(** ** Shipping: [POST /orders/{code}/fulfill] *)

Inductive FulfillTarget := to_Shipped | to_Delivered.
Definition target_state (t : FulfillTarget) : FulfillmentState := match t with to_Shipped => ful_Shipped | to_Delivered => ful_Delivered end.
Definition latest_fulfillment (orderId : string) (s : Shop X) : option Fulfillment :=
  List.find (fun f => String.eqb (ff_orderId f) orderId) (rev (sh_fulfillments s)).
Definition ship_line (actor orderId : string) (g : Goods) (l : OrderLine) : Goods :=
  let ship := remaining l in
  if ship <=? 0 then g else
  let g := update_line (ol_id l) (fun x => with_quantities (ol_quantity l - ol_cancelledQty l) (ol_cancelledQty x) x) g in
  match ol_variantId l with
  | Some v => add_movement {| sm_variantId := v; sm_delta := - ship; sm_refOrderId := orderId; sm_actor := Some actor |} (update_stock v (ship_units ship) g)
  | None => g
  end.
Definition ship_lines (actor orderId : string) (g : Goods) : Goods :=
  fold_left (ship_line actor orderId) (List.filter (of_order orderId) (gd_lines g)) g.
Definition fulfillable (o : StockOrder) : bool := bool_decide (sk_state o = Paid \/ sk_state o = PartiallyRefunded).
Definition fulfil_audit (actor orderId : string) (to : FulfillmentState) (data : option json) : OrderAudit :=
  {| ad_actor := actor; ad_orderId := orderId; ad_action := "fulfill"; ad_from := None;
     ad_to := match to with ful_Shipped => "Shipped" | ful_Delivered => "Delivered" | ful_Pending => "Pending" | ful_Cancelled => "Cancelled" end; ad_data := data |}.
Definition fulfill_order (code actor : string) (target : FulfillTarget) (trackingCode carrier : option string) (s : Shop X) : Fail (Shop X) :=
  match order_by_code code s with
  | None => Err not_found
  | Some o =>
      guard! negb (importedFinancialReconciliationRequired (sk_metadata o)) or imported_reconciliation_required in
      guard! fulfillable o or (bad_state (sk_state o)) in
      let existing := latest_fulfillment (sk_id o) s in
      let state := ff_state <$> existing in
      guard! negb (bool_decide (state = Some ful_Delivered) && match target with to_Shipped => true | _ => false end) or regress in
      guard! match target with to_Delivered => bool_decide (state = Some ful_Shipped) | to_Shipped => true end or (bad_fulfillment state) in
      let advancingToShipped := match target with to_Shipped => bool_decide (state = None \/ state = Some ful_Pending) | _ => false end in
      let s :=
        match existing with
        | Some e => set_fulfillments (set_where (fun f => String.eqb (ff_id f) (ff_id e))
            (fun f => {| ff_id := ff_id f; ff_orderId := ff_orderId f; ff_state := target_state target;
               ff_trackingCode := match trackingCode with Some t => Some t | None => ff_trackingCode e end;
               ff_carrier := match carrier with Some t => Some t | None => ff_carrier e end; ff_locationId := ff_locationId f |}) (sh_fulfillments s))
            (sh_fulfillmentLines s) (sh_fresh s) s
        | None => set_fulfillments (sh_fulfillments s ++ [{| ff_id := gen_random_uuid (sh_fresh s); ff_orderId := sk_id o;
            ff_state := target_state target; ff_trackingCode := trackingCode; ff_carrier := carrier; ff_locationId := None |}])
            (sh_fulfillmentLines s) (S (sh_fresh s)) s
        end in
      let s := if advancingToShipped then set_goods (ship_lines actor (sk_id o) (sh_goods s)) s else s in
      let s := add_audit (fulfil_audit actor (sk_id o) (target_state target) None) s in
      if advancingToShipped then run_module (notify_shipped (sk_id o) trackingCode carrier ("shipping_notification:" +:+ sk_id o +:+ ":Shipped")) s
      else Ok s
  end.

(** [POST /orders/bulk-fulfill]: the last request of a code, in the order the codes appear, each its own transaction. *)
Record FulfillRequest := { fu_code : string; fu_state : FulfillTarget; fu_trackingCode : option string; fu_carrier : option string }.
Definition dedupe_requests (rs : list FulfillRequest) : list FulfillRequest :=
  omap (fun code => List.find (fun r => String.eqb (fu_code r) code) (rev rs)) (uniq (map fu_code rs)).
Definition bulk_fulfill (actor : string) (rs : list FulfillRequest) (s : Shop X) : list (string * option (ShopError E)) * Shop X :=
  fold_left (fun '(out, s) r =>
    match fulfill_order (fu_code r) actor (fu_state r) (fu_trackingCode r) (fu_carrier r) s with
    | Ok s' => (out ++ [(fu_code r, None)], s')
    | Err e => (out ++ [(fu_code r, Some e)], s)
    end) (dedupe_requests rs) ([], s).

(** ** Partial fulfilment: [POST /orders/{code}/fulfillments] *)

Record ShipLine := { ht_orderLineId : string; ht_quantity : Z }.
(** Every requested line is a line of the order, named once, within what remains. *)
Fixpoint ship_lines_ok (byId : string -> option OrderLine) (seen : list string) (lines : list ShipLine) : bool :=
  match lines with
  | [] => true
  | x :: rest =>
      negb (existsb (String.eqb (ht_orderLineId x)) seen) &&
      match byId (ht_orderLineId x) with Some row => ht_quantity x <=? remaining row | None => false end &&
      ship_lines_ok byId (ht_orderLineId x :: seen) rest
  end.
Definition ship_partial (actor orderId : string) (byId : string -> option OrderLine) (g : Goods) (x : ShipLine) : Goods :=
  match byId (ht_orderLineId x) with
  | None => g
  | Some row =>
      let g := update_line (ol_id row) (fun l => with_quantities (ol_fulfilledQty l + ht_quantity x) (ol_cancelledQty l) l) g in
      match ol_variantId row with
      | Some v => add_movement {| sm_variantId := v; sm_delta := - ht_quantity x; sm_refOrderId := orderId; sm_actor := Some actor |}
                    (update_stock v (ship_units (ht_quantity x)) g)
      | None => g
      end
  end.
Definition order_line_by_id (orderId : string) (g : Goods) (id : string) : option OrderLine :=
  List.find (fun l => String.eqb (ol_id l) id) (rev (List.filter (of_order orderId) (gd_lines g))).
Definition take_from_location (byId : string -> option OrderLine) (locationId : string) (sls : list StockLocation) (x : ShipLine) : list StockLocation :=
  match byId (ht_orderLineId x) ≫= ol_variantId with
  | Some v => set_where (fun l => String.eqb (sl_variantId l) v && String.eqb (sl_locationId l) locationId)
      (fun l => {| sl_variantId := sl_variantId l; sl_locationId := sl_locationId l; sl_onHand := Z.max (sl_onHand l - ht_quantity x) 0 |}) sls
  | None => sls
  end.
Definition create_fulfillment (code actor : string) (lines : list ShipLine) (locationId trackingCode carrier : option string) (s : Shop X) : Fail (Shop X) :=
  match order_by_code code s with
  | None => Err not_found
  | Some o =>
      guard! negb (importedFinancialReconciliationRequired (sk_metadata o)) or imported_reconciliation_required in
      guard! fulfillable o or (bad_state (sk_state o)) in
      guard! match locationId with Some l => existsb (fun x => String.eqb (fst x) l && snd x) (sh_locations s) | None => true end or bad_location in
      let byId := order_line_by_id (sk_id o) (sh_goods s) in
      guard! ship_lines_ok byId [] lines or bad_lines in
      let variants := omap (fun x => byId (ht_orderLineId x) ≫= ol_variantId) lines in
      guard! negb (existsb (fun v => vt_isPreOrder v && existsb (String.eqb (vt_id v)) variants) (sh_variants s)) or pre_order in
      let fulfillmentId := gen_random_uuid (sh_fresh s) in
      let s := set_fulfillments (sh_fulfillments s ++ [{| ff_id := fulfillmentId; ff_orderId := sk_id o; ff_state := ful_Shipped;
                   ff_trackingCode := trackingCode; ff_carrier := carrier; ff_locationId := locationId |}])
                 (sh_fulfillmentLines s ++ map (fun x => {| fn_fulfillmentId := fulfillmentId; fn_orderLineId := ht_orderLineId x; fn_quantity := ht_quantity x |}) lines)
                 (S (sh_fresh s)) s in
      let s := set_goods (fold_left (ship_partial actor (sk_id o) byId) lines (sh_goods s)) s in
      let s := match locationId with Some l => set_stock_locations (fold_left (take_from_location byId l) lines (sh_stockLocations s)) s | None => s end in
      let s := add_audit (fulfil_audit actor (sk_id o) ful_Shipped (Some (JObj [("partial", JBool true); ("fulfillmentId", JStr fulfillmentId);
                 ("lines", JNum (inject_Z (Z.of_nat (length lines)))); ("locationId", match locationId with Some l => JStr l | None => JNull end)]))) s in
      run_module (notify_shipped (sk_id o) trackingCode carrier ("shipping_notification:" +:+ fulfillmentId +:+ ":Shipped")) s
  end.
End handlers.
