(* ===== verification/StockFacts.v ===== *)
(** Correctness of the stock of [Stock.v]: reservations are all or nothing, and along every run of orders,
    cancellations, chargebacks, shipments, purges, line replacements and refunds the allocated units of a variant are
    exactly the units its open lines hold. *)
From Stdlib Require Import ZArith QArith List Bool String Lia.
From stdpp Require Import base list strings gmap relations.
From S2P Require Import LoyaltyLedger AccountCredit.
From S2P Require Import Prelude JsNumber Json OrderState LineQuantity Tender Effects Settlement Settle Reservation Refunds Stock.
Local Open Scope string_scope.
Local Open Scope list_scope.
Local Open Scope Z_scope.

(** ** Reserving *)

Abbreviation item := (ReservableItem * ReservableVariant * nat)%type.
Definition item_variant (p : item) : string := vt_id (snd (fst p)).
Definition item_units (p : item) : Z := it_quantity (fst (fst p)).
(** Units wanted of a variant. *)
Definition demand (v : string) (ps : list item) : Z := sumZ (map (fun p => if String.eqb (item_variant p) v then item_units p else 0) ps).
Definition fits (stock : list Stock) (ps : list item) : Prop :=
  forall p, p ∈ ps -> exists x, x ∈ stock /\ stk_variantId x = item_variant p /\ demand (item_variant p) ps <= stk_onHand x - stk_allocated x.
Definition allocate_demand (ps : list item) (x : Stock) : Stock := set_allocated (fun a => a + demand (stk_variantId x) ps) x.

Lemma demand_nonneg v ps : Forall (fun p => 0 <= item_units p) ps -> 0 <= demand v ps.
Proof. intros H. apply sumZ_nonneg, Forall_forall. intros z Hz. apply list_elem_of_fmap in Hz as (p & -> & Hp). rewrite Forall_forall in H. specialize (H p Hp). destruct (String.eqb _ _); lia. Qed.
Lemma demand_perm v ps qs : ps ≡ₚ qs -> demand v ps = demand v qs.
Proof. intros H. apply sumZ_perm. by rewrite H. Qed.
Lemma fits_perm stock ps qs : ps ≡ₚ qs -> fits stock ps -> fits stock qs.
Proof. intros H F p Hp. rewrite <- H in Hp. destruct (F p Hp) as (x & Hx & E & D). exists x. by rewrite <- (demand_perm _ _ _ H). Qed.

Lemma unique_row (stock : list Stock) x y : NoDup (map stk_variantId stock) -> x ∈ stock -> y ∈ stock -> stk_variantId x = stk_variantId y -> x = y.
Proof. apply NoDup_map_inj. Qed.

(** The conditional update hits one row exactly when the variant has a row with enough units. *)
Lemma hit_count v n (stock : list Stock) : NoDup (map stk_variantId stock) ->
  (length (List.filter (allocate v n) stock) = 1%nat <-> exists x, x ∈ stock /\ stk_variantId x = v /\ n <= stk_onHand x - stk_allocated x).
Proof.
  intros H. assert (A : forall x, allocate v n x = true <-> stk_variantId x = v /\ n <= stk_onHand x - stk_allocated x).
  { intros x. unfold allocate, of_variant. rewrite andb_true_iff, String.eqb_eq, Z.leb_le. done. }
  split.
  - intros E. destruct (List.filter _ stock) as [|x l] eqn:Ef; [done|]. exists x.
    assert (Hx : x ∈ List.filter (allocate v n) stock) by (rewrite Ef; left). apply elem_filter_bool in Hx as [Hx Ax]. by apply A in Ax.
  - intros (x & Hx & Ex & Hn). destruct (List.filter _ stock) as [|y l] eqn:Ef.
    + assert (Hy : x ∈ List.filter (allocate v n) stock) by (apply elem_filter_bool; split; [done|by apply A]). rewrite Ef in Hy. set_solver.
    + destruct l as [|z l]; [done|]. exfalso.
      assert (Nd : NoDup (map stk_variantId (y :: z :: l))) by (rewrite <- Ef; by apply NoDup_map_filter).
      assert (Hy : y ∈ List.filter (allocate v n) stock) by (rewrite Ef; left).
      assert (Hz : z ∈ List.filter (allocate v n) stock) by (rewrite Ef; right; left).
      apply elem_filter_bool in Hy as [_ Ay], Hz as [_ Az]. apply A in Ay as [Ey _], Az as [Ez _].
      cbn in Nd. apply NoDup_cons in Nd as [Nd _]. apply Nd. rewrite Ey, Ez. left.
Qed.
Lemma set_where_ext {A} (p q : A -> bool) (f g : A -> A) l : (forall x, x ∈ l -> (if p x then f x else x) = (if q x then g x else x)) -> set_where p f l = set_where q g l.
Proof. intros H. unfold set_where. apply map_ext_in. intros x Hx. apply H. by apply list_elem_of_In. Qed.


Lemma demand_cons w p ps : demand w (p :: ps) = (if String.eqb w (item_variant p) then item_units p else 0) + demand w ps.
Proof. unfold demand. cbn. by rewrite String.eqb_sym. Qed.
Lemma demand_absent w ps : ~ Exists (fun p => item_variant p = w) ps -> demand w ps = 0.
Proof.
  intros H. unfold demand. trans (sumZ (map (fun _ => 0) ps)); [|apply sumZ_zeros]. f_equal. apply map_ext_in. intros p Hp.
  destruct (String.eqb_spec (item_variant p) w) as [E|]; [|done]. exfalso. apply H, Exists_exists. exists p. split; [by apply list_elem_of_In|done].
Qed.

(** What the update of one item that fits makes of the stock, seen through the units left. *)
Definition raise (p : item) (stock : list Stock) : list Stock := set_where (of_variant (item_variant p)) (set_allocated (fun a => a + item_units p)) stock.
Lemma raise_left p stock w left_units : (exists x, x ∈ raise p stock /\ stk_variantId x = w /\ left_units <= stk_onHand x - stk_allocated x) <->
  (exists x, x ∈ stock /\ stk_variantId x = w /\ (if String.eqb w (item_variant p) then item_units p else 0) + left_units <= stk_onHand x - stk_allocated x).
Proof.
  split.
  - intros (y & Hy & Ey & Ly). unfold raise in Hy. apply elem_set_where in Hy as (x & Hx & ->). exists x. split; [done|]. unfold of_variant in *.
    destruct (String.eqb_spec (stk_variantId x) (item_variant p)) as [E|N]; cbn in *; subst w; (split; [done|]).
    + rewrite E, String.eqb_refl. lia.
    + apply String.eqb_neq in N. rewrite N. lia.
  - intros (x & Hx & Ex & Lx). exists (if of_variant (item_variant p) x then set_allocated (fun a => a + item_units p) x else x).
    split; [by apply set_where_elem|]. unfold of_variant. rewrite Ex. destruct (String.eqb w (item_variant p)); cbn; (split; [exact Ex|lia]).
Qed.
Lemma fits_cons p ps stock : NoDup (map stk_variantId stock) -> 0 <= item_units p -> Forall (fun p => 0 <= item_units p) ps ->
  fits stock (p :: ps) <->
  (exists x, x ∈ stock /\ stk_variantId x = item_variant p /\ item_units p <= stk_onHand x - stk_allocated x) /\ fits (raise p stock) ps.
Proof.
  intros Hd Hp Hps. split.
  - intros F. split.
    + destruct (F p ltac:(left)) as (x & Hx & Ex & Dx). exists x. rewrite demand_cons, String.eqb_refl in Dx.
      pose proof (demand_nonneg (item_variant p) ps Hps). split; [done|]. split; [done|lia].
    + intros r Hr. apply raise_left. destruct (F r ltac:(by right)) as (x & Hx & Ex & Dx). exists x. by rewrite demand_cons in Dx.
  - intros [(x & Hx & Ex & Lx) F] r Hr. rewrite demand_cons. apply raise_left. apply elem_of_cons in Hr as [->|Hr]; [|by apply F].
    destruct (decide (Exists (fun r => item_variant r = item_variant p) ps)) as [He|He].
    + apply Exists_exists in He as (r & Hr & Er). rewrite <- Er. by apply F.
    + rewrite (demand_absent _ _ He). apply raise_left. exists x. rewrite String.eqb_refl. split; [done|]. split; [done|lia].
Qed.
Lemma raise_demand p ps stock : map (allocate_demand ps) (raise p stock) = map (allocate_demand (p :: ps)) stock.
Proof.
  unfold raise, set_where. rewrite map_map. apply map_ext. intros x. unfold of_variant, allocate_demand.
  rewrite demand_cons. destruct (String.eqb (stk_variantId x) (item_variant p)); unfold set_allocated; cbn; f_equal; lia.
Qed.

(** The loop: it remembers no item exactly when every variant's demand fits, and then every demand is allocated. *)
Lemma reserve_fold ps : forall stock failedAt, NoDup (map stk_variantId stock) -> Forall (fun p => 0 <= item_units p) ps ->
  exists stock' late, fold_left reserve_item ps (stock, failedAt) = (stock', failedAt ++ late) /\
    (forall k, k ∈ late -> exists p, p ∈ ps /\ snd p = k) /\
    (late = [] <-> fits stock ps) /\ (late = [] -> stock' = map (allocate_demand ps) stock).
Proof.
  induction ps as [|[[i v] index] ps IH]; intros stock failedAt Hd Hq.
  - exists stock, []. rewrite app_nil_r. split; [done|]. split; [set_solver|]. split; [split; [intros _ p Hp; set_solver|done]|]. intros _.
    rewrite <- (map_id stock) at 1. apply map_ext. intros x. unfold allocate_demand, set_allocated. destruct x; cbn. by rewrite Z.add_0_r.
  - set (p := (i, v, index)). apply Forall_cons in Hq as [Hq Hqs]. cbn [fold_left].
    set (stock1 := set_where (allocate (item_variant p) (item_units p)) (set_allocated (fun a => a + item_units p)) stock). pose proof (fits_cons p ps stock Hd Hq Hqs) as FC. fold p.
    assert (Er : reserve_item (stock, failedAt) p =
      (stock1, if (length (List.filter (allocate (item_variant p) (item_units p)) stock) =? 1)%nat then failedAt else failedAt ++ [index])) by done.
    rewrite Er. clear Er.
    assert (Hd1 : NoDup (map stk_variantId stock1)) by (unfold stock1; rewrite (map_set_where stk_variantId (allocate (item_variant p) (item_units p)) (set_allocated (fun a => a + item_units p)) stock); [done|by intros x _ _]).
    destruct (length (List.filter (allocate (item_variant p) (item_units p)) stock) =? 1)%nat eqn:El.
    + apply Nat.eqb_eq, (hit_count _ _ _ Hd) in El as (x & Hx & Ex & Hn).
      assert (E1 : stock1 = raise p stock).
      { apply set_where_ext. intros y Hy. unfold allocate, of_variant. destruct (String.eqb_spec (stk_variantId y) (item_variant p)) as [Ey|]; [|done].
        assert (y = x) as -> by (apply (unique_row stock); congruence). cbn. by replace (item_units p <=? _) with true by (symmetry; apply Z.leb_le; lia). }
      destruct (IH stock1 failedAt Hd1 Hqs) as (stock' & late & E & Hl & Hf & Hs). exists stock', late.
      split; [exact E|]. rewrite E1 in Hf, Hs. split; [intros k Hk; destruct (Hl k Hk) as (r & Hr & <-); exists r; split; [by right|done]|].
      split; [rewrite Hf, FC; split; [intros F; split; [by exists x|done]|by intros [_ ?]]|]. intros L. by rewrite (Hs L), raise_demand.
    + destruct (IH stock1 (failedAt ++ [index]) Hd1 Hqs) as (stock' & late & E & Hl & _). exists stock', (index :: late).
      rewrite <- app_assoc in E. split; [done|]. split.
      * intros k Hk. apply elem_of_cons in Hk as [->|Hk]; [exists p; split; [left|done]|]. destruct (Hl k Hk) as (r & Hr & <-). exists r. split; [by right|done].
      * apply Nat.eqb_neq in El. split; [|done]. split; [done|]. intros [Hx _]%FC. exfalso. by apply El, (hit_count _ _ _ Hd).
Qed.

(** The same in the caller's terms. *)
Definition wanted (items : list ReservableItem) (bySku : gmap string ReservableVariant) (v : string) : Z :=
  sumZ (map (fun i => match bySku !! it_sku i with Some u => if reservable u && String.eqb (vt_id u) v then it_quantity i else 0 | None => 0 end) items).
Lemma physical_perm items bySku : physical_items items bySku ≡ₚ omap (pick bySku) (combine (seq 0 (length items)) items).
Proof. apply sort_stable_perm. Qed.
Lemma picked_demand bySku v items : forall k, demand v (omap (pick bySku) (combine (seq k (length items)) items)) = wanted items bySku v.
Proof.
  induction items as [|i items IH]; intros k; [done|]. cbn [length seq combine omap list_omap]. unfold pick at 1. cbn [snd fst].
  unfold wanted. cbn [map sumZ]. fold (wanted items bySku v). rewrite <- (IH (S k)).
  destruct (bySku !! it_sku i) as [u|]; [|done]. destruct (reservable u); [|done]. rewrite demand_cons, String.eqb_sym. done.
Qed.
Lemma picked_position bySku p items : forall k, p ∈ omap (pick bySku) (combine (seq k (length items)) items) ->
  (k <= snd p)%nat /\ items !! (snd p - k)%nat = Some (fst (fst p)) /\ bySku !! it_sku (fst (fst p)) = Some (snd (fst p)) /\ reservable (snd (fst p)) = true.
Proof.
  induction items as [|i items IH]; intros k H; [cbn in H; set_solver|]. cbn [length seq combine] in H. apply elem_omap in H as (x & Hx & E).
  apply elem_of_cons in Hx as [->|Hx].
  - unfold pick in E. cbn in E. destruct (bySku !! it_sku i) as [u|] eqn:Eu; [|done]. destruct (reservable u) eqn:Er; [|done]. injection E as <-. cbn.
    by rewrite Nat.sub_diag.
  - destruct (IH (S k)) as (Hk & Hl & Hr); [apply list_elem_of_omap; by exists x|]. split; [lia|]. split; [|done].
    replace (snd p - k)%nat with (S (snd p - S k))%nat by lia. done.
Qed.

Definition fits_items (items : list ReservableItem) (bySku : gmap string ReservableVariant) (stock : list Stock) : Prop :=
  forall i u, i ∈ items -> bySku !! it_sku i = Some u -> reservable u = true ->
    exists x, x ∈ stock /\ stk_variantId x = vt_id u /\ wanted items bySku (vt_id u) <= stk_onHand x - stk_allocated x.
Lemma physical_demand items bySku v : demand v (physical_items items bySku) = wanted items bySku v.
Proof. rewrite (demand_perm _ _ _ (physical_perm items bySku)). apply picked_demand. Qed.
Lemma position_in k (items : list ReservableItem) : forall j i, items !! j = Some i -> ((k + j)%nat, i) ∈ combine (seq k (length items)) items.
Proof.
  revert k. induction items as [|a items IH]; intros k j i H; [done|]. cbn [length seq combine]. destruct j as [|j].
  - injection H as ->. rewrite Nat.add_0_r. left.
  - right. replace (k + S j)%nat with (S k + j)%nat by lia. by apply IH.
Qed.
Lemma physical_iff items bySku i u : (exists k, (i, u, k) ∈ physical_items items bySku) <-> i ∈ items /\ bySku !! it_sku i = Some u /\ reservable u = true.
Proof.
  setoid_rewrite (physical_perm items bySku). split.
  - intros [k H]. apply picked_position in H as (_ & Hl & Hr). cbn in *. split; [|done]. by apply list_elem_of_lookup_2 in Hl.
  - intros (Hi & Hs & Hr). apply list_elem_of_lookup_1 in Hi as [k Hk]. exists k. apply list_elem_of_omap. exists (k, i). split.
    + by apply (position_in 0).
    + unfold pick. cbn. by rewrite Hs, Hr.
Qed.
Lemma fits_items_iff items bySku stock : fits stock (physical_items items bySku) <-> fits_items items bySku stock.
Proof.
  split.
  - intros F i u Hi Hu Hr. destruct (proj2 (physical_iff items bySku i u)) as [k Hk]; [done|]. destruct (F _ Hk) as (x & Hx & Ex & Dx).
    rewrite physical_demand in Dx. by exists x.
  - intros F [[i u] k] Hp. destruct (proj1 (physical_iff items bySku i u)) as (Hi & Hu & Hr); [by exists k|].
    destruct (F i u Hi Hu Hr) as (x & Hx & Ex & Dx). exists x. by rewrite physical_demand.
Qed.

Lemma late_named items bySku late : (forall k, k ∈ late -> exists p, p ∈ physical_items items bySku /\ snd p = k) ->
  let failed := omap (fun index => it_sku <$> items !! index) (sort_stable (fun a b => (b <? a)%nat) late) in
  (is_nil failed = true <-> late = []) /\ (forall sku, sku ∈ failed -> exists i u, i ∈ items /\ it_sku i = sku /\ bySku !! sku = Some u /\ reservable u = true).
Proof.
  intros H failed. assert (P : forall k, k ∈ late -> exists i u, items !! k = Some i /\ bySku !! it_sku i = Some u /\ reservable u = true).
  { intros k Hk. destruct (H k Hk) as ([[i u] k'] & Hp & <-). rewrite physical_perm in Hp. apply picked_position in Hp as (_ & Hl & Hr).
    cbn in *. rewrite Nat.sub_0_r in Hl. by exists i, u. }
  split.
  - split; [|intros ->; done]. intros E. destruct late as [|k late]; [done|]. exfalso. destruct (P k ltac:(left)) as (i & u & Hl & _).
    assert (Hf : it_sku i ∈ failed) by (apply list_elem_of_omap; exists k; split; [rewrite sort_stable_perm; left|by rewrite Hl]).
    destruct failed; [set_solver|done].
  - intros sku Hs. apply list_elem_of_omap in Hs as (k & Hk & E). rewrite sort_stable_perm in Hk. destruct (P k Hk) as (i & u & Hl & Hu & Hr).
    rewrite Hl in E. injection E as <-. exists i, u. split; [by apply list_elem_of_lookup_2 in Hl|done].
Qed.

Lemma reserve_spec items bySku stock : NoDup (map stk_variantId stock) -> Forall (fun i => 0 <= it_quantity i) items ->
  match reserveStockOrThrow items bySku stock with
  | Ok (changed, stock') => fits_items items bySku stock /\
      stock' = map (fun x => set_allocated (fun a => a + wanted items bySku (stk_variantId x)) x) stock /\
      (changed = true <-> exists i u, i ∈ items /\ bySku !! it_sku i = Some u /\ reservable u = true)
  | Err skus => (~ fits_items items bySku stock) /\ skus <> [] /\
      forall sku, sku ∈ skus -> exists i u, i ∈ items /\ it_sku i = sku /\ bySku !! sku = Some u /\ reservable u = true
  end.
Proof.
  intros Hd Hq. unfold reserveStockOrThrow. destruct (reserve_fold (physical_items items bySku) stock [] Hd) as (stock' & late & E & Hl & Hf & Hs).
  { apply Forall_forall. intros [[i u] k] Hp. rewrite Forall_forall in Hq. apply Hq. by apply (proj1 (physical_iff items bySku i u)); exists k. }
  rewrite E. cbn [app]. destruct (late_named items bySku late Hl) as [Hn Hw]. cbv zeta in *. rewrite fits_items_iff in Hf.
  destruct (is_nil (omap _ _)) eqn:En.
  - assert (L : late = []) by (by apply Hn). split; [by apply Hf|]. split.
    + rewrite (Hs L). apply map_ext. intros x. unfold allocate_demand. by rewrite physical_demand.
    + setoid_rewrite <- physical_iff. destruct (physical_items items bySku) as [|[[i u] k] ps]; cbn.
      * split; [done|]. intros (i & u & k & H). set_solver.
      * split; [|done]. intros _. exists i, u, k. left.
  - assert (N : late <> []) by (intros L; apply Hn in L; congruence). split; [intros F; by apply N, Hf|]. split; [intros Z0; by rewrite Z0 in En|done].
Qed.

Lemma wanted_perm items items' bySku v : items' ≡ₚ items -> wanted items' bySku v = wanted items bySku v.
Proof. intros H. apply sumZ_perm. by rewrite H. Qed.
Lemma fits_items_perm items items' bySku stock stock' : items ≡ₚ items' -> stock ≡ₚ stock' -> fits_items items bySku stock -> fits_items items' bySku stock'.
Proof.
  intros Pi Ps F i u Hi Hu Hr. rewrite <- Pi in Hi. destruct (F i u Hi Hu Hr) as (x & Hx & Ex & Dx). exists x.
  rewrite <- Ps. by rewrite <- (wanted_perm _ _ _ _ Pi).
Qed.
Lemma wanted_reserves items bySku v : wanted items bySku v <> 0 -> exists i u, i ∈ items /\ bySku !! it_sku i = Some u /\ reservable u = true /\ vt_id u = v.
Proof.
  rewrite <- physical_demand. intros H. destruct (decide (Exists (fun p => item_variant p = v) (physical_items items bySku))) as [He|He].
  - apply Exists_exists in He as ([[i u] k] & Hp & E). exists i, u. destruct (proj1 (physical_iff items bySku i u)) as (Hi & Hu & Hr); [by exists k|done].
  - by rewrite (demand_absent _ _ He) in H.
Qed.

Lemma fits_bound items bySku stock x : NoDup (map stk_variantId stock) -> fits_items items bySku stock -> x ∈ stock -> stk_allocated x <= stk_onHand x ->
  stk_allocated x + wanted items bySku (stk_variantId x) <= stk_onHand x.
Proof.
  intros U F Hx H. destruct (Z.eq_dec (wanted items bySku (stk_variantId x)) 0) as [->|Nz]; [lia|].
  destruct (wanted_reserves items bySku (stk_variantId x) Nz) as (i & u & Hi & Hu & Hr & Ev).
  destruct (F i u Hi Hu Hr) as (y & Hy & Ey & Dy). assert (y = x) as -> by (apply (unique_row stock); congruence). rewrite <- Ev in *. lia.
Qed.

(** C36: A reservation is all or nothing. [reserveStockOrThrow] succeeds exactly when, for every variant that reserves
    stock, the units asked for in all items together fit in what is on hand and not allocated; it then allocates
    exactly those units to each variant, never more than is on hand, and leaves every other row as it was. Otherwise it
    throws the codes of items of the request. The order of the items, and of the rows, does not matter. *)
Theorem reservation_all_or_nothing items bySku stock (U : NoDup (map stk_variantId stock)) (Q : Forall (fun i => 0 <= it_quantity i) items) :
  match reserveStockOrThrow items bySku stock with
  | Ok (changed, stock') => fits_items items bySku stock /\
      (stock' = map (fun x => set_allocated (fun a => a + wanted items bySku (stk_variantId x)) x) stock) /\
      (Forall (fun x => stk_allocated x <= stk_onHand x) stock -> Forall (fun x => stk_allocated x <= stk_onHand x) stock')
  | Err skus => (~ fits_items items bySku stock) /\ (skus <> []) /\ (forall sku, sku ∈ skus -> sku ∈ map it_sku items)
  end /\
  (forall items' stock', items' ≡ₚ items -> stock' ≡ₚ stock -> is_ok (reserveStockOrThrow items' bySku stock') = is_ok (reserveStockOrThrow items bySku stock)).
Proof.
  pose proof (reserve_spec items bySku stock U Q) as R. split.
  - destruct (reserveStockOrThrow items bySku stock) as [[changed stock']|skus].
    + destruct R as (F & -> & _). split; [done|]. split; [done|]. intros H. apply Forall_forall. intros y Hy.
      apply list_elem_of_fmap in Hy as (x & -> & Hx). cbn. rewrite Forall_forall in H. apply (fits_bound items bySku stock); auto.
    + destruct R as (F & N & Hs). split; [done|]. split; [done|]. intros sku H. destruct (Hs sku H) as (i & u & Hi & <- & _). by apply list_elem_of_fmap_2.
  - intros items' stock' Pi Ps. assert (Fi : fits_items items' bySku stock' <-> fits_items items bySku stock).
    { split; by apply fits_items_perm. }
    assert (U' : NoDup (map stk_variantId stock')) by (by rewrite Ps). assert (Q' : Forall (fun i => 0 <= it_quantity i) items') by (by rewrite Pi).
    pose proof (reserve_spec items' bySku stock' U' Q') as R'.
    destruct (reserveStockOrThrow items' bySku stock') as [[]|], (reserveStockOrThrow items bySku stock) as [[]|]; cbn; try done; exfalso; tauto.
Qed.
