(* ===== verification/StockHolds.v ===== *)
(** The stock ledger invariant: along every run of placements, cancellations, chargebacks, shipments, purges, line
    replacements and refund returns, the allocated units of a variant are never more than its lines still hold, and
    exactly those where the variant is sold from stock only; nothing is shipped or released beyond what was ordered; the
    shelf counts what its movements add up to, and never less. *)
From Stdlib Require Import ZArith QArith List Bool String Lia.
From stdpp Require Import base list strings gmap relations.
From S2P Require Import LoyaltyLedger AccountCredit.
From S2P Require Import Prelude JsNumber Json OrderState LineQuantity Tender Effects Settlement Settle Reservation Refunds Stock StockFacts.
Local Open Scope string_scope.
Local Open Scope list_scope.
Local Open Scope Z_scope.

(** Quantities within what was ordered; ids of variants are never empty. *)
Definition line_ok (l : OrderLine) : Prop := 0 <= ol_fulfilledQty l /\ 0 <= ol_cancelledQty l /\ 0 <= remaining l /\ ol_variantId l <> Some EmptyString.
(** Units of a variant a line still holds, and all lines hold. *)
Definition holds (v : string) (l : OrderLine) : Z := if bool_decide (ol_variantId l = Some v) then remaining l else 0.
Definition held (v : string) (ls : list OrderLine) : Z := sumZ (map (holds v) ls).
Definition moved_units (v : string) (ms : list StockMovement) : Z :=
  sumZ (map (fun m => if String.eqb (sm_variantId m) v then sm_delta m else 0) ms).

#[local] Arguments held : simpl never.
#[local] Arguments holds : simpl never.
#[local] Arguments moved_units : simpl never.
#[local] Arguments remaining : simpl never.

Abbreviation order_lines := (list (string * ReservableItem * Z * Z)).
(** [sold] are the variants sold from stock only, [base] is the stock on hand before the movements. *)
Section ledger.
Context (sold : string -> Prop).
Record goods_ok (base : string -> Z) (g : Goods) : Prop := {
  go_lines : NoDup (map ol_id (gd_lines g));
  go_rows : NoDup (map stk_variantId (gd_stock g));
  go_line_ok : Forall line_ok (gd_lines g);
  go_range x : x ∈ gd_stock g -> 0 <= stk_allocated x <= stk_onHand x;
  go_allocated x : x ∈ gd_stock g -> stk_allocated x <= held (stk_variantId x) (gd_lines g);
  go_moved x : x ∈ gd_stock g -> base (stk_variantId x) + moved_units (stk_variantId x) (gd_movements g) <= stk_onHand x;
  go_exact x : x ∈ gd_stock g -> sold (stk_variantId x) ->
    stk_allocated x = held (stk_variantId x) (gd_lines g) /\ stk_onHand x = base (stk_variantId x) + moved_units (stk_variantId x) (gd_movements g)
}.

Lemma held_app v a b : held v (a ++ b) = held v a + held v b.
Proof. unfold held. by rewrite map_app, sumZ_app. Qed.
Lemma holds_nonneg v l : line_ok l -> 0 <= holds v l.
Proof. intros (_ & _ & H & _). unfold holds. by destruct (bool_decide _). Qed.
Lemma held_nonneg v ls : Forall line_ok ls -> 0 <= held v ls.
Proof. intros H. apply sumZ_nonneg, Forall_map. eapply Forall_impl; [exact H|]. intros l. apply holds_nonneg. Qed.
Lemma moved_app v a b : moved_units v (a ++ b) = moved_units v a + moved_units v b.
Proof. unfold moved_units. by rewrite map_app, sumZ_app. Qed.
Lemma held_filter v (p : OrderLine -> bool) ls : held v ls = held v (List.filter p ls) + held v (List.filter (fun l => negb (p l)) ls).
Proof. unfold held. induction ls as [|l ls IH]; [done|]. cbn. destruct (p l); cbn; lia. Qed.

(** One change of the tables: [d v] units are released from [v] and [e v] units reach the shelf, both counters staying
    at zero where they would fall below. *)
Definition shift_row (d e : string -> Z) (x : Stock) : Stock :=
  {| stk_variantId := stk_variantId x; stk_onHand := Z.max (stk_onHand x + e (stk_variantId x)) 0; stk_allocated := Z.max (stk_allocated x - d (stk_variantId x)) 0 |}.
Lemma sweep_ok base g lines d e ms : goods_ok base g -> NoDup (map ol_id lines) -> Forall line_ok lines ->
  (forall x, x ∈ gd_stock g -> held (stk_variantId x) (gd_lines g) - d (stk_variantId x) <= held (stk_variantId x) lines) ->
  (forall x, x ∈ gd_stock g -> sold (stk_variantId x) -> held (stk_variantId x) lines = held (stk_variantId x) (gd_lines g) - d (stk_variantId x)) ->
  (forall v, moved_units v ms = e v) ->
  (forall x, x ∈ gd_stock g -> stk_allocated x - d (stk_variantId x) <= stk_onHand x + e (stk_variantId x)) ->
  goods_ok base {| gd_lines := lines; gd_stock := map (shift_row d e) (gd_stock g); gd_movements := gd_movements g ++ ms |}.
Proof.
  intros [G1 G2 G3 G4 G5 G6 G7] Hn Hl Hd Hs He Hle. split; cbn; try done.
  - by rewrite map_map.
  - intros y Hy. apply list_elem_of_fmap in Hy as (x & -> & Hx). cbn. specialize (Hle x Hx). lia.
  - intros y Hy. apply list_elem_of_fmap in Hy as (x & -> & Hx). cbn. specialize (Hd x Hx). specialize (G5 x Hx).
    pose proof (held_nonneg (stk_variantId x) lines Hl). lia.
  - intros y Hy. apply list_elem_of_fmap in Hy as (x & -> & Hx). cbn. rewrite moved_app, He. specialize (G6 x Hx). lia.
  - intros y Hy Hv. apply list_elem_of_fmap in Hy as (x & -> & Hx). cbn in *. destruct (G7 x Hx Hv) as [E1 E2]. specialize (Hs x Hx Hv). specialize (Hle x Hx).
    pose proof (held_nonneg (stk_variantId x) lines Hl). rewrite moved_app, He. lia.
Qed.
Definition in_range (st : list Stock) : Prop := forall x, x ∈ st -> 0 <= stk_allocated x <= stk_onHand x.
Lemma go_in_range base g : goods_ok base g -> in_range (gd_stock g).
Proof. intros G x. apply (go_range _ _ G). Qed.
Lemma shift_id d e (st : list Stock) : in_range st -> (forall x, x ∈ st -> d (stk_variantId x) = 0 /\ e (stk_variantId x) = 0) -> map (shift_row d e) st = st.
Proof.
  intros R H. rewrite <- (map_id st) at 2. apply map_ext_in. intros x Hx. apply list_elem_of_In in Hx. destruct (H x Hx) as [E1 E2]. specialize (R x Hx).
  destruct x as [v a b]. unfold shift_row. cbn in *. rewrite E1, E2. f_equal; lia.
Qed.

(** ** One line *)

Definition at_variant (o : option string) (n : Z) (v : string) : Z := if bool_decide (o = Some v) then n else 0.
Lemma held_update v r f ls : NoDup (map ol_id ls) -> r ∈ ls -> ol_variantId (f r) = ol_variantId r ->
  held v (set_where (fun l => String.eqb (ol_id l) (ol_id r)) f ls) = held v ls - at_variant (ol_variantId r) (remaining r - remaining (f r)) v.
Proof.
  intros Hn Hr Hv. assert (W : holds v (f r) = holds v r - at_variant (ol_variantId r) (remaining r - remaining (f r)) v).
  { unfold holds, at_variant. rewrite Hv. destruct (bool_decide _); lia. }
  induction ls as [|l ls IH]; [set_solver|]. cbn in Hn. apply NoDup_cons in Hn as [Hl Hn]. unfold held in *. cbn.
  apply elem_of_cons in Hr as [<-|Hr].
  - rewrite String.eqb_refl, W. enough (E : set_where (fun l => String.eqb (ol_id l) (ol_id r)) f ls = ls) by (unfold set_where in *; rewrite E; lia).
    unfold set_where. rewrite <- (map_id ls) at 2. apply map_ext_in. intros x Hx. destruct (String.eqb_spec (ol_id x) (ol_id r)) as [E|]; [|done]. exfalso. apply Hl. rewrite <- E.
    apply list_elem_of_fmap_2. by apply list_elem_of_In.
  - destruct (String.eqb_spec (ol_id l) (ol_id r)) as [E|]; [exfalso; apply Hl; rewrite E; by apply list_elem_of_fmap_2|]. unfold set_where in *. rewrite IH by done. lia.
Qed.
Lemma line_step_ok base g r f n e ms st : goods_ok base g -> r ∈ gd_lines g -> ol_id (f r) = ol_id r -> (forall l, ol_id (f l) = ol_id l) ->
  ol_variantId (f r) = ol_variantId r -> line_ok (f r) -> remaining (f r) = remaining r - n -> 0 <= n + e ->
  st = map (shift_row (at_variant (ol_variantId r) n) (at_variant (ol_variantId r) e)) (gd_stock g) ->
  (forall v, moved_units v ms = at_variant (ol_variantId r) e v) ->
  goods_ok base {| gd_lines := set_where (fun l => String.eqb (ol_id l) (ol_id r)) f (gd_lines g); gd_stock := st; gd_movements := gd_movements g ++ ms |}.
Proof.
  intros G Hr _ Hid Hv Hok Hrem Hne -> Hms. pose proof G as [G1 _ G3 G5 _ _ _].
  assert (Hh : forall v, held v (set_where (fun l => String.eqb (ol_id l) (ol_id r)) f (gd_lines g)) = held v (gd_lines g) - at_variant (ol_variantId r) n v)
    by (intros v; rewrite held_update by done; rewrite Hrem; do 2 f_equal; lia).
  apply sweep_ok; auto.
  - rewrite map_set_where; [done|]. intros l _ _. apply Hid.
  - apply Forall_forall. intros l Hl. apply elem_set_where in Hl as (x & Hx & ->). destruct (String.eqb_spec (ol_id x) (ol_id r)) as [E|].
    + by rewrite (NoDup_map_inj _ _ _ _ G1 Hx Hr E).
    + rewrite Forall_forall in G3. by apply G3.
  - intros x Hx. rewrite Hh. lia.
  - intros x Hx. specialize (G5 x Hx). unfold at_variant. destruct (bool_decide _); lia.
Qed.

Lemma update_as_shift g r v n e f : in_range (gd_stock g) -> ol_variantId r = Some v ->
  (forall x, x ∈ gd_stock g -> stk_variantId x = v -> 0 <= stk_allocated x <= stk_onHand x ->
     f x = {| stk_variantId := stk_variantId x; stk_onHand := Z.max (stk_onHand x + e) 0; stk_allocated := Z.max (stk_allocated x - n) 0 |}) ->
  set_where (of_variant v) f (gd_stock g) = map (shift_row (at_variant (ol_variantId r) n) (at_variant (ol_variantId r) e)) (gd_stock g).
Proof.
  intros R Hv Hf. unfold set_where. apply map_ext_in. intros x Hx. apply list_elem_of_In in Hx. rewrite Hv. unfold of_variant, shift_row, at_variant.
  specialize (R x Hx). destruct (String.eqb_spec (stk_variantId x) v) as [E|N].
  - rewrite !bool_decide_true by congruence. by apply Hf.
  - rewrite !bool_decide_false by congruence. destruct x; cbn in *. f_equal; lia.
Qed.
Lemma no_variant_shift (st : list Stock) n e : in_range st -> map (shift_row (at_variant None n) (at_variant None e)) st = st.
Proof. intros R. apply shift_id; [done|]. intros x _. unfold at_variant. by rewrite !bool_decide_false. Qed.

Lemma moved_nil v o : moved_units v [] = at_variant o 0 v.
Proof. unfold at_variant, moved_units. by destruct (bool_decide _). Qed.
Lemma moved_one u v n o a : moved_units u [{| sm_variantId := v; sm_delta := n; sm_refOrderId := o; sm_actor := a |}] = at_variant (Some v) n u.
Proof.
  unfold at_variant, moved_units. cbn. destruct (String.eqb_spec v u) as [->|N]; [rewrite bool_decide_true by done; lia|rewrite bool_decide_false by congruence; lia].
Qed.
Lemma goods_ok_unmoved base ls st ms : goods_ok base {| gd_lines := ls; gd_stock := st; gd_movements := ms ++ [] |} -> goods_ok base {| gd_lines := ls; gd_stock := st; gd_movements := ms |}.
Proof. by rewrite app_nil_r. Qed.
Lemma others_kept (id : string) f (ls : list OrderLine) l' : l' ∈ ls -> ol_id l' <> id -> l' ∈ set_where (fun l => String.eqb (ol_id l) id) f ls.
Proof. intros H N. pose proof (set_where_elem (fun l => String.eqb (ol_id l) id) f ls l' H) as W. cbn in W. apply String.eqb_neq in N. by rewrite N in W. Qed.

(** A step on one line of the tables. *)
Definition one_line (base : string -> Z) (step : Goods -> OrderLine -> Goods) : Prop :=
  forall g l, goods_ok base g -> l ∈ gd_lines g ->
    goods_ok base (step g l) /\ forall l', l' ∈ gd_lines g -> ol_id l' <> ol_id l -> l' ∈ gd_lines (step g l).
Lemma fold_lines_ok base step ls : one_line base step -> forall g, goods_ok base g -> NoDup (map ol_id ls) ->
  (forall l, l ∈ ls -> l ∈ gd_lines g) -> goods_ok base (fold_left step ls g).
Proof.
  intros St. induction ls as [|l ls IH]; intros g G Hn Hin; [done|]. cbn in Hn. apply NoDup_cons in Hn as [Hl Hn].
  destruct (St g l G (Hin l ltac:(left))) as [G' K]. cbn. apply IH; [done|done|]. intros l' Hl'. apply K; [apply Hin; by right|].
  intros E. apply Hl. rewrite <- E. by apply list_elem_of_fmap_2.
Qed.
Lemma fold_order_ok base step orderId g : one_line base step -> goods_ok base g -> goods_ok base (fold_left step (List.filter (of_order orderId) (gd_lines g)) g).
Proof.
  intros St G. apply fold_lines_ok; [done|done|by apply NoDup_map_filter, G|]. intros l Hl. by apply elem_filter_bool in Hl as [? _].
Qed.

Lemma release_one base : one_line base release_line.
Proof.
  intros g l G Hl. unfold release_line. destruct (0 <? remaining l) eqn:Er; [|done]. bool_props.
  pose proof (go_line_ok _ _ G) as Lo. rewrite Forall_forall in Lo. destruct (Lo l Hl) as (F & C & R & V). split.
  - set (f := fun x => with_quantities (ol_fulfilledQty x) (ol_cancelledQty x + remaining l) x).
    assert (Of : line_ok (f l)) by (unfold line_ok, f, remaining in *; cbn; repeat split; [lia|lia|lia|done]).
    assert (Rf : remaining (f l) = remaining l - remaining l) by (unfold f, remaining in *; cbn; lia).
    assert (M : forall st, st = map (shift_row (at_variant (ol_variantId l) (remaining l)) (at_variant (ol_variantId l) 0)) (gd_stock g) ->
      goods_ok base {| gd_lines := set_where (fun x => String.eqb (ol_id x) (ol_id l)) f (gd_lines g); gd_stock := st; gd_movements := gd_movements g |}).
    { intros st ->. apply goods_ok_unmoved. eapply (line_step_ok base g l f (remaining l) 0); auto; [lia|]. intros v. apply moved_nil. }
    destruct (ol_variantId l) as [v|] eqn:Ev; apply M; cbn.
    + rewrite <- Ev. apply (update_as_shift g l v); [by eapply go_in_range|done|]. intros x _ _ H1. unfold unallocate, set_allocated. f_equal; lia.
    + rewrite no_variant_shift; [done|by eapply go_in_range].
  - intros l' H' N. destruct (ol_variantId l); cbn; by apply others_kept.
Qed.
Lemma ship_one base actor orderId : one_line base (ship_line actor orderId).
Proof.
  intros g l G Hl. unfold ship_line. destruct (remaining l <=? 0) eqn:Er; [done|]. bool_props.
  pose proof (go_line_ok _ _ G) as Lo. rewrite Forall_forall in Lo. destruct (Lo l Hl) as (F & C & R & V). split.
  - set (f := fun x => with_quantities (ol_quantity l - ol_cancelledQty l) (ol_cancelledQty x) x).
    assert (Of : line_ok (f l)) by (unfold line_ok, f, remaining in *; cbn; repeat split; [lia|lia|lia|done]).
    assert (Rf : remaining (f l) = remaining l - remaining l) by (unfold f, remaining in *; cbn; lia).
    destruct (ol_variantId l) as [v|] eqn:Ev; cbn.
    + eapply (line_step_ok base g l f (remaining l) (- remaining l)); auto; [lia| |].
      * apply (update_as_shift g l v); [by eapply go_in_range|done|]. intros x _ _ H1. unfold ship_units. f_equal; lia.
      * intros u. rewrite Ev. apply moved_one.
    + apply goods_ok_unmoved. eapply (line_step_ok base g l f (remaining l) 0); auto; [lia|rewrite Ev, no_variant_shift; [done|by eapply go_in_range]|]. intros u. apply moved_nil.
  - intros l' H' N. destruct (ol_variantId l); cbn; by apply others_kept.
Qed.

(** ** The refund's part *)

Lemma set_where_twice {A} (p : A -> bool) f g (l : list A) : (forall x, p (f x) = p x) -> set_where p g (set_where p f l) = set_where p (fun x => g (f x)) l.
Proof. intros H. unfold set_where. rewrite map_map. apply map_ext. intros x. destruct (p x) eqn:E; [by rewrite H, E|by rewrite E]. Qed.
Definition returned_quantity (frozen : option FrozenReturns) (l : RefundLine) : Z :=
  or_else (mjoin (match frozen with Some f => if fz_version2 f then assoc_last (fl_orderLineId l) (rev (fz_present f)) else None | None => None end)) (fl_quantity l).
Lemma returned_ok base actor orderId imported frozen g l g' : goods_ok base g -> 0 <= returned_quantity frozen l ->
  return_units actor orderId imported frozen g l = Ok g' -> goods_ok base g'.
Proof.
  intros G Hq H. unfold return_units in H. fold (returned_quantity frozen l) in H. set (q := returned_quantity frozen l) in *.
  destruct (negb (imported && _)); [|done]. destruct (List.find _ _) as [r|] eqn:Ef; [|done].
  apply find_elem in Ef as [Hr _]. destruct (String.eqb (ol_orderId r) orderId); [|done].
  pose proof (go_line_ok _ _ G) as Lo. rewrite Forall_forall in Lo. destruct (Lo r Hr) as (F & C & R & V).
  change (ol_quantity r - ol_fulfilledQty r - ol_cancelledQty r) with (remaining r) in H. set (n := Z.min q (Z.max 0 (remaining r))) in *.
  assert (Hn : 0 <= n <= remaining r /\ n <= q) by lia. set (f := fun x : OrderLine => {| ol_id := _ |}) in H.
  assert (Of : line_ok (f r)) by (unfold line_ok, f, remaining in *; cbn; repeat split; [lia|lia|lia|done]).
  assert (Rf : remaining (f r) = remaining r - n) by (unfold f, remaining in *; cbn; lia).
  destruct (ol_variantId r) as [v|] eqn:Ev.
  - set (restock := fl_restock l && negb (q - n =? 0)) in H. set (e := if restock then q - n else 0).
    set (stock1 := if n =? 0 then gd_stock g else _) in H.
    assert (S1 : forall k, 0 <= k -> set_where (fun x => String.eqb (stk_variantId x) v) (fun x => {| stk_variantId := stk_variantId x; stk_onHand := stk_onHand x + k; stk_allocated := stk_allocated x |}) stock1 =
      map (shift_row (at_variant (ol_variantId r) n) (at_variant (ol_variantId r) k)) (gd_stock g)).
    { intros k Hk. unfold stock1. destruct (n =? 0) eqn:E0; bool_props.
      - apply (update_as_shift g r v); [by eapply go_in_range|done|]. intros x _ _ H1. f_equal; lia.
      - rewrite set_where_twice by done. apply (update_as_shift g r v); [by eapply go_in_range|done|]. intros x _ _ H1. cbn. f_equal; lia. }
    destruct restock eqn:Er; injection H as <-.
    + eapply (line_step_ok base g r f n e); auto; [lia|apply S1; lia|]. intros u. rewrite Ev. apply moved_one.
    + apply goods_ok_unmoved. eapply (line_step_ok base g r f n 0); auto; [lia| |intros u; apply moved_nil].
      rewrite <- (S1 0) by done. symmetry. unfold set_where. rewrite <- (map_id stock1) at 2. apply map_ext. intros [a b c]. cbn. rewrite Z.add_0_r. by destruct (String.eqb a v).
  - injection H as <-. apply goods_ok_unmoved. eapply (line_step_ok base g r f n 0); auto; [lia|rewrite Ev, no_variant_shift; [done|by eapply go_in_range]|]. intros u. apply moved_nil.
Qed.

(** ** Units of a whole order *)

Lemma add_units_get v n m u : default 0 (units_of (add_units v n m) u) = default 0 (units_of m u) + (if String.eqb v u then n else 0).
Proof.
  unfold units_of. induction m as [|[w k] m IH]; cbn.
  - by destruct (String.eqb v u).
  - destruct (String.eqb_spec v w) as [->|N]; cbn.
    + destruct (String.eqb w u); cbn; lia.
    + destruct (String.eqb_spec w u) as [->|]; [|exact IH]. apply String.eqb_neq in N. rewrite N. cbn. lia.
Qed.
Lemma heldUnits_fold u ls : Forall line_ok ls -> forall m,
  default 0 (units_of (fold_left (fun m l => match ol_variantId l with
      | Some v => if (0 <? remaining l) && negb (String.eqb v EmptyString) then add_units v (remaining l) m else m | None => m end) ls m) u) =
  default 0 (units_of m u) + held u ls.
Proof.
  induction ls as [|l ls IH]; intros H m; [symmetry; apply Z.add_0_r|]. apply Forall_cons in H as [(F & C & R & V) H]. cbn [fold_left]. rewrite IH by done.
  assert (W : default 0 (units_of (match ol_variantId l with
      | Some v => if (0 <? remaining l) && negb (String.eqb v EmptyString) then add_units v (remaining l) m else m | None => m end) u) = default 0 (units_of m u) + holds u l).
  { unfold holds. destruct (ol_variantId l) as [v|]; [|rewrite bool_decide_false by done; lia].
    destruct (String.eqb_spec v EmptyString) as [->|_]; [done|]. rewrite andb_true_r. destruct (0 <? remaining l) eqn:E; bool_props.
    - rewrite add_units_get. destruct (String.eqb_spec v u) as [->|N]; [by rewrite bool_decide_true|rewrite bool_decide_false by congruence; lia].
    - destruct (bool_decide _); lia. }
  rewrite W. unfold held. cbn. lia.
Qed.
Lemma heldUnits_get orderId g u : Forall line_ok (gd_lines g) ->
  default 0 (units_of (heldUnits orderId g) u) = held u (List.filter (of_order orderId) (gd_lines g)).
Proof. intros H. unfold heldUnits. rewrite heldUnits_fold by (by apply Forall_filter_bool). done. Qed.

Lemma cancel_goods_ok base orderId g : goods_ok base g -> goods_ok base (cancel_goods orderId g).
Proof.
  intros G. pose proof (go_line_ok _ _ G) as Lo. unfold cancel_goods. set (own := List.filter (of_order orderId) (gd_lines g)).
  set (p := fun l => of_order orderId l && _). set (f := fun l => with_quantities _ _ l).
  assert (Hh : forall v, held v (set_where p f (gd_lines g)) = held v (gd_lines g) - held v own).
  { intros v. rewrite (held_filter v (of_order orderId) (gd_lines g)). fold own.
    enough (E : held v (set_where p f (gd_lines g)) = held v (List.filter (fun l => negb (of_order orderId l)) (gd_lines g))) by lia.
    clear -Lo. induction (gd_lines g) as [|l ls IH]; [done|]. apply Forall_cons in Lo as [(F & C & R & V) Lo]. specialize (IH Lo).
    unfold held, set_where in *. cbn. unfold p at 1. destruct (of_order orderId l) eqn:Eo; cbn [andb negb].
    - cbn. rewrite IH. destruct (0 <? remaining l) eqn:E; bool_props; unfold holds.
      + change (ol_variantId (f l)) with (ol_variantId l). replace (remaining (f l)) with 0 by (unfold f, remaining; cbn; lia). by destruct (bool_decide _).
      + destruct (bool_decide _); lia.
    - cbn. by rewrite IH. }
  replace (map _ (gd_stock g)) with (map (shift_row (fun v => held v own) (fun _ => 0)) (gd_stock g)).
  - apply goods_ok_unmoved, sweep_ok; [done| | | | | |].
    + rewrite (map_set_where ol_id p f); [apply G|by intros l _ _].
    + apply Forall_forall. intros l Hl. apply elem_set_where in Hl as (x & Hx & ->). rewrite Forall_forall in Lo. specialize (Lo x Hx) as (F & C & R & V).
      destruct (p x) eqn:E; [|done]. unfold p in E. bool_props. unfold line_ok, f, remaining in *. cbn. repeat split; [lia|lia|lia|done].
    + intros x Hx. specialize (Hh (stk_variantId x)). lia.
    + intros x Hx _. apply Hh.
    + intros v. done.
    + intros x Hx. pose proof (go_range _ _ G x Hx). pose proof (held_nonneg (stk_variantId x) own ltac:(by apply Forall_filter_bool)). lia.
  - apply map_ext_in. intros x Hx. apply list_elem_of_In in Hx. pose proof (heldUnits_get orderId g (stk_variantId x) Lo) as H.
    pose proof (go_range _ _ G x Hx). fold own in H. unfold shift_row.
    destruct (units_of _ _) as [n|]; cbn in H.
    + unfold unallocate, set_allocated. rewrite <- H. f_equal; lia.
    + rewrite <- H. destruct x; cbn in *. f_equal; lia.
Qed.

Lemma give_back_stock g l : line_ok l -> in_range (gd_stock g) ->
  give_back g l = {| gd_lines := gd_lines g; gd_stock := map (shift_row (fun v => holds v l) (fun _ => 0)) (gd_stock g); gd_movements := gd_movements g |}.
Proof.
  intros (F & C & R & V) H. assert (K : (forall v, holds v l = 0) -> give_back g l = g -> give_back g l =
    {| gd_lines := gd_lines g; gd_stock := map (shift_row (fun v => holds v l) (fun _ => 0)) (gd_stock g); gd_movements := gd_movements g |}).
  { intros Hz ->. rewrite shift_id; [by destruct g|done|done]. }
  unfold give_back in *. destruct (ol_variantId l) as [v|] eqn:Ev; [|apply K; [intros v; unfold holds; by rewrite Ev, bool_decide_false|done]].
  destruct (0 <? remaining l) eqn:E; bool_props; [|apply K; [intros u; unfold holds; destruct (bool_decide _); lia|done]]. clear K.
  unfold update_stock. f_equal. unfold set_where. apply map_ext_in. intros x Hx. apply list_elem_of_In in Hx. specialize (H x Hx).
  unfold of_variant, shift_row, holds. rewrite Ev. destruct (String.eqb_spec (stk_variantId x) v) as [<-|N].
  - rewrite bool_decide_true by done. unfold unallocate, set_allocated. f_equal; lia.
  - rewrite bool_decide_false by congruence. destruct x; cbn in *. f_equal; lia.
Qed.
Lemma give_back_fold ls : forall g, Forall line_ok ls -> in_range (gd_stock g) ->
  fold_left give_back ls g = {| gd_lines := gd_lines g; gd_stock := map (shift_row (fun v => held v ls) (fun _ => 0)) (gd_stock g); gd_movements := gd_movements g |}.
Proof.
  induction ls as [|l ls IH]; intros g Hl H.
  - cbn. rewrite shift_id; [by destruct g|done|done].
  - apply Forall_cons in Hl as [Hl Hls]. cbn [fold_left]. rewrite give_back_stock by done. rewrite IH; cbn; [|done|].
    + f_equal. rewrite map_map. apply map_ext_in. intros x Hx. apply list_elem_of_In in Hx. specialize (H x Hx).
      pose proof (held_nonneg (stk_variantId x) ls Hls). pose proof (holds_nonneg (stk_variantId x) l Hl). unfold shift_row, held in *. cbn in *. f_equal; lia.
    + intros y Hy. apply list_elem_of_fmap in Hy as (x & -> & Hx). specialize (H x Hx). cbn. pose proof (holds_nonneg (stk_variantId x) l Hl). lia.
Qed.
Lemma retire_ok base orderId g : goods_ok base g -> goods_ok base (retire_lines orderId g).
Proof.
  intros G. unfold retire_lines. rewrite give_back_fold; [|apply Forall_filter_bool, G|by eapply go_in_range].
  assert (Hh : forall v, held v (List.filter (fun l => negb (of_order orderId l)) (gd_lines g)) = held v (gd_lines g) - held v (List.filter (of_order orderId) (gd_lines g)))
    by (intros v; rewrite (held_filter v (of_order orderId) (gd_lines g)); lia).
  unfold delete_lines. cbn. apply goods_ok_unmoved, sweep_ok; [done|by apply NoDup_map_filter, G|by apply Forall_filter_bool, G| | |done|].
  - intros x _. rewrite Hh. lia.
  - intros x _ _. apply Hh.
  - intros x Hx. pose proof (go_range _ _ G x Hx).
    pose proof (held_nonneg (stk_variantId x) (List.filter (of_order orderId) (gd_lines g)) ltac:(apply Forall_filter_bool, G)). lia.
Qed.

(** ** Placing lines *)

Definition items_of (lines : order_lines) : list ReservableItem := map (fun x => snd (fst (fst x))) lines.
(** Quantities are not negative, variants have ids, and a variant sold from stock only is not placed unreserved (on
    pre-order, as a digital good) while it has a stock row. *)
Definition stocked (bySku : gmap string ReservableVariant) (lines : order_lines) (g : Goods) : Prop :=
  Forall (fun i => 0 <= it_quantity i /\ forall u, bySku !! it_sku i = Some u -> vt_id u <> EmptyString /\
    (sold (vt_id u) -> vt_id u ∈ map stk_variantId (gd_stock g) -> reservable u = true)) (items_of lines).

Lemma new_lines_ok orderId bySku lines g : stocked bySku lines g -> Forall line_ok (omap (new_line orderId bySku) lines).
Proof.
  intros H. apply Forall_forall. intros l Hl. apply list_elem_of_omap in Hl as ([[[id i] u] t] & Hx & E). cbn in E.
  unfold stocked in H. rewrite Forall_forall in H. destruct (H i) as [Q Hu]; [apply list_elem_of_fmap; by exists (id, i, u, t)|].
  destruct (bySku !! it_sku i) as [v|]; [|done]. injection E as <-. destruct (Hu v eq_refl) as [Hv _].
  unfold line_ok, remaining. cbn. repeat split; [lia|lia|lia|congruence].
Qed.
Lemma new_lines_held orderId bySku lines g x : stocked bySku lines g -> x ∈ gd_stock g ->
  let h := held (stk_variantId x) (omap (new_line orderId bySku) lines) in let w := wanted (items_of lines) bySku (stk_variantId x) in
  w <= h /\ (sold (stk_variantId x) -> h = w).
Proof.
  cbn zeta. intros H Hx. unfold stocked in H. induction lines as [|[[[id i] u] t] lines IH]; [done|].
  cbn [items_of map] in H. apply Forall_cons in H as [[Q Hu] H]. specialize (IH H).
  unfold wanted, held, items_of in *. cbn in *. destruct (bySku !! it_sku i) as [v|] eqn:Ev; [|exact IH]. cbn. destruct IH as [IH1 IH2].
  match goal with |- context [holds (stk_variantId x) ?l] => replace (holds (stk_variantId x) l) with (if String.eqb (vt_id v) (stk_variantId x) then it_quantity i else 0) end.
  - destruct (String.eqb_spec (vt_id v) (stk_variantId x)) as [E|N]; [|rewrite andb_false_r; split; [lia|intros Hs; specialize (IH2 Hs); lia]].
    rewrite andb_true_r. split; [destruct (reservable v); lia|]. intros Hs. destruct (Hu v eq_refl) as [_ Hr].
    rewrite Hr; [specialize (IH2 Hs); lia|by rewrite E|rewrite E; by apply list_elem_of_fmap_2].
  - unfold holds. cbn. replace (remaining _) with (it_quantity i) by (unfold remaining; cbn; lia).
    destruct (String.eqb_spec (vt_id v) (stk_variantId x)) as [E|N]; [by rewrite bool_decide_true by congruence|by rewrite bool_decide_false by congruence].
Qed.
Lemma wanted_nonneg items bySku v : Forall (fun i => 0 <= it_quantity i) items -> 0 <= wanted items bySku v.
Proof.
  intros H. apply sumZ_nonneg, Forall_map. eapply Forall_impl; [exact H|]. intros i Hi. cbn in *. destruct (bySku !! it_sku i); [|lia]. destruct (reservable _ && _); lia.
Qed.
Lemma place_ok base orderId bySku lines g g' : goods_ok base g -> stocked bySku lines g -> place_lines orderId bySku lines g = Ok g' ->
  NoDup (map ol_id (gd_lines g')) -> goods_ok base g'.
Proof.
  intros G S H Hn. unfold place_lines, reserve_lines in H. fold (items_of lines) in H. destruct (is_nil _); [|done].
  assert (Q : Forall (fun i => 0 <= it_quantity i) (items_of lines)) by (eapply Forall_impl; [exact S|]; by intros i [? _]).
  pose proof (reserve_spec (items_of lines) bySku (gd_stock g) (go_rows _ _ G) Q) as R.
  destruct (reserveStockOrThrow _ _ _) as [[changed stock']|]; [|done]. destruct R as (F & -> & _). injection H as <-. unfold insert_lines in *. cbn in *.
  apply goods_ok_unmoved. replace (map _ (gd_stock g)) with (map (shift_row (fun v => - wanted (items_of lines) bySku v) (fun _ => 0)) (gd_stock g)).
  - apply sweep_ok; auto.
    + apply Forall_app. split; [apply G|by apply (new_lines_ok orderId bySku lines g)].
    + intros x Hx. rewrite held_app. destruct (new_lines_held orderId bySku lines g x S Hx). lia.
    + intros x Hx Hs. rewrite held_app. destruct (new_lines_held orderId bySku lines g x S Hx) as [_ K]. rewrite K by done. lia.
    + intros x Hx. pose proof (fits_bound _ _ _ x (go_rows _ _ G) F Hx (proj2 (go_range _ _ G x Hx))). lia.
  - apply map_ext_in. intros x Hx. apply list_elem_of_In in Hx. pose proof (go_range _ _ G x Hx). pose proof (wanted_nonneg (items_of lines) bySku (stk_variantId x) Q).
    unfold shift_row, set_allocated. f_equal; lia.
Qed.
(** Replacing the lines of an order is retiring them and placing the new ones. *)
Lemma replace_is_place orderId bySku lines g : replace_lines orderId bySku lines g = place_lines orderId bySku lines (retire_lines orderId g).
Proof.
  unfold replace_lines, place_lines, reserve_lines, retire_lines. cbn [gd_stock delete_lines]. destruct (is_nil _); [|done]. by destruct (reserveStockOrThrow _ _ _).
Qed.

(** ** Partial shipments *)

Lemma ship_lines_fresh byId seen lines y id : ship_lines_ok byId seen lines = true -> y ∈ lines -> id ∈ seen -> ht_orderLineId y <> id.
Proof.
  revert seen. induction lines as [|x lines IH]; intros seen H Hy Hi; [set_solver|]. cbn in H. bool_props.
  apply elem_of_cons in Hy as [->|Hy]; [|apply (IH (ht_orderLineId x :: seen)); auto; by right].
  intros E. subst id. apply not_true_iff_false in H. apply H, existsb_exists. exists (ht_orderLineId x). split; [by apply list_elem_of_In|apply String.eqb_refl].
Qed.
Lemma partial_ok base actor orderId byId lines : forall g seen, goods_ok base g -> Forall (fun x => 0 <= ht_quantity x) lines ->
  ship_lines_ok byId seen lines = true ->
  (forall x row, x ∈ lines -> byId (ht_orderLineId x) = Some row -> row ∈ gd_lines g /\ ol_id row = ht_orderLineId x) ->
  goods_ok base (fold_left (ship_partial actor orderId byId) lines g).
Proof.
  induction lines as [|x lines IH]; intros g seen G Q Hok Hb; [done|]. apply Forall_cons in Q as [Qx Q].
  cbn [ship_lines_ok] in Hok. apply andb_true_iff in Hok as [Hx Hok]. apply andb_true_iff in Hx as [_ Hx].
  destruct (byId (ht_orderLineId x)) as [row|] eqn:Er; [|done]. bool_props. destruct (Hb x row ltac:(left) Er) as [Hr Hid].
  pose proof (go_line_ok _ _ G) as Lo. rewrite Forall_forall in Lo. destruct (Lo row Hr) as (F & C & R & V). cbn [fold_left].
  set (f := fun l => with_quantities (ol_fulfilledQty l + ht_quantity x) (ol_cancelledQty l) l).
  assert (Of : line_ok (f row)) by (unfold line_ok, f, remaining in *; cbn; repeat split; [lia|lia|lia|done]).
  assert (Rf : remaining (f row) = remaining row - ht_quantity x) by (unfold f, remaining in *; cbn; lia).
  assert (E : gd_lines (ship_partial actor orderId byId g x) = set_where (fun l => String.eqb (ol_id l) (ol_id row)) f (gd_lines g)).
  { unfold ship_partial. rewrite Er. by destruct (ol_variantId row). }
  apply (IH _ (ht_orderLineId x :: seen)); [|done|done|].
  - unfold ship_partial. rewrite Er. destruct (ol_variantId row) as [v|] eqn:Ev; cbn.
    + eapply (line_step_ok base g row f (ht_quantity x) (- ht_quantity x)); auto; [lia| |].
      * apply (update_as_shift g row v); [by eapply go_in_range|done|]. intros y _ _ H1. unfold ship_units. f_equal; lia.
      * intros u. rewrite Ev. apply moved_one.
    + apply goods_ok_unmoved. eapply (line_step_ok base g row f (ht_quantity x) 0); auto; [lia|rewrite Ev, no_variant_shift; [done|by eapply go_in_range]|]. intros u. apply moved_nil.
  - intros y row' Hy Ey. destruct (Hb y row' ltac:(by right) Ey) as [Hr' Hid']. split; [|done]. rewrite E. apply others_kept; [done|].
    rewrite Hid', Hid. apply (ship_lines_fresh byId (ht_orderLineId x :: seen) lines y (ht_orderLineId x)); [done|done|left].
Qed.

(** ** The store's transactions *)

Section runs.
Context {X E : Type} `{!ShopDeps X E} (gen_random_uuid : nat -> string).

Lemma run_module_goods (f : X -> result E X) s s' : run_module f s = Ok s' -> sh_goods s' = sh_goods s.
Proof. unfold run_module. destruct (f _); [|done]. by intros [= <-]. Qed.
Ltac modules H := repeat (destruct (run_module _ _) as [?s|] eqn:?Em in H; [cbn [bind_result] in H|discriminate H]);
  repeat match goal with Em : run_module _ _ = Ok _ |- _ => apply run_module_goods in Em end.
Ltac guards H := repeat match type of H with (if ?b then _ else _) = _ => destruct b; [|discriminate H] end.

Lemma cancel_unpaid_goods orderId actor reason source disc apply_ s r s' base : goods_ok base (sh_goods s) ->
  cancelUnpaidOrderInSet orderId actor reason source disc apply_ s = Ok (r, s') -> goods_ok base (sh_goods s').
Proof.
  intros G H. unfold cancelUnpaidOrderInSet in H. destruct apply_; cbn [negb] in H; [|by injection H as _ <-].
  modules H. injection H as _ <-. cbn in *. rewrite Em0, Em. by apply cancel_goods_ok.
Qed.
Lemma cancel_if_unpaid_goods cutoff disc orderId actor reason source apply_ s r s' base : goods_ok base (sh_goods s) ->
  cancel_if_unpaid cutoff disc orderId actor reason source apply_ s = Ok (r, s') -> goods_ok base (sh_goods s').
Proof.
  intros G H. unfold cancel_if_unpaid in H. destruct (existsb _ _); [|by injection H as _ <-].
  destruct (cancelUnpaidOrderInSet _ _ _ _ _ _ _) as [[k s1]|] eqn:Ec; [|done]. injection H as _ <-. by apply (cancel_unpaid_goods _ _ _ _ _ _ _ _ _ _ G Ec).
Qed.
Lemma release_lines_ok base orderId g : goods_ok base g -> goods_ok base (release_lines orderId g).
Proof. apply fold_order_ok, release_one. Qed.
Lemma ship_lines_goods base actor orderId g : goods_ok base g -> goods_ok base (ship_lines actor orderId g).
Proof. apply fold_order_ok, ship_one. Qed.
Lemma cancel_order_goods code actor disc s s' base : goods_ok base (sh_goods s) -> cancel_order code actor disc s = Ok s' -> goods_ok base (sh_goods s').
Proof.
  intros G H. unfold cancel_order in H. destruct (order_by_code code s) as [o|]; [|done]. guards H. modules H.
  injection H as <-. cbn in *. rewrite Em0, Em. by apply release_lines_ok.
Qed.
Lemma chargeback_goods orderId dispute note s r s' base : goods_ok base (sh_goods s) ->
  applyNmiChargebackToOrder orderId dispute note s = Ok (r, s') -> goods_ok base (sh_goods s').
Proof.
  intros G H. unfold applyNmiChargebackToOrder in H. destruct (match List.find _ _ with Some _ => _ | None => _ end) as [[out s1]|] eqn:Eb; [|done].
  cbn [bind_result] in H. modules H. injection H as _ <-. cbn in Em. rewrite Em. clear Em.
  destruct (List.find _ _) as [o|]; [|by injection Eb as _ <-].
  destruct (if importedFinancialReconciliationRequired _ then _ else _) as [s2|] eqn:E2; [|done]. cbn [bind_result] in Eb.
  assert (G2 : sh_goods s2 = sh_goods s) by (destruct (importedFinancialReconciliationRequired _); [by injection E2 as <-|by apply run_module_goods in E2]).
  destruct (existsb _ _); [injection Eb as _ <-; cbn; by rewrite G2|].
  destruct (bool_decide _); [injection Eb as _ <-; by rewrite G2|].
  destruct (importedFinancialReconciliationRequired _); [injection Eb as _ <-; cbn; by rewrite G2|].
  destruct (canTransition _ _); cbn [negb] in Eb; [|injection Eb as _ <-; cbn; by rewrite G2].
  modules Eb. injection Eb as _ <-. cbn in *. rewrite Em0, Em, G2. by apply release_lines_ok.
Qed.
Lemma fulfill_goods code actor target tracking carrier s s' base : goods_ok base (sh_goods s) ->
  fulfill_order gen_random_uuid code actor target tracking carrier s = Ok s' -> goods_ok base (sh_goods s').
Proof.
  intros G H. unfold fulfill_order in H. destruct (order_by_code code s) as [o|]; [|done]. guards H.
  set (adv := match target with to_Shipped => _ | to_Delivered => _ end) in H. clearbody adv.
  destruct adv; [apply run_module_goods in H|injection H as H]; destruct (latest_fulfillment _ _);
    first [rewrite H; by apply (ship_lines_goods base actor (sk_id o) (sh_goods s)) | rewrite <- H; exact G].
Qed.
Lemma bulk_goods actor rs s base : goods_ok base (sh_goods s) -> goods_ok base (sh_goods (snd (bulk_fulfill gen_random_uuid actor rs s))).
Proof.
  unfold bulk_fulfill. match goal with |- context [fold_left ?f _ _] => set (step := f) end. enough (K : forall l out s, goods_ok base (sh_goods s) -> goods_ok base (sh_goods (snd (fold_left step l (out, s))))) by apply K.
  clear s. induction l as [|r l IH]; intros out s G; [done|]. cbn [fold_left]. unfold step at 2. destruct (fulfill_order _ _ _ _ _ _ _) as [s'|] eqn:Ef; apply IH; [|done].
  by apply (fulfill_goods _ _ _ _ _ _ _ _ G Ef).
Qed.
Lemma create_goods code actor lines loc tracking carrier s s' base : goods_ok base (sh_goods s) -> Forall (fun x => 0 <= ht_quantity x) lines ->
  create_fulfillment gen_random_uuid code actor lines loc tracking carrier s = Ok s' -> goods_ok base (sh_goods s').
Proof.
  intros G Q H. unfold create_fulfillment in H. destruct (order_by_code code s) as [o|]; [|done].
  set (byId := order_line_by_id _ _) in H. destruct (negb _); [|done]. destruct (fulfillable o); [|done].
  destruct (match loc with Some _ => _ | None => _ end); [|done]. destruct (ship_lines_ok byId [] lines) eqn:Ok_; [|done].
  destruct (negb _); [|done]. apply run_module_goods in H. rewrite H. cbn.
  assert (K : goods_ok base (fold_left (ship_partial actor (sk_id o) byId) lines (sh_goods s))).
  { apply (partial_ok base actor (sk_id o) byId lines _ [] G Q Ok_). intros x row _ Hx. unfold byId, order_line_by_id in Hx.
    apply find_elem in Hx as [Hr Hid]. apply String.eqb_eq in Hid. split; [|exact Hid]. apply list_elem_of_In, in_rev, list_elem_of_In in Hr. by apply elem_filter_bool in Hr as [? _]. }
  by destruct loc.
Qed.

(** Transactions that touch stock, and any other that leaves the goods alone. Placements satisfy [stocked], which for
    an empty [sold] asks nothing but quantities and ids; the primary key keeps line ids apart. *)
Inductive shop_step : Shop X -> Shop X -> Prop :=
| sp_placed s orderId bySku lines g : stocked bySku lines (sh_goods s) -> place_lines orderId bySku lines (sh_goods s) = Ok g ->
    NoDup (map ol_id (gd_lines g)) -> shop_step s (set_goods g s)
| sp_replaced s orderId bySku lines g : stocked bySku lines (sh_goods s) -> replace_lines orderId bySku lines (sh_goods s) = Ok g ->
    NoDup (map ol_id (gd_lines g)) -> shop_step s (set_goods g s)
| sp_unpaid s cutoff disc orderId actor reason source apply_ r s' :
    cancel_if_unpaid cutoff disc orderId actor reason source apply_ s = Ok (r, s') -> shop_step s s'
| sp_cancelled s code actor disc s' : cancel_order code actor disc s = Ok s' -> shop_step s s'
| sp_charged_back s orderId dispute note r s' : applyNmiChargebackToOrder orderId dispute note s = Ok (r, s') -> shop_step s s'
| sp_fulfilled s code actor target tracking carrier s' : fulfill_order gen_random_uuid code actor target tracking carrier s = Ok s' -> shop_step s s'
| sp_bulk s actor rs : shop_step s (snd (bulk_fulfill gen_random_uuid actor rs s))
| sp_shipped s code actor lines loc tracking carrier s' : Forall (fun x => 0 <= ht_quantity x) lines ->
    create_fulfillment gen_random_uuid code actor lines loc tracking carrier s = Ok s' -> shop_step s s'
| sp_purged s orderId : shop_step s (set_goods (retire_lines orderId (sh_goods s)) s)
| sp_refunded s actor orderId imported frozen l g : 0 <= returned_quantity frozen l ->
    return_units actor orderId imported frozen (sh_goods s) l = Ok g -> shop_step s (set_goods g s)
| sp_elsewhere s s' : sh_goods s' = sh_goods s -> shop_step s s'.

Lemma retire_rows orderId g base : goods_ok base g -> map stk_variantId (gd_stock (retire_lines orderId g)) = map stk_variantId (gd_stock g).
Proof.
  intros G. unfold retire_lines. rewrite give_back_fold; [|apply Forall_filter_bool, G|by eapply go_in_range].
  cbn. by rewrite map_map.
Qed.
Lemma step_goods base s s' : shop_step s s' -> goods_ok base (sh_goods s) -> goods_ok base (sh_goods s').
Proof.
  intros S G. destruct S as [s orderId bySku lines g St Ep Hn|s orderId bySku lines g St Ep Hn| | | | | | | | |s s' ->];
    [by apply (place_ok base orderId bySku lines (sh_goods s))| |eapply cancel_if_unpaid_goods; eassumption|eapply cancel_order_goods; eassumption|
     eapply chargeback_goods; eassumption|eapply fulfill_goods; eassumption|by apply bulk_goods|eapply create_goods; eassumption|by apply retire_ok|
     eapply returned_ok; eassumption|done].
  rewrite replace_is_place in Ep. apply (place_ok base orderId bySku lines (retire_lines orderId (sh_goods s))); [by apply retire_ok| |done|done].
  unfold stocked. by rewrite (retire_rows orderId _ base G).
Qed.

(** C33: Stock adds up. From an opening stock, along every run of checkouts, line replacements, expiries and shopper
    reopens, admin cancellations, chargebacks, whole, bulk and partial shipments, purges, refund returns and anything
    else that leaves these tables alone: the allocated units of a variant are between zero and what is on hand and never
    more than its open lines still hold, its shelf count is at least the opening count plus the recorded movements, and
    no line ships or releases more than was ordered. For every variant that the run sells from stock only, that is places
    no line of unreserved (on pre-order or as a digital good), the allocated units are exactly those its open lines hold
    and the shelf is exactly the opening count plus its movements; an unreserved line of another variant does not
    disturb it. *)
Theorem allocation_equals_holds s t stock : sh_goods s = {| gd_lines := []; gd_stock := stock; gd_movements := [] |} ->
  NoDup (map stk_variantId stock) -> Forall (fun x => stk_allocated x = 0 /\ 0 <= stk_onHand x) stock -> rtc shop_step s t ->
  (forall x y, x ∈ gd_stock (sh_goods t) -> y ∈ stock -> stk_variantId y = stk_variantId x ->
     let h := held (stk_variantId x) (gd_lines (sh_goods t)) in let n := stk_onHand y + moved_units (stk_variantId x) (gd_movements (sh_goods t)) in
     0 <= stk_allocated x <= stk_onHand x /\ stk_allocated x <= h /\ n <= stk_onHand x /\
     (sold (stk_variantId x) -> stk_allocated x = h /\ stk_onHand x = n)) /\
  Forall line_ok (gd_lines (sh_goods t)).
Proof.
  intros Es Hn H0 R. rewrite Forall_forall in H0.
  set (base := fun v => match List.find (fun x => String.eqb (stk_variantId x) v) stock with Some x => stk_onHand x | None => 0 end).
  assert (B : forall y, y ∈ stock -> base (stk_variantId y) = stk_onHand y).
  { intros y Hy. unfold base. destruct (List.find _ stock) as [x|] eqn:Ef.
    - apply find_elem in Ef as [Hx Ex]. apply String.eqb_eq in Ex. by rewrite (unique_row stock x y Hn Hx Hy Ex).
    - apply list_elem_of_In in Hy. pose proof (find_none _ _ Ef _ Hy) as Hf. cbn in Hf. by rewrite String.eqb_refl in Hf. }
  assert (G0 : goods_ok base (sh_goods s)).
  { rewrite Es. split; cbn; try done; try by constructor.
    - intros x Hx. destruct (H0 x Hx). lia.
    - intros x Hx. destruct (H0 x Hx) as [-> _]. done.
    - intros x Hx. rewrite B by done. change (moved_units _ []) with 0. lia.
    - intros x Hx _. rewrite B by done. change (moved_units _ []) with 0. destruct (H0 x Hx) as [-> _]. split; [done|lia]. }
  assert (G : goods_ok base (sh_goods t)) by (clear -R G0; induction R as [|a b c S _ IH]; [done|by apply IH, (step_goods base a)]).
  split; [|apply G]. intros x y Hx Hy Ey. cbn zeta. rewrite <- (B y Hy), Ey. split; [by apply (go_range _ _ G)|]. split; [by apply (go_allocated _ _ G)|].
  split; [by apply (go_moved _ _ G)|]. by apply (go_exact _ _ G).
Qed.
End runs.
End ledger.

(** ** Concrete stores *)

#[export] Instance plain_deps : ShopDeps unit string := {|
  release_loyalty _ _ x := Ok x; release_reservation _ _ _ x := Ok x; notify_shipped _ _ _ _ x := Ok x;
  open_dispute _ _ x := Ok x; write_dispute_outcome _ _ x := Ok x |}.
Definition shelf (n : Z) : list Stock := [{| stk_variantId := "v"; stk_onHand := n; stk_allocated := 0 |}].
Definition tee (preOrder : bool) : ReservableVariant := {| vt_id := "v"; vt_sku := "TEE"; vt_enabled := true; vt_isPreOrder := preOrder; vt_fulfillmentType := None |}.
Definition tees (preOrder : bool) : gmap string ReservableVariant := {[ "TEE" := tee preOrder ]}.
Definition order_of (id : string) (state : OrderState) : StockOrder := {| sk_id := id; sk_code := id; sk_state := state; sk_createdAt := 0; sk_metadata := None |}.
Definition shop_of (n : Z) (orders : list StockOrder) (preOrder : bool) : Shop unit :=
  Build_Shop orders {| gd_lines := []; gd_stock := shelf n; gd_movements := [] |} [] [] [tee preOrder] [] [] [] {| mt_payments := []; mt_refunds := []; mt_edits := [] |} [] 0%nat tt.
Definition one_line_of (id : string) (n : Z) : order_lines := [(id, {| it_sku := "TEE"; it_quantity := n |}, 1000, 1000 * n)].
Definition after {A} (d : A) (r : result (list string) A) : A := match r with Ok a => a | Err _ => d end.
Definition placed (orderId line : string) (preOrder : bool) (n : Z) (s : Shop unit) : Shop unit :=
  set_goods (after (sh_goods s) (place_lines orderId (tees preOrder) (one_line_of line n) (sh_goods s))) s.

Lemma reservation_all_or_nothing_witness :
  is_ok (reserveStockOrThrow [{| it_sku := "TEE"; it_quantity := 2 |}; {| it_sku := "TEE"; it_quantity := 2 |}] (tees false) (shelf 3)) = false /\
  ~ fits_items [{| it_sku := "TEE"; it_quantity := 2 |}; {| it_sku := "TEE"; it_quantity := 2 |}] (tees false) (shelf 3).
Proof.
  assert (U : NoDup (map stk_variantId (shelf 3))) by (apply NoDup_singleton).
  assert (Q : Forall (fun i => 0 <= it_quantity i) [{| it_sku := "TEE"; it_quantity := 2 |}; {| it_sku := "TEE"; it_quantity := 2 |}])
    by (repeat constructor; cbn; lia).
  destruct (reservation_all_or_nothing _ (tees false) (shelf 3) U Q) as [R _]. split; [vm_compute; reflexivity|].
  destruct (reserveStockOrThrow _ (tees false) (shelf 3)) as [r|skus] eqn:E; [vm_compute in E; discriminate E|apply R].
Defined.

(** A shirt sold from stock and a mug on pre-order that has a stock row. *)
Definition mug : ReservableVariant := {| vt_id := "w"; vt_sku := "MUG"; vt_enabled := true; vt_isPreOrder := true; vt_fulfillmentType := None |}.
Definition catalog : gmap string ReservableVariant := {[ "TEE" := tee false; "MUG" := mug ]}.
Definition two_shelves : list Stock := shelf 5 ++ [{| stk_variantId := "w"; stk_onHand := 3; stk_allocated := 0 |}].
Definition trading : Shop unit :=
  Build_Shop [order_of "o1" Paid; order_of "o2" PendingPayment] {| gd_lines := []; gd_stock := two_shelves; gd_movements := [] |} [] [] [tee false; mug] [] [] []
    {| mt_payments := []; mt_refunds := []; mt_edits := [] |} [] 0%nat tt.
Definition both_of (tees_line mug_line : string) (n k : Z) : list (string * ReservableItem * Z * Z) :=
  one_line_of tees_line n ++ [(mug_line, {| it_sku := "MUG"; it_quantity := k |}, 500, 500 * k)].
Definition traded1 : Shop unit :=
  let s := set_goods (after (sh_goods trading) (place_lines "o1" catalog (both_of "l1" "m1" 3 2) (sh_goods trading))) trading in
  set_goods (after (sh_goods s) (place_lines "o2" catalog (both_of "l2" "m2" 1 1) (sh_goods s))) s.
Definition gen_f (n : nat) : string := "f".
Definition traded2 : Shop unit :=
  match create_fulfillment gen_f "o1" "a" [{| ht_orderLineId := "l1"; ht_quantity := 2 |}] None None None traded1 with Ok s => s | Err _ => trading end.
Definition traded3 : Shop unit := match cancel_order "o2" "a" false traded2 with Ok s => s | Err _ => trading end.
(** The shirt is accounted exactly; of the mug two units stay owed and none are allocated. *)
Lemma allocation_equals_holds_witness :
  map (fun x => (stk_variantId x, stk_onHand x, stk_allocated x, held (stk_variantId x) (gd_lines (sh_goods traded3)))) (gd_stock (sh_goods traded3))
    = [("v", 3, 1, 1); ("w", 3, 0, 2)] /\
  forall x, x ∈ gd_stock (sh_goods traded3) -> stk_variantId x = "v" -> stk_allocated x = held "v" (gd_lines (sh_goods traded3)).
Proof.
  assert (St : forall l m n k g, 0 <= n -> 0 <= k -> stocked (eq "v") catalog (both_of l m n k) g).
  { intros l m n k g Hn Hk. constructor; [|constructor; [|constructor]]; cbn [it_sku it_quantity fst snd]; (split; [done|]); intros u Hu.
    - assert (T : catalog !! "TEE" = Some (tee false)) by reflexivity. rewrite T in Hu. injection Hu as <-. split; [discriminate|reflexivity].
    - assert (T : catalog !! "MUG" = Some mug) by reflexivity. rewrite T in Hu. injection Hu as <-. split; discriminate. }
  split; [vm_compute; reflexivity|]. intros x Hx Ev.
  assert (R : rtc (shop_step (eq "v") gen_f) trading traded3).
  { eapply rtc_l; [eapply (sp_placed (eq "v") gen_f trading "o1" catalog (both_of "l1" "m1" 3 2)); [apply St; lia|vm_compute; reflexivity|]|].
    { apply (bool_decide_unpack _). vm_compute. exact I. }
    eapply rtc_l; [eapply (sp_placed (eq "v") gen_f _ "o2" catalog (both_of "l2" "m2" 1 1)); [apply St; lia|vm_compute; reflexivity|]|].
    { apply (bool_decide_unpack _). vm_compute. exact I. }
    eapply rtc_l; [eapply (sp_shipped (eq "v") gen_f _ "o1" "a" [{| ht_orderLineId := "l1"; ht_quantity := 2 |}] None None None traded2); [repeat constructor; cbn; lia|vm_compute; reflexivity]|].
    eapply rtc_l; [eapply (sp_cancelled (eq "v") gen_f traded2 "o2" "a" false traded3); vm_compute; reflexivity|apply rtc_refl]. }
  assert (N : NoDup (map stk_variantId two_shelves)) by (apply (bool_decide_unpack _); vm_compute; exact I).
  destruct (allocation_equals_holds (eq "v") gen_f trading traded3 two_shelves eq_refl N ltac:(repeat constructor; cbn; lia) R) as [A _].
  destruct (A x {| stk_variantId := "v"; stk_onHand := 5; stk_allocated := 0 |} Hx ltac:(left) (eq_sym Ev)) as (_ & _ & _ & B). rewrite Ev in B. by apply B.
Defined.

(** For variants not sold from stock only the code gives back units it never took. Units of a pre-order line are not reserved, but
    cancelling its order subtracts them from the variant's allocation: here two units that another open order holds.
    When the pre-order ends, three more units are sold of a shelf of three, on top of the two that are owed. *)
Lemma preorder_cancel_frees_others :
  let s := placed "o2" "l2" true 2 (placed "o1" "l1" false 2 (shop_of 3 [order_of "o1" Paid; order_of "o2" PendingPayment] true)) in
  map stk_allocated (gd_stock (sh_goods s)) = [2] /\
  exists t, cancel_order "o2" "a" false s = Ok t /\ map stk_allocated (gd_stock (sh_goods t)) = [0] /\ held "v" (gd_lines (sh_goods t)) = 2 /\
    let u := placed "o3" "l3" false 3 t in
    held "v" (gd_lines (sh_goods u)) = 5 /\ map stk_onHand (gd_stock (sh_goods u)) = [3].
Proof. split; [vm_compute; reflexivity|]. eexists. split; [vm_compute; reflexivity|]. vm_compute. repeat split. Qed.
(** The rule that a pre-order line cannot ship is checked by the partial route only: the whole-order route ships it. *)
Lemma whole_order_ships_preorder :
  let s := placed "o1" "l1" true 2 (shop_of 3 [order_of "o1" Paid] true) in
  create_fulfillment gen_f "o1" "a" [{| ht_orderLineId := "l1"; ht_quantity := 2 |}] None None None s = Err pre_order /\
  exists t, fulfill_order gen_f "o1" "a" to_Shipped None None s = Ok t /\ map remaining (gd_lines (sh_goods t)) = [0].
Proof. split; [vm_compute; reflexivity|]. eexists. split; vm_compute; reflexivity. Qed.
