(* ===== verification/JsDate.v ===== *)
(** [Date.prototype.toISOString] and [getTime] arithmetic: an instant is a whole
    number of milliseconds since the epoch. Years 0 to 9999 print with four digits. *)

From S2P Require Import Prelude.
From Stdlib Require Import ZArith Lia Bool String Ascii.
From stdpp Require Import base list strings.
Local Open Scope string_scope.
Local Open Scope Z_scope.

(** The UTC calendar: proleptic Gregorian, counted from 1 March of year 0 in
    400-year cycles. *)
Definition utc_calendar (ms : Z) : Z * Z * Z :=
  let z := ms / 86400000 + 719468 in
  let era := z / 146097 in
  let doe := z - era * 146097 in
  let yoe := (doe - doe / 1460 + doe / 36524 - doe / 146096) / 365 in
  let doy := doe - (365 * yoe + yoe / 4 - yoe / 100) in
  let mp := (5 * doy + 2) / 153 in
  let d := doy - (153 * mp + 2) / 5 + 1 in
  let m := if mp <? 10 then mp + 3 else mp - 9 in
  (yoe + era * 400 + (if m <=? 2 then 1 else 0), m, d).

Fixpoint pad_digits (width : nat) (n : Z) : string :=
  match width with
  | O => EmptyString
  | S w => pad_digits w (n / 10) +:+ String (ascii_of_nat (48 + Z.to_nat (n mod 10))) EmptyString
  end.

Definition toISOString (ms : Z) : string :=
  let '(y, m, d) := utc_calendar ms in
  let t := ms mod 86400000 in
  pad_digits 4 y +:+ "-" +:+ pad_digits 2 m +:+ "-" +:+ pad_digits 2 d +:+ "T" +:+
  pad_digits 2 (t / 3600000) +:+ ":" +:+ pad_digits 2 (t / 60000 mod 60) +:+ ":" +:+ pad_digits 2 (t / 1000 mod 60) +:+
  "." +:+ pad_digits 3 (t mod 1000) +:+ "Z".

Example iso_epoch : toISOString 0 = "1970-01-01T00:00:00.000Z".
Proof. reflexivity. Qed.
Example iso_leap : toISOString 1709210096789 = "2024-02-29T12:34:56.789Z".
Proof. reflexivity. Qed.
Example iso_before_epoch : toISOString (-1) = "1969-12-31T23:59:59.999Z".
Proof. reflexivity. Qed.
