(* ===== verification/LicensePolicy.v ===== *)
(** Licence policy: [src/packages/api/src/licensing/{device-policy,entitlements,
    license-lifecycle,renewal,trial,entitlement-policy,sign}.ts].

    What a deployer registers (device policies, tier catalogs, an entitlement
    policy, signed formats) and the pure decisions the engine takes from it:
    which pool a platform falls into, how many devices a pool holds, which
    licences a paid line is granted, when a licence still unlocks something, how
    long a signed token lives and in which format it is emitted. Times are
    milliseconds since the epoch unless named [unix] (seconds); policy numbers
    are whole. A registry is a map from app keys; names looked up in it are not
    members of [Object.prototype]. *)

From S2P Require Import Prelude JsNumber Json.
From Stdlib Require Import ZArith QArith Lia Bool String Ascii.
From stdpp Require Import base list strings gmap.
Local Open Scope string_scope.
Local Open Scope list_scope.
Local Open Scope Z_scope.

(** ** Device policies ([device-policy.ts]) *)

Definition KNOWN_PLATFORMS : list string := ["macos"; "windows"; "linux"; "ios"; "ipados"; "android"; "watchos"].

Definition DEFAULT_PLATFORM_POOL (platform : string) : option string :=
  if existsb (String.eqb platform) ["macos"; "windows"; "linux"] then Some "computer"
  else if existsb (String.eqb platform) ["ios"; "ipados"; "android"] then Some "mobile"
  else if String.eqb platform "watchos" then Some "companion"
  else None.

Record ActivationSource := { src_deviceClass : string; src_pool : string }.

Record DevicePolicy := {
  dp_marker : string;
  dp_poolCaps : option (gmap string Z);
  dp_leasablePools : option (list string);
  dp_pooledSeats : bool;
  dp_platformPools : option (gmap string string);
  dp_leaseTtlSeconds : option Z;
  dp_leaseGraceSeconds : option Z;
  dp_activationSources : option (gmap string ActivationSource)
}.

Definition DEFAULT_LEASE_TTL_SECONDS : Z := 7 * 86400.
Definition DEFAULT_LEASE_GRACE_SECONDS : Z := 14 * 86400.
Definition DEFAULT_LEASABLE_POOLS : list string := ["computer"; "mobile"].
Definition DEFAULT_ACTIVATION_SOURCES : gmap string ActivationSource :=
  {[ "desktop" := {| src_deviceClass := "desktop"; src_pool := "computer" |} ]}.

Definition Policies : Type := gmap string DevicePolicy.

Definition registerDevicePolicy (policies : Policies) (appKey : string) (policy : DevicePolicy) : Policies := <[appKey := policy]> policies.
Definition clearDevicePolicies (policies : Policies) : Policies := ∅.

(** [metadata != null && typeof metadata === 'object' && !Array.isArray(metadata)] *)
Definition metadataRecord (metadata : json) : list (string * json) := match metadata with JObj fs => fs | _ => [] end.

(** [{ ...fields, k: v }]: the key keeps its place, its value is replaced. *)
Definition put_field (fields : list (string * json)) (k : string) (v : json) : list (string * json) :=
  if existsb (fun f => String.eqb (fst f) k) fields
  then map (fun f => if String.eqb (fst f) k then (k, v) else f) fields
  else fields ++ [(k, v)].
Definition merge_fields (fields patch : list (string * json)) : list (string * json) :=
  fold_left (fun fs p => put_field fs (fst p) (snd p)) patch fields.

Section Policies.
Context (policies : Policies).

Definition devicePolicyFor (appKey : string) : option DevicePolicy := policies !! appKey.

Definition withCurrentDevicePolicy (appKey : string) (metadata : json) : json :=
  match devicePolicyFor appKey with
  | None => metadata
  | Some policy => JObj (put_field (metadataRecord metadata) "device_policy" (JStr (dp_marker policy)))
  end.

Definition hasCurrentDevicePolicy (appKey : string) (metadata : json) : bool :=
  match devicePolicyFor appKey with
  | None => false
  | Some policy =>
      match assoc_last "device_policy" (metadataRecord metadata) with
      | Some (JStr marker) => String.eqb marker (dp_marker policy)
      | _ => false
      end
  end.

Definition usesBoundedDevicePools (appKey : string) (seats : Z) (metadata : json) : bool :=
  match devicePolicyFor appKey with
  | None => false
  | Some _ => (0 <? seats) || hasCurrentDevicePolicy appKey metadata
  end.

Definition isKnownPlatform (platform : string) : bool := existsb (String.eqb platform) KNOWN_PLATFORMS.

Definition derivePool (appKey platform : string) : option string :=
  let override := match devicePolicyFor appKey with
                  | Some p => match dp_platformPools p with Some m => m !! platform | None => None end
                  | None => None
                  end in
  if nonempty override then override else DEFAULT_PLATFORM_POOL platform.

(** [None] is [Number.POSITIVE_INFINITY]. *)
Definition poolCap (appKey pool : string) : option Z :=
  match devicePolicyFor appKey with
  | Some p => match dp_poolCaps p with Some caps => caps !! pool | None => None end
  | None => None
  end.

Definition leasablePool (appKey pool : string) : bool :=
  let pools := match devicePolicyFor appKey with
               | Some p => or_else (dp_leasablePools p) DEFAULT_LEASABLE_POOLS
               | None => DEFAULT_LEASABLE_POOLS
               end in
  existsb (String.eqb pool) pools.

Definition leaseTtlSecondsFor (appKey : string) : Z :=
  match devicePolicyFor appKey with Some p => or_else (dp_leaseTtlSeconds p) DEFAULT_LEASE_TTL_SECONDS | None => DEFAULT_LEASE_TTL_SECONDS end.
Definition leaseGraceSecondsFor (appKey : string) : Z :=
  match devicePolicyFor appKey with Some p => or_else (dp_leaseGraceSeconds p) DEFAULT_LEASE_GRACE_SECONDS | None => DEFAULT_LEASE_GRACE_SECONDS end.

Definition activationSourceDefaults (appKey source : string) : option ActivationSource :=
  match devicePolicyFor appKey with
  | None => None
  | Some p => or_else (dp_activationSources p) DEFAULT_ACTIVATION_SOURCES !! source
  end.
End Policies.

(** [count >= cap] *)
Definition at_cap (count : nat) (cap : option Z) : bool :=
  match cap with Some c => c <=? Z.of_nat count | None => false end.

(** ** Grants and entitlements ([entitlements.ts]) *)

Record LicenseGrantInput := {
  gi_orderLineId : string; gi_quantity : Z; gi_fulfillmentType : string; gi_appKey : option string;
  gi_licenseSeats : option Z; gi_updatesDurationDays : option Z; gi_licenseDurationDays : option Z; gi_metadata : json
}.
Record LicenseGrant := {
  gr_orderLineId : string; gr_appKey : string; gr_seats : Z; gr_expiresAt : option Z; gr_updatesUntil : option Z; gr_metadata : json
}.

Definition DAY_MS : Z := 86400000.
Definition addDays (d : Z) (days : option Z) : option Z := match days with None => None | Some n => Some (d + n * DAY_MS) end.

Definition ENTITLEMENT_FULFILLMENT_TYPES : list string := ["digital_download"; "license"; "update_pass"].

Definition isEntitlementBearing (fulfillmentType : string) (appKey : option string) : bool :=
  existsb (String.eqb fulfillmentType) ENTITLEMENT_FULFILLMENT_TYPES && nonempty appKey.

Definition grant_of (now : Z) (line : LicenseGrantInput) (appKey : string) : LicenseGrant :=
  {| gr_orderLineId := gi_orderLineId line; gr_appKey := appKey; gr_seats := or_else (gi_licenseSeats line) 1;
     gr_expiresAt := addDays now (gi_licenseDurationDays line); gr_updatesUntil := addDays now (gi_updatesDurationDays line);
     gr_metadata := gi_metadata line |}.

Definition line_grants (now : Z) (line : LicenseGrantInput) : list LicenseGrant :=
  if isEntitlementBearing (gi_fulfillmentType line) (gi_appKey line) then
    match gi_appKey line with
    | Some appKey => repeat (grant_of now line appKey) (Z.to_nat (gi_quantity line))
    | None => []
    end
  else [].

Definition buildLicenseGrants (lines : list LicenseGrantInput) (now : Z) : list LicenseGrant :=
  List.concat (map (line_grants now) lines).

Inductive LicenseStatus := lic_active | lic_revoked | lic_expired.
#[export] Instance LicenseStatus_eq_dec : EqDecision LicenseStatus.
Proof. solve_decision. Defined.

(** [limit == null || limit >= now] *)
Definition not_before (limit : option Z) (now : Z) : bool := match limit with None => true | Some t => now <=? t end.

Definition canReceiveUpdate (status : LicenseStatus) (updatesUntil : option Z) (now : Z) : bool :=
  bool_decide (status = lic_active) && not_before updatesUntil now.
Definition canAccessDownload (status : LicenseStatus) (expiresAt : option Z) (now : Z) : bool :=
  bool_decide (status = lic_active) && not_before expiresAt now.

Record TierCatalog := { tc_aliases : option (gmap string string); tc_features : option (gmap string (list string)) }.
Definition Catalogs : Type := gmap string TierCatalog.

Definition registerTierCatalog (catalogs : Catalogs) (appKey : string) (catalog : TierCatalog) : Catalogs := <[appKey := catalog]> catalogs.
Definition clearTierCatalogs (catalogs : Catalogs) : Catalogs := ∅.
Definition tierCatalogFor (catalogs : Catalogs) (appKey : string) : option TierCatalog := catalogs !! appKey.

Definition resolveAuthorizationTier (catalogs : Catalogs) (appKey plan : option string) : option string :=
  match plan with
  | None => None
  | Some plan =>
      let aliases := if nonempty appKey then match appKey with Some k => match tierCatalogFor catalogs k with Some c => tc_aliases c | None => None end | None => None end
                     else None in
      Some (match aliases with Some m => or_else (m !! plan) plan | None => plan end)
  end.

Definition canReceiveTieredUpdate (catalogs : Catalogs) (status : LicenseStatus) (updatesUntil expiresAt : option Z) (appKey : option string)
    (metadata : json) (requiredTier : string) (now : Z) : bool :=
  if negb (canReceiveUpdate status updatesUntil now) then false
  else if negb (not_before expiresAt now) then false
  else match metadata with
       | JObj _ => bool_decide (resolveAuthorizationTier catalogs appKey (as_string (field "tier" metadata)) = Some requiredTier)
       | _ => false
       end.

Record Entitlements := { en_v : Z; en_tier : option string; en_features : list json }.

(** [metadata.tier] is text whenever it is set (every writer of it sets text). *)
Definition buildEntitlements (catalogs : Catalogs) (appKey : string) (metadata : json) : Entitlements :=
  let tier := resolveAuthorizationTier catalogs (Some appKey) (as_string (field "tier" metadata)) in
  let features :=
    match as_array (field "features" metadata) with
    | Some fs => fs
    | None =>
        match tier with
        | Some t =>
            if nonempty tier then
              match tierCatalogFor catalogs appKey with
              | Some c => match tc_features c with Some m => map JStr (or_else (m !! t) []) | None => [] end
              | None => []
              end
            else []
        | None => []
        end
    end in
  {| en_v := 1; en_tier := tier; en_features := features |}.

(** ** Term arithmetic ([renewal.ts], [trial.ts]) *)

Definition extendEntitlement (current : option Z) (durationDays : option Z) (now : Z) : option Z :=
  match durationDays with
  | None => None
  | Some n =>
      let base := match current with Some c => if now <? c then c else now | None => now end in
      Some (base + n * DAY_MS)
  end.

Definition TRIAL_DAYS : Z := 14.
Definition trialExpiresAt (now days : Z) : Z := now + days * DAY_MS.

(** ** The signed-token lifecycle ([license-lifecycle.ts]) *)

Inductive LicenseKind := kind_trial | kind_lifetime | kind_term.
Inductive EntitlementStage := stage_time_bound | stage_provisional | stage_final.
#[export] Instance LicenseKind_eq_dec : EqDecision LicenseKind.
Proof. solve_decision. Defined.
#[export] Instance EntitlementStage_eq_dec : EqDecision EntitlementStage.
Proof. solve_decision. Defined.

Record LicenseLifecyclePlan := {
  lp_licenseKind : LicenseKind; lp_entitlementStage : EntitlementStage; lp_licenseIssuedAtUnix : Z;
  lp_confirmationDueAtUnix : option Z; lp_tokenExpiresAtUnix : Z; lp_validUntil : option Z
}.

Definition DAY_SECONDS : Z := 86400.
Definition LIFETIME_CONFIRMATION_DAYS : Z := 30.
Definition FINAL_LIFETIME_EXP_UNIX : Z := 253402300799.
Definition ROLLING_TERM_TOKEN_DAYS : Z := 30.

Record LifecycleWindows := { lw_lifetimeConfirmationDays : option Z; lw_rollingTermTokenDays : option Z; lw_finalLifetimeExpUnix : option Z }.

Definition unix (date : Z) : Z := date / 1000.

Definition planLicenseLifecycle (createdAt : Z) (expiresAt : option Z) (metadata : json) (now : Z) (windows : LifecycleWindows) : LicenseLifecyclePlan :=
  let confirmationDays := or_else (lw_lifetimeConfirmationDays windows) LIFETIME_CONFIRMATION_DAYS in
  let rollingTermDays := or_else (lw_rollingTermTokenDays windows) ROLLING_TERM_TOKEN_DAYS in
  let finalLifetimeExp := or_else (lw_finalLifetimeExpUnix windows) FINAL_LIFETIME_EXP_UNIX in
  let licenseIssuedAtUnix := unix createdAt in
  let nowUnix := unix now in
  match expiresAt with
  | Some e =>
      let hardExpiry := unix e in
      let isTrial := match assoc_last "kind" (metadataRecord metadata) with Some (JStr k) => String.eqb k "trial" | _ => false end in
      {| lp_licenseKind := if isTrial then kind_trial else kind_term; lp_entitlementStage := stage_time_bound;
         lp_licenseIssuedAtUnix := licenseIssuedAtUnix; lp_confirmationDueAtUnix := None;
         lp_tokenExpiresAtUnix := if isTrial then hardExpiry else Z.min hardExpiry (nowUnix + rollingTermDays * DAY_SECONDS);
         lp_validUntil := Some e |}
  | None =>
      let confirmationDueAtUnix := licenseIssuedAtUnix + confirmationDays * DAY_SECONDS in
      if nowUnix <? confirmationDueAtUnix then
        {| lp_licenseKind := kind_lifetime; lp_entitlementStage := stage_provisional; lp_licenseIssuedAtUnix := licenseIssuedAtUnix;
           lp_confirmationDueAtUnix := Some confirmationDueAtUnix; lp_tokenExpiresAtUnix := confirmationDueAtUnix;
           lp_validUntil := Some (confirmationDueAtUnix * 1000) |}
      else
        {| lp_licenseKind := kind_lifetime; lp_entitlementStage := stage_final; lp_licenseIssuedAtUnix := licenseIssuedAtUnix;
           lp_confirmationDueAtUnix := Some confirmationDueAtUnix; lp_tokenExpiresAtUnix := finalLifetimeExp; lp_validUntil := None |}
  end.

(** ** Signed entitlement tokens ([sign.ts])

    The payload a token carries, in its canonical signing order. The bytes
    ([JSON.stringify], base64url, Ed25519) are those of the runtime. *)

Definition V2_FIELD_ORDER : list string :=
  ["v"; "id"; "app"; "tier"; "features"; "device_id"; "iat"; "exp"; "license_kind"; "entitlement_stage"; "license_issued_at";
   "confirmation_due_at"; "entitlement_scope"].

Record EntitlementInput := {
  ei_licenseId : string; ei_app : string; ei_tier : string; ei_features : list json; ei_deviceId : string;
  ei_ttlSeconds : option Z; ei_expiresAtUnix : option Z; ei_tokenExpiresAtUnix : option Z;
  ei_licenseKind : option string; ei_entitlementStage : option string; ei_licenseIssuedAtUnix : option Z;
  ei_confirmationDueAtUnix : option (option Z) (* [Some None] is an explicit null *);
  ei_entitlementScope : option string; ei_offeredVersions : option (list Z)
}.

Record SignedFormat := {
  sf_v : Z; sf_fieldOrder : list string; sf_extraClaims : option (EntitlementInput -> list (string * json))
}.

(** The [formats] map, in insertion order. *)
Definition Formats : Type := list SignedFormat.
Definition builtin_formats : Formats := [{| sf_v := 2; sf_fieldOrder := V2_FIELD_ORDER; sf_extraClaims := None |}].
Definition format_of (formats : Formats) (v : Z) : option SignedFormat := List.find (fun f => sf_v f =? v) formats.

Inductive SignError := bad_version | already_registered | duplicate_field | missing_claims (missing : list string) | unsupported_version.

Definition registerSignedFormat (formats : Formats) (format : SignedFormat) : result SignError Formats :=
  if sf_v format <=? 2 then Err bad_version
  else if is_some (format_of formats (sf_v format)) then Err already_registered
  else if negb (length (uniq (sf_fieldOrder format)) =? length (sf_fieldOrder format))%nat then Err duplicate_field
  else let missing := List.filter (fun k => negb (existsb (String.eqb k) (sf_fieldOrder format))) V2_FIELD_ORDER in
       if negb (is_nil missing) then Err (missing_claims missing) else Ok (formats ++ [format]).

Definition resetSignedFormatsForTest (formats : Formats) : Formats := List.filter (fun f => sf_v f =? 2) formats.
Definition supportedSignedVersions (formats : Formats) : list Z := sort_stable (fun a b => b <? a) (map sf_v formats).

(** [/^\d{1,6}$/] *)
Definition version_text (p : string) : bool := all_digits p && (1 <=? String.length p)%nat && (String.length p <=? 6)%nat.
Definition parseOfferedVersions (header : option string) : option (list Z) :=
  if nonempty header then
    match header with
    | Some h =>
        let out := map (decimal 0) (List.filter version_text (map trim (split_on "," h))) in
        if is_nil out then None else Some out
    | None => None
    end
  else None.

Section Sign.
Context (formats : Formats).

Definition negotiateSignedVersion (offered : option (list Z)) : Z :=
  match offered with
  | None => 2
  | Some vs => fold_left (fun best v => if is_some (format_of formats v) && (best <? v) then v else best) vs 2
  end.

Definition opt_field (k : string) (v : option json) : list (string * json) := match v with Some j => [(k, j)] | None => [] end.
Definition jint (z : Z) : json := JNum (jsn z).

(** The claim set of [v:2], in the order of the payload literal. *)
Definition v2_claims (e : EntitlementInput) (v iat exp : Z) : list (string * json) :=
  [("v", jint v); ("id", JStr (ei_licenseId e)); ("app", JStr (ei_app e)); ("tier", JStr (ei_tier e)); ("features", JArr (ei_features e));
   ("device_id", JStr (ei_deviceId e)); ("iat", jint iat); ("exp", jint exp)] ++
  opt_field "license_kind" (if nonempty (ei_licenseKind e) then JStr <$> ei_licenseKind e else None) ++
  opt_field "entitlement_stage" (if nonempty (ei_entitlementStage e) then JStr <$> ei_entitlementStage e else None) ++
  opt_field "license_issued_at" (jint <$> ei_licenseIssuedAtUnix e) ++
  opt_field "confirmation_due_at" ((fun d => match d with Some t => jint t | None => JNull end) <$> ei_confirmationDueAtUnix e) ++
  opt_field "entitlement_scope" (if nonempty (ei_entitlementScope e) then JStr <$> ei_entitlementScope e else None).

(** [{ ...extras, v, id, ... }] *)
Definition payload (e : EntitlementInput) (v iat exp : Z) : list (string * json) :=
  let extras :=
    if 2 <? v then
      match format_of formats v with
      | Some f => match sf_extraClaims f with Some x => List.filter (fun kv => negb (existsb (String.eqb (fst kv)) V2_FIELD_ORDER)) (x e) | None => [] end
      | None => []
      end
    else [] in
  extras ++ v2_claims e v iat exp.

(** [for (const k of order) ordered[k] = src[k]]; [undefined] is not printed. *)
Definition in_order (order : list string) (src : list (string * json)) : list (string * json) :=
  omap (fun k => pair k <$> assoc_last k src) order.

Definition canonicalPayload (v : Z) (p : list (string * json)) : result SignError json :=
  match format_of formats v with
  | None => Err unsupported_version
  | Some f => Ok (JObj (in_order (sf_fieldOrder f) p))
  end.

Definition token_exp (defaultTtlSeconds : Z) (e : EntitlementInput) (iat : Z) : Z :=
  let rollingExp := iat + or_else (ei_ttlSeconds e) defaultTtlSeconds in
  match ei_tokenExpiresAtUnix e with
  | Some t => t
  | None => match ei_expiresAtUnix e with Some x => Z.min rollingExp x | None => rollingExp end
  end.

(** [signToken]: the wire form of a canonical payload, when a key is configured. *)
Context (signing : option (json -> string)) (defaultTtlSeconds : Z).

Definition signed_payload (e : EntitlementInput) (now : Z) : result SignError json :=
  let iat := unix now in
  let v := negotiateSignedVersion (ei_offeredVersions e) in
  canonicalPayload v (payload e v iat (token_exp defaultTtlSeconds e iat)).

Definition signEntitlement (e : EntitlementInput) (now : Z) : result SignError (option string) :=
  match signing with
  | None => Ok None
  | Some sign => let! p := signed_payload e now in Ok (Some (sign p))
  end.
End Sign.

(** ** The entitlement policy ([entitlement-policy.ts]) *)

Inductive EntitlementPath := path_activate | path_refresh | path_update_feed | path_lease_issue | path_lease_renew | path_storekit_link.

Inductive PolicyDecision := ALLOW | DENY_NOTFOUND | denyPlatform (reason : string).

Record PolicyLicense := { pl_id : string; pl_appKey : string; pl_status : LicenseStatus; pl_seats : Z; pl_expiresAt : option Z; pl_metadata : json }.
Record AuthorizeContext := {
  ax_path : EntitlementPath; ax_storeId : string; ax_license : PolicyLicense; ax_platform : option string; ax_pool : option string; ax_now : Z
}.

(** What a plugin registers: its hooks are the plugin's own code. *)
Record EntitlementPolicy := {
  ep_authorize : option (AuthorizeContext -> option PolicyDecision);
  ep_claims : option (EntitlementPath -> string -> json -> option string -> option string) (* the scope claim for (path, appKey, metadata, pool) *);
  ep_leaseUnlimited : option (string -> Z -> json -> string -> bool)
}.
Definition DEFAULT_ENTITLEMENT_POLICY : EntitlementPolicy := {| ep_authorize := None; ep_claims := None; ep_leaseUnlimited := None |}.

Definition entitlementPolicy (active : option EntitlementPolicy) : EntitlementPolicy := or_else active DEFAULT_ENTITLEMENT_POLICY.
Definition authorizeEntitlement (active : option EntitlementPolicy) (ctx : AuthorizeContext) : PolicyDecision :=
  match ep_authorize (entitlementPolicy active) with Some f => or_else (f ctx) ALLOW | None => ALLOW end.
Definition policyClaims (active : option EntitlementPolicy) (path : EntitlementPath) (appKey : string) (metadata : json) (pool : option string) : option string :=
  match ep_claims (entitlementPolicy active) with Some f => f path appKey metadata pool | None => None end.
Definition policyLeaseUnlimited (active : option EntitlementPolicy) (appKey : string) (seats : Z) (metadata : json) (pool : string) : bool :=
  match ep_leaseUnlimited (entitlementPolicy active) with Some f => f appKey seats metadata pool | None => false end.
