(* ===== verification/SignFacts.v ===== *)
(** What a signed entitlement may say: the version negotiated with a client
    only ever adds claims, and a token dies with its licence. *)

From S2P Require Import Prelude JsNumber Json LicensePolicy.
From Stdlib Require Import ZArith QArith Lia Bool String Ascii.
From stdpp Require Import base list strings gmap.
Local Open Scope string_scope.
Local Open Scope list_scope.
Local Open Scope Z_scope.

(** ** The registered formats *)

Inductive Registered : Formats -> Prop :=
  | reg_builtin : Registered builtin_formats
  | reg_add fs f fs' : Registered fs -> registerSignedFormat fs f = Ok fs' -> Registered fs'.

Definition carries_v2 (f : SignedFormat) : Prop := forall k, k ∈ V2_FIELD_ORDER -> k ∈ sf_fieldOrder f.

Lemma existsb_eqb_elem k l : existsb (String.eqb k) l = true <-> k ∈ l.
Proof.
  rewrite existsb_exists. split.
  - intros (x & Hx & E). apply String.eqb_eq in E as ->. by apply list_elem_of_In.
  - intros H. exists k. split; [by apply list_elem_of_In|apply String.eqb_refl].
Qed.

Lemma find_app_first {A} (p : A -> bool) l1 l2 :
  List.find p (l1 ++ l2) = match List.find p l1 with Some x => Some x | None => List.find p l2 end.
Proof. induction l1 as [|x xs IH]; cbn; [done|]. by destruct (p x). Qed.

Lemma registered_ok fs : Registered fs ->
  Forall carries_v2 fs /\ Forall (fun f => 2 <= sf_v f) fs /\ NoDup (map sf_v fs) /\ is_some (format_of fs 2) = true.
Proof.
  induction 1 as [|fs f fs' _ (IH1 & IH2 & IH3 & IH4) H].
  - split; [constructor; [by intros k|constructor]|]. split; [constructor; [cbn; lia|constructor]|]. split; [apply NoDup_singleton|done].
  - unfold registerSignedFormat in H. destruct (sf_v f <=? 2) eqn:Ev; [discriminate|].
    destruct (is_some (format_of fs (sf_v f))) eqn:Ef; [discriminate|]. destruct (negb _); [discriminate|].
    destruct (negb (is_nil _)) eqn:Em; [discriminate|]. injection H as <-. bool_props.
    split; [|split; [|split]].
    + apply Forall_app. split; [done|]. constructor; [|constructor]. intros k Hk.
      destruct (existsb (String.eqb k) (sf_fieldOrder f)) eqn:Ek; [by apply existsb_eqb_elem|].
      assert (Hin : In k (List.filter (fun k => negb (existsb (String.eqb k) (sf_fieldOrder f))) V2_FIELD_ORDER))
        by (apply filter_In; split; [by apply list_elem_of_In|by rewrite Ek]).
      destruct (List.filter _ V2_FIELD_ORDER); [done|discriminate].
    + apply Forall_app. split; [done|]. constructor; [lia|constructor].
    + apply NoDup_map_snoc; [done|]. intros Hin. apply list_elem_of_fmap in Hin as (g & E & Hg).
      unfold format_of in Ef. destruct (List.find _ fs) eqn:El; [discriminate|].
      apply list_elem_of_In in Hg. pose proof (find_none _ _ El g Hg) as N. cbn in N. apply Z.eqb_neq in N. congruence.
    + unfold format_of in *. rewrite find_app_first. revert IH4. by destruct (List.find (fun x => sf_v x =? 2) fs).
Qed.

Lemma format_of_elem fs v f : format_of fs v = Some f -> f ∈ fs /\ sf_v f = v.
Proof. intros H. apply find_elem in H as [H1 H2]. cbn in H2. apply Z.eqb_eq in H2. done. Qed.

Lemma negotiated fs offered : is_some (format_of fs 2) = true ->
  let v := negotiateSignedVersion fs offered in
  2 <= v /\ is_some (format_of fs v) = true /\ (v = 2 \/ exists vs, offered = Some vs /\ v ∈ vs).
Proof.
  intros H2. cbn zeta. destruct offered as [vs|]; cbn; [|by repeat split; auto].
  assert (G : forall l b, 2 <= b -> is_some (format_of fs b) = true ->
     let v := fold_left (fun best v => if is_some (format_of fs v) && (best <? v) then v else best) l b in
     b <= v /\ is_some (format_of fs v) = true /\ (v = b \/ v ∈ l)).
  { induction l as [|x xs IH]; intros b Hb Hs; cbn; [by repeat split; auto; lia|].
    destruct (is_some (format_of fs x) && (b <? x)) eqn:E.
    - bool_props. destruct (IH x ltac:(lia) ltac:(done)) as (I1 & I2 & I3). repeat split; [lia|done|].
      right. destruct I3 as [->|I3]; [by left|by right].
    - destruct (IH b Hb Hs) as (I1 & I2 & I3). repeat split; [lia|done|]. destruct I3 as [->|I3]; [by left|right; by right]. }
  destruct (G vs 2 ltac:(lia) H2) as (G1 & G2 & G3). split; [done|]. split; [done|].
  destruct G3 as [->|G3]; [by left|right; by exists vs].
Qed.

(** ** The canonical payload *)

Lemma assoc_last_in_order k order src :
  assoc_last k (in_order order src) = if existsb (String.eqb k) order then assoc_last k src else None.
Proof.
  unfold in_order. induction order as [|x xs IH]; [done|]. cbn [omap list_omap existsb].
  destruct (String.eqb k x) eqn:E; cbn.
  - apply String.eqb_eq in E as <-. destruct (assoc_last k src) as [v|] eqn:Ev; cbn.
    + rewrite IH, String.eqb_refl. by destruct (existsb _ xs).
    + rewrite IH. by destruct (existsb _ xs).
  - destruct (assoc_last x src); cbn; rewrite IH; rewrite ?E; by destruct (existsb _ xs), (assoc_last k src).
Qed.

Lemma assoc_last_filtered {A} k (p : string * A -> bool) l : (forall v, p (k, v) = false) -> assoc_last k (List.filter p l) = None.
Proof.
  intros H. induction l as [|[x v] l IH]; cbn; [done|]. destruct (p (x, v)) eqn:E; cbn; [|done]. rewrite IH.
  destruct (String.eqb_spec k x) as [->|]; [by rewrite H in E|done].
Qed.

Lemma payload_claim fs e v iat exp k : k ∈ V2_FIELD_ORDER -> assoc_last k (payload fs e v iat exp) = assoc_last k (v2_claims e v iat exp).
Proof.
  intros Hk. unfold payload. rewrite assoc_last_app. destruct (assoc_last k (v2_claims e v iat exp)); [done|].
  destruct (2 <? v); [|done]. destruct (format_of fs v) as [f|]; [|done]. destruct (sf_extraClaims f); [|done].
  apply assoc_last_filtered. intros w. cbn [fst]. apply existsb_eqb_elem in Hk. by rewrite Hk.
Qed.

Lemma v2_claims_version e v w iat exp k : k <> "v" -> assoc_last k (v2_claims e v iat exp) = assoc_last k (v2_claims e w iat exp).
Proof.
  intros Hk. unfold v2_claims. set (rest := opt_field "license_kind" _ ++ _). cbn [app assoc_last].
  destruct (String.eqb_spec k "v"); [done|]. done.
Qed.

Lemma v2_claims_v e v iat exp : assoc_last "v" (v2_claims e v iat exp) = Some (jint v).
Proof.
  assert (N : forall k o, k <> "v" -> assoc_last "v" (opt_field k o) = None).
  { intros k [j|] Hk; cbn [opt_field assoc_last]; [|done]. destruct (String.eqb_spec "v" k) as [E|]; [congruence|done]. }
  unfold v2_claims. rewrite !assoc_last_app, !N by discriminate. reflexivity.
Qed.

Lemma signed_payload_total fs ttl e now : Registered fs -> exists p, signed_payload fs ttl e now = Ok p.
Proof.
  intros H. destruct (registered_ok fs H) as (_ & _ & _ & H2). unfold signed_payload, canonicalPayload.
  destruct (negotiated fs (ei_offeredVersions e) H2) as (_ & Hf & _). destruct (format_of fs (negotiateSignedVersion fs (ei_offeredVersions e))); [eexists; reflexivity|discriminate Hf].
Qed.

Lemma signed_payload_field fs ttl e now p k : Registered fs -> k ∈ V2_FIELD_ORDER -> signed_payload fs ttl e now = Ok p ->
  field k p = assoc_last k (v2_claims e (negotiateSignedVersion fs (ei_offeredVersions e)) (unix now) (token_exp ttl e (unix now))).
Proof.
  intros H Hk E. unfold signed_payload, canonicalPayload in E. destruct (format_of _ _) as [f|] eqn:Ef; [|discriminate].
  apply format_of_elem in Ef as [Ef _]. injection E as <-. cbn. rewrite assoc_last_in_order.
  destruct (registered_ok fs H) as (Hc & _). rewrite Forall_forall in Hc. pose proof (Hc _ Ef k Hk) as Hin.
  apply existsb_eqb_elem in Hin. rewrite Hin. by apply payload_claim.
Qed.

(** The claims a token had before any format was registered and any version offered. *)
Definition without_offer (e : EntitlementInput) : EntitlementInput :=
  {| ei_licenseId := ei_licenseId e; ei_app := ei_app e; ei_tier := ei_tier e; ei_features := ei_features e; ei_deviceId := ei_deviceId e;
     ei_ttlSeconds := ei_ttlSeconds e; ei_expiresAtUnix := ei_expiresAtUnix e; ei_tokenExpiresAtUnix := ei_tokenExpiresAtUnix e;
     ei_licenseKind := ei_licenseKind e; ei_entitlementStage := ei_entitlementStage e; ei_licenseIssuedAtUnix := ei_licenseIssuedAtUnix e;
     ei_confirmationDueAtUnix := ei_confirmationDueAtUnix e; ei_entitlementScope := ei_entitlementScope e; ei_offeredVersions := None |}.

(** Whatever formats are registered and whatever versions a client offers, a
    token is emitted in a version the client offered (or the frozen [v:2]), and
    every other [v:2] claim, the policy scope included, has exactly the value the
    [v:2] token would have had: no format or offer weakens, drops or overrides a
    claim. *)
Theorem signed_claims_frozen (fs : Formats) (ttl : Z) (e : EntitlementInput) (now : Z) :
  Registered fs ->
  exists p p2 v, signed_payload fs ttl e now = Ok p /\ signed_payload builtin_formats ttl (without_offer e) now = Ok p2 /\
    field "v" p = Some (jint v) /\ field "v" p2 = Some (jint 2) /\
    (v = 2 \/ exists vs, ei_offeredVersions e = Some vs /\ v ∈ vs /\ is_some (format_of fs v) = true) /\
    forall k, k ∈ V2_FIELD_ORDER -> k <> "v" -> field k p = field k p2.
Proof.
  intros H. destruct (signed_payload_total fs ttl e now H) as [p Ep].
  destruct (signed_payload_total builtin_formats ttl (without_offer e) now reg_builtin) as [p2 Ep2].
  destruct (registered_ok fs H) as (_ & _ & _ & H2). destruct (negotiated fs (ei_offeredVersions e) H2) as (_ & Hf & Hv).
  assert (F : forall fs' e' q k, Registered fs' -> k ∈ V2_FIELD_ORDER -> signed_payload fs' ttl e' now = Ok q -> field k q = _)
    by (intros; eapply signed_payload_field; eauto).
  exists p, p2, (negotiateSignedVersion fs (ei_offeredVersions e)). split; [done|]. split; [done|].
  assert (V : "v" ∈ V2_FIELD_ORDER) by (apply existsb_eqb_elem; reflexivity).
  rewrite (F _ _ _ _ H V Ep), (F _ _ _ _ reg_builtin V Ep2). split; [|split; [|split]].
  - apply v2_claims_v.
  - apply v2_claims_v.
  - destruct Hv as [Hv|(vs & E & Hin)]; [by left|right; by exists vs].
  - intros k Hk Hne. rewrite (F _ _ _ _ H Hk Ep), (F _ _ _ _ reg_builtin Hk Ep2).
    rewrite (v2_claims_version _ _ (negotiateSignedVersion builtin_formats (ei_offeredVersions (without_offer e))) _ _ _ Hne). reflexivity.
Qed.

Definition sample_format : SignedFormat :=
  {| sf_v := 3; sf_fieldOrder := V2_FIELD_ORDER ++ ["org"];
     sf_extraClaims := Some (fun e => [("org", JStr "acme"); ("tier", JStr "free"); ("entitlement_scope", JStr "full")]) |}.
Definition sample_input : EntitlementInput :=
  {| ei_licenseId := "lic"; ei_app := "app"; ei_tier := "pro"; ei_features := [JStr "sync"]; ei_deviceId := "dev"; ei_ttlSeconds := None;
     ei_expiresAtUnix := Some 1000; ei_tokenExpiresAtUnix := None; ei_licenseKind := None; ei_entitlementStage := None;
     ei_licenseIssuedAtUnix := None; ei_confirmationDueAtUnix := None; ei_entitlementScope := Some "mobile"; ei_offeredVersions := Some [2; 3; 9] |}.

(** A format whose extra claims try to rewrite the tier and the scope. *)
Lemma signed_claims_frozen_witness : exists fs, Registered fs /\
  exists p p2 v, signed_payload fs 600 sample_input 5000 = Ok p /\ signed_payload builtin_formats 600 (without_offer sample_input) 5000 = Ok p2 /\
    field "v" p = Some (jint v) /\ field "v" p2 = Some (jint 2) /\
    (v = 2 \/ exists vs, ei_offeredVersions sample_input = Some vs /\ v ∈ vs /\ is_some (format_of fs v) = true) /\
    forall k, k ∈ V2_FIELD_ORDER -> k <> "v" -> field k p = field k p2.
Proof.
  exists (builtin_formats ++ [sample_format]). split.
  - apply (reg_add builtin_formats sample_format); [constructor|reflexivity].
  - apply (signed_claims_frozen (builtin_formats ++ [sample_format])). apply (reg_add builtin_formats sample_format); [constructor|reflexivity].
Defined.

Example signed_sample_version : match signed_payload (builtin_formats ++ [sample_format]) 600 sample_input 5000 with
  | Ok p => field "v" p = Some (jint 3) /\ field "exp" p = Some (jint 605) /\ field "entitlement_scope" p = Some (JStr "mobile") /\ field "org" p = Some (JStr "acme")
  | Err _ => False end.
Proof. vm_compute. auto. Qed.

(** ** Lifetimes *)

Definition default_windows : LifecycleWindows := {| lw_lifetimeConfirmationDays := None; lw_rollingTermTokenDays := None; lw_finalLifetimeExpUnix := None |}.

(** A token of a licence with a hard expiry never outlives it, whatever the
    windows: the planned boundary and the minted [exp] are at most the second the
    licence expires in; a provisional lifetime token stops at the confirmation
    date, so the final one is only planned at or after it. *)
Theorem token_never_outlives_license (createdAt : Z) (metadata : json) (now ttl : Z) (windows : LifecycleWindows) (e : EntitlementInput) :
  (forall expiresAt, lp_tokenExpiresAtUnix (planLicenseLifecycle createdAt (Some expiresAt) metadata now windows) <= unix expiresAt) /\
  (forall x, ei_tokenExpiresAtUnix e = None -> ei_expiresAtUnix e = Some x -> token_exp ttl e (unix now) <= x) /\
  (let plan := planLicenseLifecycle createdAt None metadata now windows in
   lp_licenseKind plan = kind_lifetime /\
   exists due, lp_confirmationDueAtUnix plan = Some due /\
     (lp_entitlementStage plan = stage_provisional -> unix now < due /\ lp_tokenExpiresAtUnix plan = due) /\
     (lp_entitlementStage plan = stage_final -> due <= unix now)).
Proof.
  split; [|split].
  - intros x. unfold planLicenseLifecycle. cbn. destruct (match assoc_last _ _ with Some _ => _ | None => _ end); lia.
  - intros x H1 H2. unfold token_exp. rewrite H1, H2. lia.
  - cbn zeta. unfold planLicenseLifecycle. destruct (_ <? _) eqn:E; cbn [lp_licenseKind lp_confirmationDueAtUnix lp_entitlementStage lp_tokenExpiresAtUnix];
      (split; [done|]); eexists; (split; [reflexivity|]); bool_props; split; intros; (done || lia).
Qed.

(** Renewing stacks on the remaining term, never shortens it, and restarts a lapsed one from now. *)
Lemma extend_never_shortens current days now t : 0 <= days ->
  extendEntitlement (Some current) (Some days) now = Some t -> current <= t /\ now <= t /\ t - Z.max current now = days * DAY_MS.
Proof. unfold extendEntitlement, DAY_MS. intros Hd H. injection H as <-. destruct (now <? current) eqn:E; bool_props; lia. Qed.
