(* ===== verification/Licenses.v ===== *)
(** Licences and device seats: [src/packages/api/src/licensing/{activations,
    device-leases,license-revocation,issue,mint,edit-reconcile,storekit-license,
    storekit-notifications,revocation-feed}.ts].

    One store's [license], [license_activation], [storekit_purchase] and order
    line tables. Every handler runs in one transaction that locks the licence or
    the activation it works on, so a run is a sequence of handlers; an error
    rolls back and has no state. A handler reads one clock. *)

From S2P Require Import Prelude JsNumber JsDate Json LicensePolicy.
From Stdlib Require Import ZArith QArith Lia Bool String Ascii.
From stdpp Require Import base list strings gmap.
Local Open Scope string_scope.
Local Open Scope list_scope.
Local Open Scope Z_scope.

(** ** The tables *)

Record License := {
  li_id : string; li_storeId : string; li_customerId : option string; li_orderId : option string; li_orderLineId : option string;
  li_appKey : string; li_licenseKey : string; li_status : LicenseStatus; li_source : string;
  li_issuedBy : option string; li_issueReason : option string; li_seats : Z; li_updatesUntil : option Z; li_expiresAt : option Z;
  li_metadata : json; li_createdAt : Z; li_updatedAt : Z
}.

Inductive ActivationState := st_active | st_removed | st_revoked.
#[export] Instance ActivationState_eq_dec : EqDecision ActivationState.
Proof. solve_decision. Defined.

Record Activation := {
  ac_id : string; ac_storeId : string; ac_licenseId : string; ac_appKey : string; ac_deviceIdHash : string;
  ac_tokenHash : option string; ac_deviceLabel : option string; ac_deviceClass : option string; ac_platform : option string; ac_pool : option string;
  ac_state : ActivationState; ac_generation : Z; ac_revokedAt : option Z; ac_removedAt : option Z;
  ac_leaseId : option string; ac_leaseIssuedAt : option Z; ac_leaseExpiresAt : option Z; ac_leaseGraceSeconds : option Z;
  ac_updatedAt : Z; ac_entitlementTokenVersion : option Z; ac_entitlementTokenIssuedAt : option Z; ac_activatedAt : Z; ac_lastSeenAt : Z
}.

Inductive PurchaseStatus := pu_active | pu_revoked | pu_expired.
Record StoreKitPurchase := {
  pu_id : string; pu_storeId : string; pu_licenseId : option string; pu_appKey : string; pu_environment : string; pu_bundleId : string;
  pu_productId : string; pu_originalTransactionId : string; pu_transactionId : option string; pu_customerId : option string;
  pu_status : PurchaseStatus; pu_expiresAt : option Z; pu_purchaseDate : option Z; pu_revocationDate : option Z;
  pu_lastNotificationType : option string; pu_lastNotificationUuid : option string; pu_updatedAt : Z
}.

(** An [order_line] joined with its [product_variant] (none when the line names no variant). *)
Record VariantFacts := {
  vf_fulfillmentType : string; vf_appKey : option string; vf_licenseSeats : option Z; vf_updatesDurationDays : option Z;
  vf_licenseDurationDays : option Z; vf_metafields : json
}.
Record OrderLineRow := {
  ol_id : string; ol_storeId : string; ol_orderId : string; ol_variantId : option string; ol_quantity : Z; ol_editRemovedQty : Z;
  ol_variant : option VariantFacts
}.

Record LicenseAudit := {
  au_storeId : string; au_actor : option string; au_entityId : string; au_action : string; au_fromState : LicenseStatus; au_toState : LicenseStatus;
  au_reason : option string; au_revokedActivations : option Z; au_at : Z
}.

Record LicDb := {
  db_licenses : list License; db_acts : list Activation; db_purchases : list StoreKitPurchase; db_lines : list OrderLineRow; db_audit : list LicenseAudit
}.
Definition with_licenses (d : LicDb) (l : list License) : LicDb :=
  {| db_licenses := l; db_acts := db_acts d; db_purchases := db_purchases d; db_lines := db_lines d; db_audit := db_audit d |}.
Definition with_acts (d : LicDb) (l : list Activation) : LicDb :=
  {| db_licenses := db_licenses d; db_acts := l; db_purchases := db_purchases d; db_lines := db_lines d; db_audit := db_audit d |}.
Definition with_purchases (d : LicDb) (l : list StoreKitPurchase) : LicDb :=
  {| db_licenses := db_licenses d; db_acts := db_acts d; db_purchases := l; db_lines := db_lines d; db_audit := db_audit d |}.
Definition with_audit (d : LicDb) (a : LicenseAudit) : LicDb :=
  {| db_licenses := db_licenses d; db_acts := db_acts d; db_purchases := db_purchases d; db_lines := db_lines d; db_audit := db_audit d ++ [a] |}.

Inductive LicError :=
  | constraint_violation (* raised by the database *)
  | no_provenance | lost_row | sign_error.

Definition opt_is (o : option string) (s : string) : bool := match o with Some x => String.eqb x s | None => false end.
Definition is_active (a : Activation) : bool := bool_decide (ac_state a = st_active).
Definition on_license (licenseId : string) (a : Activation) : bool := String.eqb (ac_licenseId a) licenseId.
Definition has_id (id : string) (a : Activation) : bool := String.eqb (ac_id a) id.

(** The unique index on [activation_token_hash] and [license_activation_device]. *)
Definition token_free (acts : list Activation) (id hash : string) : bool :=
  forallb (fun a => has_id id a || negb (opt_is (ac_tokenHash a) hash)) acts.
Definition device_free (acts : list Activation) (licenseId hash : string) : bool :=
  forallb (fun a => negb (on_license licenseId a && String.eqb (ac_deviceIdHash a) hash)) acts.
Definition id_free (acts : list Activation) (id : string) : bool := forallb (fun a => negb (has_id id a)) acts.

(** [UPDATE license_activation SET activation_token_hash, ... WHERE id = $id] *)
Definition update_seat (d : LicDb) (id hash : string) (f : Activation -> Activation) : result LicError LicDb :=
  if token_free (db_acts d) id hash then Ok (with_acts d (set_where (has_id id) f (db_acts d))) else Err constraint_violation.
(** [INSERT INTO license_activation] *)
Definition insert_seat (d : LicDb) (a : Activation) (hash : string) : result LicError LicDb :=
  if id_free (db_acts d) (ac_id a) && token_free (db_acts d) (ac_id a) hash && device_free (db_acts d) (ac_licenseId a) (ac_deviceIdHash a)
  then Ok (with_acts d (db_acts d ++ [a])) else Err constraint_violation.

(** *** Column updates *)

(** The lease columns of [issueDeviceLease]: [label] is [None] where the update leaves the column alone. *)
Definition lease_columns (hash platform pool deviceClass : string) (label : option (option string)) (clearRemoved : bool)
    (leaseId : string) (issuedAt expiresAt graceSeconds : Z) (a : Activation) : Activation :=
  {| ac_id := ac_id a; ac_storeId := ac_storeId a; ac_licenseId := ac_licenseId a; ac_appKey := ac_appKey a; ac_deviceIdHash := ac_deviceIdHash a;
     ac_tokenHash := Some hash; ac_deviceLabel := or_else label (ac_deviceLabel a); ac_deviceClass := Some deviceClass; ac_platform := Some platform;
     ac_pool := Some pool; ac_state := st_active; ac_generation := ac_generation a; ac_revokedAt := ac_revokedAt a;
     ac_removedAt := if clearRemoved then None else ac_removedAt a; ac_leaseId := Some leaseId; ac_leaseIssuedAt := Some issuedAt;
     ac_leaseExpiresAt := Some expiresAt; ac_leaseGraceSeconds := Some graceSeconds; ac_updatedAt := issuedAt;
     ac_entitlementTokenVersion := ac_entitlementTokenVersion a; ac_entitlementTokenIssuedAt := ac_entitlementTokenIssuedAt a;
     ac_activatedAt := ac_activatedAt a; ac_lastSeenAt := issuedAt |}.

Definition renew_columns (leaseId : string) (now expiresAt graceSeconds : Z) (a : Activation) : Activation :=
  {| ac_id := ac_id a; ac_storeId := ac_storeId a; ac_licenseId := ac_licenseId a; ac_appKey := ac_appKey a; ac_deviceIdHash := ac_deviceIdHash a;
     ac_tokenHash := ac_tokenHash a; ac_deviceLabel := ac_deviceLabel a; ac_deviceClass := ac_deviceClass a; ac_platform := ac_platform a;
     ac_pool := ac_pool a; ac_state := ac_state a; ac_generation := ac_generation a; ac_revokedAt := ac_revokedAt a;
     ac_removedAt := ac_removedAt a; ac_leaseId := Some leaseId; ac_leaseIssuedAt := Some now; ac_leaseExpiresAt := Some expiresAt;
     ac_leaseGraceSeconds := Some graceSeconds; ac_updatedAt := now; ac_entitlementTokenVersion := ac_entitlementTokenVersion a;
     ac_entitlementTokenIssuedAt := ac_entitlementTokenIssuedAt a; ac_activatedAt := ac_activatedAt a; ac_lastSeenAt := now |}.

(** A tombstone: [generation = generation + 1], and the columns the caller stamps. *)
Definition tombstone (state : ActivationState) (revokedAt removedAt : option Z) (updatedAt : option Z) (a : Activation) : Activation :=
  {| ac_id := ac_id a; ac_storeId := ac_storeId a; ac_licenseId := ac_licenseId a; ac_appKey := ac_appKey a; ac_deviceIdHash := ac_deviceIdHash a;
     ac_tokenHash := ac_tokenHash a; ac_deviceLabel := ac_deviceLabel a; ac_deviceClass := ac_deviceClass a; ac_platform := ac_platform a;
     ac_pool := ac_pool a; ac_state := state; ac_generation := ac_generation a + 1;
     ac_revokedAt := match revokedAt with Some t => Some t | None => ac_revokedAt a end;
     ac_removedAt := match removedAt with Some t => Some t | None => ac_removedAt a end;
     ac_leaseId := ac_leaseId a; ac_leaseIssuedAt := ac_leaseIssuedAt a; ac_leaseExpiresAt := ac_leaseExpiresAt a;
     ac_leaseGraceSeconds := ac_leaseGraceSeconds a; ac_updatedAt := or_else updatedAt (ac_updatedAt a);
     ac_entitlementTokenVersion := ac_entitlementTokenVersion a; ac_entitlementTokenIssuedAt := ac_entitlementTokenIssuedAt a;
     ac_activatedAt := ac_activatedAt a; ac_lastSeenAt := ac_lastSeenAt a |}.
Definition revoke_columns (now : Z) : Activation -> Activation := tombstone st_revoked (Some now) None (Some now).

(** The legacy and StoreKit re-activation: clears the tombstone, keeps the lease columns. *)
Definition reactivate_columns (hash : string) (label deviceClass pool : option string) (now : Z) (a : Activation) : Activation :=
  {| ac_id := ac_id a; ac_storeId := ac_storeId a; ac_licenseId := ac_licenseId a; ac_appKey := ac_appKey a; ac_deviceIdHash := ac_deviceIdHash a;
     ac_tokenHash := Some hash; ac_deviceLabel := label; ac_deviceClass := if nonempty deviceClass then deviceClass else ac_deviceClass a;
     ac_platform := ac_platform a; ac_pool := if nonempty pool then pool else ac_pool a; ac_state := st_active; ac_generation := ac_generation a;
     ac_revokedAt := None; ac_removedAt := None; ac_leaseId := ac_leaseId a; ac_leaseIssuedAt := ac_leaseIssuedAt a;
     ac_leaseExpiresAt := ac_leaseExpiresAt a; ac_leaseGraceSeconds := ac_leaseGraceSeconds a; ac_updatedAt := ac_updatedAt a;
     ac_entitlementTokenVersion := ac_entitlementTokenVersion a; ac_entitlementTokenIssuedAt := ac_entitlementTokenIssuedAt a;
     ac_activatedAt := ac_activatedAt a; ac_lastSeenAt := now |}.

(** The columns only a few handlers touch. *)
Definition stamp_columns (state : ActivationState) (revokedAt : option Z) (tokenVersion tokenIssuedAt : option Z) (lastSeenAt : Z) (a : Activation) : Activation :=
  {| ac_id := ac_id a; ac_storeId := ac_storeId a; ac_licenseId := ac_licenseId a; ac_appKey := ac_appKey a; ac_deviceIdHash := ac_deviceIdHash a;
     ac_tokenHash := ac_tokenHash a; ac_deviceLabel := ac_deviceLabel a; ac_deviceClass := ac_deviceClass a; ac_platform := ac_platform a;
     ac_pool := ac_pool a; ac_state := state; ac_generation := ac_generation a; ac_revokedAt := revokedAt; ac_removedAt := ac_removedAt a;
     ac_leaseId := ac_leaseId a; ac_leaseIssuedAt := ac_leaseIssuedAt a; ac_leaseExpiresAt := ac_leaseExpiresAt a;
     ac_leaseGraceSeconds := ac_leaseGraceSeconds a; ac_updatedAt := ac_updatedAt a; ac_entitlementTokenVersion := tokenVersion;
     ac_entitlementTokenIssuedAt := tokenIssuedAt; ac_activatedAt := ac_activatedAt a; ac_lastSeenAt := lastSeenAt |}.
Definition seen_at (now : Z) (a : Activation) : Activation :=
  stamp_columns (ac_state a) (ac_revokedAt a) (ac_entitlementTokenVersion a) (ac_entitlementTokenIssuedAt a) now a.

(** A new activation row of the legacy and StoreKit paths. *)
Definition new_seat (id storeId licenseId appKey deviceIdHash hash : string) (label deviceClass pool : option string) (now : Z) : Activation :=
  {| ac_id := id; ac_storeId := storeId; ac_licenseId := licenseId; ac_appKey := appKey; ac_deviceIdHash := deviceIdHash;
     ac_tokenHash := Some hash; ac_deviceLabel := label; ac_deviceClass := deviceClass; ac_platform := None; ac_pool := pool;
     ac_state := st_active; ac_generation := 0; ac_revokedAt := None; ac_removedAt := None; ac_leaseId := None; ac_leaseIssuedAt := None;
     ac_leaseExpiresAt := None; ac_leaseGraceSeconds := None; ac_updatedAt := now; ac_entitlementTokenVersion := None;
     ac_entitlementTokenIssuedAt := None; ac_activatedAt := now; ac_lastSeenAt := now |}.

(** What the process registers at boot, and the runtime's crypto. *)
Record Deployment := {
  dy_policies : Policies; dy_catalogs : Catalogs; dy_policy : option EntitlementPolicy; dy_formats : Formats;
  dy_signToken : option (json -> string) (* [signToken] of a canonical payload, when a key is configured *);
  dy_signLease : option (json -> string) (* Ed25519 over the canonical envelope *);
  dy_defaultTtlSeconds : Z;
  dy_sha256 : string -> string
}.

(** The random values one handler may draw. *)
Record Draws := { rnd_id : string; rnd_token : string; rnd_leaseId : string }.

Definition legacyDeviceClassFor (platform : string) : string :=
  if String.eqb platform "macos" then "mac"
  else if String.eqb platform "windows" then "windows"
  else if String.eqb platform "ios" || String.eqb platform "ipados" then "iphone"
  else if String.eqb platform "android" then "android"
  else if String.eqb platform "watchos" then "watch"
  else platform.

Record LeaseEnvelope := {
  le_leaseId : string; le_deviceIdHash : string; le_pool : option string; le_entitlement : option string; le_issuedAt : string; le_expiresAt : string;
  le_graceSeconds : Z; le_generation : Z; le_signature : option string; le_entitlementScope : option string
}.

Definition canonicalLeaseEnvelope (leaseId deviceIdHash : string) (pool : option string) (issuedAt expiresAt : string) (graceSeconds generation : Z) (scope : option string) : json :=
  JObj ([("leaseId", JStr leaseId); ("deviceIdHash", JStr deviceIdHash); ("pool", match pool with Some p => JStr p | None => JNull end); ("issuedAt", JStr issuedAt);
         ("expiresAt", JStr expiresAt); ("graceSeconds", jint graceSeconds); ("generation", jint generation)] ++
        opt_field "entitlementScope" (JStr <$> scope)).

(** [status = 'active'] and no hard expiry at or before [now]. *)
Definition license_live (now : Z) (l : License) : bool :=
  bool_decide (li_status l = lic_active) && match li_expiresAt l with None => true | Some t => now <? t end.
(** The same at second precision (the legacy and StoreKit paths). *)
Definition license_live_seconds (now : Z) (l : License) : bool :=
  match li_expiresAt l with None => true | Some t => negb (t / 1000 <=? now / 1000) end.

Definition key_matches (storeId appKey licenseKey : string) (l : License) : bool :=
  String.eqb (li_storeId l) storeId && String.eqb (li_licenseKey l) licenseKey && String.eqb (li_appKey l) appKey.

Definition lockActiveLicense (d : LicDb) (storeId appKey licenseKey : string) (now : Z) : option License :=
  match List.find (key_matches storeId appKey licenseKey) (db_licenses d) with
  | Some l => if license_live now l then Some l else None
  | None => None
  end.

Definition policy_license (l : License) : PolicyLicense :=
  {| pl_id := li_id l; pl_appKey := li_appKey l; pl_status := li_status l; pl_seats := li_seats l; pl_expiresAt := li_expiresAt l; pl_metadata := li_metadata l |}.

Inductive RejectReason := unknown_platform | companion_pool | policy_reason (reason : string).

Record LeaseInput := {
  in_storeId : string; in_appKey : string; in_licenseKey : string; in_deviceIdHash : string; in_platform : string;
  in_deviceLabel : option string; in_offeredVersions : option (list Z)
}.
Inductive IssueLeaseResult :=
  | lease_notfound | lease_rejected_platform (reason : RejectReason) | lease_full
  | lease_ok (lease : LeaseEnvelope) (activationId activationToken : string).

Definition active_of (d : LicDb) (licenseId : string) : list Activation :=
  List.filter (fun a => on_license licenseId a && is_active a) (db_acts d).
Definition device_row (d : LicDb) (licenseId deviceIdHash : string) : option Activation :=
  List.find (fun a => on_license licenseId a && String.eqb (ac_deviceIdHash a) deviceIdHash) (db_acts d).
Definition in_pool (pool : string) (a : Activation) : bool := opt_is (ac_pool a) pool.

Section Handlers.
Context (dy : Deployment).

(** *** [device-leases.ts] *)

Definition authorize (path : EntitlementPath) (storeId : string) (l : License) (platform pool : option string) (now : Z) : PolicyDecision :=
  authorizeEntitlement (dy_policy dy)
    {| ax_path := path; ax_storeId := storeId; ax_license := policy_license l; ax_platform := platform; ax_pool := pool; ax_now := now |}.

Definition lease_unlimited (l : License) (pool : string) : bool :=
  policyLeaseUnlimited (dy_policy dy) (li_appKey l) (li_seats l) (li_metadata l) pool ||
  ((li_seats l <=? 0) && negb (usesBoundedDevicePools (dy_policies dy) (li_appKey l) (li_seats l) (li_metadata l))).

(** [inScope.length >= cap] *)
Definition lease_full_for (l : License) (existing : list Activation) (pool : string) : bool :=
  match devicePolicyFor (dy_policies dy) (li_appKey l) with
  | Some _ => at_cap (length (List.filter (in_pool pool) existing)) (poolCap (dy_policies dy) (li_appKey l) pool)
  | None => at_cap (length existing) (Some (li_seats l))
  end.

(** [!sameDevice || (policy && sameDevice.pool !== pool)] *)
Definition takes_slot (l : License) (sameDevice : option Activation) (pool : string) : bool :=
  match sameDevice with
  | None => true
  | Some a => is_some (devicePolicyFor (dy_policies dy) (li_appKey l)) && negb (in_pool pool a)
  end.

Definition seal_lease (deviceIdHash appKey leaseId : string) (pool : option string) (l : License) (path : EntitlementPath) (offered : option (list Z))
    (now expiresAt graceSeconds generation : Z) : result LicError LeaseEnvelope :=
  let scope := policyClaims (dy_policy dy) path (li_appKey l) (li_metadata l) pool in
  let en := buildEntitlements (dy_catalogs dy) appKey (li_metadata l) in
  let! entitlement :=
    match en_tier en with
    | Some tier =>
        if nonempty (en_tier en) then
          match signEntitlement (dy_formats dy) (dy_signToken dy) (dy_defaultTtlSeconds dy)
            {| ei_licenseId := li_id l; ei_app := appKey; ei_tier := tier; ei_features := en_features en; ei_deviceId := deviceIdHash;
               ei_ttlSeconds := None; ei_expiresAtUnix := unix <$> li_expiresAt l; ei_tokenExpiresAtUnix := None; ei_licenseKind := None;
               ei_entitlementStage := None; ei_licenseIssuedAtUnix := None; ei_confirmationDueAtUnix := None;
               ei_entitlementScope := scope; ei_offeredVersions := offered |} now with
          | Ok t => Ok t
          | Err _ => Err sign_error
          end
        else Ok None
    | None => Ok None
    end in
  let envelopeScope := if nonempty scope then scope else None in
  let core := canonicalLeaseEnvelope leaseId deviceIdHash pool (toISOString now) (toISOString expiresAt) graceSeconds generation envelopeScope in
  Ok {| le_leaseId := leaseId; le_deviceIdHash := deviceIdHash; le_pool := pool; le_entitlement := entitlement; le_issuedAt := toISOString now;
        le_expiresAt := toISOString expiresAt; le_graceSeconds := graceSeconds; le_generation := generation;
        le_signature := match dy_signLease dy with Some sign => Some (sign core) | None => None end; le_entitlementScope := envelopeScope |}.

Definition hashActivationToken (token : string) : string := dy_sha256 dy token.
Definition newActivationToken (random : string) : string := "sr_act_" +:+ random.

Definition new_lease_seat (id : string) (input : LeaseInput) (licenseId hash pool leaseId : string) (now expiresAt graceSeconds : Z) : Activation :=
  lease_columns hash (in_platform input) pool (legacyDeviceClassFor (in_platform input)) (Some (in_deviceLabel input)) false leaseId now expiresAt graceSeconds
    (new_seat id (in_storeId input) licenseId (in_appKey input) (in_deviceIdHash input) hash None None None now).

(** Where the lease is written: the live row of the device, its tombstone, or a new row. *)
Definition place_lease (d : LicDb) (input : LeaseInput) (l : License) (sameDevice : option Activation) (pool hash leaseId newId : string)
    (now expiresAt graceSeconds : Z) : result LicError (LicDb * string * Z) :=
  let columns := lease_columns hash (in_platform input) pool (legacyDeviceClassFor (in_platform input)) in
  match sameDevice with
  | Some a =>
      let label := match in_deviceLabel input with Some x => Some (Some x) | None => None end in
      let! d' := update_seat d (ac_id a) hash (columns label false leaseId now expiresAt graceSeconds) in
      Ok (d', ac_id a, ac_generation a)
  | None =>
      match device_row d (li_id l) (in_deviceIdHash input) with
      | Some a =>
          let! d' := update_seat d (ac_id a) hash (columns (Some (in_deviceLabel input)) true leaseId now expiresAt graceSeconds) in
          Ok (d', ac_id a, ac_generation a)
      | None =>
          let! d' := insert_seat d (new_lease_seat newId input (li_id l) hash pool leaseId now expiresAt graceSeconds) hash in
          Ok (d', newId, 0)
      end
  end.

Definition issueDeviceLease (d : LicDb) (input : LeaseInput) (rnd : Draws) (now : Z) : result LicError (IssueLeaseResult * LicDb) :=
  match derivePool (dy_policies dy) (in_appKey input) (in_platform input) with
  | None => Ok (lease_rejected_platform unknown_platform, d)
  | Some pool =>
    if negb (nonempty (Some pool)) then Ok (lease_rejected_platform unknown_platform, d)
    else if negb (leasablePool (dy_policies dy) (in_appKey input) pool) then Ok (lease_rejected_platform companion_pool, d)
    else
      match lockActiveLicense d (in_storeId input) (in_appKey input) (in_licenseKey input) now with
      | None => Ok (lease_notfound, d)
      | Some l =>
        match authorize path_lease_issue (in_storeId input) l (Some (in_platform input)) (Some pool) now with
        | DENY_NOTFOUND => Ok (lease_notfound, d)
        | denyPlatform reason => Ok (lease_rejected_platform (policy_reason reason), d)
        | ALLOW =>
          let existing := active_of d (li_id l) in
          let sameDevice := List.find (fun a => String.eqb (ac_deviceIdHash a) (in_deviceIdHash input)) existing in
          if takes_slot l sameDevice pool && negb (lease_unlimited l pool) && lease_full_for l existing pool then Ok (lease_full, d)
          else
            let token := newActivationToken (rnd_token rnd) in
            let expiresAt := now + leaseTtlSecondsFor (dy_policies dy) (li_appKey l) * 1000 in
            let graceSeconds := leaseGraceSecondsFor (dy_policies dy) (li_appKey l) in
            let! (d', activationId, generation) :=
              place_lease d input l sameDevice pool (hashActivationToken token) (rnd_leaseId rnd) (rnd_id rnd) now expiresAt graceSeconds in
            let! lease := seal_lease (in_deviceIdHash input) (in_appKey input) (rnd_leaseId rnd) (Some pool) l path_lease_issue (in_offeredVersions input)
                            now expiresAt graceSeconds generation in
            Ok (lease_ok lease activationId token, d')
        end
      end
  end.

Inductive RenewLeaseResult := renew_notfound | renew_revoked | renew_ok (lease : LeaseEnvelope).

Definition lease_matches (storeId appKey deviceIdHash leaseId : string) (a : Activation) : bool :=
  String.eqb (ac_storeId a) storeId && String.eqb (ac_appKey a) appKey && String.eqb (ac_deviceIdHash a) deviceIdHash && opt_is (ac_leaseId a) leaseId.
Definition license_by_id (d : LicDb) (id : string) : option License := List.find (fun l => String.eqb (li_id l) id) (db_licenses d).

Definition renewDeviceLease (d : LicDb) (storeId appKey deviceIdHash leaseId : string) (offered : option (list Z)) (newLeaseId : string) (now : Z)
    : result LicError (RenewLeaseResult * LicDb) :=
  match List.find (lease_matches storeId appKey deviceIdHash leaseId) (db_acts d) with
  | None => Ok (renew_notfound, d)
  | Some a =>
      if negb (is_active a) then Ok (renew_revoked, d)
      else match license_by_id d (ac_licenseId a) with
      | None => Ok (renew_revoked, d)
      | Some l =>
          if negb (license_live now l) then Ok (renew_revoked, d)
          else match authorize path_lease_renew storeId l None (ac_pool a) now with
          | DENY_NOTFOUND | denyPlatform _ => Ok (renew_revoked, d)
          | ALLOW =>
              let expiresAt := now + leaseTtlSecondsFor (dy_policies dy) (li_appKey l) * 1000 in
              let graceSeconds := leaseGraceSecondsFor (dy_policies dy) (li_appKey l) in
              let! lease := seal_lease deviceIdHash (li_appKey l) newLeaseId (ac_pool a) l path_lease_renew offered now expiresAt graceSeconds (ac_generation a) in
              Ok (renew_ok lease, with_acts d (set_where (has_id (ac_id a)) (renew_columns newLeaseId now expiresAt graceSeconds) (db_acts d)))
          end
      end
  end.

Definition revokeDeviceRemote (d : LicDb) (storeId licenseId activationId : string) (now : Z) : bool * LicDb :=
  let matching := fun a => has_id activationId a && String.eqb (ac_storeId a) storeId && on_license licenseId a in
  (existsb matching (db_acts d), with_acts d (set_where matching (revoke_columns now) (db_acts d))).

Definition removeDeviceOffline (d : LicDb) (storeId appKey deviceIdHash leaseId : string) (now : Z) : LicDb :=
  with_acts d (set_where (fun a => lease_matches storeId appKey deviceIdHash leaseId a && is_active a)
                 (tombstone st_removed None (Some now) (Some now)) (db_acts d)).

(** *** [activations.ts] *)

Definition storedPool (a : Activation) : option string :=
  if nonempty (ac_pool a) then ac_pool a
  else if opt_is (ac_deviceClass a) "mac" || opt_is (ac_deviceClass a) "windows" || opt_is (ac_deviceClass a) "desktop" then Some "computer"
  else if opt_is (ac_deviceClass a) "iphone" || opt_is (ac_deviceClass a) "android" then Some "mobile"
  else None.

Record ActivateInput := {
  av_storeId : string; av_appKey : string; av_licenseKey : string; av_deviceId : string; av_deviceLabel : option string; av_activationSource : option string
}.
Inductive ActivateResult :=
  | act_notfound | act_rejected_platform (reason : string) | act_full | act_ok (lic : License) (activationId activationToken : string).

Definition rows_of (d : LicDb) (licenseId : string) : list Activation := List.filter (on_license licenseId) (db_acts d).

(** The flat cap: [!unlimited && !sameDeviceLive && activeExisting.length >= lic.seats]. *)
Definition flat_full (d : LicDb) (l : License) (live : bool) : bool :=
  negb (li_seats l <=? 0) && negb live && (li_seats l <=? Z.of_nat (length (List.filter is_active (rows_of d (li_id l))))).

(** The pool cap, checked when the device takes a slot of [pool]. *)
Definition pool_full (d : LicDb) (appKey : string) (l : License) (sameDevice : option Activation) (live : bool) (pool : option string) : bool :=
  match pool with
  | Some p =>
      if usesBoundedDevicePools (dy_policies dy) appKey (li_seats l) (li_metadata l) && nonempty pool then
        let sameDevicePool := match sameDevice with Some a => storedPool a | None => None end in
        let movingPool := negb (bool_decide (sameDevicePool = pool)) in
        let others := List.filter (fun a => is_active a && match sameDevice with Some s => negb (has_id (ac_id s) a) | None => true end &&
                                            bool_decide (storedPool a = pool)) (rows_of d (li_id l)) in
        (negb live || movingPool) && at_cap (length others) (poolCap (dy_policies dy) appKey p)
      else false
  | None => false
  end.

Definition deriveDeviceClassAndPool (appKey source : string) : option ActivationSource := activationSourceDefaults (dy_policies dy) appKey source.

Definition activateLicenseOnDevice (d : LicDb) (input : ActivateInput) (rnd : Draws) (now : Z) : result LicError (ActivateResult * LicDb) :=
  match List.find (key_matches (av_storeId input) (av_appKey input) (av_licenseKey input)) (db_licenses d) with
  | None => Ok (act_notfound, d)
  | Some l =>
      if negb (bool_decide (li_status l = lic_active)) then Ok (act_notfound, d)
      else match authorize path_activate (av_storeId input) l None None now with
      | denyPlatform reason => Ok (act_rejected_platform reason, d)
      | DENY_NOTFOUND => Ok (act_notfound, d)
      | ALLOW =>
          if negb (license_live_seconds now l) then Ok (act_notfound, d)
          else
            let deviceIdHash := dy_sha256 dy (av_deviceId input) in
            let token := newActivationToken (rnd_token rnd) in
            let hash := hashActivationToken token in
            let sameDevice := device_row d (li_id l) deviceIdHash in
            let live := match sameDevice with Some a => is_active a | None => false end in
            let derived := match devicePolicyFor (dy_policies dy) (av_appKey input) with
                           | Some _ => deriveDeviceClassAndPool (av_appKey input) (or_else (av_activationSource input) "desktop")
                           | None => None
                           end in
            let deviceClass := src_deviceClass <$> derived in
            let pool := src_pool <$> derived in
            if flat_full d l live then Ok (act_full, d)
            else if pool_full d (av_appKey input) l sameDevice live pool then Ok (act_full, d)
            else match sameDevice with
            | Some a =>
                let! d' := update_seat d (ac_id a) hash (reactivate_columns hash (av_deviceLabel input) deviceClass pool now) in
                Ok (act_ok l (ac_id a) token, d')
            | None =>
                let! d' := insert_seat d (new_seat (rnd_id rnd) (av_storeId input) (li_id l) (av_appKey input) deviceIdHash hash
                                            (av_deviceLabel input) deviceClass pool now) hash in
                Ok (act_ok l (rnd_id rnd) token, d')
            end
      end
  end.

(** The row of a token hash joined with its licence. *)
Definition token_row (d : LicDb) (appKey hash : string) (a : Activation) : option (Activation * License) :=
  if opt_is (ac_tokenHash a) hash && String.eqb (ac_appKey a) appKey && is_active a then
    match license_by_id d (ac_licenseId a) with
    | Some l => if String.eqb (li_appKey l) appKey then Some (a, l) else None
    | None => None
    end
  else None.
Definition findActivationByToken (d : LicDb) (appKey token : string) (deviceId : option string) (path : EntitlementPath) (now : Z)
    : option (Activation * License) * LicDb :=
  match omap (token_row d appKey (hashActivationToken token)) (db_acts d) with
  | [] => (None, d)
  | (a, l) :: _ =>
      if negb (bool_decide (li_status l = lic_active)) then (None, d)
      else match authorize path (li_storeId l) l None (ac_pool a) now with
      | DENY_NOTFOUND | denyPlatform _ => (None, d)
      | ALLOW =>
          if negb (license_live_seconds now l) then (None, d)
          else if nonempty deviceId && negb (String.eqb (ac_deviceIdHash a) (dy_sha256 dy (or_else deviceId ""))) then (None, d)
          else (Some (a, l), with_acts d (set_where (has_id (ac_id a)) (seen_at now) (db_acts d)))
      end
  end.

Definition deactivateDevice (d : LicDb) (appKey token : string) : LicDb :=
  let hash := hashActivationToken token in
  with_acts d (List.filter (fun a => negb (opt_is (ac_tokenHash a) hash && String.eqb (ac_appKey a) appKey)) (db_acts d)).

(** The licence of an activation, joined on the app key as well. *)
Definition join_license (d : LicDb) (a : Activation) : option License :=
  List.find (fun l => String.eqb (li_id l) (ac_licenseId a) && String.eqb (li_appKey l) (ac_appKey a)) (db_licenses d).
Definition issuable (d : LicDb) (activationId appKey : string) (now : Z) (a : Activation) : bool :=
  has_id activationId a && String.eqb (ac_appKey a) appKey && is_active a &&
  match join_license d a with Some l => license_live now l | None => false end.

Definition recordCanonicalEntitlementIssuance (d : LicDb) (activationId appKey : string) (now : Z) : bool * LicDb :=
  if negb (length (List.filter (issuable d activationId appKey now) (db_acts d)) =? 1)%nat then (false, d)
  else (true, with_acts d (set_where (fun a => has_id activationId a && String.eqb (ac_appKey a) appKey)
                             (fun a => stamp_columns (ac_state a) (ac_revokedAt a) (Some 2) (Some now) (ac_lastSeenAt a) a) (db_acts d))).

Record EntitlementIssuanceInventory := { inv_canonicalV2 : Z; inv_legacyOrUnknown : Z; inv_canRemoveLegacyVerifier : bool }.

Definition getEntitlementIssuanceInventory (d : LicDb) (appKey : option string) (now : Z) : EntitlementIssuanceInventory :=
  let rows := List.filter (fun a => (if nonempty appKey then opt_is appKey (ac_appKey a) else true) &&
                                    match join_license d a with Some l => license_live now l | None => false end) (db_acts d) in
  let canonical := fun a => bool_decide (ac_entitlementTokenVersion a = Some 2) && is_some (ac_entitlementTokenIssuedAt a) in
  let legacy := Z.of_nat (length (List.filter (fun a => negb (canonical a)) rows)) in
  {| inv_canonicalV2 := Z.of_nat (length (List.filter canonical rows)); inv_legacyOrUnknown := legacy; inv_canRemoveLegacyVerifier := legacy =? 0 |}.

(** *** Issuance ([issue.ts], [mint.ts]) *)

Definition license_free (d : LicDb) (l : License) : bool :=
  forallb (fun m => negb (String.eqb (li_id m) (li_id l)) && negb (String.eqb (li_appKey m) (li_appKey l) && String.eqb (li_licenseKey m) (li_licenseKey l)))
    (db_licenses d).
Definition insert_license (d : LicDb) (l : License) : result LicError LicDb :=
  if license_free d l then Ok (with_licenses d (db_licenses d ++ [l])) else Err constraint_violation.

Definition newLicenseKey (appKey random : string) : string := "SR-" +:+ to_upper appKey +:+ "-" +:+ random.

(** The order's lines joined with their variants, at their billed quantities. *)
Definition grant_lines (d : LicDb) (orderId : string) : list LicenseGrantInput :=
  omap (fun ol =>
    if String.eqb (ol_orderId ol) orderId then
      match ol_variant ol with
      | Some v => Some {| gi_orderLineId := ol_id ol; gi_quantity := ol_quantity ol - ol_editRemovedQty ol; gi_fulfillmentType := vf_fulfillmentType v;
                          gi_appKey := vf_appKey v; gi_licenseSeats := vf_licenseSeats v; gi_updatesDurationDays := vf_updatesDurationDays v;
                          gi_licenseDurationDays := vf_licenseDurationDays v; gi_metadata := vf_metafields v |}
      | None => None
      end
    else None) (db_lines d).

Definition issued_for (d : LicDb) (lineId : string) : nat := length (List.filter (fun l => opt_is (li_orderLineId l) lineId) (db_licenses d)).

(** [grants.filter(...)] over the [remaining] map: each licence on file absorbs one grant of its line. *)
Fixpoint shortfall (remaining : string -> nat) (grants : list LicenseGrant) : list LicenseGrant :=
  match grants with
  | [] => []
  | g :: gs =>
      if (0 <? remaining (gr_orderLineId g))%nat
      then shortfall (fun id => if String.eqb id (gr_orderLineId g) then Nat.pred (remaining id) else remaining id) gs
      else g :: shortfall remaining gs
  end.

Definition grant_metadata (patch : option (list (string * json))) (g : LicenseGrant) : json :=
  let base := withCurrentDevicePolicy (dy_policies dy) (gr_appKey g) (gr_metadata g) in
  match patch with
  | Some p => JObj (merge_fields (match base with JObj fs => fs | _ => [] end) p)
  | None => base
  end.

Definition seats_for (appKey : string) (seats : Z) : Z :=
  match devicePolicyFor (dy_policies dy) appKey with Some p => if dp_pooledSeats p then 0 else seats | None => seats end.

Definition license_of_grant (storeId orderId : string) (customerId : option string) (patch : option (list (string * json))) (id random : string) (now : Z)
    (g : LicenseGrant) : License :=
  {| li_id := id; li_storeId := storeId; li_customerId := customerId; li_orderId := Some orderId; li_orderLineId := Some (gr_orderLineId g);
     li_appKey := gr_appKey g; li_licenseKey := newLicenseKey (gr_appKey g) random; li_status := lic_active; li_source := "order";
     li_issuedBy := None; li_issueReason := None; li_seats := seats_for (gr_appKey g) (gr_seats g); li_updatesUntil := gr_updatesUntil g;
     li_expiresAt := gr_expiresAt g; li_metadata := grant_metadata patch g; li_createdAt := now; li_updatedAt := now |}.

(** [draw i] is the (row id, key suffix) of the i-th row of the statement. *)
Fixpoint insert_grants (d : LicDb) (storeId orderId : string) (customerId : option string) (patch : option (list (string * json)))
    (draw : nat -> string * string) (i : nat) (now : Z) (grants : list LicenseGrant) : result LicError LicDb :=
  match grants with
  | [] => Ok d
  | g :: gs =>
      let! d' := insert_license d (license_of_grant storeId orderId customerId patch (fst (draw i)) (snd (draw i)) now g) in
      insert_grants d' storeId orderId customerId patch draw (S i) now gs
  end.

(** [gate]: [None] when there is none, else its verdict ([Some None] refuses). *)
Definition issueLicensesForPaidOrder (d : LicDb) (storeId orderId : string) (customerId : option string) (paidAt : option Z)
    (gate : option (option (option (list (string * json))))) (draw : nat -> string * string) (now : Z) : result LicError (nat * LicDb) :=
  let grants := buildLicenseGrants (grant_lines d orderId) (or_else paidAt now) in
  let toIssue := shortfall (issued_for d) grants in
  if is_nil toIssue then Ok (O, d)
  else match gate with
  | Some None => Ok (O, d)
  | _ =>
      let patch := match gate with Some (Some p) => p | _ => None end in
      let! d' := insert_grants d storeId orderId customerId patch draw 0 now toIssue in
      Ok (length toIssue, d')
  end.

Definition applyLicenseMetadataPatch (d : LicDb) (storeId orderId : string) (patch : list (string * json)) : nat * LicDb :=
  let matching := fun l => String.eqb (li_storeId l) storeId && opt_is (li_orderId l) orderId in
  (length (List.filter matching (db_licenses d)),
   with_licenses d (set_where matching (fun l =>
     {| li_id := li_id l; li_storeId := li_storeId l; li_customerId := li_customerId l; li_orderId := li_orderId l; li_orderLineId := li_orderLineId l;
        li_appKey := li_appKey l; li_licenseKey := li_licenseKey l; li_status := li_status l; li_source := li_source l; li_issuedBy := li_issuedBy l;
        li_issueReason := li_issueReason l; li_seats := li_seats l; li_updatesUntil := li_updatesUntil l; li_expiresAt := li_expiresAt l;
        li_metadata := JObj (merge_fields (metadataRecord (li_metadata l)) patch); li_createdAt := li_createdAt l; li_updatedAt := li_updatedAt l |})
     (db_licenses d))).

Record MintInput := {
  mi_storeId : string; mi_appKey : string; mi_seats : Z; mi_updatesUntil : option Z; mi_expiresAt : option Z; mi_customerId : option string;
  mi_licenseKey : option string; mi_metadata : json; mi_issuedBy : string; mi_reason : string
}.
Definition blank (s : string) : bool := negb (nonempty (Some (trim s))).

Definition mintLicense (d : LicDb) (input : MintInput) (id random : string) (now : Z) : result LicError ((string * string) * LicDb) :=
  if blank (mi_issuedBy input) || blank (mi_reason input) then Err no_provenance
  else
    let licenseKey := or_else (mi_licenseKey input) (newLicenseKey (mi_appKey input) random) in
    let! d' := insert_license d
      {| li_id := id; li_storeId := mi_storeId input; li_customerId := mi_customerId input; li_orderId := None; li_orderLineId := None;
         li_appKey := mi_appKey input; li_licenseKey := licenseKey; li_status := lic_active; li_source := "admin";
         li_issuedBy := Some (mi_issuedBy input); li_issueReason := Some (mi_reason input); li_seats := seats_for (mi_appKey input) (mi_seats input);
         li_updatesUntil := mi_updatesUntil input; li_expiresAt := mi_expiresAt input;
         li_metadata := withCurrentDevicePolicy (dy_policies dy) (mi_appKey input) (mi_metadata input); li_createdAt := now; li_updatedAt := now |} in
    Ok ((id, licenseKey), d').
End Handlers.

(** *** Revocation ([license-revocation.ts], [revocation-feed.ts]) *)

Definition with_status (status : LicenseStatus) (expiresAt updatesUntil : option Z) (now : Z) (l : License) : License :=
  {| li_id := li_id l; li_storeId := li_storeId l; li_customerId := li_customerId l; li_orderId := li_orderId l; li_orderLineId := li_orderLineId l;
     li_appKey := li_appKey l; li_licenseKey := li_licenseKey l; li_status := status; li_source := li_source l; li_issuedBy := li_issuedBy l;
     li_issueReason := li_issueReason l; li_seats := li_seats l; li_updatesUntil := updatesUntil; li_expiresAt := expiresAt;
     li_metadata := li_metadata l; li_createdAt := li_createdAt l; li_updatedAt := now |}.
Definition set_status (status : LicenseStatus) (now : Z) (l : License) : License := with_status status (li_expiresAt l) (li_updatesUntil l) now l.
Definition is_license (storeId licenseId : string) (l : License) : bool := String.eqb (li_id l) licenseId && String.eqb (li_storeId l) storeId.
Definition lockLicense (d : LicDb) (storeId licenseId : string) : option License := List.find (is_license storeId licenseId) (db_licenses d).

Inductive LicenseRevokeOutcome := revoke_ok (changed : bool) (revokedActivationIds : list string) | revoke_notfound.
Inductive LicenseRestoreOutcome := restore_ok (changed : bool) | restore_notfound | restore_refused_expired.

Definition revokeLicenseInTx (d : LicDb) (storeId licenseId : string) (actor reason : option string) (now : Z) : LicenseRevokeOutcome * LicDb :=
  match lockLicense d storeId licenseId with
  | None => (revoke_notfound, d)
  | Some l =>
      if bool_decide (li_status l = lic_revoked) then (revoke_ok false [], d)
      else
        let hit := fun a => String.eqb (ac_storeId a) storeId && on_license licenseId a && is_active a in
        let ids := map ac_id (List.filter hit (db_acts d)) in
        let d1 := with_licenses d (set_where (is_license storeId licenseId) (set_status lic_revoked now) (db_licenses d)) in
        let d2 := with_acts d1 (set_where hit (revoke_columns now) (db_acts d1)) in
        (revoke_ok true ids,
         with_audit d2 {| au_storeId := storeId; au_actor := actor; au_entityId := licenseId; au_action := "revoke"; au_fromState := li_status l;
                          au_toState := lic_revoked; au_reason := reason; au_revokedActivations := Some (Z.of_nat (length ids)); au_at := now |})
  end.

Definition restoreLicenseInTx (d : LicDb) (storeId licenseId : string) (actor reason : option string) (now : Z) : LicenseRestoreOutcome * LicDb :=
  match lockLicense d storeId licenseId with
  | None => (restore_notfound, d)
  | Some l =>
      if bool_decide (li_status l = lic_active) then (restore_ok false, d)
      else if match li_expiresAt l with Some t => t <=? now | None => false end then (restore_refused_expired, d)
      else
        (restore_ok true,
         with_audit (with_licenses d (set_where (is_license storeId licenseId) (set_status lic_active now) (db_licenses d)))
           {| au_storeId := storeId; au_actor := actor; au_entityId := licenseId; au_action := "restore"; au_fromState := li_status l;
              au_toState := lic_active; au_reason := reason; au_revokedActivations := None; au_at := now |})
  end.

(** The ids of the tenant's revoked licences, ascending. *)
Definition revocation_feed (d : LicDb) (storeId : string) : list string :=
  sort_stable str_after (map li_id (List.filter (fun l => String.eqb (li_storeId l) storeId && bool_decide (li_status l = lic_revoked)) (db_licenses d))).

(** *** Order edits ([edit-reconcile.ts]) *)

Record ProposedLine := { pr_id : string; pr_variantId : option string; pr_quantity : Z }.

Definition order_issued (storeId orderId : string) (l : License) : bool :=
  String.eqb (li_storeId l) storeId && opt_is (li_orderId l) orderId && String.eqb (li_source l) "order".
Definition live_on_line (rows : list License) (lineId : string) : Z :=
  Z.of_nat (length (List.filter (fun l => opt_is (li_orderLineId l) lineId && negb (bool_decide (li_status l = lic_revoked))) rows)).
(** The last entry of a [Map] built from pairs wins. *)
Definition map_find {A} (key : A -> string) (k : string) (l : list A) : option A := List.find (fun x => String.eqb (key x) k) (rev l).

Definition line_violates (d : LicDb) (storeId orderId : string) (rows : list License) (proposed : list ProposedLine) (lineId : string) : bool :=
  let lines := List.filter (fun ol => String.eqb (ol_storeId ol) storeId && String.eqb (ol_orderId ol) orderId) (db_lines d) in
  let live := live_on_line rows lineId in
  let p := map_find pr_id lineId proposed in
  let repointed := match p, map_find ol_id lineId lines with
                   | Some p, Some ol => negb (bool_decide (ol_variantId ol = pr_variantId p))
                   | _, _ => false
                   end in
  repointed || ((0 <? live) && match p with None => true | Some p => pr_quantity p <? live end).

Definition licensedLineEditViolations (d : LicDb) (storeId orderId : string) (proposed : list ProposedLine) : list string :=
  let rows := List.filter (fun l => order_issued storeId orderId l && is_some (li_orderLineId l)) (db_licenses d) in
  List.filter (line_violates d storeId orderId rows proposed) (uniq (omap li_orderLineId rows)).

Definition stranded (d : LicDb) (storeId orderId : string) (l : License) : bool :=
  order_issued storeId orderId l && negb (bool_decide (li_status l = lic_revoked)) &&
  existsb (fun ol => opt_is (li_orderLineId l) (ol_id ol) && String.eqb (ol_storeId ol) storeId && (ol_quantity ol - ol_editRemovedQty ol <=? 0)) (db_lines d).

Definition reconcileEditedOrderLicenses (dy : Deployment) (d : LicDb) (storeId orderId : string) (customerId : option string) (paidAt : option Z)
    (gate : option (option (option (list (string * json))))) (draw : nat -> string * string) (now : Z) : result LicError ((nat * nat) * LicDb) :=
  let revokedIds := map li_id (List.filter (stranded d storeId orderId) (db_licenses d)) in
  let d1 := with_licenses d (set_where (stranded d storeId orderId) (set_status lic_revoked now) (db_licenses d)) in
  let d2 := with_acts d1 (set_where (fun a => String.eqb (ac_storeId a) storeId && existsb (String.eqb (ac_licenseId a)) revokedIds && is_active a)
                            (revoke_columns now) (db_acts d1)) in
  let! (issued, d3) := issueLicensesForPaidOrder dy d2 storeId orderId customerId paidAt gate draw now in
  Ok ((issued, length revokedIds), d3).

(** *** StoreKit ([storekit-license.ts], [storekit-notifications.ts]) *)

Record VerifiedStoreKitLicenseSource := {
  sk_originalTransactionId : string; sk_transactionId : option string; sk_bundleId : string; sk_environment : string; sk_productId : option string;
  sk_purchaseDate : option Z; sk_expiresDate : option Z
}.
Record StoreKitProductEntitlement := { se_tier : option string; se_seats : option Z; se_licenseDurationDays : option Z; se_updatesDurationDays : option Z }.

(** [input.entitlement ?? {}]: an absent entry has no field. *)
Definition no_entitlement : StoreKitProductEntitlement := {| se_tier := None; se_seats := None; se_licenseDurationDays := None; se_updatesDurationDays := None |}.

Definition storeKitLicenseKey (dy : Deployment) (appKey : string) (source : VerifiedStoreKitLicenseSource) : string :=
  "SK-" +:+ String.substring 0 32 (to_upper (dy_sha256 dy (appKey +:+ ":" +:+ sk_environment source +:+ ":" +:+ sk_originalTransactionId source))).

Definition purchase_matches (storeId environment originalTransactionId : string) (p : StoreKitPurchase) : bool :=
  String.eqb (pu_storeId p) storeId && String.eqb (pu_environment p) environment && String.eqb (pu_originalTransactionId p) originalTransactionId.

Definition with_owner (customerId : string) (now : Z) (l : License) : License :=
  {| li_id := li_id l; li_storeId := li_storeId l; li_customerId := Some customerId; li_orderId := li_orderId l; li_orderLineId := li_orderLineId l;
     li_appKey := li_appKey l; li_licenseKey := li_licenseKey l; li_status := li_status l; li_source := li_source l; li_issuedBy := li_issuedBy l;
     li_issueReason := li_issueReason l; li_seats := li_seats l; li_updatesUntil := li_updatesUntil l; li_expiresAt := li_expiresAt l;
     li_metadata := li_metadata l; li_createdAt := li_createdAt l; li_updatedAt := now |}.
Definition purchase_columns (licenseId customerId : option string) (now : Z) (p : StoreKitPurchase) : StoreKitPurchase :=
  {| pu_id := pu_id p; pu_storeId := pu_storeId p; pu_licenseId := licenseId; pu_appKey := pu_appKey p; pu_environment := pu_environment p;
     pu_bundleId := pu_bundleId p; pu_productId := pu_productId p; pu_originalTransactionId := pu_originalTransactionId p;
     pu_transactionId := pu_transactionId p; pu_customerId := customerId; pu_status := pu_status p; pu_expiresAt := pu_expiresAt p;
     pu_purchaseDate := pu_purchaseDate p; pu_revocationDate := pu_revocationDate p; pu_lastNotificationType := pu_lastNotificationType p;
     pu_lastNotificationUuid := pu_lastNotificationUuid p; pu_updatedAt := now |}.
Definition purchase_id (id : string) (p : StoreKitPurchase) : bool := String.eqb (pu_id p) id.

Inductive EnsureResult := ensure_ok (id licenseKey : string) | account_conflict.

Record EnsureInput := {
  es_storeId : string; es_appKey : string; es_source : VerifiedStoreKitLicenseSource; es_entitlement : option StoreKitProductEntitlement; es_customerId : option string
}.

Definition storekit_license (dy : Deployment) (input : EnsureInput) (id : string) (now : Z) : License :=
  let src := es_source input in
  let ent := or_else (es_entitlement input) no_entitlement in
  let expiresAt := match sk_expiresDate src with Some t => Some t | None => addDays now (se_licenseDurationDays ent) end in
  let updatesUntil := match se_updatesDurationDays ent with Some _ => addDays now (se_updatesDurationDays ent) | None => expiresAt end in
  {| li_id := id; li_storeId := es_storeId input; li_customerId := es_customerId input; li_orderId := None; li_orderLineId := None;
     li_appKey := es_appKey input; li_licenseKey := storeKitLicenseKey dy (es_appKey input) src; li_status := lic_active; li_source := "storekit";
     li_issuedBy := None; li_issueReason := None; li_seats := or_else (se_seats ent) 0; li_updatesUntil := updatesUntil; li_expiresAt := expiresAt;
     li_metadata := JObj [("tier", JStr (or_else (se_tier ent) "pro")); ("storekit_original_transaction_id", JStr (sk_originalTransactionId src));
                          ("storekit_bundle_id", JStr (sk_bundleId src)); ("storekit_environment", JStr (sk_environment src));
                          ("storekit_product_id", match sk_productId src with Some p => JStr p | None => JNull end)];
     li_createdAt := now; li_updatedAt := now |}.

(** [.onConflictDoNothing()] *)
Definition insert_license_once (d : LicDb) (l : License) : LicDb := if license_free d l then with_licenses d (db_licenses d ++ [l]) else d.
Definition insert_purchase_once (d : LicDb) (p : StoreKitPurchase) : LicDb :=
  if existsb (fun q => purchase_matches (pu_storeId p) (pu_environment p) (pu_originalTransactionId p) q || String.eqb (pu_id q) (pu_id p)) (db_purchases d)
  then d else with_purchases d (db_purchases d ++ [p]).

Definition storekit_purchase (input : EnsureInput) (licenseId : string) (expiresAt : option Z) (id : string) (now : Z) : StoreKitPurchase :=
  let src := es_source input in
  {| pu_id := id; pu_storeId := es_storeId input; pu_licenseId := Some licenseId; pu_appKey := es_appKey input; pu_environment := sk_environment src;
     pu_bundleId := sk_bundleId src; pu_productId := or_else (sk_productId src) ""; pu_originalTransactionId := sk_originalTransactionId src;
     pu_transactionId := sk_transactionId src; pu_customerId := es_customerId input; pu_status := pu_active; pu_expiresAt := expiresAt;
     pu_purchaseDate := sk_purchaseDate src; pu_revocationDate := None; pu_lastNotificationType := None; pu_lastNotificationUuid := None; pu_updatedAt := now |}.

Definition ensureStoreKitLicense (dy : Deployment) (d : LicDb) (input : EnsureInput) (licenseRowId purchaseRowId : string) (now : Z)
    : result LicError (EnsureResult * LicDb) :=
  let src := es_source input in
  let fresh := storekit_license dy input licenseRowId now in
  let licenseKey := li_licenseKey fresh in
  let d1 := insert_license_once d fresh in
  match List.find (fun l => String.eqb (li_licenseKey l) licenseKey && String.eqb (li_appKey l) (es_appKey input)) (db_licenses d1) with
  | None => Err lost_row
  | Some lic =>
      let d2 := insert_purchase_once d1 (storekit_purchase input (li_id lic) (li_expiresAt fresh) purchaseRowId now) in
      match List.find (purchase_matches (es_storeId input) (sk_environment src) (sk_originalTransactionId src)) (db_purchases d2) with
      | None => Err lost_row
      | Some purchase =>
          let relink := fun p => purchase_id (pu_id purchase) p && negb (is_some (pu_licenseId p)) in
          let d3 := with_purchases d2 (set_where relink (fun p => purchase_columns (Some (li_id lic)) (pu_customerId p) now p) (db_purchases d2)) in
          match es_customerId input with
          | Some customer =>
              if nonempty (es_customerId input) then
                let claim := negb (nonempty (li_customerId lic)) in
                let unowned := fun l => String.eqb (li_id l) (li_id lic) && negb (is_some (li_customerId l)) in
                let d4 := if claim then with_licenses d3 (set_where unowned (with_owner customer now) (db_licenses d3)) else d3 in
                let owner := if claim then match license_by_id d4 (li_id lic) with Some l => Some (li_customerId l) | None => None end
                             else Some (li_customerId lic) in
                let claimP := negb (nonempty (pu_customerId purchase)) in
                let unclaimed := fun p => purchase_id (pu_id purchase) p && negb (is_some (pu_customerId p)) in
                let d5 := if claimP then with_purchases d4 (set_where unclaimed (fun p => purchase_columns (pu_licenseId p) (Some customer) now p) (db_purchases d4)) else d4 in
                let purchaseOwner := if claimP && existsb unclaimed (db_purchases d4) then Some customer else pu_customerId purchase in
                match owner with
                | None => Err lost_row
                | Some owner =>
                    if negb (bool_decide (owner = Some customer)) then Ok (account_conflict, d5)
                    else if nonempty purchaseOwner && negb (bool_decide (purchaseOwner = Some customer)) then Ok (account_conflict, d5)
                    else Ok (ensure_ok (li_id lic) licenseKey, d5)
                end
              else Ok (ensure_ok (li_id lic) licenseKey, d3)
          | None => Ok (ensure_ok (li_id lic) licenseKey, d3)
          end
      end
  end.

Definition isSandboxStoreKitLicense (metadata : json) : bool :=
  match field "storekit_environment" metadata with Some (JStr s) => String.eqb s "Sandbox" | _ => false end.

Record StoreKitActivateInput := {
  sa_storeId : string; sa_appKey : string; sa_licenseKey : string; sa_deviceIdHash : string; sa_deviceLabel : option string; sa_platform : option string
}.
Inductive StoreKitActivationResult := sk_notfound | sk_rejected_platform (reason : string) | sk_full | sk_ok (activationId activationToken : string).

Definition issueStoreKitActivation (dy : Deployment) (d : LicDb) (input : StoreKitActivateInput) (rnd : Draws) (now : Z)
    : result LicError (StoreKitActivationResult * LicDb) :=
  match List.find (key_matches (sa_storeId input) (sa_appKey input) (sa_licenseKey input)) (db_licenses d) with
  | None => Ok (sk_notfound, d)
  | Some l =>
      if negb (bool_decide (li_status l = lic_active)) || negb (license_live_seconds now l) then Ok (sk_notfound, d)
      else match authorize dy path_storekit_link (sa_storeId input) l (Some (or_else (sa_platform input) "ios")) (Some "mobile") now with
      | denyPlatform reason => Ok (sk_rejected_platform reason, d)
      | DENY_NOTFOUND => Ok (sk_notfound, d)
      | ALLOW =>
          let token := newActivationToken (rnd_token rnd) in
          let hash := hashActivationToken dy token in
          let sameDevice := device_row d (li_id l) (sa_deviceIdHash input) in
          let live := match sameDevice with Some a => is_active a | None => false end in
          if flat_full d l live then Ok (sk_full, d)
          else match sameDevice with
          | Some a =>
              let! d' := update_seat d (ac_id a) hash (reactivate_columns hash (sa_deviceLabel input) None None now) in
              Ok (sk_ok (ac_id a) token, d')
          | None =>
              let! d' := insert_seat d (new_seat (rnd_id rnd) (sa_storeId input) (li_id l) (sa_appKey input) (sa_deviceIdHash input) hash
                                          (sa_deviceLabel input) None None now) hash in
              Ok (sk_ok (rnd_id rnd) token, d')
          end
      end
  end.

Inductive StoreKitNotificationAction := sk_revoke | sk_restore | sk_renew | sk_expire | sk_ignore.

(** Apple's [NotificationTypeV2], by the members the code names. *)
Inductive NotificationTypeV2 :=
  | REFUND | REVOKE | REFUND_REVERSED | DID_RENEW | RENEWAL_EXTENDED | RENEWAL_EXTENSION | EXPIRED | GRACE_PERIOD_EXPIRED | other_type (name : string).

Definition storeKitNotificationAction (notificationType : NotificationTypeV2) : StoreKitNotificationAction :=
  match notificationType with
  | REFUND | REVOKE => sk_revoke
  | REFUND_REVERSED => sk_restore
  | DID_RENEW | RENEWAL_EXTENDED | RENEWAL_EXTENSION => sk_renew
  | EXPIRED | GRACE_PERIOD_EXPIRED => sk_expire
  | other_type _ => sk_ignore
  end.

Record StoreKitNotification := {
  sn_storeId : string; sn_action : StoreKitNotificationAction; sn_environment : string; sn_originalTransactionId : string; sn_transactionId : option string;
  sn_notificationType : string; sn_notificationUUID : string; sn_expiresDate : option Z; sn_revocationDate : option Z
}.
Inductive NotificationOutcome := notif_applied | notif_no_purchase | notif_ignored.

Definition notified (status : PurchaseStatus) (n : StoreKitNotification) (expiresAt revocationDate : option Z) (now : Z) (p : StoreKitPurchase) : StoreKitPurchase :=
  {| pu_id := pu_id p; pu_storeId := pu_storeId p; pu_licenseId := pu_licenseId p; pu_appKey := pu_appKey p; pu_environment := pu_environment p;
     pu_bundleId := pu_bundleId p; pu_productId := pu_productId p; pu_originalTransactionId := pu_originalTransactionId p;
     pu_transactionId := match sn_transactionId n with Some t => Some t | None => pu_transactionId p end; pu_customerId := pu_customerId p;
     pu_status := status; pu_expiresAt := expiresAt; pu_purchaseDate := pu_purchaseDate p; pu_revocationDate := revocationDate;
     pu_lastNotificationType := Some (sn_notificationType n); pu_lastNotificationUuid := Some (sn_notificationUUID n); pu_updatedAt := now |}.

Definition set_license (d : LicDb) (licenseId : option string) (f : License -> License) : LicDb :=
  with_licenses d (set_where (fun l => opt_is licenseId (li_id l)) f (db_licenses d)).
Definition seats_where (d : LicDb) (licenseId : option string) (state : ActivationState) (f : Activation -> Activation) : LicDb :=
  with_acts d (set_where (fun a => opt_is licenseId (ac_licenseId a) && bool_decide (ac_state a = state)) f (db_acts d)).

Definition applyStoreKitNotification (d : LicDb) (n : StoreKitNotification) (restoreActivations : bool) (now : Z) : NotificationOutcome * LicDb :=
  match sn_action n with
  | sk_ignore => (notif_ignored, d)
  | action =>
      match List.find (purchase_matches (sn_storeId n) (sn_environment n) (sn_originalTransactionId n)) (db_purchases d) with
      | None => (notif_no_purchase, d)
      | Some p =>
          let expiresAt := match sn_expiresDate n with Some t => Some t | None => pu_expiresAt p end in
          let stamp := fun status expires revocation => with_purchases d (set_where (purchase_id (pu_id p)) (notified status n expires revocation now) (db_purchases d)) in
          let lic := if nonempty (pu_licenseId p) then pu_licenseId p else None in
          match action with
          | sk_revoke =>
              let d1 := stamp pu_revoked (pu_expiresAt p) (Some (or_else (sn_revocationDate n) now)) in
              let d2 := set_license d1 lic (set_status lic_revoked now) in
              (notif_applied, seats_where d2 lic st_active (tombstone st_revoked (Some now) None None))
          | sk_restore | sk_renew =>
              let d1 := stamp pu_active expiresAt None in
              let d2 := set_license d1 lic (with_status lic_active expiresAt expiresAt now) in
              (notif_applied,
               if restoreActivations
               then seats_where d2 lic st_revoked (fun a => stamp_columns st_active None (ac_entitlementTokenVersion a) (ac_entitlementTokenIssuedAt a) (ac_lastSeenAt a) a)
               else d2)
          | _ =>
              let d1 := stamp pu_expired expiresAt (pu_revocationDate p) in
              (notif_applied, set_license d1 lic (fun l => with_status lic_expired expiresAt (li_updatesUntil l) now l))
          end
      end
  end.
