(* ===== verification/LicenseFacts.v ===== *)
(** Invariants of licences and device seats, along every sequence of handlers:
    rows are unique and owned, a revoked licence serves nothing, the seat and
    pool caps hold, a spent lease id stays dead. *)

From S2P Require Import Prelude JsNumber JsDate Json LicensePolicy Licenses.
From Stdlib Require Import ZArith QArith Lia Bool String Ascii.
From stdpp Require Import base list strings gmap.
Local Open Scope string_scope.
Local Open Scope list_scope.
Local Open Scope Z_scope.

(** ** Runs *)

Inductive LicOp :=
  | op_issue_lease (input : LeaseInput) (rnd : Draws) (now : Z)
  | op_renew (storeId appKey deviceIdHash leaseId : string) (offered : option (list Z)) (newLeaseId : string) (now : Z)
  | op_revoke_device (storeId licenseId activationId : string) (now : Z)
  | op_remove_offline (storeId appKey deviceIdHash leaseId : string) (now : Z)
  | op_activate (input : ActivateInput) (rnd : Draws) (now : Z)
  | op_find (appKey token : string) (deviceId : option string) (path : EntitlementPath) (now : Z)
  | op_deactivate (appKey token : string)
  | op_record_issuance (activationId appKey : string) (now : Z)
  | op_issue_order (storeId orderId : string) (customerId : option string) (paidAt : option Z)
      (gate : option (option (option (list (string * json))))) (draw : nat -> string * string) (now : Z)
  | op_patch (storeId orderId : string) (patch : list (string * json))
  | op_mint (input : MintInput) (id random : string) (now : Z)
  | op_revoke_license (storeId licenseId : string) (actor reason : option string) (now : Z)
  | op_restore_license (storeId licenseId : string) (actor reason : option string) (now : Z)
  | op_reconcile_edit (storeId orderId : string) (customerId : option string) (paidAt : option Z)
      (gate : option (option (option (list (string * json))))) (draw : nat -> string * string) (now : Z)
  | op_ensure_storekit (input : EnsureInput) (licenseRowId purchaseRowId : string) (now : Z)
  | op_storekit_activate (input : StoreKitActivateInput) (rnd : Draws) (now : Z)
  | op_storekit_notify (n : StoreKitNotification) (restoreActivations : bool) (now : Z).

Definition run_op (dy : Deployment) (d : LicDb) (op : LicOp) : result LicError LicDb :=
  match op with
  | op_issue_lease i r t => let! (_, d') := issueDeviceLease dy d i r t in Ok d'
  | op_renew st app dev lease off new t => let! (_, d') := renewDeviceLease dy d st app dev lease off new t in Ok d'
  | op_revoke_device st lic act t => Ok (snd (revokeDeviceRemote d st lic act t))
  | op_remove_offline st app dev lease t => Ok (removeDeviceOffline d st app dev lease t)
  | op_activate i r t => let! (_, d') := activateLicenseOnDevice dy d i r t in Ok d'
  | op_find app tok dev path t => Ok (snd (findActivationByToken dy d app tok dev path t))
  | op_deactivate app tok => Ok (deactivateDevice dy d app tok)
  | op_record_issuance act app t => Ok (snd (recordCanonicalEntitlementIssuance d act app t))
  | op_issue_order st o c p g dr t => let! (_, d') := issueLicensesForPaidOrder dy d st o c p g dr t in Ok d'
  | op_patch st o p => Ok (snd (applyLicenseMetadataPatch d st o p))
  | op_mint i id r t => let! (_, d') := mintLicense dy d i id r t in Ok d'
  | op_revoke_license st l a r t => Ok (snd (revokeLicenseInTx d st l a r t))
  | op_restore_license st l a r t => Ok (snd (restoreLicenseInTx d st l a r t))
  | op_reconcile_edit st o c p g dr t => let! (_, d') := reconcileEditedOrderLicenses dy d st o c p g dr t in Ok d'
  | op_ensure_storekit i l p t => let! (_, d') := ensureStoreKitLicense dy d i l p t in Ok d'
  | op_storekit_activate i r t => let! (_, d') := issueStoreKitActivation dy d i r t in Ok d'
  | op_storekit_notify n r t => Ok (snd (applyStoreKitNotification d n r t))
  end.

(** An error rolls the transaction back. *)
Definition step (dy : Deployment) (d : LicDb) (op : LicOp) : LicDb := match run_op dy d op with Ok d' => d' | Err _ => d end.
Definition run (dy : Deployment) (d : LicDb) (ops : list LicOp) : LicDb := fold_left (step dy) ops d.

Lemma run_invariant (P : LicDb -> Prop) (ok : LicOp -> Prop) dy ops d :
  (forall d op d', ok op -> P d -> run_op dy d op = Ok d' -> P d') -> Forall ok ops -> P d -> P (run dy d ops).
Proof.
  intros H Hok. revert d. induction Hok as [|op ops Ho _ IH]; intros d Hd; [done|].
  apply (IH (step dy d op)). unfold step. destruct (run_op dy d op) eqn:E; [|done]. eapply H; eauto.
Qed.

(** ** What every handler preserves *)

Definition device_key (a : Activation) : string * string := (ac_licenseId a, ac_deviceIdHash a).
Definition owns (l : License) (a : Activation) : Prop :=
  li_id l = ac_licenseId a /\ li_storeId l = ac_storeId a /\ li_appKey l = ac_appKey a.

Record LicInv (d : LicDb) : Prop := {
  inv_license_ids : NoDup (map li_id (db_licenses d));
  inv_act_ids : NoDup (map ac_id (db_acts d));
  inv_devices : NoDup (map device_key (db_acts d));
  inv_tokens : NoDup (omap ac_tokenHash (db_acts d));
  inv_owned : forall a, a ∈ db_acts d -> exists l, l ∈ db_licenses d /\ owns l a;
  inv_revoked : forall l a, l ∈ db_licenses d -> li_status l = lic_revoked -> a ∈ db_acts d -> ac_licenseId a = li_id l -> ac_state a <> st_active
}.

(** Updates that keep who a row belongs to. *)
Definition same_seat (f : Activation -> Activation) : Prop :=
  forall a, ac_id (f a) = ac_id a /\ ac_licenseId (f a) = ac_licenseId a /\ ac_storeId (f a) = ac_storeId a /\
            ac_appKey (f a) = ac_appKey a /\ ac_deviceIdHash (f a) = ac_deviceIdHash a.
Definition same_license (f : License -> License) : Prop :=
  forall l, li_id (f l) = li_id l /\ li_storeId (f l) = li_storeId l /\ li_appKey (f l) = li_appKey l.

Ltac same := (intros ?; repeat split; reflexivity).

(** A licence that may be served. *)
Definition served (d : LicDb) (a : Activation) : Prop :=
  forall l, l ∈ db_licenses d -> li_id l = ac_licenseId a -> li_status l <> lic_revoked.

Lemma served_by d l a : LicInv d -> l ∈ db_licenses d -> li_id l = ac_licenseId a -> li_status l <> lic_revoked -> served d a.
Proof.
  intros I Hl E Hs m Hm Em. assert (m = l) as ->; [|done].
  eapply (NoDup_map_inj li_id); eauto using inv_license_ids. congruence.
Qed.

Lemma inv_acts_update d p f : LicInv d -> same_seat f ->
  NoDup (omap ac_tokenHash (set_where p f (db_acts d))) ->
  (forall a, a ∈ db_acts d -> p a = true -> ac_state (f a) = st_active -> ac_state a = st_active \/ served d a) ->
  LicInv (with_acts d (set_where p f (db_acts d))).
Proof.
  intros [I1 I2 I3 I4 I5 I6] Hf Ht Hs. split; cbn; try done.
  - rewrite map_set_where; [done|]. intros x _ _. by destruct (Hf x) as (-> & _).
  - rewrite map_set_where; [done|]. intros x _ _. unfold device_key. by destruct (Hf x) as (_ & -> & _ & _ & ->).
  - intros b Hb. apply elem_set_where in Hb as (a & Ha & ->). destruct (I5 a Ha) as (l & Hl & O1 & O2 & O3). exists l. split; [done|].
    destruct (p a); [|done]. unfold owns. destruct (Hf a) as (_ & -> & -> & -> & _). done.
  - intros l b Hl Hr Hb E Hact. apply elem_set_where in Hb as (a & Ha & ->). destruct (p a) eqn:Ep.
    + destruct (Hf a) as (_ & E' & _). rewrite E' in E. destruct (Hs a Ha Ep Hact) as [S|S]; [by eapply I6|]. by eapply S.
    + by eapply I6.
Qed.

(** Updates that leave the token column alone. *)
Lemma inv_acts_quiet d p f : LicInv d -> same_seat f -> (forall a, ac_tokenHash (f a) = ac_tokenHash a) ->
  (forall a, a ∈ db_acts d -> p a = true -> ac_state (f a) = st_active -> ac_state a = st_active \/ served d a) ->
  LicInv (with_acts d (set_where p f (db_acts d))).
Proof. intros I Hf Ht Hs. apply inv_acts_update; auto. rewrite omap_set_where by done. by apply inv_tokens. Qed.

Lemma token_update_nodup l id hash f :
  NoDup (map ac_id l) -> NoDup (omap ac_tokenHash l) -> token_free l id hash = true -> (forall a, ac_tokenHash (f a) = Some hash) ->
  NoDup (omap ac_tokenHash (set_where (has_id id) f l)).
Proof.
  intros Hi Ht Hfree Hf. induction l as [|a l IH]; cbn in *; [done|].
  inversion Hi as [|? ? Hni Hi']; subst. apply andb_true_iff in Hfree as [Ha Hfree].
  assert (Helem : forall x, x ∈ omap ac_tokenHash (set_where (has_id id) f l) -> x = hash \/ x ∈ omap ac_tokenHash l).
  { intros x Hx. apply elem_omap in Hx as (b & Hb & E). apply elem_set_where in Hb as (c & Hc & ->).
    destruct (has_id id c); [rewrite Hf in E; left; congruence|right; apply list_elem_of_omap; eauto]. }
  assert (Htl : NoDup (omap ac_tokenHash l)) by (destruct (ac_tokenHash a); [by inversion Ht|done]).
  destruct (has_id id a) eqn:Eid; cbn.
  - rewrite Hf. constructor; [|by apply IH]. intros Hin. apply elem_omap in Hin as (b & Hb & E).
    apply elem_set_where in Hb as (c & Hc & ->). unfold has_id in Eid. apply String.eqb_eq in Eid.
    destruct (has_id id c) eqn:Ec.
    + unfold has_id in Ec. apply String.eqb_eq in Ec. apply Hni. rewrite Eid, <- Ec. apply list_elem_of_fmap. by exists c.
    + unfold token_free in Hfree. rewrite forallb_forall in Hfree. specialize (Hfree c ltac:(by apply list_elem_of_In)).
      rewrite Ec, E in Hfree. cbn in Hfree. by rewrite String.eqb_refl in Hfree.
  - specialize (IH Hi' Htl Hfree). destruct (ac_tokenHash a) as [t|]; [|done]. inversion Ht; subst. constructor; [|done].
    intros Hin. destruct (Helem t Hin) as [->|?]; [|done]. cbn in Ha. by rewrite String.eqb_refl in Ha.
Qed.

Lemma inv_update_seat d id hash f d' : LicInv d -> same_seat f -> (forall a, ac_tokenHash (f a) = Some hash) ->
  (forall a, a ∈ db_acts d -> ac_id a = id -> served d a) -> update_seat d id hash f = Ok d' -> LicInv d'.
Proof.
  intros I Hf Ht Hs. unfold update_seat. destruct (token_free _ _ _) eqn:E; [|discriminate]. intros H. injection H as <-.
  apply inv_acts_update; [done|done| |].
  - apply token_update_nodup with (hash := hash); auto; by destruct I.
  - intros a Ha Hid _. right. apply Hs; [done|]. unfold has_id in Hid. by apply String.eqb_eq.
Qed.

Lemma inv_insert_seat d a hash l d' : LicInv d -> ac_tokenHash a = Some hash -> l ∈ db_licenses d -> owns l a -> li_status l <> lic_revoked ->
  insert_seat d a hash = Ok d' -> LicInv d' /\ d' = with_acts d (db_acts d ++ [a]).
Proof.
  intros I Ht Hl Ho Hs. unfold insert_seat. destruct (_ && _) eqn:E; [|discriminate]. intros H. injection H as <-. split; [|done].
  bool_props. destruct I as [I1 I2 I3 I4 I5 I6]. split; cbn; try done.
  - apply NoDup_map_snoc; [done|]. intros Hin. apply list_elem_of_fmap in Hin as (b & Eb & Hb).
    match goal with H : id_free _ _ = true |- _ => unfold id_free in H; rewrite forallb_forall in H; specialize (H b ltac:(by apply list_elem_of_In)) end.
    unfold has_id in *. rewrite <- Eb, String.eqb_refl in *. discriminate.
  - apply NoDup_map_snoc; [done|]. intros Hin. apply list_elem_of_fmap in Hin as (b & Eb & Hb). unfold device_key in Eb. injection Eb as E1 E2.
    match goal with H : device_free _ _ _ = true |- _ => unfold device_free in H; rewrite forallb_forall in H; specialize (H b ltac:(by apply list_elem_of_In)) end.
    unfold on_license in *. rewrite <- E1, <- E2, !String.eqb_refl in *. discriminate.
  - rewrite omap_app. cbn. rewrite Ht. apply NoDup_app. split; [done|]. split; [|apply NoDup_singleton].
    intros t Hin Ht'. apply list_elem_of_singleton in Ht' as ->. apply elem_omap in Hin as (b & Hb & Eb).
    match goal with H : token_free _ _ _ = true, H' : id_free _ _ = true |- _ => unfold token_free in H; unfold id_free in H';
      rewrite forallb_forall in H; rewrite forallb_forall in H';
      specialize (H b ltac:(by apply list_elem_of_In)); specialize (H' b ltac:(by apply list_elem_of_In)) end.
    rewrite Eb in *. destruct (has_id (ac_id a) b); [discriminate|]. cbn in *. rewrite String.eqb_refl in *. discriminate.
  - intros b Hb. apply elem_of_app in Hb as [Hb|Hb%list_elem_of_singleton]; [by apply I5|]. subst b. by exists l.
  - intros m b Hm Hr Hb Eb. apply elem_of_app in Hb as [Hb|Hb%list_elem_of_singleton]; [by eapply I6|]. subst b. exfalso. apply Hs.
    assert (m = l) as <-; [|done]. eapply (NoDup_map_inj li_id); eauto. destruct Ho as [Ho _]. congruence.
Qed.

Lemma inv_licenses_update d p f : LicInv d -> same_license f ->
  (forall l a, l ∈ db_licenses d -> p l = true -> li_status (f l) = lic_revoked -> a ∈ db_acts d -> ac_licenseId a = li_id l -> ac_state a <> st_active) ->
  LicInv (with_licenses d (set_where p f (db_licenses d))).
Proof.
  intros [I1 I2 I3 I4 I5 I6] Hf Hs. split; cbn; try done.
  - rewrite map_set_where; [done|]. intros x _ _. by destruct (Hf x) as (-> & _).
  - intros a Ha. destruct (I5 a Ha) as (l & Hl & O1 & O2 & O3). eexists. split; [by eapply set_where_elem|].
    destruct (p l); [|done]. unfold owns. destruct (Hf l) as (-> & -> & ->). done.
  - intros m a Hm Hr Ha E. apply elem_set_where in Hm as (l & Hl & ->). destruct (p l) eqn:Ep; [|by eapply I6].
    destruct (Hf l) as (E' & _). rewrite E' in E. by eapply Hs.
Qed.

Lemma inv_insert_license d l d' : LicInv d -> li_status l = lic_active -> insert_license d l = Ok d' ->
  LicInv d' /\ d' = with_licenses d (db_licenses d ++ [l]) /\ forall m, m ∈ db_licenses d -> li_id m <> li_id l.
Proof.
  intros [I1 I2 I3 I4 I5 I6] Ha. unfold insert_license. destruct (license_free d l) eqn:E; [|discriminate]. intros H. injection H as <-.
  assert (N : forall m, m ∈ db_licenses d -> li_id m <> li_id l).
  { intros m Hm. unfold license_free in E. rewrite forallb_forall in E. specialize (E m ltac:(by apply list_elem_of_In)).
    bool_props. match goal with H : String.eqb _ _ = false |- _ => by apply String.eqb_neq in H end. }
  split; [|done]. split; cbn; try done.
  - apply NoDup_map_snoc; [done|]. intros Hin. apply list_elem_of_fmap in Hin as (m & Em & Hm). by apply (N m).
  - intros a Hin. destruct (I5 a Hin) as (m & Hm & O). exists m. split; [by apply elem_of_app; left|done].
  - intros m a Hm Hr Hin Em. apply elem_of_app in Hm as [Hm|Hm%list_elem_of_singleton]; [by eapply I6|]. subst m. congruence.
Qed.

Lemma inv_frame d d' : LicInv d -> db_licenses d' = db_licenses d -> db_acts d' = db_acts d -> LicInv d'.
Proof. intros [I1 I2 I3 I4 I5 I6] E1 E2. split; rewrite ?E1, ?E2; done. Qed.

Lemma inv_audit d a : LicInv d -> LicInv (with_audit d a).
Proof. intros I. by apply (inv_frame d). Qed.
Lemma inv_purchases d l : LicInv d -> LicInv (with_purchases d l).
Proof. intros I. by apply (inv_frame d). Qed.

(** *** Handler by handler *)

Section Preservation.
Context (dy : Deployment).

Lemma lockActive_spec d st app key t l : lockActiveLicense d st app key t = Some l ->
  l ∈ db_licenses d /\ key_matches st app key l = true /\ li_status l = lic_active.
Proof.
  unfold lockActiveLicense. destruct (List.find _ _) as [m|] eqn:E; [|discriminate]. destruct (license_live t m) eqn:El; [|discriminate].
  intros H. injection H as <-. apply find_elem in E as [E1 E2]. unfold license_live in El. bool_props.
  match goal with H : bool_decide _ = true |- _ => apply bool_decide_eq_true in H end. done.
Qed.

Lemma key_matches_spec st app key l : key_matches st app key l = true -> li_storeId l = st /\ li_licenseKey l = key /\ li_appKey l = app.
Proof. unfold key_matches. intros H. bool_props. repeat match goal with H : String.eqb _ _ = true |- _ => apply String.eqb_eq in H end. done. Qed.

Lemma served_active d l a : LicInv d -> l ∈ db_licenses d -> li_status l = lic_active -> ac_licenseId a = li_id l -> served d a.
Proof. intros I Hl Hs E. eapply served_by; [done|exact Hl|done|by rewrite Hs]. Qed.

Lemma device_row_spec d lic dev a : device_row d lic dev = Some a -> a ∈ db_acts d /\ ac_licenseId a = lic /\ ac_deviceIdHash a = dev.
Proof.
  intros H. apply find_elem in H as [H1 H2]. unfold on_license in H2. bool_props.
  repeat match goal with H : String.eqb _ _ = true |- _ => apply String.eqb_eq in H end. done.
Qed.

Lemma same_device_spec d lic dev a : List.find (fun a => String.eqb (ac_deviceIdHash a) dev) (active_of d lic) = Some a ->
  a ∈ db_acts d /\ ac_licenseId a = lic /\ ac_deviceIdHash a = dev /\ ac_state a = st_active.
Proof.
  intros H. apply find_elem in H as [H1 H2]. apply elem_filter_bool in H1 as [H0 H1]. unfold on_license, is_active in H1. bool_props.
  repeat match goal with H : String.eqb _ _ = true |- _ => apply String.eqb_eq in H | H : bool_decide _ = true |- _ => apply bool_decide_eq_true in H end. done.
Qed.

Lemma row_served d a l : LicInv d -> a ∈ db_acts d -> l ∈ db_licenses d -> ac_licenseId a = li_id l -> li_status l = lic_active ->
  forall b, b ∈ db_acts d -> ac_id b = ac_id a -> served d b.
Proof.
  intros I Ha Hl E Hs b Hb Eb. assert (b = a) as -> by (eapply (NoDup_map_inj ac_id); eauto using inv_act_ids). by eapply served_active.
Qed.

Lemma same_seat_lease h p po dc lab cl le i e g : same_seat (lease_columns h p po dc lab cl le i e g).
Proof. same. Qed.
Lemma same_seat_reactivate h lab dc po t : same_seat (reactivate_columns h lab dc po t).
Proof. same. Qed.
Lemma same_seat_tombstone s r m u : same_seat (tombstone s r m u).
Proof. same. Qed.
Lemma same_seat_renew le t e g : same_seat (renew_columns le t e g).
Proof. same. Qed.
Lemma same_seat_seen t : same_seat (seen_at t).
Proof. same. Qed.
Lemma same_license_status s e u t : same_license (with_status s e u t).
Proof. same. Qed.
Hint Resolve same_seat_lease same_seat_reactivate same_seat_tombstone same_seat_renew same_seat_seen same_license_status : core.

Lemma place_lease_inv d input l same pool h le id t e g d' aid gen : LicInv d -> l ∈ db_licenses d -> li_status l = lic_active ->
  li_storeId l = in_storeId input -> li_appKey l = in_appKey input ->
  same = List.find (fun a => String.eqb (ac_deviceIdHash a) (in_deviceIdHash input)) (active_of d (li_id l)) ->
  place_lease d input l same pool h le id t e g = Ok (d', aid, gen) -> LicInv d'.
Proof.
  intros I Hl Hs Es Ea -> H. unfold place_lease in H. destruct (List.find _ _) as [a|] eqn:Ef.
  - apply same_device_spec in Ef as (Ha & El & _). inv_ok. eapply inv_update_seat; try exact Em; auto. eapply row_served; eauto.
  - destruct (device_row _ _ _) as [a|] eqn:Ed.
    + apply device_row_spec in Ed as (Ha & El & _). inv_ok. eapply inv_update_seat; try exact Em; auto. eapply row_served; eauto.
    + inv_ok. eapply inv_insert_seat in Em as [? _]; [done|done|reflexivity|exact Hl| |by rewrite Hs]. repeat split; cbn; congruence.
Qed.

Lemma issueDeviceLease_inv d input rnd t r d' : LicInv d -> issueDeviceLease dy d input rnd t = Ok (r, d') -> LicInv d'.
Proof.
  intros I H. unfold issueDeviceLease in H. destruct (derivePool _ _ _) as [pool|]; [|by inv_ok].
  destruct (negb (nonempty _)); [by inv_ok|]. destruct (negb _); [by inv_ok|].
  destruct (lockActiveLicense _ _ _ _ _) as [l|] eqn:El; [|by inv_ok]. apply lockActive_spec in El as (Hl & Hk & Hs). apply key_matches_spec in Hk as (K1 & K2 & K3).
  destruct (authorize _ _ _ _ _ _ _); [|by inv_ok|by inv_ok]. destruct (_ && _); [by inv_ok|].
  inv_ok. destruct a as [[d1 aid] gen]. inv_ok. eapply place_lease_inv; eauto.
Qed.

Lemma license_by_id_spec d id l : license_by_id d id = Some l -> l ∈ db_licenses d /\ li_id l = id.
Proof. intros H. apply find_elem in H as [H1 H2]. apply String.eqb_eq in H2. done. Qed.

Lemma renewDeviceLease_inv d st app dev le off new t r d' : LicInv d -> renewDeviceLease dy d st app dev le off new t = Ok (r, d') -> LicInv d'.
Proof.
  intros I H. unfold renewDeviceLease in H. destruct (List.find _ _) as [a|]; [|by inv_ok]. destruct (negb (is_active a)); [by inv_ok|].
  destruct (license_by_id _ _); [|by inv_ok]. destruct (negb _); [by inv_ok|]. destruct (authorize _ _ _ _ _ _ _); [|by inv_ok|by inv_ok].
  inv_ok. apply inv_acts_quiet; auto.
Qed.

Lemma insert_grants_inv st o c p dr t grants : forall i d d', LicInv d -> insert_grants dy d st o c p dr i t grants = Ok d' -> LicInv d'.
Proof.
  induction grants as [|g gs IH]; intros i d d' I H; cbn in H; [by inv_ok|]. inv_ok. eapply IH; [|exact H].
  eapply inv_insert_license in Em as [? _]; [done|done|reflexivity].
Qed.

Lemma issueLicenses_inv d st o c p g dr t n d' : LicInv d -> issueLicensesForPaidOrder dy d st o c p g dr t = Ok (n, d') -> LicInv d'.
Proof.
  intros I H. unfold issueLicensesForPaidOrder in H. destruct (is_nil _); [by inv_ok|]. destruct g as [[p'|]|]; [|by inv_ok|];
    inv_ok; eapply insert_grants_inv; eauto.
Qed.

Lemma activate_inv d input rnd t r d' : LicInv d -> activateLicenseOnDevice dy d input rnd t = Ok (r, d') -> LicInv d'.
Proof.
  intros I H. unfold activateLicenseOnDevice in H. destruct (List.find _ _) as [l|] eqn:El; [|by inv_ok]. apply find_elem in El as [Hl Hk].
  apply key_matches_spec in Hk as (K1 & K2 & K3). destruct (bool_decide _) eqn:Es; cbn [negb] in H; [|by inv_ok]. apply bool_decide_eq_true in Es.
  destruct (authorize _ _ _ _ _ _ _); [|by inv_ok|by inv_ok]. destruct (negb _); [by inv_ok|]. destruct (flat_full _ _ _); [by inv_ok|].
  destruct (pool_full _ _ _ _ _ _ _); [by inv_ok|]. destruct (device_row _ _ _) as [a|] eqn:Ed; inv_ok.
  - apply device_row_spec in Ed as (Ha & E & _). eapply inv_update_seat; try exact Em; auto. eapply row_served; eauto.
  - eapply inv_insert_seat in Em as [? _]; [done|done|reflexivity|exact Hl| |by rewrite Es]. repeat split; cbn; congruence.
Qed.

Lemma storekit_activate_inv d input rnd t r d' : LicInv d -> issueStoreKitActivation dy d input rnd t = Ok (r, d') -> LicInv d'.
Proof.
  intros I H. unfold issueStoreKitActivation in H. destruct (List.find _ _) as [l|] eqn:El; [|by inv_ok]. apply find_elem in El as [Hl Hk].
  apply key_matches_spec in Hk as (K1 & K2 & K3). destruct (_ || _) eqn:Es; [by inv_ok|]. bool_props.
  match goal with H : bool_decide _ = true |- _ => apply bool_decide_eq_true in H; rename H into Es end.
  destruct (authorize _ _ _ _ _ _ _); [|by inv_ok|by inv_ok]. destruct (flat_full _ _ _); [by inv_ok|].
  destruct (device_row _ _ _) as [a|] eqn:Ed; inv_ok.
  - apply device_row_spec in Ed as (Ha & E & _). eapply inv_update_seat; try exact Em; auto. eapply row_served; eauto.
  - eapply inv_insert_seat in Em as [? _]; [done|done|reflexivity|exact Hl| |by rewrite Es]. repeat split; cbn; congruence.
Qed.

Lemma owner_unique d l a : LicInv d -> l ∈ db_licenses d -> a ∈ db_acts d -> ac_licenseId a = li_id l -> owns l a.
Proof.
  intros I Hl Ha E. destruct (inv_owned _ I a Ha) as (m & Hm & O). assert (m = l) as <-; [|done].
  destruct O as (O & _). eapply (NoDup_map_inj li_id); eauto using inv_license_ids. congruence.
Qed.

(** Revoking licences with the cascade that tombstones their live rows. *)
Lemma revoke_cascade_inv d p hit f g : LicInv d -> same_license f -> same_seat g -> (forall a, ac_tokenHash (g a) = ac_tokenHash a) ->
  (forall a, ac_state (g a) <> st_active) ->
  (forall l a, l ∈ db_licenses d -> p l = true -> a ∈ db_acts d -> owns l a -> ac_state a = st_active -> hit a = true) ->
  LicInv (with_acts (with_licenses d (set_where p f (db_licenses d))) (set_where hit g (db_acts d))).
Proof.
  intros I Hf Hg Ht Hs Hhit.
  assert (I1 : LicInv (with_acts d (set_where hit g (db_acts d)))).
  { apply inv_acts_quiet; auto. intros a _ _ H. by apply Hs in H. }
  apply (inv_licenses_update (with_acts d (set_where hit g (db_acts d))) p f) in I1; [exact I1|done|].
  intros l b Hl Hp _ Hb E Hact. cbn in Hb, Hl. apply elem_set_where in Hb as (a & Ha & ->). destruct (hit a) eqn:Eh; [by apply Hs in Hact|].
  assert (O : owns l a) by (apply (owner_unique d); done). pose proof (Hhit l a Hl Hp Ha O Hact). congruence.
Qed.

Lemma is_license_spec st lic l : is_license st lic l = true -> li_id l = lic /\ li_storeId l = st.
Proof. unfold is_license. intros H. bool_props. repeat match goal with H : String.eqb _ _ = true |- _ => apply String.eqb_eq in H end. done. Qed.

Lemma revokeLicense_inv d st lic a r t : LicInv d -> LicInv (snd (revokeLicenseInTx d st lic a r t)).
Proof.
  intros I. unfold revokeLicenseInTx. destruct (lockLicense _ _ _) as [l|]; [|done]. destruct (bool_decide _); [done|]. cbn [snd].
  apply inv_audit. apply (revoke_cascade_inv d (is_license st lic)); try same; try done.
  intros m b Hm Hp Hb (O1 & O2 & _) Hact. apply is_license_spec in Hp as [<- <-]. unfold on_license, is_active.
  rewrite O1, O2, !String.eqb_refl, Hact. by rewrite bool_decide_eq_true_2.
Qed.

Lemma restoreLicense_inv d st lic a r t : LicInv d -> LicInv (snd (restoreLicenseInTx d st lic a r t)).
Proof.
  intros I. unfold restoreLicenseInTx. destruct (lockLicense _ _ _) as [l|]; [|done]. destruct (bool_decide _); [done|].
  destruct (match li_expiresAt l with Some _ => _ | None => _ end); [done|]. cbn [snd].
  apply inv_audit. apply inv_licenses_update; [done|same|]. by intros.
Qed.

Lemma edit_cascade_inv d st o t : LicInv d ->
  LicInv (with_acts (with_licenses d (set_where (stranded d st o) (set_status lic_revoked t) (db_licenses d)))
    (set_where (fun a => String.eqb (ac_storeId a) st && existsb (String.eqb (ac_licenseId a)) (map li_id (List.filter (stranded d st o) (db_licenses d))) && is_active a)
       (revoke_columns t) (db_acts d))).
Proof.
  intros I. apply (revoke_cascade_inv d (stranded d st o)); try same; try done.
  intros l a Hl Hp Ha (O1 & O2 & _) Hact. unfold is_active. rewrite <- O1, <- O2, Hact, (bool_decide_eq_true_2 (st_active = st_active)) by done.
  rewrite andb_true_r. apply andb_true_intro. split.
  - unfold stranded, order_issued in Hp. by bool_props.
  - apply existsb_exists. exists (li_id l). split; [|apply String.eqb_refl]. apply in_map. apply filter_In. by rewrite <- list_elem_of_In.
Qed.

Lemma reconcileEdit_inv d st o c p g dr t r d' : LicInv d -> reconcileEditedOrderLicenses dy d st o c p g dr t = Ok (r, d') -> LicInv d'.
Proof.
  intros I H. unfold reconcileEditedOrderLicenses in H. inv_ok. destruct a as [n d3]. inv_ok. eapply issueLicenses_inv; [|exact Em].
  exact (edit_cascade_inv d st o t I).
Qed.

Lemma patch_inv d st o p : LicInv d -> LicInv (snd (applyLicenseMetadataPatch d st o p)).
Proof. intros I. cbn. apply inv_licenses_update; [done|same|]. intros l a Hl _ Hr Ha E. by eapply inv_revoked. Qed.

Lemma find_inv d app tok dev path t : LicInv d -> LicInv (snd (findActivationByToken dy d app tok dev path t)).
Proof.
  intros I. unfold findActivationByToken. destruct (omap _ _) as [|[a l] rest]; [done|]. destruct (negb _); [done|].
  destruct (authorize _ _ _ _ _ _ _); try done. destruct (negb _); [done|]. destruct (_ && _); [done|]. cbn [snd].
  apply inv_acts_quiet; auto.
Qed.

Lemma inv_filter d p : LicInv d -> LicInv (with_acts d (List.filter p (db_acts d))).
Proof.
  intros [I1 I2 I3 I4 I5 I6]. split; cbn; try done.
  - by apply NoDup_map_filter.
  - by apply NoDup_map_filter.
  - by apply NoDup_omap_filter.
  - intros a Ha. apply elem_filter_bool in Ha as [Ha _]. by apply I5.
  - intros l a Hl Hr Ha. apply elem_filter_bool in Ha as [Ha _]. by apply I6.
Qed.

Lemma record_inv d act app t : LicInv d -> LicInv (snd (recordCanonicalEntitlementIssuance d act app t)).
Proof.
  intros I. unfold recordCanonicalEntitlementIssuance. destruct (negb _); [done|]. cbn [snd].
  apply inv_acts_quiet; [done|same|done|by left].
Qed.

Lemma mint_inv d i id r t x d' : LicInv d -> mintLicense dy d i id r t = Ok (x, d') -> LicInv d'.
Proof. intros I H. unfold mintLicense in H. destruct (_ || _); [discriminate|]. inv_ok. eapply inv_insert_license in Em as [? _]; [done|done|reflexivity]. Qed.

Lemma insert_once_inv d l : LicInv d -> li_status l = lic_active -> LicInv (insert_license_once d l).
Proof.
  intros I Ha. unfold insert_license_once. destruct (license_free d l) eqn:E; [|done].
  assert (H : insert_license d l = Ok (with_licenses d (db_licenses d ++ [l]))) by (unfold insert_license; by rewrite E).
  by eapply inv_insert_license in H as [? _].
Qed.

Lemma same_license_owner c t : same_license (with_owner c t).
Proof. same. Qed.

Lemma ensure_inv d i l p t r d' : LicInv d -> ensureStoreKitLicense dy d i l p t = Ok (r, d') -> LicInv d'.
Proof.
  intros I H. unfold ensureStoreKitLicense in H. pose proof (insert_once_inv d (storekit_license dy i l t) I eq_refl) as I1.
  destruct (List.find _ (db_licenses _)) as [lic|]; [|discriminate]. unfold insert_purchase_once in H.
  set (d1 := insert_license_once d _) in *. set (d2 := if existsb _ _ then _ else _) in H.
  assert (I2 : LicInv d2) by (unfold d2; destruct (existsb _ _); [done|by apply inv_purchases]). clearbody d2.
  destruct (List.find _ (db_purchases d2)) as [pu|]; [|discriminate].
  set (d3 := with_purchases d2 _) in H. assert (I3 : LicInv d3) by (by apply inv_purchases). clearbody d3.
  destruct (es_customerId i) as [c|]; [|by inv_ok]. destruct (nonempty (Some c)); [|by inv_ok].
  set (d4 := if negb (nonempty (li_customerId lic)) then _ else d3) in H.
  assert (I4 : LicInv d4).
  { unfold d4. destruct (negb _); [|done]. apply inv_licenses_update; [done|apply same_license_owner|]. intros m a Hm _ Hr Ha E. by eapply inv_revoked. }
  clearbody d4. set (d5 := if negb (nonempty (pu_customerId pu)) then _ else d4) in H.
  assert (I5 : LicInv d5) by (unfold d5; destruct (negb _); [by apply inv_purchases|done]). clearbody d5.
  destruct (if negb (nonempty (li_customerId lic)) then _ else _) as [owner|]; [|discriminate].
  destruct (negb _) in H; [by inv_ok|]. destruct (_ && _) in H; by inv_ok.
Qed.

Lemma notify_inv d n r t : LicInv d -> LicInv (snd (applyStoreKitNotification d n r t)).
Proof.
  intros I. unfold applyStoreKitNotification. destruct (List.find _ _) as [p|]; [|by destruct (sn_action n)].
  assert (P : forall l, LicInv (with_purchases d l)) by (intros; by apply inv_purchases).
  set (lic := if nonempty (pu_licenseId p) then _ else _). clearbody lic.
  assert (R : forall d0 e, LicInv d0 -> LicInv (set_license d0 lic (with_status lic_active e e t))).
  { intros d0 e I0. apply inv_licenses_update; [done|same|]. by intros. }
  assert (S : forall e d0, LicInv d0 -> LicInv (if r then seats_where (set_license d0 lic (with_status lic_active e e t)) lic st_revoked
     (fun a => stamp_columns st_active None (ac_entitlementTokenVersion a) (ac_entitlementTokenIssuedAt a) (ac_lastSeenAt a) a)
     else set_license d0 lic (with_status lic_active e e t))).
  { intros e d0 I0. destruct r; [|by apply R]. apply inv_acts_quiet; [by apply R|same|done|]. intros a Ha Hp _. right.
    intros m Hm Em. cbn in Hm. apply elem_set_where in Hm as (l & Hl & ->). bool_props.
    destruct (opt_is lic (li_id l)) eqn:El; [done|]. exfalso. rewrite Em in El. congruence. }
  destruct (sn_action n); cbn [snd]; [| | | |done].
  - apply (revoke_cascade_inv (with_purchases d _)); [apply P|same|same|done|done|].
    intros l a Hl Hp Ha (O1 & _) Hact. rewrite <- O1. apply andb_true_intro. split; [exact Hp|by apply bool_decide_eq_true_2].
  - by apply S.
  - by apply S.
  - apply inv_licenses_update; [done|same|]. by intros.
Qed.

Lemma run_op_inv d op d' : LicInv d -> run_op dy d op = Ok d' -> LicInv d'.
Proof.
  intros I. destruct op; cbn [run_op]; intros H; try (injection H as <-);
    try (match type of H with bind_result ?m _ = _ => destruct m as [[r x]|] eqn:E; [injection H as <-|discriminate] end).
  - by eapply issueDeviceLease_inv.
  - by eapply renewDeviceLease_inv.
  - apply inv_acts_quiet; [done|same|done|]. by intros.
  - apply inv_acts_quiet; [done|same|done|]. by intros.
  - by eapply activate_inv.
  - by apply find_inv.
  - by apply inv_filter.
  - by apply record_inv.
  - by eapply issueLicenses_inv.
  - by apply patch_inv.
  - by eapply mint_inv.
  - by apply revokeLicense_inv.
  - by apply restoreLicense_inv.
  - by eapply reconcileEdit_inv.
  - by eapply ensure_inv.
  - by eapply storekit_activate_inv.
  - by apply notify_inv.
Qed.
End Preservation.

Lemma token_row_spec d app hash a b n : token_row d app hash a = Some (b, n) -> b = a /\ ac_state a = st_active /\ n ∈ db_licenses d /\ li_id n = ac_licenseId a.
Proof.
  unfold token_row. intros H. destruct (opt_is _ _ && _ && _) eqn:E; [|discriminate H]. bool_props.
  destruct (license_by_id d _) as [l|] eqn:El; [|discriminate H]. destruct (String.eqb (li_appKey l) app); [|discriminate H]. injection H as <- <-.
  apply license_by_id_spec in El as [? ?]. match goal with H : is_active _ = true |- _ => by apply bool_decide_eq_true in H end.
Qed.

(** C11: C: Along any sequence of licensing handlers, from any consistent state: rows
    stay unique (ids, devices per licence, token hashes) and owned by a licence of
    their store and app, and a revoked licence serves nothing: it has no active
    device, no activation token resolves to it and no lease of it renews. *)
Theorem revoked_license_inert (dy : Deployment) (d : LicDb) (ops : list LicOp) :
  LicInv d ->
  let d' := run dy d ops in
  LicInv d' /\
  forall l, l ∈ db_licenses d' -> li_status l = lic_revoked ->
    (forall a, a ∈ db_acts d' -> ac_licenseId a = li_id l -> ac_state a <> st_active) /\
    (forall app token dev path t a m d'', findActivationByToken dy d' app token dev path t = (Some (a, m), d'') -> li_id m <> li_id l) /\
    (forall st app dev lease off new t a env d'', List.find (lease_matches st app dev lease) (db_acts d') = Some a -> ac_licenseId a = li_id l ->
       renewDeviceLease dy d' st app dev lease off new t <> Ok (renew_ok env, d'')).
Proof.
  intros I. cbn zeta. assert (I' : LicInv (run dy d ops)).
  { apply (run_invariant LicInv (fun _ => True) dy); [|by apply Forall_true|done]. intros. by eapply run_op_inv. }
  split; [done|]. intros l Hl Hr. assert (R := fun a Ha E => inv_revoked _ I' l a Hl Hr Ha E). split; [exact R|]. split.
  - intros app token dev path t a m d'' H E. unfold findActivationByToken in H. destruct (omap _ _) as [|[b n] rest] eqn:Eo; [discriminate|].
    assert (Hin : (b, n) ∈ omap (token_row (run dy d ops) app (hashActivationToken dy token)) (db_acts (run dy d ops))) by (rewrite Eo; by left).
    apply elem_omap in Hin as (c & Hc & Ec). apply token_row_spec in Ec as (Ec & Hact & Hn & En). subst b.
    destruct (negb _); [discriminate|]. destruct (authorize _ _ _ _ _ _ _); try discriminate. destruct (negb _); [discriminate|].
    destruct (_ && _); [discriminate|]. injection H as <- <- _.
    eapply R; [exact Hc|congruence|done].
  - intros st app dev lease off new t a env d'' Ef E H. unfold renewDeviceLease in H. rewrite Ef in H. apply find_elem in Ef as [Ha _].
    specialize (R a Ha E). unfold is_active in H. rewrite bool_decide_eq_false_2 in H by done. cbn [negb] in H. discriminate H.
Qed.

(** *** A small deployment *)

Definition sample_policy : DevicePolicy :=
  {| dp_marker := "pooled"; dp_poolCaps := Some {[ "computer" := 2; "mobile" := 1 ]}; dp_leasablePools := None; dp_pooledSeats := true;
     dp_platformPools := None; dp_leaseTtlSeconds := None; dp_leaseGraceSeconds := None; dp_activationSources := None |}.
Definition sample_dy : Deployment :=
  {| dy_policies := {[ "studio" := sample_policy ]}; dy_catalogs := ∅; dy_policy := None; dy_formats := builtin_formats; dy_signToken := None;
     dy_signLease := None; dy_defaultTtlSeconds := 604800; dy_sha256 := fun s => "h:" +:+ s |}.

Definition sample_license (id appKey key : string) (seats : Z) (metadata : json) : License :=
  {| li_id := id; li_storeId := "s1"; li_customerId := None; li_orderId := None; li_orderLineId := None; li_appKey := appKey; li_licenseKey := key;
     li_status := lic_active; li_source := "admin"; li_issuedBy := None; li_issueReason := None; li_seats := seats; li_updatesUntil := None;
     li_expiresAt := None; li_metadata := metadata; li_createdAt := 0; li_updatedAt := 0 |}.
Definition sample_db : LicDb :=
  {| db_licenses := [sample_license "lic1" "studio" "K1" 0 (JObj [("device_policy", JStr "pooled")]); sample_license "lic2" "plain" "K2" 1 JNull];
     db_acts := []; db_purchases := []; db_lines := []; db_audit := [] |}.
Definition draws (n : string) : Draws := {| rnd_id := "act" +:+ n; rnd_token := "tok" +:+ n; rnd_leaseId := "lease" +:+ n |}.
Definition lease_input (appKey key device platform : string) : LeaseInput :=
  {| in_storeId := "s1"; in_appKey := appKey; in_licenseKey := key; in_deviceIdHash := device; in_platform := platform; in_deviceLabel := None; in_offeredVersions := None |}.
Definition activate_input (appKey key device : string) : ActivateInput :=
  {| av_storeId := "s1"; av_appKey := appKey; av_licenseKey := key; av_deviceId := device; av_deviceLabel := None; av_activationSource := None |}.

Lemma sample_inv : LicInv sample_db.
Proof.
  split; cbn; try (by constructor).
  - repeat constructor; set_solver.
  - intros a Ha. by inversion Ha.
  - intros l a _ _ Ha. by inversion Ha.
Qed.

Definition sample_revocation : list LicOp :=
  [op_issue_lease (lease_input "studio" "K1" "h:d1" "macos") (draws "1") 1000; op_activate (activate_input "plain" "K2" "d2") (draws "2") 2000;
   op_revoke_license "s1" "lic1" None None 3000].

(** A leased device of a licence revoked afterwards. *)
Lemma revoked_license_inert_witness :
  let d' := run sample_dy sample_db sample_revocation in
  map ac_state (db_acts d') = [st_revoked; st_active] /\ map li_status (db_licenses d') = [lic_revoked; lic_active] /\
  LicInv d' /\
  forall l, l ∈ db_licenses d' -> li_status l = lic_revoked ->
    (forall a, a ∈ db_acts d' -> ac_licenseId a = li_id l -> ac_state a <> st_active) /\
    (forall app token dev path t a m d'', findActivationByToken sample_dy d' app token dev path t = (Some (a, m), d'') -> li_id m <> li_id l) /\
    (forall st app dev lease off new t a env d'', List.find (lease_matches st app dev lease) (db_acts d') = Some a -> ac_licenseId a = li_id l ->
       renewDeviceLease sample_dy d' st app dev lease off new t <> Ok (renew_ok env, d'')).
Proof.
  split; [vm_compute; reflexivity|]. split; [vm_compute; reflexivity|].
  apply (revoked_license_inert sample_dy sample_db sample_revocation). apply sample_inv.
Defined.

(** ** Seat and pool caps *)

Definition count (q : Activation -> bool) (l : list Activation) : Z := Z.of_nat (length (List.filter q l)).
Definition q_flat (lic : string) (a : Activation) : bool := on_license lic a && is_active a.
Definition q_pool (lic pool : string) (a : Activation) : bool := on_license lic a && is_active a && in_pool pool a.

Lemma count_cons q a l : count q (a :: l) = (if q a then 1 else 0) + count q l.
Proof. unfold count. cbn. destruct (q a); cbn [length]; lia. Qed.
Lemma count_nonneg q l : 0 <= count q l.
Proof. unfold count. lia. Qed.
Lemma count_snoc q l a : count q (l ++ [a]) = count q l + (if q a then 1 else 0).
Proof. induction l as [|b l IH]; cbn [app]; [rewrite count_cons; unfold count; cbn [List.filter length]; lia|]. rewrite !count_cons, IH. lia. Qed.
Lemma count_ext q r l : (forall a, a ∈ l -> q a = r a) -> count q l = count r l.
Proof.
  intros H. induction l as [|b l IH]; [done|]. rewrite !count_cons, (H b) by (by left). rewrite IH; [done|]. intros. apply H. by right.
Qed.
Lemma count_zero q l : (forall a, a ∈ l -> q a = false) -> count q l = 0.
Proof. intros H. induction l as [|b l IH]; [done|]. rewrite count_cons, (H b) by (by left). rewrite IH; [done|]. intros. apply H. by right. Qed.
Lemma count_shrink q p f l : (forall a, a ∈ l -> p a = true -> q (f a) = true -> q a = true) -> count q (set_where p f l) <= count q l.
Proof.
  intros H. induction l as [|b l IH]; [done|]. cbn [set_where map]. fold (set_where p f l). rewrite !count_cons.
  specialize (IH ltac:(intros; eapply H; eauto; by right)). destruct (p b) eqn:Ep; [|lia].
  destruct (q (f b)) eqn:Eq; [|destruct (q b); lia]. rewrite (H b) by (done || by left). lia.
Qed.
Lemma count_filter q p l : count q (List.filter p l) <= count q l.
Proof. induction l as [|b l IH]; [done|]. cbn [List.filter]. destruct (p b); rewrite !count_cons; destruct (q b); lia. Qed.
Lemma set_where_miss id f l : id ∉ map ac_id l -> set_where (has_id id) f l = l.
Proof.
  induction l as [|b l IH]; [done|]. intros H. cbn. fold (set_where (has_id id) f l). rewrite IH by (intros Hin; apply H; by right).
  destruct (has_id id b) eqn:E; [|done]. unfold has_id in E. apply String.eqb_eq in E. exfalso. apply H. rewrite <- E. by left.
Qed.
Lemma count_update q f l a : NoDup (map ac_id l) -> a ∈ l ->
  count q (set_where (has_id (ac_id a)) f l) + (if q a then 1 else 0) = count q l + (if q (f a) then 1 else 0).
Proof.
  induction l as [|b l IH]; intros Hn Ha; [by inversion Ha|]. inversion Hn as [|? ? Hni Hn']; subst.
  cbn [set_where map]. fold (set_where (has_id (ac_id a)) f l). rewrite !count_cons. unfold has_id at 1.
  apply elem_of_cons in Ha as [<-|Ha].
  - rewrite String.eqb_refl, set_where_miss by done. lia.
  - destruct (String.eqb_spec (ac_id b) (ac_id a)) as [E|_]; [exfalso; apply Hni; rewrite E; apply list_elem_of_fmap; by exists a|].
    specialize (IH Hn' Ha). lia.
Qed.
