(* ===== verification/SeatCaps.v ===== *)
(** Seat and pool caps along runs, up to what StoreKit notifications bring back, the spent-lease property, and the handlers
    whose effect the caps do not cover. *)

From S2P Require Import Prelude JsNumber JsDate Json LicensePolicy Licenses LicenseFacts.
From Stdlib Require Import ZArith QArith Lia Bool String Ascii.
From stdpp Require Import base list strings gmap.
Local Open Scope string_scope.
Local Open Scope list_scope.
Local Open Scope Z_scope.

Section Caps.
Context (dy : Deployment).
Abbreviation policy_of app := (devicePolicyFor (dy_policies dy) app).
Abbreviation bounded l := (usesBoundedDevicePools (dy_policies dy) (li_appKey l) (li_seats l) (li_metadata l)).

(** The registered policy never lifts a pool cap. *)
Definition no_bypass : Prop := forall app seats metadata pool, policyLeaseUnlimited (dy_policy dy) app seats metadata pool = false.

(** No row predates the [pool] column of its policy-governed app. *)
Definition classified (a : Activation) : Prop := is_some (policy_of (ac_appKey a)) = true -> storedPool a = ac_pool a.

(** The caps hold, each licence by [extra] devices more. *)
Record CapInv (extra : string -> Z) (d : LicDb) : Prop := {
  cap_inv : LicInv d;
  cap_flat : forall l, l ∈ db_licenses d -> policy_of (li_appKey l) = None -> 0 < li_seats l ->
    count (q_flat (li_id l)) (db_acts d) <= li_seats l + extra (li_id l);
  cap_pool : forall l p c, l ∈ db_licenses d -> bounded l = true -> poolCap (dy_policies dy) (li_appKey l) p = Some c ->
    count (q_pool (li_id l) p) (db_acts d) <= Z.max 0 c + extra (li_id l);
  cap_class : forall a, a ∈ db_acts d -> classified a
}.

(** What the caps ask of an operation: activation sources are registered, the
    StoreKit path activates for apps without device pools, and no metadata patch
    forges the policy marker. *)
Definition op_ok (op : LicOp) : Prop :=
  match op with
  | op_activate input _ _ =>
      is_some (policy_of (av_appKey input)) = true ->
      exists s, activationSourceDefaults (dy_policies dy) (av_appKey input) (or_else (av_activationSource input) "desktop") = Some s /\ nonempty (Some (src_pool s)) = true
  | op_storekit_activate input _ _ => policy_of (sa_appKey input) = None
  | op_patch _ _ patch => Forall (fun kv => fst kv <> "device_policy") patch
  | _ => True
  end.

(** *** Steps that add no active row *)

Definition licenses_kept (d d' : LicDb) : Prop :=
  forall m, m ∈ db_licenses d' ->
    (exists l, l ∈ db_licenses d /\ li_id l = li_id m /\ li_appKey l = li_appKey m /\ li_seats l = li_seats m /\ bounded l = bounded m) \/
    (forall a, a ∈ db_acts d' -> ac_licenseId a <> li_id m).

Lemma no_rows_zero lic l : (forall a, a ∈ l -> ac_licenseId a <> lic) -> count (q_flat lic) l = 0 /\ forall p, count (q_pool lic p) l = 0.
Proof.
  intros H. assert (N : forall a, a ∈ l -> on_license lic a = false) by (intros a Ha; unfold on_license; apply String.eqb_neq; auto).
  split; [|intros p]; apply count_zero; intros a Ha; unfold q_flat, q_pool; by rewrite N.
Qed.

(** A step that adds at most as many active rows as [extra] grows by. *)
Lemma cap_grows e e' d d' : CapInv e d -> LicInv d' -> (forall lic, 0 <= e' lic) ->
  (forall lic, count (q_flat lic) (db_acts d') - e' lic <= count (q_flat lic) (db_acts d) - e lic /\
               forall p, count (q_pool lic p) (db_acts d') - e' lic <= count (q_pool lic p) (db_acts d) - e lic) ->
  licenses_kept d d' -> (forall a, a ∈ db_acts d' -> classified a) -> CapInv e' d'.
Proof.
  intros [I F P C] I' He G K C'. split; [done| | |done].
  - intros m Hm Hp Hs. destruct (K m Hm) as [(l & Hl & E1 & E2 & E3 & _)|N].
    + rewrite <- E2 in Hp. rewrite <- E3 in Hs. specialize (F l Hl Hp Hs). destruct (G (li_id m)) as [G1 _]. rewrite <- E1, <- E3 in *. lia.
    + destruct (no_rows_zero _ _ N) as [-> _]. specialize (He (li_id m)). lia.
  - intros m p c Hm Hb Hc. destruct (K m Hm) as [(l & Hl & E1 & E2 & E3 & E4)|N].
    + rewrite <- E4 in Hb. rewrite <- E2 in Hc. specialize (P l p c Hl Hb Hc). destruct (G (li_id m)) as [_ G2]. specialize (G2 p). rewrite <- E1 in *. lia.
    + destruct (no_rows_zero _ _ N) as [_ ->]. specialize (He (li_id m)). lia.
Qed.
Lemma cap_mono e e' d : CapInv e d -> (forall lic, 0 <= e lic <= e' lic) -> CapInv e' d.
Proof.
  intros H He. eapply cap_grows; [exact H|by apply (cap_inv _ _ H)| | | |by apply (cap_class _ _ H)].
  - intros lic. specialize (He lic). lia.
  - intros lic. specialize (He lic). split; [|intros p]; lia.
  - intros m Hm. left. by exists m.
Qed.

Context (extra : string -> Z) (Hextra : forall lic, 0 <= extra lic).
Definition no_growth (d d' : LicDb) : Prop :=
  forall lic, count (q_flat lic) (db_acts d') <= count (q_flat lic) (db_acts d) /\
              forall p, count (q_pool lic p) (db_acts d') <= count (q_pool lic p) (db_acts d).
Lemma cap_quiet d d' : CapInv extra d -> LicInv d' -> no_growth d d' -> licenses_kept d d' -> (forall a, a ∈ db_acts d' -> classified a) -> CapInv extra d'.
Proof.
  intros H I' G K C'. apply (cap_grows extra extra d); try done. intros lic. destruct (G lic) as [G1 G2]. split; [lia|]. intros p. specialize (G2 p). lia.
Qed.

Lemma same_licenses d d' : db_licenses d' = db_licenses d -> licenses_kept d d'.
Proof. intros E m Hm. rewrite E in Hm. left. by exists m. Qed.

(** Updates of activation columns that activate nothing. *)
Lemma set_where_quiet d p f : CapInv extra d -> LicInv (with_acts d (set_where p f (db_acts d))) -> same_seat f ->
  (forall a, ac_pool (f a) = ac_pool a /\ ac_deviceClass (f a) = ac_deviceClass a /\ (ac_state (f a) = st_active -> p a = true -> ac_state a = st_active)) ->
  CapInv extra (with_acts d (set_where p f (db_acts d))).
Proof.
  intros H I' Hs Hf. eapply cap_quiet; [exact H|done| |by apply same_licenses|].
  - intros lic. assert (Q : forall a, p a = true -> q_flat lic (f a) = true -> q_flat lic a = true).
    { intros a Hp. unfold q_flat, on_license, is_active. destruct (Hs a) as (_ & -> & _). destruct (Hf a) as (_ & _ & Hact). intros Q. bool_props.
      match goal with H : bool_decide _ = true |- _ => apply bool_decide_eq_true in H; apply Hact in H; [|done] end.
      apply andb_true_intro. split; [done|by apply bool_decide_eq_true_2]. }
    split; [|intros pool]; apply count_shrink; intros a Ha Hp; [by apply Q|].
    unfold q_pool, in_pool. destruct (Hf a) as (-> & _). intros H1. apply andb_true_iff in H1 as [H1 H2]. rewrite H2, andb_true_r. by apply Q.
  - intros b Hb. apply elem_set_where in Hb as (a & Ha & ->). pose proof (cap_class _ _ H a Ha) as C. destruct (p a); [|done].
    unfold classified, storedPool in *. destruct (Hs a) as (_ & _ & _ & -> & _). by destruct (Hf a) as (-> & -> & _).
Qed.

Lemma with_licenses_quiet d ls : CapInv extra d -> LicInv (with_licenses d ls) -> licenses_kept d (with_licenses d ls) -> CapInv extra (with_licenses d ls).
Proof. intros H I' K. eapply cap_quiet; [exact H|done| |done|]; [intros lic; split; [|intros p]; reflexivity|]. intros a Ha. by apply (cap_class _ _ H). Qed.

Lemma kept_update d p f : same_license f -> (forall l, li_seats (f l) = li_seats l /\ bounded (f l) = bounded l) ->
  licenses_kept d (with_licenses d (set_where p f (db_licenses d))).
Proof.
  intros Hf Hs m Hm. left. apply elem_set_where in Hm as (l & Hl & ->). exists l. split; [done|]. destruct (p l); [|done].
  destruct (Hf l) as (E1 & _ & E2). destruct (Hs l) as [E3 E4]. by rewrite E4.
Qed.

Lemma kept_append d l : CapInv extra d -> (forall m, m ∈ db_licenses d -> li_id m <> li_id l) -> licenses_kept d (with_licenses d (db_licenses d ++ [l])).
Proof.
  intros H N m Hm. apply elem_of_app in Hm as [Hm|Hm%list_elem_of_singleton]; [left; by exists m|]. subst m. right. intros a Ha E.
  destruct (inv_owned _ (cap_inv _ _ H) a Ha) as (k & Hk & O & _). apply (N k Hk). congruence.
Qed.

(** *** Steps that give a device a seat *)

(** The row [a'] took the place of [old], or is new. *)
Inductive placed (d : LicDb) : option Activation -> Activation -> LicDb -> Prop :=
  | placed_update a f : a ∈ db_acts d -> placed d (Some a) (f a) (with_acts d (set_where (has_id (ac_id a)) f (db_acts d)))
  | placed_insert a : placed d None a (with_acts d (db_acts d ++ [a])).

Lemma count_placed d old a' d' q : LicInv d -> placed d old a' d' ->
  count q (db_acts d') + (match old with Some a => if q a then 1 else 0 | None => 0 end) = count q (db_acts d) + (if q a' then 1 else 0).
Proof.
  intros I H. destruct H as [a f Ha|a]; cbn.
  - apply count_update; [by apply inv_act_ids|done].
  - rewrite count_snoc. lia.
Qed.

(** What the checks of a granting handler must establish. *)
Lemma cap_grant d l old a' d' : CapInv extra d -> LicInv d' -> l ∈ db_licenses d -> placed d old a' d' ->
  ac_licenseId a' = li_id l -> (forall a, old = Some a -> ac_licenseId a = li_id l) -> classified a' ->
  (policy_of (li_appKey l) = None -> 0 < li_seats l ->
     (exists a, old = Some a /\ ac_state a = st_active) \/ count (q_flat (li_id l)) (db_acts d) < li_seats l) ->
  (forall p c, bounded l = true -> poolCap (dy_policies dy) (li_appKey l) p = Some c -> in_pool p a' = true ->
     (exists a, old = Some a /\ ac_state a = st_active /\ in_pool p a = true) \/ count (q_pool (li_id l) p) (db_acts d) < Z.max 0 c) ->
  CapInv extra d'.
Proof.
  intros H I' Hl Hp El Eo C' Hflat Hpool. pose proof H as [I F P C].
  assert (Hcnt : forall q, count q (db_acts d') + (match old with Some a => if q a then 1 else 0 | None => 0 end) = count q (db_acts d) + (if q a' then 1 else 0))
    by (intros q; by eapply count_placed).
  assert (EL : db_licenses d' = db_licenses d) by (by destruct Hp).
  assert (Hcnt_le : forall q, count q (db_acts d') <= count q (db_acts d) + (if q a' then 1 else 0))
    by (intros q; specialize (Hcnt q); destruct old as [a|]; [destruct (q a)|]; lia).
  assert (Hother : forall m, m ∈ db_licenses d -> li_id m <> li_id l -> on_license (li_id m) a' = false)
    by (intros m Hm N; unfold on_license; apply String.eqb_neq; congruence).
  assert (Hact : forall a, old = Some a -> ac_state a = st_active -> q_flat (li_id l) a = true).
  { intros a Ea Hs. unfold q_flat, on_license, is_active. rewrite (Eo a Ea), String.eqb_refl. by apply bool_decide_eq_true_2. }
  assert (Hsame : forall m, m ∈ db_licenses d -> li_id m = li_id l -> m = l) by (intros m Hm E; eapply (NoDup_map_inj li_id); eauto using inv_license_ids).
  pose proof (Hextra (li_id l)) as Xl.
  split; [done| | |].
  - intros m Hm Hpol Hs. rewrite EL in Hm. destruct (decide (li_id m = li_id l)) as [E|N].
    + apply Hsame in E as ->; [|done]. specialize (F l Hl Hpol Hs). destruct (Hflat Hpol Hs) as [(a & Ea & Hst)|Hlt].
      * specialize (Hcnt (q_flat (li_id l))). rewrite Ea, (Hact a Ea Hst) in Hcnt. destruct (q_flat _ a'); lia.
      * specialize (Hcnt_le (q_flat (li_id l))). destruct (q_flat _ a'); lia.
    + specialize (F m Hm Hpol Hs). specialize (Hcnt_le (q_flat (li_id m))). unfold q_flat in Hcnt_le at 3. rewrite Hother in Hcnt_le by done. cbn in Hcnt_le. lia.
  - intros m p c Hm Hb Hc. rewrite EL in Hm. destruct (decide (li_id m = li_id l)) as [E|N].
    + apply Hsame in E as ->; [|done]. specialize (P l p c Hl Hb Hc). destruct (in_pool p a') eqn:Ep.
      * destruct (Hpool p c Hb Hc Ep) as [(a & Ea & Hst & Hin)|Hlt].
        -- specialize (Hcnt (q_pool (li_id l) p)). pose proof (Hact a Ea Hst) as Q. rewrite Ea in Hcnt. unfold q_pool at 2 in Hcnt. unfold q_flat in Q.
           rewrite Q, Hin in Hcnt. cbn in Hcnt. destruct (q_pool _ _ a'); lia.
        -- specialize (Hcnt_le (q_pool (li_id l) p)). destruct (q_pool _ _ a'); lia.
      * specialize (Hcnt_le (q_pool (li_id l) p)). unfold q_pool in Hcnt_le at 3. rewrite Ep, andb_false_r in Hcnt_le. lia.
    + specialize (P m p c Hm Hb Hc). specialize (Hcnt_le (q_pool (li_id m) p)). unfold q_pool in Hcnt_le at 3. rewrite Hother in Hcnt_le by done. cbn in Hcnt_le. lia.
  - intros b Hb. destruct Hp as [a f Ha|a]; cbn in Hb.
    + apply elem_set_where in Hb as (b0 & Hb0 & ->). destruct (has_id (ac_id a) b0) eqn:E; [|by apply C].
      unfold has_id in E. apply String.eqb_eq in E. assert (b0 = a) as -> by (eapply (NoDup_map_inj ac_id); eauto using inv_act_ids). done.
    + apply elem_of_app in Hb as [Hb|Hb%list_elem_of_singleton]; [by apply C|]. by subst.
Qed.

(** *** Placing a lease *)

Lemma update_seat_placed d a hash f d' : a ∈ db_acts d -> update_seat d (ac_id a) hash f = Ok d' -> placed d (Some a) (f a) d'.
Proof. intros Ha. unfold update_seat. destruct (token_free _ _ _); [|discriminate]. intros H. injection H as <-. by constructor. Qed.
Lemma insert_seat_placed d a hash d' : insert_seat d a hash = Ok d' -> placed d None a d'.
Proof. unfold insert_seat. destruct (_ && _); [|discriminate]. intros H. injection H as <-. constructor. Qed.

(** The columns of a freshly leased row. *)
Definition leased (input : LeaseInput) (l : License) (pool : string) (a : Activation) : Prop :=
  ac_licenseId a = li_id l /\ ac_appKey a = li_appKey l /\ ac_state a = st_active /\ ac_pool a = Some pool.

Lemma leased_classified input l pool a : nonempty (Some pool) = true -> leased input l pool a -> classified a.
Proof. intros Hp (_ & _ & _ & E) _. unfold storedPool. rewrite E. by destruct (nonempty (Some pool)). Qed.

Lemma place_lease_placed d input l pool h le id t e g d' aid gen : LicInv d -> l ∈ db_licenses d ->
  li_appKey l = in_appKey input ->
  let same := List.find (fun a => String.eqb (ac_deviceIdHash a) (in_deviceIdHash input)) (active_of d (li_id l)) in
  place_lease d input l same pool h le id t e g = Ok (d', aid, gen) ->
  exists old a', placed d old a' d' /\ leased input l pool a' /\ (forall a, old = Some a -> ac_licenseId a = li_id l) /\
                 (forall a, same = Some a -> old = Some a /\ ac_state a = st_active).
Proof.
  cbn zeta. intros I Hl Ea H. unfold place_lease in H. destruct (List.find _ _) as [a|] eqn:Ef.
  - apply same_device_spec in Ef as (Ha & El & _ & Hs). inv_ok. eexists (Some a), _. split; [by eapply update_seat_placed|].
    pose proof (owner_unique d l a I Hl Ha El) as (_ & _ & O). split; [by repeat split|]. split; intros b Eb; injection Eb as <-; done.
  - destruct (device_row _ _ _) as [a|] eqn:Ed.
    + apply device_row_spec in Ed as (Ha & El & _). inv_ok. eexists (Some a), _. split; [by eapply update_seat_placed|].
      pose proof (owner_unique d l a I Hl Ha El) as (_ & _ & O). split; [by repeat split|]. split; [intros b Eb; by injection Eb as <-|done].
    + inv_ok. eexists None, _. split; [by eapply insert_seat_placed|]. split; [repeat split; by cbn|]. done.
Qed.

Lemma at_cap_false n c : at_cap n (Some c) = false -> Z.of_nat n < c.
Proof. cbn. intros H. by apply Z.leb_gt in H. Qed.

Lemma active_of_count d lic q : count (fun a => on_license lic a && is_active a && q a) (db_acts d) = Z.of_nat (length (List.filter q (active_of d lic))).
Proof.
  unfold active_of, count. f_equal. induction (db_acts d) as [|a l IH]; [done|]. cbn [List.filter].
  destruct (on_license lic a && is_active a) eqn:E; cbn [andb List.filter]; [|done]. destruct (q a); cbn [length]; lia.
Qed.
Lemma flat_count d lic : count (q_flat lic) (db_acts d) = Z.of_nat (length (active_of d lic)).
Proof. done. Qed.

Lemma bounded_policy l : bounded l = true -> exists pol, policy_of (li_appKey l) = Some pol.
Proof. unfold usesBoundedDevicePools. destruct (devicePolicyFor _ _) as [pol|]; [by exists pol|discriminate]. Qed.

Lemma issue_lease_caps d input rnd t r d' : no_bypass -> CapInv extra d -> issueDeviceLease dy d input rnd t = Ok (r, d') -> CapInv extra d'.
Proof.
  intros NB H Hok. pose proof (cap_inv _ _ H) as I. assert (I' : LicInv d') by (by eapply issueDeviceLease_inv).
  unfold issueDeviceLease in Hok. destruct (derivePool _ _ _) as [pool|]; [|by inv_ok].
  destruct (nonempty (Some pool)) eqn:Ep; cbn [negb] in Hok; [|by inv_ok]. destruct (negb _); [by inv_ok|].
  destruct (lockActiveLicense _ _ _ _ _) as [l|] eqn:El; [|by inv_ok]. apply lockActive_spec in El as (Hl & Hk & Hs). apply key_matches_spec in Hk as (K1 & K2 & K3).
  destruct (authorize _ _ _ _ _ _ _); [|by inv_ok|by inv_ok].
  destruct (takes_slot _ _ _ _ && _ && _) eqn:Echeck; [by inv_ok|].
  destruct (place_lease _ _ _ _ _ _ _ _ _ _ _) as [[[d1 aid] gen]|] eqn:Epl; [|discriminate Hok]. cbn [bind_result] in Hok.
  destruct (seal_lease _ _ _ _ _ _ _ _ _ _ _ _) as [lease|]; [|discriminate Hok]. injection Hok as <- <-.
  apply place_lease_placed in Epl as (old & a' & Hp & Hleased & Hold & Hsame); [|done..]. pose proof Hleased as (L1 & L2 & L3 & L4).
  apply (cap_grant d l old a' d1); try done; [by eapply leased_classified| |].
  - intros Hpol Hseats. assert (Hu : lease_unlimited dy l pool = false) by (unfold lease_unlimited; rewrite NB, (proj2 (Z.leb_gt _ _)) by lia; done).
    rewrite Hu, andb_true_r in Echeck. unfold takes_slot, lease_full_for in Echeck. rewrite Hpol in Echeck.
    destruct (List.find _ _) as [a|] eqn:Ef; [left; exists a; by apply Hsame|]. right. cbn [negb andb is_some] in Echeck. rewrite flat_count. by apply at_cap_false.
  - intros p c Hb Hc Hin. unfold in_pool in Hin. rewrite L4 in Hin. apply String.eqb_eq in Hin as <-.
    assert (Hu : lease_unlimited dy l pool = false) by (unfold lease_unlimited; rewrite NB, Hb, andb_false_r; done).
    destruct (bounded_policy l Hb) as [pol Hpol]. rewrite Hu, andb_true_r in Echeck. unfold lease_full_for in Echeck. rewrite Hpol, Hc in Echeck.
    apply andb_false_iff in Echeck as [Ht|Hf].
    + left. unfold takes_slot in Ht. rewrite Hpol in Ht. cbn [is_some andb] in Ht. destruct (List.find _ _) as [a|] eqn:Ef; [|discriminate].
      exists a. apply negb_false_iff in Ht. destruct (Hsame a eq_refl). done.
    + right. unfold q_pool. rewrite active_of_count. apply at_cap_false in Hf. lia.
Qed.

(** *** Activating on the legacy and StoreKit paths *)

Lemma rows_of_count d lic q : Z.of_nat (length (List.filter q (rows_of d lic))) = count (fun a => on_license lic a && q a) (db_acts d).
Proof.
  unfold rows_of, count. f_equal. induction (db_acts d) as [|a l IH]; [done|]. cbn [List.filter].
  destruct (on_license lic a); cbn [andb List.filter]; [|done]. destruct (q a); cbn [length]; lia.
Qed.

Lemma flat_full_false d l live : 0 < li_seats l -> flat_full d l live = false -> live = true \/ count (q_flat (li_id l)) (db_acts d) < li_seats l.
Proof.
  intros Hs H. unfold flat_full in H. rewrite (proj2 (Z.leb_gt _ _)) in H by done. destruct live; [by left|right]. cbn [negb andb] in H.
  rewrite rows_of_count in H. apply Z.leb_gt in H. exact H.
Qed.

Lemma activate_caps d input rnd t r d' : op_ok (op_activate input rnd t) -> CapInv extra d -> activateLicenseOnDevice dy d input rnd t = Ok (r, d') -> CapInv extra d'.
Proof.
  intros Hop H Hok. pose proof (cap_inv _ _ H) as I. assert (I' : LicInv d') by (by eapply activate_inv).
  unfold activateLicenseOnDevice in Hok. destruct (List.find _ _) as [l|] eqn:El; [|by inv_ok]. apply find_elem in El as [Hl Hk].
  apply key_matches_spec in Hk as (K1 & K2 & K3). destruct (negb _); [by inv_ok|].
  destruct (authorize _ _ _ _ _ _ _); [|by inv_ok|by inv_ok]. destruct (negb _); [by inv_ok|].
  destruct (flat_full _ _ _) eqn:Eflat; [by inv_ok|].
  destruct (pool_full _ _ _ _ _ _ _) eqn:Epool; [by inv_ok|].
  set (derived := match devicePolicyFor _ _ with Some _ => _ | None => _ end) in *.
  set (same := device_row d (li_id l) (dy_sha256 dy (av_deviceId input))) in *.
  assert (Hder : is_some (policy_of (li_appKey l)) = true -> exists s, derived = Some s /\ nonempty (Some (src_pool s)) = true).
  { rewrite K3. intros Hp. destruct (Hop Hp) as (s & Es & En). exists s. unfold derived. destruct (devicePolicyFor _ _); [done|discriminate]. }
  set (hash := hashActivationToken dy _) in *.
  assert (Hplaced : exists a', placed d same a' d' /\ ac_licenseId a' = li_id l /\ ac_appKey a' = li_appKey l /\
     (forall s, derived = Some s -> nonempty (Some (src_pool s)) = true -> ac_pool a' = Some (src_pool s))).
  { destruct same as [a|] eqn:Ed; inv_ok.
    - apply device_row_spec in Ed as (Ha & E & _). eexists. split; [by eapply update_seat_placed|]. pose proof (owner_unique d l a I Hl Ha E) as (_ & _ & O).
      repeat split; cbn; [done|done|]. intros s -> Hn. cbn in *. by rewrite Hn.
    - eexists. split; [by eapply insert_seat_placed|]. repeat split; cbn; [done|]. by intros s ->. }
  clear Hok. destruct Hplaced as (a' & Hp & E1 & E2 & E3).
  assert (Hsame : forall a, same = Some a -> a ∈ db_acts d /\ ac_licenseId a = li_id l) by (intros a Ea; apply device_row_spec in Ea as (? & ? & _); done).
  apply (cap_grant d l same a' d'); try done; [intros a Ea; by apply Hsame| | |].
  - intros Hc. rewrite E2 in Hc. destruct (Hder Hc) as (s & Es & En). unfold storedPool. rewrite (E3 s Es En), En. done.
  - intros _ Hs. apply flat_full_false in Eflat as [Hlive|?]; [|by right|done]. left. destruct same as [a|]; [|discriminate]. exists a. split; [done|].
    by apply bool_decide_eq_true in Hlive.
  - intros p c Hb Hc Hin. assert (Hpol : is_some (policy_of (li_appKey l)) = true) by (by destruct (bounded_policy l Hb) as [pol ->]).
    destruct (Hder Hpol) as (s & Es & En). unfold in_pool in Hin. rewrite (E3 s Es En) in Hin. apply String.eqb_eq in Hin as <-.
    rewrite Es in Epool. cbn [fmap option_fmap option_map] in Epool. unfold pool_full in Epool. rewrite <- K3, Hb, En, Hc in Epool. cbn [andb] in Epool.
    apply andb_false_iff in Epool as [Hm|Hm].
    + apply orb_false_iff in Hm as [Hlive Hmove]. apply negb_false_iff in Hlive, Hmove. apply bool_decide_eq_true in Hmove. left.
      destruct same as [a|]; [|discriminate]. exists a. split; [done|]. split; [by apply bool_decide_eq_true in Hlive|].
      destruct (Hsame a eq_refl) as [Ha Ela]. pose proof (owner_unique d l a I Hl Ha Ela) as (_ & _ & O).
      unfold in_pool. rewrite <- (cap_class _ _ H a Ha) by (by rewrite <- O). rewrite Hmove. cbn. by apply String.eqb_refl.
    + apply at_cap_false in Hm. rewrite rows_of_count in Hm.
      destruct (match same with Some a => q_pool (li_id l) (src_pool s) a | None => false end) eqn:Eq.
      * left. destruct same as [a|]; [|discriminate]. exists a. unfold q_pool, is_active in Eq. bool_props. split; [done|]. split; [by match goal with H : bool_decide _ = true |- _ => apply bool_decide_eq_true in H end|done].
      * right. enough (count (q_pool (li_id l) (src_pool s)) (db_acts d) <= count (fun a => on_license (li_id l) a && (is_active a &&
             match same with Some s0 => negb (has_id (ac_id s0) a) | None => true end && bool_decide (storedPool a = Some (src_pool s)))) (db_acts d)) by lia.
        apply Z.eq_le_incl, count_ext. intros a Ha. unfold q_pool. destruct (on_license (li_id l) a) eqn:Eon; [|done]. cbn [andb].
        destruct (is_active a) eqn:Eact; [|done]. cbn [andb]. unfold on_license in Eon. apply String.eqb_eq in Eon.
        pose proof (owner_unique d l a I Hl Ha Eon) as (_ & _ & O). rewrite (cap_class _ _ H a Ha) by (by rewrite <- O).
        assert (Ein : in_pool (src_pool s) a = bool_decide (ac_pool a = Some (src_pool s))).
        { unfold in_pool. destruct (ac_pool a) as [q|]; cbn; [|by rewrite bool_decide_eq_false_2]. destruct (String.eqb_spec q (src_pool s)) as [->|]; [by rewrite bool_decide_eq_true_2|].
          rewrite bool_decide_eq_false_2; congruence. }
        rewrite <- Ein. destruct same as [b|]; [|done]. destruct (has_id (ac_id b) a) eqn:Eid; [|done]. cbn [negb andb].
        unfold has_id in Eid. apply String.eqb_eq in Eid. destruct (Hsame b eq_refl) as [Hb' Elb].
        assert (a = b) as -> by (apply (NoDup_map_inj ac_id (db_acts d)); [by apply inv_act_ids|done..]). unfold q_pool, on_license in Eq. rewrite Elb, String.eqb_refl, Eact in Eq. exact Eq.
Qed.

Lemma storekit_activate_caps d input rnd t r d' : op_ok (op_storekit_activate input rnd t) -> CapInv extra d -> issueStoreKitActivation dy d input rnd t = Ok (r, d') -> CapInv extra d'.
Proof.
  intros Hop H Hok. pose proof (cap_inv _ _ H) as I. assert (I' : LicInv d') by (by eapply storekit_activate_inv). cbn in Hop.
  unfold issueStoreKitActivation in Hok. destruct (List.find _ _) as [l|] eqn:El; [|by inv_ok]. apply find_elem in El as [Hl Hk].
  apply key_matches_spec in Hk as (K1 & K2 & K3). rewrite <- K3 in Hop. destruct (_ || _); [by inv_ok|].
  destruct (authorize _ _ _ _ _ _ _); [|by inv_ok|by inv_ok]. destruct (flat_full _ _ _) eqn:Eflat; [by inv_ok|].
  set (same := device_row d (li_id l) (sa_deviceIdHash input)) in *. set (hash := hashActivationToken dy _) in *.
  assert (Hplaced : exists a', placed d same a' d' /\ ac_licenseId a' = li_id l /\ ac_appKey a' = li_appKey l).
  { destruct same as [a|] eqn:Ed; inv_ok.
    - apply device_row_spec in Ed as (Ha & E & _). eexists. split; [by eapply update_seat_placed|]. by destruct (owner_unique d l a I Hl Ha E) as (_ & _ & O).
    - eexists. split; [by eapply insert_seat_placed|]. done. }
  clear Hok. destruct Hplaced as (a' & Hp & E1 & E2).
  apply (cap_grant d l same a' d'); try done; [intros a Ea; by apply device_row_spec in Ea as (_ & ? & _)| | |].
  - intros Hc. by rewrite E2, Hop in Hc.
  - intros _ Hs. apply flat_full_false in Eflat as [Hlive|?]; [|by right|done]. left. destruct same as [a|]; [|discriminate]. exists a. split; [done|].
    by apply bool_decide_eq_true in Hlive.
  - intros p c Hb. destruct (bounded_policy l Hb) as [pol E]. by rewrite Hop in E.
Qed.

(** *** The other handlers *)

Lemma insert_license_caps d l d' : CapInv extra d -> li_status l = lic_active -> insert_license d l = Ok d' -> CapInv extra d'.
Proof.
  intros H Hs E. destruct (inv_insert_license d l d' (cap_inv _ _ H) Hs E) as (I' & -> & N). apply with_licenses_quiet; [done|done|by apply kept_append].
Qed.

Lemma insert_grants_caps st o c p dr t grants : forall i d d', CapInv extra d -> insert_grants dy d st o c p dr i t grants = Ok d' -> CapInv extra d'.
Proof.
  induction grants as [|g gs IH]; intros i d d' H E; cbn in E; [by inv_ok|]. inv_ok. eapply IH; [|exact E]. eapply insert_license_caps; [exact H| |exact Em]. done.
Qed.

Lemma issueLicenses_caps d st o c p g dr t n d' : CapInv extra d -> issueLicensesForPaidOrder dy d st o c p g dr t = Ok (n, d') -> CapInv extra d'.
Proof.
  intros H E. unfold issueLicensesForPaidOrder in E. destruct (is_nil _); [by inv_ok|]. destruct g as [[p'|]|]; [|by inv_ok|]; inv_ok; eapply insert_grants_caps; eauto.
Qed.

Lemma tombstone_caps d p s r m u : CapInv extra d -> s <> st_active -> CapInv extra (with_acts d (set_where p (tombstone s r m u) (db_acts d))).
Proof.
  intros H Hs. apply set_where_quiet; [done| |same|].
  - apply inv_acts_quiet; [by eapply cap_inv|same|done|]. intros a _ _ E. by cbn in E.
  - intros a. split; [done|]. split; [done|]. intros E. by cbn in E.
Qed.

Lemma status_kept d p s e u t : licenses_kept d (with_licenses d (set_where p (fun l => with_status s (e l) (u l) t l) (db_licenses d))).
Proof. by apply kept_update; [same|]. Qed.

Lemma audit_caps d a : CapInv extra d -> CapInv extra (with_audit d a).
Proof. intros [I F P C]. split; [by apply inv_audit|done..]. Qed.
Lemma purchases_caps d l : CapInv extra d -> CapInv extra (with_purchases d l).
Proof. intros [I F P C]. split; [by apply inv_purchases|done..]. Qed.

Lemma license_update_caps d p f : CapInv extra d -> same_license f -> (forall l, li_seats (f l) = li_seats l /\ bounded (f l) = bounded l) ->
  LicInv (with_licenses d (set_where p f (db_licenses d))) -> CapInv extra (with_licenses d (set_where p f (db_licenses d))).
Proof. intros. apply with_licenses_quiet; [done|done|by apply kept_update]. Qed.

Lemma revokeLicense_caps d st lic a r t : CapInv extra d -> CapInv extra (snd (revokeLicenseInTx d st lic a r t)).
Proof.
  intros H. pose proof (revokeLicense_inv d st lic a r t (cap_inv _ _ H)) as I'. revert I'. unfold revokeLicenseInTx.
  destruct (lockLicense _ _ _) as [l|]; [|done]. destruct (bool_decide _); [done|]. cbn [snd]. intros I'. apply audit_caps.
  set (hit := fun a0 : Activation => _) in *.
  apply (license_update_caps (with_acts d (set_where hit (revoke_columns t) (db_acts d)))); [by apply tombstone_caps|same|done|].
  eapply inv_frame; [exact I'|done..].
Qed.

Lemma restoreLicense_caps d st lic a r t : CapInv extra d -> CapInv extra (snd (restoreLicenseInTx d st lic a r t)).
Proof.
  intros H. pose proof (restoreLicense_inv d st lic a r t (cap_inv _ _ H)) as I'. revert I'. unfold restoreLicenseInTx.
  destruct (lockLicense _ _ _) as [l|]; [|done]. destruct (bool_decide _); [done|].
  destruct (match li_expiresAt l with Some _ => _ | None => _ end); [done|]. cbn [snd]. intros I'. apply audit_caps.
  apply license_update_caps; [done|same|done|]. eapply inv_frame; [exact I'|done..].
Qed.

Lemma reconcileEdit_caps d st o c p g dr t r d' : CapInv extra d -> reconcileEditedOrderLicenses dy d st o c p g dr t = Ok (r, d') -> CapInv extra d'.
Proof.
  intros H E. unfold reconcileEditedOrderLicenses in E. inv_ok. destruct a as [n d3]. inv_ok. eapply issueLicenses_caps; [|exact Em].
  set (hit := fun a0 : Activation => _). pose proof (cap_inv _ _ H) as I.
  apply (license_update_caps (with_acts d (set_where hit (revoke_columns t) (db_acts d)))); [by apply tombstone_caps|same|done|].
  refine (inv_frame (with_acts (with_licenses d (set_where (stranded d st o) (set_status lic_revoked t) (db_licenses d))) (set_where hit (revoke_columns t) (db_acts d))) _ _ eq_refl eq_refl).
  exact (edit_cascade_inv d st o t I).
Qed.

Lemma assoc_put_field k j v fs : k <> j -> assoc_last k (put_field fs j v) = assoc_last k fs.
Proof.
  intros N. unfold put_field. destruct (existsb _ fs).
  - induction fs as [|[x w] fs IH]; [done|]. cbn. destruct (String.eqb_spec x j) as [->|]; cbn; rewrite IH; destruct (assoc_last k fs); try done.
    destruct (String.eqb_spec k j); done.
  - induction fs as [|[x w] fs IH]; cbn; [by destruct (String.eqb_spec k j)|]. by rewrite IH.
Qed.
Lemma assoc_merge k patch : Forall (fun kv => fst kv <> k) patch -> forall fs, assoc_last k (merge_fields fs patch) = assoc_last k fs.
Proof. unfold merge_fields. induction 1 as [|[j v] patch N _ IH]; intros fs; cbn; [done|]. rewrite IH. apply assoc_put_field. intros ->. by apply N. Qed.

Lemma patch_caps d st o patch : op_ok (op_patch st o patch) -> CapInv extra d -> CapInv extra (snd (applyLicenseMetadataPatch d st o patch)).
Proof.
  intros Hop H. pose proof (patch_inv d st o patch (cap_inv _ _ H)) as I'. cbn [snd] in *. apply license_update_caps; [done|same| |exact I'].
  intros l. split; [done|]. cbn. unfold usesBoundedDevicePools. destruct (devicePolicyFor _ _) as [pol|] eqn:Ep; [|done]. f_equal.
  unfold hasCurrentDevicePolicy. rewrite Ep. cbn [metadataRecord]. by rewrite assoc_merge.
Qed.

Lemma find_caps d app tok dev path t : CapInv extra d -> CapInv extra (snd (findActivationByToken dy d app tok dev path t)).
Proof.
  intros H. pose proof (find_inv dy d app tok dev path t (cap_inv _ _ H)) as I'. revert I'. unfold findActivationByToken.
  destruct (omap _ _) as [|[a l] rest]; [done|]. destruct (negb _); [done|].
  destruct (authorize _ _ _ _ _ _ _); try done. destruct (negb _); [done|]. destruct (_ && _); [done|]. cbn [snd]. intros I'.
  by apply set_where_quiet; [| |same|].
Qed.

Lemma filter_caps d p : CapInv extra d -> CapInv extra (with_acts d (List.filter p (db_acts d))).
Proof.
  intros H. eapply cap_quiet; [exact H|by eapply inv_filter, cap_inv| |by apply same_licenses|].
  - intros lic. split; [|intros q]; apply count_filter.
  - intros a Ha. apply elem_filter_bool in Ha as [Ha _]. by apply (cap_class _ _ H).
Qed.

Lemma renew_caps d st app dev le off new t r d' : CapInv extra d -> renewDeviceLease dy d st app dev le off new t = Ok (r, d') -> CapInv extra d'.
Proof.
  intros H E. pose proof (renewDeviceLease_inv dy _ _ _ _ _ _ _ _ _ _ (cap_inv _ _ H) E) as I'. unfold renewDeviceLease in E.
  destruct (List.find _ _) as [a|]; [|by inv_ok]. destruct (negb (is_active a)); [by inv_ok|].
  destruct (license_by_id _ _); [|by inv_ok]. destruct (negb _); [by inv_ok|]. destruct (authorize _ _ _ _ _ _ _); [|by inv_ok|by inv_ok].
  inv_ok. by apply set_where_quiet; [| |same|].
Qed.

Lemma record_caps d act app t : CapInv extra d -> CapInv extra (snd (recordCanonicalEntitlementIssuance d act app t)).
Proof.
  intros H. pose proof (record_inv d act app t (cap_inv _ _ H)) as I'. revert I'. unfold recordCanonicalEntitlementIssuance. destruct (negb _); [done|]. cbn [snd].
  intros I'. by apply set_where_quiet; [| |same|].
Qed.

Lemma mint_caps d i id r t x d' : CapInv extra d -> mintLicense dy d i id r t = Ok (x, d') -> CapInv extra d'.
Proof. intros H E. unfold mintLicense in E. destruct (_ || _); [discriminate|]. inv_ok. eapply insert_license_caps; [exact H| |exact Em]. done. Qed.

Lemma ensure_caps d i l p t r d' : CapInv extra d -> ensureStoreKitLicense dy d i l p t = Ok (r, d') -> CapInv extra d'.
Proof.
  intros H E. unfold ensureStoreKitLicense in E.
  assert (H1 : CapInv extra (insert_license_once d (storekit_license dy i l t))).
  { unfold insert_license_once. destruct (license_free _ _) eqn:Ef; [|done]. eapply insert_license_caps; [exact H| |unfold insert_license; by rewrite Ef]. done. }
  set (d1 := insert_license_once d _) in *.
  destruct (List.find _ (db_licenses _)) as [lic|]; [|discriminate]. unfold insert_purchase_once in E.
  set (d2 := if existsb _ _ then _ else _) in E.
  assert (H2 : CapInv extra d2) by (unfold d2; destruct (existsb _ _); [done|by apply purchases_caps]). clearbody d2.
  destruct (List.find _ (db_purchases d2)) as [pu|]; [|discriminate].
  set (d3 := with_purchases d2 _) in E. assert (H3 : CapInv extra d3) by (by apply purchases_caps). clearbody d3.
  destruct (es_customerId i) as [c|]; [|by inv_ok]. destruct (nonempty (Some c)); [|by inv_ok].
  set (d4 := if negb (nonempty (li_customerId lic)) then _ else d3) in E.
  assert (H4 : CapInv extra d4).
  { unfold d4. destruct (negb _); [|done]. apply license_update_caps; [done|same|done|].
    apply inv_licenses_update; [by eapply cap_inv|same|]. intros m a Hm _ Hr Ha Em. eapply inv_revoked; eauto. by eapply cap_inv. }
  clearbody d4. set (d5 := if negb (nonempty (pu_customerId pu)) then _ else d4) in E.
  assert (H5 : CapInv extra d5) by (unfold d5; destruct (negb _); [by apply purchases_caps|done]). clearbody d5.
  destruct (if negb (nonempty (li_customerId lic)) then _ else _) as [owner|]; [|discriminate].
  destruct (negb _) in E; [by inv_ok|]. destruct (_ && _) in E; by inv_ok.
Qed.

(** What a restoring notification does to each revoked row of the licence. *)
Definition reseat (a : Activation) : Activation :=
  stamp_columns st_active None (ac_entitlementTokenVersion a) (ac_entitlementTokenIssuedAt a) (ac_lastSeenAt a) a.
Lemma notify_shape d n restore t : CapInv extra d ->
  let d' := snd (applyStoreKitNotification d n restore t) in
  CapInv extra d' \/ exists d2 lic, CapInv extra d2 /\ db_acts d2 = db_acts d /\ d' = seats_where d2 lic st_revoked reseat.
Proof.
  intros H. cbn zeta. pose proof (notify_inv d n restore t (cap_inv _ _ H)) as I'. revert I'. unfold applyStoreKitNotification.
  destruct (List.find _ _) as [p|]; [|left; by destruct (sn_action n)].
  set (lic := if nonempty (pu_licenseId p) then _ else _). clearbody lic.
  assert (R : forall d0 e, CapInv extra d0 -> CapInv extra (set_license d0 lic (with_status lic_active e e t))).
  { intros d0 e H0. apply license_update_caps; [done|same|done|]. apply inv_licenses_update; [by eapply cap_inv|same|]. by intros. }
  assert (S : forall d0 e, CapInv extra d0 -> db_acts d0 = db_acts d ->
    let d' := if restore then seats_where (set_license d0 lic (with_status lic_active e e t)) lic st_revoked reseat else set_license d0 lic (with_status lic_active e e t) in
    CapInv extra d' \/ exists d2 lic, CapInv extra d2 /\ db_acts d2 = db_acts d /\ d' = seats_where d2 lic st_revoked reseat).
  { intros d0 e H0 E. cbn zeta. destruct restore; [right|left; by apply R]. eexists _, lic. split; [by apply (R d0 e)|done]. }
  destruct (sn_action n); cbn [snd]; intros I'.
  - left. set (hit := fun a0 : Activation => opt_is lic (ac_licenseId a0) && bool_decide (ac_state a0 = st_active)).
    set (d1 := with_purchases d _) in *. assert (H1 : CapInv extra d1) by (by apply purchases_caps). clearbody d1.
    apply (license_update_caps (with_acts d1 (set_where hit (tombstone st_revoked (Some t) None None) (db_acts d1)))); [by apply tombstone_caps|same|done|].
    eapply inv_frame; [exact I'|done..].
  - apply S; [by apply purchases_caps|done].
  - apply S; [by apply purchases_caps|done].
  - left. apply license_update_caps; [by apply purchases_caps|same|done|exact I'].
  - by left.
Qed.

Definition is_notice (op : LicOp) : bool := match op with op_storekit_notify _ _ _ => true | _ => false end.
Lemma run_op_caps d op d' : no_bypass -> op_ok op -> is_notice op = false -> CapInv extra d -> run_op dy d op = Ok d' -> CapInv extra d'.
Proof.
  intros NB Hop Hn H. destruct op; cbn [run_op]; intros E; try discriminate Hn; try (injection E as <-);
    try (match type of E with bind_result ?m _ = _ => destruct m as [[r x]|] eqn:Em; [injection E as <-|discriminate] end).
  - by eapply issue_lease_caps.
  - by eapply renew_caps.
  - by apply tombstone_caps.
  - by apply tombstone_caps.
  - by eapply activate_caps.
  - by apply find_caps.
  - by apply filter_caps.
  - by apply record_caps.
  - by eapply issueLicenses_caps.
  - by apply patch_caps.
  - by eapply mint_caps.
  - by apply revokeLicense_caps.
  - by apply restoreLicense_caps.
  - by eapply reconcileEdit_caps.
  - by eapply ensure_caps.
  - by eapply storekit_activate_caps.
Qed.
End Caps.

(** *** Devices a StoreKit notification brings back *)

(** By how much an operation, when it is a notification, raises a licence's active devices. *)
Definition brought (dy : Deployment) (d : LicDb) (op : LicOp) (lic : string) : Z :=
  if is_notice op then Z.max 0 (count (q_flat lic) (db_acts (step dy d op)) - count (q_flat lic) (db_acts d)) else 0.
Fixpoint brought_back (dy : Deployment) (d : LicDb) (ops : list LicOp) (lic : string) : Z :=
  match ops with [] => 0 | op :: ops => brought dy d op lic + brought_back dy (step dy d op) ops lic end.
Lemma brought_nonneg dy d op lic : 0 <= brought dy d op lic.
Proof. unfold brought. destruct (is_notice op); lia. Qed.

(** Where rows only become active, a pool gains no more of them than its licence. *)
Lemma count_pool_growth lic pool p f l : same_seat f -> (forall a, a ∈ l -> p a = true -> is_active a = false /\ ac_pool (f a) = ac_pool a) ->
  count (q_pool lic pool) (set_where p f l) - count (q_pool lic pool) l <= count (q_flat lic) (set_where p f l) - count (q_flat lic) l.
Proof.
  intros Hs H. induction l as [|a l IH]; [done|]. specialize (IH (fun x Hx => H x (list_elem_of_further _ _ _ Hx))). cbn [set_where map]. fold (set_where p f l).
  rewrite !count_cons. destruct (p a) eqn:Ep; [|lia]. destruct (H a (list_elem_of_here _ _) Ep) as [Ha Epl]. unfold q_pool at 1 3. unfold q_flat at 1 3.
  rewrite Ha, !andb_false_r. cbn [andb]. destruct (_ && is_active (f a)); cbn [andb]; [destruct (in_pool pool (f a)); lia|lia].
Qed.
Lemma step_caps dy extra d op : (forall lic, 0 <= extra lic) -> no_bypass dy -> op_ok dy op -> CapInv dy extra d ->
  CapInv dy (fun lic => extra lic + brought dy d op lic) (step dy d op).
Proof.
  intros He NB Hop H. assert (Hle : forall lic, 0 <= extra lic <= extra lic + brought dy d op lic).
  { intros lic. pose proof (brought_nonneg dy d op lic). specialize (He lic). lia. }
  destruct (is_notice op) eqn:En.
  - destruct op as [| | | | | | | | | | | | | | | |n restore t]; try discriminate En. assert (I' : LicInv (step dy d (op_storekit_notify n restore t))) by (by apply notify_inv, (cap_inv _ _ _ H)).
    unfold brought in *. rewrite En in *. unfold step in *. cbn [run_op] in *.
    destruct (notify_shape dy extra He d n restore t H) as [H'|(d2 & lic & H2 & E2 & E)]; [by eapply cap_mono|]. rewrite E in *.
    eapply cap_grows; [exact H2|done|intros lic0; specialize (Hle lic0); lia| |by apply same_licenses|].
    + intros l. unfold seats_where. cbn [db_acts with_acts]. rewrite E2. split; [lia|]. intros p.
      match goal with |- context [set_where ?hit reseat _] => pose proof (count_pool_growth l p hit reseat (db_acts d)) as G end.
      assert (G' := G ltac:(same)). lapply G'; [lia|]. intros a _ Ha. apply andb_prop in Ha as [_ Ha]. apply bool_decide_eq_true in Ha.
      unfold is_active. split; [by rewrite bool_decide_eq_false_2 by congruence|done].
    + intros b Hb. apply elem_set_where in Hb as (a & Ha & ->). pose proof (cap_class _ _ _ H2 a Ha) as C. by destruct (_ && _).
  - unfold step. destruct (run_op dy d op) as [d'|] eqn:E; [|by eapply cap_mono]. eapply cap_mono; [by eapply (run_op_caps dy extra)|done].
Qed.
Lemma run_caps dy ops : forall extra d, (forall lic, 0 <= extra lic) -> no_bypass dy -> Forall (op_ok dy) ops -> CapInv dy extra d ->
  CapInv dy (fun lic => extra lic + brought_back dy d ops lic) (run dy d ops).
Proof.
  induction ops as [|op ops IH]; intros extra d He NB Hok H; cbn [run fold_left brought_back].
  - eapply cap_mono; [exact H|]. intros lic. specialize (He lic). lia.
  - apply Forall_cons in Hok as [Hop Hok]. assert (He' : forall lic, 0 <= extra lic + brought dy d op lic).
    { intros lic. pose proof (brought_nonneg dy d op lic). specialize (He lic). lia. }
    pose proof (IH _ _ He' NB Hok (step_caps dy extra d op He NB Hop H)) as H'. unfold run in *. destruct H' as [I F P C]. split; [done| | |done].
    + intros l Hl Hp Hs. specialize (F l Hl Hp Hs). lia.
    + intros l p c Hl Hb Hc. specialize (P l p c Hl Hb Hc). lia.
Qed.

(** C10: Seat and pool caps hold up to what StoreKit brings back. However issues,
    re-issues, moves between pools, renewals, revocations, removals, re-activations,
    purchases and notifications interleave, a licence whose app has no device policy
    has at most its (positive) seats of active devices, and a licence bounded by a
    policy at most the cap of each capped pool, plus the devices that restoring
    StoreKit notifications re-activated, which count nothing
    ([storekit_renewal_exceeds_seats]). The store starts within its caps, no row
    predates the [pool] column ([unclassified_row_escapes_cap]), the registered
    policy lifts no cap ([no_bypass]), and, of policy-governed apps, activation
    sources are registered, StoreKit activates none and no patch forges the policy
    marker ([op_ok]). *)
Theorem seat_caps_hold (dy : Deployment) (d : LicDb) (ops : list LicOp) :
  no_bypass dy -> Forall (op_ok dy) ops -> CapInv dy (fun _ => 0) d ->
  let d' := run dy d ops in
  (forall l, l ∈ db_licenses d' -> devicePolicyFor (dy_policies dy) (li_appKey l) = None -> 0 < li_seats l ->
     Z.of_nat (length (active_of d' (li_id l))) <= li_seats l + brought_back dy d ops (li_id l)) /\
  (forall l p c, l ∈ db_licenses d' -> usesBoundedDevicePools (dy_policies dy) (li_appKey l) (li_seats l) (li_metadata l) = true ->
     poolCap (dy_policies dy) (li_appKey l) p = Some c ->
     Z.of_nat (length (List.filter (in_pool p) (active_of d' (li_id l)))) <= Z.max 0 c + brought_back dy d ops (li_id l)).
Proof.
  intros NB Hok H. cbn zeta. pose proof (run_caps dy ops (fun _ => 0) d (fun _ => Z.le_refl 0) NB Hok H) as H'. split.
  - intros l Hl Hp Hs. pose proof (cap_flat _ _ _ H' l Hl Hp Hs) as F. by rewrite flat_count in F.
  - intros l p c Hl Hb Hc. pose proof (cap_pool _ _ _ H' l p c Hl Hb Hc) as F. unfold q_pool in F. by rewrite active_of_count in F.
Qed.

(** ** Spent leases *)

Definition drawn_lease (op : LicOp) : option string :=
  match op with
  | op_issue_lease _ rnd _ => Some (rnd_leaseId rnd)
  | op_renew _ _ _ _ _ new _ => Some new
  | _ => None
  end.
Definition draws_other (lease : string) (op : LicOp) : Prop := drawn_lease op <> Some lease.

(** Where the lease ids of [d'] come from. *)
Definition leases_from (d d' : LicDb) (drawn : option string) : Prop :=
  forall b, b ∈ db_acts d' -> ac_leaseId b = None \/ (exists x, drawn = Some x /\ ac_leaseId b = Some x) \/
                              (exists a, a ∈ db_acts d /\ ac_id a = ac_id b /\ ac_leaseId a = ac_leaseId b).

Lemma leases_refl d drawn : leases_from d d drawn.
Proof. intros b Hb. right; right. by exists b. Qed.
Lemma leases_same d d' drawn : db_acts d' = db_acts d -> leases_from d d' drawn.
Proof. intros E b Hb. rewrite E in Hb. right; right. by exists b. Qed.
Lemma leases_update d d' p f drawn : db_acts d' = set_where p f (db_acts d) -> same_seat f ->
  (forall a, ac_leaseId (f a) = ac_leaseId a \/ exists x, drawn = Some x /\ ac_leaseId (f a) = Some x) -> leases_from d d' drawn.
Proof.
  intros E Hs Hf b Hb. rewrite E in Hb. apply elem_set_where in Hb as (a & Ha & ->). destruct (p a); [|right; right; by exists a].
  destruct (Hf a) as [Ef|Ef]; [|by right; left]. right; right. exists a. destruct (Hs a) as (-> & _). done.
Qed.
Lemma leases_filter d p drawn : leases_from d (with_acts d (List.filter p (db_acts d))) drawn.
Proof. intros b Hb. apply elem_filter_bool in Hb as [Hb _]. right; right. by exists b. Qed.
Lemma leases_placed d old a d' drawn : placed d old a d' ->
  (ac_leaseId a = None \/ (exists x, drawn = Some x /\ ac_leaseId a = Some x) \/ (exists o, old = Some o /\ ac_id o = ac_id a /\ ac_leaseId o = ac_leaseId a)) ->
  LicInv d -> leases_from d d' drawn.
Proof.
  intros H Ha I b Hb. destruct H as [a f Hin|a]; cbn in Hb.
  - apply elem_set_where in Hb as (c & Hc & ->). destruct (has_id (ac_id a) c) eqn:E; [|right; right; by exists c].
    unfold has_id in E. apply String.eqb_eq in E. assert (c = a) as -> by (apply (NoDup_map_inj ac_id (db_acts d)); [by apply inv_act_ids|done..]).
    destruct Ha as [?|[?|(o & Eo & E1 & E2)]]; [by left|by right; left|]. injection Eo as <-. right; right. by exists a.
  - apply elem_of_app in Hb as [Hb|Hb%list_elem_of_singleton]; [right; right; by exists b|]. subst b.
    destruct Ha as [?|[?|(o & Eo & _)]]; [by left|by right; left|done].
Qed.

Lemma place_lease_lease d input l same pool h le id t e g d' aid gen : LicInv d -> l ∈ db_licenses d ->
  same = List.find (fun a => String.eqb (ac_deviceIdHash a) (in_deviceIdHash input)) (active_of d (li_id l)) ->
  place_lease d input l same pool h le id t e g = Ok (d', aid, gen) -> leases_from d d' (Some le).
Proof.
  intros I Hl -> H. unfold place_lease in H. destruct (List.find _ _) as [a|] eqn:Ef.
  - apply same_device_spec in Ef as (Ha & _). inv_ok. eapply leases_placed; [by eapply update_seat_placed| |done]. right; left. by eexists.
  - destruct (device_row _ _ _) as [a|] eqn:Ed; inv_ok.
    + apply device_row_spec in Ed as (Ha & _). eapply leases_placed; [by eapply update_seat_placed| |done]. right; left. by eexists.
    + eapply leases_placed; [by eapply insert_seat_placed| |done]. right; left. by eexists.
Qed.

Lemma insert_grants_acts dy st o c p dr t grants : forall i d d', insert_grants dy d st o c p dr i t grants = Ok d' -> db_acts d' = db_acts d.
Proof.
  induction grants as [|g gs IH]; intros i d d' H; cbn in H; [by inv_ok|]. inv_ok. rewrite (IH _ _ _ H).
  unfold insert_license in Em. destruct (license_free _ _); [|discriminate]. by injection Em as <-.
Qed.
Lemma issueLicenses_acts dy d st o c p g dr t n d' : issueLicensesForPaidOrder dy d st o c p g dr t = Ok (n, d') -> db_acts d' = db_acts d.
Proof.
  intros H. unfold issueLicensesForPaidOrder in H. destruct (is_nil _); [by inv_ok|]. destruct g as [[p'|]|]; [|by inv_ok|]; inv_ok; by eapply insert_grants_acts.
Qed.
Lemma mint_acts dy d i id r t x d' : mintLicense dy d i id r t = Ok (x, d') -> db_acts d' = db_acts d.
Proof.
  intros H. unfold mintLicense in H. destruct (_ || _); [discriminate|]. inv_ok. unfold insert_license in Em. destruct (license_free _ _); [|discriminate].
  by injection Em as <-.
Qed.
Lemma ensure_acts dy d i l p t r d' : ensureStoreKitLicense dy d i l p t = Ok (r, d') -> db_acts d' = db_acts d.
Proof.
  intros H. unfold ensureStoreKitLicense in H.
  assert (E1 : db_acts (insert_license_once d (storekit_license dy i l t)) = db_acts d) by (unfold insert_license_once; by destruct (license_free _ _)).
  set (d1 := insert_license_once d _) in *. destruct (List.find _ (db_licenses _)) as [lic|]; [|discriminate]. unfold insert_purchase_once in H.
  set (d2 := if existsb _ _ then _ else _) in H. assert (E2 : db_acts d2 = db_acts d) by (unfold d2; by destruct (existsb _ _)). clearbody d2.
  destruct (List.find _ (db_purchases d2)) as [pu|]; [|discriminate]. set (d3 := with_purchases d2 _) in H.
  assert (E3 : db_acts d3 = db_acts d) by done. clearbody d3.
  destruct (es_customerId i) as [c|]; [|by inv_ok]. destruct (nonempty (Some c)); [|by inv_ok].
  set (d4 := if negb (nonempty (li_customerId lic)) then _ else d3) in H. assert (E4 : db_acts d4 = db_acts d) by (unfold d4; by destruct (negb _)). clearbody d4.
  set (d5 := if negb (nonempty (pu_customerId pu)) then _ else d4) in H. assert (E5 : db_acts d5 = db_acts d) by (unfold d5; by destruct (negb _)). clearbody d5.
  destruct (if negb (nonempty (li_customerId lic)) then _ else _) as [owner|]; [|discriminate]. destruct (negb _) in H; [by inv_ok|]. destruct (_ && _) in H; by inv_ok.
Qed.

Lemma run_op_leases dy d op d' : LicInv d -> run_op dy d op = Ok d' -> leases_from d d' (drawn_lease op).
Proof.
  intros I. destruct op; cbn [run_op drawn_lease]; intros H; try (injection H as <-);
    try (match type of H with bind_result ?m _ = _ => destruct m as [[r x]|] eqn:E; [injection H as <-|discriminate] end).
  - unfold issueDeviceLease in E. destruct (derivePool _ _ _) as [pool|]; [|inv_ok; apply leases_refl].
    destruct (negb (nonempty _)); [inv_ok; apply leases_refl|]. destruct (negb _); [inv_ok; apply leases_refl|].
    destruct (lockActiveLicense _ _ _ _ _) as [l|] eqn:El; [|inv_ok; apply leases_refl]. apply lockActive_spec in El as (Hl & _).
    destruct (authorize _ _ _ _ _ _ _); [|inv_ok; apply leases_refl|inv_ok; apply leases_refl]. destruct (_ && _); [inv_ok; apply leases_refl|].
    destruct (place_lease _ _ _ _ _ _ _ _ _ _ _) as [[[d1 aid] gen]|] eqn:Epl; [|discriminate E]. cbn [bind_result] in E.
    destruct (seal_lease _ _ _ _ _ _ _ _ _ _ _ _) as [lease|]; [|discriminate E]. injection E as <- <-. by eapply place_lease_lease.
  - unfold renewDeviceLease in E. destruct (List.find _ _) as [a|]; [|inv_ok; apply leases_refl]. destruct (negb (is_active a)); [inv_ok; apply leases_refl|].
    destruct (license_by_id _ _); [|inv_ok; apply leases_refl]. destruct (negb _); [inv_ok; apply leases_refl|].
    destruct (authorize _ _ _ _ _ _ _); [|inv_ok; apply leases_refl|inv_ok; apply leases_refl].
    inv_ok. eapply leases_update; [done|same|]. intros b. right. by eexists.
  - eapply leases_update; [done|same|by left].
  - eapply leases_update; [done|same|by left].
  - unfold activateLicenseOnDevice in E. destruct (List.find _ _) as [l|] eqn:El; [|inv_ok; apply leases_refl]. destruct (negb _); [inv_ok; apply leases_refl|].
    destruct (authorize _ _ _ _ _ _ _); [|inv_ok; apply leases_refl|inv_ok; apply leases_refl]. destruct (negb _); [inv_ok; apply leases_refl|].
    destruct (flat_full _ _ _); [inv_ok; apply leases_refl|]. destruct (pool_full _ _ _ _ _ _ _); [inv_ok; apply leases_refl|].
    destruct (device_row _ _ _) as [a|] eqn:Ed; inv_ok.
    + apply device_row_spec in Ed as (Ha & _). eapply leases_placed; [by eapply update_seat_placed| |done]. right; right. by eexists.
    + eapply leases_placed; [by eapply insert_seat_placed| |done]. by left.
  - unfold findActivationByToken. destruct (omap _ _) as [|[a l] rest]; [apply leases_refl|]. destruct (negb _); [apply leases_refl|].
    destruct (authorize _ _ _ _ _ _ _); try apply leases_refl. destruct (negb _); [apply leases_refl|]. destruct (_ && _); [apply leases_refl|].
    eapply leases_update; [done|same|by left].
  - apply leases_filter.
  - unfold recordCanonicalEntitlementIssuance. destruct (negb _); [apply leases_refl|]. eapply leases_update; [done|same|by left].
  - apply leases_same. by eapply issueLicenses_acts.
  - by apply leases_same.
  - apply leases_same. by eapply mint_acts.
  - unfold revokeLicenseInTx. destruct (lockLicense _ _ _); [|apply leases_refl]. destruct (bool_decide _); [apply leases_refl|].
    eapply leases_update; [done|same|by left].
  - unfold restoreLicenseInTx. destruct (lockLicense _ _ _) as [l|]; [|apply leases_refl]. destruct (bool_decide _); [apply leases_refl|].
    destruct (match li_expiresAt l with Some _ => _ | None => _ end); [apply leases_refl|by apply leases_same].
  - unfold reconcileEditedOrderLicenses in E. inv_ok. destruct a as [n d3]. inv_ok. apply issueLicenses_acts in Em.
    eapply leases_update; [exact Em|same|by left].
  - apply leases_same. by eapply ensure_acts.
  - unfold issueStoreKitActivation in E. destruct (List.find _ _) as [l|] eqn:El; [|inv_ok; apply leases_refl]. destruct (_ || _); [inv_ok; apply leases_refl|].
    destruct (authorize _ _ _ _ _ _ _); [|inv_ok; apply leases_refl|inv_ok; apply leases_refl]. destruct (flat_full _ _ _); [inv_ok; apply leases_refl|].
    destruct (device_row _ _ _) as [a|] eqn:Ed; inv_ok.
    + apply device_row_spec in Ed as (Ha & _). eapply leases_placed; [by eapply update_seat_placed| |done]. right; right. by eexists.
    + eapply leases_placed; [by eapply insert_seat_placed| |done]. by left.
  - unfold applyStoreKitNotification. destruct (List.find _ _) as [p|]; [|by destruct (sn_action n); apply leases_refl].
    destruct (sn_action n); cbn [snd]; try destruct restoreActivations; try (by apply leases_same); eapply leases_update; try done; try same; by left.
Qed.

Lemma omap_inj {A B} (f : A -> option B) l x y k : NoDup (omap f l) -> x ∈ l -> y ∈ l -> f x = Some k -> f y = Some k -> x = y.
Proof.
  induction l as [|z l IH]; intros Hn Hx Hy Ex Ey; [by inversion Hx|]. cbn in Hn.
  assert (T : forall w, w ∈ l -> f w = Some k -> k ∈ omap f l) by (intros w Hw Ew; apply list_elem_of_omap; by exists w).
  apply elem_of_cons in Hx as [->|Hx]; apply elem_of_cons in Hy as [->|Hy]; [done| | |].
  - rewrite Ex in Hn. inversion Hn; subst. exfalso. eauto.
  - rewrite Ey in Hn. inversion Hn; subst. exfalso. eauto.
  - apply IH; auto. destruct (f z); [by inversion Hn|done].
Qed.

Definition lease_unused (d : LicDb) (lease : string) : Prop := forall a, a ∈ db_acts d -> ac_leaseId a <> Some lease.

Lemma lease_unused_run dy d ops lease : LicInv d -> lease_unused d lease -> Forall (draws_other lease) ops ->
  LicInv (run dy d ops) /\ lease_unused (run dy d ops) lease.
Proof.
  intros I U Hf. apply (run_invariant (fun d => LicInv d /\ lease_unused d lease) (draws_other lease) dy); [|done|done].
  intros d0 op d1 Hd [I0 U0] E. split; [by eapply run_op_inv|]. intros b Hb Eb. destruct (run_op_leases dy d0 op d1 I0 E b Hb) as [N|[(x & Ed & Ex)|(a & Ha & _ & Ea)]].
  - congruence.
  - apply Hd. congruence.
  - apply (U0 a Ha). congruence.
Qed.

(** A lease id is spent for good once the row that carried it carries another:
    whatever handlers run afterwards, renewing it finds nothing and a delayed
    offline removal that presents it changes nothing. *)
Theorem spent_lease_is_dead (dy : Deployment) (d : LicDb) (op : LicOp) (d1 : LicDb) (a b : Activation) (lease : string) (ops : list LicOp) :
  LicInv d -> NoDup (omap ac_leaseId (db_acts d)) -> draws_other lease op -> Forall (draws_other lease) ops ->
  run_op dy d op = Ok d1 -> a ∈ db_acts d -> ac_leaseId a = Some lease -> b ∈ db_acts d1 -> ac_id b = ac_id a -> ac_leaseId b <> Some lease ->
  let d2 := run dy d1 ops in
  forall st app dev off new t,
    renewDeviceLease dy d2 st app dev lease off new t = Ok (renew_notfound, d2) /\ removeDeviceOffline d2 st app dev lease t = d2.
Proof.
  intros I Hn Hop Hops E Ha Ea Hb Eid Eb. cbn zeta. assert (I1 : LicInv d1) by (by eapply run_op_inv).
  assert (U1 : lease_unused d1 lease).
  { intros c Hc Ec. destruct (run_op_leases dy d op d1 I E c Hc) as [N|[(x & Ed & Ex)|(a' & Ha' & Ei & El)]]; [congruence|apply Hop; congruence|].
    assert (a' = a) as ->.
    { apply (omap_inj ac_leaseId _ _ _ lease Hn Ha' Ha); congruence. }
    assert (c = b) as ->; [|done]. apply (NoDup_map_inj ac_id (db_acts d1)); [by apply inv_act_ids|done..|congruence]. }
  destruct (lease_unused_run dy d1 ops lease I1 U1 Hops) as [_ U2]. intros st app dev off new t.
  assert (Hno : forall c, c ∈ db_acts (run dy d1 ops) -> lease_matches st app dev lease c = false).
  { intros c Hc. unfold lease_matches. destruct (opt_is (ac_leaseId c) lease) eqn:El; [|by rewrite andb_false_r].
    exfalso. apply (U2 c Hc). unfold opt_is in El. destruct (ac_leaseId c); [|done]. apply String.eqb_eq in El. congruence. }
  split.
  - unfold renewDeviceLease. destruct (List.find _ _) as [c|] eqn:Ef; [|done]. apply find_elem in Ef as [Hc Em]. by rewrite Hno in Em.
  - unfold removeDeviceOffline, set_where. rewrite (map_ext_in _ (fun x => x)).
    + rewrite map_id. by destruct (run dy d1 ops).
    + intros c Hc. apply list_elem_of_In in Hc. by rewrite Hno.
Qed.

(** ** Instances *)

Lemma sample_caps : CapInv sample_dy (fun _ => 0) sample_db.
Proof.
  split; [apply sample_inv| | |].
  - intros l Hl _ Hs. unfold count. cbn. lia.
  - intros l p c _ _ _. unfold count. cbn. lia.
  - intros a Ha. by inversion Ha.
Qed.

Definition busy_ops : list LicOp :=
  [op_issue_lease (lease_input "studio" "K1" "h:d1" "macos") (draws "1") 1000; op_issue_lease (lease_input "studio" "K1" "h:d2" "windows") (draws "2") 2000;
   op_issue_lease (lease_input "studio" "K1" "h:d3" "linux") (draws "3") 3000; op_issue_lease (lease_input "studio" "K1" "h:d1" "ios") (draws "4") 4000;
   op_activate (activate_input "studio" "K1" "d3") (draws "5") 5000; op_activate (activate_input "studio" "K1" "d1") (draws "6") 6000;
   op_activate (activate_input "plain" "K2" "d1") (draws "7") 7000; op_activate (activate_input "plain" "K2" "d2") (draws "8") 8000].

Definition sk_source : VerifiedStoreKitLicenseSource :=
  {| sk_originalTransactionId := "t1"; sk_transactionId := None; sk_bundleId := "b"; sk_environment := "Production"; sk_productId := None;
     sk_purchaseDate := None; sk_expiresDate := None |}.
Definition sk_ensure : EnsureInput :=
  {| es_storeId := "s1"; es_appKey := "plain"; es_source := sk_source;
     es_entitlement := Some {| se_tier := None; se_seats := Some 1; se_licenseDurationDays := None; se_updatesDurationDays := None |}; es_customerId := None |}.
Definition sk_device (device : string) : StoreKitActivateInput :=
  {| sa_storeId := "s1"; sa_appKey := "plain"; sa_licenseKey := storeKitLicenseKey sample_dy "plain" sk_source; sa_deviceIdHash := device;
     sa_deviceLabel := None; sa_platform := None |}.
Definition sk_notice (action : StoreKitNotificationAction) : StoreKitNotification :=
  {| sn_storeId := "s1"; sn_action := action; sn_environment := "Production"; sn_originalTransactionId := "t1"; sn_transactionId := None;
     sn_notificationType := "DID_RENEW"; sn_notificationUUID := "u"; sn_expiresDate := None; sn_revocationDate := None |}.
Definition empty_db : LicDb := {| db_licenses := []; db_acts := []; db_purchases := []; db_lines := []; db_audit := [] |}.

(** A one-seat StoreKit purchase: the owner removes phone A, pairs phone B, and
    the next subscription renewal re-activates A. *)
Definition sk_story : list LicOp :=
  [op_ensure_storekit sk_ensure "lic" "pur" 0; op_storekit_activate (sk_device "phoneA") (draws "A") 1; op_revoke_device "s1" "lic" "actA" 2;
   op_storekit_activate (sk_device "phoneB") (draws "B") 3; op_storekit_notify (sk_notice sk_renew) true 4].

(** The third computer is refused until the first becomes a phone; the StoreKit
    renewal brings one device more back than its licence has seats. *)
Lemma seat_caps_hold_witness :
  let ops := busy_ops ++ sk_story in let d' := run sample_dy sample_db ops in
  map (fun a => (ac_id a, ac_pool a)) (List.filter is_active (db_acts d'))
    = [("act1", Some "mobile"); ("act2", Some "computer"); ("act5", Some "computer"); ("act7", None); ("actA", None); ("actB", None)] /\
  map (fun l => brought_back sample_dy sample_db ops (li_id l)) (db_licenses d') = [0; 0; 1] /\
  (forall l, l ∈ db_licenses d' -> devicePolicyFor (dy_policies sample_dy) (li_appKey l) = None -> 0 < li_seats l ->
     Z.of_nat (length (active_of d' (li_id l))) <= li_seats l + brought_back sample_dy sample_db ops (li_id l)) /\
  (forall l p c, l ∈ db_licenses d' -> usesBoundedDevicePools (dy_policies sample_dy) (li_appKey l) (li_seats l) (li_metadata l) = true ->
     poolCap (dy_policies sample_dy) (li_appKey l) p = Some c ->
     Z.of_nat (length (List.filter (in_pool p) (active_of d' (li_id l)))) <= Z.max 0 c + brought_back sample_dy sample_db ops (li_id l)).
Proof.
  cbn zeta. split; [vm_compute; reflexivity|]. split; [vm_compute; reflexivity|]. apply (seat_caps_hold sample_dy sample_db (busy_ops ++ sk_story)).
  - done.
  - repeat constructor; cbn; intros H; try discriminate H; eexists; (split; [reflexivity|reflexivity]).
  - apply sample_caps.
Defined.

Definition rotated (d : LicDb) : LicDb := step sample_dy d (op_renew "s1" "studio" "h:d1" "lease1" None "leaseX" 1500).
Definition leased_db : LicDb := run sample_dy sample_db [op_issue_lease (lease_input "studio" "K1" "h:d1" "macos") (draws "1") 1000].

(** A renewed lease: the old id neither renews nor removes, whatever follows. *)
Lemma spent_lease_is_dead_witness :
  let d2 := run sample_dy (rotated leased_db) (tail busy_ops) in
  map ac_leaseId (db_acts (rotated leased_db)) = [Some "leaseX"] /\
  forall st app dev off new t,
    renewDeviceLease sample_dy d2 st app dev "lease1" off new t = Ok (renew_notfound, d2) /\ removeDeviceOffline d2 st app dev "lease1" t = d2.
Proof.
  split; [vm_compute; reflexivity|].
  assert (I : LicInv leased_db).
  { apply (run_invariant LicInv (fun _ => True) sample_dy); [|repeat constructor|apply sample_inv]. intros. by eapply run_op_inv. }
  destruct (db_acts leased_db) as [|a l] eqn:Ea; [discriminate (f_equal length Ea)|].
  destruct (db_acts (rotated leased_db)) as [|b l'] eqn:Eb; [discriminate (f_equal length Eb)|].
  assert (Fa : ac_leaseId a = Some "lease1" /\ ac_id a = "act1") by (vm_compute in Ea; injection Ea as <- _; done).
  assert (Fb : ac_leaseId b = Some "leaseX" /\ ac_id b = "act1") by (vm_compute in Eb; injection Eb as <- _; done).
  destruct Fa as [Fa Ia]. destruct Fb as [Fb Ib].
  refine (spent_lease_is_dead sample_dy leased_db (op_renew "s1" "studio" "h:d1" "lease1" None "leaseX" 1500) (rotated leased_db) a b "lease1" (tail busy_ops)
            I _ _ _ _ _ Fa _ _ _).
  - vm_compute. repeat constructor; set_solver.
  - discriminate.
  - repeat constructor; discriminate.
  - vm_compute. reflexivity.
  - rewrite Ea. by left.
  - rewrite Eb. by left.
  - congruence.
  - by rewrite Fb.
Defined.

(** ** What the caps do not cover *)

(** A StoreKit renewal re-activates every revoked device of the licence without
    counting: a one-seat licence ends with two active devices. *)
Theorem storekit_renewal_exceeds_seats :
  let d := run sample_dy empty_db sk_story in
  map (fun l => (li_seats l, is_some (devicePolicyFor (dy_policies sample_dy) (li_appKey l)), map ac_id (active_of d (li_id l)))) (db_licenses d)
  = [(1, false, ["actA"; "actB"])].
Proof. vm_compute. reflexivity. Qed.

(** A row written before the [pool] column existed: only its class says it is a computer. *)
Definition legacy_row (n : string) : Activation :=
  {| ac_id := "old" +:+ n; ac_storeId := "s1"; ac_licenseId := "lic1"; ac_appKey := "studio"; ac_deviceIdHash := "h:old" +:+ n; ac_tokenHash := None;
     ac_deviceLabel := None; ac_deviceClass := Some "mac"; ac_platform := None; ac_pool := None; ac_state := st_active; ac_generation := 0;
     ac_revokedAt := None; ac_removedAt := None; ac_leaseId := None; ac_leaseIssuedAt := None; ac_leaseExpiresAt := None; ac_leaseGraceSeconds := None;
     ac_updatedAt := 0; ac_entitlementTokenVersion := None; ac_entitlementTokenIssuedAt := None; ac_activatedAt := 0; ac_lastSeenAt := 0 |}.
Definition legacy_db : LicDb := with_acts sample_db [legacy_row "1"; legacy_row "2"].

(** The legacy path counts pool-less rows by their class and refuses a third
    computer; the lease path counts the [pool] column only and admits it. *)
Theorem unclassified_row_escapes_cap :
  (exists d, activateLicenseOnDevice sample_dy legacy_db (activate_input "studio" "K1" "d3") (draws "3") 1000 = Ok (act_full, d)) /\
  let d := step sample_dy legacy_db (op_issue_lease (lease_input "studio" "K1" "h:d3" "macos") (draws "3") 1000) in
  map (fun a => (ac_id a, storedPool a)) (active_of d "lic1") = [("old1", Some "computer"); ("old2", Some "computer"); ("act3", Some "computer")] /\
  poolCap (dy_policies sample_dy) "studio" "computer" = Some 2.
Proof. split; [eexists; vm_compute; reflexivity|]. split; vm_compute; reflexivity. Qed.

(** The legacy activation keeps the lease columns: a device that gave up its seat
    and came back through it still answers to the old lease id, so a delayed
    offline removal revokes the later re-activation, and the old lease renews. *)
Theorem legacy_reactivation_revives_lease :
  let gone := removeDeviceOffline leased_db "s1" "studio" "h:d1" "lease1" 2000 in
  let back := step sample_dy gone (op_activate (activate_input "studio" "K1" "d1") (draws "9") 3000) in
  map ac_state (db_acts gone) = [st_removed] /\ map ac_state (db_acts back) = [st_active] /\
  map ac_state (db_acts (removeDeviceOffline back "s1" "studio" "h:d1" "lease1" 4000)) = [st_removed] /\
  match renewDeviceLease sample_dy back "s1" "studio" "h:d1" "lease1" None "leaseY" 4000 with Ok (renew_ok _, _) => True | _ => False end.
Proof. cbn zeta. repeat split; vm_compute; reflexivity || exact I. Qed.
