(* ===== verification/LicenseIssue.v ===== *)
(** Licence issuance for a paid order, and the gate on editing licensed lines. *)

From S2P Require Import Prelude JsNumber JsDate Json LicensePolicy Licenses LicenseFacts.
From Stdlib Require Import ZArith QArith Lia Bool String Ascii.
From stdpp Require Import base list strings gmap.
Local Open Scope string_scope.
Local Open Scope list_scope.
Local Open Scope Z_scope.

Definition grants_on (lineId : string) (grants : list LicenseGrant) : nat := length (List.filter (fun g => String.eqb (gr_orderLineId g) lineId) grants).

(** Each licence on file absorbs one grant of its line. *)
Lemma shortfall_count lineId grants : forall remaining, grants_on lineId (shortfall remaining grants) = (grants_on lineId grants - remaining lineId)%nat.
Proof.
  unfold grants_on. induction grants as [|g gs IH]; intros remaining; cbn [shortfall List.filter]; [cbn; lia|].
  destruct (0 <? remaining (gr_orderLineId g))%nat eqn:E.
  - apply Nat.ltb_lt in E. rewrite IH. cbv beta. rewrite (String.eqb_sym lineId). destruct (String.eqb_spec (gr_orderLineId g) lineId) as [Eq|N]; [rewrite Eq in E|]; cbn [length]; lia.
  - apply Nat.ltb_ge in E. cbn [List.filter]. destruct (String.eqb_spec (gr_orderLineId g) lineId) as [Eq|N]; [rewrite Eq in E|]; cbn [length]; rewrite IH; lia.
Qed.

(** What an order line is owed. *)
Definition owed (d : LicDb) (orderId : string) (now : Z) (lineId : string) : nat := grants_on lineId (buildLicenseGrants (grant_lines d orderId) now).

Lemma line_grants_on now lineId line :
  grants_on lineId (line_grants now line) =
  if String.eqb (gi_orderLineId line) lineId && isEntitlementBearing (gi_fulfillmentType line) (gi_appKey line) then Z.to_nat (gi_quantity line) else O.
Proof.
  unfold line_grants. destruct (isEntitlementBearing _ _) eqn:E; [|by rewrite andb_false_r].
  destruct (gi_appKey line) as [k|]; [|unfold isEntitlementBearing in E; by rewrite andb_false_r in E]. rewrite andb_true_r.
  unfold grants_on. induction (Z.to_nat (gi_quantity line)) as [|n IH]; cbn; [by destruct (String.eqb _ _)|].
  destruct (String.eqb (gi_orderLineId line) lineId); cbn in *; lia.
Qed.

Lemma grants_on_app lineId g1 g2 : grants_on lineId (g1 ++ g2) = (grants_on lineId g1 + grants_on lineId g2)%nat.
Proof. unfold grants_on. by rewrite List.filter_app, length_app. Qed.

Lemma build_grants_on now lineId lines : grants_on lineId (buildLicenseGrants lines now) = list_sum (map (fun l => grants_on lineId (line_grants now l)) lines).
Proof. unfold buildLicenseGrants. induction lines as [|l ls IH]; [done|]. cbn [map List.concat list_sum]. by rewrite grants_on_app, IH. Qed.

Lemma owed_line now lines line : NoDup (map gi_orderLineId lines) -> line ∈ lines -> isEntitlementBearing (gi_fulfillmentType line) (gi_appKey line) = true ->
  grants_on (gi_orderLineId line) (buildLicenseGrants lines now) = Z.to_nat (gi_quantity line).
Proof.
  intros Hn Hin He. rewrite build_grants_on. induction lines as [|x xs IH]; [by inversion Hin|].
  inversion Hn as [|? ? Hni Hn']; subst. cbn [map list_sum list_sum fold_right]. apply elem_of_cons in Hin as [<-|Hin].
  - rewrite line_grants_on, String.eqb_refl, He. cbn [andb].
    assert (Z : list_sum (map (fun l => grants_on (gi_orderLineId line) (line_grants now l)) xs) = O); [|unfold list_sum in Z; rewrite Z; lia].
    clear -Hni. induction xs as [|y ys IH]; [done|]. cbn [map list_sum fold_right]. fold (list_sum (map (fun l => grants_on (gi_orderLineId line) (line_grants now l)) ys)).
    rewrite IH by (intros H; apply Hni; by right). rewrite line_grants_on. destruct (String.eqb_spec (gi_orderLineId y) (gi_orderLineId line)) as [E|]; [|done].
    exfalso. apply Hni. rewrite <- E. by left.
  - specialize (IH Hn' Hin). unfold list_sum in IH. rewrite IH, line_grants_on. destruct (String.eqb_spec (gi_orderLineId x) (gi_orderLineId line)) as [E|]; [|done].
    exfalso. apply Hni. rewrite E. apply list_elem_of_fmap. by exists line.
Qed.

Lemma issued_for_insert d l d' lineId : insert_license d l = Ok d' ->
  issued_for d' lineId = (issued_for d lineId + if opt_is (li_orderLineId l) lineId then 1 else 0)%nat /\ db_lines d' = db_lines d /\ db_acts d' = db_acts d /\
  exists rest, db_licenses d' = db_licenses d ++ rest.
Proof.
  unfold insert_license. destruct (license_free d l); [|discriminate]. intros H. injection H as <-. unfold issued_for. cbn.
  rewrite List.filter_app, length_app. cbn. split; [by destruct (opt_is _ _)|]. repeat split. by eexists.
Qed.

Lemma insert_grants_issued dy st o c p dr t lineId grants : forall i d d', insert_grants dy d st o c p dr i t grants = Ok d' ->
  issued_for d' lineId = (issued_for d lineId + grants_on lineId grants)%nat /\ db_lines d' = db_lines d /\ db_acts d' = db_acts d /\
  exists rest, db_licenses d' = db_licenses d ++ rest.
Proof.
  induction grants as [|g gs IH]; intros i d d' H; cbn in H.
  - inv_ok. unfold grants_on. cbn. split; [lia|]. repeat split. exists []. by rewrite app_nil_r.
  - inv_ok. destruct (issued_for_insert _ _ _ lineId Em) as (E1 & E2 & E3 & r1 & E4). destruct (IH _ _ _ H) as (I1 & I2 & I3 & r2 & I4).
    split; [|repeat split; [congruence..|]].
    + rewrite I1, E1. unfold grants_on. cbn. unfold opt_is. cbn. destruct (String.eqb _ _); cbn [length]; lia.
    + exists (r1 ++ r2). by rewrite I4, E4, app_assoc.
Qed.

(** C12: C: Issuing the licences of a paid order tops every line up to what it is owed
    and never beyond: a line that carries an entitlement ends with as many
    licences as its billed quantity, or as it already had when that is more;
    existing licences, devices and lines are untouched; and issuing again inserts
    nothing. *)
Theorem license_issuance_converges (dy : Deployment) (d : LicDb) (st orderId : string) (customer : option string) (paidAt : option Z)
    (gate : option (option (option (list (string * json))))) (draw draw' : nat -> string * string) (now now' : Z) (n : nat) (d' : LicDb) :
  gate <> Some None -> issueLicensesForPaidOrder dy d st orderId customer paidAt gate draw now = Ok (n, d') ->
  (forall line, line ∈ grant_lines d orderId -> isEntitlementBearing (gi_fulfillmentType line) (gi_appKey line) = true ->
     NoDup (map gi_orderLineId (grant_lines d orderId)) ->
     issued_for d' (gi_orderLineId line) = Nat.max (issued_for d (gi_orderLineId line)) (Z.to_nat (gi_quantity line))) /\
  (exists rest, db_licenses d' = db_licenses d ++ rest) /\ db_acts d' = db_acts d /\ db_lines d' = db_lines d /\
  issueLicensesForPaidOrder dy d' st orderId customer paidAt gate draw' now' = Ok (O, d').
Proof.
  intros Hg H. unfold issueLicensesForPaidOrder in H. set (grants := buildLicenseGrants _ _) in H.
  assert (K : forall lineId, issued_for d' lineId = (issued_for d lineId + (grants_on lineId grants - issued_for d lineId))%nat /\
    db_lines d' = db_lines d /\ db_acts d' = db_acts d /\ exists rest, db_licenses d' = db_licenses d ++ rest).
  { intros lineId. rewrite <- (shortfall_count lineId grants (issued_for d)). destruct (shortfall (issued_for d) grants) as [|g gs] eqn:Es; cbn [is_nil] in H.
    - injection H as <- <-. unfold grants_on. cbn. split; [lia|]. repeat split. exists []. by rewrite app_nil_r.
    - destruct gate as [[p|]|]; [|done|]; inv_ok; by apply insert_grants_issued with (lineId := lineId) in Em. }
  clear H. destruct (K "") as (_ & KL & KA & KR). split; [|split; [done|split; [done|split; [done|]]]].
  - intros line Hline He Hn. destruct (K (gi_orderLineId line)) as [-> _].
    unfold grants. rewrite owed_line by done. lia.
  - unfold issueLicensesForPaidOrder. set (grants' := buildLicenseGrants _ _).
    assert (Z : shortfall (issued_for d') grants' = []); [|by rewrite Z].
    assert (N : forall lineId, grants_on lineId (shortfall (issued_for d') grants') = O).
    { intros lineId. rewrite shortfall_count. destruct (K lineId) as [-> _].
      assert (E : grants_on lineId grants' = grants_on lineId grants); [|rewrite E; lia].
      unfold grants', grants. rewrite !build_grants_on. unfold grant_lines. rewrite KL. f_equal. apply map_ext. intros l. by rewrite !line_grants_on. }
    destruct (shortfall _ _) as [|g gs]; [done|]. specialize (N (gr_orderLineId g)). unfold grants_on in N. cbn in N. by rewrite String.eqb_refl in N.
Qed.

Lemma set_where_none {A} (p : A -> bool) f l : (forall x, x ∈ l -> p x = false) -> set_where p f l = l.
Proof.
  intros H. unfold set_where. rewrite (map_ext_in _ (fun x => x)); [by rewrite map_id|]. intros x Hx. apply list_elem_of_In in Hx. by rewrite H.
Qed.

Lemma live_on_line_pos rows l lineId : l ∈ rows -> li_orderLineId l = Some lineId -> li_status l <> lic_revoked -> 1 <= live_on_line rows lineId.
Proof.
  intros Hl E Hs. unfold live_on_line.
  assert (Hin : l ∈ List.filter (fun l => opt_is (li_orderLineId l) lineId && negb (bool_decide (li_status l = lic_revoked))) rows).
  { apply elem_filter_bool. split; [done|]. rewrite E. cbn. rewrite String.eqb_refl. by rewrite bool_decide_eq_false_2. }
  destruct (List.filter _ rows); [by inversion Hin|]. cbn [length]. lia.
Qed.

(** C13: C: The gate on editing licensed lines is sound: when it reports no violation and
    the order's lines then have the proposed quantities, settling the edit revokes
    no licence and no device, and a line that still carries a live licence keeps
    its variant. *)
Theorem edit_gate_protects_licenses (dy : Deployment) (d d' : LicDb) (st orderId : string) (proposed : list ProposedLine) :
  licensedLineEditViolations d st orderId proposed = [] -> db_licenses d' = db_licenses d ->
  (forall ol p, ol ∈ db_lines d' -> map_find pr_id (ol_id ol) proposed = Some p -> ol_quantity ol - ol_editRemovedQty ol = pr_quantity p) ->
  (forall customer paidAt gate draw now i r d'', reconcileEditedOrderLicenses dy d' st orderId customer paidAt gate draw now = Ok ((i, r), d'') ->
     r = O /\ db_acts d'' = db_acts d' /\ exists rest, db_licenses d'' = db_licenses d ++ rest) /\
  (forall l lineId p ol, l ∈ db_licenses d -> order_issued st orderId l = true -> li_orderLineId l = Some lineId -> 
     map_find pr_id lineId proposed = Some p ->
     map_find ol_id lineId (List.filter (fun ol => String.eqb (ol_storeId ol) st && String.eqb (ol_orderId ol) orderId) (db_lines d)) = Some ol ->
     pr_variantId p = ol_variantId ol).
Proof.
  intros Hv El Hq. set (rows := List.filter (fun l => order_issued st orderId l && is_some (li_orderLineId l)) (db_licenses d)).
  assert (V : forall l lineId, l ∈ db_licenses d -> order_issued st orderId l = true -> li_orderLineId l = Some lineId ->
     l ∈ rows /\ line_violates d st orderId rows proposed lineId = false).
  { intros l lineId Hl Ho Eline. assert (Hin : l ∈ rows) by (apply elem_filter_bool; split; [done|]; by rewrite Ho, Eline). split; [done|].
    apply not_true_iff_false. intros Hbad. assert (Hx : lineId ∈ licensedLineEditViolations d st orderId proposed); [|rewrite Hv in Hx; by inversion Hx].
    apply elem_filter_bool. split; [|done]. apply elem_uniq, list_elem_of_omap. by exists l. }
  split.
  - assert (S : forall l, l ∈ db_licenses d' -> stranded d' st orderId l = false).
    { intros l Hl. rewrite El in Hl. apply not_true_iff_false. intros Hs. unfold stranded in Hs. bool_props.
      match goal with H : existsb _ _ = true |- _ => apply existsb_exists in H as (ol & Hol & E) end. bool_props.
      destruct (li_orderLineId l) as [lineId|] eqn:Eline; [|done].
      repeat match goal with H : opt_is _ _ = true |- _ => cbn in H; apply String.eqb_eq in H end. subst lineId.
      match goal with H : bool_decide _ = false |- _ => apply bool_decide_eq_false in H; rename H into Hlive end.
      destruct (V l (ol_id ol) Hl ltac:(done) Eline) as [Hin Hno]. unfold line_violates in Hno. apply orb_false_iff in Hno as [_ Hno].
      pose proof (live_on_line_pos rows l (ol_id ol) Hin Eline Hlive) as Hpos. rewrite (proj2 (Z.ltb_lt _ _)) in Hno by lia. cbn [andb] in Hno.
      destruct (map_find pr_id (ol_id ol) proposed) as [p|] eqn:Ep; [|done]. apply Z.ltb_ge in Hno.
      rewrite <- list_elem_of_In in Hol. specialize (Hq ol p Hol Ep). lia. }
    assert (F : List.filter (stranded d' st orderId) (db_licenses d') = []).
    { clear -S. induction (db_licenses d') as [|l ls IH]; [done|]. cbn. rewrite S by (by left). apply IH. intros. apply S. by right. }
    intros customer paidAt gate draw now i r d'' H. unfold reconcileEditedOrderLicenses in H. rewrite F in H. cbn [map length] in H.
    rewrite set_where_none in H by done. rewrite set_where_none in H by (intros a _; cbn; by rewrite andb_false_r).
    inv_ok. destruct a as [n d3]. inv_ok. split; [done|].
    unfold issueLicensesForPaidOrder in Em. rewrite <- El. destruct (is_nil _); [inv_ok; split; [done|exists []; by rewrite app_nil_r]|].
    destruct gate as [[p|]|]; [|inv_ok; split; [done|exists []; by rewrite app_nil_r]|]; inv_ok;
      match goal with H : insert_grants _ _ _ _ _ _ _ _ _ _ = _ |- _ => apply insert_grants_issued with (lineId := "") in H as (_ & _ & E2 & rest & E3) end;
      (split; [done|by exists rest]).
  - intros l lineId p ol Hl Ho Eline Ep Eol. destruct (V l lineId Hl Ho Eline) as [_ Hno]. unfold line_violates in Hno.
    rewrite Ep, Eol in Hno. apply orb_false_iff in Hno as [Hno _]. apply negb_false_iff, bool_decide_eq_true in Hno. done.
Qed.

(** *** An order of two licensed lines, one of them half issued *)

Definition licensed_variant (appKey : string) : VariantFacts :=
  {| vf_fulfillmentType := "license"; vf_appKey := Some appKey; vf_licenseSeats := Some 3; vf_updatesDurationDays := Some 365;
     vf_licenseDurationDays := None; vf_metafields := JObj [("tier", JStr "pro")] |}.
Definition order_line (id : string) (quantity removed : Z) : OrderLineRow :=
  {| ol_id := id; ol_storeId := "s1"; ol_orderId := "o1"; ol_variantId := Some "v1"; ol_quantity := quantity; ol_editRemovedQty := removed;
     ol_variant := Some (licensed_variant "studio") |}.
Definition order_license (id lineId : string) : License :=
  {| li_id := id; li_storeId := "s1"; li_customerId := None; li_orderId := Some "o1"; li_orderLineId := Some lineId; li_appKey := "studio"; li_licenseKey := id;
     li_status := lic_active; li_source := "order"; li_issuedBy := None; li_issueReason := None; li_seats := 0; li_updatesUntil := None; li_expiresAt := None;
     li_metadata := JNull; li_createdAt := 0; li_updatedAt := 0 |}.
Definition order_db (removed : Z) : LicDb :=
  {| db_licenses := [order_license "k1" "A"]; db_acts := []; db_purchases := []; db_lines := [order_line "A" 2 0; order_line "B" 3 removed]; db_audit := [] |}.
Definition no_input : LicenseGrantInput :=
  {| gi_orderLineId := ""; gi_quantity := 0; gi_fulfillmentType := ""; gi_appKey := None; gi_licenseSeats := None; gi_updatesDurationDays := None;
     gi_licenseDurationDays := None; gi_metadata := JNull |}.
Definition pick_draw (i : nat) : string * string := match i with O => ("n0", "R0") | 1%nat => ("n1", "R1") | 2%nat => ("n2", "R2") | _ => ("n3", "R3") end.

Lemma license_issuance_converges_witness : exists d',
  issueLicensesForPaidOrder sample_dy (order_db 0) "s1" "o1" None (Some 1000) None pick_draw 2000 = Ok (4%nat, d') /\
  issued_for d' "A" = 2%nat /\ issued_for d' "B" = 3%nat /\
  (exists rest, db_licenses d' = db_licenses (order_db 0) ++ rest) /\ db_acts d' = db_acts (order_db 0) /\ db_lines d' = db_lines (order_db 0) /\
  issueLicensesForPaidOrder sample_dy d' "s1" "o1" None (Some 1000) None pick_draw 3000 = Ok (O, d').
Proof.
  assert (K : is_ok (issueLicensesForPaidOrder sample_dy (order_db 0) "s1" "o1" None (Some 1000) None pick_draw 2000) = true) by (vm_compute; reflexivity).
  destruct (issueLicensesForPaidOrder sample_dy (order_db 0) "s1" "o1" None (Some 1000) None pick_draw 2000) as [[n d']|] eqn:E; [|discriminate K]. clear K.
  assert (En : n = 4%nat) by (apply (f_equal (fun r => match r with Ok (m, _) => m | Err _ => O end)) in E; symmetry; exact E). subst n.
  exists d'. split; [done|].
  destruct (license_issuance_converges sample_dy (order_db 0) "s1" "o1" None (Some 1000) None pick_draw pick_draw 2000 3000 4 d') as (H1 & H2); [done|exact E|].
  assert (Hn : NoDup (map gi_orderLineId (grant_lines (order_db 0) "o1"))) by (vm_compute; repeat constructor; set_solver).
  split; [|split; [|exact H2]].
  - pose proof (H1 (nth 0 (grant_lines (order_db 0) "o1") no_input) ltac:(left) eq_refl Hn) as H. exact H.
  - pose proof (H1 (nth 1 (grant_lines (order_db 0) "o1") no_input) ltac:(right; left) eq_refl Hn) as H. exact H.
Defined.

(** Line [A] keeps its licence, line [B] is edited away entirely. *)
Lemma edit_gate_protects_licenses_witness :
  let proposed := [{| pr_id := "A"; pr_variantId := Some "v1"; pr_quantity := 2 |}; {| pr_id := "B"; pr_variantId := Some "v1"; pr_quantity := 0 |}] in
  licensedLineEditViolations (order_db 0) "s1" "o1" proposed = [] /\
  licensedLineEditViolations (order_db 0) "s1" "o1" (tail proposed) = ["A"] /\
  (forall customer paidAt gate draw now i r d'', reconcileEditedOrderLicenses sample_dy (order_db 3) "s1" "o1" customer paidAt gate draw now = Ok ((i, r), d'') ->
     r = O /\ db_acts d'' = db_acts (order_db 3) /\ exists rest, db_licenses d'' = db_licenses (order_db 0) ++ rest).
Proof.
  cbn zeta. split; [vm_compute; reflexivity|]. split; [vm_compute; reflexivity|].
  refine (proj1 (edit_gate_protects_licenses sample_dy (order_db 0) (order_db 3) "s1" "o1"
    [{| pr_id := "A"; pr_variantId := Some "v1"; pr_quantity := 2 |}; {| pr_id := "B"; pr_variantId := Some "v1"; pr_quantity := 0 |}] _ _ _)).
  - vm_compute. reflexivity.
  - reflexivity.
  - intros ol p Hol Hp. cbn in Hol. repeat (apply elem_of_cons in Hol as [->|Hol]); [..|by inversion Hol]; vm_compute in Hp; injection Hp as <-; reflexivity.
Defined.
