(* ===== verification/NetAddress.v ===== *)
(** Textual network addresses: what [node:net]'s [isIP] accepts (dotted quads
    without leading zeros; eight hexadecimal groups, one run of which may be
    elided, the last two of which may be a dotted quad, with an optional zone)
    and the value such a text denotes. This is the runtime the request guard and
    the client-address code rely on. *)

From S2P Require Import Prelude.
From Stdlib Require Import ZArith Lia Bool Ascii String.
From stdpp Require Import base list strings.
Local Open Scope string_scope.
Local Open Scope list_scope.
Local Open Scope Z_scope.

(** ** Characters and digits *)

Definition hex_val (c : ascii) : option Z :=
  let n := Z.of_nat (nat_of_ascii c) in
  if (48 <=? n) && (n <=? 57) then Some (n - 48)
  else if (97 <=? n) && (n <=? 102) then Some (n - 87)
  else if (65 <=? n) && (n <=? 70) then Some (n - 55)
  else None.
Fixpoint all_hex (s : string) : bool := match s with EmptyString => true | String c r => is_some (hex_val c) && all_hex r end.
Fixpoint hex (acc : Z) (s : string) : Z :=
  match s with EmptyString => acc | String c r => hex (acc * 16 + or_else (hex_val c) 0) r end.
Definition len_between (a b : nat) (s : string) : bool := (a <=? String.length s)%nat && (String.length s <=? b)%nat.
Fixpoint has_char (x : ascii) (s : string) : bool := match s with EmptyString => false | String c r => Ascii.eqb c x || has_char x r end.

(** [s.split('::')] *)
Fixpoint split_dcolon (s : string) : list string :=
  match s with
  | EmptyString => [EmptyString]
  | String c r =>
      match c, r with
      | ":"%char, String ":"%char r' => EmptyString :: split_dcolon r'
      | _, _ => match split_dcolon r with x :: xs => String c x :: xs | [] => [String c EmptyString] end
      end
  end.
(** [s.split(x)[0]] and what follows the first separator. *)
Fixpoint before (x : ascii) (s : string) : string :=
  match s with EmptyString => EmptyString | String c r => if Ascii.eqb c x then EmptyString else String c (before x r) end.
Fixpoint after (x : ascii) (s : string) : option string :=
  match s with EmptyString => None | String c r => if Ascii.eqb c x then Some r else after x r end.

(** ** [isIP] *)

(** One number of a dotted quad: [25[0-5]|2[0-4]\d|1\d\d|[1-9]\d|\d]. *)
Definition octet (s : string) : option Z :=
  if all_digits s && len_between 1 3 s &&
     (match s with String "0"%char (String _ _) => false | _ => true end) && (decimal 0 s <=? 255) then Some (decimal 0 s) else None.
Fixpoint sequence {A} (l : list (option A)) : option (list A) :=
  match l with
  | [] => Some []
  | Some x :: r => match sequence r with Some xs => Some (x :: xs) | None => None end
  | None :: _ => None
  end.
Definition quad (s : string) : option (list Z) :=
  let parts := split_on "." s in
  if (length parts =? 4)%nat then sequence (map octet parts) else None.

Definition hextet (s : string) : option Z := if all_hex s && len_between 1 4 s then Some (hex 0 s) else None.
(** The groups of a side of the address; [quad_ok] says a dotted quad may close it. *)
Fixpoint groups_of (quad_ok : bool) (parts : list string) : option (list Z) :=
  match parts with
  | [] => Some []
  | p :: rest =>
      match hextet p with
      | Some g => match groups_of quad_ok rest with Some gs => Some (g :: gs) | None => None end
      | None =>
          match rest, quad p with
          | [], Some [a; b; c; d] => if quad_ok then Some [a * 256 + b; c * 256 + d] else None
          | _, _ => None
          end
      end
  end.
Definition side (quad_ok : bool) (part : string) : option (list Z) :=
  if String.eqb part EmptyString then Some [] else groups_of quad_ok (split_on ":" part).

(** The eight 16-bit groups an IPv6 text without zone denotes. *)
Definition v6_groups (s : string) : option (list Z) :=
  match split_dcolon s with
  | [whole] =>
      match groups_of true (split_on ":" whole) with
      | Some gs => if (length gs =? 8)%nat then Some gs else None
      | None => None
      end
  | [head; tail] =>
      match side false head, side true tail with
      | Some h, Some t => if (length h + length t <=? 7)%nat then Some (h ++ repeat 0 (8 - length h - length t) ++ t) else None
      | _, _ => None
      end
  | _ => None
  end.
Definition zone_char (c : ascii) : bool :=
  let n := nat_of_ascii c in
  is_digit c || ((65 <=? n)%nat && (n <=? 90)%nat) || ((97 <=? n)%nat && (n <=? 122)%nat) ||
  Ascii.eqb c "-" || Ascii.eqb c "." || Ascii.eqb c ":".
Fixpoint all_zone (s : string) : bool := match s with EmptyString => true | String c r => zone_char c && all_zone r end.
Definition zone_ok (s : string) : bool :=
  match after "%" s with None => true | Some z => negb (String.eqb z EmptyString) && all_zone z end.

Definition ipv4_value (s : string) : option (list Z) := quad s.
Definition ipv6_value (s : string) : option (list Z) := if zone_ok s then v6_groups (before "%" s) else None.
Definition isIP (s : string) : Z := if is_some (ipv4_value s) then 4 else if is_some (ipv6_value s) then 6 else 0.

Example isIP_samples :
  map isIP ["1.2.3.4"; "01.2.3.4"; "1.2.3.256"; "::"; "::1"; "1:2:3:4:5:6:7::"; "1:2:3:4:5:6:7:8"; "1::2:3:4:5:6:7:8"; ":::"; "::ffff:10.0.0.1";
            "1:2:3:4:5:6:1.2.3.4"; "1.2.3.4::"; "fe80::1%eth0"; "fe80::1%"; "12345::"; "localhost"; EmptyString]
  = [4; 0; 0; 6; 6; 6; 6; 0; 0; 6; 6; 0; 6; 0; 0; 0; 0].
Proof. reflexivity. Qed.
