(* ===== verification/OutboundUrl.v ===== *)
(** Outbound requests ([security/outbound-url.ts]): which URLs and addresses the
    server may dial, the pinned connection, the bounded response body and the
    refusal of redirects. URL parsing, DNS and the transport are parameters. *)

From S2P Require Import Prelude NetAddress.
From Stdlib Require Import ZArith Lia Bool Ascii String.
From stdpp Require Import base list strings pretty.
Local Open Scope string_scope.
Local Open Scope list_scope.
Local Open Scope Z_scope.

Definition MAX_OUTBOUND_RESPONSE_BYTES : Z := 8 * 1024 * 1024.
Definition PRIVATE_HOSTNAMES : list string := ["localhost"; "localhost.localdomain"; "ip6-localhost"; "ip6-loopback"].

(** ** Host names *)

(** [s] without its last character when that is [x]. *)
Fixpoint drop_last (x : ascii) (s : string) : option string :=
  match s with
  | EmptyString => None
  | String c EmptyString => if Ascii.eqb c x then Some EmptyString else None
  | String c r => match drop_last x r with Some r' => Some (String c r') | None => None end
  end.
Definition endsWith (suffix s : string) : bool :=
  (String.length suffix <=? String.length s)%nat &&
  String.eqb (String.substring (String.length s - String.length suffix) (String.length suffix) s) suffix.
Definition LF : ascii := ascii_of_nat 10.
Definition CR : ascii := ascii_of_nat 13.
(** The brackets around a literal IPv6 host are dropped; the dot of the pattern
    does not match a line end. *)
Definition strip_brackets (s : string) : string :=
  match s with
  | String "["%char r =>
      match drop_last "]" r with Some inner => if has_char LF inner || has_char CR inner then s else inner | None => s end
  | _ => s
  end.
Definition normalizeHostname (hostname : string) : string :=
  let s := strip_brackets (trim hostname) in
  to_lower (or_else (drop_last "." s) s).
Definition isPrivateHostname (hostname : string) : bool :=
  existsb (String.eqb hostname) PRIVATE_HOSTNAMES || endsWith ".localhost" hostname || endsWith ".local" hostname.

(** ** Addresses *)

(** [Number(part)] of a part of an address: every caller has passed [isIP] first, so
    the part is digits; signs, fractions and exponents do not occur. *)
Definition number_part (part : string) : option Z :=
  let p := trim part in
  if String.eqb p EmptyString then Some 0 else if all_digits p then Some (decimal 0 p) else None.
Definition is_byte (x : Z) : bool := (0 <=? x) && (x <=? 255).

Definition ipv4ToBytes (address : string) : option (list Z) :=
  match sequence (map number_part (split_on "." address)) with
  | Some parts => if negb (length parts =? 4)%nat || existsb (fun x => negb (is_byte x)) parts then None else Some parts
  | None => None
  end.
Definition isBlockedIpv4 (address : string) : bool :=
  match ipv4ToBytes address with
  | Some [a; b; c; _] =>
      (a =? 0) || (a =? 10) || (a =? 127) ||
      ((a =? 100) && (64 <=? b) && (b <=? 127)) ||
      ((a =? 169) && (b =? 254)) ||
      ((a =? 172) && (16 <=? b) && (b <=? 31)) ||
      ((a =? 192) && (b =? 168)) ||
      ((a =? 192) && (b =? 0)) ||
      ((a =? 198) && ((b =? 18) || (b =? 19))) ||
      ((a =? 198) && (b =? 51) && (c =? 100)) ||
      ((a =? 203) && (b =? 0) && (c =? 113)) ||
      (224 <=? a)
  | _ => true
  end.

(** [for (let i …)]: [last] tells whether [segment] is the last one. *)
Fixpoint hextets (segments : list string) : option (list Z) :=
  match segments with
  | [] => Some []
  | segment :: rest =>
      if String.eqb segment EmptyString then None
      else if has_char "." segment then
        if negb (is_nil rest) then None
        else match ipv4ToBytes segment with
             | Some [a; b; c; d] => Some [Z.lor (Z.shiftl a 8) b; Z.lor (Z.shiftl c 8) d]
             | _ => None
             end
      else if negb (all_hex segment && len_between 1 4 segment) then None
      else match hextets rest with Some out => Some (hex 0 segment :: out) | None => None end
  end.
Definition parseIpv6Hextets (part : string) : option (list Z) :=
  if String.eqb part EmptyString then Some [] else hextets (split_on ":" part).

Definition hextet_bytes (h : Z) : list Z := [Z.land (Z.shiftr h 8) 255; Z.land h 255].
Definition parseIpv6ToBytes (address : string) : option (list Z) :=
  if has_char "%" address then None
  else
    let pieces := split_dcolon (to_lower address) in
    if (2 <? length pieces)%nat then None
    else
      match parseIpv6Hextets (nth 0 pieces EmptyString), parseIpv6Hextets (nth 1 pieces EmptyString) with
      | Some head, Some tail =>
          let hextets :=
            if (length pieces =? 2)%nat then
              let zeros := 8 - Z.of_nat (length head) - Z.of_nat (length tail) in
              if zeros <? 1 then None else Some (head ++ repeat 0 (Z.to_nat zeros) ++ tail)
            else Some head in
          match hextets with
          | Some hs => if (length hs =? 8)%nat then Some (flat_map hextet_bytes hs) else None
          | None => None
          end
      | _, _ => None
      end.

Definition js_join (sep : string) (l : list string) : string := String.concat sep l.
Definition dotted (bytes : list Z) : string := js_join "." (map pretty bytes).
Definition allZero (bytes : list Z) : bool := forallb (fun b => b =? 0) bytes.
Definition mappedIpv4 (bytes : list Z) : option string :=
  if allZero (firstn 10 bytes) && (nth 10 bytes (-1) =? 255) && (nth 11 bytes (-1) =? 255) then Some (dotted (firstn 4 (skipn 12 bytes))) else None.

Definition hex_digit (n : Z) : ascii := ascii_of_nat (Z.to_nat (if n <? 10 then 48 + n else 87 + n)).
(** [Buffer.from(bytes).toString('hex')] *)
Definition hex_text (bytes : list Z) : string :=
  fold_right (fun b s => String (hex_digit (b / 16)) (String (hex_digit (b mod 16)) s)) EmptyString bytes.

Definition addressIdentity (address : string) : option string :=
  if isIP address =? 4 then match ipv4ToBytes address with Some bs => Some ("4:" +:+ dotted bs) | None => None end
  else if negb (isIP address =? 6) then None
  else match parseIpv6ToBytes address with
       | None => None
       | Some bytes => match mappedIpv4 bytes with Some m => Some ("4:" +:+ m) | None => Some ("6:" +:+ hex_text bytes) end
       end.

Definition isBlockedIpv6 (address : string) : bool :=
  match parseIpv6ToBytes address with
  | None => true
  | Some bytes =>
      match mappedIpv4 bytes with
      | Some m => isBlockedIpv4 m
      | None =>
          let b i := nth i bytes (-1) in
          let isLoopback := allZero (firstn 15 bytes) && (b 15%nat =? 1) in
          allZero bytes || isLoopback ||
          (Z.land (b 0%nat) 254 =? 252) ||
          ((b 0%nat =? 254) && (Z.land (b 1%nat) 192 =? 128)) ||
          (b 0%nat =? 255) ||
          ((b 0%nat =? 32) && (b 1%nat =? 1) && (b 2%nat =? 13) && (b 3%nat =? 184)) ||
          ((b 0%nat =? 32) && (b 1%nat =? 1) && (b 2%nat =? 0) && (b 3%nat =? 0)) ||
          ((b 0%nat =? 32) && (b 1%nat =? 2)) ||
          ((b 0%nat =? 0) && (b 1%nat =? 100) && (b 2%nat =? 255) && (b 3%nat =? 155)) ||
          ((b 0%nat =? 1) && allZero (firstn 7 (skipn 1 bytes)))
      end
  end.
Definition isPrivateOrSpecialAddress (address : string) : bool :=
  let normalized := normalizeHostname address in
  let version := isIP normalized in
  if version =? 4 then isBlockedIpv4 normalized else if version =? 6 then isBlockedIpv6 normalized else true.

(** ** Checking a URL *)

Inductive OutboundError :=
  | UrlRequired | UrlTooLong | UrlNotAbsolute | UrlScheme | UrlCredentials | TargetsPrivateHost | TargetsThisHost
  | Unresolvable | ResolvesToPrivate | ResolvesToThisHost | InvalidSelfInventory | InvalidInterfaceAddress
  | RedirectsNotAllowed | Aborted | LookupFailed (e : string) | TransportFailed (e : string)
  | ResponseHasBody | ResponseTooLarge | ResponseAborted | ResponseClosed | InvalidResponse.

(** The parts of a WHATWG URL the guard reads and writes. *)
Record URL := { protocol : string; username : string; password : string; hostname : string; pathname : string; search : string; hash : string }.
Definition without_hash (u : URL) : URL :=
  {| protocol := protocol u; username := username u; password := password u; hostname := hostname u; pathname := pathname u;
     search := search u; hash := EmptyString |}.
Record LookupAddress := { la_address : string; la_family : Z }.
Record CheckedOutboundUrl := { ck_url : URL; ck_address : string; ck_family : Z }.

Fixpoint identities (bad : OutboundError) (l : list string) : result OutboundError (list string) :=
  match l with
  | [] => Ok []
  | a :: r => match addressIdentity a with
              | Some i => let! rest := identities bad r in Ok (i :: rest)
              | None => Err bad
              end
  end.

(** The points at which the caller's [AbortSignal] is consulted. *)
Inductive Checkpoint := cp_entry | cp_lookup | cp_resolved | cp_dial | cp_answered | cp_redirect_entry | cp_redirect_lookup | cp_redirect_resolved.

Record Response := { rs_status : Z; rs_location : option string; rs_body : list Byte.byte }.
Record Connect := { cn_address : string; cn_family : Z; cn_servername : string }.

Section Guard.
Context (selfIps : string) (interfaces : list string).
Context (parseUrl : string -> option URL) (resolveUrl : string -> URL -> option URL) (printUrl : URL -> string).
Context (lookup : string -> result string (list LookupAddress)) (aborted : Checkpoint -> bool).

Definition currentSelfAddresses : result OutboundError (list string) :=
  let configured := trim selfIps in
  let! a := identities InvalidSelfInventory (if String.eqb configured EmptyString then [] else map trim (split_on "," configured)) in
  let! b := identities InvalidInterfaceAddress (map (before "%") interfaces) in
  Ok (a ++ b).

Definition abortableLookup (cp : Checkpoint) (hostname : string) : result OutboundError (list LookupAddress) :=
  if aborted cp then Err Aborted
  else match lookup hostname with Ok records => Ok records | Err e => Err (LookupFailed e) end.

Definition in_identities (self : list string) (identity : option string) : bool :=
  match identity with Some i => existsb (String.eqb i) self | None => false end.

Definition checkOutboundUrl (entry waiting resolved : Checkpoint) (rawUrl : string) : result OutboundError CheckedOutboundUrl :=
  guard! negb (aborted entry) or Aborted in
  guard! negb (String.eqb (trim rawUrl) EmptyString) or UrlRequired in
  guard! (String.length rawUrl <=? 2048)%nat or UrlTooLong in
  match parseUrl rawUrl with
  | None => Err UrlNotAbsolute
  | Some url =>
      guard! String.eqb (protocol url) "http:" || String.eqb (protocol url) "https:" or UrlScheme in
      guard! String.eqb (username url) EmptyString && String.eqb (password url) EmptyString or UrlCredentials in
      let host := normalizeHostname (hostname url) in
      guard! negb (String.eqb host EmptyString || isPrivateHostname host) or TargetsPrivateHost in
      if negb (isIP host =? 0) then
        guard! negb (isPrivateOrSpecialAddress host) or TargetsPrivateHost in
        let! self := currentSelfAddresses in
        guard! negb (in_identities self (addressIdentity host)) or TargetsThisHost in
        Ok {| ck_url := without_hash url; ck_address := host; ck_family := isIP host |}
      else
        let! records := abortableLookup waiting host in
        guard! negb (aborted resolved) or Aborted in
        match records with
        | [] => Err Unresolvable
        | first :: _ =>
            guard! negb (existsb (fun r => isPrivateOrSpecialAddress (la_address r)) records) or ResolvesToPrivate in
            let! self := currentSelfAddresses in
            guard! negb (existsb (fun r => in_identities self (addressIdentity (normalizeHostname (la_address r)))) records) or ResolvesToThisHost in
            Ok {| ck_url := without_hash url; ck_address := la_address first; ck_family := la_family first |}
        end
  end.

Definition assertSafeOutboundUrl (rawUrl : string) : result OutboundError string :=
  let! checked := checkOutboundUrl cp_entry cp_lookup cp_resolved rawUrl in Ok (printUrl (ck_url checked)).

Definition pinnedLookup (address : string) (family : Z) (_hostname : string) : string * Z := (address, family).

(** What the transport is asked, and what the caller gets. *)
Definition safeOutboundFetch (request : URL -> Connect -> result OutboundError Response) (rawUrl : string)
    : list Connect * result OutboundError Response :=
  match checkOutboundUrl cp_entry cp_lookup cp_resolved rawUrl with
  | Err e => ([], Err e)
  | Ok checked =>
      if aborted cp_dial then ([], Err Aborted)
      else
        let connect := {| cn_address := ck_address checked; cn_family := ck_family checked;
                          cn_servername := normalizeHostname (hostname (ck_url checked)) |} in
        ([connect],
         match request (ck_url checked) connect with
         | Err e => if aborted cp_answered then Err Aborted else Err e
         | Ok response =>
             if aborted cp_answered then Err Aborted
             else if (300 <=? rs_status response) && (rs_status response <? 400) then
               match rs_location response with
               | None => Err RedirectsNotAllowed
               | Some location =>
                   if String.eqb location EmptyString then Err RedirectsNotAllowed
                   else match resolveUrl location (ck_url checked) with
                        | None => Err UrlNotAbsolute
                        | Some target =>
                            let! _ := checkOutboundUrl cp_redirect_entry cp_redirect_lookup cp_redirect_resolved (printUrl target) in
                            Err RedirectsNotAllowed
                        end
               end
             else Ok response
         end)
  end.
End Guard.

(** ** The bounded response body ([nodeRequestWithPinnedLookup]) *)

(** [src.copy(dst, off)]: what does not fit is dropped. *)
Definition copy_into (src dst : list Byte.byte) (off : nat) : list Byte.byte :=
  firstn off dst ++ firstn (length dst - off) src ++ skipn (off + length src) dst.
(** [Buffer.allocUnsafe(n)]: uninitialised bytes. *)
Definition allocUnsafe (junk : nat -> Byte.byte) (n : Z) : list Byte.byte := map junk (seq 0 (Z.to_nat n)).

Record ResponseHead := { rh_status : Z; rh_location : option string; rh_contentLength : option string; rh_wellFormed : bool }.
Inductive TransferEvent :=
  | ev_response (head : ResponseHead) | ev_data (chunk : list Byte.byte) | ev_end | ev_aborted
  | ev_response_error (e : string) | ev_request_error (e : string) | ev_close.
Record Transfer := {
  tr_buffer : list Byte.byte; tr_received : Z; tr_outcome : option (result OutboundError Response); tr_bodyless : bool;
  tr_response : option ResponseHead; tr_listening : bool
}.
Definition transfer_start : Transfer :=
  {| tr_buffer := []; tr_received := 0; tr_outcome := None; tr_bodyless := false; tr_response := None; tr_listening := false |}.
Definition settled (t : Transfer) : bool := is_some (tr_outcome t).

Definition fail_transfer (e : OutboundError) (t : Transfer) : Transfer :=
  if settled t then t
  else {| tr_buffer := []; tr_received := tr_received t; tr_outcome := Some (Err e); tr_bodyless := tr_bodyless t;
          tr_response := tr_response t; tr_listening := false |}.

Section Receive.
Context (junk : nat -> Byte.byte) (method : string).

Definition body_capacity (buffer : list Byte.byte) (nextSize : Z) : Z :=
  Z.min MAX_OUTBOUND_RESPONSE_BYTES (Z.max (64 * 1024) (Z.max nextSize (Z.of_nat (length buffer) * 2))).
Definition onData (chunk : list Byte.byte) (t : Transfer) : Transfer :=
  if settled t then t
  else
    let bytes := Z.of_nat (length chunk) in
    if tr_bodyless t && (0 <? bytes) then fail_transfer ResponseHasBody t
    else if MAX_OUTBOUND_RESPONSE_BYTES - tr_received t <? bytes then fail_transfer ResponseTooLarge t
    else if bytes =? 0 then t
    else
      let nextSize := tr_received t + bytes in
      let buffer :=
        if Z.of_nat (length (tr_buffer t)) <? nextSize then
          copy_into (firstn (Z.to_nat (tr_received t)) (tr_buffer t)) (allocUnsafe junk (body_capacity (tr_buffer t) nextSize)) 0
        else tr_buffer t in
      {| tr_buffer := copy_into chunk buffer (Z.to_nat (tr_received t)); tr_received := nextSize; tr_outcome := tr_outcome t;
         tr_bodyless := tr_bodyless t; tr_response := tr_response t; tr_listening := tr_listening t |}.

(** [new Response(...)] throws outside 200-599; headers that cannot be rebuilt throw too. *)
Definition onEnd (t : Transfer) : Transfer :=
  match tr_response t with
  | None => t
  | Some head =>
      if settled t then t
      else if rh_wellFormed head && (200 <=? rh_status head) && (rh_status head <=? 599) then
        let body := if tr_bodyless t then [] else firstn (Z.to_nat (tr_received t)) (tr_buffer t) in
        {| tr_buffer := []; tr_received := tr_received t;
           tr_outcome := Some (Ok {| rs_status := rh_status head; rs_location := rh_location head; rs_body := body |});
           tr_bodyless := tr_bodyless t; tr_response := tr_response t; tr_listening := false |}
      else fail_transfer InvalidResponse t
  end.

Definition declared_too_long (head : ResponseHead) : bool :=
  match rh_contentLength head with
  | Some l => let l := trim l in all_digits l && negb (String.eqb l EmptyString) && (MAX_OUTBOUND_RESPONSE_BYTES <? decimal 0 l)
  | None => false
  end.
Definition onResponse (head : ResponseHead) (t : Transfer) : Transfer :=
  match tr_response t with
  | Some _ => t
  | None =>
      let with_head bodyless listening :=
        {| tr_buffer := tr_buffer t; tr_received := tr_received t; tr_outcome := tr_outcome t; tr_bodyless := bodyless;
           tr_response := Some head; tr_listening := listening |} in
      if settled t then with_head (tr_bodyless t) false
      else
        let bodyless := String.eqb (to_upper method) "HEAD" || existsb (Z.eqb (rh_status head)) [204; 205; 304] in
        if negb bodyless && declared_too_long head then fail_transfer ResponseTooLarge (with_head bodyless false)
        else with_head bodyless true
  end.

(** The listeners of the request and of its response; the body listeners only while
    attached. A response reports one head. *)
Definition receive (t : Transfer) (ev : TransferEvent) : Transfer :=
  match ev with
  | ev_response head => onResponse head t
  | ev_data chunk => if tr_listening t then onData chunk t else t
  | ev_end => if tr_listening t then onEnd t else t
  | ev_aborted => if tr_listening t then fail_transfer ResponseAborted t else t
  | ev_response_error e => if is_some (tr_response t) then fail_transfer (TransportFailed e) t else t
  | ev_request_error e => fail_transfer (TransportFailed e) t
  | ev_close => if is_some (tr_response t) then fail_transfer ResponseClosed t else t
  end.
Definition receive_all (evs : list TransferEvent) : Transfer := fold_left receive evs transfer_start.
Definition nodeRequestWithPinnedLookup (evs : list TransferEvent) : option (result OutboundError Response) := tr_outcome (receive_all evs).
End Receive.
