(* ===== verification/NetFacts.v ===== *)
(** Facts about textual addresses: splitting commutes with lower-casing and undoes
    joining, the source's own parsers agree with [isIP] on what it accepts, and the
    groups of an accepted address are 16-bit numbers. *)

From S2P Require Import Prelude NetAddress OutboundUrl.
From Stdlib Require Import ZArith Lia Bool Ascii String.
From stdpp Require Import base list strings pretty.
Local Open Scope string_scope.
Local Open Scope list_scope.
Local Open Scope Z_scope.

(** ** Characters *)

Ltac each_char := let c := fresh in intros c; destruct c as [[] [] [] [] [] [] [] []]; try reflexivity; try discriminate.

Ltac nat_props := bool_props; repeat match goal with H : (_ <=? _)%nat = true |- _ => apply Nat.leb_le in H end.

Lemma lower_digit : forall c, is_digit c = true -> ascii_lower c = c.
Proof. each_char. Qed.
Lemma digit_not_space : forall c, is_digit c = true -> ascii_space c = false.
Proof. each_char. Qed.
Lemma digit_not_dot : forall c, is_digit c = true -> Ascii.eqb c "." = false.
Proof. each_char. Qed.
Lemma digit_not_colon : forall c, is_digit c = true -> Ascii.eqb c ":" = false.
Proof. each_char. Qed.
Lemma digit_not_percent : forall c, is_digit c = true -> Ascii.eqb c "%" = false.
Proof. each_char. Qed.
Lemma hex_not_dot : forall c, is_some (hex_val c) = true -> Ascii.eqb c "." = false.
Proof. each_char. Qed.
Lemma hex_val_lower : forall c, hex_val (ascii_lower c) = hex_val c.
Proof. each_char. Qed.
Lemma lower_dot : forall c, Ascii.eqb (ascii_lower c) "." = Ascii.eqb c ".".
Proof. each_char. Qed.
Lemma lower_colon : forall c, Ascii.eqb (ascii_lower c) ":" = Ascii.eqb c ":".
Proof. each_char. Qed.
Lemma lower_percent : forall c, Ascii.eqb (ascii_lower c) "%" = Ascii.eqb c "%".
Proof. each_char. Qed.
Lemma hex_val_bound c v : hex_val c = Some v -> 0 <= v < 16.
Proof. unfold hex_val. repeat case_match; intros; simplify_eq; bool_props; lia. Qed.

(** ** Texts *)

Lemma digits_lower s : all_digits s = true -> to_lower s = s.
Proof. unfold to_lower. induction s as [|c r IH]; cbn; [done|]. intros H. bool_props. by rewrite lower_digit, IH. Qed.
Lemma digits_trim s : all_digits s = true -> trim s = s.
Proof.
  intros H. unfold trim. assert (E : trim_start s = s).
  { destruct s as [|c r]; cbn in *; [done|]. bool_props. by rewrite digit_not_space. }
  rewrite E. clear E. induction s as [|c r IH]; cbn in *; [done|]. bool_props. rewrite IH by done.
  destruct r; [by rewrite digit_not_space|done].
Qed.
Lemma length_lower s : String.length (to_lower s) = String.length s.
Proof. unfold to_lower. induction s as [|c r IH]; cbn; congruence. Qed.
Lemma all_hex_lower s : all_hex (to_lower s) = all_hex s.
Proof. unfold to_lower. induction s as [|c r IH]; cbn; [done|]. by rewrite hex_val_lower, IH. Qed.
Lemma hex_lower s acc : hex acc (to_lower s) = hex acc s.
Proof. unfold to_lower. revert acc. induction s as [|c r IH]; intros acc; cbn; [done|]. by rewrite hex_val_lower, IH. Qed.
Lemma has_char_lower x s : (forall c, Ascii.eqb (ascii_lower c) x = Ascii.eqb c x) -> has_char x (to_lower s) = has_char x s.
Proof. intros Hx. unfold to_lower. induction s as [|c r IH]; cbn; [done|]. by rewrite Hx, IH. Qed.
Lemma lower_empty s : String.eqb (to_lower s) EmptyString = String.eqb s EmptyString.
Proof. by destruct s. Qed.

Lemma split_on_lower x s : (forall c, Ascii.eqb (ascii_lower c) x = Ascii.eqb c x) -> split_on x (to_lower s) = map to_lower (split_on x s).
Proof.
  intros Hx. induction s as [|c r IH]; [done|].
  change (split_on x (String (ascii_lower c) (to_lower r)) = map to_lower (split_on x (String c r))). cbn [split_on].
  rewrite Hx, IH. destruct (Ascii.eqb c x); [done|]. by destruct (split_on x r).
Qed.
Lemma colon_inv : forall c, c = ":"%char \/ Ascii.eqb c ":" = false.
Proof. intros c. destruct (Ascii.eqb_spec c ":"); auto. Qed.
Definition snoc_head (c : ascii) (l : list string) : list string :=
  match l with x :: xs => String c x :: xs | [] => [String c EmptyString] end.
Lemma split_dcolon_other c r : Ascii.eqb c ":" = false -> split_dcolon (String c r) = snoc_head c (split_dcolon r).
Proof. intros H. destruct c as [[] [] [] [] [] [] [] []]; try reflexivity; discriminate. Qed.
Lemma split_dcolon_one c r : Ascii.eqb c ":" = false -> split_dcolon (String ":" (String c r)) = snoc_head ":" (split_dcolon (String c r)).
Proof. intros H. destruct c as [[] [] [] [] [] [] [] []]; try reflexivity; discriminate. Qed.
Lemma snoc_head_lower c l : map to_lower (snoc_head c l) = snoc_head (ascii_lower c) (map to_lower l).
Proof. by destruct l. Qed.

Lemma split_dcolon_lower s : split_dcolon (to_lower s) = map to_lower (split_dcolon s).
Proof.
  remember (String.length s) as n eqn:En. assert (Hn : (String.length s <= n)%nat) by lia. clear En. revert s Hn.
  induction n as [|n IH]; intros [|c r] Hn; try done; cbn in Hn; [lia|].
  change (to_lower (String c r)) with (String (ascii_lower c) (to_lower r)).
  destruct (colon_inv c) as [->|Hc].
  - change (ascii_lower ":") with ":"%char. destruct r as [|c' r']; [done|].
    change (to_lower (String c' r')) with (String (ascii_lower c') (to_lower r')).
    destruct (colon_inv c') as [->|Hc'].
    + change (ascii_lower ":") with ":"%char. cbn [split_dcolon map]. f_equal. apply IH. cbn in Hn. lia.
    + rewrite !split_dcolon_one by (rewrite ?lower_colon; done). rewrite snoc_head_lower.
      change (String (ascii_lower c') (to_lower r')) with (to_lower (String c' r')). rewrite IH by (cbn in *; lia). done.
  - rewrite !split_dcolon_other by (rewrite ?lower_colon; done). rewrite snoc_head_lower. by rewrite IH by (cbn in *; lia).
Qed.

Lemma split_on_nil x s : split_on x s <> [].
Proof. destruct s as [|c r]; cbn; [done|]. destruct (Ascii.eqb c x); [done|]. by destruct (split_on x r). Qed.
Lemma split_on_whole x s : has_char x s = false -> split_on x s = [s].
Proof.
  induction s as [|c r IH]; cbn; [done|]. intros H. apply orb_false_iff in H as [E H]. rewrite E, IH by done. done.
Qed.
Lemma split_on_app x s r : has_char x s = false -> split_on x (s +:+ String x r) = s :: split_on x r.
Proof.
  induction s as [|c s IH]; intros H; [rewrite append_empty; cbn [split_on]; by rewrite Ascii.eqb_refl|].
  cbn [has_char] in H. apply orb_false_iff in H as [E H]. rewrite append_cons. cbn [split_on]. by rewrite E, IH.
Qed.
Lemma split_on_many x s : has_char x s = true -> (2 <= length (split_on x s))%nat.
Proof.
  induction s as [|c r IH]; cbn; [done|]. destruct (Ascii.eqb c x); cbn.
  - intros _. pose proof (split_on_nil x r). destruct (split_on x r); cbn; [done|lia].
  - intros H. specialize (IH H). destruct (split_on x r); cbn in *; lia.
Qed.
Lemma has_char_parts x y s : Ascii.eqb y x = false -> has_char y s = existsb (has_char y) (split_on x s).
Proof.
  intros Hy. induction s as [|c r IH]; cbn; [done|]. destruct (Ascii.eqb_spec c x) as [->|Hc].
  - rewrite Ascii.eqb_sym, Hy. cbn. apply IH.
  - rewrite IH. destruct (split_on x r) as [|p ps] eqn:E; [by apply split_on_nil in E|]. cbn. by rewrite orb_assoc.
Qed.

(** ** The source's parsers on what [isIP] accepts *)

Lemma sequence_Forall2 {A B} (f : A -> option B) l l' : sequence (map f l) = Some l' -> Forall2 (fun a b => f a = Some b) l l'.
Proof.
  revert l'. induction l as [|a l IH]; cbn; intros l' H; [simplify_eq; constructor|].
  destruct (f a) eqn:E; [|done]. destruct (sequence (map f l)) eqn:Es; [|done]. simplify_eq. constructor; auto.
Qed.
Lemma Forall2_sequence {A B} (f : A -> option B) l l' : Forall2 (fun a b => f a = Some b) l l' -> sequence (map f l) = Some l'.
Proof. induction 1 as [|a b l l' E _ IH]; cbn; [done|]. by rewrite E, IH. Qed.

Lemma is_digit_range c : is_digit c = true -> 48 <= Z.of_nat (nat_of_ascii c) <= 57.
Proof. unfold is_digit. cbv zeta. intros [H1%Nat.leb_le H2%Nat.leb_le]%andb_true_iff. lia. Qed.
Lemma decimal_nonneg s acc : all_digits s = true -> 0 <= acc -> 0 <= decimal acc s.
Proof.
  revert acc. induction s as [|c r IH]; cbn; intros acc H Ha; [done|]. bool_props. apply IH; [done|].
  apply is_digit_range in H. lia.
Qed.
Lemma octet_spec p v : octet p = Some v -> number_part p = Some v /\ is_byte v = true /\ all_digits p = true /\ p <> EmptyString.
Proof.
  unfold octet, number_part, len_between, is_byte. case_match eqn:E; [|done]. intros; simplify_eq. bool_props.
  rewrite digits_trim by done. destruct p as [|c r]; [cbn in *; lia|]. split; [|split; [|done]].
  - change (String.eqb (String c r) EmptyString) with false. by rewrite H.
  - pose proof (decimal_nonneg (String c r) 0 ltac:(done) ltac:(lia)). apply andb_true_iff. split; apply Z.leb_le; lia.
Qed.
Lemma quad_spec s q : quad s = Some q ->
  ipv4ToBytes s = Some q /\ to_lower s = s /\ has_char "." s = true /\ has_char ":" s = false /\ has_char "%" s = false /\
  exists a b c d, q = [a; b; c; d] /\ Forall (fun x => 0 <= x <= 255) q.
Proof.
  unfold quad, ipv4ToBytes. destruct (Nat.eqb_spec (length (split_on "." s)) 4) as [L|]; [|done]. intros H%sequence_Forall2.
  assert (D : Forall (fun p => all_digits p = true) (split_on "." s)).
  { eapply Forall2_Forall_l; [exact H|]. apply Forall_true. intros v p Hp. by apply octet_spec in Hp as (? & ? & ? & ?). }
  assert (N : forall x, Ascii.eqb x "." = false -> (forall c, is_digit c = true -> Ascii.eqb c x = false) -> has_char x s = false).
  { intros x Hx Hd. rewrite (has_char_parts "." x) by done. apply not_true_iff_false. intros (p & Hp & Hc)%existsb_exists.
    rewrite Forall_forall in D. apply list_elem_of_In, D in Hp. clear -Hd Hp Hc. induction p as [|c r IH]; cbn in *; [done|]. bool_props.
    apply orb_true_iff in Hc as [Hc|Hc]; [by rewrite Hd in Hc|auto]. }
  assert (F : Forall (fun x => 0 <= x <= 255) q).
  { eapply Forall2_Forall_r; [exact H|]. apply Forall_true. intros p v Hp. apply octet_spec in Hp as (_ & Hb & _). unfold is_byte in Hb.
    bool_props. lia. }
  rewrite (Forall2_sequence number_part _ q) by (eapply Forall2_impl; [exact H|]; intros p v Hp; by apply octet_spec in Hp as [? _]).
  rewrite <- (Forall2_length _ _ _ H), L. cbn.
  assert (Hl : length q = 4%nat) by (by rewrite <- (Forall2_length _ _ _ H)).
  destruct q as [|a [|b [|c [|d [|]]]]]; try discriminate. split_and!.
  - destruct (existsb _ _) eqn:E; [|done]. apply existsb_exists in E as (x & Hx & Hb).
    rewrite Forall_forall in F. apply list_elem_of_In, F in Hx. unfold is_byte in Hb. apply negb_true_iff, andb_false_iff in Hb.
    destruct Hb; bool_props; lia.
  - clear -D. assert (G : forall t, Forall (fun p => all_digits p = true) (split_on "." t) -> to_lower t = t).
    { unfold to_lower. induction t as [|x r IH]; cbn; [done|]. destruct (Ascii.eqb_spec x ".") as [->|].
      - intros H. inversion H; subst. by rewrite IH.
      - destruct (split_on "." r) as [|y ys] eqn:E; [by apply split_on_nil in E|]. intros H. inversion H as [|? ? H1 H2]; subst. cbn in H1.
        bool_props. rewrite lower_digit by done. rewrite IH; [done|]. by constructor. }
    by apply G.
  - destruct (has_char "." s) eqn:E; [done|]. by rewrite split_on_whole in L.
  - apply N; [done|apply digit_not_colon].
  - apply N; [done|apply digit_not_percent].
  - by exists a, b, c, d.
Qed.

Lemma hextet_bound p g : hextet p = Some g -> 0 <= g < 65536.
Proof.
  unfold hextet, len_between. case_match eqn:E; [|done]. intros; simplify_eq. bool_props.
  assert (G : forall s acc, 0 <= acc -> 0 <= hex acc s < (acc + 1) * 16 ^ Z.of_nat (String.length s)).
  { clear. induction s as [|c r IH]; intros acc Ha; cbn -[Z.pow Z.of_nat Z.mul]; [rewrite Z.pow_0_r; lia|].
    assert (V : 0 <= or_else (hex_val c) 0 < 16) by (destruct (hex_val c) eqn:Ev; cbn; [by eapply hex_val_bound|lia]).
    destruct (IH (acc * 16 + or_else (hex_val c) 0) ltac:(lia)) as [I1 I2]. split; [done|]. eapply Z.lt_le_trans; [exact I2|].
    rewrite Nat2Z.inj_succ, Z.pow_succ_r by lia. pose proof (Z.pow_pos_nonneg 16 (Z.of_nat (String.length r)) ltac:(lia) ltac:(lia)).
    rewrite Z.mul_assoc. apply Z.mul_le_mono_nonneg_r; lia. }
  destruct (G p 0 ltac:(lia)) as [G1 G2]. split; [done|]. eapply Z.lt_le_trans; [exact G2|].
  transitivity ((0 + 1) * 16 ^ 4); [|lia]. apply Z.mul_le_mono_nonneg_l; [lia|]. nat_props. apply Z.pow_le_mono_r; lia.
Qed.
Lemma hextet_cons p g rest : hextet p = Some g ->
  hextets (to_lower p :: rest) = match hextets rest with Some out => Some (g :: out) | None => None end.
Proof.
  unfold hextet. destruct (all_hex p && len_between 1 4 p) eqn:E; [|done]. intros; simplify_eq. cbn [hextets].
  rewrite all_hex_lower, hex_lower, lower_empty, (has_char_lower "." p lower_dot).
  replace (len_between 1 4 (to_lower p)) with (len_between 1 4 p) by (unfold len_between; by rewrite length_lower). rewrite E.
  assert (Hd : has_char "." p = false).
  { apply andb_true_iff in E as [E _]. revert E. clear. induction p as [|c r IH]; cbn; [done|]. intros H. bool_props.
    rewrite hex_not_dot by done. by apply IH. }
  rewrite Hd. by destruct p; cbn in *.
Qed.

Lemma lor_shift8 a b : 0 <= b < 256 -> Z.lor (Z.shiftl a 8) b = a * 256 + b.
Proof.
  intros Hb. rewrite Z.shiftl_mul_pow2 by lia. change (2 ^ 8) with 256. pose proof (Z.add_lor_land (a * 256) b).
  enough (Z.land (a * 256) b = 0) by lia. apply Z.bits_inj'. intros n Hn. rewrite Z.land_spec, Z.bits_0.
  destruct (Z.lt_ge_cases n 8) as [L|L].
  - change 256 with (2 ^ 8). by rewrite Z.mul_pow2_bits_low.
  - rewrite <- (Z.mod_small b 256) by lia. change 256 with (2 ^ 8) at 2. rewrite Z.mod_pow2_bits_high by lia. apply andb_false_r.
Qed.

Lemma groups_hextets ok parts gs : groups_of ok parts = Some gs ->
  hextets (map to_lower parts) = Some gs /\ Forall (fun g => 0 <= g < 65536) gs.
Proof.
  revert gs. induction parts as [|p rest IH]; cbn [groups_of map]; intros gs H; [simplify_eq; split; [done|constructor]|].
  destruct (hextet p) as [g|] eqn:E.
  - destruct (groups_of ok rest) as [gs'|] eqn:Er; [|done]. simplify_eq. destruct (IH _ eq_refl) as [I1 I2].
    rewrite (hextet_cons _ _ _ E), I1. split; [done|]. constructor; [by eapply hextet_bound|done].
  - destruct rest; [|done]. destruct (quad p) as [q|] eqn:Eq; [|done].
    destruct (quad_spec _ _ Eq) as (Q1 & Q2 & Q3 & _ & _ & a & b & c & d & -> & F). destruct ok; [|done]. simplify_eq.
    rewrite Q2. cbn [map hextets]. rewrite Q3, Q1. cbn [is_nil negb].
    assert (He : String.eqb p EmptyString = false) by (destruct p; done). rewrite He.
    repeat match goal with H : Forall _ (_ :: _) |- _ => inversion_clear H end. rewrite !lor_shift8 by lia.
    split; [done|]. repeat constructor; lia.
Qed.

Lemma side_hextets ok part gs : side ok part = Some gs -> parseIpv6Hextets (to_lower part) = Some gs /\ Forall (fun g => 0 <= g < 65536) gs.
Proof.
  unfold side, parseIpv6Hextets. rewrite lower_empty. destruct (String.eqb part EmptyString); [intros; simplify_eq; split; [done|constructor]|].
  intros H. rewrite split_on_lower by apply lower_colon. by apply groups_hextets in H.
Qed.

(** The guard reads an accepted, zone-free IPv6 text as its eight groups. *)
Lemma v6_groups_bytes s gs : v6_groups s = Some gs -> has_char "%" s = false ->
  parseIpv6ToBytes s = Some (flat_map hextet_bytes gs) /\ length gs = 8%nat /\ Forall (fun g => 0 <= g < 65536) gs.
Proof.
  unfold v6_groups, parseIpv6ToBytes. intros H ->. rewrite split_dcolon_lower.
  destruct (split_dcolon s) as [|h [|t [|]]]; try done; cbn [map length nth Nat.ltb Nat.leb Nat.eqb].
  - destruct (groups_of true (split_on ":" h)) as [gs'|] eqn:E; [|done]. destruct (Nat.eqb_spec (length gs') 8) as [L|]; [|done]. simplify_eq.
    assert (Hs : side true h = Some gs).
    { unfold side. destruct (String.eqb_spec h EmptyString) as [->|]; [|done]. cbn in E. done. }
    destruct (side_hextets _ _ _ Hs) as [-> F]. cbn [parseIpv6Hextets String.eqb]. rewrite L. done.
  - destruct (side false h) as [hs|] eqn:Eh; [|done]. destruct (side true t) as [ts|] eqn:Et; [|done].
    destruct (Nat.leb_spec (length hs + length ts) 7) as [L|]; [|done]. simplify_eq.
    destruct (side_hextets _ _ _ Eh) as [-> F1]. destruct (side_hextets _ _ _ Et) as [-> F2].
    rewrite (proj2 (Z.ltb_ge _ _)) by lia.
    replace (Z.to_nat (8 - Z.of_nat (length hs) - Z.of_nat (length ts))) with (8 - length hs - length ts)%nat by lia.
    assert (L8 : length (hs ++ repeat 0 (8 - length hs - length ts) ++ ts) = 8%nat) by (rewrite !length_app, repeat_length; lia).
    rewrite L8. split; [done|]. split; [done|]. apply Forall_app. split; [done|]. apply Forall_app. split; [|done].
    apply List.Forall_forall. intros x Hx%repeat_spec. lia.
Qed.

Lemma after_has_char x s : after x s = None <-> has_char x s = false.
Proof. induction s as [|c r IH]; cbn; [done|]. by destruct (Ascii.eqb c x). Qed.
Lemma before_no_char x s : has_char x s = false -> before x s = s.
Proof. induction s as [|c r IH]; cbn; [done|]. intros [E H]%orb_false_iff. by rewrite E, IH. Qed.

Lemma isIP_4 s : (isIP s =? 4) = is_some (ipv4_value s).
Proof. unfold isIP. by destruct (ipv4_value s), (ipv6_value s). Qed.
Lemma isIP_6 s : (isIP s =? 6) = negb (is_some (ipv4_value s)) && is_some (ipv6_value s).
Proof. unfold isIP. by destruct (ipv4_value s), (ipv6_value s). Qed.
Lemma isIP_0 s : (isIP s =? 0) = negb (is_some (ipv4_value s)) && negb (is_some (ipv6_value s)).
Proof. unfold isIP. by destruct (ipv4_value s), (ipv6_value s). Qed.
Lemma isIP_values s : isIP s = 0 \/ isIP s = 4 \/ isIP s = 6.
Proof. unfold isIP. destruct (is_some (ipv4_value s)); [auto|]. destruct (is_some (ipv6_value s)); auto. Qed.

(** ** Normalising an address text changes only its case *)

Fixpoint all_chars (P : ascii -> bool) (s : string) : bool := match s with EmptyString => true | String c r => P c && all_chars P r end.
Definition ip_char (c : ascii) : bool := is_some (hex_val c) || Ascii.eqb c ":" || Ascii.eqb c ".".

Lemma ip_char_not_space : forall c, ip_char c = true -> ascii_space c = false.
Proof. each_char. Qed.
Lemma ip_char_not_bracket : forall c, ip_char c = true -> c <> "["%char.
Proof. intros c H ->. discriminate. Qed.
Lemma ip_char_not_percent : forall c, ip_char c = true -> Ascii.eqb c "%" = false.
Proof. each_char. Qed.

Lemma all_chars_impl (P Q : ascii -> bool) s : (forall c, P c = true -> Q c = true) -> all_chars P s = true -> all_chars Q s = true.
Proof. intros H. induction s as [|c r IH]; cbn; [done|]. intros Hs. bool_props. apply andb_true_iff. auto. Qed.
Lemma all_chars_split P x s : P x = true -> Forall (fun p => all_chars P p = true) (split_on x s) -> all_chars P s = true.
Proof.
  intros Px. induction s as [|c r IH]; cbn; [done|]. destruct (Ascii.eqb_spec c x) as [->|]; intros F.
  - rewrite Px. apply IH. by inversion F.
  - destruct (split_on x r) as [|p ps] eqn:E; [by apply split_on_nil in E|]. inversion F as [|? ? H1 H2]; subst. cbn in H1. bool_props.
    apply andb_true_iff. split; [done|]. apply IH. by constructor.
Qed.
Lemma split_dcolon_nil s : split_dcolon s <> [].
Proof.
  destruct s as [|c r]; [done|]. destruct (colon_inv c) as [->|Hc].
  - destruct r as [|c' r']; [done|]. destruct (colon_inv c') as [->|Hc']; [done|]. rewrite split_dcolon_one by done. by destruct (split_dcolon _).
  - rewrite split_dcolon_other by done. by destruct (split_dcolon r).
Qed.
Lemma all_chars_dcolon P s : P ":"%char = true -> Forall (fun p => all_chars P p = true) (split_dcolon s) -> all_chars P s = true.
Proof.
  intros Px. remember (String.length s) as n eqn:En. assert (Hn : (String.length s <= n)%nat) by lia. clear En. revert s Hn.
  assert (S1 : forall c l, Forall (fun p => all_chars P p = true) (snoc_head c l) -> l <> [] -> P c = true /\ Forall (fun p => all_chars P p = true) l).
  { intros c [|p ps] F Hl; [done|]. inversion F as [|? ? H1 H2]; subst. cbn in H1. bool_props. split; [done|]. by constructor. }
  induction n as [|n IH]; intros [|c r] Hn F; try done; cbn in Hn; [lia|]. cbn [all_chars].
  destruct (colon_inv c) as [->|Hc].
  - rewrite Px. destruct r as [|c' r']; [done|]. destruct (colon_inv c') as [->|Hc'].
    + cbn [all_chars]. rewrite Px. apply IH; [cbn in Hn; lia|]. cbn in F. by inversion F.
    + rewrite split_dcolon_one in F by done. apply S1 in F as [_ F]; [|apply split_dcolon_nil]. apply IH; [lia|done].
  - rewrite split_dcolon_other in F by done. apply S1 in F as [-> F]; [|apply split_dcolon_nil]. apply IH; [lia|done].
Qed.

Lemma trim_clean s : all_chars (fun c => negb (ascii_space c)) s = true -> trim s = s.
Proof.
  intros H. unfold trim. assert (E : trim_start s = s).
  { destruct s as [|c r]; cbn in *; [done|]. bool_props. by match goal with X : ascii_space c = false |- _ => rewrite X end. }
  rewrite E. clear E. induction s as [|c r IH]; cbn in *; [done|]. bool_props. rewrite IH by done. destruct r; [|done].
  by match goal with X : ascii_space c = false |- _ => rewrite X end.
Qed.

(** Texts that end with a character. *)
Definition ends (x : ascii) (s : string) : Prop := exists t, s = t +:+ String x EmptyString.
Lemma drop_last_ends x s t : drop_last x s = Some t -> ends x s.
Proof.
  unfold ends. revert t. induction s as [|c r IH]; intros t H; [done|]. destruct r as [|c' r'].
  - cbn in H. destruct (Ascii.eqb_spec c x) as [->|]; [|done]. by exists EmptyString.
  - change (match drop_last x (String c' r') with Some t' => Some (String c t') | None => None end = Some t) in H.
    destruct (drop_last x (String c' r')) as [t'|]; [|done]. destruct (IH _ eq_refl) as [u E]. exists (String c u). by rewrite append_cons, <- E.
Qed.
Lemma last_cons_ne {A} (a : A) l : l <> [] -> last (a :: l) = last l.
Proof. by destruct l. Qed.
Lemma ends_split_self x s : ends x s -> last (split_on x s) = Some EmptyString.
Proof.
  intros [t ->]. induction t as [|c t IH].
  - rewrite append_empty. cbn [split_on]. by rewrite Ascii.eqb_refl.
  - rewrite append_cons. cbn [split_on]. destruct (Ascii.eqb c x); [by rewrite last_cons_ne by apply split_on_nil|].
    assert (L : (2 <= length (split_on x (t +:+ String x EmptyString)))%nat).
    { apply split_on_many. clear. induction t as [|c t IH]; [rewrite append_empty; cbn [has_char]; by rewrite Ascii.eqb_refl|].
      rewrite append_cons. cbn [has_char]. by rewrite IH, orb_true_r. }
    destruct (split_on x (t +:+ String x EmptyString)) as [|p [|q qs]]; cbn in L; try lia. done.
Qed.
Lemma ends_head x c l : (exists p, last l = Some p /\ ends x p) -> exists p, last (snoc_head c l) = Some p /\ ends x p.
Proof.
  intros (p & E & u & ->). destruct l as [|q [|q' l]]; [done| |].
  - cbn in E. simplify_eq. exists (String c u +:+ String x EmptyString). split; [done|]. by exists (String c u).
  - exists (u +:+ String x EmptyString). split; [done|]. by exists u.
Qed.
Lemma ends_split x y s : Ascii.eqb x y = false -> ends x s -> exists p, last (split_on y s) = Some p /\ ends x p.
Proof.
  intros Hxy [t ->]. induction t as [|c t IH].
  - rewrite append_empty. cbn [split_on]. rewrite Hxy. eexists. split; [done|]. by exists EmptyString.
  - rewrite append_cons. cbn [split_on]. destruct (Ascii.eqb c y); [by rewrite last_cons_ne by apply split_on_nil|]. by apply (ends_head x c _).
Qed.
Lemma ends_dcolon x s : Ascii.eqb x ":" = false -> ends x s -> exists p, last (split_dcolon s) = Some p /\ ends x p.
Proof.
  intros Hx [t ->]. remember (String.length t) as n eqn:En. assert (Hn : (String.length t <= n)%nat) by lia. clear En. revert t Hn.
  induction n as [|n IH]; intros [|c t] Hn; try (cbn in Hn; lia).
  1, 2: rewrite append_empty, split_dcolon_other by done; eexists; (split; [done|]); by exists EmptyString.
  rewrite append_cons. cbn in Hn. destruct (colon_inv c) as [->|Hc].
  - destruct t as [|c' t'].
    + rewrite append_empty, split_dcolon_one by done. apply (ends_head x ":" _). apply (IH EmptyString). cbn. lia.
    + rewrite append_cons. destruct (colon_inv c') as [->|Hc'].
      * cbn [split_dcolon]. rewrite last_cons_ne by apply split_dcolon_nil. apply IH. cbn in Hn. lia.
      * rewrite split_dcolon_one by done. apply (ends_head x ":" _). rewrite <- append_cons. apply IH. lia.
  - rewrite split_dcolon_other by done. apply (ends_head x c _). apply IH. lia.
Qed.

Lemma hextet_chars p g : hextet p = Some g -> all_chars (fun c => is_some (hex_val c)) p = true.
Proof. unfold hextet. destruct (all_hex p) eqn:E; [|done]. intros _. induction p as [|c r IH]; cbn in *; [done|]. bool_props. apply andb_true_iff. auto. Qed.
Lemma digits_chars p : all_digits p = true -> all_chars is_digit p = true.
Proof. induction p as [|c r IH]; cbn; [done|]. intros H. bool_props. apply andb_true_iff. auto. Qed.
Lemma hex_ip : forall c, is_some (hex_val c) = true -> ip_char c = true.
Proof. unfold ip_char. by intros c ->. Qed.
Lemma digit_ip : forall c, is_digit c = true -> ip_char c = true.
Proof. each_char. Qed.
Lemma all_chars_ends P x s : all_chars P s = true -> ends x s -> P x = true.
Proof.
  intros H [t ->]. induction t as [|c t IH]; [rewrite append_empty in H|rewrite append_cons in H]; cbn in H; bool_props; [done|auto].
Qed.

Lemma quad_chars s q : quad s = Some q -> all_chars ip_char s = true /\ ~ ends "." s.
Proof.
  unfold quad. destruct (length (split_on "." s) =? 4)%nat; [|done]. intros H%sequence_Forall2. split.
  - apply (all_chars_split ip_char "."); [done|]. eapply Forall2_Forall_l; [exact H|]. apply Forall_true. intros v p Hp.
    apply octet_spec in Hp as (_ & _ & Hd & _). eapply all_chars_impl; [apply digit_ip|]. by apply digits_chars.
  - intros He%ends_split_self. apply last_Some_elem_of in He. eapply Forall2_Forall_l in H; [|apply Forall_true; intros v p Hp; exact (proj2 (proj2 (proj2 (octet_spec p v Hp))))].
    rewrite Forall_forall in H. by apply (H _ He).
Qed.
Lemma groups_chars ok parts gs : groups_of ok parts = Some gs ->
  Forall (fun p => all_chars ip_char p = true) parts /\ forall p, last parts = Some p -> ~ ends "." p.
Proof.
  revert gs. induction parts as [|p rest IH]; intros gs H; [split; [constructor|done]|]. cbn [groups_of] in H.
  destruct (hextet p) as [g|] eqn:E.
  - destruct (groups_of ok rest) as [gs'|] eqn:Er; [|done]. destruct (IH _ eq_refl) as [I1 I2]. apply hextet_chars in E. split.
    + constructor; [|done]. eapply all_chars_impl; [apply hex_ip|exact E].
    + intros p' Hp. destruct rest; [|by apply I2]. cbn in Hp. simplify_eq. intros He. by apply (all_chars_ends _ _ _ E) in He.
  - destruct rest; [|done]. destruct (quad p) as [q|] eqn:Eq; [|done]. destruct (quad_chars _ _ Eq) as [C1 C2].
    split; [by repeat constructor|]. intros p' Hp. cbn in Hp. by simplify_eq.
Qed.
Lemma side_chars ok part gs : side ok part = Some gs -> all_chars ip_char part = true /\ ~ ends "." part.
Proof.
  unfold side. destruct (String.eqb_spec part EmptyString) as [->|].
  - intros _. split; [done|]. intros [[|] ?]; done.
  - intros H%groups_chars. destruct H as [F L]. split; [by apply (all_chars_split ip_char ":")|].
    intros He. destruct (ends_split "." ":" part eq_refl He) as (p & Hp & He'). by apply (L p).
Qed.
Lemma v6_chars s gs : v6_groups s = Some gs -> all_chars ip_char s = true /\ ~ ends "." s.
Proof.
  unfold v6_groups. intros H.
  assert (G : Forall (fun p => all_chars ip_char p = true) (split_dcolon s) /\ forall p, last (split_dcolon s) = Some p -> ~ ends "." p).
  { destruct (split_dcolon s) as [|h [|t [|]]]; try done.
    - destruct (groups_of true (split_on ":" h)) eqn:E; [|done].
      assert (Hs : side true h = Some l) by (unfold side; destruct (String.eqb_spec h EmptyString) as [->|]; [|done]; cbn in E; done).
      apply side_chars in Hs as [A B]. split; [by repeat constructor|]. intros p Hp. cbn in Hp. by simplify_eq.
    - destruct (side false h) eqn:Eh; [|done]. destruct (side true t) eqn:Et; [|done]. apply side_chars in Eh as [A1 B1], Et as [A2 B2].
      split; [by repeat constructor|]. intros p Hp. cbn in Hp. by simplify_eq. }
  destruct G as [F L]. split; [by apply all_chars_dcolon|]. intros He.
  destruct (ends_dcolon "." s eq_refl He) as (p & Hp & He'). by apply (L p).
Qed.

Lemma normalize_ip s : all_chars ip_char s = true -> ~ ends "." s -> normalizeHostname s = to_lower s.
Proof.
  intros H He. unfold normalizeHostname. rewrite trim_clean by (eapply all_chars_impl; [|exact H]; intros c Hc; by rewrite ip_char_not_space).
  assert (Hb : strip_brackets s = s).
  { destruct s as [|c r]; [done|]. cbn [all_chars] in H. bool_props. apply ip_char_not_bracket in H. unfold strip_brackets.
    destruct c as [[] [] [] [] [] [] [] []]; try reflexivity. done. }
  rewrite Hb. destruct (drop_last "." s) as [t|] eqn:E; [|done]. by apply drop_last_ends in E.
Qed.

Lemma octet_lower p : octet (to_lower p) = octet p.
Proof.
  destruct (all_digits p) eqn:E; [by rewrite digits_lower|]. unfold octet. rewrite E.
  assert (E' : all_digits (to_lower p) = false); [|by rewrite E'].
  rewrite <- E. unfold to_lower. clear E. induction p as [|c r IH]; cbn; [done|]. rewrite IH. f_equal.
  clear. revert c. each_char.
Qed.
Lemma quad_lower s : quad (to_lower s) = quad s.
Proof.
  unfold quad. rewrite split_on_lower by apply lower_dot. rewrite length_map. destruct (_ =? 4)%nat; [|done]. f_equal.
  rewrite map_map. apply map_ext, octet_lower.
Qed.
Lemma hextet_lower p : hextet (to_lower p) = hextet p.
Proof. unfold hextet, len_between. by rewrite all_hex_lower, length_lower, hex_lower. Qed.
Lemma groups_of_lower ok parts : groups_of ok (map to_lower parts) = groups_of ok parts.
Proof.
  induction parts as [|p rest IH]; [done|]. cbn [map groups_of]. rewrite hextet_lower, quad_lower, IH. destruct (hextet p); [done|]. by destruct rest.
Qed.
Lemma v6_groups_lower s : v6_groups (to_lower s) = v6_groups s.
Proof.
  assert (S : forall ok p, side ok (to_lower p) = side ok p).
  { intros ok p. unfold side. rewrite lower_empty. destruct (String.eqb p EmptyString); [done|]. rewrite split_on_lower by apply lower_colon. apply groups_of_lower. }
  unfold v6_groups. rewrite split_dcolon_lower. destruct (split_dcolon s) as [|h [|t [|]]]; try done; cbn [map].
  - rewrite split_on_lower by apply lower_colon. by rewrite groups_of_lower.
  - by rewrite !S.
Qed.
