(* ===== verification/OutboundFacts.v ===== *)
(** The outbound guard against its specification: the addresses it blocks are those
    of a table of reserved networks, every address the transport is told to dial is
    outside the table and is not an address of this host, redirects are never
    followed, and a response body is delivered whole and within its limit. *)

From S2P Require Import Prelude NetAddress OutboundUrl NetFacts.
From Stdlib Require Import ZArith Lia Bool Ascii String.
From stdpp Require Import base list strings pretty.
Local Open Scope string_scope.
Local Open Scope list_scope.
Local Open Scope Z_scope.

(** ** Numbers in positional notation *)

Definition number (base : Z) (digits : list Z) : Z := fold_left (fun acc d => acc * base + d) digits 0.

Lemma number_app B l r : number B (l ++ r) = number B l * B ^ Z.of_nat (length r) + number B r.
Proof.
  unfold number. rewrite fold_left_app. generalize (fold_left (fun acc d => acc * B + d) l 0). clear l.
  enough (G : forall a, fold_left (fun acc d => acc * B + d) r a = a * B ^ Z.of_nat (length r) + fold_left (fun acc d => acc * B + d) r 0) by apply G.
  induction r as [|d r IH]; intros a; cbn [fold_left length]; [rewrite Z.pow_0_r; lia|].
  rewrite IH, (IH (0 * B + d)), Nat2Z.inj_succ, Z.pow_succ_r by lia. ring.
Qed.
Lemma number_bound B l : 0 < B -> Forall (fun d => 0 <= d < B) l -> 0 <= number B l < B ^ Z.of_nat (length l).
Proof.
  intros HB. induction l as [|d l IH] using rev_ind; [cbn; lia|]. rewrite Forall_app, Forall_singleton. intros [F D].
  rewrite number_app, length_app. cbn [length]. destruct (IH F) as [I1 I2]. change (Z.of_nat 1) with 1. rewrite Z.pow_1_r.
  change (number B [d]) with (0 * B + d).
  replace (Z.of_nat (length l + 1)) with (Z.succ (Z.of_nat (length l))) by lia. rewrite Z.pow_succ_r by lia. nia.
Qed.
Lemma number_prefix w l r : 0 <= w -> Forall (fun d => 0 <= d < 2 ^ w) r ->
  Z.shiftr (number (2 ^ w) (l ++ r)) (w * Z.of_nat (length r)) = number (2 ^ w) l.
Proof.
  intros Hw F. rewrite Z.shiftr_div_pow2 by lia. rewrite number_app, Z.pow_mul_r by lia.
  pose proof (number_bound (2 ^ w) r ltac:(lia) F). rewrite Z.div_add_l by lia. rewrite Z.div_small by lia. lia.
Qed.

(** ** The specification *)

Definition in_net (width n : Z) (net : Z * Z) : bool := Z.shiftr n (width - snd net) =? Z.shiftr (fst net) (width - snd net).
Definition v4 (a b c d len : Z) : Z * Z := (number 256 [a; b; c; d], len).
Definition v6 (prefix : list Z) (len : Z) : Z * Z := (number 65536 (prefix ++ repeat 0 (8 - length prefix)), len).
Definition ipv4_reserved : list (Z * Z) :=
  [v4 0 0 0 0 8; v4 10 0 0 0 8; v4 127 0 0 0 8; v4 100 64 0 0 10; v4 169 254 0 0 16; v4 172 16 0 0 12; v4 192 168 0 0 16; v4 192 0 0 0 16;
   v4 198 18 0 0 15; v4 198 51 100 0 24; v4 203 0 113 0 24; v4 224 0 0 0 3].
Definition ipv4_mapped : Z * Z := v6 [0; 0; 0; 0; 0; 65535] 96.
Definition ipv6_reserved : list (Z * Z) :=
  [v6 [] 128; v6 [0; 0; 0; 0; 0; 0; 0; 1] 128; v6 [64512] 7; v6 [65152] 10; v6 [65280] 8; v6 [8193; 3512] 32; v6 [8193] 32; v6 [8194] 16;
   v6 [100; 65435] 32; v6 [256] 64].
Definition reserved4 (n : Z) : bool := existsb (in_net 32 n) ipv4_reserved.
Definition reserved6 (n : Z) : bool :=
  if in_net 128 n ipv4_mapped then reserved4 (n mod 2 ^ 32) else existsb (in_net 128 n) ipv6_reserved.

(** An address the server must never dial: not an address at all, scoped to a link,
    or in a reserved network. *)
Definition reserved (address : string) : bool :=
  match ipv4_value address, ipv6_value address with
  | Some q, _ => reserved4 (number 256 q)
  | None, Some gs => has_char "%" address || reserved6 (number 65536 gs)
  | None, None => true
  end.

(** ** IPv4 *)

Lemma in_net32 n a b c d len : 0 <= len <= 32 -> in_net 32 n (v4 a b c d len) = (n / 2 ^ (32 - len) =? number 256 [a; b; c; d] / 2 ^ (32 - len)).
Proof. intros. unfold in_net, v4. cbn [fst snd]. by rewrite !Z.shiftr_div_pow2 by lia. Qed.

Lemma bool_iff (a b : bool) : (a = true <-> b = true) -> a = b.
Proof. destruct a, b; intuition congruence. Qed.

Lemma blocked4_table s a b c d : ipv4ToBytes s = Some [a; b; c; d] -> Forall (fun x => 0 <= x <= 255) [a; b; c; d] ->
  isBlockedIpv4 s = reserved4 (number 256 [a; b; c; d]).
Proof.
  intros E F. unfold isBlockedIpv4. rewrite E. repeat match goal with H : Forall _ (_ :: _) |- _ => inversion_clear H end.
  unfold reserved4, ipv4_reserved. cbn [existsb]. rewrite !in_net32 by lia.
  assert (N : number 256 [a; b; c; d] = ((a * 256 + b) * 256 + c) * 256 + d) by reflexivity. rewrite N.
  unfold number. cbn [fold_left].
  repeat match goal with |- context [2 ^ (32 - ?k)] => let v := eval vm_compute in (2 ^ (32 - k)) in change (2 ^ (32 - k)) with v end.
  rewrite !orb_false_r, <- !orb_assoc.
  repeat (apply (f_equal2 orb); [apply bool_iff; rewrite ?orb_true_iff, ?andb_true_iff, ?orb_true_iff, ?Z.eqb_eq, ?Z.leb_le; Z.div_mod_to_equations; lia|]).
  apply bool_iff; rewrite Z.eqb_eq, Z.leb_le. Z.div_mod_to_equations. lia.
Qed.

(** ** Printing dotted quads *)

Lemma bytes_forall (P : Z -> bool) : forallb (fun n => P (Z.of_nat n)) (seq 0 256) = true -> forall b, 0 <= b <= 255 -> P b = true.
Proof.
  intros H b Hb. rewrite forallb_forall in H. rewrite <- (Z2Nat.id b) by lia. apply H. apply in_seq. lia.
Qed.
Definition byte_prints (b : Z) : bool := bool_decide (number_part (pretty b) = Some b) && negb (has_char "." (pretty b)).
Lemma pretty_byte b : 0 <= b <= 255 -> number_part (pretty b) = Some b /\ has_char "." (pretty b) = false.
Proof.
  intros Hb. assert (H : byte_prints b = true) by (apply bytes_forall; [vm_compute; reflexivity|done]).
  unfold byte_prints in H. bool_props. split; [by apply bool_decide_eq_true in H|done].
Qed.
Lemma dotted_bytes q : length q = 4%nat -> Forall (fun x => 0 <= x <= 255) q -> ipv4ToBytes (dotted q) = Some q.
Proof.
  destruct q as [|a [|b [|c [|d [|]]]]]; try discriminate. intros _ F. unfold ipv4ToBytes, dotted, js_join.
  repeat match goal with H : Forall _ (_ :: _) |- _ => inversion_clear H end.
  destruct (pretty_byte a) as [A1 A2]; [done|]. destruct (pretty_byte b) as [B1 B2]; [done|].
  destruct (pretty_byte c) as [C1 C2]; [done|]. destruct (pretty_byte d) as [D1 D2]; [done|].
  assert (E : split_on "." (String.concat "." (map pretty [a; b; c; d])) = [pretty a; pretty b; pretty c; pretty d]).
  { cbn [map String.concat].
    change (split_on "." (pretty a +:+ String "." (pretty b +:+ String "." (pretty c +:+ String "." (pretty d)))) = [pretty a; pretty b; pretty c; pretty d]).
    by rewrite !split_on_app, split_on_whole. }
  rewrite E. cbn [map]. rewrite A1, B1, C1, D1. cbn [sequence length Nat.eqb negb orb existsb].
  assert (R : forall x, 0 <= x <= 255 -> is_byte x = true) by (intros; unfold is_byte; apply andb_true_iff; split; apply Z.leb_le; lia).
  by rewrite !R.
Qed.

(** ** IPv6 *)

Lemma hextet_bytes_div g : 0 <= g < 65536 -> hextet_bytes g = [g / 256; g mod 256].
Proof.
  intros Hg. unfold hextet_bytes. rewrite Z.shiftr_div_pow2 by lia. change 255 with (Z.ones 8). rewrite !Z.land_ones by lia.
  change (2 ^ 8) with 256. rewrite (Z.mod_small (g / 256)); [done|]. split; [apply Z.div_pos; lia|apply Z.div_lt_upper_bound; lia].
Qed.

Lemma mapped_table a b c d e f g h : Forall (fun x => 0 <= x < 65536) [a; b; c; d; e; f; g; h] ->
  let n := number 65536 [a; b; c; d; e; f; g; h] in
  let bytes := flat_map hextet_bytes [a; b; c; d; e; f; g; h] in
  mappedIpv4 bytes = (if in_net 128 n ipv4_mapped then Some (dotted [g / 256; g mod 256; h / 256; h mod 256]) else None) /\
  n mod 2 ^ 32 = number 256 [g / 256; g mod 256; h / 256; h mod 256].
Proof.
  intros F n bytes. assert (T : Forall (fun x => 0 <= x < 65536) [g; h]) by (clear -F; do 6 (apply Forall_cons in F as [_ F]); exact F). split.
  - unfold mappedIpv4.
    assert (E : in_net 128 n ipv4_mapped = allZero (firstn 10 bytes) && (nth 10 bytes (-1) =? 255) && (nth 11 bytes (-1) =? 255)).
    { apply bool_iff. unfold in_net, ipv4_mapped, v6. cbn [fst snd length repeat app Nat.sub]. change (128 - 96) with (16 * Z.of_nat (length [g; h])).
      change 65536 with (2 ^ 16). change n with (number (2 ^ 16) ([a; b; c; d; e; f] ++ [g; h])).
      change [0; 0; 0; 0; 0; 65535; 0; 0] with ([0; 0; 0; 0; 0; 65535] ++ [0; 0]).
      rewrite number_prefix by (try lia; exact T).
      change (Z.of_nat (length [g; h])) with (Z.of_nat (length [0; 0])). rewrite number_prefix by (try lia; repeat constructor; lia).
      unfold bytes. cbn [flat_map]. repeat match goal with H : Forall _ (_ :: _) |- _ => inversion_clear H end.
      rewrite !hextet_bytes_div by lia. cbn [app firstn nth allZero forallb]. rewrite !andb_true_iff, !Z.eqb_eq.
      unfold number. cbn [fold_left]. change (2 ^ 16) with 65536. clear n bytes. split.
      + intros Y. assert (a = 0 /\ b = 0 /\ c = 0 /\ d = 0 /\ e = 0 /\ f = 65535) as (-> & -> & -> & -> & -> & ->) by lia. cbn. auto 20.
      + intros Y. assert (a = 0 /\ b = 0 /\ c = 0 /\ d = 0 /\ e = 0 /\ f = 65535) as (-> & -> & -> & -> & -> & ->); [|done].
        repeat match goal with X : _ /\ _ |- _ => destruct X end. Z.div_mod_to_equations. lia. }
    rewrite E. unfold bytes. cbn [flat_map]. repeat match goal with H : Forall _ (_ :: _) |- _ => inversion_clear H end.
    rewrite !hextet_bytes_div by lia. reflexivity.
  - unfold n. change [a; b; c; d; e; f; g; h] with ([a; b; c; d; e; f] ++ [g; h]). rewrite number_app. change (65536 ^ Z.of_nat (length [g; h])) with (2 ^ 32).
    rewrite Z.add_comm, Z_mod_plus_full. rewrite Z.mod_small.
    + unfold number. cbn [fold_left]. Z.div_mod_to_equations. lia.
    + change (2 ^ 32) with (65536 ^ Z.of_nat (length [g; h])). apply number_bound; [lia|exact T].
Qed.

Lemma in_net_groups pre post p len : Forall (fun x => 0 <= x < 65536) post -> length (pre ++ post) = 8%nat -> length p = length pre ->
  len = 16 * Z.of_nat (length pre) -> in_net 128 (number 65536 (pre ++ post)) (v6 p len) = (number 65536 pre =? number 65536 p).
Proof.
  intros F L Lp ->. rewrite length_app in L. unfold in_net, v6. cbn [fst snd].
  replace (128 - 16 * Z.of_nat (length pre)) with (16 * Z.of_nat (length post)) by lia.
  change 65536 with (2 ^ 16). rewrite number_prefix by (try lia; exact F).
  replace (8 - length p)%nat with (length post) by lia.
  assert (Z0 : Forall (fun x => 0 <= x < 2 ^ 16) (repeat 0 (length post))) by (apply List.Forall_forall; intros x Hx%repeat_spec; lia).
  pose proof (number_prefix 16 p _ ltac:(lia) Z0) as N. rewrite repeat_length in N. by rewrite N.
Qed.
Lemma in_net_high a post x len : Forall (fun y => 0 <= y < 65536) post -> length post = 7%nat -> 0 <= len <= 16 ->
  in_net 128 (number 65536 (a :: post)) (v6 [x] len) = (a / 2 ^ (16 - len) =? x / 2 ^ (16 - len)).
Proof.
  intros F L Hl. unfold in_net, v6. cbn [fst snd]. replace (128 - len) with (16 * Z.of_nat (length post) + (16 - len)) by lia.
  rewrite <- !Z.shiftr_shiftr by lia. change 65536 with (2 ^ 16). change (a :: post) with ([a] ++ post).
  rewrite number_prefix by (try lia; exact F). rewrite L. change (8 - length [x])%nat with 7%nat.
  change (Z.of_nat 7) with (Z.of_nat (length (repeat 0 7))). rewrite number_prefix by (try lia; repeat constructor; lia).
  by rewrite !Z.shiftr_div_pow2 by lia.
Qed.

Lemma land_high : forall x, 0 <= x <= 255 -> (Z.land x 254 =? 252) = (x / 2 =? 126).
Proof. intros x Hx. apply eqb_prop, (bytes_forall (fun x => Bool.eqb (Z.land x 254 =? 252) (x / 2 =? 126))); [vm_compute; reflexivity|done]. Qed.
Lemma land_link : forall x, 0 <= x <= 255 -> (Z.land x 192 =? 128) = (x / 64 =? 2).
Proof. intros x Hx. apply eqb_prop, (bytes_forall (fun x => Bool.eqb (Z.land x 192 =? 128) (x / 64 =? 2))); [vm_compute; reflexivity|done]. Qed.

(** Byte conditions against group conditions: groups from bytes by [W], bytes from
    groups by computation. *)
Ltac same_groups W :=
  split; intros Y;
  [ repeat match goal with X : _ /\ _ |- _ => destruct X end;
    repeat match goal with X : ?x / 256 = _, X' : ?x mod 256 = _ |- _ => apply (W x _ _ ltac:(lia) X) in X'; clear X end;
    subst; try reflexivity; try (Z.div_mod_to_equations; lia)
  | split_and?; try reflexivity; Z.div_mod_to_equations; lia ].

Lemma blocked6_table s a b c d e f g h : parseIpv6ToBytes s = Some (flat_map hextet_bytes [a; b; c; d; e; f; g; h]) ->
  Forall (fun x => 0 <= x < 65536) [a; b; c; d; e; f; g; h] -> isBlockedIpv6 s = reserved6 (number 65536 [a; b; c; d; e; f; g; h]).
Proof.
  intros E F. unfold isBlockedIpv6, reserved6. rewrite E. destruct (mapped_table _ _ _ _ _ _ _ _ F) as [M1 M2]. rewrite M1, M2.
  assert (Bs : 0 <= a < 65536 /\ 0 <= b < 65536 /\ 0 <= c < 65536 /\ 0 <= d < 65536 /\ 0 <= e < 65536 /\ 0 <= f < 65536 /\ 0 <= g < 65536 /\ 0 <= h < 65536)
    by (clear -F; repeat match goal with X : Forall _ (_ :: _) |- _ => inversion_clear X end; auto 20).
  destruct Bs as (? & ? & ? & ? & ? & ? & ? & ?).
  destruct (in_net 128 _ ipv4_mapped) eqn:Em; [|clear M1 M2 Em E].
  - assert (B : forall x, 0 <= x < 65536 -> 0 <= x / 256 <= 255 /\ 0 <= x mod 256 <= 255) by (intros; Z.div_mod_to_equations; lia).
    assert (Fq : Forall (fun x => 0 <= x <= 255) [g / 256; g mod 256; h / 256; h mod 256]) by (repeat constructor; apply B; done).
    apply blocked4_table; [by apply dotted_bytes|done].
  - unfold ipv6_reserved. cbn [existsb].
    rewrite (in_net_groups [a; b; c; d; e; f; g; h] [] [0; 0; 0; 0; 0; 0; 0; 1]) by (try constructor; done).
    change (v6 [] 128) with (v6 [0; 0; 0; 0; 0; 0; 0; 0] 128). rewrite (in_net_groups [a; b; c; d; e; f; g; h] [] [0; 0; 0; 0; 0; 0; 0; 0]) by (try constructor; done).
    assert (T7 : Forall (fun x => 0 <= x < 65536) [b; c; d; e; f; g; h]) by (by apply Forall_cons in F as [_ ?]).
    assert (T6 := T7). apply Forall_cons in T6 as [_ T6]. assert (T4 := T6). do 2 apply Forall_cons in T4 as [_ T4].
    rewrite !in_net_high by (try done; lia).
    change (v6 [8193] 32) with (v6 [8193; 0] 32). change (v6 [256] 64) with (v6 [256; 0; 0; 0] 64).
    rewrite (in_net_high a _ 8194 16 T7 eq_refl ltac:(lia)).
    pose proof (in_net_groups [a; b] _ [8193; 3512] 32 T6 eq_refl eq_refl eq_refl) as G1. pose proof (in_net_groups [a; b] _ [8193; 0] 32 T6 eq_refl eq_refl eq_refl) as G2.
    pose proof (in_net_groups [a; b] _ [100; 65435] 32 T6 eq_refl eq_refl eq_refl) as G3. pose proof (in_net_groups [a; b; c; d] _ [256; 0; 0; 0] 64 T4 eq_refl eq_refl eq_refl) as G4.
    cbn [app] in G1, G2, G3, G4. rewrite G1, G2, G3, G4. clear G1 G2 G3 G4.
    cbn [flat_map]. rewrite !hextet_bytes_div by lia. cbn [app nth firstn skipn allZero forallb].
    rewrite land_high, land_link by (Z.div_mod_to_equations; lia).
    rewrite !orb_false_r, <- !orb_assoc. unfold number. cbn [fold_left].
    repeat match goal with |- context [2 ^ (16 - ?k)] => let v := eval vm_compute in (2 ^ (16 - k)) in change (2 ^ (16 - k)) with v end.
    assert (W : forall x u v, 0 <= v < 256 -> x / 256 = u -> x mod 256 = v -> x = u * 256 + v) by (intros; Z.div_mod_to_equations; lia).
    repeat (apply (f_equal2 orb); [apply bool_iff; rewrite ?andb_true_iff, ?Z.eqb_eq; same_groups W|]).
    apply bool_iff; rewrite ?andb_true_iff, ?Z.eqb_eq; same_groups W.
Qed.

(** ** The guard and the table *)

Lemma ipv6_zone_free s gs : ipv6_value s = Some gs -> has_char "%" s = false -> v6_groups s = Some gs.
Proof. unfold ipv6_value. intros H Hp. destruct (zone_ok s); [|done]. by rewrite before_no_char in H. Qed.
Lemma parse_zone s : has_char "%" s = true -> parseIpv6ToBytes s = None.
Proof. unfold parseIpv6ToBytes. by intros ->. Qed.
Lemma groups8 (P : Z -> Prop) gs : length gs = 8%nat -> Forall P gs ->
  exists a b c d e f g h, gs = [a; b; c; d; e; f; g; h] /\ Forall P [a; b; c; d; e; f; g; h].
Proof.
  destruct gs as [|a [|b [|c [|d [|e [|f [|g [|h [|]]]]]]]]]; try discriminate. intros _ F. by exists a, b, c, d, e, f, g, h.
Qed.

Lemma guard_spec address : isPrivateOrSpecialAddress address = reserved (normalizeHostname address).
Proof.
  unfold isPrivateOrSpecialAddress, reserved. generalize (normalizeHostname address) as s. clear address. intros s.
  rewrite isIP_4, isIP_6. unfold ipv4_value. destruct (quad s) as [q|] eqn:Eq; cbn [is_some negb andb].
  - destruct (quad_spec _ _ Eq) as (B & _ & _ & _ & _ & a & b & c & d & -> & F). by apply blocked4_table.
  - destruct (ipv6_value s) as [gs|] eqn:E6; [cbn [is_some]|done]. destruct (has_char "%" s) eqn:Ez; cbn [orb].
    + unfold isBlockedIpv6. by rewrite parse_zone.
    + destruct (v6_groups_bytes s gs (ipv6_zone_free _ _ E6 Ez) Ez) as (B & L & F).
      destruct (groups8 _ _ L F) as (a & b & c & d & e & f & g & h & -> & F8). by apply blocked6_table.
Qed.
(** C17: C: The guard blocks exactly the texts that are not an address, the link-scoped
    addresses, and the addresses of a fixed table of reserved IPv4 and IPv6
    networks, an IPv4 address written inside an IPv6 one included: its octet and
    byte tests are that table. *)
Theorem guard_is_reserved_table (address : string) :
  isPrivateOrSpecialAddress address = reserved (normalizeHostname address).
Proof. apply guard_spec. Qed.

(** ** Identity of addresses *)

(** The 128-bit number an address denotes; an IPv4 address is its IPv4-mapped number. *)
Definition address_value (s : string) : option Z :=
  match ipv4_value s, ipv6_value s with
  | Some q, _ => Some (fst ipv4_mapped + number 256 q)
  | None, Some gs => if has_char "%" s then None else Some (number 65536 gs)
  | None, None => None
  end.

Lemma number_inj B l l' : 0 < B -> length l = length l' -> Forall (fun d => 0 <= d < B) l -> Forall (fun d => 0 <= d < B) l' ->
  number B l = number B l' -> l = l'.
Proof.
  intros HB. revert l'. induction l as [|d l IH] using rev_ind; intros l' L F F' N.
  - by destruct l'.
  - destruct l' as [|d' l' _] using rev_ind; [rewrite length_app in L; cbn in L; lia|].
    rewrite !length_app in L. cbn [length] in L. apply Forall_app in F as [F D], F' as [F' D']. rewrite Forall_singleton in D, D'.
    rewrite !number_app in N. cbn [length] in N. rewrite Z.pow_1_r in N.
    change (number B [d]) with (0 * B + d) in N. change (number B [d']) with (0 * B + d') in N.
    assert (d = d').
    { transitivity ((number B l * B + (0 * B + d)) mod B); [|rewrite N]; rewrite Z.add_comm, Z_mod_plus_full, Z.mod_small; lia. }
    subst d'. f_equal. apply IH; try done; [lia|]. nia.
Qed.

Lemma identity_v4 s q : quad s = Some q -> addressIdentity s = Some ("4:" +:+ dotted q).
Proof.
  intros E. unfold addressIdentity. rewrite isIP_4. unfold ipv4_value. rewrite E. cbn [is_some].
  by destruct (quad_spec _ _ E) as (-> & _).
Qed.
Lemma identity_v6 s gs : quad s = None -> ipv6_value s = Some gs -> has_char "%" s = false ->
  length gs = 8%nat /\ Forall (fun x => 0 <= x < 65536) gs /\
  addressIdentity s = Some (match mappedIpv4 (flat_map hextet_bytes gs) with
                            | Some m => "4:" +:+ m | None => "6:" +:+ hex_text (flat_map hextet_bytes gs) end).
Proof.
  intros E4 E6 Ez. destruct (v6_groups_bytes s gs (ipv6_zone_free _ _ E6 Ez) Ez) as (B & L & F). split; [done|]. split; [done|].
  unfold addressIdentity. rewrite isIP_4, isIP_6. unfold ipv4_value. rewrite E4, E6. cbn [is_some negb andb]. rewrite B.
  by destruct (mappedIpv4 _).
Qed.

Lemma mapped_identity q gs : length q = 4%nat -> Forall (fun x => 0 <= x <= 255) q -> length gs = 8%nat -> Forall (fun x => 0 <= x < 65536) gs ->
  number 65536 gs = fst ipv4_mapped + number 256 q -> mappedIpv4 (flat_map hextet_bytes gs) = Some (dotted q).
Proof.
  intros Lq Fq L F N. destruct (groups8 _ _ L F) as (a & b & c & d & e & f & g & h & -> & F8).
  destruct (mapped_table _ _ _ _ _ _ _ _ F8) as [M1 M2]. rewrite M1.
  assert (Bq : 0 <= number 256 q < 2 ^ 32).
  { change (2 ^ 32) with (256 ^ 4). replace 4 with (Z.of_nat (length q)) by lia. apply number_bound; [lia|].
    eapply Forall_impl; [exact Fq|]. cbn. lia. }
  assert (E : in_net 128 (number 65536 [a; b; c; d; e; f; g; h]) ipv4_mapped = true).
  { unfold in_net. rewrite N. change (128 - snd ipv4_mapped) with 32. rewrite !Z.shiftr_div_pow2 by lia. apply Z.eqb_eq.
    change (fst ipv4_mapped) with (281470681743360 : Z). change (2 ^ 32) with 4294967296 in *. Z.div_mod_to_equations. lia. }
  rewrite E. f_equal. f_equal. apply (number_inj 256); [lia|by rewrite Lq| | |].
  - assert (0 <= g < 65536 /\ 0 <= h < 65536) as [Hg Hh] by (clear -F8; repeat match goal with X : Forall _ (_ :: _) |- _ => inversion_clear X end; auto).
    repeat constructor; Z.div_mod_to_equations; lia.
  - eapply Forall_impl; [exact Fq|]. cbn. lia.
  - rewrite <- M2, N. change (fst ipv4_mapped) with (65535 * 2 ^ 32). rewrite Z.add_comm, Z_mod_plus_full. by apply Z.mod_small.
Qed.

(** Equal values have equal identities, however the addresses are written. *)
Lemma identity_of_value s t v : address_value s = Some v -> address_value t = Some v -> addressIdentity s = addressIdentity t /\ is_some (addressIdentity s) = true.
Proof.
  unfold address_value, ipv4_value. intros Hs Ht.
  destruct (quad s) as [q|] eqn:Es, (quad t) as [r|] eqn:Et.
  - rewrite (identity_v4 _ _ Es), (identity_v4 _ _ Et). simplify_eq.
    destruct (quad_spec _ _ Es) as (_ & _ & _ & _ & _ & a & b & c & d & -> & F). destruct (quad_spec _ _ Et) as (_ & _ & _ & _ & _ & a' & b' & c' & d' & -> & F').
    rewrite (number_inj 256 [a; b; c; d] [a'; b'; c'; d']); try done; try lia; (eapply Forall_impl; [eassumption|cbn; lia]).
  - destruct (ipv6_value t) as [gt|] eqn:E6; [|done]. destruct (has_char "%" t) eqn:Ez; [done|]. simplify_eq.
    destruct (identity_v6 _ _ Et E6 Ez) as (L & F & ->). rewrite (identity_v4 _ _ Es).
    destruct (quad_spec _ _ Es) as (_ & _ & _ & _ & _ & a & b & c & d & -> & Fq). by rewrite (mapped_identity [a; b; c; d] gt).
  - destruct (ipv6_value s) as [gt|] eqn:E6; [|done]. destruct (has_char "%" s) eqn:Ez; [done|]. simplify_eq.
    destruct (identity_v6 _ _ Es E6 Ez) as (L & F & ->). rewrite (identity_v4 _ _ Et).
    destruct (quad_spec _ _ Et) as (_ & _ & _ & _ & _ & a & b & c & d & -> & Fq). by rewrite (mapped_identity [a; b; c; d] gt).
  - destruct (ipv6_value s) as [gs|] eqn:E6; [|done]. destruct (has_char "%" s) eqn:Ez; [done|].
    destruct (ipv6_value t) as [gt|] eqn:E6'; [|done]. destruct (has_char "%" t) eqn:Ez'; [done|]. simplify_eq.
    destruct (identity_v6 _ _ Es E6 Ez) as (L & F & ->). destruct (identity_v6 _ _ Et E6' Ez') as (L' & F' & ->).
    rewrite (number_inj 65536 gs gt); try done; lia.
Qed.

(** ** What is dialled *)

Section Dialled.
Context (selfIps : string) (interfaces : list string).
Context (parseUrl : string -> option URL) (resolveUrl : string -> URL -> option URL) (printUrl : URL -> string).
Context (lookup : string -> result string (list LookupAddress)) (aborted : Checkpoint -> bool).

(** The addresses of this host: the operator's inventory and the interfaces. *)
Definition host_addresses : list string :=
  (if String.eqb (trim selfIps) EmptyString then [] else map trim (split_on "," (trim selfIps))) ++ map (before "%") interfaces.

Lemma identities_spec bad l ids : identities bad l = Ok ids -> forall a, a ∈ l -> exists i, addressIdentity a = Some i /\ i ∈ ids.
Proof.
  revert ids. induction l as [|x l IH]; cbn; intros ids H a Ha; [by apply elem_of_nil in Ha|].
  destruct (addressIdentity x) as [i|] eqn:E; [|done]. inv_ok. apply elem_of_cons in Ha as [->|Ha].
  - exists i. split; [done|]. apply elem_of_cons. auto.
  - destruct (IH _ eq_refl a Ha) as (j & Ej & Hj). exists j. split; [done|]. apply elem_of_cons. auto.
Qed.
Lemma self_spec self a : currentSelfAddresses selfIps interfaces = Ok self -> a ∈ host_addresses -> exists i, addressIdentity a = Some i /\ i ∈ self.
Proof.
  unfold currentSelfAddresses, host_addresses. intros H Ha. inv_ok. apply elem_of_app in Ha as [Ha|Ha].
  - eapply identities_spec in Ha as (i & E & Hi); [|eassumption]. exists i. split; [done|]. apply elem_of_app. auto.
  - eapply identities_spec in Ha as (i & E & Hi); [|eassumption]. exists i. split; [done|]. apply elem_of_app. auto.
Qed.
Lemma not_self self address a v : currentSelfAddresses selfIps interfaces = Ok self -> in_identities self (addressIdentity address) = false ->
  a ∈ host_addresses -> address_value a = Some v -> address_value address <> Some v.
Proof.
  intros Hs Hn Ha Va Vx. destruct (self_spec _ _ Hs Ha) as (i & Ei & Hi). destruct (identity_of_value _ _ _ Va Vx) as [E _].
  rewrite <- E, Ei in Hn. cbn in Hn. apply not_true_iff_false in Hn. apply Hn. apply existsb_exists. exists i. split; [by apply list_elem_of_In|].
  apply String.eqb_refl.
Qed.

Lemma value_normalized s v : address_value s = Some v -> address_value (normalizeHostname s) = Some v.
Proof.
  unfold address_value, ipv4_value. intros H.
  assert (G : all_chars ip_char s = true /\ ~ ends "." s /\ has_char "%" s = false).
  { destruct (quad s) as [q|] eqn:Eq.
    - destruct (quad_chars _ _ Eq). destruct (quad_spec _ _ Eq) as (_ & _ & _ & _ & Hp & _). done.
    - destruct (ipv6_value s) eqn:E6; [|done]. destruct (has_char "%" s) eqn:Ez; [done|].
      destruct (v6_chars _ _ (ipv6_zone_free _ _ E6 Ez)). done. }
  destruct G as (C & E & Z0). rewrite normalize_ip by done. rewrite quad_lower. destruct (quad s); [done|].
  assert (Zl : has_char "%" (to_lower s) = false) by (by rewrite (has_char_lower "%" s lower_percent)).
  unfold ipv6_value, zone_ok in *. rewrite (proj2 (after_has_char "%" (to_lower s)) Zl), Zl.
  rewrite (proj2 (after_has_char "%" s) Z0), Z0 in H. rewrite !before_no_char in * by done. rewrite v6_groups_lower. done.
Qed.

Lemma checked_address entry waiting resolved rawUrl ck :
  checkOutboundUrl selfIps interfaces parseUrl lookup aborted entry waiting resolved rawUrl = Ok ck ->
  isPrivateOrSpecialAddress (ck_address ck) = false /\
  forall a v, a ∈ host_addresses -> address_value a = Some v -> address_value (ck_address ck) <> Some v.
Proof.
  unfold checkOutboundUrl. intros H. inv_ok. destruct (parseUrl rawUrl) as [url|]; [|done]. inv_ok. destruct (negb (isIP _ =? 0)).
  - inv_ok. bool_props. cbn [ck_address]. split; [done|]. intros y v Hy Vy. by eapply not_self.
  - inv_ok. match goal with H : match ?l with [] => _ | _ :: _ => _ end = Ok ck |- _ => destruct l as [|first rest]; [done|] end. inv_ok.
    bool_props. cbn [existsb ck_address] in *. bool_props. split; [done|]. intros y v Hy Vy Vx%value_normalized. revert Vx. by eapply not_self.
Qed.

(** C16: C: Whatever the URL, the resolver's answers and the transport do, one request
    dials at most one address; that address is outside every reserved network and is
    no address of this host, however either is written (an IPv4-mapped alias
    included); and the caller never gets the answer of a redirect. *)
Theorem outbound_dials_public_hosts (request : URL -> Connect -> result OutboundError Response) (rawUrl : string) :
  let '(dials, r) := safeOutboundFetch selfIps interfaces parseUrl resolveUrl printUrl lookup aborted request rawUrl in
  (length dials <= 1)%nat /\
  (forall c, c ∈ dials -> reserved (normalizeHostname (cn_address c)) = false /\
     forall a v, a ∈ host_addresses -> address_value a = Some v -> address_value (cn_address c) <> Some v) /\
  (forall response, r = Ok response -> exists url c, dials = [c] /\ request url c = Ok response /\ ~ 300 <= rs_status response < 400).
Proof.
  unfold safeOutboundFetch. destruct (checkOutboundUrl _ _ _ _ _ _ _ _ rawUrl) as [ck|e] eqn:E.
  2: { split; [cbn; lia|]. split; [by intros c Hc%elem_of_nil|done]. }
  destruct (aborted cp_dial); [split; [cbn; lia|]; split; [by intros c Hc%elem_of_nil|done]|].
  apply checked_address in E as [E1 E2]. rewrite guard_spec in E1. split; [cbn; lia|]. split.
  - intros c ->%list_elem_of_singleton. by split.
  - intros response H. eexists _, _. split; [done|].
    destruct (request _ _) as [resp|e] eqn:Er; [|by destruct (aborted cp_answered)]. destruct (aborted cp_answered); [done|].
    destruct ((300 <=? rs_status resp) && (rs_status resp <? 400)) eqn:Es.
    + repeat case_match; try done; by inv_ok.
    + simplify_eq. split; [exact Er|]. intros [L1 L2]. apply andb_false_iff in Es as [Es|Es]; bool_props; lia.
Qed.
End Dialled.

(** ** The response body *)

Section Body.
Context (junk : nat -> Byte.byte) (method : string).

(** The chunks the transport delivered after it reported the response. *)
Fixpoint delivered (started : bool) (evs : list TransferEvent) : list Byte.byte :=
  match evs with
  | [] => []
  | ev_response _ :: r => delivered true r
  | ev_data chunk :: r => if started then chunk ++ delivered started r else delivered started r
  | _ :: r => delivered started r
  end.
Definition started (evs : list TransferEvent) : bool := existsb (fun e => match e with ev_response _ => true | _ => false end) evs.

Lemma delivered_snoc b evs e :
  delivered b (evs ++ [e]) = delivered b evs ++ match e with ev_data chunk => if b || started evs then chunk else [] | _ => [] end.
Proof.
  revert b. induction evs as [|x evs IH]; intros b.
  - destruct e; cbn; rewrite ?app_nil_r, ?orb_false_r; done.
  - cbn [app]. destruct x; cbn [delivered started existsb orb]; rewrite ?IH, ?orb_true_r; try done.
    destruct b; rewrite ?app_assoc; done.
Qed.

(** What holds between events. *)
Record BodyInv (evs : list TransferEvent) (t : Transfer) : Prop := {
  bi_bound : Z.of_nat (length (tr_buffer t)) <= MAX_OUTBOUND_RESPONSE_BYTES;
  bi_open : tr_outcome t = None ->
    tr_listening t = is_some (tr_response t) /\ is_some (tr_response t) = started evs /\
    0 <= tr_received t <= Z.of_nat (length (tr_buffer t)) /\ firstn (Z.to_nat (tr_received t)) (tr_buffer t) = delivered false evs /\
    (tr_bodyless t = true -> delivered false evs = []);
  bi_closed : tr_outcome t <> None -> tr_listening t = false /\ tr_buffer t = [];
  bi_ok : forall r, tr_outcome t = Some (Ok r) -> exists before rest, evs = before ++ ev_end :: rest /\ rs_body r = delivered false before /\
    Z.of_nat (length (rs_body r)) <= MAX_OUTBOUND_RESPONSE_BYTES
}.

Lemma copy_into_fits src dst off : (off + length src <= length dst)%nat ->
  length (copy_into src dst off) = length dst /\ firstn (off + length src) (copy_into src dst off) = firstn off dst ++ src.
Proof.
  intros L. unfold copy_into. rewrite (firstn_all2 (n := length dst - off) src) by lia. split.
  - rewrite !length_app, length_take, length_drop. lia.
  - rewrite app_assoc. rewrite take_app_length'; [done|]. rewrite length_app, length_take. lia.
Qed.
Lemma alloc_length n : 0 <= n -> length (allocUnsafe junk n) = Z.to_nat n.
Proof. intros _. unfold allocUnsafe. by rewrite length_map, length_seq. Qed.

Lemma started_snoc evs e : started (evs ++ [e]) = started evs || match e with ev_response _ => true | _ => false end.
Proof. unfold started. rewrite existsb_app. cbn. by rewrite orb_false_r. Qed.

(** A settled transfer stays as it is, whatever the transport still reports. *)
Lemma settled_inv evs t e : BodyInv evs t -> tr_outcome t <> None -> BodyInv (evs ++ [e]) t.
Proof.
  intros I Hs. destruct (bi_closed _ _ I Hs) as [C1 C2]. split; [exact (bi_bound _ _ I)|done|done|].
  intros r Hr. destruct (bi_ok _ _ I r Hr) as (b & rest & -> & E). exists b, (rest ++ [e]). split; [|done]. by rewrite <- app_assoc.
Qed.
Lemma failed_inv evs t err : BodyInv evs (fail_transfer err t) \/ tr_outcome t <> None.
Proof.
  unfold fail_transfer, settled. destruct (tr_outcome t) eqn:E; [by right|left].
  split; cbn; [unfold MAX_OUTBOUND_RESPONSE_BYTES; lia|done|done|done].
Qed.

Lemma receive_settled t e : tr_outcome t <> None -> tr_listening t = false -> tr_buffer t = [] ->
  tr_outcome (receive junk method t e) = tr_outcome t /\ tr_listening (receive junk method t e) = false /\ tr_buffer (receive junk method t e) = [].
Proof.
  intros Hs Hl Hb. destruct (tr_outcome t) as [o|] eqn:Eo; [|done].
  destruct e; cbn; rewrite ?Hl; unfold fail_transfer, onResponse, settled; rewrite ?Eo; cbn [is_some]; try done.
  all: by destruct (tr_response t).
Qed.

Lemma data_inv evs t chunk : BodyInv evs t -> tr_outcome t = None -> tr_listening t = true -> BodyInv (evs ++ [ev_data chunk]) (onData junk chunk t).
Proof.
  intros I Ho Hl. destruct (bi_open _ _ I Ho) as (O1 & O2 & O3 & O4 & O5). rewrite Hl in O1. unfold onData, settled. rewrite Ho. cbn [is_some].
  assert (F : forall err, BodyInv (evs ++ [ev_data chunk]) (fail_transfer err t)) by (intros err; by destruct (failed_inv (evs ++ [ev_data chunk]) t err)).
  assert (D : delivered false (evs ++ [ev_data chunk]) = delivered false evs ++ chunk) by (rewrite delivered_snoc; cbn [orb]; by rewrite <- O2, <- O1).
  destruct (tr_bodyless t && (0 <? Z.of_nat (length chunk))) eqn:Eb; [apply F|].
  destruct (Z.ltb_spec (MAX_OUTBOUND_RESPONSE_BYTES - tr_received t) (Z.of_nat (length chunk))) as [|Lm]; [apply F|].
  destruct (Z.eqb_spec (Z.of_nat (length chunk)) 0) as [L0|L0].
  { destruct chunk; [|cbn in L0; lia]. rewrite app_nil_r in D. split; [exact (bi_bound _ _ I)| |by rewrite Ho|by rewrite Ho].
    intros _. rewrite D, started_snoc, orb_false_r. rewrite Hl, <- O1. by rewrite <- O1 in O2. }
  set (next := tr_received t + Z.of_nat (length chunk)).
  set (buffer := if Z.of_nat (length (tr_buffer t)) <? next then _ else tr_buffer t).
  assert (B : next <= Z.of_nat (length buffer) <= MAX_OUTBOUND_RESPONSE_BYTES /\ firstn (Z.to_nat (tr_received t)) buffer = delivered false evs).
  { unfold buffer. pose proof (bi_bound _ _ I) as Bd. destruct (Z.ltb_spec (Z.of_nat (length (tr_buffer t))) next) as [L|L]; [|by repeat split; try lia].
    assert (Cap : next <= body_capacity (tr_buffer t) next <= MAX_OUTBOUND_RESPONSE_BYTES) by (unfold body_capacity; lia).
    assert (Lr : length (firstn (Z.to_nat (tr_received t)) (tr_buffer t)) = Z.to_nat (tr_received t)) by (rewrite length_take; lia).
    destruct (copy_into_fits (firstn (Z.to_nat (tr_received t)) (tr_buffer t)) (allocUnsafe junk (body_capacity (tr_buffer t) next)) 0) as [C1 C2].
    { rewrite alloc_length, Lr by lia. lia. }
    rewrite C1, alloc_length by lia. split; [lia|]. rewrite Lr in C2. cbn [Nat.add firstn app] in C2. by rewrite C2, O4. }
  destruct B as [[B1 B2] B3].
  destruct (copy_into_fits chunk buffer (Z.to_nat (tr_received t))) as [C1 C2]; [lia|].
  split; cbn [tr_buffer tr_received tr_outcome tr_bodyless tr_response tr_listening].
  - by rewrite C1.
  - intros _. rewrite started_snoc, orb_false_r, Hl, C1, D. rewrite O2 in O1. rewrite O2. split; [done|]. split; [done|]. split; [lia|]. split.
    + replace (Z.to_nat next) with (Z.to_nat (tr_received t) + length chunk)%nat by lia. by rewrite C2, B3.
    + intros Hb. rewrite Hb in Eb. cbn [andb] in Eb. bool_props. lia.
  - done.
  - done.
Qed.

Lemma receive_inv evs t e : BodyInv evs t -> BodyInv (evs ++ [e]) (receive junk method t e).
Proof.
  intros I. destruct (tr_outcome t) as [o|] eqn:Ho.
  - assert (Hs : tr_outcome t <> None) by (by rewrite Ho). destruct (bi_closed _ _ I Hs) as [C1 C2].
    destruct (receive_settled t e Hs C1 C2) as (R1 & R2 & R3). apply settled_inv with (e := e) in I; [|done].
    split; [rewrite R3; cbn; unfold MAX_OUTBOUND_RESPONSE_BYTES; lia|by rewrite R1, Ho|done|]. rewrite R1. apply (bi_ok _ _ I).
  - destruct (bi_open _ _ I Ho) as (O1 & O2 & O3 & O4 & O5).
    assert (F : forall err, BodyInv (evs ++ [e]) (fail_transfer err t)) by (intros err; by destruct (failed_inv (evs ++ [e]) t err)).
    assert (Skip : delivered false (evs ++ [e]) = delivered false evs -> started (evs ++ [e]) = started evs -> BodyInv (evs ++ [e]) t).
    { intros D S. split; [exact (bi_bound _ _ I)| |by rewrite Ho|by rewrite Ho]. intros _. by rewrite D, S. }
    destruct e as [head|chunk| | |err|err| ]; cbn [receive].
    + unfold onResponse, settled. rewrite Ho. cbn [is_some]. destruct (tr_response t) as [h|] eqn:Er.
      { apply Skip; [by rewrite delivered_snoc, app_nil_r|]. rewrite started_snoc, <- O2. by rewrite orb_true_r. }
      assert (R0 : tr_received t = Z.of_nat (length (delivered false evs))) by (rewrite <- O4, length_take; lia).
      assert (D0 : delivered false evs = []).
      { clear -O2. cbn in O2. induction evs as [|x evs IH]; [done|]. destruct x; cbn in *; auto; discriminate. }
      case_match; [unfold fail_transfer, settled; cbn [tr_outcome is_some]; split; cbn; try done; unfold MAX_OUTBOUND_RESPONSE_BYTES; lia|].
      split; cbn [tr_buffer tr_received tr_outcome tr_bodyless tr_response tr_listening]; [exact (bi_bound _ _ I)| |done|done].
      intros _. rewrite started_snoc, delivered_snoc, app_nil_r, orb_true_r. cbn [is_some]. auto.
    + destruct (tr_listening t) eqn:El; [by apply data_inv|]. apply Skip; [|by rewrite started_snoc, orb_false_r].
      rewrite delivered_snoc. cbn [orb]. rewrite <- O2, <- O1. by rewrite app_nil_r.
    + destruct (tr_listening t) eqn:El; [|apply Skip; [by rewrite delivered_snoc, app_nil_r|by rewrite started_snoc, orb_false_r]].
      unfold onEnd, settled. rewrite Ho. cbn [is_some]. destruct (tr_response t) as [head|]; [|done].
      case_match; [|apply F]. split; cbn [tr_buffer tr_received tr_outcome tr_bodyless tr_response tr_listening]; try done.
      intros r Hr. simplify_eq. pose proof (bi_bound _ _ I). exists evs, []. split; [done|]. cbn [rs_body]. destruct (tr_bodyless t); [rewrite O5 by done; split; [done|cbn; unfold MAX_OUTBOUND_RESPONSE_BYTES; lia]|].
      split; [done|]. rewrite length_take. lia.
    + destruct (tr_listening t) eqn:El; [apply F|apply Skip; [by rewrite delivered_snoc, app_nil_r|by rewrite started_snoc, orb_false_r]].
    + destruct (is_some (tr_response t)); [apply F|apply Skip; [by rewrite delivered_snoc, app_nil_r|by rewrite started_snoc, orb_false_r]].
    + apply F.
    + destruct (is_some (tr_response t)); [apply F|apply Skip; [by rewrite delivered_snoc, app_nil_r|by rewrite started_snoc, orb_false_r]].
Qed.

Lemma receive_all_inv evs : BodyInv evs (receive_all junk method evs).
Proof.
  unfold receive_all. induction evs as [|e evs IH] using rev_ind.
  - split; cbn; done.
  - rewrite fold_left_app. by apply receive_inv.
Qed.

(** However the transport delivers it, a response is bounded and whole: at every
    moment the retained buffer is at most 8 MiB; the request settles at most once and
    further events change nothing; and a delivered body is, byte for byte, the chunks
    that arrived after the head and before the end event, hence at most 8 MiB. *)
Theorem response_body_bounded (evs more : list TransferEvent) :
  Z.of_nat (length (tr_buffer (receive_all junk method evs))) <= MAX_OUTBOUND_RESPONSE_BYTES /\
  (forall o, nodeRequestWithPinnedLookup junk method evs = Some o -> nodeRequestWithPinnedLookup junk method (evs ++ more) = Some o) /\
  (forall r, nodeRequestWithPinnedLookup junk method evs = Some (Ok r) ->
     Z.of_nat (length (rs_body r)) <= MAX_OUTBOUND_RESPONSE_BYTES /\
     exists before rest, evs = before ++ ev_end :: rest /\ rs_body r = delivered false before).
Proof.
  unfold nodeRequestWithPinnedLookup. split; [apply (bi_bound _ _ (receive_all_inv evs))|]. split.
  - intros o Ho. induction more as [|e more IH] using rev_ind; [by rewrite app_nil_r|].
    rewrite app_assoc. unfold receive_all in *. rewrite fold_left_app. cbn [fold_left]. set (t := fold_left _ (evs ++ more) _) in *.
    assert (Hs : tr_outcome t <> None) by (by rewrite IH). destruct (bi_closed _ _ (receive_all_inv (evs ++ more)) Hs) as [C1 C2].
    by destruct (receive_settled t e Hs C1 C2) as (-> & _).
  - intros r Hr. destruct (bi_ok _ _ (receive_all_inv evs) r Hr) as (before & rest & E & Eb & Lb). split; [done|]. by exists before, rest.
Qed.
End Body.

Example guard_samples :
  map isPrivateOrSpecialAddress ["93.184.216.34"; "10.0.0.1"; "::ffff:10.0.0.1"; "[::1]"; "2606:4700::1111"; "64:ff9b::a00:1"; "fe80::1%eth0"; "example.com"]
  = [false; true; true; true; false; true; true; true].
Proof. vm_compute. reflexivity. Qed.
Example transfer_sample (head := {| rh_status := 200; rh_location := None; rh_contentLength := None; rh_wellFormed := true |}) :
  nodeRequestWithPinnedLookup (fun _ => Byte.x00) "GET" [ev_response head; ev_data [Byte.x61]; ev_data [Byte.x62; Byte.x63]; ev_end; ev_close]
  = Some (Ok {| rs_status := 200; rs_location := None; rs_body := [Byte.x61; Byte.x62; Byte.x63] |}).
Proof. vm_compute. reflexivity. Qed.
