(* ===== verification/RateLimit.v ===== *)
(** Sliding-window rate limiting ([auth/rate-limit-backend.ts]): the storage
    interface, the in-memory and the Postgres backend, the in-process memo of
    refusals, the reaper, and API processes that share one table as a system of
    interleaved steps. Times are milliseconds. *)

From S2P Require Import Prelude.
From Stdlib Require Import ZArith Lia Bool Ascii String.
From stdpp Require Import base list strings gmap.
Local Open Scope string_scope.
Local Open Scope list_scope.
Local Open Scope Z_scope.

(** ** The interface ([RateLimitBackend]) *)

(** [E] is what a call sees of the outside world: clocks, lock outcomes. *)
Class RateLimitBackend (S E : Type) := {
  check : E -> string -> string -> Z -> Z -> S -> Z * S;
  consume : E -> string -> string -> Z -> Z -> S -> Z * S;
  recordFailure : E -> string -> string -> Z -> S -> S;
  clear : E -> string -> string -> S -> S
}.

Definition ceil_div (a b : Z) : Z := - (- a / b).
(** [`${bucket}\u0000${key}`] *)
Definition joined (bucket key : string) : string := bucket +:+ String zero key.

(** ** The in-memory backend *)

Record Entry := { en_attempts : list Z; en_windowMs : Z }.
Abbreviation MemStore := (gmap string Entry).

Definition prune (attempts : list Z) (now windowMs : Z) : list Z := List.filter (fun t => now - t <? windowMs) attempts.
(** With no attempt on file the difference is NaN, which no caller treats as a refusal. *)
Definition retryFor (attempts : list Z) (now windowMs maxAttempts : Z) : Z :=
  if Z.of_nat (length attempts) <? maxAttempts then 0
  else match attempts with
       | oldest :: _ => Z.max 1 (ceil_div (windowMs - (now - oldest)) 1000)
       | [] => 0
       end.
Definition cleaned (now : Z) (e : Entry) : option Entry :=
  let attempts := prune (en_attempts e) now (en_windowMs e) in
  if is_nil attempts then None else Some {| en_attempts := attempts; en_windowMs := en_windowMs e |}.
Definition cleanup (now : Z) (store : MemStore) : MemStore :=
  if (size store <=? 5000)%nat then store else omap (cleaned now) store.

Definition mem_check (now : Z) (bucket key : string) (windowMs maxAttempts : Z) (store : MemStore) : Z * MemStore :=
  match store !! joined bucket key with
  | None => (0, store)
  | Some e =>
      let attempts := prune (en_attempts e) now windowMs in
      (retryFor attempts now windowMs maxAttempts, <[joined bucket key := {| en_attempts := attempts; en_windowMs := en_windowMs e |}]> store)
  end.
(** The entry of a key, with the window widened and the expired attempts dropped: [e]
    is the object in the map when there is one, so the change stays either way. *)
Definition opened (now : Z) (mk : string) (windowMs : Z) (store : MemStore) : Entry :=
  let e := match store !! mk with Some e => e | None => {| en_attempts := []; en_windowMs := windowMs |} end in
  {| en_attempts := prune (en_attempts e) now windowMs; en_windowMs := Z.max (en_windowMs e) windowMs |}.
Definition pushed (now : Z) (mk : string) (e : Entry) (store : MemStore) : MemStore :=
  cleanup now (<[mk := {| en_attempts := en_attempts e ++ [now]; en_windowMs := en_windowMs e |}]> store).
Definition mem_consume (now : Z) (bucket key : string) (windowMs maxAttempts : Z) (store : MemStore) : Z * MemStore :=
  let mk := joined bucket key in
  let e := opened now mk windowMs store in
  let retry := retryFor (en_attempts e) now windowMs maxAttempts in
  if 0 <? retry then (retry, if is_some (store !! mk) then <[mk := e]> store else store) else (0, pushed now mk e store).
Definition mem_recordFailure (now : Z) (bucket key : string) (windowMs : Z) (store : MemStore) : MemStore :=
  pushed now (joined bucket key) (opened now (joined bucket key) windowMs store) store.
Definition mem_clear (_now : Z) (bucket key : string) (store : MemStore) : MemStore := delete (joined bucket key) store.

#[export] Instance createMemoryRateLimitBackend : RateLimitBackend MemStore Z :=
  {| check := mem_check; consume := mem_consume; recordFailure := mem_recordFailure; clear := mem_clear |}.

(** ** The Postgres backend *)

Record AttemptRow := { at_bucket : string; at_key : string; at_attemptedAt : Z }.
Definition AttemptTable : Type := list AttemptRow.

Definition of_key (bucket key : string) (r : AttemptRow) : bool := String.eqb (at_bucket r) bucket && String.eqb (at_key r) key.
Definition expired (windowMs now : Z) (r : AttemptRow) : bool := at_attemptedAt r <? now - windowMs.
Definition current (bucket key : string) (windowMs now : Z) (db : AttemptTable) : list AttemptRow :=
  List.filter (fun r => of_key bucket key r && negb (expired windowMs now r)) db.
(** [min(attempted_at)] *)
Definition oldest_of (rows : list AttemptRow) : option Z :=
  match map at_attemptedAt rows with [] => None | t :: ts => Some (fold_left Z.min ts t) end.
Definition pruned (bucket key : string) (windowMs now : Z) (db : AttemptTable) : AttemptTable :=
  List.filter (fun r => negb (of_key bucket key r && expired windowMs now r)) db.
Definition attempt_row (bucket key : string) (now : Z) : AttemptRow := {| at_bucket := bucket; at_key := key; at_attemptedAt := now |}.

(** One statement under the key's lock; the counts are those of its snapshot. *)
Definition CONSUME_SQL (now : Z) (bucket key : string) (windowMs maxAttempts : Z) (db : AttemptTable) : (Z * option Z * bool) * AttemptTable :=
  let cur := current bucket key windowMs now db in
  let n := Z.of_nat (length cur) in
  let admitted := n <? maxAttempts in
  ((n, oldest_of cur, admitted), pruned bucket key windowMs now db ++ (if admitted then [attempt_row bucket key now] else [])).

Definition retryFrom (oldest : option Z) (windowMs wall : Z) : Z :=
  match oldest with None => 1 | Some o => Z.max 1 (ceil_div (windowMs - (wall - o)) 1000) end.

(** What one transaction sees: whether the key's lock was free, [now()] of the
    transaction, and the process clock when the answer is computed. *)
Record TxView := { tx_got : bool; tx_now : Z; tx_wall : Z }.
Inductive OnceResult := busy | answered (retry : Z).
Definition consumeOnce (v : TxView) (bucket key : string) (windowMs maxAttempts : Z) (db : AttemptTable) : OnceResult * AttemptTable :=
  if negb (tx_got v) then (busy, db)
  else
    let '((_, oldest, admitted), db') := CONSUME_SQL (tx_now v) bucket key windowMs maxAttempts db in
    (answered (if admitted then 0 else retryFrom oldest windowMs (tx_wall v)), db').

Definition CONSUME_LOCK_TRIES : nat := 6.
(** [view i] is what the [i]-th transaction of the call sees. *)
Fixpoint consume_tries (tries i : nat) (view : nat -> TxView) (bucket key : string) (windowMs maxAttempts : Z) (db : AttemptTable) : Z * AttemptTable :=
  match tries with
  | O => (1, db)
  | S n =>
      match consumeOnce (view i) bucket key windowMs maxAttempts db with
      | (busy, _) => consume_tries n (S i) view bucket key windowMs maxAttempts db
      | (answered r, db') => (r, db')
      end
  end.
Definition pg_check (view : nat -> TxView) (bucket key : string) (windowMs maxAttempts : Z) (db : AttemptTable) : Z * AttemptTable :=
  let cur := current bucket key windowMs (tx_now (view 0%nat)) db in
  (if Z.of_nat (length cur) <? maxAttempts then 0 else retryFrom (oldest_of cur) windowMs (tx_wall (view 0%nat)), db).
Definition pg_recordFailure (view : nat -> TxView) (bucket key : string) (windowMs : Z) (db : AttemptTable) : AttemptTable :=
  pruned bucket key windowMs (tx_now (view 0%nat)) db ++ [attempt_row bucket key (tx_now (view 0%nat))].
Definition pg_clear (_view : nat -> TxView) (bucket key : string) (db : AttemptTable) : AttemptTable :=
  List.filter (fun r => negb (of_key bucket key r)) db.

#[export] Instance createPostgresRateLimitBackend : RateLimitBackend AttemptTable (nat -> TxView) :=
  {| check := pg_check; consume := consume_tries CONSUME_LOCK_TRIES 0; recordFailure := pg_recordFailure; clear := pg_clear |}.

(** ** The in-process memo of refusals *)

Definition MAX_ENTRIES : Z := 10000.
Definition MAX_DENY_MS : Z := 10000.
(** The [denied] map in insertion order. *)
Definition Memo : Type := list (string * Z).

Definition memo_get (mk : string) (m : Memo) : option Z := snd <$> List.find (fun kv => String.eqb (fst kv) mk) m.
Definition memo_delete (mk : string) (m : Memo) : Memo := List.filter (fun kv => negb (String.eqb (fst kv) mk)) m.
Definition cached (now : Z) (mk : string) (m : Memo) : Z * Memo :=
  match memo_get mk m with
  | None => (0, m)
  | Some until =>
      let left := until - now in
      if left <=? 0 then (0, memo_delete mk m) else (Z.max 1 (ceil_div left 1000), m)
  end.
Definition remember (now : Z) (mk : string) (retrySeconds : Z) (m : Memo) : Memo :=
  if retrySeconds <=? 0 then m
  else
    let m' := memo_delete mk m ++ [(mk, now + Z.min (retrySeconds * 1000) MAX_DENY_MS)] in
    skipn (length m' - Z.to_nat MAX_ENTRIES) m'.

(** The clock at the lookup and after the inner call, and what the inner call sees. *)
Record FastView (E : Type) := { fv_now : Z; fv_after : Z; fv_inner : E }.
Arguments fv_now {E}.
Arguments fv_after {E}.
Arguments fv_inner {E}.

Section FastDeny.
Context {S E : Type} `{RateLimitBackend S E}.
Definition through (call : E -> S -> Z * S) (v : FastView E) (bucket key : string) (s : S * Memo) : Z * (S * Memo) :=
  let mk := joined bucket key in
  let '(hit, memo) := cached (fv_now v) mk (snd s) in
  if 0 <? hit then (hit, (fst s, memo))
  else let '(r, inner) := call (fv_inner v) (fst s) in (r, (inner, remember (fv_after v) mk r memo)).
#[export] Instance createFastDenyRateLimitBackend : RateLimitBackend (S * Memo) (FastView E) :=
  {| check := fun v bucket key windowMs maxAttempts s => through (fun e => check e bucket key windowMs maxAttempts) v bucket key s;
     consume := fun v bucket key windowMs maxAttempts s => through (fun e => consume e bucket key windowMs maxAttempts) v bucket key s;
     recordFailure := fun v bucket key windowMs s => (recordFailure (fv_inner v) bucket key windowMs (fst s), snd s);
     clear := fun v bucket key s => (clear (fv_inner v) bucket key (fst s), memo_delete (joined bucket key) (snd s)) |}.
End FastDeny.

(** ** The reaper *)

Definition HOUR_MS : Z := 60 * 60 * 1000.
Definition LONG_RETENTION_BUCKETS : list (string * Z) := [("admin-auth-known", 30 * 24)].
Definition long_bucket (bucket : string) : bool := existsb (fun p => String.eqb (fst p) bucket) LONG_RETENTION_BUCKETS.
Definition passes (retentionHours : Z) : list (AttemptRow -> Z -> bool) :=
  (fun r now => (at_attemptedAt r <? now - retentionHours * HOUR_MS) && negb (long_bucket (at_bucket r))) ::
  map (fun p r now => (at_attemptedAt r <? now - Z.max retentionHours (snd p) * HOUR_MS) && String.eqb (at_bucket r) (fst p)) LONG_RETENTION_BUCKETS.

(** [DELETE … WHERE id IN (SELECT id … LIMIT n)]: at most [n] of the rows that match. *)
Fixpoint delete_some (n : nat) (p : AttemptRow -> bool) (db : AttemptTable) : nat * AttemptTable :=
  match db with
  | [] => (O, [])
  | r :: rest =>
      match n with
      | O => (O, db)
      | S m => if p r then let '(k, rest') := delete_some m p rest in (S k, rest')
               else let '(k, rest') := delete_some n p rest in (k, r :: rest')
      end
  end.

Section Reap.
Context (batchSize : nat).
(** One pass: statements until one deletes less than a batch, or the budget of
    statements is spent; [clock i] is [now()] of the [i]-th statement. *)
Fixpoint reap_pass (budget i : nat) (clock : nat -> Z) (p : AttemptRow -> Z -> bool) (db : AttemptTable) : (nat * nat * bool) * AttemptTable :=
  match budget with
  | O => ((O, i, false), db)
  | S budget' =>
      let '(n, db') := delete_some batchSize (fun r => p r (clock i)) db in
      if (n <? batchSize)%nat then ((n, S i, true), db')
      else let '((deleted, i', complete), db'') := reap_pass budget' (S i) clock p db' in (((n + deleted)%nat, i', complete), db'')
  end.
Fixpoint reap_passes (maxBatches i : nat) (clock : nat -> Z) (ps : list (AttemptRow -> Z -> bool)) (db : AttemptTable) : (nat * bool) * AttemptTable :=
  match ps with
  | [] => ((O, true), db)
  | p :: rest =>
      let '((deleted, i', complete), db') := reap_pass (maxBatches - i) i clock p db in
      if negb complete then ((deleted, false), db')
      else let '((more, complete'), db'') := reap_passes maxBatches i' clock rest db' in (((deleted + more)%nat, complete'), db'')
  end.
End Reap.
Definition reapRateLimitAttempts (retentionHours : Z) (batchSize maxBatches : Z) (clock : nat -> Z) (db : AttemptTable) : (nat * bool) * AttemptTable :=
  reap_passes (Z.to_nat (Z.max 1 (Z.min batchSize 50000))) (Z.to_nat (Z.max 1 maxBatches)) 0 clock (passes retentionHours) db.

(** ** API processes sharing the table

    A request looks in the memo of its process, then runs transactions until one gets
    the key's lock; other requests, the reaper and other processes run in between. *)

Record Request := {
  rq_id : nat; rq_pid : nat; rq_bucket : string; rq_key : string; rq_windowMs : Z; rq_max : Z; rq_tries : nat
}.
Record System := {
  sy_db : AttemptTable; sy_memos : gmap nat Memo; sy_flight : list Request; sy_next : nat;
  sy_answers : list (nat * Z); sy_log : list AttemptRow
}.
Inductive Action :=
  | a_begin (pid : nat) (bucket key : string) (windowMs maxAttempts now : Z)
  | a_try (id : nat) (v : TxView) (after : Z)
  | a_check (pid : nat) (bucket key : string) (windowMs maxAttempts now : Z) (v : TxView) (after : Z)
  | a_failure (bucket key : string) (windowMs now : Z)
  | a_clear (pid : nat) (bucket key : string)
  | a_reap (retentionHours : Z) (batchSize : nat) (pass : nat) (now : Z).

Definition memo_of (s : System) (pid : nat) : Memo := or_else (sy_memos s !! pid) [].
Definition with_memo (s : System) (pid : nat) (m : Memo) : System :=
  {| sy_db := sy_db s; sy_memos := <[pid := m]> (sy_memos s); sy_flight := sy_flight s; sy_next := sy_next s; sy_answers := sy_answers s; sy_log := sy_log s |}.
Definition with_db (s : System) (db : AttemptTable) : System :=
  {| sy_db := db; sy_memos := sy_memos s; sy_flight := sy_flight s; sy_next := sy_next s; sy_answers := sy_answers s; sy_log := sy_log s |}.
Definition is_request (id : nat) (q : Request) : bool := (rq_id q =? id)%nat.
(** The request is answered; an admission is logged with the time of its row. *)
Definition answer (s : System) (id : nat) (r : Z) (logged : list AttemptRow) : System :=
  {| sy_db := sy_db s; sy_memos := sy_memos s; sy_flight := List.filter (fun q => negb (is_request id q)) (sy_flight s); sy_next := sy_next s;
     sy_answers := sy_answers s ++ [(id, r)]; sy_log := sy_log s ++ logged |}.
Definition refused_locally (s : System) (hit : Z) : System :=
  {| sy_db := sy_db s; sy_memos := sy_memos s; sy_flight := sy_flight s; sy_next := S (sy_next s);
     sy_answers := sy_answers s ++ [(sy_next s, hit)]; sy_log := sy_log s |}.
Definition launched (s : System) (pid : nat) (bucket key : string) (windowMs maxAttempts : Z) : System :=
  {| sy_db := sy_db s; sy_memos := sy_memos s;
     sy_flight := sy_flight s ++ [{| rq_id := sy_next s; rq_pid := pid; rq_bucket := bucket; rq_key := key; rq_windowMs := windowMs; rq_max := maxAttempts;
                                     rq_tries := CONSUME_LOCK_TRIES |}];
     sy_next := S (sy_next s); sy_answers := sy_answers s; sy_log := sy_log s |}.
Definition spend_try (q : Request) : Request :=
  {| rq_id := rq_id q; rq_pid := rq_pid q; rq_bucket := rq_bucket q; rq_key := rq_key q; rq_windowMs := rq_windowMs q; rq_max := rq_max q;
     rq_tries := pred (rq_tries q) |}.
Definition retrying (s : System) (id : nat) : System :=
  {| sy_db := sy_db s; sy_memos := sy_memos s; sy_flight := set_where (is_request id) spend_try (sy_flight s); sy_next := sy_next s;
     sy_answers := sy_answers s; sy_log := sy_log s |}.
(** The memo records the refusal, if it is one, and the caller is answered. *)
Definition settle_request (s : System) (q : Request) (r after : Z) (logged : list AttemptRow) : System :=
  answer (with_memo s (rq_pid q) (remember after (joined (rq_bucket q) (rq_key q)) r (memo_of s (rq_pid q)))) (rq_id q) r logged.

Definition sys_step (s : System) (a : Action) : System :=
  match a with
  | a_begin pid bucket key windowMs maxAttempts now =>
      let '(hit, memo) := cached now (joined bucket key) (memo_of s pid) in
      let s := with_memo s pid memo in
      if 0 <? hit then refused_locally s hit else launched s pid bucket key windowMs maxAttempts
  | a_try id v after =>
      match List.find (is_request id) (sy_flight s) with
      | None => s
      | Some q =>
          match consumeOnce v (rq_bucket q) (rq_key q) (rq_windowMs q) (rq_max q) (sy_db s) with
          | (busy, _) => if (rq_tries q <=? 1)%nat then settle_request s q 1 after [] else retrying s id
          | (answered r, db) =>
              settle_request (with_db s db) q r after (if r =? 0 then [attempt_row (rq_bucket q) (rq_key q) (tx_now v)] else [])
          end
      end
  | a_check pid bucket key windowMs maxAttempts now v after =>
      let '(hit, memo) := cached now (joined bucket key) (memo_of s pid) in
      if 0 <? hit then with_memo s pid memo
      else let '(r, _) := pg_check (fun _ => v) bucket key windowMs maxAttempts (sy_db s) in
           with_memo s pid (remember after (joined bucket key) r memo)
  | a_failure bucket key windowMs now =>
      with_db s (pruned bucket key windowMs now (sy_db s) ++ [attempt_row bucket key now])
  | a_clear pid bucket key =>
      with_db (with_memo s pid (memo_delete (joined bucket key) (memo_of s pid))) (List.filter (fun r => negb (of_key bucket key r)) (sy_db s))
  | a_reap retentionHours batchSize pass now =>
      match nth_error (passes retentionHours) pass with
      | Some p => with_db s (snd (delete_some batchSize (fun r => p r now) (sy_db s)))
      | None => s
      end
  end.
Definition sys_run (s : System) (actions : list Action) : System := fold_left sys_step actions s.
