(* ===== verification/RateFacts.v ===== *)
(** Rate limiting across processes: no window of a key admits more than its cap,
    however requests, failures, the reaper and the processes interleave; the local
    memo only refuses; every request is answered, once, within its tries; and the
    reaper removes expired rows only, in bounded batches. *)

From S2P Require Import Prelude RateLimit.
From Stdlib Require Import ZArith Lia Bool Ascii String.
From stdpp Require Import base list strings gmap.
Local Open Scope string_scope.
Local Open Scope list_scope.
Local Open Scope Z_scope.

(** ** Counting the rows of a key *)

Definition counted (bucket key : string) (from : Z) (r : AttemptRow) : bool := of_key bucket key r && (from <=? at_attemptedAt r).
Definition since (bucket key : string) (from : Z) (rows : list AttemptRow) : nat := length (List.filter (counted bucket key from) rows).
(** The admissions of a key between two instants, both included. *)
Definition admitted_in (bucket key : string) (from to : Z) (rows : list AttemptRow) : nat :=
  length (List.filter (fun r => counted bucket key from r && (at_attemptedAt r <=? to)) rows).

Lemma since_app b k a l l' : since b k a (l ++ l') = (since b k a l + since b k a l')%nat.
Proof. unfold since. by rewrite List.filter_app, length_app. Qed.
Lemma admitted_app b k a z l l' : admitted_in b k a z (l ++ l') = (admitted_in b k a z l + admitted_in b k a z l')%nat.
Proof. unfold admitted_in. by rewrite List.filter_app, length_app. Qed.
Lemma admitted_since b k a z l : (admitted_in b k a z l <= since b k a l)%nat.
Proof.
  unfold admitted_in, since. induction l as [|r l IH]; cbn; [lia|]. destruct (counted b k a r); cbn; [|done]. destruct (_ <=? z); cbn; lia.
Qed.
Lemma filter_filter_keep {A} (p q : A -> bool) l : (forall r, r ∈ l -> p r = true -> q r = true) -> List.filter p (List.filter q l) = List.filter p l.
Proof.
  induction l as [|r l IH]; intros H; cbn; [done|]. destruct (q r) eqn:Eq; cbn.
  - rewrite IH; [done|]. intros x Hx. apply H. by right.
  - destruct (p r) eqn:Ep; [rewrite H in Eq; [done|by left|done]|]. apply IH. intros x Hx. apply H. by right.
Qed.
Lemma since_filter b k a q l : (forall r, counted b k a r = true -> q r = true) -> since b k a (List.filter q l) = since b k a l.
Proof. intros H. unfold since. f_equal. apply filter_filter_keep. auto. Qed.

Lemma of_key_iff b k r : of_key b k r = true <-> at_bucket r = b /\ at_key r = k.
Proof. unfold of_key. by rewrite andb_true_iff, !String.eqb_eq. Qed.
Lemma counted_iff b k a r : counted b k a r = true <-> (at_bucket r = b /\ at_key r = k) /\ a <= at_attemptedAt r.
Proof. unfold counted. by rewrite andb_true_iff, of_key_iff, Z.leb_le. Qed.

Lemma since_pruned B K a b k w now db : (b = B -> k = K -> now - w <= a) -> since B K a (pruned b k w now db) = since B K a db.
Proof.
  intros H. apply since_filter. intros r ((<- & <-) & Ha)%counted_iff. apply negb_true_iff. unfold expired.
  destruct (of_key b k r) eqn:E; [|done]. apply of_key_iff in E as [E1 E2]. apply Z.ltb_ge. specialize (H (eq_sym E1) (eq_sym E2)). lia.
Qed.
Lemma since_delete_some B K a n p db : (forall r, counted B K a r = true -> p r = false) -> since B K a (snd (delete_some n p db)) = since B K a db.
Proof.
  intros H. revert n. induction db as [|r db IH]; intros n; cbn; [done|]. destruct n as [|n]; [done|]. destruct (p r) eqn:Ep.
  - specialize (IH n). destruct (delete_some n p db) as [k rest]; cbn in *. rewrite IH. unfold since; cbn.
    destruct (counted B K a r) eqn:Ec; [|done]. by rewrite H in Ep.
  - specialize (IH (S n)). destruct (delete_some (S n) p db) as [k rest]; cbn in *. unfold since in *; cbn. destruct (counted B K a r); cbn; lia.
Qed.
Lemma current_since B K w now a db : now - w <= a -> (since B K a db <= length (current B K w now db))%nat.
Proof.
  intros H. unfold since, current. induction db as [|r db IH]; cbn; [lia|]. unfold expired in *.
  destruct (counted B K a r) eqn:Ec; cbn.
  - apply counted_iff in Ec as [Ek Ha]. apply of_key_iff in Ek. rewrite Ek, (proj2 (Z.ltb_ge _ _)) by lia. cbn. lia.
  - case_match; cbn; lia.
Qed.

(** ** The window bound *)

Section Window.
Context (B K : string) (W M skew : Z).

Definition is_key (b k : string) : bool := String.eqb b B && String.eqb k K.
Lemma is_key_iff b k : is_key b k = true <-> b = B /\ k = K.
Proof. unfold is_key. by rewrite andb_true_iff, !String.eqb_eq. Qed.

(** The transaction time of an action that reads or writes the table. *)
Definition tx_time (a : Action) : option Z :=
  match a with
  | a_try _ v _ => if tx_got v then Some (tx_now v) else None
  | a_failure _ _ _ now | a_reap _ _ _ now => Some now
  | _ => None
  end.
(** How long the reaper keeps a row of the bucket. *)
Definition retention (retentionHours : Z) (bucket : string) : Z :=
  match List.find (fun p => String.eqb (fst p) bucket) LONG_RETENTION_BUCKETS with
  | Some p => Z.max retentionHours (snd p) * HOUR_MS
  | None => retentionHours * HOUR_MS
  end.
(** The callers of the key agree on a window of at least [W] and a cap of at most
    [M], and nothing forgets the key; the reaper keeps rows for at least [W]. *)
Definition respects (a : Action) : Prop :=
  match a with
  | a_begin _ b k w m _ => is_key b k = true -> W <= w /\ m <= M
  | a_failure b k w _ => is_key b k = true -> W <= w
  | a_clear _ b k => is_key b k = false
  | a_reap hours _ _ _ => W <= retention hours B
  | _ => True
  end.
(** Transactions see the table in an order that agrees with their [now()] up to [skew]. *)
Fixpoint clocked (latest : Z) (actions : list Action) : Prop :=
  match actions with
  | [] => True
  | a :: rest =>
      match tx_time a with
      | Some t => latest - skew <= t /\ clocked (Z.max latest t) rest
      | None => clocked latest rest
      end
  end.

Record WindowInv (latest : Z) (s : System) : Prop := {
  wi_kept : forall a, latest - W <= a -> (since B K a (sy_log s) <= since B K a (sy_db s))%nat;
  wi_flight : Forall (fun q => is_key (rq_bucket q) (rq_key q) = true -> W <= rq_windowMs q /\ rq_max q <= M) (sy_flight s);
  wi_bound : forall a L, L <= W - skew -> Z.of_nat (admitted_in B K a (a + L) (sy_log s)) <= Z.max 0 M
}.

Lemma window_frame latest latest' s s' : WindowInv latest s -> latest <= latest' -> sy_log s' = sy_log s ->
  (forall a, latest' - W <= a -> (since B K a (sy_db s) <= since B K a (sy_db s'))%nat) ->
  (forall q', q' ∈ sy_flight s' -> exists q, q ∈ sy_flight s /\ rq_bucket q' = rq_bucket q /\ rq_key q' = rq_key q /\ rq_windowMs q' = rq_windowMs q /\ rq_max q' = rq_max q) ->
  WindowInv latest' s'.
Proof.
  intros I L E D F. split; rewrite ?E.
  - intros a Ha. etransitivity; [apply (wi_kept _ _ I); lia|by apply D].
  - rewrite Forall_forall. intros q' (q & Hq & -> & -> & -> & ->)%F. pose proof (wi_flight _ _ I) as G. rewrite Forall_forall in G. auto.
  - apply (wi_bound _ _ I).
Qed.
Lemma same_flight (l : list Request) q' : q' ∈ l ->
  exists q, q ∈ l /\ rq_bucket q' = rq_bucket q /\ rq_key q' = rq_key q /\ rq_windowMs q' = rq_windowMs q /\ rq_max q' = rq_max q.
Proof. intros H. by exists q'. Qed.

Lemma long_bucket_eq b : long_bucket b = String.eqb "admin-auth-known" b.
Proof. unfold long_bucket, LONG_RETENTION_BUCKETS. cbn [existsb fst]. apply orb_false_r. Qed.
Lemma retention_eq h b : retention h b = (if String.eqb "admin-auth-known" b then Z.max h (30 * 24) else h) * HOUR_MS.
Proof. unfold retention, LONG_RETENTION_BUCKETS. cbn [List.find fst snd]. by destruct (String.eqb _ b). Qed.
(** No pass of the reaper matches a row younger than the retention of its bucket. *)
Lemma pass_expired hours pass p now r : nth_error (passes hours) pass = Some p -> p r now = true -> at_attemptedAt r < now - retention hours (at_bucket r).
Proof.
  rewrite retention_eq. intros E Hp. destruct pass as [|[|pass]]; [| |by destruct pass].
  - injection E as <-. rewrite long_bucket_eq in Hp. apply andb_true_iff in Hp as [Hp Hl]. apply negb_true_iff in Hl. rewrite Hl. by apply Z.ltb_lt in Hp.
  - injection E as <-. apply andb_true_iff in Hp as [Hp Hl]. rewrite String.eqb_sym in Hl. cbn [fst] in Hl. rewrite Hl. by apply Z.ltb_lt in Hp.
Qed.

Lemma reap_keeps hours n pass now latest s : W <= retention hours B -> WindowInv latest s ->
  WindowInv (Z.max latest now) (sys_step s (a_reap hours n pass now)).
Proof.
  intros R I. cbn [sys_step]. destruct (nth_error (passes hours) pass) as [p|] eqn:E; [|apply (window_frame latest _ s s); auto using same_flight; lia].
  apply (window_frame latest _ s); auto using same_flight; [lia|]. intros a Ha. cbn [with_db sy_db]. rewrite since_delete_some; [lia|].
  intros r ((Eb & Ek) & Ht)%counted_iff. apply not_true_iff_false. intros Hp%(pass_expired _ _ _ _ _ E). rewrite Eb in Hp. lia.
Qed.

Lemma answered_frame latest s db q r after : WindowInv latest s ->
  (forall a, latest - W <= a -> (since B K a (sy_db s) <= since B K a db)%nat) ->
  WindowInv latest (settle_request (with_db s db) q r after []).
Proof.
  intros I D. apply (window_frame latest _ s); auto; [lia|by cbn; rewrite app_nil_r|].
  intros q' Hq. cbn in Hq. apply elem_filter_bool in Hq as [Hq _]. by apply same_flight.
Qed.

Lemma admit_inv latest s q v after db : 0 <= skew -> WindowInv latest s -> q ∈ sy_flight s -> latest - skew <= tx_now v ->
  Z.of_nat (length (current (rq_bucket q) (rq_key q) (rq_windowMs q) (tx_now v) (sy_db s))) < rq_max q ->
  db = pruned (rq_bucket q) (rq_key q) (rq_windowMs q) (tx_now v) (sy_db s) ++ [attempt_row (rq_bucket q) (rq_key q) (tx_now v)] ->
  WindowInv (Z.max latest (tx_now v)) (settle_request (with_db s db) q 0 after [attempt_row (rq_bucket q) (rq_key q) (tx_now v)]).
Proof.
  intros Hs I Hq Hc Hn ->. pose proof (wi_flight _ _ I) as F. rewrite Forall_forall in F. specialize (F q Hq).
  set (row := attempt_row _ _ _).
  assert (P : forall a, Z.max latest (tx_now v) - W <= a -> since B K a (pruned (rq_bucket q) (rq_key q) (rq_windowMs q) (tx_now v) (sy_db s)) = since B K a (sy_db s)).
  { intros a Ha. apply since_pruned. intros E1 E2. destruct F as [F1 F2]; [by apply is_key_iff|]. lia. }
  split; cbn [settle_request answer with_memo with_db sy_log sy_db sy_flight].
  - intros a Ha. rewrite !since_app, P by done. pose proof (wi_kept _ _ I a ltac:(lia)). lia.
  - rewrite Forall_forall. intros x [Hx _]%elem_filter_bool. pose proof (wi_flight _ _ I) as G. rewrite Forall_forall in G. auto.
  - intros a L HL. rewrite admitted_app. pose proof (wi_bound _ _ I a L HL) as O.
    unfold admitted_in at 2. cbn [List.filter]. destruct (counted B K a row && (at_attemptedAt row <=? a + L)) eqn:E; cbn [length]; [|lia].
    apply andb_true_iff in E as [((E1 & E2) & E3)%counted_iff E4]. apply Z.leb_le in E4. cbn in E1, E2, E3, E4.
    destruct F as [F1 F2]; [by apply is_key_iff|].
    pose proof (admitted_since B K a (a + L) (sy_log s)). pose proof (wi_kept _ _ I a ltac:(lia)).
    pose proof (current_since (rq_bucket q) (rq_key q) (rq_windowMs q) (tx_now v) a (sy_db s) ltac:(lia)) as C. rewrite E1, E2 in *. lia.
Qed.

Lemma step_window latest s a : 0 <= skew -> respects a -> WindowInv latest s ->
  (forall t, tx_time a = Some t -> latest - skew <= t) ->
  WindowInv (match tx_time a with Some t => Z.max latest t | None => latest end) (sys_step s a).
Proof.
  intros Hs R I Hc. destruct a as [pid b k w m now|id v after|pid b k w m now v after|b k w now|pid b k|hours n pass now]; cbn [tx_time sys_step] in *.
  - destruct (cached now (joined b k) (memo_of s pid)) as [hit memo]. destruct (0 <? hit); [apply (window_frame latest _ s); auto using same_flight; lia|].
    split; [apply (wi_kept _ _ I)| |apply (wi_bound _ _ I)]. cbn. apply Forall_app. split; [apply (wi_flight _ _ I)|]. constructor; [exact R|constructor].
  - destruct (List.find (is_request id) (sy_flight s)) as [q|] eqn:Eq.
    2: { apply (window_frame latest _ s); auto using same_flight. destruct (tx_got v); lia. }
    apply find_elem in Eq as [Hq _]. unfold consumeOnce. destruct (tx_got v); cbn [negb].
    + unfold CONSUME_SQL. specialize (Hc _ eq_refl). destruct (Z.ltb_spec (Z.of_nat (length (current (rq_bucket q) (rq_key q) (rq_windowMs q) (tx_now v) (sy_db s)))) (rq_max q)).
      * cbn [Z.eqb]. by apply admit_inv.
      * rewrite app_nil_r. assert (Hr : (retryFrom (oldest_of (current (rq_bucket q) (rq_key q) (rq_windowMs q) (tx_now v) (sy_db s))) (rq_windowMs q) (tx_wall v) =? 0) = false).
        { apply Z.eqb_neq. unfold retryFrom. case_match; lia. }
        rewrite Hr. pose proof (wi_flight _ _ I) as F. rewrite Forall_forall in F. specialize (F q Hq).
        apply answered_frame; [apply (window_frame latest _ s); auto using same_flight; lia|].
        intros a Ha. rewrite since_pruned; [lia|]. intros E1 E2. destruct F as [F1 F2]; [by apply is_key_iff|]. lia.
    + destruct (rq_tries q <=? 1)%nat.
      * apply (window_frame latest _ s); auto; [lia|by cbn; rewrite app_nil_r|].
        intros q' Hq'. cbn in Hq'. apply elem_filter_bool in Hq' as [Hq' _]. by apply same_flight.
      * apply (window_frame latest _ s); auto; [lia|]. cbn. intros q' Hq'. apply elem_set_where in Hq' as (x & Hx & ->). exists x.
        destruct (is_request id x); done.
  - destruct (cached now (joined b k) (memo_of s pid)) as [hit memo]. destruct (0 <? hit); [apply (window_frame latest _ s); auto using same_flight; lia|].
    unfold pg_check. apply (window_frame latest _ s); auto using same_flight; lia.
  - apply (window_frame latest _ s); auto using same_flight; [lia|]. intros a Ha. cbn [with_db with_memo sy_db]. rewrite since_app, since_pruned; [lia|].
    intros -> ->. cbn in R. rewrite (proj2 (is_key_iff B K)) in R by done. specialize (R eq_refl). lia.
  - apply (window_frame latest _ s); auto using same_flight; [lia|]. intros a Ha. cbn [with_db with_memo sy_db]. rewrite since_filter; [lia|].
    intros r ((E1 & E2) & _)%counted_iff. apply negb_true_iff. cbn in R. destruct (of_key b k r) eqn:E; [|done]. apply of_key_iff in E as [E E'].
    rewrite <- E, <- E', E1, E2 in R. by rewrite (proj2 (is_key_iff B K)) in R.
  - by apply reap_keeps.
Qed.

Lemma run_window latest s actions : 0 <= skew -> Forall respects actions -> clocked latest actions -> WindowInv latest s ->
  exists latest', WindowInv latest' (sys_run s actions).
Proof.
  intros Hs R. revert latest s. induction R as [|a actions Ra R IH]; intros latest s Hc I; [by exists latest|].
  unfold sys_run. cbn [fold_left]. cbn [clocked] in Hc.
  assert (T : forall t, tx_time a = Some t -> latest - skew <= t) by (intros t E; rewrite E in Hc; tauto).
  pose proof (step_window latest s a Hs Ra I T) as I'. destruct (tx_time a); eapply IH; eauto. tauto.
Qed.
End Window.

(** C15: C: No window of a key ever admits more than the key's cap, however the requests
    of any number of processes, their retries for the lock, recorded failures, local
    refusals and the reaper interleave: when the callers of a key use a window of at
    least [W] and a cap of at most [M], and transactions see the table in the order
    of their [now()] up to [skew], every interval of length [W - skew] holds at most
    [M] admissions, counted over all processes. *)
Theorem sliding_window_bound (B K : string) (W M skew latest : Z) (s : System) (actions : list Action) (from L : Z) :
  0 <= skew -> Forall (respects B K W M) actions -> clocked skew latest actions -> sy_flight s = [] -> sy_log s = [] -> L <= W - skew ->
  Z.of_nat (admitted_in B K from (from + L) (sy_log (sys_run s actions))) <= Z.max 0 M.
Proof.
  intros Hs R C F G HL. assert (I : WindowInv B K W M skew latest s).
  { split; rewrite ?F, ?G; [intros; cbn; lia|constructor|intros; cbn; lia]. }
  destruct (run_window B K W M skew latest s actions Hs R C I) as [latest' I']. by apply (wi_bound _ _ _ _ _ _ _ I').
Qed.

(** ** Answers *)

Definition sys_start (db : AttemptTable) : System :=
  {| sy_db := db; sy_memos := ∅; sy_flight := []; sy_next := O; sy_answers := []; sy_log := [] |}.
Definition tries_for (id : nat) (actions : list Action) : nat :=
  length (List.filter (fun a => match a with a_try id' _ _ => (id' =? id)%nat | _ => false end) actions).
(** The transactions the request may still run. *)
Definition tries_left (id : nat) (s : System) : nat :=
  match List.find (is_request id) (sy_flight s) with Some q => rq_tries q | None => O end.

Record AnswerInv (s : System) : Prop := {
  ai_ids : map fst (sy_answers s) ++ map rq_id (sy_flight s) ≡ₚ seq 0 (sy_next s);
  ai_tries : Forall (fun q => (1 <= rq_tries q <= CONSUME_LOCK_TRIES)%nat) (sy_flight s);
  ai_log : length (List.filter (fun a => snd a =? 0) (sy_answers s)) = length (sy_log s)
}.

Lemma flight_nodup s : AnswerInv s -> NoDup (map rq_id (sy_flight s)).
Proof. intros I. pose proof (NoDup_ListNoDup (seq 0 (sy_next s))) as E. assert (N : NoDup (seq 0 (sy_next s))) by (apply E, seq_NoDup). rewrite <- (ai_ids _ I) in N. by apply NoDup_app in N as (_ & _ & ?). Qed.

Lemma remove_request (l : list Request) q : NoDup (map rq_id l) -> q ∈ l ->
  map rq_id l ≡ₚ rq_id q :: map rq_id (List.filter (fun x => negb (is_request (rq_id q) x)) l).
Proof.
  induction l as [|x l IH]; intros N H; [by apply elem_of_nil in H|]. cbn in N. apply NoDup_cons in N as [Nx N]. cbn [map List.filter].
  assert (Z0 : forall y, (forall z, z ∈ l -> rq_id z <> y) -> List.filter (fun z => negb (is_request y z)) l = l).
  { clear. induction l as [|z l IH]; intros y Hy; cbn; [done|]. unfold is_request at 1. rewrite (proj2 (Nat.eqb_neq _ _)); cbn; [|apply Hy; by left].
    f_equal. apply IH. intros w Hw. apply Hy. by right. }
  apply elem_of_cons in H as [->|H].
  - unfold is_request at 1. rewrite Nat.eqb_refl. cbn. rewrite Z0; [done|]. intros z Hz E. apply Nx. rewrite <- E. apply list_elem_of_In, in_map. by apply list_elem_of_In.
  - unfold is_request at 1. rewrite (proj2 (Nat.eqb_neq (rq_id x) (rq_id q))); cbn.
    + rewrite (IH N H). by apply Permutation_swap.
    + intros E. apply Nx. rewrite E. apply list_elem_of_In, in_map. by apply list_elem_of_In.
Qed.

Lemma answer_inv s s0 q r row : AnswerInv s -> q ∈ sy_flight s -> sy_flight s0 = sy_flight s -> sy_next s0 = sy_next s -> sy_answers s0 = sy_answers s ->
  sy_log s0 = sy_log s -> AnswerInv (answer s0 (rq_id q) r (if r =? 0 then [row] else [])).
Proof.
  intros I Hq E1 E2 E3 E4. pose proof (flight_nodup _ I) as N. split; cbn [answer sy_answers sy_flight sy_next sy_log]; rewrite ?E1, ?E2, ?E3, ?E4.
  - rewrite map_app, <- app_assoc. cbn [map app fst]. rewrite <- (ai_ids _ I). apply Permutation_app_head. symmetry. by apply remove_request.
  - apply Forall_filter_bool, I.
  - rewrite List.filter_app, !length_app, (ai_log _ I). cbn [List.filter snd]. by destruct (r =? 0).
Qed.
Lemma same_answers s s' : AnswerInv s -> sy_flight s' = sy_flight s -> sy_next s' = sy_next s -> sy_answers s' = sy_answers s -> sy_log s' = sy_log s -> AnswerInv s'.
Proof. intros [I1 I2 I3] E1 E2 E3 E4. split; rewrite ?E1, ?E2, ?E3, ?E4; done. Qed.

Lemma cached_hit now mk m : 0 <= fst (cached now mk m).
Proof. unfold cached. case_match; [|done]. case_match; cbn; lia. Qed.

Lemma settle_inv s s0 q r after row : AnswerInv s -> q ∈ sy_flight s -> sy_flight s0 = sy_flight s -> sy_next s0 = sy_next s -> sy_answers s0 = sy_answers s ->
  sy_log s0 = sy_log s -> AnswerInv (settle_request s0 q r after (if r =? 0 then [row] else [])).
Proof. intros. by apply (answer_inv s). Qed.

Lemma step_answers s a : AnswerInv s -> AnswerInv (sys_step s a).
Proof.
  intros I. destruct a as [pid b k w m now|id v after|pid b k w m now v after|b k w now|pid b k|hours n pass now]; cbn [sys_step].
  - destruct (cached now (joined b k) (memo_of s pid)) as [hit memo]. destruct (Z.ltb_spec 0 hit).
    + split; cbn [refused_locally with_memo sy_answers sy_flight sy_next sy_log].
      * rewrite map_app, <- app_assoc. cbn [map app fst]. rewrite seq_S, <- (ai_ids _ I). cbn. rewrite Permutation_app_comm. cbn. rewrite <- Permutation_cons_append.
        apply perm_skip. by rewrite Permutation_app_comm.
      * apply (ai_tries _ I).
      * rewrite List.filter_app, length_app, <- (ai_log _ I). cbn. rewrite (proj2 (Z.eqb_neq hit 0)) by lia. cbn. lia.
    + split; cbn [launched with_memo sy_answers sy_flight sy_next sy_log].
      * rewrite map_app, app_assoc. cbn [map rq_id]. rewrite seq_S. by rewrite (ai_ids _ I).
      * apply Forall_app. split; [apply (ai_tries _ I)|]. repeat constructor; cbn; unfold CONSUME_LOCK_TRIES; lia.
      * apply (ai_log _ I).
  - destruct (List.find (is_request id) (sy_flight s)) as [q|] eqn:Eq; [|done]. apply find_elem in Eq as [Hq Hid].
    destruct (consumeOnce v (rq_bucket q) (rq_key q) (rq_windowMs q) (rq_max q) (sy_db s)) as [[|r] db].
    + destruct (Nat.leb_spec (rq_tries q) 1) as [L|L]; [by apply (settle_inv s s q 1 after (attempt_row EmptyString EmptyString 0))|].
      split; cbn [retrying sy_answers sy_flight sy_next sy_log].
      * rewrite map_set_where by done. apply (ai_ids _ I).
      * pose proof (ai_tries _ I) as T. rewrite Forall_forall in *. intros x (y & Hy & ->)%elem_set_where.
        destruct (is_request id y) eqn:Ey; [|by apply T]. unfold is_request in *. apply Nat.eqb_eq in Ey, Hid.
        assert (y = q) as -> by (apply (NoDup_map_inj rq_id (sy_flight s)); [by apply flight_nodup|done|done|congruence]).
        pose proof (T _ Hq). cbn. lia.
      * apply (ai_log _ I).
    + by apply (settle_inv s).
  - destruct (cached now (joined b k) (memo_of s pid)) as [hit memo]. destruct (0 <? hit); [by apply (same_answers s)|]. unfold pg_check. by apply (same_answers s).
  - by apply (same_answers s).
  - by apply (same_answers s).
  - destruct (nth_error (passes hours) pass); by apply (same_answers s).
Qed.

Lemma run_answers s actions : AnswerInv s -> AnswerInv (sys_run s actions).
Proof. revert s. induction actions as [|a actions IH]; intros s I; [done|]. apply IH. by apply step_answers. Qed.
Lemma start_answers db : AnswerInv (sys_start db).
Proof. by split; cbn. Qed.

Lemma find_request (l : list Request) q : NoDup (map rq_id l) -> q ∈ l -> List.find (is_request (rq_id q)) l = Some q.
Proof.
  intros N H. destruct (List.find (is_request (rq_id q)) l) as [x|] eqn:E.
  - apply find_elem in E as [Hx Ei]. apply Nat.eqb_eq in Ei. f_equal. by apply (NoDup_map_inj rq_id l).
  - eapply List.find_none in E; [|by apply list_elem_of_In]. unfold is_request in E. by rewrite Nat.eqb_refl in E.
Qed.
Lemma find_filtered id id' (l : list Request) :
  List.find (is_request id) (List.filter (fun x => negb (is_request id' x)) l) = if (id =? id')%nat then None else List.find (is_request id) l.
Proof.
  induction l as [|x l IH]; [by destruct (id =? id')%nat|]. cbn [List.filter List.find].
  destruct (is_request id' x) eqn:E'; cbn [negb]; [|cbn [List.find]]; destruct (is_request id x) eqn:E; try done;
    unfold is_request in E, E'; apply Nat.eqb_eq in E.
  - apply Nat.eqb_eq in E'. rewrite IH. by rewrite (proj2 (Nat.eqb_eq id id')) by congruence.
  - by rewrite (proj2 (Nat.eqb_neq id id')) by (apply Nat.eqb_neq in E'; congruence).
Qed.
Lemma find_spent id id' (l : list Request) :
  List.find (is_request id) (set_where (is_request id') spend_try l) = (fun q => if is_request id' q then spend_try q else q) <$> List.find (is_request id) l.
Proof.
  unfold set_where. induction l as [|x l IH]; cbn; [done|]. destruct (is_request id' x) eqn:E.
  - change (is_request id (spend_try x)) with (is_request id x). destruct (is_request id x); [cbn; by rewrite E|apply IH].
  - destruct (is_request id x); [cbn; by rewrite E|apply IH].
Qed.

Lemma find_new id (l : list Request) q : rq_id q <> id -> List.find (is_request id) (l ++ [q]) = List.find (is_request id) l.
Proof.
  intros H. induction l as [|x l IH]; cbn; [|by destruct (is_request id x)]. unfold is_request. by rewrite (proj2 (Nat.eqb_neq _ _)).
Qed.

(** A transaction of a request answers it or spends one of its tries; nothing else
    gives it more. *)
Lemma step_tries s a id : (id < sy_next s)%nat -> AnswerInv s ->
  (id < sy_next (sys_step s a))%nat /\
  (tries_left id (sys_step s a) <= tries_left id s - tries_for id [a])%nat.
Proof.
  intros Hid I. unfold tries_left.
  assert (Settle : forall s0 q r after rows, sy_flight s0 = sy_flight s -> q ∈ sy_flight s ->
    (match List.find (is_request id) (sy_flight (settle_request s0 q r after rows)) with Some q => rq_tries q | None => O end <=
     match List.find (is_request id) (sy_flight s) with Some q => rq_tries q | None => O end - (if (rq_id q =? id)%nat then 1 else 0))%nat).
  { intros s0 q r after rows E Hq. cbn [settle_request answer with_memo sy_flight]. rewrite E, find_filtered, (Nat.eqb_sym (rq_id q) id).
    destruct (Nat.eqb_spec id (rq_id q)) as [->|]; [lia|]. lia. }
  destruct a as [pid b k w m now|id' v after|pid b k w m now v after|b k w now|pid b k|hours n pass now]; cbn [sys_step tries_for List.filter length].
  - destruct (cached now (joined b k) (memo_of s pid)) as [hit memo]. destruct (0 <? hit); cbn [refused_locally launched with_memo sy_next sy_flight]; [lia|].
    split; [lia|]. rewrite find_new by (cbn; lia). lia.
  - destruct (List.find (is_request id') (sy_flight s)) as [q|] eqn:Eq.
    2: { split; [done|]. destruct (Nat.eqb_spec id' id) as [->|]; [rewrite Eq|]; cbn; lia. }
    apply find_elem in Eq as [Hq Ei]. apply Nat.eqb_eq in Ei. subst id'.
    destruct (consumeOnce v (rq_bucket q) (rq_key q) (rq_windowMs q) (rq_max q) (sy_db s)) as [[|r] db].
    + destruct (Nat.leb_spec (rq_tries q) 1) as [L|L].
      * split; [done|]. pose proof (Settle s q 1 after [] eq_refl Hq) as P. destruct (rq_id q =? id)%nat; cbn [length]; exact P.
      * split; [done|]. cbn [retrying sy_flight]. rewrite find_spent. destruct (Nat.eqb_spec (rq_id q) id) as [<-|Hn]; cbn [length].
        -- rewrite (find_request _ q (flight_nodup _ I) Hq). cbn. unfold is_request. rewrite Nat.eqb_refl. cbn. lia.
        -- destruct (List.find (is_request id) (sy_flight s)) as [x|] eqn:Ex; cbn; [|lia]. apply find_elem in Ex as [_ Ex].
           unfold is_request in *. apply Nat.eqb_eq in Ex. rewrite (proj2 (Nat.eqb_neq _ _)) by congruence. lia.
    + split; [done|]. pose proof (Settle (with_db s db) q r after (if r =? 0 then [attempt_row (rq_bucket q) (rq_key q) (tx_now v)] else []) eq_refl Hq) as P.
      destruct (rq_id q =? id)%nat; cbn [length]; exact P.
  - destruct (cached now (joined b k) (memo_of s pid)) as [hit memo]. destruct (0 <? hit); [split; [done|cbn; lia]|]. unfold pg_check. split; [done|cbn; lia].
  - split; [done|cbn; lia].
  - split; [done|cbn; lia].
  - destruct (nth_error (passes hours) pass); split; (done || cbn; lia).
Qed.

Lemma run_tries s actions id : (id < sy_next s)%nat -> AnswerInv s ->
  (id < sy_next (sys_run s actions))%nat /\ (tries_left id (sys_run s actions) <= tries_left id s - tries_for id actions)%nat.
Proof.
  revert s. induction actions as [|a actions IH]; intros s Hid I; [cbn; lia|]. destruct (step_tries s a id Hid I) as [S1 S2].
  destruct (IH (sys_step s a) S1 (step_answers s a I)) as [I1 I2]. split; [done|]. change (sys_run s (a :: actions)) with (sys_run (sys_step s a) actions).
  unfold tries_for in *. cbn [List.filter] in *. destruct (match a with a_try id' _ _ => (id' =? id)%nat | _ => false end); cbn [length] in *; lia.
Qed.

(** A request never waits without bound and never gets two answers: once it has run
    six transactions it is answered exactly once, whatever else happens; and over the
    whole system the requests that were let through are exactly the admissions the
    table recorded, so no local memo and no exhausted retry ever lets one through. *)
Theorem consume_answered_once (db : AttemptTable) (before actions : list Action) (id : nat) :
  let s := sys_run (sys_start db) before in
  let s' := sys_run s actions in
  (id < sy_next s)%nat -> (CONSUME_LOCK_TRIES <= tries_for id actions)%nat ->
  length (List.filter (fun a => (fst a =? id)%nat) (sy_answers s')) = 1%nat /\
  length (List.filter (fun a => snd a =? 0) (sy_answers s')) = length (sy_log s').
Proof.
  intros s s' Hid Ht. assert (I : AnswerInv s) by apply run_answers, start_answers. assert (I' : AnswerInv s') by (by apply run_answers).
  split; [|apply (ai_log _ I')]. destruct (run_tries s actions id Hid I) as [Hn Hl].
  assert (T : (tries_left id s <= CONSUME_LOCK_TRIES)%nat).
  { unfold tries_left. destruct (List.find _ _) as [q|] eqn:E; [|lia]. apply find_elem in E as [Hq _]. pose proof (ai_tries _ I) as F.
    rewrite Forall_forall in F. apply F, Hq. }
  assert (Hf : forall q, q ∈ sy_flight s' -> rq_id q <> id).
  { intros q Hq <-. pose proof (find_request _ q (flight_nodup _ I') Hq) as E. fold s' in Hl. unfold tries_left at 1 in Hl. rewrite E in Hl.
    pose proof (ai_tries _ I') as F. rewrite Forall_forall in F. specialize (F q Hq). cbn in F. lia. }
  pose proof (ai_ids _ I') as P. assert (C : forall l : list nat, length (List.filter (fun i => (i =? id)%nat) l) = count_occ Nat.eq_dec l id).
  { induction l as [|x l IH]; cbn; [done|]. destruct (Nat.eq_dec x id) as [->|Hx]; [rewrite Nat.eqb_refl|rewrite (proj2 (Nat.eqb_neq _ _)) by done]; cbn; lia. }
  transitivity (length (List.filter (fun i => (i =? id)%nat) (map fst (sy_answers s')))).
  { clear. induction (sy_answers s') as [|x l IH]; cbn; [done|]. destruct (fst x =? id)%nat; cbn; lia. }
  rewrite C. transitivity (count_occ Nat.eq_dec (map fst (sy_answers s') ++ map rq_id (sy_flight s')) id).
  - rewrite count_occ_app. replace (count_occ Nat.eq_dec (map rq_id (sy_flight s')) id) with O; [lia|]. symmetry. apply count_occ_not_In.
    intros (q & E & Hq)%in_map_iff. apply (Hf q); [by apply list_elem_of_In|done].
  - rewrite (Permutation_count_occ Nat.eq_dec) in P. rewrite P. apply NoDup_count_occ'; [apply seq_NoDup|]. apply in_seq. fold s' in Hn. lia.
Qed.

(** ** A burst from two processes on a budget of two *)

Definition view (got : bool) (t : Z) : TxView := {| tx_got := got; tx_now := t; tx_wall := t |}.
Definition burst : list Action :=
  [a_begin 0 "auth" "k" 900000 2 0; a_begin 1 "auth" "k" 900000 2 0; a_begin 1 "auth" "k" 900000 2 1;
   a_try 0 (view true 1) 1; a_try 1 (view false 1) 1; a_try 2 (view true 2) 2; a_try 1 (view false 2) 2; a_try 1 (view true 3) 3; a_begin 1 "auth" "k" 900000 2 4].
Example burst_answers : sy_answers (sys_run (sys_start []) burst) = [(0%nat, 0); (2%nat, 0); (1%nat, 900); (3%nat, 10)].
Proof. vm_compute. reflexivity. Qed.

Lemma sliding_window_bound_witness :
  Z.of_nat (admitted_in "auth" "k" 0 (0 + 899999) (sy_log (sys_run (sys_start []) burst))) <= Z.max 0 2.
Proof.
  apply (sliding_window_bound "auth" "k" 900000 2 1 0); [lia| |vm_compute; intuition congruence|reflexivity|reflexivity|lia].
  repeat constructor; cbn; lia.
Defined.
Lemma consume_answered_once_witness :
  length (List.filter (fun a => (fst a =? 1)%nat) (sy_answers (sys_run (sys_run (sys_start []) (firstn 4 burst)) (repeat (a_try 1 (view false 1) 1) 6)))) = 1%nat.
Proof. apply (consume_answered_once [] (firstn 4 burst) (repeat (a_try 1 (view false 1) 1) 6) 1); vm_compute; lia. Defined.

(** ** The reaper *)

Lemma delete_some_spec n p db : let '(k, db') := delete_some n p db in
  (k <= n)%nat /\ length db = (k + length db')%nat /\ List.filter (fun r => negb (p r)) db' = List.filter (fun r => negb (p r)) db /\
  db' `sublist_of` db /\ ((k < n)%nat -> forall r, r ∈ db' -> p r = false).
Proof.
  revert n. induction db as [|r db IH]; intros n; cbn [delete_some].
  { split_and!; try done; try (cbn; lia). intros _ x Hx. by apply elem_of_nil in Hx. }
  destruct n as [|n]; [split_and!; try done; cbn; lia|]. destruct (p r) eqn:Ep.
  - specialize (IH n). destruct (delete_some n p db) as [k db']. destruct IH as (I1 & I2 & I3 & I4 & I5). cbn. rewrite Ep. cbn.
    split_and!; [lia|lia|done|by constructor|intros; apply I5; [lia|done]].
  - specialize (IH (S n)). destruct (delete_some (S n) p db) as [k db']. destruct IH as (I1 & I2 & I3 & I4 & I5). cbn. rewrite Ep; cbn.
    split_and!; [lia|lia|by rewrite I3|by constructor|]. intros L x [->|Hx]%elem_of_cons; [done|auto].
Qed.
Lemma filter_keep_sub {A} (p q : A -> bool) l l' : (forall r, q r = true -> p r = true) ->
  List.filter p l = List.filter p l' -> List.filter q l = List.filter q l'.
Proof. intros H E. rewrite <- (filter_filter_keep q p l), <- (filter_filter_keep q p l'), E by auto. done. Qed.

Section ReapSpec.
Context (batch : nat) (clock : nat -> Z) (t0 t1 : Z).
Hypothesis batch_pos : (0 < batch)%nat.
Hypothesis clock_in : forall i, t0 <= clock i <= t1.
Definition ages (p : AttemptRow -> Z -> bool) : Prop := forall r n m, n <= m -> p r n = true -> p r m = true.

(** A pass deletes a bounded number of rows, only rows that match at the end of the
    run, and when it completes no row that matched at its start is left. *)
Lemma reap_pass_spec budget i p db : ages p ->
  let '((deleted, i', complete), db') := reap_pass batch budget i clock p db in
  (i <= i' <= i + budget)%nat /\ (deleted <= batch * (i' - i))%nat /\ length db = (deleted + length db')%nat /\
  List.filter (fun r => negb (p r t1)) db' = List.filter (fun r => negb (p r t1)) db /\ db' `sublist_of` db /\
  (complete = true -> forall r, r ∈ db' -> p r t0 = false).
Proof.
  intros Hp. revert i db. induction budget as [|budget IH]; intros i db; cbn [reap_pass]; [split_and!; try lia; done|].
  pose proof (delete_some_spec batch (fun r => p r (clock i)) db) as D. destruct (delete_some batch (fun r => p r (clock i)) db) as [k db'].
  destruct D as (D1 & D2 & D3 & D4 & D5). destruct (clock_in i) as [C0 C1].
  assert (E3 : List.filter (fun r => negb (p r t1)) db' = List.filter (fun r => negb (p r t1)) db).
  { eapply filter_keep_sub; [|exact D3]. cbn. intros r Hr. apply negb_true_iff in Hr. apply negb_true_iff, not_true_iff_false. intros E.
    rewrite (Hp _ _ _ C1 E) in Hr. done. }
  destruct (Nat.ltb_spec k batch) as [L|L].
  - split_and!; [lia|lia|replace (S i - i)%nat with 1%nat by lia; lia|done|done|done|]. intros _ r Hr. apply not_true_iff_false. intros E.
    specialize (D5 L r Hr). by rewrite (Hp _ _ _ C0 E) in D5.
  - specialize (IH (S i) db'). destruct (reap_pass batch budget (S i) clock p db') as [[[deleted i'] complete] db'']. destruct IH as ([I1 I1'] & I2 & I3 & I4 & I5 & I6).
    split_and!; [lia|lia|replace (i' - i)%nat with (S (i' - S i)) by lia; lia|lia|congruence|by etransitivity|done].
Qed.

Lemma reap_passes_spec maxBatches i ps db : (i <= maxBatches)%nat -> Forall ages ps ->
  let '((deleted, complete), db') := reap_passes batch maxBatches i clock ps db in
  (deleted <= batch * (maxBatches - i))%nat /\ length db = (deleted + length db')%nat /\
  List.filter (fun r => negb (existsb (fun p => p r t1) ps)) db' = List.filter (fun r => negb (existsb (fun p => p r t1) ps)) db /\
  db' `sublist_of` db /\
  (complete = true -> forall r, r ∈ db' -> existsb (fun p => p r t0) ps = false).
Proof.
  intros Hi F. revert i db Hi. induction F as [|p ps Hp F IH]; intros i db Hi; cbn [reap_passes]; [split_and!; [apply Nat.le_0_l|done|done|reflexivity|by intros]|].
  pose proof (reap_pass_spec (maxBatches - i) i p db Hp) as P. destruct (reap_pass batch (maxBatches - i) i clock p db) as [[[deleted i'] complete] db1] eqn:E1.
  destruct P as ([P1 P1'] & P2 & P3 & P4 & P5 & P6).
  assert (K : List.filter (fun r => negb (existsb (fun q => q r t1) (p :: ps))) db1 = List.filter (fun r => negb (existsb (fun q => q r t1) (p :: ps))) db).
  { eapply filter_keep_sub; [|exact P4]. cbn. intros r Hr. by destruct (p r t1). }
  destruct complete; cbn [negb].
  - specialize (IH i' db1 ltac:(lia)). destruct (reap_passes batch maxBatches i' clock ps db1) as [[more complete'] db2]. destruct IH as (I1 & I2 & I3 & I4 & I5).
    split_and!; [nia|lia| |by etransitivity|].
    + rewrite <- K. eapply filter_keep_sub; [|exact I3]. cbn. intros r Hr. apply negb_true_iff in Hr. apply orb_false_iff in Hr as [_ Hr]. by rewrite Hr.
    + intros -> r Hr. cbn. rewrite P6; [by apply I5|done|]. by eapply elem_of_sublist.
  - split_and!; try done; nia.
Qed.
End ReapSpec.

Lemma passes_age hours : Forall ages (passes hours).
Proof.
  repeat constructor; intros r n m L [H1 H2]%andb_true_iff; apply andb_true_iff; (split; [|done]); apply Z.ltb_lt in H1; apply Z.ltb_lt; cbn in *; lia.
Qed.
Definition reapable (hours now : Z) (r : AttemptRow) : bool := at_attemptedAt r <? now - retention hours (at_bucket r).
Lemma passes_reapable hours now r : existsb (fun p => p r now) (passes hours) = reapable hours now r.
Proof.
  unfold reapable. rewrite retention_eq. unfold passes. cbn [existsb map LONG_RETENTION_BUCKETS fst snd]. rewrite long_bucket_eq, orb_false_r, (String.eqb_sym (at_bucket r)).
  destruct (String.eqb "admin-auth-known" (at_bucket r)); cbn [negb]; by rewrite ?andb_false_r, ?andb_true_r, ?orb_false_r.
Qed.

(** The reaper is bounded and removes nothing that still counts: one run deletes at
    most batch size times batch budget rows, every row younger than the retention of
    its bucket at the end of the run survives in order, and when it reports
    completion no row that was past its retention at the start is left. *)
Theorem reaper_removes_only_expired (hours batchSize maxBatches t0 t1 : Z) (clock : nat -> Z) (db : AttemptTable) :
  (forall i, t0 <= clock i <= t1) ->
  let '((deleted, complete), db') := reapRateLimitAttempts hours batchSize maxBatches clock db in
  Z.of_nat deleted <= Z.max 1 (Z.min batchSize 50000) * Z.max 1 maxBatches /\ length db = (deleted + length db')%nat /\
  List.filter (fun r => negb (reapable hours t1 r)) db' = List.filter (fun r => negb (reapable hours t1 r)) db /\
  (complete = true -> forall r, r ∈ db' -> reapable hours t0 r = false).
Proof.
  intros Hc. unfold reapRateLimitAttempts. set (bs := Z.to_nat _). set (mb := Z.to_nat (Z.max 1 maxBatches)).
  pose proof (reap_passes_spec bs clock t0 t1 ltac:(lia) Hc mb 0 (passes hours) db ltac:(lia) (passes_age hours)) as P.
  destruct (reap_passes bs mb 0 clock (passes hours) db) as [[deleted complete] db']. destruct P as (P1 & P2 & P3 & P4 & P5).
  split_and!; [rewrite Nat.sub_0_r in P1; nia|done| |].
  - etransitivity; [|etransitivity; [exact P3|]]; apply filter_ext; intros r; by rewrite passes_reapable.
  - intros E r Hr. rewrite <- passes_reapable. by apply P5.
Qed.
Lemma reaper_removes_only_expired_witness :
  let db := [attempt_row "auth" "a" 0; attempt_row "admin-auth-known" "b" 0; attempt_row "auth" "c" 90000000] in
  reapRateLimitAttempts 24 5 2 (fun _ => 90000000) db = ((1%nat, true), [attempt_row "admin-auth-known" "b" 0; attempt_row "auth" "c" 90000000]) /\
  Z.of_nat 1 <= Z.max 1 (Z.min 5 50000) * Z.max 1 2.
Proof.
  split; [vm_compute; reflexivity|].
  apply (reaper_removes_only_expired 24 5 2 90000000 90000000 (fun _ => 90000000) [attempt_row "auth" "a" 0; attempt_row "admin-auth-known" "b" 0; attempt_row "auth" "c" 90000000]).
  intros; lia.
Defined.
