(* ===== verification/ClientAddress.v ===== *)
(** Client addresses ([auth/rate-limit.ts]): the rate-limit identity of an address,
    which peers are the deployment's own proxies, CIDR matching, and which address a
    request is attributed to. *)

From S2P Require Import Prelude NetAddress.
From Stdlib Require Import ZArith Lia Bool Ascii String.
From stdpp Require Import base list strings pretty.
Local Open Scope string_scope.
Local Open Scope list_scope.
Local Open Scope Z_scope.

(** ** Rate-limit identity of an address *)

(** [\d+\.\d+\.\d+\.\d+] *)
Definition digits_quad (s : string) : bool :=
  let parts := split_on "." s in
  (length parts =? 4)%nat && forallb (fun p => negb (String.eqb p EmptyString) && all_digits p) parts.
(** [/^::ffff:(\d+\.\d+\.\d+\.\d+)$/i] *)
Definition mapped_quad (s : string) : option string :=
  if String.eqb (to_lower (String.substring 0 7 s)) "::ffff:" then
    let rest := String.substring 7 (String.length s - 7) s in if digits_quad rest then Some rest else None
  else None.

Definition hex_char (n : Z) : ascii := ascii_of_nat (Z.to_nat (if n <? 10 then 48 + n else 87 + n)).
Fixpoint hex_digits (fuel : nat) (n : Z) : string :=
  match fuel with
  | O => EmptyString
  | S f => (if n <? 16 then EmptyString else hex_digits f (n / 16)) +:+ String (hex_char (n mod 16)) EmptyString
  end.
(** [n.toString(16)] for a 16-bit [n]. *)
Definition toString16 (n : Z) : string := hex_digits 4 n.
(** The text up to its last colon, and what follows. *)
Fixpoint after_last_colon (s : string) : option (string * string) :=
  match s with
  | EmptyString => None
  | String c r =>
      match after_last_colon r with
      | Some (p, q) => Some (String c p, q)
      | None => if Ascii.eqb c ":" then Some (String c EmptyString, r) else None
      end
  end.
Definition padStart4 (g : string) : string := String.concat EmptyString (repeat "0" (4 - String.length g)) +:+ g.
Fixpoint strip_zeros (g : string) : string :=
  match g with
  | String "0"%char (String _ _ as r) => strip_zeros r
  | _ => g
  end.

Definition split_side (part : string) : list string := if String.eqb part EmptyString then [] else split_on ":" part.
(** [[head, tail] = text.split('::')], and the eight groups of the two sides. *)
Definition eight_groups (text : string) : option (list string) :=
  let pieces := split_dcolon text in
  let h := split_side (nth 0 pieces EmptyString) in
  let groups :=
    if (2 <=? length pieces)%nat then let t := split_side (nth 1 pieces EmptyString) in h ++ repeat "0" (8 - length h - length t) ++ t else h in
  if (length groups =? 8)%nat then Some groups else None.
Definition expandIpv6 (addr : string) : option (list string) :=
  let lower := to_lower addr in
  let text :=
    match after_last_colon lower with
    | Some (prefix, q) =>
        if digits_quad q then
          match map (decimal 0) (split_on "." q) with
          | [a; b; c; d] => prefix +:+ toString16 (Z.lor (Z.shiftl a 8) b) +:+ ":" +:+ toString16 (Z.lor (Z.shiftl c 8) d)
          | _ => lower
          end
        else lower
    | None => lower
    end in
  match eight_groups text with Some groups => Some (map padStart4 groups) | None => None end.

Definition rateLimitIpKey (ip : string) : string :=
  let raw := trim ip in
  match mapped_quad raw with
  | Some v4 => v4
  | None =>
      if negb (isIP raw =? 6) then raw
      else match expandIpv6 (before "%" raw) with
           | None => to_lower raw
           | Some groups => String.concat ":" (map strip_zeros (firstn 4 groups)) +:+ "::/64"
           end
  end.

(** ** Proxies *)

Definition second_hex (c : ascii) (allowed : list ascii) : bool := existsb (Ascii.eqb c) allowed.
Definition is_hex_char (c : ascii) : bool := is_some (hex_val c).
Definition isLocalProxyAddress (addr : string) : bool :=
  if isIP addr =? 4 then
    match map (decimal 0) (split_on "." addr) with
    | a :: b :: _ =>
        (a =? 127) || (a =? 10) || ((a =? 172) && (16 <=? b) && (b <=? 31)) || ((a =? 192) && (b =? 168)) ||
        ((a =? 100) && (64 <=? b) && (b <=? 127)) || ((a =? 169) && (b =? 254))
    | _ => false
    end
  else
    let v6 := to_lower addr in
    String.eqb v6 "::1" ||
    match v6 with
    | String "f" (String c (String x (String y (String ":" _)))) =>
        (second_hex c ["c"; "d"]%char && is_hex_char x && is_hex_char y) ||
        (Ascii.eqb c "e" && second_hex x ["8"; "9"; "a"; "b"]%char && is_hex_char y)
    | _ => false
    end.

Record Cidr := { net : string; len : Z; family : Z }.
Fixpoint has_space (s : string) : bool := match s with EmptyString => false | String c r => ascii_space c || has_space r end.
(** [/^([^/\s]+)(?:\/(\d{1,3}))?$/] on the trimmed text. *)
Definition parseCidr (raw : string) : option Cidr :=
  let t := trim raw in
  let host := before "/" t in
  let prefix := after "/" t in
  if String.eqb host EmptyString || has_space host ||
     match prefix with Some p => negb (all_digits p && len_between 1 3 p) | None => false end then None
  else
    let fam := isIP host in
    if negb ((fam =? 4) || (fam =? 6)) then None
    else
      let width := if fam =? 4 then 32 else 128 in
      let l := match prefix with None => width | Some p => decimal 0 p end in
      if width <? l then None else Some {| net := host; len := l; family := fam |}.

(** [parseInt(g || '0', 16)] of a group: the longest hexadecimal prefix. *)
Fixpoint parse_hex (acc : Z) (g : string) : Z :=
  match g with
  | EmptyString => acc
  | String c r => match hex_val c with Some v => parse_hex (acc * 16 + v) r | None => acc end
  end.
Definition toBits (ip : string) (fam : Z) : option Z :=
  if fam =? 4 then Some (fold_left (fun acc o => Z.shiftl acc 8 + decimal 0 o) (split_on "." ip) 0)
  else match eight_groups (to_lower ip) with
       | Some groups => Some (fold_left (fun acc g => Z.shiftl acc 16 + parse_hex 0 g) groups 0)
       | None => None
       end.
Definition inCidrs (addr : string) (cidrs : list string) : bool :=
  let v := isIP addr in
  if v =? 0 then false
  else match toBits addr v with
       | None => false
       | Some a =>
           existsb (fun raw =>
             match parseCidr raw with
             | None => false
             | Some parsed =>
                 if negb (family parsed =? v) then false
                 else
                   let width := if v =? 4 then 32 else 128 in
                   match toBits (net parsed) v with
                   | None => false
                   | Some n => let shift := width - len parsed in Z.shiftr a shift =? Z.shiftr n shift
                   end
             end) cidrs
       end.

Definition normalizePeer (addr : option string) : option string :=
  match addr with
  | None => None
  | Some a =>
      if String.eqb a EmptyString then None
      else let out := or_else (mapped_quad a) a in if negb (isIP out =? 0) then Some out else None
  end.

(** ** Which address a request is attributed to *)

Record ClientIpOptions := {
  behindCloudflare : bool; trustedHeader : string; remoteAddr : option string; trustedProxies : list string
}.
Definition peer_is_proxy (peer : option string) (trusted : list string) : bool :=
  match peer with
  | None => true
  | Some p => if negb (is_nil trusted) then inCidrs p trusted else isLocalProxyAddress p
  end.
Definition nonempty_header (h : option string) : option string := if nonempty h then h else None.
Definition pickClientIp (headers : string -> option string) (opts : ClientIpOptions) : string :=
  let peer := normalizePeer (remoteAddr opts) in
  let fallback := or_else peer "unknown" in
  if peer_is_proxy peer (trustedProxies opts) then
    match (if behindCloudflare opts then nonempty_header (headers "cf-connecting-ip") else None) with
    | Some cf => cf
    | None =>
        match (if String.eqb (trustedHeader opts) EmptyString then None else nonempty_header (headers (trustedHeader opts))) with
        | Some h => h
        | None => fallback
        end
    end
  else fallback.
(** [(env.TRUSTED_PROXY_CIDRS ?? '').split(',').map(trim).filter(Boolean)] *)
Definition proxy_list (cidrs : option string) : list string :=
  List.filter (fun x => negb (String.eqb x EmptyString)) (map trim (split_on "," (or_else cidrs EmptyString))).
Record IngressEnv := { BEHIND_CLOUDFLARE : string; TRUSTED_PROXY_HEADER : string; TRUSTED_PROXY_CIDRS : option string }.
(** [socketAddress] is the peer of the raw request, [fallbackAddress] the test shell's. *)
Definition clientIp (env : IngressEnv) (headers : string -> option string) (socketAddress fallbackAddress : option string) : string :=
  pickClientIp headers
    {| behindCloudflare := String.eqb (BEHIND_CLOUDFLARE env) "1"; trustedHeader := TRUSTED_PROXY_HEADER env;
       remoteAddr := match socketAddress with Some a => Some a | None => fallbackAddress end;
       trustedProxies := proxy_list (TRUSTED_PROXY_CIDRS env) |}.
Definition isTrustedIngressPeer (env : IngressEnv) (socketAddress fallbackAddress : option string) : bool :=
  peer_is_proxy (normalizePeer (match socketAddress with Some a => Some a | None => fallbackAddress end)) (proxy_list (TRUSTED_PROXY_CIDRS env)).

Example keys :
  map rateLimitIpKey ["203.0.113.7"; " ::FFFF:1.2.3.4"; "2001:DB8:0:1::5"; "2001:db8:0:1:9::"; "::ffff:102:304"; "unknown"; "64:ff9b::1.2.3.4"]
  = ["203.0.113.7"; "1.2.3.4"; "2001:db8:0:1::/64"; "2001:db8:0:1::/64"; "0:0:0:0::/64"; "unknown"; "64:ff9b:0:0::/64"].
Proof. reflexivity. Qed.
Example cidr_samples :
  (inCidrs "10.1.2.3" ["10.0.0.0/8"], inCidrs "11.1.2.3" ["10.0.0.0/8"; "bad"], inCidrs "2001:db8::1" ["2001:db8::/32"], inCidrs "::1" ["::1"]) = (true, false, true, true).
Proof. reflexivity. Qed.
