(* ===== verification/ClientFacts.v ===== *)
(** Client addresses: two IPv6 clients share a rate-limit identity exactly when they
    share a /64, forged headers never move a request off its own address, and the
    built-in proxy ranges are the CIDR ranges they stand for. *)

From S2P Require Import Prelude NetAddress OutboundUrl NetFacts OutboundFacts ClientAddress.
From Stdlib Require Import ZArith Lia Bool Ascii String.
From stdpp Require Import base list strings pretty.
Local Open Scope string_scope.
Local Open Scope list_scope.
Local Open Scope Z_scope.

(** ** Hexadecimal groups *)

Definition range (n : nat) : list Z := map Z.of_nat (seq 0 n).
Lemma range_spec n x : x ∈ range n <-> 0 <= x < Z.of_nat n.
Proof.
  unfold range. rewrite list_elem_of_In, in_map_iff. split.
  - intros (y & <- & H%in_seq). lia.
  - intros H. exists (Z.to_nat x). rewrite Z2Nat.id by lia. split; [done|]. apply in_seq. lia.
Qed.
Lemma forallb_range (P : Z -> bool) n : forallb P (range n) = true -> forall x, 0 <= x < Z.of_nat n -> P x = true.
Proof. intros H x Hx. rewrite forallb_forall in H. by apply H, list_elem_of_In, range_spec. Qed.

Lemma lower_hex c v : hex_val c = Some v -> ascii_lower c = hex_char v.
Proof.
  assert (H : match hex_val c with Some v => Ascii.eqb (ascii_lower c) (hex_char v) | None => true end = true)
    by (destruct c as [[] [] [] [] [] [] [] []]; vm_compute; reflexivity).
  intros E. rewrite E in H. by apply Ascii.eqb_eq.
Qed.
Definition digit_ok (d : Z) : bool :=
  bool_decide (hex_val (hex_char d) = Some d) && negb (Ascii.eqb (hex_char d) ":") && ((d =? 0) || negb (Ascii.eqb (hex_char d) "0")).
Lemma digit_char d : 0 <= d < 16 -> hex_val (hex_char d) = Some d /\ Ascii.eqb (hex_char d) ":" = false /\ (d <> 0 -> hex_char d <> "0"%char).
Proof.
  intros Hd. assert (H : digit_ok d = true) by (apply (forallb_range digit_ok 16); [vm_compute; reflexivity|done]).
  unfold digit_ok in H. bool_props. split; [by apply bool_decide_eq_true in H|]. split; [done|]. intros Hn E. rewrite E in *.
  match goal with X : _ || _ = true |- _ => apply orb_true_iff in X as [X|X] end; bool_props; done.
Qed.

Definition four (a b c d : Z) : string := String (hex_char a) (String (hex_char b) (String (hex_char c) (String (hex_char d) EmptyString))).
Lemma strip_other c r : c <> "0"%char -> strip_zeros (String c r) = String c r.
Proof. intros H. destruct c as [[] [] [] [] [] [] [] []]; try reflexivity. done. Qed.
Lemma hex_digits_step f m d : 0 <= m -> 0 <= d < 16 ->
  hex_digits (S f) (m * 16 + d) = (if m =? 0 then EmptyString else hex_digits f m) +:+ String (hex_char d) EmptyString.
Proof.
  intros Hm Hd. cbn [hex_digits]. replace ((m * 16 + d) / 16) with m by (Z.div_mod_to_equations; lia).
  replace ((m * 16 + d) mod 16) with d by (Z.div_mod_to_equations; lia). destruct (Z.ltb_spec (m * 16 + d) 16), (Z.eqb_spec m 0); (done || lia).
Qed.
(** The canonical text of a group: its four digits without the leading zeros. *)
Lemma four_stripped a b c d : 0 <= a < 16 -> 0 <= b < 16 -> 0 <= c < 16 -> 0 <= d < 16 ->
  strip_zeros (four a b c d) = toString16 (number 16 [a; b; c; d]).
Proof.
  intros Ha Hb Hc Hd. unfold toString16. change (number 16 [a; b; c; d]) with (((a * 16 + b) * 16 + c) * 16 + d).
  rewrite !hex_digits_step by lia. cbn [hex_digits]. unfold four.
  rewrite (Z.mod_small a 16), (proj2 (Z.ltb_lt a 16)) by lia.
  destruct (Z.eqb_spec a 0) as [->|Na].
  - destruct (Z.eqb_spec b 0) as [->|Nb].
    + destruct (Z.eqb_spec c 0) as [->|Nc].
      * change (strip_zeros (String (hex_char d) EmptyString) = String (hex_char d) EmptyString). destruct (Z.eq_dec d 0) as [->|Nd]; [done|].
        apply strip_other. by apply digit_char.
      * rewrite (proj2 (Z.eqb_neq _ 0)) by lia. change (strip_zeros (String (hex_char c) (String (hex_char d) EmptyString)) = String (hex_char c) (String (hex_char d) EmptyString)).
        apply strip_other. by apply digit_char.
    + rewrite !(proj2 (Z.eqb_neq _ 0)) by lia.
      change (strip_zeros (String (hex_char b) (String (hex_char c) (String (hex_char d) EmptyString))) = String (hex_char b) (String (hex_char c) (String (hex_char d) EmptyString))).
      apply strip_other. by apply digit_char.
  - rewrite !(proj2 (Z.eqb_neq _ 0)) by lia. apply strip_other. by apply digit_char.
Qed.
Lemma hex_snoc t x z : 0 <= x < 16 -> hex z (t +:+ String (hex_char x) EmptyString) = hex z t * 16 + x.
Proof.
  intros Hx. destruct (digit_char x Hx) as (X & _). revert z. induction t as [|y t IH]; intros z; [rewrite append_empty; cbn; by rewrite X|].
  rewrite append_cons. cbn [hex]. apply IH.
Qed.
Lemma colon_snoc t x : 0 <= x < 16 -> has_char ":" (t +:+ String (hex_char x) EmptyString) = has_char ":" t.
Proof.
  intros Hx. destruct (digit_char x Hx) as (_ & X & _). induction t as [|y t IH]; [rewrite append_empty; cbn [has_char]; by rewrite X|].
  rewrite append_cons. cbn [has_char]. by rewrite IH.
Qed.
Lemma group_text g : 0 <= g < 65536 -> hex 0 (toString16 g) = g /\ has_char ":" (toString16 g) = false.
Proof.
  intros Hg. unfold toString16.
  assert (G : forall f n, 0 <= n < 16 ^ Z.of_nat f -> hex 0 (hex_digits f n) = n /\ has_char ":" (hex_digits f n) = false).
  { clear. induction f as [|f IH]; intros n Hn; [cbn in *; split; [lia|done]|]. cbn [hex_digits].
    rewrite hex_snoc, colon_snoc by (Z.div_mod_to_equations; lia). destruct (Z.ltb_spec n 16).
    - cbn. split; [Z.div_mod_to_equations; lia|done].
    - rewrite Nat2Z.inj_succ, Z.pow_succ_r in Hn by lia. destruct (IH (n / 16)) as [-> ->]; [split; [apply Z.div_pos; lia|apply Z.div_lt_upper_bound; lia]|].
      split; [Z.div_mod_to_equations; lia|done]. }
  apply (G 4%nat). exact Hg.
Qed.

(** A hexadecimal text as its digits. *)
Fixpoint digits (s : string) : list Z := match s with EmptyString => [] | String c r => or_else (hex_val c) 0 :: digits r end.
Fixpoint digit_text (l : list Z) : string := match l with [] => EmptyString | d :: r => String (hex_char d) (digit_text r) end.
Lemma digits_spec s : all_hex s = true ->
  to_lower s = digit_text (digits s) /\ Forall (fun d => 0 <= d < 16) (digits s) /\ length (digits s) = String.length s /\
  forall acc, hex acc s = fold_left (fun a d => a * 16 + d) (digits s) acc.
Proof.
  unfold to_lower. induction s as [|c r IH]; cbn; [auto|]. intros [Hc Hr]%andb_true_iff. destruct (IH Hr) as (-> & F & -> & G).
  destruct (hex_val c) as [v|] eqn:Ev; [|done]. cbn. rewrite (lower_hex _ _ Ev). split_and!; auto. constructor; [by eapply hex_val_bound|done].
Qed.
Lemma zeros_text n l : String.concat EmptyString (repeat "0" n) +:+ digit_text l = digit_text (repeat 0 n ++ l).
Proof.
  induction n as [|n IH]; [done|]. cbn [repeat app digit_text]. rewrite <- IH. destruct n; done.
Qed.
Lemma number_zeros n l : number 16 (repeat 0 n ++ l) = number 16 l.
Proof. unfold number. rewrite fold_left_app. f_equal. induction n; cbn; auto. Qed.

Lemma group_stripped p g : hextet p = Some g -> strip_zeros (padStart4 (to_lower p)) = toString16 g.
Proof.
  intros Hh. pose proof (hextet_bound _ _ Hh) as Bg. unfold hextet, len_between in Hh. destruct (all_hex p && _) eqn:E; [|done]. simplify_eq. nat_props.
  destruct (digits_spec p) as (L & F & N & G); [done|]. unfold padStart4. rewrite length_lower, L, zeros_text, G.
  set (ds := repeat 0 (4 - String.length p) ++ digits p).
  assert (V : fold_left (fun a d => a * 16 + d) (digits p) 0 = number 16 ds) by (unfold ds; by rewrite number_zeros).
  assert (Ld : length ds = 4%nat) by (unfold ds; rewrite length_app, repeat_length, N; lia).
  assert (Fd : Forall (fun d => 0 <= d < 16) ds).
  { apply Forall_app. split; [|done]. apply List.Forall_forall. intros x ->%repeat_spec. lia. }
  rewrite V. rewrite G, V in Bg. clearbody ds. clear -Ld Fd Bg. destruct ds as [|a [|b [|c [|d [|]]]]]; try discriminate.
  repeat match goal with X : Forall _ (_ :: _) |- _ => inversion_clear X end.
  by apply four_stripped.
Qed.

(** ** The rate-limit identity of an IPv6 address *)

Definition no_dot (s : string) : Prop := has_char "." s = false.

Lemma dcolon_no_dot s : no_dot s -> Forall no_dot (split_dcolon s).
Proof.
  unfold no_dot. remember (String.length s) as n eqn:En. assert (Hn : (String.length s <= n)%nat) by lia. clear En. revert s Hn.
  assert (S1 : forall c l, Ascii.eqb c "." = false -> Forall (fun s => has_char "." s = false) l -> Forall (fun s => has_char "." s = false) (snoc_head c l)).
  { intros c [|p ps] Hc F; cbn; [by constructor; [cbn; rewrite Hc|]|]. inversion_clear F. constructor; [cbn; by rewrite Hc|done]. }
  induction n as [|n IH]; intros [|c r] Hn H; [by constructor|cbn in Hn; lia|by constructor|]. cbn in Hn. cbn [has_char] in H. apply orb_false_iff in H as [Hc H].
  destruct (colon_inv c) as [->|Hcc].
  - destruct r as [|c' r']; [by repeat constructor|]. destruct (colon_inv c') as [->|Hc'].
    + cbn [split_dcolon]. constructor; [done|]. apply IH; [cbn in Hn; lia|]. cbn [has_char] in H. by apply orb_false_iff in H as [_ H].
    + rewrite split_dcolon_one by done. apply S1; [done|]. apply IH; [lia|done].
  - rewrite split_dcolon_other by done. apply S1; [done|]. apply IH; [lia|done].
Qed.
Lemma split_no_dot s : no_dot s -> Forall no_dot (split_on ":" s).
Proof.
  unfold no_dot. rewrite (has_char_parts ":" "." s eq_refl). intros H. apply Forall_forall. intros p Hp. apply not_true_iff_false. intros E.
  apply not_true_iff_false in H. apply H. apply existsb_exists. exists p. by rewrite <- list_elem_of_In.
Qed.

Definition shown (p : string) : string := strip_zeros (padStart4 (to_lower p)).
Lemma groups_shown ok parts gs : groups_of ok parts = Some gs -> Forall no_dot parts -> map shown parts = map toString16 gs.
Proof.
  revert gs. induction parts as [|p rest IH]; intros gs H F; cbn [groups_of] in H; [by simplify_eq|]. inversion_clear F as [|? ? Hp Hr].
  destruct (hextet p) as [g|] eqn:E.
  - destruct (groups_of ok rest) as [gs'|] eqn:Er; [|done]. simplify_eq. cbn [map]. rewrite (IH gs') by done. f_equal. by apply group_stripped.
  - destruct rest; [|done]. destruct (quad p) as [q|] eqn:Eq; [|done]. apply quad_spec in Eq as (_ & _ & Hd & _). unfold no_dot in Hp. congruence.
Qed.
Lemma side_shown ok part gs : side ok part = Some gs -> no_dot part -> map shown (split_side part) = map toString16 gs.
Proof.
  unfold side, split_side. destruct (String.eqb part EmptyString); [intros; by simplify_eq|]. intros H Hd. eapply groups_shown; [exact H|by apply split_no_dot].
Qed.
Lemma split_side_lower p : split_side (to_lower p) = map to_lower (split_side p).
Proof. unfold split_side. rewrite lower_empty. destruct (String.eqb p EmptyString); [done|]. apply split_on_lower, lower_colon. Qed.

Lemma eight_groups_shown base gs : v6_groups base = Some gs -> no_dot base ->
  exists parts, eight_groups (to_lower base) = Some parts /\ map (fun p => strip_zeros (padStart4 p)) parts = map toString16 gs.
Proof.
  intros H Hd. apply dcolon_no_dot in Hd. unfold eight_groups, v6_groups in *. rewrite split_dcolon_lower.
  assert (M : forall l, map (fun p => strip_zeros (padStart4 p)) (map to_lower l) = map shown l) by (intros; by rewrite map_map).
  destruct (split_dcolon base) as [|h [|t [|]]]; try done; cbn [map length nth Nat.leb].
  - destruct (groups_of true (split_on ":" h)) as [l|] eqn:E; [|done]. destruct (Nat.eqb_spec (length l) 8) as [L|]; [|done]. simplify_eq.
    assert (Hs : side true h = Some gs) by (unfold side; destruct (String.eqb_spec h EmptyString) as [->|]; [|done]; cbn in E; done).
    inversion_clear Hd. rewrite split_side_lower. pose proof (side_shown _ _ _ Hs ltac:(done)) as S. exists (map to_lower (split_side h)). rewrite M. split; [|done].
    rewrite length_map. assert (length (split_side h) = 8%nat) as -> by (rewrite <- L, <- (length_map toString16), <- S; by rewrite length_map). done.
  - destruct (side false h) as [hs|] eqn:Eh; [|done]. destruct (side true t) as [ts|] eqn:Et; [|done].
    destruct (Nat.leb_spec (length hs + length ts) 7) as [L|]; [|done]. simplify_eq. inversion_clear Hd as [|? ? D1 D2]. inversion_clear D2 as [|? ? D3 _].
    pose proof (side_shown _ _ _ Eh D1) as S1. pose proof (side_shown _ _ _ Et D3) as S2. rewrite !split_side_lower.
    assert (L1 : length (split_side h) = length hs) by (rewrite <- (length_map toString16 hs), <- S1; by rewrite length_map).
    assert (L2 : length (split_side t) = length ts) by (rewrite <- (length_map toString16 ts), <- S2; by rewrite length_map).
    rewrite !length_map, L1, L2. exists (map to_lower (split_side h) ++ repeat "0" (8 - length hs - length ts) ++ map to_lower (split_side t)). split.
    + rewrite !length_app, !length_map, repeat_length, L1, L2. by replace (length hs + (8 - length hs - length ts + length ts))%nat with 8%nat by lia.
    + rewrite !map_app, !M, S1, S2. do 2 f_equal. generalize (8 - length hs - length ts)%nat. clear. induction n as [|n IH]; cbn; [done|]. by f_equal.
Qed.

Lemma last_colon_no_dot s p q : after_last_colon s = Some (p, q) -> no_dot s -> no_dot q.
Proof.
  unfold no_dot. revert p q. induction s as [|c r IH]; intros p q H Hd; cbn in *; [done|]. apply orb_false_iff in Hd as [_ Hd].
  destruct (after_last_colon r) as [[p' q']|]; [simplify_eq; by eapply IH|]. destruct (Ascii.eqb c ":"); by simplify_eq.
Qed.
Lemma digits_quad_dot s : digits_quad s = true -> has_char "." s = true.
Proof.
  unfold digits_quad. intros [L _]%andb_true_iff. apply Nat.eqb_eq in L. destruct (has_char "." s) eqn:E; [done|]. by rewrite split_on_whole in L.
Qed.
Lemma substring_no_dot n m s : no_dot s -> no_dot (String.substring n m s).
Proof.
  unfold no_dot. revert n m. induction s as [|c r IH]; intros n m H; [by destruct n, m|]. cbn [has_char] in H. apply orb_false_iff in H as [Hc H].
  destruct n as [|n]; [|by apply IH]. destruct m as [|m]; [done|]. cbn [String.substring has_char]. rewrite Hc. by apply IH.
Qed.
Lemma before_no_dot x s : no_dot s -> no_dot (before x s).
Proof.
  unfold no_dot. induction s as [|c r IH]; cbn [before has_char]; [done|]. intros [Hc H]%orb_false_iff. destruct (Ascii.eqb c x); [done|].
  cbn [has_char]. by rewrite Hc, IH.
Qed.

(** The key of an IPv6 address written in hexadecimal groups is its first four groups. *)
Lemma ip_key_v6 s gs : ipv6_value (trim s) = Some gs -> no_dot (trim s) ->
  rateLimitIpKey s = String.concat ":" (map toString16 (firstn 4 gs)) +:+ "::/64".
Proof.
  intros H Hd. unfold rateLimitIpKey. set (raw := trim s) in *.
  assert (M : mapped_quad raw = None).
  { unfold mapped_quad. destruct (String.eqb _ _); [|done]. destruct (digits_quad _) eqn:E; [|done]. apply digits_quad_dot in E.
    pose proof (substring_no_dot 7 (String.length raw - 7) raw Hd) as N. unfold no_dot in N. congruence. }
  assert (Q : quad raw = None) by (destruct (quad raw) eqn:E; [|done]; apply quad_spec in E as (_ & _ & E & _); unfold no_dot in Hd; congruence).
  rewrite M, isIP_6. unfold ipv4_value. rewrite Q, H. cbn [is_some negb andb].
  unfold ipv6_value in H. destruct (zone_ok raw); [|done]. pose proof (before_no_dot "%" raw Hd) as Hb.
  destruct (eight_groups_shown _ _ H Hb) as (parts & E & S). unfold expandIpv6.
  assert (T : forall A (x y : A), match after_last_colon (to_lower (before "%" raw)) with Some (_, q) => if digits_quad q then x else y | None => y end = y).
  { intros A x y. destruct (after_last_colon (to_lower (before "%" raw))) as [[p q]|] eqn:El; [|done]. destruct (digits_quad q) eqn:Eq; [|done].
    apply digits_quad_dot in Eq. apply last_colon_no_dot in El; [unfold no_dot in El; congruence|]. unfold no_dot. by rewrite (has_char_lower "." _ lower_dot). }
  replace (match after_last_colon (to_lower (before "%" raw)) with Some (prefix, q) => _ | None => _ end) with (to_lower (before "%" raw)).
  2: { destruct (after_last_colon (to_lower (before "%" raw))) as [[p q]|] eqn:El; [|done]. specialize (T bool true false). destruct (digits_quad q); [done|done]. }
  rewrite E. do 2 f_equal. rewrite <- (map_map padStart4 strip_zeros) in S. rewrite <- firstn_map, <- firstn_map. by rewrite <- S.
Qed.

Lemma v6_value_groups s gs : ipv6_value s = Some gs -> exists a b c d rest, gs = a :: b :: c :: d :: rest /\ Forall (fun x => 0 <= x < 65536) [a; b; c; d].
Proof.
  unfold ipv6_value. destruct (zone_ok s); [|done]. intros H.
  assert (G : length gs = 8%nat /\ Forall (fun x => 0 <= x < 65536) gs).
  { destruct (v6_chars _ _ H) as [C _]. apply (v6_groups_bytes _ _ H). clear -C. induction (before "%" s) as [|c r IH]; cbn in *; [done|].
    apply andb_true_iff in C as [Hc C]. rewrite ip_char_not_percent by done. by apply IH. }
  destruct G as [L F]. destruct (groups8 _ _ L F) as (a & b & c & d & e & f & g & h & -> & F8). exists a, b, c, d, [e; f; g; h]. split; [done|].
  repeat match goal with X : Forall _ (_ :: _) |- _ => inversion_clear X end. auto 10.
Qed.
Lemma key_parts a b c d : Forall (fun x => 0 <= x < 65536) [a; b; c; d] ->
  split_on ":" (String.concat ":" (map toString16 [a; b; c; d]) +:+ "::/64") = map toString16 [a; b; c; d] ++ [EmptyString; "/64"].
Proof.
  intros F. repeat match goal with X : Forall _ (_ :: _) |- _ => inversion_clear X end. cbn [map app String.concat].
  assert (E : forall x y z, (x +:+ y) +:+ z = x +:+ (y +:+ z)) by (intros x y z; induction x as [|ch x IH]; [done|]; by rewrite !append_cons, IH).
  change (split_on ":" ((toString16 a +:+ ":" +:+ toString16 b +:+ ":" +:+ toString16 c +:+ ":" +:+ toString16 d) +:+ "::/64")
          = [toString16 a; toString16 b; toString16 c; toString16 d; EmptyString; "/64"]).
  rewrite !E.
  change (split_on ":" (toString16 a +:+ String ":" (toString16 b +:+ String ":" (toString16 c +:+ String ":" (toString16 d +:+ String ":" ":/64"))))
          = [toString16 a; toString16 b; toString16 c; toString16 d; EmptyString; "/64"]).
  rewrite !split_on_app by (apply group_text; lia). done.
Qed.

(** An IPv6 client cannot buy a fresh rate-limit budget by rotating its address, and
    strangers do not share one: whatever the case, zero compression or zone the two
    addresses are written with, they have the same key exactly when their first 64
    bits agree; an IPv4 address is its own key. *)
Theorem ip_key_is_subnet (s t : string) (gs hs : list Z) :
  no_dot (trim s) -> no_dot (trim t) -> ipv6_value (trim s) = Some gs -> ipv6_value (trim t) = Some hs ->
  (rateLimitIpKey s = rateLimitIpKey t <-> firstn 4 gs = firstn 4 hs) /\
  (forall v4, isIP (trim v4) = 4 -> rateLimitIpKey v4 = trim v4).
Proof.
  intros Ds Dt Hs Ht. split.
  - rewrite (ip_key_v6 s gs), (ip_key_v6 t hs) by done.
    destruct (v6_value_groups _ _ Hs) as (a & b & c & d & r & -> & F). destruct (v6_value_groups _ _ Ht) as (a' & b' & c' & d' & r' & -> & F').
    cbn [firstn]. rewrite !firstn_O. split; [|by intros ->]. intros E. apply (f_equal (split_on ":")) in E. rewrite !key_parts in E by done. cbn [map app] in E.
    injection E as E1 E2 E3 E4. repeat match goal with X : Forall _ (_ :: _) |- _ => inversion_clear X end.
    assert (N : forall x y, 0 <= x < 65536 -> 0 <= y < 65536 -> toString16 x = toString16 y -> x = y).
    { intros x y Hx Hy Exy. rewrite <- (proj1 (group_text x Hx)), <- (proj1 (group_text y Hy)). by rewrite Exy. }
    f_equal; [by apply N|]. f_equal; [by apply N|]. f_equal; [by apply N|]. f_equal. by apply N.
  - intros v4 H4. unfold rateLimitIpKey. assert (E : (isIP (trim v4) =? 4) = true) by (by apply Z.eqb_eq). rewrite isIP_4 in E. unfold ipv4_value in E.
    destruct (quad (trim v4)) as [q|] eqn:Eq; [|done]. apply quad_spec in Eq as (_ & _ & _ & Hc & _).
    assert (M : mapped_quad (trim v4) = None).
    { unfold mapped_quad. destruct (String.eqb_spec (to_lower (String.substring 0 7 (trim v4))) "::ffff:") as [E'|]; [|done]. exfalso.
      destruct (trim v4) as [|c r]; [done|]. cbn in E'. injection E' as E' _. cbn [has_char] in Hc. apply orb_false_iff in Hc as [Hc _].
      rewrite <- lower_colon, E' in Hc. done. }
    by rewrite M, H4.
Qed.
Lemma ip_key_is_subnet_witness :
  (rateLimitIpKey "2001:DB8:0:1::5" = rateLimitIpKey "2001:db8:0:1:ffff::%eth0" <-> firstn 4 [8193; 3512; 0; 1; 0; 0; 0; 5] = firstn 4 [8193; 3512; 0; 1; 65535; 0; 0; 0]) /\
  rateLimitIpKey "198.51.100.7" = "198.51.100.7".
Proof.
  destruct (ip_key_is_subnet "2001:DB8:0:1::5" "2001:db8:0:1:ffff::%eth0" [8193; 3512; 0; 1; 0; 0; 0; 5] [8193; 3512; 0; 1; 65535; 0; 0; 0]) as [H1 H2];
    [reflexivity|reflexivity|reflexivity|reflexivity|]. split; [exact H1|exact (H2 "198.51.100.7" eq_refl)].
Defined.

(** ** Attribution *)

(** The built-in proxy ranges. *)
Definition local_cidrs : list string :=
  ["127.0.0.0/8"; "10.0.0.0/8"; "172.16.0.0/12"; "192.168.0.0/16"; "100.64.0.0/10"; "169.254.0.0/16"].

Lemma quad_octets s q : quad s = Some q -> map (decimal 0) (split_on "." s) = q.
Proof.
  unfold quad. destruct (_ =? 4)%nat; [|done]. intros H%sequence_Forall2. induction H as [|p v ps vs E _ IH]; [done|]. cbn. rewrite IH.
  unfold octet in E. by destruct (_ && _); simplify_eq.
Qed.
Lemma bits_v4 s q : quad s = Some q -> toBits s 4 = Some (number 256 q).
Proof.
  intros H. pose proof (quad_octets _ _ H) as E. unfold toBits, number. cbn [Z.eqb Pos.eqb]. f_equal. rewrite <- E. clear.
  assert (G : forall l z, fold_left (fun acc o => Z.shiftl acc 8 + decimal 0 o) l z = fold_left (fun acc d => acc * 256 + d) (map (decimal 0) l) z).
  { induction l as [|p ps IH]; intros z; cbn [map fold_left]; [done|]. rewrite Z.shiftl_mul_pow2 by lia. apply IH. }
  apply G.
Qed.
Lemma local_is_cidrs addr : isIP addr = 4 -> isLocalProxyAddress addr = inCidrs addr local_cidrs.
Proof.
  intros H. unfold isLocalProxyAddress, inCidrs. rewrite H. change (4 =? 4) with true. change (4 =? 0) with false. cbv iota.
  assert (E : (isIP addr =? 4) = true) by (by rewrite H). rewrite isIP_4 in E. unfold ipv4_value in E. destruct (quad addr) as [q|] eqn:Eq; [|done].
  rewrite (bits_v4 _ _ Eq), (quad_octets _ _ Eq). destruct (quad_spec _ _ Eq) as (_ & _ & _ & _ & _ & a & b & c & d & -> & F).
  repeat match goal with X : Forall _ (_ :: _) |- _ => inversion_clear X end.
  unfold local_cidrs. cbn [existsb].
  repeat match goal with |- context [parseCidr ?t] => let v := eval vm_compute in (parseCidr t) in change (parseCidr t) with v end.
  cbn [family net len]. change (4 =? 4) with true. cbv iota beta.
  change (negb true) with false. cbv iota.
  repeat match goal with |- context [toBits ?t 4] => let v := eval vm_compute in (toBits t 4) in change (toBits t 4) with v end. cbv iota.
  rewrite !Z.shiftr_div_pow2 by lia. change (number 256 [a; b; c; d]) with (((a * 256 + b) * 256 + c) * 256 + d).
  repeat match goal with |- context [2 ^ (32 - ?k)] => let v := eval vm_compute in (2 ^ (32 - k)) in change (2 ^ (32 - k)) with v end.
  rewrite orb_false_r, <- !orb_assoc. repeat (apply (f_equal2 orb); [apply bool_iff; rewrite ?andb_true_iff, ?Z.eqb_eq, ?Z.leb_le; Z.div_mod_to_equations; lia|]).
  apply bool_iff; rewrite ?andb_true_iff, ?Z.eqb_eq; Z.div_mod_to_equations; lia.
Qed.

(** No header moves a request off its own address: a request whose TCP peer is an
    address outside the deployment's proxies is attributed to that peer whatever
    headers it carries. Without configured proxies those are, for an IPv4 peer, the
    loopback, private, shared and link-local ranges, and nothing else. *)
Theorem client_ip_unforgeable (env : IngressEnv) (headers : string -> option string) (socket fallback : option string) (peer : string) :
  normalizePeer (match socket with Some a => Some a | None => fallback end) = Some peer ->
  (isTrustedIngressPeer env socket fallback = false -> clientIp env headers socket fallback = peer) /\
  (isIP peer = 4 -> proxy_list (TRUSTED_PROXY_CIDRS env) = [] -> isTrustedIngressPeer env socket fallback = inCidrs peer local_cidrs).
Proof.
  unfold isTrustedIngressPeer, clientIp, pickClientIp. cbn [remoteAddr trustedProxies]. intros ->. split.
  - by intros ->.
  - intros H4 ->. cbn. by apply local_is_cidrs.
Qed.
Lemma client_ip_unforgeable_witness :
  clientIp {| BEHIND_CLOUDFLARE := "1"; TRUSTED_PROXY_HEADER := "x-real-ip"; TRUSTED_PROXY_CIDRS := None |} (fun _ => Some "10.0.0.1") (Some "::ffff:203.0.113.9") None
  = "203.0.113.9".
Proof.
  apply (client_ip_unforgeable {| BEHIND_CLOUDFLARE := "1"; TRUSTED_PROXY_HEADER := "x-real-ip"; TRUSTED_PROXY_CIDRS := None |} (fun _ => Some "10.0.0.1")
           (Some "::ffff:203.0.113.9") None "203.0.113.9"); reflexivity.
Defined.
(** [inCidrs] reads the dotted tail of an IPv6 text as one hexadecimal group: such an
    address misses its own network and matches an unrelated one. *)
Theorem dotted_tail_misread :
  isIP "64:ff9b::10.0.0.1" = 6 /\ inCidrs "64:ff9b::10.0.0.1" ["64:ff9b::a00:1/128"] = false /\ inCidrs "64:ff9b::10.0.0.1" ["64:ff9b::10/128"] = true.
Proof. vm_compute. auto. Qed.
