(* ===== verification/RateBudgets.v ===== *)
(** The budgets built on the rate-limit storage ([auth/rate-limit.ts]): sign-in and
    checkout attempts, gift-card probing, webhook signatures, and the three-bucket
    gate of admin credential checks; proved against what the storage promises, which
    the in-memory backend and the Postgres table discharge. *)

From S2P Require Import Prelude NetAddress ClientAddress RateLimit.
From Stdlib Require Import ZArith Lia Bool Ascii String.
From stdpp Require Import base list strings gmap.
Local Open Scope string_scope.
Local Open Scope list_scope.
Local Open Scope Z_scope.

Definition WINDOW_MS : Z := 15 * 60 * 1000.
Definition MAX_FAILURES : Z := 8.
Definition BUCKET : string := "auth".
Definition CHECKOUT_IP_BUCKET : string := "checkout-ip".
Definition CHECKOUT_IP_MAX_ATTEMPTS : Z := 50.
Definition CUSTOMER_AUTH_IP_BUCKET : string := "auth-ip".
Definition CUSTOMER_AUTH_IP_MAX_FAILURES : Z := 40.
Definition GIFT_CARD_BUCKET : string := "gift-card".
Definition GIFT_CARD_WINDOW_MS : Z := 60 * 60 * 1000.
Definition GIFT_CARD_MAX_LOOKUPS : Z := 60.
Definition GIFT_CARD_MAX_MISSES : Z := 10.
Definition WEBHOOK_SIG_BUCKET : string := "webhook-signature".
Definition WEBHOOK_SIG_WINDOW_MS : Z := 60 * 1000.
Definition WEBHOOK_SIG_MAX_FAILURES : Z := 20.
Definition CHECK_EMAIL_BUCKET : string := "check-email".
Definition CHECK_EMAIL_WINDOW_MS : Z := 60 * 1000.
Definition CHECK_EMAIL_MAX_ATTEMPTS : Z := 10.
Definition ACCOUNT_BUCKET : string := "admin-auth-account".
Definition IP_BUCKET : string := "admin-auth-ip".
Definition KNOWN_BUCKET : string := "admin-auth-known".
Definition ACCOUNT_WINDOW_MS : Z := 60 * 60 * 1000.
Definition IP_WINDOW_MS : Z := 15 * 60 * 1000.
Definition KNOWN_WINDOW_MS : Z := 30 * 24 * 60 * 60 * 1000.
Definition RESET_BUCKET : string := "admin-reset".

Section Budgets.
Context {S E : Type} `{RateLimitBackend S E}.
(** [createHash('sha256')…digest('hex')], and the two configured caps. *)
Context (sha256 : string -> string) (ADMIN_AUTH_IP_MAX_FAILURES ADMIN_AUTH_ACCOUNT_MAX_FAILURES : Z).

Definition boundIdentifier (identifier : string) : string :=
  let lower := to_lower identifier in
  if (String.length lower <=? 320)%nat then lower else "sha256:" +:+ sha256 lower.
Definition keyFor (ip identifier : string) : string := rateLimitIpKey ip +:+ "|" +:+ boundIdentifier identifier.

(** [env i] is what the [i]-th storage call of the function sees. *)
Definition attemptRetryAfter (env : nat -> E) (ip identifier : string) (s : S) : Z * S :=
  consume (env 0%nat) BUCKET (keyFor ip identifier) WINDOW_MS MAX_FAILURES s.
Definition checkoutIpRetryAfter (env : nat -> E) (ip storeId : string) (s : S) : Z * S :=
  consume (env 0%nat) CHECKOUT_IP_BUCKET (keyFor ip storeId) WINDOW_MS CHECKOUT_IP_MAX_ATTEMPTS s.
Definition loginRetryAfter (env : nat -> E) (ip identifier : string) (s : S) : Z * S :=
  if String.prefix "checkout:" identifier || String.prefix "pay:" identifier then attemptRetryAfter env ip identifier s
  else check (env 0%nat) BUCKET (keyFor ip identifier) WINDOW_MS MAX_FAILURES s.
Definition recordLoginFailure (env : nat -> E) (ip identifier : string) (s : S) : S := recordFailure (env 0%nat) BUCKET (keyFor ip identifier) WINDOW_MS s.
Definition clearLoginAttempts (env : nat -> E) (ip identifier : string) (s : S) : S := clear (env 0%nat) BUCKET (keyFor ip identifier) s.

Definition customerAuthIpRetryAfter (env : nat -> E) (ip : string) (s : S) : Z * S :=
  check (env 0%nat) CUSTOMER_AUTH_IP_BUCKET (rateLimitIpKey ip) WINDOW_MS CUSTOMER_AUTH_IP_MAX_FAILURES s.
Definition recordCustomerAuthIpFailure (env : nat -> E) (ip : string) (s : S) : S :=
  recordFailure (env 0%nat) CUSTOMER_AUTH_IP_BUCKET (rateLimitIpKey ip) WINDOW_MS s.

Definition giftCardLookupRetryAfter (env : nat -> E) (ip storeId : string) (s : S) : Z * S :=
  let who := storeId +:+ "|" +:+ rateLimitIpKey ip in
  let '(misses, s) := check (env 0%nat) GIFT_CARD_BUCKET ("miss:" +:+ who) GIFT_CARD_WINDOW_MS GIFT_CARD_MAX_MISSES s in
  if 0 <? misses then (misses, s)
  else consume (env 1%nat) GIFT_CARD_BUCKET ("lookup:" +:+ who) GIFT_CARD_WINDOW_MS GIFT_CARD_MAX_LOOKUPS s.
Definition recordGiftCardMiss (env : nat -> E) (ip storeId : string) (s : S) : S :=
  recordFailure (env 0%nat) GIFT_CARD_BUCKET ("miss:" +:+ storeId +:+ "|" +:+ rateLimitIpKey ip) GIFT_CARD_WINDOW_MS s.

Definition webhookSignatureRetryAfter (env : nat -> E) (provider ip : string) (s : S) : Z * S :=
  check (env 0%nat) WEBHOOK_SIG_BUCKET (provider +:+ "|" +:+ rateLimitIpKey ip) WEBHOOK_SIG_WINDOW_MS WEBHOOK_SIG_MAX_FAILURES s.
Definition recordWebhookSignatureFailure (env : nat -> E) (provider ip : string) (s : S) : S :=
  recordFailure (env 0%nat) WEBHOOK_SIG_BUCKET (provider +:+ "|" +:+ rateLimitIpKey ip) WEBHOOK_SIG_WINDOW_MS s.
Definition checkEmailRetryAfter (env : nat -> E) (ip : string) (s : S) : Z * S :=
  consume (env 0%nat) CHECK_EMAIL_BUCKET (rateLimitIpKey ip) CHECK_EMAIL_WINDOW_MS CHECK_EMAIL_MAX_ATTEMPTS s.

(** ** Admin credential checks *)

Definition adminKey (account : string) : string := "admin:" +:+ boundIdentifier account.
Definition knownKey (ip account : string) : string := adminKey account +:+ "|" +:+ rateLimitIpKey ip.
Definition isKnownAdminNetwork (e : E) (ip account : string) (s : S) : bool * S :=
  let '(r, s) := check e KNOWN_BUCKET (knownKey ip account) KNOWN_WINDOW_MS 1 s in (0 <? r, s).

Definition reserveAdminAuthAttempt (env : nat -> E) (ip account : string) (s : S) : Z * S :=
  let '(perIp, s) := consume (env 0%nat) IP_BUCKET (rateLimitIpKey ip) IP_WINDOW_MS ADMIN_AUTH_IP_MAX_FAILURES s in
  if 0 <? perIp then (perIp, s)
  else
    let '(known, s) := isKnownAdminNetwork (env 1%nat) ip account s in
    let '(acct, s) :=
      if known then (0, s) else consume (env 2%nat) ACCOUNT_BUCKET (adminKey account) ACCOUNT_WINDOW_MS ADMIN_AUTH_ACCOUNT_MAX_FAILURES s in
    if 0 <? acct then (acct, s) else consume (env 3%nat) BUCKET (keyFor ip (adminKey account)) WINDOW_MS MAX_FAILURES s.
Definition reserveAdminSecondStepAttempt (env : nat -> E) (ip : string) (account : option string) (s : S) : Z * S :=
  match account with
  | Some a => if nonempty account then reserveAdminAuthAttempt env ip a s
              else consume (env 0%nat) IP_BUCKET (rateLimitIpKey ip) IP_WINDOW_MS ADMIN_AUTH_IP_MAX_FAILURES s
  | None => consume (env 0%nat) IP_BUCKET (rateLimitIpKey ip) IP_WINDOW_MS ADMIN_AUTH_IP_MAX_FAILURES s
  end.
Definition reserveAdminResetTokenUse (env : nat -> E) (ip : string) (s : S) : Z * S :=
  consume (env 0%nat) RESET_BUCKET ("token-ip:" +:+ rateLimitIpKey ip) IP_WINDOW_MS 30 s.
Definition reserveAdminResetRequest (env : nat -> E) (ip account : string) (s : S) : Z * S :=
  let '(perIp, s) := consume (env 0%nat) RESET_BUCKET ("ip:" +:+ rateLimitIpKey ip) IP_WINDOW_MS 10 s in
  if 0 <? perIp then (perIp, s)
  else consume (env 1%nat) RESET_BUCKET ("acct:" +:+ boundIdentifier account) ACCOUNT_WINDOW_MS 3 s.
(** The three [clear]s run concurrently; they touch different keys. *)
Definition clearAdminAuthFailures (env : nat -> E) (ip account : string) (s : S) : S :=
  let known := knownKey ip account in
  let s := clear (env 0%nat) BUCKET (keyFor ip (adminKey account)) s in
  let s := clear (env 1%nat) ACCOUNT_BUCKET (adminKey account) s in
  let s := clear (env 2%nat) KNOWN_BUCKET known s in
  recordFailure (env 3%nat) KNOWN_BUCKET known KNOWN_WINDOW_MS s.
Definition reserveHubSessionCreate (env : nat -> E) (ip : string) (s : S) : Z * S :=
  consume (env 0%nat) "hub-session" (rateLimitIpKey ip) (15 * 60 * 1000) 30 s.
End Budgets.

(** ** What the storage promises at one instant *)

(** Every key is used with one window; a bucket name holds no NUL. *)
Definition clean_bucket (b : string) : Prop := has_char zero b = false.
Definition same_key (b k b' k' : string) : bool := String.eqb b b' && String.eqb k k'.

Class StorageContract (S E : Type) `{RateLimitBackend S E} (window : string -> string -> Z) (e : E) := {
  wf : S -> Prop;
  spent : S -> string -> string -> Z;
  check_spec s b k m : wf s -> clean_bucket b -> 0 < m ->
    let '(r, s') := check e b k (window b k) m s in
    wf s' /\ (0 <? r) = (m <=? spent s b k) /\ 0 <= r /\ forall b' k', clean_bucket b' -> spent s' b' k' = spent s b' k';
  consume_spec s b k m : wf s -> clean_bucket b -> 0 < m ->
    let '(r, s') := consume e b k (window b k) m s in
    wf s' /\ (0 <? r) = (m <=? spent s b k) /\ 0 <= r /\
    forall b' k', clean_bucket b' -> spent s' b' k' = spent s b' k' + (if negb (0 <? r) && same_key b k b' k' then 1 else 0);
  record_spec s b k : wf s -> clean_bucket b ->
    wf (recordFailure e b k (window b k) s) /\
    forall b' k', clean_bucket b' -> spent (recordFailure e b k (window b k) s) b' k' = spent s b' k' + (if same_key b k b' k' then 1 else 0);
  clear_spec s b k : wf s -> clean_bucket b ->
    wf (clear e b k s) /\
    forall b' k', clean_bucket b' -> spent (clear e b k s) b' k' = if same_key b k b' k' then 0 else spent s b' k'
}.

(** *** The Postgres table *)

Lemma same_key_iff b k b' k' : same_key b k b' k' = true <-> b = b' /\ k = k'.
Proof. unfold same_key. by rewrite andb_true_iff, !String.eqb_eq. Qed.
Lemma same_key_row b k now b' k' : of_key b' k' (attempt_row b k now) = same_key b k b' k'.
Proof. done. Qed.
Lemma filter_double {A} (p q : A -> bool) l : (forall r, p r = true -> q r = true) -> List.filter p (List.filter q l) = List.filter p l.
Proof.
  intros H. induction l as [|r l IH]; cbn; [done|]. destruct (q r) eqn:Eq; cbn; [by rewrite IH|]. destruct (p r) eqn:Ep; [by rewrite (H r Ep) in Eq|done].
Qed.
Lemma current_pruned window b k now db b' k' :
  current b' k' (window b' k') now (pruned b k (window b k) now db) = current b' k' (window b' k') now db.
Proof.
  apply filter_double. intros r [H1 H2]%andb_true_iff. apply negb_true_iff in H2. apply negb_true_iff.
  destruct (of_key b k r) eqn:E; [|done]. unfold of_key in *. bool_props. repeat match goal with X : String.eqb _ _ = true |- _ => apply String.eqb_eq in X end.
  cbn. congruence.
Qed.
Lemma current_new window b k now b' k' : 0 <= window b' k' ->
  Z.of_nat (length (current b' k' (window b' k') now [attempt_row b k now])) = if same_key b k b' k' then 1 else 0.
Proof.
  intros Hw. unfold current. cbn [List.filter]. rewrite same_key_row. destruct (same_key b k b' k'); cbn [andb]; [|done].
  unfold expired. cbn [at_attemptedAt attempt_row]. by rewrite (proj2 (Z.ltb_ge _ _)) by lia.
Qed.
Lemma current_app b k w now l l' : current b k w now (l ++ l') = current b k w now l ++ current b k w now l'.
Proof. apply List.filter_app. Qed.
Lemma retryFrom_pos o w wall : 0 < retryFrom o w wall.
Proof. unfold retryFrom. case_match; lia. Qed.

#[export] Program Instance postgres_contract (window : string -> string -> Z) (windows_ok : forall b k, 0 <= window b k)
    (view : nat -> TxView) (free : tx_got (view 0%nat) = true) : StorageContract AttemptTable (nat -> TxView) window view :=
  {| wf := fun _ => True; spent := fun db b k => Z.of_nat (length (current b k (window b k) (tx_now (view 0%nat)) db)) |}.
Next Obligation.
  intros window wok view free s b k m _ _ Hm. cbn. split; [done|]. pose proof (retryFrom_pos (oldest_of (current b k (window b k) (tx_now (view 0%nat)) s)) (window b k) (tx_wall (view 0%nat))).
  destruct (Z.ltb_spec (Z.of_nat (length (current b k (window b k) (tx_now (view 0%nat)) s))) m).
  - rewrite (proj2 (Z.leb_gt _ _)) by lia. done.
  - rewrite (proj2 (Z.leb_le _ _)), (proj2 (Z.ltb_lt _ _)) by lia. split; [done|]. split; [lia|done].
Qed.
Next Obligation.
  intros window wok view free s b k m _ _ Hm. cbn. unfold consumeOnce. rewrite free. cbn [negb]. unfold CONSUME_SQL.
  set (now := tx_now (view 0%nat)). pose proof (retryFrom_pos (oldest_of (current b k (window b k) now s)) (window b k) (tx_wall (view 0%nat))).
  destruct (Z.ltb_spec (Z.of_nat (length (current b k (window b k) now s))) m); split; try done.
  - rewrite (proj2 (Z.leb_gt _ _)) by lia. split; [done|]. split; [lia|]. intros b' k' _. cbn [Z.ltb Z.compare negb andb].
    rewrite current_app, length_app, current_pruned, Nat2Z.inj_add, current_new by done. done.
  - rewrite (proj2 (Z.leb_le _ _)), (proj2 (Z.ltb_lt _ _)) by lia. split; [done|]. split; [lia|]. intros b' k' _. cbn [negb andb].
    rewrite app_nil_r, current_pruned. lia.
Qed.
Next Obligation.
  intros window wok view free s b k _ _. split; [done|]. intros b' k' _. cbn [spent].
  change (recordFailure view b k (window b k) s) with (pg_recordFailure view b k (window b k) s). unfold pg_recordFailure.
  rewrite current_app, length_app, current_pruned, Nat2Z.inj_add, current_new by done. done.
Qed.
Next Obligation.
  intros window wok view free s b k _ _. split; [done|]. intros b' k' _.
  change (clear view b k s) with (pg_clear view b k s). unfold pg_clear, current.
  destruct (same_key b k b' k') eqn:E.
  - apply same_key_iff in E as [<- <-]. induction s as [|r s IH]; cbn; [done|]. destruct (of_key b k r) eqn:Er; cbn; [done|by rewrite Er].
  - rewrite filter_double; [done|]. intros r [H1 _]%andb_true_iff. apply negb_true_iff, not_true_iff_false. intros H2. unfold of_key in *. bool_props.
    repeat match goal with X : String.eqb _ _ = true |- _ => apply String.eqb_eq in X end. apply not_true_iff_false in E. apply E, same_key_iff. split; congruence.
Qed.

(** *** The in-memory backend *)

Lemma joined_inj b k b' k' : clean_bucket b -> clean_bucket b' -> joined b k = joined b' k' -> b = b' /\ k = k'.
Proof.
  unfold clean_bucket, joined. revert b'. induction b as [|c b IH]; intros [|c' b'] Hb Hb' E.
  - by injection E.
  - change (String zero k = String c' (b' +:+ String zero k')) in E. injection E as <- _. cbn in Hb'. done.
  - change (String c (b +:+ String zero k) = String zero k') in E. injection E as -> _. cbn in Hb. done.
  - change (String c (b +:+ String zero k) = String c' (b' +:+ String zero k')) in E. injection E as <- E. cbn [has_char] in Hb, Hb'.
    apply orb_false_iff in Hb as [_ Hb], Hb' as [_ Hb']. destruct (IH b' Hb Hb' E) as [-> ->]. done.
Qed.

Section Memory.
Context (window : string -> string -> Z) (windows_pos : forall b k, 0 < window b k) (now : Z).

Definition mem_wf (s : MemStore) : Prop := forall b k e, clean_bucket b -> s !! joined b k = Some e -> window b k <= en_windowMs e.
Definition live_count (o : option Entry) (w : Z) : Z := match o with Some e => Z.of_nat (length (prune (en_attempts e) now w)) | None => 0 end.
Definition mem_spent (s : MemStore) (b k : string) : Z := live_count (s !! joined b k) (window b k).

Lemma prune_wider l w w' : w <= w' -> prune (prune l now w') now w = prune l now w.
Proof. intros H. apply filter_double. intros t Ht. apply Z.ltb_lt in Ht. apply Z.ltb_lt. lia. Qed.
Lemma prune_now l w : 0 < w -> prune (l ++ [now]) now w = prune l now w ++ [now].
Proof. intros H. unfold prune. rewrite List.filter_app. cbn. rewrite Z.sub_diag. by rewrite (proj2 (Z.ltb_lt _ _)). Qed.

Lemma lookup_insert_same (s : MemStore) b k (e : Entry) b' k' : clean_bucket b -> clean_bucket b' ->
  <[joined b k := e]> s !! joined b' k' = if same_key b k b' k' then Some e else s !! joined b' k'.
Proof.
  intros Hb Hb'. destruct (same_key b k b' k') eqn:E.
  - apply same_key_iff in E as [<- <-]. by rewrite lookup_insert_eq.
  - rewrite lookup_insert_ne; [done|]. intros J. apply joined_inj in J as [<- <-]; [|done|done]. apply not_true_iff_false in E. by apply E, same_key_iff.
Qed.
Lemma cleanup_wf (s : MemStore) : mem_wf s -> mem_wf (cleanup now s).
Proof.
  intros W b k e Hb He. unfold cleanup in He. destruct (size s <=? 5000)%nat; [by apply (W b k e)|]. rewrite lookup_omap in He.
  destruct (s !! joined b k) as [e0|] eqn:E0; [|done]. cbn in He. unfold cleaned in He. destruct (is_nil _); [done|]. simplify_eq. by apply (W b k e0).
Qed.
Lemma cleanup_spent s b k : mem_wf s -> clean_bucket b -> mem_spent (cleanup now s) b k = mem_spent s b k.
Proof.
  intros W Hb. unfold mem_spent, cleanup. destruct (size s <=? 5000)%nat; [done|]. rewrite lookup_omap. destruct (s !! joined b k) as [e|] eqn:E; [|done].
  cbn. pose proof (W b k e Hb E) as L. rewrite <- (prune_wider (en_attempts e) (window b k) (en_windowMs e)) by done. unfold cleaned.
  destruct (prune (en_attempts e) now (en_windowMs e)) eqn:Ep; [done|]. done.
Qed.

(** The entry a call opens: its live attempts are those of the key, all in the window. *)
Lemma opened_live s b k : clean_bucket b ->
  Z.of_nat (length (en_attempts (opened now (joined b k) (window b k) s))) = mem_spent s b k /\
  prune (en_attempts (opened now (joined b k) (window b k) s)) now (window b k) = en_attempts (opened now (joined b k) (window b k) s) /\
  window b k <= en_windowMs (opened now (joined b k) (window b k) s).
Proof.
  intros Hb. unfold opened, mem_spent. destruct (s !! joined b k) as [e|]; cbn; [|split; [done|split; [done|lia]]].
  split; [done|]. split; [by apply prune_wider|lia].
Qed.
Lemma stored_spec s b k e b' k' : mem_wf s -> clean_bucket b -> clean_bucket b' -> window b k <= en_windowMs e ->
  mem_wf (<[joined b k := e]> s) /\ mem_spent (<[joined b k := e]> s) b' k' = if same_key b k b' k' then live_count (Some e) (window b k) else mem_spent s b' k'.
Proof.
  intros W Hb Hb' Hw. split.
  - intros b1 k1 e1 Hb1. rewrite lookup_insert_same by done. destruct (same_key b k b1 k1) eqn:E; [|by apply W]. apply same_key_iff in E as [<- <-]. by intros; simplify_eq.
  - unfold mem_spent. rewrite lookup_insert_same by done. destruct (same_key b k b' k') eqn:E; [|done]. by apply same_key_iff in E as [<- <-].
Qed.
Lemma pushed_spec s b k b' k' : mem_wf s -> clean_bucket b -> clean_bucket b' ->
  let s' := pushed now (joined b k) (opened now (joined b k) (window b k) s) s in
  mem_wf s' /\ mem_spent s' b' k' = mem_spent s b' k' + (if same_key b k b' k' then 1 else 0).
Proof.
  intros W Hb Hb'. destruct (opened_live s b k Hb) as (O1 & O2 & O3). unfold pushed. cbv zeta.
  set (e := opened now (joined b k) (window b k) s) in *.
  destruct (stored_spec s b k {| en_attempts := en_attempts e ++ [now]; en_windowMs := en_windowMs e |} b' k' W Hb Hb' O3) as [S1 S2].
  split; [by apply cleanup_wf|]. rewrite cleanup_spent, S2 by done. destruct (same_key b k b' k') eqn:E; [|lia].
  cbn [live_count en_attempts]. rewrite prune_now, O2, length_app by apply windows_pos. apply same_key_iff in E as [<- <-]. cbn [length]. lia.
Qed.
Lemma retryFor_pos l w m : 0 < m -> (0 <? retryFor l now w m) = (m <=? Z.of_nat (length l)) /\ 0 <= retryFor l now w m.
Proof.
  intros Hm. unfold retryFor. destruct (Z.ltb_spec (Z.of_nat (length l)) m); [by rewrite (proj2 (Z.leb_gt _ _)) by lia|].
  rewrite (proj2 (Z.leb_le _ _)) by lia. destruct l; [cbn in *; lia|]. split; [apply Z.ltb_lt|]; lia.
Qed.
End Memory.

#[export] Program Instance memory_contract (window : string -> string -> Z) (windows_pos : forall b k, 0 < window b k) (now : Z) :
    StorageContract MemStore Z window now :=
  {| wf := mem_wf window; spent := mem_spent window now |}.
Next Obligation.
  intros window wp now s b k m W Hb Hm. change (check now b k (window b k) m s) with (mem_check now b k (window b k) m s). unfold mem_check.
  destruct (s !! joined b k) as [e|] eqn:E.
  - destruct (retryFor_pos now (prune (en_attempts e) now (window b k)) (window b k) m Hm) as [R1 R2].
    assert (Ew : window b k <= en_windowMs e) by (by apply (W b k)).
    assert (Es : mem_spent window now s b k = Z.of_nat (length (prune (en_attempts e) now (window b k)))) by (unfold mem_spent; by rewrite E).
    rewrite Es. split; [by apply (stored_spec window now s b k _ b k)|]. split; [done|]. split; [done|]. intros b' k' Hb'.
    destruct (stored_spec window now s b k {| en_attempts := prune (en_attempts e) now (window b k); en_windowMs := en_windowMs e |} b' k') as [_ ->]; try done.
    destruct (same_key b k b' k') eqn:Ek; [|done]. apply same_key_iff in Ek as [<- <-]. rewrite Es. cbn [live_count en_attempts]. by rewrite prune_wider by lia.
  - unfold mem_spent. rewrite E. cbn. rewrite (proj2 (Z.leb_gt _ _)) by lia. done.
Qed.
Next Obligation.
  intros window wp now s b k m W Hb Hm. change (consume now b k (window b k) m s) with (mem_consume now b k (window b k) m s). unfold mem_consume.
  destruct (opened_live window now s b k Hb) as (O1 & O2 & O3). cbv zeta. set (e := opened now (joined b k) (window b k) s) in *.
  destruct (retryFor_pos now (en_attempts e) (window b k) m Hm) as [R1 R2]. rewrite O1 in R1.
  destruct (0 <? retryFor (en_attempts e) now (window b k) m) eqn:Er; rewrite <- R1.
  - rewrite Er. cbn [negb andb]. destruct (s !! joined b k) as [e0|] eqn:E0; cbn [is_some].
    + split; [by apply (stored_spec window now s b k e b k)|]. split; [done|]. split; [done|]. intros b' k' Hb'.
      destruct (stored_spec window now s b k e b' k') as [_ ->]; try done. destruct (same_key b k b' k') eqn:Ek; [|lia].
      apply same_key_iff in Ek as [<- <-]. cbn [live_count]. rewrite O2. lia.
    + split; [done|]. split; [done|]. split; [done|]. intros; lia.
  - cbn [Z.ltb Z.compare negb andb]. split; [by apply (pushed_spec window wp now s b k b k)|]. split; [done|]. split; [lia|]. intros b' k' Hb'.
    by apply (pushed_spec window wp now s b k b' k').
Qed.
Next Obligation.
  intros window wp now s b k W Hb. split; [by apply (pushed_spec window wp now s b k b k)|]. intros b' k' Hb'. by apply (pushed_spec window wp now s b k b' k').
Qed.
Next Obligation.
  intros window wp now s b k W Hb. change (clear now b k s) with (delete (joined b k) s). split.
  - intros b' k' e Hb'. destruct (decide (joined b k = joined b' k')) as [->|N]; [by rewrite lookup_delete_eq|rewrite lookup_delete_ne by done; by apply W].
  - intros b' k' Hb'. cbn. unfold mem_spent. destruct (same_key b k b' k') eqn:E.
    + apply same_key_iff in E as [<- <-]. by rewrite lookup_delete_eq.
    + rewrite lookup_delete_ne; [done|]. intros J. apply joined_inj in J as [<- <-]; [|done|done]. apply not_true_iff_false in E. by apply E, same_key_iff.
Qed.

(** ** The gate of admin credential checks *)

(** The windows of the buckets of this file. *)
Definition budget_window (b _k : string) : Z :=
  if String.eqb b ACCOUNT_BUCKET then ACCOUNT_WINDOW_MS else if String.eqb b KNOWN_BUCKET then KNOWN_WINDOW_MS else WINDOW_MS.
Lemma budget_window_pos b k : 0 < budget_window b k.
Proof. unfold budget_window. repeat case_match; reflexivity. Qed.
(** One more attempt on a key, when [ok]. *)
Definition charge (ok : bool) (b k b' k' : string) : Z := if ok && same_key b k b' k' then 1 else 0.
Lemma charge_false b k b' k' : charge false b k b' k' = 0.
Proof. done. Qed.

Section Gate.
Context {S E : Type} `{RateLimitBackend S E} (e : E) `{!StorageContract S E budget_window e}.
Context (sha256 : string -> string) (maxIp maxAccount : Z) (ip account : string).
Hypothesis caps : 0 < maxIp /\ 0 < maxAccount.

Lemma consume_budget s b k w m : wf s -> clean_bucket b -> 0 < m -> w = budget_window b k ->
  let '(r, s') := consume e b k w m s in
  wf s' /\ (0 <? r) = (m <=? spent s b k) /\ 0 <= r /\ forall b' k', clean_bucket b' -> spent s' b' k' = spent s b' k' + charge (negb (0 <? r)) b k b' k'.
Proof. intros W Hb Hm ->. by apply consume_spec. Qed.
Lemma negb_leb m n : (m <=? n) = negb (n <? m).
Proof. destruct (Z.ltb_spec n m), (Z.leb_spec m n); (done || lia). Qed.

(** The three budgets of an admin credential check are exactly what the gate
    charges: an attempt passes when its address, its account (or a network the
    account has signed in from) and the pair are all under their caps; a refusal
    charges only the budgets checked before it; a known network is never refused by
    the account-wide budget nor charged to it; and a verified password clears the
    pair and the account, leaves the address, and marks the network as known. *)
Theorem admin_gate_three_budgets (s : S) : wf s ->
  let ipKey := rateLimitIpKey ip in
  let acct := adminKey sha256 account in
  let pair := keyFor sha256 ip acct in
  let ip_ok := spent s IP_BUCKET ipKey <? maxIp in
  let known := 1 <=? spent s KNOWN_BUCKET (knownKey sha256 ip account) in
  let acct_ok := known || (spent s ACCOUNT_BUCKET acct <? maxAccount) in
  let pair_ok := spent s BUCKET pair <? MAX_FAILURES in
  let '(r, s') := reserveAdminAuthAttempt sha256 maxIp maxAccount (fun _ => e) ip account s in
  ((0 <? r) = negb (ip_ok && acct_ok && pair_ok)) /\
  (forall b k, clean_bucket b -> spent s' b k = spent s b k + charge ip_ok IP_BUCKET ipKey b k +
     charge (ip_ok && negb known && acct_ok) ACCOUNT_BUCKET acct b k + charge (ip_ok && acct_ok && pair_ok) BUCKET pair b k) /\
  let s'' := clearAdminAuthFailures sha256 (fun _ => e) ip account s in
  spent s'' BUCKET pair = 0 /\ spent s'' ACCOUNT_BUCKET acct = 0 /\ spent s'' KNOWN_BUCKET (knownKey sha256 ip account) = 1 /\
  spent s'' IP_BUCKET ipKey = spent s IP_BUCKET ipKey.
Proof.
  intros W ipKey acct pair ip_ok known acct_ok pair_ok. destruct caps as [C1 C2].
  destruct (reserveAdminAuthAttempt _ _ _ _ _ _ _) as [r s'] eqn:R. apply and_assoc. split.
  - revert R. unfold reserveAdminAuthAttempt, isKnownAdminNetwork.
    pose proof (consume_budget s IP_BUCKET ipKey IP_WINDOW_MS maxIp W eq_refl C1 eq_refl) as P1. fold ipKey acct pair.
    destruct (consume e IP_BUCKET ipKey IP_WINDOW_MS maxIp s) as [r1 s1]. destruct P1 as (W1 & R1 & N1 & S1).
    rewrite negb_leb in R1. fold ip_ok in R1. destruct (0 <? r1) eqn:E1.
    { apply (f_equal negb) in R1. rewrite negb_involutive in R1. rewrite <- R1. cbn [negb andb] in *. intros; simplify_eq. rewrite E1. split; [done|]. intros b k Hb.
      rewrite S1 by done. unfold charge; cbn. lia. }
    apply (f_equal negb) in R1. rewrite negb_involutive in R1. rewrite <- R1. cbn [negb andb] in *.
    pose proof (check_spec s1 KNOWN_BUCKET (knownKey sha256 ip account) 1 W1 eq_refl ltac:(lia)) as P2.
    change (budget_window KNOWN_BUCKET (knownKey sha256 ip account)) with KNOWN_WINDOW_MS in P2.
    destruct (check e KNOWN_BUCKET (knownKey sha256 ip account) KNOWN_WINDOW_MS 1 s1) as [r2 s2]. destruct P2 as (W2 & R2 & N2 & S2).
    assert (K : (0 <? r2) = known).
    { rewrite R2, S1 by done. unfold charge. change (same_key IP_BUCKET ipKey KNOWN_BUCKET (knownKey sha256 ip account)) with false. rewrite andb_false_r, Z.add_0_r. done. }
    rewrite K.
    assert (F : forall r3 s3, (0 <? r3) = negb acct_ok -> wf s3 ->
      (forall b k, clean_bucket b -> spent s3 b k = spent s b k + charge true IP_BUCKET ipKey b k + charge (negb known && acct_ok) ACCOUNT_BUCKET acct b k) ->
      (if 0 <? r3 then (r3, s3) else consume e BUCKET pair WINDOW_MS MAX_FAILURES s3) = (r, s') ->
      (0 <? r) = negb (acct_ok && pair_ok) /\ forall b k, clean_bucket b -> spent s' b k = spent s b k + charge true IP_BUCKET ipKey b k +
        charge (negb known && acct_ok) ACCOUNT_BUCKET acct b k + charge (acct_ok && pair_ok) BUCKET pair b k).
    { intros r3 s3 R3 W3 S3. destruct (0 <? r3) eqn:E3; apply (f_equal negb) in R3; rewrite negb_involutive in R3; rewrite <- R3; cbn [negb andb] in *.
      - intros; simplify_eq. rewrite E3. split; [done|]. intros b k Hb. rewrite S3 by done. rewrite <- R3. rewrite andb_false_r. unfold charge; cbn. lia.
      - pose proof (consume_budget s3 BUCKET pair WINDOW_MS MAX_FAILURES W3 eq_refl ltac:(done) eq_refl) as P4.
        intros R4. rewrite R4 in P4. destruct P4 as (W4 & R4' & N4 & S4). rewrite S3 in R4' by done.
        change (charge true IP_BUCKET ipKey BUCKET pair) with 0 in R4'.
        assert (Z1 : charge (negb known && acct_ok) ACCOUNT_BUCKET acct BUCKET pair = 0) by (unfold charge; by rewrite andb_false_r).
        rewrite Z1, !Z.add_0_r, negb_leb in R4'. fold pair_ok in R4'. split; [done|]. intros b k Hb. rewrite S4, S3, R4', negb_involutive by done. rewrite <- R3. done. }
    destruct known eqn:Ek.
    + intros R3. apply (F 0 s2); try done. intros b k Hb. rewrite S2, S1 by done. cbn. unfold charge; cbn. lia.
    + pose proof (consume_budget s2 ACCOUNT_BUCKET acct ACCOUNT_WINDOW_MS maxAccount W2 eq_refl C2 eq_refl) as P3.
      destruct (consume e ACCOUNT_BUCKET acct ACCOUNT_WINDOW_MS maxAccount s2) as [r3 s3]. destruct P3 as (W3 & R3 & N3 & S3).
      assert (A : (0 <? r3) = negb acct_ok).
      { rewrite R3, S2, S1, negb_leb by done. change (charge true IP_BUCKET ipKey ACCOUNT_BUCKET acct) with 0. by rewrite Z.add_0_r. }
      intros R4. apply (F r3 s3); [exact A|exact W3| |exact R4]. intros b k Hb. by rewrite S3, S2, S1, A, negb_involutive by done.
  - unfold clearAdminAuthFailures. fold acct pair.
    destruct (clear_spec s BUCKET pair W eq_refl) as [W1 S1].
    destruct (clear_spec _ ACCOUNT_BUCKET acct W1 eq_refl) as [W2 S2].
    destruct (clear_spec _ KNOWN_BUCKET (knownKey sha256 ip account) W2 eq_refl) as [W3 S3].
    destruct (record_spec _ KNOWN_BUCKET (knownKey sha256 ip account) W3 eq_refl) as [W4 S4].
    change (budget_window KNOWN_BUCKET (knownKey sha256 ip account)) with KNOWN_WINDOW_MS in S4.
    rewrite !S4, !S3, !S2, !S1 by done.
    assert (D : forall b k, same_key b k b k = true) by (intros; by apply same_key_iff). rewrite !D.
    cbn. lia.
Qed.
End Gate.

(** A first attempt on an empty in-memory store, at time 1000. *)
Lemma admin_gate_three_budgets_witness :
  let '(r, s') := reserveAdminAuthAttempt (fun x => x) 50 20 (fun _ => 1000) "203.0.113.7" "Owner@shop.test" (∅ : MemStore) in
  (0 <? r) = false /\ mem_spent budget_window 1000 s' ACCOUNT_BUCKET "admin:owner@shop.test" = 1.
Proof.
  pose proof (admin_gate_three_budgets (H := createMemoryRateLimitBackend) 1000 (StorageContract0 := memory_contract budget_window budget_window_pos 1000)
    (fun x => x) 50 20 "203.0.113.7" "Owner@shop.test" ltac:(split; reflexivity) ∅ ltac:(intros b k e _ He; rewrite lookup_empty in He; discriminate He)) as G.
  cbv zeta in G. destruct (reserveAdminAuthAttempt (fun x => x) 50 20 (fun _ => 1000) "203.0.113.7" "Owner@shop.test" ∅) as [r s'].
  destruct G as (G1 & G2 & _). split; [exact G1|]. exact (G2 ACCOUNT_BUCKET "admin:owner@shop.test" eq_refl).
Defined.
