(* ===== verification/Leases.v ===== *)
(** Leadership of background jobs ([jobs/leader-lock.ts]) and the commit fence of [db/client.ts]: the [scheduler_lease]
    table, the fence objects a pass shares with its transactions, and the whole as a machine whose actions are the
    single statements the database orders. *)
From Stdlib Require Import ZArith List Bool String Ascii Lia.
From stdpp Require Import base list strings gmap pretty.
From S2P Require Import Prelude.
Local Open Scope string_scope.
Local Open Scope list_scope.
Local Open Scope Z_scope.

(** Times are milliseconds of the database clock. *)
Definition LEASE_TTL_MS : Z := 60000.
Definition LEASE_RENEW_MS : Z := 15000.

(** * Names and the keys of the previous scheme *)
Definition NAMESPACE : Z := Z.shiftl 0x53525350 32.
Definition JOB_KEYS : list (string * Z) :=
  [("release-stale", Z.lor NAMESPACE 1); ("auto-deliver", Z.lor NAMESPACE 2); ("cart-maintenance", Z.lor NAMESPACE 3);
   ("webhooks", Z.lor NAMESPACE 4); ("webhook-reaper", Z.lor NAMESPACE 5); ("emails", Z.lor NAMESPACE 6);
   ("push", Z.lor NAMESPACE 7); ("listmonk-sync", Z.lor NAMESPACE 8); ("processed-event-reaper", Z.lor NAMESPACE 9);
   ("gateway-events", Z.lor NAMESPACE 10); ("sheerid-expiry", Z.lor NAMESPACE 11); ("restock-notify", Z.lor NAMESPACE 12);
   ("catalog-manifest", Z.lor NAMESPACE 13); ("rate-limit-reaper", Z.lor NAMESPACE 14);
   ("catalog-manifest-drain", Z.lor NAMESPACE 15); ("gateway-recovery", Z.lor NAMESPACE 20);
   ("birthday-bonus", Z.lor NAMESPACE 30); ("pending-effects", Z.lor NAMESPACE 40);
   ("reservation-release-sweep", Z.lor NAMESPACE 41); ("passkey-prune", Z.lor NAMESPACE 42);
   ("purge-cancelled", Z.lor NAMESPACE 43); ("openai-capi", Z.lor NAMESPACE 44); ("trash-abandoned", Z.lor NAMESPACE 45)].
Definition job_key (job : string) : option Z := snd <$> List.find (fun e => String.eqb (fst e) job) JOB_KEYS.

Definition is_plugin_job (job : string) : bool := String.prefix "plugin:" job.
(** [String(JOB_KEYS[job])]: an unknown job, which the type excludes, prints [undefined]. *)
Definition legacyAdvisoryKey (job : string) (scope : option string) : string * bool :=
  let base := if is_plugin_job job then pretty NAMESPACE +:+ ":" +:+ job
              else match job_key job with Some k => pretty k | None => "undefined" end in
  match scope with
  | None => (base, is_plugin_job job)
  | Some s => (base +:+ ":" +:+ s, true)
  end.
Definition lease_name (job : string) (scope : option string) : string :=
  match scope with None => job | Some s => job +:+ ":" +:+ s end.

(** An advisory lock as [pg_locks] shows it: the two unsigned halves of its 64-bit key ([classid], [objid]). *)
Definition lock_halves (k : Z) : Z * Z := (Z.land (Z.shiftr k 32) 4294967295, Z.land k 4294967295).

(** * The table and its statements *)
Record Lease := { l_token : string; l_holder : string; l_acquired : Z; l_expires : Z }.
#[export] Instance Lease_eq_dec : EqDecision Lease.
Proof. solve_decision. Defined.
Abbreviation leases := (gmap string Lease).

(** The claim: [INSERT … ON CONFLICT (name) DO UPDATE … WHERE l.expires_at <= now()], refused while an old runner holds
    the advisory lock. [None] is a statement that returns no row. [now] is the start of the statement. *)
Definition claim_lease (advisory : list (Z * Z)) (legacy : Z) (now : Z) (name token holder : string) (ttl : Z) (t : leases) : option leases :=
  if bool_decide (lock_halves legacy ∈ advisory) then None
  else
    let row := {| l_token := token; l_holder := holder; l_acquired := now; l_expires := now + ttl |} in
    match t !! name with
    | None => Some (<[name := row]> t)
    | Some l => if l_expires l <=? now then Some (<[name := row]> t) else None
    end.
(** [WHERE name = $1 AND token = $2 AND expires_at > clock_timestamp()]. *)
Definition lease_held (clock : Z) (name token : string) (t : leases) : bool :=
  match t !! name with Some l => String.eqb (l_token l) token && (clock <? l_expires l) | None => false end.
Definition renew_lease (clock now : Z) (name token : string) (ttl : Z) (t : leases) : option leases :=
  match t !! name with
  | Some l => if String.eqb (l_token l) token && (clock <? l_expires l)
              then Some (<[name := {| l_token := l_token l; l_holder := l_holder l; l_acquired := l_acquired l; l_expires := now + ttl |}]> t)
              else None
  | None => None
  end.
Definition release_lease (name token : string) (t : leases) : leases :=
  match t !! name with Some l => if String.eqb (l_token l) token then delete name t else t | None => t end.

(** * Fences *)
Record LeaseFence := { f_name : string; f_lost : bool; f_released : bool; f_aborted : bool }.
Definition new_fence (name : string) : LeaseFence := {| f_name := name; f_lost := false; f_released := false; f_aborted := false |}.
(** [markLost] of a pass: the fence refuses commits and its signal aborts. *)
Definition markLost (f : LeaseFence) : LeaseFence :=
  if f_lost f || f_released f then f else {| f_name := f_name f; f_lost := true; f_released := f_released f; f_aborted := true |}.
(** [fence.released = true], before the DELETE. *)
Definition set_released (f : LeaseFence) : LeaseFence :=
  {| f_name := f_name f; f_lost := f_lost f; f_released := true; f_aborted := f_aborted f |}.
(** [f.lost = true] of [assertLeasesHeld]. *)
Definition set_lost (f : LeaseFence) : LeaseFence :=
  {| f_name := f_name f; f_lost := true; f_released := f_released f; f_aborted := f_aborted f |}.

(** * The machine *)
(** A store transaction of [runStoreTransaction]: the tokens of the leases in scope when it began, the fences that
    [assertLeasesHeld] still has to visit once the work is done ([None] while it runs), the leases it found held and
    keeps share-locked, and the tokens whose fence had been released. *)
Record Txn := { t_scope : list string; t_todo : option (list string); t_held : list (string * string); t_waved : list string }.

Inductive event :=
| Claimed (name token : string)
| Committed (tid : nat) (scope : list string) (held : list (string * string)) (waved : list string)
| Refused (tid : nat) (name : string).

Record World := {
  w_clock : Z; w_leases : leases; w_advisory : list (Z * Z);
  w_fences : gmap string LeaseFence;      (* by token *)
  w_answers : list (string * bool);       (* renewals answered by the database, not yet seen by their pass *)
  w_txns : gmap nat Txn;
  w_log : list event                      (* newest first *)
}.
Definition empty_world : World :=
  {| w_clock := 0; w_leases := ∅; w_advisory := []; w_fences := ∅; w_answers := []; w_txns := ∅; w_log := [] |}.

(** [FOR SHARE]: an open transaction that found the lease held keeps writers of the row waiting. *)
Definition share_locked (w : World) (name : string) : bool :=
  existsb (fun x => existsb (fun h => String.eqb (fst h) name) (t_held (snd x))) (map_to_list (w_txns w)).

Definition set_leases (t : leases) (w : World) : World :=
  {| w_clock := w_clock w; w_leases := t; w_advisory := w_advisory w; w_fences := w_fences w; w_answers := w_answers w;
     w_txns := w_txns w; w_log := w_log w |}.
Definition set_fence (token : string) (f : LeaseFence) (w : World) : World :=
  {| w_clock := w_clock w; w_leases := w_leases w; w_advisory := w_advisory w; w_fences := <[token := f]> (w_fences w);
     w_answers := w_answers w; w_txns := w_txns w; w_log := w_log w |}.
Definition set_answers (q : list (string * bool)) (w : World) : World :=
  {| w_clock := w_clock w; w_leases := w_leases w; w_advisory := w_advisory w; w_fences := w_fences w; w_answers := q;
     w_txns := w_txns w; w_log := w_log w |}.
Definition set_txn (tid : nat) (x : Txn) (w : World) : World :=
  {| w_clock := w_clock w; w_leases := w_leases w; w_advisory := w_advisory w; w_fences := w_fences w;
     w_answers := w_answers w; w_txns := <[tid := x]> (w_txns w); w_log := w_log w |}.
Definition end_txn (tid : nat) (w : World) : World :=
  {| w_clock := w_clock w; w_leases := w_leases w; w_advisory := w_advisory w; w_fences := w_fences w;
     w_answers := w_answers w; w_txns := delete tid (w_txns w); w_log := w_log w |}.
Definition log_event (e : event) (w : World) : World :=
  {| w_clock := w_clock w; w_leases := w_leases w; w_advisory := w_advisory w; w_fences := w_fences w;
     w_answers := w_answers w; w_txns := w_txns w; w_log := e :: w_log w |}.
Definition set_clock (c : Z) (w : World) : World :=
  {| w_clock := c; w_leases := w_leases w; w_advisory := w_advisory w; w_fences := w_fences w; w_answers := w_answers w;
     w_txns := w_txns w; w_log := w_log w |}.
Definition set_advisory (a : list (Z * Z)) (w : World) : World :=
  {| w_clock := w_clock w; w_leases := w_leases w; w_advisory := a; w_fences := w_fences w; w_answers := w_answers w;
     w_txns := w_txns w; w_log := w_log w |}.

Section machine.
(** Postgres' [hashtextextended(text, 0)], and the cast of a decimal text to bigint. *)
Context (hashtextextended : string -> Z) (bigint : string -> Z).

(** The two ways a process learns of a job: known, or an error before anything happens. *)
Definition known_job (job : string) : bool := is_plugin_job job || bool_decide (is_Some (job_key job)).
Definition legacy_key (job : string) (scope : option string) : Z :=
  let '(key, hashed) := legacyAdvisoryKey job scope in if hashed then hashtextextended key else bigint key.

(** The start of [withLeaderLock]: unknown jobs throw; a refused claim skips the tick; a won one makes the fence. *)
Inductive claim_outcome := UnknownJob | Skipped | Leads (w : World).
Definition withLeaderLock_claim (job : string) (scope : option string) (token holder : string) (now ttl : Z) (w : World) : claim_outcome :=
  if negb (known_job job) then UnknownJob
  else
    let name := lease_name job scope in
    match claim_lease (w_advisory w) (legacy_key job scope) now name token holder ttl (w_leases w) with
    | None => Skipped
    | Some t => Leads (log_event (Claimed name token) (set_fence token (new_fence name) (set_leases t w)))
    end.

(** One turn of the loop of [assertLeasesHeld] for the fence [token]. A lost fence, or a row that is gone, expired or
    another's, throws: the transaction rolls back and its locks go. *)
Definition assert_lease (tid : nat) (x : Txn) (token : string) (rest : list string) (w : World) : option World :=
  f ← w_fences w !! token;
  if f_lost f then Some (log_event (Refused tid (f_name f)) (end_txn tid w))
  else if f_released f then
    Some (set_txn tid {| t_scope := t_scope x; t_todo := Some rest; t_held := t_held x; t_waved := t_waved x ++ [token] |} w)
  else if lease_held (w_clock w) (f_name f) token (w_leases w) then
    Some (set_txn tid {| t_scope := t_scope x; t_todo := Some rest; t_held := t_held x ++ [(f_name f, token)]; t_waved := t_waved x |} w)
  else Some (log_event (Refused tid (f_name f)) (end_txn tid (set_fence token (set_lost f) w))).

Inductive action :=
| Wait (ms : Z)                                            (* time passes *)
| OldRunner (locks : list (Z * Z))                         (* advisory locks of the previous scheme come and go *)
| Lead (job : string) (scope : option string) (token holder : string) (now ttl : Z)
| Renew (token : string) (now ttl : Z)                     (* the statement of the renewal timer *)
| Renewed                                                  (* its answer reaches the pass *)
| Overdue (token : string)                                 (* the timer sees a whole term without a renewal *)
| Finish (token : string)                                  (* the pass ends: [fence.released = true] *)
| Free (token : string)                                    (* its DELETE; a failed one never runs *)
| Begin (tid : nat) (scope : list string)
| Worked (tid : nat)                                       (* [fn] returned: [assertLeasesHeld] starts *)
| Verify (tid : nat)
| Commit (tid : nat)
| Rollback (tid : nat).                                    (* [fn] threw, the deadline passed, the process died *)

(** A statement starts at most at the clock; one that must write a share-locked row is not executed before the
    transaction that locks it ends. Tokens are random, so a claim uses a new one. *)
Definition act (a : action) (w : World) : option World :=
  match a with
  | Wait ms => if 0 <=? ms then Some (set_clock (w_clock w + ms) w) else None
  | OldRunner locks => Some (set_advisory locks w)
  | Lead job scope token holder now ttl =>
      if (now <=? w_clock w) && negb (share_locked w (lease_name job scope)) && bool_decide (w_fences w !! token = None) then
        match withLeaderLock_claim job scope token holder now ttl w with Leads w' => Some w' | _ => Some w end
      else None
  | Renew token now ttl =>
      f ← w_fences w !! token;
      if (now <=? w_clock w) && negb (share_locked w (f_name f)) then
        match renew_lease (w_clock w) now (f_name f) token ttl (w_leases w) with
        | Some t => Some (set_answers (w_answers w ++ [(token, true)]) (set_leases t w))
        | None => Some (set_answers (w_answers w ++ [(token, false)]) w)
        end
      else None
  | Renewed =>
      match w_answers w with
      | [] => None
      | (token, ok) :: q => f ← w_fences w !! token; Some (set_answers q (if ok : bool then w else set_fence token (markLost f) w))
      end
  | Overdue token => f ← w_fences w !! token; Some (set_fence token (markLost f) w)
  | Finish token => f ← w_fences w !! token; Some (set_fence token (set_released f) w)
  | Free token =>
      f ← w_fences w !! token;
      if f_released f && negb (share_locked w (f_name f)) then Some (set_leases (release_lease (f_name f) token (w_leases w)) w) else None
  | Begin tid scope =>
      if bool_decide (w_txns w !! tid = None) && bool_decide (Forall (fun k => is_Some (w_fences w !! k)) scope)
      then Some (set_txn tid {| t_scope := scope; t_todo := None; t_held := []; t_waved := [] |} w) else None
  | Worked tid =>
      x ← w_txns w !! tid;
      match t_todo x with
      | None => Some (set_txn tid {| t_scope := t_scope x; t_todo := Some (t_scope x); t_held := t_held x; t_waved := t_waved x |} w)
      | Some _ => None
      end
  | Verify tid =>
      x ← w_txns w !! tid;
      match t_todo x with Some (token :: rest) => assert_lease tid x token rest w | _ => None end
  | Commit tid =>
      x ← w_txns w !! tid;
      match t_todo x with
      | Some [] => Some (log_event (Committed tid (t_scope x) (t_held x) (t_waved x)) (end_txn tid w))
      | _ => None
      end
  | Rollback tid => x ← w_txns w !! tid; Some (end_txn tid w)
  end.
Fixpoint run_actions (l : list action) (w : World) : option World :=
  match l with [] => Some w | a :: r => w' ← act a w; run_actions r w' end.
End machine.

(** The last claim of a name in a log. *)
Fixpoint last_claim (name : string) (log : list event) : option string :=
  match log with
  | [] => None
  | Claimed n token :: r => if String.eqb n name then Some token else last_claim name r
  | _ :: r => last_claim name r
  end.
