(* ===== verification/LeaseFacts.v ===== *)
(** Facts of the job leases: a commit under a lease comes from the pass that claimed it last, a lease is handed over
    only when released or expired, and always becomes free; a loss found at a commit never aborts the signal. *)
From Stdlib Require Import ZArith List Bool String Ascii Lia.
From stdpp Require Import base list strings gmap pretty.
From S2P Require Import Prelude Leases.
Local Open Scope string_scope.
Local Open Scope list_scope.
Local Open Scope Z_scope.

(** * The fence invariant *)
Definition row_token (name : string) (t : leases) : option string := l_token <$> t !! name.
(** Fences keep their name and stay released; no fence goes away. *)
Definition fences_le (a b : gmap string LeaseFence) : Prop :=
  forall k f, a !! k = Some f -> exists g, b !! k = Some g /\ f_name g = f_name f /\ (f_released f = true -> f_released g = true).
Definition released_in (fs : gmap string LeaseFence) (k : string) : Prop := exists f, fs !! k = Some f /\ f_released f = true.

Record txn_ok (w : World) (x : Txn) : Prop := {
  tx_scope : t_scope x ≡ₚ map snd (t_held x) ++ t_waved x ++ default (t_scope x) (t_todo x);
  tx_held : forall n k, (n, k) ∈ t_held x -> row_token n (w_leases w) = Some k;
  tx_waved : forall k, k ∈ t_waved x -> released_in (w_fences w) k
}.
Definition commit_ok (fs : gmap string LeaseFence) (e : event) (earlier : list event) : Prop :=
  match e with
  | Committed _ scope held waved =>
      scope ≡ₚ map snd held ++ waved /\ (forall n k, (n, k) ∈ held -> last_claim n earlier = Some k) /\
      (forall k, k ∈ waved -> released_in fs k)
  | _ => True
  end.
Fixpoint commits_ok (fs : gmap string LeaseFence) (log : list event) : Prop :=
  match log with [] => True | e :: r => commit_ok fs e r /\ commits_ok fs r end.
Record fenced (w : World) : Prop := {
  fi_row : forall n l, w_leases w !! n = Some l -> last_claim n (w_log w) = Some (l_token l);
  fi_txn : forall tid x, w_txns w !! tid = Some x -> txn_ok w x;
  fi_log : commits_ok (w_fences w) (w_log w)
}.

Lemma share_locked_false w n tid x k : share_locked w n = false -> w_txns w !! tid = Some x -> (n, k) ∉ t_held x.
Proof.
  unfold share_locked. intros H Hx Hk. apply not_true_iff_false in H. apply H. apply existsb_exists. exists (tid, x).
  split; [by apply list_elem_of_In, elem_of_map_to_list|]. cbn. apply existsb_exists. exists (n, k).
  split; [by apply list_elem_of_In|]. apply String.eqb_refl.
Qed.

Lemma released_le fs gs k : fences_le fs gs -> released_in fs k -> released_in gs k.
Proof. intros L (f & Hf & Hr). destruct (L _ _ Hf) as (g & Hg & _ & Hk). exists g. auto. Qed.
Lemma commits_ok_le fs gs log : fences_le fs gs -> commits_ok fs log -> commits_ok gs log.
Proof.
  intros L. induction log as [|e r IH]; [done|]. intros [He Hr]. split; [|by apply IH]. destruct e; try done.
  destruct He as (S & H & W). split; [done|]. split; [done|]. intros k Hk. by eapply released_le, W.
Qed.
Lemma fences_le_refl fs : fences_le fs fs.
Proof. intros k f H. by exists f. Qed.
Lemma fences_le_insert fs k f g : fs !! k = Some f -> f_name g = f_name f -> (f_released f = true -> f_released g = true) -> fences_le fs (<[k := g]> fs).
Proof.
  intros Hk Hn Hr j h Hj. destruct (decide (j = k)) as [->|Ne].
  - exists g. rewrite lookup_insert_eq. rewrite Hk in Hj. injection Hj as ->. done.
  - exists h. by rewrite lookup_insert_ne.
Qed.
Lemma fences_le_fresh fs k g : fs !! k = None -> fences_le fs (<[k := g]> fs).
Proof. intros Hk j h Hj. exists h. by rewrite lookup_insert_ne by congruence. Qed.

(** What an action must respect besides the transactions and the log. *)
Definition respects (w w' : World) : Prop :=
  fences_le (w_fences w) (w_fences w') /\
  forall n, row_token n (w_leases w') = row_token n (w_leases w) \/ share_locked w n = false.

Lemma txn_ok_respects w w' tid x : respects w w' -> w_txns w !! tid = Some x -> txn_ok w x -> txn_ok w' x.
Proof.
  intros [L H] Hx [S Hh W]. constructor; [done| |].
  - intros n k Hk. destruct (H n) as [->|Hl]; [by apply Hh|]. by destruct (share_locked_false _ _ _ _ k Hl Hx).
  - intros k Hk. by eapply released_le, W.
Qed.
(** An action that leaves transactions and log alone. *)
Lemma fenced_table w w' : fenced w -> respects w w' -> w_txns w' = w_txns w -> w_log w' = w_log w ->
  (forall n l, w_leases w' !! n = Some l -> row_token n (w_leases w) = Some (l_token l)) -> fenced w'.
Proof.
  intros [R T C] Hr Et El Hl. constructor.
  - intros n l Hn. rewrite El. apply Hl in Hn. unfold row_token in Hn. apply fmap_Some in Hn as (m & Hm & ->). by apply R.
  - intros tid x. rewrite Et. intros Hx. eapply txn_ok_respects; eauto.
  - rewrite El. by apply (commits_ok_le _ _ _ (proj1 Hr)).
Qed.
(** An action on one transaction. *)
Lemma fenced_txn w tid x : fenced w -> txn_ok w x -> fenced (set_txn tid x w).
Proof.
  intros [R T C] Hx. constructor; [done| |done]. intros j y. cbn. rewrite lookup_insert_Some.
  intros [[<- <-]|[_ Hy]]; [by destruct Hx|by destruct (T j y Hy)].
Qed.
Lemma fenced_end w tid : fenced w -> fenced (end_txn tid w).
Proof.
  intros [R T C]. constructor; [done| |done]. intros j y. cbn. rewrite lookup_delete_Some. intros [_ Hy]. by destruct (T j y Hy).
Qed.
Lemma fenced_log w e : fenced w -> commit_ok (w_fences w) e (w_log w) ->
  (forall n l, w_leases w !! n = Some l -> last_claim n (e :: w_log w) = Some (l_token l)) -> fenced (log_event e w).
Proof. intros [R T C] He Hl. constructor; [done| |done]. intros j y Hy. by destruct (T j y Hy). Qed.

Lemma claim_lease_row adv key now n k h ttl t t' : claim_lease adv key now n k h ttl t = Some t' ->
  t' = <[n := {| l_token := k; l_holder := h; l_acquired := now; l_expires := now + ttl |}]> t /\
  (t !! n = None \/ exists l, t !! n = Some l /\ l_expires l <= now).
Proof.
  unfold claim_lease. case_bool_decide; [done|]. destruct (t !! n) as [l|] eqn:E.
  - destruct (l_expires l <=? now) eqn:El; [|done]. intros [= <-]. bool_props. split; [done|]. right. by exists l.
  - intros [= <-]. split; [done|by left].
Qed.
Lemma renew_lease_row clock now n k ttl t t' : renew_lease clock now n k ttl t = Some t' ->
  exists l, t !! n = Some l /\ l_token l = k /\ clock < l_expires l /\
    t' = <[n := {| l_token := l_token l; l_holder := l_holder l; l_acquired := l_acquired l; l_expires := now + ttl |}]> t.
Proof.
  unfold renew_lease. destruct (t !! n) as [l|] eqn:E; [|done]. destruct (_ && _) eqn:Eb; [|done]. intros [= <-].
  bool_props. exists l. split; [done|]. split; [by apply String.eqb_eq|]. done.
Qed.
Lemma release_lease_row n k t m : release_lease n k t !! m = t !! m \/ (m = n /\ row_token n t = Some k /\ release_lease n k t !! m = None).
Proof.
  unfold release_lease. destruct (t !! n) as [l|] eqn:E; [|by left]. destruct (String.eqb (l_token l) k) eqn:Eb; [|by left].
  apply String.eqb_eq in Eb. destruct (decide (m = n)) as [->|Ne]; [|left; by rewrite lookup_delete_ne].
  right. unfold row_token. rewrite E, lookup_delete_eq. cbn. by rewrite Eb.
Qed.
Lemma markLost_le f : f_name (markLost f) = f_name f /\ f_released (markLost f) = f_released f.
Proof. unfold markLost. by destruct (_ || _). Qed.

Section machine.
Context (hash bigint : string -> Z).

Lemma fenced_fence w k f g : fenced w -> w_fences w !! k = Some f -> f_name g = f_name f -> (f_released f = true -> f_released g = true) ->
  fenced (set_fence k g w).
Proof.
  intros F Hk Hn Hr. apply (fenced_table w); [done| |done|done|].
  - split; [by apply (fences_le_insert _ _ f)|]. intros n. by left.
  - intros n l Hl. unfold row_token. cbn in Hl. by rewrite Hl.
Qed.
Lemma fenced_answers w q : fenced w -> fenced (set_answers q w).
Proof.
  intros F. apply (fenced_table w); [done| |done|done|].
  - split; [apply fences_le_refl|]. intros n. by left.
  - intros n l Hl. unfold row_token. cbn in Hl. by rewrite Hl.
Qed.
(** A statement that changes one row which no transaction share-locks, and keeps or drops its token. *)
Lemma fenced_leases w t n : fenced w -> share_locked w n = false -> (forall m, m <> n -> t !! m = w_leases w !! m) ->
  (forall l, t !! n = Some l -> row_token n (w_leases w) = Some (l_token l)) -> fenced (set_leases t w).
Proof.
  intros F U Ho Hn. apply (fenced_table w); [done| |done|done|].
  - split; [apply fences_le_refl|]. intros m. cbn. destruct (decide (m = n)) as [->|Ne]; [by right|]. left. unfold row_token. by rewrite Ho.
  - intros m l. cbn. destruct (decide (m = n)) as [->|Ne]; [apply Hn|]. rewrite Ho by done. intros Hl. unfold row_token. by rewrite Hl.
Qed.

Lemma lead_fenced w job scope k h now ttl w' : fenced w -> share_locked w (lease_name job scope) = false -> w_fences w !! k = None ->
  withLeaderLock_claim hash bigint job scope k h now ttl w = Leads w' -> fenced w'.
Proof.
  intros [R T C] U Hk. unfold withLeaderLock_claim. destruct (negb _); [done|]. set (n := lease_name job scope) in *.
  destruct (claim_lease _ _ _ _ _ _ _ _) as [t|] eqn:E; [|done]. intros [= <-]. apply claim_lease_row in E as [-> _].
  constructor; cbn.
  - intros m l. rewrite lookup_insert_Some. destruct (String.eqb_spec n m) as [<-|Ne]; intros [[? <-]|[? Hl]]; try done; cbn. by apply R.
  - intros tid x Hx. eapply txn_ok_respects; [|exact Hx|by apply (T tid)]. split; [by apply fences_le_fresh|].
    intros m. cbn. destruct (decide (m = n)) as [->|Ne]; [by right|]. left. unfold row_token. by rewrite lookup_insert_ne.
  - split; [done|]. eapply commits_ok_le; [|exact C]. by apply fences_le_fresh.
Qed.
Lemma verify_fenced w tid x k rest w' : fenced w -> w_txns w !! tid = Some x -> t_todo x = Some (k :: rest) ->
  assert_lease tid x k rest w = Some w' -> fenced w'.
Proof.
  intros F Hx Et. unfold assert_lease. destruct (w_fences w !! k) as [f|] eqn:Ef; [|done]. cbn.
  destruct (fi_txn _ F _ _ Hx) as [S H W]. rewrite Et in S. cbn in S.
  destruct (f_lost f); [intros [= <-]; apply fenced_log; [by apply fenced_end|done|apply F]|].
  destruct (f_released f) eqn:Er; [|destruct (lease_held _ _ _ _) eqn:Eh]; intros [= <-].
  - apply fenced_txn; [done|]. constructor; cbn; [|done|].
    + rewrite S, <- (assoc_L (++) (t_waved x)). done.
    + intros j. rewrite elem_of_app, list_elem_of_singleton. intros [?| ->]; [by apply W|by exists f].
  - apply fenced_txn; [done|]. constructor; cbn; [| |done].
    + rewrite S, map_app, <- (assoc_L (++)). cbn. solve_Permutation.
    + intros n j. rewrite elem_of_app, list_elem_of_singleton. intros [?|[= -> ->]]; [by apply H|].
      unfold lease_held in Eh. unfold row_token. destruct (w_leases w !! f_name f) as [l|]; [|done]. bool_props. cbn. by f_equal; apply String.eqb_eq.
  - apply fenced_log; [by apply fenced_end, (fenced_fence _ _ f)|done|apply F].
Qed.

Lemma act_fenced a w w' : act hash bigint a w = Some w' -> fenced w -> fenced w'.
Proof.
  intros E F. destruct a as [ms|locks|job scope k h now ttl|k now ttl| |k|k|k|tid scope|tid|tid|tid|tid]; cbn in E.
  - destruct (0 <=? ms); [|done]. injection E as <-. destruct F as [R T C]. constructor; [done| |done]. intros j y Hy. by destruct (T j y Hy).
  - injection E as <-. destruct F as [R T C]. constructor; [done| |done]. intros j y Hy. by destruct (T j y Hy).
  - destruct (_ && _) eqn:Eb; [|done]. bool_props. destruct (withLeaderLock_claim _ _ _ _ _ _ _ _ _) eqn:El; injection E as <-; try done.
    eapply lead_fenced; [done| | |exact El]; [done|by eapply bool_decide_eq_true_1].
  - destruct (w_fences w !! k) as [f|]; [|done]. cbn in E. destruct (_ && _) eqn:Eb; [|done]. bool_props.
    destruct (renew_lease _ _ _ _ _ _) as [t|] eqn:Er; injection E as <-; [|by apply fenced_answers].
    apply renew_lease_row in Er as (l & Hl & <- & _ & ->).
    apply fenced_answers, (fenced_leases _ _ (f_name f)); [done|done| |].
    + intros m Hm. by rewrite lookup_insert_ne.
    + intros l'. rewrite lookup_insert_eq. intros [= <-]. unfold row_token. by rewrite Hl.
  - destruct (w_answers w) as [|[k ok] q]; [done|]. destruct (w_fences w !! k) as [f|] eqn:Ef; [|done]. injection E as <-.
    apply fenced_answers. destruct ok; [done|]. apply (fenced_fence _ _ f); try done; apply markLost_le || by rewrite (proj2 (markLost_le f)).
  - destruct (w_fences w !! k) as [f|] eqn:Ef; [|done]. injection E as <-.
    apply (fenced_fence _ _ f); try done; apply markLost_le || by rewrite (proj2 (markLost_le f)).
  - destruct (w_fences w !! k) as [f|] eqn:Ef; [|done]. injection E as <-. by apply (fenced_fence _ _ f).
  - destruct (w_fences w !! k) as [f|] eqn:Ef; [|done]. cbn in E. destruct (_ && _) eqn:Eb; [|done]. injection E as <-. bool_props.
    apply (fenced_leases _ _ (f_name f)); [done|done| |].
    + intros m Hm. destruct (release_lease_row (f_name f) k (w_leases w) m) as [->|(? & _)]; done.
    + intros l Hl. destruct (release_lease_row (f_name f) k (w_leases w) (f_name f)) as [Hr|(_ & _ & Hr)]; rewrite Hr in Hl; [|done].
      unfold row_token. by rewrite Hl.
  - destruct (_ && _); [|done]. injection E as <-. apply fenced_txn; [done|]. constructor; cbn; [done|set_solver|set_solver].
  - destruct (w_txns w !! tid) as [x|] eqn:Hx; [|done]. cbn in E. destruct (t_todo x) eqn:Et; [done|]. injection E as <-.
    apply fenced_txn; [done|]. destruct (fi_txn _ F _ _ Hx) as [S H W]. rewrite Et in S. by constructor.
  - destruct (w_txns w !! tid) as [x|] eqn:Hx; [|done]. cbn in E. destruct (t_todo x) as [[|k rest]|] eqn:Et; [done| |done].
    by eapply verify_fenced.
  - destruct (w_txns w !! tid) as [x|] eqn:Hx; [|done]. cbn in E. destruct (t_todo x) as [[|? ?]|] eqn:Et; [|done|done]. injection E as <-.
    destruct (fi_txn _ F _ _ Hx) as [S H W]. rewrite Et in S. cbn in S. rewrite app_nil_r in S.
    apply fenced_log; [by apply fenced_end| |apply F]. split; [done|]. split; [|done]. intros n k Hk.
    specialize (H _ _ Hk). unfold row_token in H. apply fmap_Some in H as (l & Hl & ->). by apply (fi_row _ F).
  - destruct (w_txns w !! tid) as [x|]; [|done]. injection E as <-. by apply fenced_end.
Qed.

Lemma run_fenced l w w' : run_actions hash bigint l w = Some w' -> fenced w -> fenced w'.
Proof.
  revert w. induction l as [|a r IH]; intros w E F; cbn in E; [by injection E as <-|].
  destruct (act hash bigint a w) as [v|] eqn:Ea; [|done]. cbn in E. by apply (IH v), (act_fenced a w).
Qed.
Lemma empty_fenced : fenced empty_world.
Proof. by constructor. Qed.
Lemma commits_ok_at fs post e pre : commits_ok fs (post ++ e :: pre) -> commit_ok fs e pre.
Proof. induction post as [|x r IH]; cbn; [by intros [? _]|]. intros [_ H]. by apply IH. Qed.

(** C24: Fencing of background jobs. Whatever the interleaving of claims, renewals and their answers, releases, expiries
    and transactions of any number of processes, a transaction that commits under a lease commits while that lease's
    pass is the last that claimed the name: every lease of its scope is either held, with no other pass having claimed
    the name before the commit, or was given back by its own pass. A worker that lost its lease never commits. *)
Theorem lease_fencing acts w post tid scope held waved pre (R : run_actions hash bigint acts empty_world = Some w)
    (L : w_log w = post ++ Committed tid scope held waved :: pre) :
  scope ≡ₚ map snd held ++ waved /\
  (forall name token, (name, token) ∈ held -> last_claim name pre = Some token) /\
  (forall token, token ∈ waved -> exists f, w_fences w !! token = Some f /\ f_released f = true).
Proof.
  pose proof (fi_log _ (run_fenced _ _ _ R empty_fenced)) as C. rewrite L in C. by apply commits_ok_at in C.
Qed.

(** * Handover *)
(** The name of the last claim whose row is gone was released; no row outlives a term from now. *)
Record handed (w : World) : Prop := {
  ha_gone : forall n k, last_claim n (w_log w) = Some k -> w_leases w !! n = None -> released_in (w_fences w) k;
  ha_term : forall n l, w_leases w !! n = Some l -> l_expires l <= w_clock w + LEASE_TTL_MS
}.
Definition within_term (a : action) : Prop :=
  match a with Lead _ _ _ _ _ ttl | Renew _ _ ttl => ttl <= LEASE_TTL_MS | _ => True end.

Lemma handed_keep w w' : handed w -> fences_le (w_fences w) (w_fences w') -> w_clock w <= w_clock w' -> w_leases w' = w_leases w ->
  (forall n, last_claim n (w_log w') = last_claim n (w_log w)) -> handed w'.
Proof.
  intros [G T] F C L Q. constructor.
  - intros n k. rewrite Q, L. intros H1 H2. eapply released_le; eauto.
  - intros n l. rewrite L. intros H. specialize (T _ _ H). lia.
Qed.
Lemma handed_fence w k f g : handed w -> w_fences w !! k = Some f -> f_name g = f_name f -> (f_released f = true -> f_released g = true) ->
  handed (set_fence k g w).
Proof. intros H Hk Hn Hr. apply (handed_keep w); try done. by apply (fences_le_insert _ _ f). Qed.
Lemma handed_lost w k f : handed w -> w_fences w !! k = Some f -> handed (set_fence k (markLost f) w).
Proof. intros H Hk. destruct (markLost_le f) as [En Er]. apply (handed_fence _ _ f); congruence. Qed.

Lemma lead_handed w job scope k h now ttl w' : handed w -> now <= w_clock w -> ttl <= LEASE_TTL_MS -> w_fences w !! k = None ->
  withLeaderLock_claim hash bigint job scope k h now ttl w = Leads w' -> handed w'.
Proof.
  intros [G T] Hn Ht Hk. unfold withLeaderLock_claim. destruct (negb _); [done|]. set (n := lease_name job scope).
  destruct (claim_lease _ _ _ _ _ _ _ _) as [t|] eqn:E; [|done]. intros [= <-]. apply claim_lease_row in E as [-> _]. constructor; cbn.
  - intros m j. rewrite lookup_insert_None. destruct (String.eqb_spec n m) as [<-|Ne]; [by intros _ [_ ?]|]. intros H1 [H2 _].
    eapply released_le; [by apply fences_le_fresh|by eapply G].
  - intros m l. rewrite lookup_insert_Some. intros [[<- <-]|[_ Hl]]; cbn; [lia|by eapply T].
Qed.
Lemma act_handed a w w' : act hash bigint a w = Some w' -> within_term a -> fenced w -> handed w -> handed w'.
Proof.
  intros E B F H. pose proof (fun w' => handed_keep w w' H) as K.
  destruct a as [ms|locks|job scope k h now ttl|k now ttl| |k|k|k|tid scope|tid|tid|tid|tid]; cbn in E, B.
  - destruct (0 <=? ms) eqn:Em; [|done]. injection E as <-. bool_props. apply K; try done; [apply fences_le_refl|cbn; lia].
  - injection E as <-. apply K; try done; apply fences_le_refl.
  - destruct (_ && _) eqn:Eb; [|done]. bool_props. destruct (withLeaderLock_claim _ _ _ _ _ _ _ _ _) eqn:El; injection E as <-; try done.
    eapply lead_handed; [done| |exact B| |exact El]; [done|by eapply bool_decide_eq_true_1].
  - destruct (w_fences w !! k) as [f|]; [|done]. cbn in E. destruct (_ && _) eqn:Eb; [|done]. bool_props.
    destruct (renew_lease _ _ _ _ _ _) as [t|] eqn:Er; injection E as <-; [|apply K; try done; apply fences_le_refl].
    apply renew_lease_row in Er as (l & Hl & <- & _ & ->). destruct H as [G T]. constructor; cbn.
    + intros n j. rewrite lookup_insert_None. intros Hj [Hn _]. by eapply G.
    + intros n m. rewrite lookup_insert_Some. intros [[<- <-]|[_ Hm]]; cbn; [lia|by eapply T].
  - destruct (w_answers w) as [|[k ok] q]; [done|]. destruct (w_fences w !! k) as [f|] eqn:Ef; [|done]. injection E as <-.
    eapply (handed_keep (if ok : bool then w else set_fence k (markLost f) w)); try done; [|apply fences_le_refl].
    destruct ok; [done|]. by apply handed_lost.
  - destruct (w_fences w !! k) as [f|] eqn:Ef; [|done]. injection E as <-. by apply handed_lost.
  - destruct (w_fences w !! k) as [f|] eqn:Ef; [|done]. injection E as <-. by apply (handed_fence _ _ f).
  - destruct (w_fences w !! k) as [f|] eqn:Ef; [|done]. cbn in E. destruct (_ && _) eqn:Eb; [|done]. injection E as <-. bool_props.
    destruct H as [G T]. constructor; cbn.
    + intros n j Hj Hn. destruct (release_lease_row (f_name f) k (w_leases w) n) as [Hr|(-> & Hr & _)]; [rewrite Hr in Hn; by eapply G|].
      unfold row_token in Hr. apply fmap_Some in Hr as (l & Hl & ->). rewrite (fi_row _ F _ _ Hl) in Hj. injection Hj as <-. by exists f.
    + intros n l Hl. destruct (release_lease_row (f_name f) k (w_leases w) n) as [Hr|(_ & _ & Hr)]; rewrite Hr in Hl; [by eapply T|done].
  - destruct (_ && _); [|done]. injection E as <-. apply K; try done; apply fences_le_refl.
  - destruct (w_txns w !! tid) as [x|]; [|done]. cbn in E. destruct (t_todo x); [done|]. injection E as <-. apply K; try done; apply fences_le_refl.
  - destruct (w_txns w !! tid) as [x|]; [|done]. cbn in E. destruct (t_todo x) as [[|k rest]|]; [done| |done].
    unfold assert_lease in E. destruct (w_fences w !! k) as [f|] eqn:Ef; [|done]. cbn in E.
    repeat (case_match; try done); injection E as <-; try (apply K; try done; apply fences_le_refl).
    apply (handed_keep (set_fence k (set_lost f) w)); try done; [by apply (handed_fence _ _ f)|apply fences_le_refl].
  - destruct (w_txns w !! tid) as [x|]; [|done]. cbn in E. destruct (t_todo x) as [[|? ?]|]; [|done|done]. injection E as <-.
    apply K; try done; apply fences_le_refl.
  - destruct (w_txns w !! tid) as [x|]; [|done]. injection E as <-. apply K; try done; apply fences_le_refl.
Qed.
Lemma run_handed l w w' : run_actions hash bigint l w = Some w' -> Forall within_term l -> fenced w -> handed w -> fenced w' /\ handed w'.
Proof.
  revert w. induction l as [|a r IH]; intros w E B F H; cbn in E; [by injection E as <-|].
  destruct (act hash bigint a w) as [v|] eqn:Ea; [|done]. cbn in E. inversion B; subst.
  apply (IH v); [done..|by apply (act_fenced a w)|by apply (act_handed a w)].
Qed.

Definition known_free (w : World) (job : string) (scope : option string) : Prop :=
  known_job job = true /\ (lock_halves (legacy_key hash bigint job scope) ∉ w_advisory w) /\ share_locked w (lease_name job scope) = false.

(** C25: Handover of a lease, in every reachable state of passes that use the code's term. Safety: a pass becomes the
    leader of a name only when nobody led it before, or its last leader gave the lease back, or that leader's term has
    run out (so that every later commit check of it fails). Liveness: a crashed leader never blocks a job, since one
    term later, with no commit in progress and no runner of the old protocol, a new pass claims the lease; every
    earlier pass of that name then fails its commit check. *)
Theorem lease_handover acts w job scope token holder (R : run_actions hash bigint acts empty_world = Some w) (B : Forall within_term acts)
    (Fr : w_fences w !! token = None) :
  let name := lease_name job scope in
  (forall now ttl w' k, act hash bigint (Lead job scope token holder now ttl) w = Some w' -> w' <> w -> last_claim name (w_log w) = Some k ->
     released_in (w_fences w) k \/ exists l, w_leases w !! name = Some l /\ l_token l = k /\ l_expires l <= now <= w_clock w) /\
  (known_free w job scope ->
     exists w', run_actions hash bigint [Wait LEASE_TTL_MS; Lead job scope token holder (w_clock w + LEASE_TTL_MS) LEASE_TTL_MS] w = Some w' /\
       last_claim name (w_log w') = Some token /\ lease_held (w_clock w') name token (w_leases w') = true /\
       forall k, k <> token -> lease_held (w_clock w') name k (w_leases w') = false).
Proof.
  intros name. destruct (run_handed _ _ _ R B empty_fenced ltac:(by constructor)) as [F [G T]]. split.
  - intros now ttl w' k E Hw Hk. cbn in E. destruct (_ && _) eqn:Eb; [|done]. bool_props.
    unfold withLeaderLock_claim in E. destruct (negb _); [by injection E as <-|]. fold name in E.
    destruct (claim_lease _ _ _ _ _ _ _ _) as [t|] eqn:Ec; [|by injection E as <-].
    apply claim_lease_row in Ec as [_ [En|(l & Hl & Hx)]]; [left; by eapply G|]. right. exists l.
    rewrite (fi_row _ F _ _ Hl) in Hk. by injection Hk as <-.
  - intros (Kj & Ka & Ku). cbn -[Z.add withLeaderLock_claim]. cbn in Ku. fold name. replace (share_locked _ name) with false by done.
    rewrite Z.leb_refl. rewrite (bool_decide_true (w_fences w !! token = None)) by done. cbn -[withLeaderLock_claim Z.add].
    unfold withLeaderLock_claim. rewrite Kj. cbn -[Z.add LEASE_TTL_MS]. fold name. unfold claim_lease. rewrite bool_decide_false by done.
    assert (W : forall l, w_leases w !! name = Some l -> (l_expires l <=? w_clock w + LEASE_TTL_MS) = true) by (intros l Hl; apply Z.leb_le; by eapply T).
    destruct (w_leases w !! name) as [l|] eqn:El; [rewrite (W l) by done|]; cbn -[Z.add LEASE_TTL_MS].
    all: eexists; split; [reflexivity|]; cbn -[Z.add LEASE_TTL_MS]; rewrite String.eqb_refl; split; [done|];
      unfold lease_held; rewrite lookup_insert_eq; cbn -[Z.add LEASE_TTL_MS]; split;
      [rewrite String.eqb_refl; apply Z.ltb_lt; unfold LEASE_TTL_MS; lia|].
    all: intros k Hk; destruct (String.eqb_spec token k); [congruence|done].
Qed.
End machine.

(** * The signal *)
Section signal.
Context (hash bigint : string -> Z).

(** A loss that a commit check finds first ([f.lost = true]) makes every later [markLost] return early, so the abort
    signal of the pass never fires, whatever happens afterwards. *)
Definition silent (k : string) (w : World) : Prop := exists f, w_fences w !! k = Some f /\ f_lost f = true /\ f_aborted f = false.

Lemma silent_other w j k g : silent k w -> j <> k -> silent k (set_fence j g w).
Proof. intros (f & Hf & H) N. exists f. cbn. by rewrite lookup_insert_ne. Qed.
Lemma silent_update w j g : silent j w -> f_lost g = true -> f_aborted g = false -> silent j (set_fence j g w).
Proof. intros _ Hl Ha. exists g. cbn. by rewrite lookup_insert_eq. Qed.
Lemma silent_fence w k j f (u : LeaseFence -> LeaseFence) : silent k w -> w_fences w !! j = Some f ->
  (f_lost f = true -> f_lost (u f) = true /\ f_aborted (u f) = f_aborted f) -> silent k (set_fence j (u f) w).
Proof.
  intros S Hf Hu. destruct (decide (j = k)) as [->|N]; [|by apply silent_other]. pose proof S as (g & Hg & Hl & Ha).
  rewrite Hf in Hg. injection Hg as <-. destruct (Hu Hl) as [E1 E2]. apply silent_update; congruence.
Qed.
Lemma silent_marked f : f_lost f = true -> f_lost (markLost f) = true /\ f_aborted (markLost f) = f_aborted f.
Proof. intros H. unfold markLost. by rewrite H. Qed.

Lemma act_silent k a w w' : act hash bigint a w = Some w' -> silent k w -> silent k w'.
Proof.
  intros E S. destruct a as [ms|locks|job scope j h now ttl|j now ttl| |j|j|j|tid scope|tid|tid|tid|tid]; cbn in E.
  - destruct (0 <=? ms); [|done]. by injection E as <-.
  - by injection E as <-.
  - destruct (_ && _) eqn:Eb; [|done]. bool_props. unfold withLeaderLock_claim in E. destruct (negb _); [by injection E as <-|].
    destruct (claim_lease _ _ _ _ _ _ _ _) as [t|]; injection E as <-; [|done]. pose proof S as (f & Hf & _).
    assert (j <> k) by (intros ->; match goal with H : bool_decide _ = true |- _ => apply bool_decide_eq_true_1 in H end; congruence).
    destruct S as (g & Hg & H'). exists g. cbn. by rewrite lookup_insert_ne.
  - destruct (w_fences w !! j); [|done]. cbn in E. destruct (_ && _); [|done]. by destruct (renew_lease _ _ _ _ _ _); injection E as <-.
  - destruct (w_answers w) as [|[j ok] q]; [done|]. destruct (w_fences w !! j) as [f|] eqn:Ef; [|done]. injection E as <-.
    destruct ok; [done|]. destruct (silent_fence w k j f markLost S Ef (silent_marked f)) as (g & Hg). by exists g.
  - destruct (w_fences w !! j) as [f|] eqn:Ef; [|done]. injection E as <-. by apply (silent_fence _ _ _ f markLost), silent_marked.
  - destruct (w_fences w !! j) as [f|] eqn:Ef; [|done]. injection E as <-. by apply (silent_fence _ _ _ f set_released).
  - destruct (w_fences w !! j); [|done]. cbn in E. destruct (_ && _); [|done]. by injection E as <-.
  - destruct (_ && _); [|done]. by injection E as <-.
  - destruct (w_txns w !! tid) as [x|]; [|done]. cbn in E. destruct (t_todo x); [done|]. by injection E as <-.
  - destruct (w_txns w !! tid) as [x|]; [|done]. cbn in E. destruct (t_todo x) as [[|j rest]|]; [done| |done].
    unfold assert_lease in E. destruct (w_fences w !! j) as [f|] eqn:Ef; [|done]. cbn in E.
    repeat (case_match; try done); injection E as <-; try done.
    destruct (silent_fence w k j f set_lost S Ef ltac:(done)) as (g & Hg). by exists g.
  - destruct (w_txns w !! tid) as [x|]; [|done]. cbn in E. destruct (t_todo x) as [[|? ?]|]; [|done|done]. by injection E as <-.
  - destruct (w_txns w !! tid) as [x|]; [|done]. by injection E as <-.
Qed.
Lemma lost_at_commit_never_signals l w w' k : run_actions hash bigint l w = Some w' -> silent k w -> silent k w'.
Proof.
  revert w. induction l as [|a r IH]; intros w E S; cbn in E; [by injection E as <-|].
  destruct (act hash bigint a w) as [v|] eqn:Ea; [|done]. cbn in E. by apply (IH v), (act_silent k a w).
Qed.
End signal.

(** * Runs *)
Definition sample_hash (_ : string) : Z := -1.
Definition sample_bigint (_ : string) : Z := Z.lor NAMESPACE 6.
(** Pass [a] of the e-mail job stalls past its term while its transaction runs; pass [b] takes over and commits; [a]'s
    late commit is refused, and its renewal then has nothing left to signal. *)
Definition stalled_pass : list action :=
  [Wait 1000; Lead "emails" None "a" "host:1" 1000 LEASE_TTL_MS; Begin 1 ["a"]; Wait LEASE_TTL_MS;
   Lead "emails" None "b" "host:2" 61000 LEASE_TTL_MS; Begin 2 ["b"]; Worked 2; Verify 2; Commit 2;
   Worked 1; Verify 1; Renew "a" 61000 LEASE_TTL_MS; Renewed; Finish "b"; Free "b"].
Definition after_stall : World := match run_actions sample_hash sample_bigint stalled_pass empty_world with Some w => w | None => empty_world end.
Lemma lease_fencing_witness :
  w_log after_stall = [Refused 1 "emails"; Committed 2 ["b"] [("emails", "b")] []; Claimed "emails" "b"; Claimed "emails" "a"] /\
  last_claim "emails" [Claimed "emails" "b"; Claimed "emails" "a"] = Some "b" /\ silent "a" after_stall.
Proof.
  assert (R : run_actions sample_hash sample_bigint stalled_pass empty_world = Some after_stall) by (vm_compute; reflexivity).
  split; [vm_compute; reflexivity|]. split.
  - destruct (lease_fencing sample_hash sample_bigint stalled_pass after_stall [Refused 1 "emails"] 2 ["b"] [("emails", "b")] []
      [Claimed "emails" "b"; Claimed "emails" "a"] R ltac:(vm_compute; reflexivity)) as (_ & H & _). apply H. by left.
  - eexists. vm_compute. repeat split.
Defined.

Definition crashed_pass : list action := [Lead "emails" None "a" "host:1" 0 LEASE_TTL_MS; Begin 1 ["a"]; Worked 1; Verify 1; Rollback 1].
Definition after_crash : World := match run_actions sample_hash sample_bigint crashed_pass empty_world with Some w => w | None => empty_world end.
Lemma lease_handover_witness :
  lease_held 0 "emails" "a" (w_leases after_crash) = true /\
  exists w', run_actions sample_hash sample_bigint [Wait LEASE_TTL_MS; Lead "emails" None "b" "host:2" LEASE_TTL_MS LEASE_TTL_MS] after_crash = Some w' /\
    last_claim "emails" (w_log w') = Some "b".
Proof.
  split; [vm_compute; reflexivity|].
  assert (R : run_actions sample_hash sample_bigint crashed_pass empty_world = Some after_crash) by (vm_compute; reflexivity).
  destruct (lease_handover sample_hash sample_bigint crashed_pass after_crash "emails" None "b" "host:2" R
    ltac:(repeat constructor; vm_compute; discriminate) ltac:(vm_compute; reflexivity)) as [_ H].
  destruct H as (w' & E & L & _); [|by exists w'].
  split; [vm_compute; reflexivity|]. split; [|vm_compute; reflexivity]. vm_compute. by inversion 1.
Defined.

(** The registry: no two jobs share a name or a lock of the old scheme. *)
Lemma job_keys_distinct : NoDup (map fst JOB_KEYS) /\ NoDup (map (fun e => lock_halves (snd e)) JOB_KEYS).
Proof. split; apply (bool_decide_unpack _); vm_compute; exact I. Qed.
