(* ===== verification/Outbox.v ===== *)
(** The transactional outboxes share one discipline: a row is claimed by a short transaction that counts the attempt,
    the message goes out with no connection held, and a second transaction settles the row only if the claim is still
    current. This file has the rows and that discipline, the interface an outbox implements, and what every outbox
    that keeps its laws guarantees along any run of workers, crashes and other writers. The implementations are
    [EmailOutbox], [WebhookOutbox] and [PushOutbox]. *)
From Stdlib Require Import ZArith QArith Qround List Bool String Ascii Lia.
From stdpp Require Import base list strings gmap relations sorting.
From S2P Require Import Prelude.
Local Open Scope string_scope.
Local Open Scope list_scope.
Local Open Scope Z_scope.

(** * Rows *)
(** [Finished] is ['sent'] (['delivered'] for webhooks); [Dead] is ['dead'] (['failed']). *)
Inductive QStatus := Pending | Processing | Finished | Dead.
#[export] Instance QStatus_eq_dec : EqDecision QStatus.
Proof. solve_decision. Defined.

Record Queued (B : Type) := {
  q_store : string; q_body : B; q_status : QStatus; q_attempts : Z; q_lastError : option string; q_nextAttemptAt : Z;
  q_doneAt : option Z; q_updatedAt : Z; q_claimedAt : option Z; q_firstFailedAt : option Z
}.
Arguments q_store {B} _. Arguments q_body {B} _. Arguments q_status {B} _. Arguments q_attempts {B} _. Arguments q_lastError {B} _.
Arguments q_nextAttemptAt {B} _. Arguments q_doneAt {B} _. Arguments q_updatedAt {B} _. Arguments q_claimedAt {B} _. Arguments q_firstFailedAt {B} _.
Abbreviation rows B := (gmap string (Queued B)).

Section rows.
Context {B : Type}.

(** The column defaults of a new row. *)
Definition new_row (store : string) (body : B) (now : Z) : Queued B :=
  {| q_store := store; q_body := body; q_status := Pending; q_attempts := 0; q_lastError := None; q_nextAttemptAt := now;
     q_doneAt := None; q_updatedAt := now; q_claimedAt := None; q_firstFailedAt := None |}.
(** [SET status = 'processing', attempts = attempts + 1, updated_at = now(), claimed_at = now()]. *)
Definition claimed_row (now : Z) (r : Queued B) : Queued B :=
  {| q_store := q_store r; q_body := q_body r; q_status := Processing; q_attempts := q_attempts r + 1; q_lastError := q_lastError r;
     q_nextAttemptAt := q_nextAttemptAt r; q_doneAt := q_doneAt r; q_updatedAt := now; q_claimedAt := Some now; q_firstFailedAt := q_firstFailedAt r |}.
(** A delivery that succeeded; [err] is what becomes of [last_error]. *)
Definition finished_row (now : Z) (err : option string) (r : Queued B) : Queued B :=
  {| q_store := q_store r; q_body := q_body r; q_status := Finished; q_attempts := q_attempts r; q_lastError := err;
     q_nextAttemptAt := q_nextAttemptAt r; q_doneAt := Some now; q_updatedAt := now; q_claimedAt := None; q_firstFailedAt := q_firstFailedAt r |}.
(** A delivery that failed: its status, the next attempt and the first failure, stamped once by the database clock. *)
Definition failed_row (status : QStatus) (now db_now next : Z) (err : string) (r : Queued B) : Queued B :=
  {| q_store := q_store r; q_body := q_body r; q_status := status; q_attempts := q_attempts r; q_lastError := Some err;
     q_nextAttemptAt := next; q_doneAt := q_doneAt r; q_updatedAt := now; q_claimedAt := None;
     q_firstFailedAt := Some (match q_firstFailedAt r with Some t => t | None => db_now end) |}.

(** What a worker keeps of a row between the two transactions. *)
Record Claim := { c_id : string; c_store : string; c_body : B; c_attempts : Z }.
(** [status = 'processing' AND attempts = delivery.attempts], in the store of the transaction. *)
Definition current_claim (c : Claim) (r : Queued B) : bool :=
  String.eqb (q_store r) (c_store c) && bool_decide (q_status r = Processing) && (q_attempts r =? c_attempts c).

(** The rows a claim statement selects: [scan] is the order in which it visits the rows, less those that another
    transaction has locked ([FOR UPDATE SKIP LOCKED]); ties of [later] keep that order. *)
Definition select_due (due : Queued B -> bool) (later : string * Queued B -> string * Queued B -> bool) (scan : list string) (limit : nat)
    (t : rows B) : list (string * Queued B) :=
  take limit (sort_stable later (omap (fun id => match t !! id with Some r => if due r then Some (id, r) else None | None => None end) scan)).
Definition mark_claimed (now : Z) (picked : list (string * Queued B)) (t : rows B) : rows B :=
  foldr (fun e t => <[fst e := claimed_row now (snd e)]> t) t picked.
Definition claim_of (e : string * Queued B) : Claim :=
  {| c_id := fst e; c_store := q_store (snd e); c_body := q_body (snd e); c_attempts := q_attempts (snd e) + 1 |}.
(** An [UPDATE … WHERE <fence>]: whether it found its row, and the table. *)
Definition fenced_update (c : Claim) (f : Queued B -> Queued B) (t : rows B) : bool * rows B :=
  match t !! c_id c with
  | Some r => if current_claim c r then (true, <[c_id c := f r]> t) else (false, t)
  | None => (false, t)
  end.
End rows.
Arguments Claim B : clear implicits.

(** [normalize…BatchLimit]: absent, NaN and infinite limits are [None]. *)
Definition batch_limit (default max : Z) (limit : option Q) : Z :=
  match limit with None => default | Some q => Z.min max (Z.max 1 (Qfloor q)) end.

(** * The interface *)
Inductive Verdict := VDone | VRetry | VDead | VStale.
#[export] Instance Verdict_eq_dec : EqDecision Verdict.
Proof. solve_decision. Defined.
Definition verdict_status (v : Verdict) : QStatus := match v with VDone => Finished | VDead => Dead | _ => Pending end.

(** A database [D] with an outbox of bodies [B], the arguments [K] of a claim, delivery outcomes [O], clocks and
    generated ids [A] of a settlement, and the other writers' actions [X] on the rows, with the ids they generate. *)
Class Outbox (D B K O A X : Type) := {
  ob_table : D -> rows B;
  ob_claim : K -> list string -> D -> D * list (Claim B);
  ob_settle : A -> Claim B -> O -> D -> D * Verdict;
  ob_other : X -> D -> D;
  ob_ids : X -> list string
}.

(** What another writer may do to one row: add it under a new id, edit it without touching its delivery state, put a
    claimed row back, or remove it. *)
Inductive row_change {B} (seen : gset string) (id : string) : option (Queued B) -> option (Queued B) -> Prop :=
| row_same o : row_change seen id o o
| row_new r : id ∉ seen -> q_status r = Pending -> q_attempts r = 0 -> row_change seen id None (Some r)
| row_edited r r' : q_status r' = q_status r -> q_attempts r' = q_attempts r -> row_change seen id (Some r) (Some r')
| row_requeued r r' : q_status r = Processing -> q_status r' = Pending -> q_attempts r' = q_attempts r -> row_change seen id (Some r) (Some r')
| row_removed r : row_change seen id (Some r) None.

Definition open_row {B} (r : Queued B) : Prop := q_status r = Pending \/ q_status r = Processing.
Class OutboxLaws (D B K O A X : Type) `{Outbox D B K O A X} := {
  claim_law k scan d d' cs : NoDup scan -> ob_claim k scan d = (d', cs) ->
    NoDup (map c_id cs) /\
    (forall c, c ∈ cs -> exists r r', ob_table d !! c_id c = Some r /\ open_row r /\ c_attempts c = q_attempts r + 1 /\
       ob_table d' !! c_id c = Some r' /\ q_attempts r' = q_attempts r + 1 /\ q_status r' = Processing) /\
    (forall id, id ∉ map c_id cs -> ob_table d' !! id = ob_table d !! id);
  settle_law a c o d d' v : ob_settle a c o d = (d', v) ->
    match ob_table d !! c_id c with
    | Some r => if current_claim c r
                then v <> VStale /\ exists r', ob_table d' = <[c_id c := r']> (ob_table d) /\ q_attempts r' = q_attempts r /\ q_status r' = verdict_status v
                else ob_table d' = ob_table d
    | None => ob_table d' = ob_table d
    end;
  other_law x d seen id : (forall i, i ∈ ob_ids x -> i ∉ seen) -> (forall i, is_Some (ob_table d !! i) -> i ∈ seen) ->
    row_change seen id (ob_table d !! id) (ob_table (ob_other x d) !! id)
}.

(** * The machine *)
(** Any number of workers and processes: the database, the ids ever used, the claims not yet sent, the sent ones not
    yet settled, the attempts that went out, and the settlements that were current. *)
Record QRun (D B O : Type) := {
  r_db : D; r_seen : gset string; r_todo : list (Claim B); r_sent : list (Claim B * O); r_sends : list (string * Z);
  r_finals : list (string * Z * Verdict)
}.
Arguments r_db {D B O} _. Arguments r_seen {D B O} _. Arguments r_todo {D B O} _. Arguments r_sent {D B O} _.
Arguments r_sends {D B O} _. Arguments r_finals {D B O} _.

Section machine.
Context {D B K O A X : Type} `{!Outbox D B K O A X}.

Definition is_current (c : Claim B) (d : D) : bool := match ob_table d !! c_id c with Some r => current_claim c r | None => false end.
Definition row_ids (d : D) : gset string := dom (ob_table d).

Inductive qstep : QRun D B O -> QRun D B O -> Prop :=
| q_claim w k scan d' cs : NoDup scan -> ob_claim k scan (r_db w) = (d', cs) ->
    qstep w {| r_db := d'; r_seen := r_seen w; r_todo := r_todo w ++ cs; r_sent := r_sent w; r_sends := r_sends w; r_finals := r_finals w |}
| q_send w l c r o : r_todo w = l ++ c :: r ->
    qstep w {| r_db := r_db w; r_seen := r_seen w; r_todo := l ++ r; r_sent := r_sent w ++ [(c, o)];
               r_sends := r_sends w ++ [(c_id c, c_attempts c)]; r_finals := r_finals w |}
| q_settle w l c o r a d' v : r_sent w = l ++ (c, o) :: r -> ob_settle a c o (r_db w) = (d', v) ->
    qstep w {| r_db := d'; r_seen := r_seen w; r_todo := r_todo w; r_sent := l ++ r; r_sends := r_sends w;
               r_finals := if is_current c (r_db w) then r_finals w ++ [(c_id c, c_attempts c, v)] else r_finals w |}
| q_crash w todo sent : sublist todo (r_todo w) -> sublist sent (r_sent w) ->   (* a process dies with its claims *)
    qstep w {| r_db := r_db w; r_seen := r_seen w; r_todo := todo; r_sent := sent; r_sends := r_sends w; r_finals := r_finals w |}
| q_other w x : (forall i, i ∈ ob_ids x -> i ∉ r_seen w) ->
    qstep w {| r_db := ob_other x (r_db w); r_seen := r_seen w ∪ row_ids (ob_other x (r_db w)); r_todo := r_todo w; r_sent := r_sent w;
               r_sends := r_sends w; r_finals := r_finals w |}.
Definition initial_run (d : D) : QRun D B O :=
  {| r_db := d; r_seen := ∅; r_todo := []; r_sent := []; r_sends := []; r_finals := [] |}.

Definition terminal (v : Verdict) : bool := bool_decide (v = VDone) || bool_decide (v = VDead).
Definition outcomes (w : QRun D B O) : list (string * Z * Verdict) := List.filter (fun f => terminal (snd f)) (r_finals w).
End machine.
