(* ===== verification/OutboxFacts.v ===== *)
(** What every outbox that keeps the laws of [Outbox] guarantees along any run: each attempt goes out and settles at most
    once, a row has at most one final outcome, and its status tells that outcome. *)
From Stdlib Require Import ZArith QArith List Bool String Ascii Lia.
From stdpp Require Import base list strings gmap relations sorting.
From S2P Require Import Prelude Outbox.
Local Open Scope string_scope.
Local Open Scope list_scope.
Local Open Scope Z_scope.

(** * Rows *)
Section rows.
Context {B : Type}.
Implicit Types (t : rows B) (r : Queued B).

Lemma mark_claimed_out now picked t id : id ∉ map fst picked -> mark_claimed now picked t !! id = t !! id.
Proof.
  induction picked as [|[i r] p IH]; [done|]. cbn. rewrite not_elem_of_cons. intros [N H]. rewrite lookup_insert_ne by done. by apply IH.
Qed.
Lemma mark_claimed_in now picked t id r : NoDup (map fst picked) -> (id, r) ∈ picked -> mark_claimed now picked t !! id = Some (claimed_row now r).
Proof.
  induction picked as [|[i s] p IH]; [by intros _ ?%elem_of_nil|]. cbn. rewrite NoDup_cons, elem_of_cons. intros [Hi Hn] [[= -> ->]|Hp].
  - by rewrite lookup_insert_eq.
  - rewrite lookup_insert_ne; [by apply IH|]. intros ->. apply Hi. by apply (list_elem_of_fmap_2 fst _ (id, r)).
Qed.
Lemma select_due_spec due later scan limit t id r : (id, r) ∈ select_due due later scan limit t -> t !! id = Some r /\ due r = true.
Proof.
  unfold select_due. intros H. apply (elem_of_list_take _ _ _) in H || (apply elem_of_take in H as (i & H & _); apply list_elem_of_lookup_2 in H).
  rewrite sort_stable_perm in H. apply list_elem_of_omap in H as (j & _ & H).
  destruct (t !! j) as [s|] eqn:E; [|done]. destruct (due s) eqn:Es; [|done]. by injection H as -> ->.
Qed.
Lemma select_due_ids due later scan limit t : NoDup scan -> NoDup (map fst (select_due due later scan limit t)).
Proof.
  intros Hn. unfold select_due. eapply sublist_NoDup; [|apply (fmap_sublist fst), sublist_take].
  change (NoDup (fst <$> sort_stable later (omap (fun id => match t !! id with Some r => if due r then Some (id, r) else None | None => None end) scan))).
  rewrite sort_stable_perm. eapply sublist_NoDup; [exact Hn|]. clear Hn. induction scan as [|i s IH]; cbn; [constructor|].
  destruct (t !! i) as [r|]; [|by constructor]. destruct (due r); cbn; by constructor.
Qed.
(** Claiming open rows keeps the interface's law. *)
Lemma claim_marked now picked t : NoDup (map fst picked) -> (forall id r, (id, r) ∈ picked -> t !! id = Some r /\ open_row r) ->
  NoDup (map c_id (map claim_of picked)) /\
  (forall c, c ∈ map claim_of picked -> exists r r', t !! c_id c = Some r /\ open_row r /\ c_attempts c = q_attempts r + 1 /\
     mark_claimed now picked t !! c_id c = Some r' /\ q_attempts r' = q_attempts r + 1 /\ q_status r' = Processing) /\
  (forall id, id ∉ map c_id (map claim_of picked) -> mark_claimed now picked t !! id = t !! id).
Proof.
  intros Hn Hp. rewrite map_map. change (map (fun x : string * Queued B => c_id (claim_of x)) picked) with (map fst picked). split; [done|]. split.
  - intros c Hc. apply list_elem_of_fmap in Hc as ([id r] & -> & Hc). destruct (Hp _ _ Hc) as [E O].
    exists r, (claimed_row now r). cbn. split; [done|]. split; [done|]. split; [done|]. split; [by apply mark_claimed_in|done].
  - intros id. apply mark_claimed_out.
Qed.
Lemma claim_statement due later scan limit now t : NoDup scan -> (forall r, due r = true -> open_row r) ->
  let picked := select_due due later scan limit t in
  NoDup (map c_id (map claim_of picked)) /\
  (forall c, c ∈ map claim_of picked -> exists r r', t !! c_id c = Some r /\ open_row r /\ c_attempts c = q_attempts r + 1 /\
     mark_claimed now picked t !! c_id c = Some r' /\ q_attempts r' = q_attempts r + 1 /\ q_status r' = Processing) /\
  (forall id, id ∉ map c_id (map claim_of picked) -> mark_claimed now picked t !! id = t !! id).
Proof.
  intros Hs Hd picked. apply claim_marked; [by apply select_due_ids|]. intros id r Hr. apply select_due_spec in Hr as [E D]. auto.
Qed.

Lemma current_claim_processing (c : Claim B) r : current_claim c r = true -> q_status r = Processing /\ q_attempts r = c_attempts c.
Proof. unfold current_claim. rewrite !andb_true_iff, bool_decide_eq_true, Z.eqb_eq. tauto. Qed.
(** A fenced update keeps the interface's law. *)
Lemma settle_statement (c : Claim B) f t ok t' v : fenced_update c f t = (ok, t') -> v <> VStale ->
  (forall r, q_attempts (f r) = q_attempts r /\ q_status (f r) = verdict_status v) ->
  match t !! c_id c with
  | Some r => if current_claim c r
              then ok = true /\ v <> VStale /\ exists r', t' = <[c_id c := r']> t /\ q_attempts r' = q_attempts r /\ q_status r' = verdict_status v
              else ok = false /\ t' = t
  | None => ok = false /\ t' = t
  end.
Proof.
  unfold fenced_update. intros E Hv Hf. destruct (t !! c_id c) as [r|]; [|by injection E as <- <-].
  destruct (current_claim c r); injection E as <- <-; [|done]. split; [done|]. split; [done|]. exists (f r). split; [done|apply Hf].
Qed.
End rows.

(** * Runs *)
Section machine.
Context {D B K O A X : Type} `{OutboxLaws D B K O A X}.
Implicit Types (w : QRun D B O).

Definition key (c : Claim B) : string * Z := (c_id c, c_attempts c).
Definition flight w : list (Claim B) := r_todo w ++ map fst (r_sent w).
(** [n] attempts of [id] are behind its row, which carries at least that many. *)
Definition behind w (k : string * Z) : Prop :=
  fst k ∈ r_seen w /\ forall r, ob_table (r_db w) !! fst k = Some r -> snd k <= q_attempts r.
Definition settled_ok w (f : string * Z * Verdict) : Prop :=
  fst (fst f) ∈ r_seen w /\
  forall r, ob_table (r_db w) !! fst (fst f) = Some r ->
    if terminal (snd f) then q_attempts r = snd (fst f) /\ q_status r = verdict_status (snd f)
    else snd (fst f) < q_attempts r \/ (snd (fst f) = q_attempts r /\ q_status r = Pending).

Record sound w : Prop := {
  so_seen : forall id, is_Some (ob_table (r_db w) !! id) -> id ∈ r_seen w;
  so_flight : NoDup (map key (flight w)) /\ (forall c, c ∈ flight w -> behind w (key c));
  so_sends : NoDup (r_sends w) /\ (forall k, k ∈ r_sends w -> behind w k /\ (k ∉ map key (r_todo w)));
  so_finals : NoDup (map fst (r_finals w)) /\ (forall f, f ∈ r_finals w -> settled_ok w f);
  so_outcomes : NoDup (map (fun f => fst (fst f)) (outcomes w));
  so_status : forall id r v, ob_table (r_db w) !! id = Some r -> terminal v = true -> q_status r = verdict_status v -> (id, q_attempts r, v) ∈ r_finals w
}.

(** Changes that no settlement makes. *)
Definition calm (o o' : option (Queued B)) : Prop :=
  match o' with
  | None => True
  | Some r' => exists r, o = Some r /\
      ((q_attempts r' = q_attempts r /\ (q_status r' = q_status r \/ q_status r = Processing /\ q_status r' = Pending)) \/
       (open_row r /\ q_attempts r' = q_attempts r + 1 /\ q_status r' = Processing))
  end.
Definition calm_step w w' : Prop :=
  (forall id, id ∈ r_seen w -> calm (ob_table (r_db w) !! id) (ob_table (r_db w') !! id)) /\
  (forall id r, id ∉ r_seen w -> ob_table (r_db w') !! id = Some r -> q_status r = Pending) /\
  r_seen w ⊆ r_seen w' /\ (forall id, is_Some (ob_table (r_db w') !! id) -> id ∈ r_seen w').

Lemma calm_row w w' id r' : calm_step w w' -> id ∈ r_seen w -> ob_table (r_db w') !! id = Some r' ->
  exists r, ob_table (r_db w) !! id = Some r /\
    ((q_attempts r' = q_attempts r /\ (q_status r' = q_status r \/ q_status r = Processing /\ q_status r' = Pending)) \/
     (open_row r /\ q_attempts r' = q_attempts r + 1 /\ q_status r' = Processing)).
Proof. intros (C & _) Hs Hr'. specialize (C _ Hs). by rewrite Hr' in C. Qed.
Lemma calm_behind w w' k : calm_step w w' -> behind w k -> behind w' k.
Proof.
  intros C [Hs Hb]. pose proof (proj1 (proj2 (proj2 C))) as C'. split; [by apply C'|]. intros r' Hr'. destruct (calm_row _ _ _ _ C Hs Hr') as (r & Hr & D0). specialize (Hb _ Hr). lia.
Qed.
Lemma terminal_closed v (r : Queued B) : terminal v = true -> q_status r = verdict_status v -> ~ open_row r.
Proof. destruct v; try done; cbn; intros _ E [E'|E']; congruence. Qed.
Lemma calm_settled w w' f : calm_step w w' -> settled_ok w f -> settled_ok w' f.
Proof.
  intros C [Hs Hb]. pose proof (proj1 (proj2 (proj2 C))) as C'. split; [by apply C'|]. intros r' Hr'. destruct (calm_row _ _ _ _ C Hs Hr') as (r & Hr & D0). specialize (Hb _ Hr).
  destruct (terminal (snd f)) eqn:T.
  - destruct Hb as [Ha Es]. destruct D0 as [[Ea [Es'|[Es' _]]]|(Ho & _)].
    + split; congruence.
    + destruct (terminal_closed _ r T Es). by right.
    + by destruct (terminal_closed _ r T Es).
  - destruct D0 as [[Ea Es]|(_ & Ea & _)]; [|lia]. destruct Hb as [Hb|[Hb Ep]]; [lia|]. right. split; [lia|]. destruct Es as [->|[E _]]; [done|congruence].
Qed.

(** A step that settles nothing. *)
Lemma sound_calm w w' : sound w -> calm_step w w' -> r_finals w' = r_finals w ->
  NoDup (map key (flight w')) -> (forall c, c ∈ flight w' -> behind w' (key c)) ->
  NoDup (r_sends w') -> (forall k, k ∈ r_sends w' -> behind w' k /\ (k ∉ map key (r_todo w'))) -> sound w'.
Proof.
  intros S C Ef F1 F2 S1 S2. constructor; [apply C|done|done| | |].
  - rewrite Ef. split; [apply S|]. intros f Hf. eapply calm_settled; [done|by apply S].
  - unfold outcomes. rewrite Ef. apply S.
  - intros id r' v Hr' T Es. rewrite Ef. destruct (decide (id ∈ r_seen w)) as [Hs|Hs].
    + destruct (calm_row _ _ _ _ C Hs Hr') as (r & Hr & [[Ea [Es'|[_ Ep]]]|(_ & _ & Ep)]).
      * rewrite Ea. apply (so_status _ S); congruence.
      * by destruct (terminal_closed v r' T Es); left.
      * by destruct (terminal_closed v r' T Es); right.
    + destruct C as (_ & C & _). specialize (C _ _ Hs Hr'). by destruct (terminal_closed v r' T Es); left.
Qed.

Lemma still_calm w w' : sound w -> r_db w' = r_db w -> r_seen w' = r_seen w -> calm_step w w'.
Proof.
  intros S E1 E2. split; [|split; [|split]].
  - intros id _. rewrite E1. destruct (ob_table (r_db w) !! id) as [r|]; cbn; [|done]. exists r. split; [done|]. left. by split; [|left].
  - intros id r Hs Hr. rewrite E1 in Hr. destruct Hs. by apply (so_seen _ S); exists r.
  - by rewrite E2.
  - intros id. rewrite E1, E2. apply S.
Qed.
Lemma claim_sound w ka scan d' cs : sound w -> NoDup scan -> ob_claim ka scan (r_db w) = (d', cs) ->
  sound {| r_db := d'; r_seen := r_seen w; r_todo := r_todo w ++ cs; r_sent := r_sent w; r_sends := r_sends w; r_finals := r_finals w |}.
Proof.
  intros S Hs E. destruct (claim_law _ _ _ _ _ Hs E) as (Nc & Cc & Co). set (w' := {| r_db := _ |}).
  assert (Q : forall id r', ob_table d' !! id = Some r' -> (exists r, ob_table (r_db w) !! id = Some r /\ open_row r /\
      q_attempts r' = q_attempts r + 1 /\ q_status r' = Processing) \/ ob_table (r_db w) !! id = Some r').
  { intros id r' Hr'. destruct (decide (id ∈ map c_id cs)) as [Hc|Hc]; [left|right; by rewrite <- Co].
    apply list_elem_of_fmap in Hc as (c & -> & Hc). destruct (Cc _ Hc) as (r & r2 & Hr & Ho & _ & Hr2 & ? & ?). exists r. split; [done|]. split; [done|]. rewrite Hr' in Hr2. by injection Hr2 as ->. }
  assert (C : calm_step w w').
  { split; [|split; [|split; [done|]]].
    - intros id _. unfold w'. cbn. destruct (ob_table d' !! id) as [r'|] eqn:Er; [|done]. destruct (Q _ _ Er) as [(r & -> & Ho & ?)|Hr].
      + exists r. split; [done|]. right. done.
      + exists r'. split; [done|]. left. by split; [|left].
    - intros id r' Hid Hr'. destruct Hid. apply (so_seen _ S). destruct (Q _ _ Hr') as [(r & -> & _)| ->]; by eexists.
    - intros id [r' Hr']. apply (so_seen _ S). destruct (Q _ _ Hr') as [(r & -> & _)| ->]; by eexists. }
  destruct (so_flight _ S) as [F1 F2], (so_sends _ S) as [S1 S2].
  assert (New : forall c, c ∈ cs -> exists r, ob_table (r_db w) !! c_id c = Some r /\ c_attempts c = q_attempts r + 1 /\
      forall r', ob_table d' !! c_id c = Some r' -> q_attempts r' = q_attempts r + 1).
  { intros c Hc. destruct (Cc _ Hc) as (r & r' & ? & _ & ? & Hr' & ? & _). exists r. split; [done|]. split; [done|]. congruence. }
  assert (Beh : forall k, behind w k -> k ∉ map key cs).
  { intros k [_ Hb] Hk. apply list_elem_of_fmap in Hk as (c & -> & Hc). destruct (New _ Hc) as (r & Hr & Ha & _). specialize (Hb _ Hr). cbn in Hb. lia. }
  apply (sound_calm w); [done|done|done| | |done|].
  - assert (P : flight w' ≡ₚ flight w ++ cs) by (unfold flight, w'; cbn; solve_Permutation). rewrite P, map_app. apply NoDup_app. split; [done|]. split.
    + intros k Hk. apply list_elem_of_fmap in Hk as (c & -> & Hc). by apply Beh, F2.
    + apply (NoDup_fmap_1 fst). change (NoDup (fst <$> (key <$> cs))). rewrite <- list_fmap_compose. exact Nc.
  - intros c Hc. unfold flight, w' in Hc. cbn in Hc. rewrite <- (assoc_L (++)) in Hc. rewrite !elem_of_app in Hc.
    destruct Hc as [Hc|[Hc|Hc]]; [eapply calm_behind, F2; [done|]; unfold flight; set_solver| |eapply calm_behind, F2; [done|]; unfold flight; set_solver].
    destruct (New _ Hc) as (r & Hr & Ha & Hr'). split; [apply (so_seen _ S); by exists r|]. unfold w'. cbn. intros r2 Hr2. rewrite (Hr' _ Hr2). lia.
  - intros k Hk. destruct (S2 _ Hk) as [Hb Hn]. split; [by eapply calm_behind|]. unfold w'. cbn. rewrite map_app, elem_of_app. intros [?|?]; [done|]. by apply (Beh k).
Qed.
Lemma send_sound w l c r o : sound w -> r_todo w = l ++ c :: r ->
  sound {| r_db := r_db w; r_seen := r_seen w; r_todo := l ++ r; r_sent := r_sent w ++ [(c, o)];
           r_sends := r_sends w ++ [(c_id c, c_attempts c)]; r_finals := r_finals w |}.
Proof.
  intros S E. destruct (so_flight _ S) as [F1 F2], (so_sends _ S) as [S1 S2]. set (w' := {| r_db := _ |}).
  assert (C : calm_step w w') by (by apply still_calm). assert (P : flight w' ≡ₚ flight w).
  { unfold flight, w'. cbn. rewrite E, map_app. cbn. solve_Permutation. }
  assert (Hc : key c ∈ map key (r_todo w)) by (rewrite E, map_app; cbn; set_solver).
  apply (sound_calm w); [done|done|done|by rewrite P| | |].
  - intros d. rewrite P. intros Hd. by eapply calm_behind, F2.
  - unfold w'. cbn. apply NoDup_app. split; [done|]. split; [|apply NoDup_singleton].
    intros k Hk ->%list_elem_of_singleton. by destruct (S2 _ Hk) as [_ []].
  - unfold w'. cbn. intros k. rewrite elem_of_app, list_elem_of_singleton.
    assert (N : NoDup (map key (r_todo w))) by (unfold flight in F1; rewrite map_app in F1; by apply NoDup_app in F1 as [? _]).
    rewrite E, map_app in N. cbn in N. intros [Hk| ->].
    + destruct (S2 _ Hk) as [Hb Hn]. split; [by eapply calm_behind|]. rewrite E, map_app in Hn. cbn in Hn. rewrite map_app. set_solver.
    + split; [eapply calm_behind, (F2 c); [done|]; unfold flight; rewrite E; set_solver|].
      rewrite <- Permutation_middle in N. apply NoDup_cons in N as [N _]. rewrite map_app. exact N.
Qed.
Lemma crash_sound w todo sent : sound w -> sublist todo (r_todo w) -> sublist sent (r_sent w) ->
  sound {| r_db := r_db w; r_seen := r_seen w; r_todo := todo; r_sent := sent; r_sends := r_sends w; r_finals := r_finals w |}.
Proof.
  intros S Ht Hs. destruct (so_flight _ S) as [F1 F2], (so_sends _ S) as [S1 S2]. set (w' := {| r_db := _ |}).
  assert (C : calm_step w w') by (by apply still_calm).
  assert (L : sublist (flight w') (flight w)) by (apply sublist_app; [done|by apply (fmap_sublist fst)]).
  apply (sound_calm w); [done|done|done| | |done|].
  - eapply sublist_NoDup; [exact F1|by apply (fmap_sublist key)].
  - intros c Hc. eapply calm_behind, F2; [done|]. by eapply elem_of_sublist.
  - intros k Hk. destruct (S2 _ Hk) as [Hb Hn]. split; [by eapply calm_behind|]. intros Hk'. apply Hn.
    eapply elem_of_sublist; [exact Hk'|by apply (fmap_sublist key)].
Qed.
Lemma other_sound w x : sound w -> (forall i, i ∈ ob_ids x -> i ∉ r_seen w) ->
  sound {| r_db := ob_other x (r_db w); r_seen := r_seen w ∪ row_ids (ob_other x (r_db w)); r_todo := r_todo w; r_sent := r_sent w;
           r_sends := r_sends w; r_finals := r_finals w |}.
Proof.
  intros S Hx. set (w' := {| r_db := _ |}). pose proof (fun id => other_law x (r_db w) (r_seen w) id Hx (so_seen _ S)) as L.
  destruct (so_flight _ S) as [F1 F2], (so_sends _ S) as [S1 S2]. assert (C : calm_step w w').
  { split; [|split; [|split]].
    - intros id Hs. unfold w'. cbn. destruct (L id) as [[r|]|r ? ? ?|r r' E1 E2|r r' E1 E2 E3|r]; try done.
      + exists r. split; [done|]. left. by split; [|left].
      + exists r. split; [done|]. left. by split; [|left].
      + exists r. split; [done|]. left. by split; [|right].
    - intros id r' Hs. unfold w'. cbn. intros Hr'. specialize (L id). rewrite Hr' in L.
      assert (N : ob_table (r_db w) !! id = None) by (destruct (ob_table (r_db w) !! id) eqn:E; [destruct Hs; apply (so_seen _ S); by eexists|done]).
      rewrite N in L. by inversion L.
    - unfold w'. cbn. set_solver.
    - intros id [r' Hr']. unfold w'. cbn. apply elem_of_union_r. apply elem_of_dom. by exists r'. }
  apply (sound_calm w); [done|done|done|done| |done|].
  - intros c Hc. eapply calm_behind, F2; done.
  - intros k Hk. destruct (S2 _ Hk) as [Hb Hn]. split; [by eapply calm_behind|done].
Qed.

(** A settlement that is not current leaves the rows as they are. *)
Lemma unsettled w l c o r d' : sound w -> r_sent w = l ++ (c, o) :: r -> ob_table d' = ob_table (r_db w) ->
  sound {| r_db := d'; r_seen := r_seen w; r_todo := r_todo w; r_sent := l ++ r; r_sends := r_sends w; r_finals := r_finals w |}.
Proof.
  intros S E Et. apply (crash_sound w (r_todo w) (l ++ r)) in S; [|done|rewrite E; apply sublist_app; [done|by constructor]].
  destruct S. constructor; cbn in *; try done; unfold behind, settled_ok in *; cbn in *; by rewrite ?Et.
Qed.
Lemma settle_sound w l c o r a d' v : sound w -> r_sent w = l ++ (c, o) :: r -> ob_settle a c o (r_db w) = (d', v) ->
  sound {| r_db := d'; r_seen := r_seen w; r_todo := r_todo w; r_sent := l ++ r; r_sends := r_sends w;
           r_finals := if is_current c (r_db w) then r_finals w ++ [(c_id c, c_attempts c, v)] else r_finals w |}.
Proof.
  intros S E Es. pose proof (settle_law _ _ _ _ _ _ Es) as L. unfold is_current.
  destruct (ob_table (r_db w) !! c_id c) as [q|] eqn:Eq; [|by apply (unsettled w l c o r)].
  destruct (current_claim c q) eqn:Ec; [|by apply (unsettled w l c o r)]. apply current_claim_processing in Ec as [Ep Ea].
  destruct L as (Hv & q' & Et & Eqa & Eqs).
  pose proof (crash_sound w (r_todo w) (l ++ r) S ltac:(done) ltac:(rewrite E; apply sublist_app; [done|by constructor])) as S'.
  destruct (so_flight _ S') as [F1 F2], (so_sends _ S') as [S1 S2], (so_finals _ S) as [N1 N2]. cbn in *.
  set (w' := {| r_db := d' |}).
  assert (Row : forall id r', ob_table d' !! id = Some r' -> (id = c_id c /\ r' = q') \/ (id <> c_id c /\ ob_table (r_db w) !! id = Some r')).
  { intros id r'. rewrite Et, lookup_insert_Some. intros [[<- <-]|[? ?]]; [by left|right; done]. }
  assert (Cs : c_id c ∈ r_seen w) by (apply (so_seen _ S); by exists q).
  assert (Beh : forall k, behind w k -> behind w' k).
  { intros k [Hs Hb]. split; [done|]. intros r' Hr'. destruct (Row _ _ Hr') as [[Ek ->]|[_ Hr]]; [|by apply Hb]. rewrite Eqa. apply Hb. by rewrite Ek. }
  assert (Fin : forall f, f ∈ r_finals w -> fst (fst f) = c_id c -> snd (fst f) < q_attempts q /\ terminal (snd f) = false).
  { intros f Hf Ef. destruct (N2 _ Hf) as [_ Hb]. rewrite Ef in Hb. specialize (Hb _ Eq). destruct (terminal (snd f)) eqn:T.
    - destruct Hb as [_ Hb]. destruct (terminal_closed _ q T Hb). by right.
    - split; [|done]. destruct Hb as [?|[_ ?]]; [done|congruence]. }
  assert (Out : NoDup (map (fun f => fst (fst f)) (outcomes w'))).
  { unfold outcomes, w'. cbn. rewrite List.filter_app. cbn. destruct (terminal v) eqn:T; [|rewrite app_nil_r; apply S].
    apply NoDup_map_snoc; [apply S|]. cbn. intros Hin. apply list_elem_of_fmap in Hin as (f & Ef & Hf). apply elem_filter_bool in Hf as [Hf Tf].
    destruct (Fin _ Hf) as [_ T']; [done|]. congruence. }
  constructor; cbn.
  - intros id [r' Hr']. apply (so_seen _ S). destruct (Row _ _ Hr') as [[-> _]|[_ Hr]]; by eexists.
  - split; [exact F1|]. intros d Hd. by apply Beh, F2.
  - split; [done|]. intros k Hk. destruct (S2 _ Hk) as [Hb Hn]. split; [by apply Beh|done].
  - split.
    + apply NoDup_map_snoc; [done|]. cbn. intros Hin. apply list_elem_of_fmap in Hin as (f & Ef & Hf).
      destruct (Fin _ Hf) as [Hlt _]; rewrite <- Ef in *; cbn in *; [done|lia].
    + intros f. rewrite elem_of_app, list_elem_of_singleton. intros [Hf| ->].
      * destruct (N2 _ Hf) as [Hs Hb]. split; [done|]. intros r' Hr'. destruct (Row _ _ Hr') as [[Ek ->]|[_ Hr]]; [|by apply Hb].
        destruct (Fin _ Hf Ek) as [Hlt ->]. left. by rewrite Eqa.
      * split; [done|]. cbn. intros r' Hr'. destruct (Row _ _ Hr') as [[_ ->]|[[] _]]; [|done]. rewrite Eqa, Eqs, Ea.
        destruct (terminal v) eqn:T; [done|]. right. split; [done|]. by destruct v.
  - exact Out.
  - intros id r' u Hr' T Eu. apply elem_of_app. destruct (Row _ _ Hr') as [[-> ->]|[_ Hr]].
    + right. apply list_elem_of_singleton. rewrite Eqa, Ea. f_equal. rewrite Eqs in Eu. by destruct u, v.
    + left. by apply (so_status _ S).
Qed.

Lemma step_sound w w' : qstep w w' -> sound w -> sound w'.
Proof.
  intros [w0 k scan d' cs Hs E|w0 l c r o E|w0 l c o r a d' v E Es|w0 todo sent Ht Hs|w0 x Hx] S.
  - by apply (claim_sound w0 k scan).
  - by apply send_sound.
  - by apply (settle_sound w0 l c o r a).
  - by apply crash_sound.
  - by apply other_sound.
Qed.
Lemma run_sound d w : ob_table d = ∅ -> rtc qstep (initial_run d) w -> sound w.
Proof.
  intros Hd R. assert (S : sound (initial_run d)).
  { constructor; cbn; try (split; [constructor|intros k Hk; by apply elem_of_nil in Hk]).
    - intros id. rewrite Hd, lookup_empty. by intros [? ?].
    - constructor.
    - intros id r v. by rewrite Hd, lookup_empty. }
  induction R as [|x y z Hxy _ IH]; [done|]. apply IH. by eapply step_sound.
Qed.

(** The accounting of a run, as every outbox promises it: an attempt of a row goes out at most once and settles at most
    once; a row has at most one final outcome, and is ['sent'] or ['dead'] exactly when its last attempt settled so. *)
Definition accounted w : Prop :=
  NoDup (r_sends w) /\ NoDup (map fst (r_finals w)) /\ NoDup (map (fun f => fst (fst f)) (outcomes w)) /\
  (forall id r v, ob_table (r_db w) !! id = Some r -> terminal v = true ->
     (q_status r = verdict_status v <-> (id, q_attempts r, v) ∈ r_finals w) /\ (forall n, (id, n, v) ∈ r_finals w -> n = q_attempts r)) /\
  (forall id r n, ob_table (r_db w) !! id = Some r -> (id, n) ∈ r_sends w -> n <= q_attempts r).
Lemma sound_accounted w : sound w -> accounted w.
Proof.
  intros S. split; [apply S|]. split; [apply S|]. split; [apply S|]. split.
  - intros id r v Hr T. destruct (so_finals _ S) as [_ F].
    assert (L : forall n, (id, n, v) ∈ r_finals w -> q_attempts r = n /\ q_status r = verdict_status v).
    { intros n Hn. destruct (F _ Hn) as [_ Hb]. cbn in Hb. specialize (Hb _ Hr). by rewrite T in Hb. }
    split; [split; [by apply (so_status _ S)|intros Hn; apply (L _ Hn)]|]. intros n Hn. symmetry. by apply L.
  - intros id r n Hr Hn. destruct (so_sends _ S) as [_ F]. destruct (F _ Hn) as [[_ Hb] _]. by apply Hb.
Qed.
Lemma run_accounted d w : ob_table d = ∅ -> rtc qstep (initial_run d) w -> accounted w.
Proof. intros Hd R. by eapply sound_accounted, run_sound. Qed.
End machine.

(** Along a concrete run: show the fields of the state just reached. *)
Ltac q_show := cbn [initial_run r_db r_seen r_todo r_sent r_sends r_finals app].
