(* ===== verification/WebhookOutbox.v ===== *)
(** The webhook outbox: [canary/marker.ts], [webhooks/emit.ts] (events, claims, settlements), [jobs/webhook-reaper.ts]
    and the deletion of an endpoint, as an implementation of [Outbox]. *)
From Stdlib Require Import ZArith QArith Qround List Bool String Ascii Lia OrdersEx.
From stdpp Require Import base list strings gmap relations sorting pretty.
From S2P Require Import Prelude Json Outbox OutboxFacts.
Local Open Scope string_scope.
Local Open Scope list_scope.
Local Open Scope Z_scope.

(** * [canary/marker.ts] *)
Definition CANARY_TOPIC : string := "health.canary".
Definition CANARY_MARKER : string := "health.canary".
Definition ReservedMarkerError (what : string) : string := what +:+ " carries the reserved marker " +:+ CANARY_MARKER.
Definition hasReservedCanaryKeys (payload : json) : bool :=
  match payload with
  | JObj _ => bool_decide (is_Some (field "canary" payload)) ||
              match as_string (field "marker" payload) with Some m => String.eqb m CANARY_MARKER | None => false end
  | _ => false
  end.
Definition assertNotReserved (what : string) (payload : json) (allowCanary : bool) : result string unit :=
  if allowCanary then Ok tt else if hasReservedCanaryKeys payload then Err (ReservedMarkerError what) else Ok tt.
Definition assertNotReservedTopic (what topic : string) (allowCanary : bool) : result string unit :=
  if negb allowCanary && String.eqb topic CANARY_TOPIC then Err (ReservedMarkerError what) else Ok tt.
(** [{ ...payload, canary: true, marker: CANARY_MARKER }]; a payload that is no object spreads nothing here. *)
Definition with_marker (payload : json) : json :=
  JObj ((match payload with JObj fs => fs | _ => [] end) ++ [("canary", JBool true); ("marker", JStr CANARY_MARKER)]).

(** * [webhooks/emit.ts] *)
Record Endpoint := { we_id : string; we_store : string; we_url : string; we_topics : list string; we_secret : string; we_enabled : bool }.
Record HookBody := { hk_endpoint : string; hk_topic : string; hk_payload : json }.
Record Hooks := { hk_endpoints : list Endpoint; hk_rows : rows HookBody }.
Definition with_rows (t : rows HookBody) (d : Hooks) : Hooks := {| hk_endpoints := hk_endpoints d; hk_rows := t |}.

Definition includes (x : string) (l : list string) : bool := existsb (String.eqb x) l.
(** The enabled endpoints of the store that subscribe to the topic, or to everything. *)
Definition subscribed (store topic : string) (d : Hooks) : list Endpoint :=
  List.filter (fun e => includes "*" (we_topics e) || includes topic (we_topics e))
    (List.filter (fun e => String.eqb (we_store e) store && we_enabled e) (hk_endpoints d)).
(** One INSERT of several bodies, with generated ids: the statement is only run with an id per row. *)
Definition insert_rows {B} (store : string) (now : Z) (ids : list string) (bodies : list B) (t : rows B) : rows B :=
  foldr (fun e t => <[fst e := new_row store (snd e) now]> t) t (combine ids bodies).

Definition emitEvent (now : Z) (ids : list string) (store topic : string) (payload : json) (d : Hooks) : result string Hooks :=
  let! _ := assertNotReservedTopic ("webhook topic " +:+ topic) topic false in
  let! _ := assertNotReserved ("webhook topic " +:+ topic) payload false in
  let matched := subscribed store topic d in
  match matched with
  | [] => Ok d
  | _ => Ok (with_rows (insert_rows store now ids (map (fun e => {| hk_endpoint := we_id e; hk_topic := topic; hk_payload := payload |}) matched) (hk_rows d)) d)
  end.
Definition event_bodies (topic : string) (payloads : list json) (matched : list Endpoint) : list HookBody :=
  flat_map (fun p => map (fun e => {| hk_endpoint := we_id e; hk_topic := topic; hk_payload := p |}) matched) payloads.
Definition emitEvents (now : Z) (ids : list string) (store topic : string) (payloads : list json) (d : Hooks) : result string Hooks :=
  match payloads with
  | [] => Ok d
  | _ =>
      let! _ := assertNotReservedTopic ("webhook topic " +:+ topic) topic false in
      let! _ := map_result (fun p => assertNotReserved ("webhook topic " +:+ topic) p false) payloads in
      let matched := subscribed store topic d in
      match matched with
      | [] => Ok d
      | _ =>
          Ok (with_rows (insert_rows store now ids (event_bodies topic payloads matched) (hk_rows d)) d)
      end
  end.
Definition emitCanaryWebhook (now : Z) (id store endpointId : string) (payload : json) (d : Hooks) : result string (string * Hooks) :=
  match List.find (fun e => String.eqb (we_id e) endpointId && String.eqb (we_store e) store && we_enabled e) (hk_endpoints d) with
  | Some ep =>
      if includes CANARY_TOPIC (we_topics ep) then
        Ok (id, with_rows (<[id := new_row store {| hk_endpoint := we_id ep; hk_topic := CANARY_TOPIC; hk_payload := with_marker payload |} now]> (hk_rows d)) d)
      else Err "canary webhook endpoint missing or not subscribed to health.canary"
  | None => Err "canary webhook endpoint missing or not subscribed to health.canary"
  end.

(** Delays in seconds. *)
Definition WEBHOOK_BACKOFF_S : list Z := [30; 120; 600; 3600; 21600].
Definition WEBHOOK_MAX_ATTEMPTS : Z := 6.
Definition normalizeWebhookBatchLimit (limit : option Q) : Z := batch_limit 50 500 limit.
(** [BACKOFF_S[Math.min(attempts - 1, BACKOFF_S.length - 1)]]. *)
Definition backoff_of (table : list Z) (attempts : Z) : Z :=
  nth (Z.to_nat (Z.min (attempts - 1) (Z.of_nat (length table) - 1))) table 0.

(** [ORDER BY next_attempt_at, id]. *)
Definition hook_later (a b : string * Queued HookBody) : bool :=
  if q_nextAttemptAt (snd a) =? q_nextAttemptAt (snd b) then str_after (fst a) (fst b)
  else q_nextAttemptAt (snd b) <? q_nextAttemptAt (snd a).
Definition hook_due (store : string) (cutoff : Z) (r : Queued HookBody) : bool :=
  String.eqb (q_store r) store && bool_decide (q_status r = Pending) && (q_nextAttemptAt r <=? cutoff).
(** The endpoint a claimed row is joined with. *)
Definition hook_target (store : string) (d : Hooks) (r : Queued HookBody) : option Endpoint :=
  List.find (fun e => String.eqb (we_id e) (hk_endpoint (q_body r)) && String.eqb (we_store e) store) (hk_endpoints d).
Record ClaimedDelivery := { cd_claim : Claim HookBody; cd_url : string; cd_secret : string }.
Definition hook_picks (store : string) (scan : list string) (cutoff : Z) (d : Hooks) : list (string * Queued HookBody) :=
  List.filter (fun e => bool_decide (is_Some (hook_target store d (snd e))))
    (select_due (hook_due store cutoff) hook_later scan 1 (hk_rows d)).
(** [past_deadline]: connecting used up the admission window. *)
Definition claimDueWebhooks (past_deadline : bool) (store : string) (scan : list string) (cutoff now : Z) (d : Hooks) : Hooks * list ClaimedDelivery :=
  if past_deadline then (d, [])
  else
    let picked := hook_picks store scan cutoff d in
    (with_rows (mark_claimed now picked (hk_rows d)) d,
     omap (fun e => t ← hook_target store d (snd e); Some {| cd_claim := claim_of e; cd_url := we_url t; cd_secret := we_secret t |}) picked).

(** What the worker saw: a 2xx answer, or an error and its text. *)
Inductive HookOutcome := HookOk | HookFailed (error : string).
Definition finalizeWebhookDelivery (now db_now : Z) (c : Claim HookBody) (o : HookOutcome) (d : Hooks) : Hooks * Verdict :=
  match o with
  | HookOk => (with_rows (snd (fenced_update c (fun r => finished_row now (q_lastError r) r) (hk_rows d))) d, VDone)
  | HookFailed error =>
      let giveUp := WEBHOOK_MAX_ATTEMPTS <=? c_attempts c in
      let next := now + backoff_of WEBHOOK_BACKOFF_S (c_attempts c) * 1000 in
      (with_rows (snd (fenced_update c (failed_row (if giveUp then Dead else Pending) now db_now next error) (hk_rows d))) d,
       if giveUp then VDead else VRetry)
  end.

(** * [jobs/webhook-reaper.ts] *)
Definition DEFAULT_REAP_BATCH : Z := 500.
(** [graceMin] in whole minutes, [None] when it is not finite. *)
Record ReaperOpts := { ro_apply : bool; ro_graceMin : option Z; ro_batchLimit : option Q }.
Definition reap_limit (o : ReaperOpts) : Z :=
  match ro_batchLimit o with Some q => if Qle_bool q 0 then DEFAULT_REAP_BATCH else Qfloor q | None => DEFAULT_REAP_BATCH end.
Definition stuck (store : string) (cutoff : Z) (r : Queued HookBody) : bool :=
  String.eqb (q_store r) store && bool_decide (q_status r = Processing) && (q_updatedAt r <? cutoff).
(** [ORDER BY updated_at, id]. *)
Definition stuck_later (a b : string * Queued HookBody) : bool :=
  if q_updatedAt (snd a) =? q_updatedAt (snd b) then str_after (fst a) (fst b) else q_updatedAt (snd b) <? q_updatedAt (snd a).
Definition reaped_row (now grace : Z) (r : Queued HookBody) : Queued HookBody :=
  {| q_store := q_store r; q_body := q_body r; q_status := Pending; q_attempts := q_attempts r;
     q_lastError := Some ((match q_lastError r with Some e => e | None => EmptyString end) +:+ " [reaped after " +:+ pretty grace +:+ "m stuck]");
     q_nextAttemptAt := q_nextAttemptAt r; q_doneAt := q_doneAt r; q_updatedAt := now; q_claimedAt := None; q_firstFailedAt := q_firstFailedAt r |}.
(** One store's transaction: the number of rows reset, or that a dry run would reset. *)
Definition reap_store (o : ReaperOpts) (grace cutoff : Z) (store : string) (scan : list string) (now : Z) (d : Hooks) : Hooks * Z :=
  if negb (ro_apply o) then (d, Z.of_nat (length (List.filter (fun e => stuck store cutoff (snd e)) (map_to_list (hk_rows d)))))
  else
    let picked := select_due (stuck store cutoff) stuck_later scan (Z.to_nat (reap_limit o)) (hk_rows d) in
    (with_rows (foldr (fun e t => <[fst e := reaped_row now grace (snd e)]> t) (hk_rows d) picked) d, Z.of_nat (length picked)).
(** A pass over the stores, each with the rows its transaction can lock and its time. *)
Definition reapStuckWebhooks (o : ReaperOpts) (started : Z) (stores : list (string * list string * Z)) (d : Hooks) : result string (Hooks * Z) :=
  match ro_graceMin o with
  | Some grace =>
      if grace <=? 0 then Err "graceMin must be a positive number"
      else
        let cutoff := started - grace * 60000 in
        Ok (fold_left (fun acc st => let '(store, scan, now) := st in
              let '(d', n) := reap_store o grace cutoff store scan now (fst acc) in (d', snd acc + n)) stores (d, 0))
  | None => Err "graceMin must be a positive number"
  end.

(** * [DELETE /v1/admin/webhooks/{id}] *)
Definition delete_endpoint (store id : string) (d : Hooks) : Hooks :=
  {| hk_endpoints := List.filter (fun e => negb (String.eqb (we_store e) store && String.eqb (we_id e) id)) (hk_endpoints d);
     hk_rows := filter (fun e => String.eqb (q_store (snd e)) store && String.eqb (hk_endpoint (q_body (snd e))) id = false) (hk_rows d) |}.

(** * The interface *)
Inductive hook_action :=
| HookEmit (now : Z) (ids : list string) (store topic : string) (payload : json)
| HookEmitMany (now : Z) (ids : list string) (store topic : string) (payloads : list json)
| HookCanary (now : Z) (id store endpointId : string) (payload : json)
| HookReap (o : ReaperOpts) (started : Z) (stores : list (string * list string * Z))
| HookDelete (store id : string)
| HookEndpoints (l : list Endpoint).         (* endpoints created or edited *)
(** A failed transaction leaves the database as it was. *)
Definition hook_other (x : hook_action) (d : Hooks) : Hooks :=
  match x with
  | HookEmit now ids store topic payload => match emitEvent now ids store topic payload d with Ok d' => d' | Err _ => d end
  | HookEmitMany now ids store topic payloads => match emitEvents now ids store topic payloads d with Ok d' => d' | Err _ => d end
  | HookCanary now id store ep payload => match emitCanaryWebhook now id store ep payload d with Ok (_, d') => d' | Err _ => d end
  | HookReap o started stores => match reapStuckWebhooks o started stores d with Ok (d', _) => d' | Err _ => d end
  | HookDelete store id => delete_endpoint store id d
  | HookEndpoints l => {| hk_endpoints := l; hk_rows := hk_rows d |}
  end.
Definition hook_ids (x : hook_action) : list string :=
  match x with HookEmit _ ids _ _ _ | HookEmitMany _ ids _ _ _ => ids | HookCanary _ id _ _ _ => [id] | _ => [] end.
(** A claim: its store, whether the deadline passed, the pass's cutoff and the time. *)
#[export] Instance hook_outbox : Outbox Hooks HookBody (string * bool * Z * Z) HookOutcome (Z * Z) hook_action := {
  ob_table := hk_rows;
  ob_claim := fun k scan d => let '(store, past, cutoff, now) := k in
    let '(d', cs) := claimDueWebhooks past store scan cutoff now d in (d', map cd_claim cs);
  ob_settle := fun a c o d => finalizeWebhookDelivery (fst a) (snd a) c o d;
  ob_other := hook_other;
  ob_ids := hook_ids
}.

(** * Its laws *)
Lemma insert_rows_lookup {B} store now ids (bodies : list B) t id :
  insert_rows store now ids bodies t !! id = t !! id \/ (id ∈ ids /\ exists b, insert_rows store now ids bodies t !! id = Some (new_row store b now)).
Proof.
  unfold insert_rows. revert bodies. induction ids as [|i ids IH]; intros [|b bs]; cbn; try by left.
  destruct (decide (id = i)) as [->|N].
  - right. split; [by left|]. exists b. by rewrite lookup_insert_eq.
  - rewrite lookup_insert_ne by done. destruct (IH bs) as [E|[Hi E]]; [by left|right]. split; [by right|done].
Qed.
Lemma inserted_change {B} seen store now ids (bodies : list B) t id : (forall i, i ∈ ids -> i ∉ seen) -> (forall i, is_Some (t !! i) -> i ∈ seen) ->
  row_change seen id (t !! id) (insert_rows store now ids bodies t !! id).
Proof.
  intros Hi Ht. destruct (insert_rows_lookup store now ids bodies t id) as [->|[Hid [b ->]]]; [constructor|].
  assert (t !! id = None) as ->; [|by constructor; [apply Hi|..]].
  destruct (t !! id) eqn:E; [|done]. destruct (Hi _ Hid). apply Ht. by eexists.
Qed.
Lemma reaped_lookup now grace picked (t : rows HookBody) id : (forall i r, (i, r) ∈ picked -> t !! i = Some r) ->
  foldr (fun e t => <[fst e := reaped_row now grace (snd e)]> t) t picked !! id = t !! id \/
  exists r, (id, r) ∈ picked /\ t !! id = Some r /\ foldr (fun e t => <[fst e := reaped_row now grace (snd e)]> t) t picked !! id = Some (reaped_row now grace r).
Proof.
  intros Hp. induction picked as [|[i r] p IH]; [by left|]. cbn. destruct (decide (id = i)) as [->|N].
  - right. exists r. split; [by left|]. split; [apply Hp; by left|]. by rewrite lookup_insert_eq.
  - rewrite lookup_insert_ne by done. destruct IH as [E|(r' & Hr & E)]; [intros j s Hj; apply Hp; by right|by left|].
    right. exists r'. split; [by right|done].
Qed.

(** A row across reaper transactions: left alone, or put back once. *)
Definition reaped (o o' : option (Queued HookBody)) : Prop :=
  o' = o \/ exists r r', o = Some r /\ o' = Some r' /\ q_status r = Processing /\ q_status r' = Pending /\ q_attempts r' = q_attempts r.
Lemma reap_store_reaped o grace cutoff store scan now d id : reaped (hk_rows d !! id) (hk_rows (fst (reap_store o grace cutoff store scan now d)) !! id).
Proof.
  unfold reap_store. destruct (negb _); [by left|]. cbn. set (picked := select_due _ _ _ _ _).
  assert (P : forall i r, (i, r) ∈ picked -> hk_rows d !! i = Some r /\ stuck store cutoff r = true) by (intros i r Hr; by apply select_due_spec in Hr).
  destruct (reaped_lookup now grace picked (hk_rows d) id) as [->|(r & Hr & E & ->)]; [intros i r Hr; by apply P|by left|].
  right. exists r, (reaped_row now grace r). apply P in Hr as [_ Hs]. unfold stuck in Hs. rewrite !andb_true_iff, bool_decide_eq_true in Hs.
  split; [done|]. split; [done|]. split; [tauto|done].
Qed.
Lemma reaped_trans o1 o2 o3 : reaped o1 o2 -> reaped o2 o3 -> reaped o1 o3.
Proof.
  intros [->|(r & r' & E1 & E2 & Sr & Sr' & A)] [->|(q & q' & F1 & F2 & Sq & Sq' & A')]; [by left|right; by exists q, q'|right; by exists r, r'|].
  rewrite E2 in F1. injection F1 as ->. congruence.
Qed.
Lemma reap_pass_reaped o grace cutoff stores acc id :
  reaped (hk_rows (fst acc) !! id) (hk_rows (fst (fold_left (fun acc st => let '(store, scan, now) := st in
    let '(d', n) := reap_store o grace cutoff store scan now (fst acc) in (d', snd acc + n)) stores acc)) !! id).
Proof.
  revert acc. induction stores as [|[[store scan] now] l IH]; intros acc; cbn; [by left|].
  pose proof (reap_store_reaped o grace cutoff store scan now (fst acc) id) as R. destruct (reap_store _ _ _ _ _ _ _) as [d' n].
  eapply reaped_trans; [exact R|]. apply (IH (d', snd acc + n)).
Qed.

#[export] Instance hook_laws : OutboxLaws Hooks HookBody (string * bool * Z * Z) HookOutcome (Z * Z) hook_action.
Proof.
  constructor.
  - intros [[[store past] cutoff] now] scan d d' cs Hs. cbn. unfold claimDueWebhooks. destruct past; [|].
    { intros [= <- <-]. cbn. split; [constructor|]. split; [intros c Hc; by apply elem_of_nil in Hc|done]. }
    intros [= <- <-]. cbn. set (picked := hook_picks store scan cutoff d).
    assert (E : map cd_claim (omap (fun e => t ← hook_target store d (snd e); Some {| cd_claim := claim_of e; cd_url := we_url t; cd_secret := we_secret t |}) picked) = map claim_of picked).
    { unfold picked, hook_picks. induction (select_due _ _ _ _ _) as [|e l IH]; [done|]. cbn. case_bool_decide as T; [|done]. cbn. destruct T as [t ->]. cbn. by f_equal. }
    rewrite E. apply claim_marked.
    + unfold picked, hook_picks. apply NoDup_map_filter. by apply select_due_ids.
    + intros id r Hr. unfold picked, hook_picks in Hr. apply elem_filter_bool in Hr as [Hr _]. apply select_due_spec in Hr as [Hr Hd]. split; [done|].
      unfold hook_due in Hd. rewrite !andb_true_iff, bool_decide_eq_true in Hd. left. tauto.
  - intros [now db_now] c o d d' v. cbn. unfold finalizeWebhookDelivery. destruct o as [|error].
    + intros [= <- <-]. cbn. destruct (fenced_update _ _ _) as [ok t] eqn:E. apply settle_statement with (v := VDone) in E; [|done|done].
      destruct (hk_rows d !! c_id c) as [r|]; [|by destruct E as [_ ->]]. destruct (current_claim c r); [by destruct E as [_ E]|by destruct E as [_ ->]].
    + set (giveUp := _ <=? _). intros [= <- <-]. cbn. destruct (fenced_update _ _ _) as [ok t] eqn:E.
      apply settle_statement with (v := if giveUp then VDead else VRetry) in E; [|by destruct giveUp|by destruct giveUp].
      destruct (hk_rows d !! c_id c) as [r|]; [|by destruct E as [_ ->]]. destruct (current_claim c r); [by destruct E as [_ E]|by destruct E as [_ ->]].
  - intros x d seen id Hi Ht. destruct x as [now ids store topic payload|now ids store topic payloads|now i store ep payload|o started stores|store i|l]; cbn in *.
    + unfold emitEvent, bind_result. repeat (case_match; try constructor); simplify_eq; try constructor; by apply inserted_change.
    + unfold emitEvents, bind_result. repeat (case_match; try constructor); simplify_eq; try constructor; by apply inserted_change.
    + unfold emitCanaryWebhook. destruct (List.find _ _) as [e|]; [|constructor]. destruct (includes _ _); [|constructor].
      apply (inserted_change seen store now [i] [_]); done.
    + unfold reapStuckWebhooks. destruct (ro_graceMin o) as [g|]; [|constructor]. destruct (g <=? 0); [constructor|].
      pose proof (reap_pass_reaped o g (started - g * 60000) stores (d, 0) id) as R. cbn in R. destruct (fold_left _ _ _) as [d' n]. cbn in *.
      destruct R as [->|(r & r' & -> & -> & ? & ? & ?)]; by constructor.
    + destruct (filter _ (hk_rows d) !! id) as [r|] eqn:E.
      * apply map_lookup_filter_Some in E as [-> _]. constructor.
      * destruct (hk_rows d !! id); constructor.
    + constructor.
Qed.

(** * What the rows carry *)
Definition marked_canary (b : HookBody) : Prop := hk_topic b = CANARY_TOPIC <-> hasReservedCanaryKeys (hk_payload b) = true.
Definition bodies_ok (P : HookBody -> Prop) (t : rows HookBody) : Prop := forall id r, t !! id = Some r -> P (q_body r).

Lemma with_marker_reserved p : hasReservedCanaryKeys (with_marker p) = true.
Proof. unfold with_marker, hasReservedCanaryKeys, field. rewrite assoc_last_app. done. Qed.
Lemma topic_allowed what topic u : assertNotReservedTopic what topic false = Ok u -> topic <> CANARY_TOPIC.
Proof. unfold assertNotReservedTopic. cbn. destruct (String.eqb_spec topic CANARY_TOPIC); done. Qed.
Lemma payload_allowed what p u : assertNotReserved what p false = Ok u -> hasReservedCanaryKeys p = false.
Proof. unfold assertNotReserved. by destruct (hasReservedCanaryKeys p). Qed.
Lemma ordinary_marked e topic p : topic <> CANARY_TOPIC -> hasReservedCanaryKeys p = false -> marked_canary {| hk_endpoint := e; hk_topic := topic; hk_payload := p |}.
Proof. intros Ht Hp. split; cbn; congruence. Qed.

Lemma bodies_insert P t id r : bodies_ok P t -> P (q_body r) -> bodies_ok P (<[id := r]> t).
Proof. intros H Hr i s. rewrite lookup_insert_Some. intros [[_ <-]|[_ Hs]]; [done|by eapply H]. Qed.
Lemma bodies_inserted P store now ids l t : bodies_ok P t -> Forall P l -> bodies_ok P (insert_rows store now ids l t).
Proof.
  intros H. unfold insert_rows. revert l. induction ids as [|i ids IH]; intros [|b l] Hl; cbn; try done.
  inversion Hl; subst. apply bodies_insert; [by apply IH|done].
Qed.
Lemma bodies_replaced P (f : Queued HookBody -> Queued HookBody) picked t : bodies_ok P t -> (forall r, q_body (f r) = q_body r) ->
  (forall i r, (i, r) ∈ picked -> t !! i = Some r) -> bodies_ok P (foldr (fun e t => <[fst e := f (snd e)]> t) t picked).
Proof.
  intros H Hf Hp. induction picked as [|[i r] p IH]; [done|]. cbn. apply bodies_insert; [apply IH; intros j s Hj; apply Hp, list_elem_of_further, Hj|].
  rewrite Hf. eapply H, Hp. by left.
Qed.
Lemma bodies_fenced P c f t : bodies_ok P t -> (forall r, q_body (f r) = q_body r) -> bodies_ok P (snd (fenced_update c f t)).
Proof.
  intros H Hf. unfold fenced_update. destruct (t !! c_id c) as [r|] eqn:E; [|done]. destruct (current_claim c r); [|done].
  apply bodies_insert; [done|]. rewrite Hf. by eapply H.
Qed.
Lemma bodies_reap P o g cutoff stores acc : bodies_ok P (hk_rows (fst acc)) -> bodies_ok P (hk_rows (fst (fold_left (fun acc st => let '(store, scan, now) := st in
    let '(d', n) := reap_store o g cutoff store scan now (fst acc) in (d', snd acc + n)) stores acc))).
Proof.
  revert acc. induction stores as [|[[store scan] now] l IH]; intros acc H; cbn; [done|].
  destruct (reap_store o g cutoff store scan now (fst acc)) as [d' n] eqn:E. apply (IH (d', snd acc + n)). cbn.
  unfold reap_store in E. destruct (negb _); injection E as <- _; [done|]. cbn. apply (bodies_replaced P (reaped_row now g)); [done|done|].
  intros i r Hr. by apply select_due_spec in Hr as [Hr _].
Qed.

Lemma emitted_marked now ids store topic p d d' : bodies_ok marked_canary (hk_rows d) -> emitEvent now ids store topic p d = Ok d' -> bodies_ok marked_canary (hk_rows d').
Proof.
  intros H. unfold emitEvent. destruct (assertNotReservedTopic _ _ _) eqn:Et; [|done]. destruct (assertNotReserved _ p _) eqn:Ep; [|done].
  apply topic_allowed in Et. apply payload_allowed in Ep. cbn. destruct (subscribed store topic d) as [|e l]; intros [= <-]; [done|].
  apply bodies_inserted; [done|]. apply Forall_forall. intros b Hb. change (b ∈ map (fun e => {| hk_endpoint := we_id e; hk_topic := topic; hk_payload := p |}) (e :: l)) in Hb.
  apply list_elem_of_fmap in Hb as (e' & -> & _). by apply ordinary_marked.
Qed.
Lemma event_bodies_marked topic ps matched : topic <> CANARY_TOPIC -> Forall (fun p => hasReservedCanaryKeys p = false) ps ->
  Forall marked_canary (event_bodies topic ps matched).
Proof.
  intros Ht Hp. apply Forall_forall. intros b Hb. apply list_elem_of_In, in_flat_map in Hb as (p & Hin & Hb). apply list_elem_of_In in Hin, Hb.
  apply list_elem_of_fmap in Hb as (e & -> & _). rewrite Forall_forall in Hp. apply ordinary_marked; [done|by apply Hp].
Qed.
Lemma emitted_many_marked now ids store topic ps d d' : bodies_ok marked_canary (hk_rows d) -> emitEvents now ids store topic ps d = Ok d' -> bodies_ok marked_canary (hk_rows d').
Proof.
  intros H. unfold emitEvents, bind_result. destruct ps as [|p0 ps0] eqn:Ee; [by intros [= <-]|]. rewrite <- Ee. destruct (assertNotReservedTopic _ _ _) eqn:Et; [|done].
  destruct (map_result _ _) as [us|] eqn:Ep; [|done]. apply topic_allowed in Et. apply map_result_Forall2 in Ep.
  assert (F : Forall (fun p => hasReservedCanaryKeys p = false) ps).
  { eapply Forall2_Forall_l; [exact Ep|]. apply Forall_forall. intros u _ p Hu. by eapply payload_allowed. }
  destruct (subscribed store topic d) as [|e l]; intros [= <-]; [done|]. by apply bodies_inserted, event_bodies_marked.
Qed.
Lemma hook_step_marked w w' : qstep (D := Hooks) w w' -> bodies_ok marked_canary (hk_rows (r_db w)) -> bodies_ok marked_canary (hk_rows (r_db w')).
Proof.
  intros [w0 [[[store past] cutoff] now] scan d' cs Hs E|w0 l c r o E|w0 l c o r [now db_now] d' v E Es|w0 todo sent Ht Hs|w0 x Hx] H; cbn in *; try done.
  - unfold claimDueWebhooks in E. destruct past; injection E as <- _; [done|]. cbn. apply (bodies_replaced _ (claimed_row now)); [done|done|].
    intros i r Hr. unfold hook_picks in Hr. apply elem_filter_bool in Hr as [Hr _]. by apply select_due_spec in Hr as [Hr _].
  - unfold finalizeWebhookDelivery in Es. destruct o as [|error]; injection Es as <- _; cbn; by apply bodies_fenced.
  - destruct x as [now ids store topic payload|now ids store topic payloads|now i store ep payload|o started stores|store i|l]; cbn.
    + destruct (emitEvent _ _ _ _ _ _) eqn:E; [by eapply emitted_marked|done].
    + destruct (emitEvents _ _ _ _ _ _) eqn:E; [by eapply emitted_many_marked|done].
    + unfold emitCanaryWebhook. destruct (List.find _ _) as [e|]; [|done]. destruct (includes _ _); [|done]. cbn. apply bodies_insert; [done|].
      unfold marked_canary. cbn -[with_marker]. rewrite with_marker_reserved. done.
    + unfold reapStuckWebhooks. destruct (ro_graceMin o) as [g|]; [|done]. destruct (g <=? 0); [done|].
      pose proof (bodies_reap marked_canary o g (started - g * 60000) stores (r_db w0, 0) H) as R. cbn in R. by destruct (fold_left _ _ _).
    + intros id r Hr. apply map_lookup_filter_Some in Hr as [Hr _]. by eapply H.
    + done.
Qed.

(** Webhook deliveries along any run of the two workers, the reaper, crashes, event emission and endpoint changes,
    from an empty outbox. Each attempt of a delivery goes out at most once, settles at most once and only while its
    claim is current; a delivery ends once, as delivered or failed, and its status says which; and the canary marker
    is on exactly the deliveries of the canary topic, so no subscriber of everything receives canary traffic. *)
Theorem webhook_delivery_accounted endpoints (w : QRun Hooks HookBody HookOutcome)
    (R : rtc qstep (initial_run {| hk_endpoints := endpoints; hk_rows := ∅ |}) w) :
  accounted w /\
  (forall id r, hk_rows (r_db w) !! id = Some r ->
     (hk_topic (q_body r) = CANARY_TOPIC <-> hasReservedCanaryKeys (hk_payload (q_body r)) = true)).
Proof.
  split; [by refine (run_accounted _ w _ R)|]. change (bodies_ok marked_canary (hk_rows (r_db w))). remember (initial_run _) as w0 eqn:E0.
  assert (H : bodies_ok marked_canary (hk_rows (r_db w0))) by (subst w0; intros id r; cbn; by rewrite lookup_empty).
  clear E0. induction R as [|x y z S _ IH]; [done|]. by apply IH, (hook_step_marked x).
Qed.

(** A worker whose claim was reaped and taken over writes nothing, yet reports its delivery as delivered. *)
Lemma stale_delivery_reported_delivered now db_now c d r : hk_rows d !! c_id c = Some r -> current_claim c r = false ->
  snd (finalizeWebhookDelivery now db_now c HookOk d) = VDone /\ hk_rows (fst (finalizeWebhookDelivery now db_now c HookOk d)) = hk_rows d.
Proof. intros Hr Hc. cbn. unfold fenced_update. by rewrite Hr, Hc. Qed.

(** A delivery whose worker stalls: the reaper puts the row back, another worker delivers it, the first one settles late. *)
Definition shop_hook : Endpoint := {| we_id := "e1"; we_store := "s"; we_url := "https://shop.example/hook"; we_topics := ["*"]; we_secret := "k"; we_enabled := true |}.
Definition reap_now : ReaperOpts := {| ro_apply := true; ro_graceMin := Some 10; ro_batchLimit := None |}.
Definition hooks0 : Hooks := {| hk_endpoints := [shop_hook]; hk_rows := ∅ |}.
Definition hooks1 : Hooks := hook_other (HookEmit 0 ["h1"] "s" "order.paid" (JObj [("code", JStr "1001")])) hooks0.
Definition hooks2 : Hooks := fst (claimDueWebhooks false "s" ["h1"] 0 1 hooks1).
Definition hooks3 : Hooks := hook_other (HookReap reap_now 700000 [("s", ["h1"], 700000)]) hooks2.
Definition hooks4 : Hooks := fst (claimDueWebhooks false "s" ["h1"] 700001 700002 hooks3).
Definition late_claim (n : Z) : Claim HookBody :=
  {| c_id := "h1"; c_store := "s"; c_body := {| hk_endpoint := "e1"; hk_topic := "order.paid"; hk_payload := JObj [("code", JStr "1001")] |}; c_attempts := n |}.
Definition hooks5 : Hooks := fst (finalizeWebhookDelivery 700003 700003 (late_claim 2) HookOk hooks4).
Lemma webhook_delivery_accounted_witness : exists w : QRun Hooks HookBody HookOutcome,
  accounted w /\ q_status <$> (hk_rows (r_db w) !! "h1") = Some Finished /\ r_sends w = [("h1", 1); ("h1", 2)] /\ r_finals w = [("h1", 2, VDone)].
Proof.
  eexists. split; [apply (webhook_delivery_accounted [shop_hook])|].
  - eapply rtc_l; [apply (q_other _ (HookEmit 0 ["h1"] "s" "order.paid" (JObj [("code", JStr "1001")]))); intros i _; apply not_elem_of_empty|q_show].
    eapply rtc_l; [apply (q_claim _ ("s", false, 0, 1) ["h1"] hooks2 [late_claim 1]); [apply NoDup_singleton|vm_compute; reflexivity]|q_show].
    eapply rtc_l; [apply (q_send _ [] (late_claim 1) [] HookOk); reflexivity|q_show].
    eapply rtc_l; [apply (q_other _ (HookReap reap_now 700000 [("s", ["h1"], 700000)])); intros i Hi; by apply elem_of_nil in Hi|q_show].
    eapply rtc_l; [apply (q_claim _ ("s", false, 700001, 700002) ["h1"] hooks4 [late_claim 2]); [apply NoDup_singleton|vm_compute; reflexivity]|q_show].
    eapply rtc_l; [apply (q_send _ [] (late_claim 2) [] HookOk); reflexivity|q_show].
    eapply rtc_l; [apply (q_settle _ [(late_claim 1, HookOk)] (late_claim 2) HookOk [] (700003, 700003) hooks5 VDone); [reflexivity|vm_compute; reflexivity]|q_show].
    eapply rtc_l; [apply (q_settle _ [] (late_claim 1) HookOk [] (700004, 700004) hooks5 VDone); [reflexivity|vm_compute; reflexivity]|q_show].
    apply rtc_refl.
  - split; [vm_compute; reflexivity|]. split; vm_compute; reflexivity.
Defined.
