(* ===== verification/EmailOutbox.v ===== *)
(** The e-mail outbox ([email/outbox.ts], and the erasure of a customer's mail in [routes/account.ts]) as an
    implementation of [Outbox]. A delivery that is given up writes an audit row and emits [email.dead] to the webhook
    outbox in the same transaction. *)
From Stdlib Require Import ZArith QArith Qround List Bool String Ascii Lia.
From stdpp Require Import base list strings gmap relations sorting pretty.
From S2P Require Import Prelude Json Outbox OutboxFacts WebhookOutbox.
Local Open Scope string_scope.
Local Open Scope list_scope.
Local Open Scope Z_scope.

(** Delays in seconds: 1m, 5m, 30m, 2h, 12h. *)
Definition EMAIL_BACKOFF_S : list Z := [60; 300; 1800; 7200; 43200].
Definition EMAIL_MAX_ATTEMPTS : Z := 5.
Definition normalizeEmailBatchLimit (limit : option Q) : Z := batch_limit 50 500 limit.

Record EmailBody := { em_kind : string; em_recipient : string; em_payload : json; em_dedupe : option string }.
Record AuditRow := {
  au_store : string; au_actor : string; au_entity : string; au_entityId : string; au_action : string;
  au_kind : string; au_recipient : string; au_attempts : Z; au_lastError : string
}.
Record Mail := { md_rows : rows EmailBody; md_audit : list AuditRow; md_hooks : Hooks }.
Definition with_mail (t : rows EmailBody) (d : Mail) : Mail := {| md_rows := t; md_audit := md_audit d; md_hooks := md_hooks d |}.

(** The partial unique index on (store_id, dedupe_key). *)
Definition key_taken (store k : string) (t : rows EmailBody) : bool :=
  existsb (fun e => String.eqb (q_store (snd e)) store && bool_decide (em_dedupe (q_body (snd e)) = Some k)) (map_to_list t).
Record EmailArgs := { ea_kind : string; ea_recipient : string; ea_payload : json; ea_dedupeKey : option string; ea_canary : bool }.
Definition enqueueEmail (now : Z) (id store : string) (a : EmailArgs) (d : Mail) : result string (bool * Mail) :=
  let! _ := assertNotReserved ("email outbox " +:+ ea_kind a) (ea_payload a) (ea_canary a) in
  let payload := if ea_canary a then with_marker (ea_payload a) else ea_payload a in
  let row k := new_row store {| em_kind := ea_kind a; em_recipient := ea_recipient a; em_payload := payload; em_dedupe := k |} now in
  match ea_dedupeKey a with
  | Some k =>
      if String.eqb k EmptyString then Ok (true, with_mail (<[id := row None]> (md_rows d)) d)
      else if key_taken store k (md_rows d) then Ok (false, d)
      else Ok (true, with_mail (<[id := row (Some k)]> (md_rows d)) d)
  | None => Ok (true, with_mail (<[id := row None]> (md_rows d)) d)
  end.

(** Pending and due, or claimed more than ten minutes ago. *)
Definition email_due (store : string) (now : Z) (r : Queued EmailBody) : bool :=
  String.eqb (q_store r) store &&
  (bool_decide (q_status r = Pending) && (q_nextAttemptAt r <=? now) ||
   bool_decide (q_status r = Processing) && (q_updatedAt r <? now - 600000)).
Definition next_later {B} (a b : string * Queued B) : bool := q_nextAttemptAt (snd b) <? q_nextAttemptAt (snd a).
Definition claimDueEmails (store : string) (scan : list string) (limit : Z) (now : Z) (d : Mail) : Mail * list (Claim EmailBody) :=
  let picked := select_due (email_due store now) next_later scan (Z.to_nat limit) (md_rows d) in
  (with_mail (mark_claimed now picked (md_rows d)) d, map claim_of picked).

Inductive MailOutcome := MailOk | MailFailed (error : string).
Definition dead_event (c : Claim EmailBody) (lastError : string) : json :=
  JObj [("id", JStr (c_id c)); ("kind", JStr (em_kind (c_body c))); ("recipient", JStr (em_recipient (c_body c)));
        ("attempts", JNum (inject_Z (c_attempts c))); ("lastError", JStr lastError)].
(** [now] is the process's clock, [db_now] the database's; [ids] are the ids of the webhook deliveries it may create. *)
Definition finalizeEmail (now db_now : Z) (ids : list string) (store : string) (c : Claim EmailBody) (o : MailOutcome) (d : Mail) : result string (Mail * Verdict) :=
  match o with
  | MailOk =>
      let '(found, t) := fenced_update c (finished_row now None) (md_rows d) in
      Ok (with_mail t d, if found : bool then VDone else VStale)
  | MailFailed lastError =>
      let giveUp := EMAIL_MAX_ATTEMPTS <=? c_attempts c in
      let next := now + backoff_of EMAIL_BACKOFF_S (c_attempts c) * 1000 in
      let '(found, t) := fenced_update c (failed_row (if giveUp then Dead else Pending) now db_now next lastError) (md_rows d) in
      if negb found then Ok (with_mail t d, VStale)
      else if negb giveUp then Ok (with_mail t d, VRetry)
      else
        let audit := {| au_store := store; au_actor := "system:email-outbox"; au_entity := "email_outbox"; au_entityId := c_id c;
                        au_action := "delivery_dead"; au_kind := em_kind (c_body c); au_recipient := em_recipient (c_body c);
                        au_attempts := c_attempts c; au_lastError := lastError |} in
        let! hooks := emitEvent db_now ids store "email.dead" (dead_event c lastError) (md_hooks d) in
        Ok ({| md_rows := t; md_audit := md_audit d ++ [audit]; md_hooks := hooks |}, VDead)
  end.

(** * A pass *)
(** [const { canary, marker, ...mail } = d.payload]. *)
Definition mail_of (payload : json) : json :=
  match payload with
  | JObj fs => JObj (List.filter (fun f => negb (String.eqb (fst f) "canary" || String.eqb (fst f) "marker")) fs)
  | p => p
  end.
(** What [sendEmail], the mailer, returns or throws. *)
Inductive MailAnswer := Delivered | Undelivered (reason : option string) | Threw (message : string).
Definition outcome_of (a : MailAnswer) : MailOutcome :=
  match a with
  | Delivered => MailOk
  | Undelivered reason => MailFailed (match reason with Some r => r | None => "send failed" end)
  | Threw m => MailFailed m
  end.

Section pass.
(** The mailer's answer to each attempt, and the ids its settlement may generate. *)
Context (sendEmail : Claim EmailBody -> json -> string -> MailAnswer) (now : Z) (gen : Claim EmailBody -> list string).

(** The claimed rows of one store, one after the other. *)
Fixpoint deliver_claims (store : string) (due : list (Claim EmailBody)) (acc : Mail * (Z * Z)) : result string (Mail * (Z * Z)) :=
  match due with
  | [] => Ok acc
  | c :: r =>
      let '(d, (sent, failed)) := acc in
      let! p := finalizeEmail now now (gen c) store c (outcome_of (sendEmail c (mail_of (em_payload (c_body c))) store)) d in
      deliver_claims store r (fst p, (if decide (snd p = VDone) then sent + 1 else sent, if decide (snd p = VDead) then failed + 1 else failed))
  end.
(** The stores, each with the rows that its claim statement can lock. *)
Fixpoint deliver_stores (limit : Z) (stores : list (string * list string)) (acc : Mail * (Z * Z)) : result string (Mail * (Z * Z)) :=
  match stores with
  | [] => Ok acc
  | (store, scan) :: r =>
      let '(d, counts) := acc in
      let '(d', due) := claimDueEmails store scan limit now d in
      let! acc' := deliver_claims store due (d', counts) in
      deliver_stores limit r acc'
  end.
Definition deliverEmails (limit : option Q) (stores : list (string * list string)) (d : Mail) : result string (Mail * (Z * Z)) :=
  deliver_stores (normalizeEmailBatchLimit limit) stores (d, (0, 0)).
End pass.

(** [routes/account.ts], erasure: the recipient and payload go, the delivery history stays. *)
Definition erased_row (r : Queued EmailBody) : Queued EmailBody :=
  {| q_store := q_store r;
     q_body := {| em_kind := em_kind (q_body r); em_recipient := "erased@deleted.invalid"; em_payload := JObj [("erased", JBool true)];
                  em_dedupe := em_dedupe (q_body r) |};
     q_status := q_status r; q_attempts := q_attempts r; q_lastError := q_lastError r; q_nextAttemptAt := q_nextAttemptAt r;
     q_doneAt := q_doneAt r; q_updatedAt := q_updatedAt r; q_claimedAt := q_claimedAt r; q_firstFailedAt := q_firstFailedAt r |}.
Definition erase_mail (store email : string) (d : Mail) : Mail :=
  with_mail ((fun r => if String.eqb (q_store r) store && String.eqb (em_recipient (q_body r)) email then erased_row r else r) <$> md_rows d) d.

(** * The interface *)
Inductive mail_action :=
| MailEnqueue (now : Z) (id store : string) (a : EmailArgs)
| MailErase (store email : string)
| MailHooks (x : hook_action).              (* the webhook outbox beside it *)
Definition mail_other (x : mail_action) (d : Mail) : Mail :=
  match x with
  | MailEnqueue now id store a => match enqueueEmail now id store a d with Ok (_, d') => d' | Err _ => d end
  | MailErase store email => erase_mail store email d
  | MailHooks x => {| md_rows := md_rows d; md_audit := md_audit d; md_hooks := hook_other x (md_hooks d) |}
  end.
Definition mail_ids (x : mail_action) : list string := match x with MailEnqueue _ id _ _ => [id] | _ => [] end.
#[export] Instance mail_outbox : Outbox Mail EmailBody (string * Z * Z) MailOutcome (Z * Z * list string) mail_action := {
  ob_table := md_rows;
  ob_claim := fun k scan d => claimDueEmails (fst (fst k)) scan (snd (fst k)) (snd k) d;
  ob_settle := fun a c o d => match finalizeEmail (fst (fst a)) (snd (fst a)) (snd a) (c_store c) c o d with Ok p => p | Err _ => (d, VStale) end;
  ob_other := mail_other;
  ob_ids := mail_ids
}.

(** [email.dead] is an ordinary topic with an ordinary payload: its emission never throws. *)
Lemma dead_emitted now ids store c e d : exists hooks, emitEvent now ids store "email.dead" (dead_event c e) d = Ok hooks.
Proof. unfold emitEvent. cbn. destruct (subscribed _ _ _); by eexists. Qed.
(** A settlement finds its row or reports a stale claim; it never fails. *)
Lemma finalize_spec now db_now ids c o d : exists d' v, finalizeEmail now db_now ids (c_store c) c o d = Ok (d', v) /\
  match md_rows d !! c_id c with
  | Some r =>
      if current_claim c r
      then v <> VStale /\ (v = VDone <-> o = MailOk) /\ (v = VDead -> EMAIL_MAX_ATTEMPTS <= c_attempts c) /\ (v = VRetry -> c_attempts c < EMAIL_MAX_ATTEMPTS) /\
           (exists r', md_rows d' = <[c_id c := r']> (md_rows d) /\ q_store r' = q_store r /\ q_body r' = q_body r /\ q_attempts r' = q_attempts r /\ q_status r' = verdict_status v) /\
           map au_entityId (md_audit d') = map au_entityId (md_audit d) ++ (if decide (v = VDead) then [c_id c] else [])
      else v = VStale /\ md_rows d' = md_rows d /\ md_audit d' = md_audit d
  | None => v = VStale /\ md_rows d' = md_rows d /\ md_audit d' = md_audit d
  end.
Proof.
  unfold finalizeEmail, fenced_update. destruct o as [|e].
  - destruct (md_rows d !! c_id c) as [r|] eqn:Er; [destruct (current_claim c r)|]; eexists _, _; (split; [reflexivity|]); cbn; try done.
    split; [done|]. split; [done|]. split; [done|]. split; [done|]. split; [by eexists|]. by rewrite app_nil_r.
  - destruct (dead_emitted db_now ids (c_store c) c e (md_hooks d)) as [hooks Eh]. cbv zeta. set (giveUp := _ <=? _).
    destruct (md_rows d !! c_id c) as [r|] eqn:Er; [destruct (current_claim c r)|]; [|eexists _, _; by split..].
    destruct giveUp eqn:Eg; unfold giveUp in Eg; bool_props; cbn -[emitEvent]; rewrite ?Eh; eexists _, _; (split; [reflexivity|]); cbn.
    + split; [done|]. split; [done|]. split; [done|]. split; [done|]. split; [by eexists|]. by rewrite map_app.
    + split; [done|]. split; [done|]. split; [done|]. split; [done|]. split; [by eexists|]. by rewrite app_nil_r.
Qed.

#[export] Instance mail_laws : OutboxLaws Mail EmailBody (string * Z * Z) MailOutcome (Z * Z * list string) mail_action.
Proof.
  constructor.
  - intros [[store limit] now] scan d d' cs Hs. cbn. unfold claimDueEmails. intros [= <- <-]. cbn. apply claim_statement; [done|].
    intros r. unfold email_due. rewrite andb_true_iff, orb_true_iff, !andb_true_iff, !bool_decide_eq_true. unfold open_row. tauto.
  - intros [[now db_now] ids] c o d d' v. cbn. destruct (finalize_spec now db_now ids c o d) as (e & u & -> & S). intros [= <- <-].
    destruct (md_rows d !! c_id c) as [r|]; [|tauto]. destruct (current_claim c r); [|tauto].
    destruct S as (Hv & _ & _ & _ & (r' & -> & _ & _ & Ha & Hs) & _). split; [done|]. by exists r'.
  - intros x d seen id Hi Ht. destruct x as [now i store a|store email|y]; cbn in *.
    + assert (New : forall r : Queued EmailBody, q_status r = Pending -> q_attempts r = 0 -> row_change seen id (md_rows d !! id) (<[i := r]> (md_rows d) !! id)).
      { intros r Hp H0. destruct (decide (id = i)) as [->|N]; [|rewrite lookup_insert_ne by done; constructor].
        rewrite lookup_insert_eq. assert (i ∉ seen) by (apply Hi; by left). destruct (md_rows d !! i) eqn:E; [|by constructor].
        destruct H. apply Ht. by eexists. }
      unfold enqueueEmail, bind_result. repeat (case_match; simplify_eq); cbn; try constructor; by apply New.
    + rewrite lookup_fmap. destruct (md_rows d !! id) as [r|]; cbn; [|constructor]. by constructor; destruct (_ && _).
    + constructor.
Qed.
