(* ===== verification/EmailFacts.v ===== *)
(** Facts of the e-mail outbox: along any run each mail ends at most once, an exhausted one leaves exactly one audit
    row, and no dedupe key is queued twice; a delivery pass is such a run and counts it truthfully; and two facts about
    the retry policy that its comments do not tell. *)
From Stdlib Require Import ZArith QArith List Bool String Ascii Lia.
From stdpp Require Import base list strings gmap relations sorting pretty.
From S2P Require Import Prelude Json Outbox OutboxFacts WebhookOutbox EmailOutbox.
Local Open Scope string_scope.
Local Open Scope list_scope.
Local Open Scope Z_scope.

Abbreviation MailRun := (QRun Mail EmailBody MailOutcome).

(** * Runs *)
Definition deaths (l : list (string * Z * Verdict)) : list string :=
  map (fun f => fst (fst f)) (List.filter (fun f => bool_decide (snd f = VDead)) l).
(** Two rows of a store with one dedupe key are one row. *)
Definition keys_unique (t : rows EmailBody) : Prop :=
  forall i j r q k, t !! i = Some r -> t !! j = Some q -> q_store r = q_store q -> em_dedupe (q_body r) = Some k -> em_dedupe (q_body q) = Some k -> i = j.
Definition same_keys (r q : Queued EmailBody) : Prop := q_store r = q_store q /\ em_dedupe (q_body r) = em_dedupe (q_body q).
Lemma keys_kept (t t' : rows EmailBody) : keys_unique t -> (forall id r, t' !! id = Some r -> exists q, t !! id = Some q /\ same_keys q r) -> keys_unique t'.
Proof.
  intros U H i j r q k Hi Hj Es Ei Ej. destruct (H _ _ Hi) as (r0 & Hr & S1 & D1), (H _ _ Hj) as (q0 & Hq & S2 & D2).
  apply (U i j r0 q0 k); congruence.
Qed.
Lemma keys_added (t : rows EmailBody) id r : keys_unique t ->
  (forall k, em_dedupe (q_body r) = Some k -> key_taken (q_store r) k t = false) -> keys_unique (<[id := r]> t).
Proof.
  intros U Hr. assert (Free : forall i q k, t !! i = Some q -> em_dedupe (q_body r) = Some k -> q_store q = q_store r -> em_dedupe (q_body q) = Some k -> False).
  { intros i q k Hq Ek Es Eq. specialize (Hr _ Ek). apply not_true_iff_false in Hr. apply Hr. unfold key_taken. apply existsb_exists.
    exists (i, q). split; [by apply list_elem_of_In, elem_of_map_to_list|]. cbn. rewrite Es, String.eqb_refl. by apply bool_decide_eq_true. }
  intros i j q q' k. rewrite !lookup_insert_Some. intros [[<- <-]|[Ni Hi]] [[<- <-]|[Nj Hj]] Es Ei Ej; [done| | |by eapply U].
  - destruct (Free j q' k); done.
  - destruct (Free i q k); done.
Qed.

Record mail_ok (w : MailRun) : Prop := {
  mo_audit : map au_entityId (md_audit (r_db w)) = deaths (r_finals w);
  mo_keys : keys_unique (md_rows (r_db w))
}.
Lemma enqueue_mail_ok now id store a d b d' : keys_unique (md_rows d) -> enqueueEmail now id store a d = Ok (b, d') -> md_audit d' = md_audit d /\ keys_unique (md_rows d').
Proof.
  intros U. unfold enqueueEmail, bind_result. destruct (assertNotReserved _ _ _); [|done]. cbv zeta.
  assert (None' : forall r : Queued EmailBody, em_dedupe (q_body r) = None -> keys_unique (<[id := r]> (md_rows d))).
  { intros r E. apply keys_added; [done|]. intros k. by rewrite E. }
  destruct (ea_dedupeKey a) as [k|]; [|intros [= <- <-]; split; [done|by apply None']].
  destruct (String.eqb k EmptyString); [intros [= <- <-]; split; [done|by apply None']|].
  destruct (key_taken store k (md_rows d)) eqn:Ek; intros [= <- <-]; [done|]. split; [done|]. apply keys_added; [done|]. by intros ? [= <-].
Qed.
Lemma step_mail_ok w w' : qstep (D := Mail) w w' -> mail_ok w -> mail_ok w'.
Proof.
  intros [w0 [[store limit] now] scan d' cs Hs E|w0 l c r o E|w0 l c o r [[now db_now] ids] d' v E Es|w0 todo sent Ht Hs|w0 x Hx] [A U]; try by constructor.
  - cbn in E. unfold claimDueEmails in E. injection E as <- _. constructor; [done|]. cbn. eapply keys_kept; [exact U|]. set (picked := select_due _ _ _ _ _).
    assert (P : NoDup (map fst picked) /\ forall id r, (id, r) ∈ picked -> md_rows (r_db w0) !! id = Some r).
    { split; [by apply select_due_ids|]. intros id r Hr. by apply select_due_spec in Hr as [Hr _]. }
    intros id r Hr. destruct (decide (id ∈ map fst picked)) as [Hin|Hin].
    + apply list_elem_of_fmap in Hin as ([i q] & -> & Hq). cbn in Hr. rewrite (mark_claimed_in now picked _ i q) in Hr by tauto. injection Hr as <-.
      exists q. split; [by apply P|done].
    + rewrite mark_claimed_out in Hr by done. by exists r.
  - cbn in Es. destruct (finalize_spec now db_now ids c o (r_db w0)) as (e & u & Ef & S). rewrite Ef in Es. injection Es as <- <-.
    constructor; unfold is_current; cbn.
    + destruct (md_rows (r_db w0) !! c_id c) as [q|]; [|by destruct S as (_ & _ & ->)]. destruct (current_claim c q); [|by destruct S as (_ & _ & ->)].
      destruct S as (_ & _ & _ & _ & _ & ->). unfold deaths. rewrite List.filter_app, map_app, A. f_equal. cbn. by destruct u.
    + eapply keys_kept; [exact U|]. intros id q Hq.
      destruct (md_rows (r_db w0) !! c_id c) as [p|] eqn:Ep; [|destruct S as (_ & S & _); rewrite S in Hq; by exists q].
      destruct (current_claim c p); [|destruct S as (_ & S & _); rewrite S in Hq; by exists q].
      destruct S as (_ & _ & _ & _ & (p' & S & Hp1 & Hp2 & _) & _). rewrite S in Hq. apply lookup_insert_Some in Hq as [[<- <-]|[_ Hq]]; [|by exists q].
      exists p. split; [done|]. split; congruence.
  - destruct x as [now id store a|store email|y]; cbn in *.
    + destruct (enqueueEmail now id store a (r_db w0)) as [[b d']|] eqn:E; [|by constructor]. apply enqueue_mail_ok in E as [E1 E2]; [|done].
      constructor; cbn; [by rewrite E1|done].
    + constructor; [done|]. cbn. eapply keys_kept; [exact U|]. intros id r. rewrite lookup_fmap. destruct (md_rows (r_db w0) !! id) as [q|]; [|done].
      cbn. intros [= <-]. exists q. split; [done|]. by destruct (_ && _).
    + by constructor.
Qed.

(** C26: The e-mail outbox along any run of delivery passes, crashes, late workers, new mails and erasures, from an empty
    outbox. Each attempt of a mail goes out at most once and settles at most once, only while its claim is current; a
    mail ends at most once, and its status says how; the audit log holds exactly one row per mail that was given up, in
    order; and no dedupe key of a store is queued twice. *)
Theorem email_delivery_accounted hooks (w : MailRun) (R : rtc qstep (initial_run {| md_rows := ∅; md_audit := []; md_hooks := hooks |}) w) :
  accounted w /\
  map au_entityId (md_audit (r_db w)) = deaths (r_finals w) /\ NoDup (map au_entityId (md_audit (r_db w))) /\
  (forall id r, md_rows (r_db w) !! id = Some r -> (q_status r = Dead <-> id ∈ map au_entityId (md_audit (r_db w)))) /\
  keys_unique (md_rows (r_db w)).
Proof.
  pose proof (run_accounted _ w (eq_refl : ob_table {| md_rows := ∅; md_audit := []; md_hooks := hooks |} = ∅) R) as A.
  assert (M : mail_ok w).
  { remember (initial_run _) as w0 eqn:E0. assert (H : mail_ok w0) by (subst w0; constructor; [done|]; intros i j r q k; cbn; by rewrite lookup_empty).
    clear E0 A. induction R as [|x y z S _ IH]; [done|]. by apply IH, (step_mail_ok x). }
  destruct M as [Ea Uk]. split; [done|]. destruct A as (_ & _ & Ao & As & _). rewrite Ea. split; [done|]. split; [|split; [|done]].
  - eapply sublist_NoDup; [exact Ao|]. unfold deaths, outcomes. apply (fmap_sublist (fun f : string * Z * Verdict => fst (fst f))). clear.
    induction (r_finals w) as [|[[i n] v] l IH]; cbn; [constructor|].
    destruct v; [exact (sublist_cons _ _ _ IH)|exact IH|exact (sublist_skip _ _ _ IH)|exact IH].
  - intros id r Hr. destruct (As id r VDead Hr eq_refl) as [Ad An]. change Dead with (verdict_status VDead). rewrite Ad. unfold deaths. split.
    + intros Hn. apply (list_elem_of_fmap_2 (fun f : string * Z * Verdict => fst (fst f)) _ (id, q_attempts r, VDead)).
      apply elem_filter_bool. split; [done|by apply bool_decide_eq_true].
    + intros Hin. apply list_elem_of_fmap in Hin as ([[i n] v] & -> & Hf). apply elem_filter_bool in Hf as [Hf Ev].
      apply bool_decide_eq_true in Ev. cbn in Ev. subst v. by rewrite <- (An n Hf).
Qed.

(** * A pass *)
Section pass.
Context (sendEmail : Claim EmailBody -> json -> string -> MailAnswer) (now : Z) (gen : Claim EmailBody -> list string).

Definition count_verdict (v : Verdict) (l : list (string * Z * Verdict)) : Z := Z.of_nat (length (List.filter (fun f => bool_decide (snd f = v)) l)).
Lemma count_verdict_snoc v l f : count_verdict v (l ++ [f]) = count_verdict v l + (if decide (snd f = v) then 1 else 0).
Proof.
  unfold count_verdict. rewrite List.filter_app, length_app, Nat2Z.inj_add. f_equal. cbn [List.filter].
  destruct (decide (snd f = v)); [by rewrite bool_decide_true|by rewrite bool_decide_false].
Qed.

(** One claimed mail: sent, then settled. *)
Lemma delivered_run (w : MailRun) todo1 c todo2 : r_todo w = todo1 ++ c :: todo2 -> exists d' v (w' : MailRun),
  finalizeEmail now now (gen c) (c_store c) c (outcome_of (sendEmail c (mail_of (em_payload (c_body c))) (c_store c))) (r_db w) = Ok (d', v) /\
  rtc qstep w w' /\ r_db w' = d' /\ r_todo w' = todo1 ++ todo2 /\ r_sent w' = r_sent w /\
  forall u, terminal u = true -> count_verdict u (r_finals w') = count_verdict u (r_finals w) + (if decide (v = u) then 1 else 0).
Proof.
  intros E. set (o := outcome_of _). destruct (finalize_spec now now (gen c) c o (r_db w)) as (d' & v & Ef & S). eexists d', v, _.
  split; [done|]. split; [|split; [|split; [|split]]].
  - eapply rtc_l; [by apply (q_send w todo1 c todo2 o)|]. eapply rtc_l; [|apply rtc_refl].
    apply (q_settle _ (r_sent w) c o [] (now, now, gen c) d' v); [reflexivity|]. cbn. by rewrite Ef.
  - done.
  - done.
  - cbn. by rewrite app_nil_r.
  - intros u T. cbn. unfold is_current. cbn. destruct (md_rows (r_db w) !! c_id c) as [r|]; [destruct (current_claim c r)|].
    + by rewrite count_verdict_snoc.
    + destruct S as (-> & _). rewrite decide_False by (by intros <-). lia.
    + destruct S as (-> & _). rewrite decide_False by (by intros <-). lia.
Qed.
(** A pass is a run of its own claims, and its counts are the outcomes it wrote. *)
Definition pass_of (w w' : MailRun) (d : Mail) (sent sent' failed failed' : Z) : Prop :=
  rtc qstep w w' /\ r_db w' = d /\ r_todo w' = r_todo w /\ r_sent w' = r_sent w /\
  sent' - sent = count_verdict VDone (r_finals w') - count_verdict VDone (r_finals w) /\
  failed' - failed = count_verdict VDead (r_finals w') - count_verdict VDead (r_finals w).
Lemma deliver_claims_run store due : Forall (fun c => c_store c = store) due -> forall (w : MailRun) todo sent failed, r_todo w = todo ++ due ->
  exists d' sent' failed' (w' : MailRun), deliver_claims sendEmail now gen store due (r_db w, (sent, failed)) = Ok (d', (sent', failed')) /\
    rtc qstep w w' /\ r_db w' = d' /\ r_todo w' = todo /\ r_sent w' = r_sent w /\
    sent' - sent = count_verdict VDone (r_finals w') - count_verdict VDone (r_finals w) /\
    failed' - failed = count_verdict VDead (r_finals w') - count_verdict VDead (r_finals w).
Proof.
  induction 1 as [|c rest Hc _ IH]; intros w todo sent failed E.
  - rewrite app_nil_r in E. exists (r_db w), sent, failed, w. cbn. repeat (split; [done || lia|]). lia.
  - destruct (delivered_run w todo c rest E) as (d1 & v & w1 & Ef & R & Ed & Et & Esn & Cv). cbn [deliver_claims]. rewrite Hc in Ef. rewrite Ef. cbn [bind_result fst snd].
    rewrite <- Ed. destruct (IH w1 todo (if decide (v = VDone) then sent + 1 else sent) (if decide (v = VDead) then failed + 1 else failed) Et)
      as (d' & s' & f' & w' & -> & R' & Ed' & Et' & Es' & C1 & C2).
    exists d', s', f', w'. split; [done|]. split; [by etrans|]. split; [done|]. split; [done|]. split; [congruence|].
    rewrite (Cv VDone) in C1 by done. rewrite (Cv VDead) in C2 by done. destruct (decide (v = VDone)), (decide (v = VDead)); lia.
Qed.
Lemma deliver_stores_run limit stores : Forall (fun st => NoDup (snd st)) stores -> forall (w : MailRun) sent failed,
  exists d' sent' failed' (w' : MailRun), deliver_stores sendEmail now gen limit stores (r_db w, (sent, failed)) = Ok (d', (sent', failed')) /\
    pass_of w w' d' sent sent' failed failed'.
Proof.
  induction 1 as [|[store scan] rest Hs _ IH]; intros w sent failed.
  - exists (r_db w), sent, failed, w. split; [done|]. unfold pass_of. repeat (split; [done || lia|]). lia.
  - cbn [deliver_stores]. destruct (claimDueEmails store scan limit now (r_db w)) as [d1 due] eqn:Ec.
    pose proof (q_claim w (store, limit, now) scan d1 due Hs Ec) as Q. set (w1 := {| r_db := d1 |}) in Q.
    assert (F : Forall (fun c => c_store c = store) due).
    { unfold claimDueEmails in Ec. injection Ec as _ <-. apply Forall_forall. intros c Hc. apply list_elem_of_fmap in Hc as ([id r] & -> & Hr).
      apply select_due_spec in Hr as [_ Hd]. unfold email_due in Hd. apply andb_true_iff in Hd as [Hd _]. by apply String.eqb_eq in Hd. }
    destruct (deliver_claims_run store due F w1 (r_todo w) sent failed eq_refl) as (d2 & s2 & f2 & w2 & E2 & R2 & Ed2 & Et2 & Es2 & C1 & C2).
    cbn in E2. rewrite E2. cbn [bind_result]. rewrite <- Ed2. destruct (IH w2 s2 f2) as (d' & s' & f' & w' & -> & R' & Ed' & Et' & Es' & C1' & C2').
    exists d', s', f', w'. split; [done|]. split; [eapply rtc_l; [exact Q|by etrans]|]. split; [done|]. split; [congruence|]. split; [by rewrite Es', Es2|].
    cbn in C1, C2. lia.
Qed.

(** C27: A delivery pass never fails on its own and refines the outbox: whatever the mailer answers, [deliverEmails]
    returns, what it did is a run of claims, sends and settlements that leaves no claim of its own open and touches
    no other worker's, and the counts it returns are exactly the mails it finished and the mails it gave up, stale
    claims counting as neither. *)
Theorem email_pass_refines_outbox limit stores (w : MailRun) (N : Forall (fun st => NoDup (snd st)) stores) :
  exists d' sent failed (w' : MailRun), deliverEmails sendEmail now gen limit stores (r_db w) = Ok (d', (sent, failed)) /\
    rtc qstep w w' /\ r_db w' = d' /\ r_todo w' = r_todo w /\ r_sent w' = r_sent w /\
    sent = count_verdict VDone (r_finals w') - count_verdict VDone (r_finals w) /\
    failed = count_verdict VDead (r_finals w') - count_verdict VDead (r_finals w).
Proof.
  destruct (deliver_stores_run (normalizeEmailBatchLimit limit) stores N w 0 0) as (d' & s' & f' & w' & E & R & Ed & Et & Es & C1 & C2).
  exists d', s', f', w'. rewrite Z.sub_0_r in C1, C2. done.
Qed.
End pass.

(** * The retry policy *)
(** The longest delay before a retry is two hours: the twelve-hour entry belongs to the attempt that gives up. *)
Lemma email_retry_within_two_hours now db_now ids c o d d' r : md_rows d !! c_id c = Some r -> current_claim c r = true -> 1 <= c_attempts c ->
  finalizeEmail now db_now ids (c_store c) c o d = Ok (d', VRetry) ->
  exists r', md_rows d' !! c_id c = Some r' /\ q_nextAttemptAt r' <= now + 7200 * 1000.
Proof.
  intros Hr Hc H1. unfold finalizeEmail, fenced_update. rewrite Hr, Hc. destruct o as [|e]; [done|]. cbv zeta. cbn [negb].
  destruct (EMAIL_MAX_ATTEMPTS <=? c_attempts c) eqn:Eg; cbn [negb].
  { destruct (dead_emitted db_now ids (c_store c) c e (md_hooks d)) as [h ->]. done. }
  intros [= <-]. eexists. split; [apply lookup_insert_eq|]. cbn [failed_row q_nextAttemptAt]. unfold EMAIL_MAX_ATTEMPTS in Eg. bool_props.
  assert (A : c_attempts c = 1 \/ c_attempts c = 2 \/ c_attempts c = 3 \/ c_attempts c = 4) by lia.
  destruct A as [-> | [-> | [-> | ->]]]; vm_compute (backoff_of _ _); lia.
Qed.

(** A mail whose worker dies at every attempt is claimed again and again: the attempts grow past the maximum and the
    row is never given up. *)
Definition poison : Mail :=
  {| md_rows := {["m" := new_row "s" {| em_kind := "order_confirmation"; em_recipient := "a@b.c"; em_payload := JObj []; em_dedupe := None |} 0]};
     md_audit := []; md_hooks := {| hk_endpoints := []; hk_rows := ∅ |} |}.
Fixpoint crash_loop (n : nat) : Mail :=
  match n with O => poison | S k => fst (claimDueEmails "s" ["m"] 50 (700000 * Z.of_nat n) (crash_loop k)) end.
Lemma crashing_mail_never_dies n : exists r, md_rows (crash_loop (S n)) = {["m" := r]} /\ q_store r = "s" /\ q_status r = Processing /\
  q_attempts r = Z.of_nat (S n) /\ q_updatedAt r = 700000 * Z.of_nat (S n) /\ md_audit (crash_loop (S n)) = [].
Proof.
  induction n as [|n (r & Et & Es & Ep & Ea & Eu & Eau)].
  - eexists. split; [vm_compute; reflexivity|]. vm_compute. done.
  - exists (claimed_row (700000 * Z.of_nat (S (S n))) r). change (crash_loop (S (S n))) with (fst (claimDueEmails "s" ["m"] 50 (700000 * Z.of_nat (S (S n))) (crash_loop (S n)))).
    unfold claimDueEmails. rewrite Et. unfold select_due. cbn [omap list_omap]. rewrite lookup_singleton_eq.
    assert (email_due "s" (700000 * Z.of_nat (S (S n))) r = true) as ->.
    { unfold email_due. rewrite Es, Ep, Eu. cbn [String.eqb]. apply andb_true_iff. split; [done|]. apply orb_true_iff. right. apply andb_true_iff.
      split; [done|]. apply Z.ltb_lt. lia. }
    cbn -[Z.mul Z.of_nat crash_loop]. split; [change (take (Z.to_nat 50) [("m", r)]) with [("m", r)]; apply insert_singleton_eq|]. split; [done|]. split; [done|]. split; [lia|]. split; [done|exact Eau].
Qed.

(** * A run *)
Definition receipt : EmailArgs :=
  {| ea_kind := "order_confirmation"; ea_recipient := "a@b.c"; ea_payload := JObj [("subject", JStr "Order 1001")]; ea_dedupeKey := Some "order:1001"; ea_canary := false |}.
Definition ops_hooks : Hooks :=
  {| hk_endpoints := [{| we_id := "e1"; we_store := "s"; we_url := "https://ops.example"; we_topics := ["email.dead"]; we_secret := "k"; we_enabled := true |}]; hk_rows := ∅ |}.
Definition mail0 : Mail := {| md_rows := ∅; md_audit := []; md_hooks := ops_hooks |}.
Definition mail1 : Mail := mail_other (MailEnqueue 0 "m2" "s" receipt) (mail_other (MailEnqueue 0 "m" "s" receipt) mail0).
(** The mail server is down for five passes, an hour apart. *)
Definition smtp_down (c : Claim EmailBody) (mail : json) (store : string) : MailAnswer := Undelivered (Some "connection refused").
Definition pass_at (hour : Z) (d : Mail) : Mail :=
  match deliverEmails smtp_down (3 * 3600000 * hour) (fun c => ["h" +:+ c_id c]) None [("s", ["m"])] d with Ok (d', _) => d' | Err _ => d end.
Definition mail6 : Mail := pass_at 5 (pass_at 4 (pass_at 3 (pass_at 2 (pass_at 1 mail1)))).
Lemma pass_runs hour (w : MailRun) : exists w' : MailRun, rtc qstep w w' /\ r_db w' = pass_at hour (r_db w).
Proof.
  destruct (deliver_stores_run smtp_down (3 * 3600000 * hour) (fun c => ["h" +:+ c_id c]) (normalizeEmailBatchLimit None) [("s", ["m"])]
    ltac:(constructor; [apply NoDup_singleton|constructor]) w 0 0) as (d' & s' & f' & w' & E & R & Ed & _).
  exists w'. split; [done|]. unfold pass_at, deliverEmails. by rewrite E.
Qed.
Lemma email_pass_refines_outbox_witness : exists d' sent failed (w' : MailRun),
  deliverEmails smtp_down (3 * 3600000 * 5) (fun c => ["h" +:+ c_id c]) None [("s", ["m"])] (pass_at 4 (pass_at 3 (pass_at 2 (pass_at 1 mail1)))) = Ok (d', (sent, failed)) /\
  failed = 1 /\ count_verdict VDead (r_finals w') = 1.
Proof.
  destruct (email_pass_refines_outbox smtp_down (3 * 3600000 * 5) (fun c => ["h" +:+ c_id c]) None [("s", ["m"])]
    (initial_run (pass_at 4 (pass_at 3 (pass_at 2 (pass_at 1 mail1))))) ltac:(constructor; [apply NoDup_singleton|constructor]))
    as (d' & sent & failed & w' & E & _ & _ & _ & _ & _ & Ef).
  exists d', sent, failed, w'. split; [exact E|].
  assert (F : failed = 1) by (assert (V : match deliverEmails smtp_down (3 * 3600000 * 5) (fun c => ["h" +:+ c_id c]) None [("s", ["m"])]
    (pass_at 4 (pass_at 3 (pass_at 2 (pass_at 1 mail1)))) with Ok (_, (_, f)) => f | Err _ => 0 end = 1) by (vm_compute; reflexivity); cbn [initial_run r_db] in E; rewrite E in V; exact V).
  split; [exact F|]. cbn [initial_run r_finals] in Ef. change (count_verdict VDead []) with 0 in Ef. lia.
Defined.

Lemma email_delivery_accounted_witness : exists w : MailRun,
  map au_entityId (md_audit (r_db w)) = deaths (r_finals w) /\ map au_entityId (md_audit (r_db w)) = ["m"] /\
  q_status <$> (md_rows (r_db w) !! "m") = Some Dead /\ q_status <$> (hk_rows (md_hooks (r_db w)) !! "hm") = Some Pending.
Proof.
  assert (Start : exists w : MailRun, rtc qstep (initial_run mail0) w /\ r_db w = mail1).
  { eexists. split; [eapply rtc_l; [apply (q_other _ (MailEnqueue 0 "m" "s" receipt)); intros i _; apply not_elem_of_empty|q_show]|].
    - eapply rtc_l; [|apply rtc_refl]. apply (q_other _ (MailEnqueue 0 "m2" "s" receipt)). intros i ->%list_elem_of_singleton.
      apply (bool_decide_unpack _). vm_compute. exact I.
    - reflexivity. }
  destruct Start as (w0 & R0 & E0).
  destruct (pass_runs 1 w0) as (w1 & R1 & E1). destruct (pass_runs 2 w1) as (w2 & R2 & E2). destruct (pass_runs 3 w2) as (w3 & R3 & E3).
  destruct (pass_runs 4 w3) as (w4 & R4 & E4). destruct (pass_runs 5 w4) as (w5 & R5 & E5).
  assert (E : r_db w5 = mail6) by (rewrite E5, E4, E3, E2, E1, E0; reflexivity).
  exists w5. rewrite E. split; [|split; [|split]]; [|vm_compute; reflexivity..].
  rewrite <- E. apply (email_delivery_accounted ops_hooks w5). by do 5 (etrans; [eassumption|]).
Defined.
