(* ===== verification/PushOutbox.v ===== *)
(** The push outbox ([push/outbox.ts]) as an implementation of [Outbox]: fan-out to the live registrations of a topic, the
    liveness check before a send, and the removal of devices the push service no longer knows. *)
From Stdlib Require Import ZArith QArith Qround List Bool String Ascii Lia.
From stdpp Require Import base list strings gmap relations sorting pretty.
From S2P Require Import Prelude Json Outbox OutboxFacts WebhookOutbox EmailOutbox.
Local Open Scope string_scope.
Local Open Scope list_scope.
Local Open Scope Z_scope.

Definition PUSH_BACKOFF_S : list Z := [60; 300; 1800; 7200; 43200].
Definition PUSH_MAX_ATTEMPTS : Z := 5.
Definition normalizePushBatchLimit (limit : option Q) : Z := batch_limit 50 500 limit.

Record PushBody := { pu_topic : string; pu_deviceToken : string; pu_environment : string; pu_payload : json }.
Record Device := {
  dv_id : string; dv_store : string; dv_admin : string; dv_token : string; dv_kind : string; dv_environment : string;
  dv_topics : list string; dv_session : option string
}.
Record AdminSession := { ss_id : string; ss_admin : option string; ss_expires : Z; ss_lastSeen : option Z; ss_created : Z }.
Record Pushes := { pd_rows : rows PushBody; pd_devices : list Device; pd_sessions : list AdminSession; pd_members : list (string * string) }.
Definition with_pushes (t : rows PushBody) (d : Pushes) : Pushes :=
  {| pd_rows := t; pd_devices := pd_devices d; pd_sessions := pd_sessions d; pd_members := pd_members d |}.
Definition with_devices (l : list Device) (d : Pushes) : Pushes :=
  {| pd_rows := pd_rows d; pd_devices := l; pd_sessions := pd_sessions d; pd_members := pd_members d |}.

Section push.
(** [env.ADMIN_SESSION_IDLE_HOURS]. *)
Context (idle : Q).

(** [pd_members] holds the (admin, store) pairs. The idle limit compares milliseconds. *)
Definition session_fresh (now : Z) (ss : AdminSession) : bool :=
  let seen := match ss_lastSeen ss with Some t => t | None => ss_created ss end in
  Qle_bool idle 0 || negb (Qle_bool (inject_Z seen) (inject_Z now - idle * inject_Z 3600000)).
Definition liveRegistration (now : Z) (d : Pushes) (v : Device) : bool :=
  match dv_session v with
  | None => false
  | Some sid =>
      existsb (fun ss => String.eqb (ss_id ss) sid && bool_decide (ss_admin ss = Some (dv_admin v)) && (now <? ss_expires ss) &&
        existsb (fun m => String.eqb (fst m) (dv_admin v) && String.eqb (snd m) (dv_store v)) (pd_members d) && session_fresh now ss) (pd_sessions d)
  end.
Definition registrationStillLive (now : Z) (store token : string) (d : Pushes) : bool :=
  existsb (fun v => String.eqb (dv_store v) store && String.eqb (dv_token v) token && liveRegistration now d v) (pd_devices d).

(** [kind] is ['apns'] or ['live_activity'], absent for the first. *)
Definition enqueuePush (now : Z) (ids : list string) (store topic : string) (payload : json) (kind : option string) (d : Pushes) : result string (Z * Pushes) :=
  let! _ := assertNotReservedTopic ("push topic " +:+ topic) topic false in
  let! _ := assertNotReserved ("push topic " +:+ topic) payload false in
  let k := match kind with Some k => k | None => "apns" end in
  let devices := List.filter (fun v => String.eqb (dv_store v) store && String.eqb (dv_kind v) k && liveRegistration now d v) (pd_devices d) in
  let matched := List.filter (fun v => includes "*" (dv_topics v) || includes topic (dv_topics v)) devices in
  match matched with
  | [] => Ok (0, d)
  | _ =>
      let body v := {| pu_topic := if String.eqb k "live_activity" then topic +:+ "#live" else topic; pu_deviceToken := dv_token v;
                       pu_environment := dv_environment v; pu_payload := payload |} in
      Ok (Z.of_nat (length matched), with_pushes (insert_rows store now ids (map body matched) (pd_rows d)) d)
  end.
Definition enqueueCanaryPush (now : Z) (id store token environment : string) (payload : json) (d : Pushes) : string * Pushes :=
  (id, with_pushes (<[id := new_row store {| pu_topic := CANARY_TOPIC; pu_deviceToken := token; pu_environment := environment; pu_payload := with_marker payload |} now]> (pd_rows d)) d).

Definition push_due (store : string) (now : Z) (r : Queued PushBody) : bool :=
  String.eqb (q_store r) store &&
  (bool_decide (q_status r = Pending) && (q_nextAttemptAt r <=? now) ||
   bool_decide (q_status r = Processing) && (q_updatedAt r <? now - 600000)).
Definition claimDuePushes (store : string) (scan : list string) (limit : Z) (now : Z) (d : Pushes) : Pushes * list (Claim PushBody) :=
  let picked := select_due (push_due store now) next_later scan (Z.to_nat limit) (pd_rows d) in
  (with_pushes (mark_claimed now picked (pd_rows d)) d, map claim_of picked).

Inductive PushOutcome := PushSent | PushUnregistered (error : string) | PushCancelled (error : string) | PushFailed (error : string).
(** The result and the number of device rows removed. *)
Definition finalizePush (now db_now : Z) (c : Claim PushBody) (o : PushOutcome) (d : Pushes) : Pushes * (Verdict * Z) :=
  let ended err r := failed_row Dead now db_now (q_nextAttemptAt r) err r in
  match o with
  | PushSent =>
      let '(found, t) := fenced_update c (finished_row now None) (pd_rows d) in (with_pushes t d, (if found : bool then VDone else VStale, 0))
  | PushCancelled err =>
      let '(found, t) := fenced_update c (ended err) (pd_rows d) in (with_pushes t d, (if found : bool then VDead else VStale, 0))
  | PushUnregistered err =>
      let '(found, t) := fenced_update c (ended err) (pd_rows d) in
      if negb found then (with_pushes t d, (VStale, 0))
      else
        let gone v := String.eqb (dv_store v) (c_store c) && String.eqb (dv_token v) (pu_deviceToken (c_body c)) in
        (with_devices (List.filter (fun v => negb (gone v)) (pd_devices d)) (with_pushes t d),
         (VDead, Z.of_nat (length (List.filter gone (pd_devices d)))))
  | PushFailed err =>
      let giveUp := PUSH_MAX_ATTEMPTS <=? c_attempts c in
      let next := now + backoff_of PUSH_BACKOFF_S (c_attempts c) * 1000 in
      let '(found, t) := fenced_update c (failed_row (if giveUp then Dead else Pending) now db_now next err) (pd_rows d) in
      (with_pushes t d, (if negb found then VStale else if giveUp then VDead else VRetry, 0))
  end.

(** * A pass *)
(** What [sendApns] returns or throws. *)
Inductive ApnsAnswer := ApnsOk | ApnsGone (status : Z) (reason : option string) | ApnsError (status : Z) (reason : option string) | ApnsThrew (message : string).
Definition apns_reason (reason : option string) : string := match reason with Some r => r | None => EmptyString end.
Definition apns_outcome (a : ApnsAnswer) : PushOutcome :=
  match a with
  | ApnsOk => PushSent
  | ApnsGone status reason => PushUnregistered (trim ("unregistered (" +:+ pretty status +:+ " " +:+ apns_reason reason +:+ ")"))
  | ApnsError status reason => PushFailed (trim ("apns " +:+ pretty status +:+ " " +:+ apns_reason reason))
  | ApnsThrew m => PushFailed m
  end.
Record PushCounts := { pc_sent : Z; pc_failed : Z; pc_pruned : Z }.
Definition tally (v : Verdict) (pruned : Z) (k : PushCounts) : PushCounts :=
  {| pc_sent := if decide (v = VDone) then pc_sent k + 1 else pc_sent k;
     pc_failed := if decide (v = VRetry \/ v = VDead) then pc_failed k + 1 else pc_failed k; pc_pruned := pc_pruned k + pruned |}.
(** A registration that ended after the enqueue cancels the push before anything is sent; canary pushes skip the check. *)
Definition push_outcome (sendApns : Claim PushBody -> ApnsAnswer) (now : Z) (store : string) (c : Claim PushBody) (d : Pushes) : PushOutcome :=
  if negb (String.eqb (pu_topic (c_body c)) CANARY_TOPIC) && negb (registrationStillLive now store (pu_deviceToken (c_body c)) d)
  then PushCancelled "device registration or its session ended" else apns_outcome (sendApns c).
Section pass.
Context (sendApns : Claim PushBody -> ApnsAnswer) (now : Z).
Definition push_one (store : string) (acc : Pushes * PushCounts) (c : Claim PushBody) : Pushes * PushCounts :=
  let '(d', (v, pruned)) := finalizePush now now c (push_outcome sendApns now store c (fst acc)) (fst acc) in (d', tally v pruned (snd acc)).
Fixpoint push_stores (limit : Z) (stores : list (string * list string)) (acc : Pushes * PushCounts) : Pushes * PushCounts :=
  match stores with
  | [] => acc
  | (store, scan) :: r =>
      let '(d', due) := claimDuePushes store scan limit now (fst acc) in push_stores limit r (fold_left (push_one store) due (d', snd acc))
  end.
Definition deliverPushes (configured : bool) (limit : option Q) (stores : list (string * list string)) (d : Pushes) : Pushes * PushCounts :=
  let none := {| pc_sent := 0; pc_failed := 0; pc_pruned := 0 |} in
  if configured then push_stores (normalizePushBatchLimit limit) stores (d, none) else (d, none).
End pass.
End push.

(** * The interface *)
Inductive push_action :=
| PushEnqueue (idle : Q) (now : Z) (ids : list string) (store topic : string) (payload : json) (kind : option string)
| PushCanary (now : Z) (id store token environment : string) (payload : json)
| PushAdmins (devices : list Device) (sessions : list AdminSession) (members : list (string * string)).   (* logins, logouts, registrations *)
Definition push_other (x : push_action) (d : Pushes) : Pushes :=
  match x with
  | PushEnqueue idle now ids store topic payload kind => match enqueuePush idle now ids store topic payload kind d with Ok (_, d') => d' | Err _ => d end
  | PushCanary now id store token environment payload => snd (enqueueCanaryPush now id store token environment payload d)
  | PushAdmins devices sessions members => {| pd_rows := pd_rows d; pd_devices := devices; pd_sessions := sessions; pd_members := members |}
  end.
Definition push_ids (x : push_action) : list string :=
  match x with PushEnqueue _ _ ids _ _ _ _ => ids | PushCanary _ id _ _ _ _ => [id] | PushAdmins _ _ _ => [] end.
#[export] Instance push_outbox : Outbox Pushes PushBody (string * Z * Z) PushOutcome (Z * Z) push_action := {
  ob_table := pd_rows;
  ob_claim := fun k scan d => claimDuePushes (fst (fst k)) scan (snd (fst k)) (snd k) d;
  ob_settle := fun a c o d => let '(d', (v, _)) := finalizePush (fst a) (snd a) c o d in (d', v);
  ob_other := push_other;
  ob_ids := push_ids
}.

(** A settlement writes the row only under its claim, and removes devices only for an unregistered token of its store. *)
Lemma finalizePush_spec now db_now c o d d' v n : finalizePush now db_now c o d = (d', (v, n)) ->
  match pd_rows d !! c_id c with
  | Some r =>
      if current_claim c r
      then v <> VStale /\ (v = VDone <-> o = PushSent) /\
           (exists r', pd_rows d' = <[c_id c := r']> (pd_rows d) /\ q_attempts r' = q_attempts r /\ q_status r' = verdict_status v) /\
           pd_devices d' = (match o with PushUnregistered _ => List.filter (fun v => negb (String.eqb (dv_store v) (c_store c) && String.eqb (dv_token v) (pu_deviceToken (c_body c)))) (pd_devices d)
                            | _ => pd_devices d end)
      else v = VStale /\ pd_rows d' = pd_rows d /\ pd_devices d' = pd_devices d
  | None => v = VStale /\ pd_rows d' = pd_rows d /\ pd_devices d' = pd_devices d
  end.
Proof.
  unfold finalizePush, fenced_update. destruct (pd_rows d !! c_id c) as [r|] eqn:Er; [destruct (current_claim c r)|]; destruct o as [|e|e|e]; cbn;
    try (intros [= <- <- <-]; done); try (intros [= <- <- <-]; split; [done|]; split; [done|]; split; [by eexists|done]).
  destruct (PUSH_MAX_ATTEMPTS <=? c_attempts c); intros [= <- <- <-]; split; try done; split; try done; (split; [by eexists|done]).
Qed.
#[export] Instance push_laws : OutboxLaws Pushes PushBody (string * Z * Z) PushOutcome (Z * Z) push_action.
Proof.
  constructor.
  - intros [[store limit] now] scan d d' cs Hs. cbn. unfold claimDuePushes. intros [= <- <-]. cbn. apply claim_statement; [done|].
    intros r. unfold push_due. rewrite andb_true_iff, orb_true_iff, !andb_true_iff, !bool_decide_eq_true. unfold open_row. tauto.
  - intros [now db_now] c o d d' v. cbn. destruct (finalizePush now db_now c o d) as [e [u n]] eqn:E. intros [= <- <-].
    apply finalizePush_spec in E. destruct (pd_rows d !! c_id c) as [r|]; [|tauto]. destruct (current_claim c r); [|tauto]. tauto.
  - intros x d seen id Hi Ht. destruct x as [idle now ids store topic payload kind|now i store token environment payload|devices sessions members]; cbn in *.
    + unfold enqueuePush, bind_result. repeat (case_match; simplify_eq); cbn; try constructor; by apply inserted_change.
    + apply (inserted_change seen store now [i] [_]); done.
    + constructor.
Qed.

(** Along any run of the push outbox, each attempt goes out and settles at most once, and a push ends at most once. *)
Lemma push_delivery_accounted devices sessions members (w : QRun Pushes PushBody PushOutcome)
    (R : rtc qstep (initial_run {| pd_rows := ∅; pd_devices := devices; pd_sessions := sessions; pd_members := members |}) w) : accounted w.
Proof. by refine (run_accounted _ w _ R). Qed.

(** A push is sent only while some registration of its device is live, unless it is a canary. *)
Lemma push_sent_live idle sendApns now store c d : push_outcome idle sendApns now store c d = PushSent ->
  pu_topic (c_body c) = CANARY_TOPIC \/ registrationStillLive idle now store (pu_deviceToken (c_body c)) d = true.
Proof.
  unfold push_outcome. destruct (String.eqb_spec (pu_topic (c_body c)) CANARY_TOPIC) as [->|]; [by left|]. cbn.
  destruct (registrationStillLive _ _ _ _ _); [by right|done].
Qed.
