(* ===== verification/Admission.v ===== *)
(** Admission and timing of background passes: [jobs/admission.ts] (the two-lane semaphore behind every pass) and the
    slot arithmetic of [jobs/scheduler.ts]. *)
From Stdlib Require Import ZArith List Bool String Ascii Lia.
From stdpp Require Import base list strings relations.
From S2P Require Import Prelude.
Local Open Scope string_scope.
Local Open Scope list_scope.
Local Open Scope Z_scope.

(** * [Semaphore] *)
(** Waiters in order of arrival; [W] is what a waiter is. *)
Record Semaphore (W : Type) := { s_free : Z; s_waiters : list W }.
Arguments s_free {W} _. Arguments s_waiters {W} _.
Section semaphore.
Context {W : Type}.
Definition new_semaphore (size : Z) : Semaphore W := {| s_free := Z.max 1 size; s_waiters := [] |}.
(** Whether the slot is taken at once. *)
Definition acquire (w : W) (s : Semaphore W) : bool * Semaphore W :=
  if 0 <? s_free s then (true, {| s_free := s_free s - 1; s_waiters := s_waiters s |})
  else (false, {| s_free := s_free s; s_waiters := s_waiters s ++ [w] |}).
(** The waiter that gets the slot, if any. *)
Definition release (s : Semaphore W) : option W * Semaphore W :=
  match s_waiters s with
  | w :: r => (Some w, {| s_free := s_free s; s_waiters := r |})
  | [] => (None, {| s_free := s_free s + 1; s_waiters := [] |})
  end.
Definition rejectWaiting (s : Semaphore W) : list W * Semaphore W := (s_waiters s, {| s_free := s_free s; s_waiters := [] |}).
End semaphore.

(** * [createAdmission] *)
Definition CRITICAL_JOBS : list string := ["pending-effects"; "gateway-events"; "emails"; "webhooks"].
Inductive Lane := General | Critical.
#[export] Instance Lane_eq_dec : EqDecision Lane.
Proof. solve_decision. Defined.
Definition lane_of (label : string) : Lane := if existsb (String.eqb label) CRITICAL_JOBS then Critical else General.

(** A pass between its arrival and its slot's return: given a slot but not resumed yet, or running, past its deadline
    or not. *)
Inductive Phase := Granted | Running (late : bool).
Record Pass := { p_id : nat; p_label : string; p_phase : Phase }.
Definition p_lane (p : Pass) : Lane := lane_of (p_label p).
Record Admission := {
  a_general : Semaphore (nat * string); a_critical : Semaphore (nat * string);
  a_slots : list Pass;                    (* the passes that hold a slot *)
  a_active : Z; a_overdue : Z; a_stopped : bool;
  a_refused : list nat                    (* passes that ended in AdmissionStoppedError *)
}.
(** [criticalConcurrency] defaults to 2. *)
Definition createAdmission (concurrency : Z) (criticalConcurrency : option Z) : Admission :=
  {| a_general := new_semaphore concurrency; a_critical := new_semaphore (match criticalConcurrency with Some c => c | None => 2 end);
     a_slots := []; a_active := 0; a_overdue := 0; a_stopped := false; a_refused := [] |}.

Definition sem (l : Lane) (a : Admission) : Semaphore (nat * string) := match l with General => a_general a | Critical => a_critical a end.
Definition set_sem (l : Lane) (s : Semaphore (nat * string)) (a : Admission) : Admission :=
  {| a_general := match l with General => s | Critical => a_general a end; a_critical := match l with Critical => s | General => a_critical a end;
     a_slots := a_slots a; a_active := a_active a; a_overdue := a_overdue a; a_stopped := a_stopped a; a_refused := a_refused a |}.
Definition set_slots (l : list Pass) (a : Admission) : Admission :=
  {| a_general := a_general a; a_critical := a_critical a; a_slots := l; a_active := a_active a; a_overdue := a_overdue a;
     a_stopped := a_stopped a; a_refused := a_refused a |}.
Definition set_counts (active overdue : Z) (a : Admission) : Admission :=
  {| a_general := a_general a; a_critical := a_critical a; a_slots := a_slots a; a_active := active; a_overdue := overdue;
     a_stopped := a_stopped a; a_refused := a_refused a |}.
Definition refuse (ids : list nat) (a : Admission) : Admission :=
  {| a_general := a_general a; a_critical := a_critical a; a_slots := a_slots a; a_active := a_active a; a_overdue := a_overdue a;
     a_stopped := a_stopped a; a_refused := a_refused a ++ ids |}.
Definition set_stopped (a : Admission) : Admission :=
  {| a_general := a_general a; a_critical := a_critical a; a_slots := a_slots a; a_active := a_active a; a_overdue := a_overdue a;
     a_stopped := true; a_refused := a_refused a |}.
Definition granted (w : nat * string) : Pass := {| p_id := fst w; p_label := snd w; p_phase := Granted |}.

(** [runAdmitted] up to its first suspension. *)
Definition arrive (id : nat) (label : string) (a : Admission) : Admission :=
  if a_stopped a then refuse [id] a
  else
    let '(now, s) := acquire (id, label) (sem (lane_of label) a) in
    let a' := set_sem (lane_of label) s a in
    if now : bool then set_slots (a_slots a' ++ [granted (id, label)]) a' else a'.
(** [release()] of the pass at the head of [r], after [l]: its slot goes to the next waiter of its lane. *)
Definition give_back (l : list Pass) (p : Pass) (r : list Pass) (a : Admission) : Admission :=
  let '(next, s) := release (sem (p_lane p) a) in
  set_slots (l ++ r ++ match next with Some w => [granted w] | None => [] end) (set_sem (p_lane p) s a).
(** The continuation after [acquire()]: refused when stop() ran meanwhile, else the pass starts. *)
Definition resume (l : list Pass) (p : Pass) (r : list Pass) (a : Admission) : option Admission :=
  match p_phase p with
  | Granted =>
      if a_stopped a then Some (refuse [p_id p] (give_back l p r a))
      else Some (set_counts (a_active a + 1) (a_overdue a) (set_slots (l ++ {| p_id := p_id p; p_label := p_label p; p_phase := Running false |} :: r) a))
  | Running _ => None
  end.
(** The deadline timer of a running pass: the first time makes it overdue, later ones only alarm again. *)
Definition alarm (l : list Pass) (p : Pass) (r : list Pass) (a : Admission) : option Admission :=
  match p_phase p with
  | Running late =>
      Some (set_counts (a_active a) (if late then a_overdue a else a_overdue a + 1)
             (set_slots (l ++ {| p_id := p_id p; p_label := p_label p; p_phase := Running true |} :: r) a))
  | Granted => None
  end.
(** The [finally] of a pass that settled. *)
Definition settle (l : list Pass) (p : Pass) (r : list Pass) (a : Admission) : option Admission :=
  match p_phase p with
  | Running late => Some (give_back l p r (set_counts (a_active a - 1) (if late then a_overdue a - 1 else a_overdue a) a))
  | Granted => None
  end.
Definition stop (a : Admission) : Admission :=
  let '(g, sg) := rejectWaiting (a_general a) in
  let '(c, sc) := rejectWaiting (a_critical a) in
  refuse (map fst g ++ map fst c) (set_sem Critical sc (set_sem General sg (set_stopped a))).

Inductive adm_step : Admission -> Admission -> Prop :=
| adm_arrive id label a : adm_step a (arrive id label a)
| adm_resume l p r a a' : a_slots a = l ++ p :: r -> resume l p r a = Some a' -> adm_step a a'
| adm_alarm l p r a a' : a_slots a = l ++ p :: r -> alarm l p r a = Some a' -> adm_step a a'
| adm_settle l p r a a' : a_slots a = l ++ p :: r -> settle l p r a = Some a' -> adm_step a a'
| adm_stop a : adm_step a (stop a).

(** * Counting *)
Definition in_lane (l : Lane) (ps : list Pass) : Z := Z.of_nat (length (List.filter (fun p => bool_decide (p_lane p = l)) ps)).
Definition running (ps : list Pass) : Z := Z.of_nat (length (List.filter (fun p => match p_phase p with Running _ => true | Granted => false end) ps)).
Definition late_ones (ps : list Pass) : Z := Z.of_nat (length (List.filter (fun p => match p_phase p with Running late => late | Granted => false end) ps)).

Definition lane_ok (l : Lane) (size : Z) (a : Admission) : Prop :=
  0 <= s_free (sem l a) /\ s_free (sem l a) + in_lane l (a_slots a) = Z.max 1 size /\ (s_waiters (sem l a) <> [] -> s_free (sem l a) = 0) /\
  Forall (fun w => lane_of (snd w) = l) (s_waiters (sem l a)).
Record admission_ok (g c : Z) (a : Admission) : Prop := {
  ao_general : lane_ok General g a;
  ao_critical : lane_ok Critical c a;
  ao_active : a_active a = running (a_slots a);
  ao_overdue : a_overdue a = late_ones (a_slots a);
  ao_stopped : a_stopped a = true -> s_waiters (a_general a) = [] /\ s_waiters (a_critical a) = []
}.

Lemma filter_count_app {A} (f : A -> bool) l r : Z.of_nat (length (List.filter f (l ++ r))) = Z.of_nat (length (List.filter f l)) + Z.of_nat (length (List.filter f r)).
Proof. by rewrite List.filter_app, length_app, Nat2Z.inj_add. Qed.
Lemma filter_count_cons {A} (f : A -> bool) x r : Z.of_nat (length (List.filter f (x :: r))) = (if f x then 1 else 0) + Z.of_nat (length (List.filter f r)).
Proof. cbn. destruct (f x); cbn [length]; lia. Qed.
Lemma count_pos {A} (f : A -> bool) l : 0 <= Z.of_nat (length (List.filter f l)).
Proof. lia. Qed.
Definition phase_counts (p : Pass) : Z * Z := match p_phase p with Granted => (0, 0) | Running late => (1, if late then 1 else 0) end.
Lemma counts_middle l p r :
  running (l ++ p :: r) = running (l ++ r) + fst (phase_counts p) /\ late_ones (l ++ p :: r) = late_ones (l ++ r) + snd (phase_counts p) /\
  forall x, in_lane x (l ++ p :: r) = in_lane x (l ++ r) + (if decide (p_lane p = x) then 1 else 0).
Proof.
  unfold running, late_ones, in_lane, phase_counts. rewrite !filter_count_app, !filter_count_cons. split; [destruct (p_phase p); cbn; lia|].
  split; [destruct (p_phase p) as [|[]]; cbn; lia|]. intros x. rewrite !filter_count_app, !filter_count_cons.
  destruct (decide (p_lane p = x)); [rewrite bool_decide_true by done|rewrite bool_decide_false by done]; lia.
Qed.

Lemma sem_set l m s a : sem l (set_sem m s a) = if decide (l = m) then s else sem l a.
Proof. by destruct l, m. Qed.
Lemma lane_size_other (g c : Z) (l m : Lane) : l <> m -> forall s a, sem l (set_sem m s a) = sem l a.
Proof. by destruct l, m. Qed.

(** What [give_back] leaves: the lane's semaphore after [release], the waiter that got the slot. *)
Definition next_of (l : Lane) (a : Admission) : list Pass := match s_waiters (sem l a) with w :: _ => [granted w] | [] => [] end.
Lemma give_back_parts l p r a :
  a_slots (give_back l p r a) = l ++ r ++ next_of (p_lane p) a /\ a_active (give_back l p r a) = a_active a /\
  a_overdue (give_back l p r a) = a_overdue a /\ a_stopped (give_back l p r a) = a_stopped a /\
  forall x, sem x (give_back l p r a) = if decide (x = p_lane p) then snd (release (sem (p_lane p) a)) else sem x a.
Proof.
  unfold give_back, next_of, release. destruct (s_waiters (sem (p_lane p) a)); cbn; repeat (split; [done|]); intros x; by destruct x, (p_lane p).
Qed.
Lemma granted_lane l a : Forall (fun w => lane_of (snd w) = l) (s_waiters (sem l a)) -> Forall (fun p => p_lane p = l /\ p_phase p = Granted) (next_of l a).
Proof. unfold next_of. destruct (s_waiters (sem l a)); intros H; inversion H; subst; by repeat constructor. Qed.

(** A slot that leaves the list goes to the next waiter of the same lane, or is free again. *)
Lemma give_back_lane x size l p r a : in_lane x (l ++ p :: r) = in_lane x (a_slots a) -> lane_ok x size a ->
  Forall (fun w => lane_of (snd w) = p_lane p) (s_waiters (sem (p_lane p) a)) -> lane_ok x size (give_back l p r a).
Proof.
  intros E (Hf & Hn & Hw & Hq) Hp. destruct (give_back_parts l p r a) as (Es & _ & _ & _ & Em). destruct (counts_middle l p r) as (_ & _ & Cl).
  specialize (Cl x). unfold lane_ok. rewrite Em, Es. unfold in_lane in *. rewrite (app_assoc l r), (filter_count_app _ (l ++ r)).
  destruct (decide (x = p_lane p)) as [->|N].
  - rewrite decide_True in Cl by done. unfold next_of, release. destruct (s_waiters (sem (p_lane p) a)) as [|w ws] eqn:Ew; cbn [snd s_free s_waiters].
    + cbn [List.filter length]. split; [lia|]. split; [lia|]. split; [done|constructor].
    + specialize (Hw ltac:(done)). inversion Hq as [|? ? Hlw Hws]; subst. rewrite filter_count_cons. change (p_lane (granted w)) with (lane_of (snd w)).
      rewrite bool_decide_true by done. cbn [List.filter length]. split; [lia|]. split; [lia|]. done.
  - rewrite decide_False in Cl by congruence. apply granted_lane in Hp. unfold next_of in *. destruct (s_waiters (sem (p_lane p) a)) as [|w ws].
    + cbn [List.filter length]. split; [lia|]. split; [lia|]. done.
    + inversion Hp as [|? ? [Hl _] _]; subst. rewrite filter_count_cons, bool_decide_false by congruence. cbn [List.filter length].
      split; [lia|]. split; [lia|]. done.
Qed.
Lemma next_counts x y a : running (x ++ y ++ next_of General a) = running (x ++ y) /\ running (x ++ y ++ next_of Critical a) = running (x ++ y) /\
  late_ones (x ++ y ++ next_of General a) = late_ones (x ++ y) /\ late_ones (x ++ y ++ next_of Critical a) = late_ones (x ++ y).
Proof.
  unfold running, late_ones, next_of. rewrite !(app_assoc x y), !(filter_count_app _ (x ++ y)).
  destruct (s_waiters (sem General a)), (s_waiters (sem Critical a)); cbn; lia.
Qed.
Lemma give_back_ok g c l p r a : lane_ok General g a -> lane_ok Critical c a -> a_slots a = l ++ p :: r ->
  a_active a = running (l ++ r) -> a_overdue a = late_ones (l ++ r) ->
  (a_stopped a = true -> s_waiters (a_general a) = [] /\ s_waiters (a_critical a) = []) -> admission_ok g c (give_back l p r a).
Proof.
  intros Hg Hc E Ha Ho Hs. assert (F : Forall (fun w => lane_of (snd w) = p_lane p) (s_waiters (sem (p_lane p) a))) by (destruct (p_lane p); [apply Hg|apply Hc]).
  destruct (give_back_parts l p r a) as (Es & Ea & Eo & Est & Em). destruct (next_counts l r a) as (N1 & N2 & N3 & N4). constructor.
  - apply give_back_lane; [by rewrite E|done|done].
  - apply give_back_lane; [by rewrite E|done|done].
  - rewrite Es, Ea, Ha. by destruct (p_lane p).
  - rewrite Es, Eo, Ho. by destruct (p_lane p).
  - rewrite Est. intros St. destruct (Hs St) as [W1 W2]. pose proof (Em General) as M1. pose proof (Em Critical) as M2. cbn in M1, M2. rewrite M1, M2.
    unfold release. destruct (p_lane p); cbn; rewrite ?W1, ?W2; done.
Qed.
(** A pass that changes its phase in place. *)
Lemma phase_ok g c l p q r a act od : admission_ok g c a -> a_slots a = l ++ p :: r -> p_lane q = p_lane p ->
  act = running (l ++ q :: r) -> od = late_ones (l ++ q :: r) -> admission_ok g c (set_counts act od (set_slots (l ++ q :: r) a)).
Proof.
  intros [Hg Hc Ha Ho Hs] E El -> ->. assert (L : forall x, in_lane x (l ++ q :: r) = in_lane x (a_slots a)).
  { intros x. destruct (counts_middle l p r) as (_ & _ & C1), (counts_middle l q r) as (_ & _ & C2). by rewrite E, C1, C2, El. }
  constructor; [| |done|done|done].
  - destruct Hg as (? & ? & ? & ?). unfold lane_ok. cbn. by rewrite L.
  - destruct Hc as (? & ? & ? & ?). unfold lane_ok. cbn. by rewrite L.
Qed.

Lemma arrive_ok g c id label a : admission_ok g c a -> admission_ok g c (arrive id label a).
Proof.
  intros [Hg Hc Ha Ho Hs]. unfold arrive. destruct (a_stopped a) eqn:St; [constructor; cbn; rewrite ?St; try done; destruct Hg as (? & ? & ? & ?), Hc as (? & ? & ? & ?); by repeat split|].
  unfold acquire. destruct (0 <? s_free (sem (lane_of label) a)) eqn:Ef; bool_props.
  - set (p := granted (id, label)). assert (C : forall x, in_lane x (a_slots a ++ [p]) = in_lane x (a_slots a) + (if decide (p_lane p = x) then 1 else 0)).
    { intros x. destruct (counts_middle (a_slots a) p []) as (_ & _ & C). rewrite C, app_nil_r. done. }
    destruct (counts_middle (a_slots a) p []) as (R & L & _). rewrite app_nil_r in R, L. cbn in R, L.
    assert (K : forall x size, lane_ok x size a -> lane_ok x size (set_slots (a_slots a ++ [p]) (set_sem (lane_of label) {| s_free := s_free (sem (lane_of label) a) - 1; s_waiters := s_waiters (sem (lane_of label) a) |} a))).
    { intros x size (H1 & H2 & H3 & H4). unfold lane_ok. cbn [a_slots set_slots]. rewrite C. change (p_lane p) with (lane_of label).
      destruct (decide (lane_of label = x)) as [<-|N].
      - replace (sem (lane_of label) (set_slots _ _)) with {| s_free := s_free (sem (lane_of label) a) - 1; s_waiters := s_waiters (sem (lane_of label) a) |} by (by destruct (lane_of label)).
        cbn. split; [lia|]. split; [lia|]. split; [|done]. intros W. specialize (H3 W). lia.
      - replace (sem x (set_slots _ _)) with (sem x a) by (by destruct x, (lane_of label)). split; [lia|]. split; [lia|]. done. }
    constructor; [by apply K|by apply K| | |]; cbn.
    + rewrite Ha. lia.
    + rewrite Ho. lia.
    + by rewrite St.
  - assert (K : forall x size, lane_ok x size a -> lane_ok x size (set_sem (lane_of label) {| s_free := s_free (sem (lane_of label) a); s_waiters := s_waiters (sem (lane_of label) a) ++ [(id, label)] |} a)).
    { intros x size (H1 & H2 & H3 & H4). unfold lane_ok. cbn [a_slots set_sem]. rewrite sem_set.
      destruct (decide (x = lane_of label)) as [->|N]; [|done]. cbn. split; [done|]. split; [done|]. split; [intros _; lia|].
      apply Forall_app. split; [done|]. by constructor. }
    constructor; [by apply K|by apply K|done|done|]. cbn. by rewrite St.
Qed.
Lemma stop_ok g c a : admission_ok g c a -> admission_ok g c (stop a).
Proof. intros [(? & ? & ? & ?) (? & ? & ? & ?) Ha Ho Hs]. constructor; cbn; try done; repeat split; try done; constructor. Qed.

Lemma adm_step_ok g c a a' : adm_step a a' -> admission_ok g c a -> admission_ok g c a'.
Proof.
  intros [id label b|l p r b b' E H|l p r b b' E H|l p r b b' E H|b] O.
  - by apply arrive_ok.
  - unfold resume in H. destruct (p_phase p) eqn:Ep; [|done]. destruct (counts_middle l p r) as (R & L & _). unfold phase_counts in R, L. rewrite Ep in R, L. cbn in R, L.
    pose proof O as [Hg Hc Ha Ho Hs]. rewrite <- E in R, L. destruct (a_stopped b) eqn:St; injection H as <-.
    + destruct (give_back_ok g c l p r b Hg Hc E ltac:(lia) ltac:(lia) ltac:(rewrite St; exact Hs)) as [Hg' Hc' Ha' Ho' Hs'].
      constructor; [exact Hg'|exact Hc'|exact Ha'|exact Ho'|exact Hs'].
    + apply (phase_ok g c l p); [done|done|done| |].
      * destruct (counts_middle l {| p_id := p_id p; p_label := p_label p; p_phase := Running false |} r) as (R' & _). cbn in R'. lia.
      * destruct (counts_middle l {| p_id := p_id p; p_label := p_label p; p_phase := Running false |} r) as (_ & L' & _). cbn in L'. lia.
  - unfold alarm in H. destruct (p_phase p) as [|late] eqn:Ep; [done|]. injection H as <-. pose proof O as [Hg Hc Ha Ho Hs].
    destruct (counts_middle l p r) as (R & L & _). unfold phase_counts in R, L. rewrite Ep in R, L. rewrite <- E in R, L.
    destruct (counts_middle l {| p_id := p_id p; p_label := p_label p; p_phase := Running true |} r) as (R' & L' & _). cbn in R, L, R', L'.
    apply (phase_ok g c l p); [done|done|done|lia|destruct late; lia].
  - unfold settle in H. destruct (p_phase p) as [|late] eqn:Ep; [done|]. injection H as <-. pose proof O as [Hg Hc Ha Ho Hs].
    destruct (counts_middle l p r) as (R & L & _). unfold phase_counts in R, L. rewrite Ep in R, L. rewrite <- E in R, L. cbn in R, L.
    apply give_back_ok; [done|done|done|cbn; lia|cbn; destruct late; lia|done].
  - by apply stop_ok.
Qed.
Lemma create_ok g c : admission_ok g (match c with Some k => k | None => 2 end) (createAdmission g c).
Proof.
  constructor; try done; unfold lane_ok, in_lane; cbn [createAdmission a_general a_critical a_slots sem new_semaphore s_free s_waiters List.filter length Z.of_nat].
  all: split; [destruct c; lia|]; split; [destruct c; lia|]; split; [done|constructor].
Qed.

Lemma count_le {A} (f : A -> bool) l : Z.of_nat (length (List.filter f l)) <= Z.of_nat (length l).
Proof. induction l as [|x l IH]; cbn; [lia|]. destruct (f x); cbn [length]; lia. Qed.
Lemma lanes_total ps : in_lane General ps + in_lane Critical ps = Z.of_nat (length ps).
Proof. unfold in_lane. induction ps as [|p l IH]; [done|]. rewrite !filter_count_cons. cbn [length]. destruct (p_lane p).
  - rewrite (bool_decide_true (General = General)), (bool_decide_false (General = Critical)) by done. lia.
  - rewrite (bool_decide_true (Critical = Critical)), (bool_decide_false (Critical = General)) by done. lia. Qed.

(** C28: Admission of background passes, in every reachable state. Each lane never has more passes in its slots than its
    size, and the numbers that readiness reports are true: the active count is the passes that run, the overdue count
    those past their deadline, and together they stay within the two caps. No slot is lost: a pass waits only while
    every slot of its own lane is held by a pass of that lane, so a money or delivery pass never waits for other work. *)
Theorem admission_bounded concurrency criticalConcurrency a (R : rtc adm_step (createAdmission concurrency criticalConcurrency) a) :
  let size l := Z.max 1 (match l with General => concurrency | Critical => match criticalConcurrency with Some c => c | None => 2 end end) in
  (forall l, 0 <= in_lane l (a_slots a) <= size l /\ s_free (sem l a) = size l - in_lane l (a_slots a)) /\
  a_active a = running (a_slots a) /\ a_overdue a = late_ones (a_slots a) /\
  0 <= a_overdue a <= a_active a /\ a_active a <= size General + size Critical /\
  (forall l w, w ∈ s_waiters (sem l a) -> lane_of (snd w) = l /\ in_lane l (a_slots a) = size l).
Proof.
  intros size. set (c := match criticalConcurrency with Some c => c | None => 2 end) in *.
  assert (O : admission_ok concurrency c a).
  { pose proof (create_ok concurrency criticalConcurrency) as O. fold c in O. induction R as [|x y z S _ IH]; [done|]. by apply IH, (adm_step_ok _ _ x). }
  destruct O as [Hg Hc Ha Ho _]. assert (L : forall l, lane_ok l (match l with General => concurrency | Critical => c end) a) by (by intros []).
  assert (B : forall l, 0 <= in_lane l (a_slots a) <= size l /\ s_free (sem l a) = size l - in_lane l (a_slots a)).
  { intros l. destruct (L l) as (Hf & Hn & _). pose proof (count_pos (fun p => bool_decide (p_lane p = l)) (a_slots a)). unfold in_lane, size in *. destruct l; lia. }
  split; [done|]. split; [done|]. split; [done|]. split; [|split].
  - rewrite Ho, Ha. unfold late_ones, running. split; [lia|]. clear. induction (a_slots a) as [|p l IH]; [done|]. rewrite !filter_count_cons. destruct (p_phase p) as [|[]]; lia.
  - rewrite Ha. pose proof (proj1 (B General)). pose proof (proj1 (B Critical)). pose proof (lanes_total (a_slots a)).
    pose proof (count_le (fun p => match p_phase p with Running _ => true | Granted => false end) (a_slots a)). unfold running. lia.
  - intros l w Hw. destruct (L l) as (Hf & Hn & Hz & Hq). rewrite Forall_forall in Hq. split; [by apply Hq|].
    assert (s_waiters (sem l a) <> []) as W by (intros W; rewrite W in Hw; by apply elem_of_nil in Hw). specialize (Hz W).
    destruct (B l) as [_ E]. lia.
Qed.

(** Two slow passes fill the general lane and a third waits; an e-mail pass starts at once, and the third pass takes
    the slot of the first one that ends. *)
Definition busy : Admission := arrive 4 "emails" (arrive 3 "push" (arrive 2 "listmonk-sync" (arrive 1 "catalog-manifest" (createAdmission 2 None)))).
Lemma busy_reached : rtc adm_step (createAdmission 2 None) busy.
Proof. do 4 (eapply rtc_l; [apply adm_arrive|]). apply rtc_refl. Qed.
Lemma admission_bounded_witness : s_waiters (a_general busy) = [(3%nat, "push")] /\ in_lane General (a_slots busy) = 2 /\ in_lane Critical (a_slots busy) = 1.
Proof.
  destruct (admission_bounded 2 None busy busy_reached) as (_ & _ & _ & _ & _ & W). split; [vm_compute; reflexivity|].
  split; [apply (W General (3%nat, "push")); vm_compute; by left|vm_compute; reflexivity].
Defined.

(** * Slots in time ([jobs/scheduler.ts]) *)
(** 32-bit FNV-1a over the code units of a label. *)
Definition fnv_step (h : Z) (c : ascii) : Z := Z.land (Z.lxor h (Z.of_nat (nat_of_ascii c)) * 0x01000193) (Z.ones 32).
Definition fnv1a (text : string) : Z := fold_left fnv_step (list_ascii_of_string text) 0x811c9dc5.
(** Whole milliseconds. *)
Definition jobOffsetMs (label : string) (intervalMs : Z) : Z :=
  let unit := if 60000 <=? intervalMs then 1000 else 1 in
  (fnv1a label mod Z.max 1 (intervalMs / unit)) * unit.
(** [%] of JavaScript is [Z.rem]; [jitter] is [Math.floor(random() * intervalMs * 0.1)]. *)
Definition nextDelayMs (label : string) (intervalMs now jitter : Z) : Z :=
  let offset := jobOffsetMs label intervalMs in
  let delay := intervalMs - Z.rem (Z.rem (now - offset) intervalMs + intervalMs) intervalMs in
  (if 10 * delay <? intervalMs then delay + intervalMs else delay) + jitter.

Lemma fnv_step_range h c : 0 <= fnv_step h c < 2 ^ 32.
Proof. unfold fnv_step. rewrite Z.land_ones by lia. apply Z.mod_pos_bound. lia. Qed.
Lemma fnv1a_range text : 0 <= fnv1a text < 2 ^ 32.
Proof.
  unfold fnv1a. assert (G : forall l h, 0 <= h < 2 ^ 32 -> 0 <= fold_left fnv_step l h < 2 ^ 32); [|by apply G].
  induction l as [|c l IH]; intros h Hh; cbn; [done|]. apply IH, fnv_step_range.
Qed.
(** [((x % i) + i) % i] is the mathematical remainder. *)
Lemma js_mod x i : 0 < i -> Z.rem (Z.rem x i + i) i = x mod i.
Proof.
  intros Hi. pose proof (Z.rem_bound_abs x i ltac:(lia)) as B. rewrite Z.rem_mod_nonneg by lia.
  pose proof (Z.quot_rem' x i) as Q. replace (Z.rem x i + i) with (x + (1 - Z.quot x i) * i) by lia. apply Z_mod_plus_full.
Qed.
Lemma job_offset_range label interval : 0 < interval -> 0 <= jobOffsetMs label interval < interval.
Proof.
  intros Hi. unfold jobOffsetMs. cbv zeta. destruct (60000 <=? interval) eqn:E; bool_props.
  - pose proof (Z.div_mod interval 1000 ltac:(lia)). pose proof (Z.mod_pos_bound interval 1000 ltac:(lia)).
    pose proof (Z.mod_pos_bound (fnv1a label) (Z.max 1 (interval / 1000)) ltac:(lia)). nia.
  - rewrite Z.div_1_r. pose proof (Z.mod_pos_bound (fnv1a label) (Z.max 1 interval) ltac:(lia)). lia.
Qed.
(** The timer of a job. Its offset lies inside its interval; without the jitter the next tick falls exactly on the
    job's slot (offset plus a whole number of intervals), at least a tenth of an interval and less than eleven tenths
    away, so that two ticks are never back to back and no slot further than the next but one is waited for. *)
Theorem next_tick_on_slot label interval now (Hi : 0 < interval) :
  0 <= jobOffsetMs label interval < interval /\
  (now + nextDelayMs label interval now 0 - jobOffsetMs label interval) mod interval = 0 /\
  interval <= 10 * nextDelayMs label interval now 0 < 11 * interval.
Proof.
  split; [by apply job_offset_range|]. unfold nextDelayMs. cbv zeta. set (o := jobOffsetMs label interval). rewrite js_mod by done.
  pose proof (Z.mod_pos_bound (now - o) interval Hi) as B. pose proof (Z.div_mod (now - o) interval ltac:(lia)) as D.
  set (m := (now - o) mod interval) in *. set (q := (now - o) / interval) in *.
  destruct (10 * (interval - m) <? interval) eqn:E; bool_props; (split; [|lia]).
  - replace (now + (interval - m + interval + 0) - o) with ((q + 2) * interval) by lia. by apply Z_mod_mult.
  - replace (now + (interval - m + 0) - o) with ((q + 1) * interval) by lia. by apply Z_mod_mult.
Qed.
Lemma next_tick_on_slot_witness : jobOffsetMs "push" 60000 = 17000 /\ nextDelayMs "push" 60000 1000 0 = 16000 /\
  (1000 + nextDelayMs "push" 60000 1000 0 - jobOffsetMs "push" 60000) mod 60000 = 0.
Proof.
  split; [vm_compute; reflexivity|]. split; [vm_compute; reflexivity|]. apply (next_tick_on_slot "push" 60000 1000). lia.
Defined.
